(* ===== verification/_CoqProject ===== *)
-Q . S2P
Prelude.v
Mem.v
Strings.v
Digits.v
Locks.v
Kalloc.v
Vm.v
PageTable.v
Space.v
BootMem.v
VmProps.v
ProcState.v
Vma.v
Proc.v
ProcFacts.v
BootProc.v
UserInit.v
UserCopy.v
AreaCopy.v
VmaFacts.v
SchedFacts.v
Sleeplock.v
Bio.v
Virtio.v
VirtioFacts.v
Circ.v
UserMem.v
Pipe.v
RingBuf.v
FatName.v
Fat.v
FatFile.v
FatDir.v
Console.v
File.v
PrintFacts.v
Args.v
ProcLife.v
ProcExit.v
SysFile.v
Mmap.v
Signal.v
Exec.v
Timer.v
Machine.v
SysProc.v
Syscall.v
TrapFacts.v
TickFacts.v
Boot.v
BootFacts.v
FdCalls.v
Fork.v
ArgFacts.v
Ulib.v
Grep.v
Umalloc.v
Sh.v
ShFacts.v
ShRun.v
Progs.v
ProgFacts.v
