(* ===== verification/Prelude.v ===== *)
(** * A model of the xv6-style kernel for LoongArch64 and its user programs

    The development models the C code of the kernel (under kernel/) and of the
    programs that run on it (under user/), component by component, from the
    spin locks up to the file system.  Each file opens with what it holds; this
    comment is the map.

    ** Files and sources

    - Prelude: machine integers at their width ([u8] .. [s64]), the monad of
      kernel code, lenses, the rule [wp] for reasoning about it, lists.
    - Mem, Strings: kernel/string.c.  Mem has the byte-addressed memory and the
      block routines, Strings the character routines on arrays.
    - Locks: kernel/intr.c and kernel/spinlock.c over a hart's registers; its
      Module Race runs the accesses of several harts in any order.
    - Kalloc: kernel/kalloc.c, the free list threaded through the free pages.
    - Vm, PageTable, VmProps: kernel/vm.c, its four-level tables in memory and
      the copies across them; what a table means; the properties.
    - Space, BootMem, BootProc, UserInit, UserCopy, AreaCopy: address spaces
      that grow while the kernel hands pages out; the kernel's own table, the
      first process and its program, as start-up makes them; the memory and the
      areas of a child.
    - ProcState, Vma, VmaFacts, Proc, ProcFacts, SchedFacts: the process table,
      kernel/vma.c, kernel/proc.c (but what is in ProcLife and Syscall) and
      their properties.
    - Sleeplock: kernel/sleeplock.c.
    - Bio: kernel/bio.c, kernel/disk.c and kernel/ramdisk.c.
    - Virtio, VirtioFacts: kernel/virtio_disk.c and kernel/disk.c built with it;
      the rings and the requests in flight.
    - Circ: circular buffers, shared by the users of one below.
    - UserMem: copying to and from a window of user memory by value.
    - Pipe, RingBuf: kernel/pipe.c and kernel/ring_buffer.c.
    - FatName, Fat, FatFile, FatDir: kernel/fat32.c.  FatName has names and
      directory entries as arrays of bytes, Fat the volume, the allocation
      table and the bytes of files, FatDir the entry cache, directories and
      paths; FatFile has the facts and theorems about Fat.
    - Digits: the conversion of numbers to text, shared by the two printf.
    - Console: kernel/uart.c, kernel/console.c, kernel/printf.c and procdump.
    - File: kernel/file.c and pipealloc, which tie pipes, files and devices to
      descriptors.
    - Ulib, Grep: user/ulib.c, user/printf.c and user/grep.c, over an interface
      of the system calls they make.
    - Umalloc: user/umalloc.c, the free list in the program's memory, over the
      call that grows the program.
    - Sh, ShFacts, ShRun: user/sh.c.  Sh has the parser, ShFacts its facts, ShRun
      the variables, the commands as trees of system calls and the main loop.
    - Args: the arguments of system calls and descriptors: kernel/syscall.c and
      the first part of kernel/sysfile.c.
    - ProcLife, ProcExit: [fork], [clone] and [exit], which stand on open files;
      what [exit] leaves in the process table.
    - SysFile, SysProc, Mmap, Signal, Exec: the handlers of kernel/sysfile.c,
      kernel/sysproc.c, kernel/mmap.c, kernel/signal.c with kernel/syssig.c, and
      kernel/exec.c.
    - Timer: kernel/timer.c and kernel/systime.c, and the state of the whole
      kernel.
    - Syscall, TrapFacts, TickFacts: the table and the dispatch of
      kernel/syscall.c and kernel/trap.c; a system call from the trap to the
      return; a timer interrupt, the process switched away and resumed.
    - PrintFacts, ArgFacts, FdCalls, Fork: what [printf] prints, string arguments,
      the calls on descriptors against a table, what [fork] makes.
    - Progs, ProgFacts: the small programs of user/ as interaction trees; what cat
      and wc do with a stream.
    - Machine, Boot, BootFacts: the control registers by number
      (kernel/include/loongarch.h), kernel/apic.c, kernel/extioi.c,
      kernel/gdbdebug.c and the paging registers of kernel/vm.c; kernel/main.c,
      the loop of the scheduler, [panic] and [backtrace]; what hart 0 has when it
      gives the processor to the first process.

    ** State

    A layer's state is a record, with a lens for each field, and a layer above
    puts its state beside that of the layer below: [hart] (Locks), [kst]
    (Kalloc: memory, free list, hart), [pst] (ProcState: [kst], the process
    table, the areas), [pst * bio] (Bio), [pst * (bio * vdisk)] (Virtio), [pst
    * (bio * fsys)] (Fat), [kern] (File: all of these with the table of open
    files, the pipes and the devices), [ksys] (Timer: [kern], the clock, the
    timers, the log and the control registers), [mach] (Machine: [ksys], the other
    control registers, the stores to devices). [zoom] runs code of a layer on
    its part. A C pointer into memory is the integer it is; a pointer to an
    element of a static table is the index of the element; a pointer that
    walks an array the code does not keep is the list of the elements from
    there on.

    ** Effects

    A C function is a definition in the monad [M S A], a state to an outcome:
    [Ret]urn, [Panic], [Undef]ined behaviour (a null or out-of-range access, a
    division by zero), [NoFuel], or [Yield]: the code spins on a lock word or
    leaves the processor, and goes on from whatever state it is resumed in.
    So what another hart or process does meanwhile is the environment of a
    resumption, and the theorems that cross one say what they assume of it
    (ProcFacts, Sleeplock, VirtioFacts).  The other theorems show that no [Yield]
    happens.  The small user programs are interaction trees (Progs): they may run
    for ever, and what answers their calls is a parameter.

    The code prints.  The kernel's [printf] is above most of the kernel: what the
    layers below the console print is recorded in the order it is printed, format
    and arguments, in [k_said] of [kst], so that a theorem that says what a
    function leaves says what it has printed too; from Console on, printing is the
    bytes the UART gets.  kernel/kalloc.c and kernel/vm.c define DEBUG for
    themselves, and what they print under it is there; elsewhere DEBUG is off,
    as the Makefile leaves it.

    Interrupts are modelled where the code handles them (the enable bit, the
    nesting depth); [panic] is an outcome and not a loop.

    ** Fuel and bounds

    A loop with no bound of its own takes fuel, and the theorems state the
    fuel that is enough: the turns of the C loop for copies (pages touched,
    plus two), for walks of lists the number of nodes, for chains of clusters
    one turn a cluster, for waiting loops one turn when the condition already
    holds.  A function with [for] bounds folds over the list of the indices.
    Integers wrap as their C type does; additions that cannot overflow for any
    state the code reaches are left as they are only where the type is the
    64-bit one of addresses or the value is bounded by a constant of the code.

    ** What the theorems show

    Locks nest and exclude, and a lock of another hart is waited for and not
    released; pages are never held twice; mapping and copying
    touch exactly what they should, and where they stop; areas stay sorted and
    disjoint, and a new one is mapped as a whole or not at all (VmaFacts);
    sleeping and waking lose nothing; a sleeplock is exclusive, whoever waits for
    it; the buffer cache is the disk; pipes are bounded queues whose two ends wait
    for each other, rings are queues; file names survive
    the directory's encoding; file contents are read as written; truncation
    ends with the chain free.
    A line typed at the console is edited as a line editor would and read once;
    the reference counts of open files are the number of their holders; bytes
    written to a pipe's descriptor are read from its other end; the matcher of
    grep decides a declarative notion of match; numbers printed are read back;
    a pass of the scheduler reaches every runnable process and ends
    (SchedFacts);
    the blocks a program holds from malloc stay apart and as it wrote them;
    the shell's parser ends on every line, with a tree the grammar has for the
    tokens of the line or a message, and reads back what can be written; a command starts what its tree says, on the descriptors it says;
    an exiting process leaves a zombie, hands its children on and wakes who
    waits for it (ProcExit); a system call hands its handler's result to the
    program and lets it go on behind the call (TrapFacts); a timer interrupt
    shares the processor and drives the clock (TickFacts); descriptors are
    those of a table, and their files counted (FdCalls); a string argument is
    the string at the address the program gave, within bounds (ArgFacts);
    every disk request owns its descriptors and waits until it is told, and the
    disk interrupt tells exactly the finished ones, or panics for a failed one
    (VirtioFacts); wc counts and cat copies whatever a read
    gives (ProgFacts); [fork] makes a child that has what its parent has, on
    pages of its own with the same use and write access (the marks against reading
    and executing are lost: Fork), and a copy of memory that fails leaves nothing
    mapped (UserCopy); hart 0 comes from [main] to the first process (BootFacts).
    Each property has a witness that runs the theorem on a concrete state,
    where it has hypotheses.  Where the code does not do what it means to, the
    theorem states what it does ([freewalk_frees_root_only], [alloc_clus_marks],
    the files [dup3] loses in [fd_calls]).

    ** Not modelled, and why

    - Assembly (entry, trap vectors, [userret], the context switch, the signal
      trampoline, the TLB refill): the model of start-up begins at [main], with
      the stack and [tp] set up, and that of a trap at [usertrap] and
      [kerneltrap].  The registers of the paging unit and of the interrupt
      controllers are written; that the hardware then walks the tables is
      [walks_alike] of BootFacts and no more.
    - A hart other than 0 is modelled up to its scheduler, and not run beside
      hart 0 while that starts.  A [panic] inside other code is an outcome;
      [panic_at] of Boot is what it prints.
    - The code of the system calls that is commented out; kernel/futex.c, whose
      kernel/include/thread.h the repository does not have.
    - initcode, the test programs (usertests and the like) and the build files. *)

From stdpp Require Export base decidable list list_numbers gmap strings.
From Stdlib Require Export ZArith Lia.

#[global] Open Scope Z_scope.
#[global] Arguments Z.mul : simpl nomatch.
#[global] Arguments Z.add : simpl nomatch.
#[global] Arguments Z.sub : simpl nomatch.
#[global] Arguments Z.pow : simpl never.
#[global] Arguments Z.modulo : simpl never.
#[global] Arguments Z.div : simpl never.
#[global] Arguments Z.land : simpl never.
#[global] Arguments Z.lor : simpl never.
#[global] Arguments Z.shiftl : simpl never.
#[global] Arguments Z.shiftr : simpl never.
#[global] Arguments seqZ : simpl never.
#[global] Arguments Z.testbit : simpl never.
#[global] Arguments Z.lnot : simpl never.
#[global] Arguments Z.lxor : simpl never.

(** * Machine integers

    A C object of an integer type is the mathematical integer it stands for;
    conversions wrap as the target does. *)

Definition u8 (z : Z) : Z := z mod 2 ^ 8.
Definition u16 (z : Z) : Z := z mod 2 ^ 16.
Definition u32 (z : Z) : Z := z mod 2 ^ 32.
Definition u64 (z : Z) : Z := z mod 2 ^ 64.
Definition s8 (z : Z) : Z := (z + 2 ^ 7) mod 2 ^ 8 - 2 ^ 7.
Definition s16 (z : Z) : Z := (z + 2 ^ 15) mod 2 ^ 16 - 2 ^ 15.
Definition s32 (z : Z) : Z := (z + 2 ^ 31) mod 2 ^ 32 - 2 ^ 31.
Definition s64 (z : Z) : Z := (z + 2 ^ 63) mod 2 ^ 64 - 2 ^ 63.

(** C truth values. *)
Definition b2z (b : bool) : Z := if b then 1 else 0.
Definition truth (z : Z) : bool := negb (z =? 0).

(** [lia] after turning every quotient and remainder by a constant into its
    defining equations. *)
Ltac zlia :=
  unfold u8, u16, u32, u64, s8, s16, s32, s64, truth, b2z in *;
  change (2 ^ 7) with 128 in *; change (2 ^ 8) with 256 in *;
  change (2 ^ 15) with 32768 in *; change (2 ^ 16) with 65536 in *;
  change (2 ^ 31) with 2147483648 in *; change (2 ^ 32) with 4294967296 in *;
  change (2 ^ 63) with 9223372036854775808 in *;
  change (2 ^ 64) with 18446744073709551616 in *;
  Z.div_mod_to_equations; lia.

Lemma u8_range z : 0 <= u8 z < 256.
Proof. unfold u8. apply Z.mod_pos_bound. lia. Qed.
Lemma u16_range z : 0 <= u16 z < 65536.
Proof. unfold u16. apply Z.mod_pos_bound. lia. Qed.
Lemma u32_range z : 0 <= u32 z < 4294967296.
Proof. unfold u32. apply Z.mod_pos_bound. lia. Qed.
Lemma u64_range z : 0 <= u64 z < 18446744073709551616.
Proof. unfold u64. apply Z.mod_pos_bound. lia. Qed.
Lemma s32_range z : -2147483648 <= s32 z < 2147483648.
Proof. unfold s32. pose proof (Z.mod_pos_bound (z + 2 ^ 31) (2 ^ 32)). lia. Qed.

Lemma u8_small z : 0 <= z < 256 -> u8 z = z.
Proof. intros H. apply Z.mod_small. lia. Qed.
Lemma u16_small z : 0 <= z < 65536 -> u16 z = z.
Proof. intros H. apply Z.mod_small. lia. Qed.
Lemma u32_small z : 0 <= z < 4294967296 -> u32 z = z.
Proof. intros H. apply Z.mod_small. lia. Qed.
Lemma u64_small z : 0 <= z < 18446744073709551616 -> u64 z = z.
Proof. intros H. apply Z.mod_small. lia. Qed.
Lemma s32_small z : -2147483648 <= z < 2147483648 -> s32 z = z.
Proof. intros H. unfold s32. rewrite Z.mod_small; lia. Qed.
Lemma s8_small z : 0 <= z < 128 -> s8 z = z.
Proof. intros H. unfold s8. rewrite Z.mod_small; lia. Qed.
Lemma land_le x y : 0 <= x -> Z.land x y <= x.
Proof.
  intros Hx. apply Z.ldiff_le; [done|]. apply Z.bits_inj'. intros n _.
  rewrite Z.ldiff_spec, Z.land_spec, Z.bits_0.
  by destruct (Z.testbit x n), (Z.testbit y n).
Qed.
(** A mask cut to the width of the other operand. *)
Lemma land_mod_r a z w : 0 <= w -> 0 <= a < 2 ^ w -> Z.land a (z mod 2 ^ w) = Z.land a z.
Proof.
  intros Hw Ha. rewrite <- Z.land_ones by done.
  rewrite (Z.land_comm z), Z.land_assoc, Z.land_ones by done.
  by rewrite Z.mod_small.
Qed.
(** Clearing the low [n] bits. *)
Lemma land_lnot_ones a n : 0 <= n -> Z.land a (Z.lnot (Z.ones n)) = a / 2 ^ n * 2 ^ n.
Proof.
  intros Hn. rewrite <- Z.ldiff_land, Z.ldiff_ones_r by done.
  by rewrite Z.shiftl_mul_pow2, Z.shiftr_div_pow2.
Qed.
(** Low bits and high bits do not meet. *)
Lemma land_low_high r k n : 0 <= n -> 0 <= r < 2 ^ n -> Z.land r (k * 2 ^ n) = 0.
Proof.
  intros Hn Hr. apply Z.bits_inj'. intros i Hi. rewrite Z.land_spec, Z.bits_0.
  destruct (Z.lt_ge_cases i n).
  - rewrite <- Z.shiftl_mul_pow2, Z.shiftl_spec_low by done. apply andb_false_r.
  - rewrite <- (Z.mod_small r (2 ^ n)) by done. by rewrite Z.mod_pow2_bits_high by lia.
Qed.
Lemma lor_low_high r k n : 0 <= n -> 0 <= r < 2 ^ n -> Z.lor r (k * 2 ^ n) = r + k * 2 ^ n.
Proof.
  intros Hn Hr. rewrite Z.add_nocarry_lxor by (by apply land_low_high).
  rewrite <- Z.lxor_lor; [done|by apply land_low_high].
Qed.
Lemma lor_range a b n : 0 <= n -> 0 <= a < 2 ^ n -> 0 <= b < 2 ^ n -> 0 <= Z.lor a b < 2 ^ n.
Proof.
  intros Hn Ha Hb. assert (Z.lor a b = Z.land (Z.lor a b) (Z.ones n)) as ->.
  { by rewrite Z.land_lor_distr_l, !Z.land_ones, !Z.mod_small by done. }
  rewrite Z.land_ones by done. apply Z.mod_pos_bound. lia.
Qed.
(** The [n] bits from bit [k] on. *)
Lemma land_field x k n : 0 <= k -> 0 <= n ->
  Z.land x (Z.shiftl (Z.ones n) k) = (x / 2 ^ k) mod 2 ^ n * 2 ^ k.
Proof.
  intros Hk Hn. rewrite <- Z.land_ones, <- Z.shiftr_div_pow2, <- Z.shiftl_mul_pow2 by done.
  apply Z.bits_inj'. intros i Hi. rewrite Z.land_spec.
  destruct (Z.lt_ge_cases i k).
  - rewrite !Z.shiftl_spec_low by done. apply andb_false_r.
  - rewrite !Z.shiftl_spec by done. rewrite Z.land_spec, Z.shiftr_spec by lia.
    by replace (i - k + k) with i by lia.
Qed.
Lemma u8_idem z : u8 (u8 z) = u8 z.
Proof. apply u8_small, u8_range. Qed.
Lemma u32_idem z : u32 (u32 z) = u32 z.
Proof. apply u32_small, u32_range. Qed.

(** * Outcomes and the kernel monad

    A piece of kernel code takes the state of its layer to an outcome: it
    returns ([Ret]); it reaches [panic()] ([Panic]); it does something C leaves
    undefined ([Undef]: a null or out-of-bounds access, a division by zero); a
    bounded search ran out of the fuel it was given ([NoFuel]); or it gives up
    control ([Yield]), because it spins on a lock another hart holds or because
    it switched to the scheduler, and goes on from whatever state it is resumed
    in. *)

Inductive wait_reason :=
| WSpin   (** spins on a lock word *)
| WSched. (** left the processor through [swtch] *)

Inductive res (S A : Type) : Type :=
| Ret (a : A) (s : S)
| Panic (msg : string)
| Undef (why : string)
| NoFuel
| Yield (w : wait_reason) (k : S -> res S A) (s : S).
Arguments Ret {S A} a s.
Arguments Panic {S A} msg.
Arguments Undef {S A} why.
Arguments NoFuel {S A}.
Arguments Yield {S A} w k s.

Definition M (S A : Type) : Type := S -> res S A.

Section Monad.
Context {S : Type}.

Fixpoint rbind {A B} (r : res S A) (f : A -> S -> res S B) : res S B :=
  match r with
  | Ret a s => f a s
  | Panic m => Panic m
  | Undef w => Undef w
  | NoFuel => NoFuel
  | Yield w k s => Yield w (fun s' => rbind (k s') f) s
  end.

#[global] Instance M_ret : MRet (M S) := fun A a s => Ret a s.
#[global] Instance M_bind : MBind (M S) :=
  fun A B f m s => rbind (m s) f.

Definition get : M S S := fun s => Ret s s.
Definition gets {A} (f : S -> A) : M S A := fun s => Ret (f s) s.
Definition put (s : S) : M S unit := fun _ => Ret tt s.
Definition modify (f : S -> S) : M S unit := fun s => Ret tt (f s).
Definition panic {A} (msg : string) : M S A := fun _ => Panic msg.
Definition undef {A} (why : string) : M S A := fun _ => Undef why.
Definition nofuel {A} : M S A := fun _ => NoFuel.
(** An access that is undefined where the option is empty. *)
Definition lift {A} (why : string) (o : option A) : M S A :=
  match o with Some a => mret a | None => undef why end.

Definition when (b : bool) (m : M S unit) : M S unit :=
  if b then m else mret tt.

(** [for] over a list of indices, without and with an early [return]. *)
Fixpoint for_each {I} (l : list I) (body : I -> M S unit) : M S unit :=
  match l with
  | [] => mret tt
  | i :: l' => _ ← body i; for_each l' body
  end.
Fixpoint for_until {I B} (l : list I) (body : I -> M S (option B))
  : M S (option B) :=
  match l with
  | [] => mret None
  | i :: l' =>
      r ← body i;
      match r with Some b => mret (Some b) | None => for_until l' body end
  end.
(** [for_until] that threads the values of the loop's own variables. *)
Fixpoint for_acc {I L B} (l : list I) (v : L) (body : I -> L -> M S (L + B))
  : M S (L + B) :=
  match l with
  | [] => mret (inl v)
  | i :: l' =>
      r ← body i v;
      match r with inl v' => for_acc l' v' body | inr b => mret (inr b) end
  end.
(** A loop with no bound of its own: [body] says [inl] to go round again. *)
Fixpoint loop {L B} (fuel : nat) (v : L) (body : L -> M S (L + B)) : M S B :=
  match fuel with
  | O => nofuel
  | Datatypes.S fuel' =>
      r ← body v;
      match r with inl v' => loop fuel' v' body | inr b => mret b end
  end.
End Monad.

(** * Lenses: a field of a state, and running a component on its part *)

Record lens (S T : Type) := Lens { view : S -> T; update : T -> S -> S }.
Arguments Lens {S T} _ _.
Arguments view {S T} !_ _ /.
Arguments update {S T} !_ _ _ /.

(** What a lens that is written and then read satisfies; the entry of a table
    with a default is such a lens. *)
Class LensPut {S T} (l : lens S T) : Prop := {
  view_update : forall t s, view l (update l t s) = t;
  update_update : forall t t' s, update l t (update l t' s) = update l t s
}.
(** A field that is always there. *)
Class LensLaws {S T} (l : lens S T) : Prop := {
  lens_put :: LensPut l;
  update_view : forall s, update l (view l s) s = s
}.

(** Two lenses that reach disjoint parts of a state. *)
Class LensIndep {S T U} (l : lens S T) (l' : lens S U) : Prop := {
  indep_view : forall t s, view l' (update l t s) = view l' s;
  indep_view' : forall u s, view l (update l' u s) = view l s;
  indep_comm : forall t u s, update l t (update l' u s) = update l' u (update l t s)
}.
Arguments indep_view {S T U} l l' {_}.
Arguments indep_view' {S T U} l l' {_}.
Arguments indep_comm {S T U} l l' {_}.

Definition lcomp {S T U} (l : lens S T) (l' : lens T U) : lens S U :=
  Lens (fun s => view l' (view l s))
       (fun u s => update l (update l' u (view l s)) s).
Infix "⊚" := lcomp (at level 40, left associativity).

#[export] Instance lcomp_put {S T U} (l : lens S T) (l' : lens T U) :
  LensPut l -> LensPut l' -> LensPut (lcomp l l').
Proof.
  intros [vu uu] [vu' uu']. split; intros; simpl.
  - by rewrite vu, vu'.
  - by rewrite uu, vu, uu'.
Qed.
#[export] Instance lcomp_laws {S T U} (l : lens S T) (l' : lens T U) :
  LensLaws l -> LensLaws l' -> LensLaws (lcomp l l').
Proof.
  intros [Hl uv] [Hl' uv']. split; [apply _|]. intros; simpl. by rewrite uv', uv.
Qed.

#[export] Instance indep_sym {S T U} (l : lens S T) (l' : lens S U) :
  LensIndep l l' -> LensIndep l' l | 10.
Proof. intros [iv iv' ic]. split; auto. Qed.
#[export] Instance indep_comp_l {S T U V} (l : lens S T) (m : lens T U) (l' : lens S V) :
  LensIndep l l' -> LensIndep (lcomp l m) l' | 5.
Proof. intros [iv iv' ic]. split; intros; simpl; [apply iv|by rewrite iv'|by rewrite iv', ic]. Qed.
#[export] Instance indep_comp_same {S T U V} (l : lens S T) (m : lens T U) (m' : lens T V) :
  LensPut l -> LensIndep m m' -> LensIndep (lcomp l m) (lcomp l m') | 3.
Proof.
  intros [vu uu] [iv iv' ic]. split; intros; simpl.
  - by rewrite vu, iv.
  - by rewrite vu, iv'.
  - by rewrite !vu, !uu, ic.
Qed.

Lemma upd_comp {S T U} (l : lens S T) (m : lens T U) t s :
  update (l ⊚ m) t s = update l (update m t (view l s)) s.
Proof. done. Qed.
Lemma view_comp {S T U} (l : lens S T) (m : lens T U) s :
  view (l ⊚ m) s = view m (view l s).
Proof. done. Qed.

(** The whole state as a lens. *)
Definition lid {S} : lens S S := Lens (fun s => s) (fun t _ => t).

(** The parts of a pair. *)
Definition fst_l {A B} : lens (A * B) A := Lens fst (fun a p => (a, snd p)).
Definition snd_l {A B} : lens (A * B) B := Lens snd (fun b p => (fst p, b)).
#[export] Instance fst_laws {A B} : LensLaws (@fst_l A B).
Proof. by split; intros; repeat match goal with p : A * B |- _ => destruct p end. Qed.
#[export] Instance snd_laws {A B} : LensLaws (@snd_l A B).
Proof. by split; intros; repeat match goal with p : A * B |- _ => destruct p end. Qed.
#[export] Instance fst_snd_indep {A B} : LensIndep (@fst_l A B) (@snd_l A B).
Proof. by split. Qed.

(** Two parts of a state side by side, for a component that works on both. *)
Definition lpair {S T U} (l : lens S T) (l' : lens S U) : lens S (T * U) :=
  Lens (fun s => (view l s, view l' s)) (fun p s => update l' (snd p) (update l (fst p) s)).
#[export] Instance lpair_laws {S T U} (l : lens S T) (l' : lens S U) :
  LensLaws l -> LensLaws l' -> LensIndep l l' -> LensLaws (lpair l l').
Proof.
  intros [[vu uu] uv] [[vu' uu'] uv'] [iv iv' ic]. split; [split|].
  - intros [t u] s; cbn. by rewrite iv', vu, vu'.
  - intros [t u] [t' u'] s; cbn. by rewrite ic, uu, uu'.
  - intros s; cbn. by rewrite uv, uv'.
Qed.

(** Entry [i] of a table that has a default for the entries never written. *)
Definition lmap {K T} `{Countable K} (i : K) (d : T) : lens (gmap K T) T :=
  Lens (fun m => default d (m !! i)) (fun t m => <[i := t]> m).
#[export] Instance lmap_put {K T} `{Countable K} (i : K) (d : T) : LensPut (lmap i d).
Proof.
  split; intros; simpl; [by rewrite lookup_insert_eq|apply insert_insert_eq].
Qed.
#[export] Instance lmap_indep {K T} `{Countable K} (i j : K) (d : T) :
  TCFastDone (i <> j) -> LensIndep (lmap i d) (lmap j d).
Proof.
  intros Hne. unfold TCFastDone in Hne. split; intros; simpl.
  - by rewrite lookup_insert_ne.
  - by rewrite lookup_insert_ne.
  - by apply insert_insert_ne.
Qed.

(** Element [i] of a table. The C code indexes within the table; the lens
    reads [d] and writes nothing outside it. *)
Definition lnth {T} (i : nat) (d : T) : lens (list T) T :=
  Lens (fun l => default d (l !! i)) (fun t l => <[i := t]> l).

Section Field.
Context {S T : Type} (l : lens S T).

Definition rd : M S T := gets (view l).
Definition wr (t : T) : M S unit := modify (update l t).
Definition md (f : T -> T) : M S unit :=
  modify (fun s => update l (f (view l s)) s).

Fixpoint rzoom {A} (s0 : S) (r : res T A) : res S A :=
  match r with
  | Ret a t => Ret a (update l t s0)
  | Panic m => Panic m
  | Undef w => Undef w
  | NoFuel => NoFuel
  | Yield w k t =>
      Yield w (fun s' => rzoom s' (k (view l s'))) (update l t s0)
  end.
Definition zoom {A} (m : M T A) : M S A := fun s => rzoom s (m (view l s)).
End Field.

Declare Scope kernel_scope.
Delimit Scope kernel_scope with K.
#[global] Open Scope kernel_scope.
Notation "l <~ v" := (wr l v) (at level 70, v at level 69) : kernel_scope.

(** * Weakest preconditions

    [wp m Q s]: from [s], [m] returns, and [Q] holds of its result and its
    final state.  Panics, undefined accesses, lack of fuel and yields are all
    excluded, so a [wp] is a total-correctness statement. *)

Definition wp {S A} (m : M S A) (Q : A -> S -> Prop) (s : S) : Prop :=
  match m s with Ret a s' => Q a s' | _ => False end.

Lemma wp_inv {S A} (m : M S A) Q s :
  wp m Q s <-> exists a s', m s = Ret a s' /\ Q a s'.
Proof.
  unfold wp. split.
  - destruct (m s) eqn:E; [eauto | done..].
  - intros (a & s' & -> & HQ). done.
Qed.

Section Wp.
Context {S : Type}.

Lemma wp_eq {A} (m : M S A) (Q : A -> S -> Prop) s a s' :
  m s = Ret a s' -> Q a s' -> wp m Q s.
Proof. intros E HQ. apply wp_inv. eauto. Qed.
Lemma wp_mret {A} (a : A) (Q : A -> S -> Prop) s : Q a s -> wp (mret a) Q s.
Proof. done. Qed.
Lemma wp_bind {A B} (m : M S A) (f : A -> M S B) Q s :
  wp m (fun a => wp (f a) Q) s -> wp (m ≫= f) Q s.
Proof.
  intros (a & s' & E & H)%wp_inv. unfold wp, mbind, M_bind. by rewrite E.
Qed.
Lemma wp_mono {A} (m : M S A) (Q Q' : A -> S -> Prop) s :
  wp m Q s -> (forall a s', Q a s' -> Q' a s') -> wp m Q' s.
Proof. intros (a & s' & E & H)%wp_inv HQ. apply wp_inv. eauto. Qed.
Lemma wp_modify (f : S -> S) (Q : unit -> S -> Prop) s :
  Q tt (f s) -> wp (modify f) Q s.
Proof. done. Qed.
Lemma wp_gets {A} (f : S -> A) (Q : A -> S -> Prop) s :
  Q (f s) s -> wp (gets f) Q s.
Proof. done. Qed.
Lemma wp_rd {T} (l : lens S T) (Q : T -> S -> Prop) s :
  Q (view l s) s -> wp (rd l) Q s.
Proof. done. Qed.
Lemma wp_wr {T} (l : lens S T) t (Q : unit -> S -> Prop) s :
  Q tt (update l t s) -> wp (wr l t) Q s.
Proof. done. Qed.
Lemma wp_md {T} (l : lens S T) f (Q : unit -> S -> Prop) s :
  Q tt (update l (f (view l s)) s) -> wp (md l f) Q s.
Proof. done. Qed.
Lemma wp_zoom {T A} (l : lens S T) (m : M T A) (Q : A -> S -> Prop) s :
  wp m (fun a t => Q a (update l t s)) (view l s) -> wp (zoom l m) Q s.
Proof.
  intros (a & t & E & H)%wp_inv. unfold wp, zoom. by rewrite E.
Qed.
(** An invariant over the indices already done carries a [for]. *)
Lemma wp_for_each {I} (body : I -> M S unit) (Inv : list I -> S -> Prop)
    (l : list I) Q s :
  Inv [] s ->
  (forall done i rest s, l = done ++ i :: rest -> Inv done s ->
     wp (body i) (fun _ s' => Inv (done ++ [i]) s') s) ->
  (forall s, Inv l s -> Q tt s) ->
  wp (for_each l body) Q s.
Proof.
  intros H0 Hstep HQ.
  enough (forall rest dn s, l = dn ++ rest -> Inv dn s ->
            wp (for_each rest body) Q s) as Hgen
    by (by apply (Hgen l [])).
  clear s H0. induction rest as [|i rest IH]; intros dn s -> Hdn; simpl.
  - apply wp_mret, HQ. by rewrite app_nil_r.
  - apply wp_bind. eapply wp_mono; [by apply (Hstep dn i rest)|].
    intros [] s' Hs'. apply (IH (dn ++ [i])); [|done]. by rewrite <- app_assoc.
Qed.
End Wp.

(** [m] yields, and [Q] holds of the reason, of how it goes on and of the
    state. *)
Definition yields {S A} (m : M S A) (Q : wait_reason -> M S A -> S -> Prop) (s : S) : Prop :=
  match m s with Yield w k s' => Q w k s' | _ => False end.
Lemma yields_inv {S A} (m : M S A) Q s : yields m Q s -> exists w k s', m s = Yield w k s' /\ Q w k s'.
Proof. unfold yields. destruct (m s); try done. eauto. Qed.
Lemma yields_bind {S A B} (m : M S A) (f : A -> M S B) Q s :
  wp m (fun a => yields (f a) Q) s -> yields (m ≫= f) Q s.
Proof. intros (a & s' & E & H)%wp_inv. unfold yields, mbind, M_bind. by rewrite E. Qed.
Lemma yields_seq {S A B} (m : M S A) (f : A -> M S B) (Q : wait_reason -> M S B -> S -> Prop) s :
  yields m (fun w k s1 => Q w (k ≫= f) s1) s -> yields (m ≫= f) Q s.
Proof. unfold yields, mbind, M_bind. by destruct (m s). Qed.
Lemma yields_mono {S A} (m : M S A) (Q Q' : wait_reason -> M S A -> S -> Prop) s :
  yields m Q s -> (forall w k s', Q w k s' -> Q' w k s') -> yields m Q' s.
Proof. unfold yields. destruct (m s); auto. Qed.
Lemma yields_zoom {S T A} (l : lens S T) (m : M T A) Q s :
  yields m (fun w k t => Q w (fun s2 => rzoom l s2 (k (view l s2))) (update l t s)) (view l s) -> yields (zoom l m) Q s.
Proof. unfold yields, zoom. by destruct (m (view l s)). Qed.

(** Runs the head of a straight-line program. *)
Ltac wp_step :=
  lazymatch goal with
  | |- wp (mbind _ _) _ _ => apply wp_bind
  | |- wp (mret _) _ _ => apply wp_mret
  | |- wp (rd _) _ _ => apply wp_rd
  | |- wp (wr _ _) _ _ => apply wp_wr
  | |- wp (md _ _) _ _ => apply wp_md
  | |- wp (gets _) _ _ => apply wp_gets
  | |- wp (modify _) _ _ => apply wp_modify
  | |- wp (zoom _ _) _ _ => apply wp_zoom
  | |- wp (when true _) _ _ => unfold when
  | |- wp (when false _) _ _ => unfold when
  end; cbn beta iota.
Ltac wp_run := repeat wp_step.

(** Evaluates the monad's own operations on a straight-line program. *)
Ltac mrun :=
  cbv beta iota delta [mbind M_bind mret M_ret rd wr md get gets put modify when
                       panic undef nofuel lift zoom lid]; cbn.

(** Sequencing, as equations. *)
Lemma bind_ret {S A B} (m : M S A) (f : A -> M S B) s a s' :
  m s = Ret a s' -> (m ≫= f) s = f a s'.
Proof. intros E. unfold mbind, M_bind. by rewrite E. Qed.
Lemma bind_yield {S A B} (m : M S A) (f : A -> M S B) s w k s' :
  m s = Yield w k s' -> (m ≫= f) s = Yield w (fun t => rbind (k t) f) s'.
Proof. intros E. unfold mbind, M_bind. by rewrite E. Qed.
Lemma bind_bind_ret {S A B C} (m : M S A) (f : A -> M S B) (g : B -> M S C) s a s' :
  m s = Ret a s' -> ((m ≫= f) ≫= g) s = (f a ≫= g) s'.
Proof. intros E. unfold mbind, M_bind. by rewrite E. Qed.
Lemma bind_bind_yield {S A B C} (m : M S A) (f : A -> M S B) (g : B -> M S C) s w k s' :
  m s = Yield w k s' -> exists k', ((m ≫= f) ≫= g) s = Yield w k' s'
    /\ forall t a t', k t = Ret a t' -> k' t = (f a ≫= g) t'.
Proof.
  intros E. eexists. split; [apply bind_yield, bind_yield, E|]. intros t a t' Ek. cbn beta. rewrite Ek. done.
Qed.
Lemma loop_yield {S L B} n (v : L) (body : L -> M S (L + B)) s w k s' :
  body v s = Yield w k s' -> exists k', loop (Datatypes.S n) v body s = Yield w k' s'.
Proof. intros E. eexists. cbn [loop]. by erewrite bind_yield. Qed.
Lemma zoom_ret {S T A} (l : lens S T) (m : M T A) s a t :
  m (view l s) = Ret a t -> zoom l m s = Ret a (update l t s).
Proof. intros E. unfold zoom. by rewrite E. Qed.
Lemma wp_ret_eq {S A} (m : M S A) s a s' :
  wp m (fun x t => x = a /\ t = s') s <-> m s = Ret a s'.
Proof.
  rewrite wp_inv. split; [by intros (? & ? & E & -> & ->)|eauto].
Qed.

(** Runs a computation that may yield against the states the rest of the
    system hands back, in order. *)
Fixpoint run_env {S A} (env : list (S -> S)) (r : res S A) : res S A :=
  match r, env with
  | Yield _ k s, e :: env' => run_env env' (k (e s))
  | _, _ => r
  end.

Create HintDb kernel.
#[export] Hint Resolve u8_range u16_range u32_range u64_range : kernel.

(** * Lists *)

Lemma seqZ_In a n i : In i (seqZ a n) <-> a <= i < a + n.
Proof. rewrite <- list_elem_of_In. rewrite elem_of_seqZ. lia. Qed.

Lemma seqZ_snoc a n : 0 <= n -> seqZ a (n + 1) = seqZ a n ++ [a + n].
Proof.
  intros Hn. replace (n + 1) with (Z.succ n) by lia.
  unfold seqZ. rewrite Z2Nat.inj_succ by done.
  rewrite seq_S, fmap_app. simpl. do 2 f_equal. lia.
Qed.

(** A [for] that counts up and may leave early. *)
Lemma wp_for_acc {S L B} (body : Z -> L -> M S (L + B)) (Inv : Z -> L -> S -> Prop)
    (Q : L + B -> S -> Prop) a k v s :
  0 <= k -> Inv a v s ->
  (forall i v s, a <= i < a + k -> Inv i v s ->
     wp (body i v) (fun r s' => match r with
                                | inl v' => Inv (i + 1) v' s'
                                | inr b => Q (inr b) s'
                                end) s) ->
  (forall v s, Inv (a + k) v s -> Q (inl v) s) ->
  wp (for_acc (seqZ a k) v body) Q s.
Proof.
  intros Hk. revert k Hk a v s. refine (natlike_ind _ _ _).
  - intros a v s H0 _ HQ. cbn. apply HQ. by rewrite Z.add_0_r.
  - intros k Hk IH a v s H0 Hstep HQ. rewrite seqZ_cons by lia. rewrite Z.pred_succ.
    cbn [for_acc]. apply wp_bind. eapply wp_mono; [apply (Hstep a v s); [lia|done]|].
    intros [v'|b] s' H; [|done]. apply (IH (Z.succ a)).
    + by rewrite <- Z.add_1_r.
    + intros i w t Hi. apply Hstep. lia.
    + intros w t Hw. apply HQ. by replace (a + Z.succ k) with (Z.succ a + k) by lia.
Qed.

(** A search that counts up: the invariant holds of the indices passed. *)
Lemma wp_for_until {S B} (body : Z -> M S (option B)) (Inv : Z -> S -> Prop)
    (Q : option B -> S -> Prop) a k s :
  0 <= k -> Inv a s ->
  (forall i s, a <= i < a + k -> Inv i s ->
     wp (body i) (fun r s' => match r with
                              | None => Inv (i + 1) s'
                              | Some x => Q (Some x) s'
                              end) s) ->
  (forall s, Inv (a + k) s -> Q None s) ->
  wp (for_until (seqZ a k) body) Q s.
Proof.
  intros Hk. revert k Hk a s. refine (natlike_ind _ _ _).
  - intros a s H0 _ HQ. cbn. apply HQ. by rewrite Z.add_0_r.
  - intros k Hk IH a s H0 Hstep HQ. rewrite seqZ_cons by lia. rewrite Z.pred_succ.
    cbn [for_until]. apply wp_bind. eapply wp_mono; [apply (Hstep a s); [lia|done]|].
    intros [b|] s' H; [done|]. apply (IH (Z.succ a)).
    + by rewrite <- Z.add_1_r.
    + intros i t Hi. apply Hstep. lia.
    + intros t Ht. apply HQ. by replace (a + Z.succ k) with (Z.succ a + k) by lia.
Qed.

(** A search through a list: the invariant holds of what was passed. *)
Lemma wp_for_until_done {S I B} (body : I -> M S (option B)) (Inv : list I -> S -> Prop) l (Q : option B -> S -> Prop) s :
  Inv [] s ->
  (forall dn i todo s, l = dn ++ i :: todo -> Inv dn s ->
     wp (body i) (fun r s' => match r with None => Inv (dn ++ [i]) s' | Some b => Q (Some b) s' end) s) ->
  (forall s, Inv l s -> Q None s) -> wp (for_until l body) Q s.
Proof.
  intros H0 Hstep HQ.
  enough (forall todo dn s, l = dn ++ todo -> Inv dn s -> wp (for_until todo body) Q s) as Hgen by (by apply (Hgen l [])).
  clear s H0. induction todo as [|i todo IH]; intros dn s -> Hdn; cbn [for_until].
  - apply wp_mret, HQ. by rewrite app_nil_r.
  - apply wp_bind. eapply wp_mono; [by apply (Hstep dn i todo)|]. intros [b|] s' Hs'; [by apply wp_mret|].
    apply (IH (dn ++ [i])); [|done]. by rewrite <- app_assoc.
Qed.

(** A loop whose turns bring a measure down. *)
Lemma wp_loop {S L B} (body : L -> M S (L + B)) (Inv : L -> S -> Prop) (meas : L -> S -> nat)
    (Q : B -> S -> Prop) fuel v s :
  Inv v s -> (meas v s < fuel)%nat ->
  (forall v s, Inv v s -> wp (body v) (fun r s' => match r with
     | inl v' => Inv v' s' /\ (meas v' s' < meas v s)%nat
     | inr b => Q b s' end) s) ->
  wp (loop fuel v body) Q s.
Proof.
  intros Hi Hf Hb. revert v s Hi Hf. induction fuel as [|fuel IH]; intros v s Hi Hf; [lia|].
  cbn [loop]. apply wp_bind. eapply wp_mono; [by apply Hb|].
  intros [v'|b] s' H; [|by apply wp_mret]. destruct H as [Hi' Hm]. apply IH; [done|lia].
Qed.

(** Every loop that counts up is a fold over [seqZ]; this is its induction
    principle. *)
Lemma foldl_seqZ_ind {A} (P : Z -> A -> Prop) (f : A -> Z -> A) a n x :
  P 0 x -> 0 <= n ->
  (forall i y, 0 <= i < n -> P i y -> P (i + 1) (f y (a + i))) ->
  P n (foldl f x (seqZ a n)).
Proof.
  intros H0 Hn. revert H0. revert n Hn.
  refine (natlike_ind _ _ _).
  - intros H0 _. done.
  - intros n Hn IH H0 Hstep. replace (Z.succ n) with (n + 1) by lia.
    rewrite seqZ_snoc by done. rewrite foldl_app. simpl.
    apply Hstep; [lia|]. apply IH; [done|]. intros i y Hi. apply Hstep. lia.
Qed.

Lemma flat_map_ext_in {A B} (f g : A -> list B) l :
  (forall x, In x l -> f x = g x) -> flat_map f l = flat_map g l.
Proof.
  induction l as [|x l IH]; intros H; simpl; [done|].
  rewrite H by (by left). f_equal. apply IH. intros y Hy. apply H. by right.
Qed.
