(* ===== verification/Mem.v ===== *)
(** Byte-addressed memory and the routines of kernel/string.c.

    Pointers are the integers they stand for.  A memory maps an address to the
    byte last stored there; nothing is assumed of the bytes it starts with.
    The block routines ([memset], [memmove], [memcmp]) work on that memory;
    the character and wide-character routines walk arrays, given as the list
    of the elements from the pointer to the end of the array, and a walk past
    the end has no value ([None]). *)

From S2P Require Import Prelude.

Abbreviation mem := (gmap Z Z).

(** * Loads and stores, little endian *)

Definition rd8 (m : mem) (a : Z) : Z := u8 (default 0 (m !! a)).
Definition wr8 (m : mem) (a v : Z) : mem := <[a := u8 v]> m.

Fixpoint rdn (n : nat) (m : mem) (a : Z) : Z :=
  match n with O => 0 | S n' => rd8 m a + 256 * rdn n' m (a + 1) end.
Fixpoint wrn (n : nat) (m : mem) (a v : Z) : mem :=
  match n with O => m | S n' => wrn n' (wr8 m a v) (a + 1) (v / 256) end.

Definition rd16 : mem -> Z -> Z := rdn 2.
Definition rd32 : mem -> Z -> Z := rdn 4.
Definition rd64 : mem -> Z -> Z := rdn 8.
Definition wr16 : mem -> Z -> Z -> mem := wrn 2.
Definition wr32 : mem -> Z -> Z -> mem := wrn 4.
Definition wr64 : mem -> Z -> Z -> mem := wrn 8.
#[global] Arguments rd16 : simpl never.
#[global] Arguments rd32 : simpl never.
#[global] Arguments rd64 : simpl never.
#[global] Arguments wr16 : simpl never.
#[global] Arguments wr32 : simpl never.
#[global] Arguments wr64 : simpl never.

Lemma rd8_range m a : 0 <= rd8 m a < 256.
Proof. apply u8_range. Qed.
Lemma rd8_wr8 m a v b : rd8 (wr8 m a v) b = if decide (a = b) then u8 v else rd8 m b.
Proof.
  unfold rd8, wr8. destruct (decide (a = b)) as [->|H].
  - rewrite lookup_insert_eq. simpl. by rewrite u8_idem.
  - by rewrite lookup_insert_ne.
Qed.

Lemma rdn_range n m a : 0 <= rdn n m a < 256 ^ Z.of_nat n.
Proof.
  revert a. induction n as [|n IH]; intros a; [done|].
  rewrite Nat2Z.inj_succ, Z.pow_succ_r by lia. simpl rdn.
  pose proof (rd8_range m a). specialize (IH (a + 1)). lia.
Qed.

(** A load depends on the bytes it reads only. *)
Lemma rdn_ext n m m' a b :
  (forall i, 0 <= i < Z.of_nat n -> rd8 m (a + i) = rd8 m' (b + i)) ->
  rdn n m a = rdn n m' b.
Proof.
  revert a b. induction n as [|n IH]; intros a b H; [done|].
  simpl rdn. f_equal.
  - specialize (H 0). rewrite !Z.add_0_r in H. apply H. lia.
  - f_equal. apply IH. intros i Hi.
    rewrite <- !Z.add_assoc. apply H. lia.
Qed.

Lemma rd8_wrn n m a v b :
  rd8 (wrn n m a v) b
  = if decide (a <= b < a + Z.of_nat n) then u8 (v / 256 ^ (b - a)) else rd8 m b.
Proof.
  revert m a v. induction n as [|n IH]; intros m a v.
  - rewrite decide_False by lia. done.
  - cbn [wrn]. rewrite IH. clear IH.
    destruct (decide (a = b)) as [->|Hne].
    + rewrite decide_False by lia. rewrite rd8_wr8, decide_True by done.
      rewrite decide_True by lia. by rewrite Z.sub_diag, Z.pow_0_r, Z.div_1_r.
    + rewrite rd8_wr8. rewrite (decide_False (P := a = b)) by done.
      destruct (decide (a + 1 <= b < a + 1 + Z.of_nat n)) as [Hin|Hout].
      * rewrite decide_True by lia. f_equal.
        rewrite Z.div_div by (try apply Z.pow_pos_nonneg; lia). f_equal.
        replace (b - a) with (Z.succ (b - (a + 1))) by lia.
        rewrite Z.pow_succ_r by lia. done.
      * rewrite decide_False by lia. done.
Qed.

Lemma rd8_wrn_out n m a v b :
  ~ (a <= b < a + Z.of_nat n) -> rd8 (wrn n m a v) b = rd8 m b.
Proof. intros H. rewrite rd8_wrn, decide_False by done. done. Qed.

Lemma rdn_wrn_eq n m a v : rdn n (wrn n m a v) a = v mod 256 ^ Z.of_nat n.
Proof.
  revert m a v. induction n as [|n IH]; intros m a v.
  - simpl. by rewrite Z.pow_0_r, Z.mod_1_r.
  - cbn [rdn wrn]. rewrite IH, rd8_wrn_out by lia.
    rewrite rd8_wr8, decide_True by done.
    rewrite Nat2Z.inj_succ, Z.pow_succ_r by lia.
    rewrite Z.rem_mul_r by lia. unfold u8. done.
Qed.

Lemma rdn_wrn_ne n k m a v b :
  b + Z.of_nat n <= a \/ a + Z.of_nat k <= b ->
  rdn n (wrn k m a v) b = rdn n m b.
Proof. intros H. apply rdn_ext. intros i Hi. apply rd8_wrn_out. lia. Qed.

Lemma rd64_wr64_eq m a v : rd64 (wr64 m a v) a = u64 v.
Proof. unfold rd64, wr64. rewrite rdn_wrn_eq. done. Qed.
Lemma rd64_wr64_ne m a v b :
  b + 8 <= a \/ a + 8 <= b -> rd64 (wr64 m a v) b = rd64 m b.
Proof. intros H. apply rdn_wrn_ne. lia. Qed.
Lemma rd64_range m a : 0 <= rd64 m a < 2 ^ 64.
Proof. pose proof (rdn_range 8 m a). done. Qed.
Lemma rd32_wr32_eq m a v : rd32 (wr32 m a v) a = u32 v.
Proof. unfold rd32, wr32. rewrite rdn_wrn_eq. done. Qed.

(** * Block routines: kernel/string.c *)

(** The count is an [unsigned int]. *)
Definition memset (m : mem) (dst c n : Z) : mem :=
  foldl (fun m i => wr8 m (dst + i) c) m (seqZ 0 (u32 n)).

Lemma memset_unfold m dst c n :
  memset m dst c n = foldl (fun m i => wr8 m (dst + i) c) m (seqZ 0 (u32 n)).
Proof. done. Qed.
#[global] Opaque memset.

(** Compares up to the first differing byte. *)
Fixpoint memcmp_loop (m : mem) (s1 s2 : Z) (n : nat) : Z :=
  match n with
  | O => 0
  | S n' =>
      if rd8 m s1 =? rd8 m s2 then memcmp_loop m (s1 + 1) (s2 + 1) n'
      else rd8 m s1 - rd8 m s2
  end.
Definition memcmp (m : mem) (v1 v2 n : Z) : Z :=
  memcmp_loop m v1 v2 (Z.to_nat (u32 n)).

(** The count is an [unsigned int]: a longer one is cut. *)
Definition memmove (m : mem) (dst src n : Z) : mem :=
  let n := u32 n in
  if (src <? dst) && (dst <? src + n) then
    foldl (fun m i => wr8 m (dst + n - 1 - i) (rd8 m (src + n - 1 - i))) m (seqZ 0 n)
  else
    foldl (fun m i => wr8 m (dst + i) (rd8 m (src + i))) m (seqZ 0 n).

Definition memcpy (m : mem) (dst src n : Z) : mem := memmove m dst src n.

(** Blocks of bytes by value. *)
Definition write_bytes (m : mem) (p : Z) (bs : list Z) : mem :=
  snd (foldl (fun '(a, m) b => (a + 1, wr8 m a b)) (p, m) bs).
Definition read_bytes (m : mem) (p n : Z) : list Z := map (fun i => rd8 m (p + i)) (seqZ 0 n).
Definition bytes (bs : list Z) : Prop := Forall (fun b => 0 <= b < 256) bs.

Lemma rd8_write_bytes bs : forall m p a,
  rd8 (write_bytes m p bs) a
  = if decide (p <= a < p + Z.of_nat (length bs)) then u8 (nth (Z.to_nat (a - p)) bs 0) else rd8 m a.
Proof.
  unfold write_bytes. induction bs as [|b bs IH]; intros m p a.
  - rewrite decide_False; [done|simpl; lia].
  - cbn [foldl length]. rewrite IH, rd8_wr8. destruct (decide (p = a)) as [->|Hne].
    + rewrite decide_False, decide_True by lia. by rewrite Z.sub_diag.
    + destruct (decide (p + 1 <= a < _)) as [H|H].
      * rewrite decide_True by lia. f_equal.
        replace (Z.to_nat (a - p)) with (Datatypes.S (Z.to_nat (a - (p + 1)))) by lia. done.
      * rewrite decide_False by lia. done.
Qed.
Lemma length_read_bytes m p n : length (read_bytes m p n) = Z.to_nat n.
Proof. unfold read_bytes. rewrite length_map, length_seqZ. done. Qed.
Lemma read_bytes_bytes m p n : bytes (read_bytes m p n).
Proof.
  apply Forall_forall. intros b Hb. unfold read_bytes in Hb.
  apply list_elem_of_In, in_map_iff in Hb as (i & <- & _). apply rd8_range.
Qed.
Lemma read_write_bytes m p bs : bytes bs ->
  read_bytes (write_bytes m p bs) p (Z.of_nat (length bs)) = bs.
Proof.
  intros Hb. apply list_eq. intros i. unfold read_bytes.
  destruct (decide (i < length bs)%nat) as [Hi|Hi].
  - destruct (lookup_lt_is_Some_2 _ _ Hi) as [b Hbi].
    rewrite list_lookup_fmap, lookup_seqZ_lt by lia. cbn [fmap option_fmap option_map].
    rewrite rd8_write_bytes, decide_True by lia.
    replace (Z.to_nat (p + (0 + Z.of_nat i) - p)) with i by lia.
    rewrite Hbi. f_equal. rewrite nth_lookup, Hbi. cbn.
    apply u8_small. exact (Forall_lookup_1 _ _ _ _ Hb Hbi).
  - rewrite !lookup_ge_None_2; [done|lia|]. rewrite length_map, length_seqZ. lia.
Qed.
Lemma read_write_bytes_out m p q n bs :
  q + n <= p \/ p + Z.of_nat (length bs) <= q ->
  read_bytes (write_bytes m p bs) q n = read_bytes m q n.
Proof.
  intros Hd. unfold read_bytes. apply map_ext_in. intros i Hi. apply seqZ_In in Hi.
  rewrite rd8_write_bytes, decide_False; [done|lia].
Qed.

Lemma rd8_memset m dst c n b : 0 <= n < 4294967296 ->
  rd8 (memset m dst c n) b = if decide (dst <= b < dst + n) then u8 c else rd8 m b.
Proof.
  intros [Hn Hw]. rewrite memset_unfold, u32_small by done.
  refine (foldl_seqZ_ind (fun k m' => rd8 m' b
    = if decide (dst <= b < dst + k) then u8 c else rd8 m b)
    (fun m i => wr8 m (dst + i) c) 0 n m _ Hn _).
  - rewrite decide_False by lia. done.
  - intros i y Hi IH. rewrite rd8_wr8. destruct (decide (dst + (0 + i) = b)).
    + rewrite decide_True by lia. done.
    + rewrite IH. destruct (decide (dst <= b < dst + i));
        [rewrite decide_True by lia|rewrite decide_False by lia]; done.
Qed.

Lemma rdn_memset_out k m dst c n b : 0 <= n < 4294967296 ->
  b + Z.of_nat k <= dst \/ dst + n <= b -> rdn k (memset m dst c n) b = rdn k m b.
Proof.
  intros Hn H. apply rdn_ext. intros i Hi.
  rewrite rd8_memset, decide_False by lia. done.
Qed.

Lemma rdn_memset_zero k m dst n b : 0 <= n < 4294967296 ->
  dst <= b -> b + Z.of_nat k <= dst + n -> rdn k (memset m dst 0 n) b = 0.
Proof.
  intros Hn. revert b. induction k as [|k IH]; intros b Hb He; [done|].
  simpl rdn. rewrite IH, rd8_memset, decide_True by lia. done.
Qed.

Lemma rd8_memmove m dst src n b : 0 <= n < 4294967296 ->
  rd8 (memmove m dst src n) b
  = if decide (dst <= b < dst + n) then rd8 m (src + (b - dst)) else rd8 m b.
Proof.
  intros Hn. unfold memmove. rewrite (u32_small n) by done.
  destruct ((src <? dst) && (dst <? src + n)) eqn:Hdir.
  - apply andb_prop in Hdir as [H1%Z.ltb_lt H2%Z.ltb_lt].
    set (P := fun k m' => forall c, rd8 m' c
      = if decide (dst + n - k <= c < dst + n) then rd8 m (src + (c - dst)) else rd8 m c).
    enough (P n (foldl (fun m i => wr8 m (dst + n - 1 - i) (rd8 m (src + n - 1 - i)))
                       m (seqZ 0 n))) as HP.
    { rewrite HP. by replace (dst + n - n) with dst by lia. }
    apply (foldl_seqZ_ind P (fun m i => wr8 m (dst + n - 1 - i) (rd8 m (src + n - 1 - i))));
      [|lia|]; unfold P.
    + intros c. rewrite decide_False by lia. done.
    + intros i y Hi IH c. rewrite rd8_wr8.
      destruct (decide (dst + n - 1 - (0 + i) = c)) as [<-|Hne].
      * rewrite decide_True by lia. rewrite IH, decide_False by lia.
        rewrite u8_small by apply rd8_range. f_equal. lia.
      * rewrite IH. destruct (decide (dst + n - i <= c < dst + n));
          [rewrite decide_True by lia|rewrite decide_False by lia]; done.
  - set (P := fun k m' => forall c, rd8 m' c
      = if decide (dst <= c < dst + k) then rd8 m (src + (c - dst)) else rd8 m c).
    enough (P n (foldl (fun m i => wr8 m (dst + i) (rd8 m (src + i))) m (seqZ 0 n)))
      as HP by apply HP.
    apply (foldl_seqZ_ind P (fun m i => wr8 m (dst + i) (rd8 m (src + i))));
      [|lia|]; unfold P.
    + intros c. rewrite decide_False by lia. done.
    + intros i y Hi IH c. rewrite rd8_wr8.
      destruct (decide (dst + (0 + i) = c)) as [<-|Hne].
      * rewrite decide_True by lia. rewrite IH.
        assert (src >= dst \/ src + n <= dst)
          by (apply andb_false_iff in Hdir as [?%Z.ltb_ge|?%Z.ltb_ge]; lia).
        rewrite decide_False by lia.
        rewrite u8_small by apply rd8_range. f_equal. lia.
      * rewrite IH. destruct (decide (dst <= c < dst + i));
          [rewrite decide_True by lia|rewrite decide_False by lia]; done.
Qed.

(** [memcmp] says 0 exactly when the two blocks hold the same bytes. *)
Lemma memcmp_loop_eq m a b n :
  memcmp_loop m a b n = 0 <->
  forall i, 0 <= i < Z.of_nat n -> rd8 m (a + i) = rd8 m (b + i).
Proof.
  revert a b. induction n as [|n IH]; intros a b; cbn [memcmp_loop].
  { split; [lia|done]. }
  destruct (Z.eqb_spec (rd8 m a) (rd8 m b)) as [He|He].
  - rewrite IH. split; intros H i Hi.
    + destruct (decide (i = 0)) as [->|]; [by rewrite !Z.add_0_r|].
      specialize (H (i - 1)). replace (a + i) with (a + 1 + (i - 1)) by lia.
      replace (b + i) with (b + 1 + (i - 1)) by lia. apply H. lia.
    + rewrite <- !Z.add_assoc. apply H. lia.
  - split; [lia|]. intros H. specialize (H 0). rewrite !Z.add_0_r in H.
    destruct He. apply H. lia.
Qed.

(** * Properties *)

(** C26. [memmove] copies correctly whatever the overlap: afterwards every byte
    of the destination is the byte the source held before the call, every
    other byte is unchanged, and [memcmp] finds the destination equal to a
    copy of the source kept elsewhere, and only to such a block. *)
Theorem memmove_correct (m : mem) (dst src n keep : Z) :
  0 <= n < 2 ^ 32 ->
  (keep + n <= dst \/ dst + n <= keep) ->
  (forall b, rd8 (memmove m dst src n) b
     = if decide (dst <= b < dst + n) then rd8 m (src + (b - dst)) else rd8 m b)
  /\ (memcmp (memmove m dst src n) dst keep n = 0 <->
      forall i, 0 <= i < n -> rd8 m (keep + i) = rd8 m (src + i)).
Proof.
  intros Hn Hk. assert (u32 n = n) as Hu by (apply u32_small; lia).
  assert (forall b, rd8 (memmove m dst src n) b
     = if decide (dst <= b < dst + n) then rd8 m (src + (b - dst)) else rd8 m b) as Hm.
  { intros b. apply rd8_memmove. lia. }
  split; [done|]. unfold memcmp. rewrite Hu, memcmp_loop_eq.
  apply forall_proper. intros i. rewrite Z2Nat.id by lia.
  rewrite !Hm. destruct (decide (0 <= i < n)); [|done].
  rewrite decide_True by lia. rewrite decide_False by lia.
  replace (src + (dst + i - dst)) with (src + i) by lia. split; intros; symmetry; auto.
Qed.

Example memmove_correct_witness :
  let m := list_to_map [(100, 7); (101, 8); (102, 9)] : mem in
  (forall b, rd8 (memmove m 101 100 3) b
     = if decide (101 <= b < 101 + 3) then rd8 m (100 + (b - 101)) else rd8 m b)
  /\ (memcmp (memmove m 101 100 3) 101 40 3 = 0 <->
      forall i, 0 <= i < 3 -> rd8 m (40 + i) = rd8 m (100 + i)).
Proof. apply memmove_correct; lia. Defined.
