(* ===== verification/Strings.v ===== *)
(** The character and wide-character routines of kernel/string.c.

    A pointer into an array is the list of the elements from there to the end
    of the array ([*p++] takes the head and goes on with the tail); a routine
    that walks off the end has no value.  Elements are unsigned: bytes for
    [char], 16-bit units for [wchar].  [cstr] is the string an array holds. *)

From S2P Require Import Prelude.

(** The characters before the first NUL; [None] if there is no NUL. *)
Fixpoint cstr (l : list Z) : option (list Z) :=
  match l with
  | [] => None
  | c :: l' => if c =? 0 then Some [] else cons c <$> cstr l'
  end.

(** A string literal: its characters and the final NUL. *)
Definition chars (s : string) : list Z :=
  map (fun c => Z.of_N (Ascii.N_of_ascii c)) (String.list_ascii_of_string s).
Definition literal (s : string) : list Z := chars s ++ [0].

Fixpoint strncmp_loop (p q : list Z) (n : nat) {struct n} : option Z :=
  match n with
  | O => Some 0
  | S n' =>
      match p, q with
      | a :: p', b :: q' =>
          if truth a && (a =? b) then strncmp_loop p' q' n' else Some (a - b)
      | _, _ => None
      end
  end.
Definition strncmp (p q : list Z) (n : Z) : option Z :=
  strncmp_loop p q (Z.to_nat (u32 n)).

(** The padding loop: [n] NULs. *)
Fixpoint zero_fill (s : list Z) (n : nat) {struct n} : option (list Z) :=
  match n with
  | O => Some s
  | S n' => match s with [] => None | _ :: s' => cons 0 <$> zero_fill s' n' end
  end.

Fixpoint strncpy_loop (s t : list Z) (n : nat) {struct n} : option (list Z) :=
  match n with
  | O => Some s
  | S n' =>
      match s, t with
      | _ :: s', c :: t' =>
          if c =? 0 then cons 0 <$> zero_fill s' n'
          else cons c <$> strncpy_loop s' t' n'
      | _, _ => None
      end
  end.
Definition strncpy (s t : list Z) (n : Z) : option (list Z) :=
  strncpy_loop s t (Z.to_nat n).

(** The final [*s = 0;] of [safestrcpy]. *)
Definition put_nul (s : list Z) : option (list Z) :=
  match s with [] => None | _ :: s' => Some (0 :: s') end.

Fixpoint safestrcpy_loop (s t : list Z) (n : nat) {struct n} : option (list Z) :=
  match n with
  | O => put_nul s
  | S n' =>
      match s, t with
      | _ :: s', c :: t' =>
          if c =? 0 then cons 0 <$> put_nul s'
          else cons c <$> safestrcpy_loop s' t' n'
      | _, _ => None
      end
  end.
Definition safestrcpy (s t : list Z) (n : Z) : option (list Z) :=
  if n <=? 0 then Some s else safestrcpy_loop s t (Z.to_nat (n - 1)).

Fixpoint strlen (s : list Z) : option Z :=
  match s with
  | [] => None
  | c :: s' => if c =? 0 then Some 0 else Z.succ <$> strlen s'
  end.

(** The store goes to the low byte of the wide character only. *)
Fixpoint wnstr (dst src : list Z) (len : Z) {struct src} : option (list Z) :=
  if len =? 0 then put_nul dst
  else
    match src with
    | [] => None
    | c :: src' =>
        if c =? 0 then put_nul dst
        else match dst with
             | [] => None
             | d :: dst' => cons (d / 256 * 256 + c) <$> wnstr dst' src' (len - 1)
             end
    end.

Fixpoint snstr (dst src : list Z) (len : Z) {struct src} : option (list Z) :=
  if len =? 0 then Some dst
  else
    match src with
    | [] => None
    | c :: src' =>
        if c =? 0 then zero_fill dst (Z.to_nat (len - 1))
        else match dst with
             | [] => None
             | _ :: dst' => cons (Z.land c 255) <$> snstr dst' src' (len - 1)
             end
    end.

Fixpoint wcsncmp (s1 s2 : list Z) (len : Z) {struct s1} : option Z :=
  if len =? 0 then Some 0
  else
    match s1 with
    | [] => None
    | a :: s1' =>
        if a =? 0 then Some 0
        else match s2 with
             | [] => None
             | b :: s2' =>
                 if a - b =? 0 then wcsncmp s1' s2' (len - 1) else Some (a - b)
             end
    end.

(** The array from the first occurrence on; [Some None] is the null result. *)
Fixpoint strchr (s : list Z) (c : Z) : option (option (list Z)) :=
  match s with
  | [] => None
  | a :: s' =>
      if a =? 0 then Some None
      else if a =? c then Some (Some s) else strchr s' c
  end.

(** * What they compute *)

Lemma cstr_spec l a :
  cstr l = Some a <-> exists rest, l = a ++ 0 :: rest /\ Forall (fun c => c <> 0) a.
Proof.
  revert a. induction l as [|c l IH]; intros a; simpl.
  - split; [done|]. intros (rest & Hl & _). by destruct a.
  - destruct (Z.eqb_spec c 0) as [->|Hc].
    + split.
      * intros [= <-]. exists l. by split.
      * intros (rest & Hl & Ha). destruct a as [|x a]; [done|].
        injection Hl as <- _. by inversion Ha.
    + rewrite fmap_Some. split.
      * intros (a' & (rest & -> & Ha)%IH & ->). exists rest. split; [done|].
        by constructor.
      * intros (rest & Hl & Ha). destruct a as [|x a].
        { injection Hl as -> _. done. }
        injection Hl as -> ->. inversion Ha; subst.
        exists a. split; [|done]. apply IH. eauto.
Qed.

Lemma cstr_app a rest :
  Forall (fun c => c <> 0) a -> cstr (a ++ 0 :: rest) = Some a.
Proof. intros Ha. apply cstr_spec. eauto. Qed.

Lemma strlen_cstr s : strlen s = (fun a => Z.of_nat (length a)) <$> cstr s.
Proof.
  induction s as [|c s IH]; simpl; [done|].
  destruct (c =? 0); [done|]. rewrite IH.
  destruct (cstr s); simpl; [|done]. f_equal. lia.
Qed.

Lemma zero_fill_spec s n : (n <= length s)%nat ->
  zero_fill s n = Some (replicate n 0 ++ drop n s).
Proof.
  revert s. induction n as [|n IH]; intros s Hn; [done|].
  destruct s as [|x s]; simpl in *; [lia|]. rewrite IH by lia. done.
Qed.

Lemma strncmp_loop_eq p q n a b :
  cstr p = Some a -> cstr q = Some b ->
  exists r, strncmp_loop p q n = Some r /\ (r = 0 <-> take n a = take n b).
Proof.
  revert p q a b. induction n as [|n IH]; intros p q a b Hp Hq; simpl.
  { by exists 0. }
  destruct p as [|x p]; [done|]. destruct q as [|y q]; [done|].
  simpl in Hp, Hq. unfold truth.
  destruct (Z.eqb_spec x 0) as [->|Hx]; simpl.
  - injection Hp as <-. exists (0 - y). split; [done|].
    destruct (Z.eqb_spec y 0) as [->|Hy]; [injection Hq as <-; done|].
    apply fmap_Some in Hq as (b' & Hb & ->).
    split; [lia|discriminate].
  - apply fmap_Some in Hp as (a' & Ha & ->).
    destruct (Z.eqb_spec x y) as [<-|Hxy].
    + rewrite (proj2 (Z.eqb_neq x 0)) in Hq by done.
      apply fmap_Some in Hq as (b' & Hb & ->).
      destruct (IH p q a' b' Ha Hb) as (r & Hr & Heq).
      exists r. split; [done|]. simpl. rewrite Heq. split; congruence.
    + exists (x - y). split; [done|].
      destruct (y =? 0); [injection Hq as <-; simpl; split; [lia|done]|].
      apply fmap_Some in Hq as (b' & Hb & ->). simpl.
      split; [lia|congruence].
Qed.

(** Two strings compare equal within [n] exactly when they agree up to [n]. *)
Lemma strncmp_eq p q n a b :
  cstr p = Some a -> cstr q = Some b ->
  exists r, strncmp p q n = Some r
            /\ (r = 0 <-> take (Z.to_nat (u32 n)) a = take (Z.to_nat (u32 n)) b).
Proof. apply strncmp_loop_eq. Qed.

(** [strncpy] writes exactly [n] elements: the string cut to [n], then NULs. *)
Lemma strncpy_loop_spec s t n a :
  cstr t = Some a -> (n <= length s)%nat ->
  strncpy_loop s t n = Some (take n a ++ replicate (n - length a) 0 ++ drop n s).
Proof.
  revert s t a. induction n as [|n IH]; intros s t a Ht Hn; [done|].
  destruct s as [|x s]; simpl in Hn; [lia|]. destruct t as [|c t]; [done|].
  simpl in Ht. cbn [strncpy_loop]. destruct (c =? 0).
  - injection Ht as <-. rewrite zero_fill_spec by lia. done.
  - apply fmap_Some in Ht as (a' & Ha & ->).
    rewrite (IH s t a') by (done || lia). done.
Qed.
Lemma strncpy_spec s t n a :
  cstr t = Some a -> 0 <= n <= Z.of_nat (length s) ->
  strncpy s t n = Some (take (Z.to_nat n) a
                        ++ replicate (Z.to_nat n - length a) 0 ++ drop (Z.to_nat n) s).
Proof. intros Ht Hn. apply strncpy_loop_spec; [done|lia]. Qed.

Lemma safestrcpy_loop_spec s t n a :
  cstr t = Some a -> (n < length s)%nat ->
  exists s', safestrcpy_loop s t n = Some s' /\ length s' = length s
             /\ cstr s' = Some (take n a).
Proof.
  revert s t a. induction n as [|n IH]; intros s t a Ht Hn;
    destruct s as [|x s]; simpl in Hn; try lia; [by exists (0 :: s)|].
  destruct t as [|c t]; [done|]. cbn [cstr safestrcpy_loop] in *.
  destruct (c =? 0) eqn:Hc.
  - injection Ht as <-. destruct s as [|y s]; simpl in Hn; [lia|].
    by exists (0 :: 0 :: s).
  - apply fmap_Some in Ht as (a' & Ha & ->).
    destruct (IH s t a' Ha) as (s' & -> & Hl & Hs'); [lia|].
    exists (c :: s'). simpl. by rewrite Hl, Hc, Hs'.
Qed.

(** [snstr] copies the characters and pads, but the test that finds the NUL has
    already used up one count: the last of the [len] elements keeps its value. *)
Lemma snstr_short dst src len a :
  cstr src = Some a -> Z.of_nat (length a) < len <= Z.of_nat (length dst) ->
  snstr dst src len
  = Some (map (fun c => Z.land c 255) a
          ++ replicate (Z.to_nat len - length a - 1) 0 ++ drop (Z.to_nat len - 1) dst).
Proof.
  revert dst len a. induction src as [|c src IH]; intros dst len a Ha Hlen; [done|].
  simpl in Ha. cbn [snstr]. rewrite (proj2 (Z.eqb_neq len 0)) by lia.
  destruct (c =? 0).
  - injection Ha as <-. rewrite zero_fill_spec by (simpl in *; lia).
    simpl length. rewrite Nat.sub_0_r.
    by replace (Z.to_nat len - 1)%nat with (Z.to_nat (len - 1)) by lia.
  - apply fmap_Some in Ha as (a' & Ha & ->). simpl in Hlen.
    destruct dst as [|d dst]; simpl in Hlen; [lia|].
    rewrite (IH dst (len - 1) a' Ha) by lia.
    replace (Z.to_nat len) with (S (Z.to_nat (len - 1))) by lia. cbn [length].
    replace (S (Z.to_nat (len - 1)) - 1)%nat with (S (Z.to_nat (len - 1) - 1)) by lia.
    done.
Qed.

(** With no NUL among the first [len] elements, all of them are copied. *)
Lemma snstr_full dst src len :
  0 <= len -> Forall (fun c => c <> 0) (take (Z.to_nat len) src) ->
  (Z.to_nat len <= length src)%nat -> (Z.to_nat len <= length dst)%nat ->
  snstr dst src len
  = Some (map (fun c => Z.land c 255) (take (Z.to_nat len) src)
          ++ drop (Z.to_nat len) dst).
Proof.
  revert dst len. induction src as [|c src IH]; intros dst len H0 Hnz Hs Hd.
  { simpl in Hs. by replace len with 0 by lia. }
  cbn [snstr]. destruct (Z.eqb_spec len 0) as [->|Hlen]; [done|].
  replace (Z.to_nat len) with (S (Z.to_nat (len - 1))) in * by lia.
  cbn [take] in *. inversion Hnz as [|? ? Hc Hrest]; subst.
  rewrite (proj2 (Z.eqb_neq c 0)) by done.
  destruct dst as [|d dst]; [simpl in *; lia|]. simpl in *.
  rewrite (IH dst (len - 1)) by (done || lia). done.
Qed.

(** [wnstr] into a zeroed array of wide characters, then [snstr] back. *)
Lemma wnstr_spec n src a rest :
  cstr src = Some a -> (length a < n)%nat ->
  wnstr (replicate n 0 ++ rest) src (Z.of_nat n) = Some (a ++ replicate (n - length a) 0 ++ rest).
Proof.
  revert src a. induction n as [|n IH]; intros src a Ha Hn; [lia|].
  destruct src as [|c src]; [done|]. simpl in Ha.
  cbn [wnstr]. rewrite (proj2 (Z.eqb_neq (Z.of_nat (S n)) 0)) by lia.
  destruct (c =? 0).
  - injection Ha as <-. done.
  - apply fmap_Some in Ha as (a' & Ha & ->). simpl in Hn. cbn [replicate app].
    replace (Z.of_nat (S n) - 1) with (Z.of_nat n) by lia.
    rewrite (IH src a') by (done || lia). simpl. done.
Qed.

(** * Properties *)

(** The bounded string copies never write outside the [n] elements they are
    given and leave a terminated string: [strncpy] writes the source cut to [n]
    and pads with NULs, [safestrcpy] writes the source cut to [n - 1] and always
    terminates it, and [strncmp] then finds the copy equal to the source up to
    what was kept. *)
Theorem bounded_copies (s t : list Z) (n : Z) (a : list Z) :
  cstr t = Some a -> 0 < n <= Z.of_nat (length s) -> n < 2 ^ 31 ->
  strncpy s t n = Some (take (Z.to_nat n) a
                        ++ replicate (Z.to_nat n - length a) 0 ++ drop (Z.to_nat n) s)
  /\ (exists s', safestrcpy s t n = Some s' /\ length s' = length s
       /\ cstr s' = Some (take (Z.to_nat (n - 1)) a)
       /\ strncmp s' t (n - 1) = Some 0).
Proof.
  intros Ht Hn Hn31. split; [apply strncpy_spec; [done|lia]|].
  destruct (safestrcpy_loop_spec s t (Z.to_nat (n - 1)) a Ht) as (s' & Hs' & Hlen & Hc);
    [lia|].
  exists s'. split; [|split; [done|split; [done|]]].
  - unfold safestrcpy. by destruct (Z.leb_spec n 0); [lia|].
  - destruct (strncmp_eq s' t (n - 1) _ a Hc Ht) as (r & Hr & Heq).
    rewrite Hr. f_equal. apply Heq. rewrite u32_small by lia.
    by rewrite firstn_firstn, Nat.min_id.
Qed.

Example bounded_copies_witness :
  strncpy [1; 2; 3; 4] [65; 66; 0] 3 = Some ([65; 66] ++ [0] ++ [4])
  /\ (exists s', safestrcpy [1; 2; 3; 4] [65; 66; 0] 3 = Some s' /\ length s' = 4%nat
       /\ cstr s' = Some [65; 66] /\ strncmp s' [65; 66; 0] 2 = Some 0).
Proof. apply (bounded_copies [1; 2; 3; 4] [65; 66; 0] 3 [65; 66]); [reflexivity|simpl; lia|lia].
Defined.
