(* ===== verification/Digits.v ===== *)
(** Numbers as digits: [printint] and [printptr], which kernel/printf.c and
    user/printf.c share but for their table of digits, and the arguments of a
    variadic function. *)

From S2P Require Import Prelude Strings.

(** The digits of [x], the last one first: [buf] from index 0 on. *)
Fixpoint digits_loop (fuel : nat) (tab : list Z) (x base : Z) : list Z :=
  match fuel with
  | O => []
  | S n =>
      nth (Z.to_nat (x mod base)) tab 0 ::
      (if x / base =? 0 then [] else digits_loop n tab (x / base) base)
  end.
(** [printint]: what goes to [putc], in order.  Thirty-two turns are enough for
    every base from 2 on, and [buf] has 16 elements. *)
Definition int_chars (tab : list Z) (xx base : Z) (sgn : bool) : option (list Z) :=
  let xx := s32 xx in
  let neg := sgn && (xx <? 0) in
  let x := u32 (if neg then - xx else xx) in
  let buf := digits_loop 32 tab x (u32 base) ++ (if neg then [45] else []) in
  if 16 <? Z.of_nat (length buf) then None else Some (rev buf).
(** [printptr]: sixteen digits, the highest first. *)
Definition ptr_chars (tab : list Z) (x : Z) : list Z :=
  [48; 120] ++ map (fun i => nth (Z.to_nat (u64 (Z.shiftl x (4 * i)) / 2 ^ 60)) tab 0) (seqZ 0 16).

(** A variadic argument, as [va_arg] reads it. *)
Inductive vararg :=
| VInt (z : Z)
| VStr (s : option (list Z)).

Definition va_int (ap : list vararg) : option (Z * list vararg) :=
  match ap with VInt z :: ap' => Some (z, ap') | _ => None end.
Definition va_str (ap : list vararg) : option (list Z * list vararg) :=
  match ap with
  | VStr (Some s) :: ap' => (fun c => (c, ap')) <$> cstr s
  | VStr None :: ap' => Some (chars "(null)", ap')
  | _ => None
  end.

(** * What the digits say *)

Lemma digits_loop_length tab base k : 2 <= base -> forall fuel x, 0 <= x < base ^ Z.of_nat (S k) ->
  (length (digits_loop fuel tab x base) <= S k)%nat.
Proof.
  intros Hb. induction k as [|k IH]; intros [|fuel] x Hx; cbn [digits_loop length]; [lia| |lia|].
  - rewrite Z.pow_1_r in Hx. rewrite Z.div_small by lia. done.
  - destruct (x / base =? 0); [cbn; lia|]. apply le_n_S, IH.
    rewrite (Nat2Z.inj_succ (S k)), Z.pow_succ_r in Hx by lia.
    split; [apply Z.div_pos; lia|]. apply Z.div_lt_upper_bound; lia.
Qed.

(** The value of a string of decimal digits, as [atoi] computes it. *)
Definition decimal (l : list Z) : Z := foldl (fun n c => s32 (n * 10 + c - 48)) 0 l.
Definition is_digit (c : Z) : Prop := 48 <= c <= 57.

Section Decimal.
Variable tab : list Z.
Hypothesis digit_value : forall x, 0 <= x < 10 -> nth (Z.to_nat x) tab 0 = 48 + x.

Lemma digits_loop_decimal fuel : forall x, 0 <= x < 10 ^ Z.of_nat fuel ->
  (fuel <> 0)%nat -> let l := rev (digits_loop fuel tab x 10) in
  Forall is_digit l /\ l <> [] /\ decimal l = s32 x.
Proof.
  induction fuel as [|fuel IH]; intros x Hx Hf; [done|]. cbn [digits_loop rev].
  assert (0 <= x mod 10 < 10) as Hm by (apply Z.mod_pos_bound; lia).
  rewrite digit_value by done. split; [|split; [by destruct (rev _)|]].
  all: destruct (Z.eqb_spec (x / 10) 0) as [E|E].
  - repeat constructor; lia.
  - apply Forall_app. split; [|repeat constructor; lia].
    rewrite Nat2Z.inj_succ, Z.pow_succ_r in Hx by lia.
    apply IH; [split; [apply Z.div_pos; lia|apply Z.div_lt_upper_bound; lia]|].
    intros ->. cbn in Hx. zlia.
  - cbn. f_equal. zlia.
  - rewrite Nat2Z.inj_succ, Z.pow_succ_r in Hx by lia.
    destruct (IH (x / 10)) as (_ & _ & Hd);
      [split; [apply Z.div_pos; lia|apply Z.div_lt_upper_bound; lia]|intros ->; cbn in Hx; zlia|].
    unfold decimal in *. rewrite foldl_app. cbn [foldl]. rewrite Hd.
    unfold s32. clear -Hm. zlia.
Qed.

Lemma int_chars_decimal xx : let x := s32 xx in
  exists l, int_chars tab xx 10 true = Some ((if x <? 0 then [45] else []) ++ l) /\
    Forall is_digit l /\ l <> [] /\ (length l <= 10)%nat /\
    decimal l = s32 (if x <? 0 then - x else x).
Proof.
  intros x. pose proof (s32_range xx) as Hx. fold x in Hx.
  set (a := u32 (if x <? 0 then - x else x)).
  assert (0 <= a < 2 ^ 32) as Ha by (unfold a, u32; apply Z.mod_pos_bound; lia).
  destruct (digits_loop_decimal 32 a) as (Hd & Hnil & Hv); [lia|done|].
  exists (rev (digits_loop 32 tab a 10)).
  assert (length (digits_loop 32 tab a 10) <= 10)%nat as Hlen by (apply (digits_loop_length _ _ 9); lia).
  split; [|split; [done|split; [done|split; [by rewrite length_rev|]]]].
  - unfold int_chars. fold x. cbn [andb]. fold a. change (u32 10) with 10.
    rewrite (proj2 (Z.ltb_ge 16 _)) by (rewrite length_app; destruct (x <? 0); cbn [length]; lia).
    rewrite rev_app_distr. by destruct (x <? 0).
  - rewrite Hv. unfold a. destruct (x <? 0); clear; zlia.
Qed.

End Decimal.
