(* ===== verification/Locks.v ===== *)
(** Interrupt nesting (kernel/intr.c) and spin locks (kernel/spinlock.c).

    [hart] is the processor as the running code sees it: its id ([tp]), its
    CRMD register with the interrupt-enable bit, and the table [cpus] with the
    nesting depth [noff] and the saved flag [intena].  The operations work on
    any state that has a [hart] and a lock in it, given by two lenses. *)

From S2P Require Import Prelude.

Record cpu := Cpu {
  c_proc : option nat;   (** index in the process table; [None] is the null pointer *)
  c_noff : Z;
  c_intena : Z
}.
Record hart := Hart { h_tp : nat; h_crmd : Z; h_cpus : list cpu }.
Record spinlock := Spin { locked : Z; lk_name : string; lk_cpu : option nat }.

#[export] Instance cpu_eq_dec : EqDecision cpu.
Proof. solve_decision. Defined.
#[export] Instance spinlock_eq_dec : EqDecision spinlock.
Proof. solve_decision. Defined.

Definition NCPU : nat := 2.
Definition CSR_CRMD_IE : Z := Z.shiftl 1 2.
Definition cpu0 : cpu := Cpu None 0 0.

Definition c_proc_l : lens cpu (option nat) :=
  Lens c_proc (fun v c => Cpu v (c_noff c) (c_intena c)).
Definition c_noff_l : lens cpu Z :=
  Lens c_noff (fun v c => Cpu (c_proc c) v (c_intena c)).
Definition c_intena_l : lens cpu Z :=
  Lens c_intena (fun v c => Cpu (c_proc c) (c_noff c) v).
Definition h_crmd_l : lens hart Z :=
  Lens h_crmd (fun v h => Hart (h_tp h) v (h_cpus h)).
(** [mycpu()]: the entry of this hart in [cpus]. *)
Definition mycpu_l : lens hart cpu :=
  Lens (fun h => default cpu0 (h_cpus h !! h_tp h))
       (fun c h => Hart (h_tp h) (h_crmd h) (<[h_tp h := c]> (h_cpus h))).
Definition locked_l : lens spinlock Z :=
  Lens locked (fun v l => Spin v (lk_name l) (lk_cpu l)).
Definition lk_cpu_l : lens spinlock (option nat) :=
  Lens lk_cpu (fun v l => Spin (locked l) (lk_name l) v).

(** * Interrupts *)

Definition cpuid : M hart nat := gets h_tp.
Definition intr_get : M hart Z :=
  x ← rd h_crmd_l; mret (b2z (truth (Z.land x CSR_CRMD_IE))).
Definition intr_on : M hart unit := md h_crmd_l (fun x => Z.lor x CSR_CRMD_IE).
Definition intr_off : M hart unit :=
  md h_crmd_l (fun x => Z.land x (Z.lnot CSR_CRMD_IE)).

Definition push_off : M hart unit :=
  old ← intr_get;
  _ ← intr_off;
  noff ← rd (mycpu_l ⊚ c_noff_l);
  _ ← when (noff =? 0) (mycpu_l ⊚ c_intena_l <~ old);
  md (mycpu_l ⊚ c_noff_l) (fun n => s32 (n + 1)).

Definition pop_off : M hart unit :=
  ie ← intr_get;
  if truth ie then panic "pop_off - interruptible"
  else
    noff ← rd (mycpu_l ⊚ c_noff_l);
    if noff <? 1 then panic "pop_off"
    else
      _ ← mycpu_l ⊚ c_noff_l <~ noff - 1;
      intena ← rd (mycpu_l ⊚ c_intena_l);
      when ((noff - 1 =? 0) && truth intena) intr_on.

(** [myproc()]: the process running on this hart. *)
Definition myproc : M hart (option nat) :=
  _ ← push_off;
  p ← rd (mycpu_l ⊚ c_proc_l);
  _ ← pop_off;
  mret p.

(** * Spin locks *)

(** [lk->locked && lk->cpu == mycpu()] *)
Definition held_by (lk : spinlock) (c : nat) : bool :=
  truth (locked lk) && bool_decide (lk_cpu lk = Some c).

Section Spinlock.
Context {S : Type} (H : lens S hart) (L : lens S spinlock).

Definition initlock (name : string) : M S unit := L <~ Spin 0 name None.

Definition holding : M S bool :=
  id ← zoom H cpuid; lk ← rd L; mret (held_by lk id).

(** [__sync_lock_test_and_set(&lk->locked, 1)] *)
Definition test_and_set : M S Z :=
  old ← rd (L ⊚ locked_l); _ ← L ⊚ locked_l <~ 1; mret old.

(** The spin loop.  A hart that finds the lock taken gives up control and is
    resumed at the swap that finds it free. *)
Definition spin : M S unit :=
  old ← test_and_set;
  if old =? 0 then mret tt
  else Yield WSpin (old' ← test_and_set; if old' =? 0 then mret tt else nofuel).

Definition acquire : M S unit :=
  _ ← zoom H push_off;
  h ← holding;
  if h : bool then panic "acquire"
  else
    _ ← spin;
    id ← zoom H cpuid;
    L ⊚ lk_cpu_l <~ Some id.

Definition release : M S unit :=
  h ← holding;
  if negb h then panic "release"
  else
    _ ← L ⊚ lk_cpu_l <~ None;
    _ ← L ⊚ locked_l <~ 0;   (* __sync_lock_release *)
    zoom H pop_off.
End Spinlock.

(** * What a balanced pair does to the processor *)

(** The state of a hart that no code has left half way: the entry of [cpus]
    exists, and interrupts are off inside a [push_off]. *)
Record hart_ok (h : hart) : Prop := {
  ok_tp : (h_tp h < length (h_cpus h))%nat;
  ok_noff : 0 <= c_noff (view mycpu_l h) < 2 ^ 31 - 1;
  ok_crmd : 0 <= h_crmd h < 2 ^ 32;
  ok_ie : 0 < c_noff (view mycpu_l h) -> Z.land (h_crmd h) CSR_CRMD_IE = 0
}.

Definition pushed (h : hart) : hart :=
  let c := view mycpu_l h in
  let ie := b2z (truth (Z.land (h_crmd h) CSR_CRMD_IE)) in
  update mycpu_l
    (Cpu (c_proc c) (s32 (c_noff c + 1)) (if c_noff c =? 0 then ie else c_intena c))
    (update h_crmd_l (Z.land (h_crmd h) (Z.lnot CSR_CRMD_IE)) h).

Definition popped (h : hart) : hart :=
  let c := view mycpu_l h in
  update h_crmd_l
    (if (c_noff c - 1 =? 0) && truth (c_intena c)
     then Z.lor (h_crmd h) CSR_CRMD_IE else h_crmd h)
    (update mycpu_l (Cpu (c_proc c) (c_noff c - 1) (c_intena c)) h).

(** A critical section entered and left. *)
Definition crit (h : hart) : hart := popped (pushed h).

Lemma land_ie_off x : Z.land (Z.land x (Z.lnot CSR_CRMD_IE)) CSR_CRMD_IE = 0.
Proof. rewrite <- Z.land_assoc, Z.land_comm. done. Qed.

Lemma lor_ie_back x : Z.land x CSR_CRMD_IE <> 0 ->
  Z.lor (Z.land x (Z.lnot CSR_CRMD_IE)) CSR_CRMD_IE = x.
Proof.
  intros Hx. assert (Z.testbit x 2 = true) as Hb.
  { apply not_false_iff_true. intros Hf. apply Hx, Z.bits_inj'. intros n _.
    rewrite Z.land_spec, Z.bits_0. change CSR_CRMD_IE with (2 ^ 2).
    rewrite Z.pow2_bits_eqb by lia. destruct (Z.eqb_spec 2 n) as [<-|].
    - by rewrite Hf.
    - apply andb_false_r. }
  apply Z.bits_inj'. intros n Hn.
  rewrite Z.lor_spec, Z.land_spec, Z.lnot_spec by done. change CSR_CRMD_IE with (2 ^ 2).
  rewrite Z.pow2_bits_eqb by lia. destruct (Z.eqb_spec 2 n) as [<-|]; simpl.
  - by rewrite Hb, orb_true_r.
  - by rewrite andb_true_r, orb_false_r.
Qed.

Lemma land_off_id x : 0 <= x -> Z.land x CSR_CRMD_IE = 0 ->
  Z.land x (Z.lnot CSR_CRMD_IE) = x.
Proof.
  intros Hx H0. rewrite <- Z.ldiff_land. apply Z.bits_inj'. intros n Hn.
  rewrite Z.ldiff_spec. pose proof (Z.land_spec x CSR_CRMD_IE n) as Hs.
  rewrite H0, Z.bits_0 in Hs.
  destruct (Z.testbit x n), (Z.testbit CSR_CRMD_IE n); done.
Qed.

Lemma view_mycpu_update c h : (h_tp h < length (h_cpus h))%nat ->
  view mycpu_l (update mycpu_l c h) = c.
Proof. intros Hlt. simpl. by rewrite list_lookup_insert_eq. Qed.

Lemma push_off_eq h : (h_tp h < length (h_cpus h))%nat ->
  push_off h = Ret tt (pushed h).
Proof.
  intros Hlt. destruct h as [tp crmd cpus]; simpl in Hlt.
  unfold push_off, pushed, intr_get, intr_off. mrun.
  destruct (default cpu0 (cpus !! tp)) as [p n ie] eqn:Hc. cbn.
  destruct (n =? 0) eqn:Hn; cbn; rewrite ?list_lookup_insert_eq by done; cbn.
  - by rewrite list_insert_insert_eq, Hc.
  - by rewrite Hc.
Qed.

Lemma pop_off_eq h : hart_ok h -> 0 < c_noff (view mycpu_l h) ->
  pop_off h = Ret tt (popped h).
Proof.
  intros [Hlt _ _ Hie] Hn. specialize (Hie Hn).
  destruct h as [tp crmd cpus]. simpl in Hlt, Hie, Hn.
  unfold pop_off, popped, intr_get, intr_on. mrun. rewrite Hie. cbn.
  destruct (default cpu0 (cpus !! tp)) as [p n ie] eqn:Hc. cbn in *.
  destruct (Z.ltb_spec n 1); [lia|]. cbn.
  rewrite list_lookup_insert_eq by done. cbn. rewrite Hc. cbn.
  destruct ((n - 1 =? 0) && truth ie); done.
Qed.

Lemma pushed_ok h : hart_ok h -> c_noff (view mycpu_l h) < 2 ^ 31 - 2 ->
  hart_ok (pushed h) /\ c_noff (view mycpu_l (pushed h)) = c_noff (view mycpu_l h) + 1.
Proof.
  intros [Hlt Hn Hc Hie] Hn'. unfold pushed.
  assert (view mycpu_l (update mycpu_l (Cpu (c_proc (view mycpu_l h))
      (s32 (c_noff (view mycpu_l h) + 1))
      (if c_noff (view mycpu_l h) =? 0
       then b2z (truth (Z.land (h_crmd h) CSR_CRMD_IE)) else c_intena (view mycpu_l h)))
      (update h_crmd_l (Z.land (h_crmd h) (Z.lnot CSR_CRMD_IE)) h))
    = Cpu (c_proc (view mycpu_l h)) (c_noff (view mycpu_l h) + 1)
      (if c_noff (view mycpu_l h) =? 0
       then b2z (truth (Z.land (h_crmd h) CSR_CRMD_IE)) else c_intena (view mycpu_l h)))
    as Hv by (rewrite view_mycpu_update by done; f_equal; apply s32_small; lia).
  split; [|by rewrite Hv]. split.
  - simpl. by rewrite length_insert.
  - rewrite Hv. simpl in *. lia.
  - simpl. split; [apply Z.land_nonneg; lia|].
    eapply Z.le_lt_trans; [|apply Hc]. apply land_le. lia.
  - intros _. apply land_ie_off.
Qed.

Lemma crit_eq h : hart_ok h -> c_noff (view mycpu_l h) < 2 ^ 31 - 2 ->
  crit h = update mycpu_l
    (Cpu (c_proc (view mycpu_l h)) (c_noff (view mycpu_l h))
       (if c_noff (view mycpu_l h) =? 0
        then b2z (truth (Z.land (h_crmd h) CSR_CRMD_IE)) else c_intena (view mycpu_l h))) h.
Proof.
  intros [Hlt Hn Hc Hie] Hn'. unfold crit, popped, pushed.
  rewrite view_mycpu_update by done.
  destruct h as [tp crmd cpus]. simpl in *.
  destruct (default cpu0 (cpus !! tp)) as [p n ie] eqn:Hcpu. simpl in *.
  rewrite list_insert_insert_eq, (s32_small (n + 1)) by lia.
  replace (n + 1 - 1) with n by lia. f_equal.
  destruct (Z.eqb_spec n 0) as [->|Hn0]; simpl.
  - destruct (Z.eqb_spec (Z.land crmd CSR_CRMD_IE) 0) as [H0|H0]; unfold truth; simpl.
    + rewrite H0. simpl. apply land_off_id; [lia|done].
    + rewrite (proj2 (Z.eqb_neq _ 0) H0). simpl. by apply lor_ie_back.
  - apply land_off_id; [lia|]. apply Hie. lia.
Qed.

Lemma crit_ok h : hart_ok h -> c_noff (view mycpu_l h) < 2 ^ 31 - 2 -> hart_ok (crit h).
Proof.
  intros Hok Hn. rewrite crit_eq by done. destruct Hok as [Hlt Hn0 Hc Hie].
  split; rewrite ?view_mycpu_update by done; simpl in *;
    rewrite ?length_insert; [done|lia|done|done].
Qed.

#[global] Arguments pushed : simpl never.
#[global] Arguments popped : simpl never.

Section SpinlockFacts.
Context {S : Type} (H : lens S hart) (L : lens S spinlock).
Context `{!LensLaws H, !LensPut L, !LensIndep H L}.

(** The lock taken by hart [id]. *)
Definition taken (l : spinlock) (id : nat) : spinlock := Spin 1 (lk_name l) (Some id).
Definition freed (l : spinlock) : spinlock := Spin 0 (lk_name l) None.

#[local] Ltac simp :=
  repeat (rewrite ?(indep_view H L), ?(indep_view' H L), ?(indep_comm H L),
            ?view_update, ?update_update, ?update_view; cbn).

Lemma holding_eq s : holding H L s = Ret (held_by (view L s) (h_tp (view H s))) s.
Proof using All.
  unfold holding. rewrite (bind_ret _ _ s (h_tp (view H s)) s); [done|].
  unfold zoom, cpuid, gets. cbn. by rewrite update_view.
Qed.

Lemma acquire_free s :
  hart_ok (view H s) -> locked (view L s) = 0 ->
  acquire H L s
  = Ret tt (update L (taken (view L s) (h_tp (view H s)))
              (update H (pushed (view H s)) s)).
Proof using All.
  intros Hok H0. unfold acquire, holding, spin, test_and_set, cpuid.
  rewrite (bind_ret _ _ s tt (update H (pushed (view H s)) s))
    by (apply zoom_ret, push_off_eq, Hok).
  mrun. simp. unfold held_by. rewrite H0. cbn. simp. rewrite H0. cbn. simp.
  done.
Qed.

Lemma release_held s :
  hart_ok (view H s) -> 0 < c_noff (view mycpu_l (view H s)) ->
  held_by (view L s) (h_tp (view H s)) = true ->
  release H L s
  = Ret tt (update L (freed (view L s)) (update H (popped (view H s)) s)).
Proof using All.
  intros Hok Hn Hh. unfold release, holding, cpuid. mrun.
  rewrite update_view. rewrite Hh. cbn. simp.
  rewrite (pop_off_eq _ Hok Hn). cbn. by simp.
Qed.

(** A lock that another hart has taken. *)
Section Other.
Context (s : S) (nm : string) (o : option nat) (Ho : o <> Some (h_tp (view H s))).
Abbreviation theirs := (update L (Spin 1 nm o) s).

Lemma other_holds : release H L theirs = Panic "release".
Proof using All.
  unfold release. rewrite (bind_ret _ _ _ _ _ (holding_eq theirs)). simp.
  unfold held_by. by rewrite bool_decide_eq_false_2.
Qed.
Lemma other_spins : hart_ok (view H s) ->
  exists rest, acquire H L theirs = Yield WSpin rest (update H (pushed (view H s)) theirs)
    /\ forall s2, locked (view L s2) = 0 ->
         rest s2 = Ret tt (update L (taken (view L s2) (h_tp (view H s2))) s2).
Proof using All.
  intros Hok. unfold acquire, spin, test_and_set, cpuid.
  rewrite (bind_ret _ _ _ tt (update H (pushed (view H s)) theirs)).
  2:{ apply zoom_ret. rewrite (indep_view' H L). apply push_off_eq, Hok. }
  rewrite (bind_ret _ _ _ _ _ (holding_eq _)). simp.
  unfold held_by. rewrite bool_decide_eq_false_2 by exact Ho. cbn. simp.
  mrun. simp.
  eexists. split; [done|]. intros s2 H0. cbn. rewrite H0. cbn. simp. done.
Qed.
End Other.
End SpinlockFacts.

(** A hart a lock can be taken on. *)
Definition calm (h : hart) : Prop := hart_ok h /\ c_noff (view mycpu_l h) < 2 ^ 31 - 2.

Lemma calm_crit h : calm h -> calm (crit h).
Proof.
  intros [Hok Hn]. split; [by apply crit_ok|].
  rewrite crit_eq by done. rewrite view_mycpu_update; [done|apply Hok].
Qed.
#[export] Hint Resolve calm_crit : kernel.

Section SpinlockWp.
Context {S : Type} (H : lens S hart) (L : lens S spinlock).
Context `{!LensLaws H, !LensPut L, !LensIndep H L}.

Lemma wp_acquire (Q : unit -> S -> Prop) s :
  calm (view H s) -> locked (view L s) = 0 ->
  Q tt (update L (taken (view L s) (h_tp (view H s))) (update H (pushed (view H s)) s)) ->
  wp (acquire H L) Q s.
Proof using All.
  intros [Hok _] H0 HQ. eapply wp_eq; [by apply (acquire_free H L)|done].
Qed.

Lemma wp_release h lk (Q : unit -> S -> Prop) s :
  calm h -> view H s = pushed h -> view L s = taken lk (h_tp h) ->
  Q tt (update L (freed lk) (update H (crit h) s)) ->
  wp (release H L) Q s.
Proof using All.
  intros [Hok Hn] EH EL HQ. pose proof (pushed_ok _ Hok Hn) as [Hok' Hn'].
  pose proof (ok_noff _ Hok).
  eapply wp_eq; [apply (release_held H L)|].
  - by rewrite EH.
  - rewrite EH. lia.
  - rewrite EH, EL. unfold held_by. simpl. by apply bool_decide_eq_true.
  - by rewrite EH, EL.
Qed.
End SpinlockWp.

(** ** Settled processors

    After its first critical section a hart's saved flag [intena] agrees with
    its interrupt flag; from then on a critical section leaves the processor
    exactly as it was. *)
Definition settled (h : hart) : Prop := calm h /\ crit h = h.
Definition unheld (lk : spinlock) : Prop := freed lk = lk.

#[export] Instance unheld_dec lk : Decision (unheld lk) := _.

Lemma hart_eta_cpu h : (h_tp h < length (h_cpus h))%nat ->
  update mycpu_l (view mycpu_l h) h = h.
Proof.
  intros Hlt. destruct h as [tp cr cpus]. simpl in *.
  destruct (lookup_lt_is_Some_2 _ _ Hlt) as [c Hc]. rewrite Hc. simpl.
  by rewrite list_insert_id.
Qed.
Lemma cpu_eta c : Cpu (c_proc c) (c_noff c) (c_intena c) = c.
Proof. by destruct c. Qed.
Lemma hart_upd_upd c c' h : update mycpu_l c (update mycpu_l c' h) = update mycpu_l c h.
Proof. simpl. by rewrite list_insert_insert_eq. Qed.

(** A section of its own settles a hart. *)
Lemma settled_crit h : calm h -> settled (crit h).
Proof.
  intros Hc. split; [by apply calm_crit|]. pose proof Hc as [Hok Hn].
  pose proof (calm_crit h Hc) as [Hok' Hn'].
  rewrite (crit_eq (crit h)) by done. rewrite (crit_eq h) by done.
  rewrite view_mycpu_update by apply Hok. cbn [c_proc c_noff c_intena]. rewrite hart_upd_upd.
  by destruct (c_noff (view mycpu_l h) =? 0).
Qed.
Lemma settled_pushed h : calm h -> c_noff (view mycpu_l h) < 2 ^ 31 - 3 -> settled (pushed h).
Proof.
  intros [Hok Hn] Hn3. destruct (pushed_ok h Hok) as [Hok' Hn']; [done|].
  split; [split; [done|lia]|].
  rewrite crit_eq by (done || lia). pose proof (ok_noff _ Hok).
  rewrite (proj2 (Z.eqb_neq _ _)) by lia. rewrite cpu_eta.
  apply hart_eta_cpu, Hok'.
Qed.

Section Settled.
Context {S : Type} (H : lens S hart) (L : lens S spinlock).
Context `{!LensLaws H, !LensPut L, !LensIndep H L}.

(** [s] inside the section the hart [h] entered through [L]. *)
Definition enter (s : S) : S :=
  update L (taken (view L s) (h_tp (view H s))) (update H (pushed (view H s)) s).

Lemma wp_enter (Q : unit -> S -> Prop) s :
  settled (view H s) -> unheld (view L s) -> Q tt (enter s) -> wp (acquire H L) Q s.
Proof using All.
  intros [Hc _] Hl HQ. apply (wp_acquire H L); [done| |done]. by rewrite <- Hl.
Qed.
Lemma wp_leave h lk (Q : unit -> S -> Prop) s :
  settled h -> unheld lk -> view H s = pushed h -> view L s = taken lk (h_tp h) ->
  Q tt (update L lk (update H h s)) -> wp (release H L) Q s.
Proof using All.
  intros [Hc Hcr] Hl EH EL HQ. apply (wp_release H L h lk); try done.
  by rewrite Hl, Hcr.
Qed.
Lemma enter_eq s : settled (view H s) -> unheld (view L s) ->
  acquire H L s = Ret tt (enter s).
Proof using All. intros Hs Hl. apply wp_ret_eq. by apply wp_enter. Qed.
Lemma leave_eq h lk s : settled h -> unheld lk -> view H s = pushed h ->
  view L s = taken lk (h_tp h) -> release H L s = Ret tt (update L lk (update H h s)).
Proof using All. intros. apply wp_ret_eq. by apply (wp_leave h lk). Qed.
Lemma enter_hart s : view H (enter s) = pushed (view H s).
Proof using All. unfold enter. by rewrite (indep_view' H L), view_update. Qed.
Lemma enter_lock s : view L (enter s) = taken (view L s) (h_tp (view H s)).
Proof using All. unfold enter. by rewrite view_update. Qed.
Lemma enter_frame {T} (P : lens S T) `{!LensIndep H P, !LensIndep L P} s :
  view P (enter s) = view P s.
Proof using All. unfold enter. by rewrite (indep_view L P), (indep_view H P). Qed.
End Settled.

(** * Any sequence of nested sections *)

Definition nest_op (push : bool) : M hart unit := if push then push_off else pop_off.

(** The depth after a sequence of operations; [None] where it would go below
    zero or beyond what an [int] holds. *)
Fixpoint depth (d : Z) (ops : list bool) : option Z :=
  match ops with
  | [] => Some d
  | true :: ops' => if d <? 2 ^ 31 - 2 then depth (d + 1) ops' else None
  | false :: ops' => if 0 <? d then depth (d - 1) ops' else None
  end.

(** A hart [d] sections deep, entered from a hart whose CRMD was [crmd]. *)
Record nested (crmd d : Z) (h : hart) : Prop := {
  ne_tp : (h_tp h < length (h_cpus h))%nat;
  ne_noff : c_noff (view mycpu_l h) = d;
  ne_d : 0 <= d < 2 ^ 31 - 1;
  ne_crmd : h_crmd h = if d =? 0 then crmd else Z.land crmd (Z.lnot CSR_CRMD_IE);
  ne_intena : 0 < d ->
    c_intena (view mycpu_l h) = b2z (truth (Z.land crmd CSR_CRMD_IE))
}.

Lemma nested_push crmd d h :
  0 <= crmd -> nested crmd d h -> d < 2 ^ 31 - 2 ->
  wp push_off (fun _ => nested crmd (d + 1)) h.
Proof.
  intros Hc [Htp Hn Hd Hcr Hi] Hlt. eapply wp_eq; [by apply push_off_eq|].
  assert (view mycpu_l (pushed h) = Cpu (c_proc (view mycpu_l h)) (d + 1)
    (if d =? 0 then b2z (truth (Z.land (h_crmd h) CSR_CRMD_IE))
     else c_intena (view mycpu_l h))) as Hv.
  { unfold pushed. rewrite view_mycpu_update by done. rewrite Hn.
    by rewrite s32_small by lia. }
  split; rewrite ?Hv; cbn [c_noff c_intena].
  - unfold pushed. simpl. by rewrite length_insert.
  - done.
  - lia.
  - rewrite (proj2 (Z.eqb_neq (d + 1) 0)) by lia. unfold pushed. simpl. rewrite Hcr.
    destruct (d =? 0); [done|]. by rewrite <- Z.land_assoc, Z.land_diag.
  - intros _. destruct (Z.eqb_spec d 0) as [->|].
    + by rewrite Hcr.
    + apply Hi. lia.
Qed.

Lemma nested_pop crmd d h :
  0 <= crmd -> nested crmd d h -> 0 < d ->
  wp pop_off (fun _ => nested crmd (d - 1)) h.
Proof.
  intros Hc [Htp Hn Hd Hcr Hi] Hpos. specialize (Hi Hpos).
  rewrite (proj2 (Z.eqb_neq d 0)) in Hcr by lia.
  assert (Z.land (h_crmd h) CSR_CRMD_IE = 0) as Hie by (rewrite Hcr; apply land_ie_off).
  destruct h as [tp cr cpus]. simpl in Htp, Hn, Hcr, Hi, Hie.
  assert (pop_off (Hart tp cr cpus) = Ret tt (popped (Hart tp cr cpus))) as E.
  { unfold pop_off, popped, intr_get, intr_on. mrun. rewrite Hie. cbn.
    destruct (default cpu0 (cpus !! tp)) as [p n ie] eqn:Hcpu. cbn in *.
    destruct (Z.ltb_spec n 1); [lia|]. cbn.
    rewrite list_lookup_insert_eq by done. cbn. rewrite Hcpu. cbn.
    by destruct ((n - 1 =? 0) && truth ie). }
  eapply wp_eq; [exact E|]. unfold popped.
  destruct (default cpu0 (cpus !! tp)) as [p n ie] eqn:Hcpu. simpl in *.
  rewrite Hcpu. simpl. subst n ie.
  split; simpl; rewrite ?length_insert, ?list_lookup_insert_eq by done; simpl;
    try done; try lia.
  destruct (Z.eqb_spec (d - 1) 0); simpl; [|done].
  subst cr. destruct (Z.eqb_spec (Z.land crmd CSR_CRMD_IE) 0) as [H0|H0];
    unfold truth; rewrite ?H0; cbn.
  - by apply land_off_id.
  - rewrite (proj2 (Z.eqb_neq _ _) H0). cbn. by apply lor_ie_back.
Qed.

Lemma nested_ops crmd ops d d' h :
  0 <= crmd -> nested crmd d h -> depth d ops = Some d' ->
  wp (for_each ops nest_op) (fun _ => nested crmd d') h.
Proof.
  intros Hc. revert d h. induction ops as [|b ops IH]; intros d h Hn Hd; simpl in *.
  - injection Hd as <-. by apply wp_mret.
  - apply wp_bind. destruct b; simpl.
    + destruct (Z.ltb_spec d 2147483646); [|done].
      eapply wp_mono; [by apply nested_push|]. intros [] h' Hn'. by apply (IH (d + 1)).
    + destruct (Z.ltb_spec 0 d); [|done].
      eapply wp_mono; [by apply nested_pop|]. intros [] h' Hn'. by apply (IH (d - 1)).
Qed.

(** * Harts racing for one lock

    [acquire] and [release] split at their accesses to the shared words; each
    access is one step, run with the operations above on the hart's id.  A
    schedule is the list of the harts that take a step, so the lists range over
    every interleaving. *)

Module Race.
Inductive pc :=
| Out      (** not in the section *)
| Asked    (** [acquire] has seen the lock taken, in [holding]; [lk->cpu] still to be read *)
| Try      (** spinning on [__sync_lock_test_and_set] *)
| Got      (** swapped 1 in for 0; [lk->cpu] still to be set *)
| In       (** returned from [acquire] *)
| Mine     (** [release] has seen the lock taken; [lk->cpu] still to be read *)
| Drop     (** [release] has passed its [holding] check *)
| Clear.   (** [lk->cpu = 0] done; [__sync_lock_release] still to come *)

Record sys := Sys { y_lk : spinlock; y_pc : list pc }.
#[export] Instance pc_eq_dec : EqDecision pc.
Proof. solve_decision. Defined.

Definition lk_l : lens sys spinlock := Lens y_lk (fun v y => Sys v (y_pc y)).
Definition pc_l (i : nat) : lens sys pc :=
  Lens (fun y => default Out (y_pc y !! i)) (fun v y => Sys (y_lk y) (<[i := v]> (y_pc y))).

Definition step (i : nat) : M sys unit :=
  p ← rd (pc_l i);
  lk ← rd lk_l;
  match p with
  | Out => pc_l i <~ (if truth (locked lk) then Asked else Try)
  | Asked => if bool_decide (lk_cpu lk = Some i) then panic "acquire" else pc_l i <~ Try
  | Try => old ← test_and_set lk_l; pc_l i <~ (if old =? 0 then Got else Try)
  | Got => _ ← lk_l ⊚ lk_cpu_l <~ Some i; pc_l i <~ In
  | In => if truth (locked lk) then pc_l i <~ Mine else panic "release"
  | Mine => if bool_decide (lk_cpu lk = Some i) then pc_l i <~ Drop else panic "release"
  | Drop => _ ← lk_l ⊚ lk_cpu_l <~ None; pc_l i <~ Clear
  | Clear => _ ← lk_l ⊚ locked_l <~ 0; pc_l i <~ Out
  end.

(** Inside: between the winning swap and the releasing store. *)
Definition inside (p : pc) : bool :=
  match p with Got | In | Mine | Drop | Clear => true | Out | Asked | Try => false end.
Definition owns (p : pc) : bool := match p with In | Mine | Drop => true | _ => false end.

(** [o] is the hart inside, if any; the lock word and [lk->cpu] follow it. *)
Definition owned (o : option nat) (y : sys) : Prop :=
  (forall j q, y_pc y !! j = Some q -> inside q = true -> o = Some j) /\
  match o with
  | None => locked (y_lk y) = 0 /\ lk_cpu (y_lk y) = None
  | Some i => exists p, y_pc y !! i = Some p /\ inside p = true
      /\ locked (y_lk y) = 1 /\ lk_cpu (y_lk y) = if owns p then Some i else None
  end.
Definition inv (y : sys) : Prop := exists o, owned o y.

Lemma owned_outside o lk pcs i q :
  owned o (Sys lk pcs) -> o <> Some i -> inside q = false ->
  owned o (Sys lk (<[i := q]> pcs)).
Proof.
  intros [Hex Ho] Hne Hq. split.
  - intros j r [(-> & <- & _)|[Hj Hr]]%list_lookup_insert_Some Hin; [congruence|].
    by apply (Hex j r).
  - destruct o as [k|]; [|done]. destruct Ho as (p & Hp & Hrest). exists p.
    simpl. rewrite list_lookup_insert_ne by congruence. done.
Qed.

Lemma owned_inside lk pcs i q lk' :
  owned None (Sys lk pcs) \/ owned (Some i) (Sys lk pcs) ->
  (i < length pcs)%nat -> inside q = true -> locked lk' = 1 ->
  lk_cpu lk' = (if owns q then Some i else None) ->
  owned (Some i) (Sys lk' (<[i := q]> pcs)).
Proof.
  intros Ho Hi Hq Hl Hc. split.
  - intros j r [(-> & <- & _)|[Hj Hr]]%list_lookup_insert_Some Hin; [done|].
    destruct Ho as [[Hex _]|[Hex _]]; [by pose proof (Hex j r Hr Hin)|by apply (Hex j r)].
  - exists q. simpl. by rewrite list_lookup_insert_eq.
Qed.

Lemma owned_leave lk pcs i q lk' :
  owned (Some i) (Sys lk pcs) -> inside q = false ->
  locked lk' = 0 -> lk_cpu lk' = None ->
  owned None (Sys lk' (<[i := q]> pcs)).
Proof.
  intros [Hex _] Hq Hl Hc. split; [|done].
  intros j r [(-> & <- & _)|[Hj Hr]]%list_lookup_insert_Some Hin; [congruence|].
  pose proof (Hex j r Hr Hin). congruence.
Qed.

(** Reading the lock tells a hart whether it is the one that holds it. *)
Lemma owned_cpu o y i p : owned o y -> y_pc y !! i = Some p ->
  bool_decide (lk_cpu (y_lk y) = Some i) = owns p.
Proof.
  intros [Hex Ho] Hp. destruct o as [k|].
  - destruct Ho as (r & Hr & Hin & _ & ->). destruct (decide (k = i)) as [->|Hne].
    + assert (r = p) as -> by congruence. by destruct (owns p); [rewrite bool_decide_eq_true_2|].
    + assert (inside p = false) as Hpf
        by (apply not_true_is_false; intros Hpi; pose proof (Hex i p Hp Hpi); congruence).
      assert (owns p = false) as -> by (by destruct p).
      apply bool_decide_eq_false. destruct (owns r); congruence.
  - destruct Ho as [_ ->]. destruct (owns p) eqn:E; [|done].
    assert (inside p = true) as Hin by (by destruct p). by pose proof (Hex i p Hp Hin).
Qed.
Lemma owned_locked o y i p : owned o y -> y_pc y !! i = Some p -> inside p = true ->
  locked (y_lk y) = 1 /\ lk_cpu (y_lk y) = if owns p then Some i else None.
Proof.
  intros [Hex Ho] Hp Hin. rewrite (Hex i p Hp Hin) in Ho. destruct Ho as (r & Hr & _ & Hlk).
  by replace r with p in Hlk by congruence.
Qed.
Lemma owned_held o y i p : owned o y -> y_pc y !! i = Some p ->
  held_by (y_lk y) i = owns p.
Proof.
  intros Ho Hp. unfold held_by. rewrite (owned_cpu o y i p) by done.
  destruct (owns p) eqn:E; [|apply andb_false_r].
  assert (inside p = true) as Hin by (by destruct p).
  by destruct (owned_locked o y i p Ho Hp Hin) as [-> _].
Qed.

Lemma step_inv i y : (i < length (y_pc y))%nat -> inv y ->
  wp (step i) (fun _ y' => inv y' /\ length (y_pc y') = length (y_pc y)) y.
Proof.
  intros Hi [o Ho]. destruct y as [lk pcs]. simpl in Hi.
  destruct (lookup_lt_is_Some_2 _ _ Hi) as [p Hp].
  pose proof (owned_cpu o _ i p Ho Hp) as Hcpu. simpl in Hcpu.
  assert (inside p = false -> o <> Some i) as Hout.
  { intros Hf ->. destruct Ho as [_ (r & Hr & Hin & _)]. simpl in Hr. congruence. }
  assert (inside p = true -> o = Some i) as Hin by (apply Ho, Hp).
  unfold step, test_and_set, wp. mrun. rewrite Hp. cbn.
  assert (inside p = true -> locked lk = 1 /\ lk_cpu lk = if owns p then Some i else None)
    as Hlk.
  { exact (owned_locked o _ i p Ho Hp). }
  destruct p; cbn; rewrite ?Hcpu, ?(proj1 (Hlk eq_refl)); cbn; rewrite ?length_insert; (split; [|done]).
  - exists o. apply owned_outside; [done|auto|by destruct (truth _)].
  - exists o. apply owned_outside; auto.
  - destruct (Z.eqb_spec (locked lk) 0) as [H0|H0]; cbn.
    + destruct o as [k|]; [destruct Ho as [_ (r & _ & _ & Hl & _)]; simpl in Hl; lia|].
      exists (Some i). apply (owned_inside lk); auto. apply Ho.
    + destruct o as [k|]; [|by destruct Ho as [_ [Hl _]]].
      exists (Some k). destruct lk as [l nm c]. destruct (Ho) as [_ (r & _ & _ & Hl & _)].
      simpl in Hl. subst l. apply owned_outside; auto.
  - exists (Some i). rewrite (Hin eq_refl) in Ho. destruct (Hlk eq_refl).
    apply (owned_inside lk); auto.
  - exists (Some i). rewrite (Hin eq_refl) in Ho. destruct (Hlk eq_refl).
    apply (owned_inside lk); auto.
  - exists (Some i). rewrite (Hin eq_refl) in Ho. destruct (Hlk eq_refl).
    apply (owned_inside lk); auto.
  - exists (Some i). rewrite (Hin eq_refl) in Ho. destruct (Hlk eq_refl).
    apply (owned_inside lk); auto.
  - exists None. rewrite (Hin eq_refl) in Ho. destruct (Hlk eq_refl).
    apply (owned_leave lk pcs i); auto.
Qed.

Lemma run_inv sched y : Forall (fun i => (i < length (y_pc y))%nat) sched -> inv y ->
  wp (for_each sched step) (fun _ y' => inv y' /\ length (y_pc y') = length (y_pc y)) y.
Proof.
  revert y. induction sched as [|i sched IH]; intros y Hs Hy; simpl.
  - by apply wp_mret.
  - apply Forall_cons in Hs as [Hi Hs]. apply wp_bind.
    eapply wp_mono; [by apply step_inv|]. intros [] y' [Hy' Hlen].
    eapply wp_mono; [apply IH; [by rewrite Hlen|done]|].
    intros [] y'' [Hy'' Hlen']. split; [done|congruence].
Qed.

Definition start (n : nat) (name : string) : sys := Sys (Spin 0 name None) (replicate n Out).

Lemma start_inv n name : inv (start n name).
Proof.
  exists None. split; [|done]. intros j q [-> _]%lookup_replicate Hin. done.
Qed.
End Race.

(** * Properties *)

(** C22. Interrupts nest: after any sequence of [push_off] and [pop_off] calls
    that never pops more than it pushed, the processor's interrupt flag is off
    while the nesting depth is positive and is back to what it was before the
    first push when the depth returns to 0 (no other CRMD bit ever changes);
    one [pop_off] too many panics. *)
Theorem push_pop_nesting (tp : nat) (crmd : Z) (cpus : list cpu) (ops : list bool) (d : Z) :
  0 <= crmd -> (tp < length cpus)%nat ->
  c_noff (view mycpu_l (Hart tp crmd cpus)) = 0 ->
  depth 0 ops = Some d ->
  wp (for_each ops nest_op)
    (fun _ h => c_noff (view mycpu_l h) = d
       /\ h_crmd h = (if d =? 0 then crmd else Z.land crmd (Z.lnot CSR_CRMD_IE))
       /\ (d = 0 -> exists msg, pop_off h = Panic msg))
    (Hart tp crmd cpus).
Proof.
  intros Hc Htp Hn Hd.
  eapply wp_mono; [apply (nested_ops crmd ops 0 d); [done| |done]|].
  - split; [done|done|lia|done|lia].
  - intros [] h [Hlt Hd' _ Hcr _]. split; [done|]. split; [done|]. intros ->.
    unfold pop_off, intr_get. mrun.
    destruct (truth _); [by eexists|]. simpl in Hd'. rewrite Hd'. by eexists.
Qed.

Example push_pop_nesting_witness :
  wp (for_each [true; true; false; true; false; false] nest_op)
    (fun _ h => c_noff (view mycpu_l h) = 0 /\ h_crmd h = 4
       /\ (0 = 0 -> exists msg, pop_off h = Panic msg))
    (Hart 1 4 [cpu0; cpu0]).
Proof. apply (push_pop_nesting 1 4 [cpu0; cpu0] [true; true; false; true; false; false] 0);
  [lia|simpl; lia|reflexivity|reflexivity]. Defined.

(** C23. The contract of a spin lock, for a lock and a hart that are parts of
    any larger state: acquiring a free lock and releasing it leaves the lock
    free and the rest of the state, the interrupt flag and the nesting depth
    as they were; acquiring a lock this hart holds panics, and so does releasing
    a free lock.  With a lock that is taken by another hart, or by one that has
    not said yet that it has it: releasing it panics; acquiring it does not,
    but spins, interrupts off and the lock as it is, until the lock is free,
    whatever else has happened by then, and takes it. *)
Theorem spinlock_contract {S : Type} (H : lens S hart) (L : lens S spinlock)
    `{!LensLaws H, !LensPut L, !LensIndep H L} (s : S) :
  hart_ok (view H s) -> c_noff (view mycpu_l (view H s)) < 2 ^ 31 - 2 ->
  locked (view L s) = 0 ->
  (acquire H L ;; release H L) s
    = Ret tt (update L (freed (view L s)) (update H (crit (view H s)) s))
  /\ h_crmd (crit (view H s)) = h_crmd (view H s)
  /\ c_noff (view mycpu_l (crit (view H s))) = c_noff (view mycpu_l (view H s))
  /\ (acquire H L ;; acquire H L) s = Panic "acquire"
  /\ release H L s = Panic "release"
  /\ forall o, o <> Some (h_tp (view H s)) ->
       let s' := update L (Spin 1 (lk_name (view L s)) o) s in
       release H L s' = Panic "release"
       /\ exists rest, acquire H L s' = Yield WSpin rest (update H (pushed (view H s)) s')
         /\ forall s2, locked (view L s2) = 0 ->
              rest s2 = Ret tt (update L (taken (view L s2) (h_tp (view H s2))) s2).
Proof.
  intros Hok Hn H0. pose proof (pushed_ok _ Hok Hn) as [Hok' Hn'].
  set (s1 := update L (taken (view L s) (h_tp (view H s))) (update H (pushed (view H s)) s)).
  assert (view H s1 = pushed (view H s)) as EH
    by (unfold s1; by rewrite (indep_view' H L), view_update).
  assert (view L s1 = taken (view L s) (h_tp (view H s))) as EL
    by (unfold s1; by rewrite view_update).
  assert (held_by (view L s1) (h_tp (view H s1)) = true) as Hh.
  { rewrite EH, EL. unfold held_by. simpl. by apply bool_decide_eq_true. }
  pose proof (acquire_free H L s Hok H0) as Hacq. fold s1 in Hacq.
  repeat split.
  - rewrite (bind_ret _ _ _ _ _ Hacq).
    pose proof (ok_noff _ Hok).
    rewrite (release_held H L s1); [|by rewrite EH|rewrite EH; lia|done].
    rewrite EH, EL. unfold s1, crit.
    by rewrite (indep_comm H L), !update_update.
  - by rewrite crit_eq.
  - rewrite crit_eq by done. rewrite view_mycpu_update; [done|apply Hok].
  - rewrite (bind_ret _ _ _ _ _ Hacq). unfold acquire, holding, cpuid.
    rewrite (bind_ret _ _ s1 tt (update H (pushed (view H s1)) s1))
      by (apply zoom_ret, push_off_eq; rewrite EH; apply Hok').
    mrun. rewrite !(indep_view H L), !view_update. rewrite EH, EL in *.
    unfold held_by in *. simpl in Hh |- *.
    change (h_tp (pushed (pushed (view H s)))) with (h_tp (view H s)).
    by rewrite bool_decide_eq_true_2.
  - unfold release, holding, cpuid. mrun. unfold held_by. rewrite !update_view, H0. done.
  - by apply other_holds.
  - by apply other_spins.
Qed.

Definition hart1 : hart := Hart 1 4 [cpu0; cpu0].

Lemma hart1_ok : hart_ok hart1.
Proof. split; simpl; lia. Qed.

Example spinlock_contract_witness :
  let s := (hart1, Spin 0 "kmem" None) in
  (acquire fst_l snd_l ;; release fst_l snd_l) s
    = Ret tt (update snd_l (freed (view snd_l s)) (update fst_l (crit (view fst_l s)) s))
  /\ h_crmd (crit (view fst_l s)) = h_crmd (view fst_l s)
  /\ c_noff (view mycpu_l (crit (view fst_l s))) = c_noff (view mycpu_l (view fst_l s))
  /\ (acquire fst_l snd_l ;; acquire fst_l snd_l) s = Panic "acquire"
  /\ release fst_l snd_l s = Panic "release"
  /\ forall o, o <> Some (h_tp (view fst_l s)) ->
       let s' := update snd_l (Spin 1 (lk_name (view snd_l s)) o) s in
       release fst_l snd_l s' = Panic "release"
       /\ exists rest, acquire fst_l snd_l s' = Yield WSpin rest (update fst_l (pushed (view fst_l s)) s')
         /\ forall s2, locked (view snd_l s2) = 0 ->
              rest s2 = Ret tt (update snd_l (taken (view snd_l s2) (h_tp (view fst_l s2))) s2).
Proof. apply (spinlock_contract fst_l snd_l (hart1, Spin 0 "kmem" None)); [apply hart1_ok|simpl; lia|reflexivity]. Defined.

(** C7. Mutual exclusion: whatever the number of harts and whatever order the
    accesses of their [acquire] and [release] calls reach the lock in, two
    harts are never both between the swap that takes the lock and the store
    that frees it, the lock word says whether one of them is, [holding]
    answers truthfully, and neither function panics. *)
Theorem lock_mutual_exclusion (n : nat) (name : string) (sched : list nat) :
  Forall (fun i => (i < n)%nat) sched ->
  wp (for_each sched Race.step)
    (fun _ y =>
       (forall i j p q, Race.y_pc y !! i = Some p -> Race.y_pc y !! j = Some q ->
          Race.inside p = true -> Race.inside q = true -> i = j)
       /\ (locked (Race.y_lk y) = 0 <->
           forall i p, Race.y_pc y !! i = Some p -> Race.inside p = false)
       /\ (forall i p, Race.y_pc y !! i = Some p ->
             held_by (Race.y_lk y) i = Race.owns p))
    (Race.start n name).
Proof.
  intros Hs. eapply wp_mono; [apply Race.run_inv|].
  - simpl. by rewrite length_replicate.
  - apply Race.start_inv.
  - intros [] y [[o Ho] _]. split; [|split].
    + intros i j p q Hp Hq Hip Hiq. destruct Ho as [Hex _].
      pose proof (Hex i p Hp Hip). pose proof (Hex j q Hq Hiq). congruence.
    + destruct o as [k|].
      * destruct Ho as [_ (r & Hr & Hin & Hl & _)]. split; [lia|].
        intros Hall. specialize (Hall k r Hr). congruence.
      * destruct Ho as [Hex [Hl _]]. split; [|done]. intros _ i p Hp.
        apply not_true_is_false. intros Hin. by pose proof (Hex i p Hp Hin).
    + intros i p. by apply Race.owned_held with (o := o).
Qed.

Example lock_mutual_exclusion_witness :
  wp (for_each [0; 1; 0; 1; 1; 0; 1; 0; 0; 0; 1; 1]%nat Race.step)
    (fun _ y =>
       (forall i j p q, Race.y_pc y !! i = Some p -> Race.y_pc y !! j = Some q ->
          Race.inside p = true -> Race.inside q = true -> i = j)
       /\ (locked (Race.y_lk y) = 0 <->
           forall i p, Race.y_pc y !! i = Some p -> Race.inside p = false)
       /\ (forall i p, Race.y_pc y !! i = Some p ->
             held_by (Race.y_lk y) i = Race.owns p))
    (Race.start 2 "lock").
Proof. apply lock_mutual_exclusion. repeat constructor. Defined.
