(* ===== verification/Kalloc.v ===== *)
(** The physical page allocator (kernel/kalloc.c).

    The free list is threaded through the free pages themselves: [kfree]
    stores the old head of the list in the first eight bytes of the page, and
    [kalloc] reads it back from there.  [kst] is the state of the allocator
    with the memory it manages and the processor it runs on; [kernel_end] is
    the linker's symbol for the first address after the kernel. *)

From S2P Require Import Prelude Mem Locks.

Definition PGSIZE : Z := 4096.
Definition PGSHIFT : Z := 12.
Definition DMWIN_MASK : Z := 0x9000000000000000.
Definition RAMBASE : Z := Z.lor 0x90000000 DMWIN_MASK.
Definition RAMSTOP : Z := RAMBASE + 128 * 1024 * 1024.

(** [~(PGSIZE-1)] is the [int] -4096, sign-extended by the conversion. *)
Definition PGROUNDUP (sz : Z) : Z := Z.land (u64 (u64 (sz + PGSIZE) - 1)) (u64 (Z.lnot (PGSIZE - 1))).
Definition PGROUNDDOWN (a : Z) : Z := Z.land a (u64 (Z.lnot (PGSIZE - 1))).

Lemma rd8_memset_page m dst c b :
  rd8 (memset m dst c PGSIZE) b = if decide (dst <= b < dst + PGSIZE) then u8 c else rd8 m b.
Proof. by apply rd8_memset. Qed.

(** A call of [printf]: the format, without the newline that ends it, and the
    arguments. *)
Abbreviation kline := (string * list Z)%type.

Record kst := Kst {
  k_hart : hart;
  k_lock : spinlock;     (** [kmem.lock] *)
  k_freelist : Z;        (** [kmem.freelist] *)
  k_npage : Z;           (** [kmem.npage] *)
  k_mem : mem;
  k_kpt : Z;             (** [kernel_pagetable] of kernel/vm.c *)
  k_said : list kline    (** what the code below the console has printed *)
}.

Definition k_hart_l : lens kst hart :=
  Lens k_hart (fun v k => Kst v (k_lock k) (k_freelist k) (k_npage k) (k_mem k) (k_kpt k) (k_said k)).
Definition k_lock_l : lens kst spinlock :=
  Lens k_lock (fun v k => Kst (k_hart k) v (k_freelist k) (k_npage k) (k_mem k) (k_kpt k) (k_said k)).
Definition k_freelist_l : lens kst Z :=
  Lens k_freelist (fun v k => Kst (k_hart k) (k_lock k) v (k_npage k) (k_mem k) (k_kpt k) (k_said k)).
Definition k_npage_l : lens kst Z :=
  Lens k_npage (fun v k => Kst (k_hart k) (k_lock k) (k_freelist k) v (k_mem k) (k_kpt k) (k_said k)).
Definition k_mem_l : lens kst mem :=
  Lens k_mem (fun v k => Kst (k_hart k) (k_lock k) (k_freelist k) (k_npage k) v (k_kpt k) (k_said k)).
Definition k_kpt_l : lens kst Z :=
  Lens k_kpt (fun v k => Kst (k_hart k) (k_lock k) (k_freelist k) (k_npage k) (k_mem k) v (k_said k)).
Definition k_said_l : lens kst (list kline) :=
  Lens k_said (fun v k => Kst (k_hart k) (k_lock k) (k_freelist k) (k_npage k) (k_mem k) (k_kpt k) v).

(** The lines [l] printed. *)
Definition says (l : list kline) (k : kst) : kst := update k_said_l (k_said k ++ l) k.
(** [printf] where there is no console yet to run it on: the call is recorded. *)
Definition kprintf (fmt : string) (ap : list Z) : M kst unit := md k_said_l (fun l => l ++ [(fmt, ap)]).

#[export] Instance k_hart_laws : LensLaws k_hart_l.
Proof. by split; intros; repeat match goal with k : kst |- _ => destruct k end. Qed.
#[export] Instance k_lock_laws : LensLaws k_lock_l.
Proof. by split; intros; repeat match goal with k : kst |- _ => destruct k end. Qed.
#[export] Instance k_hart_lock_indep : LensIndep k_hart_l k_lock_l.
Proof. by split. Qed.

Section Kalloc.
Variable kernel_end : Z.

Definition kfree (pa : Z) : M kst unit :=
  if negb (pa mod PGSIZE =? 0) || (pa <? kernel_end) || (RAMSTOP <=? pa)
  then panic "kfree"
  else
    _ ← md k_mem_l (fun m => memset m pa 1 PGSIZE);
    _ ← acquire k_hart_l k_lock_l;
    fl ← rd k_freelist_l;
    _ ← md k_mem_l (fun m => wr64 m pa fl);
    _ ← k_freelist_l <~ pa;
    _ ← md k_npage_l (fun n => u64 (n + 1));
    release k_hart_l k_lock_l.

Definition kalloc : M kst Z :=
  _ ← acquire k_hart_l k_lock_l;
  r ← rd k_freelist_l;
  _ ← when (truth r)
        (m ← rd k_mem_l;
         _ ← k_freelist_l <~ rd64 m r;
         md k_npage_l (fun n => u64 (n - 1)));
  _ ← release k_hart_l k_lock_l;
  _ ← (if truth r then md k_mem_l (fun m => memset m r 5 PGSIZE) else kprintf "kalloc out of memory" []);
  mret r.

(** The loop's pages: [p], [p + PGSIZE], ... while a whole page is below the
    end. *)
Definition range_pages (pa_start pa_end : Z) : list Z :=
  let p := PGROUNDUP pa_start in
  map (fun i => p + i * PGSIZE) (seqZ 0 ((pa_end - p) / PGSIZE)).

(** The loop of [freerange]. *)
Definition free_pages (pa_start pa_end : Z) : M kst unit :=
  for_each (range_pages pa_start pa_end) kfree.
Definition freerange (pa_start pa_end : Z) : M kst unit :=
  _ ← kprintf "freerange: pa_start: %p, pa_end: %p" [pa_start; pa_end];
  free_pages pa_start pa_end.

Definition kinit : M kst unit :=
  _ ← initlock k_lock_l "kmem";
  _ ← k_freelist_l <~ 0;
  _ ← k_npage_l <~ 0;
  _ ← kprintf "kernel_end: %p, RAMSTOP: %p" [kernel_end; RAMSTOP];
  _ ← freerange kernel_end RAMSTOP;
  kprintf "kernel_end: %p, RAMSTOP: %p" [kernel_end; RAMSTOP].

Definition freemem_amount : M kst Z :=
  _ ← acquire k_hart_l k_lock_l;
  amount ← rd k_npage_l;
  _ ← release k_hart_l k_lock_l;
  mret (u64 (Z.shiftl amount PGSHIFT)).

(** * Functional behaviour *)

Definition page_ok (p : Z) : Prop := p mod PGSIZE = 0 /\ kernel_end <= p < RAMSTOP.
#[export] Instance page_ok_dec p : Decision (page_ok p) := _.

Lemma kfree_eq pa h lk fl n m kpt o :
  calm h -> locked lk = 0 -> page_ok pa ->
  kfree pa (Kst h lk fl n m kpt o)
  = Ret tt (Kst (crit h) (freed lk) pa (u64 (n + 1))
              (wr64 (memset m pa 1 PGSIZE) pa fl) kpt o).
Proof.
  intros Hh Hl [Hal Hr]. apply wp_ret_eq. unfold kfree.
  rewrite Hal. destruct (Z.ltb_spec pa kernel_end); [lia|].
  destruct (Z.leb_spec RAMSTOP pa); [lia|]. cbn [negb orb Z.eqb].
  wp_run. apply (wp_acquire k_hart_l k_lock_l); [done..|]. cbn.
  wp_run. apply (wp_release k_hart_l k_lock_l h lk); done.
Qed.

Lemma kfree_bad pa k : ~ page_ok pa -> kfree pa k = Panic "kfree".
Proof.
  intros Hbad. unfold kfree.
  destruct (negb (pa mod PGSIZE =? 0) || (pa <? kernel_end) || (RAMSTOP <=? pa)) eqn:E; [done|].
  destruct Hbad. apply orb_false_iff in E as [E E3%Z.leb_gt].
  apply orb_false_iff in E as [E1%negb_false_iff%Z.eqb_eq E2%Z.ltb_ge]. split; lia.
Qed.

Lemma kalloc_eq h lk fl n m kpt o :
  calm h -> locked lk = 0 ->
  kalloc (Kst h lk fl n m kpt o)
  = if truth fl
    then Ret fl (Kst (crit h) (freed lk) (rd64 m fl) (u64 (n - 1)) (memset m fl 5 PGSIZE) kpt o)
    else Ret fl (Kst (crit h) (freed lk) fl n m kpt (o ++ [("kalloc out of memory", [])])).
Proof.
  intros Hh Hl. destruct (truth fl) eqn:Hfl.
  - apply wp_ret_eq. unfold kalloc.
    wp_run. apply (wp_acquire k_hart_l k_lock_l); [done..|]. cbn.
    wp_run. cbn. rewrite Hfl. wp_run.
    apply (wp_release k_hart_l k_lock_l h lk); [done..|]. cbn. wp_run. done.
  - apply wp_ret_eq. unfold kalloc.
    wp_run. apply (wp_acquire k_hart_l k_lock_l); [done..|]. cbn.
    wp_run. cbn. rewrite Hfl. wp_run.
    apply (wp_release k_hart_l k_lock_l h lk); [done..|]. cbn. wp_run. done.
Qed.

Lemma freemem_eq h lk fl n m kpt o :
  calm h -> locked lk = 0 ->
  freemem_amount (Kst h lk fl n m kpt o)
  = Ret (u64 (Z.shiftl n PGSHIFT)) (Kst (crit h) (freed lk) fl n m kpt o).
Proof.
  intros Hh Hl. apply wp_ret_eq. unfold freemem_amount.
  wp_run. apply (wp_acquire k_hart_l k_lock_l); [done..|]. cbn.
  wp_run. apply (wp_release k_hart_l k_lock_l h lk); [done..|]. cbn. by wp_run.
Qed.

(** * The free list as a list of pages *)

Fixpoint chain (m : mem) (p : Z) (pages : list Z) : Prop :=
  match pages with
  | [] => p = 0
  | q :: pages' => p = q /\ chain m (rd64 m q) pages'
  end.

Record kmem_ok (pages : list Z) (k : kst) : Prop := {
  km_calm : calm (k_hart k);
  km_lock : locked (k_lock k) = 0;
  km_chain : chain (k_mem k) (k_freelist k) pages;
  km_pages : Forall page_ok pages;
  km_nodup : NoDup pages;
  km_npage : k_npage k = Z.of_nat (length pages)
}.

Lemma says_ok pages l k : kmem_ok pages k -> kmem_ok pages (says l k).
Proof. intros [H1 H2 H3 H4 H5 H6]. by split. Qed.

(** Two pages do not overlap. *)
Lemma page_apart p q : page_ok p -> page_ok q -> p <> q -> q + PGSIZE <= p \/ p + PGSIZE <= q.
Proof. intros [Hp _] [Hq _] Hne. unfold PGSIZE in *. zlia. Qed.

(** The list is in the bytes of the free pages only. *)
Lemma chain_ext m m' p pages :
  (forall q, q ∈ pages -> rd64 m' q = rd64 m q) -> chain m p pages -> chain m' p pages.
Proof.
  revert p. induction pages as [|q pages IH]; intros p Hm; simpl; [done|].
  intros [-> Hc]. split; [done|]. rewrite Hm by left. apply IH; [|done].
  intros r Hr. apply Hm. by right.
Qed.

(** Writing to a page off the list keeps the list. *)
Lemma chain_off m m' p pages pa :
  Forall page_ok pages -> page_ok pa -> pa ∉ pages ->
  (forall b, ~ (pa <= b < pa + PGSIZE) -> rd8 m' b = rd8 m b) ->
  chain m p pages -> chain m' p pages.
Proof.
  intros Hpg Hpa Hnin Hm. apply chain_ext. intros q Hq.
  apply rdn_ext. intros i Hi. apply Hm.
  assert (page_ok q) as Hq' by (by eapply Forall_forall in Hpg).
  destruct (page_apart pa q) as [?|?]; [done..|congruence| |];
    unfold PGSIZE in *; lia.
Qed.

Context (Hend : 0 < kernel_end <= RAMSTOP).

Lemma page_pos p : page_ok p -> truth p = true.
Proof using Hend. intros [_ ?]. unfold truth. rewrite (proj2 (Z.eqb_neq p 0)); [done|lia]. Qed.

Lemma pages_bound pages :
  Forall page_ok pages -> NoDup pages -> Z.of_nat (length pages) <= RAMSTOP.
Proof using Hend.
  intros Hpg Hnd.
  assert (length pages <= length (seqZ 0 RAMSTOP))%nat as Hle.
  { apply submseteq_length, NoDup_submseteq; [done|]. intros p Hp.
    apply elem_of_seqZ. eapply Forall_forall in Hpg; [|done]. destruct Hpg. lia. }
  rewrite length_seqZ in Hle. apply Nat2Z.inj_le in Hle. rewrite Z2Nat.id in Hle by lia. done.
Qed.

Lemma kmem_count pages k : kmem_ok pages k -> Z.of_nat (length pages) * 4096 <= RAMSTOP.
Proof using Hend.
  intros Hk. pose proof (km_pages _ _ Hk) as Hpg. rewrite Forall_forall in Hpg.
  assert (length pages <= length (seqZ 0 (RAMSTOP / PGSIZE)))%nat as Hle.
  { rewrite <- (length_fmap (fun p => p / PGSIZE) pages).
    apply submseteq_length, NoDup_submseteq.
    - apply NoDup_fmap_2_strong; [|apply (km_nodup _ _ Hk)].
      intros x y Hx Hy. destruct (Hpg x Hx) as [Hx' _], (Hpg y Hy) as [Hy' _].
      unfold PGSIZE in *. zlia.
    - intros q (p & -> & Hp)%list_elem_of_fmap. apply elem_of_seqZ.
      destruct (Hpg p Hp) as [Hp' Hr]. assert (RAMSTOP mod PGSIZE = 0) by done.
      unfold PGSIZE in *. zlia. }
  rewrite length_seqZ in Hle. apply Nat2Z.inj_le in Hle.
  assert (RAMSTOP mod PGSIZE = 0) by done. unfold PGSIZE in *. zlia.
Qed.

Lemma kmem_len pages k : kmem_ok pages k -> Z.of_nat (length pages) < 2 ^ 64 - 1.
Proof using Hend.
  intros Hk. pose proof (pages_bound pages (km_pages _ _ Hk) (km_nodup _ _ Hk)) as Hb.
  assert (RAMSTOP < 2 ^ 64 - 1) by done. lia.
Qed.

Lemma page_addr64 m p v pages : page_ok p -> v = 0 \/ page_ok v ->
  chain (wr64 m p v) v pages -> chain (wr64 m p v) p (p :: pages).
Proof using Hend.
  intros Hp Hv Hc. split; [done|]. rewrite rd64_wr64_eq, u64_small; [done|].
  assert (RAMSTOP < 18446744073709551616) by done.
  destruct Hv as [->|[_ ?]]; lia.
Qed.

Lemma chain_head m p pages : chain m p pages -> Forall page_ok pages -> p = 0 \/ page_ok p.
Proof using Type.
  destruct pages as [|q pages]; simpl; [by left|]. intros [-> _] Hf. right.
  by apply Forall_cons in Hf as [? _].
Qed.

(** Freeing a page puts it at the front of the list and touches no other page. *)
Lemma kfree_ok pages pa k :
  kmem_ok pages k -> page_ok pa -> pa ∉ pages ->
  wp (kfree pa) (fun _ k' => kmem_ok (pa :: pages) k' /\ k_kpt k' = k_kpt k
      /\ k_hart k' = crit (k_hart k)
      /\ forall b, ~ (pa <= b < pa + PGSIZE) -> rd8 (k_mem k') b = rd8 (k_mem k) b) k.
Proof using Hend.
  intros Hk Hpa Hnin. pose proof (kmem_len _ _ Hk).
  destruct k as [h lk fl n m kpt o], Hk as [Hc Hl Hch Hpg Hnd Hn]. simpl in *.
  eapply wp_eq; [by apply kfree_eq|].
  assert (forall b, ~ (pa <= b < pa + PGSIZE) ->
    rd8 (wr64 (memset m pa 1 PGSIZE) pa fl) b = rd8 m b) as Hout.
  { intros b Hb. unfold wr64. rewrite rd8_wrn_out by (unfold PGSIZE in *; lia).
    rewrite rd8_memset_page. by rewrite decide_False. }
  split; [|done]. split; simpl; [by auto with kernel|done|..].
  - apply page_addr64; [done| |].
    + by eapply chain_head.
    + by eapply chain_off.
  - by constructor.
  - by constructor.
  - rewrite u64_small; lia.
Qed.

(** Allocating takes the page at the front, or returns 0, says so and
    changes nothing else but the lock. *)
Lemma kalloc_ok pages k :
  kmem_ok pages k ->
  wp kalloc (fun r k' => k_kpt k' = k_kpt k /\ k_hart k' = crit (k_hart k) /\
    match pages with
    | [] => r = 0 /\ kmem_ok [] k' /\ k_mem k' = k_mem k
    | p :: pages' => r = p /\ page_ok p /\ (p ∉ pages') /\ kmem_ok pages' k'
        /\ k_mem k' = memset (k_mem k) p 5 PGSIZE
    end) k.
Proof using Hend.
  intros Hk. pose proof (kmem_len _ _ Hk).
  destruct k as [h lk fl n m kpt o], Hk as [Hc Hl Hch Hpg Hnd Hn]. simpl in *.
  destruct pages as [|p pages]; simpl in *.
  - subst fl. eapply wp_eq; [by rewrite kalloc_eq|]. repeat (split; [done|]).
    split; [|done]. split; try done. by apply calm_crit.
  - destruct Hch as [-> Hch]. apply Forall_cons in Hpg as [Hp Hpg].
    apply NoDup_cons in Hnd as [Hnin Hnd].
    eapply wp_eq; [rewrite kalloc_eq by done; by rewrite page_pos|].
    repeat (split; [done|]). split; [|done]. split; simpl; [by auto with kernel|done| |done|done|].
    + eapply (chain_off m); [done..| |done].
      intros b Hb. rewrite rd8_memset_page. by rewrite decide_False.
    + rewrite u64_small; lia.
Qed.

(** * The whole range, at boot *)

Lemma free_pages_ok l pages k :
  kmem_ok pages k -> Forall page_ok l -> NoDup (l ++ pages) ->
  wp (for_each l kfree) (fun _ k' => kmem_ok (reverse l ++ pages) k' /\ k_kpt k' = k_kpt k
    /\ (settled (k_hart k) -> k_hart k' = k_hart k)
    /\ forall b, (forall p, p ∈ l -> ~ (p <= b < p + PGSIZE)) -> rd8 (k_mem k') b = rd8 (k_mem k) b) k.
Proof using Hend.
  revert pages k. induction l as [|p l IH]; intros pages k Hk Hl Hnd; simpl.
  - by apply wp_mret.
  - apply Forall_cons in Hl as [Hp Hl]. simpl in Hnd.
    apply NoDup_cons in Hnd as [Hnin Hnd]. rewrite elem_of_app in Hnin.
    apply wp_bind. eapply wp_mono; [apply (kfree_ok pages p); [done|done|tauto]|].
    intros [] k' (Hk' & Hkpt & Hh & Hm). eapply wp_mono; [apply (IH (p :: pages)); [done|done|]|].
    + rewrite <- Permutation_middle. apply NoDup_cons. rewrite elem_of_app. tauto.
    + intros [] k'' (Hk'' & Hkpt' & Hh' & Hm'). rewrite reverse_cons, <- app_assoc.
      split; [done|]. split; [congruence|]. split.
      * intros Hs. rewrite <- (proj2 Hs), <- Hh. apply Hh'. rewrite Hh. by rewrite (proj2 Hs).
      * intros b Hb. rewrite Hm', Hm; [done|apply Hb; left|]. intros q Hq. apply Hb. by right.
Qed.

Lemma round_down_spec a : 0 <= a < 2 ^ 64 -> PGROUNDDOWN a = a / PGSIZE * PGSIZE.
Proof using Type.
  intros Ha. unfold PGROUNDDOWN, u64. rewrite land_mod_r by (done || lia).
  apply (land_lnot_ones a 12). lia.
Qed.
Lemma round_up_spec a : 0 <= a < 2 ^ 64 - PGSIZE ->
  PGROUNDUP a = (a + PGSIZE - 1) / PGSIZE * PGSIZE.
Proof using Type.
  intros Ha. unfold PGROUNDUP. rewrite (u64_small (a + PGSIZE)) by (unfold PGSIZE in *; lia).
  rewrite u64_small by (unfold PGSIZE in *; lia).
  apply round_down_spec. unfold PGSIZE in *. lia.
Qed.

Lemma range_pages_ok : Forall page_ok (range_pages kernel_end RAMSTOP).
Proof using Hend.
  assert (RAMSTOP < 2 ^ 64 - PGSIZE) by done.
  unfold range_pages. rewrite round_up_spec by lia.
  apply Forall_map, Forall_forall. intros i Hi%elem_of_seqZ. unfold page_ok, PGSIZE in *.
  zlia.
Qed.

Lemma range_pages_nodup a b : NoDup (range_pages a b).
Proof using Type.
  apply NoDup_fmap_2_strong; [|apply NoDup_seqZ].
  intros x y _ _. unfold PGSIZE. lia.
Qed.

(** Every page of the range, and nothing else. *)
Lemma range_pages_elem p : p ∈ range_pages kernel_end RAMSTOP <-> page_ok p.
Proof using Hend.
  assert (RAMSTOP < 2 ^ 64 - PGSIZE) by done. split.
  - intros Hp. by eapply Forall_forall in Hp; [|apply range_pages_ok].
  - intros [Hal Hr]. unfold range_pages. rewrite round_up_spec by lia.
    apply list_elem_of_fmap. assert (RAMSTOP mod PGSIZE = 0) by done.
    exists ((p - (kernel_end + PGSIZE - 1) / PGSIZE * PGSIZE) / PGSIZE).
    rewrite elem_of_seqZ. unfold PGSIZE in *. zlia.
Qed.

Lemma kinit_ok k : calm (k_hart k) ->
  wp kinit (fun _ k' => kmem_ok (reverse (range_pages kernel_end RAMSTOP)) k') k.
Proof using Hend.
  intros Hc. unfold kinit. apply wp_bind. wp_run. apply wp_bind, wp_wr, wp_bind, wp_wr, wp_bind, wp_md, wp_bind, wp_bind, wp_md.
  eapply wp_mono; [apply (free_pages_ok _ [])|].
  - split; cbn; [done|done|done|constructor..|done].
  - apply range_pages_ok.
  - rewrite app_nil_r. apply range_pages_nodup.
  - intros [] k' (Hk & _). rewrite app_nil_r in Hk. apply wp_md. by apply says_ok.
Qed.

(** * Clients *)

(** A client that allocates and frees the pages it holds, in any order. *)
Inductive client_op := OAlloc | OFree (i : nat).

Definition client (op : client_op) : M (kst * list Z) unit :=
  match op with
  | OAlloc =>
      p ← zoom fst_l kalloc;
      when (truth p) (md snd_l (cons p))
  | OFree i =>
      held ← rd snd_l;
      match held !! i with
      | Some p => _ ← zoom fst_l (kfree p); snd_l <~ delete i held
      | None => mret tt
      end
  end.

(** The pages, split between the free list and the client. *)
Definition partition (all : list Z) (s : kst * list Z) : Prop :=
  exists pages, kmem_ok pages s.1 /\ Permutation (pages ++ s.2) all.

Lemma client_ok all op s :
  NoDup all -> Forall page_ok all -> partition all s ->
  wp (client op) (fun _ s' => partition all s') s.
Proof using Hend.
  intros Hnd Hall (pages & Hk & Hperm). destruct s as [k held]. simpl in *.
  destruct op as [|i]; simpl.
  - wp_run. eapply wp_mono; [by apply kalloc_ok|]. cbn.
    intros r k' (_ & _ & Hr). destruct pages as [|p pages].
    + destruct Hr as (-> & Hk' & _). cbn. wp_run. by exists [].
    + destruct Hr as (-> & Hp & _ & Hk' & _). rewrite page_pos by done. cbn. wp_run.
      exists pages. split; [done|]. rewrite <- Hperm. simpl. by rewrite Permutation_middle.
  - wp_run. cbn. destruct (held !! i) as [p|] eqn:Hi; [|wp_run; by exists pages].
    wp_run. rewrite <- Hperm in Hnd, Hall. apply NoDup_app in Hnd as (_ & Hdisj & _).
    apply Forall_app in Hall as [_ Hheld].
    pose proof (list_elem_of_lookup_2 _ _ _ Hi) as Hin.
    eapply wp_mono; [apply (kfree_ok pages p); [done| |]|].
    + by eapply Forall_forall in Hheld.
    + intros Hp. by apply (Hdisj p).
    + cbn. intros [] k' (Hk' & _). wp_run. exists (p :: pages). cbn. split; [done|].
      rewrite <- Hperm. simpl. rewrite Permutation_middle.
      by rewrite <- (delete_Permutation held i p Hi).
Qed.

Lemma clients_ok all ops s :
  NoDup all -> Forall page_ok all -> partition all s ->
  wp (for_each ops client) (fun _ s' => partition all s') s.
Proof using Hend.
  intros Hnd Hall. revert s. induction ops as [|op ops IH]; intros s Hs; simpl.
  - by apply wp_mret.
  - apply wp_bind. eapply wp_mono; [by apply client_ok|]. intros [] s' Hs'. by apply IH.
Qed.
End Kalloc.

(** * Properties *)

(** C12. From boot on, whatever the sequence of allocations and frees by a
    client that frees pages it holds: every whole page between the end of the
    kernel and the top of memory is on the free list or held by the client,
    never both and never twice; no call panics; and [freemem_amount] is the
    number of bytes on the free list. *)
Theorem page_allocator (kernel_end : Z) (ops : list client_op) (k : kst) :
  0 < kernel_end <= RAMSTOP -> calm (k_hart k) ->
  wp (zoom fst_l (kinit kernel_end) ;; for_each ops (client kernel_end))
    (fun _ s => exists pages,
       chain (k_mem s.1) (k_freelist s.1) pages
       /\ NoDup (pages ++ s.2)
       /\ (forall p, p ∈ pages ++ s.2 <-> page_ok kernel_end p)
       /\ exists k', freemem_amount s.1 = Ret (Z.of_nat (length pages) * PGSIZE) k')
    (k, []).
Proof.
  intros Hend Hc. apply wp_bind, wp_zoom. cbn.
  eapply wp_mono; [by apply kinit_ok|]. cbn. intros [] k1 Hk1.
  set (all := reverse (range_pages kernel_end RAMSTOP)) in *.
  assert (NoDup all) as Hnd by (unfold all; rewrite reverse_Permutation; apply range_pages_nodup).
  assert (Forall (page_ok kernel_end) all) as Hall
    by (unfold all; rewrite reverse_Permutation; by apply range_pages_ok).
  eapply wp_mono; [apply (clients_ok kernel_end Hend all); [done..|]|].
  { exists all. split; [done|]. by rewrite app_nil_r. }
  intros [] [k2 held] (pages & Hk2 & Hperm). cbn in *. exists pages.
  split; [apply Hk2|]. split; [by rewrite Hperm|]. split.
  - intros p. rewrite Hperm. unfold all. rewrite elem_of_reverse.
    by apply range_pages_elem.
  - pose proof (pages_bound kernel_end Hend pages (km_pages _ _ _ Hk2) (km_nodup _ _ _ Hk2)) as Hb.
    pose proof (kmem_count kernel_end Hend pages k2 Hk2) as Hcnt.
    destruct k2 as [h lk fl n m kpt o], Hk2 as [Hh Hl _ _ _ Hn]. cbn in *.
    rewrite freemem_eq by done. subst n.
    rewrite Z.shiftl_mul_pow2 by done. rewrite u64_small.
    + by eexists.
    + assert (RAMSTOP < 2 ^ 64) by done. change (2 ^ PGSHIFT) with 4096. lia.
Qed.

Definition boot_kst : kst := Kst hart1 (Spin 0 "" None) 7 9 ∅ 0 [].

Example page_allocator_witness :
  wp (zoom fst_l (kinit (RAMSTOP - 9000)) ;;
      for_each [OAlloc; OAlloc; OFree 1; OAlloc; OAlloc] (client (RAMSTOP - 9000)))
    (fun _ s => exists pages,
       chain (k_mem s.1) (k_freelist s.1) pages
       /\ NoDup (pages ++ s.2)
       /\ (forall p, p ∈ pages ++ s.2 <-> page_ok (RAMSTOP - 9000) p)
       /\ exists k', freemem_amount s.1 = Ret (Z.of_nat (length pages) * PGSIZE) k')
    (boot_kst, []).
Proof.
  apply page_allocator; [by split|]. split; [apply hart1_ok|simpl; lia].
Defined.
