(* ===== verification/Vm.v ===== *)
(** Page tables and copying across them (kernel/vm.c, and the paging macros of
    kernel/include/loongarch.h and memlayout.h).

    A page table is what it is in the machine: pages of 512 words in memory,
    four levels deep.  Every function runs on the allocator's state [kst]; a
    [pte_t *] is an address, 0 being the null pointer.  The direct-mapped
    window makes a physical address with [DMWIN_MASK] set usable as a
    pointer.  Dereferencing a null page is undefined ([nonnull]). *)

From S2P Require Import Prelude Mem Locks Kalloc.

(** * Layout of entries and addresses *)

Definition PTE_V : Z := Z.shiftl 1 0.
Definition PTE_D : Z := Z.shiftl 1 1.
Definition PTE_PLV3 : Z := Z.shiftl 3 2.
Definition PTE_MAT : Z := Z.shiftl 1 4.
Definition PTE_P : Z := Z.shiftl 1 7.
Definition PTE_W : Z := Z.shiftl 1 8.
Definition PTE_NX : Z := Z.shiftl 1 62.
Definition PTE_NR : Z := Z.shiftl 1 61.

Definition PAMASK : Z := Z.shiftl 0xFFFFFFFFF PGSHIFT.
Definition PTE2PA (pte : Z) : Z := Z.lor (Z.land pte PAMASK) DMWIN_MASK.
Definition PA2PTE (pa : Z) : Z := Z.land pa PAMASK.
Definition PTE_FLAGS (pte : Z) : Z := Z.land pte 0xE0000000000001FF.

Definition PXMASK : Z := 0x1FF.
Definition PXSHIFT (level : Z) : Z := PGSHIFT + 9 * level.
Definition PX (level va : Z) : Z := Z.land (Z.shiftr va (PXSHIFT level)) PXMASK.
Definition MAXVA : Z := Z.shiftl 1 (9 + 9 + 9 + 9 + 12 - 2).

Definition NPROC : Z := 50.
Definition TRAMPOLINE : Z := MAXVA - PGSIZE.
Definition TRAPFRAME : Z := TRAMPOLINE - PGSIZE.
Definition SIGTRAMPOLINE : Z := TRAPFRAME - PGSIZE.
Definition VKSTACK : Z := SIGTRAMPOLINE - PGSIZE.
Definition KSTACKSIZE : Z := 6 * PGSIZE.
Definition EXTRASIZE : Z := 2 * PGSIZE.
Definition PROCVKSTACK (paddrnum : Z) : Z :=
  VKSTACK - Z.rem (paddrnum + 1) (NPROC + 1) * (KSTACKSIZE + EXTRASIZE) + EXTRASIZE.

Definition valid (pte : Z) : bool := truth (Z.land pte PTE_V).

(** The addresses a loop [for (a = s; a < e; a += PGSIZE)] visits. *)
Definition steps (s e : Z) : list Z :=
  map (fun i => s + i * PGSIZE) (seqZ 0 ((e - s + PGSIZE - 1) / PGSIZE)).

Definition load (a : Z) : M kst Z := gets (fun k => rd64 (k_mem k) a).
Definition store (a v : Z) : M kst unit := md k_mem_l (fun m => wr64 m a v).
Definition nonnull (p : Z) : M kst unit :=
  if p =? 0 then undef "null pointer" else mret tt.

(** [&pagetable[i]] *)
Definition slot (pagetable i : Z) : Z := pagetable + 8 * i.

Section Vm.
Variable kernel_end : Z.
#[local] Abbreviation kfree := (kfree kernel_end).

(** * Walking *)

(** One turn of the loop in [walk]: the next page table, or 0. *)
Definition walk_level (va alloc pagetable level : Z) : M kst Z :=
  let pte := slot pagetable (PX level va) in
  e ← load pte;
  if valid e then mret (Z.lor (PTE2PA e) DMWIN_MASK)
  else if negb (truth alloc) then mret 0
  else
    q ← kalloc;
    if q =? 0 then mret 0
    else
      _ ← md k_mem_l (fun m => memset m q 0 PGSIZE);
      _ ← store pte (Z.lor (Z.lor (PA2PTE q) PTE_V) DMWIN_MASK);
      mret q.

(** The loop from level [l] down to 1, and the address of the final entry. *)
Fixpoint walk_from (l : nat) (pagetable va alloc : Z) : M kst Z :=
  match l with
  | O => mret (slot pagetable (PX 0 va))
  | S l' =>
      q ← walk_level va alloc pagetable (Z.of_nat l);
      if q =? 0 then mret 0 else walk_from l' q va alloc
  end.

Definition walk (pagetable va alloc : Z) : M kst Z :=
  if truth (Z.land va DMWIN_MASK) then mret va
  else if MAXVA <=? va then panic "walk"
  else walk_from 3 pagetable va alloc.

Definition walkaddr (pagetable va : Z) : M kst Z :=
  if truth (Z.land va DMWIN_MASK) then mret va
  else if MAXVA <=? va then _ ← kprintf "walkaddr: va >= MAXVA" []; mret 0
  else
    pte ← walk pagetable va 0;
    if pte =? 0 then mret 0
    else
      e ← load pte;
      if negb (valid e) then _ ← kprintf "va :%p walkaddr: *pte & PTE_V == 0" [va]; mret 0
      else if Z.land e PTE_PLV3 =? 0 then _ ← kprintf "walkaddr: *pte & PTE_U == 0" []; mret 0
      else mret (PTE2PA e).

Definition kwalkaddr (kpt va : Z) : M kst Z :=
  let off := va mod PGSIZE in
  pte ← walk kpt va 0;
  if pte =? 0 then panic "kvmpa"
  else
    e ← load pte;
    if negb (valid e) then panic "kvmpa" else mret (u64 (PTE2PA e + off)).
Definition kvmpa (va : Z) : M kst Z := kpt ← rd k_kpt_l; kwalkaddr kpt va.

(** * Mapping *)

(** [perm] is an [int]: widening it to the entry's 64 bits extends its sign. *)
Definition mappages (pagetable va size pa perm : Z) : M kst Z :=
  let perm := u64 (s32 perm) in
  if size =? 0 then panic "mappages: size == 0"
  else
    let a := PGROUNDDOWN va in
    let last := PGROUNDDOWN (u64 (va + size - 1)) in
    loop (Z.to_nat (u64 (last - a) / PGSIZE + 1)) (a, pa) (fun '(a, pa) =>
      pte ← walk pagetable a 1;
      if pte =? 0 then mret (inr (-1))
      else
        e ← load pte;
        if valid e then _ ← kprintf "mappages:%p %p" [a; PTE2PA e]; panic "remap"
        else
          _ ← store pte (Z.lor (Z.lor (Z.lor (Z.lor (PA2PTE pa) perm) PTE_V) PTE_MAT) PTE_D);
          if a =? last then mret (inr 0)
          else mret (inl (u64 (a + PGSIZE), u64 (pa + PGSIZE)))).

Definition kvmmap (va pa sz perm : Z) : M kst unit :=
  _ ← kprintf "kvmmap: va:%p, pa:%p, sz:%p, perm:%p" [va; pa; sz; perm];
  kpt ← rd k_kpt_l;
  r ← mappages kpt va sz pa perm;
  when (negb (r =? 0)) (panic "kvmmap").

Definition vmunmap (pagetable va npages do_free : Z) : M kst unit :=
  if negb (va mod PGSIZE =? 0) then panic "vmunmap: not aligned"
  else
    for_each (steps va (u64 (va + npages * PGSIZE))) (fun a =>
      pte ← walk pagetable a 0;
      if pte =? 0 then panic "vmunmap: walk"
      else
        e ← load pte;
        if negb (valid e) then panic "vmunmap: not mapped"
        else if PTE_FLAGS e =? PTE_V then panic "vmunmap: not a leaf"
        else
          _ ← when (truth do_free) (kfree (Z.lor (PTE2PA e) DMWIN_MASK));
          store pte 0).

Definition uvmcreate : M kst Z :=
  pagetable ← kalloc;
  if pagetable =? 0 then mret 0
  else _ ← md k_mem_l (fun m => memset m pagetable 0 PGSIZE); mret pagetable.

Definition user_rwx : Z :=
  Z.lor (Z.lor (Z.lor (Z.lor PTE_P PTE_PLV3) PTE_W) PTE_D) PTE_MAT.

(** [uvminit]: page [i] of the program, whose last argument to [memmove] is [n]. *)
Definition uvminit_page (pagetable src i n : Z) : M kst Z :=
  mem ← kalloc;
  _ ← nonnull mem;
  _ ← md k_mem_l (fun m => memset m mem 0 PGSIZE);
  _ ← mappages pagetable i PGSIZE mem user_rwx;
  _ ← md k_mem_l (fun m => memmove m mem (src + i) n);
  mret mem.
(** What it prints at the end: [sz] bytes from the start of the last page. *)
Definition uvminit_dump (mem sz : Z) : M kst unit :=
  _ ← kprintf "uvminit done sz:%d" [sz];
  for_each (seqZ 0 sz) (fun i =>
    m ← rd k_mem_l;
    kprintf "[uvminit]mem: %p, %x" [mem + i; s8 (rd8 m (mem + i))]).
Definition uvminit (pagetable src sz : Z) : M kst unit :=
  let whole := if sz =? 0 then 0 else (sz - 1) / PGSIZE in
  _ ← for_each (seqZ 0 whole) (fun j =>
    _ ← uvminit_page pagetable src (j * PGSIZE) PGSIZE; mret tt);
  mem ← uvminit_page pagetable src (whole * PGSIZE) (sz mod PGSIZE);
  uvminit_dump mem sz.

(** * Growing and shrinking *)

Definition uvmdealloc1 (pagetable start end_ : Z) : M kst Z :=
  if end_ <=? start then mret (u64 (-1))
  else
    _ ← when (PGROUNDUP start <=? PGROUNDUP end_)
          (let npages := s32 ((PGROUNDUP end_ - PGROUNDUP start) / PGSIZE) in
           vmunmap pagetable (PGROUNDUP start) (u64 npages) 1);
    mret 0.

Definition uvmalloc1 (pagetable start end_ perm : Z) : M kst Z :=
  if end_ <=? start then mret (u64 (-1))
  else
    r ← for_until (steps start end_) (fun a =>
          mem ← kalloc;
          if mem =? 0 then
            _ ← uvmdealloc1 pagetable start a;
            _ ← kprintf "uvmalloc kalloc failed" []; mret (Some (u64 (-1)))
          else
            _ ← md k_mem_l (fun m => memset m mem 0 PGSIZE);
            r ← mappages pagetable a PGSIZE mem perm;
            if negb (r =? 0) then
              _ ← kfree mem; _ ← uvmdealloc1 pagetable start a;
              _ ← kprintf "[uvmalloc]map user page failed" []; mret (Some (u64 (-1)))
            else mret None);
    mret (default 0 r).

Definition uvmdealloc (pagetable oldsz newsz : Z) : M kst Z :=
  if oldsz <=? newsz then mret oldsz
  else
    _ ← when (PGROUNDUP newsz <? PGROUNDUP oldsz)
          (let npages := s32 ((PGROUNDUP oldsz - PGROUNDUP newsz) / PGSIZE) in
           vmunmap pagetable (PGROUNDUP newsz) (u64 npages) 1);
    mret newsz.

Definition uvmalloc (pagetable oldsz newsz perm : Z) : M kst Z :=
  if newsz <? oldsz then mret oldsz
  else
    let oldsz := PGROUNDUP oldsz in
    r ← for_until (steps oldsz newsz) (fun a =>
          mem ← kalloc;
          if mem =? 0 then
            _ ← uvmdealloc pagetable a oldsz; mret (Some 0)
          else
            _ ← md k_mem_l (fun m => memset m mem 0 PGSIZE);
            r ← mappages pagetable a PGSIZE mem (Z.lor (s32 perm) PTE_PLV3);
            if negb (r =? 0) then
              _ ← kfree mem; _ ← uvmdealloc pagetable a oldsz; mret (Some 0)
            else mret None);
    mret (default newsz r).

(** * Freeing the tables *)

Fixpoint freewalk (fuel : nat) (pagetable : Z) : M kst unit :=
  match fuel with
  | O => nofuel
  | S fuel' =>
      _ ← for_each (seqZ 0 512) (fun i =>
            pte ← load (slot pagetable i);
            when (valid pte && (PTE_FLAGS pte =? PTE_V))
              (_ ← freewalk fuel' (Z.lor (PTE2PA pte) DMWIN_MASK);
               store (slot pagetable i) 0));
      kfree pagetable
  end.

Definition uvmfree (fuel : nat) (pagetable sz : Z) : M kst unit :=
  _ ← when (0 <? sz) (vmunmap pagetable 0 (PGROUNDUP sz / PGSIZE) 1);
  freewalk fuel pagetable.

Definition leaf_bits : Z := Z.lor (Z.lor PTE_MAT PTE_W) PTE_P.

Fixpoint kfreewalk (fuel : nat) (kpt : Z) : M kst unit :=
  match fuel with
  | O => nofuel
  | S fuel' =>
      _ ← for_until (seqZ 0 512) (fun i =>
            pte ← load (slot kpt i);
            if valid pte && (Z.land pte leaf_bits =? 0) then
              _ ← kfreewalk fuel' (PTE2PA pte);
              _ ← store (slot kpt i) 0;
              mret None
            else if valid pte then mret (Some tt) else mret None);
      kfree kpt
  end.

Definition kvmfreeusr (fuel : nat) (kpt : Z) : M kst unit :=
  for_each (seqZ 0 (PX 2 MAXVA)) (fun i =>
    pte ← load (slot kpt i);
    when (valid pte && (Z.land pte leaf_bits =? 0))
      (_ ← kfreewalk fuel (PTE2PA pte); store (slot kpt i) 0)).

(** [procaddrnum] is the process's index in the table ([get_proc_addr_num]). *)
Definition kvmfree (fuel : nat) (kpt stack_free procaddrnum : Z) : M kst unit :=
  _ ← when (truth stack_free)
        (let prockstack := PROCVKSTACK procaddrnum in
         _ ← vmunmap kpt prockstack (KSTACKSIZE / PGSIZE) 1;
         pte ← load (slot kpt (PX 2 (prockstack - PGSIZE)));
         when (valid pte && (Z.land pte leaf_bits =? 0)) (kfreewalk fuel (PTE2PA pte)));
  _ ← kvmfreeusr fuel kpt;
  kfree kpt.

Definition uvmcopy (old new sz : Z) : M kst Z :=
  r ← for_until (steps 0 sz) (fun i =>
        pte ← walk old i 0;
        if pte =? 0 then panic "uvmcopy: pte should exist"
        else
          e ← load pte;
          if negb (valid e) then panic "uvmcopy: page not present"
          else
            let pa := PTE2PA e in
            let flags := u32 (PTE_FLAGS e) in
            mem ← kalloc;
            if mem =? 0 then mret (Some i)
            else
              _ ← md k_mem_l (fun m => memmove m mem (Z.lor pa DMWIN_MASK) PGSIZE);
              r ← mappages new i PGSIZE mem flags;
              if negb (r =? 0) then _ ← kfree mem; mret (Some i)
              else mret None);
  match r with
  | None => mret 0
  | Some i => _ ← vmunmap new 0 (i / PGSIZE) 1; mret (-1)
  end.

Definition uvmclear (pagetable va : Z) : M kst unit :=
  pte ← walk pagetable va 0;
  if pte =? 0 then panic "uvmclear"
  else e ← load pte; store pte (Z.land e (Z.lnot PTE_PLV3)).

Definition experm (pagetable va perm : Z) : M kst Z :=
  if MAXVA <=? va then mret 0
  else
    pte ← walk pagetable va 0;
    if pte =? 0 then mret 0
    else
      e ← load pte;
      if negb (valid e) then mret 0
      else if Z.land e PTE_PLV3 =? 0 then mret 0
      else _ ← store pte (Z.lor e perm); mret (PTE2PA (Z.lor e perm)).

(** * Copying between user and kernel memory *)

(** The loop shared by the copies: [move p q n] moves [n] bytes between the
    user page's bytes at [p] and the kernel's at [q]. *)
Definition copy_pages (move : Z -> Z -> Z -> mem -> mem) (pagetable va k len : Z) : M kst Z :=
  loop (Z.to_nat (len / PGSIZE + 3)) (va, k, len) (fun '(va, k, len) =>
    if len =? 0 then mret (inr 0)
    else
      let va0 := PGROUNDDOWN va in
      pa0 ← walkaddr pagetable va0;
      if pa0 =? 0 then mret (inr (-1))
      else
        let n := PGSIZE - (va - va0) in
        let n := if len <? n then len else n in
        _ ← md k_mem_l (move (Z.lor (u64 (pa0 + (va - va0))) DMWIN_MASK) k n);
        mret (inl (u64 (va0 + PGSIZE), k + n, len - n))).

(** The source of the zeros is address 0. *)
Definition copyout_zero (pagetable dstva len : Z) : M kst Z :=
  copy_pages (fun p _ n m => memmove m p 0 n) pagetable dstva 0 len.

Definition copyout (pagetable dstva src len : Z) : M kst Z :=
  if MAXVA <? dstva then panic "copyout: dstva > MAXVA"
  else if src <? PROCVKSTACK (NPROC - 1) then panic "copyout: src < KSTACK"
  else copy_pages (fun p q n m => memmove m p q n) pagetable dstva src len.

Definition copyin (pagetable dst srcva len : Z) : M kst Z :=
  if (MAXVA <? srcva) && truth (Z.land srcva DMWIN_MASK)
  then panic "copyin: srcva > MAXVA & srcva is not in 0x9000(x)"
  else
    r ← copy_pages (fun p q n m => memmove m q p n) pagetable srcva dst len;
    _ ← when (negb (r =? 0)) (kprintf "copyin: pa0 is NULL" []);
    mret r.

(** The copies with the kernel's buffer given by value: [copyout] of the bytes
    [bs], and the bytes [copyin] of [len] bytes delivers. *)
Definition copyout_bytes (pagetable dstva : Z) (bs : list Z) : M kst Z :=
  if MAXVA <? dstva then panic "copyout: dstva > MAXVA"
  else copy_pages (fun p q n m => write_bytes m p (take (Z.to_nat n) (drop (Z.to_nat q) bs)))
         pagetable dstva 0 (Z.of_nat (length bs)).

(** One page of [copyin]. *)
Definition copyin_turn (pagetable : Z) : Z * list Z * Z -> M kst (Z * list Z * Z + Z * list Z) :=
  fun '(va, got, len) =>
    if len =? 0 then mret (inr (0, got))
    else
      let va0 := PGROUNDDOWN va in
      pa0 ← walkaddr pagetable va0;
      if pa0 =? 0 then _ ← kprintf "copyin: pa0 is NULL" []; mret (inr (-1, got))
      else
        let n := PGSIZE - (va - va0) in
        let n := if len <? n then len else n in
        m ← rd k_mem_l;
        mret (inl (u64 (va0 + PGSIZE),
                   got ++ read_bytes m (Z.lor (u64 (pa0 + (va - va0))) DMWIN_MASK) n,
                   len - n)).
Definition copyin_bytes (pagetable srcva len : Z) : M kst (Z * list Z) :=
  if (MAXVA <? srcva) && truth (Z.land srcva DMWIN_MASK)
  then panic "copyin: srcva > MAXVA & srcva is not in 0x9000(x)"
  else loop (Z.to_nat (len / PGSIZE + 3)) (srcva, [], len) (copyin_turn pagetable).

(** The inner loop of [copyinstr]: at most [n] bytes of one page.  Returns
    whether it met the NUL, and where [dst] got to. *)
Fixpoint copyinstr_page (n : nat) (p dst : Z) (m : mem) : bool * Z * mem :=
  match n with
  | O => (false, dst, m)
  | S n' =>
      if rd8 m p =? 0 then (true, dst, wr8 m dst 0)
      else copyinstr_page n' (p + 1) (dst + 1) (wr8 m dst (rd8 m p))
  end.

Definition copyinstr (pagetable dst srcva max : Z) : M kst Z :=
  loop (Z.to_nat (max / PGSIZE + 3)) (srcva, dst, max) (fun '(srcva, dst, max) =>
    if max =? 0 then mret (inr (-1))
    else
      let va0 := PGROUNDDOWN srcva in
      pa0 ← walkaddr pagetable va0;
      if pa0 =? 0 then mret (inr (-1))
      else
        let n := PGSIZE - (srcva - va0) in
        let n := if max <? n then max else n in
        let p := Z.lor (u64 (pa0 + (srcva - va0))) DMWIN_MASK in
        m ← rd k_mem_l;
        let '(got_null, dst', m') := copyinstr_page (Z.to_nat n) p dst m in
        _ ← k_mem_l <~ m';
        if got_null : bool then mret (inr 0)
        else mret (inl (u64 (va0 + PGSIZE), dst', max - n))).

(** * The kernel's own page table *)

Definition stack_perm : Z :=
  Z.lor (Z.lor (Z.lor (Z.lor (Z.lor PTE_NX PTE_P) PTE_W) PTE_MAT) PTE_D) PTE_PLV3.

(** [proc_mapstacks] of kernel/proc.c. *)
Definition proc_mapstacks (kpgtbl : Z) : M kst unit :=
  for_each (seqZ 0 NPROC) (fun p =>
    let va := PROCVKSTACK p in
    for_each (seqZ 0 (KSTACKSIZE / PGSIZE)) (fun i =>
      pa ← kalloc;
      if pa =? 0 then panic "kalloc"
      else
        _ ← md k_mem_l (fun m => memset m pa 0 PGSIZE);
        r ← mappages kpgtbl (va + i * PGSIZE) PGSIZE pa stack_perm;
        when (negb (r =? 0)) (panic "kvmmap"))).

(** What [kvminit] maps: the trampolines and the stacks; [trampoline] and
    [signalTrampoline] are the addresses of assembly code. *)
Definition kvm_perm : Z := Z.lor (Z.lor PTE_MAT PTE_D) PTE_P.
Definition kvm_maps (trampoline signalTrampoline : Z) : M kst unit :=
  kpt ← rd k_kpt_l;
  _ ← kvmmap TRAMPOLINE trampoline PGSIZE kvm_perm;
  _ ← kvmmap SIGTRAMPOLINE signalTrampoline PGSIZE kvm_perm;
  proc_mapstacks kpt.
End Vm.
