(* ===== verification/PageTable.v ===== *)
(** What a page table in memory means, and what [walk], [mappages] and the
    copies do to that meaning.

    [wlk] finds the entry of an address without allocating, [xlate] is the
    entry's value (0 if there is none), and [tables] lists the pages the tables
    occupy.  The theorems are about [xlate]: a mapping changes it at one
    address, and building the intermediate tables does not change it at all. *)

From S2P Require Import Prelude Mem Locks Kalloc Vm.

(** * Addresses and entries *)

Lemma PX_eq level va : 0 <= level -> PX level va = (va / 2 ^ PXSHIFT level) mod 512.
Proof.
  intros Hl. unfold PX. change PXMASK with (Z.ones 9). rewrite Z.land_ones by lia.
  rewrite Z.shiftr_div_pow2; [done|]. unfold PXSHIFT, PGSHIFT. lia.
Qed.
Lemma PX_range level va : 0 <= level -> 0 <= PX level va < 512.
Proof. intros Hl. rewrite PX_eq by done. apply Z.mod_pos_bound. lia. Qed.

(** The page of an address below 2^48 is determined by its four indices. *)
Lemma va_page va : 0 <= va < 2 ^ 48 ->
  va / PGSIZE = PX 3 va * 2 ^ 27 + PX 2 va * 2 ^ 18 + PX 1 va * 2 ^ 9 + PX 0 va.
Proof.
  intros Hva. rewrite !PX_eq by lia.
  change (2 ^ PXSHIFT 3) with 549755813888. change (2 ^ PXSHIFT 2) with 1073741824.
  change (2 ^ PXSHIFT 1) with 2097152. change (2 ^ PXSHIFT 0) with 4096.
  unfold PGSIZE. change (2 ^ 48) with 281474976710656 in Hva.
  change (2 ^ 27) with 134217728. change (2 ^ 18) with 262144. change (2 ^ 9) with 512. zlia.
Qed.

(** A page of the direct-mapped window. *)
Definition kpage (q : Z) : Prop := DMWIN_MASK <= q < DMWIN_MASK + 2 ^ 48 /\ q mod PGSIZE = 0.

Lemma PA2PTE_kpage q : kpage q -> PA2PTE q = q - DMWIN_MASK.
Proof.
  intros [Hq Hal]. unfold PA2PTE. change PAMASK with (Z.shiftl (Z.ones 36) 12).
  rewrite land_field by lia. unfold DMWIN_MASK, PGSIZE in *.
  change (2 ^ 48) with 281474976710656 in Hq.
  change (2 ^ 36) with 68719476736. change (2 ^ 12) with 4096. zlia.
Qed.

Lemma PTE2PA_flags q f : kpage q -> Z.land f PAMASK = 0 ->
  PTE2PA (Z.lor (PA2PTE q) f) = q.
Proof.
  intros Hq Hf. unfold PTE2PA. rewrite Z.land_lor_distr_l, Hf, Z.lor_0_r.
  assert (Z.land (PA2PTE q) PAMASK = PA2PTE q) as ->
    by (unfold PA2PTE; by rewrite <- Z.land_assoc, Z.land_diag).
  rewrite PA2PTE_kpage by done. destruct Hq as [Hq _].
  change DMWIN_MASK with (36864 * 2 ^ 48) at 2.
  rewrite lor_low_high by lia. change (36864 * 2 ^ 48) with DMWIN_MASK. lia.
Qed.

Lemma PTE2PA_dmwin e : Z.lor (PTE2PA e) DMWIN_MASK = PTE2PA e.
Proof. unfold PTE2PA. by rewrite <- Z.lor_assoc, Z.lor_diag. Qed.

(** The entry [walk] writes for a new table. *)
Definition table_pte (q : Z) : Z := Z.lor (Z.lor (PA2PTE q) PTE_V) DMWIN_MASK.

Lemma table_pte_pa q : kpage q -> PTE2PA (table_pte q) = q.
Proof.
  intros Hq. unfold table_pte. rewrite <- Z.lor_assoc. apply PTE2PA_flags; done.
Qed.
Lemma valid_lor a b : valid b = true -> valid (Z.lor a b) = true.
Proof.
  unfold valid, truth. intros Hb%negb_true_iff%Z.eqb_neq.
  apply negb_true_iff, Z.eqb_neq. rewrite Z.land_lor_distr_l.
  intros [_ ?]%Z.lor_eq_0_iff. done.
Qed.
Lemma table_pte_valid q : valid (table_pte q) = true.
Proof.
  unfold table_pte. rewrite <- Z.lor_assoc, (Z.lor_comm PTE_V), Z.lor_assoc.
  by apply valid_lor.
Qed.
Lemma PA2PTE_range q : 0 <= PA2PTE q < 2 ^ 48.
Proof.
  unfold PA2PTE. change PAMASK with (Z.shiftl (Z.ones 36) 12).
  rewrite land_field by lia. zlia.
Qed.
Lemma table_pte_u64 q : u64 (table_pte q) = table_pte q.
Proof.
  unfold table_pte. rewrite <- Z.lor_assoc. apply u64_small, (lor_range _ _ 64); [done| |done].
  pose proof (PA2PTE_range q). lia.
Qed.
Lemma PTE2PA_nz e : 0 < PTE2PA e.
Proof.
  unfold PTE2PA. assert (0 <= Z.lor (Z.land e PAMASK) DMWIN_MASK).
  { apply Z.lor_nonneg. split; [|done]. apply Z.land_nonneg. by right. }
  assert (Z.lor (Z.land e PAMASK) DMWIN_MASK <> 0); [|lia].
  by intros [_ ?]%Z.lor_eq_0_iff.
Qed.

Lemma PTE2PA_eqb e : (PTE2PA e =? 0) = false.
Proof. pose proof (PTE2PA_nz e). apply Z.eqb_neq. lia. Qed.

(** * Tables in memory *)

Fixpoint wlk (l : nat) (m : mem) (pt va : Z) : option Z :=
  match l with
  | O => Some (slot pt (PX 0 va))
  | S l' =>
      let e := rd64 m (slot pt (PX (Z.of_nat l) va)) in
      if valid e then wlk l' m (PTE2PA e) va else None
  end.

Definition xlate (l : nat) (m : mem) (pt va : Z) : Z :=
  match wlk l m pt va with Some a => rd64 m a | None => 0 end.

Fixpoint tables (l : nat) (m : mem) (pt : Z) : list Z :=
  pt :: match l with
        | O => []
        | S l' => flat_map (fun i =>
            let e := rd64 m (slot pt i) in
            if valid e then tables l' m (PTE2PA e) else []) (seqZ 0 512)
        end.

#[global] Arguments tables : simpl never.

Definition child (l : nat) (m : mem) (e : Z) : list Z :=
  if valid e then tables l m (PTE2PA e) else [].
Lemma tables_S l m pt :
  tables (S l) m pt = pt :: flat_map (fun i => child l m (rd64 m (slot pt i))) (seqZ 0 512).
Proof. done. Qed.
(** The tables below the entries other than [i]. *)
Definition rest (l : nat) (m : mem) (pt i : Z) : list Z :=
  flat_map (fun j => child l m (rd64 m (slot pt j))) (seqZ 0 i ++ seqZ (i + 1) (511 - i)).

(** The indices that select the entry of [va]. *)
Fixpoint path (l : nat) (va : Z) : list Z :=
  PX (Z.of_nat l) va :: match l with O => [] | S l' => path l' va end.

#[global] Arguments path : simpl never.

(** The bytes of a list of pages. *)
Definition on (ps : list Z) (b : Z) : Prop := exists p, p ∈ ps /\ p <= b < p + PGSIZE.
Definition agree (m m' : mem) (ps : list Z) : Prop := forall b, on ps b -> rd8 m' b = rd8 m b.

Lemma on_mono ps qs b : (forall p, p ∈ ps -> p ∈ qs) -> on ps b -> on qs b.
Proof. intros H (p & Hp & Hb). exists p. auto. Qed.
Lemma agree_mono m m' ps qs : (forall p, p ∈ ps -> p ∈ qs) -> agree m m' qs -> agree m m' ps.
Proof. intros H Ha b Hb. apply Ha. by eapply on_mono. Qed.

Lemma slot_on pt i b : 0 <= i < 512 -> slot pt i <= b < slot pt i + 8 -> pt <= b < pt + PGSIZE.
Proof. unfold slot, PGSIZE. lia. Qed.
Lemma agree_slot m m' ps pt i : agree m m' ps -> pt ∈ ps -> 0 <= i < 512 ->
  rd64 m' (slot pt i) = rd64 m (slot pt i).
Proof.
  intros Ha Hp Hi. apply rdn_ext. intros j Hj. apply Ha. exists pt. split; [done|].
  apply (slot_on _ i); lia.
Qed.

Lemma seqZ_split i : 0 <= i < 512 -> seqZ 0 512 = seqZ 0 i ++ i :: seqZ (i + 1) (511 - i).
Proof.
  intros Hi. replace 512 with (i + (1 + (511 - i))) by lia.
  rewrite seqZ_app by lia. f_equal. rewrite seqZ_app by lia. done.
Qed.

Lemma elem_of_flat_map {A B} (f : A -> list B) l y :
  y ∈ flat_map f l <-> exists x, x ∈ l /\ y ∈ f x.
Proof.
  rewrite !list_elem_of_In, in_flat_map. setoid_rewrite list_elem_of_In. done.
Qed.

Lemma tables_head l m pt : pt ∈ tables l m pt.
Proof. destruct l; left. Qed.
Lemma tables_split l m pt i : 0 <= i < 512 ->
  tables (S l) m pt ≡ₚ pt :: child l m (rd64 m (slot pt i)) ++ rest l m pt i.
Proof.
  intros Hi. rewrite !tables_S. rewrite (seqZ_split i) by done. unfold rest.
  rewrite !flat_map_app. cbn [flat_map]. unfold child.
  constructor. by rewrite Permutation_app_swap_app.
Qed.
Lemma tables_child l m pt i q : 0 <= i < 512 ->
  q ∈ child l m (rd64 m (slot pt i)) -> q ∈ tables (S l) m pt.
Proof. intros Hi Hq. rewrite (tables_split l m pt i) by done. right. apply elem_of_app. by left. Qed.
Lemma rest_child l m pt i j q : 0 <= j < 512 -> j <> i -> 0 <= i < 512 ->
  q ∈ child l m (rd64 m (slot pt j)) -> q ∈ rest l m pt i.
Proof.
  intros Hj Hne Hi Hq. apply elem_of_flat_map. exists j. split; [|done].
  rewrite elem_of_app, !elem_of_seqZ. lia.
Qed.

(** Tables depend on the bytes they occupy only. *)
Lemma tables_ext l m m' pt : agree m m' (tables l m pt) ->
  tables l m' pt = tables l m pt
  /\ (forall va, wlk l m' pt va = wlk l m pt va)
  /\ (forall va, xlate l m' pt va = xlate l m pt va).
Proof.
  revert pt. induction l as [|l IH]; intros pt Ha.
  - split; [done|]. split; [done|]. intros va. unfold xlate. cbn.
    apply (agree_slot _ _ _ _ _ Ha); [left|]. by apply PX_range.
  - assert (forall i, 0 <= i < 512 -> rd64 m' (slot pt i) = rd64 m (slot pt i)) as He.
    { intros i Hi. apply (agree_slot _ _ _ _ _ Ha); [apply tables_head|done]. }
    assert (forall i, 0 <= i < 512 -> valid (rd64 m (slot pt i)) = true ->
              agree m m' (tables l m (PTE2PA (rd64 m (slot pt i))))) as Hc.
    { intros i Hi Hv. eapply agree_mono; [|exact Ha]. intros q Hq.
      apply (tables_child l m pt i); [done|]. unfold child. by rewrite Hv. }
    split; [|split].
    + rewrite !tables_S. f_equal. apply flat_map_ext_in. intros i Hi%seqZ_In. rewrite He by lia.
      unfold child. destruct (valid _) eqn:Hv; [|done]. apply IH, Hc; [lia|done].
    + intros va. cbn [wlk]. rewrite He by (apply PX_range; lia).
      destruct (valid _) eqn:Hv; [|done]. apply IH, Hc; [apply PX_range; lia|done].
    + intros va. unfold xlate. cbn [wlk]. rewrite He by (apply PX_range; lia).
      destruct (valid _) eqn:Hv; [|done]. apply IH, Hc; [apply PX_range; lia|done].
Qed.

Lemma rest_ext l m m' pt i : 0 <= i < 512 ->
  (forall j, 0 <= j < 512 -> j <> i -> rd64 m' (slot pt j) = rd64 m (slot pt j)) ->
  agree m m' (rest l m pt i) ->
  rest l m' pt i = rest l m pt i
  /\ forall va, PX (Z.of_nat (S l)) va <> i ->
       wlk (S l) m' pt va = wlk (S l) m pt va /\ xlate (S l) m' pt va = xlate (S l) m pt va.
Proof.
  intros Hi He Ha.
  assert (forall j, 0 <= j < 512 -> j <> i -> valid (rd64 m (slot pt j)) = true ->
            agree m m' (tables l m (PTE2PA (rd64 m (slot pt j))))) as Hc.
  { intros j Hj Hne Hv. eapply agree_mono; [|exact Ha]. intros q Hq.
    apply (rest_child l m pt i j); [done..|]. unfold child. by rewrite Hv. }
  split.
  - unfold rest. apply flat_map_ext_in. intros j Hj%list_elem_of_In.
    rewrite elem_of_app, !elem_of_seqZ in Hj. rewrite He by lia. unfold child.
    destruct (valid _) eqn:Hv; [|done]. apply tables_ext, Hc; [lia|lia|done].
  - intros va Hne. unfold xlate. cbn [wlk].
    assert (0 <= PX (Z.of_nat (S l)) va < 512) by (apply PX_range; lia).
    rewrite He by done. destruct (valid _) eqn:Hv; [|done].
    split; apply tables_ext, Hc; done.
Qed.

(** * Writing an entry *)

Lemma path_0 va : path 0 va = [PX 0 va].
Proof. done. Qed.
Lemma path_S l va : path (S l) va = PX (Z.of_nat (S l)) va :: path l va.
Proof. done. Qed.

Section Tables.
Variable kernel_end : Z.
Context (Hend : DMWIN_MASK <= kernel_end <= RAMSTOP).
Abbreviation page_ok := (page_ok kernel_end).

Lemma page_ok_kpage p : page_ok p -> kpage p.
Proof using Hend. intros [Hal Hr]. split; [|done]. assert (RAMSTOP <= DMWIN_MASK + 2 ^ 48) by done. lia. Qed.
Lemma end_pos : 0 < kernel_end <= RAMSTOP.
Proof using Hend. assert (0 < DMWIN_MASK) by done. lia. Qed.

(** Well-formed tables: distinct pages of the allocator's range. *)
Record wf_tables (l : nat) (m : mem) (pt : Z) : Prop := {
  wt_pages : Forall page_ok (tables l m pt);
  wt_nodup : NoDup (tables l m pt)
}.

Lemma off_page p q b : page_ok p -> page_ok q -> p <> q ->
  p <= b < p + PGSIZE -> ~ (q <= b < q + PGSIZE).
Proof using Type. intros Hp Hq Hne Hb. destruct (page_apart kernel_end p q); [done..|lia|lia]. Qed.

Lemma on_disjoint ps qs b : Forall page_ok (ps ++ qs) -> NoDup (ps ++ qs) ->
  on ps b -> ~ on qs b.
Proof using Type.
  intros Hpg Hnd (p & Hp & Hb) (q & Hq & Hb'). rewrite Forall_forall in Hpg.
  assert (p <> q) as Hne.
  { intros ->. apply NoDup_app in Hnd as (_ & Hdisj & _). by apply (Hdisj q). }
  eapply off_page; [| |exact Hne|..]; [apply Hpg, elem_of_app; by left| |done|done].
  apply Hpg, elem_of_app. by right.
Qed.

Lemma slot_ne pt i j : 0 <= i < 512 -> 0 <= j < 512 -> i <> j ->
  slot pt i + 8 <= slot pt j \/ slot pt j + 8 <= slot pt i.
Proof using Type. unfold slot. lia. Qed.

(** Storing into an entry of [pt] keeps the other entries and every other page. *)
Lemma store_slot m pt i e : 0 <= i < 512 -> page_ok pt ->
  rd64 (wr64 m (slot pt i) e) (slot pt i) = u64 e
  /\ (forall j, 0 <= j < 512 -> j <> i ->
        rd64 (wr64 m (slot pt i) e) (slot pt j) = rd64 m (slot pt j))
  /\ (forall ps, Forall page_ok ps -> pt ∉ ps -> agree m (wr64 m (slot pt i) e) ps).
Proof using Type.
  intros Hi Hp. split; [apply rd64_wr64_eq|split].
  - intros j Hj Hne. apply rd64_wr64_ne. unfold slot. lia.
  - intros ps Hps Hnin b (q & Hq & Hb). apply rd8_wrn_out. intros Hb'.
    rewrite Forall_forall in Hps. apply (off_page q pt b); [by apply Hps|done| |done|].
    + congruence.
    + apply (slot_on _ i); [done|lia].
Qed.

Lemma set_leaf l m pt va a e :
  wf_tables l m pt -> wlk l m pt va = Some a ->
  tables l (wr64 m a e) pt = tables l m pt
  /\ (forall va', wlk l (wr64 m a e) pt va' = wlk l m pt va')
  /\ (forall va', xlate l (wr64 m a e) pt va'
        = if decide (path l va' = path l va) then u64 e else xlate l m pt va')
  /\ (forall b, a <= b < a + 8 -> on (tables l m pt) b).
Proof using Type.
  revert pt. induction l as [|l IH]; intros pt [Hpg Hnd] Ha.
  - cbn in Ha. injection Ha as <-.
    assert (forall v, 0 <= PX 0 v < 512) as HPX by (intros v; by apply PX_range).
    apply Forall_cons in Hpg as [Hpt _].
    destruct (store_slot m pt (PX 0 va) e (HPX va) Hpt) as (Heq & Hne & _).
    split; [done|]. split; [done|]. split.
    + intros va'. unfold xlate. cbn [wlk]. rewrite !path_0. change (Z.of_nat 0) with 0.
      destruct (decide ([PX 0 va'] = [PX 0 va])) as [Hd|Hd].
      * injection Hd as ->. done.
      * apply Hne; [done|congruence].
    + intros b Hb. exists pt. split; [left|]. by apply (slot_on _ (PX 0 va)).
  - cbn [wlk] in Ha. set (i := PX (Z.of_nat (S l)) va) in *.
    assert (0 <= i < 512) as Hi by (apply PX_range; lia).
    set (w := rd64 m (slot pt i)) in *. destruct (valid w) eqn:Hv; [|done].
    pose proof Hpg as Hpg'. pose proof Hnd as Hnd'.
    rewrite (tables_split l m pt i Hi) in Hpg, Hnd. fold w in Hpg, Hnd.
    unfold child in Hpg, Hnd. rewrite Hv in Hpg, Hnd.
    apply Forall_cons in Hpg as [Hpt Hpg]. apply NoDup_cons in Hnd as [Hnin Hnd].
    rewrite elem_of_app in Hnin.
    destruct (IH (PTE2PA w)) as (IHt & IHw & IHx & IHon); [|done|].
    { split; [by apply Forall_app in Hpg as [? _]|by apply NoDup_app in Hnd as [? _]]. }
    set (m' := wr64 m a e) in *.
    assert (agree m m' (pt :: rest l m pt i)) as Hag.
    { intros b Hb. apply rd8_wrn_out. intros Hb'. revert Hb.
      apply (on_disjoint (tables l m (PTE2PA w))); [| |by apply IHon].
      - rewrite <- Permutation_middle. by constructor.
      - rewrite <- Permutation_middle. constructor; [by rewrite elem_of_app|done]. }
    assert (forall j, 0 <= j < 512 -> rd64 m' (slot pt j) = rd64 m (slot pt j)) as He
      by (intros j Hj; apply (agree_slot _ _ _ _ _ Hag); [left|done]).
    destruct (rest_ext l m m' pt i Hi) as [Hrest Hoth]; [by intros; apply He| |].
    { eapply agree_mono; [|exact Hag]. intros q Hq. by right. }
    assert (forall j, 0 <= j < 512 -> j <> i ->
      child l m' (rd64 m (slot pt j)) = child l m (rd64 m (slot pt j))) as Hch.
    { intros j Hj Hne. unfold child. destruct (valid (rd64 m (slot pt j))) eqn:Hvj; [|done].
      apply tables_ext. eapply agree_mono; [|exact Hag]. intros q Hq. right.
      apply (rest_child l m pt i j); [done..|]. unfold child. by rewrite Hvj. }
    split; [|split; [|split]].
    + rewrite !tables_S. f_equal. apply flat_map_ext_in. intros j Hj%seqZ_In.
      rewrite He by lia. destruct (decide (j = i)) as [->|Hne].
      * fold w. unfold child. by rewrite Hv.
      * apply (Hch j); [lia|done].
    + intros va'. destruct (decide (PX (Z.of_nat (S l)) va' = i)) as [Hp|Hp].
      * cbn [wlk]. rewrite Hp, He by done. fold w. rewrite Hv. apply IHw.
      * by apply Hoth.
    + intros va'. rewrite !path_S. fold i.
      destruct (decide (PX (Z.of_nat (S l)) va' = i)) as [Hp|Hp].
      * unfold xlate. cbn [wlk]. rewrite Hp, He by done. fold w. rewrite Hv.
        change (xlate l m' (PTE2PA w) va' = if decide (i :: path l va' = i :: path l va)
          then u64 e else xlate l m (PTE2PA w) va').
        rewrite IHx. destruct (decide (path l va' = path l va)) as [Hq|Hq].
        -- rewrite decide_True by congruence. done.
        -- rewrite decide_False by congruence. done.
      * rewrite decide_False by congruence. by apply Hoth.
    + intros b Hb. eapply on_mono; [|apply IHon, Hb]. intros q Hq.
      apply (tables_child l m pt i q Hi). unfold child. fold w. by rewrite Hv.
Qed.

(** * Walking *)

(** Without [alloc], [walk] only looks. *)
Lemma walk_from_look l pt va k :
  walk_from l pt va 0 k = Ret (default 0 (wlk l (k_mem k) pt va)) k.
Proof using Type.
  revert pt. induction l as [|l IH]; intros pt; [done|].
  cbn [walk_from wlk]. unfold walk_level, load. mrun.
  destruct (valid _) eqn:Hv; cbn.
  - rewrite PTE2PA_dmwin, PTE2PA_eqb. apply IH.
  - done.
Qed.

Lemma kmem_ok_mem pages k m' : kmem_ok kernel_end pages k -> agree (k_mem k) m' pages ->
  kmem_ok kernel_end pages (update k_mem_l m' k).
Proof using Type.
  intros [] Ha. split; try done. cbn. eapply chain_ext; [|done]. intros q Hq.
  apply rdn_ext. intros i Hi. apply Ha. exists q. unfold PGSIZE. split; [done|lia].
Qed.

(** A page of zeros is an empty table. *)
Lemma fresh_table l m q : (forall i, 0 <= i < 512 -> rd64 m (slot q i) = 0) ->
  tables l m q = [q] /\ forall va, xlate l m q va = 0.
Proof using Type.
  intros Hz. destruct l as [|l]; split.
  - done.
  - intros va. unfold xlate. cbn [wlk]. apply Hz. by apply PX_range.
  - rewrite !tables_S. f_equal. rewrite (flat_map_ext_in _ (fun _ => [])).
    + generalize (seqZ 0 512). by induction l0.
    + intros i Hi%seqZ_In. by rewrite Hz by lia.
  - intros va. unfold xlate. cbn [wlk]. by rewrite Hz by (apply PX_range; lia).
Qed.

(** The memory after a new table [q] has been hung below entry [i] of [pt]. *)
Definition hang (m : mem) (pt i q : Z) : mem :=
  wr64 (memset (memset m q 5 PGSIZE) q 0 PGSIZE) (slot pt i) (table_pte q).

Lemma hang_agree m pt i q ps : Forall page_ok (pt :: q :: ps) -> 0 <= i < 512 ->
  pt ∉ ps -> q ∉ ps -> agree m (hang m pt i q) ps.
Proof using Type.
  intros [Hpt [Hq Hps]%Forall_cons]%Forall_cons Hi Hnp Hnq b Hb. unfold hang.
  destruct (store_slot (memset (memset m q 5 PGSIZE) q 0 PGSIZE) pt i (table_pte q) Hi Hpt)
    as (_ & _ & Hag). rewrite (Hag ps Hps Hnp b Hb).
  destruct Hb as (p & Hp & Hb). rewrite Forall_forall in Hps.
  assert (~ (q <= b < q + PGSIZE)).
  { apply (off_page p); [by apply Hps|done| |done]. congruence. }
  rewrite !rd8_memset_page. by rewrite !decide_False.
Qed.

Lemma hang_agree_junk m pt i q ps : Forall page_ok (pt :: q :: ps) -> 0 <= i < 512 ->
  pt ∉ ps -> q ∉ ps -> agree (memset m q 5 PGSIZE) (hang m pt i q) ps.
Proof using Type.
  intros Hpg Hi Hnp Hnq b Hb. rewrite (hang_agree m pt i q ps) by assumption.
  apply Forall_cons in Hpg as [_ [Hq Hps]%Forall_cons]. rewrite rd8_memset_page.
  rewrite decide_False; [reflexivity|]. destruct Hb as (p & Hp & Hb).
  rewrite Forall_forall in Hps. apply (off_page p q); auto; congruence.
Qed.

Lemma hang_entries m pt i q : page_ok pt -> page_ok q -> pt <> q -> 0 <= i < 512 ->
  rd64 (hang m pt i q) (slot pt i) = table_pte q
  /\ (forall j, 0 <= j < 512 -> j <> i ->
       rd64 (hang m pt i q) (slot pt j) = rd64 m (slot pt j))
  /\ (forall j, 0 <= j < 512 -> rd64 (hang m pt i q) (slot q j) = 0).
Proof using Type.
  intros Hpt Hq Hne Hi. set (m1 := memset (memset m q 5 PGSIZE) q 0 PGSIZE).
  destruct (store_slot m1 pt i (table_pte q) Hi Hpt) as (Heq & Hoth & Hag).
  unfold hang. fold m1. split; [|split].
  - rewrite Heq. apply table_pte_u64.
  - intros j Hj Hji. rewrite Hoth by done. unfold m1, rd64.
    assert (q + PGSIZE <= pt \/ pt + PGSIZE <= q) by (by apply (page_apart kernel_end)).
    rewrite !rdn_memset_out; [done|unfold slot, PGSIZE in *; lia..].
  - intros j Hj. rewrite (agree_slot m1 _ [q] q j);
      [|apply Hag; [by constructor|by rewrite list_elem_of_singleton]|left|done].
    unfold m1, rd64. apply rdn_memset_zero; unfold slot, PGSIZE; lia.
Qed.

Lemma hang_tables l m pt i q :
  wf_tables (S l) m pt -> page_ok q -> q ∉ tables (S l) m pt -> 0 <= i < 512 ->
  valid (rd64 m (slot pt i)) = false ->
  tables (S l) (hang m pt i q) pt ≡ₚ q :: tables (S l) m pt
  /\ forall va, xlate (S l) (hang m pt i q) pt va = xlate (S l) m pt va.
Proof using Hend.
  intros [Hpg Hnd] Hq Hnq Hi Hv.
  rewrite (tables_split l m pt i Hi) in Hpg, Hnd, Hnq. unfold child in Hpg, Hnd, Hnq.
  rewrite Hv in Hpg, Hnd, Hnq. simpl in Hpg, Hnd, Hnq.
  pose proof Hpg as [Hpt Hrpg]%Forall_cons. apply NoDup_cons in Hnd as [Hnin Hnd].
  apply not_elem_of_cons in Hnq as [Hqpt Hqr].
  destruct (hang_entries m pt i q Hpt Hq) as (He & Hoth & Hz); [congruence|done|].
  assert (agree m (hang m pt i q) (rest l m pt i)) as Hag
    by (apply hang_agree; [by do 2 (constructor; [done|])|done..]).
  destruct (rest_ext l m (hang m pt i q) pt i Hi Hoth Hag) as [Hrest Hx].
  destruct (fresh_table l (hang m pt i q) q Hz) as [Hft Hfx].
  pose proof (table_pte_pa q (page_ok_kpage q Hq)) as Hpa.
  split.
  - rewrite (tables_split l (hang m pt i q) pt i Hi), (tables_split l m pt i Hi), He, Hrest. unfold child.
    rewrite table_pte_valid, Hv, Hpa, Hft. simpl. apply Permutation_swap.
  - intros va. destruct (decide (PX (Z.of_nat (S l)) va = i)) as [Hp|Hp].
    + unfold xlate. cbn [wlk]. rewrite Hp, He, Hv, table_pte_valid, Hpa. apply Hfx.
    + by apply Hx.
Qed.

(** What allocating leaves alone besides memory and the free list. *)
Definition same_cpu (k k' : kst) : Prop :=
  k_kpt k' = k_kpt k /\ (settled (k_hart k) -> k_hart k' = k_hart k).
Lemma same_cpu_refl k : same_cpu k k.
Proof using Type. done. Qed.
Lemma same_cpu_trans k1 k2 k3 : same_cpu k1 k2 -> same_cpu k2 k3 -> same_cpu k1 k3.
Proof using Type.
  intros [E1 H1] [E2 H2]. split; [congruence|]. intros H. rewrite <- (H1 H) in H |- *. auto.
Qed.

(** What [walk] with [alloc] does: it may move free pages into the tables, at
    most [n] of them, and changes nothing of what the tables mean. *)
Record walked (n l : nat) (pt va : Z) (pages : list Z) (k : kst) (r : Z) (k' : kst) : Prop := {
  wk_pages : exists pages', kmem_ok kernel_end pages' k'
    /\ tables l (k_mem k') pt ++ pages' ≡ₚ tables l (k_mem k) pt ++ pages
    /\ (r = 0 -> pages' = []) /\ (length pages <= length pages' + n)%nat;
  wk_xlate : forall va', xlate l (k_mem k') pt va' = xlate l (k_mem k) pt va';
  wk_frame : forall b, ~ on (tables l (k_mem k) pt ++ pages) b ->
               rd8 (k_mem k') b = rd8 (k_mem k) b;
  wk_entry : r <> 0 -> wlk l (k_mem k') pt va = Some r;
  wk_kpt : same_cpu k k'
}.

Lemma page_ok_nz p : page_ok p -> p <> 0.
Proof using Hend. intros [_ ?]. pose proof end_pos. lia. Qed.

Lemma walked_more n n' l pt va pages k r k' : (n <= n')%nat ->
  walked n l pt va pages k r k' -> walked n' l pt va pages k r k'.
Proof using Type.
  intros Hn [(pages' & Hk & Hp & Hr & Hc) ? ? ? ?]. split; try assumption.
  exists pages'. repeat (split; [done|]). lia.
Qed.

(** Below a valid entry: the walk of the child is a walk of the whole. *)
Lemma walked_child n l pt va pages k r k' :
  let i := PX (Z.of_nat (S l)) va in
  let e := rd64 (k_mem k) (slot pt i) in
  Forall page_ok (tables (S l) (k_mem k) pt ++ pages) ->
  NoDup (tables (S l) (k_mem k) pt ++ pages) ->
  valid e = true ->
  walked n l (PTE2PA e) va pages k r k' -> walked n (S l) pt va pages k r k'.
Proof using Type.
  intros i e Hpg Hnd Hv [(pages' & Hk' & Hperm & Hr0 & Hcost) Hx Hfr Hent Hkpt].
  assert (0 <= i < 512) as Hi by (apply PX_range; lia).
  assert (tables (S l) (k_mem k) pt ++ pages
    ≡ₚ (pt :: rest l (k_mem k) pt i) ++ (tables l (k_mem k) (PTE2PA e) ++ pages)) as Hsplit.
  { rewrite (tables_split l _ pt i Hi). fold e. unfold child. rewrite Hv. simpl. constructor.
    rewrite (app_assoc (rest _ _ _ _)). by rewrite (Permutation_app_comm (rest _ _ _ _)). }
  rewrite Hsplit in Hpg, Hnd.
  assert (agree (k_mem k) (k_mem k') (pt :: rest l (k_mem k) pt i)) as Hag.
  { intros b Hb. apply Hfr. by eapply on_disjoint. }
  assert (forall j, 0 <= j < 512 -> rd64 (k_mem k') (slot pt j) = rd64 (k_mem k) (slot pt j))
    as He by (intros j Hj; apply (agree_slot _ _ _ _ _ Hag); [left|done]).
  destruct (rest_ext l (k_mem k) (k_mem k') pt i Hi) as [Hrest Hoth]; [by intros; apply He| |].
  { eapply agree_mono; [|exact Hag]. intros q Hq. by right. }
  split; [|..|exact Hkpt].
  - exists pages'. split; [done|]. split; [|by split]. rewrite Hsplit, <- Hperm.
    rewrite (tables_split l _ pt i Hi), He, Hrest by done. fold e. unfold child. rewrite Hv.
    simpl. constructor. rewrite (app_assoc (rest _ _ _ _)).
    by rewrite (Permutation_app_comm (rest _ _ _ _)).
  - intros va'. destruct (decide (PX (Z.of_nat (S l)) va' = i)) as [Hp|Hp]; [|by apply Hoth].
    unfold xlate. cbn [wlk]. rewrite Hp, He by done. fold e. rewrite Hv. apply Hx.
  - intros b Hb. apply Hfr. intros Hb'. apply Hb. eapply on_mono; [|exact Hb'].
    intros q Hq. rewrite Hsplit. apply elem_of_app. by right.
  - intros Hr. cbn [wlk]. fold i. rewrite He by done. fold e. rewrite Hv. by apply Hent.
Qed.

(** Hanging a new table first, then walking, is walking from before. *)
Lemma walked_hang n l pt va i q pages k k2 r k' :
  wf_tables (S l) (k_mem k) pt -> NoDup (tables (S l) (k_mem k) pt ++ q :: pages) ->
  Forall page_ok (q :: pages) -> 0 <= i < 512 -> valid (rd64 (k_mem k) (slot pt i)) = false ->
  k_mem k2 = hang (k_mem k) pt i q -> same_cpu k k2 ->
  walked n (S l) pt va pages k2 r k' -> walked (S n) (S l) pt va (q :: pages) k r k'.
Proof using Hend.
  intros Hwf Hnd [Hq Hpg]%Forall_cons Hi Hv Hm Hkpt2 [(pages' & Hk' & Hperm & Hr0 & Hcost) Hx Hfr Hent Hkpt].
  assert (q ∉ tables (S l) (k_mem k) pt) as Hnq
    by (intros Hin; apply NoDup_app in Hnd as (_ & Hd & _); apply (Hd q Hin); left).
  assert (pt <> q) as Hne by (intros ->; apply Hnq, tables_head).
  destruct (hang_tables l (k_mem k) pt i q Hwf Hq Hnq Hi Hv) as [Ht Htx].
  rewrite <- Hm in Ht, Htx. split; [|..|by eapply same_cpu_trans].
  - exists pages'. split; [done|]. split; [|split; [done|simpl; lia]]. rewrite Hperm, Ht.
    apply Permutation_middle.
  - intros va'. by rewrite Hx, Htx.
  - intros b Hb. rewrite Hfr.
    + rewrite Hm. destruct Hwf as [Hwp _].
      assert (page_ok pt) as Hpt by (rewrite Forall_forall in Hwp; apply Hwp, tables_head).
      unfold hang. unfold wr64. rewrite rd8_wrn_out.
      * rewrite !rd8_memset_page. rewrite !decide_False; [done|..];
          intros Hbq; apply Hb; exists q; (split; [|done]); apply elem_of_app; right; left.
      * intros Hbs. apply Hb. exists pt. split; [apply elem_of_app; left; apply tables_head|].
        by apply (slot_on _ i).
    + intros Hb'. apply Hb. eapply on_mono; [|exact Hb']. intros p.
      rewrite Ht, !elem_of_app, !elem_of_cons. intros [[->|?]|?]; auto.
  - done.
Qed.

Lemma walk_from_alloc l pt va pages k :
  kmem_ok kernel_end pages k ->
  Forall page_ok (tables l (k_mem k) pt) -> NoDup (tables l (k_mem k) pt ++ pages) ->
  wp (walk_from l pt va 1) (fun r k' => walked l l pt va pages k r k') k.
Proof using Hend.
  revert pt pages k. induction l as [|l IH]; intros pt pages k Hk Hpg Hnd.
  - apply wp_mret. split; [|done..]. exists pages. split; [done|]. split; [done|]. split; [|lia].
    unfold slot. inversion Hpg as [|? ? Hpt]. pose proof (page_ok_nz pt Hpt).
    pose proof (PX_range 0 va). destruct Hpt as [_ ?]. pose proof end_pos. lia.
  - assert (forall k pages, kmem_ok kernel_end pages k ->
      Forall page_ok (tables (S l) (k_mem k) pt) -> NoDup (tables (S l) (k_mem k) pt ++ pages) ->
      valid (rd64 (k_mem k) (slot pt (PX (Z.of_nat (S l)) va))) = true ->
      wp (walk_from l (PTE2PA (rd64 (k_mem k) (slot pt (PX (Z.of_nat (S l)) va)))) va 1)
        (fun r k' => walked l (S l) pt va pages k r k') k) as Hdown.
    { clear k pages Hk Hpg Hnd. intros k pages Hk Hpg Hnd Hv.
      set (e := rd64 (k_mem k) (slot pt (PX (Z.of_nat (S l)) va))) in *.
      assert (forall p, p ∈ tables l (k_mem k) (PTE2PA e) -> p ∈ tables (S l) (k_mem k) pt) as Hsub.
      { intros p Hp. apply (tables_child l _ pt (PX (Z.of_nat (S l)) va)); [apply PX_range; lia|].
        unfold child. fold e. by rewrite Hv. }
      eapply wp_mono; [apply (IH _ pages)|]; [done| | |].
      - rewrite Forall_forall in Hpg |- *. auto.
      - rewrite (tables_split l _ pt (PX (Z.of_nat (S l)) va)) in Hnd by (apply PX_range; lia).
        fold e in Hnd. unfold child in Hnd. rewrite Hv in Hnd.
        rewrite <- app_comm_cons, <- app_assoc in Hnd. apply NoDup_cons in Hnd as [_ Hnd].
        rewrite (Permutation_app_comm (rest _ _ _ _)), app_assoc in Hnd.
        by apply NoDup_app in Hnd as [? _].
      - intros r k' Hw. apply walked_child; try done. apply Forall_app. split; [done|apply Hk]. }
    cbn [walk_from]. unfold walk_level, load. wp_run.
    set (i := PX (Z.of_nat (S l)) va) in *.
    assert (0 <= i < 512) as Hi by (apply PX_range; lia).
    destruct (valid (rd64 (k_mem k) (slot pt i))) eqn:Hv; wp_run.
    + rewrite PTE2PA_dmwin, PTE2PA_eqb. eapply wp_mono; [by apply Hdown|].
      intros r k'. apply walked_more. lia.
    + cbn [negb truth Z.eqb]. wp_run.
      eapply wp_mono; [apply (kalloc_ok kernel_end end_pos pages k Hk)|].
      intros q k1 (Hkpt & Hcrit & Hq).
      assert (same_cpu k k1) as Hk1s by (split; [done|]; intros [_ Hset]; by rewrite Hcrit).
      destruct pages as [|p pages].
      * destruct Hq as (-> & Hk1 & Hm1). cbn [Z.eqb]. wp_run. cbn [Z.eqb]. wp_run.
        split; rewrite ?Hm1; try done. exists []. do 3 (split; [done|]). simpl. lia.
      * destruct Hq as (-> & Hp & Hnp & Hk1 & Hm1).
        rewrite (proj2 (Z.eqb_neq p 0)) by (by apply page_ok_nz). wp_run.
        unfold store. wp_run. rewrite (proj2 (Z.eqb_neq p 0)) by (by apply page_ok_nz).
        set (k2 := update k_mem_l (hang (k_mem k) pt i p) k1).
        assert (pt <> p) as Hne.
        { intros ->. apply NoDup_app in Hnd as (_ & Hd & _). apply (Hd p (tables_head _ _ _)). left. }
        replace (update k_mem_l (wr64 _ _ _) _) with k2
          by (unfold k2, hang, table_pte; destruct k1; cbn in *; by rewrite Hm1).
        assert (k_mem k2 = hang (k_mem k) pt i p) as Hm2 by reflexivity.
        assert (page_ok pt) as Hpt by (rewrite Forall_forall in Hpg; apply Hpg, tables_head).
        assert (wf_tables (S l) (k_mem k) pt) as Hwf
          by (split; [done|by apply NoDup_app in Hnd as [? _]]).
        destruct (hang_entries (k_mem k) pt i p Hpt Hp Hne Hi) as (He2 & _ & _).
        assert (p ∉ tables (S l) (k_mem k) pt) as Hnt
          by (intros Hin; apply NoDup_app in Hnd as (_ & Hd & _); apply (Hd p Hin); left).
        destruct (hang_tables l (k_mem k) pt i p Hwf Hp Hnt Hi Hv) as [Ht2 _].
        pose proof (km_pages _ _ _ Hk1) as Hpp.
        specialize (Hdown k2 pages). rewrite Hm2, He2, table_pte_pa in Hdown
          by (by apply page_ok_kpage).
        eapply wp_mono; [apply Hdown|].
        -- unfold k2. apply kmem_ok_mem; [done|]. rewrite Hm1.
           apply (hang_agree_junk (k_mem k)); [by do 2 (constructor; [done|])|done| |done].
           intros Hin. apply NoDup_app in Hnd as (_ & Hd & _).
           apply (Hd pt (tables_head _ _ _)). by right.
        -- rewrite Ht2. by constructor.
        -- rewrite Ht2, <- app_comm_cons, Permutation_middle. done.
        -- apply table_pte_valid.
        -- intros r k'.
           apply (walked_hang l l pt va i p pages k k2 r k' Hwf Hnd (Forall_cons_2 _ _ _ Hp Hpp)
                    Hi Hv Hm2 Hk1s).
Qed.

(** * An address space

    [space F pt f m0 pages k]: the tables of [pt] and the free pages are the
    pages [F]; the tables map [va] to the entry [f va]; outside [F], memory is
    still [m0]. *)
Record space (F : list Z) (pt : Z) (f : Z -> Z) (m0 : mem) (pages : list Z) (k : kst) : Prop := {
  sp_kmem : kmem_ok kernel_end pages k;
  sp_perm : tables 3 (k_mem k) pt ++ pages ≡ₚ F;
  sp_map : forall va, 0 <= va < 2 ^ 48 -> xlate 3 (k_mem k) pt va = f va;
  sp_frame : forall b, ~ on F b -> rd8 (k_mem k) b = rd8 m0 b
}.

Lemma path_page va va' : 0 <= va < 2 ^ 48 -> 0 <= va' < 2 ^ 48 ->
  path 3 va' = path 3 va <-> va' / PGSIZE = va / PGSIZE.
Proof using Type.
  intros H H'. rewrite (va_page va), (va_page va') by done. rewrite !path_S, !path_0.
  pose proof (PX_range 0 va ltac:(lia)). pose proof (PX_range 0 va' ltac:(lia)).
  pose proof (PX_range 1 va ltac:(lia)). pose proof (PX_range 1 va' ltac:(lia)).
  pose proof (PX_range 2 va ltac:(lia)). pose proof (PX_range 2 va' ltac:(lia)).
  pose proof (PX_range 3 va ltac:(lia)). pose proof (PX_range 3 va' ltac:(lia)).
  change (Z.of_nat 3) with 3. change (Z.of_nat 2) with 2. change (Z.of_nat 1) with 1.
  change (2 ^ 27) with 134217728. change (2 ^ 18) with 262144. change (2 ^ 9) with 512.
  split.
  - intros [= -> -> -> ->]. done.
  - intros Heq. assert (PX 3 va' = PX 3 va) as -> by lia.
    assert (PX 2 va' = PX 2 va) as -> by lia. assert (PX 1 va' = PX 1 va) as -> by lia.
    assert (PX 0 va' = PX 0 va) as -> by lia. done.
Qed.

Lemma not_dmwin va : 0 <= va < 2 ^ 48 -> Z.land va DMWIN_MASK = 0.
Proof using Type.
  intros H. change DMWIN_MASK with (36864 * 2 ^ 48). by apply land_low_high.
Qed.
Lemma maxva_48 : MAXVA < 2 ^ 48.
Proof using Type. done. Qed.

Section Space.
Context (F : list Z) (HF : Forall page_ok F) (HFn : NoDup F).
Context (pt : Z) (m0 : mem).

Lemma space_wf f pages k : space F pt f m0 pages k -> wf_tables 3 (k_mem k) pt.
Proof using HF HFn.
  intros [_ Hp _ _]. rewrite <- Hp in HF, HFn. split.
  - by apply Forall_app in HF as [? _].
  - by apply NoDup_app in HFn as [? _].
Qed.

Lemma walk_space f pages k va :
  space F pt f m0 pages k -> 0 <= va < MAXVA ->
  wp (walk pt va 1) (fun r k' => same_cpu k k' /\ exists pages',
     space F pt f m0 pages' k' /\ (r = 0 -> pages' = [])
     /\ (length pages <= length pages' + 3)%nat
     /\ (r <> 0 -> wlk 3 (k_mem k') pt va = Some r)) k.
Proof using Hend HF HFn.
  intros Hs Hva. pose proof (space_wf f pages k Hs) as [Hwp _]. destruct Hs as [Hk Hp Hm Hfr].
  pose proof maxva_48. unfold walk. rewrite not_dmwin by lia. cbn [truth Z.eqb negb].
  destruct (Z.leb_spec MAXVA va); [lia|].
  eapply wp_mono; [apply (walk_from_alloc 3 pt va pages k Hk Hwp)|].
  { by rewrite Hp. }
  intros r k' [(pages' & Hk' & Hp' & Hr & Hc) Hx Hfr' Hent Hkpt]. split; [done|].
  exists pages'. split; [|by repeat split]. split; [done|by rewrite Hp'| |].
  - intros va' Hva'. rewrite Hx. by apply Hm.
  - intros b Hb. rewrite Hfr'; [by apply Hfr|]. intros Hb'. apply Hb.
    eapply on_mono; [|exact Hb']. intros q. by rewrite Hp.
Qed.

Definition upd_page (f : Z -> Z) (va e : Z) (va' : Z) : Z :=
  if decide (va' / PGSIZE = va / PGSIZE) then e else f va'.

Lemma store_space f pages k va a e :
  space F pt f m0 pages k -> 0 <= va < 2 ^ 48 -> wlk 3 (k_mem k) pt va = Some a ->
  space F pt (upd_page f va (u64 e)) m0 pages (update k_mem_l (wr64 (k_mem k) a e) k).
Proof using HF HFn.
  intros Hs Hva Ha. pose proof (space_wf f pages k Hs) as Hwf. destruct Hs as [Hk Hp Hm Hfr].
  destruct (set_leaf 3 (k_mem k) pt va a e Hwf Ha) as (Ht & Hw & Hx & Hon).
  assert (forall b, ~ on (tables 3 (k_mem k) pt) b -> rd8 (wr64 (k_mem k) a e) b = rd8 (k_mem k) b)
    as Hout by (intros b Hb; apply rd8_wrn_out; intros Hb'; by apply Hb, Hon).
  split.
  - apply kmem_ok_mem; [done|]. intros b Hb. apply Hout. intros Hb'. revert Hb.
    apply (on_disjoint (tables 3 (k_mem k) pt)); by rewrite ?Hp.
  - cbn. by rewrite Ht.
  - intros va' Hva'. cbn. rewrite Hx. unfold upd_page.
    destruct (decide (path 3 va' = path 3 va)) as [Hd|Hd]; rewrite (path_page va va') in Hd by done.
    + by rewrite decide_True.
    + rewrite decide_False by done. by apply Hm.
  - intros b Hb. cbn. rewrite Hout; [by apply Hfr|]. intros Hb'. apply Hb.
    eapply on_mono; [|exact Hb']. intros q Hq. rewrite <- Hp. apply elem_of_app. by left.
Qed.

(** [load] of the entry found for [va]. *)
Lemma load_space f pages k va a : space F pt f m0 pages k -> 0 <= va < 2 ^ 48 ->
  wlk 3 (k_mem k) pt va = Some a -> rd64 (k_mem k) a = f va.
Proof using Type.
  intros Hs Hva Ha. rewrite <- (sp_map _ _ _ _ _ _ Hs va Hva). unfold xlate. by rewrite Ha.
Qed.

Lemma space_ext f g pages k :
  (forall va, 0 <= va < 2 ^ 48 -> f va = g va) ->
  space F pt f m0 pages k -> space F pt g m0 pages k.
Proof using Type.
  intros Hfg [Hk Hp Hm Hfr]. split; try assumption. intros va Hva. by rewrite Hm, Hfg.
Qed.

(** ** Mapping *)

Definition leaf (pa perm : Z) : Z :=
  Z.lor (Z.lor (Z.lor (Z.lor (PA2PTE pa) (u64 (s32 perm))) PTE_V) PTE_MAT) PTE_D.

Lemma leaf_u64 pa perm : u64 (leaf pa perm) = leaf pa perm.
Proof using Type.
  pose proof (PA2PTE_range pa). pose proof (u64_range (s32 perm)).
  unfold leaf. apply u64_small, (lor_range _ _ 64); [done| |done].
  do 2 (apply lor_range; [done| |done]). apply lor_range; [done|lia|lia].
Qed.

(** [f] with [j] pages mapped from [a] to [pa] on. *)
Definition mapped (f : Z -> Z) (a pa perm j va : Z) : Z :=
  if decide (a / PGSIZE <= va / PGSIZE < a / PGSIZE + j)
  then leaf (pa + (va / PGSIZE - a / PGSIZE) * PGSIZE) perm else f va.

Lemma mapped_step f a pa perm j va : a mod PGSIZE = 0 ->
  mapped (upd_page f a (leaf pa perm)) (a + PGSIZE) (pa + PGSIZE) perm j va
  = if decide (0 <= j) then mapped f a pa perm (j + 1) va
    else upd_page f a (leaf pa perm) va.
Proof using Type.
  intros Ha. unfold mapped, upd_page.
  assert ((a + PGSIZE) / PGSIZE = a / PGSIZE + 1) as -> by (unfold PGSIZE in *; zlia).
  destruct (decide (0 <= j)).
  - destruct (decide (va / PGSIZE = a / PGSIZE)) as [E|E].
    + rewrite decide_False by lia. rewrite decide_True by lia. f_equal. lia.
    + destruct (decide (a / PGSIZE + 1 <= va / PGSIZE < a / PGSIZE + 1 + j)).
      * rewrite decide_True by lia. f_equal. lia.
      * by rewrite decide_False by lia.
  - by rewrite decide_False by lia.
Qed.

Definition map_body (last : Z) (perm : Z) : Z * Z -> M kst (Z * Z + Z) := fun '(a, pa) =>
  pte ← walk pt a 1;
  if pte =? 0 then mret (inr (-1))
  else
    e ← load pte;
    if valid e then panic "remap"
    else
      _ ← store pte (leaf pa perm);
      if a =? last then mret (inr 0)
      else mret (inl (u64 (a + PGSIZE), u64 (pa + PGSIZE))).

(** One turn of the loop: out of memory, or one more page mapped. *)
Lemma map_body_ok f pages k a pa perm last :
  space F pt f m0 pages k -> 0 <= a < MAXVA -> valid (f a) = false ->
  wp (map_body last perm (a, pa)) (fun r k' => same_cpu k k' /\ exists pages',
     (length pages <= length pages' + 3)%nat /\ ((r = inr (-1) /\ pages' = [] /\ space F pt f m0 pages' k')
     \/ (r = (if a =? last then inr 0 else inl (u64 (a + PGSIZE), u64 (pa + PGSIZE)))
         /\ space F pt (upd_page f a (leaf pa perm)) m0 pages' k'))) k.
Proof using Hend HF HFn.
  intros Hs Ha Hv. pose proof maxva_48. unfold map_body.
  apply wp_bind. eapply wp_mono; [by apply (walk_space f pages k a Hs)|].
  intros r k' (Hkpt & pages' & Hs' & Hr0 & Hc & Hr). destruct (Z.eqb_spec r 0) as [->|Hne].
  { apply wp_mret. split; [done|]. exists pages'. split; [done|]. left. auto. }
  specialize (Hr Hne). unfold load, store. wp_run.
  rewrite (load_space f pages' k' a r Hs') by (done || lia). rewrite Hv. wp_run.
  assert (space F pt (upd_page f a (leaf pa perm)) m0 pages'
            (update k_mem_l (wr64 (k_mem k') r (leaf pa perm)) k')) as Hs''.
  { rewrite <- (leaf_u64 pa perm) at 1. apply store_space; [done|lia|done]. }
  destruct (a =? last); wp_run; (split; [done|]); exists pages'; (split; [done|]); right; auto.
Qed.

Lemma map_loop n f pages k a pa perm fuel :
  space F pt f m0 pages k -> a mod PGSIZE = 0 -> 0 <= a -> a + Z.of_nat n * PGSIZE < MAXVA ->
  0 <= pa -> pa + Z.of_nat n * PGSIZE < 2 ^ 64 ->
  (forall i, 0 <= i <= Z.of_nat n -> valid (f (a + i * PGSIZE)) = false) ->
  (n < fuel)%nat ->
  wp (loop fuel (a, pa) (map_body (a + Z.of_nat n * PGSIZE) perm))
    (fun r k' => same_cpu k k' /\ exists j pages',
       space F pt (mapped f a pa perm j) m0 pages' k'
       /\ (length pages <= length pages' + 3 * S n)%nat
       /\ ((r = 0 /\ j = Z.of_nat n + 1)
           \/ (r = -1 /\ 0 <= j <= Z.of_nat n /\ pages' = []))) k.
Proof using Hend HF HFn.
  assert (MAXVA < 2 ^ 64 - PGSIZE) as Hmax by done.
  revert f pages k a pa fuel.
  induction n as [|n IH]; intros f pages k a pa fuel Hs Hal Ha Hend' Hpa Hpa' Hinv Hfuel;
    (destruct fuel as [|fuel]; [lia|]); cbn [loop]; apply wp_bind;
    (eapply wp_mono; [apply (map_body_ok f pages k a pa perm); [done|unfold PGSIZE in *; lia|]|]);
    try (specialize (Hinv 0); rewrite Z.mul_0_l, Z.add_0_r in Hinv; apply Hinv; lia);
    intros r k' (Hkpt & pages' & Hc & [(-> & -> & Hs')|(-> & Hs')]).
  - apply wp_mret. split; [done|]. exists 0, []. split; [|split; [lia|right; lia || auto]].
    + eapply space_ext; [|done]. intros va _. unfold mapped. by rewrite decide_False by lia.
    + repeat split; lia.
  - rewrite (proj2 (Z.eqb_eq a _)) by lia. apply wp_mret. split; [done|].
    exists 1, pages'. split; [|split; [lia|by left]]. eapply space_ext; [|done]. intros va _.
    unfold upd_page, mapped. destruct (decide (va / PGSIZE = a / PGSIZE)) as [->|].
    + rewrite decide_True by lia. by rewrite Z.sub_diag, Z.mul_0_l, Z.add_0_r.
    + by rewrite decide_False by lia.
  - apply wp_mret. split; [done|]. exists 0, []. split; [|split; [lia|right; repeat split; lia]].
    eapply space_ext; [|done]. intros va _. unfold mapped. by rewrite decide_False by lia.
  - rewrite (proj2 (Z.eqb_neq a _)) by (unfold PGSIZE; lia).
    rewrite !u64_small by (unfold PGSIZE in *; lia).
    replace (a + Z.of_nat (S n) * PGSIZE) with (a + PGSIZE + Z.of_nat n * PGSIZE)
      by (unfold PGSIZE; lia).
    eapply wp_mono; [apply (IH (upd_page f a (leaf pa perm)) pages' k'); try done|].
    all: try (unfold PGSIZE in *; (lia || zlia)).
    + intros i Hi. unfold upd_page. rewrite decide_False by (unfold PGSIZE in *; zlia).
      replace (a + PGSIZE + i * PGSIZE) with (a + (i + 1) * PGSIZE) by lia. apply Hinv. lia.
    + intros r k'' (Hkpt' & j & pages'' & Hs'' & Hc' & Hr). split; [by eapply same_cpu_trans|].
      assert (0 <= j) by lia. exists (j + 1), pages''. split.
      * eapply space_ext; [|exact Hs'']. intros va _. rewrite mapped_step by done.
        by rewrite decide_True.
      * split; [lia|]. destruct Hr as [[-> ->]|(-> & ? & ->)]; [left|right]; repeat split; lia.
Qed.

Lemma mappages_ok f pages k va size pa perm :
  space F pt f m0 pages k -> 0 <= va -> 0 < size -> va + size <= MAXVA ->
  0 <= pa -> pa + size < 2 ^ 63 + 2 ^ 62 ->
  let n := (va + size - 1) / PGSIZE - va / PGSIZE + 1 in
  (forall va', va / PGSIZE <= va' / PGSIZE < va / PGSIZE + n -> valid (f va') = false) ->
  wp (mappages pt va size pa perm)
    (fun r k' => same_cpu k k' /\ exists j pages',
       space F pt (mapped f va pa perm j) m0 pages' k'
       /\ (length pages <= length pages' + 3 * Z.to_nat n)%nat
       /\ ((r = 0 /\ j = n) \/ (r = -1 /\ 0 <= j < n /\ pages' = []))) k.
Proof using Hend HF HFn.
  intros Hs Hva Hsz Hmax Hpa Hpa' n Hinv. assert (MAXVA < 2 ^ 63) by done.
  unfold mappages. rewrite (proj2 (Z.eqb_neq size 0)) by lia.
  rewrite (u64_small (va + size - 1)) by lia. rewrite !round_down_spec by lia.
  set (a := va / PGSIZE * PGSIZE).
  assert (0 < n) as Hn by (unfold n, PGSIZE; zlia).
  replace ((va + size - 1) / PGSIZE * PGSIZE) with (a + Z.of_nat (Z.to_nat (n - 1)) * PGSIZE)
    by (rewrite Z2Nat.id by lia; unfold a, n; lia).
  assert (a / PGSIZE = va / PGSIZE) as Hav by (unfold a, PGSIZE; zlia).
  eapply wp_mono.
  - apply (map_loop (Z.to_nat (n - 1)) f pages k a pa perm); [done|..];
      rewrite ?Z2Nat.id by lia.
    + unfold a, PGSIZE. zlia.
    + unfold a, PGSIZE. zlia.
    + unfold a, n, PGSIZE in *. zlia.
    + done.
    + unfold n, PGSIZE. zlia.
    + intros i Hi. apply Hinv. unfold PGSIZE in *. zlia.
    + rewrite u64_small by (unfold a, n, PGSIZE in *; zlia). unfold PGSIZE in *. zlia.
  - rewrite Z2Nat.id by lia. intros r k' (Hkpt & j & pages' & Hs' & Hc & Hr). split; [done|].
    exists j, pages'. split; [|split; [unfold n in *; lia|destruct Hr as [[-> ->]|(-> & ? & ->)]; [left|right]; repeat split; lia]].
    eapply space_ext; [|exact Hs']. intros v _. unfold mapped. by rewrite Hav.
Qed.
End Space.
End Tables.

(** * Looking up and copying *)

Lemma PTE2PA_kpage e : kpage (PTE2PA e).
Proof.
  unfold PTE2PA. change PAMASK with (Z.shiftl (Z.ones 36) 12). rewrite land_field by lia.
  set (r := (e / 2 ^ 12) mod 2 ^ 36 * 2 ^ 12). assert (0 <= r < 2 ^ 48) as Hr by (unfold r; zlia).
  change DMWIN_MASK with (36864 * 2 ^ 48). rewrite lor_low_high by done.
  change (36864 * 2 ^ 48) with DMWIN_MASK. split; [lia|].
  unfold r, DMWIN_MASK, PGSIZE. change (2 ^ 12) with 4096. zlia.
Qed.

(** The page an entry gives user code access to; 0 if it gives none. *)
Definition user_pa (e : Z) : Z :=
  if negb (valid e) then 0 else if Z.land e PTE_PLV3 =? 0 then 0 else PTE2PA e.

Lemma wlk_pos l m pt va a : wlk (S l) m pt va = Some a -> 0 < a.
Proof.
  revert pt. induction l as [|l IH]; intros pt; cbn [wlk].
  - generalize (rd64 m (slot pt (PX (Z.of_nat 1) va))). intros e.
    destruct (valid e); [|done]. intros [= <-]. unfold slot.
    pose proof (PTE2PA_nz e). pose proof (PX_range 0 va ltac:(lia)). lia.
  - destruct (valid _); [|done]. apply IH.
Qed.

Lemma walk_look pt va k : 0 <= va < MAXVA ->
  walk pt va 0 k = Ret (default 0 (wlk 3 (k_mem k) pt va)) k.
Proof.
  intros Hva. pose proof maxva_48. unfold walk. rewrite not_dmwin by lia. cbn [truth Z.eqb negb].
  destruct (Z.leb_spec MAXVA va); [lia|]. apply walk_from_look.
Qed.

(** What [walkaddr] prints when the entry it finds is not the user's. *)
Definition walk_says (pt va : Z) (m : mem) : list kline :=
  match wlk 3 m pt va with
  | None => []
  | Some a =>
      if negb (valid (rd64 m a)) then [("va :%p walkaddr: *pte & PTE_V == 0", [va])]
      else if Z.land (rd64 m a) PTE_PLV3 =? 0 then [("walkaddr: *pte & PTE_U == 0", [])]
      else []
  end.

Lemma says_nil k : says [] k = k.
Proof. unfold says. rewrite app_nil_r. by destruct k. Qed.
Lemma walk_says_user pt va m : user_pa (xlate 3 m pt va) <> 0 -> walk_says pt va m = [].
Proof.
  unfold walk_says, xlate, user_pa. destruct (wlk 3 m pt va) as [a|]; [|done]. cbv beta iota.
  destruct (valid _); [|done]. cbn [negb]. by destruct (_ =? 0).
Qed.

Lemma walkaddr_eq pt va k : 0 <= va < MAXVA ->
  walkaddr pt va k = Ret (user_pa (xlate 3 (k_mem k) pt va)) (says (walk_says pt va (k_mem k)) k).
Proof.
  intros Hva. pose proof maxva_48. unfold walkaddr. rewrite not_dmwin by lia.
  cbn [truth Z.eqb negb]. destruct (Z.leb_spec MAXVA va); [lia|].
  rewrite (bind_ret _ _ _ _ _ (walk_look pt va k Hva)). unfold xlate, walk_says.
  destruct (wlk 3 (k_mem k) pt va) as [a|] eqn:Ha; [|by rewrite says_nil].
  pose proof (wlk_pos _ _ _ _ _ Ha). cbv beta iota delta [from_option id]. rewrite (proj2 (Z.eqb_neq a 0)) by lia.
  unfold load, user_pa. mrun. destruct (valid _); [|done]. cbn.
  destruct (Z.land _ _ =? 0); [done|]. change (Ret (PTE2PA (rd64 (k_mem k) a)) k = Ret (PTE2PA (rd64 (k_mem k) a)) (says [] k)); by rewrite says_nil.
Qed.
(** The address of a page the user can reach is found in silence. *)
Lemma walkaddr_user pt va k : 0 <= va < MAXVA -> user_pa (xlate 3 (k_mem k) pt va) <> 0 ->
  walkaddr pt va k = Ret (user_pa (xlate 3 (k_mem k) pt va)) k.
Proof. intros Hva Hu. by rewrite walkaddr_eq, walk_says_user, says_nil. Qed.

(** Where the byte at user address [va] is. *)
Definition uaddr (f : Z -> Z) (va : Z) : Z := user_pa (f (PGROUNDDOWN va)) + va mod PGSIZE.

Lemma copy_addr e va : 0 <= va < 2 ^ 48 -> user_pa e <> 0 ->
  Z.lor (u64 (user_pa e + (va - PGROUNDDOWN va))) DMWIN_MASK = user_pa e + va mod PGSIZE.
Proof.
  intros Hva Hnz. rewrite round_down_spec by lia.
  replace (va - va / PGSIZE * PGSIZE) with (va mod PGSIZE) by (unfold PGSIZE; zlia).
  assert (user_pa e = PTE2PA e) as Hpa.
  { unfold user_pa in *. destruct (negb _); [done|]. by destruct (_ =? 0). }
  rewrite Hpa. destruct (PTE2PA_kpage e) as [Hr Hal].
  set (r := PTE2PA e - DMWIN_MASK + va mod PGSIZE).
  assert (0 <= r < 2 ^ 48) by (unfold r, DMWIN_MASK, PGSIZE in *; zlia).
  replace (PTE2PA e + va mod PGSIZE) with (r + 36864 * 2 ^ 48)
    by (change (36864 * 2 ^ 48) with DMWIN_MASK; unfold r; lia).
  rewrite u64_small by lia. rewrite <- (lor_low_high r) by done.
  change DMWIN_MASK with (36864 * 2 ^ 48). by rewrite <- Z.lor_assoc, Z.lor_diag.
Qed.

(** What is printed when a copy returns [r] at address [va]. *)
Definition copy_says (r pt va : Z) (m : mem) : list kline :=
  if r =? 0 then [] else walk_says pt (PGROUNDDOWN va) m.

Section Copy.
Context (pt : Z) (f : Z -> Z).

(** The memory's tables of [pt] give [f]. *)
Definition maps (m : mem) : Prop := forall va, 0 <= va < 2 ^ 48 -> xlate 3 m pt va = f va.

Context (move : Z -> Z -> Z -> mem -> mem) (va0 kb len : Z) (P : Z -> mem -> Prop).
Context (Hva : 0 <= va0) (Hlen : 0 <= len) (Hmax : va0 + len <= MAXVA).
Context (HPm : forall c m, 0 <= c <= len -> P c m -> maps m).
Context (Hmove : forall c n m, P c m -> 0 <= c -> 0 < n -> c + n <= len ->
  (va0 + c + n - 1) / PGSIZE = (va0 + c) / PGSIZE -> user_pa (f (PGROUNDDOWN (va0 + c))) <> 0 ->
  P (c + n) (move (uaddr f (va0 + c)) (kb + c) n m)).

Lemma copy_loop c k fuel :
  0 <= c <= len -> P c (k_mem k) -> (c < len -> va0 + c < MAXVA) ->
  (len - c) / PGSIZE + (if (va0 + c) mod PGSIZE =? 0 then 2 else 3) <= Z.of_nat fuel ->
  wp (loop fuel (va0 + c, kb + c, len - c) (fun '(va, k, len) =>
    if len =? 0 then mret (inr 0)
    else
      let va0 := PGROUNDDOWN va in
      pa0 ← walkaddr pt va0;
      if pa0 =? 0 then mret (inr (-1))
      else
        let n := PGSIZE - (va - va0) in
        let n := if len <? n then len else n in
        _ ← md k_mem_l (move (Z.lor (u64 (pa0 + (va - va0))) DMWIN_MASK) k n);
        mret (inl (u64 (va0 + PGSIZE), k + n, len - n))))
    (fun r k' => exists m' c', k' = says (copy_says r pt (va0 + c') m') (update k_mem_l m' k)
      /\ P c' m' /\ c <= c' <= len
      /\ ((r = 0 /\ c' = len)
          \/ (r = -1 /\ c' < len /\ user_pa (f (PGROUNDDOWN (va0 + c'))) = 0))) k.
Proof using All.
  pose proof maxva_48. assert (MAXVA < 2 ^ 64 - PGSIZE) as Hmx by done.
  revert c k. induction fuel as [|fuel IH]; intros c k Hc HP Hcm Hfuel.
  { exfalso. unfold PGSIZE in *. destruct (_ =? 0); zlia. }
  cbn [loop]. apply wp_bind. destruct (Z.eqb_spec (len - c) 0) as [E|E].
  { wp_run. exists (k_mem k), c. split; [symmetry; rewrite says_nil; by destruct k|]. split; [done|].
    split; [lia|]. left. lia. }
  specialize (Hcm ltac:(lia)).
  rewrite (round_down_spec (va0 + c)) by lia.
  assert (0 <= (va0 + c) / PGSIZE * PGSIZE < MAXVA) as Hpg by (unfold PGSIZE; zlia).
  apply wp_bind. eapply wp_eq; [by apply walkaddr_eq|].
  rewrite (HPm c (k_mem k) Hc HP) by lia. cbv zeta.
  destruct (Z.eqb_spec (user_pa (f ((va0 + c) / PGSIZE * PGSIZE))) 0) as [E0|E0].
  { wp_run. exists (k_mem k), c. unfold copy_says. cbn [Z.eqb]. rewrite round_down_spec by lia.
    split; [by destruct k|]. split; [done|].
    split; [lia|]. right. repeat split; [lia|done]. }
  rewrite <- (HPm c (k_mem k) Hc HP) in E0 by lia. rewrite walk_says_user, says_nil by done.
  rewrite (HPm c (k_mem k) Hc HP) in E0 by lia. wp_run.
  set (n := if len - c <? _ then _ else _).
  assert (0 < n <= len - c /\ (va0 + c + n - 1) / PGSIZE = (va0 + c) / PGSIZE
    /\ (n = len - c \/ n = PGSIZE - (va0 + c) mod PGSIZE)) as (Hn & Hsame & Hor).
  { unfold n, PGSIZE. destruct (Z.ltb_spec (len - c) (4096 - (va0 + c - (va0 + c) / 4096 * 4096)));
      zlia. }
  pose proof (copy_addr _ (va0 + c) ltac:(lia) E0) as Haddr.
  rewrite round_down_spec in Haddr by lia. rewrite Haddr.
  replace (user_pa (f ((va0 + c) / PGSIZE * PGSIZE)) + (va0 + c) mod PGSIZE)
    with (uaddr f (va0 + c)) by (unfold uaddr; by rewrite round_down_spec by lia).
  set (k1 := update k_mem_l _ k).
  assert (P (c + n) (k_mem k1)) as HP1.
  { apply Hmove; try done; try lia. rewrite round_down_spec by lia. done. }
  destruct (Z.eq_dec (c + n) len) as [Hend|Hend].
  - destruct fuel as [|fuel]; [exfalso; unfold PGSIZE in *; destruct (_ =? 0); zlia|].
    cbn [loop]. rewrite (proj2 (Z.eqb_eq (len - c - n) 0)) by lia. wp_run.
    exists (k_mem k1), (c + n). split; [symmetry; rewrite says_nil; by destruct k|]. split; [done|]. split; [lia|]. left. lia.
  - replace (u64 ((va0 + c) / PGSIZE * PGSIZE + PGSIZE)) with (va0 + (c + n)).
    + replace (kb + c + n) with (kb + (c + n)) by lia.
      replace (len - c - n) with (len - (c + n)) by lia.
      eapply wp_mono; [apply (IH (c + n) k1); [lia|done|lia|]|].
      * replace ((va0 + (c + n)) mod PGSIZE) with 0 by (unfold PGSIZE in *; zlia). cbn [Z.eqb].
        destruct (Z.eqb_spec ((va0 + c) mod PGSIZE) 0); unfold PGSIZE in *; zlia.
      * intros r k' (m' & c' & -> & HP' & Hc' & Hr). exists m', c'.
        split; [by destruct k|]. split; [done|]. split; [lia|done].
    + rewrite u64_small; unfold PGSIZE in *; zlia.
Qed.
End Copy.

Lemma uaddr_same f va i n : 0 <= va -> va + n < 2 ^ 48 -> 0 <= i < n ->
  (va + n - 1) / PGSIZE = va / PGSIZE -> uaddr f (va + i) = uaddr f va + i.
Proof.
  intros Hva Hmax Hi Hsame. unfold uaddr. rewrite !round_down_spec by lia.
  assert ((va + i) / PGSIZE = va / PGSIZE) as -> by (unfold PGSIZE in *; zlia).
  unfold PGSIZE in *. zlia.
Qed.

Lemma maps_agree pt f m m' : maps pt f m -> agree m m' (tables 3 m pt) -> maps pt f m'.
Proof.
  intros Hm Ha va Hva. destruct (tables_ext 3 m m' pt Ha) as (_ & _ & Hx).
  by rewrite Hx, Hm.
Qed.

(** A user byte the current process can reach. *)
Definition user_ok (f : Z -> Z) (va : Z) : Prop := user_pa (f (PGROUNDDOWN va)) <> 0.
#[export] Instance user_ok_dec f va : Decision (user_ok f va) := _.

(** ** [copyin] *)

Section Copyin.
Context (pt : Z) (f : Z -> Z) (m0 : mem) (dst va len : Z).
Context (Hmaps : maps pt f m0) (Hva : 0 <= va) (Hlen : 0 <= len) (Hmax : va + len <= MAXVA).
Context (Hbuf : forall i, 0 <= i < len -> user_ok f (va + i) ->
  ~ dst <= uaddr f (va + i) < dst + len).
Context (Htab : forall b, dst <= b < dst + len -> ~ on (tables 3 m0 pt) b).

Definition copied_in (c : Z) (m : mem) : Prop :=
  forall b, rd8 m b = if decide (dst <= b < dst + c)
                      then rd8 m0 (uaddr f (va + (b - dst))) else rd8 m0 b.

Lemma copied_in_maps c m : 0 <= c <= len -> copied_in c m -> maps pt f m.
Proof using Hmaps Htab.
  intros Hc Hm. apply (maps_agree pt f m0); [done|]. intros b Hb. rewrite Hm.
  rewrite decide_False; [done|]. intros Hin. apply (Htab b); [lia|done].
Qed.

Lemma copied_in_step c n m :
  copied_in c m -> 0 <= c -> 0 < n -> c + n <= len ->
  (va + c + n - 1) / PGSIZE = (va + c) / PGSIZE -> user_ok f (va + c) ->
  copied_in (c + n) (memmove m (dst + c) (uaddr f (va + c)) n).
Proof using Hva Hmax Hbuf.
  intros Hm Hc Hn Hcn Hsame Hok b. pose proof maxva_48.
  assert (n <= PGSIZE) by (unfold PGSIZE in *; zlia).
  rewrite rd8_memmove by (unfold PGSIZE in *; lia). rewrite !Hm.
  destruct (decide (dst + c <= b < dst + c + n)) as [Hb|Hb].
  - rewrite (decide_True (P := dst <= b < dst + (c + n))) by lia.
    assert (user_ok f (va + (b - dst))) as Hokb.
    { unfold user_ok in *. rewrite round_down_spec in * by lia.
      replace ((va + (b - dst)) / PGSIZE) with ((va + c) / PGSIZE); [done|].
      unfold PGSIZE in *; zlia. }
    pose proof (Hbuf (b - dst) ltac:(lia) Hokb) as Hoff.
    rewrite <- (uaddr_same f (va + c) _ n) by (lia || done).
    replace (va + c + (b - (dst + c))) with (va + (b - dst)) by lia.
    rewrite decide_False by lia. done.
  - destruct (decide (dst <= b < dst + c)).
    + by rewrite decide_True by lia.
    + by rewrite decide_False by lia.
Qed.
End Copyin.

(** ** [copyout] *)

Section Copyout.
Context (pt : Z) (f : Z -> Z) (m0 : mem) (va src len : Z).
Context (Hmaps : maps pt f m0) (Hva : 0 <= va) (Hlen : 0 <= len) (Hmax : va + len <= MAXVA).
(** The user's pages are distinct from one another, from the source and from
    the tables. *)
Context (Hinj : forall i j, 0 <= i < len -> 0 <= j < len ->
  user_ok f (va + i) -> user_ok f (va + j) -> uaddr f (va + i) = uaddr f (va + j) -> i = j).
Context (Hsrc : forall i, 0 <= i < len -> user_ok f (va + i) ->
  ~ src <= uaddr f (va + i) < src + len).
Context (Htab : forall i, 0 <= i < len -> user_ok f (va + i) ->
  ~ on (tables 3 m0 pt) (uaddr f (va + i))).

Definition copied_out (c : Z) (m : mem) : Prop :=
  (forall i, 0 <= i < c -> user_ok f (va + i))
  /\ (forall i, 0 <= i < c -> rd8 m (uaddr f (va + i)) = rd8 m0 (src + i))
  /\ (forall b, (forall i, 0 <= i < c -> b <> uaddr f (va + i)) -> rd8 m b = rd8 m0 b).

Lemma copied_out_maps c m : 0 <= c <= len -> copied_out c m -> maps pt f m.
Proof using Hmaps Htab.
  intros Hc (Hok & _ & Hm). apply (maps_agree pt f m0); [done|]. intros b Hb. apply Hm.
  intros i Hi ->. apply (Htab i); [lia|by apply Hok|done].
Qed.

Lemma copied_out_step c n m :
  copied_out c m -> 0 <= c -> 0 < n -> c + n <= len ->
  (va + c + n - 1) / PGSIZE = (va + c) / PGSIZE -> user_ok f (va + c) ->
  copied_out (c + n) (memmove m (uaddr f (va + c)) (src + c) n).
Proof using Hva Hmax Hinj Hsrc.
  intros (Hok & Hcp & Hm) Hc Hn Hcn Hsame Hokc. pose proof maxva_48.
  assert (n <= PGSIZE) by (unfold PGSIZE in *; zlia).
  assert (forall i, 0 <= i < n -> uaddr f (va + (c + i)) = uaddr f (va + c) + i) as Hsh.
  { intros i Hi. rewrite Z.add_assoc. apply (uaddr_same f (va + c) i n); [lia..|done]. }
  assert (forall i, 0 <= i < c + n -> user_ok f (va + i)) as Hok'.
  { intros i Hi. destruct (decide (i < c)); [apply Hok; lia|].
    unfold user_ok in *. rewrite round_down_spec in * by lia.
    replace ((va + i) / PGSIZE) with ((va + c) / PGSIZE); [done|]. unfold PGSIZE in *; zlia. }
  split; [done|]. split.
  - intros i Hi. rewrite rd8_memmove by (unfold PGSIZE in *; lia).
    destruct (decide (i < c)) as [Hic|Hic].
    + rewrite decide_False; [by apply Hcp; lia|]. intros Hin.
      assert (i = c + (uaddr f (va + i) - uaddr f (va + c))); [|lia].
      apply Hinj; [lia|lia|apply Hok'; lia|apply Hok'; lia|]. rewrite Hsh by lia. lia.
    + assert (uaddr f (va + i) = uaddr f (va + c) + (i - c)) as E
        by (rewrite <- Hsh by lia; f_equal; lia).
      rewrite E, decide_True by lia. rewrite Hm.
      * f_equal. lia.
      * intros j Hj E'. apply (Hsrc j); [lia|apply Hok'; lia|]. lia.
  - intros b Hb. rewrite rd8_memmove by (unfold PGSIZE in *; lia).
    rewrite decide_False.
    + apply Hm. intros i Hi. apply Hb. lia.
    + intros Hin. apply (Hb (c + (b - uaddr f (va + c)))); [lia|]. rewrite Hsh by lia. lia.
Qed.
End Copyout.
