(* ===== verification/Space.v ===== *)
(** An address space that grows while its kernel hands pages out: every page of
    memory is a table of the space, handed out, or free, and what is handed out
    keeps its contents.  Used for the page tables made at start-up. *)

From S2P Require Import Prelude Mem Locks Kalloc Vm PageTable.

Section Space.
Variable kernel_end : Z.
Context (Hend : DMWIN_MASK <= kernel_end <= RAMSTOP).
(** All the pages there are. *)
Context (all : list Z) (Hall : Forall (page_ok kernel_end) all) (Hnd : NoDup all).

Lemma page_end : 0 < kernel_end <= RAMSTOP.
Proof using Hend. assert (0 < DMWIN_MASK) by done. lia. Qed.

Record kspace (rest : list Z) (pt : Z) (f : Z -> Z) (pages : list Z) (k : kst) : Prop := {
  ks_kmem : kmem_ok kernel_end pages k;
  ks_all : tables 3 (k_mem k) pt ++ rest ++ pages ≡ₚ all;
  ks_map : forall va, 0 <= va < 2 ^ 48 -> xlate 3 (k_mem k) pt va = f va
}.

(** From [k] to [k'], the pages [ps] and all memory that is no page keep their
    contents, and the processor is as it was. *)
Record kept (ps : list Z) (k k' : kst) : Prop := {
  kp_cpu : same_cpu k k';
  kp_mem : agree (k_mem k) (k_mem k') ps;
  kp_out : forall b, ~ on all b -> rd8 (k_mem k') b = rd8 (k_mem k) b
}.
Lemma kept_refl ps k : kept ps k k.
Proof using Type. split; [apply same_cpu_refl|by intros b _|done]. Qed.
Lemma kept_trans ps k1 k2 k3 : kept ps k1 k2 -> kept ps k2 k3 -> kept ps k1 k3.
Proof using Type.
  intros [C1 M1 O1] [C2 M2 O2]. split; [by eapply same_cpu_trans| |].
  - intros b Hb. by rewrite M2, M1.
  - intros b Hb. by rewrite O2, O1.
Qed.
Lemma kept_says ps l k : kept ps k (says l k).
Proof using Type. split; [|by intros b _|done]. split; [done|by intros _]. Qed.
Lemma ks_says rest pt f pages l k : kspace rest pt f pages k -> kspace rest pt f pages (says l k).
Proof using Type. intros [Hk Hp Hm]. split; [by apply says_ok|exact Hp|exact Hm]. Qed.
Lemma kept_sub ps qs k k' : (forall p, p ∈ ps -> p ∈ qs) -> kept qs k k' -> kept ps k k'.
Proof using Type. intros H [C M O]. split; [done|by eapply agree_mono|done]. Qed.

(** The same from a page up. *)
Lemma kept_page ps k k' p i n : kept ps k k' -> p ∈ ps -> 0 <= i -> i + Z.of_nat n <= PGSIZE ->
  rdn n (k_mem k') (p + i) = rdn n (k_mem k) (p + i).
Proof using Type.
  intros [_ M _] Hp Hi Hn. apply rdn_ext. intros j Hj. apply M. exists p. split; [done|lia].
Qed.

(** A table kept means what it meant. *)
Lemma kept_tables ps pt k k' : kept (tables 3 (k_mem k) pt ++ ps) k k' ->
  tables 3 (k_mem k') pt = tables 3 (k_mem k) pt /\ forall va, xlate 3 (k_mem k') pt va = xlate 3 (k_mem k) pt va.
Proof using Type.
  intros [_ M _]. destruct (tables_ext 3 (k_mem k) (k_mem k') pt) as (Ht & _ & Hx); [|by split].
  eapply agree_mono; [|exact M]. intros c Hc. apply elem_of_app. by left.
Qed.

(** ** Facts about the pages of a space *)

Section OneSpace.
Context (rest : list Z) (pt : Z) (f : Z -> Z) (pages : list Z) (k : kst).
Context (Hs : kspace rest pt f pages k).

Lemma ks_ok p : p ∈ tables 3 (k_mem k) pt \/ p ∈ rest \/ p ∈ pages -> page_ok kernel_end p.
Proof using All.
  intros Hp. rewrite Forall_forall in Hall. apply Hall. rewrite <- (ks_all _ _ _ _ _ Hs).
  rewrite !elem_of_app. tauto.
Qed.
Lemma ks_nodup : NoDup (tables 3 (k_mem k) pt ++ rest ++ pages).
Proof using All. by rewrite (ks_all _ _ _ _ _ Hs). Qed.
Lemma ks_pages : Forall (page_ok kernel_end) (tables 3 (k_mem k) pt ++ rest ++ pages).
Proof using All. by rewrite (ks_all _ _ _ _ _ Hs). Qed.

Lemma ks_space : space kernel_end (tables 3 (k_mem k) pt ++ pages) pt f (k_mem k) pages k.
Proof using All. destruct Hs as [Hk _ Hm]. split; done. Qed.

(** The pages handed out are apart from the tables and the free pages. *)
Lemma ks_apart b : on rest b -> ~ on (tables 3 (k_mem k) pt ++ pages) b.
Proof using All.
  pose proof ks_nodup as Hn. pose proof ks_pages as Hp.
  assert (tables 3 (k_mem k) pt ++ rest ++ pages ≡ₚ (tables 3 (k_mem k) pt ++ pages) ++ rest) as E
    by (rewrite <- app_assoc; apply Permutation_app_head, Permutation_app_comm).
  rewrite E in Hn, Hp. intros Hb Hb'. revert Hb. by apply (on_disjoint kernel_end _ _ _ Hp Hn).
Qed.
Lemma ks_inside b : on (tables 3 (k_mem k) pt ++ pages) b -> on all b.
Proof using All.
  apply on_mono. intros p. rewrite <- (ks_all _ _ _ _ _ Hs), !elem_of_app. tauto.
Qed.
End OneSpace.

(** ** Mapping *)

(** What becomes of the tables and the free pages, the rest does not notice. *)
Lemma ks_of_space rest pt f g pages pages' k k' : kspace rest pt f pages k -> same_cpu k k' ->
  space kernel_end (tables 3 (k_mem k) pt ++ pages) pt g (k_mem k) pages' k' ->
  kspace rest pt g pages' k' /\ kept rest k k'.
Proof using All.
  intros Hs Hcpu [Hk' Hp' Hm' Hfr']. split.
  - split; [done| |done].
    rewrite <- (ks_all _ _ _ _ _ Hs), (Permutation_app_comm rest pages'), app_assoc, Hp', <- app_assoc.
    apply Permutation_app_head, Permutation_app_comm.
  - split; [done| |].
    + intros b Hb. apply Hfr'. by apply (ks_apart _ _ _ _ _ Hs).
    + intros b Hb. apply Hfr'. intros Hb'. by apply Hb, (ks_inside _ _ _ _ _ Hs).
Qed.
Lemma ks_F rest pt f pages k : kspace rest pt f pages k ->
  Forall (page_ok kernel_end) (tables 3 (k_mem k) pt ++ pages) /\ NoDup (tables 3 (k_mem k) pt ++ pages).
Proof using All.
  intros Hs. split.
  - apply Forall_forall. intros p Hp. apply (ks_ok _ _ _ _ _ Hs). apply elem_of_app in Hp. tauto.
  - pose proof (ks_nodup _ _ _ _ _ Hs) as Hn. rewrite (Permutation_app_comm rest), app_assoc in Hn.
    by apply NoDup_app in Hn as [? _].
Qed.

(** With whatever memory: all of it is mapped, or a prefix and memory is out. *)
Lemma ks_mappages_any rest pt f pages k va size pa perm :
  kspace rest pt f pages k ->
  0 <= va -> 0 < size -> va + size <= MAXVA -> 0 <= pa -> pa + size < 2 ^ 63 + 2 ^ 62 ->
  let n := (va + size - 1) / PGSIZE - va / PGSIZE + 1 in
  (forall va', va / PGSIZE <= va' / PGSIZE < va / PGSIZE + n -> valid (f va') = false) ->
  wp (mappages pt va size pa perm) (fun r k' => kept rest k k' /\ exists j pages',
     kspace rest pt (mapped f va pa perm j) pages' k'
     /\ (length pages <= length pages' + 3 * Z.to_nat n)%nat
     /\ ((r = 0 /\ j = n) \/ (r = -1 /\ 0 <= j < n /\ pages' = []))) k.
Proof using All.
  intros Hs Hva Hsz Hmax Hpa Hpa' n Hinv.
  pose proof (ks_space _ _ _ _ _ Hs) as Hsp. destruct (ks_F _ _ _ _ _ Hs) as [HF HFn].
  eapply wp_mono; [apply (mappages_ok kernel_end Hend _ HF HFn pt (k_mem k) f pages k va size pa perm Hsp); done|].
  fold n. intros r k' (Hcpu & j & pages' & Hs' & Hc & Hr). destruct (ks_of_space _ _ _ _ _ _ _ _ Hs Hcpu Hs') as [Hs2 Hk].
  split; [done|]. by exists j, pages'.
Qed.
(** With enough memory. *)
Lemma ks_mappages rest pt f pages k va size pa perm :
  kspace rest pt f pages k ->
  0 <= va -> 0 < size -> va + size <= MAXVA -> 0 <= pa -> pa + size < 2 ^ 63 + 2 ^ 62 ->
  let n := (va + size - 1) / PGSIZE - va / PGSIZE + 1 in
  (forall va', va / PGSIZE <= va' / PGSIZE < va / PGSIZE + n -> valid (f va') = false) ->
  3 * n < Z.of_nat (length pages) ->
  wp (mappages pt va size pa perm) (fun r k' => r = 0 /\ kept rest k k' /\ exists pages',
     kspace rest pt (mapped f va pa perm n) pages' k'
     /\ Z.of_nat (length pages) <= Z.of_nat (length pages') + 3 * n) k.
Proof using All.
  intros Hs Hva Hsz Hmax Hpa Hpa' n Hinv Hlen. assert (0 < n) as Hn by (unfold n, PGSIZE; zlia).
  eapply wp_mono; [by apply (ks_mappages_any rest pt f)|]. fold n. intros r k' (Hk & j & pages' & Hs' & Hc & Hr).
  destruct Hr as [[-> ->]|(-> & Hj & ->)]; [|exfalso; simpl in Hc; clearbody n; lia].
  split; [done|]. split; [done|]. exists pages'. split; [done|]. clearbody n. lia.
Qed.

Lemma mapped_one f va pa perm v : va mod PGSIZE = 0 ->
  mapped f va pa perm 1 v = upd_page f va (leaf pa perm) v.
Proof using Type.
  intros Hal. unfold mapped, upd_page. destruct (decide (v / PGSIZE = va / PGSIZE)) as [E|E].
  - rewrite decide_True by lia. by rewrite E, Z.sub_diag, Z.mul_0_l, Z.add_0_r.
  - by rewrite decide_False by lia.
Qed.
Lemma ks_ext rest pt f g pages k : (forall va, 0 <= va < 2 ^ 48 -> f va = g va) ->
  kspace rest pt f pages k -> kspace rest pt g pages k.
Proof using Type. intros H [Hk Hp Hm]. split; [done|done|]. intros va Hva. by rewrite Hm, H. Qed.

(** One page. *)
Lemma ks_mappage rest pt f pages k va pa perm :
  kspace rest pt f pages k ->
  0 <= va -> va mod PGSIZE = 0 -> va + PGSIZE <= MAXVA -> 0 <= pa -> pa + PGSIZE < 2 ^ 63 + 2 ^ 62 ->
  (forall v, v / PGSIZE = va / PGSIZE -> valid (f v) = false) ->
  (4 <= length pages)%nat ->
  wp (mappages pt va PGSIZE pa perm) (fun r k' => r = 0 /\ kept rest k k' /\ exists pages',
     kspace rest pt (upd_page f va (leaf pa perm)) pages' k'
     /\ (length pages <= length pages' + 3)%nat) k.
Proof using All.
  intros Hs Hva Hal Hmax Hpa Hpa' Hinv Hlen.
  assert ((va + PGSIZE - 1) / PGSIZE - va / PGSIZE + 1 = 1) as Hn by (unfold PGSIZE in *; zlia).
  eapply wp_mono; [apply (ks_mappages rest pt f pages k va PGSIZE pa perm Hs); try done; rewrite ?Hn|].
  - intros v Hv. apply Hinv. lia.
  - lia.
  - intros r k' (-> & Hk & pages' & Hs' & Hc). rewrite Hn in Hs', Hc. split; [done|]. split; [done|].
    exists pages'. split; [|lia]. eapply ks_ext; [|done]. intros v _. by apply mapped_one.
Qed.

(** One page, with whatever memory. *)
Lemma ks_mappage_any rest pt f pages k va pa perm :
  kspace rest pt f pages k ->
  0 <= va -> va mod PGSIZE = 0 -> va + PGSIZE <= MAXVA -> 0 <= pa -> pa + PGSIZE < 2 ^ 63 + 2 ^ 62 ->
  (forall v, v / PGSIZE = va / PGSIZE -> valid (f v) = false) ->
  wp (mappages pt va PGSIZE pa perm) (fun r k' => kept rest k k' /\ exists pages',
     (length pages <= length pages' + 3)%nat
     /\ ((r = 0 /\ kspace rest pt (upd_page f va (leaf pa perm)) pages' k')
         \/ (r = -1 /\ pages' = [] /\ kspace rest pt f pages' k'))) k.
Proof using All.
  intros Hs Hva Hal Hmax Hpa Hpa' Hinv.
  assert ((va + PGSIZE - 1) / PGSIZE - va / PGSIZE + 1 = 1) as Hn by (unfold PGSIZE in *; zlia).
  eapply wp_mono; [apply (ks_mappages_any rest pt f pages k va PGSIZE pa perm Hs); try done; rewrite ?Hn|].
  - intros v Hv. apply Hinv. lia.
  - rewrite Hn. intros r k' (Hk & j & pages' & Hs' & Hc & Hr). split; [done|]. exists pages'. split; [lia|].
    destruct Hr as [[-> ->]|(-> & Hj & ->)]; [left|right]; (split; [done|]).
    + eapply ks_ext; [|exact Hs']. intros v _. by apply mapped_one.
    + split; [done|]. eapply ks_ext; [|exact Hs']. intros v _. unfold mapped. by rewrite decide_False by lia.
Qed.

(** ** Handing out a page, and writing to one *)

Lemma ks_kalloc rest pt f p pages k :
  kspace rest pt f (p :: pages) k ->
  wp kalloc (fun r k' => r = p /\ p <> 0 /\ page_ok kernel_end p /\ (p ∉ rest)
     /\ (p ∉ tables 3 (k_mem k) pt) /\ kept (tables 3 (k_mem k) pt ++ rest) k k' /\ kspace (p :: rest) pt f pages k') k.
Proof using All.
  intros Hs. pose proof (ks_nodup _ _ _ _ _ Hs) as Hn. pose proof (ks_pages _ _ _ _ _ Hs) as Hpg.
  destruct Hs as [Hk Hp Hm].
  eapply wp_mono; [apply (kalloc_ok kernel_end page_end (p :: pages)), Hk|].
  intros r k' (Hkpt & Hcrit & -> & Hpok & Hnin & Hk' & Hm').
  assert (tables 3 (k_mem k) pt ++ rest ++ p :: pages ≡ₚ (tables 3 (k_mem k) pt ++ rest) ++ (p :: pages)) as E
    by by rewrite app_assoc.
  rewrite E in Hn, Hpg.
  assert (p ∉ tables 3 (k_mem k) pt ++ rest) as Hnp.
  { intros Hin. apply NoDup_app in Hn as (_ & Hd & _). apply (Hd p Hin). left. }
  assert (agree (k_mem k) (k_mem k') (tables 3 (k_mem k) pt ++ rest)) as Hag.
  { intros b Hb. rewrite Hm', rd8_memset_page. rewrite decide_False; [done|]. intros Hbp.
    apply (on_disjoint kernel_end _ _ b Hpg Hn Hb). exists p. split; [left|done]. }
  assert (agree (k_mem k) (k_mem k') (tables 3 (k_mem k) pt)) as Hagt
    by (eapply agree_mono; [|exact Hag]; intros q Hq; apply elem_of_app; by left).
  destruct (tables_ext 3 _ _ pt Hagt) as (Ht & _ & Hx).
  split; [done|]. split; [destruct Hpok as [_ ?]; pose proof page_end; lia|]. split; [done|].
  rewrite elem_of_app in Hnp. split; [tauto|]. split; [tauto|]. split.
  - split; [split; [done|]; intros [_ Hset]; by rewrite Hcrit|done|].
    intros b Hb. rewrite Hm', rd8_memset_page. rewrite decide_False; [done|]. intros Hbp.
    apply Hb. exists p. split; [|done]. rewrite <- Hp, !elem_of_app. right. right. left.
  - split; [done| |].
    + rewrite Ht, <- Hp. apply Permutation_app_head. by rewrite <- app_comm_cons, Permutation_middle.
    + intros va Hva. rewrite Hx. by apply Hm.
Qed.

Lemma ks_kalloc_none rest pt f k : kspace rest pt f [] k ->
  wp kalloc (fun r k' => r = 0 /\ kept rest k k' /\ kspace rest pt f [] k') k.
Proof using All.
  intros [Hk Hp Hm]. eapply wp_mono; [apply (kalloc_ok kernel_end page_end []), Hk|].
  intros r k' (Hkpt & Hcrit & -> & Hk' & Em). split; [done|]. split.
  - split; [split; [done|]; intros [_ Hset]; by rewrite Hcrit| |]; [intros b _|intros b _]; by rewrite Em.
  - split; [done|by rewrite Em|by rewrite Em].
Qed.

(** A write inside page [p], which is handed out. *)
Lemma ks_write rest pt f pages k p m' :
  kspace rest pt f pages k -> p ∈ rest ->
  (forall b, ~ (p <= b < p + PGSIZE) -> rd8 m' b = rd8 (k_mem k) b) ->
  kspace rest pt f pages (update k_mem_l m' k)
  /\ forall ps, (forall q, q ∈ ps -> page_ok kernel_end q) -> (p ∉ ps) -> kept ps k (update k_mem_l m' k).
Proof using All.
  intros Hs Hp Hm'. pose proof (ks_ok _ _ _ _ _ Hs p (or_intror (or_introl Hp))) as Hpok.
  assert (forall ps, (forall q, q ∈ ps -> page_ok kernel_end q) -> (p ∉ ps) -> agree (k_mem k) m' ps) as Hag.
  { intros ps Hps Hn b (q & Hq & Hb). apply Hm'. intros Hb'. revert Hb.
    apply (off_page kernel_end p q b Hpok (Hps q Hq)); [by intros ->|done]. }
  pose proof (ks_nodup _ _ _ _ _ Hs) as Hn.
  assert (forall q, q ∈ tables 3 (k_mem k) pt \/ q ∈ pages -> q <> p) as Hne.
  { intros q Hq ->. apply NoDup_app in Hn as (_ & Hd1 & Hn). apply NoDup_app in Hn as (_ & Hd2 & _).
    destruct Hq as [Hq|Hq]; [apply (Hd1 p Hq), elem_of_app; by left|by apply (Hd2 p Hp)]. }
  split.
  - destruct (tables_ext 3 (k_mem k) m' pt) as (Ht & _ & Hx).
    { apply Hag; [intros q Hq; apply (ks_ok _ _ _ _ _ Hs); tauto|]. intros Hin. by apply (Hne p); [left|]. }
    destruct Hs as [Hk Hpp Hm]. split; cbn.
    + apply kmem_ok_mem; [done|]. apply Hag; [|intros Hin; by apply (Hne p); [right|]].
      intros q Hq. pose proof (km_pages _ _ _ Hk) as H. rewrite Forall_forall in H. auto.
    + by rewrite Ht.
    + intros va Hva. rewrite Hx. by apply Hm.
  - intros ps Hps Hnp. split; [done|by apply Hag|]. intros b Hb. apply Hm'. intros Hb'. apply Hb.
    exists p. split; [|done]. rewrite <- (ks_all _ _ _ _ _ Hs), !elem_of_app. tauto.
Qed.

Lemma ks_perm rest rest' pt f pages k : rest ≡ₚ rest' -> kspace rest pt f pages k -> kspace rest' pt f pages k.
Proof using Type. intros E [Hk Hp Hm]. split; [done|by rewrite <- E|done]. Qed.

(** Giving a page back. *)
Lemma ks_kfree rest pt f pages k p : kspace (p :: rest) pt f pages k ->
  wp (kfree kernel_end p) (fun _ k' => kspace rest pt f (p :: pages) k' /\ kept (tables 3 (k_mem k) pt ++ rest) k k') k.
Proof using All.
  intros Hs. pose proof (ks_ok _ _ _ _ _ Hs p ltac:(right; left; left)) as Hpok.
  pose proof (ks_nodup _ _ _ _ _ Hs) as Hn. pose proof (ks_pages _ _ _ _ _ Hs) as Hpg.
  assert (tables 3 (k_mem k) pt ++ (p :: rest) ++ pages ≡ₚ (tables 3 (k_mem k) pt ++ rest) ++ p :: pages) as E.
  { rewrite <- !app_assoc. apply Permutation_app_head. cbn [app]. apply Permutation_middle. }
  rewrite E in Hn, Hpg. apply NoDup_app in Hn as Hn'. destruct Hn' as (_ & Hd & Hn').
  apply NoDup_cons in Hn' as [Hnp _].
  assert (p ∉ tables 3 (k_mem k) pt ++ rest) as Hnr by (intros Hin; apply (Hd p Hin); left).
  eapply wp_mono; [apply (kfree_ok kernel_end page_end pages p k (ks_kmem _ _ _ _ _ Hs) Hpok Hnp)|].
  intros [] k' (Hk' & Hkpt & Hh & Hm).
  assert (agree (k_mem k) (k_mem k') (tables 3 (k_mem k) pt ++ rest)) as Hag.
  { intros b Hb. apply Hm. intros Hb'. apply (on_disjoint kernel_end _ _ b Hpg Hn Hb). exists p. split; [left|done]. }
  destruct (tables_ext 3 (k_mem k) (k_mem k') pt) as (Ht & _ & Hx); [by eapply agree_mono; [|exact Hag]; intros c Hc; apply elem_of_app; left|].
  split.
  - split; [done| |intros va Hva; rewrite Hx; by apply (ks_map _ _ _ _ _ Hs)].
    rewrite Ht, <- (ks_all _ _ _ _ _ Hs), E, <- app_assoc. done.
  - split; [split; [done|]; intros [_ Hc]; by rewrite Hh|done|]. intros b Hb. apply Hm. intros Hb'. apply Hb.
    exists p. split; [|done]. rewrite <- (ks_all _ _ _ _ _ Hs), !elem_of_app, elem_of_cons. tauto.
Qed.

(** Writing an entry. *)
Lemma ks_store rest pt f pages k va a e : kspace rest pt f pages k -> 0 <= va < 2 ^ 48 ->
  wlk 3 (k_mem k) pt va = Some a ->
  let k' := update k_mem_l (wr64 (k_mem k) a e) k in
  kspace rest pt (upd_page f va (u64 e)) pages k' /\ kept rest k k'.
Proof using All.
  intros Hs Hva Ha k'. destruct (ks_F _ _ _ _ _ Hs) as [HF HFn].
  apply (ks_of_space _ _ _ _ _ _ _ _ Hs); [done|].
  exact (store_space kernel_end _ HF HFn pt (k_mem k) f pages k va a e (ks_space _ _ _ _ _ Hs) Hva Ha).
Qed.

(** The body of the loop of [vmunmap], which frees the page. *)
Definition unmap_page (pt a : Z) : M kst unit :=
  pte ← walk pt a 0;
  if pte =? 0 then panic "vmunmap: walk"
  else
    e ← load pte;
    if negb (valid e) then panic "vmunmap: not mapped"
    else if PTE_FLAGS e =? PTE_V then panic "vmunmap: not a leaf"
    else
      _ ← when (truth 1) (kfree kernel_end (Z.lor (PTE2PA e) DMWIN_MASK));
      store pte 0.
Lemma ks_unmap rest pt f pages k p va : kspace (p :: rest) pt f pages k -> 0 <= va < MAXVA ->
  valid (f va) = true -> PTE_FLAGS (f va) <> PTE_V -> PTE2PA (f va) = p ->
  wp (unmap_page pt va) (fun _ k' => kspace rest pt (upd_page f va 0) (p :: pages) k' /\ kept rest k k') k.
Proof using All.
  intros Hs Hva Hv Hfl Hp. pose proof maxva_48. unfold unmap_page. apply wp_bind.
  eapply wp_eq; [by apply walk_look|]. pose proof (ks_map _ _ _ _ _ Hs va ltac:(lia)) as Hx. unfold xlate in Hx.
  destruct (wlk 3 (k_mem k) pt va) as [a|] eqn:Ew; [|by rewrite <- Hx in Hv].
  pose proof (wlk_pos _ _ _ _ _ Ew). cbn [default from_option id]. rewrite (proj2 (Z.eqb_neq a 0)) by lia.
  apply wp_bind, wp_gets. rewrite Hx, Hv. cbn [negb]. rewrite (proj2 (Z.eqb_neq _ _)) by done.
  rewrite PTE2PA_dmwin, Hp. cbn [truth Z.eqb negb when]. apply wp_bind. eapply wp_mono; [by apply ks_kfree|].
  intros [] k1 [Hs1 Hk1]. unfold store. apply wp_md. change (view k_mem_l k1) with (k_mem k1).
  assert (wlk 3 (k_mem k1) pt va = Some a) as Ew1.
  { destruct (tables_ext 3 (k_mem k) (k_mem k1) pt) as (_ & -> & _); [|done].
    eapply agree_mono; [|exact (kp_mem _ _ _ Hk1)]. intros c Hc. apply elem_of_app. by left. }
  destruct (ks_store _ _ _ _ _ va a 0 Hs1 ltac:(lia) Ew1) as [Hs2 Hk2]. split; [exact Hs2|].
  eapply kept_trans; [|exact Hk2]. eapply kept_sub; [|exact Hk1]. intros c Hc. apply elem_of_app. by right.
Qed.

(** [kalloc] and the page cleared, which is how tables and user pages are made. *)
Lemma ks_zeroed rest pt f p pages k {A} (e : M kst A) (m : Z -> M kst A) (Q : A -> kst -> Prop) :
  kspace rest pt f (p :: pages) k ->
  (forall k', page_ok kernel_end p -> (p ∉ rest) -> (p ∉ tables 3 (k_mem k) pt) ->
     kept (tables 3 (k_mem k) pt ++ rest) k k' -> kspace (p :: rest) pt f pages k' ->
     (forall b, p <= b < p + PGSIZE -> rd8 (k_mem k') b = 0) -> wp (m p) Q k') ->
  wp (pa ← kalloc; if pa =? 0 then e else _ ← md k_mem_l (fun m => memset m pa 0 PGSIZE); m pa) Q k.
Proof using All.
  intros Hs Hm. apply wp_bind. eapply wp_mono; [by apply ks_kalloc|].
  intros r k1 (-> & H0 & Hok & Hr & Ht & Hk & Hs1). rewrite (proj2 (Z.eqb_neq p 0)) by done.
  apply wp_bind, wp_md.
  destruct (ks_write _ _ _ _ _ p (memset (k_mem k1) p 0 PGSIZE) Hs1) as [Hs2 Hk2].
  { left. }
  { intros b Hb. rewrite rd8_memset_page. by rewrite decide_False. }
  apply Hm; try done.
  - eapply kept_trans; [exact Hk|]. apply Hk2.
    + intros q [Hq|Hq]%elem_of_app; apply (ks_ok _ _ _ _ _ Hs); tauto.
    + rewrite elem_of_app. tauto.
  - intros b Hb. cbn. rewrite rd8_memset_page. by rewrite decide_True.
Qed.

Lemma ks_freemem rest pt f pages k : kspace rest pt f pages k ->
  wp (freemem_amount) (fun _ k' => kspace rest pt f pages k' /\ k_mem k' = k_mem k /\ forall ps, kept ps k k') k.
Proof using Type.
  intros [[Hc Hl Hch Hpg Hn Hnp] Hp Hm]. destruct k as [h lk fl n m kpt o]. cbn in *.
  eapply wp_eq; [by apply freemem_eq|]. split; [|split; [done|]].
  - split; [|done|done]. split; try done. by apply calm_crit.
  - intros ps. split; [|by intros b _|done]. split; [done|]. by intros [_ Hcr].
Qed.
(** The processor entering or leaving a section. *)
Lemma ks_hart rest pt f pages k h : calm h -> kspace rest pt f pages k -> kspace rest pt f pages (update k_hart_l h k).
Proof using Type. intros Hh [[] Hp Hm]. split; [by split|done|done]. Qed.

(** A page handed out and cleared is a table without entries: the space it is
    the root of, beside the tables of the old one. *)
Lemma ks_switch rest rest' pt f pages k q : kspace rest pt f pages k -> rest ≡ₚ q :: rest' ->
  (forall b, q <= b < q + PGSIZE -> rd8 (k_mem k) b = 0) ->
  tables 3 (k_mem k) q = [q] /\ kspace (tables 3 (k_mem k) pt ++ rest') q (fun _ => 0) pages k.
Proof using Type.
  intros [Hk Hp Hm] E Hz.
  assert (forall n b, q <= b -> b + Z.of_nat n <= q + PGSIZE -> rdn n (k_mem k) b = 0) as Hz'.
  { induction n as [|n IH]; intros b H1 H2; [done|]. cbn [rdn]. rewrite Hz, IH by lia. done. }
  destruct (fresh_table 3 (k_mem k) q) as [Ht Hx].
  { intros i Hi. apply Hz'; unfold slot, PGSIZE; lia. }
  split; [done|]. split; [done| |by intros; apply Hx].
  rewrite Ht, <- Hp, E, <- app_assoc. cbn [app]. apply Permutation_middle.
Qed.

(** The first table of all: a free page, taken and cleared. *)
Lemma ks_first p pages k m' : kmem_ok kernel_end pages k -> p :: pages ≡ₚ all -> (p ∉ pages) ->
  m' = memset (k_mem k) p 0 PGSIZE -> let k' := update k_mem_l m' k in
  kspace [] p (fun _ => 0) pages k' /\ kept [] k k'.
Proof using All.
  intros Hk Hp Hnin Em k'. assert (page_ok kernel_end p) as Hpok.
  { rewrite Forall_forall in Hall. apply Hall. rewrite <- Hp. left. }
  assert (forall b, p <= b < p + PGSIZE -> rd8 (k_mem k') b = 0) as Hz
    by (intros b Hb; change (k_mem k') with m'; rewrite Em; rewrite rd8_memset_page; by rewrite decide_True).
  assert (forall n b, p <= b -> b + Z.of_nat n <= p + PGSIZE -> rdn n (k_mem k') b = 0) as Hz'.
  { induction n as [|n IH]; intros b H1 H2; [done|]. cbn [rdn]. rewrite Hz, IH by lia. done. }
  destruct (fresh_table 3 (k_mem k') p) as [Ht Hx].
  { intros i Hi. apply Hz'; unfold slot, PGSIZE; lia. }
  assert (forall b, ~ (p <= b < p + PGSIZE) -> rd8 (k_mem k') b = rd8 (k_mem k) b) as Hm.
  { intros b Hb. change (k_mem k') with m'. rewrite Em. rewrite rd8_memset_page. by rewrite decide_False. }
  clear Em. split.
  - split; [|by rewrite Ht|by intros; apply Hx]. apply kmem_ok_mem; [done|].
    intros b (q & Hq & Hb). apply Hm. pose proof (km_pages _ _ _ Hk) as H. rewrite Forall_forall in H.
    intros Hb'. revert Hb. apply (off_page kernel_end p q b Hpok (H q Hq)); [intros ->; exact (Hnin Hq)|exact Hb'].
  - split; [done|by intros b (q & ?%not_elem_of_nil & _)|]. intros b Hb. apply Hm. intros Hb'. apply Hb.
    exists p. split; [rewrite <- Hp; left|done].
Qed.

(** ** A list of pages mapped *)

(** [f] with the pages of [l], each with the permissions [perm] gives it. *)
Definition with_perms (perm : Z -> Z) (l : list (Z * Z)) (f : Z -> Z) : Z -> Z :=
  foldl (fun g '(va, pa) => upd_page g va (leaf pa (perm va))) f l.
Definition with_pages (perm : Z) : list (Z * Z) -> (Z -> Z) -> Z -> Z := with_perms (fun _ => perm).

Lemma with_perms_snoc perm l va pa f :
  with_perms perm (l ++ [(va, pa)]) f = upd_page (with_perms perm l f) va (leaf pa (perm va)).
Proof using Type. unfold with_perms. by rewrite foldl_app. Qed.
Lemma with_perms_out perm l f v :
  (forall x, x ∈ l -> v / PGSIZE <> x.1 / PGSIZE) -> with_perms perm l f v = f v.
Proof using Type.
  induction l as [|[va pa] l IH] using rev_ind; intros H; [done|].
  rewrite with_perms_snoc. unfold upd_page. rewrite decide_False.
  - apply IH. intros x Hx. apply H, elem_of_app. by left.
  - apply (H (va, pa)), elem_of_app. right. left.
Qed.
Lemma with_perms_in perm l f va pa v : NoDup ((fun x => x.1 / PGSIZE) <$> l) ->
  (va, pa) ∈ l -> v / PGSIZE = va / PGSIZE -> with_perms perm l f v = leaf pa (perm va).
Proof using Type.
  induction l as [|[va' pa'] l IH] using rev_ind; intros Hn Hin Hv; [by apply not_elem_of_nil in Hin|].
  rewrite fmap_app in Hn. apply NoDup_app in Hn as (Hn & Hd & _). rewrite with_perms_snoc. unfold upd_page.
  apply elem_of_app in Hin as [Hin|Hin].
  - rewrite decide_False; [by apply IH|]. rewrite Hv. intros E.
    apply (Hd (va / PGSIZE)); [by apply list_elem_of_fmap; exists (va, pa)|]. cbn. rewrite E. left.
  - apply list_elem_of_singleton in Hin as [= -> ->]. by rewrite decide_True.
Qed.

Lemma with_pages_snoc perm l va pa f :
  with_pages perm (l ++ [(va, pa)]) f = upd_page (with_pages perm l f) va (leaf pa perm).
Proof using Type. apply with_perms_snoc. Qed.
Lemma with_pages_out perm l f v :
  (forall x, x ∈ l -> v / PGSIZE <> x.1 / PGSIZE) -> with_pages perm l f v = f v.
Proof using Type. apply with_perms_out. Qed.
Lemma with_pages_in perm l f va pa v : NoDup ((fun x => x.1 / PGSIZE) <$> l) ->
  (va, pa) ∈ l -> v / PGSIZE = va / PGSIZE -> with_pages perm l f v = leaf pa perm.
Proof using Type. exact (with_perms_in (fun _ => perm) l f va pa v). Qed.

(** ** A list of pages unmapped *)

Definition unmapped (l : list Z) (f : Z -> Z) : Z -> Z := foldl (fun g va => upd_page g va 0) f l.
Lemma unmapped_out l f v : (forall va, va ∈ l -> v / PGSIZE <> va / PGSIZE) -> unmapped l f v = f v.
Proof using Type.
  revert f. induction l as [|va l IH]; intros f H; [done|]. cbn [unmapped foldl]. change (foldl _ ?g l) with (unmapped l g).
  rewrite IH by (intros x Hx; apply H; by right). unfold upd_page. rewrite decide_False; [done|]. apply H. left.
Qed.
Lemma unmapped_in l f va v : va ∈ l -> v / PGSIZE = va / PGSIZE -> unmapped l f v = 0.
Proof using Type.
  intros Hin Hv. revert f. induction l as [|x l IH] using rev_ind; intros f; [by apply not_elem_of_nil in Hin|].
  unfold unmapped. rewrite foldl_app. cbn [foldl]. change (foldl _ f l) with (unmapped l f). unfold upd_page. case_decide; [done|].
  apply elem_of_app in Hin as [Hin|Hin%list_elem_of_singleton]; [by apply IH|congruence].
Qed.

Lemma ks_unmap_all rest pt : forall l ps f pages k, kspace (ps ++ rest) pt f pages k ->
  NoDup ((fun va => va / PGSIZE) <$> l) ->
  Forall2 (fun va p => 0 <= va < MAXVA /\ valid (f va) = true /\ PTE_FLAGS (f va) <> PTE_V /\ PTE2PA (f va) = p) l ps ->
  wp (for_each l (unmap_page pt)) (fun _ k' => exists pages', kspace rest pt (unmapped l f) pages' k' /\ kept rest k k') k.
Proof using All.
  induction l as [|va l IH]; intros ps f pages k Hs Hn Hl.
  - apply Forall2_nil_inv_l in Hl as ->. apply wp_mret. exists pages. split; [exact Hs|apply kept_refl].
  - apply Forall2_cons_inv_l in Hl as (p & ps' & (Hva & Hv & Hfl & Hp) & Hl & ->). cbn [fmap list_fmap] in Hn.
    apply NoDup_cons in Hn as [Hnin Hn]. cbn [for_each]. apply wp_bind.
    eapply wp_mono; [by apply (ks_unmap (ps' ++ rest) pt f pages k p va)|]. intros [] k1 [Hs1 Hk1].
    eapply wp_mono; [apply (IH ps' (upd_page f va 0) (p :: pages) k1 Hs1 Hn)|].
    + apply Forall2_lookup. intros i. pose proof (proj1 (Forall2_lookup _ _ _) Hl i) as Hi.
      destruct (l !! i) as [x|] eqn:Ex; inversion Hi as [y z Hyz Hy Hz|]; subst; constructor. unfold upd_page.
      rewrite decide_False; [done|]. intros E. apply Hnin. rewrite <- E.
      apply (list_elem_of_fmap_2 (fun va => va / PGSIZE)). by eapply list_elem_of_lookup_2.
    + intros [] k2 (pages' & Hs2 & Hk2). exists pages'. split; [exact Hs2|]. eapply kept_trans; [|exact Hk2].
      eapply kept_sub; [|exact Hk1]. intros c Hc. apply elem_of_app. by right.
Qed.

(** What a loop has done that gives each address of [vas] a page of its own. *)
Record mapped_in (k0 : kst) (n0 : nat) (rest : list Z) (pt : Z) (f : Z -> Z) (perm : Z) (vas ps pages : list Z)
    (k : kst) : Prop := {
  mi_len : length ps = length vas;
  mi_space : kspace (ps ++ rest) pt (with_pages perm (zip vas ps) f) pages k;
  mi_kept : kept rest k0 k;
  mi_cost : (n0 <= length pages + 4 * length vas)%nat;
  mi_zero : forall b, on ps b -> rd8 (k_mem k) b = 0
}.

Lemma mapped_in_nil k0 rest pt f perm pages : kspace rest pt f pages k0 ->
  mapped_in k0 (length pages) rest pt f perm [] [] pages k0.
Proof using Type.
  intros Hs. split; [done|exact Hs|apply kept_refl|lia|]. by intros b (p & ?%not_elem_of_nil & _).
Qed.

(** One more page: [kalloc], the page cleared, and mapped. *)
Lemma mapped_in_step {A} k0 n0 rest pt f perm vas ps pages k va (e : M kst A) (g : Z -> Z -> M kst A) (Q : A -> kst -> Prop) :
  mapped_in k0 n0 rest pt f perm vas ps pages k ->
  0 <= va -> va mod PGSIZE = 0 -> va + PGSIZE <= MAXVA ->
  (forall v, v / PGSIZE = va / PGSIZE -> valid (f v) = false) ->
  (forall v, v ∈ vas -> v / PGSIZE <> va / PGSIZE) ->
  (4 * length vas + 8 <= n0)%nat ->
  (forall p pages' k', mapped_in k0 n0 rest pt f perm (vas ++ [va]) (ps ++ [p]) pages' k' -> wp (g p 0) Q k') ->
  wp (pa ← kalloc; if pa =? 0 then e
      else _ ← md k_mem_l (fun m => memset m pa 0 PGSIZE);
           r ← mappages pt va PGSIZE pa perm; g pa r) Q k.
Proof using All.
  intros [Hlen Hs Hk Hc Hz] Hva Hal Hmax Hinv Hne Hn HQ.
  destruct pages as [|p pages]; [simpl in Hc; lia|].
  apply (ks_zeroed (ps ++ rest) pt (with_pages perm (zip vas ps) f) p pages k e
           (fun pa => r ← mappages pt va PGSIZE pa perm; g pa r) Q Hs).
  intros k1 Hok Hpr Hpt Hk1 Hs1 Hz1. apply wp_bind.
  assert (RAMSTOP < 2 ^ 63 + 2 ^ 62) as HR by done.
  eapply wp_mono; [apply (ks_mappage (p :: ps ++ rest) pt _ pages k1 va p perm Hs1); try done|].
  - destruct Hok as [_ ?]. pose proof page_end. lia.
  - destruct Hok as [Hal' ?]. pose proof page_end. assert (RAMSTOP mod PGSIZE = 0) by done. unfold PGSIZE in *. zlia.
  - intros v Hv. rewrite with_pages_out; [by apply Hinv|]. intros [a b] Hin. cbn. rewrite Hv.
    apply elem_of_zip_l in Hin. intros E. by apply (Hne a Hin).
  - simpl in Hc. lia.
  - intros r k2 (-> & Hk2 & pages' & Hs2 & Hc2). apply (HQ p pages').
    assert (kept (p :: ps ++ rest) k1 k2) as Hk2' by exact Hk2. split.
    + rewrite !length_app. simpl. lia.
    + rewrite zip_with_app by done. cbn [zip_with]. rewrite with_pages_snoc.
      eapply ks_perm; [|exact Hs2]. rewrite <- app_assoc. cbn [app].
      apply Permutation_middle.
    + eapply kept_trans; [exact Hk|]. eapply kept_trans; eapply kept_sub; [|exact Hk1| |exact Hk2'];
        intros q Hq; rewrite ?elem_of_cons, !elem_of_app; tauto.
    + rewrite length_app. simpl in *. lia.
    + intros b (q & Hq & Hb). assert (on (p :: ps ++ rest) b) as Hon.
      { exists q. split; [|done]. rewrite elem_of_cons, elem_of_app.
        rewrite elem_of_app, list_elem_of_singleton in Hq. tauto. }
      rewrite (kp_mem _ _ _ Hk2' b Hon). apply elem_of_app in Hq as [Hq|Hq].
      * rewrite (kp_mem _ _ _ Hk1); [apply Hz; by exists q|]. exists q. rewrite !elem_of_app. tauto.
      * apply list_elem_of_singleton in Hq as ->. by apply Hz1.
Qed.
End Space.
