(* ===== verification/BootMem.v ===== *)
(** The page tables made at start-up: the kernel's, with a stack for every
    process, and the pages of a user's area allocated by [uvmalloc1]. *)

From S2P Require Import Prelude Mem Locks Kalloc Vm PageTable Space.

(** The addresses of the pages of the kernel stacks, in the order they are
    mapped. *)
Definition stack_vas_of (p : Z) : list Z := (fun i => PROCVKSTACK p + i * PGSIZE) <$> seqZ 0 (KSTACKSIZE / PGSIZE).
Definition stack_vas : list Z := flat_map stack_vas_of (seqZ 0 NPROC).
(** What the kernel's table means: the two trampolines, and [ps] as the
    stacks. *)
Definition trampolines (trampoline signalTrampoline : Z) : Z -> Z :=
  upd_page (upd_page (fun _ => 0) TRAMPOLINE (leaf trampoline kvm_perm)) SIGTRAMPOLINE (leaf signalTrampoline kvm_perm).
Definition kernel_map (trampoline signalTrampoline : Z) (ps : list Z) : Z -> Z :=
  with_pages stack_perm (zip stack_vas ps) (trampolines trampoline signalTrampoline).

Lemma stack_vas_apart : NoDup ((fun va => va / PGSIZE) <$> stack_vas).
Proof. apply (bool_decide_unpack _). by vm_compute. Qed.
Lemma stack_vas_ok : Forall (fun va => 0 <= va /\ va mod PGSIZE = 0 /\ va + PGSIZE <= SIGTRAMPOLINE) stack_vas.
Proof. apply (bool_decide_unpack _). by vm_compute. Qed.
Lemma stack_vas_len : length stack_vas = 300%nat.
Proof. by vm_compute. Qed.

Lemma trampolines_out t s v : v / PGSIZE <> TRAMPOLINE / PGSIZE -> v / PGSIZE <> SIGTRAMPOLINE / PGSIZE ->
  trampolines t s v = 0.
Proof. intros H1 H2. unfold trampolines, upd_page. by rewrite !decide_False. Qed.

Section Boot.
Variable kernel_end : Z.
Context (Hend : DMWIN_MASK <= kernel_end <= RAMSTOP).
Context (all : list Z) (Hall : Forall (page_ok kernel_end) all) (Hnd : NoDup all).
Abbreviation kspace := (kspace kernel_end all).
Abbreviation mapped_in := (mapped_in kernel_end all).

(** The addresses of [todo] follow those of [dn]; none is mapped before. *)
Lemma fresh_next dn va todo l : l = dn ++ va :: todo -> NoDup ((fun va => va / PGSIZE) <$> l) ->
  forall v, v ∈ dn -> v / PGSIZE <> va / PGSIZE.
Proof using Type.
  intros -> Hn v Hv E. rewrite fmap_app in Hn. apply NoDup_app in Hn as (_ & Hd & _).
  apply (Hd (v / PGSIZE)); [by apply (list_elem_of_fmap_2 (fun va => va / PGSIZE))|]. rewrite E. left.
Qed.

Lemma mapstacks_ok rest kpt f pages k : kspace rest kpt f pages k ->
  (forall v, v / PGSIZE <> TRAMPOLINE / PGSIZE -> v / PGSIZE <> SIGTRAMPOLINE / PGSIZE -> valid (f v) = false) ->
  (1208 <= length pages)%nat ->
  wp (proc_mapstacks kpt) (fun _ k' => exists ps pages',
      mapped_in k (length pages) rest kpt f stack_perm stack_vas ps pages' k') k.
Proof using All.
  intros Hs Hf Hlen. unfold proc_mapstacks.
  apply (wp_for_each _ (fun dn k' => exists ps pages',
    mapped_in k (length pages) rest kpt f stack_perm (flat_map stack_vas_of dn) ps pages' k')).
  { exists [], pages. by apply mapped_in_nil. }
  2:{ done. }
  intros dn p todo k1 Edn (ps & pages1 & Hm). rewrite flat_map_app. cbn [flat_map]. rewrite app_nil_r.
  apply (wp_for_each _ (fun di k' => exists ps pages', mapped_in k (length pages) rest kpt f stack_perm
    (flat_map stack_vas_of dn ++ ((fun i => PROCVKSTACK p + i * PGSIZE) <$> di)) ps pages' k')).
  { exists ps, pages1. by rewrite app_nil_r. }
  2:{ done. }
  clear ps pages1 Hm. intros di i todi k2 Edi (ps & pages1 & Hm).
  set (va := PROCVKSTACK p + i * PGSIZE).
  assert (stack_vas = (flat_map stack_vas_of dn ++ ((fun i => PROCVKSTACK p + i * PGSIZE) <$> di))
            ++ va :: ((fun i => PROCVKSTACK p + i * PGSIZE) <$> todi) ++ flat_map stack_vas_of todo) as E.
  { unfold stack_vas. rewrite Edn, flat_map_app. cbn [flat_map]. unfold stack_vas_of at 2. rewrite Edi, fmap_app.
    cbn [fmap list_fmap]. by rewrite <- !app_assoc. }
  assert (va ∈ stack_vas) as Hin by (rewrite E; apply elem_of_app; right; left).
  pose proof stack_vas_ok as Hok. rewrite Forall_forall in Hok. destruct (Hok va Hin) as (H0 & Hal & Hmax).
  assert (SIGTRAMPOLINE + 3 * PGSIZE = MAXVA) as HM by done.
  pose proof (f_equal (@length Z) E) as El. rewrite stack_vas_len, length_app in El. simpl in El.
  eapply (mapped_in_step kernel_end Hend all Hall Hnd k _ rest kpt f stack_perm _ ps pages1 k2 va _
     (fun _ r => when (negb (r =? 0)) (panic "kvmmap"))); [exact Hm|done|done|unfold PGSIZE in *; lia| | | |].
  - intros v Hv. apply Hf; rewrite Hv; unfold SIGTRAMPOLINE, TRAPFRAME, TRAMPOLINE, PGSIZE in *; zlia.
  - exact (fresh_next _ va _ stack_vas E stack_vas_apart).
  - lia.
  - intros q pages' k' Hm'. cbn [when negb Z.eqb]. apply wp_mret. exists (ps ++ [q]), pages'.
    by rewrite fmap_app, app_assoc.
Qed.

Lemma kvm_maps_ok trampoline signalTrampoline kpt pages k :
  kspace [] kpt (fun _ => 0) pages k -> k_kpt k = kpt ->
  0 <= trampoline -> trampoline + PGSIZE < 2 ^ 63 + 2 ^ 62 ->
  0 <= signalTrampoline -> signalTrampoline + PGSIZE < 2 ^ 63 + 2 ^ 62 ->
  (1214 <= length pages)%nat ->
  wp (kvm_maps trampoline signalTrampoline) (fun _ k' => exists ps pages',
    length ps = 300%nat /\ kspace ps kpt (kernel_map trampoline signalTrampoline ps) pages' k'
    /\ kept all [] k k' /\ (length pages <= length pages' + 1206)%nat) k.
Proof using All.
  intros Hs Hkpt Ht1 Ht2 Hs1 Hs2 Hlen. unfold kvm_maps, kvmmap.
  apply wp_bind, wp_rd. change (view k_kpt_l k) with (k_kpt k). rewrite Hkpt.
  apply wp_bind, wp_bind, wp_md. set (ka := update k_said_l _ k).
  assert (kspace [] kpt (fun _ => 0) pages ka /\ kept all [] k ka) as [Hsa Hka]
    by (split; [by apply ks_says|apply kept_says]).
  apply wp_bind, wp_rd. change (view k_kpt_l ka) with (k_kpt k). rewrite Hkpt. apply wp_bind.
  eapply wp_mono; [apply (ks_mappage kernel_end Hend all Hall Hnd [] kpt _ pages ka TRAMPOLINE trampoline kvm_perm Hsa); done || lia|].
  intros r k1 (-> & Hk1 & pages1 & Hs1' & Hc1). cbn [negb Z.eqb when]. apply wp_mret.
  pose proof (proj1 (kp_cpu _ _ _ _ Hk1)) as Hkpt1. change (k_kpt ka) with (k_kpt k) in Hkpt1. rewrite Hkpt in Hkpt1.
  apply wp_bind, wp_bind, wp_md. set (kb := update k_said_l _ k1).
  assert (kspace [] kpt (upd_page (fun _ => 0) TRAMPOLINE (leaf trampoline kvm_perm)) pages1 kb /\ kept all [] k1 kb) as [Hsb Hkb]
    by (split; [by apply ks_says|apply kept_says]).
  apply wp_bind, wp_rd. change (view k_kpt_l kb) with (k_kpt k1). rewrite Hkpt1. apply wp_bind.
  eapply wp_mono; [apply (ks_mappage kernel_end Hend all Hall Hnd [] kpt _ pages1 kb SIGTRAMPOLINE signalTrampoline kvm_perm Hsb);
    try (done || lia)|].
  { intros v Hv. unfold upd_page. rewrite decide_False; [done|]. by rewrite Hv. }
  intros r k2 (-> & Hk2 & pages2 & Hs2' & Hc2). cbn [negb Z.eqb when]. apply wp_mret.
  eapply wp_mono; [apply (mapstacks_ok [] kpt _ pages2 k2 Hs2')|].
  - intros v H1 H2. by rewrite (trampolines_out trampoline signalTrampoline v H1 H2 : upd_page _ _ _ v = 0).
  - lia.
  - intros [] k3 (ps & pages3 & [Hl Hs3 Hk3 Hc3 _]). exists ps, pages3. rewrite app_nil_r in Hs3.
    split; [by rewrite Hl, stack_vas_len|]. split; [exact Hs3|]. split.
    + do 2 (eapply kept_trans; [eassumption|]). do 2 (eapply kept_trans; [eassumption|]). exact Hk3.
    + rewrite stack_vas_len in Hc3. lia.
Qed.

(** ** An area of user memory *)

Lemma wp_for_until_none {I B} (body : I -> M kst (option B)) (Inv : list I -> kst -> Prop) l (Q : option B -> kst -> Prop) s :
  Inv [] s ->
  (forall dn i todo s, l = dn ++ i :: todo -> Inv dn s ->
     wp (body i) (fun r s' => r = None /\ Inv (dn ++ [i]) s') s) ->
  (forall s, Inv l s -> Q None s) -> wp (for_until l body) Q s.
Proof using Type.
  intros H0 Hstep HQ. apply (wp_for_until_done _ Inv); [done| |done]. intros dn i todo s' E Hdn.
  eapply wp_mono; [by apply (Hstep dn i todo)|]. by intros r s'' [-> Hi].
Qed.

Lemma uvmalloc1_ok rest pt f pages k start end_ perm :
  kspace rest pt f pages k -> start < end_ ->
  Forall (fun va => 0 <= va /\ va mod PGSIZE = 0 /\ va + PGSIZE <= MAXVA
            /\ forall v, v / PGSIZE = va / PGSIZE -> valid (f v) = false) (steps start end_) ->
  NoDup ((fun va => va / PGSIZE) <$> steps start end_) ->
  (4 * length (steps start end_) + 8 <= length pages)%nat ->
  wp (uvmalloc1 kernel_end pt start end_ perm) (fun r k' => r = 0 /\ exists ps pages',
      mapped_in k (length pages) rest pt f perm (steps start end_) ps pages' k') k.
Proof using All.
  intros Hs Hlt Hok Hap Hlen. unfold uvmalloc1. destruct (Z.leb_spec end_ start); [lia|]. apply wp_bind.
  apply (wp_for_until_none _ (fun dn k' => exists ps pages',
    mapped_in k (length pages) rest pt f perm dn ps pages' k')).
  { exists [], pages. by apply mapped_in_nil. }
  2:{ intros s Hm. apply wp_mret. by split. }
  intros dn va todo k1 E (ps & pages1 & Hm). rewrite Forall_forall in Hok.
  destruct (Hok va) as (H0 & Hal & Hmax & Hf); [rewrite E; apply elem_of_app; right; left|].
  pose proof (f_equal (@length Z) E) as El. rewrite length_app in El. simpl in El.
  eapply (mapped_in_step kernel_end Hend all Hall Hnd k _ rest pt f perm _ ps pages1 k1 va _
    (fun mem r => if negb (r =? 0) then _ else mret None)); [exact Hm|done|done|done|done| | |].
  - exact (fresh_next _ va _ _ E Hap).
  - lia.
  - intros q pages' k' Hm'. cbn [negb Z.eqb]. apply wp_mret. split; [done|]. by exists (ps ++ [q]), pages'.
Qed.
End Boot.
