(* ===== verification/VmProps.v ===== *)
(** The properties of paging: mapping, looking up, copying, the layout of the
    kernel stacks, and what [freewalk] frees. *)

From S2P Require Import Prelude Mem Locks Kalloc Vm PageTable.

Lemma plv3_user pa perm : kpage pa -> Z.land (u64 (s32 perm)) PAMASK = 0 ->
  Z.land (u64 (s32 perm)) PTE_PLV3 <> 0 -> user_pa (leaf pa perm) = pa.
Proof.
  intros Hpa Hp Hu. unfold user_pa.
  assert (leaf pa perm = Z.lor (PA2PTE pa) (Z.lor (Z.lor (Z.lor (u64 (s32 perm)) PTE_V) PTE_MAT) PTE_D))
    as E by (unfold leaf; by rewrite !Z.lor_assoc).
  assert (valid (leaf pa perm) = true) as ->.
  { rewrite E. apply valid_lor. rewrite <- !Z.lor_assoc. by apply valid_lor. }
  cbn [negb]. rewrite (proj2 (Z.eqb_neq _ 0)).
  - rewrite E. apply PTE2PA_flags; [done|]. by rewrite !Z.land_lor_distr_l, Hp.
  - rewrite E, !Z.land_lor_distr_l. intros [_ [[[H _]%Z.lor_eq_0_iff _]%Z.lor_eq_0_iff
      _]%Z.lor_eq_0_iff]%Z.lor_eq_0_iff. done.
Qed.

(** C16. [mappages] maps exactly what it is asked to: with no page of the range
    mapped before, it returns 0 and then [walkaddr] takes every page of the
    range to its own physical page, or it returns -1 because memory ran out,
    having mapped a prefix of the range; every other address of the address
    space keeps its translation either way, the tables and the free list still
    share the same pages without overlap, and no byte outside those pages is
    written. *)
Theorem mappages_maps (kernel_end : Z) (F : list Z) (pt : Z) (f : Z -> Z) (m0 : mem)
    (pages : list Z) (k : kst) (va size pa perm : Z) :
  DMWIN_MASK <= kernel_end <= RAMSTOP -> Forall (page_ok kernel_end) F -> NoDup F ->
  space kernel_end F pt f m0 pages k ->
  0 <= va -> 0 < size -> va + size <= MAXVA -> kpage pa ->
  pa + size + PGSIZE < DMWIN_MASK + 2 ^ 48 ->
  Z.land (u64 (s32 perm)) PAMASK = 0 -> Z.land (u64 (s32 perm)) PTE_PLV3 <> 0 ->
  let first := va / PGSIZE in
  let last := (va + size - 1) / PGSIZE in
  (forall v, first <= v / PGSIZE <= last -> valid (f v) = false) ->
  wp (mappages pt va size pa perm)
    (fun r k' => exists j pages' f',
       ((r = 0 /\ j = last - first + 1) \/ (r = -1 /\ 0 <= j <= last - first /\ pages' = []))
       /\ space kernel_end F pt f' m0 pages' k'
       /\ (forall v, 0 <= v < MAXVA ->
             walkaddr pt v k'
             = if decide (first <= v / PGSIZE < first + j)
               then Ret (pa + (v / PGSIZE - first) * PGSIZE) k'
               else Ret (user_pa (f v)) (says (walk_says pt v (k_mem k')) k'))) k.
Proof.
  intros Hend HF HFn Hs Hva Hsz Hmax Hkp Hpa Hperm Hplv first last Hinv.
  assert (DMWIN_MASK + 2 ^ 48 < 2 ^ 63 + 2 ^ 62) as Hd by done.
  pose proof Hkp as [Hkp1 Hkp2]. unfold PGSIZE in Hpa, Hkp2. assert (0 < DMWIN_MASK) by done.
  eapply wp_mono.
  - apply (mappages_ok kernel_end Hend F HF HFn pt m0 f pages k va size pa perm Hs); try lia.
    intros v Hv. apply Hinv. unfold first, last. lia.
  - intros r k' (_ & j & pages' & Hs' & _ & Hr). exists j, pages', (mapped f va pa perm j).
    split; [|split; [done|]].
    + destruct Hr as [[-> ->]|(-> & ? & ->)]; [left|right]; (split; [done|]); unfold first, last; lia || (split; [lia|done]).
    + intros v Hv. pose proof maxva_48.
      assert (xlate 3 (k_mem k') pt v = mapped f va pa perm j v) as Ex by (apply (sp_map _ _ _ _ _ _ _ Hs'); lia).
      unfold mapped in Ex. fold first in Ex. destruct (decide _) as [Hin|].
      2:{ by rewrite walkaddr_eq, Ex by done. }
      assert (user_pa (xlate 3 (k_mem k') pt v) = pa + (v / PGSIZE - first) * PGSIZE) as Eu.
      { rewrite Ex. apply plv3_user; [|done..]. split; [|unfold PGSIZE; zlia].
        unfold PGSIZE in *. unfold first, last in *. split; [lia|]. zlia. }
      rewrite walkaddr_user, Eu; [done|done|]. rewrite Eu. unfold PGSIZE in *. lia.
Qed.

(** What [copyin] prints when it returns [r] at address [va]. *)
Definition copyin_says (r pt va : Z) (m : mem) : list kline :=
  copy_says r pt va m ++ (if r =? 0 then [] else [("copyin: pa0 is NULL", [])]).
Lemma says_app l l' k : says (l ++ l') k = says l' (says l k).
Proof. unfold says. cbn. by rewrite app_assoc. Qed.

Lemma copy_end f va len r c : (r = 0 /\ c = len) \/ (r = -1 /\ c < len /\ user_pa (f (PGROUNDDOWN (va + c))) = 0) ->
  (r = 0 /\ c = len) \/ (r = -1 /\ c < len /\ ~ user_ok f (va + c)).
Proof. unfold user_ok. intros [?|(-> & ? & ->)]; [by left|right; auto]. Qed.
Lemma copyin_end r pt v m k (Q : Z -> kst -> Prop) :
  Q r (says (copyin_says r pt v m) k) ->
  wp (_ ← when (negb (r =? 0)) (kprintf "copyin: pa0 is NULL" []); mret r) Q (says (copy_says r pt v m) k).
Proof.
  unfold copyin_says. rewrite says_app. destruct (r =? 0); [by rewrite says_nil|].
  intros HQ. by apply wp_bind, wp_md, wp_mret.
Qed.

(** C24. [copyin] copies user bytes to the kernel: if every page of the range is
    mapped for the user it returns 0 and the kernel buffer holds the user's
    bytes; otherwise it returns -1, having copied the bytes up to the first
    page the user cannot reach and said so; nothing but the buffer is
    written. *)
Theorem copyin_copies (pt : Z) (f : Z -> Z) (k : kst) (dst va len : Z) :
  maps pt f (k_mem k) -> 0 <= va -> 0 <= len -> va + len <= MAXVA ->
  (forall i, 0 <= i < len -> user_ok f (va + i) -> ~ dst <= uaddr f (va + i) < dst + len) ->
  (forall b, dst <= b < dst + len -> ~ on (tables 3 (k_mem k) pt) b) ->
  wp (copyin pt dst va len)
    (fun r k' => exists m' c, k' = says (copyin_says r pt (va + c) m') (update k_mem_l m' k)
       /\ 0 <= c <= len
       /\ ((r = 0 /\ c = len) \/ (r = -1 /\ c < len /\ ~ user_ok f (va + c)))
       /\ forall b, rd8 m' b = if decide (dst <= b < dst + c)
                               then rd8 (k_mem k) (uaddr f (va + (b - dst)))
                               else rd8 (k_mem k) b) k.
Proof.
  intros Hm Hva Hlen Hmax Hbuf Htab. unfold copyin.
  destruct (Z.ltb_spec MAXVA va); [lia|]. cbn [andb].
  pose proof (copy_loop pt f (fun p q n m => memmove m q p n) va dst len
    (copied_in f (k_mem k) dst va) Hva Hlen Hmax) as Hloop.
  specialize (Hloop (copied_in_maps pt f (k_mem k) dst va len Hm Htab)
    (fun c n m => copied_in_step f (k_mem k) dst va len Hva Hmax Hbuf c n m)
    0 k (Z.to_nat (len / PGSIZE + 3))).
  rewrite !Z.add_0_r, Z.sub_0_r in Hloop. unfold copy_pages. apply wp_bind.
  eapply wp_mono; [apply Hloop|].
  - lia.
  - intros b. by rewrite decide_False by lia.
  - lia.
  - unfold PGSIZE in *. destruct (_ =? 0); zlia.
  - intros r k' (m' & c & -> & HP & Hc & Hr). apply copyin_end. exists m', c.
    split; [done|]. split; [done|]. split; [by apply copy_end|exact HP].
Qed.

(** C25. [copyout] copies kernel bytes to the user: when the user's pages are
    distinct and apart from the source and the tables, it returns 0 and the
    user reads the source's bytes at the destination, or it returns -1 at the
    first page the user cannot reach, having said what is wrong with it; only
    user bytes of the range change. *)
Theorem copyout_copies (pt : Z) (f : Z -> Z) (k : kst) (va src len : Z) :
  maps pt f (k_mem k) -> 0 <= va -> 0 <= len -> va + len <= MAXVA ->
  PROCVKSTACK (NPROC - 1) <= src ->
  (forall i j, 0 <= i < len -> 0 <= j < len -> user_ok f (va + i) -> user_ok f (va + j) ->
     uaddr f (va + i) = uaddr f (va + j) -> i = j) ->
  (forall i, 0 <= i < len -> user_ok f (va + i) -> ~ src <= uaddr f (va + i) < src + len) ->
  (forall i, 0 <= i < len -> user_ok f (va + i) ->
     ~ on (tables 3 (k_mem k) pt) (uaddr f (va + i))) ->
  wp (copyout pt va src len)
    (fun r k' => exists m' c, k' = says (copy_says r pt (va + c) m') (update k_mem_l m' k)
       /\ 0 <= c <= len
       /\ ((r = 0 /\ c = len) \/ (r = -1 /\ c < len /\ ~ user_ok f (va + c)))
       /\ (forall i, 0 <= i < c -> rd8 m' (uaddr f (va + i)) = rd8 (k_mem k) (src + i))
       /\ (forall b, (forall i, 0 <= i < c -> b <> uaddr f (va + i)) ->
             rd8 m' b = rd8 (k_mem k) b)) k.
Proof.
  intros Hm Hva Hlen Hmax Hsrc Hinj Hoff Htab. unfold copyout.
  destruct (Z.ltb_spec MAXVA va); [lia|].
  destruct (Z.ltb_spec src (PROCVKSTACK (NPROC - 1))); [lia|].
  pose proof (copy_loop pt f (fun p q n m => memmove m p q n) va src len
    (copied_out f (k_mem k) va src) Hva Hlen Hmax) as Hloop.
  specialize (Hloop (copied_out_maps pt f (k_mem k) va src len Hm Htab)
    (fun c n m => copied_out_step f (k_mem k) va src len Hva Hmax Hinj Hoff c n m)
    0 k (Z.to_nat (len / PGSIZE + 3))).
  rewrite !Z.add_0_r, Z.sub_0_r in Hloop. unfold copy_pages.
  eapply wp_mono; [apply Hloop|].
  - lia.
  - split; [intros; lia|]. split; [intros; lia|done].
  - lia.
  - unfold PGSIZE in *. destruct (_ =? 0); zlia.
  - intros r k' (m' & c & -> & (_ & Hcp & Hrest) & Hc & Hr). exists m', c.
    split; [done|]. split; [done|]. split; [by apply copy_end|done].
Qed.

(** The kernel stacks are apart: the stacks of two processes never share a
    byte, below each of them lie two pages that belong to no stack, and all of
    them lie page-aligned below the trampolines and the trap frame. *)
Theorem kernel_stacks_disjoint (p q : Z) :
  0 <= p < NPROC -> 0 <= q < NPROC -> p <> q ->
  (PROCVKSTACK p + KSTACKSIZE <= PROCVKSTACK q - EXTRASIZE
   \/ PROCVKSTACK q + KSTACKSIZE <= PROCVKSTACK p - EXTRASIZE)
  /\ PROCVKSTACK p mod PGSIZE = 0
  /\ 0 < PROCVKSTACK p - EXTRASIZE
  /\ PROCVKSTACK p + KSTACKSIZE <= VKSTACK
  /\ VKSTACK < SIGTRAMPOLINE < TRAPFRAME
  /\ TRAPFRAME < TRAMPOLINE.
Proof.
  intros Hp Hq Hne. unfold PROCVKSTACK. rewrite !Z.rem_mod_nonneg by (unfold NPROC in *; lia).
  rewrite !Z.mod_small by (unfold NPROC in *; lia).
  unfold VKSTACK, SIGTRAMPOLINE, TRAPFRAME, TRAMPOLINE, KSTACKSIZE, EXTRASIZE, NPROC, PGSIZE in *.
  change MAXVA with 70368744177664. repeat split; try lia. zlia.
Qed.

Example kernel_stacks_disjoint_witness :
  (PROCVKSTACK 0 + KSTACKSIZE <= PROCVKSTACK 49 - EXTRASIZE
   \/ PROCVKSTACK 49 + KSTACKSIZE <= PROCVKSTACK 0 - EXTRASIZE)
  /\ PROCVKSTACK 0 mod PGSIZE = 0
  /\ 0 < PROCVKSTACK 0 - EXTRASIZE
  /\ PROCVKSTACK 0 + KSTACKSIZE <= VKSTACK
  /\ VKSTACK < SIGTRAMPOLINE < TRAPFRAME
  /\ TRAPFRAME < TRAMPOLINE.
Proof. apply kernel_stacks_disjoint; unfold NPROC; lia. Defined.

(** * [freewalk] *)

(** What [walk] leaves in a table: every valid entry points to a table. *)
Definition interior (m : mem) (pt : Z) : Prop :=
  forall i, 0 <= i < 512 -> valid (rd64 m (slot pt i)) = true ->
    exists q, rd64 m (slot pt i) = table_pte q.

Lemma table_pte_flags q : PTE_FLAGS (table_pte q) <> PTE_V.
Proof.
  unfold PTE_FLAGS, table_pte. rewrite Z.land_lor_distr_l. intros H.
  assert (Z.testbit PTE_V 63 = false) as Hf by done. rewrite <- H in Hf.
  rewrite Z.lor_spec in Hf. apply orb_false_iff in Hf as [_ Hf]. done.
Qed.

Lemma for_each_skip {S I} (l : list I) (body : I -> M S unit) s :
  (forall i, In i l -> body i s = Ret tt s) -> for_each l body s = Ret tt s.
Proof.
  induction l as [|i l IH]; intros H; [done|]. cbn [for_each].
  rewrite (bind_ret _ _ s tt s) by (apply H; by left).
  apply IH. intros j Hj. apply H. by right.
Qed.

(** [freewalk] never goes down: [walk] sets bit 63 in the entries that
    point to lower tables, [PTE_FLAGS] keeps that bit, so the test
    [PTE_FLAGS(pte) == PTE_V] fails for each of them and only the root page is
    freed; every lower page-table page is lost. *)
Theorem freewalk_frees_root_only (kernel_end : Z) (fuel : nat) (pt : Z) (k : kst) :
  interior (k_mem k) pt ->
  freewalk kernel_end (S fuel) pt k = kfree kernel_end pt k.
Proof.
  intros Hint. cbn [freewalk].
  rewrite (bind_ret _ _ k tt k); [done|].
  apply for_each_skip. intros i Hi%seqZ_In. unfold load. mrun.
  destruct (valid _) eqn:Hv; [|done]. cbn.
  destruct (Hint i ltac:(lia) Hv) as (q & ->).
  by rewrite (proj2 (Z.eqb_neq _ _) (table_pte_flags q)).
Qed.

(** * A small machine: five pages, a root table, and one mapped page *)

Definition pg (i : Z) : Z := RAMSTOP - i * PGSIZE.
Definition demo_end : Z := RAMSTOP - 5 * PGSIZE.
(** The root is page 5; pages 1, 2 and 3 are free; page 4 is a data page. *)
Definition demo_mem : mem := wr64 (wr64 ∅ (pg 1) (pg 2)) (pg 2) (pg 3).
Definition demo : kst := Kst hart1 (Spin 0 "kmem" None) (pg 1) 3 demo_mem 0 [].
Definition demo_perm : Z := Z.lor (Z.lor PTE_P PTE_W) PTE_PLV3.

(** The same with page 4 mapped at address 5 * PGSIZE, through tables in 1, 2, 3. *)
Definition demo_mapped_mem : mem :=
  wr64 (wr64 (wr64 (wr64 ∅ (slot (pg 5) 0) (table_pte (pg 1))) (slot (pg 1) 0) (table_pte (pg 2)))
    (slot (pg 2) 0) (table_pte (pg 3))) (slot (pg 3) 5) (leaf (pg 4) demo_perm).
Definition demo_mapped : kst := Kst hart1 (Spin 0 "kmem" None) 0 0 demo_mapped_mem 0 [].

Lemma rdn_empty n a : rdn n ∅ a = 0.
Proof. revert a. induction n as [|n IH]; intros a; [done|]. cbn [rdn]. by rewrite IH. Qed.

Lemma demo_space :
  space demo_end [pg 5; pg 1; pg 2; pg 3] (pg 5) (fun _ => 0) demo_mem [pg 1; pg 2; pg 3] demo.
Proof.
  assert (forall i, 0 <= i < 512 -> rd64 demo_mem (slot (pg 5) i) = 0) as Hz.
  { intros i Hi. unfold demo_mem.
    rewrite !rd64_wr64_ne by (unfold slot, pg, RAMSTOP, RAMBASE, PGSIZE; cbn; lia).
    apply rdn_empty. }
  destruct (fresh_table 3 demo_mem (pg 5) Hz) as [Ht Hx]. split.
  - split; [split; [apply hart1_ok|simpl; lia]|done| | | |done].
    + clear. by vm_compute.
    + clear. repeat constructor; by vm_compute.
    + apply (bool_decide_unpack _). clear. by vm_compute.
  - cbn. by rewrite Ht.
  - intros va _. apply Hx.
  - done.
Qed.

Example mappages_maps_witness :
  wp (mappages (pg 5) (5 * PGSIZE + 7) 10 (pg 4) demo_perm)
    (fun r k' => exists j pages' f',
       ((r = 0 /\ j = 5 - 5 + 1) \/ (r = -1 /\ 0 <= j <= 5 - 5 /\ pages' = []))
       /\ space demo_end [pg 5; pg 1; pg 2; pg 3] (pg 5) f' demo_mem pages' k'
       /\ (forall v, 0 <= v < MAXVA ->
             walkaddr (pg 5) v k'
             = if decide (5 <= v / PGSIZE < 5 + j)
               then Ret (pg 4 + (v / PGSIZE - 5) * PGSIZE) k'
               else Ret (user_pa 0) (says (walk_says (pg 5) v (k_mem k')) k'))) demo.
Proof.
  refine (mappages_maps demo_end [pg 5; pg 1; pg 2; pg 3] (pg 5) (fun _ => 0) demo_mem
    [pg 1; pg 2; pg 3] demo (5 * PGSIZE + 7) 10 (pg 4) demo_perm _ _ _ demo_space _ _ _ _ _ _ _ _).
  - by vm_compute.
  - repeat constructor; by vm_compute.
  - apply (bool_decide_unpack _). by vm_compute.
  - by vm_compute.
  - by vm_compute.
  - by vm_compute.
  - split; [split|]; by vm_compute.
  - by vm_compute.
  - by vm_compute.
  - by vm_compute.
  - intros v _. reflexivity.
Defined.

Lemma demo_tables : tables 3 demo_mapped_mem (pg 5) = [pg 5; pg 1; pg 2; pg 3].
Proof. by vm_compute. Qed.

Lemma demo_off a : a + 1 = pg 4 + 3 \/ a = pg 4 + 3 \/ a < pg 5 \/ RAMSTOP <= a ->
  ~ on (tables 3 demo_mapped_mem (pg 5)) a.
Proof.
  rewrite demo_tables. intros Ha (p & Hp & Hb). unfold pg, PGSIZE in *.
  repeat (apply elem_of_cons in Hp as [->|Hp]; [lia|]). by apply elem_of_nil in Hp.
Qed.

Definition demo_f : Z -> Z := xlate 3 demo_mapped_mem (pg 5).

Lemma demo_uaddr i : 0 <= i < 2 -> uaddr demo_f (5 * PGSIZE + 2 + i) = pg 4 + 2 + i.
Proof.
  intros Hi. assert (i = 0 \/ i = 1) as [-> | ->] by lia; by vm_compute.
Qed.

Example copyin_copies_witness :
  wp (copyin (pg 5) 1000 (5 * PGSIZE + 2) 2)
    (fun r k' => exists m' c,
          k' = says (copyin_says r (pg 5) (5 * PGSIZE + 2 + c) m') (update k_mem_l m' demo_mapped)
       /\ 0 <= c <= 2
       /\ ((r = 0 /\ c = 2) \/ (r = -1 /\ c < 2 /\ ~ user_ok demo_f (5 * PGSIZE + 2 + c)))
       /\ forall b, rd8 m' b = if decide (1000 <= b < 1000 + c)
                               then rd8 demo_mapped_mem (uaddr demo_f (5 * PGSIZE + 2 + (b - 1000)))
                               else rd8 demo_mapped_mem b) demo_mapped.
Proof.
  apply (copyin_copies (pg 5) demo_f demo_mapped 1000 (5 * PGSIZE + 2) 2).
  - intros va _. reflexivity.
  - by vm_compute.
  - lia.
  - by vm_compute.
  - intros i Hi _. rewrite demo_uaddr by lia. unfold pg. assert (5000 < RAMSTOP - 4 * PGSIZE) by done.
    lia.
  - intros b Hb. apply demo_off. right. right. left. assert (5000 < pg 5) by done. lia.
Defined.

Example copyout_copies_witness :
  wp (copyout (pg 5) (5 * PGSIZE + 2) (RAMSTOP + 8) 2)
    (fun r k' => exists m' c,
          k' = says (copy_says r (pg 5) (5 * PGSIZE + 2 + c) m') (update k_mem_l m' demo_mapped)
       /\ 0 <= c <= 2
       /\ ((r = 0 /\ c = 2) \/ (r = -1 /\ c < 2 /\ ~ user_ok demo_f (5 * PGSIZE + 2 + c)))
       /\ (forall i, 0 <= i < c ->
             rd8 m' (uaddr demo_f (5 * PGSIZE + 2 + i)) = rd8 demo_mapped_mem (RAMSTOP + 8 + i))
       /\ (forall b, (forall i, 0 <= i < c -> b <> uaddr demo_f (5 * PGSIZE + 2 + i)) ->
             rd8 m' b = rd8 demo_mapped_mem b)) demo_mapped.
Proof.
  apply (copyout_copies (pg 5) demo_f demo_mapped (5 * PGSIZE + 2) (RAMSTOP + 8) 2).
  - intros va _. reflexivity.
  - by vm_compute.
  - lia.
  - by vm_compute.
  - by vm_compute.
  - intros i j Hi Hj _ _. rewrite !demo_uaddr by lia. lia.
  - intros i Hi _. rewrite demo_uaddr by lia. unfold pg. unfold PGSIZE. lia.
  - intros i Hi _. rewrite demo_uaddr by lia. apply demo_off.
    assert (i = 0 \/ i = 1) as [-> | ->] by lia; [left|right; left]; lia.
Defined.

Lemma demo_interior : interior demo_mapped_mem (pg 5).
Proof.
  assert (forallb (fun i => let e := rd64 demo_mapped_mem (slot (pg 5) i) in
    negb (valid e) || (e =? table_pte (PTE2PA e))) (seqZ 0 512) = true) as H by (by vm_compute).
  intros i Hi Hv. rewrite forallb_forall in H. specialize (H i). cbv zeta in H.
  rewrite Hv in H. eexists. apply Z.eqb_eq, H, seqZ_In. lia.
Qed.

Example freewalk_frees_root_only_witness :
  freewalk demo_end 4 (pg 5) demo_mapped = kfree demo_end (pg 5) demo_mapped.
Proof. apply (freewalk_frees_root_only demo_end 3 (pg 5) demo_mapped), demo_interior. Defined.
