(* ===== verification/ProcState.v ===== *)
(** The process table and the areas of user memory: kernel/include/proc.h,
    kernel/include/vma.h.

    [pst] is the state of everything below the file system: the allocator's
    state [kst], the table [proc] with its locks, and the [struct vma] objects,
    each kept under the address of the page it was allocated in.  Sleeping
    processes wait on a [chan], the kernel object whose address the C code
    passes. *)

From S2P Require Import Prelude Mem Locks Kalloc Vm.

Definition NOFILE : nat := 128.
Definition NELEM_NAME : Z := 16.

Inductive procstate := UNUSED | USED | SLEEPING | RUNNABLE | RUNNING | ZOMBIE.
#[export] Instance procstate_eq_dec : EqDecision procstate.
Proof. solve_decision. Defined.

(** The objects processes sleep on. *)
Inductive chan :=
| CProc (i : nat)      (** a [struct proc] *)
| CSleeplock (i : Z)   (** a [struct sleeplock] *)
| CPipeRead (i : nat)  (** [&pi->nread] *)
| CPipeWrite (i : nat) (** [&pi->nwrite] *)
| CCons                (** [&cons.r] *)
| CUart                (** [&uart_tx_r] *)
| CTicks               (** [&ticks] *)
| CDiskFree            (** [&disk.free[0]] *)
| CBuf (b : nat).      (** a [struct buf] *)
#[export] Instance chan_eq_dec : EqDecision chan.
Proof. solve_decision. Defined.

(** [struct sigaction] *)
Record sigact := Sigact {
  sa_handler : Z;
  sa_mask : Z;
  sa_flags : Z
}.

Definition sa_handler_l : lens sigact (Z) :=
  Lens sa_handler (fun v r => Sigact v (sa_mask r) (sa_flags r)).
Definition sa_mask_l : lens sigact (Z) :=
  Lens sa_mask (fun v r => Sigact (sa_handler r) v (sa_flags r)).
Definition sa_flags_l : lens sigact (Z) :=
  Lens sa_flags (fun v r => Sigact (sa_handler r) (sa_mask r) v).

#[export] Instance sa_handler_laws : LensLaws sa_handler_l.
Proof. by split; [split|]; intros; repeat match goal with x : sigact |- _ => destruct x end.
    Qed.
#[export] Instance sa_mask_laws : LensLaws sa_mask_l.
Proof. by split; [split|]; intros; repeat match goal with x : sigact |- _ => destruct x end.
    Qed.
#[export] Instance sa_flags_laws : LensLaws sa_flags_l.
Proof. by split; [split|]; intros; repeat match goal with x : sigact |- _ => destruct x end.
    Qed.

Inductive segtype := NONE | MMAP | STACK.
#[export] Instance segtype_eq_dec : EqDecision segtype.
Proof. solve_decision. Defined.

Record vma := Vma {
  v_type : segtype;
  v_perm : Z;
  v_addr : Z;
  v_sz : Z;
  v_end : Z;
  v_flags : Z;
  v_fd : Z;
  v_f_off : Z;
  v_prev : Z;
  v_next : Z
}.

Definition v_type_l : lens vma (segtype) :=
  Lens v_type (fun v r => Vma v (v_perm r) (v_addr r) (v_sz r) (v_end r) (v_flags r) (v_fd r)
    (v_f_off r) (v_prev r) (v_next r)).
Definition v_perm_l : lens vma (Z) :=
  Lens v_perm (fun v r => Vma (v_type r) v (v_addr r) (v_sz r) (v_end r) (v_flags r) (v_fd r)
    (v_f_off r) (v_prev r) (v_next r)).
Definition v_addr_l : lens vma (Z) :=
  Lens v_addr (fun v r => Vma (v_type r) (v_perm r) v (v_sz r) (v_end r) (v_flags r) (v_fd r)
    (v_f_off r) (v_prev r) (v_next r)).
Definition v_sz_l : lens vma (Z) :=
  Lens v_sz (fun v r => Vma (v_type r) (v_perm r) (v_addr r) v (v_end r) (v_flags r) (v_fd r)
    (v_f_off r) (v_prev r) (v_next r)).
Definition v_end_l : lens vma (Z) :=
  Lens v_end (fun v r => Vma (v_type r) (v_perm r) (v_addr r) (v_sz r) v (v_flags r) (v_fd r)
    (v_f_off r) (v_prev r) (v_next r)).
Definition v_flags_l : lens vma (Z) :=
  Lens v_flags (fun v r => Vma (v_type r) (v_perm r) (v_addr r) (v_sz r) (v_end r) v (v_fd r)
    (v_f_off r) (v_prev r) (v_next r)).
Definition v_fd_l : lens vma (Z) :=
  Lens v_fd (fun v r => Vma (v_type r) (v_perm r) (v_addr r) (v_sz r) (v_end r) (v_flags r) v
    (v_f_off r) (v_prev r) (v_next r)).
Definition v_f_off_l : lens vma (Z) :=
  Lens v_f_off (fun v r => Vma (v_type r) (v_perm r) (v_addr r) (v_sz r) (v_end r) (v_flags r)
    (v_fd r) v (v_prev r) (v_next r)).
Definition v_prev_l : lens vma (Z) :=
  Lens v_prev (fun v r => Vma (v_type r) (v_perm r) (v_addr r) (v_sz r) (v_end r) (v_flags r)
    (v_fd r) (v_f_off r) v (v_next r)).
Definition v_next_l : lens vma (Z) :=
  Lens v_next (fun v r => Vma (v_type r) (v_perm r) (v_addr r) (v_sz r) (v_end r) (v_flags r)
    (v_fd r) (v_f_off r) (v_prev r) v).

#[export] Instance v_type_laws : LensLaws v_type_l.
Proof. by split; [split|]; intros; repeat match goal with x : vma |- _ => destruct x end. Qed.
#[export] Instance v_perm_laws : LensLaws v_perm_l.
Proof. by split; [split|]; intros; repeat match goal with x : vma |- _ => destruct x end. Qed.
#[export] Instance v_addr_laws : LensLaws v_addr_l.
Proof. by split; [split|]; intros; repeat match goal with x : vma |- _ => destruct x end. Qed.
#[export] Instance v_sz_laws : LensLaws v_sz_l.
Proof. by split; [split|]; intros; repeat match goal with x : vma |- _ => destruct x end. Qed.
#[export] Instance v_end_laws : LensLaws v_end_l.
Proof. by split; [split|]; intros; repeat match goal with x : vma |- _ => destruct x end. Qed.
#[export] Instance v_flags_laws : LensLaws v_flags_l.
Proof. by split; [split|]; intros; repeat match goal with x : vma |- _ => destruct x end. Qed.
#[export] Instance v_fd_laws : LensLaws v_fd_l.
Proof. by split; [split|]; intros; repeat match goal with x : vma |- _ => destruct x end. Qed.
#[export] Instance v_f_off_laws : LensLaws v_f_off_l.
Proof. by split; [split|]; intros; repeat match goal with x : vma |- _ => destruct x end. Qed.
#[export] Instance v_prev_laws : LensLaws v_prev_l.
Proof. by split; [split|]; intros; repeat match goal with x : vma |- _ => destruct x end. Qed.
#[export] Instance v_next_laws : LensLaws v_next_l.
Proof. by split; [split|]; intros; repeat match goal with x : vma |- _ => destruct x end. Qed.

Record proc := Proc {
  p_lock : spinlock;
  p_state : procstate;
  p_parent : option nat;   (** index of the parent *)
  p_chan : option chan;   (** what the process sleeps on *)
  p_killed : Z;
  p_xstate : Z;
  p_pid : Z;
  p_uid : Z;
  p_gid : Z;
  p_pgid : Z;
  p_filelimit : Z;
  p_kstack : Z;
  p_sz : Z;
  p_pagetable : Z;   (** address of the root table; 0 if none *)
  p_trapframe : Z;   (** address of its page *)
  p_ctx_ra : Z;   (** [context.ra] *)
  p_ctx_sp : Z;   (** [context.sp] *)
  p_ofile : list (option nat);   (** indices in the file table *)
  p_exec_close : Z;   (** address of the close-on-exec flags *)
  p_cwd : option nat;   (** the directory entry *)
  p_name : list Z;
  p_tmask : Z;
  p_vma : Z;   (** head of the list of areas; 0 if none *)
  p_ktime : Z;
  p_utime : Z;
  p_char_count : Z;   (** bytes libc-bench has written *)
  p_sigaction : gmap Z sigact;
  p_sig_set : Z;
  p_sig_pending : Z;
  p_sig_tf : Z
}.

Definition p_lock_l : lens proc (spinlock) :=
  Lens p_lock (fun v r => Proc v (p_state r) (p_parent r) (p_chan r) (p_killed r) (p_xstate r)
    (p_pid r) (p_uid r) (p_gid r) (p_pgid r) (p_filelimit r) (p_kstack r) (p_sz r) (p_pagetable
    r) (p_trapframe r) (p_ctx_ra r) (p_ctx_sp r) (p_ofile r) (p_exec_close r) (p_cwd r) (p_name
    r) (p_tmask r) (p_vma r) (p_ktime r) (p_utime r) (p_char_count r) (p_sigaction r)
    (p_sig_set r) (p_sig_pending r) (p_sig_tf r)).
Definition p_state_l : lens proc (procstate) :=
  Lens p_state (fun v r => Proc (p_lock r) v (p_parent r) (p_chan r) (p_killed r) (p_xstate r)
    (p_pid r) (p_uid r) (p_gid r) (p_pgid r) (p_filelimit r) (p_kstack r) (p_sz r) (p_pagetable
    r) (p_trapframe r) (p_ctx_ra r) (p_ctx_sp r) (p_ofile r) (p_exec_close r) (p_cwd r) (p_name
    r) (p_tmask r) (p_vma r) (p_ktime r) (p_utime r) (p_char_count r) (p_sigaction r)
    (p_sig_set r) (p_sig_pending r) (p_sig_tf r)).
Definition p_parent_l : lens proc (option nat) :=
  Lens p_parent (fun v r => Proc (p_lock r) (p_state r) v (p_chan r) (p_killed r) (p_xstate r)
    (p_pid r) (p_uid r) (p_gid r) (p_pgid r) (p_filelimit r) (p_kstack r) (p_sz r) (p_pagetable
    r) (p_trapframe r) (p_ctx_ra r) (p_ctx_sp r) (p_ofile r) (p_exec_close r) (p_cwd r) (p_name
    r) (p_tmask r) (p_vma r) (p_ktime r) (p_utime r) (p_char_count r) (p_sigaction r)
    (p_sig_set r) (p_sig_pending r) (p_sig_tf r)).
Definition p_chan_l : lens proc (option chan) :=
  Lens p_chan (fun v r => Proc (p_lock r) (p_state r) (p_parent r) v (p_killed r) (p_xstate r)
    (p_pid r) (p_uid r) (p_gid r) (p_pgid r) (p_filelimit r) (p_kstack r) (p_sz r) (p_pagetable
    r) (p_trapframe r) (p_ctx_ra r) (p_ctx_sp r) (p_ofile r) (p_exec_close r) (p_cwd r) (p_name
    r) (p_tmask r) (p_vma r) (p_ktime r) (p_utime r) (p_char_count r) (p_sigaction r)
    (p_sig_set r) (p_sig_pending r) (p_sig_tf r)).
Definition p_killed_l : lens proc (Z) :=
  Lens p_killed (fun v r => Proc (p_lock r) (p_state r) (p_parent r) (p_chan r) v (p_xstate r)
    (p_pid r) (p_uid r) (p_gid r) (p_pgid r) (p_filelimit r) (p_kstack r) (p_sz r) (p_pagetable
    r) (p_trapframe r) (p_ctx_ra r) (p_ctx_sp r) (p_ofile r) (p_exec_close r) (p_cwd r) (p_name
    r) (p_tmask r) (p_vma r) (p_ktime r) (p_utime r) (p_char_count r) (p_sigaction r)
    (p_sig_set r) (p_sig_pending r) (p_sig_tf r)).
Definition p_xstate_l : lens proc (Z) :=
  Lens p_xstate (fun v r => Proc (p_lock r) (p_state r) (p_parent r) (p_chan r) (p_killed r) v
    (p_pid r) (p_uid r) (p_gid r) (p_pgid r) (p_filelimit r) (p_kstack r) (p_sz r) (p_pagetable
    r) (p_trapframe r) (p_ctx_ra r) (p_ctx_sp r) (p_ofile r) (p_exec_close r) (p_cwd r) (p_name
    r) (p_tmask r) (p_vma r) (p_ktime r) (p_utime r) (p_char_count r) (p_sigaction r)
    (p_sig_set r) (p_sig_pending r) (p_sig_tf r)).
Definition p_pid_l : lens proc (Z) :=
  Lens p_pid (fun v r => Proc (p_lock r) (p_state r) (p_parent r) (p_chan r) (p_killed r)
    (p_xstate r) v (p_uid r) (p_gid r) (p_pgid r) (p_filelimit r) (p_kstack r) (p_sz r)
    (p_pagetable r) (p_trapframe r) (p_ctx_ra r) (p_ctx_sp r) (p_ofile r) (p_exec_close r)
    (p_cwd r) (p_name r) (p_tmask r) (p_vma r) (p_ktime r) (p_utime r) (p_char_count r)
    (p_sigaction r) (p_sig_set r) (p_sig_pending r) (p_sig_tf r)).
Definition p_uid_l : lens proc (Z) :=
  Lens p_uid (fun v r => Proc (p_lock r) (p_state r) (p_parent r) (p_chan r) (p_killed r)
    (p_xstate r) (p_pid r) v (p_gid r) (p_pgid r) (p_filelimit r) (p_kstack r) (p_sz r)
    (p_pagetable r) (p_trapframe r) (p_ctx_ra r) (p_ctx_sp r) (p_ofile r) (p_exec_close r)
    (p_cwd r) (p_name r) (p_tmask r) (p_vma r) (p_ktime r) (p_utime r) (p_char_count r)
    (p_sigaction r) (p_sig_set r) (p_sig_pending r) (p_sig_tf r)).
Definition p_gid_l : lens proc (Z) :=
  Lens p_gid (fun v r => Proc (p_lock r) (p_state r) (p_parent r) (p_chan r) (p_killed r)
    (p_xstate r) (p_pid r) (p_uid r) v (p_pgid r) (p_filelimit r) (p_kstack r) (p_sz r)
    (p_pagetable r) (p_trapframe r) (p_ctx_ra r) (p_ctx_sp r) (p_ofile r) (p_exec_close r)
    (p_cwd r) (p_name r) (p_tmask r) (p_vma r) (p_ktime r) (p_utime r) (p_char_count r)
    (p_sigaction r) (p_sig_set r) (p_sig_pending r) (p_sig_tf r)).
Definition p_pgid_l : lens proc (Z) :=
  Lens p_pgid (fun v r => Proc (p_lock r) (p_state r) (p_parent r) (p_chan r) (p_killed r)
    (p_xstate r) (p_pid r) (p_uid r) (p_gid r) v (p_filelimit r) (p_kstack r) (p_sz r)
    (p_pagetable r) (p_trapframe r) (p_ctx_ra r) (p_ctx_sp r) (p_ofile r) (p_exec_close r)
    (p_cwd r) (p_name r) (p_tmask r) (p_vma r) (p_ktime r) (p_utime r) (p_char_count r)
    (p_sigaction r) (p_sig_set r) (p_sig_pending r) (p_sig_tf r)).
Definition p_filelimit_l : lens proc (Z) :=
  Lens p_filelimit (fun v r => Proc (p_lock r) (p_state r) (p_parent r) (p_chan r) (p_killed r)
    (p_xstate r) (p_pid r) (p_uid r) (p_gid r) (p_pgid r) v (p_kstack r) (p_sz r) (p_pagetable
    r) (p_trapframe r) (p_ctx_ra r) (p_ctx_sp r) (p_ofile r) (p_exec_close r) (p_cwd r) (p_name
    r) (p_tmask r) (p_vma r) (p_ktime r) (p_utime r) (p_char_count r) (p_sigaction r)
    (p_sig_set r) (p_sig_pending r) (p_sig_tf r)).
Definition p_kstack_l : lens proc (Z) :=
  Lens p_kstack (fun v r => Proc (p_lock r) (p_state r) (p_parent r) (p_chan r) (p_killed r)
    (p_xstate r) (p_pid r) (p_uid r) (p_gid r) (p_pgid r) (p_filelimit r) v (p_sz r)
    (p_pagetable r) (p_trapframe r) (p_ctx_ra r) (p_ctx_sp r) (p_ofile r) (p_exec_close r)
    (p_cwd r) (p_name r) (p_tmask r) (p_vma r) (p_ktime r) (p_utime r) (p_char_count r)
    (p_sigaction r) (p_sig_set r) (p_sig_pending r) (p_sig_tf r)).
Definition p_sz_l : lens proc (Z) :=
  Lens p_sz (fun v r => Proc (p_lock r) (p_state r) (p_parent r) (p_chan r) (p_killed r)
    (p_xstate r) (p_pid r) (p_uid r) (p_gid r) (p_pgid r) (p_filelimit r) (p_kstack r) v
    (p_pagetable r) (p_trapframe r) (p_ctx_ra r) (p_ctx_sp r) (p_ofile r) (p_exec_close r)
    (p_cwd r) (p_name r) (p_tmask r) (p_vma r) (p_ktime r) (p_utime r) (p_char_count r)
    (p_sigaction r) (p_sig_set r) (p_sig_pending r) (p_sig_tf r)).
Definition p_pagetable_l : lens proc (Z) :=
  Lens p_pagetable (fun v r => Proc (p_lock r) (p_state r) (p_parent r) (p_chan r) (p_killed r)
    (p_xstate r) (p_pid r) (p_uid r) (p_gid r) (p_pgid r) (p_filelimit r) (p_kstack r) (p_sz r)
    v (p_trapframe r) (p_ctx_ra r) (p_ctx_sp r) (p_ofile r) (p_exec_close r) (p_cwd r) (p_name
    r) (p_tmask r) (p_vma r) (p_ktime r) (p_utime r) (p_char_count r) (p_sigaction r)
    (p_sig_set r) (p_sig_pending r) (p_sig_tf r)).
Definition p_trapframe_l : lens proc (Z) :=
  Lens p_trapframe (fun v r => Proc (p_lock r) (p_state r) (p_parent r) (p_chan r) (p_killed r)
    (p_xstate r) (p_pid r) (p_uid r) (p_gid r) (p_pgid r) (p_filelimit r) (p_kstack r) (p_sz r)
    (p_pagetable r) v (p_ctx_ra r) (p_ctx_sp r) (p_ofile r) (p_exec_close r) (p_cwd r) (p_name
    r) (p_tmask r) (p_vma r) (p_ktime r) (p_utime r) (p_char_count r) (p_sigaction r)
    (p_sig_set r) (p_sig_pending r) (p_sig_tf r)).
Definition p_ctx_ra_l : lens proc (Z) :=
  Lens p_ctx_ra (fun v r => Proc (p_lock r) (p_state r) (p_parent r) (p_chan r) (p_killed r)
    (p_xstate r) (p_pid r) (p_uid r) (p_gid r) (p_pgid r) (p_filelimit r) (p_kstack r) (p_sz r)
    (p_pagetable r) (p_trapframe r) v (p_ctx_sp r) (p_ofile r) (p_exec_close r) (p_cwd r)
    (p_name r) (p_tmask r) (p_vma r) (p_ktime r) (p_utime r) (p_char_count r) (p_sigaction r)
    (p_sig_set r) (p_sig_pending r) (p_sig_tf r)).
Definition p_ctx_sp_l : lens proc (Z) :=
  Lens p_ctx_sp (fun v r => Proc (p_lock r) (p_state r) (p_parent r) (p_chan r) (p_killed r)
    (p_xstate r) (p_pid r) (p_uid r) (p_gid r) (p_pgid r) (p_filelimit r) (p_kstack r) (p_sz r)
    (p_pagetable r) (p_trapframe r) (p_ctx_ra r) v (p_ofile r) (p_exec_close r) (p_cwd r)
    (p_name r) (p_tmask r) (p_vma r) (p_ktime r) (p_utime r) (p_char_count r) (p_sigaction r)
    (p_sig_set r) (p_sig_pending r) (p_sig_tf r)).
Definition p_ofile_l : lens proc (list (option nat)) :=
  Lens p_ofile (fun v r => Proc (p_lock r) (p_state r) (p_parent r) (p_chan r) (p_killed r)
    (p_xstate r) (p_pid r) (p_uid r) (p_gid r) (p_pgid r) (p_filelimit r) (p_kstack r) (p_sz r)
    (p_pagetable r) (p_trapframe r) (p_ctx_ra r) (p_ctx_sp r) v (p_exec_close r) (p_cwd r)
    (p_name r) (p_tmask r) (p_vma r) (p_ktime r) (p_utime r) (p_char_count r) (p_sigaction r)
    (p_sig_set r) (p_sig_pending r) (p_sig_tf r)).
Definition p_exec_close_l : lens proc (Z) :=
  Lens p_exec_close (fun v r => Proc (p_lock r) (p_state r) (p_parent r) (p_chan r) (p_killed
    r) (p_xstate r) (p_pid r) (p_uid r) (p_gid r) (p_pgid r) (p_filelimit r) (p_kstack r) (p_sz
    r) (p_pagetable r) (p_trapframe r) (p_ctx_ra r) (p_ctx_sp r) (p_ofile r) v (p_cwd r)
    (p_name r) (p_tmask r) (p_vma r) (p_ktime r) (p_utime r) (p_char_count r) (p_sigaction r)
    (p_sig_set r) (p_sig_pending r) (p_sig_tf r)).
Definition p_cwd_l : lens proc (option nat) :=
  Lens p_cwd (fun v r => Proc (p_lock r) (p_state r) (p_parent r) (p_chan r) (p_killed r)
    (p_xstate r) (p_pid r) (p_uid r) (p_gid r) (p_pgid r) (p_filelimit r) (p_kstack r) (p_sz r)
    (p_pagetable r) (p_trapframe r) (p_ctx_ra r) (p_ctx_sp r) (p_ofile r) (p_exec_close r) v
    (p_name r) (p_tmask r) (p_vma r) (p_ktime r) (p_utime r) (p_char_count r) (p_sigaction r)
    (p_sig_set r) (p_sig_pending r) (p_sig_tf r)).
Definition p_name_l : lens proc (list Z) :=
  Lens p_name (fun v r => Proc (p_lock r) (p_state r) (p_parent r) (p_chan r) (p_killed r)
    (p_xstate r) (p_pid r) (p_uid r) (p_gid r) (p_pgid r) (p_filelimit r) (p_kstack r) (p_sz r)
    (p_pagetable r) (p_trapframe r) (p_ctx_ra r) (p_ctx_sp r) (p_ofile r) (p_exec_close r)
    (p_cwd r) v (p_tmask r) (p_vma r) (p_ktime r) (p_utime r) (p_char_count r) (p_sigaction r)
    (p_sig_set r) (p_sig_pending r) (p_sig_tf r)).
Definition p_tmask_l : lens proc (Z) :=
  Lens p_tmask (fun v r => Proc (p_lock r) (p_state r) (p_parent r) (p_chan r) (p_killed r)
    (p_xstate r) (p_pid r) (p_uid r) (p_gid r) (p_pgid r) (p_filelimit r) (p_kstack r) (p_sz r)
    (p_pagetable r) (p_trapframe r) (p_ctx_ra r) (p_ctx_sp r) (p_ofile r) (p_exec_close r)
    (p_cwd r) (p_name r) v (p_vma r) (p_ktime r) (p_utime r) (p_char_count r) (p_sigaction r)
    (p_sig_set r) (p_sig_pending r) (p_sig_tf r)).
Definition p_vma_l : lens proc (Z) :=
  Lens p_vma (fun v r => Proc (p_lock r) (p_state r) (p_parent r) (p_chan r) (p_killed r)
    (p_xstate r) (p_pid r) (p_uid r) (p_gid r) (p_pgid r) (p_filelimit r) (p_kstack r) (p_sz r)
    (p_pagetable r) (p_trapframe r) (p_ctx_ra r) (p_ctx_sp r) (p_ofile r) (p_exec_close r)
    (p_cwd r) (p_name r) (p_tmask r) v (p_ktime r) (p_utime r) (p_char_count r) (p_sigaction r)
    (p_sig_set r) (p_sig_pending r) (p_sig_tf r)).
Definition p_ktime_l : lens proc (Z) :=
  Lens p_ktime (fun v r => Proc (p_lock r) (p_state r) (p_parent r) (p_chan r) (p_killed r)
    (p_xstate r) (p_pid r) (p_uid r) (p_gid r) (p_pgid r) (p_filelimit r) (p_kstack r) (p_sz r)
    (p_pagetable r) (p_trapframe r) (p_ctx_ra r) (p_ctx_sp r) (p_ofile r) (p_exec_close r)
    (p_cwd r) (p_name r) (p_tmask r) (p_vma r) v (p_utime r) (p_char_count r) (p_sigaction r)
    (p_sig_set r) (p_sig_pending r) (p_sig_tf r)).
Definition p_utime_l : lens proc (Z) :=
  Lens p_utime (fun v r => Proc (p_lock r) (p_state r) (p_parent r) (p_chan r) (p_killed r)
    (p_xstate r) (p_pid r) (p_uid r) (p_gid r) (p_pgid r) (p_filelimit r) (p_kstack r) (p_sz r)
    (p_pagetable r) (p_trapframe r) (p_ctx_ra r) (p_ctx_sp r) (p_ofile r) (p_exec_close r)
    (p_cwd r) (p_name r) (p_tmask r) (p_vma r) (p_ktime r) v (p_char_count r) (p_sigaction r)
    (p_sig_set r) (p_sig_pending r) (p_sig_tf r)).
Definition p_char_count_l : lens proc (Z) :=
  Lens p_char_count (fun v r => Proc (p_lock r) (p_state r) (p_parent r) (p_chan r) (p_killed
    r) (p_xstate r) (p_pid r) (p_uid r) (p_gid r) (p_pgid r) (p_filelimit r) (p_kstack r) (p_sz
    r) (p_pagetable r) (p_trapframe r) (p_ctx_ra r) (p_ctx_sp r) (p_ofile r) (p_exec_close r)
    (p_cwd r) (p_name r) (p_tmask r) (p_vma r) (p_ktime r) (p_utime r) v (p_sigaction r)
    (p_sig_set r) (p_sig_pending r) (p_sig_tf r)).
Definition p_sigaction_l : lens proc (gmap Z sigact) :=
  Lens p_sigaction (fun v r => Proc (p_lock r) (p_state r) (p_parent r) (p_chan r) (p_killed r)
    (p_xstate r) (p_pid r) (p_uid r) (p_gid r) (p_pgid r) (p_filelimit r) (p_kstack r) (p_sz r)
    (p_pagetable r) (p_trapframe r) (p_ctx_ra r) (p_ctx_sp r) (p_ofile r) (p_exec_close r)
    (p_cwd r) (p_name r) (p_tmask r) (p_vma r) (p_ktime r) (p_utime r) (p_char_count r) v
    (p_sig_set r) (p_sig_pending r) (p_sig_tf r)).
Definition p_sig_set_l : lens proc (Z) :=
  Lens p_sig_set (fun v r => Proc (p_lock r) (p_state r) (p_parent r) (p_chan r) (p_killed r)
    (p_xstate r) (p_pid r) (p_uid r) (p_gid r) (p_pgid r) (p_filelimit r) (p_kstack r) (p_sz r)
    (p_pagetable r) (p_trapframe r) (p_ctx_ra r) (p_ctx_sp r) (p_ofile r) (p_exec_close r)
    (p_cwd r) (p_name r) (p_tmask r) (p_vma r) (p_ktime r) (p_utime r) (p_char_count r)
    (p_sigaction r) v (p_sig_pending r) (p_sig_tf r)).
Definition p_sig_pending_l : lens proc (Z) :=
  Lens p_sig_pending (fun v r => Proc (p_lock r) (p_state r) (p_parent r) (p_chan r) (p_killed
    r) (p_xstate r) (p_pid r) (p_uid r) (p_gid r) (p_pgid r) (p_filelimit r) (p_kstack r) (p_sz
    r) (p_pagetable r) (p_trapframe r) (p_ctx_ra r) (p_ctx_sp r) (p_ofile r) (p_exec_close r)
    (p_cwd r) (p_name r) (p_tmask r) (p_vma r) (p_ktime r) (p_utime r) (p_char_count r)
    (p_sigaction r) (p_sig_set r) v (p_sig_tf r)).
Definition p_sig_tf_l : lens proc (Z) :=
  Lens p_sig_tf (fun v r => Proc (p_lock r) (p_state r) (p_parent r) (p_chan r) (p_killed r)
    (p_xstate r) (p_pid r) (p_uid r) (p_gid r) (p_pgid r) (p_filelimit r) (p_kstack r) (p_sz r)
    (p_pagetable r) (p_trapframe r) (p_ctx_ra r) (p_ctx_sp r) (p_ofile r) (p_exec_close r)
    (p_cwd r) (p_name r) (p_tmask r) (p_vma r) (p_ktime r) (p_utime r) (p_char_count r)
    (p_sigaction r) (p_sig_set r) (p_sig_pending r) v).

#[export] Instance p_lock_laws : LensLaws p_lock_l.
Proof. by split; [split|]; intros; repeat match goal with x : proc |- _ => destruct x end. Qed.
#[export] Instance p_state_laws : LensLaws p_state_l.
Proof. by split; [split|]; intros; repeat match goal with x : proc |- _ => destruct x end. Qed.
#[export] Instance p_parent_laws : LensLaws p_parent_l.
Proof. by split; [split|]; intros; repeat match goal with x : proc |- _ => destruct x end. Qed.
#[export] Instance p_chan_laws : LensLaws p_chan_l.
Proof. by split; [split|]; intros; repeat match goal with x : proc |- _ => destruct x end. Qed.
#[export] Instance p_killed_laws : LensLaws p_killed_l.
Proof. by split; [split|]; intros; repeat match goal with x : proc |- _ => destruct x end. Qed.
#[export] Instance p_xstate_laws : LensLaws p_xstate_l.
Proof. by split; [split|]; intros; repeat match goal with x : proc |- _ => destruct x end. Qed.
#[export] Instance p_pid_laws : LensLaws p_pid_l.
Proof. by split; [split|]; intros; repeat match goal with x : proc |- _ => destruct x end. Qed.
#[export] Instance p_uid_laws : LensLaws p_uid_l.
Proof. by split; [split|]; intros; repeat match goal with x : proc |- _ => destruct x end. Qed.
#[export] Instance p_gid_laws : LensLaws p_gid_l.
Proof. by split; [split|]; intros; repeat match goal with x : proc |- _ => destruct x end. Qed.
#[export] Instance p_pgid_laws : LensLaws p_pgid_l.
Proof. by split; [split|]; intros; repeat match goal with x : proc |- _ => destruct x end. Qed.
#[export] Instance p_filelimit_laws : LensLaws p_filelimit_l.
Proof. by split; [split|]; intros; repeat match goal with x : proc |- _ => destruct x end. Qed.
#[export] Instance p_kstack_laws : LensLaws p_kstack_l.
Proof. by split; [split|]; intros; repeat match goal with x : proc |- _ => destruct x end. Qed.
#[export] Instance p_sz_laws : LensLaws p_sz_l.
Proof. by split; [split|]; intros; repeat match goal with x : proc |- _ => destruct x end. Qed.
#[export] Instance p_pagetable_laws : LensLaws p_pagetable_l.
Proof. by split; [split|]; intros; repeat match goal with x : proc |- _ => destruct x end. Qed.
#[export] Instance p_trapframe_laws : LensLaws p_trapframe_l.
Proof. by split; [split|]; intros; repeat match goal with x : proc |- _ => destruct x end. Qed.
#[export] Instance p_ctx_ra_laws : LensLaws p_ctx_ra_l.
Proof. by split; [split|]; intros; repeat match goal with x : proc |- _ => destruct x end. Qed.
#[export] Instance p_ctx_sp_laws : LensLaws p_ctx_sp_l.
Proof. by split; [split|]; intros; repeat match goal with x : proc |- _ => destruct x end. Qed.
#[export] Instance p_ofile_laws : LensLaws p_ofile_l.
Proof. by split; [split|]; intros; repeat match goal with x : proc |- _ => destruct x end. Qed.
#[export] Instance p_exec_close_laws : LensLaws p_exec_close_l.
Proof. by split; [split|]; intros; repeat match goal with x : proc |- _ => destruct x end. Qed.
#[export] Instance p_cwd_laws : LensLaws p_cwd_l.
Proof. by split; [split|]; intros; repeat match goal with x : proc |- _ => destruct x end. Qed.
#[export] Instance p_name_laws : LensLaws p_name_l.
Proof. by split; [split|]; intros; repeat match goal with x : proc |- _ => destruct x end. Qed.
#[export] Instance p_tmask_laws : LensLaws p_tmask_l.
Proof. by split; [split|]; intros; repeat match goal with x : proc |- _ => destruct x end. Qed.
#[export] Instance p_vma_laws : LensLaws p_vma_l.
Proof. by split; [split|]; intros; repeat match goal with x : proc |- _ => destruct x end. Qed.
#[export] Instance p_ktime_laws : LensLaws p_ktime_l.
Proof. by split; [split|]; intros; repeat match goal with x : proc |- _ => destruct x end. Qed.
#[export] Instance p_utime_laws : LensLaws p_utime_l.
Proof. by split; [split|]; intros; repeat match goal with x : proc |- _ => destruct x end. Qed.
#[export] Instance p_char_count_laws : LensLaws p_char_count_l.
Proof. by split; [split|]; intros; repeat match goal with x : proc |- _ => destruct x end. Qed.
#[export] Instance p_sigaction_laws : LensLaws p_sigaction_l.
Proof. by split; [split|]; intros; repeat match goal with x : proc |- _ => destruct x end. Qed.
#[export] Instance p_sig_set_laws : LensLaws p_sig_set_l.
Proof. by split; [split|]; intros; repeat match goal with x : proc |- _ => destruct x end. Qed.
#[export] Instance p_sig_pending_laws : LensLaws p_sig_pending_l.
Proof. by split; [split|]; intros; repeat match goal with x : proc |- _ => destruct x end. Qed.
#[export] Instance p_sig_tf_laws : LensLaws p_sig_tf_l.
Proof. by split; [split|]; intros; repeat match goal with x : proc |- _ => destruct x end. Qed.

Definition sigact0 : sigact := Sigact 0 0 0.
Definition vma0 : vma := Vma NONE 0 0 0 0 0 0 0 0 0.
Definition proc0 : proc :=
  Proc (Spin 0 "" None) UNUSED None None 0 0 0 0 0 0 0 0 0 0 0 0 0
    (replicate NOFILE None) 0 None (replicate 16 0) 0 0 0 0 0 ∅ 0 0 0.

Record pst := Pst {
  s_k : kst;   (** memory, allocator and processor *)
  s_procs : gmap nat proc;   (** the table [proc] *)
  s_pid_lock : spinlock;
  s_nextpid : Z;
  s_initproc : option nat;
  s_vmas : gmap Z vma;   (** the areas, by the address of their page *)
  s_first : bool   (** [first] of [forkret] *)
}.

Definition s_k_l : lens pst (kst) :=
  Lens s_k (fun v r => Pst v (s_procs r) (s_pid_lock r) (s_nextpid r) (s_initproc r) (s_vmas r)
    (s_first r)).
Definition s_procs_l : lens pst (gmap nat proc) :=
  Lens s_procs (fun v r => Pst (s_k r) v (s_pid_lock r) (s_nextpid r) (s_initproc r) (s_vmas r)
    (s_first r)).
Definition s_pid_lock_l : lens pst (spinlock) :=
  Lens s_pid_lock (fun v r => Pst (s_k r) (s_procs r) v (s_nextpid r) (s_initproc r) (s_vmas r)
    (s_first r)).
Definition s_nextpid_l : lens pst (Z) :=
  Lens s_nextpid (fun v r => Pst (s_k r) (s_procs r) (s_pid_lock r) v (s_initproc r) (s_vmas r)
    (s_first r)).
Definition s_initproc_l : lens pst (option nat) :=
  Lens s_initproc (fun v r => Pst (s_k r) (s_procs r) (s_pid_lock r) (s_nextpid r) v (s_vmas r)
    (s_first r)).
Definition s_vmas_l : lens pst (gmap Z vma) :=
  Lens s_vmas (fun v r => Pst (s_k r) (s_procs r) (s_pid_lock r) (s_nextpid r) (s_initproc r) v
    (s_first r)).
Definition s_first_l : lens pst (bool) :=
  Lens s_first (fun v r => Pst (s_k r) (s_procs r) (s_pid_lock r) (s_nextpid r) (s_initproc r)
    (s_vmas r) v).

#[export] Instance s_k_laws : LensLaws s_k_l.
Proof. by split; [split|]; intros; repeat match goal with x : pst |- _ => destruct x end. Qed.
#[export] Instance s_procs_laws : LensLaws s_procs_l.
Proof. by split; [split|]; intros; repeat match goal with x : pst |- _ => destruct x end. Qed.
#[export] Instance s_pid_lock_laws : LensLaws s_pid_lock_l.
Proof. by split; [split|]; intros; repeat match goal with x : pst |- _ => destruct x end. Qed.
#[export] Instance s_nextpid_laws : LensLaws s_nextpid_l.
Proof. by split; [split|]; intros; repeat match goal with x : pst |- _ => destruct x end. Qed.
#[export] Instance s_initproc_laws : LensLaws s_initproc_l.
Proof. by split; [split|]; intros; repeat match goal with x : pst |- _ => destruct x end. Qed.
#[export] Instance s_vmas_laws : LensLaws s_vmas_l.
Proof. by split; [split|]; intros; repeat match goal with x : pst |- _ => destruct x end. Qed.
#[export] Instance s_first_laws : LensLaws s_first_l.
Proof. by split; [split|]; intros; repeat match goal with x : pst |- _ => destruct x end. Qed.

(** ** Parts of the state *)

Definition hart_l : lens pst hart := s_k_l ⊚ k_hart_l.
Definition mem_l : lens pst mem := s_k_l ⊚ k_mem_l.
(** [proc[i]] *)
Definition proc_l (i : nat) : lens pst proc := s_procs_l ⊚ lmap i proc0.
Definition plock_l (i : nat) : lens pst spinlock := proc_l i ⊚ p_lock_l.

#[export] Instance s_k_procs_indep : LensIndep s_k_l s_procs_l.
Proof. by split. Qed.
#[export] Instance s_k_pid_lock_indep : LensIndep s_k_l s_pid_lock_l.
Proof. by split. Qed.
#[export] Instance hart_laws : LensLaws hart_l.
Proof. unfold hart_l. apply _. Qed.
#[export] Instance proc_put i : LensPut (proc_l i).
Proof. unfold proc_l. apply _. Qed.
#[export] Instance plock_put i : LensPut (plock_l i).
Proof. unfold plock_l. apply _. Qed.
#[export] Instance hart_proc_indep i : LensIndep hart_l (proc_l i).
Proof. unfold hart_l, proc_l. apply _. Qed.
#[export] Instance hart_plock_indep i : LensIndep hart_l (plock_l i).
Proof. unfold plock_l. apply _. Qed.
#[export] Instance hart_pid_lock_indep : LensIndep hart_l s_pid_lock_l.
Proof. unfold hart_l. apply _. Qed.
