(* ===== verification/Vma.v ===== *)
(** Areas of user memory (kernel/vma.c).

    Each process keeps its areas on a circular doubly linked list, sorted by
    address, around a head that is no area.  The nodes are pages of the
    allocator; [s_vmas] holds their contents.  A walk of the list is given as
    many turns as there are nodes, so running out of them means that the C loop
    does not end. *)

From Stdlib Require Import Sorting.Sorted.
From S2P Require Import Prelude Mem Locks Kalloc Vm ProcState.

Definition MAXUVA : Z := 0x80000000.
Definition USER_MMAP_START : Z := MAXUVA - 0x10000000 - 2 * PGSIZE.
Definition USER_STACK_TOP : Z := MAXUVA - PGSIZE.
Definition USER_STACK_DOWN : Z := USER_MMAP_START + PGSIZE.
Definition INIT_STACK_SIZE : Z := 100 * PGSIZE.
Definition INCREASE_STACK_SIZE_PER_FAULT : Z := 100 * PGSIZE.

Abbreviation kmem m := (zoom s_k_l m).
Abbreviation psay s ap := (kmem (kprintf s ap)).

(** [*a], a node of the list. *)
Definition vget (a : Z) : M pst vma :=
  h ← rd s_vmas_l; lift "vma" (h !! a).
Definition vput (a : Z) (v : vma) : M pst unit := md s_vmas_l (<[a := v]>).
Definition vupd {T} (a : Z) (l : lens vma T) (t : T) : M pst unit :=
  v ← vget a; vput a (update l t v).

(** The loop that follows [next] from [from] until [head]: [body] stops it or
    lets it go on to the node it names. *)
Definition vwalk {B} (head from : Z) (body : Z -> vma -> M pst (Z + B)) : M pst (Z + B) :=
  h ← rd s_vmas_l;
  loop (S (size h)) from (fun a =>
    if a =? head then mret (inr (inl a))
    else v ← vget a; r ← body a v;
         mret (match r with inl n => inl n | inr b => inr (inr b) end)).

Section Vma.
Variable kernel_end : Z.
Abbreviation kfree := (kfree kernel_end).
Abbreviation uvmalloc1 := (uvmalloc1 kernel_end).
Abbreviation uvmdealloc1 := (uvmdealloc1 kernel_end).

(** [kfree] of a node. *)
Definition vfree (a : Z) : M pst unit := _ ← kmem (kfree a); md s_vmas_l (delete a).

(** What the search of [alloc_vma] finds: the node to insert before, a node
    that already covers the range, or an overlap. *)
Inductive vfound := Before (a : Z) | Covers (a : Z) | Overlap.
Definition vfind (head start end_ : Z) : M pst vfound :=
  hv ← vget head;
  r ← vwalk head (v_next hv) (fun a v =>
        if end_ <=? v_addr v then mret (inr (Before a))
        else if v_end v <=? start then mret (inl (v_next v))
        else if (v_addr v <=? start) && (end_ <=? v_end v) then mret (inr (Covers a))
        else mret (inr Overlap));
  mret (match r with inl a => Before a | inr f => f end).

(** Links [v] in before [at_]: the last assignments of [alloc_vma]. *)
Definition vlink (a at_ : Z) (v : vma) : M pst unit :=
  fv ← vget at_;
  _ ← vput a (update v_prev_l (v_prev fv) (update v_next_l at_ v));
  _ ← vupd (v_prev fv) v_next_l a;
  vupd at_ v_prev_l a.

(** The pages of the area: allocated, or those at [pa], or none. *)
Definition vma_pages (pagetable start end_ sz perm alloc pa : Z) : M kst Z :=
  if sz =? 0 then mret 0
  else if truth alloc then
    r ← uvmalloc1 pagetable start end_ perm;
    _ ← when (negb (r =? 0)) (kprintf "uvmalloc failed" []); mret r
  else if negb (pa =? 0) then
    r ← mappages pagetable start sz pa perm;
    _ ← when (negb (r =? 0)) (kprintf "mappages failed" []); mret r
  else mret 0.

Definition alloc_vma (p : nat) (type : segtype) (addr sz perm alloc pa : Z) : M pst Z :=
  let start := PGROUNDDOWN addr in
  let end_ := PGROUNDUP (u64 (addr + sz)) in
  pr ← rd (proc_l p);
  f ← vfind (p_vma pr) start end_;
  match f with
  | Covers a => mret a
  | Overlap => _ ← psay "vma address overflow" []; mret 0
  | Before find_vma =>
      a ← kmem kalloc;
      if a =? 0 then _ ← psay "vma kalloc failed" []; mret 0
      else
        _ ← kmem (md k_mem_l (fun m => memset m a 0 PGSIZE));
        _ ← vput a vma0;
        ok ← kmem (vma_pages (p_pagetable pr) start end_ sz perm alloc pa);
        if negb (ok =? 0) then _ ← vfree a; mret 0
        else
          _ ← vlink a find_vma (Vma type perm start sz end_ 0 (-1) 0 0 0);
          mret a
  end.

Definition find_mmap_vma (head : Z) : M pst Z :=
  hv ← vget head;
  r ← vwalk head (v_next hv) (fun a v =>
        if decide (v_type v = MMAP) then mret (inr a) else mret (inl (v_next v)));
  mret (match r with inl _ => 0 | inr a => a end).

Definition alloc_mmap_vma (p : nat) (flags addr sz perm fd f_off : Z) : M pst Z :=
  pr ← rd (proc_l p);
  find_vma ← find_mmap_vma (p_vma pr);
  addr ← (if addr =? 0
          then fv ← vget find_vma;
               mret (if sz <? v_addr fv then PGROUNDDOWN (u64 (v_addr fv - sz)) else addr)
          else mret addr);
  a ← alloc_vma p MMAP addr sz perm 1 0;
  if a =? 0 then _ ← psay "alloc_mmap_vma: alloc_vma failed" []; mret 0
  else _ ← vupd a v_fd_l fd; _ ← vupd a v_f_off_l f_off; mret a.

(** [vma_init]; the caller passes a process, never NULL. *)
Definition vma_init (p : nat) : M pst Z :=
  a ← kmem kalloc;
  if a =? 0 then _ ← psay "vma kalloc failed" []; mret 0
  else
    _ ← kmem (md k_mem_l (fun m => memset m a 0 PGSIZE));
    _ ← vput a (update v_prev_l a (update v_next_l a vma0));
    _ ← proc_l p ⊚ p_vma_l <~ a;
    r ← alloc_mmap_vma p 0 USER_MMAP_START 0 0 0 0;
    if r =? 0 then _ ← vfree a; mret 0 else mret a.

Definition vma_copy (np : nat) (head : Z) : M pst Z :=
  new_vma ← kmem kalloc;
  if new_vma =? 0 then _ ← psay "vma copy failed" []; _ ← proc_l np ⊚ p_vma_l <~ 0; mret 0
  else
    _ ← vput new_vma (update v_prev_l new_vma (update v_next_l new_vma vma0));
    _ ← proc_l np ⊚ p_vma_l <~ new_vma;
    hv ← vget head;
    r ← vwalk head (v_next hv) (fun pre_vma pv =>
          nvma ← kmem kalloc;
          if nvma =? 0 then mret (inr tt)
          else
            nv ← vget new_vma;
            _ ← vput nvma (update v_prev_l (v_prev nv) (update v_next_l new_vma pv));
            _ ← vupd (v_prev nv) v_next_l nvma;
            _ ← vupd new_vma v_prev_l nvma;
            mret (inl (v_next pv)));
    match r with
    | inl _ => mret new_vma
    | inr _ => _ ← proc_l np ⊚ p_vma_l <~ 0; mret 0
    end.

Definition vma_map (old new v : Z) : M pst Z :=
  vm ← vget v;
  r ← kmem (for_until (steps (v_addr vm) (v_end vm)) (fun start =>
        pte ← walk old start 0;
        if pte =? 0 then panic "uvmcopy: pte should exist"
        else
          e ← load pte;
          if negb (valid e) then panic "uvmcopy: page not present"
          else
            let pa := PTE2PA e in
            let flags := PTE_FLAGS e in
            mem ← kalloc;
            if mem =? 0 then mret (Some start)
            else
              _ ← md k_mem_l (fun m => memmove m mem pa PGSIZE);
              r ← mappages new start PGSIZE mem flags;
              if negb (r =? 0) then _ ← kfree mem; mret (Some start)
              else mret None));
  match r with
  | None => _ ← kmem (walkaddr new (v_addr vm)); mret 0
  | Some start =>
      _ ← kmem (vmunmap kernel_end new (v_addr vm) ((start - v_addr vm) / PGSIZE) 1);
      mret (-1)
  end.

Definition free_vma (p : nat) (del : Z) : M pst Z :=
  if del =? 0 then _ ← psay "[free_vma] del is nil" []; mret 0
  else
    dv ← vget del;
    if (v_prev dv =? 0) || (v_next dv =? 0) then _ ← psay "[free_vma] del is illegal" []; mret 0
    else
      _ ← vupd (v_prev dv) v_next_l (v_next dv);
      _ ← vupd (v_next dv) v_prev_l (v_prev dv);
      _ ← vupd del v_prev_l 0;
      _ ← vupd del v_next_l 0;
      pr ← rd (proc_l p);
      r ← kmem (uvmdealloc1 (p_pagetable pr) (v_addr dv) (v_end dv));
      if negb (r =? 0) then _ ← psay "[free_vma] uvmdealloc fail" []; mret 0
      else _ ← vfree del; mret 1.

Definition free_vma_list (p : nat) : M pst Z :=
  pr ← rd (proc_l p);
  let vma_head := p_vma pr in
  if vma_head =? 0 then mret 1
  else
    hv ← vget vma_head;
    r ← vwalk vma_head (v_next hv) (fun a v =>
          _ ← kmem (for_each (steps (v_addr v) (v_end v)) (fun b =>
                pte ← walk (p_pagetable pr) b 0;
                if pte =? 0 then mret tt
                else
                  e ← load pte;
                  if negb (valid e) then mret tt
                  else if PTE_FLAGS e =? PTE_V then mret tt
                  else _ ← kfree (PTE2PA e); store pte 0));
          nv ← vget (v_next v);
          _ ← vfree (v_prev nv);
          mret (@inl Z unit (v_next v)));
    match r with
    | inl a =>
        _ ← vfree a;
        _ ← proc_l p ⊚ p_vma_l <~ 0;
        mret 1
    | inr _ => mret 1
    end.

(** The last node before the head (the head itself on an empty list). *)
Definition vlast (head : Z) : M pst Z :=
  hv ← vget head;
  r ← vwalk head (v_next hv) (fun a v =>
        if v_next v =? head then mret (inr a) else mret (inl (v_next v)));
  mret (match r with inl a => a | inr a => a end).

Definition stack_area_perm : Z := Z.lor (Z.lor (Z.lor PTE_P PTE_W) PTE_PLV3) PTE_D.

Definition alloc_vma_stack (p : nat) : M pst Z :=
  let end_ := USER_STACK_TOP in
  let start := end_ - INIT_STACK_SIZE in
  pr ← rd (proc_l p);
  find_vma ← vlast (p_vma pr);
  a ← kmem kalloc;
  if a =? 0 then _ ← psay "vma kalloc failed" []; mret (u64 (-1))
  else
    r ← kmem (uvmalloc1 (p_pagetable pr) start end_ stack_area_perm);
    if negb (r =? 0) then _ ← psay "user stack vma alloc failed" []; _ ← kmem (kfree a); mret (u64 (-1))
    else
      fv ← vget find_vma;
      _ ← vput a (Vma STACK (Z.lor PTE_P PTE_W) start INIT_STACK_SIZE end_ 0 (-1)
                    (u64 (-1)) find_vma (v_next fv));
      _ ← vupd (v_next fv) v_prev_l a;
      _ ← vupd find_vma v_next_l a;
      mret 0.

(** The node of the stack, or the head if there is none. *)
Definition find_stack (head : Z) : M pst Z :=
  hv ← vget head;
  r ← vwalk head (v_next hv) (fun a v =>
        if decide (v_type v = STACK) then mret (inr a) else mret (inl (v_next v)));
  mret (match r with inl a => a | inr a => a end).

Definition handle_stack_page_fault (p : nat) (va : Z) : M pst Z :=
  if negb ((USER_STACK_DOWN <=? va) && (va <? USER_STACK_TOP)) then mret (u64 (-1))
  else
    pr ← rd (proc_l p);
    a ← find_stack (p_vma pr);
    v ← vget a;
    if negb (bool_decide (v_type v = STACK))
    then _ ← psay "handle_stack_page_fault: vma type is not stack" []; mret (u64 (-1))
    else
      _ ← psay "handle stack page fault now start %p, now end :%p, va:%p" [v_addr v; v_end v; va];
      let start := u64 (v_addr v - INCREASE_STACK_SIZE_PER_FAULT) in
      let start := if va <? start then PGROUNDDOWN va else start in
      let end_ := v_addr v in
      r ← kmem (uvmalloc1 (p_pagetable pr) start end_ stack_area_perm);
      if negb (r =? 0) then _ ← psay "user stack vma alloc failed" []; mret (u64 (-1))
      else
        _ ← vupd a v_addr_l start;
        _ ← vupd a v_sz_l (u64 (v_sz v + INCREASE_STACK_SIZE_PER_FAULT));
        mret 0.

Definition get_proc_sp (p : nat) : M pst Z :=
  pr ← rd (proc_l p);
  a ← find_stack (p_vma pr);
  v ← vget a;
  if negb (bool_decide (v_type v = STACK))
  then _ ← psay "get_proc_sp: vma type is not stack" []; mret (u64 (-1))
  else mret (v_end v).
End Vma.

(** * The list *)

Definition nxt (h : gmap Z vma) (a : Z) : option Z := v_next <$> h !! a.
Definition prv (h : gmap Z vma) (a : Z) : option Z := v_prev <$> h !! a.

(** The pairs of neighbours along [a], [l], [b]. *)
Fixpoint pairs (a : Z) (l : list Z) (b : Z) : list (Z * Z) :=
  match l with [] => [(a, b)] | x :: l' => (a, x) :: pairs x l' b end.
Definition linked (h : gmap Z vma) (xy : Z * Z) : Prop :=
  nxt h xy.1 = Some xy.2 /\ prv h xy.2 = Some xy.1.

(** [l] is the list of the nodes after [head], in both directions. *)
Record vlist (h : gmap Z vma) (head : Z) (l : list Z) : Prop := {
  vl_nodup : NoDup (head :: l);
  vl_links : Forall (linked h) (pairs head l head)
}.

Lemma pairs_app a l1 x l2 b : pairs a (l1 ++ x :: l2) b = pairs a l1 x ++ pairs x l2 b.
Proof. revert a. induction l1 as [|y l1 IH]; intros a; simpl; [done|]. by rewrite IH. Qed.
Lemma pairs_fst a l b x y : (x, y) ∈ pairs a l b -> x ∈ a :: l.
Proof.
  revert a. induction l as [|z l IH]; intros a; simpl.
  - intros [= -> ->]%list_elem_of_singleton. left.
  - intros [[= -> ->]|H]%elem_of_cons; [left|]. right. by apply IH.
Qed.
Lemma pairs_snd a l b x y : (x, y) ∈ pairs a l b -> y ∈ l ++ [b].
Proof.
  revert a. induction l as [|z l IH]; intros a; simpl.
  - intros [= -> ->]%list_elem_of_singleton. left.
  - intros [[= -> ->]|H]%elem_of_cons; [left|]. right. by eapply IH.
Qed.
Lemma pairs_node a l b x : x ∈ a :: l -> exists y, (x, y) ∈ pairs a l b.
Proof.
  revert a. induction l as [|z l IH]; intros a; simpl.
  - intros ->%list_elem_of_singleton. exists b. left.
  - intros [->|H]%elem_of_cons; [exists z; left|]. destruct (IH z H) as [y Hy]. exists y. by right.
Qed.
(** The last node before [b]. *)
Lemma pairs_last a l b : exists l' z, (z, b) ∈ pairs a l b /\ a :: l = l' ++ [z].
Proof.
  revert a. induction l as [|x l IH]; intros a; simpl.
  - exists [], a. split; [left|done].
  - destruct (IH x) as (l' & z & Hz & ->). exists (a :: l'), z. split; [by right|done].
Qed.

Lemma vlist_in h head l a : vlist h head l -> a ∈ head :: l -> is_Some (h !! a).
Proof.
  intros [_ Hl] Ha. destruct (pairs_node head l head a Ha) as [y Hy].
  rewrite Forall_forall in Hl. destruct (Hl _ Hy) as [Hn _]. unfold nxt in Hn.
  simpl in Hn. destruct (h !! a); [by eexists|done].
Qed.

Lemma vlist_size h head l : vlist h head l -> (length l < size h)%nat.
Proof.
  intros Hl. assert (size (list_to_set (head :: l) : gset Z) <= size (dom h))%nat as Hs.
  { apply subseteq_size. intros a Ha%elem_of_list_to_set. apply elem_of_dom.
    by apply (vlist_in h head l). }
  rewrite size_list_to_set in Hs by apply Hl. rewrite size_dom in Hs. simpl in Hs. lia.
Qed.

(** ** Walking the list *)

(** What a walk whose body only looks finds: the value at the first node where
    [look] has one. *)
Fixpoint vscan {B} (h : gmap Z vma) (look : Z -> vma -> option B) (l : list Z) : option B :=
  match l with
  | [] => None
  | a :: l' =>
      match h !! a with
      | Some v => match look a v with Some b => Some b | None => vscan h look l' end
      | None => None
      end
  end.

Lemma vget_eq a v s : s_vmas s !! a = Some v -> vget a s = Ret v s.
Proof. intros Ha. unfold vget. mrun. by rewrite Ha. Qed.

Lemma vwalk_look {B} (look : Z -> vma -> option B) (body : Z -> vma -> M pst (Z + B)) head l s :
  vlist (s_vmas s) head l ->
  (forall a v s, body a v s
     = Ret (match look a v with Some b => inr b | None => inl (v_next v) end) s) ->
  forall hv, s_vmas s !! head = Some hv ->
  vwalk head (v_next hv) body s
  = Ret (match vscan (s_vmas s) look l with Some b => inr b | None => inl head end) s.
Proof.
  intros Hl Hbody hv Hhv. unfold vwalk. rewrite (bind_ret _ _ s (s_vmas s) s) by reflexivity.
  pose proof (vlist_size _ _ _ Hl) as Hsz.
  destruct Hl as [Hnd Hlk].
  assert (forall l' a fuel, (length l' < fuel)%nat -> (forall x, x ∈ l' -> x <> head) ->
    Forall (linked (s_vmas s)) (pairs a l' head) ->
    forall v, s_vmas s !! a = Some v ->
    loop fuel (v_next v) (fun a => if a =? head then mret (inr (inl a))
      else v ← vget a; r ← body a v;
           mret (match r with inl n => inl n | inr b => inr (inr b) end)) s
    = Ret (match vscan (s_vmas s) look l' with Some b => inr b | None => inl head end) s) as Hgen.
  { clear Hnd Hlk hv Hhv Hsz l. intros l'. induction l' as [|x l' IH]; intros a fuel Hf Hne Hlk v Hv;
      (destruct fuel as [|fuel]; [simpl in Hf; lia|]); cbn [pairs] in Hlk;
      apply Forall_cons in Hlk as [[Hn Hp] Hlk]; simpl in Hn, Hp; unfold nxt in Hn;
      rewrite Hv in Hn; injection Hn as Hn; rewrite Hn; cbn [loop].
    - rewrite Z.eqb_refl. done.
    - rewrite (proj2 (Z.eqb_neq x head)) by (apply Hne; left).
      unfold prv in Hp. destruct (s_vmas s !! x) as [w|] eqn:Hw; [|done].
      cbn [vscan]. rewrite Hw.
      erewrite bind_ret; [|erewrite bind_ret by (by apply vget_eq);
        erewrite bind_ret by apply Hbody; reflexivity].
      destruct (look x w) as [b|]; [done|]. cbn beta iota.
      apply (IH x); [simpl in Hf; lia| |done|done]. intros y Hy. apply Hne. by right. }
  apply (Hgen l head); [simpl in *; lia| |done|done].
  intros x Hx ->. apply NoDup_cons in Hnd as [Hnin _]. done.
Qed.

Lemma vput_eq a v s :
  vput a v s = Ret tt (update s_vmas_l (<[a := v]> (s_vmas s)) s).
Proof. done. Qed.
Lemma vupd_eq {T} a (l : lens vma T) t v s : s_vmas s !! a = Some v ->
  vupd a l t s = Ret tt (update s_vmas_l (<[a := update l t v]> (s_vmas s)) s).
Proof. intros Ha. unfold vupd. by rewrite (bind_ret _ _ _ _ _ (vget_eq a v s Ha)). Qed.

(** What an area says, without its links. *)
Definition data (v : vma) : vma :=
  Vma (v_type v) (v_perm v) (v_addr v) (v_sz v) (v_end v) (v_flags v) (v_fd v) (v_f_off v) 0 0.

(** The list with [a] put in between [p] and [b]. *)
Definition relinked (h : gmap Z vma) (p a b : Z) (v : vma) (h' : gmap Z vma) : Prop :=
  (forall x, nxt h' x = if decide (x = a) then Some b else if decide (x = p) then Some a else nxt h x)
  /\ (forall x, prv h' x = if decide (x = a) then Some p else if decide (x = b) then Some a else prv h x)
  /\ (forall x w, x <> a -> h !! x = Some w ->
        exists w', h' !! x = Some w' /\ v_addr w' = v_addr w /\ v_end w' = v_end w
                   /\ v_type w' = v_type w /\ data w' = data w)
  /\ (exists w', h' !! a = Some w' /\ v_addr w' = v_addr v /\ v_end w' = v_end v
        /\ v_type w' = v_type v /\ data w' = data v).

Lemma vlink_eq h p a b v s pw bw :
  s_vmas s = h -> h !! b = Some bw -> v_prev bw = p -> h !! p = Some pw -> a <> p -> a <> b ->
  exists h', vlink a b v s = Ret tt (update s_vmas_l h' s) /\ relinked h p a b v h'.
Proof.
  intros Hs Hb Hbp Hp Hap Hab. unfold vlink.
  rewrite (bind_ret _ _ _ _ _ (vget_eq b bw s ltac:(by rewrite Hs))).
  rewrite (bind_ret _ _ _ _ _ (vput_eq _ _ _)). rewrite Hs, Hbp.
  set (na := update v_prev_l p (update v_next_l b v)).
  erewrite bind_ret; [|apply vupd_eq; cbn; rewrite lookup_insert_ne by congruence; exact Hp].
  cbn [s_vmas s_vmas_l update].
  destruct (decide (p = b)) as [->|Hpb].
  - assert (bw = pw) as -> by congruence.
    erewrite vupd_eq by (cbn; apply lookup_insert_eq). eexists. split; [reflexivity|].
    cbn. rewrite insert_insert_eq. unfold relinked, nxt, prv. split; [|split; [|split]].
    1,2: intros x; rewrite !lookup_insert; repeat case_decide; by simplify_eq/=.
    + intros x w Hx Hw. rewrite !lookup_insert. repeat case_decide; simplify_eq/=; eauto 10.
    + rewrite !lookup_insert. repeat case_decide; simplify_eq/=; eauto 10.
  - erewrite vupd_eq by (cbn; rewrite !lookup_insert_ne by congruence; exact Hb).
    eexists. split; [reflexivity|]. cbn. unfold relinked, nxt, prv. split; [|split; [|split]].
    1,2: intros x; rewrite !lookup_insert; repeat case_decide; simplify_eq/=;
      rewrite ?Hb, ?Hp; simpl; congruence.
    + intros x w Hx Hw. rewrite !lookup_insert. repeat case_decide; simplify_eq/=; eauto 10.
    + rewrite !lookup_insert. repeat case_decide; simplify_eq/=; eauto 10.
Qed.

Lemma pairs_fsts a l b : map fst (pairs a l b) = a :: l.
Proof. revert a. induction l as [|x l IH]; intros a; simpl; [done|]. by rewrite IH. Qed.
Lemma pairs_snds a l b : map snd (pairs a l b) = l ++ [b].
Proof. revert a. induction l as [|x l IH]; intros a; simpl; [done|]. by rewrite IH. Qed.

(** The node after [l1] in [l1 ++ l2], and the pairs around that place. *)
Definition hd_or (head : Z) (l2 : list Z) : Z := match l2 with [] => head | x :: _ => x end.
Definition tl_pairs (head : Z) (l2 : list Z) : list (Z * Z) :=
  match l2 with [] => [] | x :: l2' => pairs x l2' head end.
Fixpoint init_pairs (a : Z) (l : list Z) : list (Z * Z) :=
  match l with [] => [] | x :: l' => (a, x) :: init_pairs x l' end.
Fixpoint last_of (a : Z) (l : list Z) : Z := match l with [] => a | x :: l' => last_of x l' end.

Lemma pairs_at a l1 l2 b :
  pairs a (l1 ++ l2) b = init_pairs a l1 ++ (last_of a l1, hd_or b l2) :: tl_pairs b l2.
Proof.
  revert a. induction l1 as [|x l1 IH]; intros a; simpl.
  - by destruct l2.
  - by rewrite IH.
Qed.
Lemma pairs_mid a l1 x l2 b :
  pairs a (l1 ++ x :: l2) b
  = init_pairs a l1 ++ (last_of a l1, x) :: (x, hd_or b l2) :: tl_pairs b l2.
Proof. rewrite (pairs_at a l1 (x :: l2)). simpl. by destruct l2. Qed.

(** Inserting a new node between two neighbours keeps a list. *)
Lemma relinked_vlist h h' head l1 l2 a v :
  vlist h head (l1 ++ l2) -> a ∉ head :: l1 ++ l2 ->
  relinked h (last_of head l1) a (hd_or head l2) v h' ->
  vlist h' head (l1 ++ a :: l2).
Proof.
  intros [Hnd Hlk] Ha (Hn & Hp & _). split.
  - rewrite <- Permutation_middle. apply not_elem_of_cons in Ha as [Hah Ha].
    apply NoDup_cons in Hnd as [Hh Hnd]. apply NoDup_cons. split.
    + apply not_elem_of_cons. split; [congruence|done].
    + by apply NoDup_cons.
  - pose proof (pairs_fsts head (l1 ++ l2) head) as Hf.
    pose proof (pairs_snds head (l1 ++ l2) head) as Hs.
    assert (forall x y, (x, y) ∈ pairs head (l1 ++ l2) head -> x <> a /\ y <> a) as Hne.
    { intros x y Hxy. split; intros ->.
      - by apply pairs_fst in Hxy.
      - apply pairs_snd in Hxy. apply Ha. rewrite elem_of_cons.
        rewrite elem_of_app, list_elem_of_singleton in Hxy. tauto. }
    assert (NoDup (map fst (pairs head (l1 ++ l2) head))) as Hnf by (by rewrite Hf).
    assert (NoDup (map snd (pairs head (l1 ++ l2) head))) as Hns
      by (rewrite Hs, Permutation_app_comm; done).
    rewrite pairs_mid. rewrite pairs_at in Hlk, Hne, Hnf, Hns.
    set (p := last_of head l1) in *. set (b := hd_or head l2) in *.
    assert (forall xy, xy ∈ init_pairs head l1 ++ tl_pairs head l2 -> linked h' xy) as Hkeep.
    { intros [x y] Hxy.
      assert ((x, y) ∈ init_pairs head l1 ++ (p, b) :: tl_pairs head l2) as Hin
        by (rewrite elem_of_app in Hxy; rewrite elem_of_app, elem_of_cons; tauto).
      rewrite Forall_forall in Hlk. destruct (Hlk _ Hin) as [H1 H2]. simpl in H1, H2.
      destruct (Hne x y Hin) as [Hxa Hya].
      assert (x <> p /\ y <> b) as [Hxp Hyb].
      { rewrite <- Permutation_middle in Hnf, Hns. simpl in Hnf, Hns.
        apply NoDup_cons in Hnf as [Hnf _]. apply NoDup_cons in Hns as [Hns _].
        split; intros ->; [apply Hnf|apply Hns]; apply list_elem_of_fmap.
        - by exists (p, y).
        - by exists (x, b). }
      split; simpl; [rewrite Hn|rewrite Hp]; by rewrite !decide_False. }
    assert (p <> a /\ b <> a) as [Hpa Hba]
      by (apply Hne, elem_of_app; right; left).
    rewrite Forall_app, !Forall_cons. split; [|split; [|split]].
    + apply Forall_forall. intros xy Hxy. apply Hkeep, elem_of_app. by left.
    + split; simpl; [rewrite Hn, decide_False, decide_True by done; done|].
      by rewrite Hp, decide_True.
    + split; simpl; [by rewrite Hn, decide_True|].
      by rewrite Hp, decide_False, decide_True.
    + apply Forall_forall. intros xy Hxy. apply Hkeep, elem_of_app. by right.
Qed.

(** * The order of the areas *)

Definition addr_of (h : gmap Z vma) (a : Z) : Z := default 0 (v_addr <$> h !! a).
Definition end_of (h : gmap Z vma) (a : Z) : Z := default 0 (v_end <$> h !! a).

(** Sorted by address, and disjoint. *)
Record sorted_areas (h : gmap Z vma) (l : list Z) : Prop := {
  sa_order : StronglySorted (fun x y => end_of h x <= addr_of h y) l;
  sa_area : Forall (fun x => addr_of h x <= end_of h x) l
}.

Definition look_alloc (start end_ : Z) (a : Z) (v : vma) : option vfound :=
  if end_ <=? v_addr v then Some (Before a)
  else if v_end v <=? start then None
  else if (v_addr v <=? start) && (end_ <=? v_end v) then Some (Covers a)
  else Some Overlap.

(** What the search has established when it answers [f]. *)
Definition found_spec (h : gmap Z vma) (head start end_ : Z) (l : list Z) (f : vfound) : Prop :=
  match f with
  | Before at_ => exists l1 l2, l = l1 ++ l2 /\ at_ = hd_or head l2
      /\ Forall (fun x => end_of h x <= start) l1 /\ Forall (fun x => end_ <= addr_of h x) l2
  | Covers a => a ∈ l /\ addr_of h a <= start /\ end_ <= end_of h a
  | Overlap => exists a, a ∈ l /\ start < end_of h a /\ addr_of h a < end_
      /\ ~ (addr_of h a <= start /\ end_ <= end_of h a)
  end.

Lemma found_cons h head start end_ x l f :
  end_of h x <= start ->
  found_spec h head start end_ l f -> found_spec h head start end_ (x :: l) f.
Proof.
  intros Hx. destruct f as [at_|a|]; cbn.
  - intros (l1 & l2 & -> & -> & H1 & H2). exists (x :: l1), l2. repeat split; auto.
  - intros (? & ? & ?). split; [by right|done].
  - intros (a & ? & ?). exists a. split; [by right|done].
Qed.

Lemma scan_alloc h head start end_ l :
  sorted_areas h l -> Forall (fun a => is_Some (h !! a)) l ->
  found_spec h head start end_ l
    (default (Before head) (vscan h (look_alloc start end_) l)).
Proof.
  intros [Hs Ha] Hin. induction l as [|x l IH]; cbn [vscan].
  - exists [], []. repeat split; constructor.
  - apply Forall_cons in Hin as [[v Hv] Hin]. apply Forall_cons in Ha as [Hax Ha].
    apply StronglySorted_inv in Hs as [Hs Hord]. rewrite Hv.
    assert (addr_of h x = v_addr v /\ end_of h x = v_end v) as [Eaddr Eend]
      by (unfold addr_of, end_of; by rewrite Hv).
    unfold look_alloc at 1. destruct (Z.leb_spec end_ (v_addr v)).
    { exists [], (x :: l). repeat split; [constructor|]. constructor; [lia|].
      apply Forall_forall. intros y Hy. rewrite Forall_forall in Hord. specialize (Hord y Hy).
      cbv beta in Hord. lia. }
    destruct (Z.leb_spec (v_end v) start).
    { apply found_cons; [lia|]. by apply IH. }
    destruct ((v_addr v <=? start) && (end_ <=? v_end v)) eqn:E; cbn.
    + apply andb_prop in E as [?%Z.leb_le ?%Z.leb_le]. split; [left|lia].
    + exists x. split; [left|]. split; [lia|]. split; [lia|]. intros [? ?].
      rewrite Eaddr, Eend in *. apply andb_false_iff in E as [?%Z.leb_gt|?%Z.leb_gt]; lia.
Qed.

(** The search ends, and finds what its answer says. *)
Lemma vfind_ok head start end_ l s :
  vlist (s_vmas s) head l -> sorted_areas (s_vmas s) l ->
  exists f, vfind head start end_ s = Ret f s /\ found_spec (s_vmas s) head start end_ l f.
Proof.
  intros Hl Hs. destruct (vlist_in _ head l head Hl) as [hv Hhv]; [left|].
  exists (default (Before head) (vscan (s_vmas s) (look_alloc start end_) l)). split.
  - unfold vfind. rewrite (bind_ret _ _ _ _ _ (vget_eq head hv s Hhv)).
    erewrite bind_ret; [|apply (vwalk_look (look_alloc start end_) _ head l s Hl); [|done]].
    + by destruct (vscan _ _ l).
    + intros a v s'. unfold look_alloc. destruct (end_ <=? v_addr v); [done|].
      destruct (v_end v <=? start); [done|]. by destruct (_ && _).
  - apply scan_alloc; [done|]. apply Forall_forall. intros a Ha.
    apply (vlist_in _ head l); [done|by right].
Qed.

Lemma relinked_areas h h' p a b v x : relinked h p a b v h' -> x <> a -> is_Some (h !! x) ->
  addr_of h' x = addr_of h x /\ end_of h' x = end_of h x.
Proof.
  intros (_ & _ & Hk & _) Hx [w Hw]. destruct (Hk x w Hx Hw) as (w' & Hw' & Ha & He & _).
  unfold addr_of, end_of. rewrite Hw, Hw'. simpl. by rewrite Ha, He.
Qed.

(** The order depends on the ends of the areas only. *)
Lemma sorted_ext h h' l :
  (forall x, x ∈ l -> addr_of h' x = addr_of h x /\ end_of h' x = end_of h x) ->
  sorted_areas h l -> sorted_areas h' l.
Proof.
  intros Hsame [Hs Ha]. split.
  - clear Ha. induction l as [|x l IH]; [constructor|].
    apply StronglySorted_inv in Hs as [Hs Hx].
    constructor; [apply IH; [|done]; intros y Hy; apply Hsame; by right|].
    rewrite Forall_forall in Hx |- *. intros y Hy. destruct (Hsame x) as [_ ->]; [left|].
    destruct (Hsame y) as [-> _]; [by right|]. by apply Hx.
  - rewrite Forall_forall in Ha |- *. intros x Hx. destruct (Hsame x Hx) as [-> ->]. by apply Ha.
Qed.

Lemma sorted_insert h h' l1 l2 p a b v :
  sorted_areas h (l1 ++ l2) -> Forall (fun x => is_Some (h !! x)) (l1 ++ l2) -> a ∉ l1 ++ l2 ->
  relinked h p a b v h' -> v_addr v <= v_end v ->
  Forall (fun x => end_of h x <= v_addr v) l1 -> Forall (fun x => v_end v <= addr_of h x) l2 ->
  sorted_areas h' (l1 ++ a :: l2).
Proof.
  intros [Hs Ha] Hin Hna Hr Hv H1 H2.
  assert (forall x, x ∈ l1 ++ l2 -> addr_of h' x = addr_of h x /\ end_of h' x = end_of h x) as Hsame.
  { intros x Hx. rewrite Forall_forall in Hin. eapply relinked_areas; [done| |by apply Hin]. congruence. }
  assert (addr_of h' a = v_addr v /\ end_of h' a = v_end v) as [Eaddr Eend].
  { destruct Hr as (_ & _ & _ & (w' & Hw' & Haw & Hew & _)). unfold addr_of, end_of.
    rewrite Hw'. simpl. by rewrite Haw, Hew. }
  split.
  - induction l1 as [|y l1 IH]; simpl in *.
    + constructor.
      * apply (sorted_ext h h' l2 Hsame). by split.
      * rewrite Forall_forall in H2 |- *. intros x Hx. rewrite Eend.
        destruct (Hsame x) as [-> _]; [done|]. by apply H2.
    + apply StronglySorted_inv in Hs as [Hs Hy]. apply Forall_cons in Ha as [_ Ha].
      apply Forall_cons in Hin as [_ Hin]. apply Forall_cons in H1 as [H1y H1].
      constructor.
      * apply IH; try done; [intros Hx; apply Hna; by right|]. intros x Hx. apply Hsame. by right.
      * rewrite Forall_forall in Hy |- *. intros x Hx. cbv beta.
        destruct (Hsame y) as [_ ->]; [left|].
        rewrite <- Permutation_middle in Hx. apply elem_of_cons in Hx as [->|Hx]; [lia|].
        destruct (Hsame x) as [-> _]; [by right|]. by apply Hy.
  - rewrite <- Permutation_middle. constructor; [lia|].
    rewrite Forall_forall in Ha |- *. intros x Hx. destruct (Hsame x Hx) as [-> ->]. by apply Ha.
Qed.

Lemma last_of_in a l : last_of a l ∈ a :: l.
Proof. revert a. induction l as [|x l IH]; intros a; simpl; [left|]. right. apply IH. Qed.
Lemma hd_or_in b l : hd_or b l ∈ b :: l.
Proof. destruct l; simpl; [left|right; left]. Qed.

(** Linking in the node the search asks for. *)
Lemma vlink_ok head l1 l2 a v s :
  vlist (s_vmas s) head (l1 ++ l2) -> sorted_areas (s_vmas s) (l1 ++ l2) ->
  a ∉ head :: l1 ++ l2 -> v_addr v <= v_end v ->
  Forall (fun x => end_of (s_vmas s) x <= v_addr v) l1 ->
  Forall (fun x => v_end v <= addr_of (s_vmas s) x) l2 ->
  wp (vlink a (hd_or head l2) v)
    (fun _ s' => exists h', s' = update s_vmas_l h' s /\ vlist h' head (l1 ++ a :: l2)
       /\ sorted_areas h' (l1 ++ a :: l2) /\ relinked (s_vmas s) (last_of head l1) a (hd_or head l2) v h') s.
Proof.
  intros Hl Hs Ha Hv H1 H2.
  assert (hd_or head l2 ∈ head :: l1 ++ l2) as Hb.
  { pose proof (hd_or_in head l2) as Hb. rewrite elem_of_cons in Hb. rewrite elem_of_cons, elem_of_app. tauto. }
  assert (last_of head l1 ∈ head :: l1 ++ l2) as Hp.
  { pose proof (last_of_in head l1) as Hp. rewrite elem_of_cons in Hp. rewrite elem_of_cons, elem_of_app. tauto. }
  destruct (vlist_in _ _ _ _ Hl Hb) as [bw Hbw]. destruct (vlist_in _ _ _ _ Hl Hp) as [pw Hpw].
  assert (v_prev bw = last_of head l1) as Hbp.
  { pose proof (vl_links _ _ _ Hl) as Hlk. rewrite pairs_at in Hlk.
    apply Forall_app in Hlk as [_ Hlk]. apply Forall_cons in Hlk as [[_ Hprv] _].
    simpl in Hprv. unfold prv in Hprv. rewrite Hbw in Hprv. by injection Hprv. }
  destruct (vlink_eq (s_vmas s) (last_of head l1) a (hd_or head l2) v s pw bw) as (h' & E & Hr);
    [done..|congruence|congruence|].
  eapply wp_eq; [exact E|]. exists h'. split; [done|]. split; [by eapply relinked_vlist|]. split.
  - eapply sorted_insert; try done.
    + apply Forall_forall. intros x Hx. apply (vlist_in _ head (l1 ++ l2)); [done|by right].
    + intros Hin. apply Ha. by right.
  - exact Hr.
Qed.

(** A node off the list does not matter to it. *)
Lemma vlist_ins h head l q v : q ∉ head :: l -> vlist h head l -> vlist (<[q:=v]> h) head l.
Proof.
  intros Hq [Hnd Hl]. split; [done|]. rewrite Forall_forall in Hl |- *. intros [x y] Hxy.
  destruct (Hl _ Hxy) as [H1 H2]. pose proof (pairs_fst _ _ _ _ _ Hxy) as Hx.
  pose proof (pairs_snd _ _ _ _ _ Hxy) as Hy. rewrite elem_of_app, list_elem_of_singleton in Hy.
  rewrite elem_of_cons in Hq, Hx.
  unfold linked, nxt, prv in *. simpl in *. rewrite !lookup_insert_ne; [done|..]; intros ->; tauto.
Qed.
Lemma areas_ins h l q v : q ∉ l ->
  (forall x, x ∈ l -> addr_of (<[q:=v]> h) x = addr_of h x /\ end_of (<[q:=v]> h) x = end_of h x)
  /\ (sorted_areas h l -> sorted_areas (<[q:=v]> h) l).
Proof.
  intros Hq. assert (forall x, x ∈ l ->
    addr_of (<[q:=v]> h) x = addr_of h x /\ end_of (<[q:=v]> h) x = end_of h x) as Hsame.
  { intros x Hx. unfold addr_of, end_of. rewrite lookup_insert_ne; [done|]. congruence. }
  split; [done|]. by apply sorted_ext.
Qed.
