(* ===== verification/Proc.v ===== *)
(** Processes: kernel/proc.c without [fork], [exit] and [clone], whose work on
    open files belongs to the file layer.

    A process is its index in the table.  A process that leaves the processor
    through [swtch] yields ([WSched]) and goes on from the state it is resumed
    in; what runs in between (the scheduler, other harts, interrupts) is the
    environment of the resumption. *)

From S2P Require Import Prelude Mem Strings Locks Kalloc Vm ProcState Vma.

Definition nproc : list nat := seq 0 50.

(** [myproc()]; a null result is about to be dereferenced. *)
Definition cur : M pst nat := o ← zoom hart_l myproc; lift "myproc" o.
Definition plock (i : nat) : M pst unit := acquire hart_l (plock_l i).
Definition punlock (i : nat) : M pst unit := release hart_l (plock_l i).

Definition get_proc_addr_num (p : nat) : Z := if decide (p < 50)%nat then Z.of_nat p else -1.

(** * Sleeping and waking *)

(** Saves the context and switches to the scheduler (kernel/swtch.S). *)
Definition swtch : M pst unit := fun s => Yield WSched (fun s' => Ret tt s') s.

Definition sched : M pst unit :=
  p ← cur;
  h ← holding hart_l (plock_l p);
  if negb h then panic "sched p->lock"
  else
    noff ← rd (hart_l ⊚ mycpu_l ⊚ c_noff_l);
    if negb (noff =? 1) then panic "sched locks"
    else
      st ← rd (proc_l p ⊚ p_state_l);
      if decide (st = RUNNING) then panic "sched running"
      else
        ie ← zoom hart_l intr_get;
        if truth ie then panic "sched interruptible"
        else
          intena ← rd (hart_l ⊚ mycpu_l ⊚ c_intena_l);
          _ ← swtch;
          hart_l ⊚ mycpu_l ⊚ c_intena_l <~ intena.

Definition yield : M pst unit :=
  p ← cur;
  _ ← plock p;
  _ ← proc_l p ⊚ p_state_l <~ RUNNABLE;
  _ ← sched;
  punlock p.

(** [sleep(chan, lk)], for a lock [lk] that is not the process's own: a lock
    anywhere in a state that has the process layer as a part. *)
Definition sleep {S} (ps : lens S pst) (ch : chan) (lk : lens S spinlock) : M S unit :=
  p ← zoom ps cur;
  _ ← acquire (ps ⊚ hart_l) (ps ⊚ plock_l p);
  _ ← release (ps ⊚ hart_l) lk;
  _ ← ps ⊚ (proc_l p ⊚ p_chan_l) <~ Some ch;
  _ ← ps ⊚ (proc_l p ⊚ p_state_l) <~ SLEEPING;
  _ ← zoom ps sched;
  _ ← ps ⊚ (proc_l p ⊚ p_chan_l) <~ None;
  _ ← release (ps ⊚ hart_l) (ps ⊚ plock_l p);
  acquire (ps ⊚ hart_l) lk.
(** [sleep(chan, &p->lock)] *)
Definition sleep_self (ch : chan) : M pst unit :=
  p ← cur;
  _ ← proc_l p ⊚ p_chan_l <~ Some ch;
  _ ← proc_l p ⊚ p_state_l <~ SLEEPING;
  _ ← sched;
  proc_l p ⊚ p_chan_l <~ None.

Definition wakeup (ch : chan) : M pst unit :=
  for_each nproc (fun p =>
    _ ← plock p;
    pr ← rd (proc_l p);
    _ ← when (bool_decide (p_state pr = SLEEPING) && bool_decide (p_chan pr = Some ch))
          (proc_l p ⊚ p_state_l <~ RUNNABLE);
    punlock p).

Definition wakeup1 (p : nat) : M pst unit :=
  h ← holding hart_l (plock_l p);
  if negb h then panic "wakeup1"
  else
    pr ← rd (proc_l p);
    when (bool_decide (p_chan pr = Some (CProc p)) && bool_decide (p_state pr = SLEEPING))
      (proc_l p ⊚ p_state_l <~ RUNNABLE).

(** The shift [1 << sig] is an [int]. *)
Definition kill (pid sig : Z) : M pst Z :=
  r ← for_until nproc (fun p =>
        _ ← plock p;
        pr ← rd (proc_l p);
        if p_pid pr =? pid then
          _ ← proc_l p ⊚ p_sig_pending_l
                <~ Z.lor (p_sig_pending pr) (u64 (s32 (Z.shiftl 1 sig)));
          _ ← when ((p_killed pr =? 0) || (sig <? p_killed pr))
                (proc_l p ⊚ p_killed_l <~ sig);
          _ ← when (bool_decide (p_state pr = SLEEPING))
                (proc_l p ⊚ p_state_l <~ RUNNABLE);
          _ ← punlock p;
          mret (Some 0)
        else _ ← punlock p; mret None);
  mret (default (-1) r).
Definition tgkill (tid pid sig : Z) : M pst Z := kill tid sig.

(** One pass of the scheduler over the table.  A chosen process runs until it
    comes back with its lock held, which is one resumption. *)
Definition scheduler_pass : M pst bool :=
  _ ← zoom hart_l intr_on;
  r ← for_acc nproc false (fun p (found : bool) =>
        _ ← plock p;
        st ← rd (proc_l p ⊚ p_state_l);
        found ← (if decide (st = RUNNABLE) then
                   _ ← proc_l p ⊚ p_state_l <~ RUNNING;
                   _ ← zoom hart_l (mycpu_l ⊚ c_proc_l <~ Some p);
                   _ ← swtch;
                   _ ← zoom hart_l (mycpu_l ⊚ c_proc_l <~ None);
                   mret true
                 else mret found);
        _ ← punlock p;
        mret (@inl bool unit found));
  mret (match r with inl b => b | inr _ => false end).

(** * The table *)

Definition allocpid : M pst Z :=
  _ ← acquire hart_l s_pid_lock_l;
  pid ← rd s_nextpid_l;
  _ ← s_nextpid_l <~ s32 (pid + 1);
  _ ← release hart_l s_pid_lock_l;
  mret pid.

Definition cpuinit : M pst unit :=
  md (hart_l ⊚ Lens h_cpus (fun v h => Hart (h_tp h) (h_crmd h) v))
     (map (fun _ => Cpu None 0 0)).

(** [procinit]: the fields it sets. *)
Definition procinit : M pst unit :=
  _ ← s_pid_lock_l <~ Spin 0 "nextpid" None;
  _ ← for_each nproc (fun p =>
        md (proc_l p) (fun pr =>
          Proc (Spin 0 "proc" None) UNUSED None None 0 0 0 (p_uid pr) (p_gid pr) (p_pgid pr)
            (p_filelimit pr) (PROCVKSTACK (Z.of_nat p)) 0 0 0 (p_ctx_ra pr) (p_ctx_sp pr)
            (replicate NOFILE None) (p_exec_close pr) None (<[0%nat := 0]> (p_name pr)) 0 0 0 0
            (p_char_count pr) ∅ 0 0 0));
  cpuinit.

Definition reparent (p : nat) : M pst unit :=
  for_each nproc (fun pp =>
    pr ← rd (proc_l pp);
    when (bool_decide (p_parent pr = Some p))
      (_ ← plock pp;
       init ← rd s_initproc_l;
       _ ← proc_l pp ⊚ p_parent_l <~ init;
       punlock pp)).

Definition procnum : M pst Z :=
  r ← for_acc nproc 0 (fun p num =>
        st ← rd (proc_l p ⊚ p_state_l);
        mret (@inl Z unit (if decide (st = UNUSED) then num else num + 1)));
  mret (match r with inl n => n | inr _ => 0 end).

Section Proc.
(** Addresses from the linker and from assembly code, and the first program. *)
Variables kernel_end trampoline signalTrampoline forkret_addr initcode initcodesize : Z.
Abbreviation kfree := (kfree kernel_end).
Abbreviation vmunmap := (vmunmap kernel_end).

(** Depth of a page table: fuel for [freewalk]. *)
Definition FREEWALK_FUEL : nat := 4.

Definition proc_pagetable (p : nat) : M pst Z :=
  pagetable ← kmem uvmcreate;
  if pagetable =? 0 then mret 0
  else
    v ← vma_init kernel_end p;
    if v =? 0 then _ ← kmem (uvmfree kernel_end FREEWALK_FUEL pagetable 0); mret 0
    else
      let perm := Z.lor (Z.lor PTE_P PTE_MAT) PTE_D in
      r ← kmem (mappages pagetable TRAMPOLINE PGSIZE trampoline perm);
      if r <? 0 then _ ← kmem (uvmfree kernel_end FREEWALK_FUEL pagetable 0); mret 0
      else
        tf ← rd (proc_l p ⊚ p_trapframe_l);
        r ← kmem (mappages pagetable TRAPFRAME PGSIZE tf
                    (Z.lor (Z.lor (Z.lor (Z.lor PTE_NX PTE_P) PTE_W) PTE_MAT) PTE_D));
        if r <? 0 then
          _ ← kmem (vmunmap pagetable TRAMPOLINE 1 0);
          _ ← kmem (uvmfree kernel_end FREEWALK_FUEL pagetable 0); mret 0
        else
          r ← kmem (mappages pagetable SIGTRAMPOLINE PGSIZE signalTrampoline perm);
          if r <? 0 then
            _ ← kmem (vmunmap pagetable TRAMPOLINE 1 0);
            _ ← kmem (vmunmap pagetable TRAPFRAME 1 0);
            _ ← kmem (uvmfree kernel_end FREEWALK_FUEL pagetable 0); mret 0
          else mret pagetable.

Definition proc_freepagetable (pagetable sz : Z) : M pst unit :=
  _ ← kmem (vmunmap pagetable TRAMPOLINE 1 0);
  _ ← kmem (vmunmap pagetable TRAPFRAME 1 0);
  kmem (uvmfree kernel_end FREEWALK_FUEL pagetable sz).

Definition freeproc (p : nat) : M pst unit :=
  pr ← rd (proc_l p);
  _ ← when (truth (p_trapframe pr)) (kmem (kfree (p_trapframe pr)));
  _ ← kmem (kfree (p_exec_close pr));
  _ ← proc_l p ⊚ p_trapframe_l <~ 0;
  _ ← when (truth (p_pagetable pr))
        (_ ← free_vma_list kernel_end p;
         proc_freepagetable (p_pagetable pr) (p_sz pr));
  _ ← kmem freemem_amount;
  _ ← proc_l p ⊚ p_pagetable_l <~ 0;
  _ ← proc_l p ⊚ p_vma_l <~ 0;
  _ ← proc_l p ⊚ p_sz_l <~ 0;
  _ ← proc_l p ⊚ p_pid_l <~ 0;
  _ ← proc_l p ⊚ p_parent_l <~ None;
  _ ← md (proc_l p ⊚ p_name_l) (<[0%nat := 0]>);
  _ ← proc_l p ⊚ p_chan_l <~ None;
  _ ← proc_l p ⊚ p_killed_l <~ 0;
  _ ← proc_l p ⊚ p_xstate_l <~ 0;
  proc_l p ⊚ p_state_l <~ UNUSED.

(** The search of [allocproc]: the first unused process, its lock held. *)
Definition find_unused : M pst (option nat) :=
  for_until nproc (fun p =>
    _ ← plock p;
    st ← rd (proc_l p ⊚ p_state_l);
    if decide (st = UNUSED) then mret (Some p) else _ ← punlock p; mret None).

Definition allocproc : M pst (option nat) :=
  o ← find_unused;
  match o with
  | None => mret None
  | Some p =>
      pid ← allocpid;
      _ ← proc_l p ⊚ p_pid_l <~ pid;
      _ ← kmem freemem_amount;
      _ ← proc_l p ⊚ p_vma_l <~ 0;
      _ ← proc_l p ⊚ p_filelimit_l <~ Z.of_nat NOFILE;
      _ ← proc_l p ⊚ p_ktime_l <~ 1;
      _ ← proc_l p ⊚ p_utime_l <~ 1;
      _ ← proc_l p ⊚ p_uid_l <~ 0;
      _ ← proc_l p ⊚ p_gid_l <~ 0;
      _ ← proc_l p ⊚ p_pgid_l <~ 0;
      _ ← proc_l p ⊚ p_sigaction_l <~ ∅;
      _ ← proc_l p ⊚ p_sig_set_l <~ 0;
      _ ← proc_l p ⊚ p_sig_pending_l <~ 0;
      tf ← kmem kalloc;
      _ ← proc_l p ⊚ p_trapframe_l <~ tf;
      if tf =? 0 then _ ← punlock p; mret None
      else
        _ ← kmem (md k_mem_l (fun m => memset m tf 0 PGSIZE));
        pagetable ← proc_pagetable p;
        _ ← proc_l p ⊚ p_pagetable_l <~ pagetable;
        if pagetable =? 0 then _ ← freeproc p; _ ← punlock p; mret None
        else
          let kstack := PROCVKSTACK (get_proc_addr_num p) in
          _ ← proc_l p ⊚ p_kstack_l <~ kstack;
          ec ← kmem kalloc;
          _ ← proc_l p ⊚ p_exec_close_l <~ ec;
          _ ← kmem (nonnull ec);
          _ ← kmem (md k_mem_l (fun m =>
                foldl (fun m fd => wr32 m (ec + 4 * fd) 0) m (seqZ 0 (Z.of_nat NOFILE))));
          _ ← proc_l p ⊚ p_ctx_ra_l <~ forkret_addr;
          _ ← proc_l p ⊚ p_ctx_sp_l <~ kstack + KSTACKSIZE;
          mret (Some p)
  end.

(** Offsets of the fields of [struct trapframe] that kernel code names. *)
Definition tf_ra : Z := 0.
Definition tf_sp : Z := 16.
Definition tf_a0 : Z := 24.
Definition tf_a1 : Z := 32.
Definition tf_a7 : Z := 80.
Definition tf_era : Z := 264.
Definition tf_size : Z := 288.

Definition userinit : M pst unit :=
  o ← allocproc;
  _ ← s_initproc_l <~ o;
  p ← lift "userinit: no process" o;
  pt ← rd (proc_l p ⊚ p_pagetable_l);
  _ ← kmem (uvminit pt initcode (u32 initcodesize));
  _ ← proc_l p ⊚ p_sz_l <~ PGROUNDUP (u64 initcodesize);
  _ ← alloc_vma_stack kernel_end p;
  sp ← get_proc_sp p;
  tf ← rd (proc_l p ⊚ p_trapframe_l);
  _ ← kmem (store (tf + tf_sp) sp);
  _ ← kmem (store (tf + tf_era) 0);
  name ← rd (proc_l p ⊚ p_name_l);
  name' ← lift "safestrcpy" (safestrcpy name (literal "initcode") NELEM_NAME);
  _ ← proc_l p ⊚ p_name_l <~ name';
  _ ← proc_l p ⊚ p_state_l <~ RUNNABLE;
  _ ← proc_l p ⊚ p_tmask_l <~ 0;
  punlock p.

(** [sz] is a 32-bit local. *)
Definition growproc (n : Z) : M pst Z :=
  p ← cur;
  pr ← rd (proc_l p);
  let sz := u32 (p_sz pr) in
  if 0 <? n then
    sz' ← kmem (uvmalloc kernel_end (p_pagetable pr) sz (u32 (sz + n)) (Z.lor PTE_P PTE_W));
    if u32 sz' =? 0 then mret (-1)
    else _ ← proc_l p ⊚ p_sz_l <~ u32 sz'; mret 0
  else if n <? 0 then
    sz' ← kmem (uvmdealloc kernel_end (p_pagetable pr) sz (u32 (sz + n)));
    _ ← proc_l p ⊚ p_sz_l <~ u32 sz'; mret 0
  else _ ← proc_l p ⊚ p_sz_l <~ sz; mret 0.

(** * Waiting for children *)

(** The 4 bytes of an [int]. *)
Definition int_bytes (v : Z) : list Z := map (fun i => u8 (Z.shiftr (u32 v) (8 * i))) (seqZ 0 4).

(** One turn of [wait]'s outer loop: [inr] returns, [inl] has slept. *)
Definition wait_turn (p : nat) (addr : Z) : M pst (unit + Z) :=
  r ← for_acc nproc false (fun np (havekids : bool) =>
        nr ← rd (proc_l np);
        if bool_decide (p_parent nr = Some p) then
          _ ← plock np;
          nr ← rd (proc_l np);
          if decide (p_state nr = ZOMBIE) then
            let pid := p_pid nr in
            pr ← rd (proc_l p);
            c ← (if addr =? 0 then mret 0
                 else kmem (copyout_bytes (p_pagetable pr) addr (int_bytes (p_xstate nr))));
            if c <? 0 then _ ← punlock np; _ ← punlock p; mret (inr (-1))
            else
              _ ← freeproc np; _ ← punlock np; _ ← punlock p; mret (inr pid)
          else _ ← punlock np; mret (inl true)
        else mret (inl havekids));
  match r with
  | inr v => mret (inr v)
  | inl havekids =>
      k ← rd (proc_l p ⊚ p_killed_l);
      if negb havekids || truth k then _ ← punlock p; mret (inr (-1))
      else _ ← sleep_self (CProc p); mret (inl tt)
  end.
Definition wait (fuel : nat) (addr : Z) : M pst Z :=
  p ← cur;
  _ ← plock p;
  loop fuel tt (fun _ => wait_turn p addr).

(** The child found, its lock held if it is a zombie; and the last one seen. *)
Definition findchild (p : nat) (pid : Z) : M pst (option nat * option nat) :=
  r ← for_acc nproc None (fun np (child : option nat) =>
        nr ← rd (proc_l np);
        if ((pid =? -1) || (p_pid nr =? pid)) && bool_decide (p_parent nr = Some p) then
          _ ← plock np;
          nr ← rd (proc_l np);
          if decide (p_state nr = ZOMBIE) then mret (inr np)
          else _ ← punlock np; mret (inl (Some np))
        else mret (inl child));
  mret (match r with inr np => (Some np, Some np) | inl c => (None, c) end).

Definition wait4pid_turn (p : nat) (pid addr : Z) : M pst (unit + Z) :=
  '(child, tchild) ← findchild p pid;
  match child with
  | Some np =>
      nr ← rd (proc_l np);
      let kidpid := p_pid nr in
      let xstate := s32 (Z.shiftl (p_xstate nr) 8) in
      _ ← proc_l np ⊚ p_xstate_l <~ xstate;
      pr ← rd (proc_l p);
      c ← (if addr =? 0 then mret 0
           else kmem (copyout_bytes (p_pagetable pr) addr (int_bytes xstate)));
      if c <? 0 then _ ← punlock np; _ ← punlock p; mret (inr (-1))
      else _ ← freeproc np; _ ← punlock np; _ ← punlock p; mret (inr kidpid)
  | None =>
      match tchild with
      | None => _ ← punlock p; mret (inr (-1))
      | Some t =>
          _ ← sleep_self (if pid =? -1 then CProc p else CProc t);
          mret (inl tt)
      end
  end.
Definition wait4pid (fuel : nat) (pid addr options : Z) : M pst Z :=
  p ← cur;
  _ ← plock p;
  loop fuel tt (fun _ => wait4pid_turn p pid addr).
End Proc.

(** * Copies for the current process *)

(** Kernel buffers by value, as [copyout_bytes]. *)
Definition either_copyout (user_dst dst : Z) (bs : list Z) : M pst Z :=
  p ← cur;
  if truth user_dst then
    pt ← rd (proc_l p ⊚ p_pagetable_l); kmem (copyout_bytes pt dst bs)
  else _ ← md mem_l (fun m => write_bytes m dst bs); mret 0.
Definition either_copyin (user_src src len : Z) : M pst (Z * list Z) :=
  p ← cur;
  if truth user_src then
    pt ← rd (proc_l p ⊚ p_pagetable_l); kmem (copyin_bytes pt src len)
  else m ← rd mem_l; mret (0, read_bytes m src len).

Definition copyout2 (dstva src len : Z) : M pst Z :=
  p ← cur;
  sz ← rd (proc_l p ⊚ p_sz_l);
  if (sz <? u64 (dstva + len)) || (sz <=? dstva) then mret (-1)
  else _ ← md mem_l (fun m => memmove m dstva src len); mret 0.
Definition copyin2 (dst srcva len : Z) : M pst Z :=
  p ← cur;
  sz ← rd (proc_l p ⊚ p_sz_l);
  if (sz <? u64 (srcva + len)) || (sz <=? srcva) then mret (-1)
  else _ ← md mem_l (fun m => memmove m dst srcva len); mret 0.
Definition copyinstr2 (dst srcva max : Z) : M pst Z :=
  p ← cur;
  sz ← rd (proc_l p ⊚ p_sz_l);
  m ← rd mem_l;
  let '(got_null, _, m') := copyinstr_page (Z.to_nat (Z.min max (sz - srcva))) srcva dst m in
  _ ← mem_l <~ m';
  mret (if got_null then 0 else -1).
