(* ===== verification/ProcFacts.v ===== *)
(** What the process layer promises: waking, killing, sleeping without lost
    wakeups, and the states a process goes through. *)

From S2P Require Import Prelude Mem Strings Locks Kalloc Vm ProcState Vma Proc.

(** The entry of the table for process [i]. *)
Definition entry (procs : gmap nat proc) (i : nat) : proc := default proc0 (procs !! i).

(** Between two system calls: the processor is settled and no process lock is
    held. *)
Record quiet (s : pst) : Prop := {
  q_hart : settled (view hart_l s);
  q_locks : forall i, unheld (p_lock (entry (s_procs s) i))
}.

Lemma entry_insert procs i pr j :
  entry (<[i := pr]> procs) j = if decide (i = j) then pr else entry procs j.
Proof. unfold entry. rewrite lookup_insert. by destruct (decide (i = j)). Qed.

(** [f] rewrites the entry of one process, not its lock. *)
Definition keeps_lock (f : proc -> proc) : Prop :=
  (forall pr, p_lock (f pr) = p_lock pr)
  /\ (forall pr lk, f (update p_lock_l lk pr) = update p_lock_l lk (f pr)).

Lemma plock_upd lk lk' pr :
  update p_lock_l lk (update p_lock_l lk' pr) = update p_lock_l lk pr.
Proof. done. Qed.
Lemma plock_id pr : update p_lock_l (p_lock pr) pr = pr.
Proof. by destruct pr. Qed.

(** A section of process [i] around a pure change of its entry: the state
    after it differs in that entry only. *)
Definition changes (i : nat) (f : proc -> proc) (body : M pst unit) : Prop :=
  forall s, is_Some (s_procs s !! i) ->
    body s = Ret tt (update (proc_l i) (f (entry (s_procs s) i)) s).

Lemma section_eq i (body : M pst unit) (f : proc -> proc) (s : pst) :
  settled (view hart_l s) -> unheld (p_lock (entry (s_procs s) i)) -> keeps_lock f ->
  changes i f body ->
  (_ ← plock i; _ ← body; punlock i) s
  = Ret tt (update (proc_l i) (f (entry (s_procs s) i)) s).
Proof.
  intros Hh Hl [Hf1 Hf2] Hbody. apply wp_ret_eq. apply wp_bind.
  apply (wp_enter hart_l (plock_l i)); [done|exact Hl|].
  apply wp_bind. eapply wp_eq; [apply Hbody; cbn; rewrite lookup_insert_eq; by eexists|].
  destruct s as [k procs pl np ip vm fi], k as [h lk fl n m kpt]. unfold entry in *.
  cbn in Hh, Hl. set (pr := default proc0 (procs !! i)) in *.
  apply (wp_leave hart_l (plock_l i) h (p_lock pr)); try done.
  - cbn. rewrite !lookup_insert_eq. cbn. by rewrite Hf1.
  - cbn. rewrite !lookup_insert_eq. cbn [default from_option id]. split; [done|]. f_equal.
    rewrite !insert_insert_eq. f_equal.
    change (update p_lock_l (p_lock pr) (f (update p_lock_l (taken (p_lock pr) (h_tp h)) pr)) = f pr).
    rewrite Hf2, plock_upd, <- (Hf1 pr). apply plock_id.
Qed.

(** A body that may leave the entry alone. *)
Lemma changes_if i (b : proc -> bool) (g : proc -> proc) (m : M pst unit) :
  (forall s, m s = Ret tt (update (proc_l i) (g (entry (s_procs s) i)) s)) ->
  changes i (fun pr => if b pr then g pr else pr)
    (pr ← rd (proc_l i); when (b pr) m).
Proof.
  intros Hm s [pr Hpr]. unfold entry. rewrite Hpr.
  change ((pr ← rd (proc_l i); when (b pr) m) s)
    with (when (b (entry (s_procs s) i)) m s). unfold entry. rewrite Hpr. cbn [default from_option id].
  destruct (b pr); cbn [when].
  - rewrite Hm. unfold entry. by rewrite Hpr.
  - destruct s. cbn in *. mrun. by rewrite insert_id.
Qed.

(** A loop of such sections over a list of processes. *)
Lemma wp_sections (body : nat -> M pst unit) (f : nat -> proc -> proc) l s :
  NoDup l -> quiet s ->
  (forall i s, quiet s -> i ∈ l ->
     body i s = Ret tt (update (proc_l i) (f i (entry (s_procs s) i)) s)) ->
  (forall i pr, p_lock (f i pr) = p_lock pr) ->
  wp (for_each l body) (fun _ s' => quiet s' /\ exists procs', s' = update s_procs_l procs' s
      /\ forall i, entry procs' i = if decide (i ∈ l) then f i (entry (s_procs s) i)
                                    else entry (s_procs s) i) s.
Proof.
  intros Hnd. revert s. induction l as [|x l IH]; intros s Hq Hbody Hf; cbn [for_each].
  - apply wp_mret. split; [done|]. exists (s_procs s). split; [by destruct s|]. intros i.
    rewrite decide_False; [done|]. by intros ?%elem_of_nil.
  - apply NoDup_cons in Hnd as [Hnin Hnd]. apply wp_bind.
    eapply wp_eq; [apply Hbody; [done|left]|].
    set (s1 := update (proc_l x) _ s).
    assert (forall i, entry (s_procs s1) i
      = if decide (x = i) then f x (entry (s_procs s) x) else entry (s_procs s) i) as He
      by (intros i; unfold s1; cbn; apply entry_insert).
    assert (quiet s1) as Hq1.
    { split; [apply Hq|]. intros i. rewrite He. destruct (decide (x = i)) as [->|]; [|apply Hq].
      rewrite Hf. apply Hq. }
    eapply wp_mono; [apply (IH Hnd s1 Hq1); [|done]|].
    { intros i s' Hq' Hi. apply Hbody; [done|by right]. }
    intros [] s' (Hq' & procs' & -> & Hp). split; [done|]. exists procs'.
    split; [done|]. intros i. rewrite Hp, He.
    destruct (decide (x = i)) as [<-|Hne].
    + rewrite decide_False by done. by rewrite decide_True by left.
    + destruct (decide (i ∈ l)); [by rewrite decide_True by (by right)|].
      rewrite decide_False; [done|]. intros [->|?]%elem_of_cons; done.
Qed.

(** * Waking *)

Definition woken (ch : chan) (pr : proc) : proc :=
  if bool_decide (p_state pr = SLEEPING) && bool_decide (p_chan pr = Some ch)
  then update p_state_l RUNNABLE pr else pr.

Lemma woken_keeps ch : keeps_lock (woken ch).
Proof.
  split; intros; unfold woken; cbn; by destruct (_ && _).
Qed.

Lemma nproc_nodup : NoDup nproc.
Proof. apply NoDup_seq. Qed.
Lemma nproc_elem i : i ∈ nproc <-> (i < 50)%nat.
Proof. unfold nproc. rewrite elem_of_seq. lia. Qed.

(** Reassociation: a section's body followed by the release. *)
Lemma bind_assoc {S A B C} (m : M S A) (f : A -> M S B) (g : B -> M S C) s a s' :
  m s = Ret a s' -> ((m ≫= f) ≫= g) s = (f a ≫= g) s'.
Proof. intros E. unfold mbind, M_bind. by rewrite E. Qed.

Lemma wakeup_ok ch s : quiet s ->
  wp (wakeup ch) (fun _ s' => quiet s' /\ exists procs', s' = update s_procs_l procs' s
      /\ forall i, entry procs' i = if decide (i < 50)%nat then woken ch (entry (s_procs s) i)
                                    else entry (s_procs s) i) s.
Proof.
  intros Hq. unfold wakeup.
  eapply wp_mono; [apply (wp_sections _ (fun _ => woken ch)); [apply nproc_nodup|done| |]|].
  - intros i s' [Hh Hl] Hi.
    rewrite <- (section_eq i _ (woken ch) s' Hh (Hl i) (woken_keeps ch)
      (changes_if i _ (update p_state_l RUNNABLE) _ (fun s => eq_refl))).
    done.
  - intros i pr. unfold woken. by destruct (_ && _).
  - intros [] s' [Hq' (procs' & -> & Hp)]. split; [done|]. exists procs'. split; [done|].
    intros i. rewrite Hp. by destruct (decide (i ∈ nproc)) as [H|H]; rewrite nproc_elem in H;
      [rewrite decide_True|rewrite decide_False].
Qed.

(** Leaving a section entered from [s] whose body has turned the entry of [i]
    into that of [f]. *)
Lemma wp_punlock i (f : proc -> proc) s s' (Q : unit -> pst -> Prop) :
  settled (view hart_l s) -> unheld (p_lock (entry (s_procs s) i)) -> keeps_lock f ->
  s' = update (proc_l i) (f (entry (s_procs (enter hart_l (plock_l i) s)) i))
         (enter hart_l (plock_l i) s) ->
  Q tt (update (proc_l i) (f (entry (s_procs s) i)) s) -> wp (punlock i) Q s'.
Proof.
  intros Hh Hl [Hf1 Hf2] -> HQ.
  destruct s as [k procs pl np ip vm fi], k as [h lk fl n m kpt]. unfold entry in *.
  cbn in Hh, Hl. set (pr := default proc0 (procs !! i)) in *.
  apply (wp_leave hart_l (plock_l i) h (p_lock pr)); try done.
  - cbn. rewrite !lookup_insert_eq. cbn. by rewrite Hf1.
  - cbn in HQ |- *. rewrite !lookup_insert_eq. cbn [default from_option id].
    rewrite !insert_insert_eq.
    change (update p_lock_l (p_lock pr) (f (update p_lock_l (taken (p_lock pr) (h_tp h)) pr)))
      with (update p_lock_l (p_lock pr) (f (update p_lock_l (taken (p_lock pr) (h_tp h)) pr))).
    replace (Proc _ _ _ _ _ _ _ _ _ _ _ _ _ _ _ _ _ _ _ _ _ _ _ _ _ _ _ _ _ _) with (f pr); [done|].
    change (f pr = update p_lock_l (p_lock pr) (f (update p_lock_l (taken (p_lock pr) (h_tp h)) pr))).
    rewrite Hf2, plock_upd, <- (Hf1 pr). symmetry. apply plock_id.
Qed.

Lemma enter_entry i s : entry (s_procs (enter hart_l (plock_l i) s)) i
  = update p_lock_l (taken (p_lock (entry (s_procs s) i)) (h_tp (view hart_l s))) (entry (s_procs s) i).
Proof. unfold entry. cbn. by rewrite lookup_insert_eq. Qed.

Lemma same_entry i s : update (proc_l i) (entry (s_procs (enter hart_l (plock_l i) s)) i)
  (enter hart_l (plock_l i) s) = enter hart_l (plock_l i) s.
Proof.
  unfold entry. destruct s as [k procs pl np ip vm fi]. cbn. rewrite lookup_insert_eq. cbn.
  by rewrite insert_insert_eq.
Qed.

Lemma quiet_update i f s : quiet s -> keeps_lock f ->
  quiet (update (proc_l i) (f (entry (s_procs s) i)) s).
Proof.
  intros [Hh Hl] [Hf _]. split; [apply Hh|]. intros j. cbn. rewrite entry_insert.
  destruct (decide (i = j)) as [->|]; [|apply Hl]. rewrite Hf. apply Hl.
Qed.

(** * Killing *)

Definition killed_by (sig : Z) (pr : proc) : proc :=
  let p1 := update p_sig_pending_l (Z.lor (p_sig_pending pr) (u64 (s32 (Z.shiftl 1 sig)))) pr in
  let p2 := if (p_killed pr =? 0) || (sig <? p_killed pr) then update p_killed_l sig p1 else p1 in
  if bool_decide (p_state pr = SLEEPING) then update p_state_l RUNNABLE p2 else p2.

Lemma killed_keeps sig : keeps_lock (killed_by sig).
Proof.
  split; intros pr; unfold killed_by; cbn.
  - destruct ((p_killed pr =? 0) || (sig <? p_killed pr)); cbn; by destruct (bool_decide _).
  - intros lk. destruct ((p_killed pr =? 0) || (sig <? p_killed pr)); cbn; by destruct (bool_decide _).
Qed.
Lemma id_keeps : keeps_lock (fun pr => pr).
Proof. by split. Qed.

Definition kill_body (pid sig : Z) (p : nat) : M pst (option Z) :=
  _ ← plock p;
  pr ← rd (proc_l p);
  if p_pid pr =? pid then
    _ ← proc_l p ⊚ p_sig_pending_l
          <~ Z.lor (p_sig_pending pr) (u64 (s32 (Z.shiftl 1 sig)));
    _ ← when ((p_killed pr =? 0) || (sig <? p_killed pr)) (proc_l p ⊚ p_killed_l <~ sig);
    _ ← when (bool_decide (p_state pr = SLEEPING)) (proc_l p ⊚ p_state_l <~ RUNNABLE);
    _ ← punlock p;
    mret (Some 0)
  else _ ← punlock p; mret None.

Lemma kill_body_ok pid sig i s : quiet s ->
  wp (kill_body pid sig i) (fun r s' =>
    let pr := entry (s_procs s) i in
    if p_pid pr =? pid then r = Some 0 /\ s' = update (proc_l i) (killed_by sig pr) s
    else r = None /\ s' = update (proc_l i) pr s) s.
Proof.
  intros [Hh Hl]. unfold kill_body. apply wp_bind.
  apply (wp_enter hart_l (plock_l i)); [done|apply Hl|]. wp_run.
  change (view (proc_l i) (enter hart_l (plock_l i) s))
    with (entry (s_procs (enter hart_l (plock_l i) s)) i).
  assert (p_pid (entry (s_procs (enter hart_l (plock_l i) s)) i) = p_pid (entry (s_procs s) i)) as ->
    by (by rewrite enter_entry).
  cbv zeta. destruct (p_pid (entry (s_procs s) i) =? pid); cbn beta iota.
  - wp_run. destruct ((p_killed _ =? 0) || _) eqn:Eb; wp_run;
      destruct (bool_decide _) eqn:Es; wp_run;
      (apply (wp_punlock i (killed_by sig) s); [done|apply Hl|apply killed_keeps| |by wp_run]);
      rewrite !upd_comp, ?view_update, ?update_update;
      unfold killed_by; rewrite Eb, Es; reflexivity.
  - apply wp_bind. apply (wp_punlock i (fun pr => pr) s); [done|apply Hl|apply id_keeps| |by wp_run].
    by rewrite same_entry.
Qed.

Lemma kill_loop pid sig l s : NoDup l -> quiet s ->
  wp (for_until l (kill_body pid sig)) (fun r s' => quiet s' /\ exists procs',
      s' = update s_procs_l procs' s /\
      match find (fun i => p_pid (entry (s_procs s) i) =? pid) l with
      | Some i => r = Some 0 /\ i ∈ l /\ p_pid (entry (s_procs s) i) = pid
          /\ forall j, entry procs' j = if decide (i = j) then killed_by sig (entry (s_procs s) i)
                                        else entry (s_procs s) j
      | None => r = None /\ forall j, entry procs' j = entry (s_procs s) j
      end) s.
Proof.
  intros Hnd. revert s. induction l as [|x l IH]; intros s Hq; cbn [for_until find].
  - apply wp_mret. split; [done|]. exists (s_procs s). by destruct s.
  - apply NoDup_cons in Hnd as [Hnin Hnd]. apply wp_bind.
    eapply wp_mono; [by apply kill_body_ok|]. intros r s1. cbv zeta.
    destruct (Z.eqb_spec (p_pid (entry (s_procs s) x)) pid) as [E|E].
    + intros [-> ->]. apply wp_mret. split; [apply quiet_update; [done|apply killed_keeps]|].
      eexists. split; [reflexivity|]. split; [done|]. split; [left|]. split; [done|].
      intros j. apply entry_insert.
    + intros [-> ->]. cbn beta iota.
      set (s1 := update (proc_l x) _ s).
      assert (forall j, entry (s_procs s1) j = entry (s_procs s) j) as He.
      { intros j. unfold s1. cbn. rewrite entry_insert. by destruct (decide (x = j)) as [->|]. }
      assert (quiet s1) as Hq1 by (apply (quiet_update x (fun pr => pr)); [done|apply id_keeps]).
      eapply wp_mono; [by apply (IH Hnd s1)|].
      intros r s' (Hq' & procs' & -> & Hf). split; [done|]. exists procs'. split; [done|].
      assert (find (fun i => p_pid (entry (s_procs s1) i) =? pid) l
              = find (fun i => p_pid (entry (s_procs s) i) =? pid) l) as Efind.
      { clear -He. induction l as [|y l IH]; [done|]. cbn [find]. rewrite He.
        destruct (_ =? _); [done|apply IH]. }
      rewrite Efind in Hf. destruct (find _ l) as [i|].
      * destruct Hf as (-> & Hi & Hpid & Hj). split; [done|]. split; [by right|].
        rewrite He in Hpid. split; [done|]. intros j. rewrite Hj, !He. done.
      * destruct Hf as [-> Hj]. split; [done|]. intros j. by rewrite Hj, He.
Qed.

(** [kill] reaches exactly the first process with the given pid: it sets the
    signal's pending bit, records the signal unless a smaller one is recorded,
    makes the process runnable if it sleeps, and returns 0; with no such
    process it returns -1; no other process changes in any field. *)
Theorem kill_exact (pid sig : Z) (s : pst) :
  quiet s ->
  wp (kill pid sig) (fun r s' => quiet s' /\ exists procs', s' = update s_procs_l procs' s /\
      ((r = 0 /\ exists i, (i < 50)%nat /\ p_pid (entry (s_procs s) i) = pid
          /\ p_state (entry procs' i)
             = (if decide (p_state (entry (s_procs s) i) = SLEEPING) then RUNNABLE
                else p_state (entry (s_procs s) i))
          /\ p_killed (entry procs' i)
             = (if (p_killed (entry (s_procs s) i) =? 0) || (sig <? p_killed (entry (s_procs s) i))
                then sig else p_killed (entry (s_procs s) i))
          /\ p_sig_pending (entry procs' i)
             = Z.lor (p_sig_pending (entry (s_procs s) i)) (u64 (s32 (Z.shiftl 1 sig)))
          /\ forall j, j <> i -> entry procs' j = entry (s_procs s) j)
       \/ (r = -1 /\ (forall i, (i < 50)%nat -> p_pid (entry (s_procs s) i) <> pid)
          /\ forall j, entry procs' j = entry (s_procs s) j))) s.
Proof.
  intros Hq. unfold kill. apply wp_bind.
  eapply wp_mono; [apply (kill_loop pid sig nproc s nproc_nodup Hq)|].
  intros r s' (Hq' & procs' & -> & Hf). apply wp_mret. split; [done|].
  exists procs'. split; [done|].
  destruct (find _ nproc) as [i|] eqn:Ef.
  - destruct Hf as (-> & Hi & Hpid & Hj). left. split; [done|]. exists i.
    rewrite nproc_elem in Hi. split; [done|]. split; [done|].
    assert (entry procs' i = killed_by sig (entry (s_procs s) i)) as Ei
      by (rewrite Hj; by destruct (decide (i = i))).
    rewrite Ei. unfold killed_by.
    split; [|split; [|split]];
      [..|intros j Hne; rewrite Hj; by destruct (decide (i = j))];
      destruct (decide (p_state (entry (s_procs s) i) = SLEEPING)) as [E|E];
      [rewrite bool_decide_eq_true_2 by done|rewrite bool_decide_eq_false_2 by done
      |rewrite bool_decide_eq_true_2 by done|rewrite bool_decide_eq_false_2 by done
      |rewrite bool_decide_eq_true_2 by done|rewrite bool_decide_eq_false_2 by done];
      destruct ((p_killed _ =? 0) || _); reflexivity.
  - destruct Hf as [-> Hj]. right. split; [done|]. split; [|done].
    intros i Hi Hpid. apply nproc_elem in Hi.
    pose proof (find_none _ _ Ef i (proj1 (list_elem_of_In _ _) Hi)) as Hn. cbv beta in Hn.
    by rewrite Hpid, Z.eqb_refl in Hn.
Qed.

(** * Sleeping *)

Lemma myproc_settled h : settled h -> myproc h = Ret (c_proc (view mycpu_l h)) h.
Proof.
  intros [[Hok Hn] Hcr]. pose proof (pushed_ok h Hok Hn) as [Hok' Hn'].
  pose proof (ok_noff _ Hok).
  unfold myproc. rewrite (bind_ret _ _ _ _ _ (push_off_eq h (ok_tp _ Hok))).
  rewrite (bind_ret (rd (mycpu_l ⊚ c_proc_l)) _ _ (c_proc (view mycpu_l h)) (pushed h)).
  - rewrite (bind_ret _ _ _ _ _ (pop_off_eq (pushed h) Hok' ltac:(lia))).
    change (popped (pushed h)) with (crit h). by rewrite Hcr.
  - unfold rd, gets. f_equal. rewrite view_comp. unfold pushed.
    rewrite view_mycpu_update by (simpl; apply Hok). done.
Qed.

Lemma cur_ok s p : settled (view hart_l s) ->
  c_proc (view mycpu_l (view hart_l s)) = Some p -> cur s = Ret p s.
Proof.
  intros Hh Hp. unfold cur.
  rewrite (bind_ret _ _ s (Some p) s); [done|].
  erewrite zoom_ret by (apply myproc_settled, Hh). by rewrite update_view, Hp.
Qed.

Lemma pushed_proc h : (h_tp h < length (h_cpus h))%nat ->
  c_proc (view mycpu_l (pushed h)) = c_proc (view mycpu_l h).
Proof. intros H. unfold pushed. by rewrite view_mycpu_update. Qed.
Lemma pushed_intr h : Z.land (h_crmd (pushed h)) CSR_CRMD_IE = 0.
Proof. apply land_ie_off. Qed.

(** The state of a process that is about to leave the processor: it holds its
    own lock and no other, on a hart that was quiet. *)
Record leaving (p : nat) (h : hart) (s : pst) : Prop := {
  lv_hart : view hart_l s = pushed h;
  lv_settled : settled h;
  lv_noff : c_noff (view mycpu_l h) = 0;
  lv_proc : c_proc (view mycpu_l h) = Some p;
  lv_lock : exists lk, p_lock (view (proc_l p) s) = taken lk (h_tp h)
}.

Definition resume_sched (intena : Z) : M pst unit := hart_l ⊚ mycpu_l ⊚ c_intena_l <~ intena.

(** [sched] of a process in such a state switches away, once. *)
Lemma sched_yields p h s : leaving p h s -> p_state (view (proc_l p) s) <> RUNNING ->
  sched s = Yield WSched (resume_sched (c_intena (view mycpu_l (pushed h)))) s.
Proof.
  intros [Hh Hs Hn Hp [lk Hl]] Hst. pose proof Hs as [[Hok Hcn] _].
  pose proof (pushed_ok h Hok Hcn) as [Hok' Hn'].
  unfold sched.
  rewrite (bind_ret _ _ _ _ _ (cur_ok s p ltac:(rewrite Hh; by apply settled_pushed; [|lia])
    ltac:(rewrite Hh, pushed_proc by apply Hok; done))).
  rewrite (bind_ret (holding hart_l (plock_l p)) _ s true s).
  2:{ rewrite (holding_eq hart_l (plock_l p)). f_equal.
      change (view (plock_l p) s) with (p_lock (view (proc_l p) s)). rewrite Hl, Hh.
      unfold held_by. simpl. by apply bool_decide_eq_true. }
  cbn [negb].
  rewrite (bind_ret _ _ s 1 s).
  2:{ unfold rd, gets. f_equal. rewrite !view_comp, Hh. change (view c_noff_l) with c_noff. lia. }
  cbn [Z.eqb negb Pos.eqb].
  rewrite (bind_ret _ _ s (p_state (view (proc_l p) s)) s) by done.
  rewrite decide_False by done.
  rewrite (bind_ret _ _ s 0 s).
  2:{ rewrite (zoom_ret hart_l intr_get s 0 (view hart_l s)); [by rewrite update_view|].
      rewrite Hh. unfold intr_get. mrun. by rewrite pushed_intr. }
  cbn [truth Z.eqb negb].
  rewrite (bind_ret _ _ s (c_intena (view mycpu_l (pushed h))) s)
    by (unfold rd, gets; f_equal; by rewrite !view_comp, Hh).
  reflexivity.
Qed.

Section Sleep.
Context {S : Type} (ps : lens S pst) (lk : lens S spinlock) (p : nat).
Context `{!LensLaws ps, !LensPut lk, !LensIndep ps lk}.
Abbreviation H := (ps ⊚ hart_l).
Abbreviation P := (ps ⊚ proc_l p).
Abbreviation PL := (ps ⊚ plock_l p).

#[local] Instance sl_h : LensIndep H lk := _.
#[local] Instance sl_p : LensIndep P lk := _.
#[local] Instance sl_pl : LensIndep PL lk := _.
#[local] Instance sl_lh : LensIndep lk H.
Proof. apply indep_sym, _. Qed.
#[local] Instance sl_lp : LensIndep lk P.
Proof. apply indep_sym, _. Qed.
#[local] Instance sl_lpl : LensIndep lk PL.
Proof. apply indep_sym, _. Qed.
#[local] Instance sl_hp : LensIndep H P.
Proof. apply indep_comp_same; apply _. Qed.
#[local] Instance sl_hpl : LensIndep H PL.
Proof. apply indep_comp_same; apply _. Qed.

(** The process table entry of a process asleep on [ch], its lock held. *)
Definition asleep (ch : chan) (tp : nat) (pr : proc) : proc :=
  update p_state_l SLEEPING (update p_chan_l (Some ch) (update p_lock_l (taken (p_lock pr) tp) pr)).

(** What [sleep] does when the process is scheduled again. *)
Definition sleep_rest (intena : Z) : M S unit :=
  _ ← zoom ps (resume_sched intena);
  _ ← ps ⊚ (proc_l p ⊚ p_chan_l) <~ None;
  _ ← release H PL;
  acquire H lk.

Lemma entered_proc s : view P (enter H PL s)
  = update p_lock_l (taken (p_lock (view P s)) (h_tp (view H s))) (view P s).
Proof using LensLaws0.
  unfold enter. change (view PL s) with (p_lock (view P s)).
  change (update PL (taken (p_lock (view P s)) (h_tp (view H s))))
    with (update (P ⊚ p_lock_l) (taken (p_lock (view P s)) (h_tp (view H s)))).
  by rewrite upd_comp, view_update, (indep_view H P).
Qed.

(** The state a process leaves when it goes to sleep, and the state [sleep]
    returns in, but for the lock it takes again. *)
Definition dozing (ch : chan) (s0 : S) : S :=
  let sc := update lk (view lk s0) (update H (pushed (view H s0)) (enter H PL (enter H lk s0))) in
  let sd := update P (update p_chan_l (Some ch) (view P sc)) sc in
  update P (update p_state_l SLEEPING (view P sd)) sd.
Definition back_up (lkp : spinlock) (h2 : hart) (s2 : S) : S :=
  update PL lkp (update H h2 (update P (update p_chan_l None (view P s2)) s2)).

Lemma sleep_yields ch s0 :
  let h := view H s0 in
  quiet (view ps s0) -> unheld (view lk s0) -> c_noff (view mycpu_l h) = 0 ->
  c_proc (view mycpu_l h) = Some p ->
  exists s1, sleep ps ch lk (enter H lk s0)
    = Yield WSched (sleep_rest (c_intena (view mycpu_l (pushed h)))) s1
  /\ view lk s1 = view lk s0 /\ view H s1 = pushed h
  /\ view P s1 = asleep ch (h_tp h) (view P s0) /\ s1 = dozing ch s0.
Proof using All.
  intros h [Hh Hlocks] Hlk Hn Hp. change (view hart_l (view ps s0)) with h in Hh.
  pose proof Hh as [[Hok Hcn] _].
  assert (settled (pushed h)) as Hh1 by (apply settled_pushed; [apply Hh|lia]).
  set (sa := enter H lk s0).
  assert (view H sa = pushed h) as Ha by (apply (enter_hart H lk)).
  assert (view P sa = view P s0) as Hap by (apply (enter_frame H lk P)).
  assert (unheld (view PL sa)) as Hpl.
  { change (view PL sa) with (p_lock (view P sa)). rewrite Hap. apply Hlocks. }
  set (sb := enter H PL sa).
  assert (view H sb = pushed (pushed h)) as Hb by (unfold sb; by rewrite (enter_hart H PL), Ha).
  assert (view lk sb = taken (view lk s0) (h_tp h)) as Hblk.
  { unfold sb. rewrite (enter_frame H PL lk). apply (enter_lock H lk). }
  set (sc := update lk (view lk s0) (update H (pushed h) sb)).
  set (sd := update P (update p_chan_l (Some ch) (view P sc)) sc).
  set (se := update P (update p_state_l SLEEPING (view P sd)) sd).
  assert (view P sc = view P sb) as Hcp
    by (unfold sc; by rewrite (indep_view lk P), (indep_view H P)).
  assert (view P se = asleep ch (h_tp h) (view P s0)) as Hep
    by (unfold se, sd; rewrite !view_update, Hcp; unfold sb; by rewrite entered_proc, Hap, Ha).
  assert (view H se = pushed h) as Heh.
  { unfold se, sd. rewrite !(indep_view' H P).
    unfold sc. by rewrite (indep_view' H lk), view_update. }
  exists se. split; [|split; [|by rewrite Heh, Hep]].
  - unfold sleep.
    rewrite (bind_ret (zoom ps cur) _ sa p sa).
    2:{ erewrite zoom_ret; [by rewrite update_view|].
        apply cur_ok; change (view hart_l (view ps sa)) with (view H sa); rewrite Ha; [done|].
        by rewrite pushed_proc by apply Hok. }
    rewrite (bind_ret _ _ _ _ _ (enter_eq H PL sa ltac:(by rewrite Ha) Hpl)).
    fold sb.
    rewrite (bind_ret _ _ _ _ _ (leave_eq H lk (pushed h) (view lk s0) sb Hh1 Hlk Hb Hblk)).
    fold sc.
    rewrite (bind_ret (ps ⊚ (proc_l p ⊚ p_chan_l) <~ Some ch) _ sc tt sd) by reflexivity.
    rewrite (bind_ret (ps ⊚ (proc_l p ⊚ p_state_l) <~ SLEEPING) _ sd tt se) by reflexivity.
    assert (leaving p h (view ps se)) as Hlv.
    { split; [done..|]. change (view (proc_l p) (view ps se)) with (view P se). rewrite Hep. by eexists. }
    unfold mbind at 1, M_bind at 1. unfold zoom at 1.
    rewrite (sched_yields p h _ Hlv).
    2:{ change (view (proc_l p) (view ps se)) with (view P se). by rewrite Hep. }
    cbn [rzoom rbind]. by rewrite update_view.
  - unfold se, sd. rewrite !(indep_view' lk P). unfold sc. by rewrite view_update.
Qed.

Lemma intena_same h v : (h_tp h < length (h_cpus h))%nat -> c_intena (view mycpu_l h) = v ->
  update (mycpu_l ⊚ c_intena_l) v h = h.
Proof using Type.
  intros Hlt <-. rewrite upd_comp. unfold c_intena_l at 1. cbn [update].
  rewrite cpu_eta. by apply hart_eta_cpu.
Qed.

Lemma resume_eq h s : view H s = pushed h -> hart_ok (pushed h) ->
  zoom ps (resume_sched (c_intena (view mycpu_l (pushed h)))) s = Ret tt s.
Proof using LensLaws0.
  intros Hh Hok. rewrite (zoom_ret ps _ s tt (view ps s)); [by rewrite update_view|].
  unfold resume_sched, wr, modify. f_equal.
  change (update hart_l (update (mycpu_l ⊚ c_intena_l) (c_intena (view mycpu_l (pushed h)))
            (view hart_l (view ps s))) (view ps s) = view ps s).
  change (view hart_l (view ps s)) with (view H s).
  rewrite Hh, intena_same by (done || apply Hok). rewrite <- Hh. apply (update_view (view ps s)).
Qed.

Lemma sleep_resumes s2 h2 lkp :
  view H s2 = pushed h2 -> settled h2 ->
  p_lock (view P s2) = taken lkp (h_tp h2) -> unheld lkp -> unheld (view lk s2) ->
  exists s3, sleep_rest (c_intena (view mycpu_l (pushed h2))) s2 = Ret tt (enter H lk s3)
  /\ view H s3 = h2 /\ view lk s3 = view lk s2
  /\ view P s3 = update p_lock_l lkp (update p_chan_l None (view P s2)) /\ s3 = back_up lkp h2 s2.
Proof using All.
  intros Hh Hs Hl Hlkp Hlk. pose proof Hs as [[Hok Hcn] _].
  pose proof (pushed_ok h2 Hok Hcn) as [Hok' _].
  set (sa := update P (update p_chan_l None (view P s2)) s2).
  set (sb := update PL lkp (update H h2 sa)).
  assert (view P sb = update p_lock_l lkp (update p_chan_l None (view P s2))) as Hbp.
  { unfold sb. change (update PL lkp) with (update (P ⊚ p_lock_l) lkp).
    rewrite upd_comp, view_update, (indep_view H P). unfold sa. by rewrite view_update. }
  assert (view H sb = h2) as Hbh by (unfold sb; by rewrite (indep_view' H PL), view_update).
  assert (view lk sb = view lk s2) as Hbl.
  { unfold sb. rewrite (indep_view' lk PL), (indep_view H lk).
    unfold sa. by rewrite (indep_view' lk P). }
  exists sb. split; [|done]. unfold sleep_rest.
  rewrite (bind_ret _ _ _ _ _ (resume_eq h2 s2 Hh Hok')).
  rewrite (bind_ret (ps ⊚ (proc_l p ⊚ p_chan_l) <~ None) _ s2 tt sa) by reflexivity.
  rewrite (bind_ret (release H PL) _ sa tt sb).
  - apply (enter_eq H lk); [by rewrite Hbh|by rewrite Hbl].
  - apply (leave_eq H PL h2 lkp sa); [done|done| |].
    + unfold sa. by rewrite (indep_view' H P).
    + change (view PL sa) with (p_lock (view P sa)). unfold sa. by rewrite view_update.
Qed.
End Sleep.

(** A processor running process [p] between two system calls, and a table in
    which processes 1 and 2 sleep. *)
Definition run_hart (p : nat) : hart := crit (Hart 0 4 [Cpu (Some p) 0 1; cpu0]).
Lemma run_hart_ok p : settled (run_hart p).
Proof. apply settled_crit. split; [split|]; simpl; lia. Qed.
Definition free_lock : spinlock := Spin 0 "proc" None.
Definition demo_proc (st : procstate) (pid : Z) (ch : option chan) : proc :=
  update p_chan_l ch (update p_pid_l pid (update p_state_l st (update p_lock_l free_lock proc0))).
Definition demo_procs : gmap nat proc :=
  {[0%nat := demo_proc RUNNING 1 None; 1%nat := demo_proc SLEEPING 2 (Some CTicks);
    2%nat := demo_proc SLEEPING 3 (Some (CProc 0))]}.
Definition demo_pst : pst :=
  Pst (Kst (run_hart 0) (Spin 0 "kmem" None) 0 0 ∅ 0 []) demo_procs (Spin 0 "nextpid" None) 4
    (Some 0%nat) ∅ false.
Lemma proc0_unheld : unheld (p_lock proc0).
Proof. reflexivity. Qed.
Lemma demo_quiet : quiet demo_pst.
Proof.
  split; [apply run_hart_ok|]. intros i. change (s_procs demo_pst) with demo_procs.
  unfold demo_procs, entry.
  destruct (decide (i = 0%nat)) as [->|H0]; [reflexivity|].
  destruct (decide (i = 1%nat)) as [->|H1]; [reflexivity|].
  destruct (decide (i = 2%nat)) as [->|H2]; [reflexivity|].
  rewrite !lookup_insert_ne, lookup_singleton_ne by done. apply proc0_unheld.
Qed.

(** [wakeup ch] makes exactly the processes asleep on [ch] runnable: their
    state becomes RUNNABLE and no other field of them changes, every other
    process of the table is left as it was, and so is the rest of the kernel
    (processor flags, nesting count and locks included). *)
Theorem wakeup_exact (ch : chan) (s : pst) :
  quiet s ->
  wp (wakeup ch) (fun _ s' => quiet s' /\ exists procs', s' = update s_procs_l procs' s
    /\ forall i, (i < 50)%nat ->
       (p_state (entry (s_procs s) i) = SLEEPING /\ p_chan (entry (s_procs s) i) = Some ch ->
        entry procs' i = update p_state_l RUNNABLE (entry (s_procs s) i))
    /\ (~ (p_state (entry (s_procs s) i) = SLEEPING /\ p_chan (entry (s_procs s) i) = Some ch) ->
        entry procs' i = entry (s_procs s) i)) s.
Proof.
  intros Hq. eapply wp_mono; [by apply wakeup_ok|]. intros [] s' [Hq' (procs' & -> & Hp)].
  split; [done|]. exists procs'. split; [done|]. intros i Hi. rewrite Hp, decide_True by done.
  unfold woken. split.
  - intros [-> ->]. by rewrite !bool_decide_eq_true_2.
  - intros Hn. destruct (bool_decide (p_state _ = _)) eqn:E1; [|done].
    destruct (bool_decide (p_chan _ = _)) eqn:E2; [|done].
    apply bool_decide_eq_true in E1, E2. by destruct Hn.
Qed.

Example wakeup_exact_witness :
  quiet demo_pst /\
  wp (wakeup CTicks) (fun _ s' => quiet s' /\ exists procs', s' = update s_procs_l procs' demo_pst
    /\ forall i, (i < 50)%nat ->
       (p_state (entry (s_procs demo_pst) i) = SLEEPING
          /\ p_chan (entry (s_procs demo_pst) i) = Some CTicks ->
        entry procs' i = update p_state_l RUNNABLE (entry (s_procs demo_pst) i))
    /\ (~ (p_state (entry (s_procs demo_pst) i) = SLEEPING
          /\ p_chan (entry (s_procs demo_pst) i) = Some CTicks) ->
        entry procs' i = entry (s_procs demo_pst) i)) demo_pst.
Proof. split; [apply demo_quiet|]. apply (wakeup_exact CTicks demo_pst). apply demo_quiet. Defined.

Example kill_exact_witness :
  wp (kill 3 9) (fun r s' => quiet s' /\ exists procs', s' = update s_procs_l procs' demo_pst /\
      ((r = 0 /\ exists i, (i < 50)%nat /\ p_pid (entry (s_procs demo_pst) i) = 3
          /\ p_state (entry procs' i)
             = (if decide (p_state (entry (s_procs demo_pst) i) = SLEEPING) then RUNNABLE
                else p_state (entry (s_procs demo_pst) i))
          /\ p_killed (entry procs' i)
             = (if (p_killed (entry (s_procs demo_pst) i) =? 0)
                   || (9 <? p_killed (entry (s_procs demo_pst) i))
                then 9 else p_killed (entry (s_procs demo_pst) i))
          /\ p_sig_pending (entry procs' i)
             = Z.lor (p_sig_pending (entry (s_procs demo_pst) i)) (u64 (s32 (Z.shiftl 1 9)))
          /\ forall j, j <> i -> entry procs' j = entry (s_procs demo_pst) j)
       \/ (r = -1 /\ (forall i, (i < 50)%nat -> p_pid (entry (s_procs demo_pst) i) <> 3)
          /\ forall j, entry procs' j = entry (s_procs demo_pst) j))) demo_pst.
Proof. apply (kill_exact 3 9 demo_pst). apply demo_quiet. Defined.

(** C13. No wakeup is lost.  A process that calls [sleep ch lk] holding [lk]
    switches away exactly once, and at that point it is already marked asleep
    on [ch], with [lk] released and its own lock (which [wakeup] must take)
    still held.  Any [wakeup ch] that finds it asleep makes it RUNNABLE.  When
    the scheduler resumes it, [sleep] returns with [lk] taken again and the
    channel cleared. *)
Theorem sleep_wakeup {S} (ps : lens S pst) (lk : lens S spinlock) (p : nat) (ch : chan) (s0 : S)
    `{!LensLaws ps, !LensPut lk, !LensIndep ps lk} :
  let H := ps ⊚ hart_l in let P := ps ⊚ proc_l p in let h := view H s0 in
  quiet (view ps s0) -> unheld (view lk s0) -> c_noff (view mycpu_l h) = 0 ->
  c_proc (view mycpu_l h) = Some p -> (p < 50)%nat ->
  (exists s1 rest, sleep ps ch lk (enter H lk s0) = Yield WSched rest s1
     /\ view lk s1 = view lk s0
     /\ p_state (view P s1) = SLEEPING /\ p_chan (view P s1) = Some ch
     /\ p_lock (view P s1) = taken (p_lock (view P s0)) (h_tp h)
     /\ (forall s2, view H s2 = view H s1 ->
           p_lock (view P s2) = p_lock (view P s1) -> unheld (view lk s2) ->
           exists s3, rest s2 = Ret tt (enter H lk s3)
             /\ p_chan (view P s3) = None
             /\ p_lock (view P s3) = p_lock (view P s0)
             /\ p_state (view P s3) = p_state (view P s2)))
  /\ (forall s2, quiet s2 -> p_state (entry (s_procs s2) p) = SLEEPING ->
        p_chan (entry (s_procs s2) p) = Some ch ->
        wp (wakeup ch) (fun _ s3 => p_state (entry (s_procs s3) p) = RUNNABLE) s2).
Proof.
  intros H P h Hq Hlk Hn Hp Hp50. pose proof Hq as [Hh Hl]. split.
  - destruct (sleep_yields ps lk p ch s0 Hq Hlk Hn Hp) as (s1 & E & El & Eh & Ep & _).
    exists s1. eexists. split; [exact E|]. split; [exact El|]. unfold P. rewrite Ep.
    split; [done|]. split; [done|]. split; [done|].
    intros s2 Hh2 Hl2 Hlk2. unfold H in Hh2. rewrite Eh in Hh2.
    destruct (sleep_resumes ps lk p s2 h _ Hh2 Hh Hl2 (Hl p) Hlk2) as (s3 & E3 & _ & _ & Ep3 & _).
    exists s3. split; [exact E3|]. by rewrite Ep3.
  - intros s2 Hq2 Hst Hch. eapply wp_mono; [by apply wakeup_ok|].
    intros [] s3 [_ (procs' & -> & Hp')].
    change (s_procs (update s_procs_l procs' s2)) with procs'.
    rewrite Hp', decide_True by done. unfold woken. rewrite Hst, Hch.
    by rewrite !bool_decide_eq_true_2.
Qed.

Example sleep_wakeup_witness :
  let s0 := (demo_pst, Spin 0 "pipe" None) in
  exists s1 rest, sleep fst_l CTicks snd_l (enter (fst_l ⊚ hart_l) snd_l s0) = Yield WSched rest s1
     /\ p_state (view (fst_l ⊚ proc_l 0) s1) = SLEEPING.
Proof.
  intros s0.
  destruct (sleep_wakeup fst_l snd_l 0 CTicks s0) as [(s1 & rest & E & _ & Hs & _) _].
  - apply demo_quiet.
  - reflexivity.
  - reflexivity.
  - reflexivity.
  - lia.
  - exists s1, rest. by split.
Defined.

(** * Components over the process layer

    A component with a state [T] of its own, guarded by a spinlock [K] in it,
    runs on [pst * T].  Inside a critical section the pair is [(inq q, lkc K h c)],
    for the [q] and [c] the section would be left in. *)

#[global] Arguments hart_l : simpl never.
#[global] Arguments proc_l : simpl never.
#[global] Arguments plock_l : simpl never.

Abbreviation phart := (fst_l ⊚ hart_l).

Definition inq (q : pst) : pst := update hart_l (pushed (view hart_l q)) q.
Definition lkc {T} (K : lens T spinlock) (q : pst) (c : T) : T :=
  update K (taken (view K c) (h_tp (view hart_l q))) c.

Section Component.
Context {T : Type} (K : lens T spinlock) `{!LensLaws K}.
Abbreviation klock := (snd_l ⊚ K).

#[local] Instance phart_klock : LensIndep phart klock.
Proof. split; by intros ?? [] || by intros ? []. Qed.
#[local] Instance klock_phart : LensIndep klock phart.
Proof. apply indep_sym, _. Qed.

Lemma enter_pair q c : enter phart klock (q, c) = (inq q, lkc K q c).
Proof using Type. done. Qed.

Lemma wp_lock q c (Q : unit -> pst * T -> Prop) :
  settled (view hart_l q) -> unheld (view K c) -> Q tt (inq q, lkc K q c) ->
  wp (acquire phart klock) Q (q, c).
Proof using All. intros Hh Hl HQ. by apply (wp_enter phart klock). Qed.

Lemma inq_out q : update hart_l (view hart_l q) (inq q) = q.
Proof using Type. unfold inq. by rewrite update_update, update_view. Qed.
Lemma inq_hart q : view hart_l (inq q) = pushed (view hart_l q).
Proof using Type. apply view_update. Qed.

Lemma wp_unlock q c (Q : unit -> pst * T -> Prop) :
  settled (view hart_l q) -> unheld (view K c) -> Q tt (q, c) ->
  wp (release phart klock) Q (inq q, lkc K q c).
Proof using All.
  intros Hh Hl HQ. apply (wp_leave phart klock (view hart_l q) (view K c)); [done|done|..].
  - apply inq_hart.
  - unfold lkc. rewrite view_comp. apply view_update.
  - rewrite !upd_comp. cbn [fst_l snd_l view update fst snd].
    rewrite inq_out. unfold lkc. by rewrite update_update, update_view.
Qed.

(** The same after work that has left the processor alone. *)
Lemma wp_unlock' q q' c (Q : unit -> pst * T -> Prop) :
  settled (view hart_l q) -> view hart_l q' = view hart_l q -> unheld (view K c) ->
  Q tt (q', c) -> wp (release phart klock) Q (inq q', lkc K q c).
Proof using All.
  intros Hh Eh Hl HQ. unfold lkc. rewrite <- Eh. apply wp_unlock; [by rewrite Eh|done|done].
Qed.

Lemma lkc_view q c : view K (lkc K q c) = taken (view K c) (h_tp (view hart_l q)).
Proof using All. apply view_update. Qed.

(** A process that calls [sleep] from such a section: nothing of the component
    changes. *)
Lemma sleep_pair p ch q c : quiet q -> unheld (view K c) ->
  c_noff (view mycpu_l (view hart_l q)) = 0 -> c_proc (view mycpu_l (view hart_l q)) = Some p ->
  exists q1, sleep fst_l ch klock (inq q, lkc K q c)
      = Yield WSched (sleep_rest fst_l klock p (c_intena (view mycpu_l (pushed (view hart_l q))))) (q1, c)
    /\ view (proc_l p) q1 = asleep ch (h_tp (view hart_l q)) (view (proc_l p) q)
    /\ view hart_l q1 = pushed (view hart_l q)
    /\ forall j, j <> p -> entry (s_procs q1) j = entry (s_procs q) j.
Proof using All.
  intros Hq Hl Hn Hp.
  destruct (sleep_yields fst_l klock p ch (q, c) Hq Hl Hn Hp) as ([q1 c1] & E & El & Eh & Ep & Es).
  assert (c1 = c) as ->.
  { apply (f_equal snd) in Es. unfold dozing, enter in Es. cbn in Es.
    by rewrite update_update, update_view in Es. }
  exists q1. split; [exact E|]. split; [exact Ep|]. split; [exact Eh|].
  intros j Hj. apply (f_equal (fun s => entry (s_procs (fst s)) j)) in Es. cbn [fst] in Es. rewrite Es.
  unfold dozing, enter, entry, plock_l, proc_l, hart_l. cbn. by rewrite !lookup_insert_ne by done.
Qed.

(** Process [p], which the scheduler has put on the processor again, in a
    state that is [q] once [sleep] has returned and its lock is let go. *)
Record resumes (p : nat) (h : hart) (q2 q : pst) : Prop := {
  rs_hart : view hart_l q2 = pushed h;
  rs_settled : settled h;
  rs_lock : exists lkp, p_lock (view (proc_l p) q2) = taken lkp (h_tp h) /\ unheld lkp
    /\ q = update (plock_l p) lkp (update hart_l h (update (proc_l p ⊚ p_chan_l) None q2))
}.

Lemma sleep_resumed p h q2 q c : resumes p h q2 q -> unheld (view K c) ->
  sleep_rest fst_l klock p (c_intena (view mycpu_l (pushed h))) (q2, c) = Ret tt (inq q, lkc K q c).
Proof using All.
  intros [Hh Hs (lkp & Hlk & Hu & ->)] Hl.
  destruct (sleep_resumes fst_l klock p (q2, c) h lkp Hh Hs Hlk Hu Hl) as (s3 & E & _ & _ & _ & ->).
  rewrite E. f_equal.
Qed.
End Component.

Lemma inq_entry q i : entry (s_procs (inq q)) i = entry (s_procs q) i.
Proof. done. Qed.
Lemma inq_quiet q : quiet q -> c_noff (view mycpu_l (view hart_l q)) < 2 ^ 31 - 3 -> quiet (inq q).
Proof.
  intros [Hh Hl] Hn. split; [|exact Hl]. rewrite inq_hart. apply settled_pushed; [apply Hh|done].
Qed.

(** [wakeup] called inside the section. *)
Definition woken_all (ch : chan) (q q' : pst) : Prop :=
  quiet q' /\ exists procs', q' = update s_procs_l procs' q
  /\ forall i, entry procs' i = if decide (i < 50)%nat then woken ch (entry (s_procs q) i)
                                else entry (s_procs q) i.

Lemma wp_wakeup ch q (Q : unit -> pst -> Prop) :
  quiet q -> c_noff (view mycpu_l (view hart_l q)) < 2 ^ 31 - 3 ->
  (forall q', woken_all ch q q' -> view hart_l q' = view hart_l q -> Q tt (inq q')) ->
  wp (wakeup ch) Q (inq q).
Proof.
  intros Hq Hn HQ. eapply wp_mono; [by apply wakeup_ok, inq_quiet|].
  intros [] q' [Hq' (procs' & -> & Hp)].
  apply (HQ (update s_procs_l procs' q)); [|done].
  split; [split; [apply Hq|apply Hq']|]. by exists procs'.
Qed.

Lemma woken_noff ch q q' : woken_all ch q q' -> view hart_l q' = view hart_l q.
Proof. by intros [_ (procs' & -> & _)]. Qed.
