(* ===== verification/BootProc.v ===== *)
(** The first process: [allocproc] with enough memory, and [userinit]. *)

From S2P Require Import Prelude Mem Strings Locks Kalloc Vm PageTable Space BootMem ProcState Vma Proc ProcFacts.

(** The process layer with process [p], the memory and the areas spelled out;
    the rest is that of [q]. *)
Definition st (p : nat) (q : pst) (k : kst) (pr : proc) (vm : gmap Z vma) : pst :=
  Pst k (<[p := pr]> (s_procs q)) (s_pid_lock q) (s_nextpid q) (s_initproc q) vm (s_first q).

Section St.
Context (p : nat) (q : pst) (k : kst) (pr : proc) (vm : gmap Z vma).
Abbreviation here := (st p q k pr vm).

Lemma wp_st_set {T} (l : lens proc T) v (Q : unit -> pst -> Prop) :
  Q tt (st p q k (update l v pr) vm) -> wp (proc_l p ⊚ l <~ v) Q here.
Proof.
  intros HQ. apply wp_wr. unfold st, proc_l in *. cbn. by rewrite lookup_insert_eq, insert_insert_eq.
Qed.
Lemma wp_st_md {T} (l : lens proc T) f (Q : unit -> pst -> Prop) :
  Q tt (st p q k (update l (f (view l pr)) pr) vm) -> wp (md (proc_l p ⊚ l) f) Q here.
Proof.
  intros HQ. apply wp_md. unfold st, proc_l in *. cbn. by rewrite lookup_insert_eq, insert_insert_eq.
Qed.
Lemma wp_st_rd (Q : proc -> pst -> Prop) : Q pr here -> wp (rd (proc_l p)) Q here.
Proof. intros HQ. apply wp_rd. unfold st, proc_l in *. cbn. by rewrite lookup_insert_eq. Qed.
Lemma wp_st_get {T} (l : lens proc T) (Q : T -> pst -> Prop) : Q (view l pr) here -> wp (rd (proc_l p ⊚ l)) Q here.
Proof. intros HQ. apply wp_rd. unfold st, proc_l in *. cbn. by rewrite lookup_insert_eq. Qed.
Lemma wp_st_k {A} (m : M kst A) (Q : A -> pst -> Prop) :
  wp m (fun a k' => Q a (st p q k' pr vm)) k -> wp (kmem m) Q here.
Proof. intros H. apply wp_zoom. exact H. Qed.
Lemma wp_st_vget a v (Q : vma -> pst -> Prop) : vm !! a = Some v -> Q v here -> wp (vget a) Q here.
Proof. intros E HQ. eapply wp_eq; [by apply vget_eq|done]. Qed.
Lemma wp_st_vput a v (Q : unit -> pst -> Prop) : Q tt (st p q k pr (<[a := v]> vm)) -> wp (vput a v) Q here.
Proof. intros HQ. unfold vput. by apply wp_md. Qed.
Lemma wp_st_vupd {T} a (l : lens vma T) t v (Q : unit -> pst -> Prop) : vm !! a = Some v ->
  Q tt (st p q k pr (<[a := update l t v]> vm)) -> wp (vupd a l t) Q here.
Proof. intros E HQ. unfold vupd. apply wp_bind, (wp_st_vget a v); [done|]. by apply wp_st_vput. Qed.
(** A walk that meets the head at once. *)
Lemma wp_st_vwalk {B} head (body : Z -> vma -> M pst (Z + B)) (Q : Z + B -> pst -> Prop) :
  Q (inl head) here -> wp (vwalk head head body) Q here.
Proof.
  intros HQ. unfold vwalk. apply wp_bind, wp_rd. cbn [loop]. rewrite Z.eqb_refl.
  apply wp_bind, wp_mret. by apply wp_mret.
Qed.
(** One that looks at a node and stops or goes on. *)
Lemma wp_st_vwalk_cons {B} head a v (body : Z -> vma -> M pst (Z + B)) (Q : Z + B -> pst -> Prop) :
  a <> head -> vm !! a = Some v ->
  wp (body a v) (fun r s => match r with
                            | inl n => n = head /\ Q (inl head) s
                            | inr b => Q (inr b) s end) here ->
  vm <> ∅ -> wp (vwalk head a body) Q here.
Proof.
  intros Hne Ha Hb H0. unfold vwalk. apply wp_bind, wp_rd. cbn [view s_vmas_l s_vmas st].
  assert (exists n, size vm = S n) as [n ->].
  { destruct (size vm) eqn:E; [|by eexists]. by apply map_size_empty_inv in E. }
  cbn [loop]. rewrite (proj2 (Z.eqb_neq a head)) by done.
  apply wp_bind, wp_bind, (wp_st_vget a v); [done|]. apply wp_bind. eapply wp_mono; [exact Hb|].
  intros [n'|b] s Hs; cbn beta iota.
  - destruct Hs as [-> HQ]. apply wp_mret. rewrite Z.eqb_refl. apply wp_bind, wp_mret. by apply wp_mret.
  - apply wp_mret. by apply wp_mret.
Qed.

Lemma wp_st_lock (Q : unit -> pst -> Prop) : calm (k_hart k) -> locked (p_lock pr) = 0 ->
  Q tt (st p q (update k_hart_l (pushed (k_hart k)) k) (update p_lock_l (taken (p_lock pr) (h_tp (k_hart k))) pr) vm) ->
  wp (plock p) Q here.
Proof.
  intros Hc Hl HQ. apply (wp_acquire hart_l (plock_l p)); [exact Hc| |].
  - unfold plock_l, proc_l, st. cbn. by rewrite lookup_insert_eq.
  - unfold plock_l, proc_l, hart_l, st in *. cbn. by rewrite !lookup_insert_eq, insert_insert_eq.
Qed.
Lemma wp_st_unlock h lk (Q : unit -> pst -> Prop) : calm h -> k_hart k = pushed h -> p_lock pr = taken lk (h_tp h) ->
  Q tt (st p q (update k_hart_l (crit h) k) (update p_lock_l (freed lk) pr) vm) -> wp (punlock p) Q here.
Proof.
  intros Hc Hh Hl HQ. apply (wp_release hart_l (plock_l p) h lk); [exact Hc|exact Hh| |].
  - unfold plock_l, proc_l, st. cbn. by rewrite lookup_insert_eq.
  - unfold plock_l, proc_l, hart_l, st in *. cbn. by rewrite !lookup_insert_eq, insert_insert_eq.
Qed.
Lemma wp_st_allocpid (Q : Z -> pst -> Prop) : settled (k_hart k) -> unheld (s_pid_lock q) ->
  Q (s_nextpid q) (st p (update s_nextpid_l (s32 (s_nextpid q + 1)) q) k pr vm) -> wp allocpid Q here.
Proof.
  intros [Hc Hcr] Hl HQ. assert (locked (s_pid_lock q) = 0) as H0 by (by rewrite <- Hl).
  unfold allocpid. apply wp_bind, (wp_acquire hart_l s_pid_lock_l); [exact Hc|exact H0|].
  wp_run. apply (wp_release hart_l s_pid_lock_l (k_hart k) (s_pid_lock q)); [exact Hc|done|done|].
  wp_run. rewrite Hcr, Hl. destruct q, k. exact HQ.
Qed.
End St.

Ltac st_step :=
  lazymatch goal with
  | |- wp (mbind _ _) _ _ => apply wp_bind
  | |- wp (mret _) _ _ => apply wp_mret
  | |- wp (wr (proc_l _ ⊚ _) _) _ (st _ _ _ _ _) => apply wp_st_set
  | |- wp (md (proc_l _ ⊚ _) _) _ (st _ _ _ _ _) => apply wp_st_md
  | |- wp (rd (proc_l _)) _ (st _ _ _ _ _) => apply wp_st_rd
  | |- wp (rd (proc_l _ ⊚ _)) _ (st _ _ _ _ _) => apply wp_st_get
  | |- wp (vput _ _) _ (st _ _ _ _ _) => apply wp_st_vput
  end; cbn beta iota.
Ltac st_run := repeat st_step.

Section Boot.
Variable kernel_end : Z.
Context (Hend : DMWIN_MASK <= kernel_end <= RAMSTOP).
Context (all : list Z) (Hall : Forall (page_ok kernel_end) all) (Hnd : NoDup all).
Abbreviation kspace := (kspace kernel_end all).
Abbreviation kept := (kept all).

(** ** [vma_init]: a list with one empty area for [mmap]. *)
Definition head_vma (a : Z) : vma := Vma NONE 0 0 0 0 0 0 0 a a.
Definition mmap_vma (a : Z) : vma := Vma MMAP 0 USER_MMAP_START 0 USER_MMAP_START 0 0 0 a a.

Lemma vma_init_ok p q k pr vm rest pt f pages : kspace rest pt f pages k -> (2 <= length pages)%nat ->
  wp (vma_init kernel_end p) (fun r s => exists a b pages' k', r = a /\ a <> 0 /\ a <> b
    /\ s = st p q k' (update p_vma_l a pr) (<[a := head_vma b]> (<[b := mmap_vma a]> vm))
    /\ pages = a :: b :: pages' /\ kspace (b :: a :: rest) pt f pages' k' /\ kept (tables 3 (k_mem k) pt ++ rest) k k')
    (st p q k pr vm).
Proof using All.
  intros Hs Hlen. destruct pages as [|a [|b pages']]; simpl in Hlen; try lia.
  unfold vma_init. apply wp_bind, wp_st_k. eapply wp_mono; [by apply (ks_kalloc kernel_end Hend all Hall Hnd)|].
  intros r k1 (-> & Ha0 & Haok & Har & Hat & Hk1 & Hs1). rewrite (proj2 (Z.eqb_neq a 0)) by done.
  st_step. apply wp_st_k, wp_md.
  destruct (ks_write kernel_end Hend all Hall Hnd _ _ _ _ _ a (memset (k_mem k1) a 0 PGSIZE) Hs1) as [Hs2 Hk2]; [left| |].
  { intros c Hc. rewrite rd8_memset_page. by rewrite decide_False. }
  change (update k_mem_l (memset (view k_mem_l k1) a 0 PGSIZE) k1)
    with (update k_mem_l (memset (k_mem k1) a 0 PGSIZE) k1).
  set (k2 := update k_mem_l _ k1) in *. st_run. unfold alloc_mmap_vma. st_run.
  set (pr1 := update p_vma_l a pr). change (p_vma pr1) with a.
  set (vm1 := <[a := update v_prev_l a (update v_next_l a vma0)]> vm).
  assert (vm1 !! a = Some (update v_prev_l a (update v_next_l a vma0))) as Ea by apply lookup_insert_eq.
  unfold find_mmap_vma. st_step. eapply wp_st_vget; [exact Ea|]. st_step.
  apply wp_st_vwalk. st_run. change (USER_MMAP_START =? 0) with false. cbn iota. st_run.
  unfold alloc_vma. st_run. change (p_vma pr1) with a.
  unfold vfind. st_step. eapply wp_st_vget; [exact Ea|]. st_step. apply wp_st_vwalk. st_run.
  apply wp_st_k. eapply wp_mono; [by apply (ks_kalloc kernel_end Hend all Hall Hnd)|].
  intros r k3 (-> & Hb0 & Hbok & Hbr & Hbt & Hk3 & Hs3). rewrite (proj2 (Z.eqb_neq b 0)) by done.
  assert (a <> b) as Hab by (intros <-; apply Hbr; left).
  st_step. apply wp_st_k, wp_md.
  destruct (ks_write kernel_end Hend all Hall Hnd _ _ _ _ _ b (memset (k_mem k3) b 0 PGSIZE) Hs3) as [Hs4 Hk4]; [left| |].
  { intros c Hc. rewrite rd8_memset_page. by rewrite decide_False. }
  change (update k_mem_l (memset (view k_mem_l k3) b 0 PGSIZE) k3)
    with (update k_mem_l (memset (k_mem k3) b 0 PGSIZE) k3).
  set (k4 := update k_mem_l _ k3) in *. st_run.
  apply wp_st_k. unfold vma_pages. cbn [Z.eqb]. apply wp_mret. cbn [negb Z.eqb]. st_run.
  unfold vlink. st_step. eapply wp_st_vget; [rewrite lookup_insert_ne by done; exact Ea|]. st_run.
  change (v_prev (update v_prev_l a (update v_next_l a vma0))) with a.
  eapply wp_st_vupd; [rewrite !lookup_insert_ne by done; exact Ea|].
  eapply wp_st_vupd; [apply lookup_insert_eq|]. st_run. rewrite (proj2 (Z.eqb_neq b 0)) by done. st_run.
  eapply wp_st_vupd; [rewrite !lookup_insert_ne by done; apply lookup_insert_eq|]. st_run.
  eapply wp_st_vupd; [apply lookup_insert_eq|]. st_run. rewrite (proj2 (Z.eqb_neq b 0)) by done. st_run.
  exists a, b, pages', k4. do 3 (split; [done|]). split; [|split; [done|split; [exact Hs4|]]].
  - unfold st. f_equal. apply map_eq. intros i. unfold vm1.
    rewrite !lookup_insert. by repeat case_decide; try congruence.
  - assert (forall c, c ∈ tables 3 (k_mem k) pt ++ rest -> page_ok kernel_end c) as Hok
      by (intros c [Hc|Hc]%elem_of_app; apply (ks_ok kernel_end Hend all Hall Hnd _ _ _ _ _ Hs); tauto).
    eapply kept_trans; [exact Hk1|]. eapply kept_trans; [apply Hk2; [done|rewrite elem_of_app; tauto]|].
    pose proof (kept_trans _ _ _ _ _ Hk1 (Hk2 _ Hok ltac:(rewrite elem_of_app; tauto))) as Hk12.
    destruct (kept_tables _ _ _ _ _ Hk12) as [Et _].
    rewrite Et in Hk3, Hbt. eapply kept_trans.
    + eapply kept_sub; [|exact Hk3]. intros c. rewrite !elem_of_app, elem_of_cons. tauto.
    + apply Hk4; [done|]. rewrite elem_of_app. rewrite elem_of_cons in Hbr. tauto.
Qed.

(** ** [proc_pagetable] *)
Definition user_perm : Z := Z.lor (Z.lor PTE_P PTE_MAT) PTE_D.
Definition frame_perm : Z := Z.lor (Z.lor (Z.lor (Z.lor PTE_NX PTE_P) PTE_W) PTE_MAT) PTE_D.
Definition user_base (trampoline signalTrampoline tf : Z) : Z -> Z :=
  upd_page (upd_page (upd_page (fun _ => 0) TRAMPOLINE (leaf trampoline user_perm)) TRAPFRAME (leaf tf frame_perm))
    SIGTRAMPOLINE (leaf signalTrampoline user_perm).

Lemma proc_pagetable_ok trampoline signalTrampoline p q k pr vm rest kpt f pages :
  kspace rest kpt f pages k -> (16 <= length pages)%nat ->
  0 <= trampoline -> trampoline + PGSIZE < 2 ^ 63 + 2 ^ 62 ->
  0 <= signalTrampoline -> signalTrampoline + PGSIZE < 2 ^ 63 + 2 ^ 62 ->
  0 <= p_trapframe pr -> p_trapframe pr + PGSIZE < 2 ^ 63 + 2 ^ 62 ->
  wp (proc_pagetable kernel_end trampoline signalTrampoline p) (fun r s => exists a b pages' k', r <> 0 /\ a <> b
    /\ s = st p q k' (update p_vma_l a pr) (<[a := head_vma b]> (<[b := mmap_vma a]> vm))
    /\ kspace (b :: a :: tables 3 (k_mem k) kpt ++ rest) r
         (user_base trampoline signalTrampoline (p_trapframe pr)) pages' k'
    /\ kept (tables 3 (k_mem k) kpt ++ rest) k k' /\ (length pages <= length pages' + 12)%nat)
    (st p q k pr vm).
Proof using All.
  intros Hs Hlen Ht1 Ht2 Hs1 Hs2 Hf1 Hf2. destruct pages as [|upt pages1]; [simpl in Hlen; lia|].
  unfold proc_pagetable. st_step. apply wp_st_k. unfold uvmcreate.
  apply (ks_zeroed kernel_end Hend all Hall Hnd rest kpt f upt pages1 k (mret 0) mret); [done|].
  intros k1 Hok Hur Hut Hk1 Hsp1 Hz. apply wp_mret.
  rewrite (proj2 (Z.eqb_neq upt 0)) by (destruct Hok as [_ ?]; pose proof (page_end kernel_end Hend); lia).
  destruct (kept_tables _ _ _ _ _ Hk1) as [Et1 _].
  destruct (ks_switch kernel_end all _ rest kpt f pages1 k1 upt Hsp1 (Permutation_refl _) Hz) as [_ Hsp2].
  rewrite Et1 in Hsp2. set (R := tables 3 (k_mem k) kpt ++ rest) in *.
  st_step. eapply wp_mono; [apply (vma_init_ok p q k1 pr vm R upt _ pages1 Hsp2); simpl in Hlen; lia|].
  intros r s (a & b & pages2 & k2 & -> & Ha0 & Hab & -> & -> & Hsp3 & Hk2).
  rewrite (proj2 (Z.eqb_neq a 0)) by done. simpl in Hlen.
  assert (kept R k1 k2) as Hk2' by (eapply kept_sub; [|exact Hk2]; intros c Hc; apply elem_of_app; by right).
  st_step. apply wp_st_k. eapply wp_mono.
  { apply (ks_mappage kernel_end Hend all Hall Hnd _ upt _ pages2 k2 TRAMPOLINE trampoline user_perm Hsp3); done || lia. }
  intros r k3 (-> & Hk3 & pages3 & Hsp4 & Hc3). cbn [Z.ltb Z.compare]. st_run.
  change (view p_trapframe_l (update p_vma_l a pr)) with (p_trapframe pr).
  apply wp_st_k. eapply wp_mono.
  { apply (ks_mappage kernel_end Hend all Hall Hnd _ upt _ pages3 k3 TRAPFRAME (p_trapframe pr) frame_perm Hsp4); try done; [|lia].
    intros v Hv. unfold upd_page. rewrite decide_False; [done|]. by rewrite Hv. }
  intros r k4 (-> & Hk4 & pages4 & Hsp5 & Hc4). cbn [Z.ltb Z.compare]. st_step.
  apply wp_st_k. eapply wp_mono.
  { apply (ks_mappage kernel_end Hend all Hall Hnd _ upt _ pages4 k4 SIGTRAMPOLINE signalTrampoline user_perm Hsp5); try done; [|lia].
    intros v Hv. unfold upd_page. rewrite !decide_False; [done|..]; by rewrite Hv. }
  intros r k5 (-> & Hk5 & pages5 & Hsp6 & Hc5). cbn [Z.ltb Z.compare]. apply wp_mret.
  exists a, b, pages5, k5. split; [destruct Hok as [_ ?]; pose proof (page_end kernel_end Hend); lia|].
  do 2 (split; [done|]). split; [exact Hsp6|]. split; [|simpl; lia].
  assert (forall c, c ∈ R -> c ∈ b :: a :: R) as Hsub by (intros c Hc; by do 2 right).
  eapply kept_trans; [exact Hk1|]. eapply kept_trans; [exact Hk2'|]. eapply kept_sub; [exact Hsub|].
  eapply kept_trans; [exact Hk3|]. by eapply kept_trans.
Qed.

(** ** [allocproc] *)

(** The process [allocproc] makes out of [pr]. *)
Definition born (pr : proc) (lk : spinlock) (pid tf pagetable vma kstack exec_close ra : Z) : proc :=
  Proc lk (p_state pr) (p_parent pr) (p_chan pr) (p_killed pr) (p_xstate pr) pid 0 0 0 (Z.of_nat NOFILE) kstack
    (p_sz pr) pagetable tf ra (kstack + KSTACKSIZE) (p_ofile pr) exec_close (p_cwd pr) (p_name pr) (p_tmask pr) vma 1 1
    (p_char_count pr) ∅ 0 0 (p_sig_tf pr).

Lemma wr_zeros k a n b : 0 <= n -> rd8 (foldl (fun m fd => wr32 m (a + 4 * fd) 0) k (seqZ 0 n)) b
  = if decide (a <= b < a + 4 * n) then 0 else rd8 k b.
Proof using Type.
  intros Hn. refine (foldl_seqZ_ind (fun j m' => rd8 m' b = if decide (a <= b < a + 4 * j) then 0 else rd8 k b)
    (fun m fd => wr32 m (a + 4 * fd) 0) 0 n k _ Hn _).
  - by rewrite decide_False by lia.
  - intros m' j Hj Hm. unfold wr32. rewrite rd8_wrn, Hm. change (Z.of_nat 4) with 4. repeat case_decide; try lia; try done.
Qed.

Lemma st_self i s pr : s_procs s !! i = Some pr -> st i s (s_k s) pr (s_vmas s) = s.
Proof using Type. intros E. destruct s. unfold st. cbn in *. f_equal. by apply insert_id. Qed.

(** A look at a process that is in use leaves everything as it was. *)
Lemma pass_eq i (s : pst) : settled (view hart_l s) -> unheld (p_lock (entry (s_procs s) i)) ->
  p_state (entry (s_procs s) i) <> UNUSED ->
  (_ ← plock i; st ← rd (proc_l i ⊚ p_state_l); if decide (st = UNUSED) then mret (Some i) else _ ← punlock i; mret None) s
  = Ret None s.
Proof using Type.
  intros [Hh Hcr] Hl Hs. unfold entry in *.
  destruct (s_procs s !! i) as [pr|] eqn:E; cbn [default from_option id] in Hl, Hs; [|by destruct Hs].
  rewrite <- (st_self i s pr E). change (view hart_l s) with (k_hart (s_k s)) in *. apply wp_ret_eq.
  st_step. apply wp_st_lock; [exact Hh|by rewrite <- Hl|]. st_run.
  change (view p_state_l (update p_lock_l (taken (p_lock pr) (h_tp (k_hart (s_k s)))) pr)) with (p_state pr).
  rewrite decide_False by done. st_step.
  apply (wp_st_unlock _ _ _ _ _ (k_hart (s_k s)) (p_lock pr)); [exact Hh|done|done|]. st_run. split; [done|].
  rewrite Hl, Hcr. f_equal; [by destruct (s_k s) | by destruct pr].
Qed.

(** [find_unused] passes over entries in use and takes entry [c]. *)
Lemma find_unused_ok c q k pr vm (Q : option nat -> pst -> Prop) : (c < 50)%nat ->
  (forall i, (i < c)%nat -> unheld (p_lock (entry (s_procs q) i)) /\ p_state (entry (s_procs q) i) <> UNUSED) ->
  calm (k_hart k) -> c = 0%nat \/ settled (k_hart k) -> unheld (p_lock pr) -> p_state pr = UNUSED ->
  Q (Some c) (st c q (update k_hart_l (pushed (k_hart k)) k) (update p_lock_l (taken (p_lock pr) (h_tp (k_hart k))) pr) vm) ->
  wp find_unused Q (st c q k pr vm).
Proof using Type.
  intros Hc50 Hbefore Hc Hset Hl Hst HQ. unfold find_unused.
  apply (wp_for_until_done _ (fun dn s => s = st c q k pr vm /\ (length dn <= c)%nat)); [split; [done|simpl; lia]| |].
  2:{ intros s [_ H]. exfalso. unfold nproc in H. rewrite length_seq in H. lia. }
  intros dn i todo s E [-> Hdn].
  assert (i = length dn) as Hi.
  { assert (nproc !! length dn = Some i) as H by (rewrite E; by apply list_lookup_middle).
    by apply lookup_seq in H as [-> _]. }
  destruct (decide (i = c)) as [->|Hne].
  - st_step. apply wp_st_lock; [exact Hc|by rewrite <- Hl|]. st_run.
    change (view p_state_l (update p_lock_l (taken (p_lock pr) (h_tp (k_hart k))) pr)) with (p_state pr).
    rewrite decide_True by done. by apply wp_mret.
  - assert (i < c)%nat as Hlt by lia. destruct (Hbefore i Hlt) as [Hu Hs]. destruct Hset as [->|Hset]; [lia|].
    assert (entry (s_procs (st c q k pr vm)) i = entry (s_procs q) i) as Ei
      by (unfold st; cbn; rewrite entry_insert; by rewrite decide_False by done).
    eapply wp_eq; [apply (pass_eq i (st c q k pr vm))|].
    + exact Hset.
    + by rewrite Ei.
    + by rewrite Ei.
    + split; [done|]. rewrite length_app. simpl. lia.
Qed.

Section Alloc.
Variables trampoline signalTrampoline forkret_addr : Z.
Context (Ht : 0 <= trampoline /\ trampoline + PGSIZE < 2 ^ 63 + 2 ^ 62).
Context (Hst : 0 <= signalTrampoline /\ signalTrampoline + PGSIZE < 2 ^ 63 + 2 ^ 62).

(** The new process, its lock held: [tf] is cleared, its pages are its own. *)
Lemma allocproc_ok ci q k pr vm rest kpt f pages : (ci < 50)%nat ->
  (forall i, (i < ci)%nat -> unheld (p_lock (entry (s_procs q) i)) /\ p_state (entry (s_procs q) i) <> UNUSED) ->
  ci = 0%nat \/ settled (k_hart k) -> calm (k_hart k) -> c_noff (view mycpu_l (k_hart k)) < 2 ^ 31 - 4 -> unheld (p_lock pr) -> p_state pr = UNUSED -> unheld (s_pid_lock q) ->
  kspace rest kpt f pages k -> (18 <= length pages)%nat ->
  wp (allocproc kernel_end trampoline signalTrampoline forkret_addr)
    (fun r s => exists tf upt a b ec pages' k', r = Some ci /\ a <> b /\ tf <> 0
      /\ s = st ci (update s_nextpid_l (s32 (s_nextpid q + 1)) q) k'
               (born pr (taken (p_lock pr) (h_tp (k_hart k))) (s_nextpid q) tf upt a (PROCVKSTACK (Z.of_nat ci)) ec forkret_addr)
               (<[a := head_vma b]> (<[b := mmap_vma a]> vm))
      /\ kspace (ec :: b :: a :: tables 3 (k_mem k) kpt ++ tf :: rest) upt (user_base trampoline signalTrampoline tf) pages' k'
      /\ kept (tables 3 (k_mem k) kpt ++ rest) (update k_hart_l (pushed (k_hart k)) k) k'
      /\ (forall b, tf <= b < tf + PGSIZE -> rd8 (k_mem k') b = 0)
      /\ (length pages <= length pages' + 18)%nat) (st ci q k pr vm).
Proof using All.
  intros Hc50 Hbefore Hsd Hset Hno Hl Hstate Hpl Hs Hlen. unfold allocproc. st_step.
  apply find_unused_ok; [done..|]. st_step.
  set (k1 := update k_hart_l (pushed (k_hart k)) k).
  assert (settled (k_hart k1)) as Hset1 by (apply settled_pushed; [done|lia]).
  pose proof (ks_hart kernel_end all rest kpt f pages k (pushed (k_hart k)) (proj1 Hset1) Hs) as Hs1. fold k1 in Hs1.
  apply wp_st_allocpid; [exact Hset1|done|]. st_run.
  apply wp_st_k. eapply wp_mono; [by apply ks_freemem|]. intros n k2 (Hs2 & Em2 & Hk2). st_run.
  destruct pages as [|tf pages1]; [simpl in Hlen; lia|].
  apply wp_st_k. eapply wp_mono; [by apply (ks_kalloc kernel_end Hend all Hall Hnd)|].
  intros r k3 (-> & Htf0 & Htfok & Htfr & Htft & Hk3 & Hs3). st_run. rewrite (proj2 (Z.eqb_neq tf 0)) by done.
  st_step. apply wp_st_k, wp_md.
  destruct (ks_write kernel_end Hend all Hall Hnd _ _ _ _ _ tf (memset (k_mem k3) tf 0 PGSIZE) Hs3) as [Hs4 Hk4]; [left| |].
  { intros x Hx. rewrite rd8_memset_page. by rewrite decide_False. }
  change (update k_mem_l (memset (view k_mem_l k3) tf 0 PGSIZE) k3)
    with (update k_mem_l (memset (k_mem k3) tf 0 PGSIZE) k3).
  set (k4 := update k_mem_l (memset (k_mem k3) tf 0 PGSIZE) k3) in *. rewrite Em2 in *.
  change (k_mem k1) with (k_mem k) in *. set (R := tables 3 (k_mem k) kpt ++ rest) in *.
  assert (tf ∉ R) as HtfR by (unfold R; rewrite elem_of_app; tauto).
  assert (forall x, x ∈ R -> page_ok kernel_end x) as HR.
  { intros x [Hx|Hx]%elem_of_app; apply (ks_ok kernel_end Hend all Hall Hnd _ _ _ _ _ Hs); tauto. }
  assert (kept R k1 k4) as Hk14 by (eapply kept_trans; [apply Hk2|]; eapply kept_trans; [exact Hk3|by apply Hk4]).
  assert (tables 3 (k_mem k4) kpt = tables 3 (k_mem k) kpt) as Et4 by exact (proj1 (kept_tables all rest kpt k1 k4 Hk14)).
  assert (RAMSTOP < 2 ^ 63 + 2 ^ 62) as HRS by done. assert (RAMSTOP mod PGSIZE = 0) as HRM by done.
  st_run. eapply wp_mono.
  { apply (proc_pagetable_ok trampoline signalTrampoline ci _ k4 _ vm (tf :: rest) kpt f pages1 Hs4); try lia.
    - simpl in Hlen. lia.
    - change (0 <= tf). destruct Htfok. pose proof (page_end kernel_end Hend). lia.
    - change (tf + PGSIZE < 2 ^ 63 + 2 ^ 62). destruct Htfok. unfold PGSIZE in *. zlia. }
  rewrite Et4. intros r s (a & b & pages2 & k5 & Hr0 & Hab & -> & Hs5 & Hk5 & Hc5). st_run.
  rewrite (proj2 (Z.eqb_neq r 0)) by done. st_run. cbn [length] in Hlen.
  destruct pages2 as [|ec pages3]; [cbn [length] in Hc5; lia|].
  apply wp_st_k. eapply wp_mono; [by apply (ks_kalloc kernel_end Hend all Hall Hnd)|].
  intros ec' k6 (-> & Hec0 & Hecok & Hecr & Hect & Hk6 & Hs6). st_run.
  apply wp_st_k. unfold nonnull. rewrite (proj2 (Z.eqb_neq ec 0)) by done. apply wp_mret. st_step.
  apply wp_st_k, wp_md.
  destruct (ks_write kernel_end Hend all Hall Hnd _ _ _ _ _ ec
    (foldl (fun m fd => wr32 m (ec + 4 * fd) 0) (k_mem k6) (seqZ 0 (Z.of_nat NOFILE))) Hs6) as [Hs7 Hk7]; [left| |].
  { intros x Hx. rewrite wr_zeros by done. rewrite decide_False; [done|]. change (Z.of_nat NOFILE) with 128. unfold PGSIZE in Hx. lia. }
  change (update k_mem_l (foldl (fun m fd => wr32 m (ec + 4 * fd) 0) (view k_mem_l k6) (seqZ 0 (Z.of_nat NOFILE))) k6)
    with (update k_mem_l (foldl (fun m fd => wr32 m (ec + 4 * fd) 0) (k_mem k6) (seqZ 0 (Z.of_nat NOFILE))) k6).
  set (k7 := update k_mem_l _ k6) in *. st_run.
  set (R' := tables 3 (k_mem k) kpt ++ tf :: rest) in *.
  assert (kept R' k5 k7) as Hk57.
  { eapply kept_trans; [eapply kept_sub; [|exact Hk6]; intros c Hc; rewrite elem_of_app; right; by do 2 right|].
    apply Hk7.
    - intros c Hc. apply (ks_ok kernel_end Hend all Hall Hnd _ _ _ _ _ Hs5). right. left. by do 2 right.
    - intros Hin. apply Hecr. by do 2 right. }
  assert (kept R' k4 k7) as Hk47 by (by eapply kept_trans).
  exists tf, r, a, b, ec, pages3, k7. do 3 (split; [done|]). split.
  { unfold get_proc_addr_num. rewrite decide_True by done. by destruct pr. }
  split; [exact Hs7|]. split; [|split].
  - eapply kept_trans; [exact Hk14|]. eapply kept_sub; [|exact Hk47]. intros c. unfold R, R'.
    rewrite !elem_of_app, elem_of_cons. tauto.
  - intros c Hc. rewrite (kp_mem _ _ _ _ Hk47).
    + unfold k4. cbn. rewrite rd8_memset_page. by rewrite decide_True.
    + exists tf. split; [|done]. unfold R'. rewrite elem_of_app. right. left.
  - cbn [length] in Hc5 |- *. lia.
Qed.

End Alloc.

(** ** [uvminit] *)

Section Load.
Variables src size : Z.
Context (Hsrc : forall b, src <= b < src + size -> ~ on all b) (Hsz : 0 < size < MAXUVA).

Lemma uvminit_page_ok rest pt f pages k va n :
  kspace rest pt f pages k -> 0 <= va -> va mod PGSIZE = 0 -> va + n <= size -> 0 <= n <= PGSIZE ->
  (forall v, v / PGSIZE = va / PGSIZE -> valid (f v) = false) -> (8 <= length pages)%nat ->
  wp (uvminit_page pt src va n) (fun a k' => exists pages',
    kspace (a :: rest) pt (upd_page f va (leaf a user_rwx)) pages' k' /\ kept rest k k'
    /\ (length pages <= length pages' + 4)%nat
    /\ forall i, 0 <= i < n -> rd8 (k_mem k') (a + i) = rd8 (k_mem k) (src + va + i)) k.
Proof using All.
  intros Hs Hva Hal Hmax Hn Hinv Hlen. destruct pages as [|a pages1]; [simpl in Hlen; lia|].
  unfold uvminit_page. apply wp_bind. eapply wp_mono; [by apply (ks_kalloc kernel_end Hend all Hall Hnd)|].
  intros r k1 (-> & Ha0 & Haok & Har & Hat & Hk1 & Hs1). unfold nonnull. rewrite (proj2 (Z.eqb_neq a 0)) by done.
  apply wp_bind, wp_mret, wp_bind, wp_md.
  destruct (ks_write kernel_end Hend all Hall Hnd _ _ _ _ _ a (memset (k_mem k1) a 0 PGSIZE) Hs1) as [Hs2 Hk2]; [left| |].
  { intros c Hc. rewrite rd8_memset_page. by rewrite decide_False. }
  change (update k_mem_l (memset (view k_mem_l k1) a 0 PGSIZE) k1) with (update k_mem_l (memset (k_mem k1) a 0 PGSIZE) k1).
  set (k2 := update k_mem_l (memset (k_mem k1) a 0 PGSIZE) k1) in *. apply wp_bind.
  assert (RAMSTOP < 2 ^ 63 + 2 ^ 62) as HRS by done. assert (RAMSTOP mod PGSIZE = 0) as HRM by done.
  assert (MAXUVA + PGSIZE < MAXVA) as HMU by done.
  eapply wp_mono.
  { apply (ks_mappage kernel_end Hend all Hall Hnd _ pt _ pages1 k2 va a user_rwx Hs2); try done; simpl in Hlen;
      destruct Haok; pose proof (page_end kernel_end Hend); unfold PGSIZE in *; zlia. }
  assert (0 <= n < 4294967296) as Hn32 by (unfold PGSIZE in Hn; lia).
  intros r k3 (-> & Hk3 & pages3 & Hs3 & Hc3). apply wp_bind, wp_md, wp_mret.
  change (view k_mem_l k3) with (k_mem k3).
  destruct (ks_write kernel_end Hend all Hall Hnd _ _ _ _ _ a (memmove (k_mem k3) a (src + va) n) Hs3) as [Hs4 Hk4]; [left| |].
  { intros c Hc. rewrite rd8_memmove by lia. rewrite decide_False; [done|lia]. }
  assert (forall c, c ∈ rest -> page_ok kernel_end c) as HR
    by (intros c Hc; apply (ks_ok kernel_end Hend all Hall Hnd _ _ _ _ _ Hs); tauto).
  assert (kept rest k k3) as Hk03.
  { eapply kept_trans; [eapply kept_sub; [|exact Hk1]; intros c Hc; apply elem_of_app; by right|].
    eapply kept_trans; [by apply Hk2|]. eapply kept_sub; [|exact Hk3]. intros c Hc. by right. }
  exists pages3. split; [exact Hs4|]. split; [eapply kept_trans; [exact Hk03|by apply Hk4]|]. split; [simpl; lia|].
  intros i Hi. cbn [k_mem update k_mem_l]. rewrite rd8_memmove by lia. rewrite decide_True by lia.
  replace (src + va + (a + i - a)) with (src + va + i) by lia. apply (kp_out _ _ _ _ Hk03).
  apply Hsrc. lia.
Qed.
End Load.
End Boot.
