(* ===== verification/UserInit.v ===== *)
(** The first process: its program loaded, its stack, and [userinit]. *)

From S2P Require Import Prelude Mem Strings Locks Kalloc Vm PageTable VmProps Space BootMem ProcState Vma Proc ProcFacts BootProc.

Section Boot.
Variable kernel_end : Z.
Context (Hend : DMWIN_MASK <= kernel_end <= RAMSTOP).
Context (all : list Z) (Hall : Forall (page_ok kernel_end) all) (Hnd : NoDup all).
Abbreviation kspace := (kspace kernel_end all).
Abbreviation kept := (kept all).

(** ** [uvminit] *)
Section Load.
Variables src size : Z.
Context (Hsrc : forall b, src <= b < src + size -> ~ on all b) (Hsz : 0 < size < MAXUVA).

Definition page_vas (js : list Z) : list Z := (fun j => j * PGSIZE) <$> js.

(** The pages [js] of the program are loaded at [ps]. *)
Record loaded (k0 : kst) (n0 : nat) (rest : list Z) (pt : Z) (f : Z -> Z) (js ps pages : list Z) (k : kst) : Prop := {
  ld_len : length ps = length js;
  ld_space : kspace (ps ++ rest) pt (with_pages user_rwx (zip (page_vas js) ps) f) pages k;
  ld_kept : kept rest k0 k;
  ld_cost : (n0 <= length pages + 4 * length js)%nat;
  ld_bytes : forall j a i, (j, a) ∈ zip js ps -> 0 <= i < PGSIZE -> j * PGSIZE + i < size ->
    rd8 (k_mem k) (a + i) = rd8 (k_mem k0) (src + j * PGSIZE + i)
}.

Lemma loaded_step k0 n0 rest pt f js ps pages k j n (Q : Z -> kst -> Prop) :
  loaded k0 n0 rest pt f js ps pages k -> 0 <= j -> (j ∉ js) -> j * PGSIZE < size ->
  n = Z.min PGSIZE (size - j * PGSIZE) ->
  (forall v, 0 <= v -> v / PGSIZE = j -> valid (f v) = false) -> (4 * length js + 8 <= n0)%nat ->
  (forall a pages' k', loaded k0 n0 rest pt f (js ++ [j]) (ps ++ [a]) pages' k' -> Q a k') ->
  wp (uvminit_page pt src (j * PGSIZE) n) Q k.
Proof using All.
  intros [Hlen Hs Hk Hc Hb] Hj Hjn Hjs -> Hf Hn HQ.
  assert (forall j', j' * PGSIZE / PGSIZE = j') as Hdiv by (intros j'; unfold PGSIZE; zlia).
  eapply wp_mono.
  { apply (uvminit_page_ok kernel_end Hend all Hall Hnd src size Hsrc Hsz (ps ++ rest) pt _ pages k (j * PGSIZE)
      (Z.min PGSIZE (size - j * PGSIZE)) Hs); try (unfold PGSIZE in *; (lia || zlia)).
    intros v Hv. rewrite Hdiv in Hv. rewrite with_pages_out; [apply Hf; [unfold PGSIZE in *; zlia|done]|].
    intros [a b] Hin. cbn. rewrite Hv. apply elem_of_zip_l in Hin. unfold page_vas in Hin.
    apply list_elem_of_fmap in Hin as (j' & -> & Hj'). rewrite Hdiv. by intros <-. }
  intros a k1 (pages1 & Hs1 & Hk1 & Hc1 & Hb1). apply (HQ a pages1). split.
  - rewrite !length_app. simpl. lia.
  - unfold page_vas. rewrite fmap_app, zip_with_app by (by rewrite length_fmap). cbn [fmap list_fmap zip_with].
    rewrite with_pages_snoc. eapply ks_perm; [|exact Hs1]. rewrite <- app_assoc. cbn [app]. apply Permutation_middle.
  - eapply kept_trans; [exact Hk|]. eapply kept_sub; [|exact Hk1]. intros c Hc'. apply elem_of_app. by right.
  - rewrite length_app. simpl. lia.
  - intros j' a' i Hin Hi Hlt. rewrite zip_with_app in Hin by done. cbn [zip_with] in Hin.
    apply elem_of_app in Hin as [Hin|Hin].
    + rewrite <- (Hb j' a' i Hin Hi Hlt). apply (kp_mem _ _ _ _ Hk1). exists a'. split; [|lia].
      apply elem_of_app. left. by apply elem_of_zip_r in Hin.
    + apply list_elem_of_singleton in Hin as [= -> ->]. rewrite Hb1 by lia. apply (kp_out _ _ _ _ Hk).
      apply Hsrc. unfold PGSIZE in *. lia.
Qed.

Lemma loaded_says k0 n0 rest pt f js ps pages l k :
  loaded k0 n0 rest pt f js ps pages k -> loaded k0 n0 rest pt f js ps pages (says l k).
Proof using Type.
  intros []. split; try done; [by apply ks_says|]. eapply kept_trans; [eassumption|apply kept_says].
Qed.
Lemma wp_uvminit_dump k0 n0 rest pt f js ps pages mem sz k : loaded k0 n0 rest pt f js ps pages k ->
  wp (uvminit_dump mem sz) (fun _ => loaded k0 n0 rest pt f js ps pages) k.
Proof using Type.
  intros H. unfold uvminit_dump. apply wp_bind, wp_md.
  apply (wp_for_each _ (fun _ => loaded k0 n0 rest pt f js ps pages)); [by apply loaded_says| |done].
  intros dn i todo k1 _ H1. apply wp_bind, wp_rd, wp_md. by apply loaded_says.
Qed.

Lemma uvminit_ok rest pt f pages k : kspace rest pt f pages k -> size mod PGSIZE <> 0 ->
  (forall v, 0 <= v < MAXUVA -> valid (f v) = false) ->
  (4 * Z.to_nat (size / PGSIZE) + 8 <= length pages)%nat ->
  wp (uvminit pt src size) (fun _ k' => exists ps pages',
    loaded k (length pages) rest pt f (seqZ 0 (size / PGSIZE + 1)) ps pages' k') k.
Proof using All.
  intros Hs Hmod Hf Hlen. unfold uvminit. rewrite (proj2 (Z.eqb_neq size 0)) by lia.
  assert ((size - 1) / PGSIZE = size / PGSIZE) as -> by (unfold PGSIZE in *; zlia).
  set (w := size / PGSIZE) in *. assert (0 <= w) as Hw by (unfold w, PGSIZE; zlia).
  assert (w * PGSIZE + size mod PGSIZE = size) as Ew by (unfold w, PGSIZE; zlia).
  assert (forall j, 0 <= j <= w -> forall v, 0 <= v -> v / PGSIZE = j -> valid (f v) = false) as Hfj.
  { intros j Hj v Hv E. apply Hf. unfold w, PGSIZE, MAXUVA in *. zlia. }
  apply wp_bind, (wp_for_each _ (fun dn k' => exists ps pages', loaded k (length pages) rest pt f dn ps pages' k')).
  - exists [], pages. split; [done|exact Hs|apply kept_refl|simpl; lia|]. by intros j a i ?%not_elem_of_nil.
  - intros dn j todo k1 E (ps & pages1 & Hl).
    assert (j ∈ seqZ 0 w) as Hj%elem_of_seqZ by (rewrite E; apply elem_of_app; right; left).
    pose proof (f_equal (@length Z) E) as El. rewrite length_seqZ, length_app in El. cbn [length] in El.
    pose proof (NoDup_seqZ 0 w) as Hnds. rewrite E in Hnds. apply NoDup_app in Hnds as (_ & Hd & _).
    apply wp_bind, (loaded_step k (length pages) rest pt f dn ps pages1 k1 j PGSIZE); try done; try lia.
    + intros Hin. apply (Hd j Hin). left.
    + pose proof (Z.mod_pos_bound size PGSIZE ltac:(done)). nia.
    + pose proof (Z.mod_pos_bound size PGSIZE ltac:(done)). nia.
    + apply Hfj. lia.
    + intros a pages' k' Hl'. apply wp_mret. by exists (ps ++ [a]), pages'.
  - intros k1 (ps & pages1 & Hl).
    pose proof (Z.mod_pos_bound size PGSIZE ltac:(done)).
    apply wp_bind, (loaded_step k (length pages) rest pt f (seqZ 0 w) ps pages1 k1 w (size mod PGSIZE)); try done; try lia.
    + rewrite elem_of_seqZ. lia.
    + apply Hfj. lia.
    + rewrite length_seqZ. lia.
    + intros a pages' k' Hl'. eapply wp_mono; [exact (wp_uvminit_dump _ _ _ _ _ _ _ _ a size _ Hl')|].
      intros [] k2 H2. exists (ps ++ [a]), pages'. rewrite seqZ_app in * by lia. exact H2.
Qed.
End Load.

(** ** [alloc_vma_stack] *)

Definition stack_start : Z := USER_STACK_TOP - INIT_STACK_SIZE.
Definition user_stack : list Z := steps stack_start USER_STACK_TOP.
Lemma user_stack_apart : NoDup ((fun va => va / PGSIZE) <$> user_stack).
Proof using Type. apply (bool_decide_unpack _). by vm_compute. Qed.
Lemma user_stack_ok : Forall (fun va => 0 <= va /\ va mod PGSIZE = 0 /\ va + PGSIZE <= MAXUVA) user_stack.
Proof using Type. apply (bool_decide_unpack _). by vm_compute. Qed.

Definition stack_vma (prev next : Z) : vma :=
  Vma STACK (Z.lor PTE_P PTE_W) stack_start INIT_STACK_SIZE USER_STACK_TOP 0 (-1) (u64 (-1)) prev next.
(** The head [a], the area for [mmap] [b] and the stack [c]. *)
Definition user_areas (a b c : Z) (vm : gmap Z vma) : gmap Z vma :=
  <[a := Vma NONE 0 0 0 0 0 0 0 c b]> (<[b := Vma MMAP 0 USER_MMAP_START 0 USER_MMAP_START 0 0 0 a c]>
    (<[c := stack_vma b a]> vm)).

Lemma alloc_vma_stack_ok p q k pr a b vm rest upt f pages :
  kspace rest upt f pages k -> p_vma pr = a -> p_pagetable pr = upt -> a <> b -> a ∈ rest -> b ∈ rest ->
  (forall v, 0 <= v < MAXUVA -> v ∈ user_stack \/ (exists s, s ∈ user_stack /\ v / PGSIZE = s / PGSIZE) -> valid (f v) = false) ->
  (410 <= length pages)%nat ->
  wp (alloc_vma_stack kernel_end p) (fun r s => r = 0 /\ exists c ps pages' k', c <> a /\ c <> b
      /\ s = st p q k' pr (user_areas a b c vm) /\ length ps = 100%nat
      /\ kspace (ps ++ c :: rest) upt (with_pages stack_area_perm (zip user_stack ps) f) pages' k'
      /\ kept rest k k' /\ (length pages <= length pages' + 401)%nat)
    (st p q k pr (<[a := head_vma b]> (<[b := mmap_vma a]> vm))).
Proof using All.
  intros Hs Hva Hpt Hab Har Hbr Hf Hlen. destruct pages as [|c pages1]; [cbn [length] in Hlen; lia|].
  unfold alloc_vma_stack. st_run. rewrite Hva, Hpt. unfold vlast. st_step.
  eapply wp_st_vget; [apply lookup_insert_eq|]. st_step.
  eapply (wp_st_vwalk_cons _ _ _ _ _ a b (mmap_vma a)); [done|by rewrite lookup_insert_ne, lookup_insert_eq by done| |].
  { change (v_next (mmap_vma a)) with a. rewrite Z.eqb_refl. apply wp_mret. st_run.
    apply wp_st_k. eapply wp_mono; [by apply (ks_kalloc kernel_end Hend all Hall Hnd)|].
    intros r k1 (-> & Hc0 & Hcok & Hcr & Hct & Hk1 & Hs1). rewrite (proj2 (Z.eqb_neq c 0)) by done.
    assert (c <> a /\ c <> b) as [Hca Hcb] by (split; by intros ->).
    st_step. apply wp_st_k. cbn [length] in Hlen. eapply wp_mono.
    { apply (uvmalloc1_ok kernel_end Hend all Hall Hnd (c :: rest) upt f pages1 k1 stack_start USER_STACK_TOP stack_area_perm Hs1);
        [done| |exact user_stack_apart|].
      - pose proof user_stack_ok as Hok. rewrite Forall_forall in Hok |- *. intros va Hva'.
        destruct (Hok va Hva') as (H0 & Hal & Hmax). assert (MAXUVA < MAXVA) by done. split; [done|]. split; [done|].
        split; [lia|]. intros v Hv. apply Hf; [unfold PGSIZE in *; zlia|]. right. by exists va.
      - change (length (steps stack_start USER_STACK_TOP)) with 100%nat. lia. }
    intros r k2 (-> & ps & pages2 & [Hl Hs2 Hk2 Hc2 _]). cbn [negb Z.eqb]. fold user_stack in *.
    change (length user_stack) with 100%nat in *.
    st_step. eapply wp_st_vget; [by rewrite lookup_insert_ne, lookup_insert_eq by done|]. st_run.
    change (v_next (mmap_vma a)) with a. eapply wp_st_vupd; [by rewrite lookup_insert_ne, lookup_insert_eq by done|]. st_run.
    eapply wp_st_vupd; [by rewrite !lookup_insert_ne, lookup_insert_eq by done|]. st_run.
    split; [done|]. exists c, ps, pages2, k2. do 2 (split; [done|]). split; [|split; [done|split; [exact Hs2|split]]].
    - unfold st. f_equal. unfold user_areas, stack_vma. apply map_eq. intros i. rewrite !lookup_insert.
      by repeat case_decide; try congruence.
    - eapply kept_trans; [eapply kept_sub; [|exact Hk1]; intros x Hx; apply elem_of_app; by right|].
      eapply kept_sub; [|exact Hk2]. intros x Hx. by right.
    - cbn [length]. lia. }
  apply insert_non_empty.
Qed.

Lemma user_areas_list a b c vm : a <> b -> c <> a -> c <> b -> vlist (user_areas a b c vm) a [b; c].
Proof using Type.
  intros Hab Hca Hcb. split.
  - apply NoDup_cons. rewrite elem_of_cons, list_elem_of_singleton. split; [intros [?|?]; congruence|].
    apply NoDup_cons. rewrite list_elem_of_singleton. split; [congruence|apply NoDup_singleton].
  - unfold user_areas. repeat constructor; unfold nxt, prv; cbn [fst snd]; rewrite !lookup_insert;
      repeat case_decide; try congruence; done.
Qed.

Lemma get_proc_sp_ok p q k pr a b c vm (Q : Z -> pst -> Prop) : a <> b -> c <> a -> c <> b -> p_vma pr = a ->
  Q USER_STACK_TOP (st p q k pr (user_areas a b c vm)) -> wp (get_proc_sp p) Q (st p q k pr (user_areas a b c vm)).
Proof using Type.
  intros Hab Hca Hcb Hva HQ. pose proof (user_areas_list a b c vm Hab Hca Hcb) as Hl.
  assert (user_areas a b c vm !! a = Some (Vma NONE 0 0 0 0 0 0 0 c b)) as Ea by apply lookup_insert_eq.
  assert (user_areas a b c vm !! b = Some (Vma MMAP 0 USER_MMAP_START 0 USER_MMAP_START 0 0 0 a c)) as Eb
    by (unfold user_areas; by rewrite lookup_insert_ne, lookup_insert_eq by done).
  assert (user_areas a b c vm !! c = Some (stack_vma b a)) as Ec
    by (unfold user_areas; by rewrite !lookup_insert_ne, lookup_insert_eq by done).
  unfold get_proc_sp. st_run. rewrite Hva. unfold find_stack. st_step. eapply wp_st_vget; [exact Ea|]. st_step.
  eapply wp_eq.
  { apply (vwalk_look (fun x v => if decide (v_type v = STACK) then Some x else None) _ a [b; c]); [exact Hl| |exact Ea].
    intros x v s. by destruct (decide (v_type v = STACK)). }
  cbn [s_vmas st vscan]. rewrite Eb, Ec. cbn [v_type stack_vma]. rewrite decide_False by done. rewrite decide_True by done.
  st_run. eapply wp_st_vget; [exact Ec|]. cbn [v_type stack_vma]. rewrite bool_decide_true by done. by apply wp_mret.
Qed.

(** ** [userinit] *)

Lemma wp_st_initproc p q k pr vm o (Q : unit -> pst -> Prop) :
  Q tt (st p (update s_initproc_l o q) k pr vm) -> wp (s_initproc_l <~ o) Q (st p q k pr vm).
Proof using Type. intros HQ. by apply wp_wr. Qed.

(** What the first process's table means. *)
Definition user_map (trampoline signalTrampoline tf : Z) (code stack : list Z) : Z -> Z :=
  with_pages stack_area_perm (zip user_stack stack)
    (with_pages user_rwx (zip (page_vas (seqZ 0 (Z.of_nat (length code)))) code) (user_base trampoline signalTrampoline tf)).

Lemma user_base_low t s tf v : 0 <= v < MAXUVA -> user_base t s tf v = 0.
Proof using Type.
  intros Hv. unfold user_base, upd_page.
  assert (MAXUVA / PGSIZE < SIGTRAMPOLINE / PGSIZE) by done.
  assert (SIGTRAMPOLINE / PGSIZE < TRAPFRAME / PGSIZE < TRAMPOLINE / PGSIZE) by done.
  rewrite !decide_False; [done|..]; unfold PGSIZE, MAXUVA in *; zlia.
Qed.
Lemma zip_fst_fmap {B} (g : Z -> B) (l l' : list Z) : (length l <= length l')%nat ->
  (fun x : Z * Z => g x.1) <$> zip l l' = g <$> l.
Proof using Type.
  revert l'. induction l as [|x l IH]; intros [|y l'] Hl; cbn in *; [done|done|lia|]. f_equal. apply IH. lia.
Qed.

(** A byte of the program, read through the table. *)
Lemma user_map_code t s tf code stack j a v : Forall (page_ok kernel_end) code -> length stack = 100%nat ->
  Z.of_nat (length code) * PGSIZE <= stack_start ->
  (j, a) ∈ zip (seqZ 0 (Z.of_nat (length code))) code -> v / PGSIZE = j ->
  user_pa (user_map t s tf code stack v) = a.
Proof using Hend.
  intros Hok Hst Hlen Hin Hv. pose proof (elem_of_zip_l _ _ _ _ Hin) as Hj%elem_of_seqZ.
  pose proof (elem_of_zip_r _ _ _ _ Hin) as Ha. rewrite Forall_forall in Hok.
  unfold user_map. rewrite with_pages_out.
  - assert ((j * PGSIZE, a) ∈ zip (page_vas (seqZ 0 (Z.of_nat (length code)))) code) as Hin'.
    { unfold page_vas. rewrite zip_with_fmap_l. apply list_elem_of_fmap in Hin || idtac. clear -Hin.
      revert Hin. generalize (seqZ 0 (Z.of_nat (length code))). intros l. revert code.
      induction l as [|x l IH]; intros [|y code]; cbn; intros H; try by apply not_elem_of_nil in H.
      apply elem_of_cons in H as [[= -> ->]|H]; [left|right; auto]. }
    rewrite (with_pages_in user_rwx _ _ (j * PGSIZE) a v).
    + apply plv3_user; [by apply (page_ok_kpage kernel_end Hend), Hok|done|done].
    + rewrite (zip_fst_fmap (fun x => x / PGSIZE)) by (unfold page_vas; rewrite length_fmap, length_seqZ; lia).
      unfold page_vas. rewrite <- list_fmap_compose. apply (NoDup_fmap_2_strong _); [|apply NoDup_seqZ].
      intros x y _ _. cbn. unfold PGSIZE. intros. zlia.
    + exact Hin'.
    + rewrite Hv. unfold PGSIZE. zlia.
  - intros [x y] Hx. apply elem_of_zip_l in Hx. cbn.
    pose proof user_stack_ok as Hus. assert (Forall (fun va => stack_start <= va) user_stack) as Hge
      by (apply (bool_decide_unpack _); by vm_compute).
    rewrite Forall_forall in Hge. specialize (Hge x Hx). rewrite Hv. unfold PGSIZE in *. zlia.
Qed.

(** The process made of [pr] when [userinit] is done. *)
Definition first_proc (pr : proc) (pid size tf pagetable vma exec_close ra : Z) : proc :=
  update p_tmask_l 0 (update p_state_l RUNNABLE (update p_name_l (literal "initcode" ++ replicate 7 0)
    (update p_sz_l (PGROUNDUP size) (born pr (p_lock pr) pid tf pagetable vma (PROCVKSTACK 0) exec_close ra)))).

Section First.
Variables trampoline signalTrampoline forkret_addr initcode size : Z.
Context (Ht : 0 <= trampoline /\ trampoline + PGSIZE < 2 ^ 63 + 2 ^ 62).
Context (Hst : 0 <= signalTrampoline /\ signalTrampoline + PGSIZE < 2 ^ 63 + 2 ^ 62).
Context (Hsrc : forall b, initcode <= b < initcode + size -> ~ on all b).
Context (Hsz : 0 < size <= stack_start) (Hmod : size mod PGSIZE <> 0) (H32 : size < 2 ^ 32).

(** After [userinit]: table entry 0 holds the first process, ready to run; its
    space has the program from address 0 and a cleared stack; its trap frame has
    the stack pointer and the entry point; the kernel's pages and its table are
    as they were. *)
Record first_made (q : pst) (k : kst) (pr : proc) (vm : gmap Z vma) (rest : list Z) (kpt : Z) (n : nat)
    (tf upt a b c ec : Z) (code stack pages : list Z) (k' : kst) (s : pst) : Prop := {
  fm_state : s = st 0 (update s_initproc_l (Some 0%nat) (update s_nextpid_l (s32 (s_nextpid q + 1)) q)) k'
    (first_proc pr (s_nextpid q) size tf upt a ec forkret_addr) (user_areas a b c vm);
  fm_space : kspace (stack ++ c :: code ++ ec :: b :: a :: tables 3 (k_mem k) kpt ++ tf :: rest) upt
    (user_map trampoline signalTrampoline tf code stack) pages k';
  fm_hart : k_hart k' = crit (k_hart k);
  fm_kept : kept (tables 3 (k_mem k) kpt ++ rest) k k';
  fm_code : forall v, 0 <= v < size ->
    rd8 (k_mem k') (uaddr (user_map trampoline signalTrampoline tf code stack) v) = rd8 (k_mem k) (initcode + v);
  fm_frame : rd64 (k_mem k') (tf + tf_sp) = USER_STACK_TOP /\ rd64 (k_mem k') (tf + tf_era) = 0;
  fm_lists : vlist (user_areas a b c vm) a [b; c] /\ length stack = 100%nat /\ length code = Z.to_nat (size / PGSIZE + 1);
  fm_cost : (n <= length pages + 427 + 4 * Z.to_nat (size / PGSIZE))%nat
}.

(** The two stores to the trap frame. *)
Lemma frame_ok rest upt f pages k tf sp : kspace rest upt f pages k -> tf ∈ rest -> 0 <= sp < 2 ^ 64 ->
  let k' := update k_mem_l (wr64 (wr64 (k_mem k) (tf + tf_sp) sp) (tf + tf_era) 0) k in
  kspace rest upt f pages k'
  /\ (forall ps, (forall q, q ∈ ps -> page_ok kernel_end q) -> (tf ∉ ps) -> kept ps k k')
  /\ rd64 (k_mem k') (tf + tf_sp) = sp /\ rd64 (k_mem k') (tf + tf_era) = 0.
Proof using Hend Hall Hnd.
  intros Hs Hin Hsp k'. destruct (ks_write kernel_end Hend all Hall Hnd _ _ _ _ _ tf
    (wr64 (wr64 (k_mem k) (tf + tf_sp) sp) (tf + tf_era) 0) Hs Hin) as [H1 H2].
  - intros b Hb. unfold wr64. rewrite !rd8_wrn_out; [done|unfold tf_sp, tf_era, PGSIZE in *; cbn; lia..].
  - split; [exact H1|]. split; [exact H2|]. unfold k'. cbn. split; [|apply rd64_wr64_eq].
    rewrite rd64_wr64_ne by (unfold tf_sp, tf_era; lia). rewrite rd64_wr64_eq. by apply Z.mod_small.
Qed.

(** Every byte of the program is at its address. *)
Lemma code_bytes k k2 k' n rest upt f tf code stack pages :
  loaded initcode size k n rest upt f (seqZ 0 (size / PGSIZE + 1)) code pages k2 ->
  length stack = 100%nat -> kept code k2 k' -> forall v, 0 <= v < size ->
  rd8 (k_mem k') (uaddr (user_map trampoline signalTrampoline tf code stack) v) = rd8 (k_mem k) (initcode + v).
Proof using All.
  intros Hl Hstk Hk v Hv. pose proof (ld_len _ _ _ _ _ _ _ _ _ _ _ Hl) as Hlen.
  rewrite length_seqZ in Hlen. assert (0 <= v / PGSIZE <= size / PGSIZE) as Hj by (unfold PGSIZE; zlia).
  assert (Z.of_nat (length code) = size / PGSIZE + 1) as Elen by (unfold PGSIZE in *; zlia).
  destruct (lookup_lt_is_Some_2 code (Z.to_nat (v / PGSIZE))) as [a Ha]; [lia|].
  assert ((v / PGSIZE, a) ∈ zip (seqZ 0 (size / PGSIZE + 1)) code) as Hin.
  { apply list_elem_of_lookup. exists (Z.to_nat (v / PGSIZE)). rewrite lookup_zip_with, lookup_seqZ_lt by lia. cbn.
    rewrite Ha. cbn. do 2 f_equal. lia. }
  assert (stack_start mod PGSIZE = 0) as Hssm by done.
  assert (MAXUVA < 2 ^ 48 /\ stack_start < MAXUVA) as [Hmx Hss] by done.
  unfold uaddr. rewrite (user_map_code trampoline signalTrampoline tf code stack (v / PGSIZE) a).
  - pose proof (ld_bytes _ _ _ _ _ _ _ _ _ _ _ Hl (v / PGSIZE) a (v mod PGSIZE) Hin) as Hb.
    rewrite (kp_mem _ _ _ _ Hk).
    + rewrite Hb; [f_equal; unfold PGSIZE; zlia|apply Z.mod_pos_bound; done|unfold PGSIZE; zlia].
    + exists a. split; [by apply elem_of_zip_r in Hin|]. pose proof (Z.mod_pos_bound v PGSIZE ltac:(done)). lia.
  - apply Forall_forall. intros x Hx. apply (ks_ok kernel_end Hend all Hall Hnd _ _ _ _ _ (ld_space _ _ _ _ _ _ _ _ _ _ _ Hl)).
    right. left. apply elem_of_app. by left.
  - done.
  - unfold PGSIZE in *. zlia.
  - by rewrite Elen.
  - rewrite round_down_spec by lia. unfold PGSIZE. zlia.
Qed.


Lemma code_low v : 0 <= v < MAXUVA -> v ∈ user_stack \/ (exists s, s ∈ user_stack /\ v / PGSIZE = s / PGSIZE) ->
  forall tf (code : list Z), length code = Z.to_nat (size / PGSIZE + 1) ->
  valid (with_pages user_rwx (zip (page_vas (seqZ 0 (size / PGSIZE + 1))) code) (user_base trampoline signalTrampoline tf) v) = false.
Proof using Hsz Hmod.
  intros Hv Hvs tf code Hlen.
  assert (stack_start / PGSIZE <= v / PGSIZE) as Hge.
  { assert (Forall (fun va => stack_start <= va) user_stack) as H by (apply (bool_decide_unpack _); by vm_compute).
    rewrite Forall_forall in H. destruct Hvs as [Hs|(s & Hs & ->)]; apply H in Hs; unfold PGSIZE; zlia. }
  assert (stack_start mod PGSIZE = 0) as Hssm by done.
  rewrite with_pages_out; [by rewrite user_base_low|]. intros [x y] Hx. apply elem_of_zip_l in Hx.
  unfold page_vas in Hx. apply list_elem_of_fmap in Hx as (j & -> & Hj%elem_of_seqZ). cbn. unfold PGSIZE in *. zlia.
Qed.

(** The end of [userinit]: its facts put together. *)
Lemma first_made_end q k pr vm rest kpt n tf upt a b c ec code stack pages1 pages2 pages k1 k2 k3 :
  let R := tables 3 (k_mem k) kpt in
  let k4 := update k_hart_l (crit (k_hart k)) (update k_mem_l (wr64 (wr64 (k_mem k3) (tf + tf_sp) USER_STACK_TOP) (tf + tf_era) 0) k3) in
  a <> b -> c <> a -> c <> b -> calm (k_hart k) ->
  kspace (ec :: b :: a :: R ++ tf :: rest) upt (user_base trampoline signalTrampoline tf) pages1 k1 ->
  kept (R ++ rest) (update k_hart_l (pushed (k_hart k)) k) k1 ->
  loaded initcode size k1 (length pages1) (ec :: b :: a :: R ++ tf :: rest) upt (user_base trampoline signalTrampoline tf)
    (seqZ 0 (size / PGSIZE + 1)) code pages2 k2 ->
  length stack = 100%nat ->
  kspace (stack ++ c :: code ++ ec :: b :: a :: R ++ tf :: rest) upt
    (with_pages stack_area_perm (zip user_stack stack)
       (with_pages user_rwx (zip (page_vas (seqZ 0 (size / PGSIZE + 1))) code) (user_base trampoline signalTrampoline tf)))
    pages k3 ->
  kept (code ++ ec :: b :: a :: R ++ tf :: rest) k2 k3 ->
  (n <= length pages + 427 + 4 * Z.to_nat (size / PGSIZE))%nat ->
  first_made q k pr vm rest kpt n tf upt a b c ec code stack pages k4
    (st 0 (update s_initproc_l (Some 0%nat) (update s_nextpid_l (s32 (s_nextpid q + 1)) q)) k4
       (first_proc pr (s_nextpid q) size tf upt a ec forkret_addr) (user_areas a b c vm)).
Proof using All.
  intros R k4 Hab Hca Hcb Hset Hs1 Hk1 Hld Hsl Hs3 Hk3 Hc.
  assert (Z.of_nat (length code) = size / PGSIZE + 1) as Elen.
  { rewrite (ld_len _ _ _ _ _ _ _ _ _ _ _ Hld), length_seqZ. unfold PGSIZE. zlia. }
  rewrite <- Elen in Hs3. fold (user_map trampoline signalTrampoline tf code stack) in Hs3.
  assert (forall x, x ∈ R ++ rest -> x ∈ ec :: b :: a :: R ++ tf :: rest) as Hsub
    by (intros x; rewrite !elem_of_cons, !elem_of_app, elem_of_cons; tauto).
  pose proof (ks_nodup kernel_end Hend all Hall Hnd _ _ _ _ _ Hs3) as Hn. apply NoDup_app in Hn as (_ & _ & Hn).
  apply NoDup_app in Hn as (Hn & _ & _). apply NoDup_app in Hn as (_ & _ & Hn).
  apply NoDup_cons in Hn as [_ Hn]. apply NoDup_app in Hn as (_ & Hnc & Hn). rewrite !NoDup_cons in Hn.
  destruct Hn as (_ & _ & _ & Hn). apply NoDup_app in Hn as (_ & Hn & Hn'). apply NoDup_cons in Hn' as [Hn' _].
  assert (tf ∉ code) as Htc by (intros Hin; apply (Hnc tf Hin); do 3 right; apply elem_of_app; right; left).
  assert (tf ∉ R ++ rest) as HtR by (intros [Hin|Hin]%elem_of_app; [apply (Hn tf Hin); left|done]).
  assert (forall x, x ∈ code \/ x ∈ R ++ rest -> page_ok kernel_end x) as Hok.
  { intros x Hx. apply (ks_ok kernel_end Hend all Hall Hnd _ _ _ _ _ Hs3). right. left.
    apply elem_of_app. right. right. apply elem_of_app. destruct Hx; auto. }
  assert (tf ∈ stack ++ c :: code ++ ec :: b :: a :: R ++ tf :: rest) as Htin
    by (rewrite !elem_of_app, elem_of_cons, elem_of_app, !elem_of_cons, elem_of_app, elem_of_cons; tauto).
  destruct (frame_ok _ _ _ _ _ tf USER_STACK_TOP Hs3 Htin ltac:(done)) as (Hs5 & Hk5 & Hsp & Hera).
  set (k5 := update k_mem_l _ _) in *.
  assert (kept (R ++ rest) (update k_hart_l (pushed (k_hart k)) k) k5) as [[Hkp _] Hm Ho].
  { eapply kept_trans; [exact Hk1|]. eapply kept_trans; [eapply kept_sub; [exact Hsub|exact (ld_kept _ _ _ _ _ _ _ _ _ _ _ Hld)]|].
    eapply kept_trans; [eapply kept_sub; [|exact Hk3]; intros x Hx; apply elem_of_app; right; by apply Hsub|].
    apply Hk5; [intros x Hx; apply Hok; by right|done]. }
  split; [done| |done| | |by split|split; [by apply user_areas_list|split; [done|lia]]|done].
  - apply ks_hart; [by apply calm_crit|exact Hs5].
  - split; [split; [done|by intros [_ Hcr]]|exact Hm|exact Ho].
  - intros v Hv. change (k_mem k4) with (k_mem k5).
    rewrite (code_bytes k1 k2 k5 _ _ _ _ tf code stack pages2 Hld Hsl); [|..|done].
    + apply (kp_out _ _ _ _ Hk1). apply Hsrc. lia.
    + eapply kept_trans; [eapply kept_sub; [|exact Hk3]; intros x Hx; apply elem_of_app; by left|].
      apply Hk5; [intros x Hx; apply Hok; by left|done].
Qed.

Lemma userinit_ok q k pr vm rest kpt f pages :
  calm (k_hart k) -> c_noff (view mycpu_l (k_hart k)) < 2 ^ 31 - 4 ->
  unheld (p_lock pr) -> p_state pr = UNUSED -> p_name pr = replicate 16 0 -> unheld (s_pid_lock q) ->
  kspace rest kpt f pages k -> (440 + 4 * Z.to_nat (size / PGSIZE) <= length pages)%nat ->
  wp (userinit kernel_end trampoline signalTrampoline forkret_addr initcode size)
    (fun _ s => exists tf upt a b c ec code stack pages' k',
       first_made q k pr vm rest kpt (length pages) tf upt a b c ec code stack pages' k' s) (st 0 q k pr vm).
Proof using All.
  intros Hset Hno Hl Hstate Hname Hpl Hs Hlen. unfold userinit. st_step. eapply wp_mono.
  { apply (allocproc_ok kernel_end Hend all Hall Hnd trampoline signalTrampoline forkret_addr Ht Hst 0 q k pr vm rest kpt f pages); (by left) || (intros; lia) ||
      done || lia. }
  intros r s (tf & upt & a & b & ec & pages1 & k1 & -> & Hab & Htf & -> & Hs1 & Hk1 & Hz & Hc1). st_step.
  apply wp_st_initproc. st_step. apply wp_mret. st_run. set (k0 := update k_hart_l (pushed (k_hart k)) k) in *.
  set (R := tables 3 (k_mem k) kpt) in *. apply wp_st_k.
  assert (stack_start < MAXUVA /\ stack_start mod PGSIZE = 0) as [Hss Hssm] by done.
  assert (u32 size = size) as -> by (apply Z.mod_small; lia).
  assert (0 < size < MAXUVA) as Hsz' by lia.
  eapply wp_mono; [apply (uvminit_ok initcode size Hsrc Hsz' _ upt _ pages1 k1 Hs1 Hmod)|].
  { intros v Hv. by rewrite user_base_low. }
  { lia. }
  intros [] k2 (code & pages2 & Hld). pose proof (ld_space _ _ _ _ _ _ _ _ _ _ _ Hld) as Hs2.
  pose proof (ld_len _ _ _ _ _ _ _ _ _ _ _ Hld) as Hcl. rewrite length_seqZ in Hcl.
  pose proof (ld_cost _ _ _ _ _ _ _ _ _ _ _ Hld) as Hcc. rewrite length_seqZ in Hcc.
  st_run. eapply wp_mono.
  { apply (alloc_vma_stack_ok 0 _ k2 _ a b vm _ upt _ pages2 Hs2); try done.
    - apply elem_of_app. right. do 2 right. left.
    - apply elem_of_app. right. right. left.
    - intros v Hv Hvs. by apply code_low.
    - unfold PGSIZE in *. zlia. }
  intros r s (-> & c & stack & pages3 & k3 & Hca & Hcb & -> & Hsl & Hs3 & Hk3 & Hc3). st_step.
  apply get_proc_sp_ok; [done..|]. st_run. apply wp_st_k, wp_md. st_run. apply wp_st_k, wp_md. st_run.
  set (tfp := view p_trapframe_l _). change tfp with tf. clear tfp.
  change (view p_name_l _) with (p_name pr). rewrite Hname. clear Hname.
  assert (safestrcpy (replicate 16 0) (literal "initcode") NELEM_NAME = Some (literal "initcode" ++ replicate 7 0)) as ->
    by (by vm_compute). unfold lift. st_run.
  set (k4 := update k_mem_l _ _).
  assert (k_hart k3 = pushed (k_hart k)) as Hh.
  { assert (settled (pushed (k_hart k))) as Hset' by (apply settled_pushed; [done|lia]).
    assert (kept (R ++ rest) k0 k3) as [[_ Hc] _ _]; [|by apply Hc].
    eapply kept_trans; [exact Hk1|]. eapply kept_trans; eapply kept_sub; [|exact (ld_kept _ _ _ _ _ _ _ _ _ _ _ Hld)| |exact Hk3];
      intros x; rewrite ?elem_of_app, ?elem_of_cons, ?elem_of_app, ?elem_of_cons; tauto. }
  apply (wp_st_unlock 0 _ k4 _ _ (k_hart k) (p_lock pr)); [exact Hset|exact Hh|done|].
  exists tf, upt, a, b, c, ec, code, stack, pages3.
  assert (u64 size = size) as -> by (apply Z.mod_small; lia).
  exists (update k_hart_l (crit (k_hart k)) k4). unfold unheld in Hl. rewrite Hl.
  exact (first_made_end q k pr vm rest kpt (length pages) tf upt a b c ec code
    stack pages1 pages2 pages3 k1 k2 k3 Hab Hca Hcb Hset Hs1 Hk1 Hld Hsl Hs3 Hk3 ltac:(lia)).
Qed.
End First.
End Boot.
