(* ===== verification/UserCopy.v ===== *)
(** The memory of a child: [uvmcopy] with enough memory gives it a copy of each
    page, in pages of its own. *)

From S2P Require Import Prelude Mem Locks Kalloc Vm PageTable VmProps Space BootMem UserInit.

(** The flags [uvmcopy] passes on: the low nine bits of the entry. *)
Definition passed (e : Z) : Z := u32 (PTE_FLAGS e).
Lemma passed_low e : passed e = Z.land e 0x1FF.
Proof.
  unfold passed, PTE_FLAGS, u32. rewrite <- Z.land_ones by done. by rewrite <- Z.land_assoc.
Qed.
Lemma passed_bits e : u64 (s32 (passed e)) = Z.land e 0x1FF.
Proof.
  rewrite passed_low. change 0x1FF with (Z.ones 9). rewrite Z.land_ones by done.
  pose proof (Z.mod_pos_bound e (2 ^ 9) ltac:(done)) as H. rewrite s32_small by lia. apply u64_small. lia.
Qed.

(** The entry made for a copy at [pa] of a page that [e] maps. *)
Lemma leaf_passed pa e : kpage pa ->
  valid (leaf pa (passed e)) = true /\ PTE2PA (leaf pa (passed e)) = pa
  /\ Z.land (leaf pa (passed e)) 0x1FF = Z.lor (Z.land e 0x1FF) (Z.lor (Z.lor PTE_V PTE_MAT) PTE_D).
Proof.
  intros Hpa. unfold leaf. rewrite passed_bits. set (F := Z.land e 0x1FF).
  assert (Z.lor (Z.lor (Z.lor (Z.lor (PA2PTE pa) F) PTE_V) PTE_MAT) PTE_D
    = Z.lor (PA2PTE pa) (Z.lor F (Z.lor (Z.lor PTE_V PTE_MAT) PTE_D))) as -> by (by rewrite !Z.lor_assoc).
  assert (Z.land (Z.lor F (Z.lor (Z.lor PTE_V PTE_MAT) PTE_D)) PAMASK = 0) as Hm.
  { rewrite Z.land_lor_distr_l. unfold F. by rewrite <- Z.land_assoc, Z.land_0_r. }
  split; [|split].
  - apply valid_lor, valid_lor. done.
  - by apply PTE2PA_flags.
  - rewrite !Z.land_lor_distr_l. unfold PA2PTE, F. rewrite <- !Z.land_assoc, Z.land_0_r. done.
Qed.

Lemma leaf_passed_flags pa e : kpage pa -> PTE_FLAGS (leaf pa (passed e)) <> PTE_V.
Proof.
  intros Hpa E. destruct (leaf_passed pa e Hpa) as (_ & _ & Hl).
  assert (Z.land (PTE_FLAGS (leaf pa (passed e))) 0x1FF = Z.land (leaf pa (passed e)) 0x1FF) as Ef
    by (unfold PTE_FLAGS; by rewrite <- Z.land_assoc).
  rewrite E, Hl in Ef. assert (Z.land (Z.land PTE_V 0x1FF) PTE_MAT = 0) as H0 by done. rewrite Ef in H0.
  rewrite Z.land_lor_distr_l in H0. by apply Z.lor_eq_0_iff in H0 as [_ ?].
Qed.

(** User code may use a copy as it may use the page. *)
Lemma user_pa_passed pa e : kpage pa -> valid e = true ->
  user_pa (leaf pa (passed e)) = (if Z.land e PTE_PLV3 =? 0 then 0 else pa)
  /\ user_pa e = (if Z.land e PTE_PLV3 =? 0 then 0 else PTE2PA e)
  /\ Z.land (leaf pa (passed e)) PTE_W = Z.land e PTE_W.
Proof.
  intros Hpa He. destruct (leaf_passed pa e Hpa) as (Hv & Hp & Hl).
  assert (forall b, Z.land 0x1FF b = b -> Z.land (Z.lor (Z.lor PTE_V PTE_MAT) PTE_D) b = 0 ->
    Z.land (leaf pa (passed e)) b = Z.land e b) as Hbits.
  { intros b H1 H2. rewrite <- H1 at 1. rewrite Z.land_assoc, Hl, Z.land_lor_distr_l, H2, Z.lor_0_r, <- Z.land_assoc. by rewrite H1. }
  unfold user_pa. rewrite Hv, He, Hp. cbn [negb]. rewrite !Hbits by done. done.
Qed.

(** The entry of a copy at [pa] of a page that [e] maps: the low nine bits of
    [e], which are the privilege level and the right to write among others, with
    the page made valid, cached and dirty.  The three high bits of [e] are lost:
    who may not read or execute the page may do so with the copy. *)
Definition copy_entry (pa e : Z) : Z :=
  Z.lor (PA2PTE pa) (Z.lor (Z.land e 0x1FF) (Z.lor (Z.lor PTE_V PTE_MAT) PTE_D)).
Lemma leaf_entry pa e : leaf pa (passed e) = copy_entry pa e.
Proof. unfold leaf, copy_entry. by rewrite passed_bits, !Z.lor_assoc. Qed.

(** At [v] the child, of table [f'] in [m'], has on its own pages [ps] what the
    parent, of table [f] in [m], has: the use of it and the right to write, the
    entry of a copy, and the byte. *)
Definition copy_of (f f' : Z -> Z) (ps : list Z) (m m' : mem) (v : Z) : Prop :=
  (user_ok f' v <-> user_ok f v) /\ Z.land (f' (PGROUNDDOWN v)) PTE_W = Z.land (f (PGROUNDDOWN v)) PTE_W
  /\ f' (PGROUNDDOWN v) = copy_entry (PTE2PA (f' (PGROUNDDOWN v))) (f (PGROUNDDOWN v))
  /\ (user_ok f v -> on ps (uaddr f' v) /\ rd8 m' (uaddr f' v) = rd8 m (uaddr f v)).

Section Copy.
Variable kernel_end : Z.
Context (Hend : DMWIN_MASK <= kernel_end <= RAMSTOP).
Context (all : list Z) (Hall : Forall (page_ok kernel_end) all) (Hnd : NoDup all).
Abbreviation kspace := (kspace kernel_end all).
Abbreviation kept := (kept all).

Lemma page_range p : page_ok kernel_end p -> 0 <= p /\ p + PGSIZE < 2 ^ 63 + 2 ^ 62.
Proof using Hend.
  intros [Hal Hp]. pose proof (page_end kernel_end Hend). assert (RAMSTOP < 2 ^ 63 + 2 ^ 62) by done.
  assert (RAMSTOP mod PGSIZE = 0) by done. unfold PGSIZE in *. zlia.
Qed.

Section Loop.
(** The parent's table [old], in memory [k0]; its tables and its pages are
    among [rest], what is in use then; [oth] is in use now. *)
Context (k0 : kst) (rest oth : list Z) (old new : Z) (fnew : Z -> Z).
Abbreviation fold := (xlate 3 (k_mem k0) old).
Context (Hold : forall c, c ∈ tables 3 (k_mem k0) old -> c ∈ rest) (Hoth : forall c, c ∈ rest -> c ∈ oth).

Definition copies : list (Z * Z) -> (Z -> Z) -> Z -> Z := with_perms (fun va => passed (fold va)).

(** The pages at [dn] are copied, to [ps]. *)
Record holds (dn ps : list Z) (k : kst) : Prop := {
  hd_len : length ps = length dn;
  hd_kept : kept rest k0 k;
  hd_bytes : forall va a i, (va, a) ∈ zip dn ps -> 0 <= i < PGSIZE ->
    rd8 (k_mem k) (a + i) = rd8 (k_mem k0) (PTE2PA (fold va) + i)
}.
Definition copied (dn ps pages : list Z) (k : kst) : Prop :=
  holds dn ps k /\ kspace (ps ++ oth) new (copies (zip dn ps) fnew) pages k.

Lemma copied_nil pages : kspace oth new fnew pages k0 -> copied [] [] pages k0.
Proof using Type. intros Hs. split; [|exact Hs]. split; [done|apply kept_refl|by intros ? ? ? ?%not_elem_of_nil]. Qed.

Lemma old_kept k : kept rest k0 k -> forall va, xlate 3 (k_mem k) old va = fold va.
Proof using Hold.
  intros Hk. apply (kept_tables all [] old k0 k). rewrite app_nil_r. by eapply kept_sub.
Qed.

(** What is copied stays so. *)
Lemma holds_same dn ps k k' : holds dn ps k -> kept (ps ++ oth) k k' -> holds dn ps k'.
Proof using Hoth.
  intros [Hlen Hk Hb] Hk'. split; [done| |].
  - eapply kept_trans; [exact Hk|]. eapply kept_sub; [|exact Hk']. intros c Hc. apply elem_of_app. right. by apply Hoth.
  - intros va a i Hin Hi. rewrite <- (Hb va a i Hin Hi). apply (kp_mem _ _ _ _ Hk'). exists a.
    split; [apply elem_of_app; left; by apply elem_of_zip_r in Hin|lia].
Qed.
Lemma holds_snoc dn ps k k3 a va : holds dn ps k -> kept (a :: ps ++ oth) k k3 ->
  (forall i, 0 <= i < PGSIZE -> rd8 (k_mem k) (a + i) = rd8 (k_mem k0) (PTE2PA (fold va) + i)) ->
  holds (dn ++ [va]) (ps ++ [a]) k3.
Proof using Hoth.
  intros H Hk3 Hba. assert (kept (ps ++ oth) k k3) as Hk' by (eapply kept_sub; [|exact Hk3]; intros c Hc; by right).
  pose proof (holds_same _ _ _ _ H Hk') as [Hlen Hk Hb]. split; [rewrite !length_app; cbn; lia|done|].
  intros va' a' i Hin Hi. rewrite zip_with_app in Hin by done. cbn [zip_with] in Hin. apply elem_of_app in Hin as [Hin|Hin].
  - by apply Hb.
  - apply list_elem_of_singleton in Hin as [= -> ->]. rewrite <- Hba by done. apply (kp_mem _ _ _ _ Hk3).
    exists a. split; [left|lia].
Qed.

(** The body of the loop of [uvmcopy]. *)
Definition copy_page (i : Z) : M kst (option Z) :=
  pte ← walk old i 0;
  if pte =? 0 then panic "uvmcopy: pte should exist"
  else
    e ← load pte;
    if negb (valid e) then panic "uvmcopy: page not present"
    else
      let pa := PTE2PA e in
      let flags := u32 (PTE_FLAGS e) in
      mem ← kalloc;
      if mem =? 0 then mret (Some i)
      else
        _ ← md k_mem_l (fun m => memmove m mem (Z.lor pa DMWIN_MASK) PGSIZE);
        r ← mappages new i PGSIZE mem flags;
        if negb (r =? 0) then _ ← kfree kernel_end mem; mret (Some i)
        else mret None.

(** One page: a copy of its own, or memory is out, at most [n] pages having
    been free, and nothing has changed. *)
Definition copy_done (n : nat) (dn ps : list Z) (va : Z) (r : option Z) (k' : kst) : Prop :=
  (r = None /\ exists p pages', copied (dn ++ [va]) (ps ++ [p]) pages' k' /\ (n <= length pages' + 4)%nat)
  \/ (r = Some va /\ (n <= 4)%nat /\ exists pages', copied dn ps pages' k').

(** From where [a] holds the copy and is not mapped yet. *)
Lemma copy_map_ok dn ps pages k a va :
  holds dn ps k -> kspace (a :: ps ++ oth) new (copies (zip dn ps) fnew) pages k ->
  (forall i, 0 <= i < PGSIZE -> rd8 (k_mem k) (a + i) = rd8 (k_mem k0) (PTE2PA (fold va) + i)) ->
  0 <= va -> va mod PGSIZE = 0 -> va + PGSIZE <= MAXVA ->
  (forall v, v / PGSIZE = va / PGSIZE -> valid (fnew v) = false) ->
  (forall v, v ∈ dn -> v / PGSIZE <> va / PGSIZE) ->
  wp (r ← mappages new va PGSIZE a (passed (fold va));
      if negb (r =? 0) then _ ← kfree kernel_end a; mret (Some va) else mret None)
    (copy_done (S (length pages)) dn ps va) k.
Proof using All.
  intros Hc Hs Hba Hva Hal Hmax Hf Hne. assert (page_ok kernel_end a) as Haok
    by (apply (ks_ok kernel_end Hend all Hall Hnd _ _ _ _ _ Hs); right; left; left).
  apply wp_bind. eapply wp_mono.
  { apply (ks_mappage_any kernel_end Hend all Hall Hnd _ new _ pages k va a (passed (fold va)) Hs); try done;
      try apply (page_range a Haok).
    intros v Hv'. unfold copies. rewrite with_perms_out; [by apply Hf|]. intros [x y] Hin. cbn. rewrite Hv'.
    apply elem_of_zip_l in Hin. intros E. by apply (Hne x Hin). }
  intros r k3 (Hk3 & pages3 & Hn & [[-> Hs3]|(-> & -> & Hs3)]); cbn [negb Z.eqb].
  - apply wp_mret. left. split; [done|]. exists a, pages3. split; [|lia]. split; [by apply (holds_snoc dn ps k)|].
    rewrite zip_with_app by (by rewrite (hd_len _ _ _ Hc)). cbn [zip_with]. unfold copies. rewrite with_perms_snoc.
    eapply ks_perm; [|exact Hs3]. rewrite <- app_assoc. apply Permutation_middle.
  - apply wp_bind. eapply wp_mono; [by apply (ks_kfree kernel_end Hend all Hall Hnd)|]. intros [] k4 [Hs4 Hk4].
    apply wp_mret. right. split; [done|]. split; [simpl in Hn; lia|]. exists [a]. split; [|exact Hs4]. apply (holds_same dn ps k); [done|].
    eapply kept_trans; [eapply kept_sub; [|exact Hk3]; intros c Hc'; by right|].
    eapply kept_sub; [|exact Hk4]. intros c Hc'. apply elem_of_app. by right.
Qed.

Lemma copy_page_ok dn ps pages k va :
  copied dn ps pages k -> 0 <= va -> va mod PGSIZE = 0 -> va + PGSIZE <= MAXVA ->
  valid (fold va) = true -> PTE2PA (fold va) ∈ rest ->
  (forall v, v / PGSIZE = va / PGSIZE -> valid (fnew v) = false) ->
  (forall v, v ∈ dn -> v / PGSIZE <> va / PGSIZE) -> wp (copy_page va) (copy_done (length pages) dn ps va) k.
Proof using All.
  intros Hc Hva Hal Hmax Hv Hpa Hf Hne. pose proof Hc as [Hh Hs]. pose proof (hd_kept _ _ _ Hh) as Hk. unfold copy_page.
  apply wp_bind. eapply wp_eq; [apply walk_look; unfold PGSIZE in *; lia|].
  pose proof (old_kept k Hk va) as Hx. unfold xlate at 1 in Hx.
  destruct (wlk 3 (k_mem k) old va) as [slot|] eqn:Ew; [|by rewrite <- Hx in Hv].
  pose proof (wlk_pos _ _ _ _ _ Ew). cbn [default from_option id]. rewrite (proj2 (Z.eqb_neq slot 0)) by lia.
  apply wp_bind, wp_gets. rewrite Hx, Hv. cbn [negb]. apply wp_bind. destruct pages as [|a pages1].
  { eapply wp_mono; [by apply (ks_kalloc_none kernel_end Hend all Hall Hnd)|]. intros r k1 (-> & Hk1 & Hs1).
    apply wp_mret. right. split; [done|]. split; [simpl; lia|]. exists []. split; [|done]. by apply (holds_same dn ps k). }
  eapply wp_mono; [by apply (ks_kalloc kernel_end Hend all Hall Hnd)|].
  intros r k1 (-> & Ha0 & Haok & Har & Hat & Hk1 & Hs1). rewrite (proj2 (Z.eqb_neq a 0)) by done.
  rewrite PTE2PA_dmwin. apply wp_bind, wp_md.
  destruct (ks_write kernel_end Hend all Hall Hnd _ _ _ _ _ a (memmove (k_mem k1) a (PTE2PA (fold va)) PGSIZE) Hs1)
    as [Hs2 Hk2]; [left| |].
  { intros c Hc'. rewrite rd8_memmove by done. by rewrite decide_False. }
  change (view k_mem_l k1) with (k_mem k1). set (k2 := update k_mem_l _ k1) in *.
  assert (kept (ps ++ oth) k k1) as Hk01 by (eapply kept_sub; [|exact Hk1]; intros c Hc'; apply elem_of_app; by right).
  assert (kept (ps ++ oth) k k2) as Hk02.
  { eapply kept_trans; [exact Hk01|]. apply Hk2; [|done]. intros c Hc'.
    apply (ks_ok kernel_end Hend all Hall Hnd _ _ _ _ _ Hs). tauto. }
  apply (copy_map_ok dn ps pages1); try done; [by apply (holds_same dn ps k)|].
  intros i Hi. change (k_mem k2) with (memmove (k_mem k1) a (PTE2PA (fold va)) PGSIZE).
  rewrite rd8_memmove by done. rewrite decide_True by lia.
  replace (PTE2PA (fold va) + (a + i - a)) with (PTE2PA (fold va) + i) by lia.
  assert (on rest (PTE2PA (fold va) + i)) as Hon by (exists (PTE2PA (fold va)); split; [done|lia]).
  rewrite (kp_mem _ _ _ _ Hk01); [by apply (kp_mem _ _ _ _ Hk)|]. eapply on_mono; [|exact Hon].
  intros c Hc'. apply elem_of_app. right. by apply Hoth.
Qed.

(** Pages one after the other, up to the first for which memory is out. *)
Definition fit (va : Z) : Prop :=
  0 <= va /\ va mod PGSIZE = 0 /\ va + PGSIZE <= MAXVA /\ valid (fold va) = true /\ PTE2PA (fold va) ∈ rest
  /\ forall v, v / PGSIZE = va / PGSIZE -> valid (fnew v) = false.
Lemma copy_vas_ok dn ps pages k vas : copied dn ps pages k -> Forall fit vas ->
  NoDup ((fun va => va / PGSIZE) <$> dn ++ vas) ->
  wp (for_until vas copy_page) (fun r k' => exists dn' ps' pages', copied (dn ++ dn') (ps ++ ps') pages' k'
     /\ match r with
        | None => dn' = vas /\ (length pages <= length pages' + 4 * length vas)%nat
        | Some va => exists todo, vas = dn' ++ va :: todo /\ (length pages <= 4 * length dn' + 4)%nat
        end) k.
Proof using All.
  intros Hc Hok Hnds. apply (wp_for_until_done _ (fun dn' k' => exists ps' pages', copied (dn ++ dn') (ps ++ ps') pages' k'
    /\ (length pages <= length pages' + 4 * length dn')%nat)).
  - exists [], pages. rewrite !app_nil_r. split; [exact Hc|lia].
  - intros dn' va todo k1 E (ps' & pages1 & Hc1 & Hn). rewrite Forall_forall in Hok.
    destruct (Hok va) as (H0 & Hal & Hmax & Hv & Hp & Hf); [rewrite E; apply elem_of_app; right; left|].
    eapply wp_mono; [apply (copy_page_ok (dn ++ dn') (ps ++ ps') pages1 k1 va Hc1); try done|].
    + apply (fresh_next (dn ++ dn') va todo (dn ++ vas)); [by rewrite E, app_assoc|done].
    + intros r k2 [[-> (p & pages2 & Hc2 & Hn2)]|(-> & Hn2 & pages2 & Hc2)].
      * exists (ps' ++ [p]), pages2. rewrite !app_assoc. split; [exact Hc2|]. rewrite length_app. simpl. lia.
      * exists dn', ps', pages2. split; [exact Hc2|]. exists todo. split; [done|lia].
  - intros k1 (ps' & pages1 & Hc1 & Hn). by exists vas, ps', pages1.
Qed.

(** ** What has been copied *)

(** The entry of a page that is copied. *)
Lemma copies_at dn ps i va a v : NoDup ((fun va => va / PGSIZE) <$> dn) -> length ps = length dn ->
  dn !! i = Some va -> ps !! i = Some a -> v / PGSIZE = va / PGSIZE ->
  (va, a) ∈ zip dn ps /\ copies (zip dn ps) fnew v = leaf a (passed (fold va)).
Proof using Type.
  intros Hn Hlen Hva Ha Hv. assert ((va, a) ∈ zip dn ps) as Hin.
  { apply list_elem_of_lookup. exists i. rewrite lookup_zip_with, Hva. cbn. by rewrite Ha. }
  split; [done|]. unfold copies. apply (with_perms_in (fun va => passed (fold va)) _ _ va a v); [|done|done].
  rewrite (zip_fst_fmap (fun x => x / PGSIZE)) by lia. exact Hn.
Qed.

Lemma copied_copy dn ps pages k va v : copied dn ps pages k -> NoDup ((fun va => va / PGSIZE) <$> dn) ->
  va ∈ dn -> fit va -> va <= v < va + PGSIZE ->
  copy_of fold (copies (zip dn ps) fnew) ps (k_mem k0) (k_mem k) v.
Proof using All.
  intros [Hh Hs] Hn Hva (H0 & Hal & Hmax & He & _ & _) Hv. pose proof (hd_len _ _ _ Hh) as Hlen.
  apply list_elem_of_lookup in Hva as [i Hi]. destruct (lookup_lt_is_Some_2 ps i) as [a Ha].
  { rewrite Hlen. by apply lookup_lt_Some in Hi. }
  assert (MAXVA < 2 ^ 48) as HM by done.
  assert (v / PGSIZE = va / PGSIZE /\ v / PGSIZE * PGSIZE = va) as [Hq Er] by (unfold PGSIZE in *; zlia).
  assert (a ∈ ps) as Haps by by eapply list_elem_of_lookup_2.
  assert (kpage a) as Hka.
  { apply (page_ok_kpage kernel_end Hend), (ks_ok kernel_end Hend all Hall Hnd _ _ _ _ _ Hs). right. left. apply elem_of_app. by left. }
  destruct (copies_at dn ps i va a va Hn Hlen Hi Ha eq_refl) as [Hin Hc].
  destruct (user_pa_passed a _ Hka He) as (H1 & H2 & H3).
  unfold copy_of, user_ok, uaddr. rewrite round_down_spec by lia. rewrite Er, Hc, H1, H2, H3.
  assert (a <> 0) as Ha0 by (destruct Hka as [? _]; assert (0 < DMWIN_MASK) by done; lia).
  assert (leaf a (passed (fold va)) = copy_entry (PTE2PA (leaf a (passed (fold va)))) (fold va)) as He2.
  { destruct (leaf_passed a (fold va) Hka) as (_ & -> & _). apply leaf_entry. }
  pose proof (PTE2PA_nz (fold va)). destruct (Z.land _ PTE_PLV3 =? 0); [by repeat split|].
  split; [lia|]. split; [done|]. split; [exact He2|]. intros _. pose proof (Z.mod_pos_bound v PGSIZE ltac:(done)) as Hm. split.
  - exists a. split; [done|lia].
  - apply (hd_bytes _ _ _ Hh); [exact Hin|lia].
Qed.

(** What was copied and is unmapped again. *)
Lemma copies_off dn ps v : (forall x, x ∈ dn -> v / PGSIZE <> x / PGSIZE) ->
  unmapped dn (copies (zip dn ps) fnew) v = fnew v.
Proof using Type.
  intros H. rewrite unmapped_out by done. apply with_perms_out. intros [x y] Hin%elem_of_zip_l. by apply H.
Qed.
Lemma copies_gone dn ps v : valid (fnew v) = false -> valid (unmapped dn (copies (zip dn ps) fnew) v) = false.
Proof using Type.
  intros H. destruct (decide (Exists (fun x => v / PGSIZE = x / PGSIZE) dn)) as [E|E].
  - apply Exists_exists in E as (x & Hx & E). by rewrite (unmapped_in dn _ x v Hx E).
  - rewrite copies_off; [done|]. intros x Hx E'. apply E, Exists_exists. by exists x.
Qed.

(** [vmunmap] on copies, when they are [n] pages from [a] on. *)
Lemma undo_ok dn ps pages k a n : copied dn ps pages k -> Forall fit dn -> NoDup ((fun va => va / PGSIZE) <$> dn) ->
  0 <= n -> a mod PGSIZE = 0 -> 0 <= a + n * PGSIZE <= MAXVA -> steps a (a + n * PGSIZE) = dn ->
  wp (vmunmap kernel_end new a n 1) (fun _ k' => exists pages',
    kspace oth new (unmapped dn (copies (zip dn ps) fnew)) pages' k' /\ kept rest k0 k') k.
Proof using All.
  intros [Hh Hs] Hok Hnds Hn Hal Hmax Edn. pose proof (hd_len _ _ _ Hh) as Hlen.
  unfold vmunmap. rewrite Hal. cbn [negb Z.eqb]. assert (MAXVA < 2 ^ 64) as HM by done.
  assert (u64 (a + n * PGSIZE) = a + n * PGSIZE) as -> by (apply u64_small; lia).
  rewrite Edn. change (wp (for_each dn (unmap_page kernel_end new)) (fun _ k' => exists pages',
    kspace oth new (unmapped dn (copies (zip dn ps) fnew)) pages' k' /\ kept rest k0 k') k).
  eapply wp_mono; [apply (ks_unmap_all kernel_end Hend all Hall Hnd oth new dn ps _ pages k Hs Hnds)|].
  - apply Forall2_same_length_lookup_2; [done|]. intros i x y Hx Hy. rewrite Forall_forall in Hok.
    destruct (Hok x) as (H0 & _ & Hx' & _); [by eapply list_elem_of_lookup_2|].
    destruct (copies_at dn ps i x y x Hnds Hlen Hx Hy eq_refl) as [_ ->].
    assert (kpage y) as Hky.
    { apply (page_ok_kpage kernel_end Hend), (ks_ok kernel_end Hend all Hall Hnd _ _ _ _ _ Hs). right. left.
      apply elem_of_app. left. by eapply list_elem_of_lookup_2. }
    destruct (leaf_passed y (fold x) Hky) as (Hv & Hp & _).
    split; [unfold PGSIZE in *; lia|]. split; [exact Hv|]. split; [|exact Hp]. apply leaf_passed_flags, Hky.
  - intros [] k' (pages' & Hs' & Hk'). exists pages'. split; [done|]. eapply kept_trans; [exact (hd_kept _ _ _ Hh)|].
    eapply kept_sub; [|exact Hk']. exact Hoth.
Qed.

End Loop.

(** ** All pages *)
Definition npages (sz : Z) : Z := (sz + PGSIZE - 1) / PGSIZE.
Lemma steps_from_0 n : steps 0 (n * PGSIZE) = page_vas (seqZ 0 n).
Proof using Type.
  unfold steps, page_vas. replace ((n * PGSIZE - 0 + PGSIZE - 1) / PGSIZE) with n by (unfold PGSIZE; zlia). done.
Qed.
Lemma steps_sz sz : steps 0 sz = page_vas (seqZ 0 (npages sz)).
Proof using Type. unfold steps, page_vas, npages. by rewrite Z.sub_0_r. Qed.

Lemma page_vas_split n dn va todo : page_vas (seqZ 0 n) = dn ++ va :: todo ->
  dn = page_vas (seqZ 0 (Z.of_nat (length dn))) /\ va = Z.of_nat (length dn) * PGSIZE /\ Z.of_nat (length dn) < n.
Proof using Type.
  intros E. pose proof (f_equal (@length Z) E) as El. unfold page_vas in *. rewrite length_fmap, length_seqZ, length_app in El.
  cbn [length] in El. assert (n = Z.of_nat (length dn) + (1 + (n - 1 - Z.of_nat (length dn)))) as En by lia.
  rewrite En, seqZ_app, fmap_app in E by lia. apply app_inj_1 in E as [E1 E2]; [|rewrite length_fmap, length_seqZ; lia].
  rewrite (seqZ_cons _ _) in E2 by lia. cbn [fmap list_fmap] in E2. injection E2 as E2 _.
  split; [done|]. split; [by rewrite <- E2|lia].
Qed.
Lemma page_vas_nodup n : NoDup ((fun va => va / PGSIZE) <$> page_vas (seqZ 0 n)).
Proof using Type.
  unfold page_vas. rewrite <- list_fmap_compose. apply (NoDup_fmap_2_strong _); [|apply NoDup_seqZ].
  intros x y _ _. cbn. unfold PGSIZE. intros. zlia.
Qed.
Lemma page_vas_below n x v : x ∈ page_vas (seqZ 0 n) -> n <= v / PGSIZE -> v / PGSIZE <> x / PGSIZE.
Proof using Type.
  intros (j & -> & Hj)%list_elem_of_fmap Hv. apply elem_of_seqZ in Hj. unfold PGSIZE in *. zlia.
Qed.

(** C15. [uvmcopy] gives the child a copy of the parent's memory: every byte below
    [sz] that the parent can use the child can use as well and no other, with the
    same right to write and the same value, on a page of its own that nobody else
    has.  The child's entries have the low nine bits of the parent's and none of
    the high ones: marks against reading and executing are lost.  Or memory
    runs out, which cannot be when more than four pages were free for each page to
    be copied, and then it returns -1 with nothing of the child mapped and all
    the pages it took free again. The parent's pages and tables, and all else
    that is in use, are as they were. *)
Theorem uvmcopy_copies rest old new fnew pages k sz :
  kspace rest new fnew pages k -> (forall c, c ∈ tables 3 (k_mem k) old -> c ∈ rest) -> 0 <= sz <= MAXVA ->
  (forall j, 0 <= j < npages sz -> let e := xlate 3 (k_mem k) old (j * PGSIZE) in valid e = true /\ PTE2PA e ∈ rest) ->
  (forall v, 0 <= v / PGSIZE < npages sz -> valid (fnew v) = false) ->
  wp (uvmcopy kernel_end old new sz) (fun r k' => kept rest k k' /\ exists f' ps pages',
     kspace (ps ++ rest) new f' pages' k' /\ (forall v, npages sz <= v / PGSIZE -> f' v = fnew v)
     /\ ((r = 0 /\ forall v, 0 <= v < sz -> copy_of (xlate 3 (k_mem k) old) f' ps (k_mem k) (k_mem k') v)
         \/ (r = -1 /\ ps = [] /\ Z.of_nat (length pages) <= 4 * npages sz
             /\ forall v, 0 <= v < sz -> valid (f' v) = false))) k.
Proof using All.
  intros Hs Hold Hsz Hpar Hfree. unfold uvmcopy. rewrite steps_sz. apply wp_bind.
  assert (npages sz * PGSIZE <= MAXVA) as Hmax
    by (assert (MAXVA mod PGSIZE = 0) by done; unfold npages, PGSIZE in *; zlia).
  assert (0 <= npages sz) as Hnp by (unfold npages, PGSIZE; zlia).
  assert (Forall (fit k rest old fnew) (page_vas (seqZ 0 (npages sz)))) as Hfit.
  { apply Forall_forall. intros x (j & -> & Hj%elem_of_seqZ)%list_elem_of_fmap. destruct (Hpar j ltac:(lia)) as [Hv Hp].
    repeat split; try done; try (unfold PGSIZE in *; zlia). intros v Hv'. apply Hfree. unfold PGSIZE in *. zlia. }
  set (vas := page_vas (seqZ 0 (npages sz))) in *. pose proof (page_vas_nodup (npages sz)) as Hnds. fold vas in Hnds.
  eapply wp_mono; [exact (copy_vas_ok k rest rest old new fnew Hold (fun _ H => H) [] [] pages k vas
    (copied_nil k rest rest old new fnew pages Hs) Hfit Hnds)|].
  intros [va|] k1 (dn & ps & pages1 & Hc & H); cbn [app] in Hc.
  - destruct H as (todo & E & Hn). pose proof E as E'. apply page_vas_split in E' as (Edn & Eva & Hlt).
    assert (va / PGSIZE = Z.of_nat (length dn)) as -> by (rewrite Eva; unfold PGSIZE; zlia).
    rewrite E in Hfit, Hnds. apply Forall_app in Hfit as [Hfit _]. rewrite fmap_app in Hnds. apply NoDup_app in Hnds as [Hnds _].
    apply wp_bind. eapply wp_mono; [apply (undo_ok k rest rest old new fnew Hold (fun _ H => H) dn ps pages1 k1 0
      (Z.of_nat (length dn)) Hc Hfit Hnds); [lia|done|unfold PGSIZE in *; lia|by rewrite Z.add_0_l, steps_from_0]|].
    intros [] k2 (pages2 & Hs2 & Hk2). apply wp_mret. split; [exact Hk2|]. eexists _, [], pages2. split; [exact Hs2|].
    split; [|right; split; [done|]; split; [done|]; split; [lia|]].
    + intros v Hv. apply copies_off. intros x Hx. apply (page_vas_below (npages sz)); [|lia]. fold vas. rewrite E.
      apply elem_of_app. by left.
    + intros v Hv. apply copies_gone. apply Hfree. unfold npages, PGSIZE; zlia.
  - destruct H as [-> Hn]. apply wp_mret. split; [exact (hd_kept _ _ _ _ _ _ (proj1 Hc))|].
    eexists _, ps, pages1. split; [exact (proj2 Hc)|]. split.
    + intros v Hv. unfold copies. apply with_perms_out. intros [x y] Hin%elem_of_zip_l. by apply (page_vas_below (npages sz)).
    + left. split; [done|]. intros v Hv. assert (v / PGSIZE * PGSIZE ∈ vas) as Hin.
      { apply list_elem_of_fmap. exists (v / PGSIZE). split; [done|]. apply elem_of_seqZ. unfold npages, PGSIZE. zlia. }
      rewrite Forall_forall in Hfit. apply (copied_copy k rest rest old new fnew Hold (fun _ H => H) vas ps pages1 k1
        (v / PGSIZE * PGSIZE)); try done; [by apply Hfit|unfold PGSIZE; zlia].
Qed.
End Copy.

(** * A small machine: a parent with one page, a child's empty table, and five
    free pages *)

Definition copy_end : Z := RAMSTOP - 11 * PGSIZE.
(** The parent's tables and its page. *)
Definition copy_rest : list Z := [pg 1; pg 2; pg 3; pg 4; pg 5].
Definition copy_free : list Z := [pg 7; pg 8; pg 9; pg 10; pg 11].
Definition copy_all : list Z := pg 6 :: copy_rest ++ copy_free.
Definition copy_tables : mem :=
  wr64 (wr64 (wr64 (wr64 ∅ (slot (pg 1) 0) (table_pte (pg 2))) (slot (pg 2) 0) (table_pte (pg 3)))
    (slot (pg 3) 0) (table_pte (pg 4))) (slot (pg 4) 0) (leaf (pg 5) user_rwx).
Definition copy_mem : mem :=
  wr64 (wr64 (wr64 (wr64 copy_tables (pg 7) (pg 8)) (pg 8) (pg 9)) (pg 9) (pg 10)) (pg 10) (pg 11).
Definition copy_kst : kst := Kst hart1 (Spin 0 "kmem" None) (pg 7) 5 copy_mem 0 [].

Lemma copy_kspace : kspace copy_end copy_all copy_rest (pg 6) (fun _ => 0) copy_free copy_kst.
Proof.
  assert (forall i, 0 <= i < 512 -> rd64 copy_mem (slot (pg 6) i) = 0) as Hz.
  { intros i Hi. unfold copy_mem, copy_tables.
    rewrite !rd64_wr64_ne by (unfold slot, pg, RAMSTOP, RAMBASE, PGSIZE; cbn; lia). apply rdn_empty. }
  destruct (fresh_table 3 copy_mem (pg 6) Hz) as [Ht Hx]. split.
  - split; [split; [apply hart1_ok|simpl; lia]|done| | | |done].
    + clear. by vm_compute.
    + clear. repeat constructor; by vm_compute.
    + apply (bool_decide_unpack _). clear. by vm_compute.
  - cbn [k_mem copy_kst]. by rewrite Ht.
  - intros va _. apply Hx.
Qed.

Example uvmcopy_copies_witness :
  wp (uvmcopy copy_end (pg 1) (pg 6) 100) (fun r k' => kept copy_all copy_rest copy_kst k' /\ exists f' ps pages',
     kspace copy_end copy_all (ps ++ copy_rest) (pg 6) f' pages' k' /\ (forall v, npages 100 <= v / PGSIZE -> f' v = 0)
     /\ ((r = 0 /\ forall v, 0 <= v < 100 ->
            copy_of (xlate 3 copy_mem (pg 1)) f' ps copy_mem (k_mem k') v)
         \/ (r = -1 /\ ps = [] /\ Z.of_nat (length copy_free) <= 4 * npages 100
             /\ forall v, 0 <= v < 100 -> valid (f' v) = false))) copy_kst.
Proof.
  refine (uvmcopy_copies copy_end _ copy_all _ _ copy_rest (pg 1) (pg 6) (fun _ => 0) copy_free copy_kst 100
    copy_kspace _ _ _ _).
  - by vm_compute.
  - repeat constructor; by vm_compute.
  - apply (bool_decide_unpack _). by vm_compute.
  - assert (tables 3 copy_mem (pg 1) = [pg 1; pg 2; pg 3; pg 4]) as E by (by vm_compute).
    intros c Hc. change (k_mem copy_kst) with copy_mem in Hc. rewrite E in Hc.
    rewrite !elem_of_cons, elem_of_nil in Hc. unfold copy_rest. rewrite !elem_of_cons. tauto.
  - by vm_compute.
  - intros j Hj. assert (j = 0) as -> by (change (npages 100) with 1 in Hj; lia). split; [by vm_compute|].
    apply (bool_decide_unpack _). by vm_compute.
  - intros v _. reflexivity.
Defined.
