(* ===== verification/AreaCopy.v ===== *)
(** The areas of a child: [vma_copy] makes a list of its own with the same areas,
    [vma_map] copies the pages of one. *)

From S2P Require Import Prelude Mem Locks Kalloc Vm PageTable VmProps Space BootMem ProcState Vma Proc ProcFacts BootProc UserInit UserCopy.

(** ** A walk that changes the state *)

Lemma vlist_next h head dn a todo v : vlist h head (dn ++ a :: todo) -> h !! a = Some v -> v_next v = hd_or head todo.
Proof.
  intros Hl Ha. pose proof (vl_links _ _ _ Hl) as Hlk. rewrite pairs_mid in Hlk.
  apply Forall_app in Hlk as [_ Hlk]. rewrite !Forall_cons in Hlk. destruct Hlk as (_ & [Hn _] & _).
  cbn in Hn. unfold nxt in Hn. rewrite Ha in Hn. by injection Hn.
Qed.
Lemma vlist_first h head l v : vlist h head l -> h !! head = Some v -> v_next v = hd_or head l.
Proof.
  intros Hl Ha. pose proof (vl_links _ _ _ Hl) as Hlk. rewrite (pairs_at head [] l) in Hlk. cbn in Hlk.
  apply Forall_cons in Hlk as [[Hn _] _]. cbn in Hn. unfold nxt in Hn. rewrite Ha in Hn. by injection Hn.
Qed.
Lemma vlist_prev h head l v : vlist h head l -> h !! head = Some v -> v_prev v = last_of head l.
Proof.
  intros Hl Ha. pose proof (vl_links _ _ _ Hl) as Hlk. rewrite <- (app_nil_r l), pairs_at in Hlk.
  apply Forall_app in Hlk as [_ Hlk]. apply Forall_cons in Hlk as [[_ Hp] _]. cbn in Hp. unfold prv in Hp.
  rewrite Ha in Hp. by injection Hp.
Qed.

Lemma wp_vwalk_list {B} (body : Z -> vma -> M pst (Z + B)) (Inv : list Z -> pst -> Prop) (Q : Z + B -> pst -> Prop) head l s :
  vlist (s_vmas s) head l -> Inv [] s ->
  (forall dn a todo s, l = dn ++ a :: todo -> Inv dn s -> exists v, s_vmas s !! a = Some v
     /\ wp (body a v) (fun r s => match r with
          | inl n => n = hd_or head todo /\ Inv (dn ++ [a]) s
          | inr b => Q (inr b) s
          end) s) ->
  (forall s, Inv l s -> Q (inl head) s) -> wp (vwalk head (hd_or head l) body) Q s.
Proof.
  intros Hl H0 Hstep HQ. unfold vwalk. apply wp_bind, wp_rd.
  assert (forall todo dn fuel s', (length todo < fuel)%nat -> l = dn ++ todo -> Inv dn s' ->
    wp (loop fuel (hd_or head todo) (fun a => if a =? head then mret (inr (inl a))
      else v ← vget a; r ← body a v; mret (match r with inl n => inl n | inr b => inr (inr b) end))) Q s') as Hgen.
  { induction todo as [|a todo IH]; intros dn fuel s' Hf E Hdn; (destruct fuel as [|fuel]; [simpl in Hf; lia|]); cbn [hd_or loop].
    - rewrite Z.eqb_refl. apply wp_bind, wp_mret. cbn. apply wp_mret, HQ. by rewrite E, app_nil_r.
    - assert (a <> head) as Hne.
      { intros ->. pose proof (vl_nodup _ _ _ Hl) as Hn. apply NoDup_cons in Hn as [Hn _]. apply Hn. rewrite E.
        apply elem_of_app. right. left. }
      rewrite (proj2 (Z.eqb_neq a head)) by done. destruct (Hstep dn a todo s' E Hdn) as (v & Hv & Hb).
      apply wp_bind, wp_bind. eapply wp_eq; [by apply vget_eq|]. apply wp_bind. eapply wp_mono; [exact Hb|].
      intros [n|b] s2 H2; cbn beta iota.
      + destruct H2 as [-> H2]. apply wp_mret. apply (IH (dn ++ [a])); [simpl in Hf; lia|by rewrite E, <- app_assoc|done].
      + apply wp_mret. by apply wp_mret. }
  pose proof (vlist_size _ _ _ Hl). apply (Hgen l []); [cbn; lia|done|done].
Qed.

(** ** The list of a child *)

Definition same_area (vm vm' : gmap Z vma) (x y : Z) : Prop :=
  exists v v', vm !! x = Some v /\ vm' !! y = Some v' /\ data v' = data v.

Lemma relinked_out h p a b v h' x w : relinked h p a b v h' -> x <> a -> x <> p -> x <> b ->
  h !! x = Some w -> h' !! x = Some w.
Proof.
  intros (Hn & Hp & Hd & _) Ha Hxp Hb Hx. destruct (Hd x w Ha Hx) as (w' & Hx' & _ & _ & _ & E).
  specialize (Hn x). specialize (Hp x). unfold nxt, prv in Hn, Hp. rewrite Hx, Hx' in Hn, Hp. rewrite Hx'.
  repeat case_decide; try done. destruct w, w'. unfold data in E. cbn in *. congruence.
Qed.

(** The areas [dn] of [vm] are copied, to the nodes [ns] after [nh]; all that is
    in use is as it was. *)
Record listed (vm : gmap Z vma) (oth : list Z) (nh : Z) (dn ns : list Z) (vm' : gmap Z vma) : Prop := {
  ls_list : vlist vm' nh ns;
  ls_same : Forall2 (same_area vm vm') dn ns;
  ls_kept : forall x v, x ∈ oth -> vm !! x = Some v -> vm' !! x = Some v
}.

Lemma listed_nil vm oth nh : (nh ∉ oth) -> listed vm oth nh [] [] (<[nh := update v_prev_l nh (update v_next_l nh vma0)]> vm).
Proof.
  intros Hn. split; [|done|].
  - split; [apply NoDup_singleton|]. repeat constructor; unfold nxt, prv; cbn [fst snd]; by rewrite lookup_insert_eq.
  - intros x v Hx Hv. rewrite lookup_insert_ne by (by intros ->). done.
Qed.
Lemma listed_snoc vm oth nh dn ns vm1 vm2 n a v : listed vm oth nh dn ns vm1 ->
  relinked vm1 (last_of nh ns) n nh v vm2 -> (n ∉ nh :: ns) -> (n ∉ oth) -> (forall x, x ∈ nh :: ns -> x ∉ oth) ->
  vm !! a = Some v -> listed vm oth nh (dn ++ [a]) (ns ++ [n]) vm2.
Proof.
  intros [Hl Hs Hk] Hr Hn Hno Hns Ha. pose proof Hr as (_ & _ & Hd & (v' & Hv' & _ & _ & _ & E')). split.
  - apply (relinked_vlist vm1 vm2 nh ns [] n v); rewrite ?app_nil_r; done.
  - apply Forall2_app.
    + apply Forall2_lookup. intros i. pose proof (proj1 (Forall2_lookup _ _ _) Hs i) as Hi.
      destruct (dn !! i) as [x|] eqn:Ex, (ns !! i) as [y|] eqn:Ey; inversion Hi as [x' y' Hxy|]; subst; constructor.
      destruct Hxy as (w & w1 & Hw & Hw1 & Ew). destruct (Hd y w1) as (w2 & Hw2 & _ & _ & _ & Ew2); [|done|].
      * intros ->. apply Hn. right. by eapply list_elem_of_lookup_2.
      * exists w, w2. split; [done|]. split; [done|]. congruence.
    + constructor; [|constructor]. by exists v, v'.
  - intros x w Hx Hw. eapply (relinked_out _ _ _ _ _ _ x w Hr).
    + by intros ->.
    + intros ->. apply (Hns (last_of nh ns)); [apply last_of_in|done].
    + intros ->. apply (Hns nh); [left|done].
    + by apply Hk.
Qed.

Lemma wp_unbind {S A B} (m : M S A) (f : A -> M S B) Q s : wp (m ≫= f) Q s -> wp m (fun a s' => wp (f a) Q s') s.
Proof. unfold wp, mbind, M_bind. by destruct (m s). Qed.

Ltac wp_same H := apply wp_unbind in H; apply wp_bind; eapply wp_mono; [exact H|]; clear H; cbn beta.

(** The end of a turn of [vma_copy] links the node in as [vlink] does. *)
Lemma wp_link {A} a b v (m : M pst A) (Q : A -> pst -> Prop) s : wp (vlink a b v) (fun _ s' => wp m Q s') s ->
  wp (fv ← vget b; _ ← vput a (update v_prev_l (v_prev fv) (update v_next_l b v));
      _ ← vupd (v_prev fv) v_next_l a; _ ← vupd b v_prev_l a; m) Q s.
Proof.
  intros H. wp_same H. intros fv s1 H. wp_same H. intros [] s2 H. wp_same H. intros [] s3 H.
  apply wp_bind. eapply wp_mono; [exact H|]. by intros [] s'.
Qed.

Section Areas.
Variable kernel_end : Z.
Context (Hend : DMWIN_MASK <= kernel_end <= RAMSTOP).
Context (all : list Z) (Hall : Forall (page_ok kernel_end) all) (Hnd : NoDup all).
Abbreviation kspace := (kspace kernel_end all).
Abbreviation kept := (kept all).

(** While [vma_copy] runs: the areas [dn] are copied behind the new head [nh]. *)
Definition copying (p : nat) (q : pst) (k0 : kst) (pr : proc) (vm : gmap Z vma) (oth : list Z) (pt : Z) (f : Z -> Z)
    (n : nat) (nh : Z) (dn : list Z) (s : pst) : Prop :=
  exists ns pages' k' vm', s = st p q k' pr vm' /\ listed vm oth nh dn ns vm'
    /\ kspace (ns ++ nh :: oth) pt f pages' k' /\ kept oth k0 k' /\ n = (length pages' + length dn)%nat.

Lemma vma_copy_turn p q k0 pr vm oth pt f n nh dn a todo head v s :
  copying p q k0 pr vm oth pt f n nh dn s -> (length dn < n)%nat -> (nh ∉ oth) -> a ∈ oth -> vm !! a = Some v ->
  vlist vm head (dn ++ a :: todo) ->
  s_vmas s !! a = Some v /\ wp (nvma ← kmem kalloc;
      if nvma =? 0 then mret (inr tt)
      else
        nv ← vget nh;
        _ ← vput nvma (update v_prev_l (v_prev nv) (update v_next_l nh v));
        _ ← vupd (v_prev nv) v_next_l nvma;
        _ ← vupd nh v_prev_l nvma;
        mret (inl (v_next v))) (fun r s => match r with
          | inl x => x = hd_or head todo /\ copying p q k0 pr vm oth pt f n nh (dn ++ [a]) s
          | inr _ => False
          end) s.
Proof using All.
  intros (ns & pages2 & k2 & vm2 & -> & Hls & Hs2 & Hk2 & Hc) Hlen Hnho Ha Hv Hl. cbn [s_vmas st].
  split; [exact (ls_kept _ _ _ _ _ _ Hls a v Ha Hv)|]. destruct pages2 as [|x pages3]; [simpl in Hc; lia|].
  pose proof (ks_nodup kernel_end Hend all Hall Hnd _ _ _ _ _ Hs2) as Hn. apply NoDup_app in Hn as (_ & _ & Hn).
  apply NoDup_app in Hn as (Hn & _ & _). apply NoDup_app in Hn as (_ & Hno & _).
  st_step. apply wp_st_k. eapply wp_mono; [by apply (ks_kalloc kernel_end Hend all Hall Hnd)|].
  intros r k3 (-> & Hx0 & _ & Hnin & _ & Hk3 & Hs3). rewrite (proj2 (Z.eqb_neq x 0)) by done.
  rewrite elem_of_app, elem_of_cons in Hnin. apply wp_link.
  destruct (vlist_in _ _ _ nh (ls_list _ _ _ _ _ _ Hls)) as [bw Hbw]; [left|].
  destruct (vlist_in _ _ _ (last_of nh ns) (ls_list _ _ _ _ _ _ Hls)) as [pw Hpw]; [apply last_of_in|].
  destruct (vlink_eq vm2 (last_of nh ns) x nh v (st p q k3 pr vm2) pw bw) as (vm3 & Elk & Hr); try done.
  { by apply (vlist_prev vm2 nh ns bw (ls_list _ _ _ _ _ _ Hls)). }
  { pose proof (last_of_in nh ns) as Hx. rewrite elem_of_cons in Hx. intros ->. tauto. }
  { intros ->. tauto. }
  eapply wp_eq; [exact Elk|]. apply wp_mret. split; [exact (vlist_next vm head dn a todo v Hl Hv)|].
  exists (ns ++ [x]), pages3, k3, vm3. split; [done|]. split; [|split; [|split]].
  - apply (listed_snoc vm oth nh dn ns vm2 vm3 x a v Hls Hr); [rewrite elem_of_cons; tauto|tauto| |done].
    intros y [->|Hy]%elem_of_cons; [done|]. intros Hyo. apply (Hno y Hy). by right.
  - eapply ks_perm; [|exact Hs3]. rewrite <- app_assoc. apply Permutation_middle.
  - eapply kept_trans; [exact Hk2|]. eapply kept_sub; [|exact Hk3]. intros y Hy. rewrite !elem_of_app, elem_of_cons. tauto.
  - rewrite length_app. simpl in *. lia.
Qed.

Lemma vma_copy_ok p q k pr vm oth pt f pages head ids :
  kspace oth pt f pages k -> vlist vm head ids -> (forall x, x ∈ head :: ids -> x ∈ oth) ->
  (length ids < length pages)%nat ->
  wp (vma_copy p head) (fun r s => exists ns pages' k' vm', r <> 0
     /\ s = st p q k' (update p_vma_l r pr) vm' /\ listed vm oth r ids ns vm'
     /\ kspace (ns ++ r :: oth) pt f pages' k' /\ kept oth k k'
     /\ (length pages = length pages' + S (length ids))%nat) (st p q k pr vm).
Proof using All.
  intros Hs Hl Hin Hlen. destruct pages as [|nh pages1]; [simpl in Hlen; lia|]. unfold vma_copy.
  st_step. apply wp_st_k. eapply wp_mono; [by apply (ks_kalloc kernel_end Hend all Hall Hnd)|].
  intros r k1 (-> & Hnh0 & _ & Hnho & _ & Hk1 & Hs1). rewrite (proj2 (Z.eqb_neq nh 0)) by done. st_run.
  destruct (vlist_in _ _ _ head Hl) as [hv Hhv]; [left|].
  eapply wp_st_vget; [rewrite lookup_insert_ne; [exact Hhv|by intros ->; apply Hnho, Hin; left]|].
  rewrite (vlist_first _ _ _ _ Hl Hhv). apply wp_bind.
  apply (wp_vwalk_list _ (copying p q k (update p_vma_l nh pr) vm oth pt f (length pages1) nh)).
  - cbn [s_vmas st]. apply vlist_ins; [|done]. intros Hx. apply Hnho, Hin, Hx.
  - exists [], pages1, k1. eexists. split; [done|]. split; [by apply listed_nil|]. split; [exact Hs1|]. split; [|simpl; lia].
    eapply kept_sub; [|exact Hk1]. intros x Hx. apply elem_of_app. by right.
  - intros dn a todo s E Hcp. assert (a ∈ head :: ids) as Ha by (right; rewrite E; apply elem_of_app; right; left).
    destruct (vlist_in _ _ _ a Hl Ha) as [v Hv]. pose proof (f_equal (@length Z) E) as El. rewrite length_app in El.
    rewrite E in Hl. destruct (vma_copy_turn _ _ _ _ _ _ _ _ _ _ _ _ _ _ _ _ Hcp ltac:(simpl in *; lia) Hnho (Hin a Ha) Hv Hl) as [Hv2 Hw].
    exists v. split; [exact Hv2|]. eapply wp_mono; [exact Hw|]. by intros [x|[]] s' H.
  - intros s (ns & pages2 & k2 & vm2 & -> & Hls & Hs2 & Hk2 & Hc). apply wp_mret.
    exists ns, pages2, k2, vm2. split; [done|]. split; [done|]. split; [done|]. split; [done|]. split; [done|]. simpl. lia.
Qed.

(** ** The pages of an area *)

Lemma mappages_u32 pt va sz pa perm : mappages pt va sz pa (u32 perm) = mappages pt va sz pa perm.
Proof using Type.
  unfold mappages. assert (s32 (u32 perm) = s32 perm) as -> by (unfold s32, u32; zlia). done.
Qed.

(** A turn of [vma_map] does what one of [uvmcopy] does. *)
Definition map_page (old new start : Z) : M kst (option Z) :=
  pte ← walk old start 0;
  if pte =? 0 then panic "uvmcopy: pte should exist"
  else
    e ← load pte;
    if negb (valid e) then panic "uvmcopy: page not present"
    else
      let pa := PTE2PA e in
      let flags := PTE_FLAGS e in
      mem ← kalloc;
      if mem =? 0 then mret (Some start)
      else
        _ ← md k_mem_l (fun m => memmove m mem pa PGSIZE);
        r ← mappages new start PGSIZE mem flags;
        if negb (r =? 0) then _ ← kfree kernel_end mem; mret (Some start)
        else mret None.
Lemma map_page_copy old new i Q s : wp (copy_page kernel_end old new i) Q s -> wp (map_page old new i) Q s.
Proof using Type.
  intros H. wp_same H. intros pte s1 H.
  destruct (pte =? 0); [exact H|].
  wp_same H. intros e s2 H.
  destruct (valid e); [|exact H]. cbn [negb] in *.
  wp_same H. intros a s3 H.
  destruct (a =? 0); [exact H|]. rewrite PTE2PA_dmwin in H.
  wp_same H. intros [] s4 H.
  by rewrite mappages_u32 in H.
Qed.
Lemma wp_for_until_imp {S I B} (b1 b2 : I -> M S (option B)) l : (forall i Q s, wp (b1 i) Q s -> wp (b2 i) Q s) ->
  forall Q s, wp (for_until l b1) Q s -> wp (for_until l b2) Q s.
Proof using Type.
  intros Hb. induction l as [|i l IH]; intros Q s H; cbn [for_until] in *; [done|].
  apply wp_unbind in H. apply wp_bind, Hb. eapply wp_mono; [exact H|]. intros [b|] s' H'; [done|]. by apply IH.
Qed.

Section Parent.
(** As for [uvmcopy]: the parent's table [old] in [k0], the child's [new]. *)
Context (k0 : kst) (rest oth : list Z) (old new : Z) (fnew : Z -> Z).
Context (Hold : forall c, c ∈ tables 3 (k_mem k0) old -> c ∈ rest) (Hoth : forall c, c ∈ rest -> c ∈ oth).
Abbreviation copied := (copied kernel_end all k0 rest oth old new fnew).
Abbreviation fit := (fit k0 rest old fnew).

Lemma copied_says dn ps pages l k : copied dn ps pages k -> copied dn ps pages (says l k).
Proof using Type.
  intros [[H1 H2 H3] Hs]. split; [|by apply ks_says]. split; [exact H1| |exact H3].
  eapply kept_trans; [exact H2|apply kept_says].
Qed.

Definition area_vas (v : vma) : list Z := steps (v_addr v) (v_end v).

Lemma vma_map_ok p q k pr vm dn ps pages a v : copied dn ps pages k -> vm !! a = Some v ->
  0 <= v_addr v < MAXVA -> Forall fit (area_vas v) -> NoDup ((fun va => va / PGSIZE) <$> dn ++ area_vas v) ->
  (4 * length (area_vas v) < length pages)%nat ->
  wp (vma_map kernel_end old new a) (fun r s => r = 0 /\ exists ps' pages' k', s = st p q k' pr vm
     /\ copied (dn ++ area_vas v) (ps ++ ps') pages' k' /\ (length pages <= length pages' + 4 * length (area_vas v))%nat)
    (st p q k pr vm).
Proof using All.
  intros Hc Ha Hva Hfit Hn Hlen. unfold vma_map. st_step. eapply wp_st_vget; [exact Ha|]. st_step. apply wp_st_k.
  apply (wp_for_until_imp (copy_page kernel_end old new) (map_page old new)); [intros; by apply map_page_copy|].
  eapply wp_mono; [exact (copy_vas_ok kernel_end Hend all Hall Hnd k0 rest oth old new fnew Hold Hoth dn ps pages k
    (area_vas v) Hc Hfit Hn)|].
  intros [va|] k1 (dn' & ps' & pages' & Hc' & H).
  - destruct H as (todo & E & Hl). pose proof (f_equal (@length Z) E) as El. rewrite length_app in El. simpl in El. lia.
  - destruct H as [-> Hl]. st_step. apply wp_st_k. eapply wp_eq; [by apply walkaddr_eq|]. apply wp_mret. split; [done|].
    eexists ps', pages', _. split; [done|]. split; [by apply copied_says|exact Hl].
Qed.

(** All areas of a list. *)
Definition area_at (vm : gmap Z vma) (a : Z) : list Z := match vm !! a with Some v => area_vas v | None => [] end.
Definition areas_at (vm : gmap Z vma) (ids : list Z) : list Z := flat_map (area_at vm) ids.

Lemma areas_same vm vm' ids ns : Forall2 (same_area vm vm') ids ns -> areas_at vm' ns = areas_at vm ids.
Proof using Type.
  induction 1 as [|x y ids ns (v & v' & Hv & Hv' & E) _ IH]; [done|]. unfold areas_at in *. cbn [flat_map]. rewrite IH.
  f_equal. unfold area_at, area_vas. rewrite Hv, Hv'. unfold data in E. by injection E as _ _ -> _ -> _.
Qed.

Lemma map_areas_ok p q k pr vm dn ps pages head ids : copied dn ps pages k -> vlist vm head ids ->
  (forall a v, a ∈ ids -> vm !! a = Some v -> 0 <= v_addr v < MAXVA) ->
  Forall fit (areas_at vm ids) -> NoDup ((fun va => va / PGSIZE) <$> dn ++ areas_at vm ids) ->
  (4 * length (areas_at vm ids) < length pages)%nat ->
  wp (vwalk head (hd_or head ids) (fun a _ =>
        r ← vma_map kernel_end old new a;
        if r <? 0 then mret (inr tt) else v ← vget a; mret (inl (v_next v))))
    (fun r s => r = inl head /\ exists ps' pages' k', s = st p q k' pr vm
     /\ copied (dn ++ areas_at vm ids) (ps ++ ps') pages' k' /\ (length pages <= length pages' + 4 * length (areas_at vm ids))%nat)
    (st p q k pr vm).
Proof using All.
  intros Hc Hl Hva Hfit Hn Hlen.
  apply (wp_vwalk_list _ (fun di s => exists ps' pages' k', s = st p q k' pr vm
    /\ copied (dn ++ areas_at vm di) (ps ++ ps') pages' k' /\ (length pages <= length pages' + 4 * length (areas_at vm di))%nat)).
  - exact Hl.
  - exists [], pages, k. rewrite !app_nil_r. split; [done|]. split; [exact Hc|]. lia.
  - intros di a todo s E (ps' & pages1 & k1 & -> & Hc1 & Hcost).
    assert (a ∈ ids) as Ha by (rewrite E; apply elem_of_app; right; left).
    destruct (vlist_in _ _ _ a Hl) as [v Hv]; [by right|]. exists v. split; [exact Hv|].
    assert (areas_at vm ids = areas_at vm di ++ area_vas v ++ areas_at vm todo) as Ea.
    { rewrite E. unfold areas_at. rewrite flat_map_app. cbn [flat_map]. unfold area_at at 2. by rewrite Hv. }
    assert (areas_at vm (di ++ [a]) = areas_at vm di ++ area_vas v) as Ed.
    { unfold areas_at. rewrite flat_map_app. cbn [flat_map]. unfold area_at at 2. by rewrite Hv, app_nil_r. }
    rewrite Ea in Hfit, Hn, Hlen. rewrite !length_app in Hlen. apply Forall_app in Hfit as [_ Hfit].
    apply Forall_app in Hfit as [Hfit _]. rewrite !app_assoc, fmap_app in Hn. apply NoDup_app in Hn as [Hn _].
    st_step. eapply wp_mono; [apply (vma_map_ok p q k1 pr vm _ _ pages1 a v Hc1 Hv); [by apply (Hva a)|done|done|lia]|].
    intros r s (-> & ps2 & pages2 & k2 & -> & Hc2 & Hcost2). cbn [Z.ltb Z.compare]. st_step.
    eapply wp_st_vget; [exact Hv|]. apply wp_mret. split; [apply (vlist_next vm head di a todo v); [by rewrite <- E|done]|].
    exists (ps' ++ ps2), pages2, k2. split; [done|]. rewrite Ed, !app_assoc, length_app. split; [exact Hc2|lia].
  - intros s (ps' & pages1 & k1 & -> & Hc1 & Hcost). split; [done|]. by exists ps', pages1, k1.
Qed.
End Parent.
End Areas.
