(* ===== verification/VmaFacts.v ===== *)
(** A new area of user memory: the pages [uvmalloc1] gives it, whatever memory
    there is, and its place in the list of areas. *)

From Stdlib Require Import Sorting.Sorted.
From S2P Require Import Prelude Mem Locks Kalloc Vm PageTable VmProps Space BootMem ProcState Vma Proc ProcFacts BootProc UserInit UserCopy AreaCopy.

(** ** The pages of a range *)

Lemma length_steps s e : length (steps s e) = Z.to_nat ((e - s + PGSIZE - 1) / PGSIZE).
Proof. unfold steps. by rewrite length_fmap, length_seqZ. Qed.
Lemma elem_steps s e va : s mod PGSIZE = 0 -> va ∈ steps s e -> s <= va < e /\ va mod PGSIZE = 0.
Proof.
  unfold steps. intros Hs (j & -> & Hj%elem_of_seqZ)%list_elem_of_fmap. unfold PGSIZE in *. split; zlia.
Qed.
Lemma steps_nodup s e : s mod PGSIZE = 0 -> NoDup ((fun va => va / PGSIZE) <$> steps s e).
Proof.
  intros Hs. unfold steps. rewrite <- list_fmap_compose. apply (NoDup_fmap_2_strong _); [|apply NoDup_seqZ].
  intros x y _ _. cbn. unfold PGSIZE in *. intros. zlia.
Qed.
(** What is before an address of the range is the range up to it. *)
Lemma steps_split s e dn va todo : steps s e = dn ++ va :: todo ->
  va = s + Z.of_nat (length dn) * PGSIZE /\ dn = steps s va.
Proof.
  intros E. pose proof (f_equal (@length Z) E) as El. rewrite length_steps, length_app in El. cbn [length] in El.
  set (n := (e - s + PGSIZE - 1) / PGSIZE) in *. assert (n = Z.of_nat (length dn) + (1 + (n - 1 - Z.of_nat (length dn)))) as En by lia.
  unfold steps in E. fold n in E. rewrite En, seqZ_app, map_app in E by lia.
  apply app_inj_1 in E as [E1 E2]; [|rewrite length_map, length_seqZ; lia].
  rewrite (seqZ_cons _ _) in E2 by lia. cbn [map] in E2. injection E2 as E2 _.
  assert (va = s + Z.of_nat (length dn) * PGSIZE) as -> by (rewrite <- E2; f_equal; lia). split; [done|].
  unfold steps. assert ((s + Z.of_nat (length dn) * PGSIZE - s + PGSIZE - 1) / PGSIZE = Z.of_nat (length dn)) as ->
    by (unfold PGSIZE; zlia). by rewrite E1.
Qed.

(** The entries [mappages] makes are leaves for [vmunmap]. *)
Lemma leaf_is_leaf pa perm : PTE_FLAGS (leaf pa perm) <> PTE_V.
Proof.
  intros E. assert (Z.land (PTE_FLAGS (leaf pa perm)) PTE_MAT = PTE_MAT) as H.
  { unfold PTE_FLAGS, leaf. rewrite <- Z.land_assoc. change (Z.land 0xE0000000000001FF PTE_MAT) with PTE_MAT.
    rewrite !Z.land_lor_distr_l. change (Z.land PTE_MAT PTE_MAT) with PTE_MAT. change (Z.land PTE_V PTE_MAT) with 0.
    change (Z.land PTE_D PTE_MAT) with 0. rewrite !Z.lor_0_r. apply Z.bits_inj'. intros i Hi. rewrite !Z.lor_spec, !Z.land_spec.
    by destruct (Z.testbit PTE_MAT i); rewrite ?andb_false_r, ?orb_true_r. }
  rewrite E in H. done.
Qed.
Lemma leaf_pa pa perm : kpage pa -> Z.land (u64 (s32 perm)) PAMASK = 0 ->
  valid (leaf pa perm) = true /\ PTE2PA (leaf pa perm) = pa.
Proof.
  intros Hpa Hp. assert (leaf pa perm = Z.lor (PA2PTE pa) (Z.lor (Z.lor (Z.lor (u64 (s32 perm)) PTE_V) PTE_MAT) PTE_D))
    as E by (unfold leaf; by rewrite !Z.lor_assoc).
  split.
  - rewrite E. apply valid_lor. rewrite <- !Z.lor_assoc. by apply valid_lor.
  - rewrite E. apply PTE2PA_flags; [done|]. by rewrite !Z.land_lor_distr_l, Hp.
Qed.

Section Alloc.
Variable kernel_end : Z.
Context (Hend : DMWIN_MASK <= kernel_end <= RAMSTOP).
Context (all : list Z) (Hall : Forall (page_ok kernel_end) all) (Hnd : NoDup all).
Abbreviation kspace := (kspace kernel_end all).
Abbreviation kept := (kept all).
Abbreviation mapped_in := (mapped_in kernel_end all).

Lemma pages_few l : Forall (page_ok kernel_end) l -> NoDup l -> Z.of_nat (length l) < 2 ^ 31.
Proof using Hend.
  clear Hall Hnd all. intros Hpg Hn. assert (length l <= length (seqZ 0 (2 ^ 31 - 1)))%nat as Hle.
  { rewrite <- (length_fmap (fun p => (p - DMWIN_MASK) / PGSIZE) l). apply submseteq_length, NoDup_submseteq.
    - apply (NoDup_fmap_2_strong _); [|done]. rewrite Forall_forall in Hpg. intros x y Hx Hy.
      destruct (Hpg x Hx) as [Hx1 _], (Hpg y Hy) as [Hy1 _]. assert (DMWIN_MASK mod PGSIZE = 0) by done.
      unfold PGSIZE in *. intros. zlia.
    - intros i (x & -> & Hx)%list_elem_of_fmap. rewrite Forall_forall in Hpg. destruct (Hpg x Hx) as [_ Hr].
      apply elem_of_seqZ. assert (RAMSTOP < DMWIN_MASK + (2 ^ 31 - 1) * PGSIZE) by done. unfold PGSIZE in *. zlia. }
  rewrite length_seqZ in Hle. lia.
Qed.

Section Pages.
Context (k0 : kst) (rest : list Z) (pt : Z) (f : Z -> Z) (perm start end_ : Z).
Context (Hperm : Z.land (u64 (s32 perm)) PAMASK = 0).
Context (Hal : start mod PGSIZE = 0) (Hend_ : end_ mod PGSIZE = 0) (H0 : 0 <= start) (Hmax : end_ <= MAXVA).
Context (Hfree : forall v, start <= v < end_ -> valid (f v) = false).

(** The table [f'] maps what [f] does and nothing else. *)
Definition same_map (f' : Z -> Z) : Prop :=
  forall v, f' v = f v \/ (valid (f v) = false /\ f' v = 0).
(** Nothing of the range is mapped, and the rest is as before. *)
Definition undone (k' : kst) : Prop := exists f' pages',
  kspace rest pt f' pages' k' /\ kept rest k0 k' /\ same_map f'.

Lemma range_free va v : va ∈ steps start end_ -> v / PGSIZE = va / PGSIZE -> valid (f v) = false.
Proof using Hal Hend_ Hfree.
  clear Hperm perm. intros [Hv Ha]%elem_steps E; [|done]. apply Hfree. unfold PGSIZE in *. zlia.
Qed.

Lemma undo_range n0 dn ps pages k va : mapped_in k0 n0 rest pt f perm dn ps pages k -> dn = steps start va ->
  va = start + Z.of_nat (length dn) * PGSIZE -> va <= end_ ->
  wp (uvmdealloc1 kernel_end pt start va) (fun _ k' => undone k') k.
Proof using All.
  intros [Hlen Hs Hk _ _] Edn Eva Hle. unfold uvmdealloc1. assert (MAXVA < 2 ^ 48) as HM by done.
  pose proof (steps_nodup start va Hal) as Hn. rewrite <- Edn in Hn.
  destruct (Z.leb_spec va start) as [Hv|Hv].
  { assert (dn = []) as -> by (destruct dn; [done|cbn [length] in Eva; unfold PGSIZE in *; lia]).
    destruct ps; [|done]. apply wp_mret. exists f, pages. split; [exact Hs|]. split; [done|]. intros v. by left. }
  rewrite !round_up_spec by (unfold PGSIZE; lia).
  assert ((start + PGSIZE - 1) / PGSIZE * PGSIZE = start) as -> by (unfold PGSIZE in *; zlia).
  assert ((va + PGSIZE - 1) / PGSIZE * PGSIZE = va) as -> by (unfold PGSIZE in *; zlia).
  rewrite (proj2 (Z.leb_le start va)) by lia. cbn [when].
  assert ((va - start) / PGSIZE = Z.of_nat (length dn)) as -> by (unfold PGSIZE in *; zlia).
  assert (Z.of_nat (length dn) < 2 ^ 31) as Hfew.
  { rewrite <- Hlen. pose proof (ks_nodup kernel_end Hend all Hall Hnd _ _ _ _ _ Hs) as Hn'.
    apply NoDup_app in Hn' as (_ & _ & Hn'). rewrite <- app_assoc in Hn'. apply NoDup_app in Hn' as (Hn' & _ & _).
    apply pages_few; [|done]. apply Forall_forall. intros x Hx. apply (ks_ok kernel_end Hend all Hall Hnd _ _ _ _ _ Hs).
    right. left. apply elem_of_app. by left. }
  rewrite s32_small, u64_small by lia. apply wp_bind. unfold vmunmap. rewrite Hal. cbn [negb Z.eqb].
  rewrite <- Eva, u64_small by lia. rewrite <- Edn.
  change (wp (for_each dn (unmap_page kernel_end pt)) (fun _ k' => wp (mret 0) (fun _ k' => undone k') k') k).
  eapply wp_mono; [apply (ks_unmap_all kernel_end Hend all Hall Hnd rest pt dn ps _ pages k Hs Hn)|].
  - apply Forall2_same_length_lookup_2; [done|]. intros i x y Hx Hy.
    assert (x ∈ dn) as Hxd by by eapply list_elem_of_lookup_2. rewrite Edn in Hxd. apply elem_steps in Hxd as [Hxr _]; [|done].
    assert ((x, y) ∈ zip dn ps) as Hin.
    { apply list_elem_of_lookup. exists i. rewrite lookup_zip_with, Hx. cbn. by rewrite Hy. }
    rewrite (with_pages_in perm _ f x y x); [|by rewrite (zip_fst_fmap (fun v => v / PGSIZE)) by lia|done|done].
    assert (kpage y) as Hky.
    { apply (page_ok_kpage kernel_end Hend), (ks_ok kernel_end Hend all Hall Hnd _ _ _ _ _ Hs). right. left.
      apply elem_of_app. left. by eapply list_elem_of_lookup_2. }
    destruct (leaf_pa y perm Hky Hperm) as [Hlv Hlp].
    split; [lia|]. split; [exact Hlv|]. split; [apply leaf_is_leaf|exact Hlp].
  - intros [] k' (pages' & Hs' & Hk'). apply wp_mret. eexists _, pages'. split; [exact Hs'|].
    split; [eapply kept_trans; [exact Hk|exact Hk']|]. intros v.
    destruct (decide (Exists (fun x => v / PGSIZE = x / PGSIZE) dn)) as [E|E].
    + apply Exists_exists in E as (x & Hx & E). right. rewrite (unmapped_in dn _ x v Hx E). split; [|done].
      apply (range_free x v); [|done]. rewrite Edn in Hx. apply elem_steps in Hx as [Hxr Hxa]; [|done].
      apply list_elem_of_fmap. exists ((x - start) / PGSIZE). split; [unfold PGSIZE in *; zlia|].
      apply elem_of_seqZ. unfold PGSIZE in *. zlia.
    + left. assert (forall x, x ∈ dn -> v / PGSIZE <> x / PGSIZE) as Hne.
      { intros x Hx E'. apply E, Exists_exists. by exists x. }
      rewrite unmapped_out by done. apply with_pages_out. intros [x y] Hin%elem_of_zip_l. by apply Hne.
Qed.

(** The body of the loop: one more page, or all is undone. *)
Definition alloc_page (a : Z) : M kst (option Z) :=
  mem ← kalloc;
  if mem =? 0 then
    _ ← uvmdealloc1 kernel_end pt start a;
    _ ← kprintf "uvmalloc kalloc failed" []; mret (Some (u64 (-1)))
  else
    _ ← md k_mem_l (fun m => memset m mem 0 PGSIZE);
    r ← mappages pt a PGSIZE mem perm;
    if negb (r =? 0) then
      _ ← kfree kernel_end mem; _ ← uvmdealloc1 kernel_end pt start a;
      _ ← kprintf "[uvmalloc]map user page failed" []; mret (Some (u64 (-1)))
    else mret None.
Lemma undone_says l k : undone k -> undone (says l k).
Proof using Type.
  intros (f' & pages' & Hs & Hk & Hf). exists f', pages'. split; [by apply ks_says|]. split; [|done].
  eapply kept_trans; [exact Hk|apply kept_says].
Qed.
Lemma undo_say n0 dn ps pages k va fmt n : mapped_in k0 0 rest pt f perm dn ps pages k -> dn = steps start va ->
  va = start + Z.of_nat (length dn) * PGSIZE -> va <= end_ -> (n0 <= n)%nat ->
  wp (_ ← uvmdealloc1 kernel_end pt start va; _ ← kprintf fmt []; mret (Some (u64 (-1))))
    (fun r k' => r = Some (u64 (-1)) /\ undone k' /\ (n0 <= n)%nat) k.
Proof using All.
  intros Hm Edn Eva Hle Hn. apply wp_bind. eapply wp_mono; [by apply (undo_range 0 dn ps pages)|].
  intros r k' Hu. apply wp_bind, wp_md, wp_mret. split; [done|]. split; [|done]. exact (undone_says [(fmt, [])] k' Hu).
Qed.

Lemma alloc_page_ok n0 dn ps pages k va todo : mapped_in k0 n0 rest pt f perm dn ps pages k ->
  steps start end_ = dn ++ va :: todo ->
  wp (alloc_page va) (fun r k' => match r with
     | None => exists p pages', mapped_in k0 n0 rest pt f perm (dn ++ [va]) (ps ++ [p]) pages' k'
     | Some r => r = u64 (-1) /\ undone k' /\ (n0 <= 4 * length (steps start end_))%nat
     end) k.
Proof using All.
  intros Hm E. pose proof Hm as [Hlen Hs Hk Hc Hz]. destruct (steps_split _ _ _ _ _ E) as [Eva Edn].
  assert (va ∈ steps start end_) as Hin by (rewrite E; apply elem_of_app; right; left).
  pose proof Hin as Hin'. apply elem_steps in Hin' as [Hva Hvaal]; [|done].
  pose proof (f_equal (@length Z) E) as El. rewrite length_app in El. cbn [length] in El.
  assert (forall v, v ∈ dn -> v / PGSIZE <> va / PGSIZE) as Hne.
  { pose proof (steps_nodup start end_ Hal) as Hn. rewrite E, fmap_app in Hn. apply NoDup_app in Hn as (_ & Hd & _).
    intros v Hv E'. apply (Hd (v / PGSIZE)); [by apply (list_elem_of_fmap_2 (fun x => x / PGSIZE))|]. rewrite E'. left. }
  unfold alloc_page. destruct pages as [|p pages].
  { apply wp_bind. eapply wp_mono; [by apply (ks_kalloc_none kernel_end Hend all Hall Hnd)|].
    intros r k1 (-> & Hk1 & Hs1). cbn [Z.eqb]. eapply wp_mono.
    - apply (undo_say n0 dn ps [] k1 va _ (4 * length (steps start end_))); [|done|done|lia|simpl in Hc; lia].
      split; [done|exact Hs1| |lia|].
      + eapply kept_trans; [exact Hk|]. eapply kept_sub; [|exact Hk1]. intros c Hc'. apply elem_of_app. by right.
      + intros b Hb. rewrite (kp_mem _ _ _ _ Hk1); [by apply Hz|]. eapply on_mono; [|exact Hb]. intros c Hc'. apply elem_of_app. by left.
    - intros r k2 (-> & ?). done. }
  apply (ks_zeroed kernel_end Hend all Hall Hnd (ps ++ rest) pt _ p pages k _ (fun mem => r ← mappages pt va PGSIZE mem perm; _) _ Hs).
  intros k1 Hok Hpr Hpt Hk1 Hs1 Hz1. assert (RAMSTOP < 2 ^ 63 + 2 ^ 62) as HR by done. pose proof (page_end kernel_end Hend) as He.
  assert (kept (ps ++ rest) k k1) as Hk1' by (eapply kept_sub; [|exact Hk1]; intros c Hc'; apply elem_of_app; by right).
  apply wp_bind. eapply wp_mono.
  { apply (ks_mappage_any kernel_end Hend all Hall Hnd (p :: ps ++ rest) pt _ pages k1 va p perm Hs1); try done.
    - lia.
    - assert (MAXVA mod PGSIZE = 0) by done. unfold PGSIZE in *. zlia.
    - destruct Hok as [_ ?]. lia.
    - destruct Hok as [Hal' ?]. assert (RAMSTOP mod PGSIZE = 0) by done. unfold PGSIZE in *. zlia.
    - intros v Hv. rewrite with_pages_out; [by apply (range_free va)|]. intros [a b] Hab. cbn. rewrite Hv.
      apply elem_of_zip_l in Hab. intros E'. by apply (Hne a Hab). }
  intros r k2 (Hk2 & pages' & Hn2 & Hr).
  assert (kept (ps ++ rest) k k2) as Hk02.
  { eapply kept_trans; [exact Hk1'|]. eapply kept_sub; [|exact Hk2]. intros c Hc'. by right. }
  assert (kept rest k0 k2) as Hkr.
  { eapply kept_trans; [exact Hk|]. eapply kept_sub; [|exact Hk02]. intros c Hc'. apply elem_of_app. by right. }
  assert (forall b, on ps b -> rd8 (k_mem k2) b = 0) as Hz2.
  { intros b Hb. rewrite (kp_mem _ _ _ _ Hk02); [by apply Hz|]. eapply on_mono; [|exact Hb]. intros c Hc'. apply elem_of_app. by left. }
  cbn [length] in Hc. destruct Hr as [[-> Hs2]|(-> & -> & Hs2)]; cbn [negb Z.eqb].
  - apply wp_mret. exists p, pages'. split.
    + rewrite !length_app. simpl. lia.
    + rewrite zip_with_app by done. cbn [zip_with]. rewrite with_pages_snoc.
      eapply ks_perm; [|exact Hs2]. rewrite <- app_assoc. cbn [app]. apply Permutation_middle.
    + exact Hkr.
    + rewrite length_app. cbn [length]. lia.
    + intros b Hb. destruct Hb as (q & [Hq|Hq%list_elem_of_singleton]%elem_of_app & Hb); [apply Hz2; by exists q|].
      subst q. rewrite (kp_mem _ _ _ _ Hk2); [by apply Hz1|]. exists p. split; [left|done].
  - apply wp_bind. eapply wp_mono; [by apply (ks_kfree kernel_end Hend all Hall Hnd)|]. intros [] k3 [Hs3 Hk3].
    eapply wp_mono.
    + apply (undo_say n0 dn ps [p] k3 va _ (4 * length (steps start end_))); [|done|done|lia|simpl in Hn2; lia].
      assert (kept (ps ++ rest) k2 k3) as Hk3' by (eapply kept_sub; [|exact Hk3]; intros c Hc'; apply elem_of_app; by right).
      split; [done|exact Hs3| |lia|].
      * eapply kept_trans; [exact Hkr|]. eapply kept_sub; [|exact Hk3']. intros c Hc'. apply elem_of_app. by right.
      * intros b Hb. rewrite (kp_mem _ _ _ _ Hk3'); [by apply Hz2|]. eapply on_mono; [|exact Hb]. intros c Hc'. apply elem_of_app. by left.
    + intros r k4 (-> & ?). done.
Qed.

Lemma uvmalloc1_any pages : kspace rest pt f pages k0 -> start < end_ ->
  wp (uvmalloc1 kernel_end pt start end_ perm) (fun r k' =>
    (r = 0 /\ exists ps pages', mapped_in k0 (length pages) rest pt f perm (steps start end_) ps pages' k')
    \/ (r = u64 (-1) /\ undone k' /\ (length pages <= 4 * length (steps start end_))%nat)) k0.
Proof using All.
  intros Hs Hlt. unfold uvmalloc1. destruct (Z.leb_spec end_ start); [lia|]. apply wp_bind.
  apply (wp_for_until_done _ (fun dn k' => exists ps pages', mapped_in k0 (length pages) rest pt f perm dn ps pages' k')).
  - exists [], pages. by apply mapped_in_nil.
  - intros dn va todo k1 E (ps & pages1 & Hm). eapply wp_mono; [exact (alloc_page_ok _ dn ps pages1 k1 va todo Hm E)|].
    intros [r|] k2.
    + intros (-> & Hu & Hn). apply wp_mret. right. by split.
    + intros (p & pages' & Hm'). by exists (ps ++ [p]), pages'.
  - intros k1 Hm. apply wp_mret. left. by split.
Qed.
End Pages.

(** ** The new area *)

(** What [alloc_vma] leaves: its node [a] is where the order wants it and holds
    what it was asked for, the other areas are as they were, and each page of
    the area is mapped, with the permissions asked for, onto a cleared page that
    nothing else has. *)
Record area_made (s : pst) (head : Z) (rest : list Z) (pt : Z) (f : Z -> Z) (l1 l2 : list Z) (a : Z) (v : vma)
    (vas : list Z) (s' : pst) : Prop := {
  am_state : exists h' k', s' = update s_k_l k' (update s_vmas_l h' s);
  am_list : vlist (s_vmas s') head (l1 ++ a :: l2);
  am_sorted : sorted_areas (s_vmas s') (l1 ++ a :: l2);
  am_node : exists v', s_vmas s' !! a = Some v' /\ data v' = v;
  am_others : forall x w, x <> a -> s_vmas s !! x = Some w -> exists w', s_vmas s' !! x = Some w' /\ data w' = data w;
  am_pages : exists ps pages', length ps = length vas /\ (forall b, on ps b -> rd8 (k_mem (s_k s')) b = 0)
    /\ kspace (ps ++ a :: rest) pt (with_pages (v_perm v) (zip vas ps) f) pages' (s_k s');
  am_kept : kept rest (s_k s) (s_k s')
}.

Section New.
Context (s : pst) (head : Z) (rest : list Z) (pt : Z) (f : Z -> Z) (l1 l2 : list Z).
Context (type : segtype) (perm start sz end_ : Z).
Abbreviation h := (s_vmas s).
Definition new_vma : vma := Vma type perm start sz end_ 0 (-1) 0 0 0.
(** The pages to be mapped. *)
Definition new_vas : list Z := if sz =? 0 then [] else steps start end_.
Context (Hl : vlist h head (l1 ++ l2)) (Hsorted : sorted_areas h (l1 ++ l2)).
Context (Hnodes : forall x, is_Some (h !! x) -> x ∈ rest).
Context (H1 : Forall (fun x => end_of h x <= start) l1) (H2 : Forall (fun x => end_ <= addr_of h x) l2).
Context (Hal : start mod PGSIZE = 0) (Hale : end_ mod PGSIZE = 0) (H0 : 0 <= start) (Hle : start <= end_) (Hmax : end_ <= MAXVA).
Context (Hsz : sz <> 0 -> start < end_) (Hperm : Z.land (u64 (s32 perm)) PAMASK = 0).
Context (Hfree : forall v, start <= v < end_ -> valid (f v) = false).

(** The pages of an area whose node is [q]. *)
Lemma new_pages q k pages : kspace (q :: rest) pt f pages k ->
  wp (vma_pages kernel_end pt start end_ sz perm 1 0) (fun r k' =>
    (r = 0 /\ exists ps pages', mapped_in k (length pages) (q :: rest) pt f perm new_vas ps pages' k')
    \/ (r = u64 (-1) /\ undone k (q :: rest) pt f k' /\ (length pages <= 4 * length new_vas)%nat)) k.
Proof using Hend Hall Hnd Hal Hale H0 Hmax Hsz Hperm Hfree.
  intros Hs. unfold vma_pages, new_vas. destruct (Z.eqb_spec sz 0) as [E|E].
  { apply wp_mret. left. split; [done|]. exists [], pages. by apply mapped_in_nil. }
  cbn [truth Z.eqb negb]. apply wp_bind. eapply wp_mono.
  - apply (uvmalloc1_any k (q :: rest) pt f perm start end_ Hperm Hal Hale H0 Hmax Hfree pages Hs). by apply Hsz.
  - intros r k' [[-> Hm]|(-> & Hu & Hn)].
    + apply wp_bind, wp_mret, wp_mret. left. by split.
    + apply wp_bind, wp_md, wp_mret. right. split; [done|]. split; [|done].
      exact (undone_says k (q :: rest) pt f [("uvmalloc failed", [])] k' Hu).
Qed.

(** The node linked in. *)
Lemma new_link q k0 k ps pages' n : (q ∉ rest) -> kept rest (s_k s) k0 ->
  mapped_in k0 n (q :: rest) pt f perm new_vas ps pages' k ->
  wp (_ ← vlink q (hd_or head l2) new_vma; mret q)
    (fun r s' => r = q /\ area_made s head rest pt f l1 l2 q new_vma new_vas s')
    (update s_k_l k (update s_vmas_l (<[q := vma0]> h) s)).
Proof using All.
  intros Hq Hk0 [Hlen Hs Hk _ Hz]. set (s1 := update s_k_l k _).
  assert (q ∉ head :: l1 ++ l2) as Hqn.
  { intros Hin. apply Hq, Hnodes. by apply (vlist_in h head (l1 ++ l2)). }
  assert (q ∉ l1 ++ l2) as Hqn' by (intros Hin; apply Hqn; by right).
  destruct (areas_ins h (l1 ++ l2) q vma0 Hqn') as [Hsame Hsort].
  apply wp_bind. eapply wp_mono; [apply (vlink_ok head l1 l2 q new_vma s1); cbn [s1 s_vmas]|].
  - by apply vlist_ins.
  - by apply Hsort.
  - done.
  - done.
  - rewrite Forall_forall in H1 |- *. intros x Hx.
    destruct (Hsame x) as [_ E]; [apply elem_of_app; by left|]. unfold s1. cbn. rewrite E. by apply H1.
  - rewrite Forall_forall in H2 |- *. intros x Hx.
    destruct (Hsame x) as [E _]; [apply elem_of_app; by right|]. unfold s1. cbn. rewrite E. by apply H2.
  - intros [] s' (h' & -> & Hl' & Hs' & Hr). apply wp_mret. split; [done|].
    destruct Hr as (_ & _ & Hd & (v' & Hv' & _ & _ & _ & Ev')). split.
    + exists h', k. by destruct s.
    + exact Hl'.
    + exact Hs'.
    + by exists v'.
    + intros x w Hx Hw. destruct (Hd x w Hx) as (w' & Hw' & _ & _ & _ & E); [|by exists w'].
      unfold s1. cbn. by rewrite lookup_insert_ne.
    + exists ps, pages'. split; [exact Hlen|]. split; [exact Hz|exact Hs].
    + eapply kept_trans; [exact Hk0|]. eapply kept_sub; [|exact Hk]. intros c Hc. by right.
Qed.

(** The node given back. *)
Lemma new_undo q k0 k : (q ∉ rest) -> kept rest (s_k s) k0 -> undone k0 (q :: rest) pt f k ->
  wp (_ ← vfree kernel_end q; mret 0)
    (fun r s' => r = 0 /\ exists k', s' = update s_k_l k' s /\ undone (s_k s) rest pt f k')
    (update s_k_l k (update s_vmas_l (<[q := vma0]> h) s)).
Proof using All.
  intros Hq Hk0 (f' & pages' & Hs & Hk & Hf). apply wp_bind. unfold vfree. apply wp_bind, wp_zoom.
  eapply wp_mono; [by apply (ks_kfree kernel_end Hend all Hall Hnd rest pt f' pages')|]. intros [] k2 [Hs2 Hk2].
  apply wp_md, wp_mret. split; [done|]. exists k2. split.
  - assert (delete q (<[q:=vma0]> h) = h) as E.
    { apply delete_insert_id. destruct (h !! q) eqn:Eq; [|done]. exfalso. apply Hq, Hnodes. by eexists. }
    transitivity (update s_k_l k2 (update s_vmas_l (delete q (<[q:=vma0]> h)) s)); [done|]. rewrite E. by destruct s.
  - exists f', (q :: pages'). split; [exact Hs2|]. split; [|exact Hf]. eapply kept_trans; [exact Hk0|].
    eapply kept_trans; (eapply kept_sub; [|first [exact Hk|exact Hk2]]); intros c Hc; [by right|apply elem_of_app; by right].
Qed.

Lemma new_area q pages1 k1 k2 : (q ∉ rest) -> kept rest (s_k s) k1 -> kspace (q :: rest) pt f pages1 k1 ->
  k2 = update k_mem_l (memset (k_mem k1) q 0 PGSIZE) k1 ->
  wp (ok ← kmem (vma_pages kernel_end pt start end_ sz perm 1 0);
      if negb (ok =? 0) then _ ← vfree kernel_end q; mret 0
      else _ ← vlink q (hd_or head l2) new_vma; mret q)
    (fun r s' => (r = 0 /\ (exists k', s' = update s_k_l k' s /\ undone (s_k s) rest pt f k')
        /\ (length pages1 <= 4 * length new_vas)%nat)
      \/ (r = q /\ area_made s head rest pt f l1 l2 q new_vma new_vas s'))
    (update s_vmas_l (<[q := vma0]> h) (update s_k_l k2 s)).
Proof using All.
  intros Hq Hk1 Hs1 ->. set (k2 := update k_mem_l _ k1).
  destruct (ks_write kernel_end Hend all Hall Hnd _ _ _ _ _ q (memset (k_mem k1) q 0 PGSIZE) Hs1) as [Hs2 Hk2]; [left| |].
  { intros c Hc. rewrite rd8_memset_page. by rewrite decide_False. }
  assert (kept rest (s_k s) k2) as Hk02.
  { eapply kept_trans; [exact Hk1|]. apply Hk2; [|done]. intros c Hc.
    apply (ks_ok kernel_end Hend all Hall Hnd _ _ _ _ _ Hs1). right. left. by right. }
  apply wp_bind, wp_zoom. change (view s_k_l _) with k2. eapply wp_mono; [exact (new_pages q k2 pages1 Hs2)|].
  intros r k3 [[-> (ps & pages' & Hm)]|(-> & Hu & Hn)].
  - cbn [negb Z.eqb]. eapply wp_mono.
    + assert (update s_k_l k3 (update s_vmas_l (<[q := vma0]> h) (update s_k_l k2 s))
        = update s_k_l k3 (update s_vmas_l (<[q := vma0]> h) s)) as -> by (by destruct s).
      by apply (new_link q k2 k3 ps pages' (length pages1)).
    + intros r s' [-> Ha]. by right.
  - change (negb (u64 (-1) =? 0)) with true. cbv iota. eapply wp_mono.
    + assert (update s_k_l k3 (update s_vmas_l (<[q := vma0]> h) (update s_k_l k2 s))
        = update s_k_l k3 (update s_vmas_l (<[q := vma0]> h) s)) as -> by (by destruct s).
      by apply (new_undo q k2 k3).
    + intros r s' [-> Ha]. left. by split.
Qed.
End New.

(** C27. The areas of a process stay sorted and disjoint, and hold what they were
    asked for.  [alloc_vma], asked for an area of [sz] bytes at [addr] with pages
    of its own, searches the list and ends.  Where an area already covers the
    range it returns that area and changes nothing; where an area overlaps the
    range without covering it, it returns 0 and only says so.  Otherwise it links
    a new node with the page-aligned range in at its place, in both directions of
    the circular list, with every page of the range mapped onto a cleared page of
    its own; or memory is out, which cannot be when more than four pages a page
    and one for the node are free, and then it returns 0 with the list, the
    address space and all pages as they were.  (The pages that are mapped in the
    range before must belong to areas.) *)
Theorem alloc_vma_sorted (p : nat) (type : segtype) (addr sz perm : Z) (rest pages l : list Z) (f : Z -> Z) (s : pst)
    (pr := view (proc_l p) s) (head := p_vma pr) (pt := p_pagetable pr)
    (start := PGROUNDDOWN addr) (end_ := PGROUNDUP (addr + sz)) :
  kspace rest pt f pages (s_k s) ->
  vlist (s_vmas s) head l -> sorted_areas (s_vmas s) l -> (forall x, is_Some (s_vmas s !! x) -> x ∈ rest) ->
  0 <= addr -> 0 <= sz -> addr + sz <= MAXVA -> Z.land (u64 (s32 perm)) PAMASK = 0 ->
  (forall v, start <= v < end_ -> valid (f v) = true ->
     exists x, x ∈ l /\ addr_of (s_vmas s) x <= v < end_of (s_vmas s) x) ->
  wp (alloc_vma kernel_end p type addr sz perm 1 0) (fun r s' => exists found,
     found_spec (s_vmas s) head start end_ l found /\
     match found with
     | Covers a => r = a /\ s' = s
     | Overlap => r = 0 /\ s' = update s_k_l (says [("vma address overflow", [])] (s_k s)) s
     | Before _ =>
         (r = 0 /\ (exists k', s' = update s_k_l k' s /\ undone (s_k s) rest pt f k')
          /\ (length pages <= 1 + 4 * length (new_vas start sz end_))%nat)
         \/ (r ∈ pages /\ exists l1 l2, l = l1 ++ l2
             /\ area_made s head rest pt f l1 l2 r (new_vma type perm start sz end_) (new_vas start sz end_) s')
     end) s.
Proof using All.
  intros Hs Hl Hsorted Hnodes Ha Hsz Hmax Hperm Hcov. pose proof maxva_48. assert (MAXVA < 2 ^ 48) as HM by done.
  unfold alloc_vma. apply wp_bind, wp_rd. fold pr. rewrite u64_small by lia. fold head start end_ pt.
  destruct (vfind_ok head start end_ l s Hl Hsorted) as (fd & Ef & Hf). apply wp_bind. eapply wp_eq; [exact Ef|].
  destruct fd as [at_|a|]; cbv beta iota.
  2:{ apply wp_mret. by exists (Covers a). }
  2:{ apply wp_bind, wp_zoom, wp_md, wp_mret. by exists Overlap. }
  pose proof Hf as (l1 & l2 & -> & -> & H1 & H2).
  assert (end_ = (addr + sz + PGSIZE - 1) / PGSIZE * PGSIZE) as Ee by (apply round_up_spec; unfold PGSIZE; lia).
  assert (start = addr / PGSIZE * PGSIZE) as Es by (apply round_down_spec; lia).
  assert (MAXVA mod PGSIZE = 0) as HMal by done.
  assert (start mod PGSIZE = 0 /\ end_ mod PGSIZE = 0 /\ 0 <= start /\ start <= end_ /\ end_ <= MAXVA
    /\ (sz <> 0 -> start < end_)) as (B1 & B2 & B3 & B4 & B5 & B6).
  { rewrite Ee, Es. unfold PGSIZE in *. repeat split; zlia. }
  assert (forall v, start <= v < end_ -> valid (f v) = false) as Hfree.
  { intros v Hv. destruct (valid (f v)) eqn:Ev; [|done]. destruct (Hcov v Hv Ev) as (x & Hx & Hxv).
    rewrite Forall_forall in H1, H2. apply elem_of_app in Hx as [Hx|Hx]; [specialize (H1 x Hx)|specialize (H2 x Hx)]; cbv beta in *; lia. }
  apply wp_bind, wp_zoom. destruct pages as [|q pages].
  { eapply wp_mono; [by apply (ks_kalloc_none kernel_end Hend all Hall Hnd rest pt f)|]. intros r k1 (-> & Hk1 & Hs1).
    cbn [Z.eqb]. apply wp_bind, wp_zoom, wp_md, wp_mret. eexists. split; [exact Hf|]. left. split; [done|].
    split; [|cbn [length]; lia]. exists (says [("vma kalloc failed", [])] k1). split; [by destruct s|].
    apply undone_says. exists f, []. split; [exact Hs1|]. split; [exact Hk1|]. intros v. by left. }
  eapply wp_mono; [by apply (ks_kalloc kernel_end Hend all Hall Hnd rest pt f)|].
  intros r k1 (-> & Hq0 & _ & Hq & _ & Hk1 & Hs1). rewrite (proj2 (Z.eqb_neq q 0)) by done.
  apply wp_bind, wp_zoom, wp_md, wp_bind, wp_md. eapply wp_mono.
  - apply (new_area s head rest pt f l1 l2 type perm start sz end_ Hl Hsorted Hnodes H1 H2 B1 B2 B3 B4 B5 B6 Hperm Hfree
      q pages k1 _ Hq); [|exact Hs1|reflexivity].
    eapply kept_sub; [|exact Hk1]. intros c Hc. apply elem_of_app. by right.
  - intros r s' [(-> & Hu & Hn)|[-> Hm]]; (eexists; split; [exact Hf|]).
    + left. split; [done|]. split; [exact Hu|]. cbn [length]. lia.
    + right. split; [left|]. by exists l1, l2.
Qed.
End Alloc.

(** * A process without areas asks for a hundred bytes of memory *)

Definition area_head : Z := pg 5.
Definition area_pst : pst :=
  Pst copy_kst {[ 0%nat := update p_vma_l area_head (update p_pagetable_l (pg 6) proc0) ]} (Spin 0 "nextpid" None) 1 None
    {[ area_head := update v_prev_l area_head (update v_next_l area_head vma0) ]} true.
Definition area_end : Z := USER_MMAP_START + PGSIZE.

Example alloc_vma_sorted_witness :
  wp (alloc_vma copy_end 0 MMAP USER_MMAP_START 100 PTE_W 1 0) (fun r s' => exists found,
     found_spec (s_vmas area_pst) area_head USER_MMAP_START area_end [] found /\
     match found with
     | Covers a => r = a /\ s' = area_pst
     | Overlap => r = 0 /\ s' = update s_k_l (says [("vma address overflow", [])] copy_kst) area_pst
     | Before _ =>
         (r = 0 /\ (exists k', s' = update s_k_l k' area_pst
                     /\ undone copy_end copy_all copy_kst copy_rest (pg 6) (fun _ => 0) k')
          /\ (length copy_free <= 1 + 4 * length (new_vas USER_MMAP_START 100 area_end))%nat)
         \/ (r ∈ copy_free /\ exists l1 l2, [] = l1 ++ l2
             /\ area_made copy_end copy_all area_pst area_head copy_rest (pg 6) (fun _ => 0) l1 l2 r
                  (new_vma MMAP PTE_W USER_MMAP_START 100 area_end) (new_vas USER_MMAP_START 100 area_end) s')
     end) area_pst.
Proof.
  refine (alloc_vma_sorted copy_end _ copy_all _ _ 0 MMAP USER_MMAP_START 100 PTE_W copy_rest copy_free [] (fun _ => 0) area_pst
    copy_kspace _ _ _ _ _ _ _ _).
  - by vm_compute.
  - repeat constructor; by vm_compute.
  - apply (bool_decide_unpack _). by vm_compute.
  - split; [apply NoDup_singleton|]. repeat constructor.
  - split; constructor.
  - intros x Hx. assert (x = area_head) as ->.
    { destruct Hx as [v Hv]. change (s_vmas area_pst) with ({[ area_head := update v_prev_l area_head (update v_next_l area_head vma0) ]} : gmap Z vma) in Hv.
      by apply lookup_singleton_Some in Hv as [<- _]. }
    apply (bool_decide_unpack _). by vm_compute.
  - by vm_compute.
  - by vm_compute.
  - by vm_compute.
  - by vm_compute.
  - intros v _ Hv. discriminate Hv.
Defined.

(** It gets them, on the last pages there are. *)
Example area_runs :
  match alloc_vma copy_end 0 MMAP USER_MMAP_START 100 PTE_W 1 0 area_pst with
  | Ret r s' => r = pg 7 /\ k_freelist (s_k s') = 0
      /\ PTE2PA (xlate 3 (k_mem (s_k s')) (pg 6) USER_MMAP_START) = pg 8
  | _ => False
  end.
Proof. by vm_compute. Qed.
