(* ===== verification/SchedFacts.v ===== *)
(** The scheduler: a pass over the table switches to every process that is
    runnable when its turn comes, so none that stays runnable is passed over. *)

From S2P Require Import Prelude Mem Strings Locks Kalloc Vm ProcState Vma Proc ProcFacts.

(** The processes a computation switches to, in order, when the rest of the
    system hands the processor back as [env] says; and how it ends. *)
Fixpoint switches {A} (env : list (pst -> pst)) (r : res pst A) : list (option nat) * option (A * pst) :=
  match r, env with
  | Ret a s, _ => ([], Some (a, s))
  | Yield _ k s, e :: env' =>
      let '(t, o) := switches env' (k (e s)) in (c_proc (view (hart_l ⊚ mycpu_l) s) :: t, o)
  | _, _ => ([], None)
  end.

Record hands_back (e : pst -> pst) : Prop := {
  hb_hart : forall s, hart_ok (view hart_l s) -> hart_ok (view hart_l (e s));
  hb_noff : forall s, c_noff (view (hart_l ⊚ mycpu_l) (e s)) = c_noff (view (hart_l ⊚ mycpu_l) s);
  hb_tp : forall s, h_tp (view hart_l (e s)) = h_tp (view hart_l s);
  hb_locks : forall s i, p_lock (entry (s_procs (e s)) i) = p_lock (entry (s_procs s) i);
  hb_runnable : forall s p i, c_proc (view (hart_l ⊚ mycpu_l) s) = Some p -> i <> p ->
    p_state (entry (s_procs s) i) = RUNNABLE -> p_state (entry (s_procs (e s)) i) = RUNNABLE
}.

(** The processor in the scheduler, outside and inside the section of [p]. *)
Record idle (s : pst) : Prop := {
  id_hart : hart_ok (view hart_l s);
  id_noff : c_noff (view (hart_l ⊚ mycpu_l) s) = 0;
  id_locks : forall i, locked (p_lock (entry (s_procs s) i)) = 0
}.
Record busy (p : nat) (s : pst) : Prop := {
  bs_hart : hart_ok (view hart_l s);
  bs_noff : c_noff (view (hart_l ⊚ mycpu_l) s) = 1;
  bs_lock : held_by (p_lock (entry (s_procs s) p)) (h_tp (view hart_l s)) = true;
  bs_locks : forall i, i <> p -> locked (p_lock (entry (s_procs s) i)) = 0
}.
(** Every process runnable in [s] is in [s']. *)
Definition keeps_runnable (P : nat -> Prop) (s s' : pst) : Prop :=
  forall i, P i -> p_state (entry (s_procs s) i) = RUNNABLE -> p_state (entry (s_procs s') i) = RUNNABLE.

Lemma set_mycpu h c : (h_tp h < length (h_cpus h))%nat -> view mycpu_l (update mycpu_l c h) = c.
Proof. apply view_mycpu_update. Qed.

(** Recording the process that runs. *)
Lemma set_proc_ok h o : hart_ok h -> hart_ok (update (mycpu_l ⊚ c_proc_l) o h) /\
  c_noff (view mycpu_l (update (mycpu_l ⊚ c_proc_l) o h)) = c_noff (view mycpu_l h) /\
  c_proc (view mycpu_l (update (mycpu_l ⊚ c_proc_l) o h)) = o.
Proof.
  intros [Ht Hn Hc Hie]. rewrite upd_comp, set_mycpu by done. split; [|done].
  split; rewrite ?set_mycpu by done; [|exact Hn|exact Hc|exact Hie].
  cbn. by rewrite length_insert.
Qed.

Lemma popped_ok h : hart_ok h -> c_noff (view mycpu_l h) = 1 ->
  hart_ok (popped h) /\ c_noff (view mycpu_l (popped h)) = 0 /\ h_tp (popped h) = h_tp h.
Proof.
  intros [Ht Hn Hc Hie] H1. unfold popped. rewrite H1. change (1 - 1) with 0. cbn [Z.eqb andb].
  set (c := Cpu _ _ _).
  assert (forall x, view mycpu_l (update h_crmd_l x (update mycpu_l c h)) = c) as Hv.
  { intros x. change (view mycpu_l (update mycpu_l c h) = c). by apply set_mycpu. }
  split; [|split; [by rewrite Hv|done]]. split; rewrite ?Hv; cbn [c_noff c].
  - cbn. by rewrite length_insert.
  - done.
  - assert (0 <= Z.lor (h_crmd h) CSR_CRMD_IE < 2 ^ 32) by (apply lor_range; [done|exact Hc|done]).
    cbn. by destruct (truth _).
  - done.
Qed.

Lemma entry_upd s p x i : entry (s_procs (update (proc_l p) x s)) i
  = if decide (p = i) then x else entry (s_procs s) i.
Proof. apply entry_insert. Qed.
Lemma entry_lock_upd s p lk i : entry (s_procs (update (plock_l p) lk s)) i
  = if decide (p = i) then update p_lock_l lk (entry (s_procs s) p) else entry (s_procs s) i.
Proof. apply entry_insert. Qed.
Lemma entry_hart_upd s h i : entry (s_procs (update hart_l h s)) i = entry (s_procs s) i.
Proof. done. Qed.

(** Entering and leaving the section of a process. *)
Lemma plock_idle p s : idle s -> exists s', plock p s = Ret tt s' /\ busy p s' /\
  forall i, p_state (entry (s_procs s') i) = p_state (entry (s_procs s) i).
Proof.
  intros [Hh Hn Hl]. pose proof (pushed_ok _ Hh) as Hp. change (view mycpu_l (view hart_l s)) with
    (view (hart_l ⊚ mycpu_l) s) in Hp. destruct Hp as [Hh' Hn']; [rewrite Hn; lia|].
  eexists. split; [apply (acquire_free hart_l (plock_l p)); [done|apply Hl]|].
  split; [split|].
  - rewrite (indep_view' hart_l (plock_l p)), view_update. exact Hh'.
  - rewrite view_comp, (indep_view' hart_l (plock_l p)), view_update. rewrite Hn', Hn. done.
  - rewrite entry_lock_upd, decide_True by done. rewrite (indep_view' hart_l (plock_l p)), view_update.
    unfold held_by. cbn. by apply bool_decide_eq_true.
  - intros i Hi. rewrite entry_lock_upd, decide_False by done. apply Hl.
  - intros i. rewrite entry_lock_upd. by destruct (decide (p = i)) as [->|].
Qed.
Lemma punlock_busy p s : busy p s -> exists s', punlock p s = Ret tt s' /\ idle s' /\
  forall i, p_state (entry (s_procs s') i) = p_state (entry (s_procs s) i).
Proof.
  intros [Hh Hn Hl Hls]. destruct (popped_ok _ Hh Hn) as (Hh' & Hn' & Ht).
  eexists. split; [apply (release_held hart_l (plock_l p)); [done|rewrite <- view_comp, Hn; lia|exact Hl]|].
  split; [split|].
  - rewrite (indep_view' hart_l (plock_l p)), view_update. exact Hh'.
  - rewrite view_comp, (indep_view' hart_l (plock_l p)), view_update. exact Hn'.
  - intros i. rewrite entry_lock_upd. destruct (decide (p = i)) as [->|Hi]; [done|]. by apply Hls.
  - intros i. rewrite entry_lock_upd. by destruct (decide (p = i)) as [->|].
Qed.

(** Recording the process, and what the rest of the system leaves. *)
Lemma busy_proc p o s : busy p s -> busy p (update (hart_l ⊚ mycpu_l ⊚ c_proc_l) o s) /\
  c_proc (view (hart_l ⊚ mycpu_l) (update (hart_l ⊚ mycpu_l ⊚ c_proc_l) o s)) = o.
Proof.
  intros [Hh Hn Hl Hls]. destruct (set_proc_ok _ o Hh) as (Hh' & Hn' & Hp).
  change (update (hart_l ⊚ mycpu_l ⊚ c_proc_l) o s)
    with (update hart_l (update (mycpu_l ⊚ c_proc_l) o (view hart_l s)) s).
  rewrite !view_comp, view_update. split; [split|exact Hp].
  - by rewrite view_update.
  - rewrite view_comp, view_update, Hn'. exact Hn.
  - rewrite view_update. exact Hl.
  - exact Hls.
Qed.
Lemma busy_state p st s : busy p s -> busy p (update (proc_l p ⊚ p_state_l) st s).
Proof.
  intros [Hh Hn Hl Hls]. split; [exact Hh|exact Hn| |].
  - rewrite upd_comp, entry_upd, decide_True by done. exact Hl.
  - intros i Hi. rewrite upd_comp, entry_upd, decide_False by done. by apply Hls.
Qed.
Lemma busy_env p e s : hands_back e -> busy p s -> busy p (e s).
Proof.
  intros [H1 H2 H3 H4 _] [Hh Hn Hl Hls].
  split; [by apply H1|by rewrite H2|by rewrite H4, H3|].
  intros i Hi. rewrite H4. by apply Hls.
Qed.

(** One turn of the scheduler's loop. *)
Definition turn (p : nat) (found : bool) : M pst (bool + unit) :=
  _ ← plock p;
  st ← rd (proc_l p ⊚ p_state_l);
  found ← (if decide (st = RUNNABLE) then
             _ ← proc_l p ⊚ p_state_l <~ RUNNING;
             _ ← zoom hart_l (mycpu_l ⊚ c_proc_l <~ Some p);
             _ ← swtch;
             _ ← zoom hart_l (mycpu_l ⊚ c_proc_l <~ None);
             mret true
           else mret found);
  _ ← punlock p;
  mret (@inl bool unit found).

Lemma turn_skips p found s : idle s -> p_state (entry (s_procs s) p) <> RUNNABLE ->
  exists s', turn p found s = Ret (inl found) s' /\ idle s' /\ keeps_runnable (fun _ => True) s s'.
Proof.
  intros Hi Hst. destruct (plock_idle p s Hi) as (s1 & E1 & Hb & Hs1).
  destruct (punlock_busy p s1 Hb) as (s2 & E2 & Hi2 & Hs2). exists s2. split; [|split; [done|]].
  - unfold turn. rewrite (bind_ret _ _ _ _ _ E1).
    rewrite (bind_ret _ _ s1 (p_state (entry (s_procs s1) p)) s1) by done.
    rewrite decide_False by (by rewrite Hs1).
    rewrite (bind_ret _ _ s1 found s1) by done. by rewrite (bind_ret _ _ _ _ _ E2).
  - intros i _ H. by rewrite Hs2, Hs1.
Qed.

Lemma turn_runs p found s e : idle s -> p_state (entry (s_procs s) p) = RUNNABLE -> hands_back e ->
  exists k s1 s', turn p found s = Yield WSched k s1 /\ c_proc (view (hart_l ⊚ mycpu_l) s1) = Some p /\
    k (e s1) = Ret (inl true) s' /\ idle s' /\ keeps_runnable (fun i => i <> p) s s'.
Proof.
  intros Hi Hst He. destruct (plock_idle p s Hi) as (s1 & E1 & Hb & Hs1).
  set (s2 := update (proc_l p ⊚ p_state_l) RUNNING s1).
  set (s3 := update (hart_l ⊚ mycpu_l ⊚ c_proc_l) (Some p) s2).
  destruct (busy_proc p (Some p) s2 (busy_state p _ s1 Hb)) as [Hb3 Hp3]. fold s3 in Hb3, Hp3.
  pose proof (busy_env p e s3 He Hb3) as Hb4.
  set (s5 := update (hart_l ⊚ mycpu_l ⊚ c_proc_l) None (e s3)).
  destruct (busy_proc p None (e s3) Hb4) as [Hb5 _]. fold s5 in Hb5.
  destruct (punlock_busy p s5 Hb5) as (s6 & E6 & Hi6 & Hs6).
  eexists _, s3, s6. split; [|split; [exact Hp3|split; [|split; [done|]]]].
  - unfold turn. rewrite (bind_ret _ _ _ _ _ E1).
    rewrite (bind_ret _ _ s1 (p_state (entry (s_procs s1) p)) s1) by done.
    rewrite decide_True by (by rewrite Hs1). reflexivity.
  - cbn beta. change (rbind ?r ?f) with (rbind r f).
    change (zoom hart_l (mycpu_l ⊚ c_proc_l <~ None)) with (wr (hart_l ⊚ mycpu_l ⊚ c_proc_l) None).
    cbn [rbind]. 
    transitivity ((_ ← punlock p; mret (@inl bool unit true)) s5); [done|]. by rewrite (bind_ret _ _ _ _ _ E6).
  - intros i Hip Hr. rewrite Hs6. change (entry (s_procs s5) i) with (entry (s_procs (e s3)) i).
    apply (hb_runnable e He s3 p); [done|done|].
    change (entry (s_procs s3) i) with (entry (s_procs s2) i). unfold s2.
    rewrite upd_comp, entry_upd, decide_False by done. by rewrite Hs1.
Qed.

Lemma switches_bind {A B} (g : A -> B) env : forall (r : res pst A) t a s',
  switches env r = (t, Some (a, s')) ->
  switches env (rbind r (fun a => Ret (g a))) = (t, Some (g a, s')).
Proof.
  induction env as [|e env IH]; intros [a0 s0| | | |w k s0] t a s' H; cbn in H; simplify_eq; try done.
  cbn. destruct (switches env _) as [t' o] eqn:E. simplify_eq. by rewrite (IH _ _ _ _ E).
Qed.

(** A stretch of the loop, over the processes of [l]. *)
Lemma turns_run l : NoDup l -> forall env found s, idle s -> Forall hands_back env -> (length l <= length env)%nat ->
  exists t s', switches env (for_acc l found turn s)
      = (Some <$> t, Some (inl (found || negb (bool_decide (t = []))), s')) /\
    idle s' /\ t `sublist_of` l /\ (forall i, i ∈ l -> p_state (entry (s_procs s) i) = RUNNABLE -> i ∈ t).
Proof.
  induction 1 as [|p l Hp Hl IH]; intros env found s Hi He Hlen.
  - exists [], s. rewrite bool_decide_true by done. rewrite orb_false_r.
    split; [by destruct env|split; [done|split; [by constructor|]]].
    intros i Hin. by apply elem_of_nil in Hin.
  - cbn [for_acc]. destruct (decide (p_state (entry (s_procs s) p) = RUNNABLE)) as [Hr|Hr].
    + destruct env as [|e env]; [cbn in Hlen; lia|]. apply Forall_cons in He as [He He'].
      destruct (turn_runs p found s e Hi Hr He) as (k & s1 & s2 & E & Hc & Ek & Hi2 & Hk).
      destruct (IH env true s2 Hi2 He') as (t & s3 & E3 & Hi3 & Hsub & Ht); [cbn in Hlen; lia|].
      exists (p :: t), s3. split; [|split; [done|split; [by constructor|]]].
      * rewrite (bind_yield _ _ _ _ _ _ E). cbn [switches]. rewrite Ek. cbn [rbind]. rewrite E3, Hc.
        cbn [fmap list_fmap]. by rewrite orb_true_r.
      * intros i Hin Hri. apply elem_of_cons in Hin as [->|Hin]; [left|right].
        apply Ht; [done|]. apply Hk; [|done]. by intros ->.
    + destruct (turn_skips p found s Hi Hr) as (s1 & E & Hi1 & Hk).
      destruct (IH env found s1 Hi1 He) as (t & s2 & E2 & Hi2 & Hsub & Ht); [cbn in Hlen; lia|].
      exists t, s2. rewrite (bind_ret _ _ _ _ _ E). split; [done|split; [done|split; [by constructor|]]].
      intros i Hin Hri. apply elem_of_cons in Hin as [->|Hin]; [done|]. apply Ht; [done|]. by apply Hk.
Qed.

Lemma intr_on_ok h : hart_ok h -> c_noff (view mycpu_l h) = 0 ->
  hart_ok (update h_crmd_l (Z.lor (h_crmd h) CSR_CRMD_IE) h).
Proof.
  intros [Ht Hn Hc Hie] H0. split; [exact Ht|exact Hn| |].
  - apply lor_range; [done|exact Hc|done].
  - change (c_noff (view mycpu_l (update h_crmd_l (Z.lor (h_crmd h) CSR_CRMD_IE) h))) with (c_noff (view mycpu_l h)). lia.
Qed.

(** C17. A pass of the scheduler always ends, with the processor idle again and
    no process lock held, however the processes behave that it switches to (as
    long as each hands the processor back inside its own section and leaves
    the others runnable).  It switches to processes in table order, each at
    most once, and to every process that is runnable when the pass begins: no
    runnable process is starved.  It reports whether it found any. *)
Theorem pass_runs_all (env : list (pst -> pst)) (s : pst) :
  idle s -> Forall hands_back env -> (50 <= length env)%nat ->
  exists t s', switches env (scheduler_pass s) = (Some <$> t, Some (negb (bool_decide (t = [])), s')) /\
    idle s' /\ t `sublist_of` nproc /\
    forall p, (p < 50)%nat -> p_state (entry (s_procs s) p) = RUNNABLE -> p ∈ t.
Proof.
  intros Hi He Hlen. destruct Hi as [Hh Hn Hl].
  set (h1 := update h_crmd_l (Z.lor (h_crmd (view hart_l s)) CSR_CRMD_IE) (view hart_l s)).
  pose proof (intr_on_ok _ Hh Hn) as Hh1. fold h1 in Hh1.
  set (s2 := update hart_l h1 s).
  assert (idle s2) as Hi2 by (split; [exact Hh1|exact Hn|exact Hl]).
  destruct (turns_run nproc (NoDup_seq 0 50) env false s2 Hi2 He) as (t & s3 & E & Hi3 & Hsub & Ht).
  { unfold nproc. by rewrite length_seq. }
  exists t, s3. split; [|split; [done|split; [done|]]].
  - transitivity (switches env (rbind (for_acc nproc false turn s2) (fun r => Ret (match r with inl b => b | inr _ => false end))));
      [done|].
    by rewrite (switches_bind _ _ _ _ _ _ E).
  - intros p Hp Hr. apply Ht; [|exact Hr]. apply elem_of_seq. lia.
Qed.

(** The same processor in its scheduler, with a runnable process in the table. *)
Definition sched_pst : pst :=
  Pst (Kst (Hart 0 4 [cpu0; cpu0]) (Spin 0 "kmem" None) 0 0 ∅ 0 [])
    {[0%nat := demo_proc SLEEPING 1 (Some CTicks); 2%nat := demo_proc RUNNABLE 3 None]}
    (Spin 0 "nextpid" None) 4 (Some 0%nat) ∅ false.
Lemma sched_idle : idle sched_pst.
Proof.
  split; [split; vm_compute; [lia|by split|by split|done]|done|]. intros i.
  change (s_procs sched_pst) with ({[0%nat := demo_proc SLEEPING 1 (Some CTicks);
    2%nat := demo_proc RUNNABLE 3 None]} : gmap nat proc). unfold entry.
  destruct (decide (i = 0%nat)) as [->|H0]; [done|]. destruct (decide (i = 2%nat)) as [->|H2]; [done|].
  by rewrite lookup_insert_ne, lookup_singleton_ne by done.
Qed.
(** A process that just gives the processor back. *)
Lemma id_hands_back : hands_back (fun s => s).
Proof. by split. Qed.
Example pass_runs_all_witness :
  exists t s', switches (replicate 50 (fun s => s)) (scheduler_pass sched_pst)
      = (Some <$> t, Some (negb (bool_decide (t = [])), s')) /\
    idle s' /\ t `sublist_of` nproc /\
    forall p, (p < 50)%nat -> p_state (entry (s_procs sched_pst) p) = RUNNABLE -> p ∈ t.
Proof.
  exact (pass_runs_all (replicate 50 (fun s => s)) sched_pst sched_idle
    (Forall_replicate _ 50 _ id_hands_back) (Nat.le_refl 50)).
Defined.
