(* ===== verification/Sleeplock.v ===== *)
(** Sleeping locks: kernel/sleeplock.c.

    A sleeplock is a flag guarded by a spinlock; a process that finds it taken
    sleeps on the lock itself.  The lock may live anywhere in a state [S] that
    has the process layer as a part [ps]; [id] is the object's identity, the
    channel it is slept on. *)

From S2P Require Import Prelude Mem Strings Locks Kalloc Vm ProcState Vma Proc ProcFacts.

Record sleeplock := Sleeplock {
  sl_locked : Z;
  sl_lk : spinlock;
  sl_name : string;
  sl_pid : Z
}.
Definition sl_locked_l : lens sleeplock Z :=
  Lens sl_locked (fun v r => Sleeplock v (sl_lk r) (sl_name r) (sl_pid r)).
Definition sl_lk_l : lens sleeplock spinlock :=
  Lens sl_lk (fun v r => Sleeplock (sl_locked r) v (sl_name r) (sl_pid r)).
Definition sl_name_l : lens sleeplock string :=
  Lens sl_name (fun v r => Sleeplock (sl_locked r) (sl_lk r) v (sl_pid r)).
Definition sl_pid_l : lens sleeplock Z :=
  Lens sl_pid (fun v r => Sleeplock (sl_locked r) (sl_lk r) (sl_name r) v).
#[export] Instance sl_locked_laws : LensLaws sl_locked_l.
Proof. by split; [split|]; intros; repeat match goal with x : sleeplock |- _ => destruct x end. Qed.
#[export] Instance sl_lk_laws : LensLaws sl_lk_l.
Proof. by split; [split|]; intros; repeat match goal with x : sleeplock |- _ => destruct x end. Qed.
#[export] Instance sl_pid_laws : LensLaws sl_pid_l.
Proof. by split; [split|]; intros; repeat match goal with x : sleeplock |- _ => destruct x end. Qed.

Abbreviation lk_l := (snd_l ⊚ sl_lk_l).
Abbreviation sl := snd_l.

Definition initsleeplock (name : string) : M (pst * sleeplock) unit :=
  _ ← initlock lk_l "sleep lock";
  _ ← sl ⊚ sl_name_l <~ name;
  _ ← sl ⊚ sl_locked_l <~ 0;
  sl ⊚ sl_pid_l <~ 0.

(** [myproc()->pid] *)
Definition curpid : M pst Z := p ← cur; rd (proc_l p ⊚ p_pid_l).

Section Sleeplock.
(** The object's identity: the channel it is slept on. *)
Variable id : Z.

(** One turn of [while (lk->locked) sleep(...)]. *)
Definition acquiresleep_turn : M (pst * sleeplock) (unit + unit) :=
  b ← rd (sl ⊚ sl_locked_l);
  if truth b then _ ← sleep fst_l (CSleeplock id) lk_l; mret (inl tt) else mret (inr tt).

(** [fuel] bounds the number of times the process is woken to find the lock
    taken again. *)
Definition acquiresleep (fuel : nat) : M (pst * sleeplock) unit :=
  _ ← acquire phart lk_l;
  _ ← loop fuel tt (fun _ => acquiresleep_turn);
  _ ← sl ⊚ sl_locked_l <~ 1;
  pid ← zoom fst_l curpid;
  _ ← sl ⊚ sl_pid_l <~ pid;
  release phart lk_l.

Definition releasesleep : M (pst * sleeplock) unit :=
  _ ← acquire phart lk_l;
  _ ← sl ⊚ sl_locked_l <~ 0;
  _ ← sl ⊚ sl_pid_l <~ 0;
  _ ← zoom fst_l (wakeup (CSleeplock id));
  release phart lk_l.

Definition holdingsleep : M (pst * sleeplock) bool :=
  _ ← acquire phart lk_l;
  l ← rd (sl ⊚ sl_locked_l);
  r ← (if truth l then
         lpid ← rd (sl ⊚ sl_pid_l); pid ← zoom fst_l curpid; mret (lpid =? pid)
       else mret false);
  _ ← release phart lk_l;
  mret r.
End Sleeplock.

(** * The contract *)

(** Process [p] runs, outside any critical section. *)
Record runs (p : nat) (q : pst) : Prop := {
  r_quiet : quiet q;
  r_noff : c_noff (view mycpu_l (view hart_l q)) = 0;
  r_proc : c_proc (view mycpu_l (view hart_l q)) = Some p
}.

Lemma runs_settled p q : runs p q -> settled (view hart_l q).
Proof. intros [[H _] _ _]. exact H. Qed.

Lemma wp_curpid p q (Q : Z -> pst -> Prop) : runs p q ->
  Q (p_pid (view (proc_l p) q)) (inq q) -> wp curpid Q (inq q).
Proof.
  intros Hr HQ. pose proof (runs_settled _ _ Hr) as Hs. destruct Hr as [[Hh _] Hn Hp].
  pose proof Hh as [[Hok _] _].
  unfold curpid. apply wp_bind. eapply wp_eq.
  - apply (cur_ok (inq q) p); rewrite inq_hart.
    + apply settled_pushed; [apply Hs|lia].
    + by rewrite pushed_proc by apply Hok.
  - apply wp_rd. exact HQ.
Qed.

Definition held (pid : Z) (l : sleeplock) : sleeplock := Sleeplock 1 (sl_lk l) (sl_name l) pid.
Definition open (l : sleeplock) : sleeplock := Sleeplock 0 (sl_lk l) (sl_name l) 0.

(** Process [p], which went to sleep in [q], is on a processor again: in [q2], and
    in [q3] once [sleep] is left. *)
Record back (p : nat) (q q2 q3 : pst) : Prop := {
  bk_resumes : exists h, resumes p h q2 q3
    /\ c_intena (view mycpu_l (pushed h)) = c_intena (view mycpu_l (pushed (view hart_l q)));
  bk_runs : runs p q3
}.

Section Contract.
Variable id : Z.

(** What [acquiresleep] does once it holds the spinlock, with [n] turns. *)
Definition acquire_rest (n : nat) : M (pst * sleeplock) unit :=
  _ ← loop n tt (fun _ => acquiresleep_turn id);
  _ ← sl ⊚ sl_locked_l <~ 1;
  pid ← zoom fst_l curpid;
  _ ← sl ⊚ sl_pid_l <~ pid;
  release phart lk_l.
Abbreviation ins q l := (inq q, lkc sl_lk_l q l).

Lemma acquire_open n p q l : runs p q -> unheld (sl_lk l) -> sl_locked l = 0 ->
  acquire_rest (S n) (ins q l) = Ret tt (q, held (p_pid (view (proc_l p) q)) l).
Proof.
  intros Hr Hl H0. pose proof (runs_settled _ _ Hr) as Hh. apply wp_ret_eq. unfold acquire_rest.
  apply wp_bind. apply (wp_eq _ _ _ tt (ins q l)).
  { unfold acquiresleep_turn. cbn [loop].
    rewrite (bind_ret _ _ _ (inr tt) (ins q l)); [done|].
    rewrite (bind_ret _ _ _ 0 (ins q l)); [done|].
    unfold rd, gets. f_equal. exact H0. }
  wp_run. apply (wp_curpid p q); [done|]. wp_run.
  by apply (wp_unlock sl_lk_l q (held (p_pid (view (proc_l p) q)) l)).
Qed.

(** Process [p] asleep on the lock, to go on with [k]: whenever it is resumed
    it looks at the lock again.  If the lock is free it returns with the lock
    its own; if it is not, it is asleep again; and so for [n] resumptions. *)
Definition asleep_here (p : nat) (q1 : pst) : Prop :=
  p_state (view (proc_l p) q1) = SLEEPING /\ p_chan (view (proc_l p) q1) = Some (CSleeplock id).
Fixpoint waits (p n : nat) (q : pst) (k : M (pst * sleeplock) unit) : Prop :=
  match n with
  | O => True
  | S n' => forall q2 q3 l2, back p q q2 q3 -> unheld (sl_lk l2) ->
      if decide (sl_locked l2 = 0) then k (q2, l2) = Ret tt (q3, held (p_pid (view (proc_l p) q3)) l2)
      else exists k' q4, k (q2, l2) = Yield WSched k' (q4, l2) /\ asleep_here p q4 /\ waits p n' q3 k'
  end.

Lemma acquire_sleeps m q l rest q1 : sl_locked l <> 0 ->
  sleep fst_l (CSleeplock id) lk_l (ins q l) = Yield WSched rest (q1, l) ->
  exists k, acquire_rest (S m) (ins q l) = Yield WSched k (q1, l)
    /\ forall t s, rest t = Ret tt s -> k t = acquire_rest m s.
Proof.
  intros Ht E. assert (acquiresleep_turn id (ins q l)
    = Yield WSched (fun t => rbind (rest t) (fun _ => @mret (M (pst * sleeplock)) _ _ (inl tt))) (q1, l)) as Et.
  { unfold acquiresleep_turn. rewrite (bind_ret _ _ _ (sl_locked l) (ins q l)) by done.
    assert (truth (sl_locked l) = true) as -> by (unfold truth; by destruct (Z.eqb_spec (sl_locked l) 0)).
    exact (bind_yield _ _ _ _ _ _ E). }
  eexists. split.
  - unfold acquire_rest. cbn [loop]. apply bind_yield. exact (bind_yield _ _ _ _ _ _ Et).
  - intros t s Hs. cbn beta. by rewrite Hs.
Qed.

Lemma acquire_taken p n : forall q l, runs p q -> unheld (sl_lk l) -> sl_locked l <> 0 ->
  exists k q1, acquire_rest (S n) (ins q l) = Yield WSched k (q1, l) /\ asleep_here p q1 /\ waits p n q k.
Proof.
  induction n as [|n IH]; intros q l Hr Hl H1; pose proof Hr as [Hq Hn Hp];
    destruct (sleep_pair sl_lk_l p (CSleeplock id) q l Hq Hl Hn Hp) as (q1 & E & Ep & Eh).
  - destruct (acquire_sleeps 0 _ _ _ _ H1 E) as (k & Ek & _). exists k, q1.
    split; [exact Ek|]. unfold asleep_here. by rewrite Ep.
  - destruct (acquire_sleeps (S n) _ _ _ _ H1 E) as (k & Ek & Hk). exists k, q1.
    split; [exact Ek|]. split; [unfold asleep_here; by rewrite Ep|].
    intros q2 q3 l2 [(h & Hres & Hin) Hr3] Hl2.
    rewrite (Hk (q2, l2) (ins q3 l2)) by (rewrite <- Hin; exact (sleep_resumed sl_lk_l p h q2 q3 l2 Hres Hl2)).
    destruct (decide (sl_locked l2 = 0)) as [H0|H0]; [by apply acquire_open|].
    destruct (IH q3 l2 Hr3 Hl2 H0) as (k' & q4 & E4 & Ha & Hw). by exists k', q4.
Qed.

Lemma wp_acquiresleep fuel p q l (Q : unit -> pst * sleeplock -> Prop) :
  (0 < fuel)%nat -> runs p q -> unheld (sl_lk l) -> sl_locked l = 0 ->
  Q tt (q, held (p_pid (view (proc_l p) q)) l) ->
  wp (acquiresleep id fuel) Q (q, l).
Proof.
  intros Hf Hr Hl H0 HQ. pose proof (runs_settled _ _ Hr) as Hh.
  destruct fuel as [|fuel]; [lia|]. unfold acquiresleep.
  apply wp_bind, (wp_lock sl_lk_l); [done|exact Hl|].
  eapply wp_eq; [by apply (acquire_open fuel p)|exact HQ].
Qed.

Lemma wp_releasesleep p q l (Q : unit -> pst * sleeplock -> Prop) :
  runs p q -> unheld (sl_lk l) ->
  (forall q', woken_all (CSleeplock id) q q' -> runs p q' -> Q tt (q', open l)) ->
  wp (releasesleep id) Q (q, l).
Proof.
  intros Hr Hl HQ. pose proof (runs_settled _ _ Hr) as Hh. unfold releasesleep.
  apply wp_bind, (wp_lock sl_lk_l); [done|exact Hl|]. wp_run.
  destruct Hr as [Hq Hn Hp]. apply (wp_wakeup _ q); [done|lia|]. intros q1 Hw Eh.
  apply (wp_unlock' sl_lk_l q q1 (open l)); [done|done|exact Hl|]. apply HQ; [done|].
  split; [apply Hw|by rewrite Eh..].
Qed.

Lemma wp_holdingsleep p q l (Q : bool -> pst * sleeplock -> Prop) :
  runs p q -> unheld (sl_lk l) ->
  Q (truth (sl_locked l) && (sl_pid l =? p_pid (view (proc_l p) q))) (q, l) ->
  wp holdingsleep Q (q, l).
Proof.
  intros Hr Hl HQ. pose proof (runs_settled _ _ Hr) as Hh. unfold holdingsleep.
  apply wp_bind, (wp_lock sl_lk_l); [done|exact Hl|]. wp_run.
  change (view (sl ⊚ sl_locked_l) (inq q, lkc sl_lk_l q l)) with (sl_locked l).
  destruct (truth (sl_locked l)); wp_run.
  - apply (wp_curpid p q); [done|]. wp_run.
    apply (wp_unlock sl_lk_l q l); [done|exact Hl|]. wp_run. exact HQ.
  - apply (wp_unlock sl_lk_l q l); [done|exact Hl|]. wp_run. exact HQ.
Qed.
End Contract.

(** C28. A sleeplock is an exclusive, process-owned lock.  When it is free,
    [acquiresleep] returns with the lock recorded as held by the calling
    process and nothing else changed.  When it is taken, the caller goes to
    sleep on the lock with its spinlock released, and stays out while the lock
    is taken: whenever it is resumed, whatever has become of the lock and of the
    other processes meanwhile, it returns with the lock its own if it finds it
    free, and sleeps again if another has it, any number [n] of times.
    [releasesleep] frees it and makes every process asleep on it runnable.
    [holdingsleep] is true exactly for the process that acquired it. *)
Theorem sleeplock_contract (id : Z) (n p : nat) (q : pst) (l : sleeplock) :
  runs p q -> unheld (sl_lk l) ->
  let me := p_pid (view (proc_l p) q) in
  (sl_locked l = 0 -> acquiresleep id (S n) (q, l) = Ret tt (q, held me l))
  /\ (sl_locked l <> 0 -> exists rest q1,
        acquiresleep id (S n) (q, l) = Yield WSched rest (q1, l)
        /\ asleep_here id p q1 /\ waits id p n q rest)
  /\ wp (releasesleep id) (fun _ '(q', l') => l' = open l /\ woken_all (CSleeplock id) q q') (q, l)
  /\ holdingsleep (q, l) = Ret (truth (sl_locked l) && (sl_pid l =? me)) (q, l)
  /\ holdingsleep (q, held me l) = Ret true (q, held me l)
  /\ holdingsleep (q, open l) = Ret false (q, open l).
Proof.
  intros Hr Hl me. split; [|split; [|split; [|split; [|split]]]].
  - intros H0. apply wp_ret_eq. apply (wp_acquiresleep id (S n) p); try done. lia.
  - intros H1. pose proof (runs_settled _ _ Hr) as Hh.
    destruct (acquire_taken id p n q l Hr Hl H1) as (k & q1 & E & Ha & Hw). exists k, q1. split; [|by split].
    unfold acquiresleep. rewrite (bind_ret _ _ _ tt (inq q, lkc sl_lk_l q l)); [exact E|].
    apply wp_ret_eq. by apply (wp_lock sl_lk_l).
  - apply (wp_releasesleep id p); [done|done|]. intros q' Hw _. by split.
  - apply wp_ret_eq. by apply (wp_holdingsleep p).
  - apply wp_ret_eq. apply (wp_holdingsleep p); [done|exact Hl|]. split; [|done].
    cbn. apply Z.eqb_refl.
  - apply wp_ret_eq. apply (wp_holdingsleep p); [done|exact Hl|]. by split.
Qed.

Lemma demo_runs : runs 0 demo_pst.
Proof. split; [apply demo_quiet|reflexivity|reflexivity]. Qed.

(** A free lock is got at once, a taken one waited for: through three wakings. *)
Example sleeplock_contract_witness :
  let l := Sleeplock 0 (Spin 0 "sleep lock" None) "buffer" 0 in
  acquiresleep 7 4 (demo_pst, l)
  = Ret tt (demo_pst, held (p_pid (view (proc_l 0) demo_pst)) l)
  /\ exists rest q1, acquiresleep 7 4 (demo_pst, held 9 l) = Yield WSched rest (q1, held 9 l)
       /\ asleep_here 7 0 q1 /\ waits 7 0 3 demo_pst rest.
Proof.
  intros l. split.
  - exact (proj1 (sleeplock_contract 7 3 0 demo_pst l demo_runs eq_refl) eq_refl).
  - refine (proj1 (proj2 (sleeplock_contract 7 3 0 demo_pst (held 9 l) demo_runs eq_refl)) _). by intros [=].
Defined.
