(* ===== verification/Bio.v ===== *)
(** The buffer cache and the disk under it: kernel/bio.c, kernel/disk.c,
    kernel/ramdisk.c.

    The cache is a ring of buffers through [head], most recently released
    first; the index [HEAD] stands for [&bcache.head] and [i < NBUF] for
    [&bcache.buf[i]].  The disk is the image in memory that the ramdisk driver
    serves (the branch of kernel/disk.c built without QEMU); [sdcard] is the
    address the linker gives it. *)

From S2P Require Import Prelude Mem Strings Locks Kalloc Vm ProcState Vma Proc ProcFacts Sleeplock.

Definition NBUF : nat := 3000.
Definition HEAD : nat := NBUF.
Definition BSIZE : Z := 512.
Lemma NBUF_pos : (0 < NBUF)%nat.
Proof. unfold NBUF. lia. Qed.
#[global] Opaque NBUF.

Record buf := Buf {
  b_valid : Z;
  b_dev : Z;
  b_sectorno : Z;
  b_lock : sleeplock;
  b_refcnt : Z;
  b_prev : nat;
  b_next : nat;
  b_data : list Z
}.

Definition b_valid_l : lens buf (Z) :=
  Lens b_valid (fun v r => Buf v (b_dev r) (b_sectorno r) (b_lock r) (b_refcnt r) (b_prev r)
    (b_next r) (b_data r)).
Definition b_dev_l : lens buf (Z) :=
  Lens b_dev (fun v r => Buf (b_valid r) v (b_sectorno r) (b_lock r) (b_refcnt r) (b_prev r)
    (b_next r) (b_data r)).
Definition b_sectorno_l : lens buf (Z) :=
  Lens b_sectorno (fun v r => Buf (b_valid r) (b_dev r) v (b_lock r) (b_refcnt r) (b_prev r)
    (b_next r) (b_data r)).
Definition b_lock_l : lens buf (sleeplock) :=
  Lens b_lock (fun v r => Buf (b_valid r) (b_dev r) (b_sectorno r) v (b_refcnt r) (b_prev r)
    (b_next r) (b_data r)).
Definition b_refcnt_l : lens buf (Z) :=
  Lens b_refcnt (fun v r => Buf (b_valid r) (b_dev r) (b_sectorno r) (b_lock r) v (b_prev r)
    (b_next r) (b_data r)).
Definition b_prev_l : lens buf (nat) :=
  Lens b_prev (fun v r => Buf (b_valid r) (b_dev r) (b_sectorno r) (b_lock r) (b_refcnt r) v
    (b_next r) (b_data r)).
Definition b_next_l : lens buf (nat) :=
  Lens b_next (fun v r => Buf (b_valid r) (b_dev r) (b_sectorno r) (b_lock r) (b_refcnt r)
    (b_prev r) v (b_data r)).
Definition b_data_l : lens buf (list Z) :=
  Lens b_data (fun v r => Buf (b_valid r) (b_dev r) (b_sectorno r) (b_lock r) (b_refcnt r)
    (b_prev r) (b_next r) v).

#[export] Instance b_valid_laws : LensLaws b_valid_l.
Proof. by split; [split|]; intros; repeat match goal with x : buf |- _ => destruct x end. Qed.
#[export] Instance b_dev_laws : LensLaws b_dev_l.
Proof. by split; [split|]; intros; repeat match goal with x : buf |- _ => destruct x end. Qed.
#[export] Instance b_sectorno_laws : LensLaws b_sectorno_l.
Proof. by split; [split|]; intros; repeat match goal with x : buf |- _ => destruct x end. Qed.
#[export] Instance b_lock_laws : LensLaws b_lock_l.
Proof. by split; [split|]; intros; repeat match goal with x : buf |- _ => destruct x end. Qed.
#[export] Instance b_refcnt_laws : LensLaws b_refcnt_l.
Proof. by split; [split|]; intros; repeat match goal with x : buf |- _ => destruct x end. Qed.
#[export] Instance b_prev_laws : LensLaws b_prev_l.
Proof. by split; [split|]; intros; repeat match goal with x : buf |- _ => destruct x end. Qed.
#[export] Instance b_next_laws : LensLaws b_next_l.
Proof. by split; [split|]; intros; repeat match goal with x : buf |- _ => destruct x end. Qed.
#[export] Instance b_data_laws : LensLaws b_data_l.
Proof. by split; [split|]; intros; repeat match goal with x : buf |- _ => destruct x end. Qed.
Record bio := Bio {
  bc_lock : spinlock;   (** [bcache.lock] *)
  bc_buf : gmap nat buf;   (** [bcache.buf] and, at [HEAD], [bcache.head] *)
  rd_lock : spinlock;   (** [ramdisklock] *)
  rd_base : Z;   (** [ramdisk] *)
  rd_mem : mem   (** the memory of the image *)
}.

Definition bc_lock_l : lens bio (spinlock) :=
  Lens bc_lock (fun v r => Bio v (bc_buf r) (rd_lock r) (rd_base r) (rd_mem r)).
Definition bc_buf_l : lens bio (gmap nat buf) :=
  Lens bc_buf (fun v r => Bio (bc_lock r) v (rd_lock r) (rd_base r) (rd_mem r)).
Definition rd_lock_l : lens bio (spinlock) :=
  Lens rd_lock (fun v r => Bio (bc_lock r) (bc_buf r) v (rd_base r) (rd_mem r)).
Definition rd_base_l : lens bio (Z) :=
  Lens rd_base (fun v r => Bio (bc_lock r) (bc_buf r) (rd_lock r) v (rd_mem r)).
Definition rd_mem_l : lens bio (mem) :=
  Lens rd_mem (fun v r => Bio (bc_lock r) (bc_buf r) (rd_lock r) (rd_base r) v).

#[export] Instance bc_lock_laws : LensLaws bc_lock_l.
Proof. by split; [split|]; intros; repeat match goal with x : bio |- _ => destruct x end. Qed.
#[export] Instance bc_buf_laws : LensLaws bc_buf_l.
Proof. by split; [split|]; intros; repeat match goal with x : bio |- _ => destruct x end. Qed.
#[export] Instance rd_lock_laws : LensLaws rd_lock_l.
Proof. by split; [split|]; intros; repeat match goal with x : bio |- _ => destruct x end. Qed.
#[export] Instance rd_base_laws : LensLaws rd_base_l.
Proof. by split; [split|]; intros; repeat match goal with x : bio |- _ => destruct x end. Qed.
#[export] Instance rd_mem_laws : LensLaws rd_mem_l.
Proof. by split; [split|]; intros; repeat match goal with x : bio |- _ => destruct x end. Qed.

Definition buf0 : buf := Buf 0 0 0 (Sleeplock 0 (Spin 0 "" None) "" 0) 0 0 0 [].
(** [bcache.buf[i]] *)
Definition buf_l (i : nat) : lens bio buf := bc_buf_l ⊚ lmap i buf0.
#[export] Instance buf_put i : LensPut (buf_l i).
Proof. unfold buf_l. apply _. Qed.
Abbreviation bst := (pst * bio)%type.
Abbreviation bclk := (snd_l ⊚ bc_lock_l).
Abbreviation rdlk := (snd_l ⊚ rd_lock_l).
Definition bl (i : nat) : lens bst buf := snd_l ⊚ buf_l i.
(** The process layer and the buffer's own lock. *)
Definition bsl (i : nat) : lens bst (pst * sleeplock) := lpair fst_l (bl i ⊚ b_lock_l).

(** The sleeplock of buffer [i] as a channel. *)
Definition BUFCHAN (i : nat) : Z := 1000 + Z.of_nat i.

(** Inserts [b] after the head. *)
Definition push_front (b : nat) : M bst unit :=
  n ← rd (bl HEAD ⊚ b_next_l);
  _ ← bl b ⊚ b_next_l <~ n;
  _ ← bl b ⊚ b_prev_l <~ HEAD;
  n ← rd (bl HEAD ⊚ b_next_l);
  _ ← bl n ⊚ b_prev_l <~ b;
  bl HEAD ⊚ b_next_l <~ b.

(** Takes [b] out of the ring. *)
Definition unlink (b : nat) : M bst unit :=
  n ← rd (bl b ⊚ b_next_l); p ← rd (bl b ⊚ b_prev_l);
  _ ← bl n ⊚ b_prev_l <~ p;
  p ← rd (bl b ⊚ b_prev_l); n ← rd (bl b ⊚ b_next_l);
  bl p ⊚ b_next_l <~ n.

(** One turn of [binit]'s loop. *)
Definition binit_body (b : nat) : M bst unit :=
  _ ← bl b ⊚ b_refcnt_l <~ 0;
  _ ← bl b ⊚ b_sectorno_l <~ u32 (Z.lnot 0);
  _ ← bl b ⊚ b_dev_l <~ u32 (Z.lnot 0);
  n ← rd (bl HEAD ⊚ b_next_l);
  _ ← bl b ⊚ b_next_l <~ n;
  _ ← bl b ⊚ b_prev_l <~ HEAD;
  _ ← zoom (bsl b) (initsleeplock "buffer");
  n ← rd (bl HEAD ⊚ b_next_l);
  _ ← bl n ⊚ b_prev_l <~ b;
  bl HEAD ⊚ b_next_l <~ b.

Definition binit_ring : M bst unit :=
  _ ← initlock bclk "bcache";
  _ ← bl HEAD ⊚ b_prev_l <~ HEAD;
  _ ← bl HEAD ⊚ b_next_l <~ HEAD;
  for_each (seq 0 NBUF) binit_body.
Definition binit : M bst unit := _ ← binit_ring; zoom fst_l (psay "binit" []).

(** A walk over the ring from the head, forwards or backwards, to the first
    buffer that satisfies [P]. *)
Definition find_turn (step : lens buf nat) (P : buf -> bool) (b : nat) : M bst (nat + option nat) :=
  if (b =? HEAD)%nat then mret (inr None)
  else
    r ← rd (bl b);
    if P r then mret (inr (Some b)) else mret (inl (view step r)).
Definition ring_find (step : lens buf nat) (P : buf -> bool) : M bst (option nat) :=
  b ← rd (bl HEAD ⊚ step);
  loop (S (S NBUF)) b (find_turn step P).

Section Fuel.
(** Bounds the number of times a process is woken to find a buffer taken. *)
Variable fuel : nat.

Definition bget (dev sectorno : Z) : M bst nat :=
  _ ← acquire phart bclk;
  o ← ring_find b_next_l (fun r => (b_dev r =? dev) && (b_sectorno r =? sectorno));
  match o with
  | Some b =>
      _ ← md (bl b ⊚ b_refcnt_l) (fun n => u32 (n + 1));
      _ ← release phart bclk;
      _ ← zoom (bsl b) (acquiresleep (BUFCHAN b) fuel);
      mret b
  | None =>
      o ← ring_find b_prev_l (fun r => b_refcnt r =? 0);
      match o with
      | Some b =>
          _ ← bl b ⊚ b_dev_l <~ dev;
          _ ← bl b ⊚ b_sectorno_l <~ sectorno;
          _ ← bl b ⊚ b_valid_l <~ 0;
          _ ← bl b ⊚ b_refcnt_l <~ 1;
          _ ← release phart bclk;
          _ ← zoom (bsl b) (acquiresleep (BUFCHAN b) fuel);
          mret b
      | None => panic "bget: no buffers"
      end
  end.

Definition ramdisk_init (sdcard : Z) : M bst unit :=
  _ ← initlock rdlk "ramdisk lock";
  _ ← snd_l ⊚ rd_base_l <~ sdcard;
  zoom fst_l (psay "ramdiskinit ram start:%p" [sdcard]).
(** [sectorno * BSIZE] is an [unsigned int]. *)
Definition sector_addr (base n : Z) : Z := base + u32 (n * BSIZE).
Definition ramdisk_read (b : nat) : M bst unit :=
  _ ← acquire phart rdlk;
  n ← rd (bl b ⊚ b_sectorno_l);
  base ← rd (snd_l ⊚ rd_base_l);
  m ← rd (snd_l ⊚ rd_mem_l);
  _ ← bl b ⊚ b_data_l <~ read_bytes m (sector_addr base n) BSIZE;
  release phart rdlk.
Definition ramdisk_write (b : nat) : M bst unit :=
  _ ← acquire phart rdlk;
  n ← rd (bl b ⊚ b_sectorno_l);
  base ← rd (snd_l ⊚ rd_base_l);
  d ← rd (bl b ⊚ b_data_l);
  _ ← md (snd_l ⊚ rd_mem_l) (fun m => write_bytes m (sector_addr base n) d);
  release phart rdlk.

Definition disk_init (sdcard : Z) : M bst unit := ramdisk_init sdcard.
Definition disk_read (b : nat) : M bst unit := ramdisk_read b.
Definition disk_write (b : nat) : M bst unit := ramdisk_write b.
Definition disk_intr : M bst unit := zoom fst_l (psay "should not have disk intr" []).

Definition bread (dev sectorno : Z) : M bst nat :=
  b ← bget dev sectorno;
  v ← rd (bl b ⊚ b_valid_l);
  _ ← when (negb (truth v)) (_ ← disk_read b; bl b ⊚ b_valid_l <~ 1);
  mret b.

Definition bwrite (b : nat) : M bst unit :=
  h ← zoom (bsl b) holdingsleep;
  if negb h then panic "bwrite" else disk_write b.

Definition brelse (b : nat) : M bst unit :=
  h ← zoom (bsl b) holdingsleep;
  if negb h then panic "brelse"
  else
    _ ← zoom (bsl b) (releasesleep (BUFCHAN b));
    _ ← acquire phart bclk;
    _ ← md (bl b ⊚ b_refcnt_l) (fun n => u32 (n - 1));
    c ← rd (bl b ⊚ b_refcnt_l);
    _ ← when (c =? 0)
          (_ ← unlink b; push_front b);
    release phart bclk.

Definition bpin (b : nat) : M bst unit :=
  _ ← acquire phart bclk;
  _ ← md (bl b ⊚ b_refcnt_l) (fun n => u32 (n + 1));
  release phart bclk.
Definition bunpin (b : nat) : M bst unit :=
  _ ← acquire phart bclk;
  _ ← md (bl b ⊚ b_refcnt_l) (fun n => u32 (n - 1));
  release phart bclk.
End Fuel.

(** * The ring *)

Definition at_ (m : gmap nat buf) (i : nat) : buf := default buf0 (m !! i).
Definition core (r : buf) := (b_valid r, b_dev r, b_sectorno r, b_lock r, b_refcnt r, b_data r).

Lemma at_insert m i r j : at_ (<[i := r]> m) j = if decide (i = j) then r else at_ m j.
Proof. unfold at_. rewrite lookup_insert. by destruct (decide (i = j)). Qed.

(** The links from [a] through [l] back to the head, both ways. *)
Fixpoint chain (nx pv : nat -> nat) (a : nat) (l : list nat) : Prop :=
  match l with
  | [] => nx a = HEAD /\ pv HEAD = a
  | b :: l' => nx a = b /\ pv b = a /\ chain nx pv b l'
  end.
Definition nx (m : gmap nat buf) (i : nat) : nat := b_next (at_ m i).
Definition pv (m : gmap nat buf) (i : nat) : nat := b_prev (at_ m i).
Definition ring (m : gmap nat buf) (l : list nat) : Prop :=
  chain (nx m) (pv m) HEAD l /\ NoDup (HEAD :: l).

Lemma ring_chain_ext nx1 pv1 nx2 pv2 l : forall a, chain nx1 pv1 a l ->
  (forall i, i ∈ a :: l -> nx2 i = nx1 i) -> (forall i, i ∈ HEAD :: l -> pv2 i = pv1 i) ->
  chain nx2 pv2 a l.
Proof.
  induction l as [|b l IH]; intros a; cbn [chain].
  - intros [H1 H2] Hn Hp. rewrite Hn, Hp by (by left). done.
  - intros (H1 & H2 & H3) Hn Hp. rewrite Hn by (by left). rewrite Hp by (right; by left).
    split; [done|]. split; [done|]. apply IH; [done|..].
    + intros i Hi. apply Hn. by right.
    + intros i [->|Hi]%elem_of_cons; apply Hp; [by left|by right; right].
Qed.

Lemma chain_first nx pv a l : chain nx pv a l -> nx a = hd HEAD l.
Proof. destruct l; by intros [? ?]. Qed.

(** The rest of a chain hangs on whatever precedes it. *)
Lemma chain_graft nx1 pv1 nx2 pv2 a c l : chain nx1 pv1 a l ->
  nx2 c = hd HEAD l -> pv2 (hd HEAD l) = c ->
  (forall i, i ∈ l -> nx2 i = nx1 i) ->
  (forall i, i ∈ HEAD :: l -> i <> hd HEAD l -> pv2 i = pv1 i) ->
  NoDup (HEAD :: l) ->
  chain nx2 pv2 c l.
Proof.
  destruct l as [|b l]; cbn [chain hd]; [done|].
  intros (H1 & H2 & H3) E1 E2 Hn Hp Hnd. split; [done|]. split; [done|].
  apply (ring_chain_ext nx1 pv1); [done|done|]. intros i Hi. apply Hp.
  - apply elem_of_cons in Hi as [->|Hi]; [by left|by right; right].
  - intros E. rewrite E in Hi. apply NoDup_cons in Hnd as [Hh [Hb _]%NoDup_cons].
    apply elem_of_cons in Hi as [Hi|Hi]; [|done]. apply Hh. rewrite Hi. by left.
Qed.

(** What the two pointer updates at the front do. *)
Definition pushed_front (m m' : gmap nat buf) (i : nat) : Prop :=
  let n := nx m HEAD in
  (forall j, core (at_ m' j) = core (at_ m j))
  /\ (forall j, nx m' j = if decide (HEAD = j) then i else if decide (i = j) then n else nx m j)
  /\ (forall j, pv m' j = if decide (n = j) then i else if decide (i = j) then HEAD else pv m j).

(** A change of the table of buffers, as the links see it. *)
Definition set_next (m : gmap nat buf) (i v : nat) : gmap nat buf :=
  <[i := update b_next_l v (at_ m i)]> m.
Definition set_prev (m : gmap nat buf) (i v : nat) : gmap nat buf :=
  <[i := update b_prev_l v (at_ m i)]> m.
Lemma nx_set_next m i v j : nx (set_next m i v) j = if decide (i = j) then v else nx m j.
Proof. unfold nx, set_next. rewrite at_insert. by destruct (decide (i = j)). Qed.
Lemma nx_set_prev m i v j : nx (set_prev m i v) j = nx m j.
Proof. unfold nx, set_prev. rewrite at_insert. by destruct (decide (i = j)) as [->|]. Qed.
Lemma pv_set_next m i v j : pv (set_next m i v) j = pv m j.
Proof. unfold pv, set_next. rewrite at_insert. by destruct (decide (i = j)) as [->|]. Qed.
Lemma pv_set_prev m i v j : pv (set_prev m i v) j = if decide (i = j) then v else pv m j.
Proof. unfold pv, set_prev. rewrite at_insert. by destruct (decide (i = j)). Qed.
Lemma core_set_next m i v j : core (at_ (set_next m i v) j) = core (at_ m j).
Proof. unfold set_next. rewrite at_insert. by destruct (decide (i = j)) as [->|]. Qed.
Lemma core_set_prev m i v j : core (at_ (set_prev m i v) j) = core (at_ m j).
Proof. unfold set_prev. rewrite at_insert. by destruct (decide (i = j)) as [->|]. Qed.

Lemma upd_next i v q b :
  update (bl i ⊚ b_next_l) v (q, b) = (q, update bc_buf_l (set_next (bc_buf b) i v) b).
Proof. done. Qed.
Lemma upd_prev i v q b :
  update (bl i ⊚ b_prev_l) v (q, b) = (q, update bc_buf_l (set_prev (bc_buf b) i v) b).
Proof. done. Qed.
Lemma get_next i q b : view (bl i ⊚ b_next_l) (q, b) = nx (bc_buf b) i.
Proof. done. Qed.
Lemma get_prev i q b : view (bl i ⊚ b_prev_l) (q, b) = pv (bc_buf b) i.
Proof. done. Qed.
Lemma bufs_upd m m' b : update bc_buf_l m (update bc_buf_l m' b) = update bc_buf_l m b.
Proof. done. Qed.
Lemma bufs_view m b : bc_buf (update bc_buf_l m b) = m.
Proof. done. Qed.
Ltac link_facts :=
  repeat progress rewrite ?bufs_upd, ?bufs_view,
    ?nx_set_prev, ?nx_set_next, ?pv_set_next, ?pv_set_prev, ?core_set_next, ?core_set_prev.
Ltac links :=
  repeat (wp_step; rewrite ?upd_next, ?upd_prev, ?get_next, ?get_prev); link_facts.

Lemma push_front_ok i q b (Q : unit -> bst -> Prop) : i <> HEAD ->
  (forall m', pushed_front (bc_buf b) m' i -> Q tt (q, update bc_buf_l m' b)) ->
  wp (push_front i) Q (q, b).
Proof.
  intros Hi HQ. unfold push_front. links. rewrite decide_False by done.
  apply HQ. split; [|split]; intros j; by link_facts.
Qed.

(** Pushing an unlinked buffer. *)
Lemma ring_push m m' i l : ring m l -> i ∉ HEAD :: l -> pushed_front m m' i -> ring m' (i :: l).
Proof.
  intros [Hc Hnd] Hi (_ & Hn & Hp). pose proof (chain_first _ _ _ _ Hc) as Hf.
  rewrite Hf in Hp, Hn. apply NoDup_cons in Hnd as [Hh Hnd].
  assert (HEAD <> i /\ i ∉ l) as [Hhi Hil] by (split; [intros <-; apply Hi; by left|intros ?; apply Hi; by right]).
  assert (hd HEAD l <> i) as Hdi.
  { destruct l as [|b l]; [done|]. cbn. intros ->. apply Hil. by left. }
  split; [|].
  - cbn [chain]. rewrite Hn, decide_True by done. split; [done|].
    rewrite Hp, (decide_False (P := hd HEAD l = i)), decide_True by done. split; [done|].
    apply (chain_graft (nx m) (pv m) _ _ HEAD); [done|..].
    + rewrite Hn, decide_False, decide_True by done. done.
    + by rewrite Hp, decide_True.
    + intros j Hj. rewrite Hn, !decide_False; [done|by intros ->|by intros <-].
    + intros j Hj Hne. rewrite Hp, !decide_False; [done| |by intros <-].
      intros ->. by apply Hi.
    + by constructor.
  - apply NoDup_cons; split; [|by apply NoDup_cons].
    intros [?|?]%elem_of_cons; done.
Qed.

(** Taking a buffer out. *)
Definition unlinked (m m' : gmap nat buf) (i : nat) : Prop :=
  (forall j, core (at_ m' j) = core (at_ m j))
  /\ (forall j, nx m' j = if decide (pv m i = j) then nx m i else nx m j)
  /\ (forall j, pv m' j = if decide (nx m i = j) then pv m i else pv m j).


Definition last_of (l : list nat) (a : nat) : nat := foldl (fun _ b => b) a l.
Lemma last_of_elem l a : last_of l a ∈ a :: l.
Proof.
  revert a. induction l as [|b l IH]; intros a; cbn; [by left|]. right. apply IH.
Qed.

Lemma chain_mid nx pv l1 i l2 : forall a, chain nx pv a (l1 ++ i :: l2) ->
  nx i = hd HEAD l2 /\ pv i = last_of l1 a.
Proof.
  induction l1 as [|b l1 IH]; intros a; cbn [app chain].
  - intros (_ & Hp & Hc). by rewrite (chain_first _ _ _ _ Hc).
  - intros (_ & _ & Hc). by destruct (IH b Hc).
Qed.

Lemma chain_unlink nx1 pv1 nx2 pv2 i l1 l2 : forall a, chain nx1 pv1 a (l1 ++ i :: l2) ->
  NoDup (a :: l1 ++ i :: l2) -> NoDup (HEAD :: l1 ++ i :: l2) ->
  nx2 (last_of l1 a) = hd HEAD l2 -> pv2 (hd HEAD l2) = last_of l1 a ->
  (forall j, j ∈ a :: l1 ++ l2 -> j <> last_of l1 a -> nx2 j = nx1 j) ->
  (forall j, j ∈ HEAD :: l1 ++ l2 -> j <> hd HEAD l2 -> pv2 j = pv1 j) ->
  chain nx2 pv2 a (l1 ++ l2).
Proof.
  induction l1 as [|b l1 IH]; intros a Hc Ha Hh E1 E2 Hn Hp; cbn [app chain last_of foldl] in *.
  - destruct Hc as (_ & _ & Hc). apply (chain_graft nx1 pv1 _ _ i); [done|done|done|..].
    + intros j Hj. apply Hn; [by right|]. intros ->. apply NoDup_cons in Ha as [Ha _].
      apply Ha. by right.
    + done.
    + apply NoDup_cons in Hh as [Hh [_ Hnd]%NoDup_cons]. apply NoDup_cons. split; [|done].
      intros ?. apply Hh. by right.
  - destruct Hc as (H1 & H2 & H3). apply NoDup_cons in Ha as [Ha Hb].
    apply NoDup_cons in Hh as [Hh _].
    assert (a <> last_of l1 b) as Hne.
    { intros E. apply Ha. pose proof (last_of_elem l1 b) as Hl. rewrite <- E in Hl.
      apply elem_of_cons in Hl as [->|Hl]; [by left|right; apply elem_of_app; by left]. }
    assert (b <> hd HEAD l2) as Hnb.
    { destruct l2 as [|c l2]; cbn; intros ->.
      - apply Hh. by left.
      - apply NoDup_cons in Hb as [Hb _]. apply Hb. apply elem_of_app. right. right. by left. }
    rewrite Hn by (done || by left). rewrite Hp by (done || (right; by left)).
    split; [done|]. split; [done|]. apply IH; [done|done| |done|done|..].
    + apply NoDup_cons. split; [|by apply NoDup_cons in Hb as [_ Hb]].
      intros ?. apply Hh. by right.
    + intros j Hj. apply Hn. by right.
    + intros j Hj. apply Hp. apply elem_of_cons in Hj as [->|Hj]; [by left|by right; right].
Qed.

Lemma ring_unlink m m' i l1 l2 : ring m (l1 ++ i :: l2) -> unlinked m m' i ->
  ring m' (l1 ++ l2) /\ i ∉ HEAD :: l1 ++ l2.
Proof.
  intros [Hc Hnd] (_ & Hn & Hp). destruct (chain_mid _ _ _ _ _ _ Hc) as [Hni Hpi].
  rewrite Hni, Hpi in Hn, Hp. pose proof Hnd as [Hh Hl]%NoDup_cons.
  assert (NoDup (l1 ++ l2) /\ i ∉ l1 ++ l2) as [Hl' Hi].
  { rewrite <- Permutation_middle in Hl. by apply NoDup_cons in Hl as [? ?]. }
  split.
  - split.
    + apply (chain_unlink (nx m) (pv m) _ _ i l1 l2 HEAD Hc Hnd Hnd).
      * by rewrite Hn, decide_True.
      * by rewrite Hp, decide_True.
      * intros j _ Hj. rewrite Hn, decide_False; [done|by intros <-].
      * intros j _ Hj. rewrite Hp, decide_False; [done|by intros <-].
    + apply NoDup_cons. split; [|done]. intros Hin. apply Hh.
      rewrite elem_of_app in *. destruct Hin; [by left|right; by right].
  - intros [->|?]%elem_of_cons; [|done]. apply Hh, elem_of_app. right. by left.
Qed.

Lemma unlink_ok i q b (Q : unit -> bst -> Prop) : nx (bc_buf b) i <> i ->
  (forall m', unlinked (bc_buf b) m' i -> Q tt (q, update bc_buf_l m' b)) ->
  wp (unlink i) Q (q, b).
Proof.
  intros Hi HQ. unfold unlink. links. rewrite decide_False by done.
  apply HQ. split; [|split]; intros j; by link_facts.
Qed.

(** A buffer of the ring moves to the front. *)
Lemma to_front_ok i q b l1 l2 (Q : unit -> bst -> Prop) : ring (bc_buf b) (l1 ++ i :: l2) ->
  (forall m', ring m' (i :: l1 ++ l2) -> (forall j, core (at_ m' j) = core (at_ (bc_buf b) j)) ->
     Q tt (q, update bc_buf_l m' b)) ->
  wp (_ ← unlink i; push_front i) Q (q, b).
Proof.
  intros Hr HQ. pose proof Hr as [Hc Hnd]. apply wp_bind, unlink_ok.
  - destruct (chain_mid _ _ _ _ _ _ Hc) as [-> _]. apply NoDup_cons in Hnd as [Hh Hnd].
    rewrite <- Permutation_middle in Hnd. apply NoDup_cons in Hnd as [Hi _].
    destruct l2 as [|c l2]; cbn.
    + intros <-. apply Hh, elem_of_app. right. by left.
    + intros ->. apply Hi, elem_of_app. right. by left.
  - intros m1 Hu. destruct (ring_unlink _ _ _ _ _ Hr Hu) as [Hr1 Hi].
    apply push_front_ok; [intros ->; apply Hi; by left|].
    intros m2 Hp. rewrite bufs_view in Hp. rewrite bufs_upd. apply HQ.
    + by apply (ring_push m1).
    + intros j. destruct Hp as [Hp _], Hu as [Hu _]. by rewrite Hp, Hu.
Qed.

(** * Searches *)

(** A walk along [step] from [a] meets [l] and then [z]. *)
Fixpoint visits (step : nat -> nat) (a : nat) (l : list nat) (z : nat) : Prop :=
  match l with
  | [] => step a = z
  | b :: l' => step a = b /\ visits step b l' z
  end.
Lemma visits_snoc step b z l : forall a, visits step a l b -> step b = z ->
  visits step a (l ++ [b]) z.
Proof. induction l as [|x l IH]; intros a; cbn; [by intros -> ?|]. intros [-> H] Hz. by auto. Qed.
Lemma chain_forth nx pv l : forall a, chain nx pv a l -> visits nx a l HEAD.
Proof. induction l as [|b l IH]; intros a; cbn; [by intros [? _]|intros (? & _ & ?); auto]. Qed.
Lemma chain_back nx pv l : forall a, chain nx pv a l -> visits pv HEAD (rev l) a.
Proof.
  induction l as [|b l IH]; intros a; cbn [rev chain]; [by intros [_ ?]|].
  intros (_ & Hp & Hc). apply visits_snoc; [by apply IH|done].
Qed.

(** Whichever way it goes, the search stops at the first match and changes
    nothing. *)
Lemma find_loop (step : lens buf nat) P q b l fuel : forall a,
  visits (fun i => view step (at_ (bc_buf b) i)) a l HEAD -> HEAD ∉ l -> (length l < fuel)%nat ->
  loop fuel (view step (at_ (bc_buf b) a)) (find_turn step P) (q, b)
  = Ret (find (fun i => P (at_ (bc_buf b) i)) l) (q, b).
Proof.
  revert l. induction fuel as [|fuel IH]; intros l a Hv Hh Hf; [lia|].
  cbn [loop]. destruct l as [|x l]; cbn [visits find] in *.
  - rewrite Hv. unfold find_turn. by rewrite Nat.eqb_refl.
  - destruct Hv as [-> Hv]. apply not_elem_of_cons in Hh as [Hx Hh].
    rewrite (bind_ret (find_turn step P x) _ (q, b)
      (if P (at_ (bc_buf b) x) then inr (Some x) else inl (view step (at_ (bc_buf b) x))) (q, b)).
    2:{ unfold find_turn. rewrite (proj2 (Nat.eqb_neq x HEAD)) by done.
        rewrite (bind_ret (rd (bl x)) _ (q, b) (at_ (bc_buf b) x) (q, b)) by reflexivity.
        by destruct (P (at_ (bc_buf b) x)). }
    destruct (P (at_ (bc_buf b) x)); [done|]. apply IH; [done|done|cbn in Hf; lia].
Qed.

(** The ring holds every buffer once. *)
Definition full_ring (m : gmap nat buf) (l : list nat) : Prop :=
  ring m l /\ (l ≡ₚ seq 0 NBUF).

Lemma full_ring_facts m l : full_ring m l ->
  length l = NBUF /\ (HEAD ∉ l) /\ NoDup l /\ (forall i, (i ∈ l) <-> (i < NBUF)%nat).
Proof.
  intros [[_ Hnd] Hp]. apply NoDup_cons in Hnd as [Hh Hnd].
  split; [by rewrite Hp, length_seq|]. split; [done|]. split; [done|].
  intros i. rewrite Hp, elem_of_seq. lia.
Qed.

Lemma find_next P q b l : full_ring (bc_buf b) l ->
  ring_find b_next_l P (q, b) = Ret (find (fun i => P (at_ (bc_buf b) i)) l) (q, b).
Proof.
  intros Hf. destruct (full_ring_facts _ _ Hf) as (Hlen & Hh & _). destruct Hf as [[Hc _] _].
  unfold ring_find. rewrite (bind_ret _ _ _ (nx (bc_buf b) HEAD) (q, b)) by reflexivity.
  apply (find_loop b_next_l); [by eapply chain_forth|done|lia].
Qed.
Lemma find_prev P q b l : full_ring (bc_buf b) l ->
  ring_find b_prev_l P (q, b) = Ret (find (fun i => P (at_ (bc_buf b) i)) (rev l)) (q, b).
Proof.
  intros Hf. destruct (full_ring_facts _ _ Hf) as (Hlen & Hh & _). destruct Hf as [[Hc _] _].
  unfold ring_find. rewrite (bind_ret _ _ _ (pv (bc_buf b) HEAD) (q, b)) by reflexivity.
  apply (find_loop b_prev_l); [by eapply chain_back| |rewrite length_rev; lia].
  by rewrite list_elem_of_In, <- in_rev, <- list_elem_of_In.
Qed.

(** * The cache as a window on the disk *)

Definition NODEV : Z := 2 ^ 32 - 1.
Definition MAXSEC : Z := 2 ^ 23.
Definition sector (b : bio) (n : Z) : list Z :=
  read_bytes (rd_mem b) (sector_addr (rd_base b) n) BSIZE.
Definition free (r : buf) : Prop := sl_locked (b_lock r) = 0.
Definition caches (D n : Z) (r : buf) : bool := (b_dev r =? D) && (b_sectorno r =? n).

(** One device [D] is in use.  A buffer no process holds agrees with the disk
    when it is valid; a sector is in at most one buffer. *)
Record bio_ok (D : Z) (b : bio) (l : list nat) : Prop := {
  bo_lock : unheld (bc_lock b);
  bo_rd : unheld (rd_lock b);
  bo_ring : full_ring (bc_buf b) l;
  bo_sl : forall i, (i < NBUF)%nat -> unheld (sl_lk (b_lock (at_ (bc_buf b) i)));
  bo_dev : forall i, (i < NBUF)%nat -> b_dev (at_ (bc_buf b) i) = D ->
    0 <= b_sectorno (at_ (bc_buf b) i) < MAXSEC;
  bo_uniq : forall i j, (i < NBUF)%nat -> (j < NBUF)%nat ->
    b_dev (at_ (bc_buf b) i) = D -> b_dev (at_ (bc_buf b) j) = D ->
    b_sectorno (at_ (bc_buf b) i) = b_sectorno (at_ (bc_buf b) j) -> i = j;
  bo_ref : forall i, (i < NBUF)%nat -> 0 <= b_refcnt (at_ (bc_buf b) i) < 2 ^ 31;
  bo_free : forall i, (i < NBUF)%nat -> b_refcnt (at_ (bc_buf b) i) = 0 -> free (at_ (bc_buf b) i);
  bo_data : forall i, (i < NBUF)%nat -> free (at_ (bc_buf b) i) ->
    b_valid (at_ (bc_buf b) i) <> 0 -> b_dev (at_ (bc_buf b) i) = D ->
    b_data (at_ (bc_buf b) i) = sector b (b_sectorno (at_ (bc_buf b) i))
}.

(** The same with the ring rearranged. *)
Lemma bio_ok_ring D b l m' l' : bio_ok D b l ->
  (forall j, core (at_ m' j) = core (at_ (bc_buf b) j)) -> full_ring m' l' ->
  bio_ok D (update bc_buf_l m' b) l'.
Proof.
  intros [] Hc Hr.
  assert (forall j, b_valid (at_ m' j) = b_valid (at_ (bc_buf b) j)
    /\ b_dev (at_ m' j) = b_dev (at_ (bc_buf b) j)
    /\ b_sectorno (at_ m' j) = b_sectorno (at_ (bc_buf b) j)
    /\ b_lock (at_ m' j) = b_lock (at_ (bc_buf b) j)
    /\ b_refcnt (at_ m' j) = b_refcnt (at_ (bc_buf b) j)
    /\ b_data (at_ m' j) = b_data (at_ (bc_buf b) j)) as He.
  { intros j. specialize (Hc j). unfold core in Hc. by injection Hc. }
  split; [done|done|done|..]; rewrite ?bufs_view; unfold free in *; intros i; intros;
    repeat match goal with
    | H : context [at_ m' ?j] |- _ => destruct (He j) as (E1 & E2 & E3 & E4 & E5 & E6);
        rewrite ?E1, ?E2, ?E3, ?E4, ?E5, ?E6 in H; clear E1 E2 E3 E4 E5 E6
    end;
    destruct (He i) as (E1 & E2 & E3 & E4 & E5 & E6); rewrite ?E1, ?E2, ?E3, ?E4, ?E5, ?E6; auto.
Qed.

Definition set_buf (b : bio) (i : nat) (r : buf) : bio := update (buf_l i) r b.
Lemma at_set_buf b i r j :
  at_ (bc_buf (set_buf b i r)) j = if decide (i = j) then r else at_ (bc_buf b) j.
Proof. apply at_insert. Qed.
Lemma set_buf_twice b i r r' : set_buf (set_buf b i r) i r' = set_buf b i r'.
Proof. apply (update_update (l := buf_l i)). Qed.
Lemma at_set_eq b i r : at_ (bc_buf (set_buf b i r)) i = r.
Proof. rewrite at_set_buf. by destruct (decide (i = i)). Qed.

Lemma upd_buf_in {T} i (f : lens buf T) v q q0 b :
  update (bl i ⊚ f) v (q, lkc bc_lock_l q0 b)
  = (q, lkc bc_lock_l q0 (set_buf b i (update f v (at_ (bc_buf b) i)))).
Proof. done. Qed.
Lemma get_buf_in {T} i (f : lens buf T) q q0 b :
  view (bl i ⊚ f) (q, lkc bc_lock_l q0 b) = view f (at_ (bc_buf b) i).
Proof. done. Qed.
Lemma upd_buf {T} i (f : lens buf T) v q b :
  update (bl i ⊚ f) v (q, b) = (q, set_buf b i (update f v (at_ (bc_buf b) i))).
Proof. done. Qed.
Lemma get_buf {T} i (f : lens buf T) q b : view (bl i ⊚ f) (q, b) = view f (at_ (bc_buf b) i).
Proof. done. Qed.
Lemma ring_in q b : bc_buf (lkc bc_lock_l q b) = bc_buf b.
Proof. done. Qed.
Ltac brun :=
  repeat first
   [ progress (rewrite ?upd_buf_in, ?get_buf_in, ?set_buf_twice, ?at_set_eq; cbn beta iota)
   | wp_step ].

Lemma bio_ok_set D b l i r : bio_ok D b l -> (i < NBUF)%nat ->
  b_next r = b_next (at_ (bc_buf b) i) -> b_prev r = b_prev (at_ (bc_buf b) i) ->
  unheld (sl_lk (b_lock r)) ->
  (b_dev r = D -> 0 <= b_sectorno r < MAXSEC) ->
  (b_dev r = D -> forall j, (j < NBUF)%nat -> j <> i -> b_dev (at_ (bc_buf b) j) = D ->
     b_sectorno (at_ (bc_buf b) j) <> b_sectorno r) ->
  0 <= b_refcnt r < 2 ^ 31 -> (b_refcnt r = 0 -> free r) ->
  (free r -> b_valid r <> 0 -> b_dev r = D -> b_data r = sector b (b_sectorno r)) ->
  bio_ok D (set_buf b i r) l.
Proof.
  intros [] Hi Hn Hp Hl Hdev Huniq Href Hfree Hdata. split; [done|done|..].
  - destruct bo_ring0 as [[Hc Hnd] Hperm]. split; [split|]; [|done|done].
    apply (ring_chain_ext (nx (bc_buf b)) (pv (bc_buf b))); [done|..];
      intros j _; unfold nx, pv; rewrite at_set_buf; destruct (decide (i = j)) as [<-|]; done.
  - intros j Hj. rewrite at_set_buf. destruct (decide (i = j)) as [<-|]; auto.
  - intros j Hj. rewrite at_set_buf. destruct (decide (i = j)) as [<-|]; auto.
  - intros j k Hj Hk. rewrite !at_set_buf.
    destruct (decide (i = j)) as [<-|Hij], (decide (i = k)) as [<-|Hik]; intros Hdj Hdk E.
    + done.
    + exfalso. symmetry in E. revert E. apply Huniq; [done|done|congruence|done].
    + exfalso. revert E. apply Huniq; [done|done|congruence|done].
    + auto.
  - intros j Hj. rewrite at_set_buf. destruct (decide (i = j)) as [<-|]; auto.
  - intros j Hj. rewrite at_set_buf. destruct (decide (i = j)) as [<-|]; auto.
  - intros j Hj. rewrite at_set_buf.
    change (sector (set_buf b i r)) with (sector b). destruct (decide (i = j)) as [<-|]; auto.
Qed.

(** Which buffer [bget] settles on, and what it turns it into. *)
Definition claim (r : buf) : buf :=
  Buf (b_valid r) (b_dev r) (b_sectorno r) (b_lock r) (u32 (b_refcnt r + 1)) (b_prev r) (b_next r)
    (b_data r).
Definition recycle (D n : Z) (r : buf) : buf :=
  Buf 0 D n (b_lock r) 1 (b_prev r) (b_next r) (b_data r).
Definition with_lock (l : sleeplock) (r : buf) : buf := update b_lock_l l r.
Definition pick (D n : Z) (b : bio) (l : list nat) : option (nat * buf) :=
  match find (fun i => caches D n (at_ (bc_buf b) i)) l with
  | Some i => Some (i, claim (at_ (bc_buf b) i))
  | None =>
      match find (fun i => b_refcnt (at_ (bc_buf b) i) =? 0) (rev l) with
      | Some i => Some (i, recycle D n (at_ (bc_buf b) i))
      | None => None
      end
  end.

Lemma pick_lt D n b l i r : full_ring (bc_buf b) l -> pick D n b l = Some (i, r) -> (i < NBUF)%nat.
Proof.
  intros Hf. destruct (full_ring_facts _ _ Hf) as (_ & _ & _ & Hin). unfold pick.
  destruct (find _ l) as [j|] eqn:E1; [|destruct (find _ (rev l)) as [j|] eqn:E2];
    intros [= <- <-]; apply Hin, list_elem_of_In.
  - by apply find_some in E1 as [? _].
  - apply find_some in E2 as [? _]. by apply in_rev.
Qed.

(** What [bget] needs of the buffer it settles on. *)
Definition avail (D n : Z) (b : bio) (l : list nat) (i : nat) (r : buf) : Prop :=
  pick D n b l = Some (i, r) /\ free (at_ (bc_buf b) i) /\ b_refcnt (at_ (bc_buf b) i) < 2 ^ 31 - 1.

Lemma pick_facts D n b l i r : bio_ok D b l -> avail D n b l i r ->
  (i < NBUF)%nat /\ b_dev r = D /\ b_sectorno r = n
  /\ b_next r = b_next (at_ (bc_buf b) i) /\ b_prev r = b_prev (at_ (bc_buf b) i)
  /\ b_lock r = b_lock (at_ (bc_buf b) i) /\ 0 < b_refcnt r < 2 ^ 31
  /\ (b_valid r <> 0 -> b_data r = sector b n)
  /\ (forall j, (j < NBUF)%nat -> j <> i -> b_dev (at_ (bc_buf b) j) = D ->
       b_sectorno (at_ (bc_buf b) j) <> n).
Proof.
  intros Hok (Hp & Hf & Hr). pose proof (pick_lt _ _ _ _ _ _ (bo_ring _ _ _ Hok) Hp) as Hi.
  pose proof (full_ring_facts _ _ (bo_ring _ _ _ Hok)) as (_ & _ & _ & Hin).
  pose proof (bo_ref _ _ _ Hok i Hi) as Href.
  split; [done|]. unfold pick in Hp. destruct (find _ l) as [j|] eqn:E1.
  - injection Hp as -> <-. apply find_some in E1 as [_ [Hd%Z.eqb_eq Hs%Z.eqb_eq]%andb_prop].
    do 5 (split; [done|]). split; [|split].
    + cbn [claim b_refcnt]. rewrite u32_small; lia.
    + intros Hv. cbn. rewrite <- Hs. by apply (bo_data _ _ _ Hok).
    + intros j Hj Hne Hdj E. apply Hne. apply (bo_uniq _ _ _ Hok); [done|done|done|done|].
      by rewrite E, Hs.
  - destruct (find _ (rev l)) as [j|]; [|done]. injection Hp as -> <-.
    do 5 (split; [done|]). split; [cbn; lia|]. split; [done|].
    intros j Hj _ Hdj E. apply Hin, list_elem_of_In in Hj.
    pose proof (find_none _ _ E1 j Hj) as Hn. cbv beta in Hn. unfold caches in Hn.
    by rewrite Hdj, E, !Z.eqb_refl in Hn.
Qed.

Lemma upd_rd {T} i (f : lens buf T) v q q0 b :
  update (bl i ⊚ f) v (q, lkc rd_lock_l q0 b)
  = (q, lkc rd_lock_l q0 (set_buf b i (update f v (at_ (bc_buf b) i)))).
Proof. done. Qed.
Lemma get_rd {T} i (f : lens buf T) q q0 b :
  view (bl i ⊚ f) (q, lkc rd_lock_l q0 b) = view f (at_ (bc_buf b) i).
Proof. done. Qed.

Lemma wp_disk_read i q b (Q : unit -> bst -> Prop) :
  settled (view hart_l q) -> unheld (rd_lock b) ->
  Q tt (q, set_buf b i (update b_data_l (sector b (b_sectorno (at_ (bc_buf b) i))) (at_ (bc_buf b) i))) ->
  wp (disk_read i) Q (q, b).
Proof.
  intros Hh Hl HQ. unfold disk_read, ramdisk_read.
  apply wp_bind, (wp_lock rd_lock_l); [done|exact Hl|]. wp_run. rewrite upd_rd, get_rd.
  by apply (wp_unlock rd_lock_l).
Qed.

Lemma wp_disk_write i q b (Q : unit -> bst -> Prop) :
  settled (view hart_l q) -> unheld (rd_lock b) ->
  Q tt (q, update rd_mem_l (write_bytes (rd_mem b)
             (sector_addr (rd_base b) (b_sectorno (at_ (bc_buf b) i))) (b_data (at_ (bc_buf b) i))) b) ->
  wp (disk_write i) Q (q, b).
Proof.
  intros Hh Hl HQ. unfold disk_write, ramdisk_write.
  apply wp_bind, (wp_lock rd_lock_l); [done|exact Hl|]. wp_run. rewrite !get_rd.
  apply (wp_unlock rd_lock_l q
    (update rd_mem_l (write_bytes (rd_mem b)
             (sector_addr (rd_base b) (b_sectorno (at_ (bc_buf b) i))) (b_data (at_ (bc_buf b) i))) b));
    [done|exact Hl|done].
Qed.

Section Ops.
Variables (D : Z) (fuel p : nat).
Hypothesis fuel_pos : (0 < fuel)%nat.

Lemma wp_lock_buf i q b r (Q : unit -> bst -> Prop) :
  runs p q -> at_ (bc_buf b) i = r -> unheld (sl_lk (b_lock r)) -> free r ->
  Q tt (q, set_buf b i (with_lock (held (p_pid (view (proc_l p) q)) (b_lock r)) r)) ->
  wp (zoom (bsl i) (acquiresleep (BUFCHAN i) fuel)) Q (q, b).
Proof using fuel_pos.
  intros Hr <- Hl Hf HQ. apply wp_zoom.
  apply (wp_acquiresleep (BUFCHAN i) fuel p q (b_lock (at_ (bc_buf b) i))); done.
Qed.

Lemma wp_bget n q b l i r (Q : nat -> bst -> Prop) :
  runs p q -> bio_ok D b l -> pick D n b l = Some (i, r) -> free (at_ (bc_buf b) i) ->
  Q i (q, set_buf b i (with_lock (held (p_pid (view (proc_l p) q)) (b_lock r)) r)) ->
  wp (bget fuel D n) Q (q, b).
Proof using fuel_pos.
  intros Hr Hok Hpick Hfree HQ. pose proof (runs_settled _ _ Hr) as Hh.
  pose proof (pick_lt _ _ _ _ _ _ (bo_ring _ _ _ Hok) Hpick) as Hi.
  pose proof (bo_sl _ _ _ Hok i Hi) as Hsl.
  unfold bget. apply wp_bind, (wp_lock bc_lock_l); [done|apply Hok|].
  apply wp_bind. eapply wp_eq; [apply (find_next _ _ (lkc bc_lock_l q b) l), Hok|].
  rewrite ring_in. unfold pick, caches in Hpick.
  destruct (find _ l) as [j|].
  - injection Hpick as <- <-. brun.
    apply (wp_unlock bc_lock_l q (set_buf b j (claim (at_ (bc_buf b) j)))); [done|apply Hok|].
    apply wp_bind. apply (wp_lock_buf j q _ (claim (at_ (bc_buf b) j))); [done|apply at_set_eq|done|done|].
    apply wp_mret. by rewrite set_buf_twice.
  - apply wp_bind. eapply wp_eq; [apply (find_prev _ _ (lkc bc_lock_l q b) l), Hok|].
    rewrite ring_in. destruct (find _ (rev l)) as [j|]; [|done].
    injection Hpick as <- <-. brun.
    apply (wp_unlock bc_lock_l q (set_buf b j (recycle D n (at_ (bc_buf b) j)))); [done|apply Hok|].
    apply wp_bind. apply (wp_lock_buf j q _ (recycle D n (at_ (bc_buf b) j))); [done|apply at_set_eq|done|done|].
    apply wp_mret. by rewrite set_buf_twice.
Qed.

(** The buffer [bread] returns. *)
Definition got (pid n : Z) (b : bio) (r : buf) : buf :=
  Buf (if b_valid r =? 0 then 1 else b_valid r) (b_dev r) (b_sectorno r) (held pid (b_lock r))
    (b_refcnt r) (b_prev r) (b_next r) (sector b n).

Lemma wp_bread n q b l i r (Q : nat -> bst -> Prop) :
  runs p q -> bio_ok D b l -> avail D n b l i r -> 0 <= n < MAXSEC ->
  let g := got (p_pid (view (proc_l p) q)) n b r in
  (bio_ok D (set_buf b i g) l -> Q i (q, set_buf b i g)) ->
  wp (bread fuel D n) Q (q, b).
Proof using fuel_pos.
  intros Hr Hok Ha Hn g HQ. pose proof (runs_settled _ _ Hr) as Hh.
  pose proof (pick_facts _ _ _ _ _ _ Hok Ha) as (Hi & Hd & Hs & Hnx & Hpv & Hlk & Href & Hdat & Hun).
  pose proof Ha as (Hp & Hf & _). pose proof (bo_sl _ _ _ Hok i Hi) as Hsl.
  assert (bio_ok D (set_buf b i g) l) as Hok'.
  { apply bio_ok_set; [done|done|done|done|..].
    - cbn. by rewrite Hlk.
    - intros _. cbn. by rewrite Hs.
    - intros _. cbn. rewrite Hs. done.
    - cbn. lia.
    - cbn. lia.
    - intros Hfr. discriminate Hfr. }
  specialize (HQ Hok'). unfold bread. apply wp_bind, (wp_bget n q b l i r); [done..|].
  set (r1 := with_lock _ r). apply wp_bind, wp_rd. rewrite get_buf, at_set_eq.
  change (view b_valid_l r1) with (b_valid r). unfold truth. rewrite negb_involutive.
  destruct (Z.eqb_spec (b_valid r) 0) as [E|E]; unfold when; apply wp_bind.
  - apply wp_bind, wp_disk_read; [done|apply Hok|]. rewrite at_set_eq, set_buf_twice. wp_run.
    rewrite upd_buf, at_set_eq, set_buf_twice. change (sector (set_buf b i r1)) with (sector b).
    change (b_sectorno r1) with (b_sectorno r). rewrite Hs.
    unfold g, got in HQ. by rewrite E in HQ.
  - wp_run. replace r1 with g; [done|]. unfold g, got, r1, with_lock.
    rewrite (proj2 (Z.eqb_neq _ _) E). rewrite <- (Hdat E). by destruct r.
Qed.

End Ops.

(** What giving a lock back leaves alone in the process layer: memory, the
    processor, and the running process but for its state. *)
Record same_env (p : nat) (q q' : pst) : Prop := {
  se_k : view s_k_l q' = view s_k_l q;
  se_pid : p_pid (view (proc_l p) q') = p_pid (view (proc_l p) q);
  se_pt : p_pagetable (view (proc_l p) q') = p_pagetable (view (proc_l p) q);
  se_cwd : p_cwd (view (proc_l p) q') = p_cwd (view (proc_l p) q)
}.
#[export] Instance same_env_refl p : Reflexive (same_env p).
Proof. by split. Qed.
#[export] Instance same_env_trans p : Transitive (same_env p).
Proof. intros q1 q2 q3 [a b c d] [a' b' c' d']. split; etrans; eauto. Qed.
Lemma woken_env p ch q q' : woken_all ch q q' -> same_env p q q'.
Proof.
  intros [_ (procs' & -> & Hp)].
  assert (entry procs' p = woken ch (entry (s_procs q) p) \/ entry procs' p = entry (s_procs q) p) as H
    by (rewrite Hp; destruct (decide (p < 50)%nat); auto).
  split; [done|..]; change (view (proc_l p) (update s_procs_l procs' q)) with (entry procs' p);
    change (view (proc_l p) q) with (entry (s_procs q) p);
    destruct H as [-> | ->]; try done; unfold woken; by destruct (_ && _).
Qed.

Section Release.
Variables (D : Z) (p : nat).

(** The caller owns buffer [i]. *)
Record mine (pid : Z) (b : bio) (i : nat) : Prop := {
  mi_lt : (i < NBUF)%nat;
  mi_locked : sl_locked (b_lock (at_ (bc_buf b) i)) = 1;
  mi_pid : sl_pid (b_lock (at_ (bc_buf b) i)) = pid;
  mi_dev : b_dev (at_ (bc_buf b) i) = D;
  mi_ref : 0 < b_refcnt (at_ (bc_buf b) i)
}.

(** The state after a look at the lock: equal to [b] entry by entry. *)
Abbreviation same b i := (set_buf b i (at_ (bc_buf b) i)).
Lemma at_same b i j : at_ (bc_buf (same b i)) j = at_ (bc_buf b) j.
Proof using Type. rewrite at_set_buf. by destruct (decide (i = j)) as [->|]. Qed.
Lemma same_ok b l i : bio_ok D b l -> bio_ok D (same b i) l.
Proof using Type.
  intros Hok. apply (bio_ok_ring D b l (bc_buf (same b i)) l Hok).
  - intros j. by rewrite at_same.
  - destruct Hok as [_ _ [[Hc Hnd] Hp] _ _ _ _ _ _]. split; [split|]; [|done|done].
    apply (ring_chain_ext (nx (bc_buf b)) (pv (bc_buf b))); [done|..];
      intros j _; unfold nx, pv; by rewrite at_same.
Qed.

Lemma wp_mine i q b l (Q : bool -> bst -> Prop) :
  runs p q -> bio_ok D b l -> mine (p_pid (view (proc_l p) q)) b i ->
  Q true (q, same b i) -> wp (zoom (bsl i) holdingsleep) Q (q, b).
Proof using Type.
  intros Hr Hok [Hi Hl Hp _ _] HQ. apply wp_zoom.
  apply (wp_holdingsleep p q (b_lock (at_ (bc_buf b) i))); [done|by apply (bo_sl _ _ _ Hok)|].
  rewrite Hl, Hp, Z.eqb_refl. cbn [truth].
  replace (same b i) with (set_buf b i (with_lock (b_lock (at_ (bc_buf b) i)) (at_ (bc_buf b) i)))
    in HQ by (unfold with_lock; by rewrite (update_view (l := b_lock_l))).
  exact HQ.
Qed.

(** Distinct sectors of the device are disjoint in the image. *)
Lemma sector_disjoint base n m : 0 <= n < MAXSEC -> 0 <= m < MAXSEC -> n <> m ->
  sector_addr base n + BSIZE <= sector_addr base m
  \/ sector_addr base m + BSIZE <= sector_addr base n.
Proof using Type.
  unfold sector_addr, MAXSEC, BSIZE. intros. rewrite !u32_small by lia. lia.
Qed.

Lemma wp_bwrite i q b l (Q : unit -> bst -> Prop) :
  runs p q -> bio_ok D b l -> mine (p_pid (view (proc_l p) q)) b i ->
  let r := at_ (bc_buf b) i in
  length (b_data r) = 512%nat -> bytes (b_data r) ->
  (forall b', bio_ok D b' l -> (forall j, at_ (bc_buf b') j = at_ (bc_buf b) j) ->
     rd_base b' = rd_base b ->
     sector b' (b_sectorno r) = b_data r ->
     (forall n, 0 <= n < MAXSEC -> n <> b_sectorno r -> sector b' n = sector b n) ->
     Q tt (q, b')) ->
  wp (bwrite i) Q (q, b).
Proof using Type.
  intros Hr Hok Hm r Hlen Hb HQ. pose proof (runs_settled _ _ Hr) as Hh.
  pose proof (same_ok b l i Hok) as Hok1. pose proof Hm as [Hi Hlk _ Hd _].
  pose proof (bo_dev _ _ _ Hok i Hi Hd) as Hs.
  unfold bwrite. apply wp_bind, (wp_mine i q b l); [done..|]. cbn [negb].
  apply wp_disk_write; [done|apply Hok1|]. rewrite at_same. fold r.
  set (b' := update rd_mem_l (write_bytes (rd_mem (same b i))
    (sector_addr (rd_base (same b i)) (b_sectorno r)) (b_data r)) (same b i)).
  assert (forall n, 0 <= n < MAXSEC -> n <> b_sectorno r -> sector b' n = sector b n) as Hother.
  { intros n Hn Hne. apply read_write_bytes_out. rewrite Hlen.
    by apply sector_disjoint. }
  assert (sector b' (b_sectorno r) = b_data r) as Hsame.
  { unfold sector, BSIZE. cbn. rewrite <- (read_write_bytes (rd_mem b) (sector_addr (rd_base b) (b_sectorno r))
      (b_data r) Hb) at 2. by rewrite Hlen. }
  apply HQ; [|apply at_same|done|done|done].
  destruct Hok1 as [h1 h2 h3 h4 h5 h6 h7 h8 h9].
  split; [exact h1|exact h2|exact h3|exact h4|exact h5|exact h6|exact h7|exact h8|].
  assert (forall j, at_ (bc_buf b') j = at_ (bc_buf b) j) as Hat by (intros j; apply at_same).
  intros j Hj. rewrite !Hat. intros Hf Hv Hdj. rewrite (bo_data _ _ _ Hok j Hj Hf Hv Hdj).
  symmetry. apply Hother; [by apply (bo_dev _ _ _ Hok)|]. intros E.
  assert (j = i) as -> by (apply (bo_uniq _ _ _ Hok); done).
  unfold free in Hf. by rewrite Hlk in Hf.
Qed.

(** What is left of a buffer released: unlocked, one reference less. *)
Definition released (r : buf) : buf :=
  Buf (b_valid r) (b_dev r) (b_sectorno r) (open (b_lock r)) (b_refcnt r - 1) (b_prev r) (b_next r)
    (b_data r).

Lemma wp_brelse i q b l1 l2 (Q : unit -> bst -> Prop) :
  runs p q -> bio_ok D b (l1 ++ i :: l2) -> mine (p_pid (view (proc_l p) q)) b i ->
  let r := at_ (bc_buf b) i in
  (b_valid r <> 0 -> b_data r = sector b (b_sectorno r)) ->
  (forall q' b' l', runs p q' -> bio_ok D b' l' ->
     l' = (if b_refcnt r =? 1 then i :: l1 ++ l2 else l1 ++ i :: l2) ->
     (forall j, core (at_ (bc_buf b') j)
        = core (if decide (i = j) then released r else at_ (bc_buf b) j)) ->
     rd_mem b' = rd_mem b -> rd_base b' = rd_base b ->
     same_env p q q' -> Q tt (q', b')) ->
  wp (brelse i) Q (q, b).
Proof using Type.
  intros Hr Hok Hm r Hv HQ. pose proof (runs_settled _ _ Hr) as Hh.
  pose proof (same_ok b _ i Hok) as Hok1. pose proof Hm as [Hi Hlk _ Hd Href].
  pose proof (bo_sl _ _ _ Hok i Hi) as Hsl. pose proof (bo_ref _ _ _ Hok i Hi) as Hrb.
  unfold brelse. apply wp_bind, (wp_mine i q b _ _ Hr Hok Hm). cbn [negb].
  apply wp_bind, wp_zoom.
  change (view (bsl i) (q, same b i)) with (q, b_lock (at_ (bc_buf (same b i)) i)).
  rewrite at_same. apply (wp_releasesleep _ p); [done|done|]. intros q1 Hw Hr1.
  pose proof (runs_settled _ _ Hr1) as Hh1.
  change (update (bsl i) (q1, open (b_lock (at_ (bc_buf b) i))) (q, same b i))
    with (q1, set_buf (same b i) i (with_lock (open (b_lock (at_ (bc_buf b) i))) (at_ (bc_buf (same b i)) i))).
  rewrite set_buf_twice, at_same. fold r.
  set (b1 := set_buf b i (with_lock _ r)).
  apply wp_bind, (wp_lock bc_lock_l); [done|apply Hok|]. apply wp_bind, wp_md.
  rewrite get_buf_in, upd_buf_in. unfold b1. rewrite at_set_eq, set_buf_twice.
  replace (update b_refcnt_l _ _) with (released r).
  2:{ unfold released, with_lock. destruct r as [v d se lk rc pr nx da] eqn:Er.
      assert (b_refcnt (at_ (bc_buf b) i) = rc) as Erc by (fold r; by rewrite Er).
      cbn. rewrite u32_small; [done|lia]. }
  assert (bio_ok D (set_buf b i (released r)) (l1 ++ i :: l2)) as Hok2.
  { apply bio_ok_set; [done|done|done|done|done|intros _|intros _|
      change (0 <= b_refcnt r - 1 < 2 ^ 31); fold r in Hrb, Href; lia|done|].
    - exact (bo_dev _ _ _ Hok i Hi Hd).
    - intros j Hj Hne Hdj E. apply Hne. by apply (bo_uniq _ _ _ Hok).
    - intros _ Hvr _. exact (Hv Hvr). }
  apply wp_bind, wp_rd. rewrite get_buf_in, at_set_eq.
  change (view b_refcnt_l (released r)) with (b_refcnt r - 1).
  assert (same_env p q q1) as Hpid by (by eapply woken_env).
  apply wp_bind. destruct (Z.eqb_spec (b_refcnt r - 1) 0) as [E|E]; unfold when.
  - pose proof (bo_ring _ _ _ Hok2) as [Hring Hperm].
    apply (to_front_ok i (inq q1) (lkc bc_lock_l q1 (set_buf b i (released r))) l1 l2 _ Hring).
    intros m' Hr' Hcore.
    apply (wp_unlock bc_lock_l q1 (update bc_buf_l m' (set_buf b i (released r)))); [done|apply Hok|].
    apply (HQ q1 _ (i :: l1 ++ l2)); [done| | |..|done|done|done].
    + apply (bio_ok_ring D _ _ _ _ Hok2 Hcore). split; [done|].
      by rewrite Permutation_middle.
    + by rewrite (proj2 (Z.eqb_eq _ _)) by lia.
    + intros j. rewrite bufs_view, Hcore. change (bc_buf (lkc bc_lock_l q1 ?x)) with (bc_buf x).
      by rewrite at_set_buf.
  - apply wp_mret. apply (wp_unlock bc_lock_l q1 (set_buf b i (released r))); [done|apply Hok|].
    apply (HQ q1 _ (l1 ++ i :: l2)); [done|done| |..|done|done|done].
    + by rewrite (proj2 (Z.eqb_neq _ _)) by lia.
    + intros j. by rewrite at_set_buf.
Qed.
End Release.

(** * Boot *)

(** A buffer as [binit] leaves it. *)
Definition fresh (r : buf) : Prop :=
  b_refcnt r = 0 /\ b_dev r = NODEV /\ sl_locked (b_lock r) = 0 /\ unheld (sl_lk (b_lock r)).
Lemma fresh_core r r' : core r = core r' -> fresh r -> fresh r'.
Proof. unfold core, fresh. intros [= E1 E2 E3 E4 E5 E6] H. by rewrite <- E2, <- E4, <- E5. Qed.

Definition fresh_buf (n : nat) (r : buf) : buf :=
  Buf (b_valid r) NODEV NODEV (Sleeplock 0 (Spin 0 "sleep lock" None) "buffer" 0) 0 HEAD n (b_data r).

Lemma nx_set_buf b i r j : nx (bc_buf (set_buf b i r)) j = if decide (i = j) then b_next r else nx (bc_buf b) j.
Proof. unfold nx. rewrite at_set_buf. by destruct (decide (i = j)). Qed.
Lemma pv_set_buf b i r j : pv (bc_buf (set_buf b i r)) j = if decide (i = j) then b_prev r else pv (bc_buf b) j.
Proof. unfold pv. rewrite at_set_buf. by destruct (decide (i = j)). Qed.

Lemma binit_body_ok i q b l (Q : unit -> bst -> Prop) : ring (bc_buf b) l -> i ∉ HEAD :: l ->
  (forall m', ring m' (i :: l) -> fresh (at_ m' i) ->
     (forall j, j <> i -> core (at_ m' j) = core (at_ (bc_buf b) j)) ->
     Q tt (q, update bc_buf_l m' b)) ->
  wp (binit_body i) Q (q, b).
Proof.
  intros Hr Hi HQ. assert (i <> HEAD) as Hih by (intros ->; apply Hi; by left).
  pose (b1 := set_buf b i (fresh_buf (nx (bc_buf b) HEAD) (at_ (bc_buf b) i))).
  assert (binit_body i (q, b) = (n ← rd (bl HEAD ⊚ b_next_l); _ ← bl n ⊚ b_prev_l <~ i;
                                 bl HEAD ⊚ b_next_l <~ i) (q, b1)) as E.
  { unfold binit_body.
    rewrite (bind_ret _ _ _ tt (q, set_buf b i (update b_refcnt_l 0 (at_ (bc_buf b) i)))) by done.
    erewrite bind_ret by (unfold wr, modify; by rewrite upd_buf, at_set_eq, set_buf_twice).
    erewrite bind_ret by (unfold wr, modify; by rewrite upd_buf, at_set_eq, set_buf_twice).
    erewrite bind_ret by (unfold rd, gets; by rewrite get_next, nx_set_buf, decide_False).
    erewrite bind_ret by (unfold wr, modify; by rewrite upd_buf, at_set_eq, set_buf_twice).
    erewrite bind_ret by (unfold wr, modify; by rewrite upd_buf, at_set_eq, set_buf_twice).
    match goal with |- (zoom (bsl i) _ ≫= ?f) (q, set_buf b i ?r) = _ =>
      rewrite (bind_ret _ f _ tt (q, set_buf (set_buf b i r) i (with_lock
        (Sleeplock 0 (Spin 0 "sleep lock" None) "buffer" 0) (at_ (bc_buf (set_buf b i r)) i)))) by done
    end.
    rewrite at_set_eq, set_buf_twice. done. }
  unfold wp. rewrite E. clear E. fold (wp (n ← rd (bl HEAD ⊚ b_next_l); _ ← bl n ⊚ b_prev_l <~ i;
                                 bl HEAD ⊚ b_next_l <~ i) Q (q, b1)).
  assert (ring (bc_buf b1) l) as Hr1.
  { destruct Hr as [Hc Hnd]. split; [|done].
    apply (ring_chain_ext (nx (bc_buf b)) (pv (bc_buf b))); [done|..]; intros j Hj; unfold b1;
      rewrite ?nx_set_buf, ?pv_set_buf, decide_False; [done|by intros ->|done|by intros ->]. }
  assert (nx (bc_buf b1) i = nx (bc_buf b1) HEAD) as En.
  { unfold b1. by rewrite !nx_set_buf, decide_True, decide_False. }
  assert (pv (bc_buf b1) i = HEAD) as Ep by (unfold b1; by rewrite pv_set_buf, decide_True).
  links. set (n := nx (bc_buf b1) HEAD) in *.
  set (m' := set_next (set_prev (bc_buf b1) n i) HEAD i).
  change (update bc_buf_l m' b1) with (update bc_buf_l m' b).
  assert (forall j, core (at_ m' j) = core (at_ (bc_buf b1) j)) as Hcore
    by (intros j; unfold m'; by link_facts).
  apply HQ.
  - apply (ring_push (bc_buf b1)); [done|done|]. split; [done|]. fold n.
    split; intros j; unfold m'; link_facts.
    + destruct (decide (HEAD = j)); [done|]. by destruct (decide (i = j)) as [<-|].
    + destruct (decide (n = j)); [done|]. by destruct (decide (i = j)) as [<-|].
  - apply (fresh_core (at_ (bc_buf b1) i)); [done|]. unfold b1. by rewrite at_set_eq.
  - intros j Hj. rewrite Hcore. unfold b1. by rewrite at_set_buf, decide_False.
Qed.

Definition idle (b : bio) : Prop := forall i, (i < NBUF)%nat -> b_refcnt (at_ (bc_buf b) i) = 0.

Lemma wp_binit_ring D q b : D <> NODEV -> unheld (rd_lock b) ->
  wp binit_ring (fun _ '(q', b') => q' = q /\ bio_ok D b' (rev (seq 0 NBUF)) /\ idle b'
    /\ rd_mem b' = rd_mem b /\ rd_base b' = rd_base b) (q, b).
Proof.
  intros HD Hrd. unfold binit_ring. apply wp_bind, wp_wr. links.
  set (b0 := update bc_buf_l (set_next (set_prev (bc_buf b) HEAD HEAD) HEAD HEAD)
               (update bc_lock_l (Spin 0 "bcache" None) b)).
  match goal with |- wp _ _ ?s => change s with (q, b0) end.
  apply (wp_for_each _ (fun done s => exists b', s = (q, b') /\ ring (bc_buf b') (rev done)
    /\ (forall i, i ∈ done -> fresh (at_ (bc_buf b') i))
    /\ bc_lock b' = Spin 0 "bcache" None /\ rd_lock b' = rd_lock b /\ rd_mem b' = rd_mem b
    /\ rd_base b' = rd_base b)).
  - exists b0. split; [done|]. split; [|split; [by intros i ?%elem_of_nil|done]]. split.
    + unfold b0. cbn [chain rev]. link_facts. by rewrite !decide_True.
    + apply NoDup_singleton.
  - intros dn i rest s El (b' & -> & Hr & Hf & Hb). eapply binit_body_ok; [done| |].
    + assert (i < NBUF)%nat as Hi.
      { assert (i ∈ seq 0 NBUF) as Hin by (rewrite El; apply elem_of_app; right; by left).
        rewrite elem_of_seq in Hin. lia. }
      intros [->|Hin]%elem_of_cons; [by unfold HEAD in Hi; lia|].
      pose proof (NoDup_seq 0 NBUF) as Hnd. rewrite El in Hnd.
      rewrite <- Permutation_middle in Hnd. apply NoDup_cons in Hnd as [Hnd _]. apply Hnd.
      apply elem_of_app. left. by apply list_elem_of_In, in_rev, list_elem_of_In.
    + intros m' Hr' Hfi Hcore. exists (update bc_buf_l m' b'). split; [done|].
      rewrite rev_app_distr. split; [done|]. split; [|done]. intros j [Hj| ->%list_elem_of_singleton]%elem_of_app; [|done].
      destruct (decide (j = i)) as [->|Hne]; [done|].
      apply (fresh_core (at_ (bc_buf b') j)); [symmetry; by apply Hcore|by apply Hf].
  - intros s (b' & -> & Hr & Hf & El & Erd & Em & Eb). split; [done|].
    assert (forall i, (i < NBUF)%nat -> fresh (at_ (bc_buf b') i)) as Hfr
      by (intros i Hi; apply Hf, elem_of_seq; lia).
    split; [|split; [|done]].
    + split; [by unfold unheld; rewrite El|by rewrite Erd| |..].
      * split; [done|]. symmetry. apply Permutation_rev.
      * intros i Hi. apply Hfr, Hi.
      * intros i Hi Hd. destruct (Hfr i Hi) as (_ & E & _). congruence.
      * intros i j Hi _ Hd. destruct (Hfr i Hi) as (_ & E & _). congruence.
      * intros i Hi. destruct (Hfr i Hi) as (-> & _). lia.
      * intros i Hi _. apply Hfr, Hi.
      * intros i Hi _ _ Hd. destruct (Hfr i Hi) as (_ & E & _). congruence.
    + intros i Hi. apply Hfr, Hi.
Qed.

(** * The cache refines an array of sectors *)

Definition read_block (fuel : nat) (D n : Z) : M bst (list Z) :=
  i ← bread fuel D n;
  d ← rd (bl i ⊚ b_data_l);
  _ ← brelse i;
  mret d.
Definition write_block (fuel : nat) (D n : Z) (d : list Z) : M bst unit :=
  i ← bread fuel D n;
  _ ← bl i ⊚ b_data_l <~ d;
  _ ← bwrite i;
  brelse i.

Lemma idle_avail D n b l : bio_ok D b l -> idle b -> exists i r, avail D n b l i r.
Proof.
  intros Hok Hidle. pose proof (full_ring_facts _ _ (bo_ring _ _ _ Hok)) as (Hlen & _ & _ & Hin).
  assert (exists i r, pick D n b l = Some (i, r)) as (i & r & Hp).
  { unfold pick. destruct (find _ l) as [i|]; [by do 2 eexists|].
    destruct (find _ (rev l)) as [i|] eqn:E; [by do 2 eexists|].
    destruct l as [|x l]; [pose proof NBUF_pos; cbn in Hlen; lia|].
    assert (x ∈ x :: l) as Hx by by left. pose proof Hx as Hx'. rewrite Hin in Hx'.
    rewrite list_elem_of_In in Hx. apply in_rev in Hx.
    pose proof (find_none _ _ E x Hx) as Hn. cbv beta in Hn. by rewrite (Hidle x Hx') in Hn. }
  exists i, r. split; [done|]. pose proof (pick_lt _ _ _ _ _ _ (bo_ring _ _ _ Hok) Hp) as Hi.
  split; [by apply (bo_free _ _ _ Hok), Hidle|]. rewrite Hidle by done. lia.
Qed.

Lemma got_mine D pid n b l i r : bio_ok D b l -> avail D n b l i r ->
  mine D pid (set_buf b i (got pid n b r)) i.
Proof.
  intros Hok Ha. pose proof (pick_facts _ _ _ _ _ _ Hok Ha) as (Hi & Hd & _ & _ & _ & _ & Hr & _).
  split; rewrite ?at_set_eq; [done|done|done|done|cbn; lia].
Qed.

(** In an idle cache the buffer taken has one reference. *)
Lemma idle_one D n b l i r : bio_ok D b l -> idle b -> avail D n b l i r -> b_refcnt r = 1.
Proof.
  intros Hok Hidle (Hp & _). pose proof (pick_lt _ _ _ _ _ _ (bo_ring _ _ _ Hok) Hp) as Hi.
  unfold pick in Hp. destruct (find _ l); [|destruct (find _ (rev l)); [|done]];
    injection Hp as -> <-; cbn; [|done]. by rewrite Hidle.
Qed.

(** The common tail: give back a buffer that agrees with the disk. *)
Lemma wp_give_back D p i q b l (Q : unit -> bst -> Prop) :
  runs p q -> bio_ok D b l -> mine D (p_pid (view (proc_l p) q)) b i ->
  b_refcnt (at_ (bc_buf b) i) = 1 ->
  (forall j, (j < NBUF)%nat -> j <> i -> b_refcnt (at_ (bc_buf b) j) = 0) ->
  b_data (at_ (bc_buf b) i) = sector b (b_sectorno (at_ (bc_buf b) i)) ->
  (forall q' b' l', runs p q' -> bio_ok D b' l' -> idle b' -> hd HEAD l' = i ->
     (forall m, sector b' m = sector b m) -> same_env p q q' -> Q tt (q', b')) ->
  wp (brelse i) Q (q, b).
Proof.
  intros Hr Hok Hm H1 H0 Hd HQ. pose proof Hm as [Hi _ _ _ _].
  pose proof (full_ring_facts _ _ (bo_ring _ _ _ Hok)) as (_ & _ & _ & Hin).
  apply Hin in Hi as Hil. apply list_elem_of_split in Hil as (l1 & l2 & ->).
  apply (wp_brelse D p i q b l1 l2); [done|done|done|done|].
  intros q' b' l' Hr' Hok' -> Hc Em Eb Henv. apply (HQ q' b' _ Hr' Hok'); [..|exact Henv].
  - intros j Hj. specialize (Hc j). unfold core in Hc. injection Hc as _ _ _ _ -> _.
    destruct (decide (i = j)) as [<-|Hne]; [cbn; by rewrite H1|by apply H0].
  - by rewrite H1.
  - intros m. unfold sector. by rewrite Em, Eb.
Qed.

(** The owner of a buffer may change its bytes. *)
Definition dirty (d : list Z) (b : bio) (i : nat) : bio :=
  set_buf b i (update b_data_l d (at_ (bc_buf b) i)).
Lemma dirty_ok D pid d b l i : bio_ok D b l -> mine D pid b i ->
  bio_ok D (dirty d b i) l /\ mine D pid (dirty d b i) i
  /\ at_ (bc_buf (dirty d b i)) i = update b_data_l d (at_ (bc_buf b) i).
Proof.
  intros Hok [h1 h2 h3 h4 h5].
  assert (at_ (bc_buf (dirty d b i)) i = update b_data_l d (at_ (bc_buf b) i)) as E by apply at_set_eq.
  split; [|split; [split; rewrite ?E; done|done]].
  apply bio_ok_set; [done|done|done|done|..].
  - apply (bo_sl _ _ _ Hok i h1).
  - apply (bo_dev _ _ _ Hok i h1).
  - intros Hd j Hj Hne Hdj Es. apply Hne. by apply (bo_uniq _ _ _ Hok).
  - apply (bo_ref _ _ _ Hok i h1).
  - apply (bo_free _ _ _ Hok i h1).
  - intros Hf. unfold free in Hf. change (sl_locked (b_lock (at_ (bc_buf b) i)) = 0) in Hf.
    by rewrite h2 in Hf.
Qed.

(** What clients see of a quiescent cache over device [D]. *)
Definition quiescent (D : Z) (p : nat) (s : bst) : Prop :=
  runs p (fst s) /\ (exists l, bio_ok D (snd s) l) /\ idle (snd s).

(** The cache while the process holds buffer [i], with sector [n], and no
    other. *)
Definition opened (D : Z) (p : nat) (n : Z) (i : nat) (s : bst) : Prop :=
  runs p (fst s) /\ (exists l, bio_ok D (snd s) l)
  /\ mine D (p_pid (view (proc_l p) (fst s))) (snd s) i
  /\ b_refcnt (at_ (bc_buf (snd s)) i) = 1
  /\ b_sectorno (at_ (bc_buf (snd s)) i) = n
  /\ forall j, (j < NBUF)%nat -> j <> i -> b_refcnt (at_ (bc_buf (snd s)) j) = 0.
Definition held_data (i : nat) (s : bst) : list Z := b_data (at_ (bc_buf (snd s)) i).

Section Session.
Variables (D : Z) (p : nat) (n : Z).
Hypothesis n_range : 0 <= n < MAXSEC.

Lemma wp_open fuel s (Q : nat -> bst -> Prop) : (0 < fuel)%nat -> quiescent D p s ->
  (forall i s', opened D p n i s' -> held_data i s' = sector (snd s) n -> fst s' = fst s ->
     (forall m, sector (snd s') m = sector (snd s) m) -> Q i s') ->
  wp (bread fuel D n) Q s.
Proof using n_range.
  intros Hf (Hr & [l Hok] & Hidle) HQ. destruct s as [q b]. cbn [fst snd] in *.
  destruct (idle_avail D n b l Hok Hidle) as (i & r & Ha).
  pose proof (pick_facts _ _ _ _ _ _ Hok Ha) as (Hi & _ & Hs & _).
  pose proof (idle_one _ _ _ _ _ _ Hok Hidle Ha) as H1.
  apply (wp_bread D fuel p Hf n q b l i r); [done..|]. intros Hok1.
  apply HQ; [|unfold held_data; cbn [snd]; by rewrite at_set_eq|done|done].
  split; [done|]. split; [by exists l|]. split; [by apply (got_mine D _ n b l i r)|].
  cbn [snd]. rewrite at_set_eq. split; [done|]. split; [done|].
  intros j Hj Hne. rewrite at_set_buf, decide_False by done. by apply Hidle.
Qed.

Lemma opened_dirty i s d : opened D p n i s -> opened D p n i (update (bl i ⊚ b_data_l) d s)
  /\ held_data i (update (bl i ⊚ b_data_l) d s) = d
  /\ (forall m, sector (snd (update (bl i ⊚ b_data_l) d s)) m = sector (snd s) m)
  /\ fst (update (bl i ⊚ b_data_l) d s) = fst s.
Proof using Type.
  destruct s as [q b]. intros (Hr & [l Hok] & Hm & H1 & Hs & H0). cbn [fst snd] in *. rewrite upd_buf.
  destruct (dirty_ok D _ d b l i Hok Hm) as (Hok' & Hm' & E). unfold dirty in *.
  split; [|split; [unfold held_data; cbn [snd]; by rewrite E|done]].
  split; [done|]. split; [by exists l|]. split; [done|]. cbn [snd]. rewrite E.
  split; [done|]. split; [done|]. intros j Hj Hne. rewrite at_set_buf, decide_False by done. by apply H0.
Qed.

Lemma wp_flush i s (Q : unit -> bst -> Prop) : opened D p n i s ->
  length (held_data i s) = 512%nat -> bytes (held_data i s) ->
  (forall s', opened D p n i s' -> held_data i s' = held_data i s -> fst s' = fst s ->
     sector (snd s') n = held_data i s ->
     (forall m, 0 <= m < MAXSEC -> m <> n -> sector (snd s') m = sector (snd s) m) -> Q tt s') ->
  wp (bwrite i) Q s.
Proof using Type.
  destruct s as [q b]. intros (Hr & [l Hok] & Hm & H1 & Hs & H0) Hl Hb HQ. cbn [fst snd] in *.
  apply (wp_bwrite D p i q b l); [done|done|done|done|done|].
  intros b' Hok' Hat _ Hw Hrest. rewrite Hs in Hw, Hrest. apply HQ; [|unfold held_data; cbn [snd]; by rewrite Hat|done|done|done].
  split; [done|]. split; [by exists l|]. cbn [fst snd]. split; [|split; [by rewrite Hat|split; [by rewrite Hat|]]].
  - destruct Hm as [h1 h2 h3 h4 h5]. by split; rewrite ?Hat.
  - intros j Hj Hne. rewrite Hat. by apply H0.
Qed.

Lemma wp_close i s (Q : unit -> bst -> Prop) : opened D p n i s -> held_data i s = sector (snd s) n ->
  (forall s', quiescent D p s' -> same_env p (fst s) (fst s') ->
     (forall m, sector (snd s') m = sector (snd s) m) -> Q tt s') ->
  wp (brelse i) Q s.
Proof using Type.
  destruct s as [q b]. intros (Hr & [l Hok] & Hm & H1 & Hs & H0) Hd HQ. cbn [fst snd] in *.
  apply (wp_give_back D p i q b l); [done|done|done|done|done| |].
  - by rewrite Hs.
  - intros q' b' l' Hr' Hok' Hid' _ Hsec Henv. apply HQ; [|done|done].
    split; [done|]. split; [by exists l'|done].
Qed.

(** Work on the process layer while the buffer is held. *)
Lemma opened_env i q q' b : opened D p n i (q, b) -> runs p q' ->
  p_pid (view (proc_l p) q') = p_pid (view (proc_l p) q) -> opened D p n i (q', b).
Proof using Type. intros (Hr & H & Hm & Hx) Hr' E. split; [done|]. split; [done|]. cbn [fst snd] in *. by rewrite E. Qed.
End Session.

(** [bread] delivers the sector.  Of the buffers it takes the one that
    caches the sector, and failing that the least recently released one that
    nobody references; the buffer it returns is locked by the caller, counted
    as referenced, and holds exactly the bytes of the requested disk sector;
    no other buffer and no byte of the disk changes, and the cache stays
    coherent. *)
Theorem bread_delivers (D n : Z) (fuel p : nat) (q : pst) (b : bio) (l : list nat) (i : nat) (r : buf) :
  (0 < fuel)%nat -> runs p q -> bio_ok D b l -> 0 <= n < MAXSEC -> avail D n b l i r ->
  wp (bread fuel D n) (fun j '(q', b') => j = i /\ q' = q /\ bio_ok D b' l
    /\ mine D (p_pid (view (proc_l p) q)) b' i
    /\ b_sectorno (at_ (bc_buf b') i) = n /\ b_data (at_ (bc_buf b') i) = sector b n
    /\ b_refcnt (at_ (bc_buf b') i) = b_refcnt r
    /\ (forall k, k <> i -> at_ (bc_buf b') k = at_ (bc_buf b) k)
    /\ rd_mem b' = rd_mem b) (q, b).
Proof.
  intros Hf Hr Hok Hn Ha. apply (wp_bread D fuel p Hf n q b l i r); [done..|]. intros Hok'.
  pose proof (pick_facts _ _ _ _ _ _ Hok Ha) as (_ & _ & Hs & _).
  split; [done|]. split; [done|]. split; [done|].
  split; [by apply (got_mine _ _ _ _ l i r)|]. rewrite at_set_eq.
  do 3 (split; [done|]). split; [|done]. intros k Hk. by rewrite at_set_buf, decide_False.
Qed.

(** C8. The cache is transparent.  From a quiescent cache, reading a block
    returns the bytes of its sector and leaves every sector as it was; writing
    a block makes its sector those bytes and leaves every other sector as it
    was; and the cache is quiescent again. *)
Theorem cache_refines_disk (D n : Z) (fuel p : nat) (d : list Z) (s : bst) :
  (0 < fuel)%nat -> quiescent D p s -> 0 <= n < MAXSEC -> length d = 512%nat -> bytes d ->
  wp (read_block fuel D n) (fun bs s' => bs = sector (snd s) n /\ quiescent D p s'
    /\ forall m, sector (snd s') m = sector (snd s) m) s
  /\ wp (write_block fuel D n d) (fun _ s' => quiescent D p s'
    /\ forall m, 0 <= m < MAXSEC ->
         sector (snd s') m = if decide (m = n) then d else sector (snd s) m) s.
Proof.
  intros Hf Hq Hn Hlen Hby. split.
  - unfold read_block. apply wp_bind, (wp_open D p n Hn fuel s _ Hf Hq). intros i s1 Ho Hd _ Hsec.
    apply wp_bind, wp_rd. apply wp_bind.
    apply (wp_close D p n i s1 _ Ho); [by rewrite Hd, Hsec|].
    intros s2 Hq2 _ Hsec2. apply wp_mret. split; [exact Hd|]. split; [done|]. intros m. by rewrite Hsec2.
  - unfold write_block. apply wp_bind, (wp_open D p n Hn fuel s _ Hf Hq). intros i s1 Ho _ _ Hsec.
    apply wp_bind, wp_wr. destruct (opened_dirty D p n i s1 d Ho) as (Ho2 & Hd2 & Hsec2 & _).
    apply wp_bind, (wp_flush D p n i _ _ Ho2); [by rewrite Hd2|by rewrite Hd2|].
    intros s3 Ho3 Hd3 _ Hw Hrest. apply (wp_close D p n i s3 _ Ho3); [by rewrite Hd3, Hw|].
    intros s4 Hq4 _ Hsec4. split; [done|]. intros m Hm. rewrite Hsec4.
    destruct (decide (m = n)) as [->|Hne]; [by rewrite Hw, Hd2|]. by rewrite Hrest, Hsec2, Hsec by done.
Qed.

(** The state at boot, over an image. *)
Definition image (m : mem) : bio := Bio (Spin 0 "" None) ∅ (Spin 0 "ramdisk lock" None) 0x90000000 m.
Lemma boot_image m : exists b, quiescent 0 0 (demo_pst, b) /\ rd_mem b = m /\ rd_base b = 0x90000000.
Proof.
  assert (0 <> NODEV) as H0 by discriminate.
  destruct (proj1 (wp_inv _ _ _) (wp_binit_ring 0 demo_pst (image m) H0 eq_refl)) as (u & s & _ & H).
  destruct s as [q' b']. destruct H as (-> & Hok & Hidle & Em & Eb). exists b'.
  split; [|done]. split; [apply demo_runs|]. split; [by eexists|done].
Qed.
Lemma boot_quiescent : exists b, quiescent 0 0 (demo_pst, b).
Proof. destruct (boot_image ∅) as (b & H & _). by exists b. Qed.

Example bread_delivers_witness : exists b l i r, avail 0 5 b l i r /\
  wp (bread 1 0 5) (fun j '(q', b') => j = i /\ q' = demo_pst /\ bio_ok 0 b' l
    /\ mine 0 (p_pid (view (proc_l 0) demo_pst)) b' i
    /\ b_sectorno (at_ (bc_buf b') i) = 5 /\ b_data (at_ (bc_buf b') i) = sector b 5
    /\ b_refcnt (at_ (bc_buf b') i) = b_refcnt r
    /\ (forall k, k <> i -> at_ (bc_buf b') k = at_ (bc_buf b) k)
    /\ rd_mem b' = rd_mem b) (demo_pst, b).
Proof.
  destruct boot_quiescent as (b & Hr & [l Hok] & Hidle).
  destruct (idle_avail 0 5 b l Hok Hidle) as (i & r & Ha).
  exists b, l, i, r. split; [exact Ha|].
  apply (bread_delivers 0 5 1 0 demo_pst b l i r); [lia|exact Hr|exact Hok|done|exact Ha].
Defined.

Example cache_refines_disk_witness : exists s, quiescent 0 0 s
  /\ wp (write_block 1 0 7 (replicate 512 65)) (fun _ s' => quiescent 0 0 s'
    /\ forall m, 0 <= m < MAXSEC ->
         sector (snd s') m = if decide (m = 7) then replicate 512 65 else sector (snd s) m) s.
Proof.
  destruct boot_quiescent as [b Hq]. exists (demo_pst, b). split; [exact Hq|].
  assert (0 <= 7 < MAXSEC) as Hn by done.
  assert (bytes (replicate 512 65)) as Hb by (apply Forall_replicate; lia).
  exact (proj2 (cache_refines_disk 0 7 1 0 (replicate 512 65) (demo_pst, b)
    (Nat.lt_0_succ 0) Hq Hn eq_refl Hb)).
Defined.
