(* ===== verification/Virtio.v ===== *)
(** The virtio disk driver: kernel/virtio_disk.c, with the branch of
    kernel/disk.c that uses it.

    The driver and the device share a table of descriptors and two rings.  The
    device is the environment: [device] is what it does to the rings and to the
    buffers' data between two looks of the driver, and [regs] is what its
    registers hold when they are read.  It works while the driver runs; the
    driver only looks at what the device writes in [virtio_disk_intr], so that
    is where its work shows.  The memory the rings lie in is the fields that
    [virtio_disk_init] points into it. *)

From S2P Require Import Prelude Mem Strings Locks Kalloc Vm ProcState Vma Proc ProcFacts Sleeplock Bio.

Definition NUM : Z := 8.
Definition VRING_DESC_F_NEXT : Z := 1.
Definition VRING_DESC_F_WRITE : Z := 2.
Definition VIRTIO_BLK_T_IN : Z := 0.
Definition VIRTIO_BLK_T_OUT : Z := 1.

(** The registers, by their offsets. *)
Definition VIRTIO_MMIO_MAGIC_VALUE : Z := 0x000.
Definition VIRTIO_MMIO_VERSION : Z := 0x004.
Definition VIRTIO_MMIO_DEVICE_ID : Z := 0x008.
Definition VIRTIO_MMIO_VENDOR_ID : Z := 0x00c.
Definition VIRTIO_MMIO_DEVICE_FEATURES : Z := 0x010.
Definition VIRTIO_MMIO_DRIVER_FEATURES : Z := 0x020.
Definition VIRTIO_MMIO_GUEST_PAGE_SIZE : Z := 0x028.
Definition VIRTIO_MMIO_QUEUE_SEL : Z := 0x030.
Definition VIRTIO_MMIO_QUEUE_NUM_MAX : Z := 0x034.
Definition VIRTIO_MMIO_QUEUE_NUM : Z := 0x038.
Definition VIRTIO_MMIO_QUEUE_PFN : Z := 0x040.
Definition VIRTIO_MMIO_QUEUE_NOTIFY : Z := 0x050.
Definition VIRTIO_MMIO_INTERRUPT_STATUS : Z := 0x060.
Definition VIRTIO_MMIO_INTERRUPT_ACK : Z := 0x064.
Definition VIRTIO_MMIO_STATUS : Z := 0x070.

Definition VIRTIO_CONFIG_S_ACKNOWLEDGE : Z := 1.
Definition VIRTIO_CONFIG_S_DRIVER : Z := 2.
Definition VIRTIO_CONFIG_S_DRIVER_OK : Z := 4.
Definition VIRTIO_CONFIG_S_FEATURES_OK : Z := 8.

(** RO, SCSI, CONFIG_WCE, MQ, ANY_LAYOUT, EVENT_IDX and INDIRECT_DESC. *)
Definition refused_features : list Z := [5; 7; 11; 12; 27; 29; 28].

Record vringdesc := VRingDesc {
  vr_addr : Z;
  vr_len : Z;
  vr_flags : Z;
  vr_next : Z
}.

Definition vr_addr_l : lens vringdesc (Z) :=
  Lens vr_addr (fun v r => VRingDesc v (vr_len r) (vr_flags r) (vr_next r)).
Definition vr_len_l : lens vringdesc (Z) :=
  Lens vr_len (fun v r => VRingDesc (vr_addr r) v (vr_flags r) (vr_next r)).
Definition vr_flags_l : lens vringdesc (Z) :=
  Lens vr_flags (fun v r => VRingDesc (vr_addr r) (vr_len r) v (vr_next r)).
Definition vr_next_l : lens vringdesc (Z) :=
  Lens vr_next (fun v r => VRingDesc (vr_addr r) (vr_len r) (vr_flags r) v).

#[export] Instance vr_addr_laws : LensLaws vr_addr_l.
Proof. by split; [split|]; intros; repeat match goal with x : vringdesc |- _ => destruct x end. Qed.
#[export] Instance vr_len_laws : LensLaws vr_len_l.
Proof. by split; [split|]; intros; repeat match goal with x : vringdesc |- _ => destruct x end. Qed.
#[export] Instance vr_flags_laws : LensLaws vr_flags_l.
Proof. by split; [split|]; intros; repeat match goal with x : vringdesc |- _ => destruct x end. Qed.
#[export] Instance vr_next_laws : LensLaws vr_next_l.
Proof. by split; [split|]; intros; repeat match goal with x : vringdesc |- _ => destruct x end. Qed.

Record vinfo := VInfo {
  in_b : option nat;
  in_status : Z
}.

Definition in_b_l : lens vinfo (option nat) :=
  Lens in_b (fun v r => VInfo v (in_status r)).
Definition in_status_l : lens vinfo (Z) :=
  Lens in_status (fun v r => VInfo (in_b r) v).

#[export] Instance in_b_laws : LensLaws in_b_l.
Proof. by split; [split|]; intros; repeat match goal with x : vinfo |- _ => destruct x end. Qed.
#[export] Instance in_status_laws : LensLaws in_status_l.
Proof. by split; [split|]; intros; repeat match goal with x : vinfo |- _ => destruct x end. Qed.

Record vdisk := VDisk {
  vd_desc : list vringdesc;   (** [desc] *)
  vd_avail : list Z;   (** [avail]: flags, index, ring *)
  vd_id : Z;   (** [used->id] *)
  vd_elems : list (Z * Z);   (** [used->elems]: [id] and [len] *)
  vd_free : list Z;   (** [free] *)
  vd_used_idx : Z;   (** [used_idx] *)
  vd_info : list vinfo;   (** [info] *)
  vd_lock : spinlock;   (** [vdisk_lock] *)
  vd_own : gmap nat Z;   (** [b->disk], for every buffer *)
  vd_hdr : gmap Z (Z * Z * Z);   (** the headers on the kernel stacks, by their address *)
  vd_regs : list (Z * Z);   (** the registers written, oldest first *)
  vd_looks : nat   (** times the device was looked at *)
}.

Definition vd_desc_l : lens vdisk (list vringdesc) :=
  Lens vd_desc (fun v r => VDisk v (vd_avail r) (vd_id r) (vd_elems r) (vd_free r) (vd_used_idx
    r) (vd_info r) (vd_lock r) (vd_own r) (vd_hdr r) (vd_regs r) (vd_looks r)).
Definition vd_avail_l : lens vdisk (list Z) :=
  Lens vd_avail (fun v r => VDisk (vd_desc r) v (vd_id r) (vd_elems r) (vd_free r) (vd_used_idx
    r) (vd_info r) (vd_lock r) (vd_own r) (vd_hdr r) (vd_regs r) (vd_looks r)).
Definition vd_id_l : lens vdisk (Z) :=
  Lens vd_id (fun v r => VDisk (vd_desc r) (vd_avail r) v (vd_elems r) (vd_free r) (vd_used_idx
    r) (vd_info r) (vd_lock r) (vd_own r) (vd_hdr r) (vd_regs r) (vd_looks r)).
Definition vd_elems_l : lens vdisk (list (Z * Z)) :=
  Lens vd_elems (fun v r => VDisk (vd_desc r) (vd_avail r) (vd_id r) v (vd_free r) (vd_used_idx
    r) (vd_info r) (vd_lock r) (vd_own r) (vd_hdr r) (vd_regs r) (vd_looks r)).
Definition vd_free_l : lens vdisk (list Z) :=
  Lens vd_free (fun v r => VDisk (vd_desc r) (vd_avail r) (vd_id r) (vd_elems r) v (vd_used_idx
    r) (vd_info r) (vd_lock r) (vd_own r) (vd_hdr r) (vd_regs r) (vd_looks r)).
Definition vd_used_idx_l : lens vdisk (Z) :=
  Lens vd_used_idx (fun v r => VDisk (vd_desc r) (vd_avail r) (vd_id r) (vd_elems r) (vd_free r)
    v (vd_info r) (vd_lock r) (vd_own r) (vd_hdr r) (vd_regs r) (vd_looks r)).
Definition vd_info_l : lens vdisk (list vinfo) :=
  Lens vd_info (fun v r => VDisk (vd_desc r) (vd_avail r) (vd_id r) (vd_elems r) (vd_free r)
    (vd_used_idx r) v (vd_lock r) (vd_own r) (vd_hdr r) (vd_regs r) (vd_looks r)).
Definition vd_lock_l : lens vdisk (spinlock) :=
  Lens vd_lock (fun v r => VDisk (vd_desc r) (vd_avail r) (vd_id r) (vd_elems r) (vd_free r)
    (vd_used_idx r) (vd_info r) v (vd_own r) (vd_hdr r) (vd_regs r) (vd_looks r)).
Definition vd_own_l : lens vdisk (gmap nat Z) :=
  Lens vd_own (fun v r => VDisk (vd_desc r) (vd_avail r) (vd_id r) (vd_elems r) (vd_free r)
    (vd_used_idx r) (vd_info r) (vd_lock r) v (vd_hdr r) (vd_regs r) (vd_looks r)).
Definition vd_hdr_l : lens vdisk (gmap Z (Z * Z * Z)) :=
  Lens vd_hdr (fun v r => VDisk (vd_desc r) (vd_avail r) (vd_id r) (vd_elems r) (vd_free r)
    (vd_used_idx r) (vd_info r) (vd_lock r) (vd_own r) v (vd_regs r) (vd_looks r)).
Definition vd_regs_l : lens vdisk (list (Z * Z)) :=
  Lens vd_regs (fun v r => VDisk (vd_desc r) (vd_avail r) (vd_id r) (vd_elems r) (vd_free r)
    (vd_used_idx r) (vd_info r) (vd_lock r) (vd_own r) (vd_hdr r) v (vd_looks r)).
Definition vd_looks_l : lens vdisk (nat) :=
  Lens vd_looks (fun v r => VDisk (vd_desc r) (vd_avail r) (vd_id r) (vd_elems r) (vd_free r)
    (vd_used_idx r) (vd_info r) (vd_lock r) (vd_own r) (vd_hdr r) (vd_regs r) v).

#[export] Instance vd_desc_laws : LensLaws vd_desc_l.
Proof. by split; [split|]; intros; repeat match goal with x : vdisk |- _ => destruct x end. Qed.
#[export] Instance vd_avail_laws : LensLaws vd_avail_l.
Proof. by split; [split|]; intros; repeat match goal with x : vdisk |- _ => destruct x end. Qed.
#[export] Instance vd_id_laws : LensLaws vd_id_l.
Proof. by split; [split|]; intros; repeat match goal with x : vdisk |- _ => destruct x end. Qed.
#[export] Instance vd_elems_laws : LensLaws vd_elems_l.
Proof. by split; [split|]; intros; repeat match goal with x : vdisk |- _ => destruct x end. Qed.
#[export] Instance vd_free_laws : LensLaws vd_free_l.
Proof. by split; [split|]; intros; repeat match goal with x : vdisk |- _ => destruct x end. Qed.
#[export] Instance vd_used_idx_laws : LensLaws vd_used_idx_l.
Proof. by split; [split|]; intros; repeat match goal with x : vdisk |- _ => destruct x end. Qed.
#[export] Instance vd_info_laws : LensLaws vd_info_l.
Proof. by split; [split|]; intros; repeat match goal with x : vdisk |- _ => destruct x end. Qed.
#[export] Instance vd_lock_laws : LensLaws vd_lock_l.
Proof. by split; [split|]; intros; repeat match goal with x : vdisk |- _ => destruct x end. Qed.
#[export] Instance vd_own_laws : LensLaws vd_own_l.
Proof. by split; [split|]; intros; repeat match goal with x : vdisk |- _ => destruct x end. Qed.
#[export] Instance vd_hdr_laws : LensLaws vd_hdr_l.
Proof. by split; [split|]; intros; repeat match goal with x : vdisk |- _ => destruct x end. Qed.
#[export] Instance vd_regs_laws : LensLaws vd_regs_l.
Proof. by split; [split|]; intros; repeat match goal with x : vdisk |- _ => destruct x end. Qed.
#[export] Instance vd_looks_laws : LensLaws vd_looks_l.
Proof. by split; [split|]; intros; repeat match goal with x : vdisk |- _ => destruct x end. Qed.

Abbreviation vst := (pst * (bio * vdisk))%type.
Abbreviation vk := (snd_l ⊚ vd_lock_l).
Abbreviation vlk := (snd_l ⊚ (snd_l ⊚ vd_lock_l)).
Definition vd : lens vst vdisk := snd_l ⊚ snd_l.

Definition desc0 : vringdesc := VRingDesc 0 0 0 0.
Definition info0 : vinfo := VInfo None 0.
(** [disk.desc[i]], [disk.free[i]], [disk.info[i]], [b->disk], [disk.avail[i]];
    the descriptors the driver uses are its own, within the table. *)
Definition dsc (i : Z) : lens vst vringdesc := vd ⊚ (vd_desc_l ⊚ lnth (Z.to_nat i) desc0).
Definition fre (i : Z) : lens vst Z := vd ⊚ (vd_free_l ⊚ lnth (Z.to_nat i) 0).
Definition inf (i : Z) : lens vst vinfo := vd ⊚ (vd_info_l ⊚ lnth (Z.to_nat i) info0).
Definition own (b : nat) : lens vst Z := vd ⊚ (vd_own_l ⊚ lmap b 0).
Definition avl (i : Z) : lens vst Z := vd ⊚ (vd_avail_l ⊚ lnth (Z.to_nat i) 0).

Section Virtio.
(** The value of a register, at the n-th look. *)
Variable regs : nat -> Z -> Z.
(** The device's work before the n-th look. *)
Variable device : nat -> bio * vdisk -> bio * vdisk.
(** The addresses of [disk], and of [b->data] for every buffer. *)
Variable disk_at : Z.
Variable data_at : nat -> Z.

(** [&disk.info[i].status] *)
Definition status_at (i : Z) : Z := u64 (disk_at + 2 * PGSIZE + 40 + 16 * i + 8).

Definition look : M vst nat :=
  n ← rd (vd ⊚ vd_looks_l); _ ← vd ⊚ vd_looks_l <~ S n; mret n.
(** [*R(r)] and [*R(r) = v] *)
Definition rreg (r : Z) : M vst Z := n ← look; mret (u32 (regs n r)).
Definition wreg (r v : Z) : M vst unit := md (vd ⊚ vd_regs_l) (fun l => l ++ [(r, u32 v)]).
(** [disk.used->id], as the device has it by now. *)
Definition used_id : M vst Z := n ← look; _ ← md snd_l (device n); rd (vd ⊚ vd_id_l).

Definition virtio_disk_init : M vst unit :=
  _ ← initlock vlk "virtio_disk";
  magic ← rreg VIRTIO_MMIO_MAGIC_VALUE;
  version ← (if magic =? 0x74726976 then rreg VIRTIO_MMIO_VERSION else mret 0);
  device_id ← (if version =? 1 then rreg VIRTIO_MMIO_DEVICE_ID else mret 0);
  vendor ← (if device_id =? 2 then rreg VIRTIO_MMIO_VENDOR_ID else mret 0);
  if negb (vendor =? 0x554d4551) then panic "could not find virtio disk"
  else
    let status := Z.lor 0 VIRTIO_CONFIG_S_ACKNOWLEDGE in
    _ ← wreg VIRTIO_MMIO_STATUS status;
    let status := Z.lor status VIRTIO_CONFIG_S_DRIVER in
    _ ← wreg VIRTIO_MMIO_STATUS status;
    features ← rreg VIRTIO_MMIO_DEVICE_FEATURES;
    let features := foldl (fun f k => Z.land f (u64 (Z.lnot (Z.shiftl 1 k)))) features refused_features in
    _ ← wreg VIRTIO_MMIO_DRIVER_FEATURES features;
    let status := Z.lor status VIRTIO_CONFIG_S_FEATURES_OK in
    _ ← wreg VIRTIO_MMIO_STATUS status;
    let status := Z.lor status VIRTIO_CONFIG_S_DRIVER_OK in
    _ ← wreg VIRTIO_MMIO_STATUS status;
    _ ← wreg VIRTIO_MMIO_GUEST_PAGE_SIZE PGSIZE;
    _ ← wreg VIRTIO_MMIO_QUEUE_SEL 0;
    max ← rreg VIRTIO_MMIO_QUEUE_NUM_MAX;
    if max =? 0 then panic "virtio disk has no queue 0"
    else if max <? NUM then panic "virtio disk max queue too short"
    else
      _ ← wreg VIRTIO_MMIO_QUEUE_NUM NUM;
      _ ← vd ⊚ vd_desc_l <~ replicate 8 desc0;
      _ ← vd ⊚ vd_avail_l <~ replicate 10 0;
      _ ← vd ⊚ vd_id_l <~ 0;
      _ ← vd ⊚ vd_elems_l <~ replicate 8 (0, 0);
      _ ← wreg VIRTIO_MMIO_QUEUE_PFN (Z.shiftr disk_at PGSHIFT);
      for_each (seqZ 0 NUM) (fun i => fre i <~ 1).

(** The index of a free descriptor, or -1. *)
Definition alloc_desc : M vst Z :=
  r ← for_until (seqZ 0 NUM) (fun i =>
    f ← rd (fre i);
    if truth f then _ ← fre i <~ 0; mret (Some i) else mret None);
  mret (default (-1) r).

Definition free_desc (i : Z) : M vst unit :=
  if NUM <=? i then panic "virtio_disk_intr 1"
  else
    f ← rd (fre i);
    if truth f then panic "virtio_disk_intr 2"
    else
      _ ← dsc i ⊚ vr_addr_l <~ 0;
      _ ← fre i <~ 1;
      zoom fst_l (wakeup CDiskFree).

(** Each turn frees a descriptor that was taken, or panics: [NUM + 1] turns are
    enough. *)
Definition free_chain (i : Z) : M vst unit :=
  loop (S (Z.to_nat NUM)) i (fun i =>
    _ ← free_desc i;
    d ← rd (dsc i);
    mret (if truth (Z.land (vr_flags d) VRING_DESC_F_NEXT) then inl (vr_next d) else inr tt)).

(** [idx], or [None] for -1. *)
Definition alloc3_desc : M vst (option (list Z)) :=
  r ← for_acc (seqZ 0 3) [] (fun _ idx =>
    d ← alloc_desc;
    if d <? 0 then _ ← for_each idx free_desc; mret (inr tt) else mret (inl (idx ++ [d])));
  mret (match r with inl idx => Some idx | inr _ => None end).

(** The whole of the queue's work for a request: the three descriptors, the
    rings, the device told.  [buf0] is the address of the header, on the
    process's kernel stack. *)
Definition post (buf0 : Z) (b : nat) (write sector idx0 idx1 idx2 : Z) : M vst unit :=
  _ ← md (vd ⊚ vd_hdr_l) (fun h =>
        <[buf0 := (if truth write then VIRTIO_BLK_T_OUT else VIRTIO_BLK_T_IN, 0, sector)]> h);
  pa ← zoom (fst_l ⊚ s_k_l) (kpt ← rd k_kpt_l; kwalkaddr kpt buf0);
  _ ← dsc idx0 ⊚ vr_addr_l <~ pa;
  _ ← dsc idx0 ⊚ vr_len_l <~ 16;
  _ ← dsc idx0 ⊚ vr_flags_l <~ VRING_DESC_F_NEXT;
  _ ← dsc idx0 ⊚ vr_next_l <~ u16 idx1;
  _ ← dsc idx1 ⊚ vr_addr_l <~ data_at b;
  _ ← dsc idx1 ⊚ vr_len_l <~ BSIZE;
  _ ← dsc idx1 ⊚ vr_flags_l <~ (if truth write then 0 else VRING_DESC_F_WRITE);
  _ ← md (dsc idx1 ⊚ vr_flags_l) (fun f => Z.lor f VRING_DESC_F_NEXT);
  _ ← dsc idx1 ⊚ vr_next_l <~ u16 idx2;
  _ ← inf idx0 ⊚ in_status_l <~ 0;
  _ ← dsc idx2 ⊚ vr_addr_l <~ status_at idx0;
  _ ← dsc idx2 ⊚ vr_len_l <~ 1;
  _ ← dsc idx2 ⊚ vr_flags_l <~ VRING_DESC_F_WRITE;
  _ ← dsc idx2 ⊚ vr_next_l <~ 0;
  _ ← own b <~ 1;
  _ ← inf idx0 ⊚ in_b_l <~ Some b;
  a ← rd (avl 1);
  _ ← avl (2 + a mod NUM) <~ u16 idx0;
  _ ← avl 1 <~ u16 (a + 1);
  wreg VIRTIO_MMIO_QUEUE_NOTIFY 0.

Definition desc_turn : M vst (unit + list Z) :=
  r ← alloc3_desc;
  match r with
  | Some idx => mret (inr idx)
  | None => _ ← sleep fst_l CDiskFree vlk; mret (inl tt)
  end.
Definition done_turn (b : nat) : M vst (unit + unit) :=
  o ← rd (own b);
  if o =? 1 then _ ← sleep fst_l (CBuf b) vlk; mret (inl tt) else mret (inr tt).

(** [fuel] bounds the times the process is woken to find no descriptors, or
    its request not done. *)
Definition virtio_disk_rw (fuel : nat) (buf0 : Z) (b : nat) (write : Z) : M vst unit :=
  sector ← rd (snd_l ⊚ fst_l ⊚ buf_l b ⊚ b_sectorno_l);
  _ ← acquire phart vlk;
  idx ← loop fuel tt (fun _ => desc_turn);
  let idx0 := nth 0 idx 0 in
  _ ← post buf0 b write sector idx0 (nth 1 idx 0) (nth 2 idx 0);
  _ ← loop fuel tt (fun _ => done_turn b);
  _ ← inf idx0 ⊚ in_b_l <~ None;
  _ ← free_chain idx0;
  release phart vlk.

(** One turn of the loop over the used ring.  What the device leaves in it is
    only an index if the device says so. *)
Definition intr_turn : M vst (unit + unit) :=
  u ← rd (vd ⊚ vd_used_idx_l);
  uid ← used_id;
  if u mod NUM =? uid mod NUM then mret (inr tt)
  else
    elems ← rd (vd ⊚ vd_elems_l);
    '(id, _) ← lift "used->elems" (elems !! Z.to_nat u);
    let id := s32 id in
    info ← rd (vd ⊚ vd_info_l);
    r ← lift "info" (if id <? 0 then None else info !! Z.to_nat id);
    if negb (in_status r =? 0) then panic "virtio_disk_intr status"
    else
      b ← lift "info.b" (in_b r);
      _ ← own b <~ 0;
      _ ← zoom fst_l (wakeup (CBuf b));
      u ← rd (vd ⊚ vd_used_idx_l);
      _ ← vd ⊚ vd_used_idx_l <~ u16 ((u + 1) mod NUM);
      mret (inl tt).

Definition virtio_disk_intr (fuel : nat) : M vst unit :=
  _ ← acquire phart vlk;
  _ ← loop fuel tt (fun _ => intr_turn);
  st ← rreg VIRTIO_MMIO_INTERRUPT_STATUS;
  _ ← wreg VIRTIO_MMIO_INTERRUPT_ACK (Z.land st 3);
  release phart vlk.

(** kernel/disk.c, built for QEMU *)
Definition disk_init : M vst unit := virtio_disk_init.
Definition disk_read (fuel : nat) (buf0 : Z) (b : nat) : M vst unit := virtio_disk_rw fuel buf0 b 0.
Definition disk_write (fuel : nat) (buf0 : Z) (b : nat) : M vst unit := virtio_disk_rw fuel buf0 b 1.
Definition disk_intr (fuel : nat) : M vst unit := virtio_disk_intr fuel.
End Virtio.
