(* ===== verification/VirtioFacts.v ===== *)
(** The virtio driver and its rings: every request in flight owns a chain of
    three descriptors that says what the device is to do, and is told apart by
    it when the device is done. *)

From S2P Require Import Prelude Mem Strings Locks Kalloc Vm ProcState Vma Proc ProcFacts Sleeplock Bio Virtio.

(** [m] returns, with what [Q] says, or panics, with a message as [P] says. *)
Definition ends_or {S A} (P : string -> Prop) (m : M S A) (Q : A -> S -> Prop) (s : S) : Prop :=
  match m s with Ret a s' => Q a s' | Panic msg => P msg | _ => False end.
Lemma ends_or_wp {S A} P (m : M S A) Q s : wp m Q s -> ends_or P m Q s.
Proof. unfold wp, ends_or. by destruct (m s). Qed.
Lemma ends_or_bind {S A B} P (m : M S A) (f : A -> M S B) Q s :
  wp m (fun a => ends_or P (f a) Q) s -> ends_or P (m ≫= f) Q s.
Proof. intros (a & s' & E & H)%wp_inv. unfold ends_or, mbind, M_bind. by rewrite E. Qed.
Lemma ends_or_seq {S A B} P (m : M S A) (f : A -> M S B) Q s :
  ends_or P m (fun a => ends_or P (f a) Q) s -> ends_or P (m ≫= f) Q s.
Proof. unfold ends_or, mbind, M_bind. by destruct (m s). Qed.

(** * The state of the queue *)

(** A request: the buffer, what [virtio_disk_rw] was asked to do, where the
    header is on the stack and in memory, and the three descriptors. *)
Record req := Req {
  q_b : nat;
  q_write : Z;
  q_sector : Z;
  q_hdr : Z;
  q_pa : Z;
  q_i0 : Z;
  q_i1 : Z;
  q_i2 : Z
}.
#[export] Instance req_eq_dec : EqDecision req.
Proof. solve_decision. Defined.
Definition chain (r : req) : list Z := [q_i0 r; q_i1 r; q_i2 r].
Definition chains (l : list req) : list Z := l ≫= chain.

Definition rng (i : Z) : Prop := 0 <= i < NUM.
(** The descriptors taken are those of [B]. *)
Record taken_descs (B : list Z) (d : vdisk) : Prop := {
  td_len : length (vd_free d) = 8%nat;
  td_free : forall i, rng i -> vd_free d !! Z.to_nat i = Some (if decide (i ∈ B) then 0 else 1);
  td_nodup : NoDup B;
  td_rng : Forall rng B
}.

Lemma rng_seq i : rng i <-> i ∈ seqZ 0 NUM.
Proof. rewrite elem_of_seqZ. unfold rng, NUM. lia. Qed.
Lemma taken_le B d : taken_descs B d -> (length B <= 8)%nat.
Proof.
  intros [_ _ Hn Hr]. apply (submseteq_length B (seqZ 0 NUM)), NoDup_submseteq; [done|].
  intros i Hi. apply rng_seq. by apply (proj1 (Forall_forall _ _) Hr).
Qed.
Lemma taken_full B d : taken_descs B d -> (forall i, rng i -> i ∈ B) -> length B = 8%nat.
Proof.
  intros Ht Hall. apply Nat.le_antisymm; [by apply (taken_le B d)|].
  change 8%nat with (length (seqZ 0 NUM)). apply submseteq_length, NoDup_submseteq; [apply NoDup_seqZ|].
  intros i Hi. by apply Hall, rng_seq.
Qed.
Lemma taken_perm B B' d : B ≡ₚ B' -> taken_descs B d -> taken_descs B' d.
Proof.
  intros HP [H1 H2 H3 H4]. split; [done| |by rewrite <- HP..]. intros i Hi. rewrite H2 by done.
  f_equal. destruct (decide (i ∈ B)) as [H|H], (decide (i ∈ B')) as [H'|H']; try done.
  - by rewrite HP in H.
  - by rewrite <- HP in H'.
Qed.
Lemma taken_add B d i : taken_descs B d -> rng i -> (i ∉ B) ->
  taken_descs (i :: B) (update vd_free_l (<[Z.to_nat i := 0]> (vd_free d)) d).
Proof.
  intros [H1 H2 H3 H4] Hi Hn. split; [by cbn; rewrite length_insert| |by constructor|by constructor].
  intros j Hj. cbn [vd_free update vd_free_l]. unfold rng, NUM in *.
  destruct (decide (j = i)) as [->|Hne].
  - rewrite list_lookup_insert_eq by lia. by rewrite decide_True by left.
  - rewrite list_lookup_insert_ne, H2 by lia. f_equal.
    apply decide_ext. rewrite elem_of_cons. naive_solver.
Qed.
Lemma taken_drop B d i ds : taken_descs (i :: B) d ->
  taken_descs B (update vd_free_l (<[Z.to_nat i := 1]> (vd_free d)) (update vd_desc_l ds d)).
Proof.
  intros [H1 H2 [Hn H3]%NoDup_cons [Hi H4]%Forall_cons]. split; [by cbn; rewrite length_insert| |done..].
  intros j Hj. cbn [vd_free update vd_free_l vd_desc_l]. unfold rng, NUM in *.
  destruct (decide (j = i)) as [->|Hne].
  - rewrite list_lookup_insert_eq by lia. by rewrite decide_False.
  - rewrite list_lookup_insert_ne, H2 by lia. f_equal.
    apply decide_ext. rewrite elem_of_cons. naive_solver.
Qed.

(** [d'] is [d], but for flags, and descriptors outside [B]. *)
Definition spares (B : list Z) (d d' : vdisk) : Prop := exists f ds,
  d' = update vd_free_l f (update vd_desc_l ds d) /\ length ds = length (vd_desc d) /\
  forall i, i ∈ B -> rng i -> ds !! Z.to_nat i = vd_desc d !! Z.to_nat i.
Lemma spares_free B d f : spares B d (update vd_free_l f d).
Proof. exists f, (vd_desc d). by destruct d. Qed.
Lemma spares_trans B d d1 d2 : spares B d d1 -> spares B d1 d2 -> spares B d d2.
Proof.
  intros (f1 & ds1 & -> & L1 & H1) (f2 & ds2 & -> & L2 & H2). exists f2, ds2. split; [by destruct d|].
  split; [by rewrite L2|]. intros i Hi Hr. rewrite H2 by done. by apply H1.
Qed.
Lemma spares_desc B d i f x : (i ∉ B) -> rng i ->
  spares B d (update vd_free_l f (update vd_desc_l (<[Z.to_nat i := x]> (vd_desc d)) d)).
Proof.
  intros Hn Hi. eexists f, _. split; [done|]. split; [by rewrite length_insert|].
  intros j Hj Hrj. apply list_lookup_insert_ne. unfold rng in *. intros E.
  apply Hn. by replace i with j by lia.
Qed.

Lemma woken_twice ch pr : woken ch (woken ch pr) = woken ch pr.
Proof.
  unfold woken. destruct (bool_decide (p_state pr = SLEEPING) && bool_decide (p_chan pr = Some ch)) eqn:E; [|by rewrite E].
  done.
Qed.
Lemma woken_trans ch q q1 q2 : woken_all ch q q1 -> woken_all ch q1 q2 -> woken_all ch q q2.
Proof.
  intros [_ (p1 & -> & H1)] [Hq (p2 & -> & H2)]. split; [done|]. exists p2. split; [by destruct q|].
  intros i. rewrite H2. change (s_procs (update s_procs_l p1 q)) with p1. rewrite H1.
  destruct (decide (i < 50)%nat); [apply woken_twice|done].
Qed.

(** * Inside the lock *)

Abbreviation VK := (snd_l ⊚ vd_lock_l).
(** The state in the critical section, with processes [q], entered from [q0]. *)
Definition ins (q0 q : pst) (bi : bio) (d : vdisk) : vst := (inq q, lkc VK q0 (bi, d)).

Section Steps.
Variables (q0 : pst) (bi : bio).

Lemma wp_alloc_desc B q d (Q : Z -> vst -> Prop) : taken_descs B d ->
  (forall i, rng i -> (i ∉ B) -> Q i (ins q0 q bi (update vd_free_l (<[Z.to_nat i := 0]> (vd_free d)) d))) ->
  (length B = 8%nat -> Q (-1) (ins q0 q bi d)) -> wp alloc_desc Q (ins q0 q bi d).
Proof.
  intros Ht HQ HN. unfold alloc_desc. apply wp_bind.
  apply (wp_for_until _ (fun i s => s = ins q0 q bi d /\ forall j, 0 <= j < i -> j ∈ B)); [done| | |].
  - split; [done|lia].
  - intros i s Hi [-> Hj]. apply wp_bind, wp_rd.
    change (view (fre i) (ins q0 q bi d)) with (default 0 (vd_free d !! Z.to_nat i)).
    rewrite (td_free _ _ Ht) by (unfold rng; lia). cbn [default from_option id].
    destruct (decide (i ∈ B)) as [Hin|Hin]; cbn [truth Z.eqb negb].
    + apply wp_mret. split; [done|]. intros j Hj'. destruct (decide (j = i)) as [->|]; [done|].
      apply Hj. lia.
    + wp_run. apply HQ; [unfold rng; lia|done].
  - intros s [-> Hj]. apply wp_mret. apply HN, (taken_full B d); [done|]. intros i Hi.
    apply Hj. unfold rng in *. lia.
Qed.

(** The state once descriptor [i] is free. *)
Definition freed (i : Z) (d : vdisk) : vdisk :=
  update vd_free_l (<[Z.to_nat i := 1]> (vd_free d))
    (update vd_desc_l (<[Z.to_nat i := update vr_addr_l 0 (default desc0 (vd_desc d !! Z.to_nat i))]> (vd_desc d)) d).
Lemma freed_taken i B d : taken_descs (i :: B) d -> taken_descs B (freed i d).
Proof using Type. apply taken_drop. Qed.
Lemma freed_spares i B d : (i ∉ B) -> rng i -> spares B d (freed i d).
Proof using Type. apply spares_desc. Qed.

Lemma wp_free_desc i B q d (Q : unit -> vst -> Prop) :
  quiet q -> c_noff (view mycpu_l (view hart_l q)) < 2 ^ 31 - 3 -> taken_descs (i :: B) d ->
  (forall q', woken_all CDiskFree q q' -> Q tt (ins q0 q' bi (freed i d))) ->
  wp (free_desc i) Q (ins q0 q bi d).
Proof.
  intros Hq Hn Ht HQ. pose proof Ht as [_ Hf _ [Hi _]%Forall_cons]. unfold rng in Hi. unfold free_desc.
  rewrite (proj2 (Z.leb_gt NUM i)) by lia. apply wp_bind, wp_rd.
  change (view (fre i) (ins q0 q bi d)) with (default 0 (vd_free d !! Z.to_nat i)).
  rewrite Hf by done. rewrite decide_True by left. cbn [default from_option id truth Z.eqb negb].
  wp_run. apply (wp_wakeup CDiskFree q); [done|done|]. intros q' Hw _. exact (HQ q' Hw).
Qed.

Lemma wp_alloc3 B q d (Q : option (list Z) -> vst -> Prop) :
  quiet q -> c_noff (view mycpu_l (view hart_l q)) < 2 ^ 31 - 3 -> taken_descs B d -> (length B <= 6)%nat ->
  (forall i0 i1 i2 d', taken_descs (i2 :: i1 :: i0 :: B) d' -> spares B d d' ->
     Q (Some [i0; i1; i2]) (ins q0 q bi d')) ->
  ((5 < length B)%nat -> forall q' d', taken_descs B d' -> spares B d d' -> woken_all CDiskFree q q' ->
     Q None (ins q0 q' bi d')) -> wp alloc3_desc Q (ins q0 q bi d).
Proof.
  intros Hq Hno Ht Hl HS HN. unfold alloc3_desc. change (seqZ 0 3) with [0; 1; 2]. cbn [for_acc].
  apply wp_bind, wp_bind, wp_bind, (wp_alloc_desc B); [done| |lia].
  intros i0 Hi0 Hn0. pose proof (taken_add _ _ _ Ht Hi0 Hn0) as T0. set (d0 := update vd_free_l _ d) in *.
  rewrite (proj2 (Z.ltb_ge i0 0)) by (unfold rng in *; lia). apply wp_mret, wp_bind, wp_bind.
  apply (wp_alloc_desc (i0 :: B)); [done| |cbn; lia].
  intros i1 Hi1 Hn1. pose proof (taken_add _ _ _ T0 Hi1 Hn1) as T1. set (d1 := update vd_free_l _ d0) in *.
  rewrite (proj2 (Z.ltb_ge i1 0)) by (unfold rng in *; lia). apply wp_mret, wp_bind, wp_bind.
  assert (spares B d d1) as Hs1 by (apply (spares_trans _ _ d0); apply spares_free).
  apply (wp_alloc_desc (i1 :: i0 :: B)); [done| |].
  - intros i2 Hi2 Hn2. pose proof (taken_add _ _ _ T1 Hi2 Hn2) as T2.
    rewrite (proj2 (Z.ltb_ge i2 0)) by (unfold rng in *; lia). wp_run. apply HS; [done|].
    eapply spares_trans; [exact Hs1|apply spares_free].
  - intros Hfull. cbn [length] in Hfull. cbn [Z.ltb Z.compare app for_each].
    apply wp_bind, wp_bind. assert (i1 :: i0 :: B ≡ₚ i0 :: i1 :: B) as HP by constructor.
    apply (wp_free_desc i0 (i1 :: B)); [done|done|by apply (taken_perm (i1 :: i0 :: B))|]. intros q1 W1.
    pose proof (freed_taken i0 _ _ (taken_perm _ _ _ HP T1)) as T2.
    assert (i0 ∉ i1 :: B) as Hn01 by (apply (taken_perm _ _ _ HP) in T1 as [_ _ [? _]%NoDup_cons _]; done).
    apply wp_bind, (wp_free_desc i1 B); [apply W1|by rewrite (woken_noff _ _ _ W1)|done|]. intros q2 W2.
    wp_run. apply HN; [lia|by apply freed_taken| |by apply (woken_trans _ _ q1)].
    apply not_elem_of_cons in Hn01 as [_ Hn01], Hn1 as [_ Hn1]. apply (spares_trans _ _ d1); [done|].
    apply (spares_trans _ _ (freed i0 d1)); by apply freed_spares.
Qed.

Lemma freed_other i j d : i <> j -> rng i -> rng j ->
  vd_desc (freed i d) !! Z.to_nat j = vd_desc d !! Z.to_nat j.
Proof using Type. intros Hij Hi Hj. apply list_lookup_insert_ne. unfold rng in *. lia. Qed.

(** A turn of [free_chain]. *)
Lemma wp_free_turn i B q d D (Q : Z + unit -> vst -> Prop) :
  quiet q -> c_noff (view mycpu_l (view hart_l q)) < 2 ^ 31 - 3 -> taken_descs (i :: B) d ->
  vd_desc d !! Z.to_nat i = Some D ->
  (forall q', woken_all CDiskFree q q' ->
     Q (if truth (Z.land (vr_flags D) VRING_DESC_F_NEXT) then inl (vr_next D) else inr tt)
       (ins q0 q' bi (freed i d))) ->
  wp (_ ← free_desc i; x ← rd (dsc i);
      mret (if truth (Z.land (vr_flags x) VRING_DESC_F_NEXT) then inl (vr_next x) else inr tt)) Q (ins q0 q bi d).
Proof.
  intros Hq Hno Ht E HQ. apply wp_bind, (wp_free_desc i B); [done|done|done|]. intros q' W. wp_run.
  change (view (dsc i) (ins q0 q' bi (freed i d))) with (default desc0 (vd_desc (freed i d) !! Z.to_nat i)).
  assert (vd_desc (freed i d) !! Z.to_nat i = Some (update vr_addr_l 0 D)) as ->; [|exact (HQ q' W)].
  cbn [freed vd_desc update vd_free_l vd_desc_l].
  rewrite list_lookup_insert_eq by (by eapply lookup_lt_Some). by rewrite E.
Qed.

Lemma wp_free_descs i0 i1 i2 B q d D0 D1 D2 (Q : unit -> vst -> Prop) :
  quiet q -> c_noff (view mycpu_l (view hart_l q)) < 2 ^ 31 - 3 -> taken_descs (i0 :: i1 :: i2 :: B) d ->
  vd_desc d !! Z.to_nat i0 = Some D0 -> Z.land (vr_flags D0) 1 = 1 -> vr_next D0 = i1 ->
  vd_desc d !! Z.to_nat i1 = Some D1 -> Z.land (vr_flags D1) 1 = 1 -> vr_next D1 = i2 ->
  vd_desc d !! Z.to_nat i2 = Some D2 -> Z.land (vr_flags D2) 1 = 0 ->
  (forall q' d', woken_all CDiskFree q q' -> taken_descs B d' -> spares B d d' -> Q tt (ins q0 q' bi d')) ->
  wp (free_chain i0) Q (ins q0 q bi d).
Proof.
  intros Hq Hno Ht E0 F0 N0 E1 F1 N1 E2 F2 HQ.
  pose proof Ht as [_ _ [Hn0 [Hn1 [Hn2 _]%NoDup_cons]%NoDup_cons]%NoDup_cons
    [R0 [R1 [R2 _]%Forall_cons]%Forall_cons]%Forall_cons].
  apply not_elem_of_cons in Hn0 as [H01 [H02 Hn0]%not_elem_of_cons], Hn1 as [H12 Hn1].
  pose proof (freed_taken _ _ _ Ht) as T1. pose proof (freed_taken _ _ _ T1) as T2.
  unfold free_chain. change (S (Z.to_nat NUM)) with 9%nat. cbn [loop].
  apply wp_bind, (wp_free_turn i0 (i1 :: i2 :: B) q d D0); [done..|]. intros q1 W1. unfold VRING_DESC_F_NEXT. rewrite F0, N0.
  cbn [truth Z.eqb negb]. apply wp_bind, (wp_free_turn i1 (i2 :: B) q1 _ D1);
    [apply W1|by rewrite (woken_noff _ _ _ W1)|done|by rewrite freed_other|].
  intros q2 W2. unfold VRING_DESC_F_NEXT. rewrite F1, N1. cbn [truth Z.eqb negb].
  pose proof (woken_trans _ _ _ _ W1 W2) as W12.
  apply wp_bind, (wp_free_turn i2 B q2 _ D2);
    [apply W12|by rewrite (woken_noff _ _ _ W12)|done|by rewrite !freed_other|].
  intros q3 W3. unfold VRING_DESC_F_NEXT. rewrite F2. cbn [truth Z.eqb negb]. wp_run.
  apply HQ; [by apply (woken_trans _ _ q2)|by apply freed_taken|].
  apply (spares_trans _ _ (freed i1 (freed i0 d))); [|by apply freed_spares].
  apply (spares_trans _ _ (freed i0 d)); by apply freed_spares.
Qed.
End Steps.

(** * The protocol *)

Section Protocol.
Variables (disk_at : Z) (data_at : nat -> Z).
(** The status byte the device gives each request; 0 is success. *)
Variable st : req -> Z.

(** What a request's descriptors, header and bookkeeping say while it is in
    flight. *)
Record described (d : vdisk) (r : req) : Prop := {
  de_0 : vd_desc d !! Z.to_nat (q_i0 r) = Some (VRingDesc (q_pa r) 16 VRING_DESC_F_NEXT (q_i1 r));
  de_1 : vd_desc d !! Z.to_nat (q_i1 r) = Some (VRingDesc (data_at (q_b r)) BSIZE
           (if truth (q_write r) then VRING_DESC_F_NEXT else 3) (q_i2 r));
  de_2 : vd_desc d !! Z.to_nat (q_i2 r)
         = Some (VRingDesc (status_at disk_at (q_i0 r)) 1 VRING_DESC_F_WRITE 0);
  de_hdr : vd_hdr d !! q_hdr r
           = Some (if truth (q_write r) then VIRTIO_BLK_T_OUT else VIRTIO_BLK_T_IN, 0, q_sector r);
  de_info : exists s, vd_info d !! Z.to_nat (q_i0 r) = Some (VInfo (Some (q_b r)) s)
}.
Definition status_of (d : vdisk) (r : req) : Z := in_status (default info0 (vd_info d !! Z.to_nat (q_i0 r))).

(** The queue with the requests the device has not seen yet ([nw], in the
    order of the available ring), those it works on ([tk]), those it has put
    in the used ring ([us], in that order) and those whose process has been
    told ([ak]). *)
Record rings (nw tk us ak : list req) (d : vdisk) : Prop := {
  vq_lens : length (vd_desc d) = 8%nat /\ length (vd_avail d) = 10%nat /\ length (vd_elems d) = 8%nat
            /\ length (vd_info d) = 8%nat;
  vq_desc : Forall (described d) (nw ++ tk ++ us ++ ak);
  vq_stat : Forall (fun r => status_of d r = 0) (nw ++ tk ++ ak) /\ Forall (fun r => status_of d r = st r) us;
  vq_bufs : NoDup (q_b <$> (nw ++ tk ++ us ++ ak));
  vq_hdrs : NoDup (q_hdr <$> (nw ++ tk ++ us ++ ak));
  vq_busy : Forall (fun r => vd_own d !! q_b r = Some 1) (nw ++ tk ++ us);
  vq_told : Forall (fun r => vd_own d !! q_b r = Some 0) ak;
  vq_avail : exists a, vd_avail d !! 1%nat = Some a /\ 0 <= a < 65536 /\
    forall j r, nw !! j = Some r ->
      vd_avail d !! Z.to_nat (2 + (a - Z.of_nat (length nw) + Z.of_nat j) mod NUM) = Some (q_i0 r);
  vq_idx : 0 <= vd_used_idx d < NUM /\ 0 <= vd_id d < 65536
    /\ (vd_id d - vd_used_idx d - Z.of_nat (length us)) mod NUM = 0;
  vq_used : forall j r, us !! j = Some r -> exists len,
    vd_elems d !! Z.to_nat ((vd_used_idx d + Z.of_nat j) mod NUM) = Some (q_i0 r, len)
}.
(** No descriptor is taken but for these requests. *)
Definition vq (nw tk us ak : list req) (d : vdisk) : Prop :=
  taken_descs (chains (nw ++ tk ++ us ++ ak)) d /\ rings nw tk us ak d.

Lemma chains_app l l' : chains (l ++ l') = chains l ++ chains l'.
Proof using Type. apply bind_app. Qed.
Lemma chains_perm l l' : l ≡ₚ l' -> chains l ≡ₚ chains l'.
Proof using Type. intros H. unfold chains. by rewrite H. Qed.
Lemma length_chains l : length (chains l) = (3 * length l)%nat.
Proof using Type.
  induction l as [|r l IH]; [done|]. change (chains (r :: l)) with (chain r ++ chains l).
  rewrite length_app, IH. cbn. lia.
Qed.
(** Three descriptors each: there are at most two requests. *)
Lemma taken_two l d : taken_descs (chains l) d -> (length l <= 2)%nat.
Proof using Type. intros Hl%taken_le. rewrite length_chains in Hl. lia. Qed.

Lemma chain_in r l i : r ∈ l -> i ∈ chain r -> i ∈ chains l.
Proof using Type. intros Hr Hi. apply list_elem_of_bind. eauto. Qed.

(** Scratch work on descriptors that no request has. *)
Lemma rings_spares nw tk us ak d d' : rings nw tk us ak d ->
  spares (chains (nw ++ tk ++ us ++ ak)) d d' -> Forall rng (chains (nw ++ tk ++ us ++ ak)) -> rings nw tk us ak d'.
Proof using Type.
  intros [[Hl Hl'] Hd Hst Hb Hh Hbu Hto Ha Hi Hu] (f & ds & -> & L & Hs) Hr.
  split; try done; [by cbn; rewrite L|]. apply Forall_forall. intros r Hin.
  pose proof (proj1 (Forall_forall _ _) Hd r Hin) as [H0 H1 H2 H3 H4].
  assert (forall i, i ∈ chain r -> ds !! Z.to_nat i = vd_desc d !! Z.to_nat i) as He.
  { intros i Hic. assert (i ∈ chains (nw ++ tk ++ us ++ ak)) by (by apply (chain_in r)).
    apply Hs; [done|]. by apply (proj1 (Forall_forall _ _) Hr). }
  split; cbn [vd_desc vd_hdr vd_info update vd_free_l vd_desc_l]; rewrite ?He by (unfold chain; set_solver); done.
Qed.

(** The state once request [r] is posted. *)
Definition posted (r : req) (d : vdisk) : vdisk :=
  let a := default 0 (vd_avail d !! 1%nat) in
  VDisk
    (<[Z.to_nat (q_i2 r) := VRingDesc (status_at disk_at (q_i0 r)) 1 VRING_DESC_F_WRITE 0]>
      (<[Z.to_nat (q_i1 r) := VRingDesc (data_at (q_b r)) BSIZE
           (if truth (q_write r) then VRING_DESC_F_NEXT else 3) (q_i2 r)]>
        (<[Z.to_nat (q_i0 r) := VRingDesc (q_pa r) 16 VRING_DESC_F_NEXT (q_i1 r)]> (vd_desc d))))
    (<[1%nat := u16 (a + 1)]> (<[Z.to_nat (2 + a mod NUM) := q_i0 r]> (vd_avail d)))
    (vd_id d) (vd_elems d) (vd_free d) (vd_used_idx d)
    (<[Z.to_nat (q_i0 r) := VInfo (Some (q_b r)) 0]> (vd_info d))
    (vd_lock d) (<[q_b r := 1]> (vd_own d))
    (<[q_hdr r := (if truth (q_write r) then VIRTIO_BLK_T_OUT else VIRTIO_BLK_T_IN, 0, q_sector r)]> (vd_hdr d))
    (vd_regs d ++ [(VIRTIO_MMIO_QUEUE_NOTIFY, 0)]) (vd_looks d).

Lemma posted_describes r d : length (vd_desc d) = 8%nat -> length (vd_info d) = 8%nat ->
  NoDup (chain r) -> Forall rng (chain r) -> described (posted r d) r.
Proof using Type.
  intros L1 L2 [[H01 [H02 _]%not_elem_of_cons]%not_elem_of_cons
    [[H12 _]%not_elem_of_cons _]%NoDup_cons]%NoDup_cons
    [R0 [R1 [R2 _]%Forall_cons]%Forall_cons]%Forall_cons. unfold rng, NUM in *.
  split; cbn [vd_desc vd_hdr vd_info posted].
  - rewrite !list_lookup_insert_ne by lia. apply list_lookup_insert_eq. lia.
  - rewrite list_lookup_insert_ne by lia. apply list_lookup_insert_eq. rewrite length_insert. lia.
  - apply list_lookup_insert_eq. rewrite !length_insert. lia.
  - apply lookup_insert_eq.
  - exists 0. apply list_lookup_insert_eq. lia.
Qed.

(** A request keeps its description while another one's chain is written. *)
Lemma posted_others r r' d : Forall rng (chain r) -> Forall rng (chain r') ->
  (forall i, i ∈ chain r -> (i ∉ chain r')) -> q_hdr r <> q_hdr r' -> described d r' ->
  described (posted r d) r' /\ status_of (posted r d) r' = status_of d r'.
Proof using Type.
  clear st. intros Hr Hr' Hdis Hh [D0 D1 D2 D3 D4].
  assert (forall i j, i ∈ chain r -> j ∈ chain r' -> Z.to_nat i <> Z.to_nat j) as Hne.
  { intros i j Hi Hj E. apply (Hdis i Hi). apply (proj1 (Forall_forall _ _) Hr) in Hi.
    pose proof (proj1 (Forall_forall _ _) Hr' j Hj) as Hj'. unfold rng in *. by replace i with j by lia. }
  unfold chain in Hne. unfold status_of.
  split; [split|]; cbn [vd_desc vd_hdr vd_info posted].
  - rewrite !list_lookup_insert_ne by (apply Hne; set_solver). done.
  - rewrite !list_lookup_insert_ne by (apply Hne; set_solver). done.
  - rewrite !list_lookup_insert_ne by (apply Hne; set_solver). done.
  - by rewrite lookup_insert_ne.
  - rewrite list_lookup_insert_ne by (apply Hne; set_solver). done.
  - rewrite list_lookup_insert_ne by (apply Hne; set_solver). done.
Qed.

Lemma snoc_mid (l l' : list req) r : (l ++ [r]) ++ l' ≡ₚ r :: l ++ l'.
Proof using Type. rewrite <- app_assoc. symmetry. apply Permutation_middle. Qed.

Lemma rings_posted nw tk us ak r d : rings nw tk us ak d ->
  taken_descs (chains (r :: nw ++ tk ++ us ++ ak)) d ->
  (q_b r ∉ q_b <$> (nw ++ tk ++ us ++ ak)) -> (q_hdr r ∉ q_hdr <$> (nw ++ tk ++ us ++ ak)) ->
  vq (nw ++ [r]) tk us ak (posted r d).
Proof using Type.
  intros [(L1 & L2 & L3 & L4) Hd [Hst0 Hst1] Hb Hh Hbu Hto (a & Ea & Ha & Hav) Hi Hu] Ht Hnb Hnh.
  pose proof (taken_two (r :: _) _ Ht) as H2. cbn [length] in H2. rewrite !length_app in H2.
  pose proof Ht as [_ _ Hnd Hrg].
  change (chains (r :: ?l)) with (chain r ++ chains l) in Hnd, Hrg.
  apply NoDup_app in Hnd as (Hn1 & Hn2 & Hn3). apply Forall_app in Hrg as [Hr1 Hr2].
  split; [apply (taken_perm (chains (r :: nw ++ tk ++ us ++ ak)));
    [apply chains_perm; symmetry; apply snoc_mid|]; split; apply Ht|].
  assert (forall r', r' ∈ nw ++ tk ++ us ++ ak -> q_b r <> q_b r') as Hne.
  { intros r' Hin E. apply Hnb. rewrite E. by apply list_elem_of_fmap_2. }
  assert (forall r', r' ∈ nw ++ tk ++ us ++ ak ->
    described (posted r d) r' /\ status_of (posted r d) r' = status_of d r') as Hkeep.
  { intros r' Hin. apply posted_others; try done.
    - apply Forall_forall. intros i Hic. apply (proj1 (Forall_forall _ _) Hr2). by apply (chain_in r').
    - intros i Hi1 Hi2. apply (Hn2 i Hi1). by apply (chain_in r').
    - intros E. apply Hnh. rewrite E. by apply list_elem_of_fmap_2.
    - by apply (proj1 (Forall_forall _ _) Hd). }
  split; rewrite ?snoc_mid; cbn [fmap list_fmap]; [|constructor|split; [constructor|]|by constructor|by constructor|constructor| | |done|done].
  - cbn [posted vd_desc vd_avail vd_elems vd_info]. by rewrite !length_insert.
  - by apply posted_describes.
  - apply Forall_forall. intros r' Hin. by apply Hkeep.
  - unfold status_of. cbn [posted vd_info]. apply Forall_cons in Hr1 as [Hr1 _]. unfold rng, NUM in *.
    by rewrite list_lookup_insert_eq by lia.
  - apply Forall_forall. intros r' Hin. rewrite (proj2 (Hkeep r' ltac:(set_solver))).
    by apply (proj1 (Forall_forall _ _) Hst0).
  - apply Forall_forall. intros r' Hin. rewrite (proj2 (Hkeep r' ltac:(set_solver))).
    by apply (proj1 (Forall_forall _ _) Hst1).
  - by apply lookup_insert_eq.
  - apply Forall_forall. intros r' Hin. cbn [posted vd_own]. rewrite lookup_insert_ne.
    + by apply (proj1 (Forall_forall _ _) Hbu).
    + apply Hne. set_solver.
  - apply Forall_forall. intros r' Hin. cbn [posted vd_own]. rewrite lookup_insert_ne.
    + by apply (proj1 (Forall_forall _ _) Hto).
    + apply Hne. set_solver.
  - exists (u16 (a + 1)). cbn [posted vd_avail]. rewrite Ea. cbn [default from_option id].
    split; [apply list_lookup_insert_eq; rewrite length_insert; lia|]. split; [apply u16_range|].
    intros j r' Hj. rewrite length_app. cbn [length]. apply lookup_app_Some in Hj as [Hj|[Hj1 Hj]].
    + pose proof (lookup_lt_Some _ _ _ Hj). unfold NUM in *.
      rewrite !list_lookup_insert_ne by zlia. rewrite <- (Hav j r' Hj). f_equal. zlia.
    + apply list_lookup_singleton_Some in Hj as [Hj0 <-]. unfold NUM in *.
      rewrite list_lookup_insert_ne by zlia.
      replace (Z.to_nat (2 + (u16 (a + 1) - Z.of_nat (length nw + 1) + Z.of_nat j) mod 8))
        with (Z.to_nat (2 + a mod 8)) by zlia.
      apply list_lookup_insert_eq. zlia.
Qed.

(** The state once the device is done with [r] and says it used [len] bytes. *)
Definition finished (r : req) (len : Z) (d : vdisk) : vdisk :=
  update vd_id_l (u16 (vd_id d + 1))
    (update vd_elems_l (<[Z.to_nat (vd_id d mod NUM) := (q_i0 r, len)]> (vd_elems d))
      (update vd_info_l (<[Z.to_nat (q_i0 r) := update in_status_l (st r)
        (default info0 (vd_info d !! Z.to_nat (q_i0 r)))]> (vd_info d)) d)).

Lemma finish_perm nw1 nw2 tk tk' us ak (r : req) : tk ++ nw1 ≡ₚ r :: tk' ->
  nw2 ++ tk' ++ (us ++ [r]) ++ ak ≡ₚ (nw1 ++ nw2) ++ tk ++ us ++ ak.
Proof using Type.
  intros H. rewrite <- !app_assoc, (Permutation_app_swap_app nw1 nw2).
  apply Permutation_app_head. rewrite (Permutation_app_swap_app nw1 tk), (app_assoc tk nw1), H.
  cbn [app]. rewrite (app_assoc tk' us), <- Permutation_middle. by rewrite <- app_assoc.
Qed.

Lemma finished_describes r r' len d : rng (q_i0 r) -> rng (q_i0 r') ->
  (q_i0 r = q_i0 r' -> r = r') -> described d r -> described d r' ->
  described (finished r len d) r' /\ status_of (finished r len d) r' = (if decide (r = r') then st r else status_of d r').
Proof using Type.
  intros Hr Hr' Hb [_ _ _ _ [s E]] [D0 D1 D2 D3 [s' D4]]. unfold status_of.
  assert (vd_info (finished r len d) !! Z.to_nat (q_i0 r')
    = Some (VInfo (Some (q_b r')) (if decide (r = r') then st r else s'))) as Ei.
  { cbn [finished vd_info update vd_id_l vd_elems_l vd_info_l]. rewrite E. cbn [default from_option id].
    destruct (decide (r = r')) as [<-|Hne].
    - by rewrite list_lookup_insert_eq by (by eapply lookup_lt_Some).
    - rewrite list_lookup_insert_ne; [done|]. unfold rng in *. intros H. apply Hne, Hb. lia. }
  split; [split; try done; by eexists|]. rewrite Ei, D4. cbn. by destruct (decide (r = r')).
Qed.

(** Chains of different requests do not meet. *)
Lemma chains_heads l r r' : NoDup (chains l) -> r ∈ l -> r' ∈ l -> q_i0 r = q_i0 r' -> r = r'.
Proof using Type.
  intros Hn (l1 & l2 & ->)%list_elem_of_split Hr' E.
  rewrite <- (chains_perm _ _ (Permutation_middle l1 l2 r)) in Hn.
  change (chains (r :: ?l)) with (chain r ++ chains l) in Hn. apply NoDup_app in Hn as (_ & Hn & _).
  rewrite <- Permutation_middle in Hr'. apply elem_of_cons in Hr' as [->|Hr']; [done|].
  destruct (Hn (q_i0 r)); [by left|]. rewrite E. apply (chain_in r'); [done|by left].
Qed.

Lemma rings_finished nw1 nw2 tk tk' us ak r len d :
  vq (nw1 ++ nw2) tk us ak d -> tk ++ nw1 ≡ₚ r :: tk' -> vq nw2 tk' (us ++ [r]) ak (finished r len d).
Proof using Type.
  intros [Ht [(L1 & L2 & L3 & L4) Hd [Hst0 Hst1] Hb Hh Hbu Hto (a & Ea & Ha & Hav) (Hi1 & Hi2 & Hi3) Hu]] HP.
  pose proof (finish_perm nw1 nw2 tk tk' us ak r HP) as Hall.
  pose proof (taken_two _ _ Ht) as H2. rewrite <- Hall, !length_app in H2. cbn [length] in H2.
  split; [apply (taken_perm _ _ _ (chains_perm _ _ (symmetry Hall))); split; apply Ht|].
  assert (r ∈ (nw1 ++ nw2) ++ tk ++ us ++ ak) as Hin by (rewrite <- Hall; set_solver).
  assert (forall r', r' ∈ (nw1 ++ nw2) ++ tk ++ us ++ ak -> rng (q_i0 r')) as Hrg.
  { intros r' Hr'. apply (proj1 (Forall_forall _ _) (td_rng _ _ Ht)), (chain_in r'); [done|by left]. }
  assert (forall r', r' ∈ (nw1 ++ nw2) ++ tk ++ us ++ ak -> described (finished r len d) r'
    /\ status_of (finished r len d) r' = (if decide (r = r') then st r else status_of d r')) as Hkeep.
  { intros r' Hr'. apply finished_describes; [by apply Hrg|by apply Hrg
      |by apply (chains_heads _ r r' (td_nodup _ _ Ht) Hin Hr')|by apply (proj1 (Forall_forall _ _) Hd)..]. }
  assert (NoDup (q_b <$> nw2 ++ tk' ++ (us ++ [r]) ++ ak)) as Hnb by (by rewrite Hall).
  assert (forall r', r' ∈ nw2 ++ tk' ++ us ++ ak -> r <> r') as Hne.
  { intros r' Hr' <-. assert (nw2 ++ tk' ++ (us ++ [r]) ++ ak ≡ₚ r :: nw2 ++ tk' ++ us ++ ak) as HP1.
    { rewrite <- (app_assoc us). cbn [app]. rewrite !app_assoc. symmetry. apply Permutation_middle. }
    rewrite HP1, fmap_cons in Hnb. apply NoDup_cons in Hnb as [Hnb _]. apply Hnb. by apply list_elem_of_fmap_2. }
  split; rewrite ?Hall; [|apply Forall_forall; intros r' Hr'; by apply Hkeep|split|done|done| |done| | |].
  - cbn. by rewrite !length_insert.
  - apply Forall_forall. intros r' Hr'. rewrite (proj2 (Hkeep r' ltac:(rewrite <- Hall; set_solver))).
    rewrite decide_False by (apply Hne; set_solver). apply (proj1 (Forall_forall _ _) Hst0).
    assert (r' ∈ r :: tk' ++ nw2 ++ ak) as Hin2 by set_solver. rewrite app_comm_cons, <- HP in Hin2. set_solver.
  - apply Forall_app. split; [|apply Forall_singleton].
    + apply Forall_forall. intros r' Hr'. rewrite (proj2 (Hkeep r' ltac:(rewrite <- Hall; set_solver))).
      rewrite decide_False by (apply Hne; set_solver). by apply (proj1 (Forall_forall _ _) Hst1).
    + rewrite (proj2 (Hkeep r Hin)). by rewrite decide_True.
  - pose proof (finish_perm nw1 nw2 tk tk' us [] r HP) as Hb2. rewrite !app_nil_r in Hb2. by rewrite Hb2.
  - exists a. split; [done|]. split; [done|]. intros j r' Hj.
    change (vd_avail (finished r len d)) with (vd_avail d).
    assert ((nw1 ++ nw2) !! (length nw1 + j)%nat = Some r') as Hj' by 
      (by rewrite lookup_app_r by lia; replace (length nw1 + j - length nw1)%nat with j by lia).
    rewrite <- (Hav _ _ Hj'), length_app. f_equal. f_equal. f_equal. f_equal. lia.
  - cbn [finished vd_used_idx vd_id update vd_id_l vd_elems_l vd_info_l]. split; [done|].
    split; [apply u16_range|]. rewrite length_app. cbn [length]. unfold NUM in *. zlia.
  - intros j r' Hj. cbn [finished vd_used_idx vd_elems update vd_id_l vd_elems_l vd_info_l]. unfold NUM in *.
    apply lookup_app_Some in Hj as [Hj|[Hj1 Hj]].
    + pose proof (lookup_lt_Some _ _ _ Hj). rewrite list_lookup_insert_ne by zlia. by apply Hu.
    + apply list_lookup_singleton_Some in Hj as [Hj0 <-]. exists len.
      replace (Z.to_nat ((vd_used_idx d + Z.of_nat j) mod 8)) with (Z.to_nat (vd_id d mod 8)) by zlia.
      apply list_lookup_insert_eq. zlia.
Qed.

(** The state once the process of [r] has been told. *)
Definition told (r : req) (d : vdisk) : vdisk :=
  update vd_used_idx_l (u16 ((vd_used_idx d + 1) mod NUM)) (update vd_own_l (<[q_b r := 0]> (vd_own d)) d).

Lemma tell_perm nw tk us ak (r : req) : nw ++ tk ++ us ++ ak ++ [r] ≡ₚ nw ++ tk ++ (r :: us) ++ ak.
Proof using Type. do 2 apply Permutation_app_head. by rewrite app_assoc, <- Permutation_cons_append. Qed.

Lemma rings_told nw tk us ak r d : vq nw tk (r :: us) ak d -> st r = 0 -> vq nw tk us (ak ++ [r]) (told r d).
Proof using Type.
  intros [Ht [HL Hd [Hst0 [Hstr Hst1]%Forall_cons] Hb Hh Hbu Hto Ha (Hi1 & Hi2 & Hi3) Hu]] Hr0.
  pose proof (tell_perm nw tk us ak r) as Hall.
  split; [apply (taken_perm _ _ _ (chains_perm _ _ (symmetry Hall))); split; apply Ht|].
  pose proof Hb as Hn. rewrite <- Hall, !app_assoc, fmap_app in Hn. apply NoDup_app in Hn as (_ & Hn & _).
  assert (forall r', r' ∈ ((nw ++ tk) ++ us) ++ ak -> q_b r <> q_b r') as Hne.
  { intros r' Hin E. apply (Hn (q_b r')); [by apply list_elem_of_fmap_2|]. rewrite <- E. by left. }
  split; rewrite ?Hall; [done| |split; [|done]|done|done| | |done| |].
  - apply Forall_forall. intros r' Hr'. by destruct (proj1 (Forall_forall _ _) Hd r' Hr').
  - rewrite !app_assoc. apply Forall_app. split; [by rewrite <- app_assoc|]. apply Forall_singleton.
    change (status_of (told r d) r) with (status_of d r). by rewrite Hstr.
  - apply Forall_forall. intros r' Hr'. cbn [told vd_own update vd_used_idx_l vd_own_l].
    rewrite lookup_insert_ne by (apply Hne; set_solver).
    apply (proj1 (Forall_forall _ _) Hbu). set_solver.
  - apply Forall_app. split; [|by constructor; [apply lookup_insert_eq|]].
    apply Forall_forall. intros r' Hr'. cbn [told vd_own update vd_used_idx_l vd_own_l].
    rewrite lookup_insert_ne by (apply Hne; set_solver).
    by apply (proj1 (Forall_forall _ _) Hto).
  - cbn [told vd_used_idx vd_id update vd_used_idx_l vd_own_l]. cbn [length] in Hi3. unfold NUM in *.
    rewrite u16_small by zlia. split; [zlia|]. split; [done|]. zlia.
  - intros j r' Hj. destruct (Hu (S j) r' Hj) as [len E]. exists len. rewrite <- E.
    cbn [told vd_used_idx vd_elems update vd_used_idx_l vd_own_l]. unfold NUM in *.
    rewrite u16_small by zlia. do 2 f_equal. zlia.
Qed.

(** The bookkeeping of a request whose process is done with it. *)
Lemma rings_done nw tk us ak r ak' x d : vq nw tk us (ak ++ r :: ak') d ->
  rings nw tk us (ak ++ ak') (update vd_info_l (<[Z.to_nat (q_i0 r) := x]> (vd_info d)) d)
  /\ taken_descs (chain r ++ chains (nw ++ tk ++ us ++ ak ++ ak')) d /\ described d r.
Proof using Type.
  intros [Ht [(L1 & L2 & L3 & L4) Hd [Hst0 Hst1] Hb Hh Hbu Hto Ha Hi Hu]].
  assert (nw ++ tk ++ us ++ ak ++ r :: ak' ≡ₚ r :: nw ++ tk ++ us ++ ak ++ ak') as HP.
  { rewrite !app_assoc. symmetry. apply Permutation_middle. }
  rewrite HP in Hd, Hb, Hh. apply (taken_perm _ _ _ (chains_perm _ _ HP)) in Ht.
  apply Forall_cons in Hd as [Hdr Hd]. cbn [fmap list_fmap] in Hb, Hh.
  apply NoDup_cons in Hb as [_ Hb], Hh as [_ Hh].
  assert (forall r', r' ∈ nw ++ tk ++ us ++ ak ++ ak' ->
    <[Z.to_nat (q_i0 r) := x]> (vd_info d) !! Z.to_nat (q_i0 r') = vd_info d !! Z.to_nat (q_i0 r')) as Hkeep.
  { intros r' Hr'. rewrite list_lookup_insert_ne; [done|].
    pose proof Ht as [_ _ Hnd Hrg]. change (chains (r :: ?l)) with (chain r ++ chains l) in Hnd, Hrg.
    apply NoDup_app in Hnd as (_ & Hnd & _). intros E. apply (Hnd (q_i0 r)); [by left|].
    pose proof (chain_in r' _ (q_i0 r') Hr' ltac:(by left)) as Hin.
    apply Forall_app in Hrg as [Hr1 Hr2]. apply Forall_cons in Hr1 as [Hr1 _].
    pose proof (proj1 (Forall_forall _ _) Hr2 _ Hin). unfold rng in *.
    by replace (q_i0 r) with (q_i0 r') by lia. }
  split; [|by split]. split; cbn [vd_desc vd_avail vd_elems vd_info vd_own vd_used_idx vd_id update vd_info_l]; try done.
  - by rewrite length_insert.
  - apply Forall_forall. intros r' Hr'. pose proof (proj1 (Forall_forall _ _) Hd r' Hr') as [D0 D1 D2 D3 [s D4]].
    split; try done. exists s. cbn [vd_info update vd_info_l]. by rewrite Hkeep.
  - split; apply Forall_forall; intros r' Hr'; unfold status_of; cbn [vd_info update vd_info_l]; rewrite Hkeep by set_solver.
    + apply (proj1 (Forall_forall _ _) Hst0). set_solver.
    + by apply (proj1 (Forall_forall _ _) Hst1).
  - rewrite Forall_app, Forall_cons in Hto. apply Forall_app. naive_solver.
Qed.

(** * Posting *)

Section Post.
Variables (q0 q : pst) (bi : bio).

Definition set_desc (i : Z) (f : vringdesc -> vringdesc) (d : vdisk) : vdisk :=
  update vd_desc_l (<[Z.to_nat i := f (default desc0 (vd_desc d !! Z.to_nat i))]> (vd_desc d)) d.
Lemma set_desc_twice i f g d : length (vd_desc d) = 8%nat -> rng i ->
  set_desc i f (set_desc i g d) = set_desc i (fun x => f (g x)) d.
Proof using Type.
  intros L Hi. unfold rng, NUM in Hi. unfold set_desc. cbn [vd_desc update vd_desc_l].
  rewrite list_lookup_insert_eq by lia. cbn [default from_option id]. by rewrite list_insert_insert_eq.
Qed.
Lemma set_desc_length i f d : length (vd_desc (set_desc i f d)) = length (vd_desc d).
Proof using Type. apply length_insert. Qed.

Lemma wp_desc {B} i (k : M vst B) a l f n d (Q : B -> vst -> Prop) : length (vd_desc d) = 8%nat -> rng i ->
  wp k Q (ins q0 q bi (update vd_desc_l (<[Z.to_nat i := VRingDesc a l f n]> (vd_desc d)) d)) ->
  wp (_ ← dsc i ⊚ vr_addr_l <~ a; _ ← dsc i ⊚ vr_len_l <~ l; _ ← dsc i ⊚ vr_flags_l <~ f;
      _ ← dsc i ⊚ vr_next_l <~ n; k) Q (ins q0 q bi d).
Proof using Type.
  intros L Hi HQ. do 4 apply wp_bind, wp_wr.
  change (wp k Q (ins q0 q bi (set_desc i (update vr_next_l n) (set_desc i (update vr_flags_l f)
    (set_desc i (update vr_len_l l) (set_desc i (update vr_addr_l a) d)))))).
  rewrite !set_desc_twice by (rewrite ?set_desc_length; done). exact HQ.
Qed.

Lemma wp_desc_or {B} i (k : M vst B) a l f n d (Q : B -> vst -> Prop) : length (vd_desc d) = 8%nat -> rng i ->
  wp k Q (ins q0 q bi (update vd_desc_l (<[Z.to_nat i := VRingDesc a l (Z.lor f VRING_DESC_F_NEXT) n]> (vd_desc d)) d)) ->
  wp (_ ← dsc i ⊚ vr_addr_l <~ a; _ ← dsc i ⊚ vr_len_l <~ l; _ ← dsc i ⊚ vr_flags_l <~ f;
      _ ← md (dsc i ⊚ vr_flags_l) (fun f => Z.lor f VRING_DESC_F_NEXT);
      _ ← dsc i ⊚ vr_next_l <~ n; k) Q (ins q0 q bi d).
Proof using Type.
  intros L Hi HQ. do 3 apply wp_bind, wp_wr. apply wp_bind, wp_md, wp_bind, wp_wr.
  change (wp k Q (ins q0 q bi (set_desc i (update vr_next_l n)
    (set_desc i (fun x => update vr_flags_l (Z.lor (vr_flags x) VRING_DESC_F_NEXT) x) (set_desc i (update vr_flags_l f)
    (set_desc i (update vr_len_l l) (set_desc i (update vr_addr_l a) d))))))).
  rewrite !set_desc_twice by (rewrite ?set_desc_length; done). exact HQ.
Qed.

Lemma info_twice i b s l : (Z.to_nat i < length l)%nat ->
  <[Z.to_nat i := update in_b_l b (default info0 (<[Z.to_nat i := update in_status_l s
     (default info0 (l !! Z.to_nat i))]> l !! Z.to_nat i))]>
   (<[Z.to_nat i := update in_status_l s (default info0 (l !! Z.to_nat i))]> l) = <[Z.to_nat i := VInfo b s]> l.
Proof using Type. intros Hi. rewrite list_lookup_insert_eq by done. by rewrite list_insert_insert_eq. Qed.

(** The kernel's page table has the header's page. *)
Definition maps (va pa : Z) : Prop :=
  (kpt ← rd k_kpt_l; kwalkaddr kpt va) (view s_k_l (inq q)) = Ret pa (view s_k_l (inq q)).

Lemma wp_post r d (Q : unit -> vst -> Prop) :
  length (vd_desc d) = 8%nat -> length (vd_info d) = 8%nat -> Forall rng (chain r) -> maps (q_hdr r) (q_pa r) ->
  Q tt (ins q0 q bi (posted r d)) ->
  wp (post disk_at data_at (q_hdr r) (q_b r) (q_write r) (q_sector r) (q_i0 r) (q_i1 r) (q_i2 r)) Q (ins q0 q bi d).
Proof using Type.
  intros L1 L2 [R0 [R1 [R2 _]%Forall_cons]%Forall_cons]%Forall_cons Hm HQ.
  assert (forall i, rng i -> u16 i = i) as Hu by (intros i Hi; unfold rng, NUM in Hi; apply u16_small; lia).
  unfold post. apply wp_bind, wp_md. set (d1 := update vd_hdr_l (<[q_hdr r := (if truth (q_write r)
    then VIRTIO_BLK_T_OUT else VIRTIO_BLK_T_IN, 0, q_sector r)]> (vd_hdr d)) d).
  apply wp_bind, wp_zoom. eapply wp_eq; [exact Hm|]. rewrite !(Hu _ R0), !(Hu _ R1), !(Hu _ R2).
  match goal with |- wp _ _ ?s => change s with (ins q0 q bi d1) end.
  apply wp_desc; [done|done|]. set (d2 := update vd_desc_l _ d1).
  apply wp_desc_or; [by cbn; rewrite length_insert|done|]. set (d3 := update vd_desc_l _ d2).
  apply wp_bind, wp_wr.
  set (d4 := update vd_info_l (<[Z.to_nat (q_i0 r) := update in_status_l 0
    (default info0 (vd_info d !! Z.to_nat (q_i0 r)))]> (vd_info d)) d3).
  match goal with |- wp _ _ ?s => change s with (ins q0 q bi d4) end.
  apply wp_desc; [by cbn; rewrite !length_insert|done|].
  do 2 apply wp_bind, wp_wr. apply wp_bind, wp_rd. do 2 apply wp_bind, wp_wr. unfold wreg. apply wp_md.
  match goal with |- Q tt ?s => replace s with (ins q0 q bi (posted r d)); [exact HQ|] end.
  unfold posted. rewrite <- (info_twice (q_i0 r) (Some (q_b r)) 0) by (unfold rng, NUM in *; lia).
  by destruct (truth (q_write r)).
Qed.
End Post.

(** * Completion *)

(** The data of a read arrives in its buffer. *)
Definition moved (r : req) (data : list Z) (bi : bio) : bio :=
  if truth (q_write r) then bi else update (buf_l (q_b r) ⊚ b_data_l) data bi.

(** What the device may do between two looks at it, from the requests it has not
    seen, those it works on and the used ring: nothing, or take some of the
    requests it has not seen, in order, finish one of those it works on with its
    status, and go on. *)
Inductive works : list req -> list req -> list req -> bio * vdisk ->
    list req -> list req -> list req -> bio * vdisk -> Prop :=
| wk_rest nw tk us x : works nw tk us x nw tk us x
| wk_one nw1 nw2 tk tk1 us bi d r len data nw' tk' us' x :
    tk ++ nw1 ≡ₚ r :: tk1 -> works nw2 tk1 (us ++ [r]) (moved r data bi, finished r len d) nw' tk' us' x ->
    works (nw1 ++ nw2) tk us (bi, d) nw' tk' us' x.
(** That is all it does while the requests in flight are [l]. *)
Definition device_law (l : list req) (device : nat -> bio * vdisk -> bio * vdisk) : Prop :=
  forall n nw tk us ak bi d, nw ++ tk ++ us ++ ak ≡ₚ l -> vq nw tk us ak d ->
  exists nw' tk' us', works nw tk us (bi, d) nw' tk' us' (device n (bi, d)).

Lemma vq_same nw tk us ak d lk n : vq nw tk us ak d ->
  vq nw tk us ak (update vd_lock_l lk (update vd_looks_l n d)).
Proof using Type.
  intros [[T1 T2 T3 T4] [R1 R2 R3 R4 R5 R6 R7 R8 R9 R10]]. split; [by split|]. split; try done.
  apply Forall_forall. intros r Hr. by destruct (proj1 (Forall_forall _ _) R2 r Hr).
Qed.

(** From one state of the queue to another by the device's work. *)
Record served (nw tk us ak : list req) (bi : bio) (nw' tk' us' : list req) (bi' : bio) (d' : vdisk) : Prop := {
  sv_vq : vq nw' tk' us' ak d';
  sv_same : nw' ++ tk' ++ us' ≡ₚ nw ++ tk ++ us;
  sv_used : us `prefix_of` us';
  sv_bufs : forall b, (b ∉ q_b <$> us') -> bc_buf bi' !! b = bc_buf bi !! b
}.
Lemma works_served nw tk us x nw' tk' us' y ak : works nw tk us x nw' tk' us' y -> vq nw tk us ak (snd x) ->
  served nw tk us ak (fst x) nw' tk' us' (fst y) (snd y) /\ vd_lock (snd y) = vd_lock (snd x)
  /\ vd_regs (snd y) = vd_regs (snd x) /\ vd_used_idx (snd y) = vd_used_idx (snd x).
Proof using Type.
  intros Hw. induction Hw as [nw tk us x|nw1 nw2 tk tk1 us bi d r len data nw' tk' us' x HP Hw IH]; intros Hv.
  { split; [by split|done]. }
  pose proof (rings_finished _ _ _ _ _ _ _ len _ Hv HP) as Hv1.
  destruct (IH Hv1) as ([H1 H2 H3 H4] & El & Er & Eu). cbn [fst snd] in *.
  split; [|split; [by rewrite El|split; [by rewrite Er|by rewrite Eu]]]. split; [done| | |].
  - rewrite H2. pose proof (finish_perm nw1 nw2 tk tk1 us [] r HP) as H. by rewrite !app_nil_r in H.
  - etrans; [|exact H3]. by exists [r].
  - intros b Hb. rewrite H4 by done. unfold moved. destruct (truth (q_write r)); [done|].
    cbn. rewrite lookup_insert_ne; [done|]. intros <-. apply Hb. apply list_elem_of_fmap_2.
    destruct H3 as [e ->]. set_solver.
Qed.

Section Intr.
Variables (device : nat -> bio * vdisk -> bio * vdisk) (q0 : pst).

Lemma wp_used_id q nw tk us ak bi d (Q : Z -> vst -> Prop) :
  device_law (nw ++ tk ++ us ++ ak) device -> vq nw tk us ak d ->
  (forall nw' tk' us' bi' d', served nw tk us ak bi nw' tk' us' bi' d' -> vd_lock d' = vd_lock d ->
     vd_regs d' = vd_regs d -> vd_used_idx d' = vd_used_idx d -> Q (vd_id d') (ins q0 q bi' d')) ->
  wp (used_id device) Q (ins q0 q bi d).
Proof using Type.
  intros Hlaw Hv HQ. unfold used_id, look. apply wp_bind. wp_run. apply wp_rd.
  set (dl := update vd_lock_l (taken (vd_lock d) (h_tp (view hart_l q0))) (update vd_looks_l (S (vd_looks d)) d)).
  pose proof (vq_same _ _ _ _ _ (taken (vd_lock d) (h_tp (view hart_l q0))) (S (vd_looks d)) Hv) as Hvl.
  match goal with |- Q _ (update snd_l (device ?n ?x) ?s) =>
    change (Q (vd_id (snd (device n (bi, dl)))) (inq q, device n (bi, dl))); set (m := n) end.
  destruct (Hlaw m nw tk us ak bi dl ltac:(done) Hvl) as (nw' & tk' & us' & Hw).
  destruct (works_served _ _ _ _ _ _ _ _ ak Hw Hvl) as ([H1 H2 H3 H4] & El & Er & Eu).
  destruct (device m (bi, dl)) as [bi' d']. cbn [fst snd] in *.
  assert (d' = update vd_lock_l (taken (vd_lock d) (h_tp (view hart_l q0))) (update vd_lock_l (vd_lock d) d')) as Ed
    by (change (vd_lock dl) with (taken (vd_lock d) (h_tp (view hart_l q0))) in El; rewrite <- El; by destruct d').
  rewrite Ed. apply (HQ nw' tk' us' bi' (update vd_lock_l (vd_lock d) d')); try done.
  split; [|done..]. replace (update vd_lock_l (vd_lock d) d')
    with (update vd_lock_l (vd_lock d) (update vd_looks_l (vd_looks d') d')) by (by destruct d'). by apply vq_same.
Qed.

(** One turn: the ring is empty, or the process of its first request is told. *)
Lemma wp_intr_turn q nw tk us ak bi d (Q : unit + unit -> vst -> Prop) (P : string -> Prop) :
  quiet q -> c_noff (view mycpu_l (view hart_l q)) < 2 ^ 31 - 3 ->
  device_law (nw ++ tk ++ us ++ ak) device -> vq nw tk us ak d ->
  (forall nw' tk' us' bi' d', served nw tk us ak bi nw' tk' us' bi' d' -> vd_lock d' = vd_lock d ->
     vd_regs d' = vd_regs d ->
     match us' with
     | [] => Q (inr tt) (ins q0 q bi' d')
     | r :: us' => if decide (st r = 0)
         then forall q', woken_all (CBuf (q_b r)) q q' -> Q (inl tt) (ins q0 q' bi' (told r d'))
         else P "virtio_disk_intr status"
     end) ->
  ends_or P (intr_turn device) Q (ins q0 q bi d).
Proof using Type.
  intros Hq Hno Hlaw Hv HQ. unfold intr_turn. apply ends_or_bind, wp_rd, ends_or_bind.
  apply (wp_used_id q nw tk us ak bi d); [done|done|]. intros nw' tk' us' bi' d' Hs El Er Eu.
  specialize (HQ _ _ _ _ _ Hs El Er). pose proof (sv_vq _ _ _ _ _ _ _ _ _ _ Hs) as [Ht HR].
  change (view (vd ⊚ vd_used_idx_l) (ins q0 q bi d)) with (vd_used_idx d). rewrite <- Eu.
  pose proof (taken_two _ _ Ht) as H2. rewrite !length_app in H2.
  pose proof HR as [(L1 & L2 & L3 & L4) Hd [_ Hst] _ _ _ _ _ (Hi1 & Hi2 & Hi3) Hu]. unfold NUM in Hi1, Hi3, Hu.
  destruct us' as [|r us']; cbn [length] in *.
  { rewrite (proj2 (Z.eqb_eq _ _)) by (unfold NUM; zlia). exact HQ. }
  rewrite (proj2 (Z.eqb_neq _ _)) by (unfold NUM; zlia). apply ends_or_bind, wp_rd, ends_or_bind.
  destruct (Hu 0%nat r eq_refl) as [len E]. rewrite Z.add_0_r, Z.mod_small in E by lia.
  change (view (vd ⊚ vd_elems_l) (ins q0 q bi' d')) with (vd_elems d'). rewrite E.
  apply wp_mret. assert (r ∈ nw' ++ tk' ++ (r :: us') ++ ak) as Hin by set_solver.
  pose proof (proj1 (Forall_forall _ _) Hd r Hin) as [_ _ _ _ [s Hinf]].
  apply Forall_cons in Hst as [Hst _]. unfold status_of in Hst. rewrite Hinf in Hst. cbn in Hst. subst s.
  assert (rng (q_i0 r)) as Hr
    by (apply (proj1 (Forall_forall _ _) (td_rng _ _ Ht)), (chain_in r); [done|by left]). unfold rng, NUM in Hr.
  rewrite s32_small by lia. apply ends_or_bind, wp_rd, ends_or_bind. rewrite (proj2 (Z.ltb_ge _ _)) by lia.
  change (view (vd ⊚ vd_info_l) (ins q0 q bi' d')) with (vd_info d'). rewrite Hinf.
  apply wp_mret. cbn [in_status in_b lift]. destruct (decide (st r = 0)) as [E0|E0].
  2:{ rewrite (proj2 (Z.eqb_neq _ _)) by done. exact HQ. }
  rewrite E0. cbn [Z.eqb negb]. apply ends_or_wp, wp_bind, wp_mret, wp_bind, wp_wr, wp_bind, wp_zoom.
  apply (wp_wakeup (CBuf (q_b r)) q); [done|done|]. intros q' Hw _. wp_run. exact (HQ q' Hw).
Qed.

(** The processes of all the requests in [l] told. *)
Inductive told_all : list req -> pst -> pst -> Prop :=
| ta_nil q : told_all [] q q
| ta_cons r l q q1 q2 : woken_all (CBuf (q_b r)) q q1 -> told_all l q1 q2 -> told_all (r :: l) q q2.

Lemma wp_intr_loop fuel (P : string -> Prop) : forall q nw tk us ak bi d (Q : unit -> vst -> Prop),
  quiet q -> c_noff (view mycpu_l (view hart_l q)) < 2 ^ 31 - 3 ->
  device_law (nw ++ tk ++ us ++ ak) device -> vq nw tk us ak d ->
  (length (nw ++ tk ++ us) < fuel)%nat ->
  (forall r, r ∈ nw ++ tk ++ us -> st r <> 0 -> P "virtio_disk_intr status") ->
  (forall nw' tk' dn q' bi' d', vq nw' tk' [] (ak ++ dn) d' -> nw' ++ tk' ++ dn ≡ₚ nw ++ tk ++ us ->
     us `prefix_of` dn -> Forall (fun r => st r = 0) dn -> (forall b, (b ∉ q_b <$> dn) -> bc_buf bi' !! b = bc_buf bi !! b) ->
     told_all dn q q' -> vd_lock d' = vd_lock d -> vd_regs d' = vd_regs d -> view hart_l q' = view hart_l q ->
     Q tt (ins q0 q' bi' d')) ->
  ends_or P (loop fuel tt (fun _ => intr_turn device)) Q (ins q0 q bi d).
Proof using Type.
  induction fuel as [|fuel IH]; intros q nw tk us ak bi d Q Hq Hno Hlaw Hv Hf HP HQ; [lia|].
  cbn [loop]. apply ends_or_seq, (wp_intr_turn q nw tk us ak bi d); [done..|].
  intros nw' tk' us' bi' d' [Hv' HPm Hpre Hb] El Er. destruct us' as [|r us'].
  - apply ends_or_wp, wp_mret. apply (HQ nw' tk' [] q bi' d'); try done; [by rewrite app_nil_r|constructor].
  - assert (forall r', r' ∈ nw' ++ tk' ++ r :: us' -> r' ∈ nw ++ tk ++ us) as Hsub by (intros r' Hr'; by rewrite <- HPm).
    destruct (decide (st r = 0)) as [E0|E0]; [|by apply (HP r); [apply Hsub; set_solver|]].
    intros q1 Hw. apply (IH q1 nw' tk' us' (ak ++ [r])); [apply Hw|by rewrite (woken_noff _ _ _ Hw)| |by apply rings_told| | |].
    + intros n nw0 tk0 us0 ak0 bi0 d0 HP0. apply Hlaw. rewrite HP0, tell_perm, !app_assoc. 
      apply Permutation_app_tail. by rewrite <- !app_assoc.
    + rewrite <- HPm in Hf. rewrite !length_app in *. cbn [length] in Hf. lia.
    + intros r' Hr'. apply HP, Hsub. set_solver.
    + intros nw2 tk2 dn q2 bi2 d2 Hv2 HP2 Hpre2 Hst2 Hb2 Hta El2 Er2 Eh2.
      apply (HQ nw2 tk2 (r :: dn) q2 bi2 d2).
      * by rewrite <- app_assoc in Hv2.
      * rewrite <- HPm, <- !Permutation_middle, HP2. done.
      * destruct Hpre as [e He]. destruct us as [|u us]; [by apply prefix_nil|]. injection He as -> ->.
        apply prefix_cons. etrans; [|exact Hpre2]. by exists e.
      * by constructor.
      * intros b Hnb. rewrite Hb2 by set_solver. apply Hb. intros Hin. apply Hnb.
        destruct Hpre2 as [e ->]. rewrite fmap_cons, fmap_app. cbn [fmap list_fmap] in Hin. set_solver.
      * by econstructor.
      * by rewrite El2.
      * by rewrite Er2.
      * by rewrite Eh2, (woken_noff _ _ _ Hw).
Qed.
End Intr.

(** * Waiting *)

(** Process [p] has gone to sleep on [ch], with the disk's lock free again, to
    go on with [k] once it is back on a processor. *)
Definition sleeps_on (p : nat) (ch : chan) (bi : bio) (d : vdisk) {A}
    (Q : M vst A -> Prop) (w : wait_reason) (k : M vst A) (s : vst) : Prop :=
  w = WSched /\ exists q1, s = (q1, (bi, d)) /\ p_state (view (proc_l p) q1) = SLEEPING
  /\ p_chan (view (proc_l p) q1) = Some ch /\ Q k.
(** The process is back, in [q3], and the disk is as [bi2] and [d2] say. *)
Record woke_up (p : nat) (q q2 q3 : pst) (d2 : vdisk) : Prop := {
  wu_resumes : exists h, resumes p h q2 q3
    /\ c_intena (view mycpu_l (pushed h)) = c_intena (view mycpu_l (pushed (view hart_l q)));
  wu_runs : runs p q3;
  wu_lock : unheld (vd_lock d2)
}.

Section Rw.
Variables (p fuel : nat).

(** Once the process is back, [k] does what [m] does inside the lock. *)
Definition resumes_as (q : pst) {A} (m k : M vst A) : Prop := forall q2 q3 bi2 d2,
  woke_up p q q2 q3 d2 -> k (q2, (bi2, d2)) = m (ins q3 q3 bi2 d2).
Lemma sleeps_seq {A B} (n m : M vst A) (f : A -> M vst B) m' ch q bi d s :
  yields m (sleeps_on p ch bi d (resumes_as q n)) s -> (forall t, (n ≫= f) t = m' t) ->
  yields (m ≫= f) (sleeps_on p ch bi d (resumes_as q m')) s.
Proof using Type.
  intros H Hm. apply yields_seq. unfold yields in *. destruct (m s) as [| | | |w k s1]; try done.
  destruct H as (-> & q1 & -> & H1 & H2 & Hk). split; [done|]. exists q1. do 3 (split; [done|]).
  intros q2 q3 bi2 d2 Hw. rewrite <- Hm. unfold mbind, M_bind. by rewrite (Hk q2 q3).
Qed.

Lemma yields_sleep ch q q' bi d :
  runs p q' -> view hart_l q' = view hart_l q -> unheld (vd_lock d) ->
  yields (sleep fst_l ch vlk) (sleeps_on p ch bi d (resumes_as q (mret tt))) (ins q q' bi d).
Proof using Type.
  intros [Hq Hn Hp] Eh Hl. unfold ins, lkc. rewrite <- Eh.
  destruct (sleep_pair VK p ch q' (bi, d) Hq Hl Hn Hp) as (q1 & E & Ep & _). unfold lkc in E.
  unfold yields. rewrite E. split; [done|]. exists q1. split; [done|]. rewrite Ep. split; [done|]. split; [done|].
  rewrite Eh. intros q2 q3 bi2 d2 [(h & Hr & <-) _ Hl2]. by apply (sleep_resumed VK).
Qed.

(** The two loops that wait: the process goes round when it is back. *)
Lemma yields_wait b q bi d n : runs p q -> unheld (vd_lock d) -> vd_own d !! b = Some 1 ->
  yields (loop (S n) tt (fun _ => done_turn b))
    (sleeps_on p (CBuf b) bi d (resumes_as q (loop n tt (fun _ => done_turn b)))) (ins q q bi d).
Proof using Type.
  intros Hr Hl Ho. cbn [loop]. apply (sleeps_seq (mret (inl tt))); [|done].
  unfold done_turn at 1. apply yields_bind, wp_rd.
  change (view (own b) (ins q q bi d)) with (default 0 (vd_own d !! b)). rewrite Ho. cbn [default from_option id Z.eqb Pos.eqb].
  apply (sleeps_seq (mret tt)); [|done]. by apply yields_sleep.
Qed.

Lemma yields_alloc B q bi d n : runs p q -> unheld (vd_lock d) -> taken_descs B d -> (5 < length B <= 6)%nat ->
  exists d', taken_descs B d' /\ spares B d d' /\
  yields (loop (S n) tt (fun _ => desc_turn))
    (sleeps_on p CDiskFree bi d' (resumes_as q (loop n tt (fun _ => desc_turn)))) (ins q q bi d).
Proof using Type.
  intros Hr Hl Ht HB. pose proof Hr as [Hq Hn Hp].
  assert (wp alloc3_desc (fun r s => exists q' d', r = None /\ s = ins q q' bi d' /\ taken_descs B d' /\
    spares B d d' /\ woken_all CDiskFree q q') (ins q q bi d)) as (r & s & E & q' & d' & -> & -> & Ht' & Hs & Hw)%wp_inv.
  { apply (wp_alloc3 q bi B); [done|rewrite Hn; lia|done|lia| |].
    - intros i0 i1 i2 d' T _. apply taken_le in T. cbn [length] in T. lia.
    - intros _ q' d' T S W. by exists q', d'. }
  exists d'. split; [done|]. split; [done|]. cbn [loop]. apply (sleeps_seq (mret (inl tt))); [|done].
  unfold desc_turn at 1. apply yields_bind. eapply wp_eq; [exact E|].
  apply (sleeps_seq (mret tt)); [|done]. pose proof (woken_noff _ _ _ Hw) as Eh.
  apply yields_sleep; [split; [apply Hw|by rewrite Eh..]|done|].
  destruct Hs as (f & ds & -> & _). exact Hl.
Qed.

(** * A request from beginning to end *)

Variables (b : nat) (write sector buf0 pa : Z).

(** What is left of [virtio_disk_rw] once it waits, and once it has the lock. *)
Definition rw_wait (n : nat) (idx0 : Z) : M vst unit :=
  _ ← loop n tt (fun _ => done_turn b);
  _ ← inf idx0 ⊚ in_b_l <~ None;
  _ ← free_chain idx0;
  release phart vlk.
Definition rw_alloc (n : nat) : M vst unit :=
  idx ← loop n tt (fun _ => desc_turn);
  _ ← post disk_at data_at buf0 b write sector (nth 0 idx 0) (nth 1 idx 0) (nth 2 idx 0);
  rw_wait fuel (nth 0 idx 0).

(** The request is done and gone, the others are untouched. *)
Definition gone (q : pst) (bi : bio) (nw tk us ak : list req) (_ : unit) (s : vst) : Prop :=
  exists q' d', s = (q', (bi, d')) /\ vq nw tk us ak d' /\ unheld (vd_lock d') /\ woken_all CDiskFree q q'.
(** [k] is what the process of [r], asleep since [q], does when it is back: if
    its request has been told, it gives the descriptors back and returns; if it
    has not, it sleeps again, and all else is as it was; and so [m] times. *)
Fixpoint awaits (r : req) (m : nat) (q : pst) (k : M vst unit) : Prop :=
  forall q2 q3 bi2 d2, woke_up p q q2 q3 d2 ->
    (forall nw2 tk2 us2 ak2 ak2', vq nw2 tk2 us2 (ak2 ++ r :: ak2') d2 ->
       wp k (gone q3 bi2 nw2 tk2 us2 (ak2 ++ ak2')) (q2, (bi2, d2)))
    /\ match m with
       | O => True
       | S m' => vd_own d2 !! q_b r = Some 1 ->
           yields k (sleeps_on p (CBuf (q_b r)) bi2 d2 (awaits r m' q3)) (q2, (bi2, d2))
       end.
(** Request [r] is in the queue and its process waits for it. *)
Definition in_flight (m : nat) (q : pst) (bi : bio) (nw tk us ak : list req)
    (w : wait_reason) (k : M vst unit) (s : vst) : Prop :=
  exists i0 i1 i2 d', let r := Req b write sector buf0 pa i0 i1 i2 in
    vq (nw ++ [r]) tk us ak d' /\ last (vd_regs d') = Some (VIRTIO_MMIO_QUEUE_NOTIFY, 0) /\ unheld (vd_lock d') /\
    sleeps_on p (CBuf b) bi d' (awaits r m q) w k s.
(** [k] is what a process does that sleeps, since [q], for lack of descriptors:
    if there are some when it is back it queues its request, and if there are
    not it sleeps again, holding none; and so [n] times. *)
Fixpoint lacks (m n : nat) (q : pst) (k : M vst unit) : Prop :=
  forall q2 q3 bi2 d2 nw2 tk2 us2 ak2, let all2 := nw2 ++ tk2 ++ us2 ++ ak2 in
    woke_up p q q2 q3 d2 -> vq nw2 tk2 us2 ak2 d2 ->
    ((length all2 <= 1)%nat -> (b ∉ q_b <$> all2) -> (buf0 ∉ q_hdr <$> all2) -> maps q3 buf0 pa ->
       yields k (in_flight m q3 bi2 nw2 tk2 us2 ak2) (q2, (bi2, d2)))
    /\ match n with
       | O => True
       | S n' => length all2 = 2%nat -> exists d', vq nw2 tk2 us2 ak2 d' /\
           yields k (sleeps_on p CDiskFree bi2 d' (lacks m n' q3)) (q2, (bi2, d2))
       end.

Lemma wp_rw_end q bi d n nw tk us ak ak' r : q_b r = b -> (0 < n)%nat -> runs p q -> unheld (vd_lock d) ->
  vq nw tk us (ak ++ r :: ak') d -> wp (rw_wait n (q_i0 r)) (gone q bi nw tk us (ak ++ ak')) (ins q q bi d).
Proof using Type.
  intros Eb Hn Hr Hl Hv. pose proof Hv as [_ HR]. pose proof (vq_told _ _ _ _ _ HR) as Ho.
  apply Forall_app in Ho as [_ [Ho _]%Forall_cons]. rewrite Eb in Ho.
  destruct n as [|n]; [lia|]. unfold rw_wait. cbn [loop]. apply wp_bind, wp_bind. unfold done_turn at 1.
  apply wp_bind, wp_rd. change (view (own b) (ins q q bi d)) with (default 0 (vd_own d !! b)). rewrite Ho.
  cbn [default from_option id Z.eqb]. apply wp_mret, wp_mret, wp_bind, wp_wr.
  destruct (rings_done _ _ _ _ _ _ (update in_b_l None (default info0 (vd_info d !! Z.to_nat (q_i0 r)))) _ Hv)
    as (Hrs & [T1 T2 T3 T4] & [D0 D1 D2 _ _]).
  match goal with |- wp _ _ ?s => change s with (ins q q bi (update vd_info_l (<[Z.to_nat (q_i0 r) :=
    update in_b_l None (default info0 (vd_info d !! Z.to_nat (q_i0 r)))]> (vd_info d)) d)) end.
  set (d1 := update vd_info_l _ d) in *. pose proof Hr as [Hq Hno Hp].
  apply wp_bind. eapply (wp_free_descs q bi (q_i0 r) (q_i1 r) (q_i2 r) (chains (nw ++ tk ++ us ++ ak ++ ak')));
    try done; [rewrite Hno; lia| |].
  { cbn [vr_flags]. by destruct (truth (q_write r)). }
  intros q' d' Hw Ht' Hs. pose proof (woken_noff _ _ _ Hw) as Eh.
  assert (rings nw tk us (ak ++ ak') d') as Hrs'.
  { apply (rings_spares _ _ _ _ d1); [done|done|apply Ht']. }
  assert (vd_lock d' = vd_lock d) as El by (by destruct Hs as (f & ds & -> & _)).
  apply (wp_unlock' VK q q' (bi, d')); [apply Hq|done|unfold unheld; cbn; by rewrite El|].
  exists q', d'. split; [done|]. split; [by split|]. split; [by rewrite El|done].
Qed.

Lemma awaits_ok r m : q_b r = b -> forall n q k, (m < n)%nat ->
  resumes_as q (rw_wait n (q_i0 r)) k -> awaits r m q k.
Proof using Type.
  intros Eb. induction m as [|m IH]; intros n q k Hn Hk q2 q3 bi2 d2 Hw; (split;
    [intros nw2 tk2 us2 ak2 ak2' Hv; unfold wp; rewrite (Hk q2 q3 bi2 d2 Hw);
     apply (wp_rw_end q3 bi2 d2 n nw2 tk2 us2 ak2 ak2' r); [done|lia|apply Hw|apply Hw|done]|]); [done|].
  rewrite Eb. intros Ho. unfold yields. rewrite (Hk q2 q3 bi2 d2 Hw). destruct n as [|n]; [lia|].
  apply (yields_mono _ (sleeps_on p (CBuf b) bi2 d2 (resumes_as q3 (rw_wait n (q_i0 r))))).
  { apply (sleeps_seq (loop n tt (fun _ => done_turn b))); [|done]. apply yields_wait; [apply Hw|apply Hw|done]. }
  intros w k' s (-> & q1 & -> & H1 & H2 & Hk'). split; [done|]. exists q1. do 3 (split; [done|]). apply (IH n); [lia|done].
Qed.

Variable m : nat.
Hypothesis fuel_two : (S m < fuel)%nat.

Lemma yields_posts q bi d n nw tk us ak : (0 < n)%nat -> runs p q -> unheld (vd_lock d) -> vq nw tk us ak d ->
  (length (nw ++ tk ++ us ++ ak) <= 1)%nat -> (b ∉ q_b <$> (nw ++ tk ++ us ++ ak)) ->
  (buf0 ∉ q_hdr <$> (nw ++ tk ++ us ++ ak)) -> maps q buf0 pa ->
  yields (rw_alloc n) (in_flight m q bi nw tk us ak) (ins q q bi d).
Proof using fuel_two.
  intros Hn Hr Hl [Ht Hrs] Hlen Hb Hh Hm. pose proof Hr as [Hq Hno Hp].
  destruct n as [|n]; [lia|]. unfold rw_alloc. cbn [loop]. apply yields_bind, wp_bind. unfold desc_turn at 1.
  apply wp_bind, (wp_alloc3 q bi (chains (nw ++ tk ++ us ++ ak))); try done;
    [rewrite Hno; lia|rewrite length_chains; lia| |rewrite length_chains; lia].
  intros i0 i1 i2 d' Ht' Hs. do 2 apply wp_mret. cbn [nth].
  set (r := Req b write sector buf0 pa i0 i1 i2).
  assert (taken_descs (chains (r :: nw ++ tk ++ us ++ ak)) d') as Htr.
  { eapply taken_perm; [|exact Ht'].
    apply (Permutation_app_tail (chains (nw ++ tk ++ us ++ ak)) (symmetry (Permutation_rev [i0; i1; i2]))). }
  assert (vd_lock d' = vd_lock d) as El by (by destruct Hs as (f & ds & -> & _)).
  pose proof (rings_spares _ _ _ _ _ _ Hrs Hs (td_rng _ _ Ht)) as Hrs'.
  pose proof (rings_posted _ _ _ _ r _ Hrs' Htr Hb Hh) as Hv.
  pose proof (vq_lens _ _ _ _ _ Hrs') as (L1 & _ & _ & L4).
  pose proof (td_rng _ _ Htr) as [R1 _]%Forall_app.
  apply yields_bind, (wp_post q q bi r d'); [done|done|exact R1|exact Hm|].
  apply (yields_mono _ (sleeps_on p (CBuf b) bi (posted r d') (resumes_as q (rw_wait (pred fuel) i0)))).
  { destruct fuel as [|f]; [lia|]. cbn [pred].
    apply (sleeps_seq (loop f tt (fun _ => done_turn b))); [|done].
    apply yields_wait; [done|by cbn; rewrite El|apply lookup_insert_eq]. }
  intros w k s (-> & q1 & -> & H1 & H2 & Hk). exists i0, i1, i2, (posted r d'). split; [exact Hv|].
  split; [by cbn; rewrite last_snoc|]. split; [by cbn; rewrite El|]. split; [done|].
  exists q1. do 3 (split; [done|]). apply (awaits_ok r m eq_refl (pred fuel)); [lia|exact Hk].
Qed.

Lemma lacks_ok i : forall n q k, (i < n)%nat -> resumes_as q (rw_alloc n) k -> lacks m i q k.
Proof using fuel_two.
  induction i as [|i IH]; intros n q k Hn Hk q2 q3 bi2 d2 nw2 tk2 us2 ak2 all2 Hw Hv2; (split;
    [intros Hl2 Hb2 Hh2 Hm2; unfold yields; rewrite (Hk q2 q3 bi2 d2 Hw);
     apply yields_posts; try done; first [lia|apply Hw]|]); [done|].
  intros Hlen. pose proof Hv2 as [Ht Hrs]. destruct n as [|n]; [lia|]. pose proof (wu_runs _ _ _ _ _ Hw) as Hr.
  destruct (yields_alloc _ q3 bi2 d2 n Hr (wu_lock _ _ _ _ _ Hw) Ht ltac:(rewrite length_chains; unfold all2 in Hlen; lia))
    as (d1 & Ht1 & Hs & Hy).
  exists d1. split; [split; [done|]; by apply (rings_spares _ _ _ _ d2); [| |apply Ht]|].
  unfold yields. rewrite (Hk q2 q3 bi2 d2 Hw).
  apply (yields_mono _ (sleeps_on p CDiskFree bi2 d1 (resumes_as q3 (rw_alloc n)))).
  { by apply (sleeps_seq (loop n tt (fun _ => desc_turn))). }
  intros w k' s (-> & q1 & -> & H1 & H2 & Hk'). split; [done|]. exists q1. do 3 (split; [done|]). apply (IH n); [lia|done].
Qed.
End Rw.
End Protocol.

(** * The theorems *)

(** C9. Every disk request owns its descriptors.  [virtio_disk_rw] takes three
    free descriptors, writes the chain that says exactly what it was asked for
    (the header with direction and sector, the buffer's 512 bytes, the status
    byte), puts the chain's head in the next slot of the available ring, tells
    the device, and sleeps on the buffer; the other requests in flight keep
    their chains.  However often it is woken ([m] times, as far as the fuel
    goes), it sleeps again while [b->disk] is still 1, and the queue stays as it
    is; woken with its request told, it returns with its descriptors free again,
    the other requests untouched, and the processes that wait for descriptors
    woken.  When two requests are in flight it sleeps on the free list instead,
    holding no descriptor, does so again as often as it is woken and finds two,
    and queues its request in the same way when there is room; there are never
    more than two. *)
Theorem virtio_disk_rw_queues (disk_at : Z) (data_at : nat -> Z) (st : req -> Z) (p fuel m b : nat) (write buf0 pa : Z)
    (q : pst) (bi : bio) (d : vdisk) (nw tk us ak : list req) :
  let all := nw ++ tk ++ us ++ ak in
  let sector := b_sectorno (view (buf_l b) bi) in
  (S m < fuel)%nat -> runs p q -> unheld (vd_lock d) -> vq disk_at data_at st nw tk us ak d ->
  (b ∉ q_b <$> all) -> (buf0 ∉ q_hdr <$> all) -> maps q buf0 pa ->
  (length all <= 2)%nat
  /\ ((length all <= 1)%nat -> yields (virtio_disk_rw disk_at data_at fuel buf0 b write)
        (in_flight disk_at data_at st p b write sector buf0 pa m q bi nw tk us ak) (q, (bi, d)))
  /\ (length all = 2%nat -> exists d1, vq disk_at data_at st nw tk us ak d1 /\
        yields (virtio_disk_rw disk_at data_at fuel buf0 b write)
          (sleeps_on p CDiskFree bi d1 (lacks disk_at data_at st p b write sector buf0 pa m m q)) (q, (bi, d))).
Proof.
  intros all sector Hf Hr Hl Hv Hb Hh Hm. pose proof Hv as [Ht Hrs]. split; [by apply (taken_two _ d)|].
  assert (forall Q, yields (rw_alloc disk_at data_at fuel b write sector buf0 fuel) Q (ins q q bi d) ->
    yields (virtio_disk_rw disk_at data_at fuel buf0 b write) Q (q, (bi, d))) as Hin.
  { intros Q H. unfold virtio_disk_rw. apply yields_bind, wp_rd, yields_bind.
    apply (wp_lock VK); [apply (runs_settled p); exact Hr|exact Hl|exact H]. }
  split.
  - intros Hlen. apply Hin, yields_posts; try done. lia.
  - intros Hlen. destruct fuel as [|n]; [lia|].
    destruct (yields_alloc p _ q bi d n Hr Hl Ht ltac:(rewrite length_chains; unfold all in Hlen; lia))
      as (d1 & Ht1 & Hs & Hy).
    exists d1. split; [split; [done|]; by apply (rings_spares _ _ _ _ _ _ _ d); [| |apply Ht]|].
    apply Hin. apply (yields_mono _ (sleeps_on p CDiskFree bi d1
      (resumes_as p q (rw_alloc disk_at data_at (S n) b write sector buf0 n)))).
    { by apply (sleeps_seq p (loop n tt (fun _ => desc_turn))). }
    intros w k s (-> & q1 & -> & H1 & H2 & Hk). split; [done|]. exists q1. do 3 (split; [done|]).
    eapply (lacks_ok disk_at data_at st p (S n)); [exact Hf| |exact Hk]. lia.
Qed.

Lemma told_entries l q q' i : told_all l q q' -> (i < 50)%nat -> let pr := entry (s_procs q) i in
  entry (s_procs q') i = if bool_decide (p_state pr = SLEEPING /\ p_chan pr ∈ (fun r => Some (CBuf (q_b r))) <$> l)
    then update p_state_l RUNNABLE pr else pr.
Proof.
  intros H Hi. induction H as [q|r l q q1 q2 [_ (procs & -> & Hp)] _ IH]; cbn zeta in *.
  - rewrite bool_decide_eq_false_2; [done|]. set_solver.
  - rewrite IH. change (s_procs (update s_procs_l procs q)) with procs. rewrite Hp, decide_True by done.
    set (pr := entry (s_procs q) i). unfold woken. rewrite <- bool_decide_and.
    destruct (bool_decide_reflect (p_state pr = SLEEPING /\ p_chan pr = Some (CBuf (q_b r)))) as [[H1 H2]|H1].
    + rewrite (bool_decide_eq_true_2 (p_state pr = SLEEPING /\ _)) by (split; [done|rewrite H2; cbn; by left]).
      by rewrite bool_decide_eq_false_2 by (by intros [H _]).
    + rewrite (bool_decide_ext _ (p_state pr = SLEEPING /\ p_chan pr ∈ (fun r => Some (CBuf (q_b r))) <$> r :: l));
        [done|]. cbn [fmap list_fmap]. rewrite elem_of_cons. naive_solver.
Qed.

(** C10. A disk interrupt tells exactly the processes whose requests the device
    has finished.  Between any two looks at it the device may take requests and
    finish any number of those it works on, in any order, each with a status
    [st] of its own.  The handler goes through the whole of the used ring and
    terminates.  If it returns, every request it came to had succeeded; it has
    acknowledged the interrupt and left the ring empty; every request in it has
    [b->disk] cleared and the processes asleep on its buffer runnable, and no
    other process changes; no other request is touched, and no buffer but those
    of the finished requests.  It panics only for a request that has failed, and
    does if such a request is in the ring when it begins. *)
Theorem virtio_disk_intr_tells (disk_at : Z) (data_at : nat -> Z) (st : req -> Z) (regs : nat -> Z -> Z)
    (device : nat -> bio * vdisk -> bio * vdisk) (fuel : nat) (q : pst) (bi : bio) (d : vdisk)
    (nw tk us ak : list req) :
  device_law disk_at data_at st (nw ++ tk ++ us ++ ak) device ->
  quiet q -> c_noff (view mycpu_l (view hart_l q)) < 2 ^ 31 - 3 -> unheld (vd_lock d) ->
  vq disk_at data_at st nw tk us ak d -> (2 < fuel)%nat ->
  ends_or (fun msg => msg = "virtio_disk_intr status" /\ exists r, r ∈ nw ++ tk ++ us /\ st r <> 0)
    (virtio_disk_intr regs device fuel) (fun _ '(q', (bi', d')) => exists nw' tk' dn v,
       vq disk_at data_at st nw' tk' [] (ak ++ dn) d'
    /\ nw' ++ tk' ++ dn ≡ₚ nw ++ tk ++ us /\ us `prefix_of` dn /\ Forall (fun r => st r = 0) dn
    /\ (forall i, (i < 50)%nat -> let pr := entry (s_procs q) i in
          entry (s_procs q') i
          = if bool_decide (p_state pr = SLEEPING /\ p_chan pr ∈ (fun r => Some (CBuf (q_b r))) <$> dn)
            then update p_state_l RUNNABLE pr else pr)
    /\ (forall b, (b ∉ q_b <$> dn) -> bc_buf bi' !! b = bc_buf bi !! b)
    /\ vd_regs d' = vd_regs d ++ [(VIRTIO_MMIO_INTERRUPT_ACK, v)]
    /\ unheld (vd_lock d') /\ view hart_l q' = view hart_l q) (q, (bi, d)).
Proof.
  intros Hlaw Hq Hno Hl Hv Hf. pose proof (taken_two _ _ (proj1 Hv)) as H2. unfold virtio_disk_intr.
  apply ends_or_bind, (wp_lock VK); [apply Hq|exact Hl|].
  change (inq q, lkc VK q (bi, d)) with (ins q q bi d).
  apply ends_or_seq, (wp_intr_loop disk_at data_at st device q fuel _ q nw tk us ak); [done..| | |].
  { rewrite !length_app in *. lia. }
  { intros r Hr Hs. split; [done|]. by exists r. }
  intros nw' tk' dn q' bi' d' Hv' HP Hpre Hst Hb Hta El Er Eh. apply ends_or_wp. unfold rreg, look, wreg. wp_run.
  set (v := u32 (Z.land (u32 (regs (vd_looks d') VIRTIO_MMIO_INTERRUPT_STATUS)) 3)).
  set (d2 := update vd_regs_l (vd_regs d' ++ [(VIRTIO_MMIO_INTERRUPT_ACK, v)])
    (update vd_looks_l (S (vd_looks d')) d')).
  apply (wp_unlock' VK q q' (bi', d2)); [apply Hq|done|unfold unheld; cbn; by rewrite El|].
  exists nw', tk', dn, v. split; [|split; [done|]; split; [done|]; split; [done|]; split; [|split; [done|]; split; [|split]]].
  - destruct Hv' as [[T1 T2 T3 T4] [R1 R2 R3 R4 R5 R6 R7 R8 R9 R10]]. split; [by split|]. split; try done.
    apply Forall_forall. intros r Hr. by destruct (proj1 (Forall_forall _ _) R2 r Hr).
  - intros i Hi. by apply told_entries.
  - cbn. by rewrite Er.
  - unfold unheld. cbn. by rewrite El.
  - done.
Qed.

(** * Setting up *)

(** [d'] is [d] but for the registers. *)
Definition regs_only (d d' : vdisk) : Prop := exists l n, d' = update vd_regs_l l (update vd_looks_l n d).
Lemma regs_only_trans d d1 d2 : regs_only d d1 -> regs_only d1 d2 -> regs_only d d2.
Proof. intros (l1 & n1 & ->) (l2 & n2 & ->). by exists l2, n2. Qed.
Lemma wp_rreg regs r q bi d d1 (Q : Z -> vst -> Prop) : regs_only d d1 ->
  (forall n d', regs_only d d' -> Q (u32 (regs n r)) (q, (bi, d'))) -> wp (rreg regs r) Q (q, (bi, d1)).
Proof.
  intros Ho HQ. unfold rreg, look. wp_run. apply (HQ (vd_looks d1)), (regs_only_trans _ _ _ Ho). by eexists _, _.
Qed.
Lemma wp_wreg r v q bi d d1 (Q : unit -> vst -> Prop) : regs_only d d1 ->
  (forall d', regs_only d d' -> Q tt (q, (bi, d'))) -> wp (wreg r v) Q (q, (bi, d1)).
Proof.
  intros Ho HQ. unfold wreg. wp_run. apply HQ, (regs_only_trans _ _ _ Ho). by exists (vd_regs d1 ++ [(r, u32 v)]), (vd_looks d1).
Qed.

Lemma wp_free_all q bi d (Q : unit -> vst -> Prop) : length (vd_free d) = 8%nat ->
  Q tt (q, (bi, update vd_free_l (replicate 8 1) d)) ->
  wp (for_each (seqZ 0 NUM) (fun i => fre i <~ 1)) Q (q, (bi, d)).
Proof.
  intros Hl HQ. apply (wp_for_each _ (fun dn s => exists f, s = (q, (bi, update vd_free_l f d)) /\ length f = 8%nat
    /\ forall i, i ∈ dn -> f !! Z.to_nat i = Some 1)).
  - exists (vd_free d). split; [by destruct d|]. split; [done|]. by intros i ?%elem_of_nil.
  - intros dn i rest s E (f & -> & Hf & Hd). apply wp_wr. exists (<[Z.to_nat i := 1]> f). split; [done|].
    split; [by rewrite length_insert|]. assert (0 <= i < 8) as Hi.
    { assert (i ∈ seqZ 0 NUM) as Hi by (rewrite E; set_solver). by apply rng_seq in Hi. }
    intros j [Hj|Hj%list_elem_of_singleton]%elem_of_app.
    + destruct (decide (Z.to_nat j = Z.to_nat i)) as [->|]; [apply list_lookup_insert_eq; lia|].
      rewrite list_lookup_insert_ne by done. by apply Hd.
    + subst j. apply list_lookup_insert_eq. lia.
  - intros s (f & -> & Hf & Hd). replace f with (replicate 8 1); [done|]. symmetry. apply list_eq. intros i.
    destruct (decide (i < 8)%nat) as [Hi|Hi].
    + rewrite lookup_replicate_2 by done. rewrite <- (Nat2Z.id i). apply Hd, elem_of_seqZ. unfold NUM. lia.
    + rewrite !lookup_ge_None_2; [done|by rewrite length_replicate; lia|lia].
Qed.

(** The queue [virtio_disk_init] sets up for a device that answers as a legacy
    block device with room for it: empty, with every descriptor free. *)
Lemma virtio_disk_init_ready (regs : nat -> Z -> Z) (disk_at : Z) (data_at : nat -> Z) (st : req -> Z) (q : pst) (bi : bio) (d : vdisk) :
  (forall n, u32 (regs n VIRTIO_MMIO_MAGIC_VALUE) = 0x74726976) -> (forall n, u32 (regs n VIRTIO_MMIO_VERSION) = 1) ->
  (forall n, u32 (regs n VIRTIO_MMIO_DEVICE_ID) = 2) -> (forall n, u32 (regs n VIRTIO_MMIO_VENDOR_ID) = 0x554d4551) ->
  (forall n, NUM <= u32 (regs n VIRTIO_MMIO_QUEUE_NUM_MAX)) ->
  length (vd_free d) = 8%nat -> length (vd_info d) = 8%nat -> vd_used_idx d = 0 ->
  wp (virtio_disk_init regs disk_at) (fun _ '(q', (bi', d')) =>
    q' = q /\ bi' = bi /\ vq disk_at data_at st [] [] [] [] d' /\ unheld (vd_lock d')) (q, (bi, d)).
Proof.
  intros H1 H2 H3 H4 H5 Lf Li Hu. unfold virtio_disk_init, initlock. apply wp_bind. wp_run.
  set (d0 := update vd_lock_l (Spin 0 "virtio_disk" None) d).
  match goal with |- wp _ _ ?s => change s with (q, (bi, d0)) end.
  assert (regs_only d0 d0) as O by (by exists (vd_regs d0), (vd_looks d0)).
  eapply wp_rreg; [exact O|]. clear O. intros n1 d1 O. rewrite H1. cbn [Z.eqb Pos.eqb].
  apply wp_bind. eapply wp_rreg; [exact O|]. clear O d1. intros n2 d1 O. rewrite H2. cbn [Z.eqb Pos.eqb].
  apply wp_bind. eapply wp_rreg; [exact O|]. clear O d1. intros n3 d1 O. rewrite H3. cbn [Z.eqb Pos.eqb].
  apply wp_bind. eapply wp_rreg; [exact O|]. clear O d1. intros n4 d1 O. rewrite H4. cbn [Z.eqb Pos.eqb negb].
  do 2 (apply wp_bind; eapply wp_wreg; [exact O|]; clear O d1; intros d1 O).
  apply wp_bind. eapply wp_rreg; [exact O|]. clear O d1. intros n5 d1 O.
  do 5 (apply wp_bind; eapply wp_wreg; [exact O|]; clear O d1; intros d1 O).
  apply wp_bind. eapply wp_rreg; [exact O|]. clear O d1. intros n6 d1 O. specialize (H5 n6). unfold NUM in H5 at 1.
  rewrite (proj2 (Z.eqb_neq _ 0)), (proj2 (Z.ltb_ge _ NUM)) by (unfold NUM; lia).
  apply wp_bind. eapply wp_wreg; [exact O|]. clear O d1. intros d1 O.
  do 4 apply wp_bind, wp_wr. set (d2 := VDisk (replicate 8 desc0) (replicate 10 0) 0 (replicate 8 (0, 0)) (vd_free d1)
    (vd_used_idx d1) (vd_info d1) (vd_lock d1) (vd_own d1) (vd_hdr d1) (vd_regs d1) (vd_looks d1)).
  match goal with |- wp _ _ ?s => change s with (q, (bi, d2)) end.
  assert (regs_only d2 d2) as O2 by (by exists (vd_regs d2), (vd_looks d2)).
  apply wp_bind. eapply wp_wreg; [exact O2|]. intros d3 (l & n & ->). destruct O as (l' & n' & ->).
  apply wp_free_all; [exact Lf|]. split; [done|]. split; [done|]. split; [|done].
  split.
  - split; [done| |by apply NoDup_nil_2|by constructor]. intros i Hi. unfold rng, NUM in Hi.
    rewrite decide_False by apply not_elem_of_nil. apply lookup_replicate. split; [done|lia].
  - split; [done|by apply Forall_nil|by split; apply Forall_nil|by apply NoDup_nil_2|by apply NoDup_nil_2|by apply Forall_nil
      |by apply Forall_nil|by exists 0| |done].
    change (0 <= vd_used_idx d < NUM /\ 0 <= 0 < 65536 /\ (0 - vd_used_idx d - 0) mod NUM = 0). by rewrite Hu.
Qed.

(** * An example *)

(** The queue after [virtio_disk_init], with nothing in it. *)
Definition idle_disk : vdisk :=
  VDisk (replicate 8 desc0) (replicate 10 0) 0 (replicate 8 (0, 0)) (replicate 8 1) 0 (replicate 8 info0)
    (Spin 0 "virtio_disk" None) ∅ ∅ [] 0.
Lemma idle_vq disk_at data_at st : vq disk_at data_at st [] [] [] [] idle_disk.
Proof.
  split; [split; [done| |constructor..]|].
  - intros i Hi. cbn [idle_disk vd_free]. unfold rng, NUM in Hi.
    rewrite decide_False by apply not_elem_of_nil. apply lookup_replicate. split; [done|lia].
  - split; try done; try constructor. by exists 0.
Qed.

(** A process that reads sector 0, its header in a mapped page. *)
Definition disk_pst : pst := update (s_k_l ⊚ k_mem_l) (wr64 ∅ 0x9000000090000000 1) demo_pst.
Definition demo_bio : bio := Bio (Spin 0 "bcache" None) ∅ (Spin 0 "ramdisk" None) 0 ∅.
Lemma disk_runs : runs 0 disk_pst.
Proof. split; [split; [apply run_hart_ok|apply demo_quiet]|reflexivity|reflexivity]. Qed.

Example virtio_disk_rw_queues_witness :
  yields (virtio_disk_rw 0x9000000090100000 (fun b => 0x9000000090200000 + 600 * Z.of_nat b) 5 0x9000000090000000 5 0)
    (in_flight 0x9000000090100000 (fun b => 0x9000000090200000 + 600 * Z.of_nat b) (fun _ => 0) 0 5 0 0 0x9000000090000000
      0x9000000000000000 3 disk_pst demo_bio [] [] [] []) (disk_pst, (demo_bio, idle_disk)).
Proof.
  assert (maps disk_pst 0x9000000090000000 0x9000000000000000) as Hm by (vm_compute; reflexivity).
  exact (proj1 (proj2 (virtio_disk_rw_queues 0x9000000090100000 (fun b => 0x9000000090200000 + 600 * Z.of_nat b) (fun _ => 0)
    0 5 3 5 0 0x9000000090000000 0x9000000000000000 disk_pst demo_bio idle_disk [] [] [] [] (le_n 5) disk_runs
    eq_refl (idle_vq _ _ _) (not_elem_of_nil _) (not_elem_of_nil _) Hm)) (Nat.le_0_l 1)).
Defined.

(** A device that finishes request [r] with status [e] when it is looked at, and the queue with a
    read of sector 7 in it. *)
Definition serve (e : Z) (r : req) (_ : nat) '((bi, d) : bio * vdisk) : bio * vdisk :=
  if ((vd_id d - vd_used_idx d) mod NUM =? 0) && bool_decide (vd_own d !! q_b r = Some 1)
  then (moved r (replicate 512 65) bi, finished (fun _ => e) r 513 d) else (bi, d).
Definition demo_req : req := Req 5 0 7 0x9000000090000000 0x9000000000000000 0 1 2.
Definition busy_disk (disk_at : Z) (data_at : nat -> Z) : vdisk :=
  posted disk_at data_at demo_req (update vd_free_l [0; 0; 0; 1; 1; 1; 1; 1] idle_disk).

Lemma busy_vq disk_at data_at st : vq disk_at data_at st [demo_req] [] [] [] (busy_disk disk_at data_at).
Proof.
  apply (rings_posted disk_at data_at st [] [] [] []); [| |apply not_elem_of_nil..].
  - split; try done; try constructor. by exists 0.
  - split; [done| |by apply (bool_decide_unpack _)|by repeat constructor].
    intros i Hi. unfold rng, NUM in Hi. assert (i ∈ seqZ 0 8) as Hs by (apply elem_of_seqZ; lia).
    clear Hi. revert i Hs. by apply Forall_forall, (bool_decide_unpack _).
Qed.

Lemma serve_law disk_at data_at e r : device_law disk_at data_at (fun _ => e) [r] (serve e r).
Proof.
  intros n nw tk us ak bi d HP [_ HR]. unfold serve. pose proof (vq_idx _ _ _ _ _ _ _ _ HR) as (Hi1 & Hi2 & Hi3).
  destruct (Z.eqb_spec ((vd_id d - vd_used_idx d) mod NUM) 0) as [E|]; [|by exists nw, tk, us; constructor].
  destruct (bool_decide_reflect (vd_own d !! q_b r = Some 1)) as [Ho|]; [|by exists nw, tk, us; constructor].
  pose proof (Permutation_length HP) as Hlen. rewrite !length_app in Hlen. cbn [length] in Hlen.
  assert (us = []) as -> by (apply length_zero_iff_nil; unfold NUM in *; zlia).
  assert (ak = []) as ->.
  { destruct ak as [|r' ak]; [done|]. exfalso. pose proof (vq_told _ _ _ _ _ _ _ _ HR) as Hto.
    apply Forall_cons in Hto as [Hto _]. assert (r' ∈ [r]) as ->%list_elem_of_singleton by (rewrite <- HP; set_solver).
    by rewrite Ho in Hto. }
  rewrite !app_nil_r in HP. exists [], [], ([] ++ [r]). cbn [andb].
  rewrite <- (app_nil_r nw). eapply wk_one; [|apply wk_rest]. by rewrite Permutation_app_comm.
Qed.

(** A device that succeeds, and one that fails. *)
Definition demo_told (e : Z) : Prop :=
  ends_or (fun msg => msg = "virtio_disk_intr status" /\ exists r, r ∈ [demo_req] ++ [] ++ [] /\ e <> 0)
  (virtio_disk_intr (fun _ _ => 1) (serve e demo_req) 3) (fun _ '(q', (bi', d')) => exists nw' tk' dn v,
       vq 0 (fun _ => 0) (fun _ => e) nw' tk' [] ([] ++ dn) d'
    /\ nw' ++ tk' ++ dn ≡ₚ [demo_req] ++ [] ++ [] /\ [] `prefix_of` dn /\ Forall (fun r => e = 0) dn
    /\ (forall i, (i < 50)%nat -> let pr := entry (s_procs disk_pst) i in
          entry (s_procs q') i
          = if bool_decide (p_state pr = SLEEPING /\ p_chan pr ∈ (fun r => Some (CBuf (q_b r))) <$> dn)
            then update p_state_l RUNNABLE pr else pr)
    /\ (forall b, (b ∉ q_b <$> dn) -> bc_buf bi' !! b = bc_buf demo_bio !! b)
    /\ vd_regs d' = vd_regs (busy_disk 0 (fun _ => 0)) ++ [(VIRTIO_MMIO_INTERRUPT_ACK, v)]
    /\ unheld (vd_lock d') /\ view hart_l q' = view hart_l disk_pst)
    (disk_pst, (demo_bio, busy_disk 0 (fun _ => 0))).
Example virtio_disk_intr_tells_witness : demo_told 0 /\ demo_told 1.
Proof.
  split.
  - exact (virtio_disk_intr_tells 0 (fun _ => 0) (fun _ => 0) (fun _ _ => 1) (serve 0 demo_req) 3 disk_pst demo_bio
      (busy_disk 0 (fun _ => 0)) [demo_req] [] [] [] (serve_law _ _ _ _) (r_quiet _ _ disk_runs) ltac:(done) eq_refl
      (busy_vq _ _ _) (le_n 3)).
  - exact (virtio_disk_intr_tells 0 (fun _ => 0) (fun _ => 1) (fun _ _ => 1) (serve 1 demo_req) 3 disk_pst demo_bio
      (busy_disk 0 (fun _ => 0)) [demo_req] [] [] [] (serve_law _ _ _ _) (r_quiet _ _ disk_runs) ltac:(done) eq_refl
      (busy_vq _ _ _) (le_n 3)).
Defined.

(** What the handler does with it. *)
Example demo_served :
  match virtio_disk_intr (fun _ _ => 1) (serve 0 demo_req) 3 (disk_pst, (demo_bio, busy_disk 0 (fun _ => 0))) with
  | Ret _ (_, (bi, d)) => vd_own d !! 5%nat = Some 0 /\ vd_used_idx d = 1
      /\ b_data (view (buf_l 5) bi) = replicate 512 65
      /\ vd_regs d = [(VIRTIO_MMIO_QUEUE_NOTIFY, 0); (VIRTIO_MMIO_INTERRUPT_ACK, 1)]
  | _ => False
  end
  /\ virtio_disk_intr (fun _ _ => 1) (serve 1 demo_req) 3 (disk_pst, (demo_bio, busy_disk 0 (fun _ => 0)))
     = Panic "virtio_disk_intr status".
Proof. vm_compute. repeat split. Qed.
