(* ===== verification/Circ.v ===== *)
(** Circular buffers: what the pipe, the console, the UART driver and
    kernel/ring_buffer.c share.  [circ n buf s k] is the content of the [k]
    cells from index [s] on in a buffer of [n] cells. *)

From S2P Require Import Prelude Mem.

Definition cell (n : Z) (buf : list Z) (i : Z) : Z := nth (Z.to_nat (i mod n)) buf 0.
Definition circ (n : Z) (buf : list Z) (s k : Z) : list Z :=
  map (fun i => cell n buf (s + i)) (seqZ 0 k).

(** Stores [c] in cell [i mod n]. *)
Definition cput (n : Z) (buf : list Z) (i c : Z) : list Z := <[Z.to_nat (i mod n) := c]> buf.
(** Overwrites the cells from [p] on. *)
Definition splice (buf : list Z) (p : Z) (bs : list Z) : list Z :=
  take (Z.to_nat p) buf ++ bs ++ drop (Z.to_nat p + length bs) buf.
(** The [k] cells from [p] on, as they lie. *)
Definition slice (buf : list Z) (p k : Z) : list Z := take (Z.to_nat k) (drop (Z.to_nat p) buf).

Lemma circ_nil n buf s : circ n buf s 0 = [].
Proof. done. Qed.
Lemma length_circ n buf s k : length (circ n buf s k) = Z.to_nat k.
Proof. unfold circ. by rewrite length_map, length_seqZ. Qed.

Lemma circ_app n buf s j k : 0 <= j -> 0 <= k ->
  circ n buf s (j + k) = circ n buf s j ++ circ n buf (s + j) k.
Proof.
  intros Hj Hk. unfold circ. rewrite seqZ_app by done. rewrite map_app. f_equal.
  change (map (fun i => cell n buf (s + i)) (seqZ (0 + j) k)
          = map (fun i => cell n buf (s + j + i)) (seqZ 0 k)).
  replace (0 + j) with (j + 0) by lia. rewrite <- (fmap_add_seqZ j 0 k).
  unfold fmap. rewrite map_map. apply map_ext. intros i. f_equal. lia.
Qed.
Lemma circ_one n buf s : circ n buf s 1 = [cell n buf s].
Proof. unfold circ. change (seqZ 0 1) with [0]. cbn [map]. by rewrite Z.add_0_r. Qed.
Lemma circ_cons n buf s k : 0 < k ->
  circ n buf s k = cell n buf s :: circ n buf (s + 1) (k - 1).
Proof.
  intros Hk. replace k with (1 + (k - 1)) at 1 by lia. rewrite circ_app by lia.
  by rewrite circ_one.
Qed.
Lemma circ_snoc n buf s k : 0 <= k ->
  circ n buf s (k + 1) = circ n buf s k ++ [cell n buf (s + k)].
Proof. intros Hk. rewrite circ_app by lia. by rewrite circ_one. Qed.
Lemma circ_take n buf s j k : 0 <= j <= k -> take (Z.to_nat j) (circ n buf s k) = circ n buf s j.
Proof.
  intros H. replace k with (j + (k - j)) by lia. rewrite circ_app by lia.
  rewrite take_app_le by (rewrite length_circ; lia). apply take_ge. rewrite length_circ. lia.
Qed.
Lemma circ_drop n buf s j k : 0 <= j <= k ->
  drop (Z.to_nat j) (circ n buf s k) = circ n buf (s + j) (k - j).
Proof.
  intros H. replace k with (j + (k - j)) at 1 by lia. rewrite circ_app by lia.
  rewrite drop_app_ge by (rewrite length_circ; lia). by rewrite length_circ, Nat.sub_diag.
Qed.

(** Only the index modulo the size matters, and a counter that wraps at a
    multiple of the size keeps it. *)
Lemma cell_mod n buf i j : i mod n = j mod n -> cell n buf i = cell n buf j.
Proof. unfold cell. by intros ->. Qed.
Lemma circ_mod n buf s t k : 0 < n -> s mod n = t mod n -> circ n buf s k = circ n buf t k.
Proof.
  intros Hn E. unfold circ. apply map_ext. intros i. apply cell_mod.
  by rewrite Zplus_mod, E, <- Zplus_mod.
Qed.
Lemma mod_wrap n w i : 0 < n -> 0 < w -> (n | w) -> (i mod w) mod n = i mod n.
Proof.
  intros Hn Hw [c ->]. rewrite (Z.mod_eq i (c * n)) by lia.
  replace (i - c * n * (i / (c * n))) with (i + (- (c * (i / (c * n)))) * n) by ring.
  by apply Z.mod_add; lia.
Qed.

Lemma mod_ne n i j : 0 < n -> i <= j < i + n -> i <> j -> i mod n <> j mod n.
Proof.
  intros Hn Hij Hne E. apply Hne.
  assert ((j - i) mod n = 0) as H0 by (rewrite Zminus_mod, E, Z.sub_diag; by apply Z.mod_0_l; lia).
  rewrite Z.mod_small in H0 by lia. lia.
Qed.

Lemma cell_cput n buf i c j : 0 < n -> length buf = Z.to_nat n ->
  cell n (cput n buf i c) j = if decide (i mod n = j mod n) then c else cell n buf j.
Proof.
  intros Hn Hl. unfold cell, cput. pose proof (Z.mod_pos_bound i n Hn). pose proof (Z.mod_pos_bound j n Hn).
  rewrite !nth_lookup. destruct (decide (i mod n = j mod n)) as [<-|Hne].
  - by rewrite list_lookup_insert_eq by lia.
  - rewrite list_lookup_insert_ne; [done|lia].
Qed.

(** Putting a byte behind the last one. *)
Lemma circ_push n buf s k c : 0 < n -> length buf = Z.to_nat n -> 0 <= k < n ->
  circ n (cput n buf (s + k) c) s (k + 1) = circ n buf s k ++ [c].
Proof.
  intros Hn Hl Hk. rewrite circ_snoc by lia. f_equal.
  - unfold circ. apply map_ext_in. intros i Hi. apply seqZ_In in Hi.
    rewrite cell_cput by done. rewrite decide_False; [done|].
    intros E. symmetry in E. revert E. apply mod_ne; lia.
  - rewrite cell_cput by done. by rewrite decide_True.
Qed.
Lemma length_cput n buf i c : length (cput n buf i c) = length buf.
Proof. apply length_insert. Qed.

(** Blocks that do not wrap lie as they are. *)
Lemma slice_circ n buf p k : 0 < n -> (Z.to_nat n <= length buf)%nat -> 0 <= p -> 0 <= k -> p + k <= n ->
  slice buf p k = circ n buf p k.
Proof.
  intros Hn Hl Hp Hk Hpk. apply list_eq. intros i. unfold slice.
  destruct (decide (i < Z.to_nat k)%nat) as [Hi|Hi].
  - rewrite lookup_take_lt, lookup_drop by done. unfold circ.
    rewrite list_lookup_fmap, lookup_seqZ_lt by lia. cbn [fmap option_fmap option_map].
    unfold cell. rewrite Z.mod_small by lia. rewrite nth_lookup.
    replace (Z.to_nat (p + (0 + Z.of_nat i))) with (Z.to_nat p + i)%nat by lia.
    destruct (buf !! (Z.to_nat p + i)%nat) eqn:E; [done|].
    apply lookup_ge_None in E. lia.
  - rewrite !lookup_ge_None_2; [done|rewrite length_circ; lia|rewrite length_take; lia].
Qed.

Lemma length_splice buf p bs : 0 <= p -> (Z.to_nat p + length bs <= length buf)%nat ->
  length (splice buf p bs) = length buf.
Proof. intros Hp Hl. unfold splice. rewrite !length_app, length_take, length_drop. lia. Qed.
Lemma lookup_splice buf p bs i : 0 <= p -> (Z.to_nat p + length bs <= length buf)%nat ->
  splice buf p bs !! i
  = if decide (Z.to_nat p <= i < Z.to_nat p + length bs)%nat then bs !! (i - Z.to_nat p)%nat else buf !! i.
Proof.
  intros Hp Hl. unfold splice.
  assert (length (take (Z.to_nat p) buf) = Z.to_nat p) as Ht by (rewrite length_take; lia).
  destruct (decide (i < Z.to_nat p)%nat) as [H1|H1].
  - rewrite lookup_app_l by lia. rewrite lookup_take_lt, decide_False by lia. done.
  - rewrite lookup_app_r, Ht by lia. destruct (decide (i - Z.to_nat p < length bs)%nat) as [H2|H2].
    + rewrite lookup_app_l, decide_True by lia. done.
    + rewrite lookup_app_r, lookup_drop, decide_False by lia. f_equal. lia.
Qed.

Lemma cell_splice n buf p bs j : 0 < n -> (Z.to_nat n <= length buf)%nat -> 0 <= p ->
  p + Z.of_nat (length bs) <= n ->
  cell n (splice buf p bs) j
  = if decide (p <= j mod n < p + Z.of_nat (length bs)) then nth (Z.to_nat (j mod n - p)) bs 0
    else cell n buf j.
Proof.
  intros Hn Hl Hp Hpl. unfold cell. pose proof (Z.mod_pos_bound j n Hn) as Hj.
  rewrite !nth_lookup, lookup_splice by lia.
  destruct (decide (p <= j mod n < _)).
  - rewrite decide_True by lia. do 2 f_equal. lia.
  - rewrite decide_False by lia. done.
Qed.

(** A block put behind the last byte, where it does not wrap. *)
Lemma circ_splice n buf s k bs : 0 < n -> (Z.to_nat n <= length buf)%nat -> 0 <= k ->
  let p := (s + k) mod n in
  p + Z.of_nat (length bs) <= n -> k + Z.of_nat (length bs) <= n ->
  circ n (splice buf p bs) s (k + Z.of_nat (length bs)) = circ n buf s k ++ bs.
Proof.
  intros Hn Hl Hk p Hp Hkl. pose proof (Z.mod_pos_bound (s + k) n Hn) as Hpb. fold p in Hpb.
  rewrite circ_app by lia. f_equal.
  - unfold circ. apply map_ext_in. intros i Hi. apply seqZ_In in Hi.
    rewrite cell_splice by lia. rewrite decide_False; [done|]. intros Hin.
    set (d := (s + i) mod n - p) in Hin.
    assert ((s + i) mod n = (s + k + d) mod n) as E.
    { replace ((s + i) mod n) with (p + d) by (unfold d; lia).
      rewrite <- (Z.mod_small (p + d) n) by (unfold d; pose proof (Z.mod_pos_bound (s + i) n Hn); lia).
      unfold p. by rewrite Zplus_mod_idemp_l. }
    revert E. apply mod_ne; unfold d in *; lia.
  - apply list_eq. intros i. destruct (decide (i < length bs)%nat) as [Hi|Hi].
    + unfold circ. rewrite list_lookup_fmap, lookup_seqZ_lt by lia.
      cbn [fmap option_fmap option_map]. rewrite cell_splice by lia.
      assert ((s + k + (0 + Z.of_nat i)) mod n = p + Z.of_nat i) as ->.
      { replace (s + k + (0 + Z.of_nat i)) with (s + k + Z.of_nat i) by lia.
        rewrite <- Zplus_mod_idemp_l. fold p. apply Z.mod_small. lia. }
      rewrite decide_True by lia. replace (Z.to_nat (p + Z.of_nat i - p)) with i by lia.
      rewrite nth_lookup. by destruct (lookup_lt_is_Some_2 _ _ Hi) as [b ->].
    + rewrite !lookup_ge_None_2; [done|lia|rewrite length_circ; lia].
Qed.
