(* ===== verification/UserMem.v ===== *)
(** User memory by value: the copies of kernel/vm.c on a window of user
    addresses whose bytes lie together in physical memory, and
    [either_copyin]/[either_copyout] of kernel/proc.c on such a window.  This
    is what the drivers that move user bytes one block at a time (pipes, the
    console, the ring buffer) are proved against. *)

From S2P Require Import Prelude Mem Locks Kalloc Vm PageTable ProcState Vma Proc ProcFacts Sleeplock.

Lemma write_bytes_app m p l1 l2 :
  write_bytes m p (l1 ++ l2) = write_bytes (write_bytes m p l1) (p + Z.of_nat (length l1)) l2.
Proof.
  unfold write_bytes. rewrite foldl_app. revert m p.
  induction l1 as [|b l1 IH]; intros m p; cbn [foldl length].
  - by rewrite Z.add_0_r.
  - rewrite IH. do 3 f_equal. lia.
Qed.
Lemma read_bytes_app m p n k : 0 <= n -> 0 <= k ->
  read_bytes m p (n + k) = read_bytes m p n ++ read_bytes m (p + n) k.
Proof.
  intros Hn Hk. unfold read_bytes. rewrite seqZ_app by done. rewrite map_app. f_equal.
  replace (0 + n) with (n + 0) by lia. rewrite <- (fmap_add_seqZ n 0 k). unfold fmap.
  rewrite map_map. apply map_ext. intros i. f_equal. lia.
Qed.

(** The [n] user addresses from [va] on are mapped for the user, and their
    bytes are those at [base], outside the page tables. *)
Record window (pt : Z) (f : Z -> Z) (m : mem) (va n base : Z) : Prop := {
  wi_maps : maps pt f m;
  wi_range : 0 <= va /\ 0 <= n /\ va + n <= MAXVA;
  wi_ok : forall i, 0 <= i < n -> user_ok f (va + i) /\ uaddr f (va + i) = base + i;
  wi_off : forall b, base <= b < base + n -> ~ on (tables 3 m pt) b
}.

Lemma window_sub pt f m va n base a j : window pt f m va n base -> 0 <= a -> 0 <= j -> a + j <= n ->
  window pt f m (va + a) j (base + a).
Proof.
  intros [Hm Hr Hok Hoff] Ha Hj Haj. split; [done|lia| |].
  - intros i Hi. destruct (Hok (a + i) ltac:(lia)) as [H1 H2]. rewrite <- !Z.add_assoc.
    by split.
  - intros b Hb. apply Hoff. lia.
Qed.

Lemma window_write pt f m va n base p bs : window pt f m va n base ->
  base <= p -> p + Z.of_nat (length bs) <= base + n ->
  window pt f (write_bytes m p bs) va n base.
Proof.
  intros [Hm Hr Hok Hoff] Hp Hpl.
  assert (agree m (write_bytes m p bs) (tables 3 m pt)) as Ha.
  { intros b Hb. rewrite rd8_write_bytes, decide_False; [done|]. intros Hin.
    apply (Hoff b); [lia|done]. }
  split; [by apply (maps_agree pt f m)|done|done|].
  destruct (tables_ext 3 m _ pt Ha) as (Et & _). by rewrite Et.
Qed.

Section Window.
Context (pt : Z) (f : Z -> Z) (va n base : Z).

Lemma copyin_turn_done v got k : copyin_turn pt (v, got, 0) k = Ret (inr (0, got)) k.
Proof using Type. done. Qed.
Definition chunk (v len : Z) : Z :=
  if len <? PGSIZE - (v - PGROUNDDOWN v) then len else PGSIZE - (v - PGROUNDDOWN v).
Lemma copyin_turn_step v got len b k : maps pt f (k_mem k) -> 0 <= v < 2 ^ 48 ->
  0 <= PGROUNDDOWN v < MAXVA -> len <> 0 -> user_ok f v -> uaddr f v = b ->
  copyin_turn pt (v, got, len) k
  = Ret (inl (u64 (PGROUNDDOWN v + PGSIZE), got ++ read_bytes (k_mem k) b (chunk v len),
              len - chunk v len)) k.
Proof using Type.
  intros Hm Hv Hpg Hl Hu <-. pose proof maxva_48. unfold copyin_turn. rewrite (proj2 (Z.eqb_neq _ _)) by done.
  cbv zeta. unfold user_ok in Hu. assert (user_pa (xlate 3 (k_mem k) pt (PGROUNDDOWN v)) <> 0) as Hw
    by (by rewrite (Hm (PGROUNDDOWN v)) by lia).
  rewrite (bind_ret _ _ _ _ _ (walkaddr_user pt _ k Hpg Hw)). rewrite (Hm (PGROUNDDOWN v)) by lia.
  rewrite (proj2 (Z.eqb_neq (user_pa _) 0)) by done.
  rewrite copy_addr by done. fold (uaddr f v). fold (chunk v len).
  by rewrite (bind_ret (rd k_mem_l) _ k (k_mem k) k).
Qed.

Lemma copyin_loop fuel : forall c got k, window pt f (k_mem k) va n base -> 0 <= c <= n ->
  (c < n -> va + c < MAXVA) ->
  (n - c) / PGSIZE + (if (va + c) mod PGSIZE =? 0 then 2 else 3) <= Z.of_nat fuel ->
  loop fuel (va + c, got, n - c) (copyin_turn pt) k
  = Ret (0, got ++ read_bytes (k_mem k) (base + c) (n - c)) k.
Proof using Type.
  pose proof maxva_48. assert (MAXVA < 2 ^ 64 - PGSIZE) as Hmx by (unfold PGSIZE; lia).
  induction fuel as [|fuel IH]; intros c got k Hw Hc Hcm Hfuel.
  { exfalso. unfold PGSIZE in *. destruct (_ =? 0); zlia. }
  pose proof Hw as [Hm (Hva & Hn & Hmax) Hok Hoff].
  cbn [loop]. destruct (Z.eq_dec (n - c) 0) as [E|E].
  { rewrite E, (bind_ret _ _ _ _ _ (copyin_turn_done _ _ _)). cbn. by rewrite app_nil_r. }
  destruct (Hok c ltac:(lia)) as [Hu Ha].
  assert (0 <= PGROUNDDOWN (va + c) < MAXVA) as Hpg
    by (rewrite round_down_spec by lia; unfold PGSIZE; zlia).
  rewrite (bind_ret _ _ _ _ _ (copyin_turn_step (va + c) got (n - c) _ k Hm ltac:(lia) Hpg E Hu Ha)).
  unfold chunk. set (j := if n - c <? _ then _ else _).
  assert (0 < j <= n - c /\ (j = n - c \/ u64 (PGROUNDDOWN (va + c) + PGSIZE) = va + (c + j))) as [Hj Hor].
  { unfold j. rewrite round_down_spec by lia. unfold PGSIZE in *.
    destruct (Z.ltb_spec (n - c) (4096 - (va + c - (va + c) / 4096 * 4096))); split; zlia. }
  replace (read_bytes (k_mem k) (base + c) (n - c))
    with (read_bytes (k_mem k) (base + c) j ++ read_bytes (k_mem k) (base + (c + j)) (n - (c + j))).
  2:{ rewrite Z.add_assoc, <- read_bytes_app by lia. f_equal. lia. }
  rewrite app_assoc. destruct Hor as [Ej|Ej].
  - replace (n - c - j) with 0 by lia. destruct fuel as [|fuel];
      [exfalso; unfold PGSIZE in *; destruct (_ =? 0); zlia|].
    cbn [loop]. rewrite (bind_ret _ _ _ _ _ (copyin_turn_done _ _ _)).
    replace (n - (c + j)) with 0 by lia. cbn. by rewrite app_nil_r.
  - rewrite Ej. replace (n - c - j) with (n - (c + j)) by lia.
    destruct (Z.eq_dec (c + j) n) as [En|En].
    + destruct fuel as [|fuel]; [exfalso; unfold PGSIZE in *; destruct (_ =? 0); zlia|].
      rewrite En, Z.sub_diag. cbn [loop]. rewrite (bind_ret _ _ _ _ _ (copyin_turn_done _ _ _)).
      cbn. by rewrite app_nil_r.
    + apply IH; [done|lia|lia|].
      assert ((va + (c + j)) mod PGSIZE = 0) as ->.
      { rewrite <- Ej, u64_small by (rewrite round_down_spec by lia; unfold PGSIZE in *; zlia).
        rewrite round_down_spec by lia. unfold PGSIZE. zlia. }
      cbn [Z.eqb]. unfold j in *. rewrite round_down_spec in * by lia.
      destruct (Z.eqb_spec ((va + c) mod PGSIZE) 0); unfold PGSIZE in *;
        destruct (Z.ltb_spec (n - c) (4096 - (va + c - (va + c) / 4096 * 4096))); zlia.
Qed.

Lemma copyin_window k : window pt f (k_mem k) va n base ->
  copyin_bytes pt va n k = Ret (0, read_bytes (k_mem k) base n) k.
Proof using Type.
  intros Hw. pose proof Hw as [_ (Hva & Hn & Hmax) _ _]. unfold copyin_bytes.
  destruct (Z.ltb_spec MAXVA va); [lia|]. cbn [andb].
  pose proof (copyin_loop (Z.to_nat (n / PGSIZE + 3)) 0 [] k Hw) as Hl.
  rewrite !Z.add_0_r, Z.sub_0_r in Hl. apply Hl; [lia|lia|].
  unfold PGSIZE in *. destruct (_ =? 0); zlia.
Qed.

Lemma copyout_window k bs : window pt f (k_mem k) va n base -> Z.of_nat (length bs) = n ->
  copyout_bytes pt va bs k = Ret 0 (update k_mem_l (write_bytes (k_mem k) base bs) k).
Proof using Type.
  intros Hw Hl. pose proof Hw as [Hm (Hva & Hn & Hmax) Hok Hoff].
  unfold copyout_bytes. destruct (Z.ltb_spec MAXVA va); [lia|].
  apply wp_ret_eq. rewrite Hl. unfold copy_pages.
  set (P := fun c m => m = write_bytes (k_mem k) base (take (Z.to_nat c) bs)).
  assert (forall c m, 0 <= c <= n -> P c m -> maps pt f m) as HPm.
  { intros c m Hc ->. apply (window_write pt f (k_mem k) va n base); [done|lia|].
    rewrite length_take. lia. }
  assert (forall c j m, P c m -> 0 <= c -> 0 < j -> c + j <= n ->
    (va + c + j - 1) / PGSIZE = (va + c) / PGSIZE -> user_pa (f (PGROUNDDOWN (va + c))) <> 0 ->
    P (c + j) (write_bytes m (uaddr f (va + c)) (take (Z.to_nat j) (drop (Z.to_nat (0 + c)) bs)))) as Hmv.
  { intros c j m -> Hc Hj Hcj _ _. unfold P. destruct (Hok c ltac:(lia)) as [_ ->].
    replace (Z.to_nat (c + j)) with (Z.to_nat c + Z.to_nat j)%nat by lia.
    rewrite <- take_take_drop. rewrite write_bytes_app. f_equal.
    rewrite length_take. lia. }
  pose proof (copy_loop pt f (fun p q n m => write_bytes m p (take (Z.to_nat n) (drop (Z.to_nat q) bs)))
    va 0 n P Hva Hn Hmax HPm Hmv 0 k (Z.to_nat (n / PGSIZE + 3))) as Hloop.
  rewrite !Z.add_0_r, Z.sub_0_r in Hloop.
  eapply wp_mono; [apply Hloop|].
  - lia.
  - unfold P. by rewrite take_0.
  - lia.
  - unfold PGSIZE in *. destruct (_ =? 0); zlia.
  - intros r k' (m' & c & -> & -> & Hc & [[-> ->]|(-> & Hlt & H0)]).
    + split; [done|]. rewrite says_nil. f_equal. f_equal. apply take_ge. lia.
    + exfalso. destruct (Hok c ltac:(lia)) as [H1 _]. done.
Qed.
End Window.

(** * [either_copyin] and [either_copyout] inside a critical section *)

(** The [n] addresses from [va] on, of the user or of the kernel, are good
    memory: their bytes are those at [base]. *)
Definition uwin (user : Z) (p : nat) (q : pst) (va n base : Z) : Prop :=
  if truth user then exists f, window (p_pagetable (view (proc_l p) q)) f (view mem_l q) va n base
  else base = va.

Lemma cur_inq p q : runs p q -> cur (inq q) = Ret p (inq q).
Proof.
  intros Hr. pose proof (runs_settled _ _ Hr) as Hs. destruct Hr as [_ Hn Hp].
  pose proof Hs as [[Hok _] _]. apply cur_ok; rewrite inq_hart.
  - apply settled_pushed; [apply Hs|lia].
  - by rewrite pushed_proc by apply Hok.
Qed.

Lemma copyin_at user p q va n base i j : cur q = Ret p q -> uwin user p q va n base ->
  0 <= i -> 0 <= j -> i + j <= n ->
  either_copyin user (va + i) j q = Ret (0, read_bytes (view mem_l q) (base + i) j) q.
Proof.
  intros Hr Hw Hi Hj Hij. unfold either_copyin. rewrite (bind_ret _ _ _ _ _ Hr).
  unfold uwin in Hw. destruct (truth user).
  - destruct Hw as [f Hw].
    rewrite (bind_ret _ _ q (p_pagetable (view (proc_l p) q)) q) by done.
    erewrite zoom_ret; [by rewrite update_view|].
    change (k_mem (view s_k_l q)) with (view mem_l q).
    apply (copyin_window _ f (va + i) j (base + i) (view s_k_l q)).
    by apply (window_sub _ _ _ _ n).
  - subst base. by rewrite (bind_ret (rd mem_l) _ q (view mem_l q) q).
Qed.

Definition wmem (q : pst) (a : Z) (bs : list Z) : pst :=
  update mem_l (write_bytes (view mem_l q) a bs) q.

Lemma copyout_at user p q va n base i bs : cur q = Ret p q -> uwin user p q va n base ->
  0 <= i -> i + Z.of_nat (length bs) <= n ->
  either_copyout user (va + i) bs q = Ret 0 (wmem q (base + i) bs).
Proof.
  intros Hr Hw Hi Hij. unfold either_copyout. rewrite (bind_ret _ _ _ _ _ Hr).
  unfold uwin in Hw. destruct (truth user).
  - destruct Hw as [f Hw].
    rewrite (bind_ret _ _ q (p_pagetable (view (proc_l p) q)) q) by done.
    erewrite zoom_ret; [|apply (copyout_window _ f (va + i) (Z.of_nat (length bs)) (base + i));
      [by apply (window_sub _ _ (view mem_l q) _ n); [..|lia|lia]|done]].
    by destruct q as [[] ? ? ? ? ? ?].
  - subst base. destruct q as [[] ? ? ? ? ? ?]. reflexivity.
Qed.

Lemma copyin_uwin user p q va n base i j : runs p q -> uwin user p q va n base ->
  0 <= i -> 0 <= j -> i + j <= n ->
  either_copyin user (va + i) j (inq q) = Ret (0, read_bytes (view mem_l q) (base + i) j) (inq q).
Proof. intros Hr Hw. apply (copyin_at user p (inq q) va n base); [by apply cur_inq|exact Hw]. Qed.
Lemma copyout_uwin user p q va n base i bs : runs p q -> uwin user p q va n base ->
  0 <= i -> i + Z.of_nat (length bs) <= n ->
  either_copyout user (va + i) bs (inq q) = Ret 0 (inq (wmem q (base + i) bs)).
Proof.
  intros Hr Hw Hi Hij. rewrite (copyout_at user p (inq q) va n base); [|by apply cur_inq|done..].
  by destruct q as [[] ? ? ? ? ? ?].
Qed.
(** The same outside any section. *)
Lemma cur_runs p q : runs p q -> cur q = Ret p q.
Proof. intros Hr. pose proof (runs_settled _ _ Hr) as Hs. by apply cur_ok; [|apply Hr]. Qed.

Lemma uwin_wmem user p q va n base a bs : uwin user p q va n base ->
  base <= a -> a + Z.of_nat (length bs) <= base + n -> uwin user p (wmem q a bs) va n base.
Proof.
  unfold uwin. destruct (truth user); [|done]. intros [f Hw] Ha Hl. exists f.
  exact (window_write _ _ _ _ _ _ a bs Hw Ha Hl).
Qed.
Lemma runs_wmem p q a bs : runs p q -> runs p (wmem q a bs).
Proof. by intros [[Hh Hl] Hn Hp]. Qed.
Lemma wmem_app q a l1 l2 : wmem (wmem q a l1) (a + Z.of_nat (length l1)) l2 = wmem q a (l1 ++ l2).
Proof. unfold wmem. rewrite write_bytes_app. by destruct q as [[] ? ? ? ? ? ?]. Qed.
Lemma wmem_nil q a : wmem q a [] = q.
Proof. by destruct q as [[] ? ? ? ? ? ?]. Qed.
Lemma read_one m a : read_bytes m a 1 = [rd8 m a].
Proof. unfold read_bytes. change (seqZ 0 1) with [0]. cbn [map]. by rewrite Z.add_0_r. Qed.
