(* ===== verification/Pipe.v ===== *)
(** Pipes: kernel/pipe.c, apart from [pipealloc], which is with the files that
    refer to pipes.

    A pipe is a ring of 512 bytes with free-running 32-bit counters; [id]
    tells pipes apart as sleep channels. *)

From S2P Require Import Prelude Mem Circ Locks Kalloc Vm PageTable ProcState Vma Proc ProcFacts Sleeplock UserMem.

Definition PIPESIZE : Z := 512.

Record pipe := Pipe {
  pi_lock : spinlock;
  pi_data : list Z;
  pi_nread : Z;
  pi_nwrite : Z;
  pi_readopen : Z;
  pi_writeopen : Z
}.

Definition pi_lock_l : lens pipe (spinlock) :=
  Lens pi_lock (fun v r => Pipe v (pi_data r) (pi_nread r) (pi_nwrite r) (pi_readopen r)
    (pi_writeopen r)).
Definition pi_data_l : lens pipe (list Z) :=
  Lens pi_data (fun v r => Pipe (pi_lock r) v (pi_nread r) (pi_nwrite r) (pi_readopen r)
    (pi_writeopen r)).
Definition pi_nread_l : lens pipe (Z) :=
  Lens pi_nread (fun v r => Pipe (pi_lock r) (pi_data r) v (pi_nwrite r) (pi_readopen r)
    (pi_writeopen r)).
Definition pi_nwrite_l : lens pipe (Z) :=
  Lens pi_nwrite (fun v r => Pipe (pi_lock r) (pi_data r) (pi_nread r) v (pi_readopen r)
    (pi_writeopen r)).
Definition pi_readopen_l : lens pipe (Z) :=
  Lens pi_readopen (fun v r => Pipe (pi_lock r) (pi_data r) (pi_nread r) (pi_nwrite r) v
    (pi_writeopen r)).
Definition pi_writeopen_l : lens pipe (Z) :=
  Lens pi_writeopen (fun v r => Pipe (pi_lock r) (pi_data r) (pi_nread r) (pi_nwrite r)
    (pi_readopen r) v).

#[export] Instance pi_lock_laws : LensLaws pi_lock_l.
Proof. by split; [split|]; intros; repeat match goal with x : pipe |- _ => destruct x end. Qed.
#[export] Instance pi_data_laws : LensLaws pi_data_l.
Proof. by split; [split|]; intros; repeat match goal with x : pipe |- _ => destruct x end. Qed.
#[export] Instance pi_nread_laws : LensLaws pi_nread_l.
Proof. by split; [split|]; intros; repeat match goal with x : pipe |- _ => destruct x end. Qed.
#[export] Instance pi_nwrite_laws : LensLaws pi_nwrite_l.
Proof. by split; [split|]; intros; repeat match goal with x : pipe |- _ => destruct x end. Qed.
#[export] Instance pi_readopen_laws : LensLaws pi_readopen_l.
Proof. by split; [split|]; intros; repeat match goal with x : pipe |- _ => destruct x end. Qed.
#[export] Instance pi_writeopen_laws : LensLaws pi_writeopen_l.
Proof. by split; [split|]; intros; repeat match goal with x : pipe |- _ => destruct x end. Qed.

Abbreviation pist := (pst * pipe)%type.
Abbreviation pi := snd_l.
Abbreviation pilk := (snd_l ⊚ pi_lock_l).

(** The pipe [pipealloc] sets up in a page of zeros. *)
Definition new_pipe : pipe := Pipe (Spin 0 "pipe" None) (replicate 512 0) 0 0 1 1.

Section Pipe.
Variable id : nat.
(** Bounds the number of times a process is woken to find the pipe as it was. *)
Variable fuel : nat.

(** The end of [pipeclose]: the caller frees the page when both ends are
    closed. *)
Definition pipeclose (writable : Z) : M pist bool :=
  _ ← acquire phart pilk;
  _ ← (if truth writable then
         _ ← pi ⊚ pi_writeopen_l <~ 0; zoom fst_l (wakeup (CPipeRead id))
       else
         _ ← pi ⊚ pi_readopen_l <~ 0; zoom fst_l (wakeup (CPipeWrite id)));
  c ← rd pi;
  _ ← release phart pilk;
  mret ((pi_readopen c =? 0) && (pi_writeopen c =? 0)).

(** [while (pi->nwrite == pi->nread + PIPESIZE)]: [false] if the write fails,
    with the lock released. *)
Definition full_turn (p : nat) : M pist (unit + bool) :=
  c ← rd pi;
  if pi_nwrite c =? u32 (pi_nread c + PIPESIZE) then
    pr ← rd (fst_l ⊚ proc_l p);
    if (pi_readopen c =? 0) || truth (p_killed pr) then
      _ ← release phart pilk; mret (inr false)
    else
      _ ← zoom fst_l (wakeup (CPipeRead id));
      _ ← sleep fst_l (CPipeWrite id) pilk;
      mret (inl tt)
  else mret (inr true).

(** [pi->data[pi->nwrite++ % PIPESIZE] = ch] *)
Definition put_byte (ch : Z) : M pist unit :=
  w ← rd (pi ⊚ pi_nwrite_l);
  _ ← pi ⊚ pi_nwrite_l <~ u32 (w + 1);
  md (pi ⊚ pi_data_l) (fun d => cput PIPESIZE d w ch).

(** One byte of [pipewrite]; the loop ends with [None] when the write failed
    and with the count when a copy did. *)
Definition write_turn (p : nat) (user addr i : Z) (cnt : Z) : M pist (Z + option Z) :=
  ok ← loop fuel tt (fun _ => full_turn p);
  if negb ok then mret (inr None)
  else
    '(r, bs) ← zoom fst_l (either_copyin user (u64 (addr + i)) 1);
    if r =? -1 then mret (inr (Some cnt))
    else _ ← put_byte (hd 0 bs); mret (inl (cnt + 1)).

Definition pipewrite (user addr n : Z) : M pist Z :=
  p ← zoom fst_l cur;
  _ ← acquire phart pilk;
  r ← for_acc (seqZ 0 n) 0 (write_turn p user addr);
  match r with
  | inr None => mret (-1)
  | inl i | inr (Some i) =>
      _ ← zoom fst_l (wakeup (CPipeRead id));
      _ ← release phart pilk;
      mret i
  end.

(** [while (pi->nread == pi->nwrite && pi->writeopen)] *)
Definition empty_turn (p : nat) : M pist (unit + bool) :=
  c ← rd pi;
  if (pi_nread c =? pi_nwrite c) && truth (pi_writeopen c) then
    pr ← rd (fst_l ⊚ proc_l p);
    if truth (p_killed pr) then _ ← release phart pilk; mret (inr false)
    else _ ← sleep fst_l (CPipeRead id) pilk; mret (inl tt)
  else mret (inr true).

(** [pi->data[pi->nread++ % PIPESIZE]] *)
Definition get_byte : M pist Z :=
  r ← rd (pi ⊚ pi_nread_l);
  _ ← pi ⊚ pi_nread_l <~ u32 (r + 1);
  d ← rd (pi ⊚ pi_data_l);
  mret (cell PIPESIZE d r).

Definition read_turn (user addr i : Z) (cnt : Z) : M pist (Z + Z) :=
  c ← rd pi;
  if pi_nread c =? pi_nwrite c then mret (inr cnt)
  else
    ch ← get_byte;
    r ← zoom fst_l (either_copyout user (u64 (addr + i)) [ch]);
    if r =? -1 then mret (inr cnt) else mret (inl (cnt + 1)).

Definition piperead (user addr n : Z) : M pist Z :=
  p ← zoom fst_l cur;
  _ ← acquire phart pilk;
  ok ← loop fuel tt (fun _ => empty_turn p);
  if negb ok then mret (-1)
  else
    r ← for_acc (seqZ 0 n) 0 (read_turn user addr);
    let i := match r with inl i => i | inr i => i end in
    _ ← zoom fst_l (wakeup (CPipeWrite id));
    _ ← release phart pilk;
    mret i.
End Pipe.

Definition pipe_full : M pist Z :=
  _ ← acquire phart pilk;
  c ← rd pi;
  _ ← release phart pilk;
  mret (if pi_nwrite c =? u32 (pi_nread c + PIPESIZE) then 1 else 0).
Definition pipe_empty : M pist Z :=
  _ ← acquire phart pilk;
  c ← rd pi;
  _ ← release phart pilk;
  mret (if pi_nread c =? pi_nwrite c then 1 else 0).

(** * A pipe is a bounded queue *)

(** The number of bytes in the pipe, and the bytes, oldest first. *)
Definition fill (c : pipe) : Z := (pi_nwrite c - pi_nread c) mod 2 ^ 32.
Definition content (c : pipe) : list Z := circ PIPESIZE (pi_data c) (pi_nread c) (fill c).

Record pipe_ok (c : pipe) : Prop := {
  pi_unheld : unheld (pi_lock c);
  pi_len : length (pi_data c) = 512%nat;
  pi_r : 0 <= pi_nread c < 2 ^ 32;
  pi_w : 0 <= pi_nwrite c < 2 ^ 32;
  pi_fill : fill c <= PIPESIZE
}.

Lemma fill_range c : 0 <= fill c.
Proof. unfold fill. apply Z.mod_pos_bound. lia. Qed.
Lemma length_content c : length (content c) = Z.to_nat (fill c).
Proof. apply length_circ. Qed.

Lemma full_iff c : pipe_ok c -> (pi_nwrite c = u32 (pi_nread c + PIPESIZE) <-> fill c = PIPESIZE).
Proof. intros [_ _ Hr Hw Hf]. unfold fill, u32, PIPESIZE in *. zlia. Qed.
Lemma empty_iff c : pipe_ok c -> (pi_nread c = pi_nwrite c <-> fill c = 0).
Proof. intros [_ _ Hr Hw Hf]. unfold fill, PIPESIZE in *. zlia. Qed.

(** The pipe with a byte put in, and with one taken out. *)
Definition put1 (ch : Z) (c : pipe) : pipe :=
  Pipe (pi_lock c) (cput PIPESIZE (pi_data c) (pi_nwrite c) ch) (pi_nread c) (u32 (pi_nwrite c + 1))
    (pi_readopen c) (pi_writeopen c).
Definition get1 (c : pipe) : pipe :=
  Pipe (pi_lock c) (pi_data c) (u32 (pi_nread c + 1)) (pi_nwrite c) (pi_readopen c) (pi_writeopen c).

Lemma put1_ok ch c : pipe_ok c -> fill c < PIPESIZE ->
  pipe_ok (put1 ch c) /\ fill (put1 ch c) = fill c + 1 /\ content (put1 ch c) = content c ++ [ch].
Proof.
  intros [Hu Hl Hr Hw Hf] Hlt. pose proof (fill_range c).
  assert (fill (put1 ch c) = fill c + 1) as E
    by (unfold fill, put1, u32, PIPESIZE in *; cbn; zlia).
  split; [|split; [done|]].
  - split; [done| |done|apply u32_range|lia]. cbn. by rewrite length_cput.
  - unfold content. rewrite E. cbn [put1 pi_data pi_nread].
    assert (cput PIPESIZE (pi_data c) (pi_nwrite c) ch
            = cput PIPESIZE (pi_data c) (pi_nread c + fill c) ch) as ->.
    { unfold cput. do 2 f_equal. unfold fill, PIPESIZE in *. zlia. }
    apply circ_push; [done|by rewrite Hl|lia].
Qed.

Lemma get1_ok c : pipe_ok c -> 0 < fill c ->
  pipe_ok (get1 c) /\ fill (get1 c) = fill c - 1
  /\ content c = cell PIPESIZE (pi_data c) (pi_nread c) :: content (get1 c).
Proof.
  intros [Hu Hl Hr Hw Hf] Hlt.
  assert (fill (get1 c) = fill c - 1) as E
    by (unfold fill, get1, u32, PIPESIZE in *; cbn; zlia).
  split; [|split; [done|]].
  - split; [done|done|apply u32_range|done|lia].
  - unfold content. rewrite E, circ_cons by lia. f_equal. apply circ_mod; [done|].
    cbn [get1 pi_nread]. unfold u32, PIPESIZE. zlia.
Qed.

Section Fifo.
Variables (id fuel p : nat).
Hypothesis fuel_pos : (0 < fuel)%nat.

Lemma wp_put_byte ch q c q0 (Q : unit -> pist -> Prop) :
  Q tt (q, lkc pi_lock_l q0 (put1 ch c)) -> wp (put_byte ch) Q (q, lkc pi_lock_l q0 c).
Proof using Type. intros HQ. unfold put_byte. wp_run. exact HQ. Qed.
Lemma wp_get_byte q c q0 (Q : Z -> pist -> Prop) :
  Q (cell PIPESIZE (pi_data c) (pi_nread c)) (q, lkc pi_lock_l q0 (get1 c)) ->
  wp get_byte Q (q, lkc pi_lock_l q0 c).
Proof using Type. intros HQ. unfold get_byte. wp_run. exact HQ. Qed.

(** Room in the pipe: the write does not wait. *)
Lemma wp_room q c q0 (Q : bool -> pist -> Prop) : pipe_ok c -> fill c < PIPESIZE ->
  Q true (q, lkc pi_lock_l q0 c) ->
  wp (loop fuel tt (fun _ => full_turn id p)) Q (q, lkc pi_lock_l q0 c).
Proof using fuel_pos.
  intros Hc Hf HQ. destruct fuel as [|fuel']; [lia|]. cbn [loop]. apply wp_bind.
  unfold full_turn. wp_run. change (view snd_l (q, lkc pi_lock_l q0 c)) with (lkc pi_lock_l q0 c).
  change (pi_nwrite (lkc pi_lock_l q0 c)) with (pi_nwrite c).
  change (pi_nread (lkc pi_lock_l q0 c)) with (pi_nread c).
  rewrite (proj2 (Z.eqb_neq _ _)) by (rewrite full_iff by done; lia). by wp_run.
Qed.

(** Something to read, or nobody to wait for. *)
Lemma wp_some q c q0 (Q : bool -> pist -> Prop) : pipe_ok c ->
  0 < fill c \/ pi_writeopen c = 0 ->
  Q true (q, lkc pi_lock_l q0 c) ->
  wp (loop fuel tt (fun _ => empty_turn id p)) Q (q, lkc pi_lock_l q0 c).
Proof using fuel_pos.
  intros Hc Hf HQ. destruct fuel as [|fuel']; [lia|]. cbn [loop]. apply wp_bind.
  unfold empty_turn. wp_run. change (view snd_l (q, lkc pi_lock_l q0 c)) with (lkc pi_lock_l q0 c).
  change (pi_nwrite (lkc pi_lock_l q0 c)) with (pi_nwrite c).
  change (pi_nread (lkc pi_lock_l q0 c)) with (pi_nread c).
  change (pi_writeopen (lkc pi_lock_l q0 c)) with (pi_writeopen c).
  assert ((pi_nread c =? pi_nwrite c) && truth (pi_writeopen c) = false) as ->; [|by wp_run].
  destruct Hf as [Hf| ->]; [|apply andb_false_r].
  rewrite (proj2 (Z.eqb_neq _ _)); [done|]. rewrite empty_iff by done. lia.
Qed.

Lemma wp_pipewrite user addr n base q c (Q : Z -> pist -> Prop) :
  runs p q -> pipe_ok c -> uwin user p q addr n base -> 0 <= addr -> 0 <= n -> addr + n < 2 ^ 64 ->
  fill c + n <= PIPESIZE ->
  (forall q' c', woken_all (CPipeRead id) q q' -> runs p q' -> pipe_ok c' ->
     content c' = content c ++ read_bytes (view mem_l q) base n -> Q n (q', c')) ->
  wp (pipewrite id fuel user addr n) Q (q, c).
Proof using fuel_pos.
  intros Hr Hc Hw Ha Hn Hmax Hfill HQ. pose proof (runs_settled _ _ Hr) as Hh.
  unfold pipewrite. apply wp_bind, wp_zoom. eapply wp_eq.
  { destruct Hr as [_ _ Hp]. by apply cur_ok. }
  apply wp_bind. apply (wp_lock pi_lock_l); [done|apply Hc|].
  apply wp_bind. apply (wp_for_acc _ (fun i v s => v = i /\ exists c', s = (inq q, lkc pi_lock_l q c')
    /\ pipe_ok c' /\ fill c' = fill c + i
    /\ content c' = content c ++ read_bytes (view mem_l q) base i)); [done| | |].
  - split; [done|]. exists c. split; [done|]. split; [done|]. split; [lia|].
    cbn. by rewrite app_nil_r.
  - intros i v s Hi (-> & c' & -> & Hc' & Hf' & Hct). unfold write_turn.
    apply wp_bind, wp_room; [done|lia|]. cbn [negb]. rewrite u64_small by lia.
    apply wp_bind, wp_zoom. eapply wp_eq.
    { apply (copyin_uwin user p q addr n base); [done|done|lia|lia|lia]. }
    rewrite read_one. cbn beta iota.
    change (update fst_l (inq q) (inq q, lkc pi_lock_l q c')) with (inq q, lkc pi_lock_l q c').
    destruct (put1_ok (rd8 (view mem_l q) (base + i)) c' Hc' ltac:(lia)) as (Hc1 & Hf1 & Hct1).
    cbn [hd]. apply wp_bind, wp_put_byte. apply wp_mret. split; [done|]. eexists. split; [done|].
    split; [done|]. split; [lia|]. rewrite Hct1, Hct, read_bytes_app by lia.
    by rewrite read_one, app_assoc.
  - intros v s (-> & c' & -> & Hc' & Hf' & Hct). rewrite Z.add_0_l in *.
    apply wp_bind, wp_zoom. pose proof Hr as [Hq Hno Hp].
    apply (wp_wakeup _ q); [done|lia|]. intros q1 Hwk Eh. apply wp_bind.
    apply (wp_unlock' pi_lock_l q q1 c'); [done|done|apply Hc'|]. apply wp_mret. apply HQ; [done| |done|done].
    split; [apply Hwk|by rewrite Eh..].
Qed.

(** What [piperead] does once it holds the spinlock. *)
Definition read_go (user addr n : Z) : M pist Z :=
  ok ← loop fuel tt (fun _ => empty_turn id p);
  if negb ok then mret (-1)
  else
    r ← for_acc (seqZ 0 n) 0 (read_turn user addr);
    let i := match r with inl i => i | inr i => i end in
    _ ← zoom fst_l (wakeup (CPipeWrite id));
    _ ← release phart pilk;
    mret i.

Lemma wp_read_go user addr n base q c (Q : Z -> pist -> Prop) :
  runs p q -> pipe_ok c -> uwin user p q addr n base -> 0 <= addr -> 0 <= n -> addr + n < 2 ^ 64 ->
  0 < fill c \/ pi_writeopen c = 0 ->
  let k := Z.min n (fill c) in
  (forall q' c', woken_all (CPipeWrite id) (wmem q base (take (Z.to_nat k) (content c))) q' ->
     runs p q' -> pipe_ok c' -> content c' = drop (Z.to_nat k) (content c) -> Q k (q', c')) ->
  wp (read_go user addr n) Q (inq q, lkc pi_lock_l q c).
Proof using fuel_pos.
  intros Hr Hc Hw Ha Hn Hmax Hsome k HQ. pose proof (runs_settled _ _ Hr) as Hh.
  pose proof (fill_range c) as Hf0. unfold read_go.
  apply wp_bind, wp_some; [done|done|]. cbn [negb]. apply wp_bind.
  set (got := fun i => wmem q base (take (Z.to_nat i) (content c))).
  assert (forall i, 0 <= i <= fill c -> i <= n -> uwin user p (got i) addr n base) as Hwin.
  { intros i Hi Hin. apply uwin_wmem; [done|lia|]. rewrite length_take. lia. }
  assert (forall c', pipe_ok c' -> content c' = drop (Z.to_nat k) (content c) ->
    wp (_ ← zoom fst_l (wakeup (CPipeWrite id)); _ ← release phart pilk; mret k) Q
       (inq (got k), lkc pi_lock_l q c')) as Hend.
  { intros c' Hc' Hct. pose proof (runs_wmem p q base (take (Z.to_nat k) (content c)) Hr) as [Hq Hno Hp].
    apply wp_bind, wp_zoom. apply (wp_wakeup _ (got k)); [done|unfold got in *; lia|].
    intros q1 Hwk Eh. apply wp_bind.
    apply (wp_unlock' pi_lock_l q q1 c'); [done|done|apply Hc'|]. apply wp_mret.
    apply HQ; [done| |done|done]. split; [apply Hwk|by rewrite Eh..]. }
  apply (wp_for_acc _ (fun i v s => v = i /\ i <= fill c /\ exists c',
    s = (inq (got i), lkc pi_lock_l q c') /\ pipe_ok c' /\ fill c' = fill c - i
    /\ content c' = drop (Z.to_nat i) (content c))); [done| | |].
  - split; [done|]. split; [done|]. exists c. unfold got. rewrite take_0, wmem_nil.
    split; [done|]. split; [done|]. split; [lia|done].
  - intros i v s Hi (-> & Hif & c' & -> & Hc' & Hf' & Hct). unfold read_turn.
    apply wp_bind, wp_rd.
    change (view snd_l (inq (got i), lkc pi_lock_l q c')) with (lkc pi_lock_l q c').
    change (pi_nwrite (lkc pi_lock_l q c')) with (pi_nwrite c').
    change (pi_nread (lkc pi_lock_l q c')) with (pi_nread c').
    destruct (Z.eqb_spec (pi_nread c') (pi_nwrite c')) as [E|E].
    + apply empty_iff in E; [|done]. apply wp_mret. assert (i = k) as E' by (unfold k; lia).
      subst i. by apply Hend.
    + rewrite empty_iff in E by done. pose proof (fill_range c').
      destruct (get1_ok c' Hc' ltac:(lia)) as (Hc1 & Hf1 & Hct1).
      apply wp_bind, wp_get_byte. rewrite u64_small by lia.
      set (ch := cell _ _ _) in *. apply wp_bind, wp_zoom. eapply wp_eq.
      { apply (copyout_uwin user p (got i) addr n base i [ch]);
          [by apply runs_wmem|apply Hwin; lia|lia|cbn; lia]. }
      cbn beta iota. cbn [Z.eqb]. apply wp_mret. split; [done|]. split; [lia|].
      exists (get1 c'). rewrite Hct in Hct1.
      assert (take (Z.to_nat (i + 1)) (content c) = take (Z.to_nat i) (content c) ++ [ch]) as Et.
      { replace (Z.to_nat (i + 1)) with (Z.to_nat i + 1)%nat by lia.
        rewrite <- take_take_drop. f_equal. by rewrite Hct1. }
      split; [|split; [done|split; [lia|]]].
      * change (got (i + 1)) with (wmem q base (take (Z.to_nat (i + 1)) (content c))).
        rewrite Et, <- wmem_app, length_take, length_content.
        replace (Z.of_nat (Z.to_nat i `min` Z.to_nat (fill c))) with i by lia. done.
      * replace (Z.to_nat (i + 1)) with (Z.to_nat i + 1)%nat by lia.
        by rewrite <- drop_drop, Hct1.
  - intros v s (-> & Hif & c' & -> & Hc' & Hf' & Hct). rewrite Z.add_0_l in *.
    assert (n = k) as E by (unfold k; lia). rewrite E in *. by apply Hend.
Qed.

Lemma piperead_go user addr n q c : runs p q -> pipe_ok c ->
  piperead id fuel user addr n (q, c) = read_go user addr n (inq q, lkc pi_lock_l q c).
Proof using Type.
  intros Hr Hc. pose proof (runs_settled _ _ Hr) as Hh. destruct Hr as [_ _ Hp]. unfold piperead.
  rewrite (bind_ret _ _ _ p (q, c)) by (erewrite zoom_ret by (by apply cur_ok); done).
  rewrite (bind_ret _ _ _ tt (inq q, lkc pi_lock_l q c)); [done|]. apply wp_ret_eq. by apply (wp_lock pi_lock_l); [..|apply Hc|].
Qed.

Lemma wp_piperead user addr n base q c (Q : Z -> pist -> Prop) :
  runs p q -> pipe_ok c -> uwin user p q addr n base -> 0 <= addr -> 0 <= n -> addr + n < 2 ^ 64 ->
  0 < fill c \/ pi_writeopen c = 0 ->
  let k := Z.min n (fill c) in
  (forall q' c', woken_all (CPipeWrite id) (wmem q base (take (Z.to_nat k) (content c))) q' ->
     runs p q' -> pipe_ok c' -> content c' = drop (Z.to_nat k) (content c) -> Q k (q', c')) ->
  wp (piperead id fuel user addr n) Q (q, c).
Proof using fuel_pos.
  intros. unfold wp. rewrite piperead_go by done. by apply wp_read_go with base.
Qed.
End Fifo.

(** ** Waiting *)

(** Process [p] has gone to sleep on [ch]; the others are as in [q]. *)
Definition parked (p : nat) (ch : chan) (q q1 : pst) : Prop :=
  p_state (view (proc_l p) q1) = SLEEPING /\ p_chan (view (proc_l p) q1) = Some ch
  /\ forall j, j <> p -> entry (s_procs q1) j = entry (s_procs q) j.
(** [k] bytes from address [a] of [q]'s memory are put in. *)
Definition poured (a k : Z) (q : pst) (c c' : pipe) : Prop :=
  pipe_ok c' /\ content c' = content c ++ read_bytes (view mem_l q) a k
  /\ pi_readopen c' = pi_readopen c /\ pi_writeopen c' = pi_writeopen c.

Section Waiting.
Variables (id fuel p : nat) (user addr n base : Z).

(** What comes out of a [pipewrite] that has [i] of its [n] bytes in the pipe:
    it puts in what there is room for.  If that is all, it returns; if nobody
    can read or the process is killed, it fails; otherwise it wakes the readers
    and sleeps, and is in the same position when it is back, for [m] times. *)
Fixpoint writes (m : nat) (i : Z) (q : pst) (c : pipe) (r : res pist Z) : Prop :=
  let room := PIPESIZE - fill c in
  if decide (n - i <= room) then
    exists q' c', r = Ret n (q', c') /\ poured (base + i) (n - i) q c c' /\ woken_all (CPipeRead id) q q'
  else if decide (pi_readopen c = 0 \/ p_killed (view (proc_l p) q) <> 0) then
    exists c', r = Ret (-1) (q, c') /\ poured (base + i) room q c c'
  else exists k qw q1 c', r = Yield WSched k (q1, c') /\ poured (base + i) room q c c'
    /\ woken_all (CPipeRead id) q qw /\ parked p (CPipeWrite id) qw q1
    /\ match m with
       | O => True
       | S m' => forall q2 q3 c2, back p q q2 q3 -> pipe_ok c2 -> uwin user p q3 addr n base ->
           writes m' (i + room) q3 c2 (k (q2, c2))
       end.

(** What comes out of a [piperead]: it waits while the pipe is empty and may be
    written to, and then takes the oldest bytes. *)
Fixpoint reads (m : nat) (q : pst) (c : pipe) (r : res pist Z) : Prop :=
  if decide (fill c = 0 /\ pi_writeopen c <> 0) then
    if decide (p_killed (view (proc_l p) q) <> 0) then r = Ret (-1) (q, c)
    else exists k q1, r = Yield WSched k (q1, c) /\ parked p (CPipeRead id) q q1
      /\ match m with
         | O => True
         | S m' => forall q2 q3 c2, back p q q2 q3 -> pipe_ok c2 -> uwin user p q3 addr n base ->
             reads m' q3 c2 (k (q2, c2))
         end
  else exists q' c', let k := Z.min n (Z.of_nat (length (content c))) in
    r = Ret k (q', c') /\ pipe_ok c' /\ content c = take (Z.to_nat k) (content c) ++ content c'
    /\ woken_all (CPipeWrite id) (wmem q base (take (Z.to_nat k) (content c))) q'.
End Waiting.

Section Writer.
Variables (id fuel p : nat) (user addr n base : Z).
Hypothesis range : 0 <= addr /\ 0 <= n /\ addr + n < 2 ^ 64.
Abbreviation ins q c := (inq q, lkc pi_lock_l q c).

(** The end of [pipewrite], and what is left of it at byte [i], with [f] turns
    of the loop that waits. *)
Definition write_end (r : Z + option Z) : M pist Z :=
  match r with
  | inr None => mret (-1)
  | inl i | inr (Some i) =>
      _ ← zoom fst_l (wakeup (CPipeRead id)); _ ← release phart pilk; mret i
  end.
Definition write_byte (i : Z) (ok : bool) : M pist (Z + option Z) :=
  if negb ok then mret (inr None)
  else
    '(r, bs) ← zoom fst_l (either_copyin user (u64 (addr + i)) 1);
    if r =? -1 then mret (inr (Some i))
    else _ ← put_byte (hd 0 bs); mret (inl (i + 1)).
Definition write_from (f : nat) (i : Z) (l : list Z) : M pist Z :=
  r ← (r ← (ok ← loop f tt (fun _ => full_turn id p); write_byte i ok);
       match r with inl v => for_acc l v (write_turn id fuel p user addr) | inr b => mret (inr b) end);
  write_end r.
Definition write_go (f : nat) (i : Z) : M pist Z :=
  if decide (n <= i) then write_end (inl i) else write_from f i (seqZ (i + 1) (n - i - 1)).
Lemma write_go_eq i s : (r ← for_acc (seqZ i (n - i)) i (write_turn id fuel p user addr); write_end r) s = write_go fuel i s.
Proof using Type.
  unfold write_go. destruct (decide (n <= i)) as [H|H].
  - rewrite seqZ_nil by lia. done.
  - rewrite seqZ_cons by lia. replace (Z.succ i) with (i + 1) by lia. by replace (Z.pred (n - i)) with (n - i - 1) by lia.
Qed.

Lemma write_done i q c : runs p q -> pipe_ok c ->
  exists q', write_end (inl i) (ins q c) = Ret i (q', c) /\ woken_all (CPipeRead id) q q'.
Proof using Type.
  intros Hr Hc. pose proof (runs_settled _ _ Hr) as Hh. pose proof Hr as [Hq Hno Hp].
  assert (wp (write_end (inl i)) (fun r s => r = i /\ exists q', s = (q', c) /\ woken_all (CPipeRead id) q q') (ins q c)) as H.
  { cbn [write_end]. apply wp_bind, wp_zoom, (wp_wakeup _ q); [done|lia|]. intros q1 Hw Eh. apply wp_bind.
    apply (wp_unlock' pi_lock_l q q1 c); [done|done|apply Hc|]. apply wp_mret. split; [done|]. by exists q1. }
  apply wp_inv in H as (r & s & E & -> & q' & -> & Hw). by exists q'.
Qed.

(** A byte goes in where there is room. *)
Lemma write_one f i l q c : runs p q -> pipe_ok c -> fill c < PIPESIZE -> uwin user p q addr n base -> 0 <= i < n ->
  (0 < f)%nat ->
  write_from f i l (ins q c)
  = (r ← for_acc l (i + 1) (write_turn id fuel p user addr); write_end r) (ins q (put1 (rd8 (view mem_l q) (base + i)) c)).
Proof using range.
  intros Hr Hc Hf Hw Hi Hpos. unfold write_from.
  rewrite (bind_bind_ret _ _ _ _ (inl (i + 1)) (ins q (put1 (rd8 (view mem_l q) (base + i)) c))); [done|].
  apply wp_ret_eq, wp_bind, (wp_room id f p Hpos); [done|done|]. unfold write_byte. cbn [negb].
  rewrite u64_small by lia. apply wp_bind, wp_zoom. eapply wp_eq.
  { apply (copyin_uwin user p q addr n base); [done|done|lia|lia|lia]. }
  rewrite read_one. cbn beta iota. cbn [hd]. by apply wp_bind, wp_put_byte, wp_mret.
Qed.

(** Where there is none: the write fails, or waits. *)
Lemma full_cond c : pipe_ok c -> fill c = PIPESIZE -> (pi_nwrite c =? u32 (pi_nread c + PIPESIZE)) = true.
Proof using Type. intros Hc Hf. apply Z.eqb_eq. by apply full_iff. Qed.
Lemma write_fails f i l q c : runs p q -> pipe_ok c -> fill c = PIPESIZE ->
  pi_readopen c = 0 \/ p_killed (view (proc_l p) q) <> 0 -> write_from (S f) i l (ins q c) = Ret (-1) (q, c).
Proof using Type.
  intros Hr Hc Hf Hor. pose proof (runs_settled _ _ Hr) as Hh. apply wp_ret_eq. unfold write_from.
  apply wp_bind, wp_bind, wp_bind. cbn [loop]. apply wp_bind. unfold full_turn. apply wp_bind, wp_rd.
  change (view snd_l (ins q c)) with (lkc pi_lock_l q c). change (pi_nwrite (lkc pi_lock_l q c)) with (pi_nwrite c).
  change (pi_nread (lkc pi_lock_l q c)) with (pi_nread c). rewrite full_cond by done. apply wp_bind, wp_rd.
  change (pi_readopen (lkc pi_lock_l q c)) with (pi_readopen c).
  change (p_killed (view (fst_l ⊚ proc_l p) (ins q c))) with (p_killed (view (proc_l p) q)).
  assert ((pi_readopen c =? 0) || truth (p_killed (view (proc_l p) q)) = true) as ->.
  { unfold truth. destruct Hor as [-> |Hk]; [done|]. rewrite (proj2 (Z.eqb_neq _ _) Hk). apply orb_true_r. }
  apply wp_bind, (wp_unlock pi_lock_l q c); [done|apply Hc|]. by repeat apply wp_mret.
Qed.
Lemma write_sleeps f i l q c : runs p q -> pipe_ok c -> fill c = PIPESIZE ->
  pi_readopen c <> 0 -> p_killed (view (proc_l p) q) = 0 ->
  exists k qw q1, write_from (S f) i l (ins q c) = Yield WSched k (q1, c)
    /\ woken_all (CPipeRead id) q qw /\ parked p (CPipeWrite id) qw q1
    /\ forall q2 q3 c2, back p q q2 q3 -> pipe_ok c2 -> k (q2, c2) = write_from f i l (ins q3 c2).
Proof using Type.
  intros Hr Hc Hf Ho Hk. pose proof Hr as [Hq Hno Hp].
  assert (wp (wakeup (CPipeRead id)) (fun _ s => exists qw, s = inq qw /\ woken_all (CPipeRead id) q qw /\ view hart_l qw = view hart_l q) (inq q))
    as (u & s & Ew & qw & -> & Hw & Eh)%wp_inv.
  { apply (wp_wakeup _ q); [done|lia|]. intros q' Hw Eh. by exists q'. }
  destruct (sleep_pair pi_lock_l p (CPipeWrite id) qw c) as (q1 & Es & Ep & _ & Eo); [apply Hw|apply Hc|by rewrite Eh..|].
  assert (exists k0, full_turn id p (ins q c) = Yield WSched k0 (q1, c)
    /\ forall q2 q3 c2, back p q q2 q3 -> pipe_ok c2 -> k0 (q2, c2) = Ret (inl tt) (ins q3 c2)) as (k0 & Ek0 & Hk0).
  { unfold full_turn. rewrite (bind_ret _ _ _ (lkc pi_lock_l q c) (ins q c)) by done.
    change (pi_nwrite (lkc pi_lock_l q c)) with (pi_nwrite c).
    change (pi_nread (lkc pi_lock_l q c)) with (pi_nread c). rewrite full_cond by done.
    rewrite (bind_ret _ _ _ (view (proc_l p) q) (ins q c)) by done.
    change (pi_readopen (lkc pi_lock_l q c)) with (pi_readopen c). rewrite Hk, (proj2 (Z.eqb_neq _ _) Ho).
    cbn [orb truth Z.eqb negb]. rewrite (bind_ret _ _ _ tt (ins qw c)).
    2:{ erewrite zoom_ret by exact Ew. destruct u. unfold lkc. by rewrite Eh. }
    eexists. split; [exact (bind_yield _ _ _ _ _ _ Es)|]. intros q2 q3 c2 [(h & Hres & Hin) _] Hc2. cbn beta.
    rewrite Eh, <- Hin. by rewrite (sleep_resumed pi_lock_l p h q2 q3 c2 Hres (pi_unheld _ Hc2)). }
  eexists _, qw, q1. split; [|split; [exact Hw|split; [split; [by rewrite Ep|split; [by rewrite Ep|exact Eo]]|]]].
  - unfold write_from. cbn [loop]. exact (bind_yield _ _ _ _ _ _ (bind_yield _ _ _ _ _ _ (bind_yield _ _ _ _ _ _ (bind_yield _ _ _ _ _ _ Ek0)))).
  - intros q2 q3 c2 Hb Hc2. cbn beta. by rewrite (Hk0 q2 q3 c2 Hb Hc2).
Qed.

Lemma poured_nil a q c : pipe_ok c -> poured a 0 q c c.
Proof using Type. intros H. split; [done|]. split; [by rewrite app_nil_r|done]. Qed.
Lemma writes_full m f i l q c : runs p q -> pipe_ok c -> fill c = PIPESIZE -> i < n ->
  (forall m' q3 c2, m = S m' -> runs p q3 -> pipe_ok c2 -> uwin user p q3 addr n base ->
     writes id p user addr n base m' i q3 c2 (write_from f i l (ins q3 c2))) ->
  writes id p user addr n base m i q c (write_from (S f) i l (ins q c)).
Proof using Type.
  clear range. intros Hr Hc Hf Hi Hrec. pose proof (poured_nil (base + i) q c Hc) as Hp.
  destruct (decide (pi_readopen c = 0 \/ p_killed (view (proc_l p) q) <> 0)) as [Hor|Hno].
  - rewrite write_fails by done. destruct m; cbn [writes];
      rewrite Hf, Z.sub_diag, decide_False, decide_True by (done || lia); by exists c.
  - destruct (write_sleeps f i l q c Hr Hc Hf) as (k & qw & q1 & -> & H1 & H2 & H3); [tauto|lia|].
    destruct m as [|m]; cbn [writes]; rewrite Hf, Z.sub_diag, !decide_False by (done || lia);
      exists k, qw, q1, c; do 4 (split; [done|]); [done|].
    intros q2 q3 c2 Hb Hc2 Hw2. rewrite (H3 q2 q3 c2 Hb Hc2), Z.add_0_r.
    apply Hrec; [done|apply Hb|done|done].
Qed.

(** One byte in: the rest is as from there. *)
Lemma writes_put m i q c r : pipe_ok c -> fill c < PIPESIZE -> i < n ->
  writes id p user addr n base m (i + 1) q (put1 (rd8 (view mem_l q) (base + i)) c) r ->
  writes id p user addr n base m i q c r.
Proof using Type.
  clear range. intros Hc Hf Hi. destruct (put1_ok (rd8 (view mem_l q) (base + i)) c Hc Hf) as (Hc1 & Hf1 & Hct).
  assert (forall k c', 0 <= k -> poured (base + (i + 1)) k q (put1 (rd8 (view mem_l q) (base + i)) c) c' ->
    poured (base + i) (k + 1) q c c') as Hp.
  { intros k c' Hk (H1 & H2 & H3 & H4). split; [done|]. split; [|by split]. rewrite H2, Hct, <- app_assoc. f_equal.
    rewrite (Z.add_comm k 1), read_bytes_app by lia. rewrite read_one. by rewrite Z.add_assoc. }
  destruct m as [|m]; cbn [writes]; rewrite Hf1; cbn [put1 pi_readopen];
    (destruct (decide (n - (i + 1) <= PIPESIZE - (fill c + 1))) as [H|H];
      [rewrite decide_True by lia; intros (q' & c' & -> & H1 & H2); exists q', c'; split; [done|]; split; [|done];
       replace (n - i) with (n - (i + 1) + 1) by lia; apply Hp; [lia|done]
      |rewrite (decide_False (P := n - i <= PIPESIZE - fill c)) by lia; pose proof (pi_fill _ Hc1); destruct (decide _);
       [intros (c' & -> & H1); exists c'; split; [done|];
        replace (PIPESIZE - fill c) with (PIPESIZE - (fill c + 1) + 1) by lia; apply Hp; [lia|done]
       |intros (k & qw & q1 & c' & -> & H1 & H2 & H3 & H4); exists k, qw, q1, c'; split; [done|];
        split; [replace (PIPESIZE - fill c) with (PIPESIZE - (fill c + 1) + 1) by lia; apply Hp; [lia|done]|];
        split; [done|]; split; [done|];
        replace (i + (PIPESIZE - fill c)) with (i + 1 + (PIPESIZE - (fill c + 1))) by lia; exact H4]]).
Qed.

Lemma writes_ok m : (m < fuel)%nat -> forall f i q c, (m < f)%nat -> runs p q -> pipe_ok c ->
  uwin user p q addr n base -> 0 <= i <= n ->
  writes id p user addr n base m i q c (write_go f i (ins q c)).
Proof using range.
  induction m as [m IHm] using lt_wf_ind. intros Hm f i q c Hf Hr Hc Hw Hi.
  remember (Z.to_nat (n - i)) as d eqn:Ed. revert f i c Hf Hc Hi Ed.
  induction d as [|d IHd]; intros f i c Hf Hc Hi Ed; unfold write_go.
  - assert (i = n) as -> by lia. rewrite decide_True by lia.
    destruct (write_done n q c Hr Hc) as (q' & E & Hw').
    assert (poured (base + n) (n - n) q c c) as Hp by (rewrite Z.sub_diag; split; [done|]; split; [by rewrite app_nil_r|done]).
    pose proof (pi_fill _ Hc). destruct m; cbn [writes]; rewrite decide_True by lia; exists q', c; by rewrite E.
  - rewrite decide_False by lia. destruct (decide (fill c < PIPESIZE)) as [Hlt|Hge].
    + rewrite write_one by (done || lia). apply writes_put; [done..|lia|].
      replace (n - i - 1) with (n - (i + 1)) by lia. rewrite write_go_eq.
      apply IHd; [done|by apply put1_ok|lia|lia].
    + assert (fill c = PIPESIZE) as Hfull by (pose proof (pi_fill _ Hc); lia).
      destruct f as [|f]; [lia|]. apply writes_full; [done..|lia|].
      intros m' q3 c2 -> Hr3 Hc2 Hw3. pose proof (IHm m' ltac:(lia) ltac:(lia) f i q3 c2 ltac:(lia) Hr3 Hc2 Hw3 ltac:(lia)) as H.
      unfold write_go in H. by rewrite decide_False in H by lia.
Qed.
End Writer.

Section Reader.
Variables (id p : nat) (user addr n base : Z).
Hypothesis range : 0 <= addr /\ 0 <= n /\ addr + n < 2 ^ 64.
Abbreviation ins q c := (inq q, lkc pi_lock_l q c).

Lemma empty_cond c : pipe_ok c -> fill c = 0 /\ pi_writeopen c <> 0 ->
  (pi_nread c =? pi_nwrite c) && truth (pi_writeopen c) = true.
Proof using Type.
  intros Hc [Hf Ho]. unfold truth. rewrite (proj2 (Z.eqb_neq _ _) Ho). rewrite (proj2 (Z.eqb_eq _ _)); [done|].
  by apply empty_iff.
Qed.

(** Where there is nothing: the read fails, or waits. *)
Lemma read_fails f q c : runs p q -> pipe_ok c -> fill c = 0 /\ pi_writeopen c <> 0 ->
  p_killed (view (proc_l p) q) <> 0 -> read_go id (S f) p user addr n (ins q c) = Ret (-1) (q, c).
Proof using Type.
  intros Hr Hc Hf Hk. pose proof (runs_settled _ _ Hr) as Hh. apply wp_ret_eq. unfold read_go.
  apply wp_bind. cbn [loop]. apply wp_bind. unfold empty_turn. apply wp_bind, wp_rd.
  change (view snd_l (ins q c)) with (lkc pi_lock_l q c). change (pi_nwrite (lkc pi_lock_l q c)) with (pi_nwrite c).
  change (pi_nread (lkc pi_lock_l q c)) with (pi_nread c).
  change (pi_writeopen (lkc pi_lock_l q c)) with (pi_writeopen c). rewrite empty_cond by done. apply wp_bind, wp_rd.
  change (p_killed (view (fst_l ⊚ proc_l p) (ins q c))) with (p_killed (view (proc_l p) q)).
  assert (truth (p_killed (view (proc_l p) q)) = true) as -> by (unfold truth; by rewrite (proj2 (Z.eqb_neq _ _) Hk)).
  apply wp_bind, (wp_unlock pi_lock_l q c); [done|apply Hc|]. by repeat apply wp_mret.
Qed.
Lemma read_sleeps f q c : runs p q -> pipe_ok c -> fill c = 0 /\ pi_writeopen c <> 0 ->
  p_killed (view (proc_l p) q) = 0 ->
  exists k q1, read_go id (S f) p user addr n (ins q c) = Yield WSched k (q1, c) /\ parked p (CPipeRead id) q q1
    /\ forall q2 q3 c2, back p q q2 q3 -> pipe_ok c2 -> k (q2, c2) = read_go id f p user addr n (ins q3 c2).
Proof using Type.
  intros Hr Hc Hf Hk. pose proof Hr as [Hq Hno Hp].
  destruct (sleep_pair pi_lock_l p (CPipeRead id) q c) as (q1 & Es & Ep & _ & Eo); [done|apply Hc|done..|].
  assert (exists k0, empty_turn id p (ins q c) = Yield WSched k0 (q1, c)
    /\ forall q2 q3 c2, back p q q2 q3 -> pipe_ok c2 -> k0 (q2, c2) = Ret (inl tt) (ins q3 c2)) as (k0 & Ek0 & Hk0).
  { unfold empty_turn. rewrite (bind_ret _ _ _ (lkc pi_lock_l q c) (ins q c)) by done.
    change (pi_nwrite (lkc pi_lock_l q c)) with (pi_nwrite c). change (pi_nread (lkc pi_lock_l q c)) with (pi_nread c).
    change (pi_writeopen (lkc pi_lock_l q c)) with (pi_writeopen c). rewrite empty_cond by done.
    rewrite (bind_ret _ _ _ (view (proc_l p) q) (ins q c)) by done. rewrite Hk. cbn [truth Z.eqb negb].
    eexists. split; [exact (bind_yield _ _ _ _ _ _ Es)|]. intros q2 q3 c2 [(h & Hres & Hin) _] Hc2. cbn beta.
    rewrite <- Hin. by rewrite (sleep_resumed pi_lock_l p h q2 q3 c2 Hres (pi_unheld _ Hc2)). }
  eexists _, q1. split; [|split; [split; [by rewrite Ep|split; [by rewrite Ep|exact Eo]]|]].
  - unfold read_go. cbn [loop]. exact (bind_yield _ _ _ _ _ _ (bind_yield _ _ _ _ _ _ Ek0)).
  - intros q2 q3 c2 Hb Hc2. cbn beta. by rewrite (Hk0 q2 q3 c2 Hb Hc2).
Qed.

Lemma read_takes f q c : (0 < f)%nat -> runs p q -> pipe_ok c -> uwin user p q addr n base ->
  0 < fill c \/ pi_writeopen c = 0 ->
  exists q' c', let k := Z.min n (Z.of_nat (length (content c))) in
    read_go id f p user addr n (ins q c) = Ret k (q', c') /\ pipe_ok c'
    /\ content c = take (Z.to_nat k) (content c) ++ content c'
    /\ woken_all (CPipeWrite id) (wmem q base (take (Z.to_nat k) (content c))) q'.
Proof using range.
  intros Hf Hr Hc Hw Hs. pose proof (fill_range c). rewrite length_content, Z2Nat.id by done.
  pose proof (wp_read_go id f p Hf user addr n base q c (fun r '(q', c') => r = Z.min n (fill c) /\ pipe_ok c'
    /\ content c = take (Z.to_nat (Z.min n (fill c))) (content c) ++ content c'
    /\ woken_all (CPipeWrite id) (wmem q base (take (Z.to_nat (Z.min n (fill c))) (content c))) q')
    Hr Hc Hw ltac:(lia) ltac:(lia) ltac:(lia) Hs) as H1.
  apply wp_inv in H1 as (r & [q' c'] & E & -> & H1); [by exists q', c'|].
  intros q' c' Hwk _ Hc' Hct. split; [done|]. split; [done|]. split; [|done]. by rewrite Hct, take_drop.
Qed.

Lemma reads_ok m : forall f q c, (m < f)%nat -> runs p q -> pipe_ok c -> uwin user p q addr n base ->
  reads id p user addr n base m q c (read_go id f p user addr n (ins q c)).
Proof using range.
  induction m as [|m IH]; intros [|f] q c Hf Hr Hc Hw; try lia; pose proof (fill_range c); cbn [reads];
    (destruct (decide (fill c = 0 /\ pi_writeopen c <> 0)) as [He|He];
      [destruct (decide _) as [Hk|Hk]; [by apply read_fails|]|apply read_takes; [lia|done..|lia]]);
    destruct (read_sleeps f q c Hr Hc He) as (k & q1 & E & Hp & Hb); try lia; exists k, q1; do 2 (split; [done|]); [done|].
  intros q2 q3 c2 B Hc2 Hw2. rewrite (Hb q2 q3 c2 B Hc2). apply IH; [lia|apply B|done|done].
Qed.
End Reader.

Lemma pipewrite_go id fuel p user addr n q c : runs p q -> pipe_ok c ->
  pipewrite id fuel user addr n (q, c) = write_go id fuel p user addr n fuel 0 (inq q, lkc pi_lock_l q c).
Proof.
  intros Hr Hc. pose proof (runs_settled _ _ Hr) as Hh. destruct Hr as [_ _ Hp]. unfold pipewrite.
  rewrite (bind_ret _ _ _ p (q, c)) by (erewrite zoom_ret by (by apply cur_ok); done).
  rewrite (bind_ret _ _ _ tt (inq q, lkc pi_lock_l q c)).
  - rewrite <- write_go_eq. by rewrite Z.sub_0_r.
  - apply wp_ret_eq. by apply (wp_lock pi_lock_l); [..|apply Hc|].
Qed.

(** C29. A pipe is a queue of at most 512 bytes.  [pipewrite] appends the
    writer's bytes, in order: all [n] if there is room, and then it wakes the
    readers and returns [n].  If there is not, it appends as many as fit, up to
    512 in the pipe and no more; then it returns -1 if the read end is closed or
    the process is killed, and otherwise wakes the readers and sleeps, and when
    it is back, whatever is in the pipe by then, goes on with the bytes that are
    left in the same way.  [piperead] of [n] bytes from a pipe that is empty and
    still has a writer returns -1 if the process is killed and sleeps otherwise,
    and looks again when it is back; from any other it returns the number of
    bytes it could take (0 at the end of the stream), stores exactly the oldest
    ones, in order, in the reader's buffer, leaves the rest and wakes the
    writers.  Both for any number [m] of wakings that the fuel covers, and for
    counters that may wrap around 32 bits in between. *)
Theorem pipe_fifo (id fuel p m : nat) (user addr n base : Z) (q : pst) (c : pipe) :
  (m < fuel)%nat -> runs p q -> pipe_ok c ->
  uwin user p q addr n base -> 0 <= addr -> 0 <= n -> addr + n < 2 ^ 64 ->
  writes id p user addr n base m 0 q c (pipewrite id fuel user addr n (q, c))
  /\ reads id p user addr n base m q c (piperead id fuel user addr n (q, c)).
Proof.
  intros Hf Hr Hc Hw Ha Hn Hmax. split.
  - rewrite (pipewrite_go id fuel p) by done. apply writes_ok; try done.
  - rewrite (piperead_go id fuel p) by done. by apply reads_ok.
Qed.

Lemma new_pipe_ok : pipe_ok new_pipe.
Proof. split; [done|done|done|done|done]. Qed.

(** A write of the three kernel bytes at [0x9000000090000000] to a new pipe, and
    a read from it, which waits up to three times. *)
Example pipe_fifo_witness :
  let base := 0x9000000090000000 in
  writes 0 0 0 base 3 base 3 0 demo_pst new_pipe (pipewrite 0 4 0 base 3 (demo_pst, new_pipe))
  /\ reads 0 0 0 base 3 base 3 demo_pst new_pipe (piperead 0 4 0 base 3 (demo_pst, new_pipe)).
Proof.
  intros base.
  exact (pipe_fifo 0 4 0 3 0 base 3 base demo_pst new_pipe ltac:(lia) demo_runs new_pipe_ok
    eq_refl ltac:(done) ltac:(done) ltac:(done)).
Defined.
