(* ===== verification/RingBuf.v ===== *)
(** The ring buffer of kernel/ring_buffer.c: 4095 cells, one of them always
    free, between a [head] to read from and a [tail] to write to. *)

From S2P Require Import Prelude Mem Circ Locks Kalloc Vm PageTable VmProps ProcState Vma Proc ProcFacts Sleeplock UserMem.

Definition RING_BUFFER_SIZE : Z := 4095.

Record ring_buffer := RingBuffer {
  rb_lock : spinlock;   (** the global [ring_buffer_lock] *)
  rb_size : Z;
  rb_head : Z;
  rb_tail : Z;
  rb_buf : list Z
}.

Definition rb_lock_l : lens ring_buffer (spinlock) :=
  Lens rb_lock (fun v r => RingBuffer v (rb_size r) (rb_head r) (rb_tail r) (rb_buf r)).
Definition rb_size_l : lens ring_buffer (Z) :=
  Lens rb_size (fun v r => RingBuffer (rb_lock r) v (rb_head r) (rb_tail r) (rb_buf r)).
Definition rb_head_l : lens ring_buffer (Z) :=
  Lens rb_head (fun v r => RingBuffer (rb_lock r) (rb_size r) v (rb_tail r) (rb_buf r)).
Definition rb_tail_l : lens ring_buffer (Z) :=
  Lens rb_tail (fun v r => RingBuffer (rb_lock r) (rb_size r) (rb_head r) v (rb_buf r)).
Definition rb_buf_l : lens ring_buffer (list Z) :=
  Lens rb_buf (fun v r => RingBuffer (rb_lock r) (rb_size r) (rb_head r) (rb_tail r) v).

#[export] Instance rb_lock_laws : LensLaws rb_lock_l.
Proof. by split; [split|]; intros; repeat match goal with x : ring_buffer |- _ => destruct x
    end. Qed.
#[export] Instance rb_size_laws : LensLaws rb_size_l.
Proof. by split; [split|]; intros; repeat match goal with x : ring_buffer |- _ => destruct x
    end. Qed.
#[export] Instance rb_head_laws : LensLaws rb_head_l.
Proof. by split; [split|]; intros; repeat match goal with x : ring_buffer |- _ => destruct x
    end. Qed.
#[export] Instance rb_tail_laws : LensLaws rb_tail_l.
Proof. by split; [split|]; intros; repeat match goal with x : ring_buffer |- _ => destruct x
    end. Qed.
#[export] Instance rb_buf_laws : LensLaws rb_buf_l.
Proof. by split; [split|]; intros; repeat match goal with x : ring_buffer |- _ => destruct x
    end. Qed.

Abbreviation rst := (pst * ring_buffer)%type.
Abbreviation rb := snd_l.
Abbreviation rblk := (snd_l ⊚ rb_lock_l).

(** [sizeof] counts [size], [head] and [tail]: the [memset] stops 12 bytes
    short of the end of what it means to clear, and 13 short of the array. *)
Definition init_ring_buffer : M rst unit :=
  _ ← rb ⊚ rb_head_l <~ 0;
  _ ← rb ⊚ rb_tail_l <~ 0;
  _ ← md (rb ⊚ rb_buf_l) (fun b => splice b 0 (replicate 4083 0));
  _ ← rb ⊚ rb_size_l <~ RING_BUFFER_SIZE;
  initlock rblk "ring_buffer_lock".

(** [int] and [unsigned] mix to [unsigned]. *)
Definition ring_buffer_used (r : ring_buffer) : Z :=
  s32 (u32 (rb_tail r - rb_head r + rb_size r) mod rb_size r).
Definition ring_buffer_free (r : ring_buffer) : Z :=
  s32 (u32 (rb_size r - ring_buffer_used r - 1)).
Definition ring_buffer_empty (r : ring_buffer) : bool := ring_buffer_used r =? 0.
Definition ring_buffer_full (r : ring_buffer) : bool := ring_buffer_free r =? 0.

Section Wait.
(** The clock. *)
Variable r_time : M rst Z.
Definition wait_turn (blocked : ring_buffer -> bool) (final_ticks : Z) : M rst (unit + Z) :=
  r ← rd rb;
  if blocked r then
    now ← r_time;
    if final_ticks <? now then mret (inr 1)
    else _ ← zoom fst_l yield; mret (inl tt)
  else mret (inr 0).
Definition wait_ring_buffer_read (fuel : nat) (final_ticks : Z) : M rst Z :=
  loop fuel tt (fun _ => wait_turn ring_buffer_empty final_ticks).
Definition wait_ring_buffer_write (fuel : nat) (final_ticks : Z) : M rst Z :=
  loop fuel tt (fun _ => wait_turn ring_buffer_full final_ticks).
End Wait.

(** The macro [min] compares as [unsigned]; the result is stored in an [int]. *)
Definition min_len (have size : Z) : Z := s32 (if u32 have <? size then u32 have else size).

(** [copyout(myproc()->pagetable, ...)] and back; the results are ignored. *)
Definition to_user (a : Z) (bs : list Z) : M rst unit :=
  p ← zoom fst_l cur;
  pt ← rd (fst_l ⊚ (proc_l p ⊚ p_pagetable_l));
  _ ← zoom fst_l (kmem (copyout_bytes pt a bs)); mret tt.
Definition from_user (a n : Z) : M rst (list Z) :=
  p ← zoom fst_l cur;
  pt ← rd (fst_l ⊚ (proc_l p ⊚ p_pagetable_l));
  '(_, bs) ← zoom fst_l (kmem (copyin_bytes pt a n)); mret bs.

Definition read_ring_buffer (buf size : Z) : M rst Z :=
  _ ← acquire phart rblk;
  r ← rd rb;
  let len := min_len (ring_buffer_used r) size in
  _ ← (if 0 <? len then
         _ ← (if rb_size r <? u32 (rb_head r + len) then
                let right := s32 (rb_size r - rb_head r) in
                let left := len - right in
                _ ← to_user buf (slice (rb_buf r) (rb_head r) right);
                to_user (u64 (buf + right)) (slice (rb_buf r) 0 left)
              else to_user buf (slice (rb_buf r) (rb_head r) len));
         rb ⊚ rb_head_l <~ u32 (rb_head r + len) mod rb_size r
       else if len <? 0 then panic "read_ring_buffer: len < 0" else mret tt);
  _ ← release phart rblk;
  mret (u32 len).

Definition write_ring_buffer (buf size : Z) : M rst Z :=
  _ ← acquire phart rblk;
  r ← rd rb;
  let len := min_len (ring_buffer_free r) size in
  _ ← (if 0 <? len then
         _ ← (if rb_size r <? u32 (rb_tail r + len) then
                let right := s32 (rb_size r - rb_tail r) in
                let left := len - right in
                bs ← from_user buf right;
                _ ← md (rb ⊚ rb_buf_l) (fun b => splice b (rb_tail r) bs);
                when (0 <? left)
                  (bs ← from_user (u64 (buf + right)) left;
                   md (rb ⊚ rb_buf_l) (fun b => splice b 0 bs))
              else
                bs ← from_user buf len;
                md (rb ⊚ rb_buf_l) (fun b => splice b (rb_tail r) bs));
         rb ⊚ rb_tail_l <~ u32 (rb_tail r + len) mod rb_size r
       else if len <? 0 then panic "read_ring_buffer: len < 0" else mret tt);
  _ ← release phart rblk;
  mret (u32 len).

(** * A ring buffer is a queue of at most 4094 bytes *)

Record ring_ok (r : ring_buffer) : Prop := {
  rk_lock : unheld (rb_lock r);
  rk_size : rb_size r = RING_BUFFER_SIZE;
  rk_head : 0 <= rb_head r < RING_BUFFER_SIZE;
  rk_tail : 0 <= rb_tail r < RING_BUFFER_SIZE;
  rk_buf : length (rb_buf r) = 4096%nat
}.
Definition used (r : ring_buffer) : Z := (rb_tail r - rb_head r) mod RING_BUFFER_SIZE.
Definition queue (r : ring_buffer) : list Z := circ RING_BUFFER_SIZE (rb_buf r) (rb_head r) (used r).

Lemma used_eq r : ring_ok r -> ring_buffer_used r = used r.
Proof.
  intros [_ Hs Hh Ht _]. unfold ring_buffer_used, used. rewrite Hs. unfold RING_BUFFER_SIZE in *.
  rewrite s32_small; unfold u32; zlia.
Qed.
Lemma free_eq r : ring_ok r -> ring_buffer_free r = RING_BUFFER_SIZE - 1 - used r.
Proof.
  intros Hr. unfold ring_buffer_free. rewrite used_eq by done. destruct Hr as [_ Hs Hh Ht _].
  rewrite Hs. unfold used, RING_BUFFER_SIZE in *. rewrite s32_small; unfold u32; zlia.
Qed.
Lemma used_range r : 0 <= used r < RING_BUFFER_SIZE.
Proof. apply Z.mod_pos_bound. done. Qed.
Lemma min_len_eq have size : 0 <= have < 2 ^ 31 -> 0 <= size < 2 ^ 32 -> min_len have size = Z.min have size.
Proof.
  intros Hh Hs. unfold min_len. rewrite u32_small by lia.
  destruct (Z.ltb_spec have size); rewrite s32_small; lia.
Qed.

(** The ring after bytes went in at the tail, and out at the head. *)
Definition pushed_ring (r : ring_buffer) (bs : list Z) : ring_buffer :=
  let len := Z.of_nat (length bs) in
  let right := RING_BUFFER_SIZE - rb_tail r in
  RingBuffer (rb_lock r) (rb_size r) (rb_head r) ((rb_tail r + len) mod RING_BUFFER_SIZE)
    (if RING_BUFFER_SIZE <? rb_tail r + len
     then splice (splice (rb_buf r) (rb_tail r) (take (Z.to_nat right) bs)) 0 (drop (Z.to_nat right) bs)
     else splice (rb_buf r) (rb_tail r) bs).
Definition popped_ring (r : ring_buffer) (len : Z) : ring_buffer :=
  RingBuffer (rb_lock r) (rb_size r) ((rb_head r + len) mod RING_BUFFER_SIZE) (rb_tail r) (rb_buf r).

Lemma tail_mod r : ring_ok r -> (rb_head r + used r) mod RING_BUFFER_SIZE = rb_tail r.
Proof. intros [_ _ Hh Ht _]. unfold used, RING_BUFFER_SIZE in *. zlia. Qed.

Lemma pushed_ring_ok r bs : ring_ok r -> used r + Z.of_nat (length bs) < RING_BUFFER_SIZE ->
  ring_ok (pushed_ring r bs) /\ queue (pushed_ring r bs) = queue r ++ bs.
Proof.
  intros Hr Hl. pose proof Hr as [Hlk Hs Hh Ht Hb]. pose proof (used_range r) as Hu.
  set (len := Z.of_nat (length bs)) in *.
  assert (used (pushed_ring r bs) = used r + len) as Eu.
  { unfold used, pushed_ring. cbn [rb_tail rb_head]. fold len.
    unfold used, RING_BUFFER_SIZE in *. zlia. }
  pose proof (tail_mod r Hr) as Etail.
  split.
  - split; [done|done|done|apply Z.mod_pos_bound; done|].
    cbn [pushed_ring rb_buf]. fold len.
    destruct (Z.ltb_spec RING_BUFFER_SIZE (rb_tail r + len));
      rewrite ?length_splice; rewrite ?length_take, ?length_drop; unfold RING_BUFFER_SIZE in *;
      try lia; rewrite ?length_splice; rewrite ?length_take, ?length_drop; lia.
  - unfold queue. rewrite Eu. cbn [pushed_ring rb_buf rb_head]. fold len.
    destruct (Z.ltb_spec RING_BUFFER_SIZE (rb_tail r + len)) as [Hlt|Hge].
    + set (right := RING_BUFFER_SIZE - rb_tail r) in *.
      set (b1 := take (Z.to_nat right) bs). set (b2 := drop (Z.to_nat right) bs).
      assert (Z.of_nat (length b1) = right) as E1
        by (unfold b1, right, RING_BUFFER_SIZE in *; rewrite length_take; lia).
      assert (Z.of_nat (length b2) = len - right) as E2
        by (unfold b2, right, RING_BUFFER_SIZE in *; rewrite length_drop; lia).
      replace (used r + len) with (used r + right + Z.of_nat (length b2)) by lia.
      assert ((rb_head r + (used r + right)) mod RING_BUFFER_SIZE = 0) as E0
        by (unfold right, used, RING_BUFFER_SIZE in *; zlia).
      rewrite <- E0 at 1.
      rewrite circ_splice; rewrite ?E0; unfold RING_BUFFER_SIZE in *; try lia;
        [|rewrite length_splice by lia; lia].
      replace bs with (b1 ++ b2) by apply take_drop. rewrite app_assoc. f_equal. rewrite <- E1. rewrite <- Etail at 1.
      apply circ_splice; rewrite ?Etail; unfold right in *; lia.
    + rewrite <- Etail at 1. apply circ_splice; rewrite ?Etail; unfold RING_BUFFER_SIZE in *; lia.
Qed.

Lemma popped_ring_ok r len : ring_ok r -> 0 <= len <= used r ->
  ring_ok (popped_ring r len) /\ queue (popped_ring r len) = drop (Z.to_nat len) (queue r).
Proof.
  intros Hr Hl. pose proof Hr as [Hlk Hs Hh Ht Hb]. pose proof (used_range r) as Hu.
  assert (used (popped_ring r len) = used r - len) as Eu.
  { unfold used, popped_ring in *. cbn [rb_tail rb_head]. unfold RING_BUFFER_SIZE in *. zlia. }
  split.
  - split; [done|done|apply Z.mod_pos_bound; done|done|done].
  - unfold queue. rewrite Eu, circ_drop by lia. apply circ_mod; [done|].
    cbn [popped_ring rb_head]. unfold RING_BUFFER_SIZE. by rewrite Zmod_mod.
Qed.
(** Readers of the counters do not see the lock. *)
Lemma lkc_ring q r : exists l,
  lkc rb_lock_l q r = RingBuffer l (rb_size r) (rb_head r) (rb_tail r) (rb_buf r).
Proof. by eexists. Qed.
Lemma lkc_used q r : ring_buffer_used (lkc rb_lock_l q r) = ring_buffer_used r.
Proof. by destruct (lkc_ring q r) as [l ->]. Qed.
Lemma lkc_free q r : ring_buffer_free (lkc rb_lock_l q r) = ring_buffer_free r.
Proof. unfold ring_buffer_free. rewrite lkc_used. by destruct (lkc_ring q r) as [l ->]. Qed.

Section Fifo.
Variables (p : nat) (f : Z -> Z) (va n base : Z).

(** The user's buffer, as the running process maps it. *)
Definition ubuf (q : pst) : Prop :=
  window (p_pagetable (view (proc_l p) q)) f (view mem_l q) va n base.

Lemma wp_to_user q c i bs (Q : unit -> rst -> Prop) : runs p q -> ubuf q ->
  0 <= i -> i + Z.of_nat (length bs) <= n ->
  Q tt (inq (wmem q (base + i) bs), c) -> wp (to_user (va + i) bs) Q (inq q, c).
Proof using Type.
  intros Hr Hw Hi Hl HQ. unfold to_user. apply wp_bind, wp_zoom.
  eapply wp_eq; [by apply (cur_inq p)|]. apply wp_bind, wp_rd.
  change (update fst_l (inq q) (inq q, c)) with (inq q, c).
  change (view (fst_l ⊚ (proc_l p ⊚ p_pagetable_l)) (inq q, c)) with (p_pagetable (view (proc_l p) q)).
  apply wp_bind, wp_zoom, wp_zoom. eapply wp_eq.
  { apply (copyout_window _ f (va + i) (Z.of_nat (length bs)) (base + i)); [|done].
    apply (window_sub _ _ (view mem_l q) _ n); [exact Hw|lia..]. }
  apply wp_mret. destruct q as [[] ? ? ? ? ? ?]. exact HQ.
Qed.
Lemma wp_from_user q c i j (Q : list Z -> rst -> Prop) : runs p q -> ubuf q ->
  0 <= i -> 0 <= j -> i + j <= n ->
  Q (read_bytes (view mem_l q) (base + i) j) (inq q, c) -> wp (from_user (va + i) j) Q (inq q, c).
Proof using Type.
  intros Hr Hw Hi Hj Hl HQ. unfold from_user. apply wp_bind, wp_zoom.
  eapply wp_eq; [by apply (cur_inq p)|]. apply wp_bind, wp_rd.
  change (update fst_l (inq q) (inq q, c)) with (inq q, c).
  change (view (fst_l ⊚ (proc_l p ⊚ p_pagetable_l)) (inq q, c)) with (p_pagetable (view (proc_l p) q)).
  apply wp_bind, wp_zoom, wp_zoom. eapply wp_eq.
  { apply (copyin_window _ f (va + i) j (base + i)).
    apply (window_sub _ _ (view mem_l q) _ n); [exact Hw|lia..]. }
  apply wp_mret. destruct q as [[] ? ? ? ? ? ?]. exact HQ.
Qed.
Lemma ubuf_wmem q i bs : ubuf q -> 0 <= i -> i + Z.of_nat (length bs) <= n ->
  ubuf (wmem q (base + i) bs).
Proof using Type.
  intros Hw Hi Hl. exact (window_write _ _ _ _ _ _ (base + i) bs Hw ltac:(lia) ltac:(lia)).
Qed.

Lemma wp_write_ring size q r (Q : Z -> rst -> Prop) : runs p q -> ring_ok r -> ubuf q ->
  0 <= size < 2 ^ 32 ->
  let len := Z.min (RING_BUFFER_SIZE - 1 - used r) size in
  len <= n ->
  Q len (q, pushed_ring r (read_bytes (view mem_l q) base len)) ->
  wp (write_ring_buffer va size) Q (q, r).
Proof using Type.
  intros Hr Hk Hw Hs len Hn HQ. pose proof (runs_settled _ _ Hr) as Hh.
  pose proof (used_range r) as Hu. pose proof Hk as [Hlk Hsz Hhd Htl Hb].
  pose proof Hw as [_ (Hva & _ & Hmax) _ _]. pose proof maxva_48.
  unfold write_ring_buffer. apply wp_bind. apply (wp_lock rb_lock_l); [done|exact Hlk|].
  apply wp_bind, wp_rd. change (view rb (inq q, lkc rb_lock_l q r)) with (lkc rb_lock_l q r).
  assert (min_len (ring_buffer_free (lkc rb_lock_l q r)) size = len) as ->.
  { rewrite lkc_free. rewrite free_eq by done. apply min_len_eq; unfold RING_BUFFER_SIZE in *; lia. }
  change (rb_size (lkc rb_lock_l q r)) with (rb_size r). change (rb_tail (lkc rb_lock_l q r)) with (rb_tail r).
  rewrite Hsz. rewrite (u32_small (rb_tail r + len)) by (unfold len, RING_BUFFER_SIZE in *; lia).
  rewrite (u32_small len) by (unfold len, RING_BUFFER_SIZE in *; lia).
  set (bs := read_bytes (view mem_l q) base len) in *.
  assert (Z.of_nat (length bs) = len) as Hbs
    by (unfold bs; rewrite length_read_bytes; unfold len, RING_BUFFER_SIZE in *; lia).
  assert (wp (_ ← release phart rblk; mret len) Q (inq q, lkc rb_lock_l q (pushed_ring r bs))) as Hend.
  { apply wp_bind, (wp_unlock rb_lock_l); [done|exact Hlk|]. apply wp_mret. exact HQ. }
  unfold pushed_ring in Hend. rewrite Hbs in Hend.
  destruct (Z.ltb_spec 0 len) as [Hpos|Hz].
  2:{ apply wp_bind. rewrite (proj2 (Z.ltb_ge len 0)) by (unfold len, RING_BUFFER_SIZE in *; lia).
      assert (len = 0) as E by (unfold len, RING_BUFFER_SIZE in *; lia). apply wp_mret.
      revert Hend. assert (bs = []) as -> by (apply length_zero_iff_nil; lia). rewrite E.
      rewrite (proj2 (Z.ltb_ge _ _)) by lia. rewrite Z.add_0_r, Z.mod_small by lia.
      assert (splice (rb_buf r) (rb_tail r) [] = rb_buf r) as ->.
      { unfold splice. cbn [app length]. by rewrite Nat.add_0_r, take_drop. }
      by destruct r. }
  apply wp_bind, wp_bind. destruct (Z.ltb_spec RING_BUFFER_SIZE (rb_tail r + len)) as [Hwr|Hnw].
  - set (right := RING_BUFFER_SIZE - rb_tail r) in *.
    rewrite s32_small by (unfold right, RING_BUFFER_SIZE in *; lia).
    assert (0 < right <= len) as Hright by (unfold right in *; lia).
    rewrite <- (Z.add_0_r va) at 1. apply wp_bind, wp_from_user; [done|done|lia|lia|lia|].
    apply wp_bind, wp_md. unfold when. rewrite (proj2 (Z.ltb_lt 0 (len - right))) by lia.
    rewrite u64_small by lia.
    apply wp_bind, wp_from_user; [done|done|lia|lia|lia|]. apply wp_md. cbn beta. apply wp_wr.
    assert (take (Z.to_nat right) bs = read_bytes (view mem_l q) (base + 0) right) as E1.
    { unfold bs. replace len with (right + (len - right)) by lia. rewrite read_bytes_app by lia.
      rewrite Z.add_0_r, take_app_le by (rewrite length_read_bytes; lia).
      apply take_ge. rewrite length_read_bytes. lia. }
    assert (drop (Z.to_nat right) bs = read_bytes (view mem_l q) (base + right) (len - right)) as E2.
    { unfold bs. replace len with (right + (len - right)) at 1 by lia. rewrite read_bytes_app by lia.
      rewrite drop_app_ge by (rewrite length_read_bytes; lia).
      by rewrite length_read_bytes, Nat.sub_diag. }
    rewrite E1, E2 in Hend. exact Hend.
  - rewrite <- (Z.add_0_r va) at 1. apply wp_bind, wp_from_user; [done|done|lia|lia|lia|].
    apply wp_md. cbn beta. apply wp_wr. rewrite Z.add_0_r. exact Hend.
Qed.

Lemma wp_read_ring size q r (Q : Z -> rst -> Prop) : runs p q -> ring_ok r -> ubuf q ->
  0 <= size < 2 ^ 32 ->
  let len := Z.min (used r) size in
  len <= n ->
  Q len (wmem q base (take (Z.to_nat len) (queue r)), popped_ring r len) ->
  wp (read_ring_buffer va size) Q (q, r).
Proof using Type.
  intros Hr Hk Hw Hs len Hn HQ. pose proof (runs_settled _ _ Hr) as Hh.
  pose proof (used_range r) as Hu. pose proof Hk as [Hlk Hsz Hhd Htl Hb].
  pose proof Hw as [_ (Hva & _ & Hmax) _ _]. pose proof maxva_48.
  unfold read_ring_buffer. apply wp_bind. apply (wp_lock rb_lock_l); [done|exact Hlk|].
  apply wp_bind, wp_rd. change (view rb (inq q, lkc rb_lock_l q r)) with (lkc rb_lock_l q r).
  assert (min_len (ring_buffer_used (lkc rb_lock_l q r)) size = len) as ->.
  { rewrite lkc_used. rewrite used_eq by done. apply min_len_eq; unfold RING_BUFFER_SIZE in *; lia. }
  change (rb_size (lkc rb_lock_l q r)) with (rb_size r). change (rb_head (lkc rb_lock_l q r)) with (rb_head r).
  change (rb_buf (lkc rb_lock_l q r)) with (rb_buf r).
  rewrite Hsz. rewrite (u32_small (rb_head r + len)) by (unfold len, RING_BUFFER_SIZE in *; lia).
  rewrite (u32_small len) by (unfold len, RING_BUFFER_SIZE in *; lia).
  assert (take (Z.to_nat len) (queue r) = circ RING_BUFFER_SIZE (rb_buf r) (rb_head r) len) as Et
    by (apply circ_take; unfold len; lia).
  rewrite Et in HQ. set (q' := wmem q base (circ _ _ _ _)) in HQ.
  assert (wp (_ ← release phart rblk; mret len) Q (inq q', lkc rb_lock_l q (popped_ring r len))) as Hend.
  { apply wp_bind, (wp_unlock' rb_lock_l q q'); [done|done|exact Hlk|]. apply wp_mret. exact HQ. }
  destruct (Z.ltb_spec 0 len) as [Hpos|Hz].
  2:{ apply wp_bind. rewrite (proj2 (Z.ltb_ge len 0)) by (unfold len, RING_BUFFER_SIZE in *; lia).
      assert (len = 0) as E by (unfold len, RING_BUFFER_SIZE in *; lia). apply wp_mret.
      revert Hend. unfold q', popped_ring. rewrite E, circ_nil, wmem_nil, Z.add_0_r, Z.mod_small by lia.
      by destruct r. }
  apply wp_bind, wp_bind. destruct (Z.ltb_spec RING_BUFFER_SIZE (rb_head r + len)) as [Hwr|Hnw].
  - set (right := RING_BUFFER_SIZE - rb_head r) in *.
    rewrite s32_small by (unfold right, RING_BUFFER_SIZE in *; lia).
    assert (0 < right <= len) as Hright by (unfold right in *; lia).
    rewrite !(slice_circ RING_BUFFER_SIZE)
      by (unfold right, len, RING_BUFFER_SIZE in *; lia).
    rewrite <- (Z.add_0_r va) at 1. apply wp_bind, wp_to_user; [done|done|lia|rewrite length_circ; lia|].
    rewrite u64_small by lia.
    apply wp_to_user; [by apply runs_wmem|apply ubuf_wmem; [done|lia|rewrite length_circ; lia]
                      |lia|rewrite length_circ; lia|].
    apply wp_wr.
    replace (wmem (wmem q (base + 0) (circ RING_BUFFER_SIZE (rb_buf r) (rb_head r) right)) (base + right)
      (circ RING_BUFFER_SIZE (rb_buf r) 0 (len - right))) with q'; [exact Hend|].
    unfold q'. replace len with (right + (len - right)) at 1 by lia. rewrite circ_app by lia.
    rewrite <- wmem_app, length_circ, Z.add_0_r, Z2Nat.id by lia.
    f_equal. apply circ_mod; [done|]. unfold right. by replace (rb_head r + (RING_BUFFER_SIZE - rb_head r))
      with RING_BUFFER_SIZE by lia.
  - rewrite (slice_circ RING_BUFFER_SIZE) by (unfold len, RING_BUFFER_SIZE in *; lia).
    rewrite <- (Z.add_0_r va) at 1. apply wp_to_user; [done|done|lia|rewrite length_circ; lia|].
    apply wp_wr. rewrite Z.add_0_r. exact Hend.
Qed.
End Fifo.

(** C30. The ring buffer is a queue of at most 4094 bytes.  [write_ring_buffer]
    appends as many of the user's bytes as fit and returns their number;
    [read_ring_buffer] stores the oldest bytes, as many as asked for and there,
    in order in the user's buffer, removes them and returns their number; in
    both the bytes may wrap around the end of the array. *)
Theorem ring_fifo (p : nat) (f : Z -> Z) (va n base size : Z) (q : pst) (r : ring_buffer) :
  runs p q -> ring_ok r -> ubuf p f va n base q -> 0 <= size < 2 ^ 32 -> size <= n ->
  wp (write_ring_buffer va size) (fun len '(q', r') => q' = q /\ ring_ok r'
       /\ len = Z.min (4094 - Z.of_nat (length (queue r))) size
       /\ queue r' = queue r ++ read_bytes (view mem_l q) base len) (q, r)
  /\ wp (read_ring_buffer va size) (fun len '(q', r') => ring_ok r'
       /\ len = Z.min (Z.of_nat (length (queue r))) size
       /\ queue r = take (Z.to_nat len) (queue r) ++ queue r'
       /\ q' = wmem q base (take (Z.to_nat len) (queue r))) (q, r).
Proof.
  intros Hr Hk Hw Hs Hn. pose proof (used_range r) as Hu.
  assert (Z.of_nat (length (queue r)) = used r) as El
    by (unfold queue; rewrite length_circ; unfold RING_BUFFER_SIZE in *; lia).
  rewrite El. split.
  - apply (wp_write_ring p f va n base); [done|done|done|done|lia|].
    set (len := Z.min _ size). set (bs := read_bytes _ _ _).
    destruct (pushed_ring_ok r bs Hk) as [Hk' Hq].
    { unfold bs. rewrite length_read_bytes. unfold len, RING_BUFFER_SIZE in *. lia. }
    split; [done|]. split; [done|]. by split.
  - apply (wp_read_ring p f va n base); [done|done|done|done|lia|].
    set (len := Z.min _ size).
    destruct (popped_ring_ok r len Hk ltac:(unfold len; lia)) as [Hk' Hq].
    split; [done|]. split; [done|]. split; [|done]. by rewrite Hq, take_drop.
Qed.

(** Two bytes of a user page of the running process, and an empty ring. *)
Definition demo_user : pst :=
  Pst (Kst (run_hart 0) (Spin 0 "kmem" None) 0 0 demo_mapped_mem 0 [])
    (<[0%nat := update p_pagetable_l (pg 5) (demo_proc RUNNING 1 None)]> demo_procs)
    (Spin 0 "nextpid" None) 4 (Some 0%nat) ∅ false.
Definition new_ring : ring_buffer := RingBuffer (Spin 0 "ring_buffer_lock" None) 4095 0 0 (replicate 4096 0).
Lemma demo_user_runs : runs 0 demo_user.
Proof.
  split; [|reflexivity|reflexivity]. destruct demo_quiet as [Hh Hl]. split; [exact Hh|].
  intros i. change (s_procs demo_user)
    with (<[0%nat := update p_pagetable_l (pg 5) (demo_proc RUNNING 1 None)]> demo_procs).
  rewrite entry_insert. destruct (decide (0%nat = i)); [reflexivity|apply Hl].
Qed.
Lemma demo_user_ok i : 0 <= i < 2 -> user_ok demo_f (5 * PGSIZE + 2 + i).
Proof. intros Hi. assert (i = 0 \/ i = 1) as [-> | ->] by lia; by vm_compute. Qed.
Lemma demo_ubuf : ubuf 0 demo_f (5 * PGSIZE + 2) 2 (pg 4 + 2) demo_user.
Proof.
  split.
  - intros va _. reflexivity.
  - by vm_compute.
  - intros i Hi. split; [by apply demo_user_ok|by apply demo_uaddr].
  - intros b Hb. apply demo_off. assert (b = pg 4 + 2 \/ b = pg 4 + 3) as [-> | ->] by lia; [left|right; left]; lia.
Qed.
Lemma new_ring_ok : ring_ok new_ring.
Proof. split; [reflexivity|done|done|done|done]. Qed.

Example ring_fifo_witness :
  wp (write_ring_buffer (5 * PGSIZE + 2) 2) (fun len '(q', r') => q' = demo_user /\ ring_ok r'
       /\ len = Z.min (4094 - Z.of_nat (length (queue new_ring))) 2
       /\ queue r' = queue new_ring ++ read_bytes (view mem_l demo_user) (pg 4 + 2) len)
    (demo_user, new_ring).
Proof.
  exact (proj1 (ring_fifo 0 demo_f (5 * PGSIZE + 2) 2 (pg 4 + 2) 2 demo_user new_ring
    demo_user_runs new_ring_ok demo_ubuf ltac:(done) ltac:(done))).
Defined.
