(* ===== verification/FatName.v ===== *)
(** File names and on-disk directory entries: the parts of kernel/fat32.c that
    work on names and on the 32 bytes of a directory entry.

    [union dentry] is the list of its 32 bytes; the fields of
    [short_name_entry] and of [long_name_entry] are read and written at their
    offsets, little endian.  An array is the list of its elements from a
    pointer on; [None] is an access outside it. *)

From S2P Require Import Prelude Mem Strings Circ.

Definition ATTR_READ_ONLY : Z := 0x01.
Definition ATTR_DIRECTORY : Z := 0x10.
Definition ATTR_ARCHIVE : Z := 0x20.
Definition ATTR_SYSTEM : Z := 0x04.
Definition ATTR_LONG_NAME : Z := 0x0F.
Definition LAST_LONG_ENTRY : Z := 0x40.
Definition EMPTY_ENTRY : Z := 0xe5.
Definition END_OF_ENTRY : Z := 0.
Definition CHAR_LONG_NAME : Z := 13.
Definition CHAR_SHORT_NAME : Z := 11.
Definition FAT32_MAX_FILENAME : Z := 255.

(** * Little-endian fields *)

Fixpoint le (bs : list Z) : Z :=
  match bs with [] => 0 | b :: bs' => b + 256 * le bs' end.
Fixpoint le_bytes (n : nat) (v : Z) : list Z :=
  match n with O => [] | S n' => u8 v :: le_bytes n' (v / 256) end.
(** The integer of [n] bytes at offset [off]; [None] outside the array. *)
Definition fget (n : Z) (d : list Z) (off : Z) : option Z :=
  if (0 <=? off) && (off + n <=? Z.of_nat (length d)) then Some (le (slice d off n)) else None.
Definition fput (n : Z) (d : list Z) (off v : Z) : option (list Z) :=
  if (0 <=? off) && (off + n <=? Z.of_nat (length d))
  then Some (splice d off (le_bytes (Z.to_nat n) v)) else None.

Abbreviation dentry := (list Z) (only parsing).
Definition dentry0 : dentry := replicate 32 0.
(** A field of an entry: [n] bytes at [off]. *)
Definition field (off n : Z) (d : dentry) : Z := le (slice d off n).
Definition set_field (off n v : Z) (d : dentry) : dentry :=
  splice d off (le_bytes (Z.to_nat n) v).

(** [short_name_entry] *)
Definition sne_name (d : dentry) : list Z := slice d 0 11.
Definition set_sne_name (nm : list Z) (d : dentry) : dentry := splice d 0 nm.
Definition sne_attr : dentry -> Z := field 11 1.
Definition set_sne_attr : Z -> dentry -> dentry := set_field 11 1.
Definition sne_fst_clus_hi : dentry -> Z := field 20 2.
Definition set_sne_fst_clus_hi : Z -> dentry -> dentry := set_field 20 2.
Definition sne_fst_clus_lo : dentry -> Z := field 26 2.
Definition set_sne_fst_clus_lo : Z -> dentry -> dentry := set_field 26 2.
Definition sne_file_size : dentry -> Z := field 28 4.
Definition set_sne_file_size : Z -> dentry -> dentry := set_field 28 4.

(** [long_name_entry]: the name is in three runs of 16-bit characters. *)
Definition lne_order : dentry -> Z := field 0 1.
Definition set_lne_order : Z -> dentry -> dentry := set_field 0 1.
Definition lne_attr : dentry -> Z := field 11 1.
Definition set_lne_attr : Z -> dentry -> dentry := set_field 11 1.
Definition lne_checksum : dentry -> Z := field 13 1.
Definition set_lne_checksum : Z -> dentry -> dentry := set_field 13 1.
Definition lne_chars (off n : Z) (d : dentry) : list Z :=
  map (fun i => field (off + 2 * i) 2 d) (seqZ 0 n).
Definition lne_name1 : dentry -> list Z := lne_chars 1 5.
Definition lne_name2 : dentry -> list Z := lne_chars 14 6.
Definition lne_name3 : dentry -> list Z := lne_chars 28 2.

(** A pointer that is not null. *)
Definition found {A} (p : option A) : bool := match p with Some _ => true | None => false end.

(** * [formatname]: leading blanks and dots, illegal characters, trailing blanks *)

Definition illegal_long : list Z := [34; 42; 47; 58; 60; 62; 63; 92; 124; 0].

Fixpoint skip_lead (name : list Z) : option (list Z) :=
  match name with
  | [] => None
  | c :: name' => if (c =? 32) || (c =? 46) then skip_lead name' else Some name
  end.
(** The length up to the NUL, or [Some None] at an illegal character. [char] is
    signed. *)
Fixpoint scan_legal (p : list Z) : option (option nat) :=
  match p with
  | [] => None
  | c :: p' =>
      if c =? 0 then Some (Some O)
      else
        ill ← strchr illegal_long c;
        if (s8 c <? 0x20) || found ill then Some None
        else r ← scan_legal p'; Some (option_map Datatypes.S r)
  end.
(** [while (p-- > name)] from the character after [k]. *)
Fixpoint trim_tail (name : list Z) (k : nat) : list Z :=
  match k with
  | O => name
  | S k' => if nth k' name 0 =? 32 then trim_tail name k' else <[k := 0]> name
  end.
(** [Some None] is the null pointer. *)
Definition formatname (name : list Z) : option (option (list Z)) :=
  nm ← skip_lead name;
  r ← scan_legal nm;
  Some (option_map (trim_tail nm) r).

(** * [generate_shortname] *)

Definition illegal_short : list Z := [43; 44; 59; 61; 91; 93; 0].

(** The offset of the last dot below [j]; 0 if there is none. *)
Fixpoint last_dot (name : list Z) (j : nat) : Z :=
  match j with
  | O => 0
  | S j' => if nth j' name 0 =? 46 then Z.of_nat j' else last_dot name j'
  end.

(** [memset(shortname + i, ' ', n)] for an [int] [n] made unsigned. *)
Definition blanks (short : list Z) (i n : Z) : option (list Z) :=
  let n := u32 n in
  if (0 <=? i) && (i + n <=? Z.of_nat (length short))
  then Some (splice short i (replicate (Z.to_nat n) 32)) else None.
Definition put_at (short : list Z) (i c : Z) : option (list Z) :=
  if (0 <=? i) && (i <? Z.of_nat (length short)) then Some (<[Z.to_nat i := c]> short) else None.

(** The variables of the loop: [i], [name] and [p] as offsets ([p] may be
    null), and the array. *)
Record shstate := Shstate { sh_i : Z; sh_name : Z; sh_p : option Z; sh_out : list Z }.

(** One turn: [inl] goes round again. *)
Definition short_turn (name : list Z) (s : shstate) : option (shstate + shstate) :=
  let '(Shstate i nm p out) := s in
  if negb (i <? CHAR_SHORT_NAME) then Some (inr s)
  else
    c ← name !! Z.to_nat nm;
    let nm := nm + 1 in
    if c =? 0 then Some (inr (Shstate i nm p out))
    else if (i =? 8) && found p then
      match p with
      | Some q => if q + 1 <? nm then Some (inr (Shstate i nm p out))
                  else Some (inl (Shstate i (q + 1) None out))
      | None => None
      end
    else if c =? 32 then Some (inl (Shstate i nm p out))
    else if c =? 46 then
      if (match p with Some q => q <? nm | None => true end) then
        out ← blanks out i (8 - i); Some (inl (Shstate 8 nm None out))
      else Some (inl (Shstate i nm p out))
    else
      c ← (if (97 <=? c) && (c <=? 122) then Some (c + (65 - 97))
           else ill ← strchr illegal_short c; Some (if found ill then 95 else c));
      out ← put_at out i c;
      Some (inl (Shstate (i + 1) nm p out)).

Fixpoint short_loop (fuel : nat) (name : list Z) (s : shstate) : option shstate :=
  match fuel with
  | O => None
  | S fuel' =>
      r ← short_turn name s;
      match r with inl s' => short_loop fuel' name s' | inr s' => Some s' end
  end.

(** [while (i < CHAR_SHORT_NAME) shortname[i++] = ' ';] *)
Definition pad_short (out : list Z) (i : Z) : option (list Z) :=
  foldl (fun o k => out ← o; put_at out k 32) (Some out) (seqZ i (CHAR_SHORT_NAME - i)).

(** Every turn consumes a character. *)
Definition generate_shortname (shortname name : list Z) : option (list Z) :=
  len ← strlen name;
  s ← short_loop (S (Z.to_nat len)) name
        (Shstate 0 0 (Some (last_dot name (Z.to_nat len))) shortname);
  pad_short (sh_out s) (sh_i s).

(** The parts of the sum are added in [int] and cut to a byte. *)
Definition checksum_step (sum c : Z) : Z :=
  u8 ((if truth (Z.land sum 1) then 0x80 else 0) + Z.shiftr sum 1 + c).
Definition cal_checksum (shortname : list Z) : option Z :=
  if (Z.to_nat CHAR_SHORT_NAME <=? length shortname)%nat
  then Some (foldl checksum_step 0 (take (Z.to_nat CHAR_SHORT_NAME) shortname)) else None.

(** * The long-name entries [emake] writes *)

(** Where the [j]th character of an entry goes, [j] from 1. *)
Definition char_off (j : Z) : Z :=
  if j <=? 5 then 1 + 2 * (j - 1) else if j <=? 11 then 14 + 2 * (j - 6) else 28 + 2 * (j - 12).

(** The inner loop: from the character at [p] on, [end_] once the NUL has been
    written. *)
Definition char_step (acc : option (list Z * bool * dentry)) (j : Z)
  : option (list Z * bool * dentry) :=
  '(p, end_, de) ← acc;
  if (end_ : bool) then Some (p, end_, splice de (char_off j) [0xff; 0xff])
  else match p with
       | [] => None
       | c :: p' => Some (p', c =? 0, splice de (char_off j) [c; 0])
       end.

(** The entry of chunk [i] of [entcnt], made in the entry of the chunk before. *)
Definition long_entry (filename : list Z) (entcnt i : Z) (de : dentry) : option dentry :=
  let order := u8 i in
  let de := set_lne_order (if order =? entcnt then Z.lor order LAST_LONG_ENTRY else order) de in
  '(_, _, de) ← foldl char_step
     (Some (drop (Z.to_nat ((i - 1) * CHAR_LONG_NAME)) filename, false, de))
     (seqZ 1 CHAR_LONG_NAME);
  Some de.

Definition long_count (len : Z) : Z := Z.quot (len + CHAR_LONG_NAME - 1) CHAR_LONG_NAME.

(** The entry the others are made in: the checksum and the attribute. *)
Definition long_base (shortname : list Z) : option dentry :=
  sum ← cal_checksum shortname;
  Some (set_lne_attr ATTR_LONG_NAME (set_lne_checksum sum dentry0)).

(** The short-name entry, in an entry of zeros. *)
Definition short_entry (name : list Z) (attr clus size : Z) : option dentry :=
  nm ← strncpy (sne_name dentry0) name CHAR_SHORT_NAME;
  Some (set_sne_file_size size
         (set_sne_fst_clus_lo (u16 (Z.land clus 0xffff))
           (set_sne_fst_clus_hi (u16 (Z.shiftr clus 16))
             (set_sne_attr attr (set_sne_name nm dentry0))))).

(** * Reading entries back *)

Fixpoint until_blank (l : list Z) : list Z :=
  match l with [] => [] | c :: l' => if c =? 32 then [] else c :: until_blank l' end.

(** [buffer] is the array from the pointer on. *)
Definition read_entry_name (buffer : list Z) (d : dentry) : option (list Z) :=
  if lne_attr d =? ATTR_LONG_NAME then
    b1 ← snstr buffer (lne_name1 d) 5;
    b2 ← snstr (drop 5 b1) (lne_name2 d) 6;
    b3 ← snstr (drop 6 b2) (lne_name3 d) 2;
    if (13 <=? length buffer)%nat then Some (take 5 b1 ++ take 6 b2 ++ b3) else None
  else
    if (13 <=? length buffer)%nat then
      let base := until_blank (slice d 0 8) in
      let ext := until_blank (slice d 8 3) in
      let dot := if field 8 1 d =? 32 then [] else [46] in
      Some (splice (splice buffer 0 (replicate 13 0)) 0 (base ++ dot ++ ext))
    else None.
(** [read_entry_name(filename + off, d)] *)
Definition read_name_at (filename : list Z) (off : Z) (d : dentry) : option (list Z) :=
  if (0 <=? off) && (off <=? Z.of_nat (length filename)) then
    b ← read_entry_name (drop (Z.to_nat off) filename) d;
    Some (take (Z.to_nat off) filename ++ b)
  else None.

(** The first cluster of a short-name entry. *)
Definition entry_clus (d : dentry) : Z :=
  Z.lor (u32 (Z.shiftl (sne_fst_clus_hi d) 16)) (sne_fst_clus_lo d).

(** * Paths *)

Fixpoint skip_slash (path : list Z) : option (list Z) :=
  match path with
  | [] => None
  | c :: path' => if c =? 47 then skip_slash path' else Some path
  end.
(** The characters up to a slash or the NUL, and what follows them. *)
Fixpoint span_elem (path : list Z) : option (list Z * list Z) :=
  match path with
  | [] => None
  | c :: path' =>
      if (c =? 47) || (c =? 0) then Some ([], path)
      else '(s, r) ← span_elem path'; Some (c :: s, r)
  end.
(** [Some None] is the null pointer; otherwise the rest of the path and the
    array [name]. *)
Definition skipelem (path name : list Z) : option (option (list Z * list Z)) :=
  path ← skip_slash path;
  match path with
  | [] => None
  | c :: _ =>
      if c =? 0 then Some None
      else
        '(s, rest) ← span_elem path;
        let len := Z.min (Z.of_nat (length s)) FAT32_MAX_FILENAME in
        name ← put_at name len 0;
        rest ← skip_slash rest;
        Some (Some (rest, splice name 0 (take (Z.to_nat len) s)))
  end.

(** From [cur] down to a slash, which becomes a NUL. *)
Fixpoint cut_slash (s : list Z) (cur : nat) : list Z :=
  match cur with
  | O => s
  | S cur' => if nth cur' s 0 =? 47 then <[cur' := 0]> s else cut_slash s cur'
  end.
(** The new [parent_name] and [name]. *)
Definition get_parent_name (path parent_name name : list Z) : option (list Z * list Z) :=
  len ← strlen path;
  pn ← strncpy parent_name path (len + 1);
  let cur := len - 1 in
  if cur <? 0 then None
  else
    let cur := if nth (Z.to_nat cur) pn 0 =? 47 then cur - 1 else cur in
    let pn := cut_slash pn (Z.to_nat (cur + 1)) in
    pl ← strlen pn;
    name ← strncpy name (drop (Z.to_nat (pl + 1)) path) (len - pl + 1);
    Some (pn, name).

Definition hash_step (h c : Z) : Z :=
  let h := s32 (h * 128 + s8 c) in if 1000000 <? h then Z.rem h 1000000 else h.
Definition hashpath (name : list Z) : option Z := foldl hash_step 0 <$> cstr name.

(** * A chunk of a name, written and read back *)

Lemma le_pair c : le [c; 0] = c.
Proof. cbn. lia. Qed.
Lemma land_byte c : 0 <= c < 256 -> Z.land c 255 = c.
Proof. intros H. change 255 with (Z.ones 8). rewrite Z.land_ones by done. by apply Z.mod_small. Qed.

Lemma snstr_done dst src : snstr dst src 0 = Some dst.
Proof. by destruct src. Qed.
Lemma snstr_char d dst c src len : 0 < c < 256 -> 0 < len ->
  snstr (d :: dst) (c :: src) len = cons c <$> snstr dst src (len - 1).
Proof.
  intros Hc Hl. cbn [snstr]. rewrite (proj2 (Z.eqb_neq len 0)), (proj2 (Z.eqb_neq c 0)) by lia.
  by rewrite land_byte by lia.
Qed.
Lemma snstr_pad d dst src len : 0 < len ->
  snstr (d :: dst) (65535 :: src) len = cons 255 <$> snstr dst src (len - 1).
Proof. intros Hl. cbn [snstr]. by rewrite (proj2 (Z.eqb_neq len 0)) by lia. Qed.
Lemma snstr_nul dst src len : 0 < len -> snstr dst (0 :: src) len = zero_fill dst (Z.to_nat (len - 1)).
Proof. intros Hl. cbn [snstr]. by rewrite (proj2 (Z.eqb_neq len 0)) by lia. Qed.

Lemma char_char c p de j : 0 < c ->
  char_step (Some (c :: p, false, de)) j = Some (p, false, splice de (char_off j) [c; 0]).
Proof. intros Hc. cbn. by rewrite (proj2 (Z.eqb_neq c 0)) by lia. Qed.
Lemma char_nul p de j :
  char_step (Some (0 :: p, false, de)) j = Some (p, true, splice de (char_off j) [0; 0]).
Proof. done. Qed.
Lemma char_end p de j :
  char_step (Some (p, true, de)) j = Some (p, true, splice de (char_off j) [255; 255]).
Proof. done. Qed.

(** What the chunks of one name share. *)
Definition stamp (de : dentry) := (lne_order de, lne_attr de, lne_checksum de, slice de 26 2).

(** All the lists of at most [n] elements. *)
Ltac split_list n l H :=
  lazymatch n with
  | O => destruct l; [|cbn in *; lia]
  | S ?n' => let c := fresh "c" in let Hc := fresh "Hc" in
      destruct l as [|c l]; [|apply Forall_cons in H as [Hc H]; split_list n' l H]
  end.
(** The characters of a field of an entry given byte by byte. *)
Ltac chunk_chars k :=
  match goal with |- context [k ?d] =>
    let v := eval cbv -[le] in (k d) in change (k d) with v;
    rewrite ?le_pair; change (le [255; 255]) with 65535
  end.
Ltac run_snstr :=
  repeat first
    [ rewrite snstr_done | rewrite snstr_char by lia | rewrite snstr_pad by lia
    | rewrite snstr_nul by lia
    | progress cbn [zero_fill mbind option_bind fmap option_fmap option_map drop]
    | match goal with |- context [zero_fill _ ?n] => let v := eval vm_compute in n in progress (change n with v) end ].

Ltac before l X :=
  lazymatch X with l => constr:(@nil Z) | ?a :: ?Y => let r := before l Y in constr:(a :: r) end.
Lemma chunk_read (cs rest de : list Z) tl :
  (length cs <= 13)%nat -> Forall (fun c => 0 < c < 256) cs -> length de = 32%nat ->
  lne_attr de = ATTR_LONG_NAME ->
  let p := cs ++ (if (length cs <? 13)%nat then 0 :: rest else rest) in
  exists x y de', foldl char_step (Some (p, false, de)) (seqZ 1 13) = Some (x, y, de')
    /\ length de' = 32%nat /\ stamp de' = stamp de
    /\ exists b', read_entry_name (replicate 13 0 ++ tl) de' = Some (b' ++ tl) /\ length b' = 13%nat
    /\ exists junk, b' = cs ++ (if (length cs <? 13)%nat then 0 :: junk else []).
Proof.
  intros Hk Hc Hl Ha p.
  do 32 (destruct de as [|? de]; [discriminate Hl|]). destruct de; [|discriminate Hl].
  split_list 13%nat cs Hc; cbn [length Nat.ltb Nat.leb app] in p; subst p.
  all: change (seqZ 1 13) with [1;2;3;4;5;6;7;8;9;10;11;12;13]; cbn [foldl app].
  all: repeat first [rewrite char_char by lia|rewrite char_nul|rewrite char_end].
  all: eexists _, _, _; split; [reflexivity|].
  all: match goal with |- Datatypes.length ?X = _ /\ _ => let v := eval cbv in X in replace X with v by reflexivity end.
  all: split; [reflexivity|]; split; [reflexivity|]; unfold read_entry_name.
  all: match goal with |- context [lne_attr ?d =? _] => 
    match type of Ha with lne_attr ?e = _ => change (lne_attr d) with (lne_attr e) end end.
  all: rewrite Ha; change (ATTR_LONG_NAME =? ATTR_LONG_NAME) with true; cbn match.
  all: chunk_chars lne_name1; chunk_chars lne_name2; chunk_chars lne_name3.
  all: cbn [replicate app].
  all: run_snstr.
  all: cbn [fmap option_fmap option_map mbind option_bind take app length Nat.leb drop].
  all: match goal with |- exists _, Some ?X = _ /\ _ => let r := before tl X in exists r end.
  all: split; [reflexivity|]; split; [reflexivity|]; cbn [Nat.ltb Nat.leb length app].
  all: first [by exists []|eexists; reflexivity].
Qed.

Lemma set_order_facts v de : length de = 32%nat ->
  length (set_lne_order v de) = 32%nat /\ lne_order (set_lne_order v de) = u8 v
  /\ lne_attr (set_lne_order v de) = lne_attr de /\ lne_checksum (set_lne_order v de) = lne_checksum de.
Proof.
  intros Hl. do 32 (destruct de as [|? de]; [discriminate Hl|]). destruct de; [|discriminate Hl].
  split; [done|]. split; [|done]. unfold lne_order, field, set_lne_order, set_field.
  change (le [u8 v] = u8 v). cbn [le]. lia.
Qed.

(** The entry of chunk [i], and what reading it puts at its place. *)
Definition order_of (entcnt i : Z) : Z := if i =? entcnt then Z.lor i LAST_LONG_ENTRY else i.
Definition chunk_ok (entcnt i sum : Z) (de : dentry) : Prop :=
  length de = 32%nat /\ lne_attr de = ATTR_LONG_NAME /\ lne_order de = order_of entcnt i
  /\ lne_checksum de = sum.

Lemma order_range entcnt i : 0 < i < 64 -> 0 <= order_of entcnt i < 256.
Proof.
  intros Hi. unfold order_of. destruct (i =? entcnt); [|lia].
  pose proof (lor_range i LAST_LONG_ENTRY 8). unfold LAST_LONG_ENTRY in *. lia.
Qed.

Lemma long_one fname entcnt i cs rest de A tl :
  0 < i < 64 -> (length cs <= 13)%nat -> Forall (fun c => 0 < c < 256) cs ->
  length de = 32%nat -> lne_attr de = ATTR_LONG_NAME -> length A = Z.to_nat ((i - 1) * 13) ->
  drop (Z.to_nat ((i - 1) * 13)) fname = cs ++ (if (length cs <? 13)%nat then 0 :: rest else rest) ->
  exists de' b', long_entry fname entcnt i de = Some de' /\ chunk_ok entcnt i (lne_checksum de) de'
    /\ read_name_at (A ++ replicate 13 0 ++ tl) ((i - 1) * 13) de' = Some (A ++ b' ++ tl)
    /\ length b' = 13%nat
    /\ exists junk, b' = cs ++ (if (length cs <? 13)%nat then 0 :: junk else []).
Proof.
  intros Hi Hk Hc Hl Ha HA Hd.
  destruct (set_order_facts (order_of entcnt i) de Hl) as (Hl1 & Ho & Ha1 & Hs).
  set (de1 := set_lne_order (order_of entcnt i) de) in *.
  destruct (chunk_read cs rest de1 tl Hk Hc Hl1) as (x & y & de' & E & Hl' & Hst & b' & Hr & Hb & Hj);
    [by rewrite Ha1|].
  exists de', b'. unfold long_entry. rewrite (u8_small i) by lia. fold (order_of entcnt i).
  fold de1. unfold CHAR_LONG_NAME. rewrite Hd, E. split; [done|].
  unfold stamp in Hst. injection Hst as E1 E2 E3 _. split.
  - split; [done|]. rewrite E1, E2, E3, Ha1, Ho, Hs, u8_small by by apply order_range. done.
  - split; [|done]. unfold read_name_at. rewrite !length_app, length_replicate, HA.
    destruct (Z.leb_spec 0 ((i - 1) * 13)); [|lia].
    destruct (Z.leb_spec ((i - 1) * 13) (Z.of_nat (Z.to_nat ((i - 1) * 13) + (13 + length tl)))); [|lia].
    cbn [andb]. rewrite drop_app_length', take_app_length' by done. by rewrite Hr.
Qed.

(** The entries of the chunks from [n] down to 1, in the order [emake] writes
    them, and the name [enext] puts together from entries in that order. *)
Fixpoint long_entries (fname : list Z) (entcnt : Z) (n : nat) (de : dentry) : option (list dentry) :=
  match n with
  | O => Some []
  | S n' =>
      de ← long_entry fname entcnt (Z.of_nat n) de;
      r ← long_entries fname entcnt n' de; Some (de :: r)
  end.
Definition read_one (buf : option (list Z)) (d : dentry) : option (list Z) :=
  buf ← buf;
  read_name_at buf ((Z.land (lne_order d) (Z.lnot LAST_LONG_ENTRY) - 1) * CHAR_LONG_NAME) d.
Definition read_back (es : list dentry) (buf : list Z) : option (list Z) := foldl read_one (Some buf) es.

Lemma order_index entcnt i : 0 < i < 64 -> Z.land (order_of entcnt i) (Z.lnot LAST_LONG_ENTRY) = i.
Proof.
  intros Hi. assert (Z.land i LAST_LONG_ENTRY = 0) as H0.
  { rewrite <- (Z.mod_small i (2 ^ 6)) by lia. rewrite <- Z.land_ones by done.
    unfold LAST_LONG_ENTRY. rewrite <- Z.land_assoc. change (Z.land (Z.ones 6) 0x40) with 0. apply Z.land_0_r. }
  rewrite <- Z.ldiff_land. unfold order_of. destruct (i =? entcnt).
  - apply Z.bits_inj'. intros k Hk. rewrite Z.ldiff_spec, Z.lor_spec.
    apply (f_equal (fun z => Z.testbit z k)) in H0. rewrite Z.land_spec, Z.bits_0 in H0.
    by destruct (Z.testbit i k), (Z.testbit LAST_LONG_ENTRY k).
  - apply Z.bits_inj'. intros k Hk. rewrite Z.ldiff_spec.
    apply (f_equal (fun z => Z.testbit z k)) in H0. rewrite Z.land_spec, Z.bits_0 in H0.
    by destruct (Z.testbit i k), (Z.testbit LAST_LONG_ENTRY k).
Qed.

Lemma read_one_at entcnt i sum de buf : 0 < i < 64 -> chunk_ok entcnt i sum de ->
  read_one (Some buf) de = read_name_at buf ((i - 1) * 13) de.
Proof.
  intros Hi (_ & _ & Ho & _). unfold read_one, CHAR_LONG_NAME. cbn [mbind option_bind].
  by rewrite Ho, order_index.
Qed.

Section Name.
Variables (s rest : list Z) (entcnt : Z).
Hypothesis s_chars : Forall (fun c => 0 < c < 256) s.
Abbreviation fname := (s ++ 0 :: rest).

Definition chunks_ok (n : nat) (sum : Z) (es : list dentry) : Prop :=
  length es = n /\ forall k e, es !! k = Some e -> chunk_ok entcnt (Z.of_nat (n - k)) sum e.

Lemma chunks_cons n sum e es : chunk_ok entcnt (Z.of_nat (S n)) sum e -> chunks_ok n sum es ->
  chunks_ok (S n) sum (e :: es).
Proof using Type.
  intros He [Hl Hk]. split; [by cbn; rewrite Hl|]. intros [|k] x; cbn; [by intros [= <-]|apply Hk].
Qed.

(** The chunks below the last one are full. *)
Lemma full_chunks n : (n < 64)%nat -> (13 * n <= length s)%nat -> forall de tl,
  length de = 32%nat -> lne_attr de = ATTR_LONG_NAME ->
  exists es, long_entries fname entcnt n de = Some es /\ chunks_ok n (lne_checksum de) es
    /\ read_back es (replicate (13 * n) 0 ++ tl) = Some (take (13 * n) s ++ tl).
Proof using s_chars.
  induction n as [|n IH]; intros Hn Hs de tl Hl Ha; [by exists []|].
  set (cs := take 13 (drop (13 * n) s)).
  assert (length cs = 13%nat) as Hcs by (unfold cs; rewrite length_take, length_drop; lia).
  destruct (long_one fname entcnt (Z.of_nat (S n)) cs (drop (13 * S n) s ++ 0 :: rest) de
              (replicate (13 * n) 0) tl) as (de' & b' & E & Hok & Hr & Hb & junk & Ej);
    [lia|lia|by apply Forall_take, Forall_drop|done|done|rewrite length_replicate; lia| |].
  { rewrite Hcs. cbn [Nat.ltb Nat.leb]. unfold cs.
    replace (Z.to_nat ((Z.of_nat (S n) - 1) * 13)) with (13 * n)%nat by lia.
    rewrite drop_app_le by lia. rewrite app_assoc. f_equal.
    replace (13 * S n)%nat with (13 * n + 13)%nat by lia. by rewrite <- drop_drop, take_drop. }
  rewrite Hcs, app_nil_r in Ej. subst b'. pose proof Hok as (Hl' & Ha' & _ & Hsum).
  destruct (IH ltac:(lia) ltac:(lia) de' (cs ++ tl) Hl' Ha') as (es & Ees & Hes & Hrd).
  exists (de' :: es). cbn [long_entries]. rewrite E. cbn [mbind option_bind]. rewrite Ees.
  split; [done|]. split; [apply chunks_cons; [done|by rewrite <- Hsum]|].
  unfold read_back. cbn [foldl].
  rewrite (read_one_at entcnt (Z.of_nat (S n)) (lne_checksum de)) by (done || lia).
  replace (13 * S n)%nat with (13 * n + 13)%nat by lia.
  rewrite replicate_add, <- app_assoc, Hr. unfold read_back in Hrd. rewrite Hrd. f_equal.
  unfold cs. by rewrite app_assoc, take_take_drop.
Qed.

Lemma long_count_spec : 0 < Z.of_nat (length s) ->
  0 < long_count (Z.of_nat (length s))
  /\ 13 * (long_count (Z.of_nat (length s)) - 1) < Z.of_nat (length s)
     <= 13 * long_count (Z.of_nat (length s)).
Proof using Type. intros Hs. unfold long_count, CHAR_LONG_NAME. rewrite Z.quot_div_nonneg by lia. zlia. Qed.

(** All of them. *)
Lemma all_chunks de : let n := Z.to_nat (long_count (Z.of_nat (length s))) in
  (0 < length s <= 247)%nat -> length de = 32%nat -> lne_attr de = ATTR_LONG_NAME ->
  exists es buf, long_entries fname entcnt n de = Some es /\ chunks_ok n (lne_checksum de) es
    /\ read_back es (replicate 256 0) = Some buf /\ length buf = 256%nat /\ cstr buf = Some s.
Proof using s_chars.
  intros n Hs Hl Ha. pose proof (long_count_spec ltac:(lia)) as Hn. destruct n as [|m] eqn:En; [lia|].
  assert ((m <= 18 /\ 13 * m < length s <= 13 * S m)%nat) as (Hm & Hm1) by lia.
  set (cs := drop (13 * m) s).
  assert (length cs = length s - 13 * m)%nat as Hcs by apply length_drop.
  set (rest' := if (length cs <? 13)%nat then rest else 0 :: rest).
  set (tl := replicate (256 - 13 * S m) 0).
  destruct (long_one fname entcnt (Z.of_nat (S m)) cs rest' de (replicate (13 * m) 0) tl)
    as (de' & b' & E & Hok & Hr & Hb & junk & Ej);
    [lia|lia|by apply Forall_drop|done|done|rewrite length_replicate; lia| |].
  { replace (Z.to_nat ((Z.of_nat (S m) - 1) * 13)) with (13 * m)%nat by lia.
    rewrite drop_app_le by lia. fold cs. unfold rest'. by destruct (length cs <? 13)%nat. }
  pose proof Hok as (Hl' & Ha' & _ & Hsum).
  destruct (full_chunks m ltac:(lia) ltac:(lia) de' (b' ++ tl) Hl' Ha') as (es & Ees & Hes & Hrd).
  exists (de' :: es), (take (13 * m) s ++ b' ++ tl). cbn [long_entries]. rewrite E. cbn [mbind option_bind].
  rewrite Ees. split; [done|]. split; [apply chunks_cons; [done|by rewrite <- Hsum]|]. split; [|split].
  - unfold read_back in *. cbn [foldl].
    rewrite (read_one_at entcnt (Z.of_nat (S m)) (lne_checksum de)) by (done || lia).
    replace (replicate 256 0) with (replicate (13 * m) 0 ++ replicate 13 0 ++ tl); [by rewrite Hr|].
    unfold tl. rewrite <- !replicate_add. f_equal. lia.
  - rewrite !length_app, length_take, Hb. unfold tl. rewrite length_replicate. lia.
  - rewrite Ej, <- app_assoc, app_assoc. unfold cs at 1. rewrite take_drop.
    destruct (length cs <? 13)%nat; cbn [app].
    + apply cstr_app. eapply Forall_impl; [done|]. cbn. lia.
    + unfold tl. replace (256 - 13 * S m)%nat with (S (255 - 13 * S m)) by lia. cbn [replicate].
      apply cstr_app. eapply Forall_impl; [done|]. cbn. lia.
Qed.
End Name.

(** * [formatname] *)

Lemma strchr_spec l c : forall a, cstr l = Some a -> exists r, strchr l c = Some r /\ found r = bool_decide (c ∈ a).
Proof.
  induction l as [|x l IH]; intros a; cbn [cstr strchr]; [done|].
  destruct (Z.eqb_spec x 0) as [->|Hx]; [intros [= <-]; by exists None|].
  intros (a' & Ha & ->)%fmap_Some. destruct (Z.eqb_spec x c) as [->|Hc].
  - exists (Some (c :: l)). split; [done|]. symmetry. apply bool_decide_eq_true. by left.
  - destruct (IH a' Ha) as (r & E & Hf). exists r. split; [done|]. rewrite Hf. apply bool_decide_ext.
    rewrite elem_of_cons. naive_solver.
Qed.

(** The characters a name may have. *)
Definition legal (c : Z) : bool := negb ((s8 c <? 0x20) || bool_decide (c ∈ [34; 42; 47; 58; 60; 62; 63; 92; 124])).
Definition lead (c : Z) : bool := (c =? 32) || (c =? 46).
Fixpoint strip (s : list Z) : list Z :=
  match s with [] => [] | c :: s' => if lead c then strip s' else s end.
Definition chomp (s : list Z) : list Z := foldr (fun c r => if (c =? 32) && bool_decide (r = []) then [] else c :: r) [] s.

Lemma skip_lead_spec name : forall s, cstr name = Some s ->
  exists nm, skip_lead name = Some nm /\ cstr nm = Some (strip s).
Proof.
  induction name as [|c name IH]; intros s; cbn [cstr]; [done|]. cbn [skip_lead].
  destruct (Z.eqb_spec c 0) as [->|Hc].
  - intros [= <-]. by exists (0 :: name).
  - intros (s' & Hs & ->)%fmap_Some. cbn [strip]. fold (lead c). destruct (lead c); [by apply IH|].
    exists (c :: name). split; [done|]. cbn [cstr]. rewrite (proj2 (Z.eqb_neq c 0)) by done. by rewrite Hs.
Qed.

Lemma scan_legal_spec p : forall s, cstr p = Some s ->
  scan_legal p = Some (if forallb legal s then Some (length s) else None).
Proof.
  induction p as [|c p IH]; intros s; cbn [cstr scan_legal]; [done|].
  destruct (Z.eqb_spec c 0) as [->|Hc]; [by intros [= <-]|].
  intros (s' & Hs & ->)%fmap_Some.
  destruct (strchr_spec illegal_long c [34; 42; 47; 58; 60; 62; 63; 92; 124] eq_refl) as (r & -> & Hr).
  cbn [mbind option_bind]. rewrite Hr. cbn [forallb length]. unfold legal at 1.
  destruct ((s8 c <? 0x20) || _); cbn [negb andb]; [done|].
  rewrite (IH s' Hs). cbn [mbind option_bind]. by destruct (forallb legal s').
Qed.

Lemma chomp_snoc s c : chomp (s ++ [c]) = if c =? 32 then chomp s else s ++ [c].
Proof.
  induction s as [|x s IH]; cbn.
  - destruct (c =? 32); [|by rewrite andb_false_l]. by rewrite andb_true_l.
  - unfold chomp in IH. rewrite IH. destruct (c =? 32); [done|].
    rewrite (bool_decide_eq_false_2 (s ++ [c] = [])) by (by destruct s). by rewrite andb_false_r.
Qed.

Lemma chomp_blanks s l : Forall (fun c => c = 32) l -> chomp (s ++ l) = chomp s.
Proof.
  induction l as [|c l IH] using rev_ind; intros Hl; [by rewrite app_nil_r|].
  apply Forall_app in Hl as [Hl Hc]. apply Forall_cons in Hc as [-> _]. by rewrite app_assoc, chomp_snoc, IH.
Qed.

Lemma trim_tail_spec s rest : Forall (fun c => c <> 0) s -> hd 0 s <> 32 -> forall k, (k <= length s)%nat ->
  Forall (fun c => c = 32) (drop k s) -> cstr (trim_tail (s ++ 0 :: rest) k) = Some (chomp s).
Proof.
  intros Hnz Hh. induction k as [|k IH]; intros Hk Hb; cbn [trim_tail].
  - rewrite cstr_app by done. destruct s as [|x s]; [done|].
    cbn [drop] in Hb. apply Forall_cons in Hb as [-> _]. by destruct Hh.
  - destruct (lookup_lt_is_Some_2 s k ltac:(lia)) as [x Hx].
    assert (nth k (s ++ 0 :: rest) 0 = x) as ->.
    { rewrite nth_lookup, lookup_app_l by lia. by rewrite Hx. }
    destruct (Z.eqb_spec x 32) as [->|Hne].
    + apply IH; [lia|]. by rewrite (drop_S _ _ _ Hx), Forall_cons.
    + rewrite <- (take_drop (S k) s), chomp_blanks, take_drop by done.
      rewrite (take_S_r _ _ _ Hx), chomp_snoc, (proj2 (Z.eqb_neq x 32)), <- (take_S_r _ _ _ Hx) by done.
      rewrite <- (take_drop (S k) s) at 1. rewrite <- app_assoc, insert_app_r_alt;
        rewrite length_take; [|lia].
      replace (S k - (S k `min` length s))%nat with O by lia.
      assert (exists l, <[O := 0]> (drop (S k) s ++ 0 :: rest) = 0 :: l) as [l ->]
        by (destruct (drop (S k) s); by eexists).
      by apply cstr_app, Forall_take.
Qed.

Lemma cstr_nonzero l s : cstr l = Some s -> Forall (fun c => c <> 0) s.
Proof. intros H. apply cstr_spec in H as (rest & _ & H). done. Qed.

Lemma strip_hd s : hd 0 (strip s) <> 32.
Proof.
  induction s as [|c s IH]; [done|]. cbn [strip]. destruct (lead c) eqn:E; [done|].
  cbn. intros ->. discriminate E.
Qed.

Lemma formatname_eq name s : cstr name = Some s ->
  exists r, formatname name = Some r
    /\ (if forallb legal (strip s) then exists m, r = Some m /\ cstr m = Some (chomp (strip s)) else r = None).
Proof.
  intros Hs. unfold formatname. destruct (skip_lead_spec name s Hs) as (nm & -> & Hnm).
  cbn [mbind option_bind]. rewrite (scan_legal_spec nm _ Hnm). cbn [mbind option_bind].
  eexists; split; [reflexivity|]. destruct (forallb legal (strip s)); [|done].
  eexists; split; [reflexivity|]. apply cstr_spec in Hnm as (rest & -> & Hnz).
  apply trim_tail_spec; [done|apply strip_hd|done|by rewrite drop_ge by lia].
Qed.

(** Formatting a formatted name changes nothing. *)
Lemma chomp_prefix s : exists l, s = chomp s ++ l /\ Forall (fun c => c = 32) l.
Proof.
  induction s as [|c s (l & El & Hl)]; [by exists []|]. cbn.
  destruct (Z.eqb_spec c 32) as [->|Hc]; cbn [andb].
  - destruct (decide (chomp s = [])) as [E|E].
    + unfold chomp in E. rewrite E, bool_decide_eq_true_2 by done. exists (32 :: l).
      unfold chomp in El. rewrite E in El. cbn. split; [by rewrite El at 1|by constructor].
    + unfold chomp in E. rewrite bool_decide_eq_false_2 by done. exists l. by rewrite El at 1.
  - exists l. by rewrite El at 1.
Qed.
Lemma chomp_idem s : chomp (chomp s) = chomp s.
Proof. destruct (chomp_prefix s) as (l & El & Hl). by rewrite El at 2; rewrite chomp_blanks. Qed.
Lemma strip_strip s : strip s = s \/ exists c s', s = c :: s' /\ lead c = true.
Proof. destruct s as [|c s]; [by left|]. cbn. destruct (lead c) eqn:E; [right; eauto|by left]. Qed.
Lemma strip_chomp s : strip (chomp (strip s)) = chomp (strip s).
Proof.
  destruct (strip_strip (chomp (strip s))) as [E|(c & s' & E & Hc)]; [done|]. exfalso.
  destruct (chomp_prefix (strip s)) as (l & El & _). rewrite E in El. clear E.
  induction s as [|x s IH]; [done|]. cbn [strip] in *. destruct (lead x) eqn:Ex; [by apply IH|].
  injection El as -> _. congruence.
Qed.
Lemma legal_chomp s : forallb legal s = true -> forallb legal (chomp s) = true.
Proof.
  intros H. destruct (chomp_prefix s) as (l & El & _). rewrite El, forallb_app in H.
  by apply andb_prop in H as [H _].
Qed.

(** * [generate_shortname] stays in its array *)

Definition short_char (c : Z) : Prop := 0 < c < 256 /\ ~ (97 <= c <= 122).

Lemma short_app_replicate n l : Forall short_char l -> Forall short_char (l ++ replicate n 32).
Proof. intros H. apply Forall_app. split; [done|]. apply Forall_replicate. unfold short_char. lia. Qed.

Section Short.
Variables (s rest : list Z).
Hypothesis s_chars : Forall (fun c => 0 < c < 256) s.
Abbreviation name := (s ++ 0 :: rest).
Abbreviation len := (Z.of_nat (length s)).

Lemma name_at k : 0 <= k <= len -> exists c, name !! Z.to_nat k = Some c
  /\ ((k = len /\ c = 0) \/ (k < len /\ 0 < c < 256 /\ s !! Z.to_nat k = Some c)).
Proof using s_chars.
  intros Hk. destruct (decide (k = len)) as [->|Hne].
  - exists 0. rewrite lookup_app_r by lia. replace (Z.to_nat len - length s)%nat with O by lia. split; [done|by left].
  - destruct (lookup_lt_is_Some_2 s (Z.to_nat k) ltac:(lia)) as [c Hc]. exists c.
    rewrite lookup_app_l by lia. split; [done|]. right. split; [lia|]. split; [|done].
    exact (Forall_lookup_1 _ _ _ _ s_chars Hc).
Qed.

Lemma last_dot_spec j : (j <= length s)%nat ->
  0 <= last_dot name j /\ (last_dot name j = 0 \/ last_dot name j < Z.of_nat j)
  /\ forall k, last_dot name j < k < Z.of_nat j -> s !! Z.to_nat k <> Some 46.
Proof using s_chars.
  induction j as [|j IH]; intros Hj; cbn [last_dot]; [split; [done|]; split; [by left|lia]|].
  destruct (name_at (Z.of_nat j) ltac:(lia)) as (c & Hc & [[? _]|(_ & _ & Hsc)]); [lia|].
  rewrite Nat2Z.id in Hc, Hsc. rewrite nth_lookup, Hc. cbn.
  destruct (Z.eqb_spec c 46) as [->|Hne]; [split; [lia|]; split; [right; lia|lia]|].
  destruct (IH ltac:(lia)) as (H0 & H1 & H2). split; [done|]. split; [lia|].
  intros k Hk E. destruct (decide (k = Z.of_nat j)) as [->|]; [|by apply (H2 k); [lia|]].
  rewrite Nat2Z.id in E. congruence.
Qed.

Record sh_inv (last : Z) (st : shstate) : Prop := {
  si_i : 0 <= sh_i st <= 11;
  si_nm : 0 <= sh_name st <= len;
  si_len : length (sh_out st) = 12%nat;
  si_last : sh_out st !! 11%nat = Some last;
  si_out : Forall short_char (take (Z.to_nat (sh_i st)) (sh_out st));
  si_p : match sh_p st with
         | Some q => 0 <= q /\ q <= Z.max 0 (len - 1) /\ sh_i st <= 8
                     /\ forall k, q < k < len -> s !! Z.to_nat k <> Some 46
         | None => forall k, sh_name st <= k < len -> s !! Z.to_nat k <> Some 46
         end
}.

Lemma put_inv last i out c : 0 <= i < 11 -> length out = 12%nat -> out !! 11%nat = Some last ->
  Forall short_char (take (Z.to_nat i) out) -> short_char c ->
  exists out', put_at out i c = Some out' /\ length out' = 12%nat /\ out' !! 11%nat = Some last
    /\ Forall short_char (take (Z.to_nat (i + 1)) out').
Proof using Type.
  intros Hi Hl Hlast Ho Hc. unfold put_at. rewrite Hl.
  destruct (Z.leb_spec 0 i); [|lia]. destruct (Z.ltb_spec i (Z.of_nat 12)); [|lia]. cbn [andb].
  eexists; split; [reflexivity|]. rewrite length_insert. split; [done|]. split.
  - rewrite list_lookup_insert_ne by lia. done.
  - replace (Z.to_nat (i + 1)) with (S (Z.to_nat i)) by lia.
    rewrite (take_S_r _ _ c) by (apply list_lookup_insert_eq; lia).
    rewrite take_insert_ge by lia. apply Forall_app. by rewrite Forall_singleton.
Qed.

Lemma blanks_inv last i out : 0 <= i <= 8 -> length out = 12%nat -> out !! 11%nat = Some last ->
  Forall short_char (take (Z.to_nat i) out) ->
  exists out', blanks out i (8 - i) = Some out' /\ length out' = 12%nat /\ out' !! 11%nat = Some last
    /\ Forall short_char (take 8 out').
Proof using Type.
  intros Hi Hl Hlast Ho. unfold blanks. rewrite u32_small by lia. rewrite Hl.
  destruct (Z.leb_spec 0 i); [|lia]. destruct (Z.leb_spec (i + (8 - i)) (Z.of_nat 12)); [|lia]. cbn [andb].
  eexists; split; [reflexivity|]. unfold splice. rewrite length_replicate.
  replace (Z.to_nat i + Z.to_nat (8 - i))%nat with 8%nat by lia. split; [|split].
  - rewrite !length_app, length_take, length_replicate, length_drop. lia.
  - rewrite app_assoc, lookup_app_r by (rewrite length_app, length_take, length_replicate; lia).
    rewrite length_app, length_take, length_replicate, lookup_drop. rewrite <- Hlast. f_equal. lia.
  - rewrite app_assoc, take_app_length' by (rewrite length_app, length_take, length_replicate; lia).
    by apply short_app_replicate.
Qed.

Lemma short_turn_ok last st : sh_inv last st ->
  exists r, short_turn name st = Some r /\
    match r with
    | inl st' => sh_inv last st' /\ sh_name st < sh_name st'
    | inr st' => sh_i st' = sh_i st /\ sh_out st' = sh_out st
    end.
Proof using s_chars.
  destruct st as [i nm p out]. intros [Hi Hnm Hl Hlast Ho Hp]. cbn [sh_i sh_name sh_p sh_out] in *.
  unfold short_turn, CHAR_SHORT_NAME. destruct (Z.ltb_spec i 11) as [Hi1|Hi1]; cbn [negb]; [|by eexists].
  destruct (name_at nm Hnm) as (c & -> & Hc). cbn [mbind option_bind].
  destruct Hc as [[-> ->]|(Hlt & Hc & Hsc)]; [by eexists|].
  rewrite (proj2 (Z.eqb_neq c 0)) by lia.
  destruct ((i =? 8) && found p) eqn:E8.
  { apply andb_prop in E8 as [->%Z.eqb_eq Ef]. destruct p as [q|]; [|done].
    destruct Hp as (Hq0 & Hq & _ & Hd). destruct (Z.ltb_spec (q + 1) (nm + 1)); [by eexists|].
    eexists; split; [reflexivity|]. split; [|cbn; lia].
    split; cbn [sh_i sh_name sh_p sh_out]; [done|lia|done|done|done|]. intros k Hk. apply Hd. lia. }
  assert (sh_inv last (Shstate i (nm + 1) p out)) as Hskip.
  { split; cbn [sh_i sh_name sh_p sh_out]; [lia|lia|done|done|done|].
    destruct p as [q|]; [done|]. intros k Hk. apply Hp. lia. }
  destruct (Z.eqb_spec c 32) as [->|H32]; [eexists; split; [reflexivity|]; split; [done|cbn; lia]|].
  destruct (Z.eqb_spec c 46) as [->|H46].
  - destruct p as [q|]; [|by destruct (Hp nm ltac:(lia))].
    destruct Hp as (Hq0 & Hq & Hi8 & Hd). destruct (Z.ltb_spec q (nm + 1)) as [Hlt1|]; [|eexists; split; [reflexivity|]; split; [done|cbn; lia]].
    destruct (blanks_inv last i out) as (out' & -> & Hl' & Hlast' & Ho'); [lia|done..|].
    eexists; split; [reflexivity|]. split; [|cbn; lia].
    split; cbn [sh_i sh_name sh_p sh_out]; [lia|lia|done|done|done|]. intros k Hk. apply Hd. lia.
  - assert (exists d, (if (97 <=? c) && (c <=? 122) then Some (c + (65 - 97))
              else ill ← strchr illegal_short c; Some (if found ill then 95 else c)) = Some d
              /\ short_char d) as (d & -> & Hd).
    { destruct ((97 <=? c) && (c <=? 122)) eqn:E.
      - apply andb_prop in E as [?%Z.leb_le ?%Z.leb_le]. eexists; split; [reflexivity|]. unfold short_char. lia.
      - destruct (strchr_spec illegal_short c [43; 44; 59; 61; 91; 93] eq_refl) as (r & -> & _).
        eexists; split; [reflexivity|]. apply andb_false_iff in E as [?%Z.leb_gt|?%Z.leb_gt];
          destruct (found r); unfold short_char; lia. }
    cbn [mbind option_bind]. destruct (put_inv last i out d) as (out' & -> & Hl' & Hlast' & Ho'); [lia|done..|].
    eexists; split; [reflexivity|]. split; [|cbn; lia].
    split; cbn [sh_i sh_name sh_p sh_out]; [lia|lia|done|done|done|].
    destruct p as [q|]; [|intros k Hk; apply Hp; lia]. destruct Hp as (? & ? & ? & ?).
    destruct (Z.eqb_spec i 8) as [->|]; [done|]. repeat split; [done|done|lia|done].
Qed.

Lemma short_loop_ok last fuel : forall st, sh_inv last st -> len - sh_name st < Z.of_nat fuel ->
  exists st', short_loop fuel name st = Some st' /\ 0 <= sh_i st' <= 11
    /\ length (sh_out st') = 12%nat /\ sh_out st' !! 11%nat = Some last
    /\ Forall short_char (take (Z.to_nat (sh_i st')) (sh_out st')).
Proof using s_chars.
  induction fuel as [|fuel IH]; intros st Hst Hf; [destruct Hst as [_ ? _ _ _ _]; lia|].
  cbn [short_loop]. destruct (short_turn_ok last st Hst) as ([st'|st'] & -> & H); cbn [mbind option_bind].
  - destruct H as [Hst' Hlt]. apply IH; [done|lia].
  - exists st'. split; [done|]. destruct H as [-> ->]. by destruct Hst.
Qed.

Lemma pad_short_ok last out i : 0 <= i <= 11 -> length out = 12%nat -> out !! 11%nat = Some last ->
  Forall short_char (take (Z.to_nat i) out) ->
  exists out', pad_short out i = Some out' /\ length out' = 12%nat /\ out' !! 11%nat = Some last
    /\ Forall short_char (take 11 out').
Proof using Type.
  intros Hi Hl Hlast Ho. unfold pad_short, CHAR_SHORT_NAME.
  refine (let P := fun k o => exists out', o = Some out' /\ length out' = 12%nat
    /\ out' !! 11%nat = Some last /\ Forall short_char (take (Z.to_nat (i + k)) out') in _).
  assert (P (11 - i) (foldl (fun o k => out ← o; put_at out k 32) (Some out) (seqZ i (11 - i)))) as H.
  { apply foldl_seqZ_ind; [|lia|].
    - exists out. by rewrite Z.add_0_r.
    - intros k o Hk (out' & -> & Hl' & Hlast' & Ho'). cbn [mbind option_bind].
      destruct (put_inv last (i + k) out' 32) as (o2 & E & H2); [lia|done|done|done|unfold short_char; lia|].
      exists o2. split; [done|]. by replace (i + (k + 1)) with (i + k + 1) by lia. }
  destruct H as (out' & -> & Hl' & Hlast' & H). exists out'. do 3 (split; [done|]).
  by replace (Z.to_nat (i + (11 - i))) with 11%nat in H by lia.
Qed.

Lemma shortname_ok last out : length out = 12%nat -> out !! 11%nat = Some last ->
  exists out', generate_shortname out name = Some out' /\ length out' = 12%nat
    /\ out' !! 11%nat = Some last /\ Forall short_char (take 11 out').
Proof using s_chars.
  intros Hl Hlast. unfold generate_shortname. rewrite strlen_cstr, cstr_app
    by (eapply Forall_impl; [done|cbn; lia]). cbn [fmap option_fmap option_map mbind option_bind].
  rewrite Nat2Z.id. destruct (last_dot_spec (length s) (le_n _)) as (H0 & H1 & H2).
  destruct (short_loop_ok last (S (length s)) (Shstate 0 0 (Some (last_dot name (length s))) out))
    as (st & -> & Hi & Hl' & Hlast' & Ho); [|cbn [sh_name]; lia|].
  - split; cbn [sh_i sh_name sh_p sh_out]; [lia|lia|done|done|by constructor|].
    repeat split; [lia|lia|lia|]. intros k Hk. apply H2. lia.
  - cbn [mbind option_bind]. by apply pad_short_ok.
Qed.
End Short.

(** * Properties *)

(** [formatname] normalises a name.  It skips the blanks and dots the name
    starts with and fails exactly when one of the characters left is illegal;
    otherwise the array it returns holds those characters without the blanks
    they end with, and formatting that name again changes nothing. *)
Theorem formatname_exact (name s : list Z) :
  cstr name = Some s ->
  if forallb legal (strip s) then
    exists m, formatname name = Some (Some m) /\ cstr m = Some (chomp (strip s))
      /\ exists m', formatname m = Some (Some m') /\ cstr m' = cstr m
  else formatname name = Some None.
Proof.
  intros Hs. destruct (formatname_eq name s Hs) as (r & -> & Hr).
  destruct (forallb legal (strip s)) eqn:El; [|by rewrite Hr].
  destruct Hr as (m & -> & Hm). exists m. do 2 (split; [done|]).
  destruct (formatname_eq m _ Hm) as (r & -> & Hr).
  rewrite strip_chomp, (legal_chomp _ El) in Hr. destruct Hr as (m' & -> & Hm').
  exists m'. by rewrite Hm', Hm, chomp_idem.
Qed.

Example formatname_exact_witness :
  exists m, formatname (literal "..a b  ") = Some (Some m) /\ cstr m = Some (chars "a b")
      /\ exists m', formatname m = Some (Some m') /\ cstr m' = cstr m.
Proof. exact (formatname_exact (literal "..a b  ") (chars "..a b  ") eq_refl). Defined.

(** C31. A long file name survives the disk.  For a name of 1 to 247 bytes, the
    short name [emake] derives is always made of 11 characters, none of them
    NUL or a lower-case letter, written inside its array; the long entries
    carry its checksum, are numbered from the last chunk down to 1 and the
    first of them is marked; and [enext], reading them in that order into a
    cleared name, puts the same name together again. *)
Theorem long_name_roundtrip (s rest : list Z) :
  (0 < length s <= 247)%nat -> Forall (fun c => 0 < c < 256) s ->
  let n := Z.to_nat (long_count (Z.of_nat (length s))) in
  exists short base es buf,
    generate_shortname (replicate 12 0) (s ++ 0 :: rest) = Some (short ++ [0])
    /\ length short = 11%nat /\ Forall short_char short
    /\ long_base (short ++ [0]) = Some base
    /\ long_entries (s ++ 0 :: rest) (long_count (Z.of_nat (length s))) n base = Some es
    /\ length es = n
    /\ (forall k e, es !! k = Some e -> lne_attr e = ATTR_LONG_NAME
          /\ lne_order e = order_of (Z.of_nat n) (Z.of_nat (n - k))
          /\ cal_checksum short = Some (lne_checksum e))
    /\ read_back es (replicate 256 0) = Some buf /\ cstr buf = Some s.
Proof.
  intros Hs Hc n. pose proof (long_count_spec s ltac:(lia)) as [Hn0 _].
  destruct (shortname_ok s rest Hc 0 (replicate 12 0) eq_refl eq_refl) as (out & E & Hl & Hlast & Ho).
  assert (out = take 11 out ++ [0]) as Eo.
  { rewrite <- (take_S_r _ _ _ Hlast). by rewrite take_ge by lia. }
  set (short := take 11 out) in *. assert (length short = 11%nat) as Hsl by (unfold short; rewrite length_take; lia).
  set (sum := foldl checksum_step 0 short).
  assert (cal_checksum (short ++ [0]) = Some sum /\ cal_checksum short = Some sum) as [E1 E2].
  { unfold cal_checksum. rewrite length_app, Hsl. change (Z.to_nat CHAR_SHORT_NAME) with 11%nat.
    cbn [Nat.leb Nat.add length]. by rewrite take_app_length', take_ge by lia. }
  assert (0 <= sum < 256) as Hsum.
  { unfold sum. destruct short using rev_ind; [done|]. rewrite foldl_app. cbn [foldl]. apply u8_range. }
  set (base := set_lne_attr ATTR_LONG_NAME (set_lne_checksum sum dentry0)).
  assert (lne_checksum base = sum) as Hbs.
  { change (le [u8 sum] = sum). cbn [le]. rewrite u8_small by done. lia. }
  destruct (all_chunks s rest (long_count (Z.of_nat (length s))) Hc base Hs eq_refl eq_refl)
    as (es & buf & Ees & [Hlen Hes] & Hrd & _ & Hbuf).
  exists short, base, es, buf. split; [by rewrite E, Eo|]. do 2 (split; [done|]).
  split; [unfold long_base; by rewrite E1|]. do 2 (split; [done|]). split; [|done].
  intros k e Hk. destruct (Hes k e Hk) as (_ & Ha & Hord & Hck). split; [done|].
  split; [|by rewrite E2, Hck, Hbs]. rewrite Hord. unfold n. by rewrite Z2Nat.id by lia.
Qed.

Example long_name_roundtrip_witness :
  let s := chars "a rather long file name.text" in
  exists short base es buf,
    generate_shortname (replicate 12 0) (s ++ 0 :: []) = Some (short ++ [0])
    /\ length short = 11%nat /\ Forall short_char short
    /\ long_base (short ++ [0]) = Some base
    /\ long_entries (s ++ 0 :: []) 3 3 base = Some es
    /\ length es = 3%nat
    /\ (forall k e, es !! k = Some e -> lne_attr e = ATTR_LONG_NAME
          /\ lne_order e = order_of 3 (Z.of_nat (3 - k))
          /\ cal_checksum short = Some (lne_checksum e))
    /\ read_back es (replicate 256 0) = Some buf /\ cstr buf = Some s.
Proof.
  intros s. assert (0 < length s <= 247)%nat as Hs by (cbn; lia).
  assert (Forall (fun c => 0 < c < 256) s) as Hc by (repeat constructor).
  exact (long_name_roundtrip s [] Hs Hc).
Defined.
