(* ===== verification/Fat.v ===== *)
(** The FAT32 volume: kernel/fat32.c up to [etrunc], the part that works on
    sectors, the allocation table and the bytes of a file.

    [fsys] holds the three objects of the file: [fat], the geometry read from
    the boot sector; the entry cache, a ring of entries through [root]; and
    [root] itself.  An entry is its index: [ROOT] is [&root], [i < 50] is
    [&ecache.entries[i]].  The state puts the file system beside the buffer
    cache it reads through.  [rw_clus] moves bytes between a sector and memory,
    of the user or of the kernel, or a variable of its caller ([Local]). *)

From S2P Require Import Prelude Mem Strings Locks Kalloc Vm ProcState Vma Proc ProcFacts Sleeplock Bio Circ FatName.

Definition FAT32_BAD : Z := 0x0ffffff7.
Definition FAT32_EOC : Z := 0x0ffffff8.
Definition FAT32_EOF : Z := 0x0fffffff.
Definition ENTRY_CACHE_NUM : nat := 50.
Definition ROOT : nat := ENTRY_CACHE_NUM.

Record fat := Fat {
  first_data_sec : Z;
  data_sec_cnt : Z;
  data_clus_cnt : Z;
  byts_per_clus : Z;
  byts_per_sec : Z;
  sec_per_clus : Z;
  rsvd_sec_cnt : Z;
  fat_cnt : Z;
  hidd_sec : Z;
  tot_sec : Z;
  fat_sz : Z;
  root_clus : Z
}.

Definition first_data_sec_l : lens fat (Z) :=
  Lens first_data_sec (fun v r => Fat v (data_sec_cnt r) (data_clus_cnt r) (byts_per_clus r)
    (byts_per_sec r) (sec_per_clus r) (rsvd_sec_cnt r) (fat_cnt r) (hidd_sec r) (tot_sec r)
    (fat_sz r) (root_clus r)).
Definition data_sec_cnt_l : lens fat (Z) :=
  Lens data_sec_cnt (fun v r => Fat (first_data_sec r) v (data_clus_cnt r) (byts_per_clus r)
    (byts_per_sec r) (sec_per_clus r) (rsvd_sec_cnt r) (fat_cnt r) (hidd_sec r) (tot_sec r)
    (fat_sz r) (root_clus r)).
Definition data_clus_cnt_l : lens fat (Z) :=
  Lens data_clus_cnt (fun v r => Fat (first_data_sec r) (data_sec_cnt r) v (byts_per_clus r)
    (byts_per_sec r) (sec_per_clus r) (rsvd_sec_cnt r) (fat_cnt r) (hidd_sec r) (tot_sec r)
    (fat_sz r) (root_clus r)).
Definition byts_per_clus_l : lens fat (Z) :=
  Lens byts_per_clus (fun v r => Fat (first_data_sec r) (data_sec_cnt r) (data_clus_cnt r) v
    (byts_per_sec r) (sec_per_clus r) (rsvd_sec_cnt r) (fat_cnt r) (hidd_sec r) (tot_sec r)
    (fat_sz r) (root_clus r)).
Definition byts_per_sec_l : lens fat (Z) :=
  Lens byts_per_sec (fun v r => Fat (first_data_sec r) (data_sec_cnt r) (data_clus_cnt r)
    (byts_per_clus r) v (sec_per_clus r) (rsvd_sec_cnt r) (fat_cnt r) (hidd_sec r) (tot_sec r)
    (fat_sz r) (root_clus r)).
Definition sec_per_clus_l : lens fat (Z) :=
  Lens sec_per_clus (fun v r => Fat (first_data_sec r) (data_sec_cnt r) (data_clus_cnt r)
    (byts_per_clus r) (byts_per_sec r) v (rsvd_sec_cnt r) (fat_cnt r) (hidd_sec r) (tot_sec r)
    (fat_sz r) (root_clus r)).
Definition rsvd_sec_cnt_l : lens fat (Z) :=
  Lens rsvd_sec_cnt (fun v r => Fat (first_data_sec r) (data_sec_cnt r) (data_clus_cnt r)
    (byts_per_clus r) (byts_per_sec r) (sec_per_clus r) v (fat_cnt r) (hidd_sec r) (tot_sec r)
    (fat_sz r) (root_clus r)).
Definition fat_cnt_l : lens fat (Z) :=
  Lens fat_cnt (fun v r => Fat (first_data_sec r) (data_sec_cnt r) (data_clus_cnt r)
    (byts_per_clus r) (byts_per_sec r) (sec_per_clus r) (rsvd_sec_cnt r) v (hidd_sec r)
    (tot_sec r) (fat_sz r) (root_clus r)).
Definition hidd_sec_l : lens fat (Z) :=
  Lens hidd_sec (fun v r => Fat (first_data_sec r) (data_sec_cnt r) (data_clus_cnt r)
    (byts_per_clus r) (byts_per_sec r) (sec_per_clus r) (rsvd_sec_cnt r) (fat_cnt r) v (tot_sec
    r) (fat_sz r) (root_clus r)).
Definition tot_sec_l : lens fat (Z) :=
  Lens tot_sec (fun v r => Fat (first_data_sec r) (data_sec_cnt r) (data_clus_cnt r)
    (byts_per_clus r) (byts_per_sec r) (sec_per_clus r) (rsvd_sec_cnt r) (fat_cnt r) (hidd_sec
    r) v (fat_sz r) (root_clus r)).
Definition fat_sz_l : lens fat (Z) :=
  Lens fat_sz (fun v r => Fat (first_data_sec r) (data_sec_cnt r) (data_clus_cnt r)
    (byts_per_clus r) (byts_per_sec r) (sec_per_clus r) (rsvd_sec_cnt r) (fat_cnt r) (hidd_sec
    r) (tot_sec r) v (root_clus r)).
Definition root_clus_l : lens fat (Z) :=
  Lens root_clus (fun v r => Fat (first_data_sec r) (data_sec_cnt r) (data_clus_cnt r)
    (byts_per_clus r) (byts_per_sec r) (sec_per_clus r) (rsvd_sec_cnt r) (fat_cnt r) (hidd_sec
    r) (tot_sec r) (fat_sz r) v).

#[export] Instance first_data_sec_laws : LensLaws first_data_sec_l.
Proof. by split; [split|]; intros; repeat match goal with x : fat |- _ => destruct x end. Qed.
#[export] Instance data_sec_cnt_laws : LensLaws data_sec_cnt_l.
Proof. by split; [split|]; intros; repeat match goal with x : fat |- _ => destruct x end. Qed.
#[export] Instance data_clus_cnt_laws : LensLaws data_clus_cnt_l.
Proof. by split; [split|]; intros; repeat match goal with x : fat |- _ => destruct x end. Qed.
#[export] Instance byts_per_clus_laws : LensLaws byts_per_clus_l.
Proof. by split; [split|]; intros; repeat match goal with x : fat |- _ => destruct x end. Qed.
#[export] Instance byts_per_sec_laws : LensLaws byts_per_sec_l.
Proof. by split; [split|]; intros; repeat match goal with x : fat |- _ => destruct x end. Qed.
#[export] Instance sec_per_clus_laws : LensLaws sec_per_clus_l.
Proof. by split; [split|]; intros; repeat match goal with x : fat |- _ => destruct x end. Qed.
#[export] Instance rsvd_sec_cnt_laws : LensLaws rsvd_sec_cnt_l.
Proof. by split; [split|]; intros; repeat match goal with x : fat |- _ => destruct x end. Qed.
#[export] Instance fat_cnt_laws : LensLaws fat_cnt_l.
Proof. by split; [split|]; intros; repeat match goal with x : fat |- _ => destruct x end. Qed.
#[export] Instance hidd_sec_laws : LensLaws hidd_sec_l.
Proof. by split; [split|]; intros; repeat match goal with x : fat |- _ => destruct x end. Qed.
#[export] Instance tot_sec_laws : LensLaws tot_sec_l.
Proof. by split; [split|]; intros; repeat match goal with x : fat |- _ => destruct x end. Qed.
#[export] Instance fat_sz_laws : LensLaws fat_sz_l.
Proof. by split; [split|]; intros; repeat match goal with x : fat |- _ => destruct x end. Qed.
#[export] Instance root_clus_laws : LensLaws root_clus_l.
Proof. by split; [split|]; intros; repeat match goal with x : fat |- _ => destruct x end. Qed.

Record dirent := Dirent {
  d_filename : list Z;
  d_attribute : Z;
  d_first_clus : Z;
  d_file_size : Z;
  d_cur_clus : Z;
  d_clus_cnt : Z;
  d_dev : Z;
  d_dirty : Z;
  d_valid : Z;
  d_ref : Z;
  d_off : Z;
  d_parent : option nat;
  d_next : nat;
  d_prev : nat;
  d_lock : sleeplock
}.

Definition d_filename_l : lens dirent (list Z) :=
  Lens d_filename (fun v r => Dirent v (d_attribute r) (d_first_clus r) (d_file_size r)
    (d_cur_clus r) (d_clus_cnt r) (d_dev r) (d_dirty r) (d_valid r) (d_ref r) (d_off r)
    (d_parent r) (d_next r) (d_prev r) (d_lock r)).
Definition d_attribute_l : lens dirent (Z) :=
  Lens d_attribute (fun v r => Dirent (d_filename r) v (d_first_clus r) (d_file_size r)
    (d_cur_clus r) (d_clus_cnt r) (d_dev r) (d_dirty r) (d_valid r) (d_ref r) (d_off r)
    (d_parent r) (d_next r) (d_prev r) (d_lock r)).
Definition d_first_clus_l : lens dirent (Z) :=
  Lens d_first_clus (fun v r => Dirent (d_filename r) (d_attribute r) v (d_file_size r)
    (d_cur_clus r) (d_clus_cnt r) (d_dev r) (d_dirty r) (d_valid r) (d_ref r) (d_off r)
    (d_parent r) (d_next r) (d_prev r) (d_lock r)).
Definition d_file_size_l : lens dirent (Z) :=
  Lens d_file_size (fun v r => Dirent (d_filename r) (d_attribute r) (d_first_clus r) v
    (d_cur_clus r) (d_clus_cnt r) (d_dev r) (d_dirty r) (d_valid r) (d_ref r) (d_off r)
    (d_parent r) (d_next r) (d_prev r) (d_lock r)).
Definition d_cur_clus_l : lens dirent (Z) :=
  Lens d_cur_clus (fun v r => Dirent (d_filename r) (d_attribute r) (d_first_clus r)
    (d_file_size r) v (d_clus_cnt r) (d_dev r) (d_dirty r) (d_valid r) (d_ref r) (d_off r)
    (d_parent r) (d_next r) (d_prev r) (d_lock r)).
Definition d_clus_cnt_l : lens dirent (Z) :=
  Lens d_clus_cnt (fun v r => Dirent (d_filename r) (d_attribute r) (d_first_clus r)
    (d_file_size r) (d_cur_clus r) v (d_dev r) (d_dirty r) (d_valid r) (d_ref r) (d_off r)
    (d_parent r) (d_next r) (d_prev r) (d_lock r)).
Definition d_dev_l : lens dirent (Z) :=
  Lens d_dev (fun v r => Dirent (d_filename r) (d_attribute r) (d_first_clus r) (d_file_size r)
    (d_cur_clus r) (d_clus_cnt r) v (d_dirty r) (d_valid r) (d_ref r) (d_off r) (d_parent r)
    (d_next r) (d_prev r) (d_lock r)).
Definition d_dirty_l : lens dirent (Z) :=
  Lens d_dirty (fun v r => Dirent (d_filename r) (d_attribute r) (d_first_clus r) (d_file_size
    r) (d_cur_clus r) (d_clus_cnt r) (d_dev r) v (d_valid r) (d_ref r) (d_off r) (d_parent r)
    (d_next r) (d_prev r) (d_lock r)).
Definition d_valid_l : lens dirent (Z) :=
  Lens d_valid (fun v r => Dirent (d_filename r) (d_attribute r) (d_first_clus r) (d_file_size
    r) (d_cur_clus r) (d_clus_cnt r) (d_dev r) (d_dirty r) v (d_ref r) (d_off r) (d_parent r)
    (d_next r) (d_prev r) (d_lock r)).
Definition d_ref_l : lens dirent (Z) :=
  Lens d_ref (fun v r => Dirent (d_filename r) (d_attribute r) (d_first_clus r) (d_file_size r)
    (d_cur_clus r) (d_clus_cnt r) (d_dev r) (d_dirty r) (d_valid r) v (d_off r) (d_parent r)
    (d_next r) (d_prev r) (d_lock r)).
Definition d_off_l : lens dirent (Z) :=
  Lens d_off (fun v r => Dirent (d_filename r) (d_attribute r) (d_first_clus r) (d_file_size r)
    (d_cur_clus r) (d_clus_cnt r) (d_dev r) (d_dirty r) (d_valid r) (d_ref r) v (d_parent r)
    (d_next r) (d_prev r) (d_lock r)).
Definition d_parent_l : lens dirent (option nat) :=
  Lens d_parent (fun v r => Dirent (d_filename r) (d_attribute r) (d_first_clus r) (d_file_size
    r) (d_cur_clus r) (d_clus_cnt r) (d_dev r) (d_dirty r) (d_valid r) (d_ref r) (d_off r) v
    (d_next r) (d_prev r) (d_lock r)).
Definition d_next_l : lens dirent (nat) :=
  Lens d_next (fun v r => Dirent (d_filename r) (d_attribute r) (d_first_clus r) (d_file_size
    r) (d_cur_clus r) (d_clus_cnt r) (d_dev r) (d_dirty r) (d_valid r) (d_ref r) (d_off r)
    (d_parent r) v (d_prev r) (d_lock r)).
Definition d_prev_l : lens dirent (nat) :=
  Lens d_prev (fun v r => Dirent (d_filename r) (d_attribute r) (d_first_clus r) (d_file_size
    r) (d_cur_clus r) (d_clus_cnt r) (d_dev r) (d_dirty r) (d_valid r) (d_ref r) (d_off r)
    (d_parent r) (d_next r) v (d_lock r)).
Definition d_lock_l : lens dirent (sleeplock) :=
  Lens d_lock (fun v r => Dirent (d_filename r) (d_attribute r) (d_first_clus r) (d_file_size
    r) (d_cur_clus r) (d_clus_cnt r) (d_dev r) (d_dirty r) (d_valid r) (d_ref r) (d_off r)
    (d_parent r) (d_next r) (d_prev r) v).

#[export] Instance d_filename_laws : LensLaws d_filename_l.
Proof. by split; [split|]; intros; repeat match goal with x : dirent |- _ => destruct x end.
    Qed.
#[export] Instance d_attribute_laws : LensLaws d_attribute_l.
Proof. by split; [split|]; intros; repeat match goal with x : dirent |- _ => destruct x end.
    Qed.
#[export] Instance d_first_clus_laws : LensLaws d_first_clus_l.
Proof. by split; [split|]; intros; repeat match goal with x : dirent |- _ => destruct x end.
    Qed.
#[export] Instance d_file_size_laws : LensLaws d_file_size_l.
Proof. by split; [split|]; intros; repeat match goal with x : dirent |- _ => destruct x end.
    Qed.
#[export] Instance d_cur_clus_laws : LensLaws d_cur_clus_l.
Proof. by split; [split|]; intros; repeat match goal with x : dirent |- _ => destruct x end.
    Qed.
#[export] Instance d_clus_cnt_laws : LensLaws d_clus_cnt_l.
Proof. by split; [split|]; intros; repeat match goal with x : dirent |- _ => destruct x end.
    Qed.
#[export] Instance d_dev_laws : LensLaws d_dev_l.
Proof. by split; [split|]; intros; repeat match goal with x : dirent |- _ => destruct x end.
    Qed.
#[export] Instance d_dirty_laws : LensLaws d_dirty_l.
Proof. by split; [split|]; intros; repeat match goal with x : dirent |- _ => destruct x end.
    Qed.
#[export] Instance d_valid_laws : LensLaws d_valid_l.
Proof. by split; [split|]; intros; repeat match goal with x : dirent |- _ => destruct x end.
    Qed.
#[export] Instance d_ref_laws : LensLaws d_ref_l.
Proof. by split; [split|]; intros; repeat match goal with x : dirent |- _ => destruct x end.
    Qed.
#[export] Instance d_off_laws : LensLaws d_off_l.
Proof. by split; [split|]; intros; repeat match goal with x : dirent |- _ => destruct x end.
    Qed.
#[export] Instance d_parent_laws : LensLaws d_parent_l.
Proof. by split; [split|]; intros; repeat match goal with x : dirent |- _ => destruct x end.
    Qed.
#[export] Instance d_next_laws : LensLaws d_next_l.
Proof. by split; [split|]; intros; repeat match goal with x : dirent |- _ => destruct x end.
    Qed.
#[export] Instance d_prev_laws : LensLaws d_prev_l.
Proof. by split; [split|]; intros; repeat match goal with x : dirent |- _ => destruct x end.
    Qed.
#[export] Instance d_lock_laws : LensLaws d_lock_l.
Proof. by split; [split|]; intros; repeat match goal with x : dirent |- _ => destruct x end.
    Qed.

Record fsys := Fsys {
  fs_fat : fat;   (** [fat] *)
  ec_lock : spinlock;   (** [ecache.lock] *)
  ec_ents : gmap nat dirent   (** [ecache.entries] and, at [ROOT], [root] *)
}.

Definition fs_fat_l : lens fsys (fat) :=
  Lens fs_fat (fun v r => Fsys v (ec_lock r) (ec_ents r)).
Definition ec_lock_l : lens fsys (spinlock) :=
  Lens ec_lock (fun v r => Fsys (fs_fat r) v (ec_ents r)).
Definition ec_ents_l : lens fsys (gmap nat dirent) :=
  Lens ec_ents (fun v r => Fsys (fs_fat r) (ec_lock r) v).

#[export] Instance fs_fat_laws : LensLaws fs_fat_l.
Proof. by split; [split|]; intros; repeat match goal with x : fsys |- _ => destruct x end. Qed.
#[export] Instance ec_lock_laws : LensLaws ec_lock_l.
Proof. by split; [split|]; intros; repeat match goal with x : fsys |- _ => destruct x end. Qed.
#[export] Instance ec_ents_laws : LensLaws ec_ents_l.
Proof. by split; [split|]; intros; repeat match goal with x : fsys |- _ => destruct x end. Qed.

Definition dirent0 : dirent :=
  Dirent (replicate 256 0) 0 0 0 0 0 0 0 0 0 0 None 0 0 (Sleeplock 0 (Spin 0 "" None) "" 0).

Abbreviation fss := (pst * (bio * fsys))%type.
(** The process layer and the buffer cache; the file system; an entry. *)
Definition bz : lens fss bst := lpair fst_l (snd_l ⊚ fst_l).
Abbreviation fz := (snd_l ⊚ snd_l).
Definition ent_l (i : nat) : lens fsys dirent := ec_ents_l ⊚ lmap i dirent0.
#[export] Instance ent_put i : LensPut (ent_l i).
Proof. unfold ent_l. apply _. Qed.
Definition ent (i : nat) : lens fss dirent := fz ⊚ ent_l i.
Definition esl (i : nat) : lens fss (pst * sleeplock) := lpair fst_l (ent i ⊚ d_lock_l).
Abbreviation eclk := (snd_l ⊚ (snd_l ⊚ ec_lock_l)).
Definition geo : M fss fat := rd (fz ⊚ fs_fat_l).

(** The sleeplock of entry [i] as a channel. *)
Definition ENTCHAN (i : nat) : Z := 10000 + Z.of_nat i.

(** Unsigned division; by zero it is undefined. *)
Definition udiv (a b : Z) : M fss Z := if b =? 0 then undef "division by zero" else mret (a / b).
Definition umod (a b : Z) : M fss Z := if b =? 0 then undef "division by zero" else mret (a mod b).

(** The memory end of a transfer. *)
Inductive place :=
| At (user addr : Z)      (** memory, of the user when [user] is not 0 *)
| Local (bs : list Z).    (** a variable of the caller, by value *)

Section Fuel.
(** Bounds the number of times a process is woken to find a lock taken. *)
Variable fuel : nat.

(** The data of a locked buffer. *)
Definition bdata (b : nat) : M fss (list Z) := zoom bz (rd (bl b ⊚ b_data_l)).
Definition set_bdata (b : nat) (d : list Z) : M fss unit := zoom bz (bl b ⊚ b_data_l <~ d).

(** [fat.data_clus_cnt + 1] *)
Definition max_clus (g : fat) : Z := u32 (data_clus_cnt g + 1).

Definition fat32_init_entry (i : nat) : M fss unit :=
  _ ← ent i ⊚ d_dev_l <~ 0;
  _ ← ent i ⊚ d_valid_l <~ 0;
  _ ← ent i ⊚ d_ref_l <~ 0;
  _ ← ent i ⊚ d_dirty_l <~ 0;
  _ ← ent i ⊚ d_parent_l <~ None;
  n ← rd (ent ROOT ⊚ d_next_l);
  _ ← ent i ⊚ d_next_l <~ n;
  _ ← ent i ⊚ d_prev_l <~ ROOT;
  _ ← zoom (esl i) (initsleeplock "entry");
  n ← rd (ent ROOT ⊚ d_next_l);
  _ ← ent n ⊚ d_prev_l <~ i;
  ent ROOT ⊚ d_next_l <~ i.

(** The fields of the boot sector. *)
Definition read_bpb (d : list Z) : M fss fat :=
  bps ← lift "b->data" (fget 2 d 11);
  spc ← lift "b->data" (fget 1 d 13);
  rsvd ← lift "b->data" (fget 2 d 14);
  cnt ← lift "b->data" (fget 1 d 16);
  hidd ← lift "b->data" (fget 4 d 28);
  let rsvd := u16 (rsvd + hidd) in
  tot ← lift "b->data" (fget 4 d 32);
  sz ← lift "b->data" (fget 4 d 36);
  root ← lift "b->data" (fget 4 d 44);
  let first := u32 (rsvd + cnt * sz) in
  let secs := u32 (tot - first) in
  clus ← udiv secs spc;
  mret (Fat first secs clus (u32 (spc * bps)) bps spc rsvd cnt hidd tot sz root).

Definition fat32_init : M fss Z :=
  b ← zoom bz (bread fuel 0 0);
  d ← bdata b;
  c ← lift "strncmp" (strncmp (drop 82 d) (literal "FAT32") 5);
  if truth c then panic "not FAT32 volume"
  else
    g ← read_bpb d;
    _ ← fz ⊚ fs_fat_l <~ g;
    _ ← zoom bz (brelse b);
    if negb (BSIZE =? byts_per_sec g) then panic "byts_per_sec != BSIZE"
    else
      _ ← initlock eclk "ecache";
      _ ← ent ROOT <~ dirent0;
      _ ← zoom (esl ROOT) (initsleeplock "entry");
      _ ← ent ROOT ⊚ d_attribute_l <~ Z.lor ATTR_DIRECTORY ATTR_SYSTEM;
      _ ← ent ROOT ⊚ d_cur_clus_l <~ root_clus g;
      _ ← ent ROOT ⊚ d_first_clus_l <~ root_clus g;
      _ ← ent ROOT ⊚ d_valid_l <~ 1;
      _ ← ent ROOT ⊚ d_prev_l <~ ROOT;
      _ ← ent ROOT ⊚ d_next_l <~ ROOT;
      _ ← for_each (seq 0 ENTRY_CACHE_NUM) fat32_init_entry;
      mret 0.

(** * Clusters and the table *)

Definition first_sec_of_clus (cluster : Z) : M fss Z :=
  g ← geo;
  if (cluster <? 2) || (max_clus g <? cluster) then panic "cluster number error"
  else mret (u32 (u32 (u32 (cluster - 2) * sec_per_clus g) + first_data_sec g)).

Definition fat_sec_of_clus (cluster fat_num : Z) : M fss Z :=
  g ← geo;
  if (cluster <? 2) || (max_clus g <? cluster) then panic "cluster number error"
  else if fat_cnt g <? fat_num then panic "FAT number error"
  else
    q ← udiv (u32 (Z.shiftl cluster 2)) (byts_per_sec g);
    mret (u32 (rsvd_sec_cnt g + q + u32 (fat_sz g * (fat_num - 1)))).

Definition fat_offset_of_clus (cluster : Z) : M fss Z :=
  g ← geo;
  if (cluster <? 2) || (max_clus g <? cluster) then panic "cluster number error"
  else umod (u32 (Z.shiftl cluster 2)) (byts_per_sec g).

Definition read_fat (cluster : Z) : M fss Z :=
  if cluster <? 2 then panic "cluster number error when read FAT "
  else if FAT32_EOC <=? cluster then mret cluster
  else
    g ← geo;
    if max_clus g <? cluster then mret 0
    else
      sec ← fat_sec_of_clus cluster 1;
      b ← zoom bz (bread fuel 0 sec);
      off ← fat_offset_of_clus cluster;
      d ← bdata b;
      next ← lift "b->data" (fget 4 d off);
      _ ← zoom bz (brelse b);
      mret next.

Definition write_fat (cluster content : Z) : M fss Z :=
  if cluster <? 2 then panic "cluster number error when write in FAT"
  else
    sec ← fat_sec_of_clus cluster 1;
    b ← zoom bz (bread fuel 0 sec);
    off ← fat_offset_of_clus cluster;
    d ← bdata b;
    d ← lift "b->data" (fput 4 d off content);
    _ ← set_bdata b d;
    _ ← zoom bz (bwrite b);
    _ ← zoom bz (brelse b);
    mret 0.

Definition zero_sec (sec : Z) : M fss unit :=
  b ← zoom bz (bread fuel 0 sec);
  d ← bdata b;
  _ ← set_bdata b (splice d 0 (replicate (Z.to_nat BSIZE) 0));
  _ ← zoom bz (bwrite b);
  zoom bz (brelse b).

Definition zero_clus (cluster : Z) : M fss unit :=
  g ← geo;
  if (cluster <? 2) || (max_clus g <? cluster) then panic "cluster number error"
  else
    sec ← first_sec_of_clus cluster;
    for_each (seqZ 0 (sec_per_clus g)) (fun i => zero_sec (u32 (sec + i))).

(** Entry [j] of sector [i] of the table, in buffer [b]. *)
Definition alloc_turn (b : nat) (eps i j : Z) : M fss (option Z) :=
  d ← bdata b;
  v ← lift "b->data" (fget 4 d (4 * j));
  if v =? 0 then
    d ← lift "b->data" (fput 4 d (4 * j) FAT32_EOF);
    _ ← set_bdata b d;
    _ ← zoom bz (bwrite b);
    _ ← zoom bz (brelse b);
    let clus := u32 (i * eps + j + 2) in
    _ ← zero_clus clus;
    mret (Some clus)
  else mret None.
Definition alloc_sec (dev rsvd eps i : Z) : M fss (option Z) :=
  b ← zoom bz (bread fuel dev (u32 (rsvd + i)));
  r ← for_until (seqZ 0 eps) (alloc_turn b eps i);
  match r with
  | Some c => mret (Some c)
  | None => _ ← zoom bz (brelse b); mret None
  end.

Definition alloc_clus (dev : Z) : M fss Z :=
  g ← geo;
  let eps := byts_per_sec g / 4 in
  r ← for_until (seqZ 0 (fat_sz g)) (alloc_sec dev (rsvd_sec_cnt g) eps);
  match r with Some c => mret c | None => panic "no clusters" end.

Definition free_clus (cluster : Z) : M fss unit := _ ← write_fat cluster 0; mret tt.

(** * The bytes of a cluster *)

(** [m] bytes at [tot] of the memory end: [either_copyin], and the store of
    [either_copyout]. *)
Definition place_in (pl : place) (tot m : Z) : M fss (Z * list Z) :=
  match pl with
  | At user addr => zoom fst_l (either_copyin user (u64 (addr + tot)) m)
  | Local bs => mret (0, slice bs tot m)
  end.
Definition place_out (pl : place) (tot : Z) (bs : list Z) : M fss (Z * place) :=
  match pl with
  | At user addr => r ← zoom fst_l (either_copyout user (u64 (addr + tot)) bs); mret (r, pl)
  | Local old => mret (0, Local (splice old tot bs))
  end.

(** One turn of the loop of [rw_clus], over [tot], [off], [sec] and the memory
    end. *)
Definition rw_turn (write n : Z) '((tot, off, sec, pl) : Z * Z * Z * place)
  : M fss ((Z * Z * Z * place) + (Z * place)) :=
  if negb (tot <? n) then mret (inr (tot, pl))
  else
    b ← zoom bz (bread fuel 0 sec);
    let m := BSIZE - off mod BSIZE in
    let m := if n - tot <? m then n - tot else m in
    d ← bdata b;
    '(bad, pl) ← (if truth write then
                    '(bad, bs) ← place_in pl tot m;
                    _ ← set_bdata b (splice d (off mod BSIZE) bs);
                    _ ← when (negb (bad =? -1)) (zoom bz (bwrite b));
                    mret (bad, pl)
                  else place_out pl tot (slice d (off mod BSIZE) m));
    _ ← zoom bz (brelse b);
    if bad =? -1 then mret (inr (tot, pl))
    else mret (inl (tot + m, u32 (off + m), u32 (sec + 1), pl)).

(** Returns [tot] and the memory end, changed when it is a variable. *)
Definition rw_clus (cluster write : Z) (pl : place) (off n : Z) : M fss (Z * place) :=
  g ← geo;
  if byts_per_clus g <? u32 (off + n) then panic "offset out of range"
  else
    sec ← first_sec_of_clus cluster;
    q ← udiv off (byts_per_sec g);
    loop (S (Z.to_nat n)) (0, off mod byts_per_sec g, u32 (sec + q), pl) (rw_turn write n).

(** * Walking the chain of an entry *)

(** [while (clus_num > entry->clus_cnt)]: [inr None] when it may go on. *)
Definition grow_turn (e : nat) (clus_num : Z) (alloc : bool) : M fss (unit + option Z) :=
  d ← rd (ent e);
  if negb (d_clus_cnt d <? clus_num) then mret (inr None)
  else
    clus ← read_fat (d_cur_clus d);
    let clus := s32 clus in
    let next (clus : Z) : M fss (unit + option Z) :=
      _ ← ent e ⊚ d_cur_clus_l <~ u32 clus;
      _ ← md (ent e ⊚ d_clus_cnt_l) (fun n => u32 (n + 1));
      mret (inl tt) in
    if FAT32_EOC <=? clus then
      if alloc then
        c ← alloc_clus (d_dev d);
        _ ← write_fat (d_cur_clus d) c;
        next (s32 c)
      else
        _ ← ent e ⊚ d_cur_clus_l <~ d_first_clus d;
        _ ← ent e ⊚ d_clus_cnt_l <~ 0;
        mret (inr (Some (-1)))
    else if clus =? FAT32_BAD then panic "encounter a bad cluster"
    else next clus.

(** [while (entry->clus_cnt < clus_num)] *)
Definition seek_turn (e : nat) (clus_num : Z) : M fss (unit + unit) :=
  d ← rd (ent e);
  if negb (d_clus_cnt d <? clus_num) then mret (inr tt)
  else
    clus ← read_fat (d_cur_clus d);
    _ ← ent e ⊚ d_cur_clus_l <~ clus;
    if FAT32_EOC <=? clus then panic "reloc_clus"
    else
      _ ← md (ent e ⊚ d_clus_cnt_l) (fun n => u32 (n + 1));
      mret (inl tt).

(** [clus_num] is an [int] compared with an [unsigned int]. *)
Definition reloc_clus (e : nat) (off : Z) (alloc : bool) : M fss Z :=
  g ← geo;
  q ← udiv off (byts_per_clus g);
  let clus_num := u32 (s32 q) in
  cnt ← rd (ent e ⊚ d_clus_cnt_l);
  r ← loop (S (Z.to_nat (clus_num - cnt))) tt (fun _ => grow_turn e clus_num alloc);
  match r with
  | Some r => mret r
  | None =>
      cnt ← rd (ent e ⊚ d_clus_cnt_l);
      _ ← when (clus_num <? cnt)
            (first ← rd (ent e ⊚ d_first_clus_l);
             _ ← ent e ⊚ d_cur_clus_l <~ first;
             _ ← ent e ⊚ d_clus_cnt_l <~ 0;
             loop (S (Z.to_nat clus_num)) tt (fun _ => seek_turn e clus_num));
      r ← umod off (byts_per_clus g);
      mret (s32 r)
  end.

(** The memory end from [tot] on, and the whole again after a transfer there. *)
Definition shift (pl : place) (tot : Z) : place :=
  match pl with At user addr => At user (u64 (addr + tot)) | Local bs => Local (drop (Z.to_nat tot) bs) end.
Definition unshift (pl : place) (tot : Z) (pl' : place) : place :=
  match pl, pl' with Local bs, Local bs' => Local (take (Z.to_nat tot) bs ++ bs') | _, _ => pl end.

Definition eread_turn (e : nat) (n : Z) '((tot, off, pl) : Z * Z * place)
  : M fss ((Z * Z * place) + (Z * place)) :=
  d ← rd (ent e);
  if negb ((d_cur_clus d <? FAT32_EOC) && (tot <? n)) then mret (inr (tot, pl))
  else
    _ ← reloc_clus e off false;
    g ← geo;
    r ← umod off (byts_per_clus g);
    let m := byts_per_clus g - r in
    let m := if n - tot <? m then n - tot else m in
    c ← rd (ent e ⊚ d_cur_clus_l);
    '(k, pl') ← rw_clus c 0 (shift pl tot) r m;
    let pl := unshift pl tot pl' in
    if negb (k =? m) then mret (inr (tot, pl)) else mret (inl (tot + m, u32 (off + m), pl)).

Definition eread (e : nat) (pl : place) (off n : Z) : M fss (Z * place) :=
  d ← rd (ent e);
  if (d_file_size d <? off) || (u32 (off + n) <? off) || truth (Z.land (d_attribute d) ATTR_DIRECTORY)
  then mret (0, pl)
  else
    let n := if d_file_size d <? u32 (off + n) then u32 (d_file_size d - off) else n in
    '(tot, pl) ← loop (S (Z.to_nat n)) (0, off, pl) (eread_turn e n);
    mret (s32 tot, pl).

Definition ewrite_turn (e : nat) (n : Z) (pl : place) '((tot, off) : Z * Z)
  : M fss ((Z * Z) + (Z * Z)) :=
  if negb (tot <? n) then mret (inr (tot, off))
  else
    _ ← reloc_clus e off true;
    g ← geo;
    r ← umod off (byts_per_clus g);
    let m := byts_per_clus g - r in
    let m := if n - tot <? m then n - tot else m in
    c ← rd (ent e ⊚ d_cur_clus_l);
    '(k, _) ← rw_clus c 1 (shift pl tot) r m;
    if negb (k =? m) then mret (inr (tot, off)) else mret (inl (tot + m, u32 (off + m))).

Definition ewrite (e : nat) (pl : place) (off n : Z) : M fss Z :=
  d ← rd (ent e);
  if (d_file_size d <? off) || (u32 (off + n) <? off) || (0xffffffff <? off + n)
     || truth (Z.land (d_attribute d) ATTR_READ_ONLY)
  then mret (-1)
  else
    _ ← when (d_first_clus d =? 0)
          (c ← alloc_clus (d_dev d);
           _ ← ent e ⊚ d_first_clus_l <~ c;
           _ ← ent e ⊚ d_cur_clus_l <~ c;
           _ ← ent e ⊚ d_clus_cnt_l <~ 0;
           ent e ⊚ d_dirty_l <~ 1);
    '(tot, off) ← loop (S (Z.to_nat n)) (0, off) (ewrite_turn e n pl);
    sz ← rd (ent e ⊚ d_file_size_l);
    _ ← when ((0 <? n) && (sz <? off))
          (_ ← ent e ⊚ d_file_size_l <~ off; ent e ⊚ d_dirty_l <~ 1);
    mret (s32 tot).

(** [for (clus = ...; clus >= 2 && clus < FAT32_EOC;)]: frees a chain. *)
Definition free_turn (clus : Z) : M fss (Z + unit) :=
  if (2 <=? clus) && (clus <? FAT32_EOC) then
    next ← read_fat clus;
    _ ← free_clus clus;
    mret (inl next)
  else mret (inr tt).
(** The same walk without freeing. *)
Definition skip_turn (clus : Z) : M fss (Z + Z) :=
  if (2 <=? clus) && (clus <? FAT32_EOC) then
    next ← read_fat clus; mret (inl next)
  else mret (inr clus).

(** [cfuel] bounds the length of a chain. *)
Definition etrunc (cfuel : nat) (e : nat) : M fss unit :=
  c ← rd (ent e ⊚ d_first_clus_l);
  _ ← loop cfuel c free_turn;
  _ ← ent e ⊚ d_file_size_l <~ 0;
  _ ← ent e ⊚ d_first_clus_l <~ 0;
  ent e ⊚ d_dirty_l <~ 1.

(** [i] stays 0: the first loop goes to the end of the chain or not at all. *)
Definition etruncate (cfuel : nat) (e : nat) (len : Z) : M fss Z :=
  sz ← rd (ent e ⊚ d_file_size_l);
  if sz <? u32 len then mret (-1)
  else
    _ ← ent e ⊚ d_file_size_l <~ u32 len;
    g ← geo;
    r ← umod (u32 len) (byts_per_clus g);
    q ← udiv (u32 len) (byts_per_clus g);
    let clus_num := s32 (if truth r then q + 1 else q) in
    c ← rd (ent e ⊚ d_first_clus_l);
    c ← (if 0 <? clus_num then loop cfuel c skip_turn else mret c);
    _ ← loop cfuel c free_turn;
    mret 0.
End Fuel.
