(* ===== verification/FatFile.v ===== *)
(** Files as bytes: what the operations of Fat.v do to the volume seen as an
    array of bytes, to the allocation table and to the bytes of a chain. *)

From S2P Require Import Prelude Mem Strings Locks Kalloc Vm PageTable ProcState Vma Proc ProcFacts Sleeplock Bio Circ UserMem FatName Fat.

(** * The volume as an array of bytes *)

Definition disk (b : bio) (a : Z) : Z := nth (Z.to_nat (a mod 512)) (sector b (a / 512)) 0.
(** The [n] bytes from [a] on, and a little-endian word. *)
Definition span (b : bio) (a n : Z) : list Z := map (disk b) (seqZ a n).
Definition word (b : bio) (a : Z) : Z := le (span b a 4).

(** [b'] is [b] with [bs] written at [a]. *)
Definition wrote (b b' : bio) (a : Z) (bs : list Z) : Prop :=
  forall x, 0 <= x < 512 * MAXSEC -> disk b' x
    = if decide (a <= x < a + Z.of_nat (length bs)) then nth (Z.to_nat (x - a)) bs 0 else disk b x.

Lemma length_sector b n : length (sector b n) = 512%nat.
Proof. unfold sector. by rewrite length_read_bytes. Qed.
Lemma length_span b a n : length (span b a n) = Z.to_nat n.
Proof. unfold span. by rewrite length_map, length_seqZ. Qed.
Lemma span_bytes b a n : bytes (span b a n).
Proof.
  apply Forall_forall. intros x Hx. unfold span in Hx.
  apply list_elem_of_In, in_map_iff in Hx as (i & <- & _). unfold disk.
  destruct (nth_in_or_default (Z.to_nat (i mod 512)) (sector b (i / 512)) 0) as [Hin| ->]; [|lia].
  pose proof (read_bytes_bytes (rd_mem b) (sector_addr (rd_base b) (i / 512)) BSIZE) as H.
  apply list_elem_of_In in Hin. by apply (Forall_forall _ _) with (1 := H).
Qed.
Lemma span_lookup b a n i : 0 <= i < n -> span b a n !! Z.to_nat i = Some (disk b (a + i)).
Proof.
  intros Hi. unfold span. rewrite list_lookup_fmap, lookup_seqZ_lt by lia. cbn. do 2 f_equal. lia.
Qed.
Lemma span_app b a n k : 0 <= n -> 0 <= k -> span b a (n + k) = span b a n ++ span b (a + n) k.
Proof. intros Hn Hk. unfold span. by rewrite seqZ_app, map_app by done. Qed.
Lemma span_ext b b' a n : (forall x, a <= x < a + n -> disk b' x = disk b x) -> span b' a n = span b a n.
Proof. intros H. unfold span. apply map_ext_in. intros x Hx. apply H. by apply seqZ_In in Hx. Qed.
Lemma slice_span b a n p k : 0 <= p -> 0 <= k -> p + k <= n -> slice (span b a n) p k = span b (a + p) k.
Proof.
  intros Hp Hk Hpk. unfold slice. replace n with (p + (k + (n - p - k))) by lia.
  rewrite span_app, drop_app_length' by (rewrite ?length_span; lia).
  rewrite span_app, take_app_length' by (rewrite ?length_span; lia). done.
Qed.

Lemma sector_span b n : sector b n = span b (512 * n) 512.
Proof.
  apply list_eq. intros i. destruct (decide (i < 512)%nat) as [Hi|Hi].
  - replace i with (Z.to_nat (Z.of_nat i)) at 2 by lia. rewrite span_lookup by lia. unfold disk.
    replace ((512 * n + Z.of_nat i) / 512) with n by zlia.
    replace ((512 * n + Z.of_nat i) mod 512) with (Z.of_nat i) by zlia.
    rewrite Nat2Z.id, nth_lookup. destruct (lookup_lt_is_Some_2 (sector b n) i) as [x ->];
      [by rewrite length_sector|done].
  - rewrite !lookup_ge_None_2; [done|rewrite length_span; lia|rewrite length_sector; lia].
Qed.
Lemma slice_sector b n p k : 0 <= p -> 0 <= k -> p + k <= 512 -> slice (sector b n) p k = span b (512 * n + p) k.
Proof. intros. rewrite sector_span. by apply slice_span. Qed.
Lemma disk_same b b' : (forall m, sector b' m = sector b m) -> forall a, disk b' a = disk b a.
Proof. intros H a. unfold disk. by rewrite H. Qed.

Lemma nth_splice d p bs i : 0 <= p -> (Z.to_nat p + length bs <= length d)%nat -> (i < length d)%nat ->
  nth i (splice d p bs) 0 = if decide (p <= Z.of_nat i < p + Z.of_nat (length bs))
                            then nth (Z.to_nat (Z.of_nat i - p)) bs 0 else nth i d 0.
Proof.
  intros Hp Hl Hi. unfold splice. rewrite !nth_lookup. destruct (decide _) as [H|H].
  - rewrite lookup_app_r, length_take by (rewrite length_take; lia).
    rewrite lookup_app_l by lia. do 2 f_equal. lia.
  - destruct (decide (Z.of_nat i < p)).
    + rewrite lookup_app_l by (rewrite length_take; lia). by rewrite lookup_take_lt by lia.
    + rewrite lookup_app_r, length_take by (rewrite length_take; lia).
      rewrite lookup_app_r by lia. rewrite lookup_drop. do 2 f_equal. lia.
Qed.
Lemma length_splice_at d p bs : (Z.to_nat p + length bs <= length d)%nat -> length (splice d p bs) = length d.
Proof. intros H. unfold splice. rewrite !length_app, length_take, length_drop. lia. Qed.
Lemma splice_bytes d p bs : bytes d -> bytes bs -> bytes (splice d p bs).
Proof.
  intros Hd Hb. unfold splice, bytes. rewrite !Forall_app. split; [by apply Forall_take|].
  split; [done|by apply Forall_drop].
Qed.
Lemma slice_bytes d p k : bytes d -> bytes (slice d p k).
Proof. intros H. apply Forall_take. by apply Forall_drop. Qed.

(** A sector rewritten in part. *)
Lemma wrote_sector b b' n p bs : 0 <= p -> p + Z.of_nat (length bs) <= 512 ->
  sector b' n = splice (sector b n) p bs ->
  (forall m, 0 <= m < MAXSEC -> m <> n -> sector b' m = sector b m) ->
  wrote b b' (512 * n + p) bs.
Proof.
  intros Hp Hl Hn Hm x Hx. unfold disk at 1. destruct (decide (x / 512 = n)) as [<-|Hne].
  - rewrite Hn, nth_splice by (rewrite ?length_sector; zlia).
    destruct (decide (_ <= Z.of_nat (Z.to_nat (x mod 512)) < _)); [rewrite decide_True by zlia|rewrite decide_False by zlia].
    + f_equal. zlia.
    + done.
  - rewrite decide_False by zlia. rewrite Hm; [done|unfold MAXSEC in *; zlia|done].
Qed.
Lemma wrote_app b b1 b2 a l1 l2 : wrote b b1 a l1 -> wrote b1 b2 (a + Z.of_nat (length l1)) l2 ->
  wrote b b2 a (l1 ++ l2).
Proof.
  intros H1 H2 x Hx. rewrite H2, H1 by done. rewrite length_app.
  destruct (decide (a + Z.of_nat (length l1) <= x < _)).
  - rewrite decide_True by lia. rewrite app_nth2 by lia. f_equal. lia.
  - destruct (decide (a <= x < _)).
    + rewrite decide_True by lia. by rewrite app_nth1 by lia.
    + by rewrite decide_False by lia.
Qed.
Lemma wrote_nil b b' a : (forall x, disk b' x = disk b x) -> wrote b b' a [].
Proof. intros H x Hx. rewrite decide_False by (cbn; lia). apply H. Qed.
Lemma wrote_same b b1 b2 a bs : wrote b b1 a bs -> (forall m, sector b2 m = sector b1 m) -> wrote b b2 a bs.
Proof. intros H Hs x Hx. rewrite <- H by done. by apply disk_same. Qed.
Lemma wrote_span_out b b' a bs c n : wrote b b' a bs -> 0 <= c -> c + n <= 512 * MAXSEC ->
  c + n <= a \/ a + Z.of_nat (length bs) <= c -> span b' c n = span b c n.
Proof.
  intros H Hc Hn Hd. apply span_ext. intros x Hx. rewrite H by lia. by rewrite decide_False by lia.
Qed.
Lemma wrote_span_in b b' a bs : wrote b b' a bs -> 0 <= a -> a + Z.of_nat (length bs) <= 512 * MAXSEC ->
  span b' a (Z.of_nat (length bs)) = bs.
Proof.
  intros H Ha Hl. apply list_eq. intros i. destruct (decide (i < length bs)%nat) as [Hi|Hi].
  - replace i with (Z.to_nat (Z.of_nat i)) at 1 by lia. rewrite span_lookup by lia.
    rewrite H, decide_True by lia. replace (Z.to_nat (a + Z.of_nat i - a)) with i by lia.
    rewrite nth_lookup. by destruct (lookup_lt_is_Some_2 bs i Hi) as [x ->].
  - rewrite !lookup_ge_None_2; [done|lia|rewrite length_span; lia].
Qed.

(** * The geometry *)

Record geo_ok (g : fat) : Prop := {
  go_bps : byts_per_sec g = 512;
  go_spc : 0 < sec_per_clus g < 256;
  go_bpc : byts_per_clus g = 512 * sec_per_clus g;
  go_cnt : 1 <= fat_cnt g;
  go_rsvd : 0 <= rsvd_sec_cnt g;
  go_clus : 0 <= data_clus_cnt g;
  go_table : 512 * rsvd_sec_cnt g + 4 * (data_clus_cnt g + 2) <= 512 * first_data_sec g;
  go_end : first_data_sec g + data_clus_cnt g * sec_per_clus g <= MAXSEC
}.
(** The clusters of the volume, where one starts, and where its table entry is. *)
Definition good_clus (g : fat) (c : Z) : Prop := 2 <= c <= data_clus_cnt g + 1.
Definition clus_addr (g : fat) (c : Z) : Z := 512 * (first_data_sec g + (c - 2) * sec_per_clus g).
Definition fat_addr (g : fat) (c : Z) : Z := 512 * rsvd_sec_cnt g + 4 * c.

Lemma geo_bounds g : geo_ok g -> data_clus_cnt g <= MAXSEC /\ max_clus g = data_clus_cnt g + 1
  /\ 0 <= first_data_sec g /\ rsvd_sec_cnt g <= MAXSEC.
Proof.
  intros [? [? ?] ? ? ? ? ? ?]. unfold max_clus, MAXSEC in *.
  assert (data_clus_cnt g <= 2 ^ 23) by nia. rewrite u32_small by lia. nia.
Qed.
Lemma clus_bounds g c : geo_ok g -> good_clus g c ->
  512 * rsvd_sec_cnt g + 4 * (data_clus_cnt g + 2) <= clus_addr g c
  /\ clus_addr g c + byts_per_clus g <= 512 * MAXSEC /\ 0 <= clus_addr g c.
Proof. intros [? [? ?] -> ? ? ? ? ?] Hc. unfold clus_addr, good_clus in *. nia. Qed.
Lemma clus_disjoint g c c' : geo_ok g -> good_clus g c -> good_clus g c' -> c <> c' ->
  clus_addr g c + byts_per_clus g <= clus_addr g c' \/ clus_addr g c' + byts_per_clus g <= clus_addr g c.
Proof. intros [? [? ?] -> ? ? ? ? ?] Hc Hc' Hne. unfold clus_addr. nia. Qed.
Lemma fat_bounds g c : geo_ok g -> good_clus g c ->
  0 <= fat_addr g c /\ fat_addr g c + 4 <= 512 * first_data_sec g
  /\ fat_addr g c + 4 <= 512 * MAXSEC.
Proof.
  intros Hg Hc. pose proof (geo_bounds g Hg) as (? & _ & ? & ?). destruct Hg as [? [? ?] ? ? ? ? ? ?].
  unfold fat_addr, good_clus in *. nia.
Qed.

(** * Addresses of sectors and table entries *)

Lemma clus_valid g c : geo_ok g -> good_clus g c -> (c <? 2) || (max_clus g <? c) = false.
Proof.
  intros Hg Hc. pose proof (geo_bounds g Hg) as (_ & -> & _). unfold good_clus in Hc.
  apply orb_false_iff. rewrite !Z.ltb_ge. lia.
Qed.
Lemma wp_geo g q b f (Q : fat -> fss -> Prop) : fs_fat f = g -> Q g (q, (b, f)) -> wp geo Q (q, (b, f)).
Proof. by intros <-. Qed.
Lemma wp_udiv a d s (Q : Z -> fss -> Prop) : d <> 0 -> Q (a / d) s -> wp (udiv a d) Q s.
Proof. intros Hd HQ. unfold udiv. by rewrite (proj2 (Z.eqb_neq d 0)). Qed.
Lemma wp_umod a d s (Q : Z -> fss -> Prop) : d <> 0 -> Q (a mod d) s -> wp (umod a d) Q s.
Proof. intros Hd HQ. unfold umod. by rewrite (proj2 (Z.eqb_neq d 0)). Qed.

Lemma wp_fat_sec g c q b f (Q : Z -> fss -> Prop) : geo_ok g -> fs_fat f = g -> good_clus g c ->
  Q (fat_addr g c / 512) (q, (b, f)) -> wp (fat_sec_of_clus c 1) Q (q, (b, f)).
Proof.
  intros Hg Ef Hc HQ. unfold fat_sec_of_clus. apply wp_bind, (wp_geo g); [done|]. rewrite (clus_valid g) by done.
  pose proof (fat_bounds g c Hg Hc) as (H1 & _ & H2). pose proof (geo_bounds g Hg) as (H3 & _ & _ & H4).
  destruct Hg as [Hb [? ?] ? Hn ? ? ? ?]. destruct (Z.ltb_spec (fat_cnt g) 1); [lia|].
  apply wp_bind, wp_udiv; [lia|]. apply wp_mret. rewrite Hb.
  rewrite Z.shiftl_mul_pow2 by lia. unfold fat_addr, good_clus, MAXSEC in *.
  replace (u32 _) with ((512 * rsvd_sec_cnt g + 4 * c) / 512); [done|].
  change (1 - 1) with 0. rewrite Z.mul_0_r. change (u32 0) with 0. rewrite (u32_small (c * 2 ^ 2)) by lia.
  rewrite u32_small; zlia.
Qed.
Lemma wp_fat_off g c q b f (Q : Z -> fss -> Prop) : geo_ok g -> fs_fat f = g -> good_clus g c ->
  Q (fat_addr g c mod 512) (q, (b, f)) -> wp (fat_offset_of_clus c) Q (q, (b, f)).
Proof.
  intros Hg Ef Hc HQ. unfold fat_offset_of_clus. apply wp_bind, (wp_geo g); [done|]. rewrite (clus_valid g) by done.
  pose proof (geo_bounds g Hg) as (H3 & _ & _ & H4). destruct Hg as [Hb [? ?] ? Hn ? ? ? ?].
  apply wp_umod; [lia|]. rewrite Hb, Z.shiftl_mul_pow2 by lia. unfold fat_addr, good_clus, MAXSEC in *.
  rewrite u32_small by lia. replace ((c * 2 ^ 2) mod 512) with ((512 * rsvd_sec_cnt g + 4 * c) mod 512); [done|].
  zlia.
Qed.

Lemma fget_sector b n off : 0 <= off -> off + 4 <= 512 ->
  fget 4 (sector b n) off = Some (word b (512 * n + off)).
Proof.
  intros H0 H4. unfold fget. rewrite length_sector.
  destruct (Z.leb_spec 0 off); [|lia]. destruct (Z.leb_spec (off + 4) (Z.of_nat 512)); [|lia]. cbn [andb].
  by rewrite slice_sector by lia.
Qed.
Lemma fput_sector b n off v : 0 <= off -> off + 4 <= 512 ->
  fput 4 (sector b n) off v = Some (splice (sector b n) off (le_bytes 4 v)).
Proof.
  intros H0 H4. unfold fput. rewrite length_sector.
  destruct (Z.leb_spec 0 off); [|lia]. by destruct (Z.leb_spec (off + 4) (Z.of_nat 512)); [|lia].
Qed.

Lemma length_le_bytes n v : length (le_bytes n v) = n.
Proof. revert v. induction n as [|n IH]; intros v; [done|]. cbn. by rewrite IH. Qed.
Lemma le_bytes_bytes n v : bytes (le_bytes n v).
Proof. revert v. induction n as [|n IH]; intros v; [constructor|]. cbn. constructor; [apply u8_range|apply IH]. Qed.
Lemma le_le_bytes n v : le (le_bytes n v) = v mod 256 ^ Z.of_nat n.
Proof.
  revert v. induction n as [|n IH]; intros v; [cbn; by rewrite Z.mod_1_r|].
  cbn [le_bytes le]. rewrite IH, Nat2Z.inj_succ, Z.pow_succ_r by lia. rewrite Z.rem_mul_r by lia. done.
Qed.

(** * Sessions with the buffer cache *)

(** What an operation that writes nothing leaves behind. *)
Record still (p : nat) (q : pst) (b : bio) (q' : pst) (b' : bio) : Prop := {
  st_q : quiescent 0 p (q', b');
  st_env : same_env p q q';
  st_sec : forall m, sector b' m = sector b m
}.
Lemma still_disk p q b q' b' : still p q b q' b' -> forall a, disk b' a = disk b a.
Proof. intros H. apply disk_same, H. Qed.
Lemma still_span p q b q' b' a n : still p q b q' b' -> span b' a n = span b a n.
Proof. intros H. apply span_ext. intros x _. by apply (still_disk _ _ _ _ _ H). Qed.
Lemma still_trans p q b q1 b1 q2 b2 : still p q b q1 b1 -> still p q1 b1 q2 b2 -> still p q b q2 b2.
Proof. intros [h1 h2 h3] [k1 k2 k3]. split; [done|by etrans|]. intros m. by rewrite k3. Qed.
Lemma still_refl p q b : quiescent 0 p (q, b) -> still p q b q b.
Proof. by split. Qed.

Section Session.
Variables (p fuel : nat).
Hypothesis fuel_pos : (0 < fuel)%nat.

(** Buffer [i] holds sector [n]; the file system is [f]. *)
Abbreviation opn n i q b := (opened 0 p n i (q, b)).
Abbreviation data i b := (b_data (at_ (bc_buf b) i)).

Lemma wp_bopen n q b f (Q : nat -> fss -> Prop) : quiescent 0 p (q, b) -> 0 <= n < MAXSEC ->
  (forall i b1, opn n i q b1 -> data i b1 = sector b n -> (forall m, sector b1 m = sector b m) ->
     Q i (q, (b1, f))) ->
  wp (zoom bz (bread fuel 0 n)) Q (q, (b, f)).
Proof using fuel_pos.
  intros Hq Hn HQ. apply wp_zoom. apply (wp_open 0 p n Hn fuel (q, b)); [done|done|].
  intros i [q1 b1] Ho Hd Hf Hs. cbn in Hf. subst q1. by apply HQ.
Qed.
Lemma wp_bdata i q b f (Q : list Z -> fss -> Prop) : Q (data i b) (q, (b, f)) -> wp (bdata i) Q (q, (b, f)).
Proof using Type. done. Qed.
Lemma wp_set_bdata n i d q b f (Q : unit -> fss -> Prop) : opn n i q b ->
  (forall b1, opn n i q b1 -> data i b1 = d -> (forall m, sector b1 m = sector b m) -> Q tt (q, (b1, f))) ->
  wp (set_bdata i d) Q (q, (b, f)).
Proof using Type.
  intros Ho HQ. destruct (opened_dirty 0 p n i (q, b) d Ho) as (Ho1 & Hd & Hs & _).
  rewrite upd_buf in *. unfold set_bdata. apply wp_zoom, wp_wr.
  change (view bz (q, (b, f))) with (q, b). rewrite upd_buf. by apply HQ.
Qed.
Lemma wp_bflush n i q b f (Q : unit -> fss -> Prop) : opn n i q b -> length (data i b) = 512%nat -> bytes (data i b) ->
  (forall b1, opn n i q b1 -> data i b1 = data i b -> sector b1 n = data i b ->
     (forall m, 0 <= m < MAXSEC -> m <> n -> sector b1 m = sector b m) -> Q tt (q, (b1, f))) ->
  wp (zoom bz (bwrite i)) Q (q, (b, f)).
Proof using Type.
  intros Ho Hl Hb HQ. apply wp_zoom. apply (wp_flush 0 p n i (q, b)); [done|done|done|].
  intros [q1 b1] Ho1 Hd Hf Hs Hm. cbn in Hf. subst q1. by apply HQ.
Qed.
Lemma wp_bclose n i q b f (Q : unit -> fss -> Prop) : opn n i q b -> data i b = sector b n ->
  (forall q1 b1, still p q b q1 b1 -> Q tt (q1, (b1, f))) ->
  wp (zoom bz (brelse i)) Q (q, (b, f)).
Proof using Type.
  intros Ho Hd HQ. apply wp_zoom. apply (wp_close 0 p n i (q, b)); [done|done|].
  intros [q1 b1] Hq1 He Hs. by apply HQ.
Qed.

(** * The table *)

Section Table.
Variables (g : fat).
Hypothesis Hg : geo_ok g.

(** The table entry of a cluster. *)
Definition entry_of (b : bio) (c : Z) : Z := word b (fat_addr g c).

Lemma wp_read_fat c q b f (Q : Z -> fss -> Prop) : quiescent 0 p (q, b) -> fs_fat f = g -> good_clus g c ->
  (forall q1 b1, still p q b q1 b1 -> Q (entry_of b c) (q1, (b1, f))) ->
  wp (read_fat fuel c) Q (q, (b, f)).
Proof using Hg fuel_pos.
  intros Hq Ef Hc HQ. pose proof (geo_bounds g Hg) as (H3 & H4 & _). pose proof (fat_bounds g c Hg Hc) as (H1 & _ & H2).
  pose proof Hc as Hc'. unfold good_clus, MAXSEC in Hc', H3. unfold read_fat.
  destruct (Z.ltb_spec c 2); [lia|]. destruct (Z.leb_spec FAT32_EOC c); [unfold FAT32_EOC in *; lia|].
  apply wp_bind, (wp_geo g); [done|]. rewrite H4. destruct (Z.ltb_spec (data_clus_cnt g + 1) c); [lia|].
  apply wp_bind, (wp_fat_sec g); [done|done|done|].
  assert (0 <= fat_addr g c / 512 < MAXSEC) as Hs by (unfold MAXSEC in *; zlia).
  apply wp_bind, (wp_bopen _ _ _ _ _ Hq Hs). intros i b1 Ho Hd Hsec.
  apply wp_bind, (wp_fat_off g); [done|done|done|]. apply wp_bind, wp_bdata. rewrite Hd.
  assert (fat_addr g c mod 512 + 4 <= 512) as Hal by (unfold fat_addr; zlia).
  rewrite fget_sector by zlia. apply wp_bind, wp_mret.
  apply wp_bind, (wp_bclose _ i _ _ _ _ Ho); [by rewrite Hd, Hsec|]. intros q2 b2 [S1 S2 S3].
  apply wp_mret. replace (512 * (fat_addr g c / 512) + fat_addr g c mod 512) with (fat_addr g c) by zlia.
  apply HQ. split; [done|done|]. intros m. by rewrite S3.
Qed.

(** What an operation that wrote [bs] at [a] leaves behind. *)
Record wrote_at (q : pst) (b : bio) (a : Z) (bs : list Z) (q' : pst) (b' : bio) : Prop := {
  wa_q : quiescent 0 p (q', b');
  wa_env : same_env p q q';
  wa_disk : wrote b b' a bs
}.

Lemma wp_write_fat c v q b f (Q : Z -> fss -> Prop) : quiescent 0 p (q, b) -> fs_fat f = g -> good_clus g c ->
  (forall q1 b1, wrote_at q b (fat_addr g c) (le_bytes 4 v) q1 b1 -> Q 0 (q1, (b1, f))) ->
  wp (write_fat fuel c v) Q (q, (b, f)).
Proof using Hg fuel_pos.
  intros Hq Ef Hc HQ. pose proof (geo_bounds g Hg) as (H3 & H4 & _). pose proof (fat_bounds g c Hg Hc) as (H1 & _ & H2).
  pose proof Hc as Hc'. unfold good_clus, MAXSEC in Hc', H3. unfold write_fat.
  destruct (Z.ltb_spec c 2); [lia|]. apply wp_bind, (wp_fat_sec g); [done|done|done|].
  set (n := fat_addr g c / 512). set (off := fat_addr g c mod 512).
  assert (0 <= n < MAXSEC) as Hs by (unfold n, MAXSEC in *; zlia).
  assert (0 <= off /\ off + 4 <= 512) as Hal by (unfold off, fat_addr; zlia).
  apply wp_bind, (wp_bopen _ _ _ _ _ Hq Hs). intros i b1 Ho Hd Hsec.
  apply wp_bind, (wp_fat_off g); [done|done|done|]. apply wp_bind, wp_bdata. rewrite Hd. fold off.
  rewrite fput_sector by lia. apply wp_bind, wp_mret. apply wp_bind, (wp_set_bdata n); [done|].
  intros b2 Ho2 Hd2 Hsec2. apply wp_bind, (wp_bflush n); [done| | |].
  { rewrite Hd2, length_splice_at; rewrite length_sector, ?length_le_bytes; lia. }
  { rewrite Hd2. apply splice_bytes; [rewrite sector_span; apply span_bytes|apply le_bytes_bytes]. }
  intros b3 Ho3 Hd3 Hw Hrest. apply wp_bind, (wp_bclose n); [done|by rewrite Hd3, Hw|].
  intros q4 b4 [S1 S2 S3]. apply wp_mret, HQ. split; [done|done|].
  apply (wrote_same b b3); [|done]. replace (fat_addr g c) with (512 * n + off) by (unfold n, off; zlia).
  apply wrote_sector; [lia|rewrite length_le_bytes; lia|by rewrite Hw, Hd2|].
  intros m Hm Hne. by rewrite Hrest, Hsec2, Hsec by done.
Qed.
End Table.
End Session.

(** * The memory end of a transfer *)

Section Place.
Variables (p : nat).

(** The [n] bytes at a memory end can be accessed: they are at [base]. *)
Definition pwin (q : pst) (pl : place) (n base : Z) : Prop :=
  match pl with
  | At user addr => uwin user p q addr n base /\ 0 <= addr /\ addr + n < 2 ^ 64
  | Local bs => n <= Z.of_nat (length bs)
  end.
(** The bytes there; and the two sides of the state with [bs] put there. *)
Definition pget (q : pst) (pl : place) (base n : Z) : list Z :=
  match pl with At _ _ => read_bytes (view mem_l q) base n | Local bs => take (Z.to_nat n) bs end.
Definition qput (q : pst) (pl : place) (base : Z) (bs : list Z) : pst :=
  match pl with At _ _ => wmem q base bs | Local _ => q end.
Definition pput (pl : place) (bs : list Z) : place :=
  match pl with At _ _ => pl | Local old => Local (splice old 0 bs) end.

Lemma pput_nil pl : pput pl [] = pl.
Proof using Type. destruct pl; [done|]. cbn [pput]. unfold splice. cbn. by rewrite drop_0. Qed.
Lemma qput_nil q pl base : qput q pl base [] = q.
Proof using Type. destruct pl; [apply wmem_nil|done]. Qed.
Lemma same_env_mem q q' : same_env p q q' -> view mem_l q' = view mem_l q.
Proof using Type. intros [H _ _ _]. change (k_mem (view s_k_l q') = k_mem (view s_k_l q)). by rewrite H. Qed.
Lemma same_env_wmem q q' a bs : same_env p q q' -> same_env p (wmem q a bs) (wmem q' a bs).
Proof using Type.
  intros H. pose proof (same_env_mem _ _ H) as Em. destruct H as [h1 h2 h3 h4]. unfold wmem. rewrite Em. split.
  - unfold mem_l. rewrite !upd_comp, !view_update. by rewrite h1.
  - by destruct q, q'.
  - by destruct q, q'.
  - by destruct q, q'.
Qed.
Lemma uwin_env user q q' va n base : same_env p q q' -> uwin user p q va n base -> uwin user p q' va n base.
Proof using Type.
  intros H. pose proof (same_env_mem _ _ H) as Em. destruct H as [_ _ Ept _]. unfold uwin. by rewrite Em, Ept.
Qed.
Lemma pwin_env q q' pl n base : same_env p q q' -> pwin q pl n base -> pwin q' pl n base.
Proof using Type. intros H. destruct pl; [|done]. intros [Hu Ha]. split; [by apply (uwin_env _ q)|done]. Qed.

Lemma splice_app old l1 l2 : (length l1 + length l2 <= length old)%nat ->
  splice (splice old 0 l1) (Z.of_nat (length l1)) l2 = splice old 0 (l1 ++ l2).
Proof using Type.
  intros H. unfold splice. rewrite Nat2Z.id. change (Z.to_nat 0) with O. cbn [take app Nat.add].
  rewrite !take_0. cbn [app].
  rewrite take_app_length, drop_app_ge, drop_drop by lia.
  rewrite length_app, <- app_assoc. do 3 f_equal. lia.
Qed.

(** Putting more bytes behind those put so far. *)
Lemma wp_place_out q q1 b f pl n base done_ bs (Q : Z * place -> fss -> Prop) :
  pwin q pl n base -> runs p q1 -> same_env p (qput q pl base done_) q1 ->
  Z.of_nat (length done_) + Z.of_nat (length bs) <= n ->
  (forall q2, runs p q2 -> p_pid (view (proc_l p) q2) = p_pid (view (proc_l p) q1) ->
     same_env p (qput q pl base (done_ ++ bs)) q2 ->
     Q (0, pput pl (done_ ++ bs)) (q2, (b, f))) ->
  wp (place_out (pput pl done_) (Z.of_nat (length done_)) bs) Q (q1, (b, f)).
Proof using Type.
  intros Hw Hr He Hn HQ. destruct pl as [user addr|old]; cbn [place_out pput qput pwin] in *.
  - destruct Hw as (Hu & Ha & Hb). change (2 ^ 64) with 18446744073709551616 in Hb.
    assert (uwin user p q1 addr n base) as Hu1.
    { apply (uwin_env _ _ _ _ _ _ He). apply uwin_wmem; [done|lia|lia]. }
    rewrite u64_small by lia. set (k := Z.of_nat (length done_)) in *.
    apply wp_bind, wp_zoom. cbn [fst_l view update fst snd].
    eapply wp_eq; [apply (copyout_at user p q1 addr n base k bs); [by apply cur_runs|done|lia|lia]|].
    apply wp_mret. apply HQ; [by apply runs_wmem|by destruct q1|].
    rewrite <- wmem_app. by apply same_env_wmem.
  - apply wp_mret. rewrite splice_app by lia. by apply HQ.
Qed.

(** Taking the next bytes. *)
Lemma wp_place_in q q1 b f pl n base tot m (Q : Z * list Z -> fss -> Prop) :
  pwin q pl n base -> runs p q1 -> same_env p q q1 -> 0 <= tot -> 0 <= m -> tot + m <= n ->
  Q (0, slice (pget q pl base n) tot m) (q1, (b, f)) ->
  wp (place_in pl tot m) Q (q1, (b, f)).
Proof using Type.
  intros Hw Hr He Ht Hm Hn HQ. destruct pl as [user addr|bs]; cbn [place_in pget pwin] in *.
  - destruct Hw as (Hu & Ha & Hb). change (2 ^ 64) with 18446744073709551616 in Hb.
    rewrite u64_small by lia. apply wp_zoom. cbn [fst_l view update fst snd].
    eapply wp_eq; [apply (copyin_at user p q1 addr n base tot m); [by apply cur_runs|by apply (uwin_env _ q)|lia..]|].
    rewrite (same_env_mem _ _ He). replace (slice _ tot m) with (read_bytes (view mem_l q) (base + tot) m) in HQ; [done|].
    unfold slice. replace n with (tot + (m + (n - tot - m))) by lia.
    rewrite read_bytes_app, drop_app_length' by (rewrite ?length_read_bytes; lia).
    rewrite read_bytes_app, take_app_length' by (rewrite ?length_read_bytes; lia). done.
  - apply wp_mret. replace (slice (take _ bs) tot m) with (slice bs tot m) in HQ; [done|].
    unfold slice. rewrite skipn_firstn_comm, take_take. f_equal. lia.
Qed.
Lemma length_pget q pl base n : 0 <= n -> pwin q pl n base -> length (pget q pl base n) = Z.to_nat n.
Proof using Type.
  intros H0. destruct pl; cbn [pwin pget]; [intros _; apply length_read_bytes|rewrite length_take; lia].
Qed.
End Place.

(** * [rw_clus] *)

Definition step_len (A n tot : Z) : Z := Z.min (512 - (A + tot) mod 512) (n - tot).
Lemma step_len_eq A n tot : 0 <= tot -> tot < n ->
  (let m := BSIZE - (A mod 512 + tot) mod BSIZE in if n - tot <? m then n - tot else m) = step_len A n tot
  /\ 0 < step_len A n tot <= n - tot /\ (A mod 512 + tot) mod BSIZE = (A + tot) mod 512
  /\ (A + tot) mod 512 + step_len A n tot <= 512
  /\ (tot + step_len A n tot < n -> (A + tot + step_len A n tot) / 512 = (A + tot) / 512 + 1).
Proof.
  intros Ht Hlt. change BSIZE with 512. unfold step_len.
  assert ((A mod 512 + tot) mod 512 = (A + tot) mod 512) as -> by zlia.
  cbv zeta. destruct (Z.ltb_spec (n - tot) (512 - (A + tot) mod 512)); zlia.
Qed.

Lemma wp_first_sec g c q b f (Q : Z -> fss -> Prop) : geo_ok g -> fs_fat f = g -> good_clus g c ->
  Q (clus_addr g c / 512) (q, (b, f)) -> wp (first_sec_of_clus c) Q (q, (b, f)).
Proof.
  intros Hg Ef Hc HQ. unfold first_sec_of_clus. apply wp_bind, (wp_geo g); [done|].
  rewrite (clus_valid g) by done. apply wp_mret.
  pose proof (clus_bounds g c Hg Hc) as (H1 & H2 & H3). pose proof (geo_bounds g Hg) as (H4 & _ & H5 & _).
  destruct Hg as [Hb [? ?] Hbpc Hcnt ? ? ? ?]. unfold clus_addr, good_clus, MAXSEC in *.
  replace (u32 (u32 (u32 (c - 2) * sec_per_clus g) + first_data_sec g))
    with (512 * (first_data_sec g + (c - 2) * sec_per_clus g) / 512); [done|].
  rewrite Z.mul_comm, Z.div_mul by lia. rewrite (u32_small (c - 2)) by lia.
  rewrite (u32_small ((c - 2) * _)) by nia. rewrite u32_small by nia. lia.
Qed.

Lemma clus_range g c off n : geo_ok g -> good_clus g c -> 0 <= off -> off + n <= byts_per_clus g ->
  0 <= clus_addr g c + off /\ clus_addr g c + off + n <= 512 * MAXSEC.
Proof. intros Hg Hc Ho Hle. pose proof (clus_bounds g c Hg Hc). lia. Qed.


Section Cluster.
Variables (p fuel : nat) (g : fat).
Hypothesis fuel_pos : (0 < fuel)%nat.
Hypothesis Hg : geo_ok g.

Section Loop.
(** [n] bytes from [A] on, to or from [pl]. *)
Variables (A n base : Z) (pl : place) (q : pst) (b : bio) (f : fsys).
Hypothesis HA : 0 <= A.
Hypothesis Hn : 0 <= n < 2 ^ 31.
Hypothesis Hend : A + n <= 512 * MAXSEC.
Hypothesis Hw : pwin p q pl n base.

Definition read_inv '((tot, off, sec, pl1) : Z * Z * Z * place) '((q1, (b1, f1)) : fss) : Prop :=
  f1 = f /\ 0 <= tot <= n /\ off = A mod 512 + tot /\ (tot < n -> sec = (A + tot) / 512)
  /\ quiescent 0 p (q1, b1) /\ (forall m, sector b1 m = sector b m)
  /\ same_env p (qput q pl base (span b A tot)) q1 /\ pl1 = pput pl (span b A tot).

Lemma rw_read_turn v s : read_inv v s ->
  wp (rw_turn fuel 0 n v) (fun r s' => match r with
    | inl v' => read_inv v' s' /\ (Z.to_nat (n - v'.1.1.1) < Z.to_nat (n - v.1.1.1))%nat
    | inr (k, pl1) => exists q1 b1, s' = (q1, (b1, f)) /\ k = n /\ pl1 = pput pl (span b A n)
        /\ quiescent 0 p (q1, b1) /\ (forall m, sector b1 m = sector b m)
        /\ same_env p (qput q pl base (span b A n)) q1
    end) s.
Proof using All.
  destruct v as [[[tot off] sec] pl1], s as [q1 [b1 f1]].
  intros (-> & Ht & -> & Hs & Hq & Hsec & Henv & ->). unfold rw_turn.
  destruct (Z.ltb_spec tot n) as [Hlt|Hge]; cbn [negb].
  2:{ apply wp_mret. exists q1, b1. replace tot with n in * by lia. done. }
  rewrite (Hs Hlt). destruct (step_len_eq A n tot ltac:(lia) Hlt) as (Em & Hm & Eo & Hfit & Hnext).
  assert (0 <= (A + tot) / 512 < MAXSEC) as Hr by (unfold MAXSEC in *; zlia).
  apply wp_bind, (wp_bopen p fuel fuel_pos _ _ _ _ _ Hq Hr). intros i b2 Ho Hd Hsec2.
  cbv zeta in Em |- *. rewrite Em, Eo. apply wp_bind, wp_bdata. rewrite Hd, Hsec.
  change (truth 0) with false. cbn match. rewrite slice_sector by zlia.
  replace (512 * ((A + tot) / 512) + (A + tot) mod 512) with (A + tot) by zlia.
  pose proof Ho as (Hrun & _). cbn [fst] in Hrun.
  apply wp_bind.
  replace (place_out (pput pl (span b A tot)) tot) with (place_out (pput pl (span b A tot)) (Z.of_nat (length (span b A tot))))
    by (f_equal; rewrite length_span; lia).
  apply (wp_place_out p q q1 b2 f pl n base (span b A tot)); [done|done|done|rewrite !length_span; lia|].
  intros q2 Hrun2 Hpid Henv2. rewrite <- span_app in * by lia.
  apply wp_bind, (wp_bclose p ((A + tot) / 512) i q2 b2).
  { by apply (opened_env 0 p _ i q1). }
  { by rewrite Hd, Hsec2. }
  intros q3 b3 [S1 S2 S3]. change (0 =? -1) with false. cbn match. apply wp_mret. cbn [fst snd].
  split; [|lia]. split; [done|]. split; [lia|]. split.
  { rewrite u32_small; [lia|]. unfold MAXSEC in *. zlia. }
  split. { intros Hlt2. rewrite u32_small by (unfold MAXSEC in *; lia). rewrite Z.add_assoc. symmetry. by apply Hnext. }
  split; [done|]. split; [intros m; by rewrite S3, Hsec2, Hsec|]. split; [by etrans|done].
Qed.

Definition src : list Z := pget q pl base n.
Definition write_inv '((tot, off, sec, pl1) : Z * Z * Z * place) '((q1, (b1, f1)) : fss) : Prop :=
  f1 = f /\ 0 <= tot <= n /\ off = A mod 512 + tot /\ (tot < n -> sec = (A + tot) / 512)
  /\ quiescent 0 p (q1, b1) /\ wrote b b1 A (take (Z.to_nat tot) src)
  /\ same_env p q q1 /\ pl1 = pl.

Lemma rw_write_turn v s : bytes src -> write_inv v s ->
  wp (rw_turn fuel 1 n v) (fun r s' => match r with
    | inl v' => write_inv v' s' /\ (Z.to_nat (n - v'.1.1.1) < Z.to_nat (n - v.1.1.1))%nat
    | inr (k, pl1) => exists q1 b1, s' = (q1, (b1, f)) /\ k = n /\ pl1 = pl
        /\ quiescent 0 p (q1, b1) /\ wrote b b1 A src /\ same_env p q q1
    end) s.
Proof using All.
  pose proof (length_pget p q pl base n (proj1 Hn) Hw) as Hsl. fold src in Hsl. intros Hby.
  destruct v as [[[tot off] sec] pl1], s as [q1 [b1 f1]].
  intros (-> & Ht & -> & Hs & Hq & Hwr & Henv & ->). unfold rw_turn.
  destruct (Z.ltb_spec tot n) as [Hlt|Hge]; cbn [negb].
  2:{ apply wp_mret. exists q1, b1. replace tot with n in * by lia.
      rewrite take_ge in Hwr by lia. done. }
  rewrite (Hs Hlt). destruct (step_len_eq A n tot ltac:(lia) Hlt) as (Em & Hm & Eo & Hfit & Hnext).
  set (N := (A + tot) / 512) in *.
  assert (0 <= N < MAXSEC) as Hr by (unfold N, MAXSEC in *; zlia).
  apply wp_bind, (wp_bopen p fuel fuel_pos _ _ _ _ _ Hq Hr). intros i b2 Ho Hd Hsec2.
  cbv zeta in Em |- *. rewrite Em, Eo. apply wp_bind, wp_bdata. rewrite Hd.
  change (truth 1) with true. cbn match. pose proof Ho as (Hrun & _). cbn [fst] in Hrun.
  apply wp_bind, wp_bind, (wp_place_in p q q1 b2 f pl n base); [done|done|done|lia|lia|lia|].
  fold src. set (bs := slice src tot (step_len A n tot)).
  assert (length bs = Z.to_nat (step_len A n tot)) as Hbl by (unfold bs, slice; rewrite length_take, length_drop; lia).
  apply wp_bind, (wp_set_bdata p N i _ _ _ _ _ Ho). intros b3 Ho3 Hd3 Hsec3.
  apply wp_bind. change (negb (0 =? -1)) with true. unfold when.
  apply (wp_bflush p N i _ _ _ _ Ho3).
  { rewrite Hd3, length_splice_at; rewrite length_sector, ?Hbl; zlia. }
  { rewrite Hd3. apply splice_bytes; [rewrite sector_span; apply span_bytes|by apply slice_bytes]. }
  intros b4 Ho4 Hd4 Hw4 Hrest. apply wp_mret.
  apply wp_bind, (wp_bclose p N i _ _ _ _ Ho4); [by rewrite Hd4, Hw4|].
  intros q5 b5 [S1 S2 S3]. change (0 =? -1) with false. cbn match. apply wp_mret. cbn [fst snd].
  split; [|lia]. split; [done|]. split; [lia|]. split.
  { rewrite u32_small; [lia|]. unfold MAXSEC in *. zlia. }
  split. { intros Hlt2. rewrite u32_small by (unfold MAXSEC in *; lia). rewrite Z.add_assoc. symmetry. by apply Hnext. }
  split; [done|]. split; [|split; [by etrans|done]].
  apply (wrote_same b b4); [|done].
  replace (take (Z.to_nat (tot + step_len A n tot)) src) with (take (Z.to_nat tot) src ++ bs).
  2:{ unfold bs, slice. rewrite take_take_drop. f_equal. lia. }
  apply (wrote_app b b1); [done|]. rewrite length_take.
  replace (A + Z.of_nat (Z.to_nat tot `min` length src)) with (512 * N + (A + tot) mod 512) by (unfold N; zlia).
  apply wrote_sector; [zlia|rewrite Hbl; zlia|by rewrite Hw4, Hd3|].
  intros m Hm1 Hne. by rewrite Hrest, Hsec3, Hsec2 by done.
Qed.
End Loop.

(** The head of [rw_clus]. *)
Lemma wp_rw_clus c write pl off n q b f (Q : Z * place -> fss -> Prop) :
  fs_fat f = g -> good_clus g c -> 0 <= off -> 0 <= n -> off + n <= byts_per_clus g ->
  let A := clus_addr g c + off in
  wp (loop (S (Z.to_nat n)) (0, A mod 512, A / 512, pl) (rw_turn fuel write n)) Q (q, (b, f)) ->
  wp (rw_clus fuel c write pl off n) Q (q, (b, f)).
Proof using All.
  intros Ef Hc Ho Hn Hle A HQ. unfold rw_clus. apply wp_bind, (wp_geo g); [done|].
  pose proof (clus_bounds g c Hg Hc) as (H1 & H2 & H3).
  assert (byts_per_clus g < 2 ^ 17) as Hbpc by (destruct Hg; lia).
  rewrite u32_small by lia. destruct (Z.ltb_spec (byts_per_clus g) (off + n)); [lia|].
  apply wp_bind, (wp_first_sec g); [done|done|done|]. apply wp_bind.
  apply wp_udiv; [rewrite (go_bps _ Hg); lia|]. rewrite (go_bps _ Hg).
  replace (off mod 512) with (A mod 512) by (unfold A, clus_addr; zlia).
  replace (u32 (clus_addr g c / 512 + off / 512)) with (A / 512); [done|].
  rewrite u32_small by (unfold MAXSEC in *; zlia). unfold A, clus_addr. zlia.
Qed.

(** Reading [n] bytes at [off] of a cluster. *)
Lemma wp_rw_read c pl off n base q b f (Q : Z * place -> fss -> Prop) :
  quiescent 0 p (q, b) -> fs_fat f = g -> good_clus g c -> 0 <= off -> 0 <= n ->
  off + n <= byts_per_clus g -> pwin p q pl n base ->
  (forall q1 b1, quiescent 0 p (q1, b1) -> (forall m, sector b1 m = sector b m) ->
     same_env p (qput q pl base (span b (clus_addr g c + off) n)) q1 ->
     Q (n, pput pl (span b (clus_addr g c + off) n)) (q1, (b1, f))) ->
  wp (rw_clus fuel c 0 pl off n) Q (q, (b, f)).
Proof using All.
  intros Hq Ef Hc Ho Hn Hle Hw HQ. apply wp_rw_clus; [done..|].
  set (A := clus_addr g c + off). destruct (clus_range g c off n Hg Hc Ho Hle) as [HA Hend].
  assert (0 <= n < 2 ^ 31) as Hn31 by (destruct Hg; lia).
  apply (wp_loop _ (read_inv A n base pl q b f) (fun v _ => Z.to_nat (n - v.1.1.1))); [|cbn; lia|].
  - split; [done|]. split; [lia|]. split; [lia|]. split; [intros _; by rewrite Z.add_0_r|].
    split; [done|]. split; [done|]. change (span b A 0) with (@nil Z).
    rewrite pput_nil. split; [by rewrite qput_nil|done].
  - intros v s Hi. eapply wp_mono; [by apply (rw_read_turn A n base pl q b f)|].
    intros [v'|[k pl1]] s'; [done|]. intros (q1 & b1 & -> & -> & -> & Hq1 & Hs1 & He1). by apply HQ.
Qed.

(** Writing [n] bytes at [off] of a cluster. *)
Lemma wp_rw_write c pl off n base q b f (Q : Z * place -> fss -> Prop) :
  quiescent 0 p (q, b) -> fs_fat f = g -> good_clus g c -> 0 <= off -> 0 <= n ->
  off + n <= byts_per_clus g -> pwin p q pl n base -> bytes (pget q pl base n) ->
  (forall q1 b1, wrote_at p q b (clus_addr g c + off) (pget q pl base n) q1 b1 -> Q (n, pl) (q1, (b1, f))) ->
  wp (rw_clus fuel c 1 pl off n) Q (q, (b, f)).
Proof using All.
  intros Hq Ef Hc Ho Hn Hle Hw Hby HQ. apply wp_rw_clus; [done..|].
  set (A := clus_addr g c + off). destruct (clus_range g c off n Hg Hc Ho Hle) as [HA Hend].
  assert (0 <= n < 2 ^ 31) as Hn31 by (destruct Hg; lia).
  apply (wp_loop _ (write_inv A n base pl q b f) (fun v _ => Z.to_nat (n - v.1.1.1))); [|cbn; lia|].
  - split; [done|]. split; [lia|]. split; [lia|]. split; [intros _; by rewrite Z.add_0_r|].
    split; [done|]. split; [by apply wrote_nil|done].
  - intros v s Hi. eapply wp_mono; [by apply (rw_write_turn A n base pl q b f)|].
    intros [v'|[k pl1]] s'; [done|]. intros (q1 & b1 & -> & -> & -> & Hq1 & Hs1 & He1). by apply HQ.
Qed.
End Cluster.

(** * One entry of the file system changes *)

Record fs_upd (e : nat) (d : dirent) (f f' : fsys) : Prop := {
  fu_geo : fs_fat f' = fs_fat f;
  fu_lock : ec_lock f' = ec_lock f;
  fu_ent : view (ent_l e) f' = d;
  fu_rest : forall j, j <> e -> view (ent_l j) f' = view (ent_l j) f
}.
Lemma fs_upd_refl e f : fs_upd e (view (ent_l e) f) f f.
Proof. by split. Qed.
Lemma fs_upd_set {T} (L : lens dirent T) v e d f f1 : fs_upd e d f f1 ->
  fs_upd e (update L v d) f (update (ent_l e ⊚ L) v f1).
Proof.
  intros [h1 h2 h3 h4]. split; [done|done| |].
  - rewrite upd_comp, view_update. by rewrite h3.
  - intros j Hj. rewrite <- h4 by done. unfold ent_l at 1 2. rewrite !view_comp. cbn.
    by rewrite lookup_insert_ne.
Qed.
Lemma fs_upd_trans e d d' f f1 f2 : fs_upd e d f f1 -> fs_upd e d' f1 f2 -> fs_upd e d' f f2.
Proof. intros [a b c d0] [a' b' c' d0']. split; [by etrans|by etrans|done|]. intros j Hj. by rewrite d0', d0. Qed.

Lemma wp_ent_rd {T} (L : lens dirent T) e d q b f f1 (Q : T -> fss -> Prop) : fs_upd e d f f1 ->
  Q (view L d) (q, (b, f1)) -> wp (rd (ent e ⊚ L)) Q (q, (b, f1)).
Proof. intros [_ _ <- _] HQ. exact HQ. Qed.
Lemma wp_ent e d q b f f1 (Q : dirent -> fss -> Prop) : fs_upd e d f f1 ->
  Q d (q, (b, f1)) -> wp (rd (ent e)) Q (q, (b, f1)).
Proof. intros [_ _ <- _] HQ. exact HQ. Qed.
Lemma wp_ent_wr {T} (L : lens dirent T) v e d q b f f1 (Q : unit -> fss -> Prop) : fs_upd e d f f1 ->
  (forall f2, fs_upd e (update L v d) f f2 -> Q tt (q, (b, f2))) -> wp (ent e ⊚ L <~ v) Q (q, (b, f1)).
Proof. intros Hf HQ. apply wp_wr. apply (HQ _ (fs_upd_set L v e d f f1 Hf)). Qed.
Lemma wp_ent_md {T} (L : lens dirent T) h e d q b f f1 (Q : unit -> fss -> Prop) : fs_upd e d f f1 ->
  (forall f2, fs_upd e (update L (h (view L d)) d) f f2 -> Q tt (q, (b, f2))) ->
  wp (md (ent e ⊚ L) h) Q (q, (b, f1)).
Proof.
  intros Hf HQ. apply wp_md. pose proof (fs_upd_set L (h (view L d)) e d f f1 Hf) as H.
  destruct Hf as [_ _ E _]. rewrite view_comp.
  replace (view L (view (ent e) (q, (b, f1)))) with (view L d) by (by rewrite <- E). apply (HQ _ H).
Qed.

(** * Chains *)

(** The entry stands at cluster [c], the [k]th of its chain. *)
Definition repos (c k : Z) (d : dirent) : dirent := update d_clus_cnt_l k (update d_cur_clus_l c d).
Lemma repos_repos c k c' k' d : repos c k (repos c' k' d) = repos c k d.
Proof. done. Qed.
Lemma repos_id d : repos (d_cur_clus d) (d_clus_cnt d) d = d.
Proof. by destruct d. Qed.

Section Chain.
Variables (g : fat).

(** The clusters of a file, linked by the table. *)
Record chain (b : bio) (l : list Z) : Prop := {
  ch_good : Forall (good_clus g) l;
  ch_link : forall i x y, l !! i = Some x -> l !! S i = Some y -> entry_of g b x = y
}.
(** An entry of that file. *)
Record on_chain (l : list Z) (d : dirent) : Prop := {
  oc_first : l !! O = Some (d_first_clus d);
  oc_pos : 0 <= d_clus_cnt d;
  oc_cur : l !! Z.to_nat (d_clus_cnt d) = Some (d_cur_clus d)
}.

Lemma on_chain_repos l d k c : on_chain l d -> 0 <= k -> l !! Z.to_nat k = Some c -> on_chain l (repos c k d).
Proof. intros [h1 h2 h3] Hk Hc. by split. Qed.
Lemma entry_same b b' c : (forall m, sector b' m = sector b m) -> entry_of g b' c = entry_of g b c.
Proof. intros H. unfold entry_of, word. f_equal. apply span_ext. intros x _. by apply disk_same. Qed.
Lemma chain_same b b' l : (forall m, sector b' m = sector b m) -> chain b l -> chain b' l.
Proof. intros H [h1 h2]. split; [done|]. intros i x y Hx Hy. rewrite (entry_same b) by done. by apply (h2 i). Qed.

Definition bpc : Z := byts_per_clus g.
(** Byte [o] of the file whose clusters are [l], and [n] bytes from [o] on. *)
Definition fbyte (b : bio) (l : list Z) (o : Z) : Z :=
  disk b (clus_addr g (nth (Z.to_nat (o / bpc)) l 0) + o mod bpc).
Definition fspan (b : bio) (l : list Z) (o n : Z) : list Z := map (fbyte b l) (seqZ o n).

Lemma length_fspan b l o n : length (fspan b l o n) = Z.to_nat n.
Proof. unfold fspan. by rewrite length_map, length_seqZ. Qed.
Lemma fspan_app b l o n k : 0 <= n -> 0 <= k -> fspan b l o (n + k) = fspan b l o n ++ fspan b l (o + n) k.
Proof. intros Hn Hk. unfold fspan. by rewrite seqZ_app, map_app by done. Qed.
Lemma fspan_same b b' l o n : (forall m, sector b' m = sector b m) -> fspan b' l o n = fspan b l o n.
Proof. intros H. unfold fspan. apply map_ext. intros x. unfold fbyte. by apply disk_same. Qed.
(** Within a cluster the bytes of a file are those of the volume. *)
Lemma fspan_span b l o n c : 0 < bpc -> 0 <= o -> 0 <= n -> o mod bpc + n <= bpc ->
  l !! Z.to_nat (o / bpc) = Some c -> fspan b l o n = span b (clus_addr g c + o mod bpc) n.
Proof.
  intros Hb Ho Hn Hle Hc. unfold fspan, span.
  assert (forall A, seqZ A n = map (fun i => A + i) (seqZ 0 n)) as Hseq.
  { intros A. rewrite <- (Z.add_0_r A) at 1. by rewrite <- (fmap_add_seqZ A 0 n). }
  rewrite (Hseq o), (Hseq (_ + _)), !map_map. apply map_ext_in. intros i Hi. apply seqZ_In in Hi. unfold fbyte.
  pose proof (Z.div_mod o bpc ltac:(lia)) as Hdm.
  assert ((o + i) / bpc = o / bpc /\ (o + i) mod bpc = o mod bpc + i) as [-> ->].
  { replace (o + i) with (o mod bpc + i + (o / bpc) * bpc) by lia.
    rewrite Z.div_add, Z.mod_add by lia. pose proof (Z.mod_pos_bound o bpc Hb).
    rewrite (Z.div_small (o mod bpc + i)), (Z.mod_small (o mod bpc + i)) by lia. lia. }
  rewrite nth_lookup, Hc. cbn. by rewrite Z.add_assoc.
Qed.
End Chain.

Lemma good_small g c : geo_ok g -> good_clus g c -> 2 <= c < FAT32_BAD /\ s32 c = c /\ u32 c = c.
Proof.
  intros Hg Hc. pose proof (geo_bounds g Hg) as [H _]. unfold good_clus, MAXSEC, FAT32_BAD in *.
  split; [lia|]. split; [apply s32_small; lia|apply u32_small; lia].
Qed.

Section Reloc.
Variables (p fuel : nat) (g : fat).
Hypothesis fuel_pos : (0 < fuel)%nat.
Hypothesis Hg : geo_ok g.

Section Walk.
Variables (e : nat) (l : list Z) (K : Z) (d : dirent) (q : pst) (b : bio) (f : fsys).
Hypothesis Hf : fs_fat f = g.
Hypothesis Hch : chain g b l.
Hypothesis HK : 0 <= K < Z.of_nat (length l).
Hypothesis Hlen : Z.of_nat (length l) < 2 ^ 31.

Definition walk_inv '((q1, (b1, f1)) : fss) : Prop :=
  exists k c, 0 <= k <= K /\ l !! Z.to_nat k = Some c /\ fs_upd e (repos c k d) f f1 /\ still p q b q1 b1.
Definition walk_left (s : fss) : nat := Z.to_nat (K - d_clus_cnt (view (ent_l e) (snd (snd s)))).
Definition walked (s' : fss) : Prop :=
  exists q1 b1 f1 c, s' = (q1, (b1, f1)) /\ l !! Z.to_nat K = Some c /\ fs_upd e (repos c K d) f f1 /\ still p q b q1 b1.

(** The step from a cluster of the chain to the next. *)
Lemma next_clus k c : 0 <= k < K -> l !! Z.to_nat k = Some c ->
  good_clus g c /\ exists c', l !! Z.to_nat (k + 1) = Some c' /\ good_clus g c' /\ entry_of g b c = c'.
Proof using All.
  intros Hk Hc. destruct Hch as [Hgd Hl]. split; [by apply (Forall_lookup_1 _ _ _ _ Hgd Hc)|].
  destruct (lookup_lt_is_Some_2 l (Z.to_nat (k + 1)) ltac:(lia)) as [c' Hc']. exists c'. split; [done|].
  split; [by apply (Forall_lookup_1 _ _ _ _ Hgd Hc')|]. apply (Hl (Z.to_nat k)); [done|].
  by replace (S (Z.to_nat k)) with (Z.to_nat (k + 1)) by lia.
Qed.

Lemma wp_grow alloc s : walk_inv s ->
  wp (grow_turn fuel e K alloc) (fun r s' => match r with
    | inl _ => walk_inv s' /\ (walk_left s' < walk_left s)%nat
    | inr r => r = None /\ walked s' end) s.
Proof using All.
  destruct s as [q1 [b1 f1]]. intros (k & c & Hk & Hc & Hu & Hs). unfold grow_turn.
  apply wp_bind, (wp_ent e _ _ _ _ _ _ Hu). change (d_clus_cnt (repos c k d)) with k.
  change (d_cur_clus (repos c k d)) with c.
  assert (walk_left (q1, (b1, f1)) = Z.to_nat (K - k)) as El
    by (unfold walk_left; cbn [snd]; by rewrite (fu_ent _ _ _ _ Hu)).
  destruct (Z.ltb_spec k K) as [Hlt|Hge]; cbn [negb].
  2:{ apply wp_mret. split; [done|]. replace k with K in * by lia. by exists q1, b1, f1, c. }
  destruct (next_clus k c ltac:(lia) Hc) as (Hgc & c' & Hc' & Hgc' & Hent).
  apply wp_bind, (wp_read_fat p fuel fuel_pos g Hg c q1 b1 f1);
    [apply Hs|by rewrite (fu_geo _ _ _ _ Hu)|done|].
  intros q2 b2 Hs2. rewrite (entry_same g b b1 c (st_sec _ _ _ _ _ Hs)), Hent.
  destruct (good_small g c' Hg Hgc') as (Hr & Hs32 & Hu32). rewrite Hs32.
  destruct (Z.leb_spec FAT32_EOC c'); [unfold FAT32_EOC, FAT32_BAD in *; lia|].
  destruct (Z.eqb_spec c' FAT32_BAD); [lia|]. rewrite Hu32.
  apply wp_bind, (wp_ent_wr d_cur_clus_l c' e _ _ _ _ _ _ Hu). intros f2 Hu2.
  apply wp_bind, (wp_ent_md d_clus_cnt_l _ e _ _ _ _ _ _ Hu2). intros f3 Hu3.
  apply wp_mret. split.
  - exists (k + 1), c'. split; [lia|]. split; [done|]. split; [|by apply (still_trans p q b q1 b1)].
    replace (u32 _) with (k + 1) in Hu3; [exact Hu3|]. symmetry. apply (u32_small (k + 1)). lia.
  - rewrite El. unfold walk_left. cbn [snd]. rewrite (fu_ent _ _ _ _ Hu3). cbn.
    rewrite u32_small by lia. lia.
Qed.

Lemma wp_seek s : walk_inv s ->
  wp (seek_turn fuel e K) (fun r s' => match r with
    | inl _ => walk_inv s' /\ (walk_left s' < walk_left s)%nat
    | inr _ => walked s' end) s.
Proof using All.
  destruct s as [q1 [b1 f1]]. intros (k & c & Hk & Hc & Hu & Hs). unfold seek_turn.
  apply wp_bind, (wp_ent e _ _ _ _ _ _ Hu). change (d_clus_cnt (repos c k d)) with k.
  change (d_cur_clus (repos c k d)) with c.
  assert (walk_left (q1, (b1, f1)) = Z.to_nat (K - k)) as El
    by (unfold walk_left; cbn [snd]; by rewrite (fu_ent _ _ _ _ Hu)).
  destruct (Z.ltb_spec k K) as [Hlt|Hge]; cbn [negb].
  2:{ apply wp_mret. replace k with K in * by lia. by exists q1, b1, f1, c. }
  destruct (next_clus k c ltac:(lia) Hc) as (Hgc & c' & Hc' & Hgc' & Hent).
  apply wp_bind, (wp_read_fat p fuel fuel_pos g Hg c q1 b1 f1);
    [apply Hs|by rewrite (fu_geo _ _ _ _ Hu)|done|].
  intros q2 b2 Hs2. rewrite (entry_same g b b1 c (st_sec _ _ _ _ _ Hs)), Hent.
  destruct (good_small g c' Hg Hgc') as (Hr & _ & _).
  apply wp_bind, (wp_ent_wr d_cur_clus_l c' e _ _ _ _ _ _ Hu). intros f2 Hu2.
  destruct (Z.leb_spec FAT32_EOC c'); [unfold FAT32_EOC, FAT32_BAD in *; lia|].
  apply wp_bind, (wp_ent_md d_clus_cnt_l _ e _ _ _ _ _ _ Hu2). intros f3 Hu3.
  apply wp_mret. split.
  - exists (k + 1), c'. split; [lia|]. split; [done|]. split; [|by apply (still_trans p q b q1 b1)].
    replace (u32 _) with (k + 1) in Hu3; [exact Hu3|]. symmetry. apply (u32_small (k + 1)). lia.
  - rewrite El. unfold walk_left. cbn [snd]. rewrite (fu_ent _ _ _ _ Hu3). cbn.
    rewrite u32_small by lia. lia.
Qed.
End Walk.

Lemma wp_reloc e off alloc l q b f (Q : Z -> fss -> Prop) :
  quiescent 0 p (q, b) -> fs_fat f = g -> chain g b l -> on_chain l (view (ent_l e) f) ->
  Z.of_nat (length l) < 2 ^ 31 -> 0 <= off -> off / bpc g < Z.of_nat (length l) ->
  (forall q1 b1 f1 c, still p q b q1 b1 -> l !! Z.to_nat (off / bpc g) = Some c ->
     fs_upd e (repos c (off / bpc g) (view (ent_l e) f)) f f1 -> Q (off mod bpc g) (q1, (b1, f1))) ->
  wp (reloc_clus fuel e off alloc) Q (q, (b, f)).
Proof using All.
  intros Hq Ef Hch Hon Hlen Ho HK HQ. set (K := off / bpc g) in *. set (d := view (ent_l e) f) in *.
  assert (0 < bpc g < 2 ^ 17) as Hb by (unfold bpc; destruct Hg; lia).
  assert (0 <= K) as HK0 by (apply Z.div_pos; lia).
  unfold reloc_clus. apply wp_bind, (wp_geo g); [done|]. apply wp_bind, wp_udiv; [unfold bpc in Hb; lia|].
  fold (bpc g). fold K. rewrite s32_small, u32_small by lia.
  pose proof (fs_upd_refl e f) as Hu0. fold d in Hu0.
  apply wp_bind, (wp_ent_rd d_clus_cnt_l e _ _ _ _ _ _ Hu0).
  change (view d_clus_cnt_l d) with (d_clus_cnt d). destruct Hon as [Hon1 Hon2 Hon3].
  assert (forall s', walked e l K d q b f s' -> wp (r ← umod off (byts_per_clus g); mret (s32 r)) Q s') as Hend.
  { intros s' (q1 & b1 & f1 & c & -> & Hc & Hu & Hs). apply wp_bind, wp_umod; [unfold bpc in Hb; lia|].
    fold (bpc g). apply wp_mret. pose proof (Z.mod_pos_bound off (bpc g)).
    rewrite s32_small by lia. by apply (HQ q1 b1 f1 c). }
  apply wp_bind. destruct (decide (d_clus_cnt d <= K)) as [Hle|Hgt].
  - apply (wp_loop _ (fun _ s => walk_inv e l K d q b f s) (fun _ s => walk_left e K s)).
    + exists (d_clus_cnt d), (d_cur_clus d). rewrite repos_id.
      split; [lia|]. split; [done|]. split; [done|by apply still_refl].
    + unfold walk_left. cbn [snd]. fold d. lia.
    + intros _ s Hi. eapply wp_mono; [by apply (wp_grow e l K d q b f)|].
      intros [[]|r] s'; [done|]. intros [-> Hw]. pose proof Hw as (q1 & b1 & f1 & c & -> & Hc & Hu & Hs).
      apply wp_bind, (wp_ent_rd d_clus_cnt_l e _ _ _ _ _ _ Hu). change (view d_clus_cnt_l (repos c K d)) with K.
      rewrite Z.ltb_irrefl. apply wp_bind, wp_mret. by apply Hend.
  - apply (wp_loop _ (fun _ s => s = (q, (b, f))) (fun _ _ => O)); [done|lia|]. intros _ s ->.
    unfold grow_turn. apply wp_bind, (wp_ent e _ _ _ _ _ _ Hu0).
    destruct (Z.ltb_spec (d_clus_cnt d) K); [lia|]. cbn [negb].
    apply wp_mret. apply wp_bind, (wp_ent_rd d_clus_cnt_l e _ _ _ _ _ _ Hu0).
    change (view d_clus_cnt_l d) with (d_clus_cnt d). destruct (Z.ltb_spec K (d_clus_cnt d)); [|lia].
    unfold when. apply wp_bind, wp_bind, (wp_ent_rd d_first_clus_l e _ _ _ _ _ _ Hu0).
    change (view d_first_clus_l d) with (d_first_clus d).
    apply wp_bind, (wp_ent_wr d_cur_clus_l _ e _ _ _ _ _ _ Hu0). intros f1 Hu1.
    apply wp_bind, (wp_ent_wr d_clus_cnt_l _ e _ _ _ _ _ _ Hu1). intros f2 Hu2.
    apply (wp_loop (fun _ : unit => seek_turn fuel e K) (fun _ s => walk_inv e l K d q b f s) (fun _ s => walk_left e K s)).
    + exists 0, (d_first_clus d). split; [lia|]. split; [done|]. split; [done|by apply still_refl].
    + unfold walk_left. cbn [snd]. rewrite (fu_ent _ _ _ _ Hu2). cbn. lia.
    + intros _ s Hi. eapply wp_mono; [by apply (wp_seek e l K d q b f)|].
      intros [[]|[]] s'; [done|]. apply Hend.
Qed.
End Reloc.

(** * [eread] and [ewrite] *)

Lemma pwin_shift p q pl n base tot m : pwin p q pl n base -> 0 <= tot -> 0 <= m -> tot + m <= n ->
  pwin p q (shift pl tot) m (base + tot).
Proof.
  destruct pl as [user addr|bs]; cbn [pwin shift].
  - change (2 ^ 64) with 18446744073709551616. intros (Hu & Ha & Hb) Ht Hm Hn. rewrite u64_small by lia.
    split; [|lia]. unfold uwin in *. destruct (truth user); [|lia].
    destruct Hu as [x Hx]. exists x. by apply (window_sub _ _ _ _ n).
  - intros Hl Ht Hm Hn. rewrite length_drop. lia.
Qed.
(** The bytes of a part of the memory end. *)
Lemma pget_shift p q pl n base tot m : pwin p q pl n base -> 0 <= tot -> 0 <= m -> tot + m <= n ->
  pget q (shift pl tot) (base + tot) m = slice (pget q pl base n) tot m.
Proof.
  intros Hw Ht Hm Hn. destruct pl as [user addr|bs]; cbn [pget shift]; unfold slice.
  - replace n with (tot + (m + (n - tot - m))) by lia.
    rewrite read_bytes_app, drop_app_length' by (rewrite ?length_read_bytes; lia).
    rewrite read_bytes_app, take_app_length' by (rewrite ?length_read_bytes; lia). done.
  - rewrite skipn_firstn_comm, take_take. f_equal. lia.
Qed.
(** A part delivered behind the part delivered before. *)
Lemma pput_shift p q pl n base l1 l2 : pwin p q pl n base -> Z.of_nat (length l1) + Z.of_nat (length l2) <= n ->
  unshift (pput pl l1) (Z.of_nat (length l1)) (pput (shift (pput pl l1) (Z.of_nat (length l1))) l2) = pput pl (l1 ++ l2).
Proof.
  intros Hw Hl. destruct pl as [user addr|old]; cbn [pput shift unshift pwin] in *; [done|]. f_equal.
  rewrite <- splice_app by lia. unfold splice at 2 4. rewrite Nat2Z.id. change (Z.to_nat 0) with O.
  rewrite take_0, drop_drop. done.
Qed.
Lemma qput_shift p q q1 q2 pl base l1 l2 : same_env p (qput q pl base l1) q1 ->
  same_env p (qput q1 (shift (pput pl l1) (Z.of_nat (length l1))) (base + Z.of_nat (length l1)) l2) q2 ->
  same_env p (qput q pl base (l1 ++ l2)) q2.
Proof.
  intros H1 H2. destruct pl as [user addr|old]; cbn [pput shift qput] in *; [|by etrans].
  etrans; [|exact H2]. rewrite <- wmem_app. by apply same_env_wmem.
Qed.
Lemma pwin_put p q q1 pl n base l : pwin p q pl n base -> same_env p (qput q pl base l) q1 ->
  Z.of_nat (length l) <= n -> pwin p q1 (pput pl l) n base.
Proof.
  destruct pl as [user addr|old]; cbn [pwin pput qput].
  - intros (Hu & Ha) He Hl. split; [|done]. apply (uwin_env _ _ _ _ _ _ _ He). apply uwin_wmem; [done|lia|lia].
  - intros Hl _ Hn. rewrite length_splice_at; lia.
Qed.

(** [bs] written at offset [off] of the file whose clusters are [l]; nothing
    else on the volume changes. *)
Definition fwrote (g : fat) (b b' : bio) (l : list Z) (off : Z) (bs : list Z) : Prop :=
  (forall o, 0 <= o < bpc g * Z.of_nat (length l) -> fbyte g b' l o
     = if decide (off <= o < off + Z.of_nat (length bs)) then nth (Z.to_nat (o - off)) bs 0 else fbyte g b l o)
  /\ (forall x, 0 <= x < 512 * MAXSEC -> (forall c, c ∈ l -> ~ clus_addr g c <= x < clus_addr g c + bpc g) ->
        disk b' x = disk b x).

Lemma fwrote_nil g b b' l off : (forall m, sector b' m = sector b m) -> fwrote g b b' l off [].
Proof.
  intros H. split.
  - intros o Ho. rewrite decide_False by (cbn; lia). unfold fbyte. by apply disk_same.
  - intros x _ _. by apply disk_same.
Qed.
Lemma fwrote_app g b b1 b2 l off l1 l2 : fwrote g b b1 l off l1 ->
  fwrote g b1 b2 l (off + Z.of_nat (length l1)) l2 -> fwrote g b b2 l off (l1 ++ l2).
Proof.
  intros [H1 H1'] [H2 H2']. split.
  - intros x Hx. rewrite H2, H1 by done. rewrite length_app.
    destruct (decide (off + Z.of_nat (length l1) <= x < _)).
    + rewrite decide_True by lia. rewrite app_nth2 by lia. f_equal. lia.
    + destruct (decide (off <= x < _)).
      * rewrite decide_True by lia. by rewrite app_nth1 by lia.
      * by rewrite decide_False by lia.
  - intros x Hx Hc. by rewrite H2', H1'.
Qed.
Lemma fwrote_step g b b' l o bs c : geo_ok g -> Forall (good_clus g) l -> NoDup l -> 0 <= o ->
  o mod bpc g + Z.of_nat (length bs) <= bpc g -> l !! Z.to_nat (o / bpc g) = Some c ->
  wrote b b' (clus_addr g c + o mod bpc g) bs -> fwrote g b b' l o bs.
Proof.
  intros Hg Hgd Hnd Ho Hle Hc Hw. assert (0 < bpc g) as Hb by (unfold bpc; destruct Hg; lia).
  pose proof (Forall_lookup_1 _ _ _ _ Hgd Hc) as Hgc. pose proof (Z.mod_pos_bound o (bpc g) Hb) as Hm.
  split.
  - intros o' Ho'. pose proof (Z.mod_pos_bound o' (bpc g) Hb) as Hm'.
    assert (0 <= o' / bpc g < Z.of_nat (length l)) as Hk'
      by (split; [apply Z.div_pos; lia|apply Z.div_lt_upper_bound; lia]).
    destruct (lookup_lt_is_Some_2 l (Z.to_nat (o' / bpc g)) ltac:(lia)) as [c' Hc'].
    pose proof (Forall_lookup_1 _ _ _ _ Hgd Hc') as Hgc'. unfold fbyte. rewrite nth_lookup, Hc'. cbn [default].
    pose proof (clus_bounds g c' Hg Hgc') as (_ & He & H0). fold (bpc g) in He.
    pose proof (Z.div_mod o (bpc g) ltac:(lia)) as E. pose proof (Z.div_mod o' (bpc g) ltac:(lia)) as E'.
    change (id c') with c'. rewrite Hw by lia. destruct (decide (o' / bpc g = o / bpc g)) as [Eq|Ne].
    + rewrite Eq in Hc', E'. rewrite Hc in Hc'. injection Hc' as <-.
      destruct (decide (clus_addr g c + o mod bpc g <= _ < _)); [rewrite decide_True by lia|by rewrite decide_False by lia].
      f_equal. lia.
    + assert (c' <> c) as Hne.
      { intros ->. apply Ne. apply Z2Nat.inj; [lia|apply Z.div_pos; lia|]. by apply (NoDup_lookup l _ _ c). }
      pose proof (clus_disjoint g c c' Hg Hgc Hgc' ltac:(done)) as Hd. fold (bpc g) in Hd.
      rewrite (decide_False (P := clus_addr g c + o mod bpc g <= _ < _)) by lia.
      rewrite decide_False; [done|]. intros Hin. apply Ne.
      assert (o' / bpc g * bpc g = o / bpc g * bpc g) as Hq; [|nia].
      assert (o / bpc g <= o' / bpc g) by (apply Z.div_le_mono; lia).
      assert (o' / bpc g < o / bpc g + 1) by (apply Z.div_lt_upper_bound; lia). nia.
  - intros x Hx Hout. rewrite Hw by done. rewrite decide_False; [done|].
    intros Hin. apply (Hout c); [by eapply list_elem_of_lookup_2|lia].
Qed.

(** The table is outside every cluster. *)
Lemma fwrote_chain g b b' l l' off bs : geo_ok g -> Forall (good_clus g) l -> fwrote g b b' l off bs ->
  chain g b l' -> chain g b' l'.
Proof.
  intros Hg Hgd [_ Hout] [Hgd' Hl]. split; [done|]. intros i x y Hx Hy. rewrite <- (Hl i x y Hx Hy).
  unfold entry_of, word. f_equal. apply span_ext. intros a Ha.
  pose proof (fat_bounds g x Hg (Forall_lookup_1 _ _ _ _ Hgd' Hx)) as (H0 & H1 & H2).
  apply Hout; [lia|]. intros c Hc Hin. pose proof (proj1 (Forall_forall _ _) Hgd c Hc) as Hgc.
  unfold clus_addr, good_clus in *. destruct Hg as [_ [? _] _ _ _ _ _ _]. nia.
Qed.

Section File.
Variables (p fuel : nat) (g : fat).
Hypothesis fuel_pos : (0 < fuel)%nat.
Hypothesis Hg : geo_ok g.
Variables (e : nat) (l : list Z) (pl : place) (base off n : Z) (q : pst) (b : bio) (f : fsys).
Abbreviation d := (view (ent_l e) f).
Hypothesis Hf : fs_fat f = g.
Hypothesis Hch : chain g b l.
Hypothesis Hlen : Z.of_nat (length l) < 2 ^ 31.
Hypothesis Hoff : 0 <= off.
Hypothesis Hn : 0 <= n < 2 ^ 31.
Hypothesis Hend : off + n <= bpc g * Z.of_nat (length l).
Hypothesis H32 : off + n < 2 ^ 32.
Hypothesis Hw : pwin p q pl n base.

(** The entry stands on its chain; its other fields are those of [d']. *)
Definition stands (d' : dirent) (f1 : fsys) : Prop :=
  exists c k, on_chain l (repos c k d') /\ fs_upd e (repos c k d') f f1.
Definition part (o tot : Z) : Z :=
  let m := bpc g - o mod bpc g in if n - tot <? m then n - tot else m.
Lemma part_facts tot : 0 <= tot -> tot < n ->
  0 < part (off + tot) tot <= n - tot /\ (off + tot) mod bpc g + part (off + tot) tot <= bpc g
  /\ (off + tot) / bpc g < Z.of_nat (length l) /\ 0 <= (off + tot) mod bpc g.
Proof using All.
  intros Ht Hlt. assert (0 < bpc g) as Hb by (unfold bpc; destruct Hg; lia).
  pose proof (Z.mod_pos_bound (off + tot) (bpc g) Hb) as Hm.
  assert ((off + tot) / bpc g < Z.of_nat (length l)) by (apply Z.div_lt_upper_bound; lia).
  unfold part. cbv zeta. destruct (Z.ltb_spec (n - tot) (bpc g - (off + tot) mod bpc g)); lia.
Qed.
Lemma stands_at d' f1 : stands d' f1 -> on_chain l (view (ent_l e) f1) /\ fs_fat f1 = g.
Proof using Hf. intros (c & k & Ho & Hu). rewrite (fu_ent _ _ _ _ Hu), (fu_geo _ _ _ _ Hu). done. Qed.
(** [reloc_clus] at the next byte. *)
Lemma wp_reloc_part alloc d' tot q1 b1 f1 (Q : Z -> fss -> Prop) : 0 <= tot -> tot < n ->
  quiescent 0 p (q1, b1) -> chain g b1 l -> stands d' f1 ->
  (forall q2 b2 f2 c, still p q1 b1 q2 b2 -> l !! Z.to_nat ((off + tot) / bpc g) = Some c ->
     good_clus g c -> d_cur_clus (view (ent_l e) f2) = c -> stands d' f2 ->
     Q ((off + tot) mod bpc g) (q2, (b2, f2))) ->
  wp (reloc_clus fuel e (off + tot) alloc) Q (q1, (b1, f1)).
Proof using All.
  intros Ht Hlt Hq1 Hch1 Hst HQ. destruct (part_facts tot Ht Hlt) as (_ & _ & Hk & _).
  destruct (stands_at _ _ Hst) as [Hon1 Hf1]. destruct Hst as (c0 & k0 & Hon0 & Hu0).
  apply (wp_reloc p fuel g fuel_pos Hg e (off + tot) alloc l q1 b1 f1 Q); [done|done|done|done|done|lia|done|].
  intros q2 b2 f2 c Hs2 Hc Hu2. assert (0 <= (off + tot) / bpc g) as Hk0
    by (apply Z.div_pos; [lia|unfold bpc; destruct Hg; lia]).
  apply (HQ q2 b2 f2 c); [done|done|exact (Forall_lookup_1 _ _ _ _ (ch_good _ _ _ Hch) Hc)| |].
  - by rewrite (fu_ent _ _ _ _ Hu2).
  - rewrite (fu_ent _ _ _ _ Hu0), repos_repos in Hu2. exists c, ((off + tot) / bpc g).
    split; [|by apply (fs_upd_trans e _ _ _ _ _ Hu0 Hu2)].
    rewrite <- (repos_repos _ _ c0 k0). by apply on_chain_repos.
Qed.

Definition eread_inv '((tot, o, pl1) : Z * Z * place) '((q1, (b1, f1)) : fss) : Prop :=
  0 <= tot <= n /\ o = off + tot /\ quiescent 0 p (q1, b1) /\ (forall m, sector b1 m = sector b m)
  /\ same_env p (qput q pl base (fspan g b l off tot)) q1 /\ pl1 = pput pl (fspan g b l off tot)
  /\ stands d f1.

Lemma wp_eread_turn v s : eread_inv v s ->
  wp (eread_turn fuel e n v) (fun r s' => match r with
    | inl v' => eread_inv v' s' /\ (Z.to_nat (n - v'.1.1) < Z.to_nat (n - v.1.1))%nat
    | inr (k, pl1) => exists q1 b1 f1, s' = (q1, (b1, f1)) /\ k = n /\ pl1 = pput pl (fspan g b l off n)
        /\ quiescent 0 p (q1, b1) /\ (forall m, sector b1 m = sector b m)
        /\ same_env p (qput q pl base (fspan g b l off n)) q1 /\ stands d f1
    end) s.
Proof using All.
  destruct v as [[tot o] pl1], s as [q1 [b1 f1]]. intros (Ht & -> & Hq & Hsec & Henv & -> & Hst).
  destruct (stands_at _ _ Hst) as [Hon1 Hf1]. unfold eread_turn. apply wp_bind, wp_rd.
  change (view (ent e) (q1, (b1, f1))) with (view (ent_l e) f1).
  pose proof (Forall_lookup_1 _ _ _ _ (ch_good _ _ _ Hch) (oc_cur _ _ Hon1)) as Hgc0.
  destruct (good_small g _ Hg Hgc0) as (Hsm & _). destruct (Z.ltb_spec (d_cur_clus (view (ent_l e) f1)) FAT32_EOC);
    [|unfold FAT32_EOC, FAT32_BAD in *; lia].
  destruct (Z.ltb_spec tot n) as [Hlt|Hge]; cbn [andb negb].
  2:{ apply wp_mret. exists q1, b1, f1. replace tot with n in * by lia. done. }
  destruct (part_facts tot ltac:(lia) Hlt) as (Hm & Hfit & _ & Hr0).
  apply wp_bind, (wp_reloc_part false d tot); [lia|done|done|by apply (chain_same g b)|done|].
  intros q2 b2 f2 c Hs2 Hc Hgc Hcur Hst2. destruct (stands_at _ _ Hst2) as [_ Hf2].
  apply wp_bind, (wp_geo g); [done|]. apply wp_bind, wp_umod; [unfold bpc in *; destruct Hg; lia|].
  fold (bpc g). fold (part (off + tot) tot). apply wp_bind, wp_rd.
  change (view (ent e ⊚ d_cur_clus_l) (q2, (b2, f2))) with (d_cur_clus (view (ent_l e) f2)). rewrite Hcur.
  set (m := part (off + tot) tot) in *. set (pl1 := pput pl (fspan g b l off tot)) in *.
  assert (Z.of_nat (length (fspan g b l off tot)) = tot) as Hlf by (rewrite length_fspan; lia).
  assert (pwin p q1 pl1 n base) as Hw1 by (apply (pwin_put p q q1 pl n base); [done|done|lia]).
  apply wp_bind, (wp_rw_read p fuel g fuel_pos Hg c _ _ m (base + tot));
    [apply Hs2|done|done|lia|lia|fold (bpc g); lia|apply (pwin_shift p q2 pl1 n); [|lia..]; by apply (pwin_env p q1); [apply Hs2|]|].
  rewrite <- (fspan_span g b2 l (off + tot) m c) by (done || lia).
  rewrite (fspan_same g b b2) by (intros x; by rewrite (st_sec _ _ _ _ _ Hs2)).
  intros q3 b3 Hq3 Hs3 He3. rewrite Z.eqb_refl. cbn [negb]. apply wp_mret. cbn [fst snd].
  split; [|lia]. split; [lia|]. split; [rewrite u32_small by lia; lia|]. split; [done|].
  split; [intros x; by rewrite Hs3, (st_sec _ _ _ _ _ Hs2)|]. rewrite fspan_app by lia.
  split; [|split; [|done]].
  - apply (qput_shift p q q2); [etrans; [exact Henv|apply Hs2]|]. by rewrite Hlf.
  - pose proof (pput_shift p q pl n base (fspan g b l off tot) (fspan g b l (off + tot) m) Hw) as E.
    rewrite Hlf in E. apply E. rewrite length_fspan. lia.
Qed.

Definition ewrite_inv '((tot, o) : Z * Z) '((q1, (b1, f1)) : fss) : Prop :=
  0 <= tot <= n /\ o = off + tot /\ quiescent 0 p (q1, b1)
  /\ fwrote g b b1 l off (take (Z.to_nat tot) (pget q pl base n)) /\ same_env p q q1 /\ stands d f1.

Lemma wp_ewrite_turn v s : bytes (pget q pl base n) -> NoDup l -> ewrite_inv v s ->
  wp (ewrite_turn fuel e n pl v) (fun r s' => match r with
    | inl v' => ewrite_inv v' s' /\ (Z.to_nat (n - v'.1) < Z.to_nat (n - v.1))%nat
    | inr (k, o) => exists q1 b1 f1, s' = (q1, (b1, f1)) /\ k = n /\ o = off + n
        /\ quiescent 0 p (q1, b1) /\ fwrote g b b1 l off (pget q pl base n) /\ same_env p q q1 /\ stands d f1
    end) s.
Proof using All.
  pose proof (length_pget p q pl base n (proj1 Hn) Hw) as Hsl. set (src := pget q pl base n) in *.
  intros Hby Hnd. destruct v as [tot o], s as [q1 [b1 f1]]. intros (Ht & -> & Hq & Hwr & Henv & Hst).
  pose proof (ch_good _ _ _ Hch) as Hgd. fold src in Hwr. unfold ewrite_turn.
  destruct (Z.ltb_spec tot n) as [Hlt|Hge]; cbn [negb].
  2:{ apply wp_mret. exists q1, b1, f1. replace tot with n in * by lia.
      rewrite take_ge in Hwr by (rewrite Hsl; lia). done. }
  destruct (part_facts tot ltac:(lia) Hlt) as (Hm & Hfit & _ & Hr0).
  apply wp_bind, (wp_reloc_part true d tot); [lia|done|done|by apply (fwrote_chain g b b1 l l off _ Hg Hgd Hwr)|done|].
  intros q2 b2 f2 c Hs2 Hc Hgc Hcur Hst2. destruct (stands_at _ _ Hst2) as [_ Hf2].
  apply wp_bind, (wp_geo g); [done|]. apply wp_bind, wp_umod; [unfold bpc in *; destruct Hg; lia|].
  fold (bpc g). fold (part (off + tot) tot). apply wp_bind, wp_rd.
  change (view (ent e ⊚ d_cur_clus_l) (q2, (b2, f2))) with (d_cur_clus (view (ent_l e) f2)). rewrite Hcur.
  set (m := part (off + tot) tot) in *.
  assert (same_env p q q2) as He2 by (etrans; [exact Henv|apply Hs2]).
  assert (pget q2 (shift pl tot) (base + tot) m = slice src tot m) as Epg.
  { unfold src. rewrite <- (pget_shift p q pl n base tot m) by (done || lia).
    destruct pl; cbn [pget shift]; [by rewrite (same_env_mem p q q2)|done]. }
  apply wp_bind, (wp_rw_write p fuel g fuel_pos Hg c _ _ m (base + tot));
    [apply Hs2|done|done|lia|lia|fold (bpc g); lia|apply (pwin_shift p q2 pl n); [|lia..]; by apply (pwin_env p q)
    |rewrite Epg; by apply slice_bytes|].
  rewrite Epg. intros q3 b3 [S1 S2 S3]. rewrite Z.eqb_refl. cbn [negb]. apply wp_mret. cbn [fst snd].
  split; [|lia]. split; [lia|]. split; [rewrite u32_small by lia; lia|]. split; [done|].
  split; [|split; [by etrans|done]].
  assert (length (slice src tot m) = Z.to_nat m) as Hbl by (unfold slice; rewrite length_take, length_drop; lia).
  fold src. replace (take (Z.to_nat (tot + m)) src) with (take (Z.to_nat tot) src ++ slice src tot m).
  2:{ unfold slice. rewrite take_take_drop. f_equal. lia. }
  apply (fwrote_app g b b2 b3).
  - rewrite <- (app_nil_r (take _ _)). apply (fwrote_app g b b1 b2); [done|]. apply fwrote_nil, Hs2.
  - rewrite length_take. replace (off + Z.of_nat (Z.to_nat tot `min` length src)) with (off + tot) by lia.
    apply (fwrote_step g b2 b3 l (off + tot) _ c); [done|done|done|lia|rewrite Hbl; lia|done|done].
Qed.
End File.

(** * The operations *)

Lemma fat_addr_disjoint g c c' : c <> c' -> fat_addr g c + 4 <= fat_addr g c' \/ fat_addr g c' + 4 <= fat_addr g c.
Proof. unfold fat_addr. lia. Qed.

Lemma entry_wrote g b b1 c c' v : geo_ok g -> good_clus g c -> good_clus g c' -> 0 <= v < 2 ^ 32 ->
  wrote b b1 (fat_addr g c) (le_bytes 4 v) ->
  entry_of g b1 c' = if decide (c' = c) then v else entry_of g b c'.
Proof.
  intros Hg Hc Hc' Hv Hw. pose proof (fat_bounds g c Hg Hc). pose proof (fat_bounds g c' Hg Hc').
  unfold entry_of, word. destruct (decide (c' = c)) as [->|Hne].
  - pose proof (wrote_span_in _ _ _ _ Hw) as E. rewrite length_le_bytes in E.
    change (Z.of_nat 4) with 4 in E. rewrite E by lia. rewrite le_le_bytes. by apply Z.mod_small.
  - f_equal. apply (wrote_span_out _ _ _ _ _ _ Hw); rewrite ?length_le_bytes; [lia|lia|].
    pose proof (fat_addr_disjoint g c c'). lia.
Qed.

Section Ops.
Variables (p fuel : nat).
Hypothesis fuel_pos : (0 < fuel)%nat.

(** A file ready to be read: its entry stands on the chain [l], which covers
    its size. *)
Record file_at (e : nat) (l : list Z) (b : bio) (f : fsys) : Prop := {
  fa_geo : geo_ok (fs_fat f);
  fa_chain : chain (fs_fat f) b l;
  fa_nodup : NoDup l;
  fa_on : on_chain l (view (ent_l e) f);
  fa_len : Z.of_nat (length l) < 2 ^ 31;
  fa_size : 0 <= d_file_size (view (ent_l e) f) <= bpc (fs_fat f) * Z.of_nat (length l);
  fa_32 : d_file_size (view (ent_l e) f) < 2 ^ 32
}.

Lemma stands_refl e l f : on_chain l (view (ent_l e) f) -> stands e l f (view (ent_l e) f) f.
Proof using Type.
  intros Ho. exists (d_cur_clus (view (ent_l e) f)), (d_clus_cnt (view (ent_l e) f)).
  rewrite repos_id. split; [done|apply fs_upd_refl].
Qed.

(** How much a read of [n] bytes at [off] delivers. *)
Definition readable (size off n : Z) : Z := if size <? off then 0 else Z.min n (size - off).

Lemma wp_eread e l pl base off n q b f (Q : Z * place -> fss -> Prop) :
  quiescent 0 p (q, b) -> file_at e l b f ->
  Z.land (d_attribute (view (ent_l e) f)) ATTR_DIRECTORY = 0 ->
  0 <= off -> 0 <= n < 2 ^ 31 -> off + n < 2 ^ 32 -> pwin p q pl n base ->
  let k := readable (d_file_size (view (ent_l e) f)) off n in
  let bs := fspan (fs_fat f) b l off k in
  (forall q1 b1 f1, quiescent 0 p (q1, b1) -> (forall m, sector b1 m = sector b m) ->
     same_env p (qput q pl base bs) q1 -> stands e l f (view (ent_l e) f) f1 ->
     Q (k, pput pl bs) (q1, (b1, f1))) ->
  wp (eread fuel e pl off n) Q (q, (b, f)).
Proof using fuel_pos.
  intros Hq [Hg Hch Hnd Hon Hlen Hsz H32] Hattr Ho Hn Ho32 Hw k bs HQ. unfold eread.
  apply wp_bind, wp_rd. change (view (ent e) (q, (b, f))) with (view (ent_l e) f).
  set (d := view (ent_l e) f) in *. rewrite Hattr. change (truth 0) with false. rewrite orb_false_r.
  rewrite (u32_small (off + n)) by lia. destruct (Z.ltb_spec (off + n) off); [lia|]. rewrite orb_false_r.
  destruct (Z.ltb_spec (d_file_size d) off) as [Hlt|Hge].
  { assert (k = 0) as Ek by (unfold k, readable; by rewrite (proj2 (Z.ltb_lt _ _) Hlt)).
    apply wp_mret. assert (pput pl bs = pl) as Ep.
    { unfold bs. rewrite Ek. change (fspan _ b l off 0) with (@nil Z). apply pput_nil. }
    rewrite <- Ek, <- Ep. apply HQ; [done|done| |by apply stands_refl].
    unfold bs. rewrite Ek. change (fspan _ b l off 0) with (@nil Z).
    by rewrite qput_nil. }
  assert ((if d_file_size d <? off + n then u32 (d_file_size d - off) else n) = k) as ->.
  { unfold k, readable. rewrite (proj2 (Z.ltb_ge (d_file_size d) off)) by lia.
    destruct (Z.ltb_spec (d_file_size d) (off + n)); [rewrite u32_small by lia|]; lia. }
  assert (0 <= k <= n /\ off + k <= d_file_size d) as [Hk Hkl]
    by (unfold k, readable; rewrite (proj2 (Z.ltb_ge (d_file_size d) off)) by lia; lia).
  assert (pwin p q pl k base) as Hwk.
  { destruct pl as [user addr|old]; cbn [pwin] in *; [|lia]. destruct Hw as (Hu & ? & ?).
    split; [|lia]. unfold uwin in *. destruct (truth user); [|done]. destruct Hu as [x Hx]. exists x.
    rewrite <- (Z.add_0_r addr), <- (Z.add_0_r base). by apply (window_sub _ _ _ _ n); [|lia..]. }
  apply wp_bind, (wp_loop _ (eread_inv p (fs_fat f) e l pl base off k q b f) (fun v _ => Z.to_nat (k - v.1.1))).
  - split; [lia|]. split; [lia|]. split; [done|]. split; [done|]. change (fspan _ b l off 0) with (@nil Z).
    rewrite pput_nil. split; [by rewrite qput_nil|]. split; [done|by apply stands_refl].
  - cbn [fst]. lia.
  - intros v s Hi. eapply wp_mono; [apply (wp_eread_turn p fuel (fs_fat f) fuel_pos Hg e l pl base off k q b f); (done || lia)|].
    intros [v'|[k' pl1]] s'; [done|]. intros (q1 & b1 & f1 & -> & -> & -> & Hq1 & Hs1 & He1 & Hst).
    apply wp_mret. rewrite s32_small by lia. by apply HQ.
Qed.

(** The entry after [n] bytes written at [off]. *)
Definition grown (off n : Z) (d : dirent) : dirent :=
  if (0 <? n) && (d_file_size d <? off + n) then update d_dirty_l 1 (update d_file_size_l (off + n) d) else d.

Lemma wp_ewrite e l pl base off n q b f (Q : Z -> fss -> Prop) :
  quiescent 0 p (q, b) -> file_at e l b f ->
  Z.land (d_attribute (view (ent_l e) f)) ATTR_READ_ONLY = 0 ->
  0 <= off <= d_file_size (view (ent_l e) f) -> 0 <= n < 2 ^ 31 -> off + n < 2 ^ 32 ->
  off + n <= bpc (fs_fat f) * Z.of_nat (length l) -> pwin p q pl n base -> bytes (pget q pl base n) ->
  (forall q1 b1 f1, quiescent 0 p (q1, b1) -> fwrote (fs_fat f) b b1 l off (pget q pl base n) ->
     same_env p q q1 -> stands e l f (grown off n (view (ent_l e) f)) f1 -> Q n (q1, (b1, f1))) ->
  wp (ewrite fuel e pl off n) Q (q, (b, f)).
Proof using fuel_pos.
  intros Hq [Hg Hch Hnd Hon Hlen Hsz H32] Hattr Ho Hn Ho32 Hfit Hw Hby HQ. unfold ewrite.
  apply wp_bind, wp_rd. change (view (ent e) (q, (b, f))) with (view (ent_l e) f).
  set (d := view (ent_l e) f) in *. rewrite Hattr. change (truth 0) with false. rewrite orb_false_r.
  rewrite (u32_small (off + n)) by lia. destruct (Z.ltb_spec (d_file_size d) off); [lia|].
  destruct (Z.ltb_spec (off + n) off); [lia|]. destruct (Z.ltb_spec 0xffffffff (off + n)); [lia|]. cbn [orb].
  pose proof (Forall_lookup_1 _ _ _ _ (ch_good _ _ _ Hch) (oc_first _ _ Hon)) as Hgf.
  destruct (Z.eqb_spec (d_first_clus d) 0) as [E|_]; [unfold good_clus in Hgf; lia|]. unfold when at 1.
  apply wp_bind, wp_mret.
  apply wp_bind, (wp_loop _ (ewrite_inv p (fs_fat f) e l pl base off n q b f) (fun v _ => Z.to_nat (n - v.1))).
  - split; [lia|]. split; [lia|]. split; [done|]. split; [by apply fwrote_nil|].
    split; [done|by apply stands_refl].
  - cbn [fst]. lia.
  - intros v s Hi. eapply wp_mono; [apply (wp_ewrite_turn p fuel (fs_fat f) fuel_pos Hg e l pl base off n q b f); (done || lia)|].
    intros [v'|[k' o']] s'; [done|]. intros (q1 & b1 & f1 & -> & -> & -> & Hq1 & Hw1 & He1 & Hst).
    fold d in Hst. pose proof Hst as (c & kk & Hon1 & Hu1).
    apply wp_bind, (wp_ent_rd d_file_size_l e _ _ _ _ _ _ Hu1).
    change (view d_file_size_l (repos c kk d)) with (d_file_size d). unfold grown in HQ. fold d in HQ.
    destruct ((0 <? n) && (d_file_size d <? off + n)); unfold when; apply wp_bind.
    + apply wp_bind, (wp_ent_wr d_file_size_l _ e _ _ _ _ _ _ Hu1). intros f2 Hu2.
      apply (wp_ent_wr d_dirty_l _ e _ _ _ _ _ _ Hu2). intros f3 Hu3. apply wp_mret.
      rewrite s32_small by lia. apply HQ; [done|done|done|]. exists c, kk. split; [|exact Hu3].
      destruct Hon1. by split.
    + apply wp_mret, wp_mret. rewrite s32_small by lia. by apply HQ.
Qed.

(** * [etrunc] *)

(** The chain of a file that ends the regular way. *)
Record whole (g : fat) (b : bio) (l : list Z) : Prop := {
  wh_chain : chain g b l;
  wh_nodup : NoDup l;
  wh_last : forall c, last l = Some c -> FAT32_EOC <= entry_of g b c
}.
(** The table with the entries of [dn] cleared, and the rest of the volume. *)
Definition freed (g : fat) (b b' : bio) (dn : list Z) : Prop :=
  (forall c, good_clus g c -> entry_of g b' c = if decide (c ∈ dn) then 0 else entry_of g b c)
  /\ (forall x, 0 <= x < 512 * MAXSEC -> (forall c, c ∈ dn -> ~ fat_addr g c <= x < fat_addr g c + 4) ->
        disk b' x = disk b x).

Lemma wp_free_chain g q b f l : geo_ok g -> fs_fat f = g -> quiescent 0 p (q, b) -> whole g b l ->
  forall fu rest dn q1 b1, l = dn ++ rest -> (length rest < fu)%nat -> quiescent 0 p (q1, b1) ->
  same_env p q q1 -> freed g b b1 dn ->
  forall c, (match rest with x :: _ => c = x | [] => ~ (2 <= c < FAT32_EOC) end) ->
  wp (loop fu c (free_turn fuel)) (fun _ s' => exists q2 b2, s' = (q2, (b2, f)) /\ quiescent 0 p (q2, b2)
        /\ same_env p q q2 /\ freed g b b2 l) (q1, (b1, f)).
Proof using fuel_pos.
  intros Hg Ef Hq [[Hgd Hlk] Hnd Hlast]. induction fu as [|fu IH]; intros rest dn q1 b1 El Hfu Hq1 He1 Hfr c Hc; [lia|].
  cbn [loop]. apply wp_bind. unfold free_turn at 1. destruct rest as [|x rest].
  - destruct (Z.leb_spec 2 c), (Z.ltb_spec c FAT32_EOC); cbn [andb]; try lia;
      (do 2 apply wp_mret; exists q1, b1; rewrite El, app_nil_r; done).
  - subst c. assert (good_clus g x) as Hgx by (rewrite El in Hgd; by apply Forall_app in Hgd as [_ [Hgx _]%Forall_cons]).
    pose proof (good_small g x Hg Hgx) as (Hr & _ & _). destruct (Z.leb_spec 2 x); [|lia].
    destruct (Z.ltb_spec x FAT32_EOC); [|unfold FAT32_EOC, FAT32_BAD in *; lia]. cbn [andb].
    apply wp_bind, (wp_read_fat p fuel fuel_pos g Hg); [done|done|done|]. intros q2 b2 Hs2.
    apply wp_bind. unfold free_clus. apply wp_bind, (wp_write_fat p fuel fuel_pos g Hg); [apply Hs2|done|done|].
    intros q3 b3 [S1 S2 S3]. do 2 apply wp_mret.
    assert (x ∉ dn) as Hx by (rewrite El in Hnd; apply NoDup_app in Hnd as (_ & Hd & _); intros Hin; apply (Hd x Hin); by left).
    assert (entry_of g b1 x = entry_of g b x) as -> by (rewrite (proj1 Hfr) by done; by rewrite decide_False).
    apply (IH rest (dn ++ [x]) q3 b3); [by rewrite <- app_assoc|cbn in Hfu; lia|done| | |].
    + etrans; [exact He1|]. etrans; [apply Hs2|done].
    + split.
      * intros c Hc. rewrite (entry_wrote g b2 b3 x c 0 Hg Hgx Hc ltac:(lia) S3).
        rewrite (entry_same g b1 b2 c (st_sec _ _ _ _ _ Hs2)), (proj1 Hfr) by done.
        destruct (decide (c = x)) as [->|Hne]; [by rewrite decide_True by set_solver|].
        destruct (decide (c ∈ dn)); [by rewrite decide_True by set_solver|by rewrite decide_False by set_solver].
      * intros a Ha Hout. rewrite S3 by done. rewrite decide_False.
        2:{ intros Hin. rewrite length_le_bytes in Hin. apply (Hout x); [set_solver|lia]. }
        rewrite (still_disk _ _ _ _ _ Hs2). apply (proj2 Hfr); [done|]. intros c Hc. apply Hout. set_solver.
    + destruct rest as [|y rest].
      * assert (last l = Some x) as Hl by (rewrite El; by rewrite last_app).
        pose proof (Hlast x Hl). lia.
      * apply (Hlk (length dn)); rewrite El; [by apply list_lookup_middle|].
        rewrite lookup_app_r by lia. by replace (S (length dn) - length dn)%nat with 1%nat by lia.
Qed.
End Ops.

(** * [alloc_clus] *)

Section Alloc.
Variables (p fuel : nat) (g : fat).
Hypothesis fuel_pos : (0 < fuel)%nat.
Hypothesis Hg : geo_ok g.
Hypothesis Hsz : 0 <= fat_sz g /\ rsvd_sec_cnt g + fat_sz g <= first_data_sec g.
Variables (q : pst) (b : bio) (f : fsys).
Hypothesis Hf : fs_fat f = g.

(** [zero_clus] up to sector [i]. *)
Definition zero_inv (c : Z) (l : list Z) '((q1, (b1, f1)) : fss) : Prop :=
  f1 = f /\ quiescent 0 p (q1, b1) /\ same_env p q q1
  /\ wrote b b1 (clus_addr g c) (replicate (512 * length l) 0).

Lemma wp_zero_sec n q1 b1 (Q : unit -> fss -> Prop) : quiescent 0 p (q1, b1) -> 0 <= n < MAXSEC ->
  (forall q2 b2, quiescent 0 p (q2, b2) -> same_env p q1 q2 -> wrote b1 b2 (512 * n) (replicate 512 0) ->
     Q tt (q2, (b2, f))) ->
  wp (zero_sec fuel n) Q (q1, (b1, f)).
Proof using All.
  intros Hq Hn HQ. unfold zero_sec. apply wp_bind, (wp_bopen p fuel fuel_pos _ _ _ _ _ Hq Hn).
  intros i b2 Ho Hd Hsec. apply wp_bind, wp_bdata. rewrite Hd.
  assert (splice (sector b1 n) 0 (replicate (Z.to_nat BSIZE) 0) = replicate 512 0) as ->.
  { unfold splice. rewrite take_0, length_replicate. change (Z.to_nat BSIZE) with 512%nat.
    rewrite drop_ge by (rewrite length_sector; lia). by rewrite app_nil_r. }
  apply wp_bind, (wp_set_bdata p n i _ _ _ _ _ Ho). intros b3 Ho3 Hd3 Hsec3.
  apply wp_bind, (wp_bflush p n i _ _ _ _ Ho3); [by rewrite Hd3|rewrite Hd3; apply Forall_replicate; lia|].
  intros b4 Ho4 Hd4 Hw4 Hrest. apply (wp_bclose p n i _ _ _ _ Ho4); [by rewrite Hd4, Hw4|].
  intros q5 b5 [S1 S2 S3]. apply HQ; [done|done|]. apply (wrote_same b1 b4); [|done].
  rewrite <- (Z.add_0_r (512 * n)). apply wrote_sector; [lia|by cbn| |].
  - rewrite Hw4, Hd3. unfold splice. rewrite take_0, drop_ge by (rewrite length_sector; cbn; lia). by rewrite app_nil_r.
  - intros m Hm Hne. by rewrite Hrest, Hsec3, Hsec by done.
Qed.

Lemma wp_zero_clus c (Q : unit -> fss -> Prop) : quiescent 0 p (q, b) -> good_clus g c ->
  (forall q1 b1, quiescent 0 p (q1, b1) -> same_env p q q1 ->
     wrote b b1 (clus_addr g c) (replicate (Z.to_nat (bpc g)) 0) -> Q tt (q1, (b1, f))) ->
  wp (zero_clus fuel c) Q (q, (b, f)).
Proof using All.
  intros Hq Hc HQ. unfold zero_clus. apply wp_bind, (wp_geo g); [done|]. rewrite (clus_valid g) by done.
  apply wp_bind, (wp_first_sec g); [done|done|done|].
  pose proof (clus_bounds g c Hg Hc) as (_ & He & H0). pose proof (go_spc g Hg) as Hspc.
  pose proof (go_bpc g Hg) as Hbpc.
  apply (wp_for_each _ (zero_inv c)).
  - split; [done|]. split; [done|]. split; [done|]. by apply wrote_nil.
  - intros dn i rest [q1 [b1 f1]] El (-> & Hq1 & He1 & Hw).
    assert (i = Z.of_nat (length dn) /\ i < sec_per_clus g) as [Ei Hi].
    { assert (seqZ 0 (sec_per_clus g) !! length dn = Some i) as Hl by (rewrite El; by apply list_lookup_middle).
      apply lookup_seqZ in Hl. lia. }
    set (n := clus_addr g c / 512) in *. assert (clus_addr g c = 512 * n) as En by (unfold n, clus_addr; zlia).
    rewrite u32_small by (unfold MAXSEC in *; lia).
    apply wp_zero_sec; [done|unfold MAXSEC in *; lia|]. intros q2 b2 Hq2 He2 Hw2.
    split; [done|]. split; [done|]. split; [by etrans|].
    rewrite length_app. cbn [length]. replace (512 * (length dn + 1))%nat with (512 * length dn + 512)%nat by lia.
    rewrite replicate_add. apply (wrote_app b b1 b2); [done|]. rewrite length_replicate.
    by replace (clus_addr g c + Z.of_nat (512 * length dn)) with (512 * (n + i)) by lia.
  - intros [q1 [b1 f1]] (-> & Hq1 & He1 & Hw). apply HQ; [done|done|].
    rewrite length_seqZ in Hw. unfold bpc. rewrite Hbpc.
    by replace (Z.to_nat (512 * sec_per_clus g)) with (512 * Z.to_nat (sec_per_clus g))%nat by lia.
Qed.
End Alloc.

(** Entry [k] of the table, by its place. *)
Definition slot (g : fat) (b : bio) (k : Z) : Z := word b (fat_addr g k).
(** What [alloc_clus] leaves when [k] is the first free entry: entry [k] is
    marked, and the cluster it returns, [k + 2], is cleared. *)
Definition allocated (g : fat) (k : Z) (b b' : bio) : Prop :=
  exists b1, wrote b b1 (fat_addr g k) (le_bytes 4 FAT32_EOF)
    /\ wrote b1 b' (clus_addr g (k + 2)) (replicate (Z.to_nat (bpc g)) 0).

Section Alloc2.
Variables (p fuel : nat) (g : fat).
Hypothesis fuel_pos : (0 < fuel)%nat.
Hypothesis Hg : geo_ok g.
Hypothesis Hsz : 0 <= fat_sz g /\ rsvd_sec_cnt g + fat_sz g <= first_data_sec g.
Variables (q : pst) (b : bio) (f : fsys) (k : Z).
Hypothesis Hf : fs_fat f = g.
Hypothesis Hk : 0 <= k < 128 * fat_sz g.
Hypothesis Hfree : slot g b k = 0.
Hypothesis Hused : forall i, 0 <= i < k -> slot g b i <> 0.
Hypothesis Hgood : good_clus g (k + 2).

Definition alloc_post (r : option Z) '((q1, (b1, f1)) : fss) : Prop :=
  r = Some (k + 2) /\ f1 = f /\ quiescent 0 p (q1, b1) /\ same_env p q q1 /\ allocated g k b b1.

Lemma fat_sectors i : 0 <= i < fat_sz g -> 0 <= rsvd_sec_cnt g + i < MAXSEC /\ u32 (rsvd_sec_cnt g + i) = rsvd_sec_cnt g + i.
Proof using All.
  intros Hi. pose proof (geo_bounds g Hg) as (? & _ & ? & ?). destruct Hg as [? [? ?] ? ? ? ? ? ?]. unfold MAXSEC in *.
  assert (rsvd_sec_cnt g + i < 2 ^ 23) by nia. split; [lia|]. apply u32_small. lia.
Qed.

(** Sector [i] of the table, entries [j] on. *)
Lemma wp_alloc_turn n i j q1 b1 : 0 <= i < fat_sz g -> 0 <= j < 128 -> 128 * i + j <= k ->
  opened 0 p (rsvd_sec_cnt g + i) n (q1, b1) -> same_env p q q1 -> (forall m, sector b1 m = sector b m) ->
  b_data (at_ (bc_buf b1) n) = sector b (rsvd_sec_cnt g + i) ->
  wp (alloc_turn fuel n 128 i j) (fun r s' => match r with
    | None => s' = (q1, (b1, f)) /\ 128 * i + j < k
    | Some x => alloc_post (Some x) s' end) (q1, (b1, f)).
Proof using All.
  intros Hi Hj Hle Ho He Hsec Hd. destruct (fat_sectors i Hi) as [Hr _]. unfold alloc_turn.
  apply wp_bind, wp_bdata. rewrite Hd, fget_sector by lia. apply wp_bind, wp_mret.
  assert (word b (512 * (rsvd_sec_cnt g + i) + 4 * j) = slot g b (128 * i + j)) as ->
    by (unfold slot, fat_addr; f_equal; lia).
  destruct (Z.eqb_spec (slot g b (128 * i + j)) 0) as [E|E].
  2:{ apply wp_mret. split; [done|]. destruct (decide (128 * i + j = k)) as [Ek|]; [by rewrite Ek in E|lia]. }
  assert (128 * i + j = k) as Ek by (destruct (decide (128 * i + j = k)); [done|by destruct (Hused (128 * i + j) ltac:(lia))]).
  rewrite fput_sector by lia. apply wp_bind, wp_mret.
  apply wp_bind, (wp_set_bdata p _ n _ _ _ _ _ Ho). intros b2 Ho2 Hd2 Hsec2.
  apply wp_bind, (wp_bflush p _ n _ _ _ _ Ho2).
  { rewrite Hd2, length_splice_at; rewrite length_sector, ?length_le_bytes; lia. }
  { rewrite Hd2. apply splice_bytes; [rewrite sector_span; apply span_bytes|apply le_bytes_bytes]. }
  intros b3 Ho3 Hd3 Hw Hrest. apply wp_bind, (wp_bclose p _ n _ _ _ _ Ho3); [by rewrite Hd3, Hw|].
  intros q4 b4 [S1 S2 S3]. pose proof (geo_bounds g Hg) as (Hcb & _).
  pose proof Hgood as Hgk. unfold good_clus, MAXSEC in Hgk, Hcb. replace (i * 128 + j + 2) with (k + 2) by lia. rewrite u32_small by lia.
  apply wp_bind, (wp_zero_clus p fuel g fuel_pos Hg Hsz q4 b4 f Hf); [done|done|]. intros q5 b5 Hq5 He5 Hw5.
  apply wp_mret. split; [done|]. split; [done|]. split; [done|]. split; [etrans; [exact He|by etrans]|].
  exists b4. split; [|done]. apply (wrote_same b b3); [|done].
  replace (fat_addr g k) with (512 * (rsvd_sec_cnt g + i) + 4 * j) by (unfold fat_addr; lia).
  apply wrote_sector; [lia|rewrite length_le_bytes; lia|by rewrite Hw, Hd2|].
  intros m Hm Hne. by rewrite Hrest, Hsec2, Hsec by done.
Qed.

Lemma wp_alloc (Q : Z -> fss -> Prop) : quiescent 0 p (q, b) ->
  (forall q1 b1, quiescent 0 p (q1, b1) -> same_env p q q1 -> allocated g k b b1 -> Q (k + 2) (q1, (b1, f))) ->
  wp (alloc_clus fuel 0) Q (q, (b, f)).
Proof using All.
  intros Hq HQ. unfold alloc_clus. apply wp_bind, (wp_geo g); [done|]. rewrite (go_bps g Hg).
  change (512 / 4) with 128. apply wp_bind.
  apply (wp_for_until _ (fun i s => 128 * i <= k /\ exists q1 b1, s = (q1, (b1, f)) /\ still p q b q1 b1)).
  - lia.
  - split; [lia|]. exists q, b. split; [done|by apply still_refl].
  - intros i s Hi (Hle & q1 & b1 & -> & Hs). destruct (fat_sectors i ltac:(lia)) as [Hr Hu]. unfold alloc_sec. rewrite Hu.
    apply wp_bind, (wp_bopen p fuel fuel_pos _ _ _ _ _ (st_q _ _ _ _ _ Hs) Hr). intros n b2 Ho Hd Hsec.
    assert (forall m, sector b2 m = sector b m) as Hsec2 by (intros m; by rewrite Hsec, (st_sec _ _ _ _ _ Hs)).
    rewrite (st_sec _ _ _ _ _ Hs) in Hd. apply wp_bind.
    apply (wp_for_until _ (fun j s => 128 * i + j <= k /\ s = (q1, (b2, f)))); [lia|split; [lia|done]| |].
    + intros j s Hj (Hjk & ->). eapply wp_mono; [apply (wp_alloc_turn n i j q1 b2); try done; try lia; apply Hs|].
      intros [x|] s'; [|intros [-> ?]; split; [lia|done]]. destruct s' as [q5 [b5 f5]].
      intros ([= ->] & -> & Hq5 & He5 & Ha). apply wp_mret, wp_mret. by apply HQ.
    + intros s (Hjk & ->). apply wp_bind, (wp_bclose p _ n _ _ _ _ Ho); [by rewrite Hd, Hsec2|].
      intros q3 b3 Hs3. apply wp_mret. split; [lia|]. exists q3, b3. split; [done|].
      apply (still_trans p q b q1 b1); [done|]. destruct Hs3 as [a1 a2 a3]. split; [done|done|]. intros m. by rewrite a3, Hsec.
  - intros s (Hle & _). lia.
Qed.
End Alloc2.

(** * Files between operations *)

Lemma land_parts a x y : Z.land a (Z.lor x y) = 0 -> Z.land a x = 0 /\ Z.land a y = 0.
Proof.
  intros H. rewrite Z.land_lor_distr_r in H. by apply Z.lor_eq_0_iff in H.
Qed.
Lemma stands_view e l f d f1 : stands e l f d f1 ->
  on_chain l (view (ent_l e) f1) /\ d_file_size (view (ent_l e) f1) = d_file_size d
  /\ d_attribute (view (ent_l e) f1) = d_attribute d /\ fs_fat f1 = fs_fat f.
Proof. intros (c & k & Ho & Hu). by rewrite (fu_ent _ _ _ _ Hu), (fu_geo _ _ _ _ Hu). Qed.
Lemma stands_file_at e l b b1 f f1 : file_at e l b f -> (forall m, sector b1 m = sector b m) ->
  stands e l f (view (ent_l e) f) f1 ->
  file_at e l b1 f1 /\ d_file_size (view (ent_l e) f1) = d_file_size (view (ent_l e) f).
Proof.
  intros [Hg Hch Hnd Hon Hlen Hsz H32] Hs Hst. destruct (stands_view _ _ _ _ _ Hst) as (Ho1 & Es & _ & Eg).
  split; [|done]. split; rewrite ?Eg, ?Es; try done. by apply (chain_same _ b).
Qed.
Lemma grown_facts off n d : 0 <= n -> 0 <= off <= d_file_size d ->
  d_attribute (grown off n d) = d_attribute d /\ d_file_size (grown off n d) = Z.max (d_file_size d) (off + n).
Proof.
  intros Hn Ho. unfold grown. destruct (Z.ltb_spec 0 n); cbn [andb]; [|lia].
  destruct (Z.ltb_spec (d_file_size d) (off + n)); cbn; lia.
Qed.
Lemma wrote_file_at e l off n b b1 f f1 bs : file_at e l b f -> 0 <= off <= d_file_size (view (ent_l e) f) ->
  0 <= n -> off + n < 2 ^ 32 -> off + n <= bpc (fs_fat f) * Z.of_nat (length l) ->
  fwrote (fs_fat f) b b1 l off bs -> stands e l f (grown off n (view (ent_l e) f)) f1 ->
  file_at e l b1 f1 /\ d_attribute (view (ent_l e) f1) = d_attribute (view (ent_l e) f)
  /\ d_file_size (view (ent_l e) f1) = Z.max (d_file_size (view (ent_l e) f)) (off + n) /\ fs_fat f1 = fs_fat f.
Proof.
  intros [Hg Hch Hnd Hon Hlen Hsz H32] Ho Hn H32' Hfit Hw Hst.
  destruct (stands_view _ _ _ _ _ Hst) as (Ho1 & Es & Ea & Eg).
  destruct (grown_facts off n (view (ent_l e) f) Hn Ho) as [Ga Gs]. rewrite Ga in Ea. rewrite Gs in Es.
  split; [|done]. split; rewrite ?Eg, ?Es; try done; [|lia|lia].
  by apply (fwrote_chain _ b b1 l l off bs Hg (ch_good _ _ _ Hch)).
Qed.
Lemma fwrote_read g b b1 l off bs : fwrote g b b1 l off bs -> 0 <= off ->
  off + Z.of_nat (length bs) <= bpc g * Z.of_nat (length l) -> fspan g b1 l off (Z.of_nat (length bs)) = bs.
Proof.
  intros [Hw _] Ho Hle. apply list_eq. intros i. unfold fspan. destruct (decide (i < length bs)%nat) as [Hi|Hi].
  - rewrite list_lookup_fmap, lookup_seqZ_lt by lia. cbn. rewrite Hw, decide_True by lia.
    replace (Z.to_nat (off + Z.of_nat i - off)) with i by lia. rewrite nth_lookup.
    by destruct (lookup_lt_is_Some_2 bs i Hi) as [x ->].
  - rewrite !lookup_ge_None_2; [done|lia|]. rewrite length_fmap, length_seqZ. lia.
Qed.
Lemma fwrote_same g b b1 b2 l off bs : fwrote g b b1 l off bs -> (forall m, sector b2 m = sector b1 m) ->
  fwrote g b b2 l off bs.
Proof.
  intros Hw Hs. rewrite <- (app_nil_r bs). apply (fwrote_app g b b1 b2); [done|]. by apply fwrote_nil.
Qed.

(** * Properties *)

(** C32. Reading a file.  From a file whose entry stands on its chain of
    clusters, [eread] of [n] bytes at [off] returns the number of bytes there
    are to read, none when [off] is past the end and at most to the end of the
    file; it delivers exactly the bytes of the file from [off] on, across
    sectors and clusters, to user memory, kernel memory or a kernel variable;
    and neither the volume, nor any other entry, nor any other field of this
    entry changes: it stands somewhere on its chain, ready for the next read. *)
Theorem eread_delivers (p fuel e : nat) (l : list Z) (pl : place) (base off n : Z)
    (q : pst) (b : bio) (f : fsys) :
  (0 < fuel)%nat -> quiescent 0 p (q, b) -> file_at e l b f ->
  Z.land (d_attribute (view (ent_l e) f)) ATTR_DIRECTORY = 0 ->
  0 <= off -> 0 <= n < 2 ^ 31 -> off + n < 2 ^ 32 -> pwin p q pl n base ->
  let k := readable (d_file_size (view (ent_l e) f)) off n in
  let bs := fspan (fs_fat f) b l off k in
  wp (eread fuel e pl off n) (fun '(r, pl') '(q', (b', f')) => r = k /\ pl' = pput pl bs
    /\ same_env p (qput q pl base bs) q' /\ quiescent 0 p (q', b')
    /\ (forall m, sector b' m = sector b m) /\ stands e l f (view (ent_l e) f) f') (q, (b, f)).
Proof.
  intros Hf Hq Ha Hattr Ho Hn H32 Hw k bs.
  apply (wp_eread p fuel Hf e l pl base off n q b f); done.
Qed.

(** C11. What is written is what is read.  Writing [n] bytes at an offset inside
    the file or at its end, within the clusters the file has, returns [n];
    afterwards the file holds those bytes at [off] and its old bytes elsewhere,
    no byte of the volume outside the file's clusters has changed, the table
    among them, the size has grown to the end of the write if that is further;
    and reading [n] bytes at [off] then delivers them back. *)
Theorem ewrite_eread (p fuel e : nat) (l : list Z) (pl : place) (base off n : Z) (old : list Z)
    (q : pst) (b : bio) (f : fsys) :
  (0 < fuel)%nat -> quiescent 0 p (q, b) -> file_at e l b f ->
  Z.land (d_attribute (view (ent_l e) f)) (Z.lor ATTR_READ_ONLY ATTR_DIRECTORY) = 0 ->
  0 <= off <= d_file_size (view (ent_l e) f) -> 0 <= n < 2 ^ 31 -> off + n < 2 ^ 32 ->
  off + n <= bpc (fs_fat f) * Z.of_nat (length l) -> pwin p q pl n base -> bytes (pget q pl base n) ->
  Z.of_nat (length old) = n ->
  let bs := pget q pl base n in
  wp (r ← ewrite fuel e pl off n; '(k, d) ← eread fuel e (Local old) off n; mret (r, k, d))
    (fun '(r, k, d) '(q', (b', f')) => r = n /\ k = n /\ d = Local bs
      /\ quiescent 0 p (q', b') /\ fwrote (fs_fat f) b b' l off bs
      /\ file_at e l b' f' /\ same_env p q q'
      /\ d_file_size (view (ent_l e) f') = Z.max (d_file_size (view (ent_l e) f)) (off + n))
    (q, (b, f)).
Proof.
  intros Hf Hq Ha Hattr Ho Hn H32 Hfit Hw Hby Hold bs. destruct (land_parts _ _ _ Hattr) as [Hro Hdir].
  pose proof (length_pget p q pl base n (proj1 Hn) Hw) as Hbl. fold bs in Hbl, Hby.
  apply wp_bind, (wp_ewrite p fuel Hf e l pl base off n q b f); [done..|].
  intros q1 b1 f1 Hq1 Hw1 He1 Hst. fold bs in Hw1.
  destruct (wrote_file_at e l off n b b1 f f1 bs Ha Ho (proj1 Hn) H32 Hfit Hw1 Hst) as (Ha1 & Hd1 & Hs1 & Eg).
  apply wp_bind, (wp_eread p fuel Hf e l (Local old) 0 off n q1 b1 f1); [done|done|by rewrite Hd1|lia|done|done|cbn; lia|].
  assert (readable (d_file_size (view (ent_l e) f1)) off n = n) as ->.
  { unfold readable. rewrite Hs1. destruct (Z.ltb_spec (Z.max (d_file_size (view (ent_l e) f)) (off + n)) off); lia. }
  assert (fspan (fs_fat f) b1 l off n = bs) as Er.
  { pose proof (fwrote_read (fs_fat f) b b1 l off bs Hw1 (proj1 Ho) ltac:(lia)) as E.
    rewrite Hbl, Z2Nat.id in E by lia. exact E. }
  rewrite Eg, Er.
  intros q2 b2 f2 Hq2 Hs2 He2 Hst2. apply wp_mret. split; [done|]. split; [done|]. split.
  { cbn [pput]. unfold splice. rewrite take_0, drop_ge by (cbn; lia). by rewrite app_nil_r. }
  split; [done|]. split; [by apply (fwrote_same _ b b1)|].
  pose proof (stands_file_at e l b1 b2 f1 f2 Ha1 Hs2 Hst2) as [Ha2 E2].
  split; [done|]. split; [by etrans|]. by rewrite E2.
Qed.

(** C33. Freeing a chain.  [etrunc] on an entry whose chain ends with an end
    mark returns, after one turn for each cluster: every table entry of the
    chain is 0, every other table entry and every other byte of the volume, the
    data of the clusters included, is as it was, and the entry is an empty file
    that has to be written back. *)
Theorem etrunc_frees (p fuel cfuel e : nat) (l : list Z) (q : pst) (b : bio) (f : fsys) :
  (0 < fuel)%nat -> (length l < cfuel)%nat -> quiescent 0 p (q, b) -> geo_ok (fs_fat f) ->
  whole (fs_fat f) b l -> d_first_clus (view (ent_l e) f) = hd 0 l ->
  wp (etrunc fuel cfuel e) (fun _ '(q', (b', f')) => quiescent 0 p (q', b') /\ same_env p q q'
    /\ freed (fs_fat f) b b' l
    /\ fs_upd e (update d_dirty_l 1 (update d_first_clus_l 0 (update d_file_size_l 0 (view (ent_l e) f)))) f f')
    (q, (b, f)).
Proof.
  intros Hf Hcf Hq Hg Hw Hfirst. unfold etrunc. pose proof (fs_upd_refl e f) as Hu0.
  apply wp_bind, (wp_ent_rd d_first_clus_l e _ _ _ _ _ _ Hu0).
  change (view d_first_clus_l (view (ent_l e) f)) with (d_first_clus (view (ent_l e) f)). rewrite Hfirst.
  apply wp_bind. eapply wp_mono.
  - apply (wp_free_chain p fuel Hf (fs_fat f) q b f l Hg eq_refl Hq Hw cfuel l [] q b eq_refl Hcf Hq); [done| |].
    + split; [|done]. intros c _. by rewrite decide_False by set_solver.
    + destruct l; [cbn; lia|done].
  - intros [] s' (q2 & b2 & -> & Hq2 & He2 & Hfr).
    apply wp_bind, (wp_ent_wr d_file_size_l _ e _ _ _ _ _ _ Hu0). intros f1 Hu1.
    apply wp_bind, (wp_ent_wr d_first_clus_l _ e _ _ _ _ _ _ Hu1). intros f2 Hu2.
    apply (wp_ent_wr d_dirty_l _ e _ _ _ _ _ _ Hu2). intros f3 Hu3. done.
Qed.

(** C34. The cluster [alloc_clus] returns is not the one it marks.  With [k] the
    first free entry of the table, [alloc_clus] writes the end mark into entry
    [k] and returns cluster [k + 2], the entry of which it leaves as it was;
    and it clears the data of cluster [k + 2] whoever owns it.  Every other
    entry and the data of every other cluster are kept. *)
Theorem alloc_clus_marks (p fuel : nat) (k : Z) (q : pst) (b : bio) (f : fsys) :
  let g := fs_fat f in
  (0 < fuel)%nat -> quiescent 0 p (q, b) -> geo_ok g ->
  0 <= fat_sz g /\ rsvd_sec_cnt g + fat_sz g <= first_data_sec g ->
  0 <= k < 128 * fat_sz g -> slot g b k = 0 -> (forall i, 0 <= i < k -> slot g b i <> 0) ->
  good_clus g (k + 2) ->
  wp (alloc_clus fuel 0) (fun c '(q', (b', f')) => c = k + 2 /\ f' = f /\ quiescent 0 p (q', b')
    /\ slot g b' k = FAT32_EOF
    /\ (forall i, 0 <= i < 128 * fat_sz g -> i <> k -> slot g b' i = slot g b i)
    /\ span b' (clus_addr g (k + 2)) (bpc g) = replicate (Z.to_nat (bpc g)) 0
    /\ (forall x, good_clus g x -> x <> k + 2 -> span b' (clus_addr g x) (bpc g) = span b (clus_addr g x) (bpc g)))
    (q, (b, f)).
Proof.
  intros g Hf Hq Hg Hsz Hk Hfree Hused Hgood.
  apply (wp_alloc p fuel g Hf Hg Hsz q b f k eq_refl Hk Hfree Hused Hgood); [done|].
  intros q1 b1 Hq1 He1 (b2 & Hw2 & Hw1). do 3 (split; [done|]).
  pose proof (clus_bounds g _ Hg Hgood) as (_ & Hc2 & Hc0). fold (bpc g) in Hc2.
  assert (0 < bpc g) as Hb by (unfold bpc; destruct Hg; lia).
  assert (512 * first_data_sec g <= 512 * MAXSEC /\ 0 <= rsvd_sec_cnt g) as [Hfd Hrs]
    by (destruct Hg as [? [? ?] ? ? ? ? ? ?]; nia).
  assert (forall c, good_clus g c -> 512 * first_data_sec g <= clus_addr g c) as Hlow
    by (intros c Hc; unfold clus_addr, good_clus in *; destruct Hg as [? [? ?] ? ? ? ? ? ?]; nia).
  assert (forall i, 0 <= i < 128 * fat_sz g -> 0 <= fat_addr g i /\ fat_addr g i + 4 <= 512 * first_data_sec g) as Hfa
    by (intros i Hi; unfold fat_addr; lia).
  assert (forall i, 0 <= i < 128 * fat_sz g -> slot g b1 i = if decide (i = k) then FAT32_EOF else slot g b i) as Hslot.
  { intros i Hi. pose proof (Hlow _ Hgood). pose proof (Hfa i Hi). pose proof (Hfa k Hk). unfold slot, word.
    rewrite (wrote_span_out _ _ _ _ _ _ Hw1); [|lia|lia|left; lia]. destruct (decide (i = k)) as [->|Hne].
    - pose proof (wrote_span_in _ _ _ _ Hw2) as E. rewrite length_le_bytes in E. change (Z.of_nat 4) with 4 in E.
      rewrite E by lia. by rewrite le_le_bytes.
    - f_equal. apply (wrote_span_out _ _ _ _ _ _ Hw2); rewrite ?length_le_bytes; [lia|lia|].
      pose proof (fat_addr_disjoint g i k Hne). lia. }
  split; [by rewrite Hslot, decide_True|]. split; [intros i Hi Hne; by rewrite Hslot, decide_False|]. split.
  - pose proof (wrote_span_in _ _ _ _ Hw1) as E. rewrite length_replicate, Z2Nat.id in E by lia. apply E; lia.
  - intros x Hx Hne. pose proof (clus_bounds g x Hg Hx) as (_ & Hx2 & Hx0). fold (bpc g) in Hx2.
    pose proof (clus_disjoint g x _ Hg Hx Hgood Hne) as Hd. fold (bpc g) in Hd.
    rewrite (wrote_span_out _ _ _ _ _ _ Hw1) by (rewrite ?length_replicate; lia).
    apply (wrote_span_out _ _ _ _ _ _ Hw2); rewrite ?length_le_bytes; [lia|lia|].
    pose proof (Hlow x Hx). pose proof (Hfa k Hk). lia.
Qed.

(** ** Witnesses *)

(** A volume of ten clusters of one sector; the file has clusters 2 and 3. *)
Definition demo_fat : fat := Fat 4 10 10 512 512 1 1 1 0 14 3 2.
Lemma demo_geo : geo_ok demo_fat.
Proof. split; cbn; unfold MAXSEC; lia. Qed.
Definition fat_mem (l : list (Z * Z)) : mem :=
  foldr (fun '(k, v) m => wr32 m (0x90000000 + 512 + 4 * k) v) ∅ l.
Definition demo_mem : mem := fat_mem [(0, 0x0ffffff8); (1, FAT32_EOF); (2, 3); (3, FAT32_EOF)].
Definition demo_file : dirent :=
  update d_first_clus_l 2 (update d_cur_clus_l 2 (update d_file_size_l 700 dirent0)).
Definition demo_fsys : fsys := Fsys demo_fat (Spin 0 "ecache" None) {[7%nat := demo_file]}.

Lemma disk_rd8 b a : 0 <= a < 512 * MAXSEC -> disk b a = rd8 (rd_mem b) (rd_base b + a).
Proof.
  intros Ha. unfold disk. unfold sector, read_bytes, MAXSEC in *.
  rewrite (nth_indep _ 0 (rd8 (rd_mem b) (sector_addr (rd_base b) (a / 512) + 0)))
    by (rewrite length_map, length_seqZ; change BSIZE with 512; zlia).
  rewrite (map_nth (fun i => rd8 (rd_mem b) (sector_addr (rd_base b) (a / 512) + i))).
  rewrite nth_lookup, lookup_seqZ_lt by (change BSIZE with 512; zlia). cbn. f_equal.
  unfold sector_addr, BSIZE. rewrite u32_small by zlia. zlia.
Qed.
Lemma word_rdn b a : 0 <= a -> a + 4 <= 512 * MAXSEC -> word b a = rdn 4 (rd_mem b) (rd_base b + a).
Proof.
  intros H0 H4. unfold word, span. change (seqZ a 4) with (map (fun i => Z.of_nat i + a) [0; 1; 2; 3]%nat).
  cbn [map le rdn]. rewrite !disk_rd8 by (cbn; lia). cbn [Z.of_nat]. 
  replace (rd_base b + (0 + a)) with (rd_base b + a) by lia.
  change (Z.of_nat 1) with 1. change (Z.of_nat 2) with 2. change (Z.of_nat 3) with 3.
  replace (rd_base b + (1 + a)) with (rd_base b + a + 1) by lia.
  replace (rd_base b + (2 + a)) with (rd_base b + a + 1 + 1) by lia.
  replace (rd_base b + (3 + a)) with (rd_base b + a + 1 + 1 + 1) by lia. done.
Qed.

Lemma demo_entry b c : rd_mem b = demo_mem -> rd_base b = 0x90000000 -> good_clus demo_fat c ->
  entry_of demo_fat b c = rdn 4 demo_mem (0x90000000 + (512 + 4 * c)).
Proof.
  intros Em Eb Hc. unfold entry_of, good_clus in *. cbn in Hc. rewrite word_rdn; unfold fat_addr; cbn [rsvd_sec_cnt demo_fat];
    [by rewrite Em, Eb|lia|unfold MAXSEC; lia].
Qed.
Lemma demo_chain b : rd_mem b = demo_mem -> rd_base b = 0x90000000 -> chain demo_fat b [2; 3].
Proof.
  intros Em Eb. split; [repeat constructor; cbn; lia|].
  intros [|[|i]] x y; cbn; intros [= <-] [= <-]. rewrite demo_entry by (done || cbn; lia). by vm_compute.
Qed.
Lemma demo_file_at b : rd_mem b = demo_mem -> rd_base b = 0x90000000 -> file_at 7 [2; 3] b demo_fsys.
Proof.
  intros Em Eb. split; [apply demo_geo|by apply demo_chain|by apply (bool_decide_unpack (NoDup [2; 3]))|by split|done..].
Qed.

Example eread_delivers_witness : exists b, quiescent 0 0 (demo_pst, b) /\
  wp (eread 1 7 (Local (replicate 600 0)) 300 600) (fun '(r, pl') '(q', (b', f')) => r = 400
    /\ pl' = pput (Local (replicate 600 0)) (fspan demo_fat b [2; 3] 300 400)
    /\ same_env 0 demo_pst q' /\ quiescent 0 0 (q', b')
    /\ (forall m, sector b' m = sector b m) /\ stands 7 [2; 3] demo_fsys demo_file f') (demo_pst, (b, demo_fsys)).
Proof.
  destruct (boot_image demo_mem) as (b & Hq & Em & Eb). exists b. split; [exact Hq|].
  assert (0 <= 600 < 2 ^ 31) as Hn by done. assert (300 + 600 < 2 ^ 32) as H32 by done.
  assert (pwin 0 demo_pst (Local (replicate 600 0)) 600 0) as Hw by (cbn; lia).
  exact (eread_delivers 0 1 7 [2; 3] (Local (replicate 600 0)) 0 300 600 demo_pst b demo_fsys
    (Nat.lt_0_succ 0) Hq (demo_file_at b Em Eb) eq_refl ltac:(lia) Hn H32 Hw).
Defined.

Example ewrite_eread_witness : exists b, quiescent 0 0 (demo_pst, b) /\
  wp (r ← ewrite 1 7 (Local (replicate 200 65)) 650 200; '(k, d) ← eread 1 7 (Local (replicate 200 0)) 650 200; mret (r, k, d))
    (fun '(r, k, d) '(q', (b', f')) => r = 200 /\ k = 200 /\ d = Local (replicate 200 65)
      /\ quiescent 0 0 (q', b') /\ fwrote demo_fat b b' [2; 3] 650 (replicate 200 65)
      /\ file_at 7 [2; 3] b' f' /\ same_env 0 demo_pst q'
      /\ d_file_size (view (ent_l 7) f') = 850)
    (demo_pst, (b, demo_fsys)).
Proof.
  destruct (boot_image demo_mem) as (b & Hq & Em & Eb). exists b. split; [exact Hq|].
  assert (0 <= 200 < 2 ^ 31) as Hn by done. assert (650 + 200 < 2 ^ 32) as H32 by done.
  assert (0 <= 650 <= 700) as Ho by done. assert (650 + 200 <= 1024) as Hfit by done.
  assert (pwin 0 demo_pst (Local (replicate 200 65)) 200 0) as Hw by (cbn; lia).
  assert (bytes (replicate 200 65)) as Hb by (apply Forall_replicate; lia).
  exact (ewrite_eread 0 1 7 [2; 3] (Local (replicate 200 65)) 0 650 200 (replicate 200 0) demo_pst b demo_fsys
    (Nat.lt_0_succ 0) Hq (demo_file_at b Em Eb) eq_refl Ho Hn H32 Hfit Hw Hb eq_refl).
Defined.

Example etrunc_frees_witness : exists b, quiescent 0 0 (demo_pst, b) /\
  wp (etrunc 1 3 7) (fun _ '(q', (b', f')) => quiescent 0 0 (q', b') /\ same_env 0 demo_pst q'
    /\ freed demo_fat b b' [2; 3]
    /\ fs_upd 7 (update d_dirty_l 1 (update d_first_clus_l 0 (update d_file_size_l 0 demo_file))) demo_fsys f')
    (demo_pst, (b, demo_fsys)).
Proof.
  destruct (boot_image demo_mem) as (b & Hq & Em & Eb). exists b. split; [exact Hq|].
  assert (whole demo_fat b [2; 3]) as Hwh.
  { split; [by apply demo_chain|by apply (bool_decide_unpack (NoDup [2; 3]))|].
    intros c [= <-]. rewrite demo_entry by (done || cbn; lia). by vm_compute. }
  exact (etrunc_frees 0 1 3 7 [2; 3] demo_pst b demo_fsys (Nat.lt_0_succ 0) (le_n 3) Hq demo_geo Hwh eq_refl).
Defined.

Example alloc_clus_marks_witness : exists b, quiescent 0 0 (demo_pst, b) /\
  wp (alloc_clus 1 0) (fun c '(q', (b', f')) => c = 6 /\ f' = demo_fsys /\ quiescent 0 0 (q', b')
    /\ slot demo_fat b' 4 = FAT32_EOF
    /\ (forall i, 0 <= i < 384 -> i <> 4 -> slot demo_fat b' i = slot demo_fat b i)
    /\ span b' (clus_addr demo_fat 6) 512 = replicate 512 0
    /\ (forall x, good_clus demo_fat x -> x <> 6 ->
          span b' (clus_addr demo_fat x) 512 = span b (clus_addr demo_fat x) 512))
    (demo_pst, (b, demo_fsys)).
Proof.
  destruct (boot_image demo_mem) as (b & Hq & Em & Eb). exists b. split; [exact Hq|].
  assert (forall i, 0 <= i < 5 -> slot demo_fat b i = rdn 4 demo_mem (0x90000000 + (512 + 4 * i))) as Hs.
  { intros i Hi. unfold slot. rewrite word_rdn; unfold fat_addr; cbn [rsvd_sec_cnt demo_fat];
      [by rewrite Em, Eb|lia|unfold MAXSEC; lia]. }
  assert (slot demo_fat b 4 = 0) as H4 by (rewrite Hs by lia; by vm_compute).
  assert (forall i, 0 <= i < 4 -> slot demo_fat b i <> 0) as Hu.
  { intros i Hi. rewrite Hs by lia. assert (i = 0 \/ i = 1 \/ i = 2 \/ i = 3) as [->|[->|[->| ->]]] by lia; by vm_compute. }
  assert (0 <= 3 /\ 1 + 3 <= 4) as Hsz by lia. assert (0 <= 4 < 384) as Hk by lia.
  assert (good_clus demo_fat 6) as Hg by (unfold good_clus; cbn; lia).
  exact (alloc_clus_marks 0 1 4 demo_pst b demo_fsys (Nat.lt_0_succ 0) Hq demo_geo Hsz Hk H4 Hu Hg).
Defined.
