(* ===== verification/FatDir.v ===== *)
(** Directories, the entry cache and paths: kernel/fat32.c from [eget] on.

    A name is an array of bytes, a path too; a pointer to an entry is its
    index, and the null pointer is [None].  [dirlookup], [lookup_path] and
    [new_create] return what their callers get through pointers ([poff],
    [name]) beside the entry. *)

From S2P Require Import Prelude Mem Strings Locks Kalloc Vm ProcState Vma Proc ProcFacts Sleeplock Bio Circ FatName Fat.

Definition STAT_MAX_NAME : Z := 32.
Definition T_DIR : Z := 1.
Definition T_FILE : Z := 2.
Definition O_RDONLY : Z := 0x000.
Definition O_RDWR : Z := 0x002.
Definition S_IFREG : Z := 0x8000.
Definition S_IFDIR : Z := 0x4000.
Definition S_IFCHR : Z := 0x2000.

(** [struct stat] *)
Record stat := Stat {
  s_name : list Z;
  s_dev : Z;
  s_type : Z;
  s_size : Z
}.
(** [struct kstat], without the padding no function writes. *)
Record kstat := Kstat {
  st_dev : Z;
  st_ino : Z;
  st_mode : Z;
  st_nlink : Z;
  st_uid : Z;
  st_gid : Z;
  st_rdev : Z;
  st_pad : Z;
  st_size : Z;
  st_blksize : Z;
  st_pad2 : Z;
  st_blocks : Z;
  st_atime_sec : Z;
  st_atime_nsec : Z;
  st_mtime_sec : Z;
  st_mtime_nsec : Z;
  st_ctime_sec : Z;
  st_ctime_nsec : Z
}.

Section Fuel.
(** [fuel] bounds the number of times a process is woken to find a lock taken;
    [cfuel] the length of a cluster chain, [dfuel] the number of entries of a
    directory, of elements of a path, and of nested directories. *)
Variables (fuel cfuel dfuel : nat).

(** * The entry cache *)

(** A walk over the ring from [root], forwards or backwards. *)
Definition ering_turn (step : lens dirent nat) (P : dirent -> option bool) (i : nat) : M fss (nat + option nat) :=
  if (i =? ROOT)%nat then mret (inr None)
  else
    d ← rd (ent i);
    hit ← lift "strncmp" (P d);
    if (hit : bool) then mret (inr (Some i)) else mret (inl (view step d)).
Definition ering_find (step : lens dirent nat) (P : dirent -> option bool) : M fss (option nat) :=
  i ← rd (ent ROOT ⊚ step);
  loop (S (S ENTRY_CACHE_NUM)) i (ering_turn step P).

Definition parent_is (d : dirent) (parent : nat) : bool := bool_decide (d_parent d = Some parent).
(** [ep->valid == 1 && ep->parent == parent && strncmp(...) == 0] *)
Definition names (parent : nat) (name : list Z) (d : dirent) : option bool :=
  if (d_valid d =? 1) && parent_is d parent then
    r ← strncmp (d_filename d) name FAT32_MAX_FILENAME; Some (r =? 0)
  else Some false.

Definition eget (parent : nat) (name : option (list Z)) : M fss nat :=
  _ ← acquire phart eclk;
  hit ← match name with
        | Some nm => ering_find d_next_l (names parent nm)
        | None => mret None
        end;
  match hit with
  | Some ep =>
      r ← rd (ent ep ⊚ d_ref_l);
      _ ← ent ep ⊚ d_ref_l <~ r + 1;
      _ ← when (r =? 0)
            (o ← rd (ent ep ⊚ d_parent_l);
             pp ← lift "ep->parent" o;
             md (ent pp ⊚ d_ref_l) Z.succ);
      _ ← release phart eclk;
      mret ep
  | None =>
      o ← ering_find d_prev_l (fun d => Some (d_ref d =? 0));
      match o with
      | Some ep =>
          _ ← ent ep ⊚ d_ref_l <~ 1;
          dev ← rd (ent parent ⊚ d_dev_l);
          _ ← ent ep ⊚ d_dev_l <~ dev;
          _ ← ent ep ⊚ d_off_l <~ 0;
          _ ← ent ep ⊚ d_valid_l <~ 0;
          _ ← ent ep ⊚ d_dirty_l <~ 0;
          _ ← release phart eclk;
          mret ep
      | None => panic "eget: insufficient ecache"
      end
  end.

Definition edup (entry : option nat) : M fss (option nat) :=
  _ ← match entry with
      | Some e =>
          _ ← acquire phart eclk;
          _ ← md (ent e ⊚ d_ref_l) Z.succ;
          release phart eclk
      | None => mret tt
      end;
  mret entry.

Definition elock (entry : option nat) : M fss unit :=
  match entry with
  | None => panic "elock"
  | Some e =>
      r ← rd (ent e ⊚ d_ref_l);
      if r <? 1 then panic "elock" else zoom (esl e) (acquiresleep (ENTCHAN e) fuel)
  end.
Definition eunlock (entry : option nat) : M fss unit :=
  match entry with
  | None => panic "eunlock"
  | Some e =>
      h ← zoom (esl e) holdingsleep;
      r ← rd (ent e ⊚ d_ref_l);
      if negb h || (r <? 1) then panic "eunlock" else zoom (esl e) (releasesleep (ENTCHAN e))
  end.

(** * Entries on disk *)

(** [rw_clus(dp->cur_clus, ..., (uint64)&v, off, n)] on a variable [v]. *)
Definition ent_read (dp : nat) (v : list Z) (off n : Z) : M fss (Z * list Z) :=
  c ← rd (ent dp ⊚ d_cur_clus_l);
  '(k, pl) ← rw_clus fuel c 0 (Local v) off n;
  mret (k, match pl with Local v' => v' | At _ _ => v end).
Definition ent_write (dp : nat) (v : list Z) (off n : Z) : M fss Z :=
  c ← rd (ent dp ⊚ d_cur_clus_l);
  '(k, _) ← rw_clus fuel c 1 (Local v) off n;
  mret k.

(** [off = reloc_clus(dp, off, 1); rw_clus(dp->cur_clus, 1, 0, &de, off, sizeof(de))] *)
Definition put_entry (dp : nat) (de : dentry) (off : Z) : M fss unit :=
  off2 ← reloc_clus fuel dp off true;
  _ ← ent_write dp de (u32 off2) 32;
  mret tt.

(** One turn of the loop over the chunks of the name: [off] and the entry. *)
Definition emake_turn (dp : nat) (filename : list Z) (entcnt i : Z) '((off, de) : Z * dentry)
  : M fss (Z * dentry + unit) :=
  de ← lift "ep->filename" (long_entry filename entcnt i de);
  _ ← put_entry dp de off;
  mret (inl (u32 (off + 32), de)).

Definition emake (dp ep : nat) (off : Z) : M fss unit :=
  dd ← rd (ent dp);
  if negb (truth (Z.land (d_attribute dd) ATTR_DIRECTORY)) then panic "emake: not dir"
  else if truth (off mod 32) then panic "emake: not aligned"
  else
    d ← rd (ent ep);
    if off <=? 32 then
      let nm := if off =? 0 then literal ".          " else literal "..         " in
      de ← lift "strncpy" (short_entry nm ATTR_DIRECTORY (d_first_clus d) 0);
      put_entry dp de off
    else
      len ← lift "strlen" (strlen (d_filename d));
      let entcnt := long_count len in
      shortname ← lift "shortname" (generate_shortname (replicate 12 0) (d_filename d));
      de ← lift "cal_checksum" (long_base shortname);
      r ← for_acc (map (fun j => entcnt - j) (seqZ 0 entcnt)) (off, de) (emake_turn dp (d_filename d) entcnt);
      match r with
      | inr _ => mret tt
      | inl (off, _) =>
          de ← lift "strncpy" (short_entry shortname (d_attribute d) (d_first_clus d) (d_file_size d));
          put_entry dp de off
      end.

(** The parent of an entry, dereferenced. *)
Definition eparent (e : nat) : M fss nat := o ← rd (ent e ⊚ d_parent_l); lift "entry->parent" o.

Definition eupdate (e : nat) : M fss unit :=
  d ← rd (ent e);
  if negb (truth (d_dirty d)) || negb (d_valid d =? 1) then mret tt
  else
    pp ← eparent e;
    off ← reloc_clus fuel pp (d_off d) false;
    '(_, v) ← ent_read pp (le_bytes 4 0) (u32 off) 1;
    let entcnt := Z.land (le v) (Z.lnot LAST_LONG_ENTRY) in
    off ← reloc_clus fuel pp (u32 (d_off d + u32 (Z.shiftl entcnt 5))) false;
    '(_, de) ← ent_read pp dentry0 (u32 off) 32;
    d ← rd (ent e);
    let de := set_sne_file_size (d_file_size d)
                (set_sne_fst_clus_lo (u16 (Z.land (d_first_clus d) 0xffff))
                  (set_sne_fst_clus_hi (u16 (Z.shiftr (d_first_clus d) 16)) de)) in
    _ ← ent_write pp de (u32 off) 32;
    ent e ⊚ d_dirty_l <~ 0.

(** One turn of the loop of [eremove], over [off] and [off2]. *)
Definition eremove_turn (pp : nat) (i : Z) '((off, off2) : Z * Z) : M fss (Z * Z + unit) :=
  _ ← ent_write pp [EMPTY_ENTRY] off2 1;
  let off := u32 (off + 32) in
  off2 ← reloc_clus fuel pp off false;
  mret (inl (off, u32 off2)).
Definition eremove (e : nat) : M fss unit :=
  d ← rd (ent e);
  if negb (d_valid d =? 1) then mret tt
  else
    pp ← eparent e;
    off2 ← reloc_clus fuel pp (d_off d) false;
    '(_, v) ← ent_read pp (le_bytes 4 0) (u32 off2) 1;
    let entcnt := Z.land (le v) (Z.lnot LAST_LONG_ENTRY) in
    _ ← for_acc (seqZ 0 (entcnt + 1)) (d_off d, u32 off2) (eremove_turn pp);
    ent e ⊚ d_valid_l <~ -1.

(** Takes the entry out of the ring and puts it first. *)
Definition eput_front (e : nat) : M fss unit :=
  n ← rd (ent e ⊚ d_next_l); pv ← rd (ent e ⊚ d_prev_l);
  _ ← ent n ⊚ d_prev_l <~ pv;
  n ← rd (ent e ⊚ d_next_l); pv ← rd (ent e ⊚ d_prev_l);
  _ ← ent pv ⊚ d_next_l <~ n;
  n ← rd (ent ROOT ⊚ d_next_l);
  _ ← ent e ⊚ d_next_l <~ n;
  _ ← ent e ⊚ d_prev_l <~ ROOT;
  n ← rd (ent ROOT ⊚ d_next_l);
  _ ← ent n ⊚ d_prev_l <~ e;
  ent ROOT ⊚ d_next_l <~ e.

(** [efuel] bounds the number of ancestors. *)
Fixpoint eput (efuel : nat) (entry : option nat) : M fss unit :=
  match efuel with
  | O => nofuel
  | S efuel' =>
      _ ← acquire phart eclk;
      e ← lift "entry" entry;
      d ← rd (ent e);
      if negb (e =? ROOT)%nat && negb (d_valid d =? 0) && (d_ref d =? 1) then
        _ ← zoom (esl e) (acquiresleep (ENTCHAN e) fuel);
        _ ← eput_front e;
        _ ← release phart eclk;
        v ← rd (ent e ⊚ d_valid_l);
        _ ← (if v =? -1 then etrunc fuel cfuel e
             else
               pp ← rd (ent e ⊚ d_parent_l);
               _ ← elock pp;
               _ ← eupdate e;
               pp ← rd (ent e ⊚ d_parent_l);
               eunlock pp);
        _ ← zoom (esl e) (releasesleep (ENTCHAN e));
        pp ← rd (ent e ⊚ d_parent_l);
        _ ← acquire phart eclk;
        _ ← md (ent e ⊚ d_ref_l) Z.pred;
        _ ← release phart eclk;
        r ← rd (ent e ⊚ d_ref_l);
        when (r =? 0) (eput efuel' pp)
      else
        _ ← md (ent e ⊚ d_ref_l) Z.pred;
        release phart eclk
  end.

(** * Reading a directory *)

Definition read_entry_info (e : nat) (d : dentry) : M fss unit :=
  _ ← ent e ⊚ d_attribute_l <~ sne_attr d;
  _ ← ent e ⊚ d_first_clus_l <~ entry_clus d;
  _ ← ent e ⊚ d_file_size_l <~ sne_file_size d;
  _ ← ent e ⊚ d_cur_clus_l <~ entry_clus d;
  ent e ⊚ d_clus_cnt_l <~ 0.

(** One turn of the loop of [enext], over [off], [cnt], [*count] and whether
    the pointer [count] is still set. *)
Definition enext_turn (dp ep : nat) '((off, cnt, count, cptr) : Z * Z * Z * bool)
  : M fss ((Z * Z * Z * bool) + (Z * Z)) :=
  off2 ← reloc_clus fuel dp off false;
  if off2 =? -1 then mret (inr (-1, count))
  else
    '(k, de) ← ent_read dp dentry0 (u32 off2) 32;
    if negb (k =? 32) || (lne_order de =? END_OF_ENTRY) then mret (inr (-1, count))
    else if lne_order de =? EMPTY_ENTRY then mret (inl (u32 (off + 32), cnt + 1, count, cptr))
    else if truth cnt then
      if cptr then mret (inr (0, cnt)) else undef "count"
    else if lne_attr de =? ATTR_LONG_NAME then
      let lcnt := Z.land (lne_order de) (Z.lnot LAST_LONG_ENTRY) in
      '(count, cptr) ← (if truth (Z.land (lne_order de) LAST_LONG_ENTRY) then
                          if cptr then mret (lcnt + 1, false) else undef "count"
                        else mret (count, cptr));
      nm ← rd (ent ep ⊚ d_filename_l);
      nm ← lift "ep->filename" (read_name_at nm ((lcnt - 1) * CHAR_LONG_NAME) de);
      _ ← ent ep ⊚ d_filename_l <~ nm;
      mret (inl (u32 (off + 32), cnt, count, cptr))
    else
      count ← (if cptr then
                 nm ← rd (ent ep ⊚ d_filename_l);
                 nm ← lift "ep->filename" (read_entry_name nm de);
                 _ ← ent ep ⊚ d_filename_l <~ nm;
                 mret 1
               else mret count);
      _ ← read_entry_info ep de;
      mret (inr (1, count)).

(** The result and [*count]. *)
Definition enext (dp ep : nat) (off count : Z) : M fss (Z * Z) :=
  d ← rd (ent dp);
  if negb (truth (Z.land (d_attribute d) ATTR_DIRECTORY)) then panic "enext not dir"
  else if truth (off mod 32) then panic "enext not align"
  else if negb (d_valid d =? 1) then mret (-1, count)
  else
    _ ← md (ent ep ⊚ d_filename_l) (fun nm => splice nm 0 (replicate 256 0));
    loop dfuel (off, 0, count, true) (enext_turn dp ep).

(** One turn of the loop of [dirlookup]: [off], [count] and [*poff] (or
    [None]). [type] is what the comparison gives. *)
Definition lookup_turn (dp ep : nat) (filename : list Z) (entcnt : Z)
    '((off, count, poff, set) : Z * Z * option Z * bool)
  : M fss ((Z * Z * option Z * bool) + (option nat * Z * option Z * bool)) :=
  '(r, count) ← enext dp ep off count;
  let type := b2z (negb (r =? -1)) in
  if negb (truth type) then mret (inr (None, off, poff, set))
  else
    '(poff, set, hit) ←
       ((if type =? 0 then
           mret (if set && (entcnt <=? count) then (Some off, false, false) else (poff, set, false))
         else
           nm ← rd (ent ep ⊚ d_filename_l);
           c ← lift "strncmp" (strncmp filename nm FAT32_MAX_FILENAME);
           mret (poff, set, c =? 0)) : M fss (option Z * bool * bool));
    if (hit : bool) then
      dup ← edup (Some dp);
      _ ← ent ep ⊚ d_parent_l <~ dup;
      _ ← ent ep ⊚ d_off_l <~ off;
      _ ← ent ep ⊚ d_valid_l <~ 1;
      mret (inr (Some ep, off, poff, set))
    else mret (inl (u32 (off + u32 (Z.shiftl count 5)), count, poff, set)).

(** The entry, and [*poff] when [poff] is not null. *)
Definition dirlookup (dp : nat) (filename : list Z) (poff : option Z) : M fss (option nat * option Z) :=
  d ← rd (ent dp);
  if negb (truth (Z.land (d_attribute d) ATTR_DIRECTORY)) then panic "dirlookup not DIR"
  else
    c1 ← lift "strncmp" (strncmp filename (literal ".") FAT32_MAX_FILENAME);
    if c1 =? 0 then e ← edup (Some dp); mret (e, poff)
    else
      c2 ← lift "strncmp" (strncmp filename (literal "..") FAT32_MAX_FILENAME);
      if c2 =? 0 then
        e ← edup (if (dp =? ROOT)%nat then Some ROOT else d_parent d); mret (e, poff)
      else if negb (d_valid d =? 1) then mret (None, poff)
      else
        ep ← eget dp (Some filename);
        v ← rd (ent ep ⊚ d_valid_l);
        if v =? 1 then mret (Some ep, poff)
        else
          len ← lift "strlen" (strlen filename);
          let entcnt := long_count len + 1 in
          _ ← reloc_clus fuel dp 0 false;
          '(hit, off, poff, set) ← loop dfuel (0, 0, poff, found poff) (lookup_turn dp ep filename entcnt);
          match hit with
          | Some ep => mret (Some ep, poff)
          | None =>
              _ ← eput dfuel (Some ep);
              mret (None, if (set : bool) then Some off else poff)
          end.

Definition ealloc (dp : nat) (name : list Z) (attr : Z) : M fss (option nat) :=
  dd ← rd (ent dp);
  if negb (truth (Z.land (d_attribute dd) ATTR_DIRECTORY)) then panic "ealloc not dir"
  else if negb (d_valid dd =? 1) then mret None
  else
    o ← lift "formatname" (formatname name);
    match o with
    | None => mret None
    | Some name =>
        '(hit, poff) ← dirlookup dp name (Some 0);
        match hit with
        | Some ep => mret (Some ep)
        | None =>
            let off := default 0 poff in
            ep ← eget dp (Some name);
            _ ← elock (Some ep);
            _ ← ent ep ⊚ d_attribute_l <~ u8 attr;
            _ ← ent ep ⊚ d_file_size_l <~ 0;
            _ ← ent ep ⊚ d_first_clus_l <~ 0;
            pp ← edup (Some dp);
            _ ← ent ep ⊚ d_parent_l <~ pp;
            _ ← ent ep ⊚ d_off_l <~ off;
            _ ← ent ep ⊚ d_clus_cnt_l <~ 0;
            _ ← ent ep ⊚ d_cur_clus_l <~ 0;
            _ ← ent ep ⊚ d_dirty_l <~ 0;
            nm ← rd (ent ep ⊚ d_filename_l);
            nm ← lift "strncpy" (strncpy nm name FAT32_MAX_FILENAME);
            nm ← lift "ep->filename" (put_at nm FAT32_MAX_FILENAME 0);
            _ ← ent ep ⊚ d_filename_l <~ nm;
            _ ← (if attr =? ATTR_DIRECTORY then
                   _ ← md (ent ep ⊚ d_attribute_l) (fun a => Z.lor a ATTR_DIRECTORY);
                   dev ← rd (ent dp ⊚ d_dev_l);
                   c ← alloc_clus fuel dev;
                   _ ← ent ep ⊚ d_first_clus_l <~ c;
                   _ ← ent ep ⊚ d_cur_clus_l <~ c;
                   _ ← emake ep ep 0;
                   emake ep dp 32
                 else md (ent ep ⊚ d_attribute_l) (fun a => Z.lor a ATTR_ARCHIVE));
            _ ← emake dp ep off;
            _ ← ent ep ⊚ d_valid_l <~ 1;
            _ ← eunlock (Some ep);
            mret (Some ep)
        end
    end.

(** * Paths *)

(** One turn of the loop of [lookup_path]: the path and the array [name]. *)
Definition path_turn (parent : bool) '((entry, path, name) : option nat * list Z * list Z)
  : M fss ((option nat * list Z * list Z) + (option nat * list Z)) :=
  o ← lift "skipelem" (skipelem path name);
  match o with
  | None =>
      if parent then _ ← eput dfuel entry; mret (inr (None, name))
      else mret (inr (entry, name))
  | Some (path, name) =>
      _ ← elock entry;
      e ← lift "entry" entry;
      d ← rd (ent e);
      if negb (truth (Z.land (d_attribute d) ATTR_DIRECTORY)) then
        _ ← eunlock entry; _ ← eput dfuel entry; mret (inr (None, name))
      else
        c ← lift "path" (head path);
        if parent && (c =? 0) then _ ← eunlock entry; mret (inr (entry, name))
        else
          '(next, _) ← dirlookup e name None;
          match next with
          | None => _ ← eunlock entry; _ ← eput dfuel entry; mret (inr (None, name))
          | Some n => _ ← eunlock entry; _ ← eput dfuel entry; mret (inl (Some n, path, name))
          end
  end.

(** The current directory. *)
Definition mycwd : M fss (option nat) := zoom fst_l (p ← cur; rd (proc_l p ⊚ p_cwd_l)).

Definition lookup_path (path : list Z) (parent : bool) (name : list Z) : M fss (option nat * list Z) :=
  c ← lift "path" (head path);
  if c =? 47 then
    e ← edup (Some ROOT); loop dfuel (e, path, name) (path_turn parent)
  else if negb (c =? 0) then
    cwd ← mycwd; e ← edup cwd; loop dfuel (e, path, name) (path_turn parent)
  else mret (None, name).

Definition new_lookup_path (env : option nat) (path : list Z) (parent : bool) (name : list Z)
  : M fss (option nat * list Z) :=
  c ← lift "path" (head path);
  if c =? 47 then
    e ← edup (Some ROOT); loop dfuel (e, path, name) (path_turn parent)
  else if found env then
    e ← edup env; loop dfuel (e, path, name) (path_turn parent)
  else if negb (c =? 0) then
    cwd ← mycwd; e ← edup cwd; loop dfuel (e, path, name) (path_turn parent)
  else mret (None, name).

Definition NAME0 : list Z := replicate 256 0.
Definition new_ename (env : option nat) (path : list Z) : M fss (option nat) :=
  r ← new_lookup_path env path false NAME0; mret (fst r).
Definition ename (path : list Z) : M fss (option nat) :=
  r ← lookup_path path false NAME0; mret (fst r).
Definition enameparent (path name : list Z) : M fss (option nat * list Z) := lookup_path path true name.
Definition new_enameparent (env : option nat) (path name : list Z) : M fss (option nat * list Z) :=
  new_lookup_path env path true name.

(** [nfuel] bounds the number of directories made on the way. *)
Fixpoint new_create (nfuel : nat) (env : option nat) (path : list Z) (type mode : Z) : M fss (option nat) :=
  match nfuel with
  | O => nofuel
  | S nfuel' =>
      let mode := if type =? T_DIR then ATTR_DIRECTORY
                  else if truth (Z.land mode O_RDONLY) then ATTR_READ_ONLY else 0 in
      '(dp, name) ← new_enameparent env path NAME0;
      '(dp, name) ← match dp with
                    | None =>
                        '(pname, name) ← lift "get_parent_name" (get_parent_name path NAME0 name);
                        dp ← new_create nfuel' env pname T_DIR O_RDWR;
                        mret (dp, name)
                    | Some _ => _ ← elock dp; mret (dp, name)
                    end;
      match dp with
      | None => mret None
      | Some d =>
          o ← ealloc d name mode;
          match o with
          | None => _ ← eunlock dp; _ ← eput dfuel dp; mret None
          | Some ep =>
              a ← rd (ent ep ⊚ d_attribute_l);
              let isdir := truth (Z.land a ATTR_DIRECTORY) in
              if ((type =? T_DIR) && negb isdir) || ((type =? T_FILE) && isdir) then
                _ ← eunlock dp; _ ← eput dfuel (Some ep); _ ← eput dfuel dp; mret None
              else
                _ ← eunlock dp; _ ← eput dfuel dp; _ ← elock (Some ep); mret (Some ep)
          end
      end
  end.
End Fuel.

(** * What user programs see of an entry *)

Definition estat (de : nat) (st : stat) : M fss stat :=
  d ← rd (ent de);
  nm ← lift "st->name" (strncpy (s_name st) (d_filename d) STAT_MAX_NAME);
  mret (Stat nm (d_dev d) (if truth (Z.land (d_attribute d) ATTR_DIRECTORY) then T_DIR else T_FILE)
             (d_file_size d)).

Definition kstat_of (de : nat) : M fss kstat :=
  d ← rd (ent de);
  mret (Kstat 1 0 0 1 0 0 0 0 (d_file_size d) 512 0 0 0 0 0 0 0 0).

(** The two paddings keep what they held. *)
Definition ekstat (de : option nat) (st : kstat) : M fss kstat :=
  o ← match de with Some e => d ← rd (ent e); mret (Some d) | None => mret None end;
  let size := match o with Some d => d_file_size d | None => 0 end in
  ino ← match o with Some d => lift "hashpath" (hashpath (d_filename d)) | None => mret 0 end;
  let mode := match o with
              | Some d => if truth (Z.land (d_attribute d) ATTR_DIRECTORY) then S_IFDIR else S_IFREG
              | None => S_IFCHR
              end in
  mret (Kstat 0 (u64 ino) (Z.lor mode 0x1ff) 1 0 0 (match o with Some d => d_dev d | None => 0 end)
          (st_pad st) size 512 (st_pad2 st) ((size + 512 - 1) / 512) 0 0 0 0 0 0).
