(* ===== verification/Console.v ===== *)
(** The console: kernel/console.c, the UART driver under it (kernel/uart.c)
    and the kernel's formatted output (kernel/printf.c).

    [con] holds the objects of the three files.  The device is what it shows:
    [lsr n] is what the [n]-th read of the line status register gives and [rhr n]
    the [n]-th read of the receive register, and [dv_out] is the list of the
    writes to its registers, the latest last. *)

From S2P Require Import Prelude Mem Strings Digits Locks Kalloc Vm PageTable ProcState Vma Proc ProcFacts Sleeplock Circ UserMem.

Definition INPUT_BUF : Z := 128.
Definition UART_TX_BUF_SIZE : Z := 32.
Definition BACKSPACE : Z := 0x100.
(** [C(x)]: the control character. *)
Definition ctrl (c : Z) : Z := c - 64.

Definition THR : Z := 0.
Definition IER : Z := 1.
Definition FCR : Z := 2.
Definition LCR : Z := 3.
Definition LSR_TX_IDLE : Z := Z.shiftl 1 5.

Record con := Con {
  cn_lock : spinlock;   (** [cons.lock] *)
  cn_buf : list Z;
  cn_r : Z;   (** read index *)
  cn_w : Z;   (** write index *)
  cn_e : Z;   (** edit index *)
  ut_lock : spinlock;   (** [uart_tx_lock] *)
  ut_buf : list Z;   (** [uart_tx_buf] *)
  ut_w : Z;   (** [uart_tx_w] *)
  ut_r : Z;   (** [uart_tx_r] *)
  dv_lsr : nat;   (** reads of the line status register *)
  dv_rhr : nat;   (** reads of the receive register *)
  dv_out : list (Z * Z);   (** writes: register and value *)
  pr_lock : spinlock;   (** [pr.lock] *)
  pr_locking : Z;   (** [pr.locking] *)
  panicked : Z;
  cn_connected : bool   (** whether [devsw] has the console's routines *)
}.

Definition cn_lock_l : lens con (spinlock) :=
  Lens cn_lock (fun v r => Con v (cn_buf r) (cn_r r) (cn_w r) (cn_e r) (ut_lock r) (ut_buf r)
    (ut_w r) (ut_r r) (dv_lsr r) (dv_rhr r) (dv_out r) (pr_lock r) (pr_locking r) (panicked r)
    (cn_connected r)).
Definition cn_buf_l : lens con (list Z) :=
  Lens cn_buf (fun v r => Con (cn_lock r) v (cn_r r) (cn_w r) (cn_e r) (ut_lock r) (ut_buf r)
    (ut_w r) (ut_r r) (dv_lsr r) (dv_rhr r) (dv_out r) (pr_lock r) (pr_locking r) (panicked r)
    (cn_connected r)).
Definition cn_r_l : lens con (Z) :=
  Lens cn_r (fun v r => Con (cn_lock r) (cn_buf r) v (cn_w r) (cn_e r) (ut_lock r) (ut_buf r)
    (ut_w r) (ut_r r) (dv_lsr r) (dv_rhr r) (dv_out r) (pr_lock r) (pr_locking r) (panicked r)
    (cn_connected r)).
Definition cn_w_l : lens con (Z) :=
  Lens cn_w (fun v r => Con (cn_lock r) (cn_buf r) (cn_r r) v (cn_e r) (ut_lock r) (ut_buf r)
    (ut_w r) (ut_r r) (dv_lsr r) (dv_rhr r) (dv_out r) (pr_lock r) (pr_locking r) (panicked r)
    (cn_connected r)).
Definition cn_e_l : lens con (Z) :=
  Lens cn_e (fun v r => Con (cn_lock r) (cn_buf r) (cn_r r) (cn_w r) v (ut_lock r) (ut_buf r)
    (ut_w r) (ut_r r) (dv_lsr r) (dv_rhr r) (dv_out r) (pr_lock r) (pr_locking r) (panicked r)
    (cn_connected r)).
Definition ut_lock_l : lens con (spinlock) :=
  Lens ut_lock (fun v r => Con (cn_lock r) (cn_buf r) (cn_r r) (cn_w r) (cn_e r) v (ut_buf r)
    (ut_w r) (ut_r r) (dv_lsr r) (dv_rhr r) (dv_out r) (pr_lock r) (pr_locking r) (panicked r)
    (cn_connected r)).
Definition ut_buf_l : lens con (list Z) :=
  Lens ut_buf (fun v r => Con (cn_lock r) (cn_buf r) (cn_r r) (cn_w r) (cn_e r) (ut_lock r) v
    (ut_w r) (ut_r r) (dv_lsr r) (dv_rhr r) (dv_out r) (pr_lock r) (pr_locking r) (panicked r)
    (cn_connected r)).
Definition ut_w_l : lens con (Z) :=
  Lens ut_w (fun v r => Con (cn_lock r) (cn_buf r) (cn_r r) (cn_w r) (cn_e r) (ut_lock r)
    (ut_buf r) v (ut_r r) (dv_lsr r) (dv_rhr r) (dv_out r) (pr_lock r) (pr_locking r) (panicked
    r) (cn_connected r)).
Definition ut_r_l : lens con (Z) :=
  Lens ut_r (fun v r => Con (cn_lock r) (cn_buf r) (cn_r r) (cn_w r) (cn_e r) (ut_lock r)
    (ut_buf r) (ut_w r) v (dv_lsr r) (dv_rhr r) (dv_out r) (pr_lock r) (pr_locking r) (panicked
    r) (cn_connected r)).
Definition dv_lsr_l : lens con (nat) :=
  Lens dv_lsr (fun v r => Con (cn_lock r) (cn_buf r) (cn_r r) (cn_w r) (cn_e r) (ut_lock r)
    (ut_buf r) (ut_w r) (ut_r r) v (dv_rhr r) (dv_out r) (pr_lock r) (pr_locking r) (panicked
    r) (cn_connected r)).
Definition dv_rhr_l : lens con (nat) :=
  Lens dv_rhr (fun v r => Con (cn_lock r) (cn_buf r) (cn_r r) (cn_w r) (cn_e r) (ut_lock r)
    (ut_buf r) (ut_w r) (ut_r r) (dv_lsr r) v (dv_out r) (pr_lock r) (pr_locking r) (panicked
    r) (cn_connected r)).
Definition dv_out_l : lens con (list (Z * Z)) :=
  Lens dv_out (fun v r => Con (cn_lock r) (cn_buf r) (cn_r r) (cn_w r) (cn_e r) (ut_lock r)
    (ut_buf r) (ut_w r) (ut_r r) (dv_lsr r) (dv_rhr r) v (pr_lock r) (pr_locking r) (panicked
    r) (cn_connected r)).
Definition pr_lock_l : lens con (spinlock) :=
  Lens pr_lock (fun v r => Con (cn_lock r) (cn_buf r) (cn_r r) (cn_w r) (cn_e r) (ut_lock r)
    (ut_buf r) (ut_w r) (ut_r r) (dv_lsr r) (dv_rhr r) (dv_out r) v (pr_locking r) (panicked r)
    (cn_connected r)).
Definition pr_locking_l : lens con (Z) :=
  Lens pr_locking (fun v r => Con (cn_lock r) (cn_buf r) (cn_r r) (cn_w r) (cn_e r) (ut_lock r)
    (ut_buf r) (ut_w r) (ut_r r) (dv_lsr r) (dv_rhr r) (dv_out r) (pr_lock r) v (panicked r)
    (cn_connected r)).
Definition panicked_l : lens con (Z) :=
  Lens panicked (fun v r => Con (cn_lock r) (cn_buf r) (cn_r r) (cn_w r) (cn_e r) (ut_lock r)
    (ut_buf r) (ut_w r) (ut_r r) (dv_lsr r) (dv_rhr r) (dv_out r) (pr_lock r) (pr_locking r) v
    (cn_connected r)).
Definition cn_connected_l : lens con (bool) :=
  Lens cn_connected (fun v r => Con (cn_lock r) (cn_buf r) (cn_r r) (cn_w r) (cn_e r) (ut_lock
    r) (ut_buf r) (ut_w r) (ut_r r) (dv_lsr r) (dv_rhr r) (dv_out r) (pr_lock r) (pr_locking r)
    (panicked r) v).

#[export] Instance cn_lock_laws : LensLaws cn_lock_l.
Proof. by split; [split|]; intros; repeat match goal with x : con |- _ => destruct x end. Qed.
#[export] Instance cn_buf_laws : LensLaws cn_buf_l.
Proof. by split; [split|]; intros; repeat match goal with x : con |- _ => destruct x end. Qed.
#[export] Instance cn_r_laws : LensLaws cn_r_l.
Proof. by split; [split|]; intros; repeat match goal with x : con |- _ => destruct x end. Qed.
#[export] Instance cn_w_laws : LensLaws cn_w_l.
Proof. by split; [split|]; intros; repeat match goal with x : con |- _ => destruct x end. Qed.
#[export] Instance cn_e_laws : LensLaws cn_e_l.
Proof. by split; [split|]; intros; repeat match goal with x : con |- _ => destruct x end. Qed.
#[export] Instance ut_lock_laws : LensLaws ut_lock_l.
Proof. by split; [split|]; intros; repeat match goal with x : con |- _ => destruct x end. Qed.
#[export] Instance ut_buf_laws : LensLaws ut_buf_l.
Proof. by split; [split|]; intros; repeat match goal with x : con |- _ => destruct x end. Qed.
#[export] Instance ut_w_laws : LensLaws ut_w_l.
Proof. by split; [split|]; intros; repeat match goal with x : con |- _ => destruct x end. Qed.
#[export] Instance ut_r_laws : LensLaws ut_r_l.
Proof. by split; [split|]; intros; repeat match goal with x : con |- _ => destruct x end. Qed.
#[export] Instance dv_lsr_laws : LensLaws dv_lsr_l.
Proof. by split; [split|]; intros; repeat match goal with x : con |- _ => destruct x end. Qed.
#[export] Instance dv_rhr_laws : LensLaws dv_rhr_l.
Proof. by split; [split|]; intros; repeat match goal with x : con |- _ => destruct x end. Qed.
#[export] Instance dv_out_laws : LensLaws dv_out_l.
Proof. by split; [split|]; intros; repeat match goal with x : con |- _ => destruct x end. Qed.
#[export] Instance pr_lock_laws : LensLaws pr_lock_l.
Proof. by split; [split|]; intros; repeat match goal with x : con |- _ => destruct x end. Qed.
#[export] Instance pr_locking_laws : LensLaws pr_locking_l.
Proof. by split; [split|]; intros; repeat match goal with x : con |- _ => destruct x end. Qed.
#[export] Instance panicked_laws : LensLaws panicked_l.
Proof. by split; [split|]; intros; repeat match goal with x : con |- _ => destruct x end. Qed.
#[export] Instance cn_connected_laws : LensLaws cn_connected_l.
Proof. by split; [split|]; intros; repeat match goal with x : con |- _ => destruct x end. Qed.

Abbreviation cst := (pst * con)%type.
Abbreviation cn := snd_l.
Abbreviation cnlk := (snd_l ⊚ cn_lock_l).
Abbreviation utlk := (snd_l ⊚ ut_lock_l).
Abbreviation prlk := (snd_l ⊚ pr_lock_l).

Section Console.
Variables (lsr rhr : nat -> Z).
(** Bounds the polls of the status register, and the times a process is woken
    to find its condition as it was. *)
Variable fuel : nat.

(** [for (;;);] *)
Definition hang {A} : M cst A := loop fuel tt (fun _ => mret (inl tt)).

(** * The device registers and uart.c *)

Definition ReadLSR : M cst Z :=
  n ← rd (cn ⊚ dv_lsr_l);
  _ ← cn ⊚ dv_lsr_l <~ S n;
  mret (lsr n).
Definition ReadRHR : M cst Z :=
  n ← rd (cn ⊚ dv_rhr_l);
  _ ← cn ⊚ dv_rhr_l <~ S n;
  mret (rhr n).
Definition WriteReg (reg v : Z) : M cst unit :=
  md (cn ⊚ dv_out_l) (fun o => o ++ [(reg, u8 v)]).

Definition uartinit : M cst unit :=
  _ ← WriteReg IER 0x00;
  _ ← WriteReg LCR (Z.shiftl 1 7);
  _ ← WriteReg 0 0x03;
  _ ← WriteReg 1 0x00;
  _ ← WriteReg LCR (Z.shiftl 3 0);
  _ ← WriteReg FCR (Z.lor (Z.shiftl 1 0) (Z.shiftl 3 1));
  _ ← WriteReg IER (Z.lor (Z.shiftl 1 1) (Z.shiftl 1 0));
  utlk <~ Spin 0 "uart" None.

(** One turn of [uartstart]. *)
Definition uartstart_turn : M cst (unit + unit) :=
  c ← rd cn;
  if ut_w c =? ut_r c then mret (inr tt)
  else
    st ← ReadLSR;
    if Z.land st LSR_TX_IDLE =? 0 then mret (inr tt)
    else
      let ch := cell UART_TX_BUF_SIZE (ut_buf c) (ut_r c) in
      _ ← cn ⊚ ut_r_l <~ u64 (ut_r c + 1);
      _ ← zoom fst_l (wakeup CUart);
      _ ← WriteReg THR ch;
      mret (inl tt).
Definition uartstart : M cst unit := loop fuel tt (fun _ => uartstart_turn).

Definition uartputc_turn (c : Z) : M cst (unit + unit) :=
  s ← rd cn;
  if ut_w s =? u64 (ut_r s + UART_TX_BUF_SIZE) then
    _ ← sleep fst_l CUart utlk; mret (inl tt)
  else
    _ ← md (cn ⊚ ut_buf_l) (fun b => cput UART_TX_BUF_SIZE b (ut_w s) (u8 c));
    _ ← cn ⊚ ut_w_l <~ u64 (ut_w s + 1);
    _ ← uartstart;
    _ ← release phart utlk;
    mret (inr tt).
Definition uartputc (c : Z) : M cst unit :=
  _ ← acquire phart utlk;
  p ← rd (cn ⊚ panicked_l);
  _ ← when (truth p) hang;
  loop fuel tt (fun _ => uartputc_turn c).

(** [while ((ReadReg(LSR) & LSR_TX_IDLE) == 0);] *)
Definition wait_idle : M cst unit :=
  loop fuel tt (fun _ =>
    st ← ReadLSR;
    mret (if Z.land st LSR_TX_IDLE =? 0 then inl tt else inr tt)).
Definition uartputc_sync (c : Z) : M cst unit :=
  _ ← zoom phart push_off;
  p ← rd (cn ⊚ panicked_l);
  _ ← when (truth p) hang;
  _ ← wait_idle;
  _ ← WriteReg THR c;
  zoom phart pop_off.

Definition uartgetc : M cst Z :=
  st ← ReadLSR;
  if truth (Z.land st 0x01) then ReadRHR else mret (-1).

(** * Formatted output (printf.c) *)

Definition consputc (c : Z) : M cst unit :=
  if c =? BACKSPACE then
    _ ← uartputc_sync 8; _ ← uartputc_sync 32; uartputc_sync 8
  else uartputc_sync c.

(** [digits] of the kernel. *)
Definition kdigits : list Z := chars "0123456789abcdef".
Definition puts (o : list Z) : M cst unit := for_each o consputc.

Definition printstring (s : list Z) : M cst unit := o ← lift "printstring" (cstr s); puts o.
Definition printint (xx base : Z) (sign : bool) : M cst unit :=
  o ← lift "printint: buf" (int_chars kdigits xx base sign); puts o.
Definition printptr (x : Z) : M cst unit := puts (ptr_chars kdigits (u64 x)).

(** What a conversion prints, with the arguments it leaves. *)
Definition printf_conv (c : Z) (ap : list vararg) : M cst (list vararg) :=
  if c =? 100 then
    '(z, ap) ← lift "va_arg" (va_int ap); _ ← printint z 10 true; mret ap
  else if c =? 120 then
    '(z, ap) ← lift "va_arg" (va_int ap); _ ← printint z 16 true; mret ap
  else if c =? 112 then
    '(z, ap) ← lift "va_arg" (va_int ap); _ ← printptr z; mret ap
  else if c =? 115 then
    '(s, ap) ← lift "va_arg" (va_str ap); _ ← puts s; mret ap
  else if c =? 37 then _ ← consputc 37; mret ap
  else _ ← consputc 37; _ ← consputc c; mret ap.

(** The loop over the format; it stops at the NUL, also after a [%]. *)
Fixpoint printf_loop (fmt : list Z) (ap : list vararg) : M cst unit :=
  match fmt with
  | [] => undef "fmt"
  | c :: fmt' =>
      if c =? 0 then mret tt
      else if negb (c =? 37) then _ ← consputc c; printf_loop fmt' ap
      else match fmt' with
           | [] => undef "fmt"
           | c :: fmt'' =>
               if c =? 0 then mret tt else ap ← printf_conv c ap; printf_loop fmt'' ap
           end
  end.
(** [None] is the null format. *)
Definition printf (fmt : option (list Z)) (ap : list vararg) : M cst unit :=
  locking ← rd (cn ⊚ pr_locking_l);
  _ ← when (truth locking) (acquire phart prlk);
  match fmt with
  | None => _ ← consputc 65; panic "null fmt"
  | Some fmt =>
      _ ← printf_loop fmt ap;
      when (truth locking) (release phart prlk)
  end.
Definition serious_print (fmt : option (list Z)) (ap : list vararg) : M cst unit :=
  locking ← rd (cn ⊚ pr_locking_l);
  _ ← when (truth locking) (acquire phart prlk);
  match fmt with
  | None => _ ← consputc 65; panic "null fmt"
  | Some fmt =>
      _ ← printf_loop fmt ap;
      when (truth locking) (release phart prlk)
  end.
Definition printfinit : M cst unit :=
  _ ← prlk <~ Spin 0 "pr" None;
  cn ⊚ pr_locking_l <~ 1.

(** [procdump] of proc.c: one line a process in use. *)
Definition state_name (st : procstate) : list Z :=
  match st with
  | UNUSED => literal "unused"
  | SLEEPING => literal "sleep "
  | RUNNABLE => literal "runble"
  | RUNNING => literal "run   "
  | ZOMBIE => literal "zombie"
  | USED => literal "???"
  end.
Definition procdump : M cst unit :=
  _ ← printf (Some ([10] ++ chars "PID" ++ [9] ++ chars "STATE" ++ [9] ++ chars "NAME" ++ [9]
                    ++ chars "MEM" ++ [10; 0])) [];
  for_each nproc (fun p =>
    pr ← rd (fst_l ⊚ proc_l p);
    if bool_decide (p_state pr = UNUSED) then mret tt
    else
      _ ← printf (Some (chars "%d" ++ [9] ++ chars "%s" ++ [9] ++ chars "%s" ++ [9] ++ literal "%d"))
            [VInt (p_pid pr); VStr (Some (state_name (p_state pr))); VStr (Some (p_name pr)); VInt (p_sz pr)];
      printf (Some [10; 0]) []).

(** * console.c *)

Definition consolewrite_turn (user_src src i : Z) (cnt : Z) : M cst (Z + Z) :=
  '(r, bs) ← zoom fst_l (either_copyin user_src (u64 (src + i)) 1);
  if r =? -1 then mret (inr cnt)
  else _ ← uartputc_sync (hd 0 bs); mret (inl (cnt + 1)).
Definition consolewrite (user_src src n : Z) : M cst Z :=
  _ ← acquire phart cnlk;
  r ← for_acc (seqZ 0 n) 0 (consolewrite_turn user_src src);
  _ ← release phart cnlk;
  mret (match r with inl i => i | inr i => i end).

(** [while (cons.r == cons.w)]: [false] if the reader was killed, with the lock
    released. *)
Definition input_turn : M cst (unit + bool) :=
  c ← rd cn;
  if cn_r c =? cn_w c then
    p ← zoom fst_l cur;
    pr ← rd (fst_l ⊚ proc_l p);
    if truth (p_killed pr) then _ ← release phart cnlk; mret (inr false)
    else _ ← sleep fst_l CCons cnlk; mret (inl tt)
  else mret (inr true).

(** One turn of the loop of [consoleread]; [None] is the return of a killed
    reader. *)
Definition consoleread_turn (user_dst target : Z) '((dst, n) : Z * Z)
    : M cst (Z * Z + option Z) :=
  if n <=? 0 then mret (inr (Some n))
  else
    ok ← loop fuel tt (fun _ => input_turn);
    if negb ok then mret (inr None)
    else
      s ← rd cn;
      _ ← cn ⊚ cn_r_l <~ u32 (cn_r s + 1);
      let c := cell INPUT_BUF (cn_buf s) (cn_r s) in
      if c =? ctrl 68 then
        _ ← when (u32 n <? target) (md (cn ⊚ cn_r_l) (fun r => u32 (r - 1)));
        mret (inr (Some n))
      else
        r ← zoom fst_l (either_copyout user_dst dst [c]);
        if r =? -1 then mret (inr (Some n))
        else if c =? 10 then mret (inr (Some (n - 1)))
        else mret (inl (u64 (dst + 1), n - 1)).
Definition consoleread (user_dst dst n : Z) : M cst Z :=
  let target := u32 n in
  _ ← acquire phart cnlk;
  r ← loop (S (Z.to_nat n)) (dst, n) (consoleread_turn user_dst target);
  match r with
  | None => mret (-1)
  | Some n' => _ ← release phart cnlk; mret (s32 (target - n'))
  end.

(** The loop of control-U. *)
Definition kill_turn : M cst (unit + unit) :=
  c ← rd cn;
  if negb (cn_e c =? cn_w c) && negb (cell INPUT_BUF (cn_buf c) (u32 (cn_e c - 1)) =? 10) then
    _ ← cn ⊚ cn_e_l <~ u32 (cn_e c - 1);
    _ ← consputc BACKSPACE;
    mret (inl tt)
  else mret (inr tt).
Definition erase : M cst unit :=
  c ← rd cn;
  if negb (cn_e c =? cn_w c) then
    _ ← cn ⊚ cn_e_l <~ u32 (cn_e c - 1);
    consputc BACKSPACE
  else mret tt.
Definition accept (c : Z) : M cst unit :=
  s ← rd cn;
  if negb (c =? 0) && (u32 (cn_e s - cn_r s) <? INPUT_BUF) then
    let c := if c =? 13 then 10 else c in
    _ ← consputc c;
    _ ← md (cn ⊚ cn_buf_l) (fun b => cput INPUT_BUF b (cn_e s) (u8 c));
    _ ← cn ⊚ cn_e_l <~ u32 (cn_e s + 1);
    s ← rd cn;
    when ((c =? 10) || (c =? ctrl 68) || (cn_e s =? u32 (cn_r s + INPUT_BUF)))
      (_ ← cn ⊚ cn_w_l <~ cn_e s;
       zoom fst_l (wakeup CCons))
  else mret tt.
Definition consoleintr (c : Z) : M cst unit :=
  _ ← acquire phart cnlk;
  _ ← (if c =? ctrl 80 then procdump
       else if c =? ctrl 85 then loop (S (Z.to_nat INPUT_BUF)) tt (fun _ => kill_turn)
       else if (c =? ctrl 72) || (c =? 127) then erase
       else accept c);
  release phart cnlk.

Definition uartintr_turn : M cst (unit + unit) :=
  c ← uartgetc;
  if c =? -1 then mret (inr tt) else _ ← consoleintr c; mret (inl tt).
Definition uartintr : M cst unit :=
  _ ← loop fuel tt (fun _ => uartintr_turn);
  _ ← acquire phart utlk;
  _ ← uartstart;
  release phart utlk.

Definition consoleinit : M cst unit :=
  _ ← cnlk <~ Spin 0 "cons" None;
  _ ← uartinit;
  cn ⊚ cn_connected_l <~ true.
End Console.

(** * What the console does *)

(** The console after its device was sent [o]; the status register has been
    read up to [n]. *)
Definition said (o : list Z) (n : nat) (c : con) : con :=
  update dv_lsr_l n (update dv_out_l (dv_out c ++ map (pair THR) o) c).

Lemma said_said o1 o2 n1 n2 c : said o2 n2 (said o1 n1 c) = said (o1 ++ o2) n2 c.
Proof. destruct c. unfold said. cbn. by rewrite map_app, app_assoc. Qed.

(** The device is ready again within the polls the code is given. *)
Definition responds (lsr : nat -> Z) (fuel : nat) : Prop :=
  forall n : nat, exists j : nat, (j < fuel)%nat /\ Z.land (lsr (n + j)%nat) LSR_TX_IDLE <> 0.

Section Output.
Variables (lsr : nat -> Z) (fuel : nat).
Hypothesis responsive : responds lsr fuel.

Lemma wait_idle_ok q c f : forall j n, (j < f)%nat -> Z.land (lsr (n + j)) LSR_TX_IDLE <> 0 ->
  wp (loop f tt (fun _ => st ← ReadLSR lsr; mret (if Z.land st LSR_TX_IDLE =? 0 then inl tt else inr tt)))
     (fun _ s => exists n', s = (q, update dv_lsr_l n' c)) (q, update dv_lsr_l n c).
Proof using Type.
  induction f as [|f IH]; intros j n Hj Hl; [lia|]. cbn [loop]. apply wp_bind.
  unfold ReadLSR. wp_run. cbn [view update lcomp snd_l fst snd dv_lsr_l dv_lsr].
  destruct (Z.eqb_spec (Z.land (lsr n) LSR_TX_IDLE) 0) as [E|E].
  - destruct j as [|j]; [by rewrite Nat.add_0_r in Hl|]. apply (IH j (S n)); [lia|].
    by rewrite Nat.add_succ_comm.
  - apply wp_mret. by exists (S n).
Qed.
Lemma wp_wait_idle q c (Q : unit -> cst -> Prop) :
  (forall n, Q tt (q, update dv_lsr_l n c)) -> wp (wait_idle lsr fuel) Q (q, c).
Proof using responsive.
  intros HQ. destruct (responsive (dv_lsr c)) as (j & Hj & Hl). eapply wp_mono.
  - pose proof (wait_idle_ok q c fuel j (dv_lsr c) Hj Hl) as Hw.
    replace (update dv_lsr_l (dv_lsr c) c) with c in Hw by (by destruct c). exact Hw.
  - intros [] s (n & ->). apply HQ.
Qed.

Lemma wp_sync ch q c (Q : unit -> cst -> Prop) : settled (view hart_l q) -> panicked c = 0 ->
  (forall n, Q tt (q, said [u8 ch] n c)) -> wp (uartputc_sync lsr fuel ch) Q (q, c).
Proof using responsive.
  intros Hs Hp HQ. pose proof Hs as [[Hok Hn] Hcr]. unfold uartputc_sync.
  apply wp_bind, wp_zoom. eapply wp_eq; [by apply push_off_eq, Hok|].
  change (update phart (pushed (view phart (q, c))) (q, c)) with (inq q, c).
  apply wp_bind, wp_rd. cbn [view lcomp snd_l snd panicked_l]. rewrite Hp. cbn [truth Z.eqb negb when].
  apply wp_bind, wp_mret, wp_bind, wp_wait_idle. intros n. apply wp_bind. unfold WriteReg. wp_run.
  destruct (pushed_ok _ Hok Hn) as [Hok' Hn']. pose proof (ok_noff _ Hok).
  eapply wp_eq.
  { apply pop_off_eq; cbn [view lcomp fst_l snd_l update fst snd]; rewrite inq_hart; [done|lia]. }
  cbn [view lcomp fst_l snd_l update fst snd]. rewrite inq_hart.
  fold (crit (view hart_l q)). rewrite Hcr, inq_out. exact (HQ n).
Qed.

(** What [consputc] sends. *)
Definition echoed (ch : Z) : list Z := if ch =? BACKSPACE then [8; 32; 8] else [u8 ch].
Lemma wp_consputc ch q c (Q : unit -> cst -> Prop) : settled (view hart_l q) -> panicked c = 0 ->
  (forall n, Q tt (q, said (echoed ch) n c)) -> wp (consputc lsr fuel ch) Q (q, c).
Proof using responsive.
  intros Hs Hp HQ. unfold consputc, echoed in *. destruct (ch =? BACKSPACE); [|by apply wp_sync].
  do 2 (apply wp_bind, wp_sync; [done|done|]; intros ?). apply wp_sync; [done|done|]. intros n2.
  rewrite !said_said. apply HQ.
Qed.
Lemma wp_puts o : forall q c (Q : unit -> cst -> Prop), settled (view hart_l q) -> panicked c = 0 ->
  (forall n, Q tt (q, said (flat_map echoed o) n c)) -> wp (puts lsr fuel o) Q (q, c).
Proof using responsive.
  induction o as [|ch o IH]; intros q c Q Hs Hp HQ.
  - apply wp_mret. specialize (HQ (dv_lsr c)). cbn in HQ. unfold said in HQ. cbn in HQ.
    rewrite app_nil_r in HQ. by destruct c.
  - unfold puts. cbn [for_each]. apply wp_bind, wp_consputc; [done|done|]. intros n1.
    apply IH; [done|done|]. intros n2. rewrite said_said. apply HQ.
Qed.
End Output.

(** ** The line editor *)

(** What the console holds for readers, and the line being typed. *)
Definition nready (c : con) : Z := (cn_w c - cn_r c) mod 2 ^ 32.
Definition ntyped (c : con) : Z := (cn_e c - cn_w c) mod 2 ^ 32.
Definition ready (c : con) : list Z := circ INPUT_BUF (cn_buf c) (cn_r c) (nready c).
Definition typed (c : con) : list Z := circ INPUT_BUF (cn_buf c) (cn_w c) (ntyped c).

Record con_wf (c : con) : Prop := {
  co_lock : unheld (cn_lock c);
  co_len : length (cn_buf c) = 128%nat;
  co_r : 0 <= cn_r c < 2 ^ 32;
  co_w : 0 <= cn_w c < 2 ^ 32;
  co_e : 0 <= cn_e c < 2 ^ 32;
  co_fill : nready c + ntyped c <= INPUT_BUF
}.
Definition con_ok (c : con) : Prop := con_wf c /\ 10 ∉ typed c.

(** What a key does to them. *)
Definition edit (ch : Z) '((rd, ln) : list Z * list Z) : list Z * list Z :=
  if ch =? 16 then (rd, ln)
  else if ch =? 21 then (rd, [])
  else if (ch =? 8) || (ch =? 127) then (rd, removelast ln)
  else if (ch =? 0) || (128 <=? Z.of_nat (length (rd ++ ln))) then (rd, ln)
  else
    let ch := if ch =? 13 then 10 else ch in
    let ln := ln ++ [ch] in
    if (ch =? 10) || (ch =? 4) || (Z.of_nat (length (rd ++ ln)) =? 128) then (rd ++ ln, [])
    else (rd, ln).
(** What it shows of the key: a blank over each character it takes back. *)
Definition shown (ch : Z) '((rd, ln) : list Z * list Z) : list Z :=
  if ch =? 21 then flat_map (fun _ => [8; 32; 8]) ln
  else if (ch =? 8) || (ch =? 127) then match ln with [] => [] | _ => [8; 32; 8] end
  else if (ch =? 0) || (128 <=? Z.of_nat (length (rd ++ ln))) then []
  else [if ch =? 13 then 10 else ch].
(** A reader is woken when there is more for it. *)
Definition wakes (ch : Z) (t : list Z * list Z) : bool := bool_decide ((edit ch t).1 <> t.1).

Lemma nready_range c : 0 <= nready c.
Proof. apply Z.mod_pos_bound. lia. Qed.
Lemma ntyped_range c : 0 <= ntyped c.
Proof. apply Z.mod_pos_bound. lia. Qed.
Lemma length_ready c : Z.of_nat (length (ready c)) = nready c.
Proof. unfold ready. rewrite length_circ. pose proof (nready_range c). lia. Qed.
Lemma length_typed c : Z.of_nat (length (typed c)) = ntyped c.
Proof. unfold typed. rewrite length_circ. pose proof (ntyped_range c). lia. Qed.
Lemma nothing_typed c : con_wf c -> cn_e c = cn_w c <-> ntyped c = 0.
Proof. intros []. unfold ntyped. zlia. Qed.
Lemma nothing_ready c : con_wf c -> cn_r c = cn_w c <-> nready c = 0.
Proof. intros []. unfold nready. zlia. Qed.

(** Changes that leave what is held alone. *)
Lemma held_same c c' : con_ok c -> unheld (cn_lock c') ->
  cn_buf c' = cn_buf c -> cn_r c' = cn_r c -> cn_w c' = cn_w c -> cn_e c' = cn_e c ->
  con_ok c' /\ ready c' = ready c /\ typed c' = typed c.
Proof.
  intros [[H1 H2 H3 H4 H5 H6] H7] Hu Eb Er Ew Ee.
  assert (ready c' = ready c) as Hr by (unfold ready, nready; congruence).
  assert (typed c' = typed c) as Ht by (unfold typed, ntyped; congruence).
  split; [|done]. split; [|by rewrite Ht]. split; unfold nready, ntyped in *; congruence.
Qed.

(** The last character typed, taken back. *)
Definition back1 (c : con) : con := update cn_e_l (u32 (cn_e c - 1)) c.
Lemma back1_ok c : con_ok c -> ntyped c <> 0 ->
  con_ok (back1 c) /\ ready (back1 c) = ready c /\ exists x, typed c = typed (back1 c) ++ [x]
  /\ x = cell INPUT_BUF (cn_buf c) (u32 (cn_e c - 1)).
Proof.
  intros [[H1 H2 H3 H4 H5 H6] H7] Hn. pose proof (ntyped_range c).
  assert (ntyped (back1 c) = ntyped c - 1) as E.
  { unfold back1, ntyped, INPUT_BUF in *. cbn [cn_e_l update cn_e cn_w]. zlia. }
  assert (typed c = typed (back1 c) ++ [cell INPUT_BUF (cn_buf c) (u32 (cn_e c - 1))]) as Ht.
  { unfold typed. rewrite E. replace (ntyped c) with (ntyped c - 1 + 1) at 1 by lia.
    rewrite circ_snoc by lia. f_equal. f_equal. apply cell_mod.
    unfold ntyped, INPUT_BUF. zlia. }
  split; [|split; [done|by eexists]]. split.
  - split; [done..|apply u32_range|]. change (nready (back1 c)) with (nready c). lia.
  - intros Hin. apply H7. rewrite Ht. apply elem_of_app. by left.
Qed.

(** A character typed, and the line committed. *)
Definition type1 (ch : Z) (c : con) : con :=
  update cn_e_l (u32 (cn_e c + 1)) (update cn_buf_l (cput INPUT_BUF (cn_buf c) (cn_e c) (u8 ch)) c).
Definition commit (c : con) : con := update cn_w_l (cn_e c) c.

Lemma circ_keep n buf s k i x : 0 < n -> length buf = Z.to_nat n -> 0 <= k ->
  s + k <= i < s + n -> circ n (cput n buf i x) s k = circ n buf s k.
Proof.
  intros Hn Hl Hk Hi. unfold circ. apply map_ext_in. intros j Hj%seqZ_In.
  rewrite cell_cput by done. rewrite decide_False; [done|]. intros E. symmetry in E. revert E.
  apply mod_ne; lia.
Qed.

Lemma type1_ok ch c : con_wf c -> nready c + ntyped c < INPUT_BUF -> 0 <= ch < 256 ->
  con_wf (type1 ch c) /\ ready (type1 ch c) = ready c /\ typed (type1 ch c) = typed c ++ [ch].
Proof.
  intros [H1 H2 H3 H4 H5 H6] Hlt Hch. pose proof (ntyped_range c). pose proof (nready_range c).
  assert (ntyped (type1 ch c) = ntyped c + 1) as E.
  { unfold type1, ntyped, nready, INPUT_BUF in *. cbn [cn_e_l cn_buf_l update cn_e cn_w]. zlia. }
  assert (forall k, k mod 2 ^ 32 = cn_e c mod 2 ^ 32 ->
    cn_buf (type1 ch c) = cput INPUT_BUF (cn_buf c) k ch) as Eb.
  { intros k Hk. unfold type1. cbn [cn_e_l cn_buf_l update cn_buf]. rewrite u8_small by done.
    unfold cput, INPUT_BUF. do 2 f_equal. zlia. }
  split; [|split].
  - split; [done| |done|done|apply u32_range|].
    + unfold type1. cbn [cn_e_l cn_buf_l update cn_buf]. by rewrite length_cput.
    + change (nready (type1 ch c)) with (nready c). lia.
  - unfold ready. change (nready (type1 ch c)) with (nready c).
    change (cn_r (type1 ch c)) with (cn_r c).
    rewrite (Eb (cn_r c + nready c + ntyped c)) by (unfold nready, ntyped; zlia).
    apply circ_keep; [done|done|done|lia].
  - unfold typed. rewrite E. change (cn_w (type1 ch c)) with (cn_w c).
    rewrite (Eb (cn_w c + ntyped c)) by (unfold ntyped; zlia).
    apply circ_push; [done|done|lia].
Qed.
Lemma commit_ok c : con_wf c ->
  con_ok (commit c) /\ ready (commit c) = ready c ++ typed c /\ typed (commit c) = [].
Proof.
  intros [H1 H2 H3 H4 H5 H6]. pose proof (ntyped_range c). pose proof (nready_range c).
  assert (nready (commit c) = nready c + ntyped c) as E.
  { unfold commit, nready, ntyped, INPUT_BUF in *. cbn [cn_w_l update cn_w cn_r]. zlia. }
  assert (ntyped (commit c) = 0) as E0.
  { unfold commit, ntyped. cbn [cn_w_l update cn_w cn_e]. by rewrite Z.sub_diag. }
  assert (typed (commit c) = []) as Et by (unfold typed; by rewrite E0).
  split; [split|split].
  - split; [done..|]. lia.
  - rewrite Et. apply not_elem_of_nil.
  - unfold ready, typed. rewrite E. change (cn_buf (commit c)) with (cn_buf c).
    change (cn_r (commit c)) with (cn_r c). rewrite circ_app by done. f_equal.
    apply circ_mod; [done|]. unfold nready, INPUT_BUF. zlia.
  - done.
Qed.

Section Editor.
Variables (lsr : nat -> Z) (fuel : nat).
Hypothesis responsive : responds lsr fuel.
Variable q : pst.
Hypothesis q_ok : quiet q /\ c_noff (view mycpu_l (view hart_l q)) < 2 ^ 31 - 4.

(** Inside the section that guards the console. *)
Abbreviation cin c := (inq q, lkc cn_lock_l q c).

Lemma inq_settled : settled (view hart_l (inq q)).
Proof using q_ok. destruct q_ok as [Hq Hn]. apply (q_hart _ (inq_quiet q Hq ltac:(lia))). Qed.

Lemma wp_echo ch c (Q : unit -> cst -> Prop) : panicked c = 0 ->
  (forall n, Q tt (cin (said (echoed ch) n c))) -> wp (consputc lsr fuel ch) Q (cin c).
Proof using responsive q_ok.
  intros Hp HQ. apply (wp_consputc lsr fuel responsive); [apply inq_settled|exact Hp|]. exact HQ.
Qed.

(** A character taken back, with its blank. *)
Definition taken_back (c c' : con) : Prop :=
  con_ok c' /\ ready c' = ready c /\ typed c' = removelast (typed c) /\ panicked c' = panicked c /\
  dv_out c' = dv_out c ++ map (pair THR) [8; 32; 8].

Lemma back_one c n : con_ok c -> ntyped c <> 0 -> taken_back c (said [8; 32; 8] n (back1 c)).
Proof using Type.
  intros Hc Hn. destruct (back1_ok c Hc Hn) as (Hc1 & Er & x & Et & _).
  destruct (held_same (back1 c) (said [8; 32; 8] n (back1 c))) as (Hc2 & Er2 & Et2);
    [done|apply Hc1|done..|].
  split; [done|]. split; [congruence|]. split; [|done].
  rewrite Et2, Et. by rewrite removelast_last.
Qed.

Lemma wp_erase c (Q : unit -> cst -> Prop) : con_ok c -> panicked c = 0 ->
  (forall c', (if decide (ntyped c = 0) then c' = c else taken_back c c') -> Q tt (cin c')) ->
  wp (erase lsr fuel) Q (cin c).
Proof using responsive q_ok.
  intros Hc Hp HQ. unfold erase. do 2 wp_step. cbn [view snd_l snd].
  change (cn_e (lkc cn_lock_l q c)) with (cn_e c). change (cn_w (lkc cn_lock_l q c)) with (cn_w c).
  pose proof (nothing_typed c (proj1 Hc)) as Hiff.
  destruct (Z.eqb_spec (cn_e c) (cn_w c)) as [E|E]; cbn [negb].
  - apply wp_mret, HQ. rewrite decide_True by tauto. done.
  - do 2 wp_step. apply (wp_echo BACKSPACE (back1 c)); [done|]. intros n. apply HQ.
    rewrite decide_False by tauto. apply back_one; tauto.
Qed.

Lemma wp_kill c (Q : unit -> cst -> Prop) : con_ok c -> panicked c = 0 ->
  (forall c', con_ok c' -> ready c' = ready c -> typed c' = [] -> panicked c' = 0 ->
     dv_out c' = dv_out c ++ map (pair THR) (flat_map (fun _ => [8; 32; 8]) (typed c)) -> Q tt (cin c')) ->
  wp (loop (S (Z.to_nat INPUT_BUF)) tt (fun _ => kill_turn lsr fuel)) Q (cin c).
Proof using responsive q_ok.
  intros Hc Hp HQ.
  apply (wp_loop _ (fun _ s => exists c', s = cin c' /\ con_ok c' /\ ready c' = ready c /\ panicked c' = 0 /\
    dv_out c' ++ map (pair THR) (flat_map (fun _ => [8; 32; 8]) (typed c'))
    = dv_out c ++ map (pair THR) (flat_map (fun _ => [8; 32; 8]) (typed c)))
    (fun _ s => Z.to_nat (ntyped s.2))); [by exists c| |].
  { destruct Hc as [[_ _ _ _ _ Hf] _]. pose proof (nready_range c).
    change (ntyped (cin c).2) with (ntyped c). lia. }
  intros [] s (c' & -> & Hc' & Er & Hp' & Eo). unfold kill_turn. do 2 wp_step. cbn [view snd_l snd].
  change (cn_e (lkc cn_lock_l q c')) with (cn_e c'). change (cn_w (lkc cn_lock_l q c')) with (cn_w c').
  change (cn_buf (lkc cn_lock_l q c')) with (cn_buf c').
  pose proof (nothing_typed c' (proj1 Hc')) as Hiff.
  destruct (Z.eqb_spec (cn_e c') (cn_w c')) as [E|E]; cbn [negb andb].
  - apply wp_mret. assert (typed c' = []) as Et by (unfold typed; by rewrite (proj1 Hiff E)).
    apply HQ; try done. rewrite Et in Eo. cbn in Eo. by rewrite app_nil_r in Eo.
  - assert (ntyped c' <> 0) as Hn by tauto.
    destruct (back1_ok c' Hc' Hn) as (_ & _ & x & Et & Ex).
    destruct (Z.eqb_spec (cell INPUT_BUF (cn_buf c') (u32 (cn_e c' - 1))) 10) as [E10|_]; cbn [negb].
    { exfalso. apply (proj2 Hc'). rewrite Et, Ex, E10. apply elem_of_app. right. by left. }
    do 2 wp_step. apply wp_bind, (wp_echo BACKSPACE (back1 c')); [done|]. intros n. apply wp_mret.
    change (echoed BACKSPACE) with [8; 32; 8].
    destruct (back_one c' n Hc' Hn) as (H1 & H2 & H3 & H4 & H5). split.
    + eexists. split; [done|]. split; [done|]. split; [congruence|]. split; [congruence|].
      rewrite H5, H3, <- Eo, <- app_assoc, <- map_app. do 2 f_equal. rewrite Et, removelast_last.
      rewrite flat_map_app. cbn [flat_map]. rewrite app_nil_r. clear. induction (typed (back1 c')) as [|a l IH]; [done|].
      cbn [flat_map app]. by rewrite <- IH.
    + enough (lt (Z.to_nat (ntyped (said [8; 32; 8] n (back1 c')))) (Z.to_nat (ntyped c'))) as Hm by exact Hm.
      rewrite <- (length_typed c'), <- (length_typed (said _ _ _)), H3, Et, removelast_last, length_app.
      cbn [length]. lia.
Qed.

(** The total held, as the code computes it. *)
Lemma held_count c : con_wf c -> u32 (cn_e c - cn_r c) = nready c + ntyped c.
Proof using Type. intros []. unfold nready, ntyped, INPUT_BUF in *. zlia. Qed.
Lemma full_test c : con_wf c -> (cn_e c = u32 (cn_r c + INPUT_BUF) <-> nready c + ntyped c = INPUT_BUF).
Proof using Type. intros []. unfold nready, ntyped, INPUT_BUF in *. zlia. Qed.

(** What [accept] does with a character there is room for. *)
Definition accepted (ch : Z) (c : con) : con :=
  let c1 := type1 ch c in
  if (ch =? 10) || (ch =? 4) || (nready c1 + ntyped c1 =? INPUT_BUF) then commit c1 else c1.

Lemma wp_accept_char ch c (Q : unit -> cst -> Prop) : con_wf c -> panicked c = 0 ->
  ch <> 0 -> 0 <= ch < 256 -> nready c + ntyped c < INPUT_BUF ->
  let ch' := if ch =? 13 then 10 else ch in
  (forall q' c' n, c' = accepted ch' (said [ch'] n c) ->
     (if (ch' =? 10) || (ch' =? 4) || (nready c + ntyped c + 1 =? INPUT_BUF)
      then woken_all CCons q q' /\ view hart_l q' = view hart_l q else q' = q) ->
     Q tt (inq q', lkc cn_lock_l q c')) ->
  wp (accept lsr fuel ch) Q (cin c).
Proof using responsive q_ok.
  intros Hc Hp H0 Hr Hlt ch' HQ. assert (0 <= ch' < 256) as Hr' by (unfold ch'; destruct (ch =? 13); lia).
  unfold accept. do 2 wp_step. cbn [view snd_l snd].
  change (cn_e (lkc cn_lock_l q c)) with (cn_e c). change (cn_r (lkc cn_lock_l q c)) with (cn_r c).
  rewrite held_count, (proj2 (Z.eqb_neq ch 0)), (proj2 (Z.ltb_lt _ _)) by done. cbn [negb andb].
  fold ch'. apply wp_bind, (wp_echo ch' c); [done|]. intros n. assert (echoed ch' = [ch']) as ->.
  { unfold echoed, BACKSPACE. rewrite (proj2 (Z.eqb_neq ch' 0x100)), u8_small by lia. done. }
  specialize (HQ). set (c1 := type1 ch' (said [ch'] n c)).
  assert (con_wf (said [ch'] n c)) as Hcs by (destruct Hc; by split).
  destruct (type1_ok ch' (said [ch'] n c)) as (Hc1 & _ & Et); [done|done|done|].
  assert (ntyped c1 = ntyped c + 1) as En.
  { rewrite <- length_typed. unfold c1. rewrite Et, length_app. cbn [length].
    change (typed (said [ch'] n c)) with (typed c). rewrite Nat2Z.inj_add, length_typed. lia. }
  wp_run. cbn [view snd_l snd].
  match goal with |- wp (when ?b ?m) ?Q ?s =>
    change (wp (when ((ch' =? 10) || (ch' =? 4) || (cn_e c1 =? u32 (cn_r c1 + INPUT_BUF))) m) Q (cin c1)) end.
  assert ((cn_e c1 =? u32 (cn_r c1 + INPUT_BUF)) = (nready c + ntyped c + 1 =? INPUT_BUF)) as ->.
  { pose proof (full_test c1 Hc1) as Hf. change (nready c1) with (nready c) in Hf. rewrite En in Hf.
    destruct (Z.eqb_spec (cn_e c1) (u32 (cn_r c1 + INPUT_BUF))), (Z.eqb_spec (nready c + ntyped c + 1) INPUT_BUF); lia. }
  assert (accepted ch' (said [ch'] n c)
    = if (ch' =? 10) || (ch' =? 4) || (nready c + ntyped c + 1 =? INPUT_BUF) then commit c1 else c1) as Ea.
  { unfold accepted. fold c1. change (nready c1) with (nready c). rewrite En. by rewrite Z.add_assoc. }
  destruct (_ || _) eqn:Eb; unfold when.
  - do 2 wp_step. apply wp_zoom. destruct q_ok as [Hq Hn].
    apply (wp_wakeup CCons q); [done|lia|]. intros q' Hw Eh.
    apply (HQ q' (commit c1) n); [done|by split].
  - apply wp_mret, (HQ q c1 n); [done|done].
Qed.
End Editor.

(** ** Keys *)

Lemma edit_accept ch c n : con_ok c -> ch <> 0 -> 0 <= ch < 256 ->
  ch <> 16 -> ch <> 21 -> ch <> 8 -> ch <> 127 -> nready c + ntyped c < INPUT_BUF ->
  let ch' := if ch =? 13 then 10 else ch in
  let b := (ch' =? 10) || (ch' =? 4) || (nready c + ntyped c + 1 =? INPUT_BUF) in
  let c' := accepted ch' (said [ch'] n c) in
  con_ok c' /\ panicked c' = panicked c /\ (ready c', typed c') = edit ch (ready c, typed c) /\
  dv_out c' = dv_out c ++ map (pair THR) (shown ch (ready c, typed c)) /\
  wakes ch (ready c, typed c) = b.
Proof.
  intros [Hc Hl] H0 Hr H16 H21 H8 H127 Hlt ch' b c'.
  assert (0 <= ch' < 256) as Hr' by (unfold ch'; destruct (ch =? 13); lia).
  set (c0 := said [ch'] n c). assert (con_wf c0) as Hc0 by (destruct Hc; by split).
  destruct (type1_ok ch' c0) as (Hc1 & Er & Et); [done|done|done|].
  change (ready c0) with (ready c) in Er. change (typed c0) with (typed c) in Et.
  assert (nready (type1 ch' c0) + ntyped (type1 ch' c0) = nready c + ntyped c + 1) as En.
  { rewrite <- !length_ready, <- !length_typed, Er, Et, length_app. cbn [length]. lia. }
  assert ((ch =? 0) || (128 <=? Z.of_nat (length (ready c ++ typed c))) = false) as Eroom.
  { rewrite length_app, Nat2Z.inj_add, length_ready, length_typed. unfold INPUT_BUF in Hlt. lia. }
  assert (edit ch (ready c, typed c)
    = if b then (ready c ++ typed c ++ [ch'], []) else (ready c, typed c ++ [ch'])) as Ee.
  { unfold edit. rewrite Eroom, (proj2 (Z.eqb_neq ch 16)), (proj2 (Z.eqb_neq ch 21)),
      (proj2 (Z.eqb_neq ch 8)), (proj2 (Z.eqb_neq ch 127)) by done. cbn [orb]. fold ch'.
    rewrite !length_app, !Nat2Z.inj_add, length_ready, length_typed. cbn [length Z.of_nat].
    unfold b, INPUT_BUF. rewrite Z.add_assoc. done. }
  assert (c' = if b then commit (type1 ch' c0) else type1 ch' c0) as Ec.
  { unfold c', accepted. fold c0. by rewrite En. }
  split; [|split; [|split; [|split]]].
  - rewrite Ec. destruct b eqn:Eb; [by apply commit_ok|]. split; [done|]. rewrite Et.
    intros [?|Hin%list_elem_of_singleton]%elem_of_app; [done|]. unfold b in Eb. rewrite <- Hin in Eb. done.
  - rewrite Ec. by destruct b.
  - rewrite Ee, Ec. destruct b; [|by rewrite Er, Et].
    destruct (commit_ok (type1 ch' c0) Hc1) as (_ & -> & ->). by rewrite Er, Et.
  - assert (shown ch (ready c, typed c) = [ch']) as ->; [|rewrite Ec; by destruct b].
    unfold shown. rewrite Eroom, (proj2 (Z.eqb_neq ch 21)), (proj2 (Z.eqb_neq ch 8)),
      (proj2 (Z.eqb_neq ch 127)) by done. done.
  - unfold wakes. rewrite Ee. destruct b; cbn [fst].
    + apply bool_decide_eq_true. intros E%(f_equal length). rewrite !length_app in E. cbn in E. lia.
    + apply bool_decide_eq_false. tauto.
Qed.

(** The console and the system after a key. *)
Definition keyed (ch : Z) (q : pst) (c : con) '((q', c') : cst) : Prop :=
  con_ok c' /\ panicked c' = 0 /\ (ready c', typed c') = edit ch (ready c, typed c) /\
  dv_out c' = dv_out c ++ map (pair THR) (shown ch (ready c, typed c)) /\
  (if wakes ch (ready c, typed c) then woken_all CCons q q' else q' = q).

Lemma no_wake ch t : edit ch t = t \/ (exists l, edit ch t = (t.1, l)) -> wakes ch t = false.
Proof.
  intros H. apply bool_decide_eq_false_2. destruct H as [-> | [l ->]]; tauto.
Qed.

Section Keys.
Variables (lsr : nat -> Z) (fuel : nat) (ch : Z) (q : pst) (c : con).
Hypothesis Hdev : responds lsr fuel.
Hypothesis Hq : quiet q.
Hypothesis Hn : c_noff (view mycpu_l (view hart_l q)) < 2 ^ 31 - 4.
Hypothesis Hc : con_ok c.
Hypothesis Hp : panicked c = 0.
Hypothesis Hr : 0 <= ch < 256.
Hypothesis H16 : ch <> 16.

(** The handler's section around [m]. *)
Abbreviation section m := (_ ← m; release phart cnlk).
Abbreviation post := (fun (_ : unit) s => keyed ch q c s).

Lemma key_kill : ch = 21 ->
  wp (section (loop (S (Z.to_nat INPUT_BUF)) tt (fun _ => kill_turn lsr fuel))) post (inq q, lkc cn_lock_l q c).
Proof using All.
  intros E. apply wp_bind, (wp_kill lsr fuel Hdev q (conj Hq Hn)); [done|done|].
  intros c' Hc' Er Et Hp' Eo. apply (wp_unlock cn_lock_l); [apply (q_hart _ Hq)|apply Hc'|].
  rewrite E. split; [done|]. split; [done|]. split; [by rewrite Er, Et|]. split; [done|].
  rewrite no_wake; [done|]. right. by eexists.
Qed.

Lemma key_erase : ch <> 21 -> (ch =? 8) || (ch =? 127) = true ->
  wp (section (erase lsr fuel)) post (inq q, lkc cn_lock_l q c).
Proof using All.
  intros H21 E8. apply wp_bind, (wp_erase lsr fuel Hdev q (conj Hq Hn)); [done|done|]. intros c' Hc'.
  assert (edit ch (ready c, typed c) = (ready c, removelast (typed c))) as Ee
    by (unfold edit; by rewrite E8, (proj2 (Z.eqb_neq ch 16)), (proj2 (Z.eqb_neq ch 21)) by done).
  assert (shown ch (ready c, typed c) = match typed c with [] => [] | _ => [8; 32; 8] end) as Es
    by (unfold shown; by rewrite E8, (proj2 (Z.eqb_neq ch 21)) by done).
  assert (wakes ch (ready c, typed c) = false) as Ew by (apply no_wake; right; eauto).
  apply (wp_unlock cn_lock_l); [apply (q_hart _ Hq)|by destruct (decide _); [subst c'|]; apply Hc || apply Hc'|].
  unfold keyed. rewrite Ee, Es, Ew. destruct (decide (ntyped c = 0)) as [E|E].
  - subst c'. assert (typed c = []) as -> by (unfold typed; by rewrite E). cbn. by rewrite app_nil_r.
  - destruct Hc' as (H1 & H2 & H3 & H4 & H5). rewrite H2, H3. split; [done|]. split; [congruence|].
    split; [done|]. split; [|done]. rewrite H5. destruct (typed c) as [|x l] eqn:Et; [|done].
    apply (f_equal length), (f_equal Z.of_nat) in Et. by rewrite length_typed in Et.
Qed.

Lemma key_accept : ch <> 0 -> ch <> 21 -> ch <> 8 -> ch <> 127 -> nready c + ntyped c < INPUT_BUF ->
  wp (section (accept lsr fuel ch)) post (inq q, lkc cn_lock_l q c).
Proof using All.
  intros H0 H21 H8 H127 Hlt. pose proof (q_hart _ Hq) as Hh.
  apply wp_bind, (wp_accept_char lsr fuel Hdev q (conj Hq Hn)); [apply Hc|done|done|done|done|].
  intros q' c' n -> Hwk. pose proof (edit_accept ch c n Hc H0 Hr H16 H21 H8 H127 Hlt) as He.
  cbn zeta in *. destruct He as (H1 & H2 & H3 & H4 & H5).
  apply (wp_unlock' cn_lock_l q q'); [done| |apply H1|].
  { destruct (_ || _); [by destruct Hwk|by subst]. }
  split; [done|]. split; [congruence|]. split; [done|]. split; [done|].
  rewrite H5. destruct (_ || _); [by destruct Hwk|done].
Qed.

Lemma key_dropped : ch <> 21 -> ch <> 8 -> ch <> 127 -> ch = 0 \/ INPUT_BUF <= nready c + ntyped c ->
  wp (section (accept lsr fuel ch)) post (inq q, lkc cn_lock_l q c).
Proof using All.
  intros H21 H8 H127 Hno. pose proof Hc as [Hw _].
  assert (negb (ch =? 0) && (u32 (cn_e c - cn_r c) <? INPUT_BUF) = false) as Eg.
  { rewrite (held_count c Hw). destruct (Z.eqb_spec ch 0); [done|]. cbn. apply Z.ltb_ge. lia. }
  assert ((ch =? 0) || (128 <=? Z.of_nat (length (ready c ++ typed c))) = true) as Efull.
  { rewrite length_app, Nat2Z.inj_add, length_ready, length_typed. unfold INPUT_BUF in Hno.
    destruct (Z.eqb_spec ch 0); [done|]. cbn. apply Z.leb_le. lia. }
  assert (edit ch (ready c, typed c) = (ready c, typed c)) as Ee.
  { unfold edit. by rewrite Efull, (proj2 (Z.eqb_neq ch 16)), (proj2 (Z.eqb_neq ch 21)),
      (proj2 (Z.eqb_neq ch 8)), (proj2 (Z.eqb_neq ch 127)) by done. }
  unfold accept. do 3 wp_step. cbn [view snd_l snd].
  change (cn_e (lkc cn_lock_l q c)) with (cn_e c). change (cn_r (lkc cn_lock_l q c)) with (cn_r c).
  rewrite Eg. apply wp_mret, (wp_unlock cn_lock_l); [apply (q_hart _ Hq)|apply Hw|].
  unfold keyed. rewrite Ee, no_wake by (by left). unfold shown.
  rewrite Efull, (proj2 (Z.eqb_neq ch 21)), (proj2 (Z.eqb_neq ch 8)), (proj2 (Z.eqb_neq ch 127)) by done.
  cbn. by rewrite app_nil_r.
Qed.
End Keys.

(** C37. The console's input handler is a line editor.  For every key but
    control-P, [consoleintr] leaves what the console holds for readers and the
    line being typed as [edit] says: control-U empties the line, backspace and
    delete take its last character back, a carriage return is a newline, a NUL
    and what finds 128 characters held are dropped, and a newline, a control-D
    or a full buffer hands the line over and wakes the readers, and nobody else
    is woken.  The echo sent to the device is exactly [shown]. *)
Theorem consoleintr_edits (lsr : nat -> Z) (fuel : nat) (ch : Z) (q : pst) (c : con) :
  responds lsr fuel -> quiet q -> c_noff (view mycpu_l (view hart_l q)) < 2 ^ 31 - 4 ->
  con_ok c -> panicked c = 0 -> 0 <= ch < 256 -> ch <> ctrl 80 ->
  let t := (ready c, typed c) in
  wp (consoleintr lsr fuel ch) (fun _ '(q', c') =>
    con_ok c' /\ panicked c' = 0 /\ (ready c', typed c') = edit ch t /\
    dv_out c' = dv_out c ++ map (pair THR) (shown ch t) /\
    (if wakes ch t then woken_all CCons q q' else q' = q)) (q, c).
Proof.
  intros Hdev Hq Hn Hc Hp Hr H16 t. change (ctrl 80) with 16 in *.
  unfold consoleintr. change (ctrl 80) with 16. change (ctrl 85) with 21. change (ctrl 72) with 8.
  apply wp_bind, (wp_lock cn_lock_l); [apply (q_hart _ Hq)|apply Hc|].
  rewrite (proj2 (Z.eqb_neq ch 16)) by done.
  destruct (Z.eqb_spec ch 21) as [E21|E21]; [by apply key_kill|].
  destruct ((ch =? 8) || (ch =? 127)) eqn:E8; [by apply key_erase|].
  apply orb_false_iff in E8 as [E8%Z.eqb_neq E127%Z.eqb_neq].
  destruct (decide (ch <> 0 /\ nready c + ntyped c < INPUT_BUF)) as [[H0 Hlt]|Hno];
    [by apply key_accept|apply key_dropped; try done].
  destruct (decide (ch = 0)); [by left|right]. apply Z.le_ngt. tauto.
Qed.

(** ** Lines read *)

(** What a read of [n] bytes takes of the bytes held, and what it leaves;
    [None] if it waits.  A control-D ends the input: it is kept for the next
    read unless it comes first. *)
Fixpoint take_line (n : nat) (first : bool) (rd : list Z) : option (list Z * list Z) :=
  match n, rd with
  | O, _ => Some ([], rd)
  | S _, [] => None
  | S n', c :: rd' =>
      if c =? 4 then Some ([], if first then rd' else rd)
      else if c =? 10 then Some ([10], rd')
      else '(x, y) ← take_line n' false rd'; Some (c :: x, y)
  end.

Lemma take_line_length n : forall b rd x y, take_line n b rd = Some (x, y) -> (length x <= n)%nat.
Proof.
  induction n as [|n IH]; intros b [|c rd] x y; cbn [take_line]; intros E; try injection E as <- <-;
    try done; cbn; try lia.
  destruct (c =? 4); [injection E as <- <-; cbn; lia|].
  destruct (c =? 10); [injection E as <- <-; cbn; lia|].
  destruct (take_line n false rd) as [[x' y']|] eqn:E'; [|done]. injection E as <- <-.
  apply IH in E'. cbn. lia.
Qed.

Definition take1 (c : con) : con := update cn_r_l (u32 (cn_r c + 1)) c.
Lemma take1_ok c : con_ok c -> nready c <> 0 ->
  con_ok (take1 c) /\ ready c = cell INPUT_BUF (cn_buf c) (cn_r c) :: ready (take1 c)
  /\ typed (take1 c) = typed c.
Proof.
  intros [[H1 H2 H3 H4 H5 H6] H7] Hn. pose proof (nready_range c).
  assert (nready (take1 c) = nready c - 1) as E.
  { unfold take1, nready in *. cbn [cn_r_l update cn_w cn_r]. zlia. }
  split; [split; [|exact H7]|split; [|done]].
  - split; [done|done|apply u32_range|done|done|]. change (ntyped (take1 c)) with (ntyped c). lia.
  - unfold ready. rewrite E, circ_cons by lia. f_equal. apply circ_mod; [done|].
    unfold take1. cbn [cn_r_l update cn_r]. unfold INPUT_BUF. zlia.
Qed.
Lemma untake1 c : 0 <= cn_r c < 2 ^ 32 -> update cn_r_l (u32 (u32 (cn_r c + 1) - 1)) (take1 c) = c.
Proof. intros H. destruct c. unfold take1. cbn in *. f_equal. zlia. Qed.

Section Reader.
Variables (fuel p : nat) (user dst n base : Z) (q : pst) (c : con).
Hypothesis fuel_pos : (0 < fuel)%nat.
Hypothesis Hr : runs p q.
Hypothesis Hc : con_ok c.
Hypothesis Hw : uwin user p q dst n base.
Hypothesis Hn : 0 <= n < 2 ^ 31.
Hypothesis Hdst : 0 <= dst /\ dst + n < 2 ^ 64.
Variables (bs rest : list Z).

(** After the bytes [g] have been delivered. *)
Definition reading (v : Z * Z) (s : cst) : Prop := exists g c' b2,
  v = (dst + Z.of_nat (length g), n - Z.of_nat (length g)) /\ Z.of_nat (length g) <= n /\
  s = (inq (wmem q base g), lkc cn_lock_l q c') /\ con_ok c' /\ typed c' = typed c /\
  dv_out c' = dv_out c /\
  take_line (Z.to_nat (n - Z.of_nat (length g))) (bool_decide (g = [])) (ready c') = Some (b2, rest) /\
  bs = g ++ b2.
(** The end of the loop, [m] being what was not delivered. *)
Definition has_read (r : option Z) (s : cst) : Prop := exists c',
  r = Some (n - Z.of_nat (length bs)) /\ s = (inq (wmem q base bs), lkc cn_lock_l q c') /\
  con_ok c' /\ ready c' = rest /\ typed c' = typed c /\ dv_out c' = dv_out c.

Lemma input_here q' c' (Q : bool -> cst -> Prop) : con_ok c' -> nready c' <> 0 ->
  Q true (q', lkc cn_lock_l q c') -> wp (loop fuel tt (fun _ => input_turn)) Q (q', lkc cn_lock_l q c').
Proof using fuel_pos.
  intros Hc' Hn' HQ. destruct fuel as [|f]; [lia|]. cbn [loop]. unfold input_turn. do 3 wp_step.
  cbn [view snd_l snd]. change (cn_r (lkc cn_lock_l q c')) with (cn_r c').
  change (cn_w (lkc cn_lock_l q c')) with (cn_w c').
  rewrite (proj2 (Z.eqb_neq _ _)); [by wp_run|]. rewrite (nothing_ready c' (proj1 Hc')). done.
Qed.

Lemma read_turn_step v s : reading v s ->
  wp (consoleread_turn fuel user (u32 n) v) (fun r s' => match r with
     | inl v' => reading v' s' /\ (Z.to_nat v'.2 < Z.to_nat v.2)%nat
     | inr r => has_read r s' end) s.
Proof using All.
  intros (g & c' & b2 & -> & Hg & -> & Hc' & Ht & Ho & Htl & Hbs). unfold consoleread_turn.
  destruct (Z.leb_spec (n - Z.of_nat (length g)) 0) as [Hz|Hz].
  { apply wp_mret. replace (Z.to_nat (n - Z.of_nat (length g))) with 0%nat in Htl by lia.
    injection Htl as <- <-. rewrite app_nil_r in Hbs. exists c'. by rewrite Hbs. }
  replace (Z.to_nat (n - Z.of_nat (length g))) with (S (Z.to_nat (n - Z.of_nat (length g) - 1))) in Htl by lia.
  assert (nready c' <> 0) as Hne.
  { intros E. unfold ready in Htl. by rewrite E in Htl. }
  destruct (take1_ok c' Hc' Hne) as (Hc1 & Ec & Et1). rewrite Ec in Htl. cbn [take_line] in Htl.
  apply wp_bind, input_here; [done|done|]. cbn [negb]. wp_run. cbn [view snd_l snd].
  change (cn_r (lkc cn_lock_l q c')) with (cn_r c'). change (cn_buf (lkc cn_lock_l q c')) with (cn_buf c').
  change (update (cn ⊚ cn_r_l) (u32 (cn_r c' + 1)) (inq (wmem q base g), lkc cn_lock_l q c'))
    with (inq (wmem q base g), lkc cn_lock_l q (take1 c')).
  change (ctrl 68) with 4. set (ch := cell _ _ _) in *. destruct (ch =? 4).
  - injection Htl as <- Erest. rewrite app_nil_r in Hbs. unfold has_read. rewrite Hbs.
    rewrite u32_small by lia. rewrite (u32_small n) by lia.
    destruct (bool_decide_reflect (g = [])) as [->|Hg0].
    + rewrite (proj2 (Z.ltb_ge _ _)) by (cbn; lia). unfold when. wp_run. exists (take1 c').
      rewrite Et1. done.
    + rewrite (proj2 (Z.ltb_lt _ _)) by (destruct g; [done|cbn; lia]). unfold when. wp_run. exists c'.
      rewrite <- Erest, <- Ec. split; [done|]. split; [|done].
      exact (f_equal (fun x => (inq (wmem q base g), lkc cn_lock_l q x)) (untake1 c' (co_r _ (proj1 Hc')))).
  - apply wp_bind, wp_zoom.
    eapply wp_eq.
    { apply (copyout_uwin user p (wmem q base g) dst n base (Z.of_nat (length g)) [ch]);
        [by apply runs_wmem|apply uwin_wmem; [done|lia|lia]|lia|cbn; lia]. }
    rewrite wmem_app. cbn beta iota. cbn [Z.eqb].
    change (update fst_l ?a (?x, ?y)) with (a, y).
    destruct (Z.eqb_spec ch 10) as [E10|H10].
    + injection Htl as <- Erest. apply wp_mret. exists (take1 c').
      rewrite Et1, Hbs, E10, length_app. cbn [length]. split; [f_equal; lia|]. done.
    + destruct (take_line (Z.to_nat (n - Z.of_nat (length g) - 1)) false (ready (take1 c'))) as [[x y]|] eqn:E; [|done].
      cbn in Htl. injection Htl as <- ->. apply wp_mret.
      split; [|cbn; lia]. exists (g ++ [ch]), (take1 c'), x. rewrite length_app. cbn [length].
      rewrite u64_small by lia.
      split; [f_equal; lia|]. split; [lia|]. split; [done|]. split; [done|]. split; [congruence|].
      split; [done|]. split; [|by rewrite <- app_assoc].
      rewrite bool_decide_eq_false_2 by (by destruct g). rewrite <- E. f_equal. lia.
Qed.
End Reader.

(** C38. When the console holds a line, or the bytes asked for, [consoleread]
    does not wait: it delivers to the reader's buffer exactly the bytes
    [take_line] takes, up to and including the first newline, returns their
    number, and leaves the rest, the line being typed and the device alone.  A
    control-D ends what is delivered; it is taken away only when it comes
    first, so that the next read returns 0. *)
Theorem consoleread_line (fuel p : nat) (user dst n base : Z) (q : pst) (c : con) (bs rest : list Z) :
  (0 < fuel)%nat -> runs p q -> con_ok c -> uwin user p q dst n base ->
  0 <= n < 2 ^ 31 -> 0 <= dst /\ dst + n < 2 ^ 64 ->
  take_line (Z.to_nat n) true (ready c) = Some (bs, rest) ->
  wp (consoleread fuel user dst n) (fun r '(q', c') =>
    r = Z.of_nat (length bs) /\ q' = wmem q base bs /\ con_ok c' /\
    ready c' = rest /\ typed c' = typed c /\ dv_out c' = dv_out c) (q, c).
Proof.
  intros Hf Hr Hc Hw Hn Hd Htl. pose proof (runs_settled _ _ Hr) as Hh. unfold consoleread.
  apply wp_bind, (wp_lock cn_lock_l); [done|apply Hc|]. apply wp_bind.
  apply (wp_loop _ (reading dst n base q c bs rest) (fun v _ => Z.to_nat v.2)).
  - exists [], c, bs. cbn [length Z.of_nat]. rewrite Z.add_0_r, Z.sub_0_r, wmem_nil.
    rewrite bool_decide_eq_true_2 by done. repeat (split; [done || lia|]). done.
  - cbn. lia.
  - intros v s Hi. eapply wp_mono; [by apply (read_turn_step fuel p user dst n base q c)|].
    intros [v'|r] s'; [done|]. intros (c' & -> & -> & Hc' & Er & Et & Eo). apply wp_bind.
    apply (wp_unlock' cn_lock_l q (wmem q base bs)); [done|done|apply Hc'|]. apply wp_mret.
    split; [|done]. rewrite u32_small by lia.
    assert (Z.of_nat (length bs) <= n) as Hb; [|rewrite s32_small by lia; lia].
    apply take_line_length in Htl. lia.
Qed.

(** A console that holds a line, and two characters of the next one. *)
Definition demo_con : con :=
  Con (Spin 0 "cons" None) (chars "hi" ++ [10] ++ chars "ab" ++ replicate 123 0) 0 3 5
    (Spin 0 "uart" None) (replicate 32 0) 0 0 0 0 [] (Spin 0 "pr" None) 1 0 true.
Lemma demo_con_ok : con_ok demo_con.
Proof. split; [by split|]. vm_compute. intros H. repeat (apply elem_of_cons in H as [?|H]; [done|]). by apply not_elem_of_nil in H. Qed.
Lemma demo_responds : responds (fun _ => 32) 1.
Proof. intros n. exists 0%nat. split; [lia|done]. Qed.

(** Backspace on it. *)
Lemma consoleintr_edits_witness :
  wp (consoleintr (fun _ => 32) 1 8) (fun _ '(q', c') =>
    con_ok c' /\ panicked c' = 0 /\ (ready c', typed c') = (chars "hi" ++ [10], chars "a") /\
    dv_out c' = [(0, 8); (0, 32); (0, 8)] /\ q' = demo_pst) (demo_pst, demo_con).
Proof.
  exact (consoleintr_edits (fun _ => 32) 1 8 demo_pst demo_con demo_responds
    (r_quiet _ _ demo_runs) ltac:(done) demo_con_ok eq_refl ltac:(done) ltac:(done)).
Defined.

(** A read of eight bytes into kernel memory takes the line. *)
Lemma consoleread_line_witness :
  wp (consoleread 1 0 0x9000000090000000 8) (fun r '(q', c') =>
    r = 3 /\ q' = wmem demo_pst 0x9000000090000000 (chars "hi" ++ [10]) /\ con_ok c' /\
    ready c' = [] /\ typed c' = chars "ab" /\ dv_out c' = []) (demo_pst, demo_con).
Proof.
  exact (consoleread_line 1 0 0 0x9000000090000000 8 0x9000000090000000 demo_pst demo_con
    (chars "hi" ++ [10]) [] ltac:(lia) demo_runs demo_con_ok eq_refl ltac:(lia) ltac:(lia) eq_refl).
Defined.
