(* ===== verification/File.v ===== *)
(** Open files: kernel/file.c, and [pipealloc] of kernel/pipe.c.

    [kern] is the state of the kernel from here on: the layers below side by
    side, the table of open files, the device table and the pipes, each kept
    under the address of the page it was allocated in.  A file is its index in
    [ftable.file].  A [struct] copied out to the user is laid out as the
    compiler lays it out; the bytes of a variable that nobody writes are what
    the stack held, a parameter. *)

From S2P Require Import Prelude Mem Strings Digits Locks Kalloc Vm PageTable VmProps ProcState Vma Proc ProcFacts Sleeplock Bio Circ UserMem Pipe FatName Fat FatDir Console.

Definition NFILE : nat := 100.
Definition NDEV : nat := 10.
Definition CONSOLE : Z := 1.
Definition SEEK_SET : Z := 0.
Definition SEEK_CUR : Z := 1.
Definition SEEK_END : Z := 2.
Definition EMFILE : Z := 24.

Inductive ftype := FD_NONE | FD_PIPE | FD_ENTRY | FD_DEVICE | FD_SOCK | FD_NULL.
#[export] Instance ftype_eq_dec : EqDecision ftype.
Proof. solve_decision. Defined.

Record file := File {
  f_type : ftype;
  f_ref : Z;   (** reference count *)
  f_readable : Z;
  f_writable : Z;
  f_pipe : Z;   (** address of the pipe *)
  f_ep : option nat;   (** the directory entry *)
  f_off : Z;
  f_major : Z;
  f_sock : Z;
  f_socket_type : Z;
  f_t0_sec : Z;
  f_t0_nsec : Z;
  f_t1_sec : Z;
  f_t1_nsec : Z;
  f_socketnum : Z
}.

Definition f_type_l : lens file (ftype) :=
  Lens f_type (fun v r => File v (f_ref r) (f_readable r) (f_writable r) (f_pipe r) (f_ep r)
    (f_off r) (f_major r) (f_sock r) (f_socket_type r) (f_t0_sec r) (f_t0_nsec r) (f_t1_sec r)
    (f_t1_nsec r) (f_socketnum r)).
Definition f_ref_l : lens file (Z) :=
  Lens f_ref (fun v r => File (f_type r) v (f_readable r) (f_writable r) (f_pipe r) (f_ep r)
    (f_off r) (f_major r) (f_sock r) (f_socket_type r) (f_t0_sec r) (f_t0_nsec r) (f_t1_sec r)
    (f_t1_nsec r) (f_socketnum r)).
Definition f_readable_l : lens file (Z) :=
  Lens f_readable (fun v r => File (f_type r) (f_ref r) v (f_writable r) (f_pipe r) (f_ep r)
    (f_off r) (f_major r) (f_sock r) (f_socket_type r) (f_t0_sec r) (f_t0_nsec r) (f_t1_sec r)
    (f_t1_nsec r) (f_socketnum r)).
Definition f_writable_l : lens file (Z) :=
  Lens f_writable (fun v r => File (f_type r) (f_ref r) (f_readable r) v (f_pipe r) (f_ep r)
    (f_off r) (f_major r) (f_sock r) (f_socket_type r) (f_t0_sec r) (f_t0_nsec r) (f_t1_sec r)
    (f_t1_nsec r) (f_socketnum r)).
Definition f_pipe_l : lens file (Z) :=
  Lens f_pipe (fun v r => File (f_type r) (f_ref r) (f_readable r) (f_writable r) v (f_ep r)
    (f_off r) (f_major r) (f_sock r) (f_socket_type r) (f_t0_sec r) (f_t0_nsec r) (f_t1_sec r)
    (f_t1_nsec r) (f_socketnum r)).
Definition f_ep_l : lens file (option nat) :=
  Lens f_ep (fun v r => File (f_type r) (f_ref r) (f_readable r) (f_writable r) (f_pipe r) v
    (f_off r) (f_major r) (f_sock r) (f_socket_type r) (f_t0_sec r) (f_t0_nsec r) (f_t1_sec r)
    (f_t1_nsec r) (f_socketnum r)).
Definition f_off_l : lens file (Z) :=
  Lens f_off (fun v r => File (f_type r) (f_ref r) (f_readable r) (f_writable r) (f_pipe r)
    (f_ep r) v (f_major r) (f_sock r) (f_socket_type r) (f_t0_sec r) (f_t0_nsec r) (f_t1_sec r)
    (f_t1_nsec r) (f_socketnum r)).
Definition f_major_l : lens file (Z) :=
  Lens f_major (fun v r => File (f_type r) (f_ref r) (f_readable r) (f_writable r) (f_pipe r)
    (f_ep r) (f_off r) v (f_sock r) (f_socket_type r) (f_t0_sec r) (f_t0_nsec r) (f_t1_sec r)
    (f_t1_nsec r) (f_socketnum r)).
Definition f_sock_l : lens file (Z) :=
  Lens f_sock (fun v r => File (f_type r) (f_ref r) (f_readable r) (f_writable r) (f_pipe r)
    (f_ep r) (f_off r) (f_major r) v (f_socket_type r) (f_t0_sec r) (f_t0_nsec r) (f_t1_sec r)
    (f_t1_nsec r) (f_socketnum r)).
Definition f_socket_type_l : lens file (Z) :=
  Lens f_socket_type (fun v r => File (f_type r) (f_ref r) (f_readable r) (f_writable r)
    (f_pipe r) (f_ep r) (f_off r) (f_major r) (f_sock r) v (f_t0_sec r) (f_t0_nsec r) (f_t1_sec
    r) (f_t1_nsec r) (f_socketnum r)).
Definition f_t0_sec_l : lens file (Z) :=
  Lens f_t0_sec (fun v r => File (f_type r) (f_ref r) (f_readable r) (f_writable r) (f_pipe r)
    (f_ep r) (f_off r) (f_major r) (f_sock r) (f_socket_type r) v (f_t0_nsec r) (f_t1_sec r)
    (f_t1_nsec r) (f_socketnum r)).
Definition f_t0_nsec_l : lens file (Z) :=
  Lens f_t0_nsec (fun v r => File (f_type r) (f_ref r) (f_readable r) (f_writable r) (f_pipe r)
    (f_ep r) (f_off r) (f_major r) (f_sock r) (f_socket_type r) (f_t0_sec r) v (f_t1_sec r)
    (f_t1_nsec r) (f_socketnum r)).
Definition f_t1_sec_l : lens file (Z) :=
  Lens f_t1_sec (fun v r => File (f_type r) (f_ref r) (f_readable r) (f_writable r) (f_pipe r)
    (f_ep r) (f_off r) (f_major r) (f_sock r) (f_socket_type r) (f_t0_sec r) (f_t0_nsec r) v
    (f_t1_nsec r) (f_socketnum r)).
Definition f_t1_nsec_l : lens file (Z) :=
  Lens f_t1_nsec (fun v r => File (f_type r) (f_ref r) (f_readable r) (f_writable r) (f_pipe r)
    (f_ep r) (f_off r) (f_major r) (f_sock r) (f_socket_type r) (f_t0_sec r) (f_t0_nsec r)
    (f_t1_sec r) v (f_socketnum r)).
Definition f_socketnum_l : lens file (Z) :=
  Lens f_socketnum (fun v r => File (f_type r) (f_ref r) (f_readable r) (f_writable r) (f_pipe
    r) (f_ep r) (f_off r) (f_major r) (f_sock r) (f_socket_type r) (f_t0_sec r) (f_t0_nsec r)
    (f_t1_sec r) (f_t1_nsec r) v).

#[export] Instance f_type_laws : LensLaws f_type_l.
Proof. by split; [split|]; intros; repeat match goal with x : file |- _ => destruct x end. Qed.
#[export] Instance f_ref_laws : LensLaws f_ref_l.
Proof. by split; [split|]; intros; repeat match goal with x : file |- _ => destruct x end. Qed.
#[export] Instance f_readable_laws : LensLaws f_readable_l.
Proof. by split; [split|]; intros; repeat match goal with x : file |- _ => destruct x end. Qed.
#[export] Instance f_writable_laws : LensLaws f_writable_l.
Proof. by split; [split|]; intros; repeat match goal with x : file |- _ => destruct x end. Qed.
#[export] Instance f_pipe_laws : LensLaws f_pipe_l.
Proof. by split; [split|]; intros; repeat match goal with x : file |- _ => destruct x end. Qed.
#[export] Instance f_ep_laws : LensLaws f_ep_l.
Proof. by split; [split|]; intros; repeat match goal with x : file |- _ => destruct x end. Qed.
#[export] Instance f_off_laws : LensLaws f_off_l.
Proof. by split; [split|]; intros; repeat match goal with x : file |- _ => destruct x end. Qed.
#[export] Instance f_major_laws : LensLaws f_major_l.
Proof. by split; [split|]; intros; repeat match goal with x : file |- _ => destruct x end. Qed.
#[export] Instance f_sock_laws : LensLaws f_sock_l.
Proof. by split; [split|]; intros; repeat match goal with x : file |- _ => destruct x end. Qed.
#[export] Instance f_socket_type_laws : LensLaws f_socket_type_l.
Proof. by split; [split|]; intros; repeat match goal with x : file |- _ => destruct x end. Qed.
#[export] Instance f_t0_sec_laws : LensLaws f_t0_sec_l.
Proof. by split; [split|]; intros; repeat match goal with x : file |- _ => destruct x end. Qed.
#[export] Instance f_t0_nsec_laws : LensLaws f_t0_nsec_l.
Proof. by split; [split|]; intros; repeat match goal with x : file |- _ => destruct x end. Qed.
#[export] Instance f_t1_sec_laws : LensLaws f_t1_sec_l.
Proof. by split; [split|]; intros; repeat match goal with x : file |- _ => destruct x end. Qed.
#[export] Instance f_t1_nsec_laws : LensLaws f_t1_nsec_l.
Proof. by split; [split|]; intros; repeat match goal with x : file |- _ => destruct x end. Qed.
#[export] Instance f_socketnum_laws : LensLaws f_socketnum_l.
Proof. by split; [split|]; intros; repeat match goal with x : file |- _ => destruct x end. Qed.

(** The routines of a device are the console's or none ([cn_connected]). *)
Record devsw := Devsw {
  dev_name : list Z;
  dev_lk : spinlock
}.

Definition dev_name_l : lens devsw (list Z) :=
  Lens dev_name (fun v r => Devsw v (dev_lk r)).
Definition dev_lk_l : lens devsw (spinlock) :=
  Lens dev_lk (fun v r => Devsw (dev_name r) v).

#[export] Instance dev_name_laws : LensLaws dev_name_l.
Proof. by split; [split|]; intros; repeat match goal with x : devsw |- _ => destruct x end. Qed.
#[export] Instance dev_lk_laws : LensLaws dev_lk_l.
Proof. by split; [split|]; intros; repeat match goal with x : devsw |- _ => destruct x end. Qed.

Record kern := Kern {
  kn_p : pst;
  kn_b : bio;
  kn_f : fsys;
  kn_c : con;
  ft_lock : spinlock;   (** [ftable.lock] *)
  ft_file : gmap nat file;   (** [ftable.file] *)
  kn_devsw : gmap nat devsw;   (** names and locks; the routines are the console's *)
  kn_pipes : gmap Z pipe
}.

Definition kn_p_l : lens kern (pst) :=
  Lens kn_p (fun v r => Kern v (kn_b r) (kn_f r) (kn_c r) (ft_lock r) (ft_file r) (kn_devsw r)
    (kn_pipes r)).
Definition kn_b_l : lens kern (bio) :=
  Lens kn_b (fun v r => Kern (kn_p r) v (kn_f r) (kn_c r) (ft_lock r) (ft_file r) (kn_devsw r)
    (kn_pipes r)).
Definition kn_f_l : lens kern (fsys) :=
  Lens kn_f (fun v r => Kern (kn_p r) (kn_b r) v (kn_c r) (ft_lock r) (ft_file r) (kn_devsw r)
    (kn_pipes r)).
Definition kn_c_l : lens kern (con) :=
  Lens kn_c (fun v r => Kern (kn_p r) (kn_b r) (kn_f r) v (ft_lock r) (ft_file r) (kn_devsw r)
    (kn_pipes r)).
Definition ft_lock_l : lens kern (spinlock) :=
  Lens ft_lock (fun v r => Kern (kn_p r) (kn_b r) (kn_f r) (kn_c r) v (ft_file r) (kn_devsw r)
    (kn_pipes r)).
Definition ft_file_l : lens kern (gmap nat file) :=
  Lens ft_file (fun v r => Kern (kn_p r) (kn_b r) (kn_f r) (kn_c r) (ft_lock r) v (kn_devsw r)
    (kn_pipes r)).
Definition kn_devsw_l : lens kern (gmap nat devsw) :=
  Lens kn_devsw (fun v r => Kern (kn_p r) (kn_b r) (kn_f r) (kn_c r) (ft_lock r) (ft_file r) v
    (kn_pipes r)).
Definition kn_pipes_l : lens kern (gmap Z pipe) :=
  Lens kn_pipes (fun v r => Kern (kn_p r) (kn_b r) (kn_f r) (kn_c r) (ft_lock r) (ft_file r)
    (kn_devsw r) v).

#[export] Instance kn_p_laws : LensLaws kn_p_l.
Proof. by split; [split|]; intros; repeat match goal with x : kern |- _ => destruct x end. Qed.
#[export] Instance kn_b_laws : LensLaws kn_b_l.
Proof. by split; [split|]; intros; repeat match goal with x : kern |- _ => destruct x end. Qed.
#[export] Instance kn_f_laws : LensLaws kn_f_l.
Proof. by split; [split|]; intros; repeat match goal with x : kern |- _ => destruct x end. Qed.
#[export] Instance kn_c_laws : LensLaws kn_c_l.
Proof. by split; [split|]; intros; repeat match goal with x : kern |- _ => destruct x end. Qed.
#[export] Instance ft_lock_laws : LensLaws ft_lock_l.
Proof. by split; [split|]; intros; repeat match goal with x : kern |- _ => destruct x end. Qed.
#[export] Instance ft_file_laws : LensLaws ft_file_l.
Proof. by split; [split|]; intros; repeat match goal with x : kern |- _ => destruct x end. Qed.
#[export] Instance kn_devsw_laws : LensLaws kn_devsw_l.
Proof. by split; [split|]; intros; repeat match goal with x : kern |- _ => destruct x end. Qed.
#[export] Instance kn_pipes_laws : LensLaws kn_pipes_l.
Proof. by split; [split|]; intros; repeat match goal with x : kern |- _ => destruct x end. Qed.

Definition file0 : file := File FD_NONE 0 0 0 0 None 0 0 0 0 0 0 0 0 0.
Definition devsw0 : devsw := Devsw (replicate 13 0) (Spin 0 "" None).

(** The parts of the state the layers below run on. *)
Abbreviation khart := (kn_p_l ⊚ hart_l).
Definition kfs : lens kern fss := lpair kn_p_l (lpair kn_b_l kn_f_l).
Definition kcn : lens kern cst := lpair kn_p_l kn_c_l.
Definition kpipe (a : Z) : lens kern pist := lpair kn_p_l (kn_pipes_l ⊚ lmap a new_pipe).
Definition fl (f : nat) : lens kern file := ft_file_l ⊚ lmap f file0.
Definition dev (i : Z) : lens kern devsw := kn_devsw_l ⊚ lmap (Z.to_nat i) devsw0.

Definition kcur : M kern nat := zoom kn_p_l cur.
(** A field of the current process. *)
Definition mine {T} (l : lens proc T) : M kern T := p ← kcur; rd (kn_p_l ⊚ (proc_l p ⊚ l)).

(** [copyout(myproc()->pagetable, addr, &v, ...)] on a variable. *)
Definition copy_to_user (addr : Z) (bs : list Z) : M kern Z :=
  pt ← mine p_pagetable_l;
  zoom kn_p_l (kmem (copyout_bytes pt addr bs)).

Section File.
Variable kernel_end : Z.
(** The device, and the fuel of the layers below. *)
Variables (lsr : nat -> Z) (fuel cfuel dfuel : nat).
(** Where the compiler puts the buffer of [file_send]. *)
Variable stack_buf : Z.
(** What the stack holds where the variables are that are copied out. *)
Variables (kst_junk : kstat) (kst_tail : list Z) (st_junk : stat) (st_gap1 st_gap2 : list Z) (lde_junk : list Z).

(** * The table *)

(** [hashpath] of file.c. *)
Definition hashpath_dev (name : list Z) : option Z := hashpath name.

Definition fileinit : M kern unit :=
  _ ← ft_lock_l <~ Spin 0 "ftable" None;
  for_each (seq 0 NFILE) (fun f => fl f <~ file0).

Definition filealloc : M kern (option nat) :=
  _ ← acquire khart ft_lock_l;
  r ← for_until (seq 0 NFILE) (fun f =>
        r ← rd (fl f ⊚ f_ref_l);
        if r =? 0 then
          _ ← fl f ⊚ f_ref_l <~ 1;
          mret (Some f)
        else mret None);
  _ ← release khart ft_lock_l;
  mret r.

Definition filedup (f : nat) : M kern nat :=
  _ ← acquire khart ft_lock_l;
  r ← rd (fl f ⊚ f_ref_l);
  if r <? 1 then panic "filedup"
  else
    _ ← fl f ⊚ f_ref_l <~ s32 (r + 1);
    _ ← release khart ft_lock_l;
    mret f.

(** [pipeclose], with the page freed when both ends are closed. *)
Definition pipe_close (a writable : Z) : M kern unit :=
  gone ← zoom (kpipe a) (pipeclose (Z.to_nat a) writable);
  when (gone : bool) (zoom kn_p_l (kmem (kfree kernel_end a))).

Definition fileclose (f : nat) : M kern unit :=
  _ ← acquire khart ft_lock_l;
  r ← rd (fl f ⊚ f_ref_l);
  if r <? 1 then panic "fileclose"
  else
    _ ← fl f ⊚ f_ref_l <~ r - 1;
    if 0 <? r - 1 then release khart ft_lock_l
    else
      ff ← rd (fl f);
      _ ← fl f ⊚ f_ref_l <~ 0;
      _ ← fl f ⊚ f_type_l <~ FD_NONE;
      _ ← release khart ft_lock_l;
      match f_type ff with
      | FD_PIPE => pipe_close (f_pipe ff) (f_writable ff)
      | FD_ENTRY => zoom kfs (eput fuel cfuel dfuel (f_ep ff))
      | _ => mret tt
      end.

(** [pipealloc]: the two files, or [None] for -1. *)
Definition pipealloc : M kern (option (nat * nat)) :=
  o0 ← filealloc;
  o1 ← match o0 with Some _ => filealloc | None => mret None end;
  pi ← match o0, o1 with Some _, Some _ => zoom kn_p_l (kmem kalloc) | _, _ => mret 0 end;
  match o0, o1 with
  | Some f0, Some f1 =>
      if pi =? 0 then
        _ ← fileclose f0; _ ← fileclose f1; mret None
      else
        _ ← (kn_pipes_l ⊚ lmap pi new_pipe) <~ new_pipe;
        _ ← md (fl f0) (fun f => update f_pipe_l pi (update f_writable_l 0
                                   (update f_readable_l 1 (update f_type_l FD_PIPE f))));
        _ ← md (fl f1) (fun f => update f_pipe_l pi (update f_writable_l 1
                                   (update f_readable_l 0 (update f_type_l FD_PIPE f))));
        mret (Some (f0, f1))
  | _, _ =>
      _ ← match o0 with Some f0 => fileclose f0 | None => mret tt end;
      _ ← match o1 with Some f1 => fileclose f1 | None => mret tt end;
      mret None
  end.

(** * Reading and writing *)

(** [devsw[major].read] and [.write] are set. *)
Definition connected (major : Z) : M kern bool :=
  c ← rd (kn_c_l ⊚ cn_connected_l);
  if Z.of_nat NDEV <=? major then undef "devsw" else mret ((major =? CONSOLE) && (c : bool)).
Definition dev_read (major user addr n : Z) : M kern Z :=
  c ← connected major;
  if (c : bool) then zoom kcn (consoleread fuel user addr n) else undef "devsw[major].read".
Definition dev_write (major user addr n : Z) : M kern Z :=
  c ← connected major;
  if (c : bool) then zoom kcn (consolewrite lsr fuel user addr n) else undef "devsw[major].write".

Definition pipe_read (a user addr n : Z) : M kern Z := zoom (kpipe a) (piperead (Z.to_nat a) fuel user addr n).
Definition pipe_write (a user addr n : Z) : M kern Z := zoom (kpipe a) (pipewrite (Z.to_nat a) fuel user addr n).
Definition entry_read (e : option nat) (user addr off n : Z) : M kern Z :=
  e ← lift "f->ep" e;
  '(r, _) ← zoom kfs (eread fuel e (At user addr) off n); mret r.
Definition entry_write (e : option nat) (user addr off n : Z) : M kern Z :=
  e ← lift "f->ep" e; zoom kfs (ewrite fuel e (At user addr) off n).

(** The results are [uint64]. *)
Definition fileinput (f : nat) (user addr n off : Z) : M kern Z :=
  x ← rd (fl f);
  match f_type x with
  | FD_PIPE => r ← pipe_read (f_pipe x) user addr n; mret (u64 r)
  | FD_DEVICE => r ← dev_read (f_major x) user addr n; mret (u64 r)
  | FD_ENTRY => r ← entry_read (f_ep x) user addr (u32 off) (u32 n); mret (u64 r)
  | FD_SOCK => mret 0
  | FD_NULL =>
      _ ← md (kn_p_l ⊚ mem_l) (fun m => memset m addr 0 (u32 n)); mret (u64 n)
  | FD_NONE => mret 0
  end.
Definition fileoutput (f : nat) (user addr n off : Z) : M kern Z :=
  x ← rd (fl f);
  match f_type x with
  | FD_PIPE => r ← pipe_write (f_pipe x) user addr n; mret (u64 r)
  | FD_DEVICE => r ← dev_write (f_major x) user addr n; mret (u64 r)
  | FD_ENTRY => r ← entry_write (f_ep x) user addr (u32 off) (u32 n); mret (u64 r)
  | FD_SOCK | FD_NULL => mret (u64 n)
  | FD_NONE => mret 0
  end.

Definition ep_lock (e : option nat) : M kern unit := zoom kfs (elock fuel e).
Definition ep_unlock (e : option nat) : M kern unit := zoom kfs (eunlock e).
(** [0 == strncmp(p, lit, n)] *)
Definition named (p : list Z) (lit : string) (n : Z) : M kern bool :=
  r ← lift "strncmp" (strncmp p (literal lit) n); mret (r =? 0).
Definition ep_name (e : option nat) : M kern (list Z) :=
  e ← lift "f->ep" e; rd (kfs ⊚ (ent e ⊚ d_filename_l)).

Definition fileread_entry (f : nat) (addr n : Z) : M kern Z :=
  x ← rd (fl f);
  p ← kcur;
  _ ← ep_lock (f_ep x);
  count ← mine p_char_count_l;
  if 0 <? count then
    _ ← kn_p_l ⊚ (proc_l p ⊚ p_char_count_l) <~ s32 (count - 1);
    _ ← ep_unlock (f_ep x);
    mret n
  else
    pname ← mine p_name_l;
    b1 ← named pname "libc-bench" 10;
    b2 ← (if (b1 : bool) then nm ← ep_name (f_ep x); named nm "tmpfile_" 8 else mret false);
    if (b2 : bool) then
      _ ← ep_unlock (f_ep x);
      _ ← zoom kn_p_l (either_copyout 1 addr [120]);
      mret 1
    else
      nm ← ep_name (f_ep x);
      z ← named nm "zero" 4;
      r ← (if (z : bool) then _ ← zoom kn_p_l (either_copyout 1 addr [0]); mret 1
           else
             u ← named nm "urandom" 7;
             if (u : bool) then _ ← zoom kn_p_l (either_copyout 1 addr [114]); mret 1
             else
               off ← rd (fl f ⊚ f_off_l);
               r ← entry_read (f_ep x) 1 addr off (u32 n);
               let r := s32 r in
               _ ← when (0 <? r) (md (fl f ⊚ f_off_l) (fun off => u32 (off + r)));
               mret r);
      _ ← ep_unlock (f_ep x);
      mret r.
(** Reading the null device runs on into the default case. *)
Definition fileread (f : nat) (addr n : Z) : M kern Z :=
  x ← rd (fl f);
  if f_readable x =? 0 then mret (-1)
  else match f_type x with
       | FD_PIPE => pipe_read (f_pipe x) 1 addr n
       | FD_DEVICE =>
           c ← (if (f_major x <? 0) || (Z.of_nat NDEV <=? f_major x) then mret false
                else connected (f_major x));
           if negb c then mret (-1) else dev_read (f_major x) 1 addr n
       | FD_ENTRY => fileread_entry f addr n
       | FD_NULL =>
           pt ← mine p_pagetable_l;
           _ ← zoom kn_p_l (kmem (copyout_zero pt addr (u64 n)));
           panic "fileread"
       | FD_SOCK | FD_NONE => panic "fileread"
       end.

Definition filewrite_entry (f : nat) (addr n : Z) : M kern Z :=
  x ← rd (fl f);
  _ ← ep_lock (f_ep x);
  p ← kcur;
  count ← mine p_char_count_l;
  if negb (count =? 0) then
    _ ← kn_p_l ⊚ (proc_l p ⊚ p_char_count_l) <~ s32 (count + n);
    _ ← ep_unlock (f_ep x);
    mret n
  else
    pname ← mine p_name_l;
    b1 ← named pname "libc-bench" 10;
    b2 ← (if (b1 : bool) then nm ← ep_name (f_ep x); named nm "tmpfile_" 8 else mret false);
    if (b2 : bool) then
      _ ← kn_p_l ⊚ (proc_l p ⊚ p_char_count_l) <~ n;
      _ ← ep_unlock (f_ep x);
      mret 1
    else
      off ← rd (fl f ⊚ f_off_l);
      r ← entry_write (f_ep x) 1 addr off (u32 n);
      ret ← (if s32 r =? n then
               _ ← md (fl f ⊚ f_off_l) (fun off => u32 (off + n)); mret n
             else mret (-1));
      _ ← ep_unlock (f_ep x);
      mret ret.
Definition filewrite (f : nat) (addr n : Z) : M kern Z :=
  x ← rd (fl f);
  if f_writable x =? 0 then mret (-1)
  else match f_type x with
       | FD_PIPE => pipe_write (f_pipe x) 1 addr n
       | FD_DEVICE =>
           c ← (if (f_major x <? 0) || (Z.of_nat NDEV <=? f_major x) then mret false
                else connected (f_major x));
           if negb c then mret (-1) else dev_write (f_major x) 1 addr n
       | FD_ENTRY => filewrite_entry f addr n
       | FD_NULL => mret n
       | FD_SOCK | FD_NONE => panic "filewrite"
       end.

(** * Metadata *)

(** [struct kstat] as it lies in memory: 128 bytes, the last eight never
    written. *)
Definition kstat_bytes (k : kstat) : list Z :=
  le_bytes 8 (st_dev k) ++ le_bytes 8 (st_ino k) ++ le_bytes 4 (st_mode k) ++ le_bytes 4 (st_nlink k)
  ++ le_bytes 4 (st_uid k) ++ le_bytes 4 (st_gid k) ++ le_bytes 8 (st_rdev k) ++ le_bytes 8 (st_pad k)
  ++ le_bytes 8 (st_size k) ++ le_bytes 4 (st_blksize k) ++ le_bytes 4 (st_pad2 k)
  ++ le_bytes 8 (st_blocks k) ++ le_bytes 8 (st_atime_sec k) ++ le_bytes 8 (st_atime_nsec k)
  ++ le_bytes 8 (st_mtime_sec k) ++ le_bytes 8 (st_mtime_nsec k) ++ le_bytes 8 (st_ctime_sec k)
  ++ le_bytes 8 (st_ctime_nsec k) ++ take 8 kst_tail.

(** The times of an entry's file, in the order the code stores them. *)
Definition file_times (f : file) (k : kstat) : kstat :=
  let as_ := f_t0_nsec f in let an := f_t0_sec f in
  let ms := f_t1_nsec f in let mn := f_t1_sec f in
  let ms := if ms =? 0x3ffffffe then 0 else ms in
  let as_ := if as_ =? 0x3ffffffe then 0 else as_ in
  let ms := if mn =? 0x100000000 then 0x100000000 else ms in
  let as_ := if an =? 0x100000000 then 0x100000000 else as_ in
  Kstat (st_dev k) (st_ino k) (st_mode k) (st_nlink k) (st_uid k) (st_gid k) (st_rdev k) (st_pad k)
    (st_size k) (st_blksize k) (st_pad2 k) (st_blocks k) as_ an ms mn (st_ctime_sec k) (st_ctime_nsec k).
Definition dev_stat (major ino : Z) (k : kstat) : kstat :=
  Kstat (u64 major) (u64 ino) S_IFCHR 1 0 0 0 (st_pad k) 0 128 (st_pad2 k) 0 0 0 0 0 0 0.

(** [None] when the file has no metadata. *)
Definition file_kstat (f : nat) : M kern (option kstat) :=
  x ← rd (fl f);
  match f_type x with
  | FD_ENTRY =>
      _ ← ep_lock (f_ep x);
      e ← lift "f->ep" (f_ep x);
      k ← zoom kfs (kstat_of e);
      _ ← ep_unlock (f_ep x);
      mret (Some (file_times x k))
  | FD_DEVICE =>
      c ← (if f_major x <? 0 then mret false else connected (f_major x));
      if negb c then mret None
      else
        _ ← acquire khart (dev (f_major x) ⊚ dev_lk_l);
        nm ← rd (dev (f_major x) ⊚ dev_name_l);
        ino ← lift "hashpath" (hashpath_dev nm);
        _ ← release khart (dev (f_major x) ⊚ dev_lk_l);
        mret (Some (dev_stat (f_major x) ino kst_junk))
  | _ => mret None
  end.
Definition filestat (f : nat) (addr : Z) : M kern Z :=
  o ← file_kstat f;
  match o with
  | None => mret (-1)
  | Some k => r ← copy_to_user addr (kstat_bytes k); mret (if r <? 0 then -1 else 0)
  end.

(** * Directories *)

(** A [struct dirent] on the stack is an entry outside the cache. *)
Definition LOCAL_ENTRY : nat := S ROOT.

(** [struct stat]: name, device, type and size at 0, 36, 40 and 48. *)
Definition stat_bytes (s : stat) : list Z :=
  s_name s ++ take 3 st_gap1 ++ le_bytes 4 (s_dev s) ++ le_bytes 2 (s_type s) ++ take 6 st_gap2
  ++ le_bytes 8 (s_size s).

(** The attribute test of the directory readers. *)
Definition is_dir (f : nat) : M kern bool :=
  x ← rd (fl f);
  e ← lift "f->ep" (f_ep x);
  d ← rd (kfs ⊚ ent e);
  mret (truth (Z.land (d_attribute d) ATTR_DIRECTORY)).

(** [while ((ret = enext(...)) == 0)], over [count]. *)
Definition skip_empty_turn (f e : nat) (count : Z) : M kern (Z + Z * Z) :=
  off ← rd (fl f ⊚ f_off_l);
  '(ret, count) ← zoom kfs (enext fuel dfuel e LOCAL_ENTRY off count);
  if ret =? 0 then
    _ ← md (fl f ⊚ f_off_l) (fun o => u32 (o + count * 32)); mret (inl count)
  else mret (inr (ret, count)).
Definition dirnext (f : nat) (addr : Z) : M kern Z :=
  x ← rd (fl f);
  d ← (if f_readable x =? 0 then mret false else is_dir f);
  if negb d then mret (-1)
  else
    e ← lift "f->ep" (f_ep x);
    _ ← ep_lock (f_ep x);
    '(ret, count) ← loop dfuel 0 (skip_empty_turn f e);
    _ ← ep_unlock (f_ep x);
    if ret =? -1 then mret 0
    else
      _ ← md (fl f ⊚ f_off_l) (fun o => u32 (o + count * 32));
      st ← zoom kfs (estat LOCAL_ENTRY st_junk);
      r ← copy_to_user addr (stat_bytes st);
      mret (if r <? 0 then -1 else 1).

Definition NOFILEMAX (p : proc) : Z :=
  if p_filelimit p <? Z.of_nat NOFILE then p_filelimit p else Z.of_nat NOFILE.

(** The result is a file, [None] the null pointer. *)
Definition findfile (path : list Z) : M kern (option nat) :=
  '(ep, _) ← zoom kfs (new_lookup_path fuel cfuel dfuel None path false (replicate 256 0));
  match ep with
  | None => mret None
  | Some e =>
      p ← kcur;
      _ ← ep_lock ep;
      pr ← rd (kn_p_l ⊚ proc_l p);
      r ← for_until (seqZ 0 (NOFILEMAX pr)) (fun i =>
            pr ← rd (kn_p_l ⊚ proc_l p);
            f ← lift "p->ofile[i]" (default None (p_ofile pr !! Z.to_nat i));
            x ← rd (fl f);
            if (bool_decide (f_type x = FD_ENTRY) && bool_decide (f_ep x = Some e))
               || bool_decide (f_type x = FD_DEVICE) then
              _ ← ep_unlock ep;
              _ ← zoom kfs (eput fuel cfuel dfuel ep);
              mret (Some f)
            else mret None);
      match r with
      | Some f => mret (Some f)
      | None =>
          _ ← ep_unlock ep;
          _ ← zoom kfs (eput fuel cfuel dfuel ep);
          mret None
      end
  end.

(** [struct dirent64]: number, offset, length, type, name and padding. *)
Definition lde_bytes (off reclen type : Z) (name : list Z) : list Z :=
  le_bytes 8 0 ++ le_bytes 8 off ++ le_bytes 2 reclen ++ le_bytes 1 type ++ name ++ take 5 lde_junk.
(** [sizeof(struct dirent64)] is 280, and its name has 256 characters. *)
Definition lde_size (len : Z) : Z :=
  let size := 280 - 256 + len + 1 in size + (8 - size mod 8) mod 8.

(** One turn of the loop, over [addr], [n], [copysize] and [cnt]; it ends with
    the result of a return, or with [None] at the [break]. *)
Definition next_dirent_turn (f e : nat) '((addr, n, copysize, cnt) : Z * Z * Z * Z)
  : M kern ((Z * Z * Z * Z) + (option Z * Z * Z)) :=
  off ← rd (fl f ⊚ f_off_l);
  '(ret, cnt) ← zoom kfs (enext fuel dfuel e LOCAL_ENTRY off cnt);
  _ ← md (fl f ⊚ f_off_l) (fun o => u32 (o + Z.shiftl cnt 5));
  if ret =? 0 then mret (inl (addr, n, copysize, cnt))
  else if ret =? -1 then
    x ← rd (fl f);
    _ ← ep_unlock (f_ep x);
    mret (inr (Some copysize, copysize, cnt))
  else
    d ← rd (kfs ⊚ ent LOCAL_ENTRY);
    let type := if truth (Z.land (d_attribute d) ATTR_DIRECTORY) then T_DIR else T_FILE in
    len ← lift "strlen" (strlen (d_filename d));
    let reclen := u16 (lde_size len) in
    if n <? reclen then mret (inr (None, copysize, cnt))
    else
      r ← copy_to_user addr (take (Z.to_nat reclen) (lde_bytes off reclen type (d_filename d)));
      if r <? 0 then
        x ← rd (fl f);
        _ ← ep_unlock (f_ep x);
        mret (inr (Some (-1), copysize, cnt))
      else mret (inl (u64 (addr + reclen), n - reclen, copysize + reclen, cnt)).
Definition get_next_dirent (f : nat) (addr n : Z) : M kern Z :=
  x ← rd (fl f);
  d ← (if f_readable x =? 0 then mret false else is_dir f);
  if negb d then mret (-1)
  else
    e ← lift "f->ep" (f_ep x);
    _ ← ep_lock (f_ep x);
    '(r, copysize, cnt) ← loop dfuel (addr, n, 0, 0) (next_dirent_turn f e);
    match r with
    | Some r => mret r
    | None =>
        _ ← ep_unlock (f_ep x);
        _ ← md (fl f ⊚ f_off_l) (fun o => u32 (o + Z.shiftl cnt 5));
        mret copysize
    end.

(** * Seeking and sending *)

(** The result is [uint64]. *)
Definition fileseek (f : nat) (offset whence : Z) : M kern Z :=
  x ← rd (fl f);
  match f_type x with
  | FD_ENTRY =>
      _ ← ep_lock (f_ep x);
      r ← (if whence =? SEEK_SET then
             _ ← fl f ⊚ f_off_l <~ u32 offset; mret offset
           else if whence =? SEEK_CUR then
             _ ← fl f ⊚ f_off_l <~ u32 (f_off x + offset); mret (u32 (f_off x + offset))
           else if whence =? SEEK_END then
             e ← lift "f->ep" (f_ep x);
             sz ← rd (kfs ⊚ (ent e ⊚ d_file_size_l));
             _ ← fl f ⊚ f_off_l <~ u32 (sz + offset); mret (u32 (sz + offset))
           else mret (u64 (-1)));
      _ ← ep_unlock (f_ep x);
      mret r
  | FD_PIPE =>
      let lk := kn_pipes_l ⊚ lmap (f_pipe x) new_pipe ⊚ pi_lock_l in
      _ ← acquire khart lk;
      r ← (if whence =? SEEK_SET then
             _ ← fl f ⊚ f_off_l <~ u32 offset; mret offset
           else if whence =? SEEK_CUR then
             _ ← fl f ⊚ f_off_l <~ u32 (f_off x + offset); mret (u32 (f_off x + offset))
           else mret (u64 (-1)));
      _ ← release khart lk;
      mret r
  | _ => mret (u64 (-1))
  end.

(** A pipe is tested as a device is. *)
Definition fileillegal (f : nat) : M kern Z :=
  x ← rd (fl f);
  match f_type x with
  | FD_PIPE | FD_DEVICE =>
      c ← (if f_major x <? 0 then mret false else connected (f_major x));
      mret (if (c : bool) then 0 else 1)
  | FD_ENTRY => mret 0
  | _ => panic "fileillegal"
  end.
Definition fileiolock (f : nat) : M kern unit :=
  x ← rd (fl f);
  match f_type x with
  | FD_PIPE => acquire khart (kn_pipes_l ⊚ lmap (f_pipe x) new_pipe ⊚ pi_lock_l)
  | FD_ENTRY => ep_lock (f_ep x)
  | _ => mret tt
  end.
Definition fileiounlock (f : nat) : M kern unit :=
  x ← rd (fl f);
  match f_type x with
  | FD_PIPE => release khart (kn_pipes_l ⊚ lmap (f_pipe x) new_pipe ⊚ pi_lock_l)
  | FD_ENTRY => ep_unlock (f_ep x)
  | _ => mret tt
  end.

(** [if (f->type != FD_PIPE)] *)
Definition unless_pipe (f : nat) (m : M kern unit) : M kern unit :=
  x ← rd (fl f); when (negb (bool_decide (f_type x = FD_PIPE))) m.
Definition put_line (s : string) (ap : list vararg) : M kern unit :=
  zoom kcn (printf lsr fuel (Some (chars s ++ [10; 0])) ap).

(** One turn of the loop, over [n], [off] and [ret]. *)
Definition send_turn (fin fout : nat) '((n, off, ret) : Z * Z * Z) : M kern ((Z * Z * Z) + (Z * Z)) :=
  if n =? 0 then mret (inr (off, ret))
  else
    let rlen := if 512 <? n then 512 else n in
    _ ← unless_pipe fin (fileiolock fin);
    rlen ← fileinput fin 0 stack_buf (s32 rlen) off;
    _ ← unless_pipe fin (fileiounlock fin);
    _ ← put_line "[filesend] send rlen %p" [VInt rlen];
    let off := u64 (off + rlen) in
    let n := u64 (n - rlen) in
    if rlen =? 0 then mret (inr (off, ret))
    else
      _ ← unless_pipe fout (fileiolock fout);
      o ← rd (fl fout ⊚ f_off_l);
      wlen ← fileoutput fout 0 stack_buf (s32 rlen) o;
      _ ← unless_pipe fout (fileiounlock fout);
      _ ← put_line "[filesend] send wlen:%p" [VInt rlen; VInt wlen];
      _ ← md (fl fout ⊚ f_off_l) (fun o => u32 (o + wlen));
      mret (inl (n, off, u64 (ret + wlen))).
Definition file_send (sfuel fin fout : nat) (addr n : Z) : M kern Z :=
  start ← (if truth addr then
             '(r, bs) ← zoom kn_p_l (either_copyin 1 addr 8);
             mret (if r <? 0 then None else Some (le bs))
           else o ← rd (fl fin ⊚ f_off_l); mret (Some o));
  match start with
  | None => mret (u64 (-1))
  | Some off =>
      '(off, ret) ← loop sfuel (n, off, 0) (send_turn fin fout);
      if truth addr then
        r ← zoom kn_p_l (either_copyout 1 addr (le_bytes 8 off));
        mret (if r <? 0 then u64 (-1) else ret)
      else
        _ ← fl fin ⊚ f_off_l <~ u32 off;
        mret ret
  end.
End File.

(** * The table of open files *)

Definition ref_of (k : kern) (f : nat) : Z := f_ref (view (fl f) k).
(** A kernel between two system calls, as the file layer sees it. *)
Record file_ready (k : kern) : Prop := {
  fr_hart : settled (view hart_l (kn_p k));
  fr_lock : unheld (ft_lock k)
}.

#[export] Instance khart_ft : LensIndep khart ft_lock_l.
Proof. split; by intros ?? [] || by intros ? []. Qed.
#[export] Instance khart_laws : LensLaws khart := _.
#[export] Instance ft_fl f : LensIndep ft_lock_l (fl f).
Proof. split; by intros ?? [] || by intros ? []. Qed.

(** Inside the section that guards the table. *)
Definition ftin (k : kern) : kern := enter khart ft_lock_l k.
Lemma ftin_fl f k : view (fl f) (ftin k) = view (fl f) k.
Proof. by destruct k. Qed.
Lemma wp_ft_enter k (Q : unit -> kern -> Prop) : file_ready k -> Q tt (ftin k) ->
  wp (acquire khart ft_lock_l) Q k.
Proof. intros [Hh Hl] HQ. by apply (wp_enter khart ft_lock_l). Qed.
(** Leaving the section after files have been changed in it. *)
Lemma wp_ft_leave files k (Q : unit -> kern -> Prop) : file_ready k ->
  Q tt (update ft_file_l files k) ->
  wp (release khart ft_lock_l) Q (update ft_file_l files (ftin k)).
Proof.
  intros [Hh Hl] HQ.
  apply (wp_leave khart ft_lock_l (view hart_l (kn_p k)) (ft_lock k)); [done|done|..].
  - destruct k as [[] ? ? ? ? ? ? ?]. cbn. apply view_update.
  - by destruct k.
  - destruct k as [q ? ? ? ? ? ? ?]. cbn in HQ |- *.
    unfold ftin, enter. cbn. rewrite update_update, update_view. exact HQ.
Qed.

(** The first file that is not in use. *)
Definition free_file (k : kern) (l : list nat) : option nat := List.find (fun f => ref_of k f =? 0) l.

Lemma upd_fl f x k : update (fl f) x k = update ft_file_l (<[f := x]> (ft_file k)) k.
Proof. done. Qed.
Lemma same_files k : update ft_file_l (ft_file k) k = k.
Proof. by destruct k. Qed.

Lemma find_free_ok k l : forall (Q : option nat -> kern -> Prop),
  Q (free_file k l) (match free_file k l with
                     | Some f => update (fl f) (update f_ref_l 1 (view (fl f) k)) (ftin k)
                     | None => ftin k end) ->
  wp (for_until l (fun f =>
        r ← rd (fl f ⊚ f_ref_l);
        if r =? 0 then _ ← fl f ⊚ f_ref_l <~ 1; mret (Some f) else mret None)) Q (ftin k).
Proof.
  induction l as [|f l IH]; intros Q HQ; [exact HQ|]. cbn [for_until free_file List.find] in *.
  apply wp_bind. do 2 wp_step. rewrite view_comp, ftin_fl.
  change (view f_ref_l (view (fl f) k)) with (ref_of k f).
  destruct (ref_of k f =? 0); [|by apply wp_mret, IH].
  wp_run. rewrite upd_comp, ftin_fl. exact HQ.
Qed.

Lemma wp_filealloc k (Q : option nat -> kern -> Prop) : file_ready k ->
  Q (free_file k (seq 0 NFILE)) (match free_file k (seq 0 NFILE) with
     | Some f => update (fl f) (update f_ref_l 1 (view (fl f) k)) k | None => k end) ->
  wp filealloc Q k.
Proof.
  intros Hr HQ. unfold filealloc. apply wp_bind, wp_ft_enter; [done|]. apply wp_bind, find_free_ok.
  apply wp_bind. destruct (free_file k (seq 0 NFILE)) as [f|].
  - rewrite upd_fl. change (ft_file (ftin k)) with (ft_file k). apply wp_ft_leave; [done|].
    apply wp_mret. by rewrite <- upd_fl.
  - rewrite <- (same_files (ftin k)). change (ft_file (ftin k)) with (ft_file k).
    apply wp_ft_leave; [done|]. apply wp_mret. by rewrite same_files.
Qed.

Lemma wp_filedup f k (Q : nat -> kern -> Prop) : file_ready k -> 1 <= ref_of k f < 2 ^ 31 - 1 ->
  Q f (update (fl f) (update f_ref_l (ref_of k f + 1) (view (fl f) k)) k) -> wp (filedup f) Q k.
Proof.
  intros Hr Hf HQ. unfold filedup. apply wp_bind, wp_ft_enter; [done|]. do 2 wp_step.
  rewrite view_comp, ftin_fl. change (view f_ref_l (view (fl f) k)) with (ref_of k f).
  rewrite (proj2 (Z.ltb_ge (ref_of k f) 1)) by lia. do 2 wp_step. apply wp_bind.
  rewrite upd_comp, ftin_fl, upd_fl. change (ft_file (ftin k)) with (ft_file k).
  apply wp_ft_leave; [done|]. apply wp_mret. by rewrite s32_small by lia.
Qed.

Section Close.
Variables (kernel_end : Z) (fuel cfuel dfuel : nat).

(** A file without anything below it. *)
Definition bare (t : ftype) : bool := bool_decide (t <> FD_PIPE) && bool_decide (t <> FD_ENTRY).
(** A file after a close: the last one takes its type away. *)
Definition closed (x : file) : file :=
  if f_ref x =? 1 then update f_type_l FD_NONE (update f_ref_l 0 x) else update f_ref_l (f_ref x - 1) x.

Lemma wp_fileclose f k (Q : unit -> kern -> Prop) : file_ready k -> 1 <= ref_of k f ->
  (ref_of k f = 1 -> bare (f_type (view (fl f) k)) = true) ->
  Q tt (update (fl f) (closed (view (fl f) k)) k) -> wp (fileclose kernel_end fuel cfuel dfuel f) Q k.
Proof.
  intros Hr Hf Hb HQ. unfold fileclose. apply wp_bind, wp_ft_enter; [done|]. do 2 wp_step.
  rewrite view_comp, ftin_fl. change (view f_ref_l (view (fl f) k)) with (ref_of k f).
  rewrite (proj2 (Z.ltb_ge (ref_of k f) 1)) by lia. do 2 wp_step.
  rewrite upd_comp, ftin_fl, upd_fl. change (ft_file (ftin k)) with (ft_file k).
  assert (closed (view (fl f) k) = if ref_of k f =? 1
     then update f_type_l FD_NONE (update f_ref_l 0 (view (fl f) k))
     else update f_ref_l (ref_of k f - 1) (view (fl f) k)) as Ec by done.
  destruct (Z.ltb_spec 0 (ref_of k f - 1)) as [Hgt|Hle].
  - apply wp_ft_leave; [done|]. rewrite <- upd_fl, Ec in *.
    by rewrite (proj2 (Z.eqb_neq _ _)) in HQ by lia.
  - assert (ref_of k f = 1) as E1 by lia. specialize (Hb E1). rewrite Ec, E1 in HQ.
    do 6 wp_step. apply wp_bind.
    set (x := view (fl f) k) in *.
    match goal with |- wp _ _ ?s => assert (s = update ft_file_l (<[f := closed x]> (ft_file k)) (ftin k)) as -> end.
    { rewrite Ec, E1. subst x. clear. destruct k. cbn.
      repeat (rewrite lookup_insert_eq || rewrite insert_insert_eq; cbn). done. }
    match goal with |- context [match f_type ?y with _ => _ end] => assert (f_type y = f_type x) as -> end.
    { unfold fl. rewrite view_comp. cbn. by rewrite lookup_insert_eq. }
    rewrite E1 in Ec. change (1 =? 1) with true in Ec. cbn iota in Ec. rewrite <- Ec in HQ.
    apply wp_ft_leave; [done|]. rewrite upd_fl in HQ.
    unfold bare in Hb. apply andb_prop in Hb as [Hp%bool_decide_eq_true He%bool_decide_eq_true].
    destruct (f_type x); done.
Qed.
End Close.

(** ** Any use of the table *)

(** What a holder of files does: it opens one, duplicates or closes one it
    holds (by its place among those it holds). *)
Inductive fop := Open | Dup (i : nat) | Close (i : nat).

Section Refs.
Variables (kernel_end : Z) (fuel cfuel dfuel : nat).

Definition run_fop (op : fop) (held : list nat) : M kern (list nat) :=
  match op with
  | Open => o ← filealloc; mret (match o with Some f => f :: held | None => held end)
  | Dup i => match held !! i with Some f => f ← filedup f; mret (f :: held) | None => mret held end
  | Close i =>
      match held !! i with
      | Some f => _ ← fileclose kernel_end fuel cfuel dfuel f; mret (delete i held)
      | None => mret held
      end
  end.
Fixpoint run_fops (ops : list fop) (held : list nat) : M kern (list nat) :=
  match ops with [] => mret held | op :: ops' => held ← run_fop op held; run_fops ops' held end.

Definition uses (held : list nat) (f : nat) : Z := Z.of_nat (count_occ Nat.eq_dec held f).
Record counts (k0 : kern) (held : list nat) (k : kern) : Prop := {
  ct_ready : file_ready k;
  ct_held : Forall (fun f => f < NFILE)%nat held;
  ct_refs : forall f, (f < NFILE)%nat -> ref_of k f = uses held f;
  ct_bare : forall f, bare (f_type (view (fl f) k)) = true;
  ct_rest : k = update ft_file_l (ft_file k) k0
}.

Lemma uses_pos held f : f ∈ held -> 1 <= uses held f.
Proof using Type.
  intros H. unfold uses. apply list_elem_of_In in H.
  apply (count_occ_In Nat.eq_dec) in H. lia.
Qed.
Lemma uses_le held f : uses held f <= Z.of_nat (length held).
Proof using Type. unfold uses. pose proof (count_occ_bound Nat.eq_dec f held). lia. Qed.
Lemma uses_cons held f g : uses (f :: held) g = (if decide (f = g) then 1 else 0) + uses held g.
Proof using Type. unfold uses. cbn [count_occ]. destruct (Nat.eq_dec f g), (decide (f = g)); lia. Qed.
Lemma uses_delete held i f g : held !! i = Some f ->
  uses (delete i held) g = uses held g - (if decide (f = g) then 1 else 0).
Proof using Type.
  intros Hi. rewrite <- (take_drop_middle held i f Hi) at 2. rewrite delete_take_drop.
  unfold uses. rewrite !count_occ_app. cbn [count_occ]. destruct (Nat.eq_dec f g), (decide (f = g)); lia.
Qed.

Lemma view_upd_fl f g x k : view (fl g) (update (fl f) x k) = if decide (f = g) then x else view (fl g) k.
Proof using Type.
  unfold fl. cbn. destruct (decide (f = g)) as [->|Hn]; [by rewrite lookup_insert_eq|by rewrite lookup_insert_ne].
Qed.
Lemma rest_upd f x k k0 : k = update ft_file_l (ft_file k) k0 ->
  update (fl f) x k = update ft_file_l (ft_file (update (fl f) x k)) k0.
Proof using Type. intros ->. done. Qed.

(** A file replaced: the counts after it. *)
Lemma counts_upd k0 held held' k f x : counts k0 held k -> (f < NFILE)%nat ->
  Forall (fun f => f < NFILE)%nat held' -> bare (f_type x) = true ->
  (forall g, (g < NFILE)%nat -> uses held' g = if decide (f = g) then f_ref x else uses held g) ->
  counts k0 held' (update (fl f) x k).
Proof using Type.
  intros [[Hh Hl] _ Hr Hb Hk] Hf Hh' Hx Hu. split; [by split|done| | |by apply rest_upd].
  - intros g Hg. unfold ref_of. rewrite view_upd_fl, Hu by done.
    destruct (decide (f = g)); [done|by apply Hr].
  - intros g. rewrite view_upd_fl. by destruct (decide (f = g)).
Qed.

Lemma free_file_some k l f : free_file k l = Some f -> f ∈ l /\ ref_of k f = 0.
Proof using Type.
  intros E%find_some. destruct E as [Hi E]. split; [by apply list_elem_of_In|]. lia.
Qed.
Lemma free_file_none k l : free_file k l = None -> forall f, f ∈ l -> ref_of k f <> 0.
Proof using Type.
  intros E f Hf E0. apply list_elem_of_In in Hf. pose proof (find_none _ _ E f Hf) as H. cbn in H. lia.
Qed.

Lemma run_fop_ok op k0 held k : counts k0 held k -> Z.of_nat (length held) < 2 ^ 31 - 1 ->
  wp (run_fop op held) (fun held' k' => counts k0 held' k' /\ (length held' <= S (length held))%nat) k.
Proof using Type.
  intros Hc Hlen. pose proof Hc as [Hr Hh Hrefs Hb Hk]. destruct op as [|i|i]; cbn [run_fop].
  - apply wp_bind, wp_filealloc; [done|]. apply wp_mret.
    destruct (free_file k (seq 0 NFILE)) as [f|] eqn:E; [|split; [done|lia]].
    apply free_file_some in E as [Hf%elem_of_seq E0]. split; [|done].
    apply (counts_upd k0 held); [done|lia|by constructor; [lia|]|apply Hb|].
    intros g Hg. rewrite uses_cons. destruct (decide (f = g)) as [<-|]; [|done].
    rewrite <- Hrefs, E0 by done. done.
  - destruct (held !! i) as [f|] eqn:E; [|apply wp_mret; split; [done|lia]].
    assert (f < NFILE)%nat as Hf by (exact (Forall_lookup_1 _ _ _ _ Hh E)).
    assert (f ∈ held) as Hin by (by eapply list_elem_of_lookup_2).
    pose proof (uses_pos _ _ Hin). pose proof (uses_le held f).
    apply wp_bind, wp_filedup; [done|rewrite Hrefs by done; lia|]. apply wp_mret. split; [|done].
    apply (counts_upd k0 held); [done|done|by constructor|apply Hb|].
    intros g Hg. rewrite uses_cons. destruct (decide (f = g)) as [<-|]; [|done].
    cbn. rewrite Hrefs by done. lia.
  - destruct (held !! i) as [f|] eqn:E; [|apply wp_mret; split; [done|lia]].
    assert (f < NFILE)%nat as Hf by (exact (Forall_lookup_1 _ _ _ _ Hh E)).
    assert (f ∈ held) as Hin by (by eapply list_elem_of_lookup_2).
    pose proof (uses_pos _ _ Hin).
    apply wp_bind, wp_fileclose; [done|rewrite Hrefs by done; lia|by intros _|]. apply wp_mret.
    split; [|rewrite length_delete by eauto; lia].
    apply (counts_upd k0 held); [done|done| | |].
    + rewrite delete_take_drop. apply Forall_app. split; [by apply Forall_take|by apply Forall_drop].
    + unfold closed. destruct (f_ref _ =? 1); [done|]. apply Hb.
    + intros g Hg. rewrite (uses_delete held i f g E). destruct (decide (f = g)) as [<-|]; [|lia].
      rewrite <- Hrefs by done. unfold closed, ref_of. 
      destruct (Z.eqb_spec (f_ref (view (fl f) k)) 1) as [->|]; done.
Qed.
Lemma run_fops_ok ops : forall k0 held k, counts k0 held k ->
  Z.of_nat (length held + length ops) < 2 ^ 31 - 1 ->
  wp (run_fops ops held) (fun held' k' => counts k0 held' k') k.
Proof using Type.
  induction ops as [|op ops IH]; intros k0 held k Hc Hl; [by apply wp_mret|]. cbn [run_fops length] in *.
  apply wp_bind. eapply wp_mono; [apply (run_fop_ok op k0); [done|lia]|].
  intros held' k' [Hc' Hl']. apply IH; [done|lia].
Qed.
End Refs.

(** C18. Reference counting of open files.  From a table in which every count is
    the number of holders, any sequence of opens, duplications and closes of
    files held runs without a panic and leaves every count the number of
    holders; so a file is handed out again only when nobody holds it, an open
    fails only when all files are held, and the rest of the kernel is as it
    was.  The files are plain ones, with no pipe or directory entry below. *)
Theorem file_table_counts (kernel_end : Z) (fuel cfuel dfuel : nat) (ops : list fop) (held : list nat) (k : kern) :
  counts k held k -> Z.of_nat (length held + length ops) < 2 ^ 31 - 1 ->
  wp (run_fops kernel_end fuel cfuel dfuel ops held) (fun held' k' =>
    counts k held' k' /\
    wp filealloc (fun o k'' => match o with
      | Some f => (f ∉ held') /\ counts k (f :: held') k''
      | None => (forall f, f < NFILE -> f ∈ held')%nat /\ k'' = k'
      end) k') k.
Proof.
  intros Hc Hl. eapply wp_mono; [by apply run_fops_ok|]. intros held' k' Hc'. split; [done|].
  apply wp_filealloc; [apply Hc'|]. destruct (free_file k' (seq 0 NFILE)) as [f|] eqn:E.
  - apply free_file_some in E as [Hf%elem_of_seq E0]. pose proof Hc' as [Hr Hh Hrefs Hb Hk].
    rewrite Hrefs in E0 by lia. split; [intros Hin%uses_pos; lia|].
    apply (counts_upd k held'); [done|lia|by constructor; [lia|]|apply Hb|].
    intros g Hg. rewrite uses_cons. destruct (decide (f = g)) as [<-|]; [by rewrite E0|done].
  - split; [|done]. intros f Hf. pose proof (free_file_none _ _ E f) as Hn.
    rewrite (ct_refs _ _ _ Hc') in Hn by done.
    destruct (decide (f ∈ held')) as [|Hno]; [done|]. exfalso. apply Hn; [apply elem_of_seq; lia|].
    unfold uses. rewrite (proj1 (count_occ_not_In Nat.eq_dec held' f)); [done|].
    intros Hin. apply Hno. by apply list_elem_of_In.
Qed.

(** A kernel with no open files. *)
Definition demo_kern : kern :=
  Kern demo_pst (Bio (Spin 0 "bcache" None) ∅ (Spin 0 "ramdisk" None) 0 ∅)
    (Fsys (Fat 4 10 10 512 512 1 1 1 0 14 3 2) (Spin 0 "ecache" None) ∅) demo_con
    (Spin 0 "ftable" None) ∅ ∅ ∅.
Lemma demo_counts : counts demo_kern [] demo_kern.
Proof. split; [split; [apply (runs_settled 0), demo_runs|done]|done|done|done|done]. Qed.

(** Two opens, a duplication and a close. *)
Lemma file_table_counts_witness :
  wp (run_fops 0 1 1 1 [Open; Open; Dup 0; Close 1] []) (fun held' k' =>
    counts demo_kern held' k' /\
    wp filealloc (fun o k'' => match o with
      | Some f => (f ∉ held') /\ counts demo_kern (f :: held') k''
      | None => (forall f, f < NFILE -> f ∈ held')%nat /\ k'' = k'
      end) k') demo_kern.
Proof.
  exact (file_table_counts 0 1 1 1 [Open; Open; Dup 0; Close 1] [] demo_kern demo_counts eq_refl).
Defined.

(** * Two files and the pipe between them *)

Lemma uwin_woken ch user p q q' va n base : woken_all ch q q' -> uwin user p q va n base ->
  uwin user p q' va n base.
Proof.
  intros [_ (procs' & -> & Hp)] Hw. unfold uwin in *. destruct (truth user); [|done].
  assert (p_pagetable (view (proc_l p) (update s_procs_l procs' q)) = p_pagetable (view (proc_l p) q)) as ->.
  { change (p_pagetable (entry procs' p) = p_pagetable (entry (s_procs q) p)). rewrite Hp.
    destruct (decide _); [|done]. unfold woken. by destruct (_ && _). }
  exact Hw.
Qed.
Lemma woken_mem ch q q' : woken_all ch q q' -> view mem_l q' = view mem_l q.
Proof. by intros [_ (procs' & -> & _)]. Qed.

(** The pipe at [a]. *)
Definition pipe_at (a : Z) (k : kern) : pipe := default new_pipe (kn_pipes k !! a).

Section PipeFiles.
Variables (lsr : nat -> Z) (fuel cfuel dfuel p : nat).
Hypothesis fuel_pos : (0 < fuel)%nat.
Variables (f0 f1 : nat) (a : Z).
(** [f0] is the read end and [f1] the write end of the pipe at [a]. *)
Record ends (k : kern) : Prop := {
  en_r : f_type (view (fl f0) k) = FD_PIPE /\ f_pipe (view (fl f0) k) = a /\ f_readable (view (fl f0) k) <> 0
         /\ f_writable (view (fl f0) k) = 0;
  en_w : f_type (view (fl f1) k) = FD_PIPE /\ f_pipe (view (fl f1) k) = a /\ f_writable (view (fl f1) k) <> 0
         /\ f_readable (view (fl f1) k) = 0;
  en_ok : pipe_ok (pipe_at a k)
}.

Lemma pipe_kept q c k : pipe_ok c -> ends k -> ends (update (kpipe a) (q, c) k).
Proof using Type.
  intros Hc [Hr Hw _]. split; [exact Hr|exact Hw|]. unfold pipe_at. cbn. by rewrite lookup_insert_eq.
Qed.
Lemma pipe_at_upd q c k : pipe_at a (update (kpipe a) (q, c) k) = c.
Proof using Type. unfold pipe_at. cbn. by rewrite lookup_insert_eq. Qed.

Lemma wp_filewrite_pipe k addr n base (Q : Z -> kern -> Prop) : ends k -> runs p (kn_p k) ->
  uwin 1 p (kn_p k) addr n base -> 0 <= addr -> 0 <= n -> addr + n < 2 ^ 64 ->
  fill (pipe_at a k) + n <= PIPESIZE ->
  (forall q' c', woken_all (CPipeRead (Z.to_nat a)) (kn_p k) q' -> runs p q' -> pipe_ok c' ->
     content c' = content (pipe_at a k) ++ read_bytes (view mem_l (kn_p k)) base n ->
     Q n (update (kpipe a) (q', c') k)) ->
  wp (filewrite lsr fuel f1 addr n) Q k.
Proof using fuel_pos.
  intros [_ (Et & Ea & Ew & _) Hok] Hr Hw Ha Hn Hm Hf HQ. unfold filewrite. do 2 wp_step.
  rewrite (proj2 (Z.eqb_neq _ 0) Ew), Et, Ea. unfold pipe_write. apply wp_zoom.
  apply (wp_pipewrite (Z.to_nat a) fuel p fuel_pos 1 addr n base); try done.
Qed.
Lemma wp_fileread_pipe k addr n base (Q : Z -> kern -> Prop) : ends k -> runs p (kn_p k) ->
  uwin 1 p (kn_p k) addr n base -> 0 <= addr -> 0 <= n -> addr + n < 2 ^ 64 ->
  0 < fill (pipe_at a k) ->
  let m := Z.min n (fill (pipe_at a k)) in
  (forall q' c', woken_all (CPipeWrite (Z.to_nat a))
       (wmem (kn_p k) base (take (Z.to_nat m) (content (pipe_at a k)))) q' ->
     runs p q' -> pipe_ok c' -> content c' = drop (Z.to_nat m) (content (pipe_at a k)) ->
     Q m (update (kpipe a) (q', c') k)) ->
  wp (fileread fuel f0 addr n) Q k.
Proof using fuel_pos.
  intros [(Et & Ea & Ew & _) _ Hok] Hr Hw Ha Hn Hm Hf m HQ. unfold fileread. do 2 wp_step.
  rewrite (proj2 (Z.eqb_neq _ 0) Ew), Et, Ea. unfold pipe_read. apply wp_zoom.
  apply (wp_piperead (Z.to_nat a) fuel p fuel_pos 1 addr n base); try done. by left.
Qed.
End PipeFiles.

(** Bytes written to one end of a pipe are read from the other.  When the
    pipe is empty, a write of [n] bytes from the process's memory at [src] and
    a read of [n] bytes to its memory at [dst] both return [n]; the bytes at
    [src] are then at [dst], nothing else in memory has changed, the pipe is
    empty again, and files and file system are as they were.  A read of the
    write end and a write to the read end return -1. *)
Theorem pipe_moves_bytes (lsr : nat -> Z) (fuel p f0 f1 : nat) (a src sbase dst dbase n : Z) (k : kern) :
  (0 < fuel)%nat -> ends f0 f1 a k -> runs p (kn_p k) -> content (pipe_at a k) = [] ->
  0 < n <= 512 -> uwin 1 p (kn_p k) src n sbase -> uwin 1 p (kn_p k) dst n dbase ->
  0 <= src -> src + n < 2 ^ 64 -> 0 <= dst -> dst + n < 2 ^ 64 ->
  wp (w ← filewrite lsr fuel f1 src n; r ← fileread fuel f0 dst n; mret (w, r))
     (fun '(w, r) k' => w = n /\ r = n /\ ends f0 f1 a k' /\ content (pipe_at a k') = [] /\
        view mem_l (kn_p k') = write_bytes (view mem_l (kn_p k)) dbase
                                 (read_bytes (view mem_l (kn_p k)) sbase n) /\
        kn_b k' = kn_b k /\ kn_f k' = kn_f k /\ ft_file k' = ft_file k) k
  /\ fileread fuel f1 dst n k = Ret (-1) k /\ filewrite lsr fuel f0 src n k = Ret (-1) k.
Proof.
  intros Hf He Hr Hc Hn Hws Hwd Hs1 Hs2 Hd1 Hd2.
  assert (fill (pipe_at a k) = 0) as Hfill.
  { pose proof (length_content (pipe_at a k)) as Hl. rewrite Hc in Hl. pose proof (fill_range (pipe_at a k)).
    cbn in Hl. lia. }
  split; [|split].
  - apply wp_bind, (wp_filewrite_pipe lsr fuel p Hf f0 f1 a k src n sbase); try done; try lia.
    { rewrite Hfill. unfold PIPESIZE. lia. }
    intros q1 c1 Hwk Hr1 Hc1 Hct1. rewrite Hc in Hct1. cbn [app] in Hct1.
    set (bs := read_bytes _ _ _) in *. assert (length bs = Z.to_nat n) as Hlb by apply length_read_bytes.
    assert (fill c1 = n) as Hf1.
    { pose proof (length_content c1) as Hl. rewrite Hct1, Hlb in Hl. pose proof (fill_range c1). lia. }
    apply wp_bind, (wp_fileread_pipe fuel p Hf f0 f1 a _ dst n dbase); rewrite ?pipe_at_upd;
      [by apply pipe_kept|done|by eapply uwin_woken|lia|lia|lia|lia|].
    rewrite Hf1, Z.min_id, Hct1, take_ge, drop_ge by lia.
    intros q2 c2 Hwk2 Hr2 Hc2 Hct2. apply wp_mret. split; [done|]. split; [done|].
    split; [by apply pipe_kept, pipe_kept|]. rewrite pipe_at_upd. split; [done|]. split; [|done].
    change (kn_p (update (kpipe a) (q2, c2) _)) with q2. rewrite (woken_mem _ _ _ Hwk2).
    change (write_bytes (view mem_l q1) dbase bs = write_bytes (view mem_l (kn_p k)) dbase bs).
    by rewrite (woken_mem _ _ _ Hwk).
  - destruct He as [_ (_ & _ & _ & E) _]. unfold fileread.
    rewrite (bind_ret _ _ k (view (fl f1) k) k) by done. by rewrite E.
  - destruct He as [(_ & _ & _ & E) _ _]. unfold filewrite.
    rewrite (bind_ret _ _ k (view (fl f0) k) k) by done. by rewrite E.
Qed.

(** Process 0 with the page table of VmProps, whose page 5 is mapped. *)
Definition user_pst : pst := update (proc_l 0 ⊚ p_pagetable_l) (pg 5) (update mem_l demo_mapped_mem demo_pst).
Lemma user_runs : runs 0 user_pst.
Proof.
  split; [split|reflexivity|reflexivity]; [apply run_hart_ok|]. intros i.
  destruct (decide (i = 0%nat)) as [->|H0]; [reflexivity|].
  unfold user_pst. change (s_procs _) with (<[0%nat := update p_pagetable_l (pg 5) (demo_proc RUNNING 1 None)]> demo_procs).
  unfold entry. rewrite lookup_insert_ne by done. apply (q_locks _ demo_quiet).
Qed.
Lemma user_window j : 0 <= j <= 8 -> uwin 1 0 user_pst (5 * PGSIZE + j) 2 (pg 4 + j).
Proof.
  intros Hj. exists demo_f.
  change (p_pagetable (view (proc_l 0) user_pst)) with (pg 5).
  change (view mem_l user_pst) with demo_mapped_mem. split.
  - intros va _. reflexivity.
  - assert (5 * PGSIZE + 10 <= MAXVA) by done. assert (0 <= 5 * PGSIZE) by done. lia.
  - intros i Hi. assert (PGROUNDDOWN (5 * PGSIZE + j + i) = 5 * PGSIZE) as Ep.
    { assert (j + i = 0 \/ j + i = 1 \/ j + i = 2 \/ j + i = 3 \/ j + i = 4 \/ j + i = 5 \/ j + i = 6
        \/ j + i = 7 \/ j + i = 8 \/ j + i = 9) as H by lia.
      rewrite <- Z.add_assoc. repeat destruct H as [-> | H]; [by vm_compute..|]. subst. rewrite H. by vm_compute. }
    unfold user_ok, uaddr. rewrite Ep. split; [by vm_compute|].
    assert (user_pa (demo_f (5 * PGSIZE)) = pg 4) as -> by (by vm_compute).
    rewrite <- (Z.add_assoc (5 * PGSIZE)), (Z.add_comm (5 * PGSIZE)), Z_mod_plus_full, Z.mod_small; unfold PGSIZE; lia.
  - intros b Hb. rewrite demo_tables. intros (p & Hp & Hb'). unfold pg, PGSIZE in *.
    repeat (apply elem_of_cons in Hp as [->|Hp]; [lia|]). by apply not_elem_of_nil in Hp.
Qed.

(** The read end is file 0, the write end file 1 and the pipe at 4096. *)
Definition piped_kern : kern :=
  update kn_p_l user_pst (update kn_pipes_l {[4096 := new_pipe]} (update ft_file_l
    {[0%nat := File FD_PIPE 1 1 0 4096 None 0 0 0 0 0 0 0 0 0;
      1%nat := File FD_PIPE 1 0 1 4096 None 0 0 0 0 0 0 0 0 0]} demo_kern)).
Lemma piped_ends : ends 0 1 4096 piped_kern.
Proof. split; [by repeat split|by repeat split|exact new_pipe_ok]. Qed.

(** Two bytes from the page's start to its ninth byte. *)
Lemma pipe_moves_bytes_witness :
  wp (w ← filewrite (fun _ => 32) 1 1 (5 * PGSIZE) 2; r ← fileread 1 0 (5 * PGSIZE + 8) 2; mret (w, r))
     (fun '(w, r) k' => w = 2 /\ r = 2 /\ ends 0 1 4096 k' /\ content (pipe_at 4096 k') = [] /\
        view mem_l (kn_p k') = write_bytes demo_mapped_mem (pg 4 + 8) (read_bytes demo_mapped_mem (pg 4 + 0) 2) /\
        kn_b k' = kn_b piped_kern /\ kn_f k' = kn_f piped_kern /\ ft_file k' = ft_file piped_kern) piped_kern.
Proof.
  exact (proj1 (pipe_moves_bytes (fun _ => 32) 1 0 0 1 4096 (5 * PGSIZE) (pg 4 + 0) (5 * PGSIZE + 8) (pg 4 + 8) 2
    piped_kern ltac:(lia) piped_ends user_runs eq_refl ltac:(lia) (user_window 0 ltac:(lia))
    (user_window 8 ltac:(lia)) ltac:(done) ltac:(done) ltac:(done) ltac:(done))).
Defined.
