(* ===== verification/PrintFacts.v ===== *)
(** What the kernel's [printf] prints: the text of a format and its arguments
    as a function, and the rule for a line of output. *)

From S2P Require Import Prelude Mem Strings Digits Locks Kalloc Vm PageTable VmProps ProcState Vma Proc ProcFacts SchedFacts Sleeplock Bio Circ UserMem Pipe FatName Fat FatDir Console File.

#[local] Arguments int_chars : simpl never.
#[local] Arguments kdigits : simpl never.
#[local] Arguments ptr_chars : simpl never.

(** The text of a conversion, with the arguments it leaves; [None] where the
    code reads an argument that is not there or overruns its buffer. *)
Definition conv_text (c : Z) (ap : list vararg) : option (list Z * list vararg) :=
  if c =? 100 then '(z, ap) ← va_int ap; o ← int_chars kdigits z 10 true; Some (o, ap)
  else if c =? 120 then '(z, ap) ← va_int ap; o ← int_chars kdigits z 16 true; Some (o, ap)
  else if c =? 112 then '(z, ap) ← va_int ap; Some (ptr_chars kdigits (u64 z), ap)
  else if c =? 115 then va_str ap
  else if c =? 37 then Some ([37], ap)
  else Some ([37; c], ap).
Fixpoint fmt_text (fmt : list Z) (ap : list vararg) : option (list Z) :=
  match fmt with
  | [] => None
  | c :: fmt' =>
      if c =? 0 then Some []
      else if negb (c =? 37) then (cons c) <$> fmt_text fmt' ap
      else match fmt' with
           | [] => None
           | c :: fmt'' =>
               if c =? 0 then Some [] else '(o, ap) ← conv_text c ap; (app o) <$> fmt_text fmt'' ap
           end
  end.

Lemma kdigit_value x : 0 <= x < 10 -> nth (Z.to_nat x) kdigits 0 = 48 + x.
Proof.
  intros Hx. assert (x = 0 \/ x = 1 \/ x = 2 \/ x = 3 \/ x = 4 \/ x = 5 \/ x = 6 \/ x = 7 \/ x = 8 \/ x = 9) by lia.
  repeat match goal with H : _ \/ _ |- _ => destruct H as [->|H]; [done|] end. by subst x.
Qed.
(** Every [int] has a text. *)
Lemma int_text x : exists o, int_chars kdigits x 10 true = Some o.
Proof. destruct (int_chars_decimal kdigits kdigit_value x) as (l & E & _). by eexists. Qed.

(** Output is possible: the processor is settled, nothing has panicked, and the
    lock of [printf] is free. *)
Record say_ready (k : kern) : Prop := {
  sr_hart : settled (view hart_l (kn_p k));
  sr_depth : c_noff (view mycpu_l (view hart_l (kn_p k))) < 2 ^ 31 - 4;
  sr_panicked : panicked (kn_c k) = 0;
  sr_lock : unheld (pr_lock (kn_c k))
}.
(** The kernel after its console was sent [o]. *)
Definition ksaid (o : list Z) (n : nat) (k : kern) : kern := update kn_c_l (said (flat_map echoed o) n (kn_c k)) k.

Lemma ksaid_ready o n k : say_ready k -> say_ready (ksaid o n k).
Proof. by intros []. Qed.

Section Print.
Variables (lsr : nat -> Z) (fuel : nat).
Hypothesis responsive : responds lsr fuel.

Lemma wp_puts_more o1 o2 q c (Q : unit -> cst -> Prop) : settled (view hart_l q) -> panicked c = 0 ->
  forall n1, (forall n, Q tt (q, said (flat_map echoed (o1 ++ o2)) n c)) ->
  wp (puts lsr fuel o2) Q (q, said (flat_map echoed o1) n1 c).
Proof using responsive.
  intros Hs Hp n1 HQ. apply (wp_puts lsr fuel responsive); [done|done|]. intros n.
  rewrite said_said, <- flat_map_app. apply HQ.
Qed.
Lemma wp_conv ch ap o ap' q c (Q : list vararg -> cst -> Prop) : settled (view hart_l q) -> panicked c = 0 ->
  conv_text ch ap = Some (o, ap') -> (forall n, Q ap' (q, said (flat_map echoed o) n c)) ->
  wp (printf_conv lsr fuel ch ap) Q (q, c).
Proof using responsive.
  intros Hs Hp E HQ. unfold conv_text in E. unfold printf_conv.
  assert (forall o, (forall n, Q ap' (q, said (flat_map echoed o) n c)) ->
    wp (_ ← puts lsr fuel o; mret ap') Q (q, c)) as Hput.
  { intros o1 H1. apply wp_bind, (wp_puts lsr fuel responsive); [done|done|]. intros n. apply wp_mret, H1. }
  destruct (ch =? 100); [|destruct (ch =? 120); [|destruct (ch =? 112); [|destruct (ch =? 115); [|destruct (ch =? 37)]]]].
  - destruct (va_int ap) as [[z ap1]|]; cbn in E; [|done]. destruct (int_chars kdigits z 10 true) as [l|] eqn:El; cbn in E; [|done].
    injection E as -> ->. apply wp_bind, wp_mret. unfold printint. rewrite El. apply wp_bind, wp_bind, wp_mret.
    apply (wp_puts lsr fuel responsive); [done|done|]. intros n. apply wp_mret, HQ.
  - destruct (va_int ap) as [[z ap1]|]; cbn in E; [|done]. destruct (int_chars kdigits z 16 true) as [l|] eqn:El; cbn in E; [|done].
    injection E as -> ->. apply wp_bind, wp_mret. unfold printint. rewrite El. apply wp_bind, wp_bind, wp_mret.
    apply (wp_puts lsr fuel responsive); [done|done|]. intros n. apply wp_mret, HQ.
  - destruct (va_int ap) as [[z ap1]|]; cbn in E; [|done]. injection E as <- <-. apply wp_bind, wp_mret. apply Hput, HQ.
  - destruct (va_str ap) as [[s ap1]|]; cbn in E; [|done]. injection E as <- <-. apply wp_bind, wp_mret. apply Hput, HQ.
  - injection E as <- <-. apply wp_bind, (wp_consputc lsr fuel responsive); [done|done|]. intros n.
    apply wp_mret, (HQ n).
  - injection E as <- <-. do 2 (apply wp_bind, (wp_consputc lsr fuel responsive); [done|done|]; intros ?).
    apply wp_mret. rewrite said_said. specialize (HQ n0). cbn in HQ. rewrite app_nil_r in HQ. exact HQ.
Qed.
Lemma wp_printf_loop n0 : forall fmt, (length fmt <= n0)%nat -> forall ap o q c (Q : unit -> cst -> Prop),
  settled (view hart_l q) -> panicked c = 0 -> fmt_text fmt ap = Some o ->
  (forall n, Q tt (q, said (flat_map echoed o) n c)) -> wp (printf_loop lsr fuel fmt ap) Q (q, c).
Proof using responsive.
  assert (forall q c, (q, c) = (q, said [] (dv_lsr c) c) :> cst) as Hnil.
  { intros q c. destruct c. unfold said. cbn. by rewrite app_nil_r. }
  induction n0 as [|n0 IH]; intros [|ch fmt] Hl ap o q c Q Hs Hp E HQ; cbn in Hl, E; try done; [lia|].
  cbn [printf_loop]. destruct (ch =? 0).
  { injection E as <-. apply wp_mret. rewrite Hnil. apply HQ. }
  destruct (negb (ch =? 37)).
  - destruct (fmt_text fmt ap) as [o1|] eqn:E1; cbn in E; [|done]. injection E as <-.
    apply wp_bind, (wp_consputc lsr fuel responsive); [done|done|]. intros n1.
    apply (IH fmt ltac:(lia) ap o1); [done|done|done|]. intros n. rewrite said_said. apply (HQ n).
  - destruct fmt as [|ch1 fmt]; [done|]. destruct (ch1 =? 0).
    { injection E as <-. apply wp_mret. rewrite Hnil. apply HQ. }
    destruct (conv_text ch1 ap) as [[o1 ap1]|] eqn:E1; cbn in E; [|done].
    destruct (fmt_text fmt ap1) as [o2|] eqn:E2; cbn in E; [|done]. injection E as <-.
    apply wp_bind, (wp_conv ch1 ap o1 ap1); [done|done|done|]. intros n1. cbn in Hl.
    apply (IH fmt ltac:(lia) ap1 o2); [done|done|done|]. intros n. rewrite said_said, <- flat_map_app. apply HQ.
Qed.

Lemma wp_put_line (s : string) ap o k (Q : unit -> kern -> Prop) : say_ready k ->
  fmt_text (chars s ++ [10; 0]) ap = Some o -> (forall n, Q tt (ksaid o n k)) ->
  wp (put_line lsr fuel s ap) Q k.
Proof using responsive.
  intros [Hs Hd Hp Hl] E HQ. unfold put_line. apply wp_zoom. unfold printf.
  apply wp_bind, wp_rd. cbn [view lcomp snd_l snd pr_locking_l kcn lpair].
  destruct (truth _) eqn:El.
  - apply wp_bind, (wp_lock pr_lock_l); [done|done|]. apply wp_bind.
    apply (wp_printf_loop _ _ (Nat.le_refl _) ap o); [|done|done|].
    { rewrite inq_hart. apply settled_pushed; [apply Hs|]. change (view kn_p_l k) with (kn_p k). lia. }
    intros n. change (said ?o n (lkc pr_lock_l ?q ?c)) with (lkc pr_lock_l q (said o n c)).
    apply (wp_unlock pr_lock_l); [done|done|]. specialize (HQ n). by destruct k.
  - apply wp_bind, wp_mret, wp_bind.
    apply (wp_printf_loop _ _ (Nat.le_refl _) ap o); [done|done|done|].
    intros n. apply wp_mret. specialize (HQ n). by destruct k.
Qed.
End Print.
