(* ===== verification/Args.v ===== *)
(** The arguments of a system call: kernel/syscall.c up to the table, and
    [argfd], [fdalloc] and [fdalloc2] of kernel/sysfile.c.

    An argument stands in a register the trap saved in the trapframe.  A string
    is fetched by value, with its NUL; a buffer on the stack is given by its
    size, and writing past it is undefined. *)

From S2P Require Import Prelude Mem Strings Digits Locks Kalloc Vm PageTable VmProps ProcState Vma Proc ProcFacts Sleeplock Bio Circ UserMem Pipe FatName Fat FatDir Console File.

Definition IERR : Z := u64 (-1).

(** * Strings from user memory, by value *)

(** The inner loop of [copyinstr], with the bytes it stores. *)
Fixpoint copyinstr_run (n : nat) (p : Z) (m : mem) : bool * list Z :=
  match n with
  | O => (false, [])
  | S n' =>
      if rd8 m p =? 0 then (true, [0])
      else let '(got_null, l) := copyinstr_run n' (p + 1) m in (got_null, rd8 m p :: l)
  end.

Definition copyinstr_turn (pagetable : Z) '((srcva, got, max) : Z * list Z * Z)
  : M kst (Z * list Z * Z + Z * list Z) :=
  if max =? 0 then mret (inr (-1, got))
  else
    let va0 := PGROUNDDOWN srcva in
    pa0 ← walkaddr pagetable va0;
    if pa0 =? 0 then mret (inr (-1, got))
    else
      let n := PGSIZE - (srcva - va0) in
      let n := if max <? n then max else n in
      m ← rd k_mem_l;
      let '(got_null, l) := copyinstr_run (Z.to_nat n) (Z.lor (u64 (pa0 + (srcva - va0))) DMWIN_MASK) m in
      if got_null : bool then mret (inr (0, got ++ l))
      else mret (inl (u64 (va0 + PGSIZE), got ++ l, max - n)).
(** The result of [copyinstr] and what it stores from [dst] on. *)
Definition copyinstr_bytes (pagetable srcva max : Z) : M kst (Z * list Z) :=
  loop (Z.to_nat (max / PGSIZE + 3)) (srcva, [], max) (copyinstr_turn pagetable).

(** * The trapframe *)

Definition tf_load (off : Z) : M kern Z :=
  tf ← mine p_trapframe_l; zoom kn_p_l (kmem (load (tf + off))).
Definition tf_store (off v : Z) : M kern unit :=
  tf ← mine p_trapframe_l; zoom kn_p_l (kmem (store (tf + off) v)).

Definition argraw (n : Z) : M kern Z :=
  if (0 <=? n) && (n <=? 6) then tf_load (tf_a0 + 8 * n) else panic "argraw".
(** They always succeed. *)
Definition argint (n : Z) : M kern Z := r ← argraw n; mret (s32 r).
Definition argaddr (n : Z) : M kern Z := argraw n.

(** [None] for -1. *)
Definition fetchaddr (addr : Z) : M kern (option Z) :=
  sz ← mine p_sz_l;
  if (sz <=? addr) || (sz <? u64 (addr + 8)) then mret None
  else
    pt ← mine p_pagetable_l;
    '(r, bs) ← zoom kn_p_l (kmem (copyin_bytes pt addr 8));
    mret (if r =? 0 then Some (le bs) else None).

(** -1, or the length of the string; and what a buffer of [size] bytes then
    begins with. *)
Definition fetchstr (addr size max : Z) : M kern (Z * list Z) :=
  pt ← mine p_pagetable_l;
  '(err, got) ← zoom kn_p_l (kmem (copyinstr_bytes pt addr max));
  if size <? Z.of_nat (length got) then undef "fetchstr: past the buffer"
  else if err <? 0 then mret (err, got)
  else n ← lift "strlen" (strlen got); mret (n, got).
(** The string with its NUL, or [None] for -1: what its callers look at. *)
Definition argstr (n size max : Z) : M kern (option (list Z)) :=
  addr ← argaddr n;
  '(r, got) ← fetchstr addr size max;
  mret (if r <? 0 then None else Some got).

(** * Descriptors *)

(** [myproc()->ofile[fd]], for a descriptor in range. *)
Definition ofile (fd : Z) : M kern (option nat) :=
  l ← mine p_ofile_l; mret (default None (l !! Z.to_nat fd)).
Definition set_ofile (fd : Z) (f : option nat) : M kern unit :=
  p ← kcur; md (kn_p_l ⊚ (proc_l p ⊚ p_ofile_l)) (<[Z.to_nat fd := f]>).
(** [myproc()->exec_close[fd]], an [int]. *)
Definition exec_close (fd : Z) : M kern Z :=
  ec ← mine p_exec_close_l; m ← rd (kn_p_l ⊚ mem_l); mret (s32 (rd32 m (ec + 4 * fd))).
Definition set_exec_close (fd v : Z) : M kern unit :=
  ec ← mine p_exec_close_l; md (kn_p_l ⊚ mem_l) (fun m => wr32 m (ec + 4 * fd) (u32 v)).

(** What [argfd] returns and what it stores through its two pointers. *)
Record fdarg := Fdarg {
  fa_ret : Z;
  fa_fd : option Z;
  fa_file : option nat
}.

Section Args.
Variables (lsr : nat -> Z) (fuel : nat).

(** [pfd] says whether the first pointer is not null. *)
Definition argfd (n : Z) (pfd : bool) : M kern fdarg :=
  fd ← argint n;
  if fd =? -1 then mret (Fdarg (-2) None None)
  else if fd =? -100 then
    if pfd then mret (Fdarg (-1) (Some fd) None) else undef "argfd: *pfd"
  else
    o ← (if (fd <? 0) || (Z.of_nat NOFILE <=? fd) then mret None else ofile fd);
    match o with
    | None => _ ← put_line lsr fuel "fd: %d argfd: fd error" [VInt fd]; mret (Fdarg (-1) None None)
    | Some f => mret (Fdarg 0 (if pfd then Some fd else None) (Some f))
    end.
End Args.

(** [for (fd = start; fd < NOFILEMAX(p); fd++)] of [fdalloc] and [fdalloc2]. *)
Definition fd_scan (f : nat) (start : Z) : M kern (option Z) :=
  p ← kcur;
  pr ← rd (kn_p_l ⊚ proc_l p);
  for_until (seqZ start (NOFILEMAX pr - start)) (fun fd =>
    if fd <? 0 then undef "p->ofile[fd]"
    else
      o ← ofile fd;
      match o with
      | None => _ ← set_ofile fd (Some f); mret (Some fd)
      | Some _ => mret None
      end).
Definition fdalloc (f : nat) : M kern Z := r ← fd_scan f 0; mret (default (-1) r).
Definition fdalloc2 (f : nat) (start : Z) : M kern Z := r ← fd_scan f start; mret (default (-24) r).
