(* ===== verification/ProcLife.v ===== *)
(** How processes are made and end: [fork], [clone] and [exit] of kernel/proc.c.

    They stand on the file layer: a child shares its parent's open files, an
    exiting process closes them.  [exit] does not return: it leaves the
    processor for the last time in [sched]. *)

From S2P Require Import Prelude Mem Strings Digits Locks Kalloc Vm PageTable VmProps ProcState Vma Proc ProcFacts SchedFacts Sleeplock Bio Circ UserMem Pipe FatName Fat FatDir Console File Args.

Section ProcLife.
Variables kernel_end trampoline signalTrampoline forkret_addr : Z.
Variables (lsr : nat -> Z) (fuel cfuel dfuel : nat).

Abbreviation pp m := (zoom kn_p_l m).
Abbreviation pl i := (kn_p_l ⊚ proc_l i).
Abbreviation say := (put_line lsr fuel).

(** Copies the parent's areas, pages included: [false] when memory runs out on
    the way. *)
Definition copy_areas (p np : nat) : M kern bool :=
  head ← rd (pl p ⊚ p_vma_l);
  nvma ← pp (vma_copy np head);
  if nvma =? 0 then mret true
  else
    v ← pp (vget nvma);
    old ← rd (pl p ⊚ p_pagetable_l);
    new ← rd (pl np ⊚ p_pagetable_l);
    nhead ← rd (pl np ⊚ p_vma_l);
    r ← pp (vwalk nhead (v_next v) (fun a _ =>
          r ← vma_map kernel_end old new a;
          if r <? 0 then mret (inr tt) else v ← vget a; mret (inl (v_next v))));
    match r with
    | inl _ => mret true
    | inr _ => _ ← say "clone: vma deep mapping failed" []; mret false
    end.

(** What [fork] and [clone] share, up to the child's pid: the child, its lock
    held; or [None] for -1.  A child whose areas could not be copied is left as
    it is, with its lock held. *)
Definition copy_proc : M kern (option nat) :=
  p ← kcur;
  o ← pp (allocproc kernel_end trampoline signalTrampoline forkret_addr);
  match o with
  | None => mret None
  | Some np =>
      pr ← rd (pl p);
      npt ← rd (pl np ⊚ p_pagetable_l);
      r ← pp (kmem (uvmcopy kernel_end (p_pagetable pr) npt (p_sz pr)));
      if r <? 0 then
        _ ← pp (freeproc kernel_end np);
        _ ← pp (punlock np);
        mret None
      else
        ok ← copy_areas p np;
        if negb ok then mret None
        else
          pr ← rd (pl p);
          _ ← pl np ⊚ p_sz_l <~ p_sz pr;
          _ ← pl np ⊚ p_parent_l <~ Some p;
          _ ← pl np ⊚ p_tmask_l <~ p_tmask pr;
          ntf ← rd (pl np ⊚ p_trapframe_l);
          _ ← md (kn_p_l ⊚ mem_l) (fun m => memmove m ntf (p_trapframe pr) tf_size);
          _ ← pp (kmem (store (ntf + tf_a0) 0));
          _ ← for_each (seq 0 NOFILE) (fun i =>
                l ← rd (pl p ⊚ p_ofile_l);
                match default None (l !! i) with
                | Some f => f ← filedup f; md (pl np ⊚ p_ofile_l) (<[i := Some f]>)
                | None => mret tt
                end);
          cwd ← rd (pl p ⊚ p_cwd_l);
          cwd ← zoom kfs (edup cwd);
          _ ← pl np ⊚ p_cwd_l <~ cwd;
          nm ← rd (pl np ⊚ p_name_l);
          nm ← lift "safestrcpy" (safestrcpy nm (p_name pr) 16);
          _ ← pl np ⊚ p_name_l <~ nm;
          mret (Some np)
  end.

Definition fork : M kern Z :=
  o ← copy_proc;
  match o with
  | None => mret (-1)
  | Some np =>
      pid ← rd (pl np ⊚ p_pid_l);
      _ ← pl np ⊚ p_state_l <~ RUNNABLE;
      _ ← pp (punlock np);
      mret pid
  end.

(** The result is [uint64]. *)
Definition clone (new_stack new_fn : Z) : M kern Z :=
  o ← copy_proc;
  match o with
  | None => mret IERR
  | Some np =>
      pid ← rd (pl np ⊚ p_pid_l);
      _ ← pl np ⊚ p_state_l <~ RUNNABLE;
      ntf ← rd (pl np ⊚ p_trapframe_l);
      _ ← pp (kmem (store (ntf + tf_era) new_fn));
      _ ← pp (kmem (store (ntf + tf_sp) new_stack));
      _ ← pp (punlock np);
      mret (u64 pid)
  end.

(** * [exit] *)

Definition close_all (p : nat) : M kern unit :=
  for_each (seq 0 NOFILE) (fun fd =>
    l ← rd (pl p ⊚ p_ofile_l);
    match default None (l !! fd) with
    | Some f => _ ← fileclose kernel_end fuel cfuel dfuel f; md (pl p ⊚ p_ofile_l) (<[fd := None]>)
    | None => mret tt
    end).
(** From the wake-up of the first process to [sched]; the parent is about to
    be dereferenced. *)
Definition become_zombie (p : nat) (status : Z) : M pst unit :=
  o ← rd s_initproc_l;
  init ← lift "initproc" o;
  _ ← plock init;
  _ ← wakeup1 init;
  _ ← punlock init;
  _ ← plock p;
  o ← rd (proc_l p ⊚ p_parent_l);
  _ ← punlock p;
  op ← lift "original_parent" o;
  _ ← plock op;
  _ ← plock p;
  _ ← reparent p;
  _ ← wakeup1 op;
  opr ← rd (proc_l op);
  _ ← when (bool_decide (p_chan opr = Some (CProc p)) && bool_decide (p_state opr = SLEEPING))
        (proc_l op ⊚ p_state_l <~ RUNNABLE);
  _ ← proc_l p ⊚ p_xstate_l <~ status;
  _ ← proc_l p ⊚ p_state_l <~ ZOMBIE;
  _ ← punlock op;
  sched.
Definition exit_close (p : nat) : M kern unit :=
  _ ← close_all p;
  cwd ← rd (pl p ⊚ p_cwd_l);
  _ ← zoom kfs (eput fuel cfuel dfuel cwd);
  pl p ⊚ p_cwd_l <~ None.
Definition exit {A} (status : Z) : M kern A :=
  p ← kcur;
  init ← rd (kn_p_l ⊚ s_initproc_l);
  if bool_decide (init = Some p) then panic "init exiting"
  else
    _ ← exit_close p;
    _ ← pp (become_zombie p status);
    panic "zombie exit".
End ProcLife.
