(* ===== verification/ProcExit.v ===== *)
(** What [exit] of kernel/proc.c leaves in the process table: a calculus of
    changes to the table under held locks ([tbl], [put]), the steps of [exit]
    in it, and the theorem. *)

From S2P Require Import Prelude Mem Strings Digits Locks Kalloc Vm PageTable VmProps ProcState Vma Proc ProcFacts SchedFacts Sleeplock Bio Circ UserMem Pipe FatName Fat FatDir Console File Args ProcLife.


(** * The process table, step by step

    [tbl s h E s']: [s'] differs from [s] in the hart, which is [h], and in the
    process table, whose entries are those of [E]. *)
Definition tbl (s : pst) (h : hart) (E : nat -> proc) (s' : pst) : Prop :=
  exists procs, s' = update hart_l h (update s_procs_l procs s) /\ forall i, entry procs i = E i.
Definition put (E : nat -> proc) (i : nat) (pr : proc) (j : nat) : proc := if decide (i = j) then pr else E j.

Lemma put_eq E i pr : put E i pr i = pr.
Proof. unfold put. by rewrite decide_True. Qed.
Lemma put_ne E i j pr : i <> j -> put E i pr j = E j.
Proof. intros. unfold put. by rewrite decide_False. Qed.

Lemma tbl_self s : tbl s (view hart_l s) (entry (s_procs s)) s.
Proof. exists (s_procs s). split; [by destruct s as [[] ? ? ? ? ? ?]|done]. Qed.
Lemma tbl_ext s h E E' s' : (forall i, E i = E' i) -> tbl s h E s' -> tbl s h E' s'.
Proof. intros H (procs & -> & Hp). exists procs. split; [done|]. intros i. by rewrite Hp. Qed.
Lemma tbl_hart s h E s' : tbl s h E s' -> view hart_l s' = h.
Proof. intros (procs & -> & _). done. Qed.
Lemma tbl_proc s h E s' i : tbl s h E s' -> view (proc_l i) s' = E i.
Proof. intros (procs & -> & Hp). rewrite <- Hp. done. Qed.
Lemma tbl_init s h E s' : tbl s h E s' -> s_initproc s' = s_initproc s.
Proof. intros (procs & -> & _). done. Qed.
Lemma tbl_put s h E s' i pr : tbl s h E s' -> tbl s h (put E i pr) (update (proc_l i) pr s').
Proof.
  intros (procs & -> & Hp). exists (<[i := pr]> procs). split; [done|].
  intros j. rewrite entry_insert. unfold put. by destruct (decide (i = j)).
Qed.
Lemma tbl_set {T} s h E s' i (l : lens proc T) v : tbl s h E s' ->
  tbl s h (put E i (update l v (E i))) (update (proc_l i ⊚ l) v s').
Proof.
  intros HT. change (update (proc_l i ⊚ l) v s') with (update (proc_l i) (update l v (view (proc_l i) s')) s').
  rewrite (tbl_proc _ _ _ _ i HT). by apply tbl_put.
Qed.

Lemma wp_plock s h E s' i (Q : unit -> pst -> Prop) : tbl s h E s' ->
  settled h -> unheld (p_lock (E i)) ->
  (forall s'', tbl s (pushed h) (put E i (update p_lock_l (taken (p_lock (E i)) (h_tp h)) (E i))) s'' -> Q tt s'') ->
  wp (plock i) Q s'.
Proof.
  intros (procs & -> & Hp) Hh Hl HQ. pose proof (Hp i) as Hi.
  apply (wp_enter hart_l (plock_l i)); [done|by rewrite <- Hi in Hl|].
  apply HQ. rewrite <- Hi.
  eexists (<[i := update p_lock_l (taken (p_lock (entry procs i)) (h_tp h)) (entry procs i)]> procs).
  split; [reflexivity|]. intros j. rewrite entry_insert. unfold put. by destruct (decide (i = j)).
Qed.
Lemma wp_punlk s h E s' i lk (Q : unit -> pst -> Prop) : tbl s (pushed h) E s' ->
  settled h -> unheld lk -> p_lock (E i) = taken lk (h_tp h) ->
  (forall s'', tbl s h (put E i (update p_lock_l lk (E i))) s'' -> Q tt s'') ->
  wp (punlock i) Q s'.
Proof.
  intros (procs & -> & Hp) Hh Hl Ht HQ. pose proof (Hp i) as Hi.
  apply (wp_leave hart_l (plock_l i) h lk); [done|done|done|by rewrite <- Ht, <- Hi|].
  apply HQ. rewrite <- Hi.
  eexists (<[i := update p_lock_l lk (entry procs i)]> procs). split; [by destruct s as [[] ? ? ? ? ? ?]|].
  intros j. rewrite entry_insert. unfold put. by destruct (decide (i = j)).
Qed.
Lemma wp_wake s h E s' i ch (Q : unit -> pst -> Prop) : tbl s h E s' ->
  (forall s'', tbl s h (put E i (woken ch (E i))) s'' -> Q tt s'') ->
  wp (when (bool_decide (p_chan (E i) = Some ch) && bool_decide (p_state (E i) = SLEEPING))
        (proc_l i ⊚ p_state_l <~ RUNNABLE)) Q s'.
Proof.
  intros HT HQ. unfold woken in HQ. rewrite andb_comm. destruct (_ && _) eqn:Eb; cbn [when].
  - apply wp_wr, HQ. by apply tbl_set.
  - apply wp_mret, HQ. eapply tbl_ext; [|exact HT]. intros j. unfold put.
    by destruct (decide (i = j)) as [->|].
Qed.
Lemma wp_wakeup1 s h E s' i (Q : unit -> pst -> Prop) : tbl s h E s' ->
  locked (p_lock (E i)) = 1 -> lk_cpu (p_lock (E i)) = Some (h_tp h) ->
  (forall s'', tbl s h (put E i (woken (CProc i) (E i))) s'' -> Q tt s'') ->
  wp (wakeup1 i) Q s'.
Proof.
  intros HT H1 H2 HQ. unfold wakeup1. apply wp_bind. eapply wp_eq; [apply (holding_eq hart_l (plock_l i))|].
  change (view (plock_l i) s') with (p_lock (view (proc_l i) s')).
  rewrite (tbl_hart _ _ _ _ HT), (tbl_proc _ _ _ _ i HT).
  unfold held_by. rewrite H1, H2. rewrite bool_decide_true by done. cbn [Z.eqb negb andb Pos.eqb].
  apply wp_bind, wp_rd. rewrite (tbl_proc _ _ _ _ i HT). by apply (wp_wake _ _ _ _ i _ _ HT).
Qed.

(** [reparent] of the children of [p] in a table where their locks are free. *)
Definition adopt (p : nat) (init : option nat) (E : nat -> proc) (l : list nat) (i : nat) : proc :=
  if decide (i ∈ l /\ p_parent (E i) = Some p) then update p_parent_l init (E i) else E i.

Lemma wp_reparent s h E s' p (Q : unit -> pst -> Prop) : tbl s h E s' -> settled h ->
  (forall i, (i < 50)%nat -> p_parent (E i) = Some p -> unheld (p_lock (E i))) ->
  (forall s'', tbl s h (adopt p (s_initproc s) E nproc) s'' -> Q tt s'') ->
  wp (reparent p) Q s'.
Proof.
  intros HT Hh Hl HQ. unfold reparent.
  apply (wp_for_each _ (fun dn t => tbl s h (adopt p (s_initproc s) E dn) t)).
  - eapply tbl_ext; [|exact HT]. intros i. unfold adopt. rewrite decide_False; [done|].
    by intros [?%elem_of_nil ?].
  - intros dn i rest t Hd HI.
    assert (i ∉ dn) as Hni.
    { pose proof nproc_nodup as Hnd. rewrite Hd in Hnd. apply NoDup_app in Hnd as (_ & Hnd & _).
      intros Hi. apply (Hnd i Hi). by left. }
    assert ((i < 50)%nat) as Hi50 by (apply nproc_elem; rewrite Hd; set_solver).
    assert (adopt p (s_initproc s) E dn i = E i) as HEi
      by (unfold adopt; rewrite decide_False; [done|naive_solver]).
    apply wp_bind, wp_rd. rewrite (tbl_proc _ _ _ _ i HI), HEi.
    case_bool_decide as Hp; cbn [when].
    + apply wp_bind. apply (wp_plock _ _ _ _ i _ HI Hh); [rewrite HEi; by apply Hl|]. rewrite HEi.
      intros t1 H1. apply wp_bind, wp_rd, wp_bind, wp_wr.
      change (view s_initproc_l t1) with (s_initproc t1). rewrite (tbl_init _ _ _ _ H1).
      apply (tbl_set _ _ _ _ i p_parent_l (s_initproc s)) in H1. rewrite put_eq in H1.
      eapply (wp_punlk _ _ _ _ i (p_lock (E i)) _ H1 Hh); [by apply Hl|by rewrite put_eq|].
      intros t2 H2. eapply tbl_ext; [|exact H2]. intros j. unfold put, adopt.
      destruct (decide (i = j)) as [<-|Hne].
      * rewrite decide_True by done. rewrite decide_True by (split; [set_solver|done]). by destruct (E i).
      * apply decide_ext. set_solver.
    + apply wp_mret. eapply tbl_ext; [|exact HI]. intros j. unfold adopt.
      apply decide_ext. split; [intros [? ?]; split; [set_solver|done]|].
      intros [Hj ?]. split; [|done]. apply elem_of_app in Hj as [?|?%list_elem_of_singleton]; [done|by subst].
  - done.
Qed.

(** * What [exit] leaves behind *)

(** The entry of process [i] when [p] has left for good. *)
Definition after_exit (p op init : nat) (status : Z) (tp : nat) (E : nat -> proc) (i : nat) : proc :=
  let pr := if decide (i = init) then woken (CProc init) (E i) else E i in
  let pr := if decide ((i < 50)%nat /\ p_parent (E i) = Some p) then update p_parent_l (Some init) pr else pr in
  let pr := if decide (i = op) then woken (CProc p) (woken (CProc op) pr) else pr in
  if decide (i = p)
  then update p_state_l ZOMBIE (update p_xstate_l status (update p_lock_l (taken (p_lock pr) tp) pr))
  else pr.

Lemma woken_lock ch pr : p_lock (woken ch pr) = p_lock pr.
Proof. unfold woken. by destruct (_ && _). Qed.
Lemma woken_parent ch pr : p_parent (woken ch pr) = p_parent pr.
Proof. unfold woken. by destruct (_ && _). Qed.

(** A process's lock taken, and let go again around a pure change. *)
Definition lkd (tp : nat) (pr : proc) : proc := update p_lock_l (taken (p_lock pr) tp) pr.
Lemma unlock_keeps f tp pr : keeps_lock f -> update p_lock_l (p_lock pr) (f (lkd tp pr)) = f pr.
Proof.
  intros [H1 H2]. unfold lkd. rewrite H2, plock_upd. rewrite <- (H1 pr). apply plock_id.
Qed.
(** A section of process [i] around [m]. *)
Lemma yields_section {B} s h E s' i f (m : M pst unit) (k : M pst B) Q : tbl s h E s' -> settled h ->
  unheld (p_lock (E i)) -> keeps_lock f ->
  (forall t R, tbl s (pushed h) (put E i (lkd (h_tp h) (E i))) t ->
     (forall t', tbl s (pushed h) (put E i (f (lkd (h_tp h) (E i)))) t' -> R tt t') -> wp m R t) ->
  (forall t, tbl s h (put E i (f (E i))) t -> yields k Q t) ->
  yields (_ ← plock i; _ ← m; _ ← punlock i; k) Q s'.
Proof.
  intros HT Hh Hl Hf Hm Hk. apply yields_bind. apply (wp_plock _ _ _ _ i _ HT Hh Hl). intros t1 H1.
  apply yields_bind. apply (Hm _ _ H1). intros t2 H2. apply yields_bind.
  eapply (wp_punlk _ _ _ _ i (p_lock (E i)) _ H2 Hh Hl); [by rewrite put_eq, (proj1 Hf)|].
  intros t3 H3. apply Hk. eapply tbl_ext; [|exact H3]. intros j. rewrite put_eq, unlock_keeps by done.
  unfold put. by destruct (decide (i = j)).
Qed.

(** From the parent's lock on: [E] is the table when the locks of [op] and
    [p] are free. *)
Lemma zombie_yields p op init status s h E s' : tbl s h E s' -> settled h ->
  c_noff (view mycpu_l h) = 0 -> c_proc (view mycpu_l h) = Some p -> s_initproc s = Some init ->
  op <> p -> p_parent (E op) <> Some p -> p_parent (E p) = Some op -> (forall i, unheld (p_lock (E i))) ->
  yields (_ ← plock op; _ ← plock p; _ ← reparent p; _ ← wakeup1 op;
          opr ← rd (proc_l op);
          _ ← when (bool_decide (p_chan opr = Some (CProc p)) && bool_decide (p_state opr = SLEEPING))
                (proc_l op ⊚ p_state_l <~ RUNNABLE);
          _ ← proc_l p ⊚ p_xstate_l <~ status;
          _ ← proc_l p ⊚ p_state_l <~ ZOMBIE;
          _ ← punlock op;
          sched)
    (fun w k s1 => w = WSched /\ (exists E', tbl s (pushed h) E' s1 /\ forall i, E' i =
       let pr := adopt p (Some init) E nproc i in
       let pr := if decide (i = op) then woken (CProc p) (woken (CProc op) pr) else pr in
       if decide (i = p) then update p_state_l ZOMBIE (update p_xstate_l status (lkd (h_tp h) pr)) else pr) /\
     forall s2, exists s3, k s2 = Ret tt s3) s'.
Proof.
  intros HT Hh Hn Hc Hi Hopp Hopc Hpar Hl.
  assert (settled (pushed h)) as Hh1 by (apply settled_pushed; [apply Hh|lia]).
  assert (settled (pushed (pushed h))) as Hh2.
  { apply settled_pushed; [apply Hh1|]. destruct (pushed_ok h) as [? ?]; [apply Hh|destruct Hh as [[? ?] ?]; done|lia]. }
  apply yields_bind. apply (wp_plock _ _ _ _ op _ HT Hh (Hl op)). intros s1 H1.
  apply yields_bind. apply (wp_plock _ _ _ _ p _ H1 Hh1); [rewrite put_ne by done; apply Hl|]. intros s2 H2.
  rewrite put_ne in H2 by done. change (h_tp (pushed h)) with (h_tp h) in H2. fold (lkd (h_tp h) (E op)) (lkd (h_tp h) (E p)) in H2.
  apply yields_bind. apply (wp_reparent _ _ _ _ p _ H2 Hh2).
  { intros i _. unfold put. destruct (decide (p = i)) as [<-|]; [cbn; congruence|].
    destruct (decide (op = i)) as [<-|]; [done|]. intros _. apply Hl. }
  intros s3 H3. rewrite Hi in H3.
  set (A := adopt p (Some init) _ nproc) in H3.
  assert (A op = lkd (h_tp h) (E op)) as HAo.
  { unfold A, adopt. rewrite put_ne, put_eq by done. rewrite decide_False; [done|]. intros [_ H]. by cbn in H. }
  assert (A p = lkd (h_tp h) (E p)) as HAp.
  { unfold A, adopt. rewrite put_eq. rewrite decide_False; [done|]. intros [_ H]. cbn in H. congruence. }
  apply yields_bind. apply (wp_wakeup1 _ _ _ _ op _ H3); [by rewrite HAo..|]. rewrite HAo. intros s4 H4.
  apply yields_bind, wp_rd, yields_bind. rewrite (tbl_proc _ _ _ _ op H4).
  apply (wp_wake _ _ _ _ op _ _ H4). rewrite put_eq. intros s5 H5.
  apply yields_bind, wp_wr, yields_bind, wp_wr.
  apply (tbl_set _ _ _ _ p p_xstate_l status) in H5. apply (tbl_set _ _ _ _ p p_state_l ZOMBIE) in H5.
  rewrite !(put_ne _ op p) in H5 by done. rewrite HAp, put_eq in H5.
  set (W := woken (CProc p) (woken (CProc op) (lkd (h_tp h) (E op)))) in H5.
  apply yields_bind. eapply (wp_punlk _ _ _ _ op (p_lock (E op)) _ H5 Hh1 (Hl op)).
  { rewrite !(put_ne _ p op) by done. rewrite put_eq. unfold W. by rewrite !woken_lock. }
  rewrite !(put_ne _ p op) by done. rewrite put_eq. intros s6 H6.
  pose proof (tbl_proc _ _ _ _ p H6) as Hvp. rewrite put_ne, put_eq in Hvp by done.
  unfold yields. rewrite (sched_yields p h s6); [|split; try done|by rewrite Hvp].
  2:{ by apply (tbl_hart _ _ _ _ H6). }
  2:{ rewrite Hvp. by exists (p_lock (E p)). }
  split; [done|]. split; [|by eauto]. eexists. split; [exact H6|]. intros i. cbv zeta.
  assert (forall j, j <> op -> j <> p -> A j = adopt p (Some init) E nproc j) as HA
    by (intros j ? ?; unfold A, adopt; by rewrite !put_ne by done).
  unfold put. destruct (decide (op = i)) as [<-|Ho].
  - rewrite (decide_False (P := op = p)), decide_True by done.
    unfold adopt. rewrite decide_False by (by intros [_ ?]).
    apply (unlock_keeps (fun pr => woken (CProc p) (woken (CProc op) pr))).
    destruct (woken_keeps (CProc p)) as [? E1], (woken_keeps (CProc op)) as [? E2].
    split; intros; [by rewrite !woken_lock|by rewrite E2, E1].
  - destruct (decide (p = i)) as [<-|Hp].
    + rewrite (decide_False (P := p = op)), decide_True by done. unfold adopt.
      rewrite decide_False; [done|]. intros [_ ?]. congruence.
    + rewrite decide_False, decide_False by done. by apply HA.
Qed.

Lemma become_zombie_yields p op init status s : quiet s ->
  c_noff (view mycpu_l (view hart_l s)) = 0 -> c_proc (view mycpu_l (view hart_l s)) = Some p ->
  s_initproc s = Some init -> p_parent (entry (s_procs s) p) = Some op -> init <> p -> op <> p ->
  p_parent (entry (s_procs s) op) <> Some p ->
  yields (become_zombie p status) (fun w k s1 => w = WSched /\
    tbl s (pushed (view hart_l s)) (after_exit p op init status (h_tp (view hart_l s)) (entry (s_procs s))) s1 /\
    forall s2, exists s3, k s2 = Ret tt s3) s.
Proof.
  intros [Hh Hl] Hn Hc Hi Hop Hip Hopp Hopc. unfold become_zombie.
  pose proof (tbl_self s) as HT. set (h := view hart_l s) in *. set (E := entry (s_procs s)) in *.
  apply yields_bind, wp_rd. change (view s_initproc_l s) with (s_initproc s). rewrite Hi.
  apply yields_bind, wp_mret.
  apply (yields_section _ _ _ _ init (woken (CProc init)) _ _ _ HT Hh (Hl init) (woken_keeps _)).
  { intros t R H HR. apply (wp_wakeup1 _ _ _ _ init _ H); [by rewrite put_eq..|]. rewrite put_eq. intros t' H'.
    apply HR. eapply tbl_ext; [|exact H']. intros j. unfold put. by destruct (decide (init = j)). }
  intros s1 H1. set (E1 := put E init _) in H1.
  assert (forall i, p_lock (E1 i) = p_lock (E i) /\ p_parent (E1 i) = p_parent (E i)) as HE1.
  { intros i. unfold E1, put. destruct (decide (init = i)) as [<-|]; [|done]. by rewrite woken_lock, woken_parent. }
  apply yields_bind. apply (wp_plock _ _ _ _ p _ H1 Hh); [rewrite (proj1 (HE1 p)); apply Hl|]. intros s2 H2.
  apply yields_bind, wp_rd, yields_bind.
  change (view (proc_l p ⊚ p_parent_l) s2) with (p_parent (view (proc_l p) s2)).
  rewrite (tbl_proc _ _ _ _ p H2), put_eq.
  eapply (wp_punlk _ _ _ _ p (p_lock (E1 p)) _ H2 Hh); [rewrite (proj1 (HE1 p)); apply Hl|by rewrite put_eq|].
  rewrite put_eq. intros s3 H3. apply (tbl_ext _ _ _ E1) in H3.
  2:{ intros j. unfold put. destruct (decide (p = j)) as [<-|]; [by destruct (E1 p)|done]. }
  change (p_parent (update p_lock_l _ (E1 p))) with (p_parent (E1 p)). rewrite (proj2 (HE1 p)), Hop.
  apply yields_bind, wp_mret.
  pose proof (zombie_yields p op init status s h E1 s3 H3 Hh Hn Hc Hi Hopp) as HZ.
  rewrite !(fun i => proj2 (HE1 i)) in HZ. specialize (HZ Hopc Hop).
  apply yields_inv in HZ as (w & k & s4 & Eq & -> & (E' & HT' & HE') & Hk);
    [|intros i; rewrite (proj1 (HE1 i)); apply Hl].
  unfold yields. rewrite Eq. split; [done|]. split; [|exact Hk]. eapply tbl_ext; [|exact HT'].
  intros i. rewrite HE'. unfold after_exit, adopt. cbv zeta. rewrite (proj2 (HE1 i)).
  rewrite (decide_ext (i ∈ nproc /\ _) ((i < 50)%nat /\ p_parent (E i) = Some p)) by (by rewrite nproc_elem).
  replace (E1 i) with (if decide (i = init) then woken (CProc init) (E i) else E i); [done|].
  unfold E1, put. destruct (decide (init = i)) as [<-|]; [by rewrite decide_True|by rewrite decide_False].
Qed.

(** C14. A process leaves for good in one step: once [exit] has closed what it
    holds, it switches away as a zombie with its status, its own lock held and
    no other; its children belong to the first process, its parent is runnable
    if it slept in [wait] or waited for this child, the first process if it
    slept in [wait]; nobody else changes.  If it were resumed it would panic. *)
Theorem exit_leaves {A} kernel_end fuel cfuel dfuel (p op init : nat) (status : Z) (k0 k1 : kern) :
  let s := kn_p k1 in
  settled (view khart k0) -> c_proc (view mycpu_l (view khart k0)) = Some p ->
  s_initproc (kn_p k0) = Some init -> init <> p ->
  exit_close kernel_end fuel cfuel dfuel p k0 = Ret tt k1 ->
  quiet s -> c_noff (view mycpu_l (view hart_l s)) = 0 -> c_proc (view mycpu_l (view hart_l s)) = Some p ->
  s_initproc s = Some init -> p_parent (entry (s_procs s) p) = Some op -> op <> p ->
  p_parent (entry (s_procs s) op) <> Some p ->
  exists rest s2, @exit kernel_end fuel cfuel dfuel A status k0 = Yield WSched rest (update kn_p_l s2 k1)
    /\ tbl s (pushed (view hart_l s)) (after_exit p op init status (h_tp (view hart_l s)) (entry (s_procs s))) s2
    /\ forall k2, rest k2 = Panic "zombie exit".
Proof.
  intros s Hh0 Hc0 Hi0 Hip Hcl Hq Hn Hc Hi Hop Hopp Hopc.
  pose proof (become_zombie_yields p op init status s Hq Hn Hc Hi Hop Hip Hopp Hopc) as HZ.
  apply yields_inv in HZ as (w & k & s2 & Eq & -> & HT & Hk). unfold exit.
  rewrite (bind_ret kcur _ k0 p k0).
  2:{ unfold kcur. rewrite (zoom_ret kn_p_l cur k0 p (kn_p k0)); [by destruct k0|]. by apply cur_ok. }
  rewrite (bind_ret _ _ k0 (Some init) k0) by (unfold rd, gets; f_equal; done).
  rewrite bool_decide_false by congruence.
  rewrite (bind_ret _ _ k0 tt k1) by done.
  eexists _, s2. split; [|split; [exact HT|]].
  - unfold mbind at 1, M_bind at 1. unfold zoom at 1. change (view kn_p_l k1) with s. rewrite Eq. reflexivity.
  - intros k2. cbn. destruct (Hk (view kn_p_l k2)) as [s3 E3]. cbn in E3. by rewrite E3.
Qed.

(** Process 1, a child of the first, exits: its parent sleeps in [wait] and it
    has a child, 2; it has the root as its directory and no open files. *)
Definition exit_procs : gmap nat proc :=
  {[0%nat := demo_proc SLEEPING 1 (Some (CProc 0));
    1%nat := update p_cwd_l (Some ROOT) (update p_parent_l (Some 0%nat) (demo_proc RUNNING 2 None));
    2%nat := update p_parent_l (Some 1%nat) (demo_proc RUNNABLE 3 None)]}.
Definition exit_pst : pst :=
  Pst (Kst (run_hart 1) (Spin 0 "kmem" None) 0 0 ∅ 0 []) exit_procs (Spin 0 "nextpid" None) 4 (Some 0%nat) ∅ false.
Definition exit_kern : kern :=
  update kn_p_l exit_pst
    (update kn_f_l (Fsys (Fat 4 10 10 512 512 1 1 1 0 14 3 2) (Spin 0 "ecache" None)
                      {[ROOT := update d_ref_l 4 dirent0]}) demo_kern).
Definition exit_closed : kern := match exit_close 0 1 1 1 1 exit_kern with Ret _ k => k | _ => exit_kern end.
Lemma exit_closed_procs : s_procs (kn_p exit_closed) = <[1%nat := update p_parent_l (Some 0%nat) (demo_proc RUNNING 2 None)]> exit_procs.
Proof. by vm_compute. Qed.
Lemma exit_closed_hart : view hart_l (kn_p exit_closed) = run_hart 1.
Proof. by vm_compute. Qed.
Lemma exit_closed_quiet : quiet (kn_p exit_closed).
Proof.
  split; [rewrite exit_closed_hart; apply run_hart_ok|].
  intros i. rewrite exit_closed_procs. unfold exit_procs, entry.
  destruct (decide (i = 0%nat)) as [->|H0]; [reflexivity|].
  destruct (decide (i = 1%nat)) as [->|H1]; [reflexivity|].
  destruct (decide (i = 2%nat)) as [->|H2]; [reflexivity|].
  rewrite !lookup_insert_ne, lookup_singleton_ne by done. apply proc0_unheld.
Qed.
Example exit_leaves_witness :
  exists rest s2, @exit 0 1 1 1 unit 3 exit_kern = Yield WSched rest (update kn_p_l s2 exit_closed)
    /\ tbl (kn_p exit_closed) (pushed (run_hart 1))
         (after_exit 1 0 0 3 (h_tp (run_hart 1)) (entry (s_procs (kn_p exit_closed)))) s2
    /\ forall k2, rest k2 = Panic "zombie exit".
Proof.
  rewrite <- exit_closed_hart.
  exact (exit_leaves 0 1 1 1 1 0 0 3 exit_kern exit_closed (run_hart_ok 1) eq_refl eq_refl
    ltac:(done) ltac:(by vm_compute) exit_closed_quiet ltac:(by vm_compute) ltac:(by vm_compute)
    ltac:(by vm_compute) ltac:(rewrite exit_closed_procs; reflexivity) ltac:(done)
    ltac:(rewrite exit_closed_procs; by vm_compute)).
Defined.
