(* ===== verification/SysFile.v ===== *)
(** The system calls on files: kernel/sysfile.c, without [sys_mmap] and
    [sys_syslog], which are in SysProc.v with the state they use.

    A handler returns a [uint64].  An array on the stack holds [buf_junk] where
    nothing has been stored; a scalar that nobody has written is undefined to
    read.  What the handlers print is printed. *)

From S2P Require Import Prelude Mem Strings Digits Locks Kalloc Vm PageTable VmProps ProcState Vma Proc ProcFacts Sleeplock Bio Circ UserMem Pipe FatName Fat FatDir Console File Args.

Definition FAT32_MAX_PATH : Z := 260.
Definition O_WRONLY : Z := 0x001.
Definition O_CREATE : Z := 0x040.
Definition O_TRUNC : Z := 0x200.
Definition O_APPEND : Z := 0x400.
Definition AT_FDCWD : Z := -100.
Definition F_DUPFD : Z := 0.
Definition F_GETFD : Z := 1.
Definition F_SETFD : Z := 2.
Definition F_DUPFD_CLOEXEC : Z := 1030.
Definition F_OK : Z := 0.
Definition IOVMAX : Z := 64.
Definition PROC_SUPER_MAGIC : Z := 0x9fa0.
Definition TMPFS_MAGIC : Z := 0x01021994.

Section SysFile.
Variable kernel_end : Z.
Variables (lsr : nat -> Z) (fuel cfuel dfuel : nat).
(** Fuel for the directories made on a path and for [file_send]. *)
Variables (nfuel sfuel : nat).
Variable stack_buf : Z.
Variables (kst_junk : kstat) (kst_tail : list Z) (st_junk : stat) (st_gap1 st_gap2 lde_junk : list Z).
Variable buf_junk : nat -> Z.
(** What [sys_rename] has in [off], and [sys_copy_file_range] above the low
    word of [len], before anything is stored. *)
Variables off_junk len_junk : Z.

Abbreviation say := (put_line lsr fuel).
Abbreviation argfd := (argfd lsr fuel).
Abbreviation fileclose := (fileclose kernel_end fuel cfuel dfuel).
Abbreviation fs m := (zoom kfs m).
Abbreviation eput e := (fs (eput fuel cfuel dfuel e)).
Abbreviation elock := (ep_lock fuel).
Abbreviation eunlock := ep_unlock.
Abbreviation ename path := (fs (ename fuel cfuel dfuel path)).
Abbreviation new_ename env path := (fs (new_ename fuel cfuel dfuel env path)).
Abbreviation copyout_val addr bs := (copy_to_user addr bs).

(** A buffer of [n] bytes that starts with [l]. *)
Definition buffer (n : nat) (l : list Z) : list Z :=
  take n (l ++ map buf_junk (seq (length l) (n - length l))).
(** [0 == strncmp(path, lit, n)] *)
Definition path_is (path : list Z) (lit : string) (n : Z) : M kern bool := named path lit n.
(** The entry's attributes, for a pointer that is not null. *)
Definition attribute (e : option nat) : M kern Z :=
  e ← lift "entry" e; rd (kfs ⊚ (ent e ⊚ d_attribute_l)).
Definition is_directory (e : option nat) : M kern bool :=
  a ← attribute e; mret (truth (Z.land a ATTR_DIRECTORY)).

(** * Reading and writing *)

Definition sys_dup : M kern Z :=
  a ← argfd 0 false;
  if fa_ret a <? 0 then mret IERR
  else
    f ← lift "f" (fa_file a);
    fd ← fdalloc f;
    if fd <? 0 then mret (u64 (-24)) else _ ← filedup f; mret (u64 fd).

Definition sys_dup3 : M kern Z :=
  p ← kcur;
  a ← argfd 0 false;
  if fa_ret a <? 0 then mret IERR
  else
    newfd ← argint 1;
    if newfd <? 0 then mret IERR
    else
      pr ← rd (kn_p_l ⊚ proc_l p);
      if NOFILEMAX pr <=? newfd then mret (u64 (-24))
      else
        f ← lift "f" (fa_file a);
        o ← ofile newfd;
        _ ← when (negb (bool_decide (o = Some f))) (f' ← filedup f; set_ofile newfd (Some f'));
        mret (u64 newfd).

Definition sys_read : M kern Z :=
  a ← argfd 0 false;
  if fa_ret a <? 0 then mret IERR
  else
    n ← argint 2; p ← argaddr 1;
    f ← lift "f" (fa_file a);
    r ← fileread fuel f p n; mret (u64 r).

Definition sys_pread : M kern Z :=
  a ← argfd 0 false;
  if fa_ret a <? 0 then mret IERR
  else
    p ← argaddr 1; count ← argint 2; off ← argint 3;
    f ← lift "f" (fa_file a);
    _ ← fileseek fuel f (u64 off) SEEK_SET;
    r ← fileread fuel f p count; mret (u64 r).

Definition sys_write : M kern Z :=
  a ← argfd 0 false;
  if fa_ret a <? 0 then mret IERR
  else
    n ← argint 2; p ← argaddr 1;
    f ← lift "f" (fa_file a);
    r ← filewrite lsr fuel f p n; mret (u64 r).

Definition sys_close : M kern Z :=
  a ← argfd 0 true;
  if fa_ret a <? 0 then mret IERR
  else
    fd ← lift "fd" (fa_fd a);
    f ← lift "f" (fa_file a);
    _ ← set_ofile fd None;
    _ ← fileclose f;
    mret 0.

(** [v[i]] of an [iovec] array whose first bytes were copied in. *)
Definition iov_at (bs : list Z) (i : Z) : option (Z * Z) :=
  if (0 <=? i) && (16 * i + 16 <=? Z.of_nat (length bs))
  then let d := drop (Z.to_nat (16 * i)) bs in Some (le (take 8 d), le (take 4 (drop 8 d)))
  else None.
(** The loop of [sys_readv] and [sys_writev]: [len] goes on modulo 2^64. *)
Definition iov_loop (op : Z -> Z -> M kern Z) (bs : list Z) (iovcnt : Z) : M kern Z :=
  r ← for_acc (seqZ 0 iovcnt) 0 (fun i len =>
        '(base, n) ← lift "v[i]" (iov_at bs i);
        r ← op base (s32 n);
        mret (@inl Z Z (u64 (len + r))));
  mret (match r with inl len => len | inr len => len end).

Definition sys_readv : M kern Z :=
  a ← argfd 0 true;
  if fa_ret a <? 0 then mret IERR
  else
    iov ← argaddr 1; iovcnt ← argint 2;
    if iov =? 0 then mret IERR
    else
      pt ← mine p_pagetable_l;
      '(_, bs) ← zoom kn_p_l (kmem (copyin_bytes pt iov (16 * IOVMAX)));
      f ← lift "f" (fa_file a);
      iov_loop (fileread fuel f) bs iovcnt.

Definition sys_writev : M kern Z :=
  a ← argfd 0 true;
  if fa_ret a <? 0 then mret IERR
  else
    iov ← argaddr 1; iovcnt ← argint 2;
    if iov =? 0 then mret IERR
    else
      pt ← mine p_pagetable_l;
      '(_, bs) ← zoom kn_p_l (kmem (copyin_bytes pt iov (u64 (16 * iovcnt))));
      if 16 * IOVMAX <? Z.of_nat (length bs) then undef "sys_writev: past v"
      else
        f ← lift "f" (fa_file a);
        iov_loop (filewrite lsr fuel f) bs iovcnt.

Definition sys_fstat : M kern Z :=
  a ← argfd 0 false;
  if fa_ret a <? 0 then mret IERR
  else
    st ← argaddr 1;
    f ← lift "f" (fa_file a);
    r ← filestat fuel kst_junk kst_tail f st; mret (u64 r).

(** * Paths and entries *)

(** [argfd(0, &fd, &fp) < 0 && fd != AT_FDCWD]: [None] when it holds, else the
    descriptor and what [fp] was set to. *)
Definition argfd_at : M kern (option (Z * option nat)) :=
  a ← argfd 0 true;
  if fa_ret a <? 0 then
    fd ← lift "fd" (fa_fd a);
    mret (if negb (fd =? AT_FDCWD) then None else Some (fd, None))
  else
    fd ← lift "fd" (fa_fd a);
    mret (Some (fd, fa_file a)).
(** [fp->ep] for a file that is there. *)
Definition file_ep (f : nat) : M kern (option nat) := rd (fl f ⊚ f_ep_l).

Definition sys_fstatat : M kern Z :=
  o ← argfd_at;
  match o with
  | None => mret (u64 (-24))
  | Some (fd, fp) =>
      o ← argstr 1 FAT32_MAX_FILENAME (FAT32_MAX_FILENAME + 1);
      match o with
      | None => mret IERR
      | Some pathname =>
          st ← argaddr 2; flags ← argint 3;
          '(dp, bad) ←
             (if AT_FDCWD =? fd then mret (None, false)
              else
                f ← lift "fp" fp;
                dp ← file_ep f;
                isdir ← match dp with Some _ => is_directory dp | None => mret true end;
                mret (dp, negb isdir) : M kern (option nat * bool));
          if bad : bool then mret IERR
          else
            null ← path_is pathname "/dev/null" 9;
            ep ← new_ename dp pathname;
            if negb (found ep) && negb (null : bool) then mret (u64 (-2))
            else
              kst ← (if negb null then
                       _ ← elock ep; kst ← fs (ekstat ep kst_junk); _ ← eunlock ep; _ ← eput ep; mret kst
                     else fs (ekstat ep kst_junk));
              r ← copyout_val st (kstat_bytes kst_tail kst);
              mret (if r <? 0 then IERR else 0)
      end
  end.

(** Makes the missing directories of a path; the result is locked.  [n] bounds
    their number. *)
Fixpoint create (n : nat) (path : list Z) (type mode : Z) : M kern (option nat) :=
  match n with
  | O => nofuel
  | S n' =>
      let mode := if type =? T_DIR then ATTR_DIRECTORY
                  else if truth (Z.land mode O_RDONLY) then ATTR_READ_ONLY else 0 in
      '(dp, name) ← fs (enameparent fuel cfuel dfuel path NAME0);
      '(dp, name) ←
         (match dp with
          | None =>
              '(pname, name) ← lift "get_parent_name" (get_parent_name path NAME0 name);
              dp ← create n' pname T_DIR O_RDWR;
              mret (dp, name)
          | Some _ => _ ← elock dp; mret (dp, name)
          end : M kern (option nat * list Z));
      match dp with
      | None => mret None
      | Some d =>
          ep ← fs (ealloc fuel cfuel dfuel d name mode);
          match ep with
          | None => _ ← eunlock dp; _ ← eput dp; mret None
          | Some _ =>
              isdir ← is_directory ep;
              if ((type =? T_DIR) && negb isdir) || ((type =? T_FILE) && isdir) then
                _ ← eunlock dp; _ ← eput ep; _ ← eput dp; mret None
              else
                _ ← eunlock dp; _ ← eput dp; _ ← elock ep; mret ep
          end
      end
  end.

Definition made (ep : option nat) : M kern Z :=
  match ep with
  | None => mret IERR
  | Some _ => _ ← eunlock ep; _ ← eput ep; mret 0
  end.
Definition sys_mkdirat : M kern Z :=
  o ← argstr 1 FAT32_MAX_PATH FAT32_MAX_PATH;
  match o with
  | None => mret IERR
  | Some path =>
      mode ← argint 2;
      len ← lift "strlen" (strlen path);
      if len =? 1 then mret 0 else ep ← create nfuel path T_DIR 0; made ep
  end.
Definition sys_mkdir : M kern Z :=
  o ← argstr 0 FAT32_MAX_PATH FAT32_MAX_PATH;
  match o with
  | None => mret IERR
  | Some path => ep ← create nfuel path T_DIR 0; made ep
  end.

(** [filealloc] and [fdalloc]: the file and its descriptor, or [None] with the
    file closed again. *)
Definition file_fd : M kern (option (nat * Z)) :=
  o ← filealloc;
  match o with
  | None => mret None
  | Some f =>
      fd ← fdalloc f;
      if fd <? 0 then _ ← fileclose f; mret None else mret (Some (f, fd))
  end.
(** The fields of a file opened on the locked entry [ep]. *)
Definition file_on (f : nat) (ep : option nat) (omode : Z) : M kern unit :=
  e ← lift "ep" ep;
  isdir ← is_directory ep;
  _ ← when (negb isdir && truth (Z.land omode O_TRUNC)) (fs (etrunc fuel cfuel e));
  size ← rd (kfs ⊚ (ent e ⊚ d_file_size_l));
  md (fl f) (fun x =>
    update f_writable_l (b2z (truth (Z.land omode O_WRONLY) || truth (Z.land omode O_RDWR)))
      (update f_readable_l (b2z (negb (truth (Z.land omode O_WRONLY))))
        (update f_ep_l ep
          (update f_off_l (if truth (Z.land omode O_APPEND) then size else 0)
            (update f_type_l FD_ENTRY x))))).

Definition open (path : list Z) (omode : Z) : M kern Z :=
  ep ← (if truth (Z.land omode O_CREATE) then create nfuel path T_FILE omode
        else
          ep ← ename path;
          match ep with
          | None => mret None
          | Some _ =>
              _ ← elock ep;
              isdir ← is_directory ep;
              if isdir && negb (omode =? O_RDONLY) then _ ← eunlock ep; _ ← eput ep; mret None
              else mret ep
          end);
  match ep with
  | None => mret IERR
  | Some _ =>
      o ← file_fd;
      match o with
      | None => _ ← eunlock ep; _ ← eput ep; mret IERR
      | Some (f, fd) =>
          _ ← file_on f ep omode;
          _ ← eunlock ep;
          mret (u64 fd)
      end
  end.
Definition sys_open : M kern Z :=
  o ← argstr 0 FAT32_MAX_PATH FAT32_MAX_PATH;
  match o with
  | None => mret IERR
  | Some path => omode ← argint 1; open path omode
  end.

Definition sys_chdir : M kern Z :=
  p ← kcur;
  o ← argstr 0 FAT32_MAX_PATH FAT32_MAX_PATH;
  match o with
  | None => mret IERR
  | Some path =>
      ep ← ename path;
      match ep with
      | None => mret IERR
      | Some _ =>
          _ ← elock ep;
          isdir ← is_directory ep;
          if negb isdir then _ ← eunlock ep; _ ← eput ep; mret IERR
          else
            _ ← eunlock ep;
            cwd ← rd (kn_p_l ⊚ (proc_l p ⊚ p_cwd_l));
            _ ← eput cwd;
            _ ← kn_p_l ⊚ (proc_l p ⊚ p_cwd_l) <~ ep;
            mret 0
      end
  end.

(** * Pipes and devices *)

(** [sys_pipe] and [sys_pipe2] differ in a message; [sizeof(fd0)] is 4. *)
Definition pipe_fds (loud : bool) : M kern Z :=
  p ← kcur;
  fdarray ← argaddr 0;
  o ← pipealloc kernel_end fuel cfuel dfuel;
  match o with
  | None => mret IERR
  | Some (rf, wf) =>
      fd0 ← fdalloc rf;
      fd1 ← (if fd0 <? 0 then mret (-1) else fdalloc wf);
      if (fd0 <? 0) || (fd1 <? 0) then
        _ ← when (0 <=? fd0) (set_ofile fd0 None);
        _ ← fileclose rf; _ ← fileclose wf;
        _ ← when loud (say "pip fdalloc fail" []);
        mret IERR
      else
        r0 ← copyout_val fdarray (int_bytes fd0);
        r1 ← (if r0 <? 0 then mret (-1) else copyout_val (u64 (fdarray + 4)) (int_bytes fd1));
        if r1 <? 0 then
          _ ← set_ofile fd0 None; _ ← set_ofile fd1 None;
          _ ← fileclose rf; _ ← fileclose wf;
          mret IERR
        else mret 0
  end.
Definition sys_pipe : M kern Z := pipe_fds true.
Definition sys_pipe2 : M kern Z := pipe_fds false.

Definition sys_dev : M kern Z :=
  omode ← argint 0; major ← argint 1; minor ← argint 2;
  if truth (Z.land omode O_CREATE) then panic "dev file on FAT"
  else if (major <? 0) || (Z.of_nat NDEV <=? major) then mret IERR
  else
    o ← file_fd;
    match o with
    | None => mret IERR
    | Some (f, fd) =>
        _ ← md (fl f) (fun x =>
              update f_writable_l (b2z (truth (Z.land omode O_WRONLY) || truth (Z.land omode O_RDWR)))
                (update f_readable_l (b2z (negb (truth (Z.land omode O_WRONLY))))
                  (update f_major_l major
                    (update f_ep_l None (update f_off_l 0 (update f_type_l FD_DEVICE x))))));
        mret (u64 fd)
    end.

(** * Directories *)

Definition sys_readdir : M kern Z :=
  a ← argfd 0 false;
  if fa_ret a <? 0 then mret IERR
  else
    p ← argaddr 1;
    f ← lift "f" (fa_file a);
    r ← dirnext fuel dfuel st_junk st_gap1 st_gap2 f p; mret (u64 r).

(** One turn of the loop of [sys_getcwd]: [s - path] and what stands at [s].
    It ends with [None] when the name does not fit. *)
Definition getcwd_turn '((de, s, out) : nat * Z * list Z)
  : M kern ((nat * Z * list Z) + option (list Z)) :=
  d ← rd (kfs ⊚ ent de);
  match d_parent d with
  | None => mret (inr (Some out))
  | Some pp =>
      len ← lift "strlen" (strlen (d_filename d));
      let s := s - len in
      if s <=? 0 then mret (inr None)
      else mret (inl (pp, s - 1, 47 :: take (Z.to_nat len) (d_filename d) ++ out))
  end.
Definition sys_getcwd : M kern Z :=
  addr ← argaddr 0;
  o ← mine p_cwd_l;
  de ← lift "cwd" o;
  d ← rd (kfs ⊚ ent de);
  out ← match d_parent d with
        | None => mret (Some (literal "/"))
        | Some _ => loop dfuel (de, FAT32_MAX_PATH - 1, [0]) getcwd_turn
        end;
  match out with
  | None => mret IERR
  | Some s => r ← copyout_val addr s; mret (if r <? 0 then IERR else addr)
  end.

(** [count] is set by [enext] before it is used. *)
Definition isdirempty (dp : nat) : M kern bool :=
  _ ← kfs ⊚ ent LOCAL_ENTRY ⊚ d_valid_l <~ 0;
  '(ret, _) ← fs (enext fuel dfuel dp LOCAL_ENTRY (2 * 32) 0);
  mret (ret =? -1).

(** The test of [sys_remove] on the path before its NUL: its last character
    that is not a slash is a dot, alone or after a slash. *)
Fixpoint drop_slashes (l : list Z) : list Z :=
  match l with
  | c :: l' => if c =? 47 then drop_slashes l' else l
  | [] => []
  end.
Definition ends_in_dot (s : list Z) : bool :=
  match drop_slashes (rev s) with
  | c :: r => (c =? 46) && match r with [] => true | c' :: _ => c' =? 47 end
  | [] => false
  end.
(** Removes the entry [ep]. *)
Definition remove_entry (ep : option nat) : M kern Z :=
  _ ← elock ep;
  e ← lift "ep" ep;
  isdir ← is_directory ep;
  full ← (if isdir : bool then b ← isdirempty e; mret (negb b) else mret false);
  if full : bool then _ ← eunlock ep; _ ← eput ep; mret IERR
  else
    pp ← rd (kfs ⊚ (ent e ⊚ d_parent_l));
    _ ← elock pp;
    _ ← fs (eremove fuel e);
    pp ← rd (kfs ⊚ (ent e ⊚ d_parent_l));
    _ ← eunlock pp;
    _ ← eunlock ep;
    _ ← eput ep;
    mret 0.
Definition sys_remove : M kern Z :=
  o ← argstr 0 FAT32_MAX_PATH FAT32_MAX_PATH;
  match o with
  | None => mret IERR
  | Some path =>
      if Z.of_nat (length path) - 1 <=? 0 then mret IERR
      else if ends_in_dot (removelast path) then mret IERR
      else
        ep ← ename path;
        match ep with None => mret IERR | Some _ => remove_entry ep end
  end.
Definition sys_unlinkat : M kern Z :=
  o ← argstr 1 FAT32_MAX_PATH FAT32_MAX_PATH;
  match o with
  | None => mret IERR
  | Some path =>
      if Z.of_nat (length path) - 1 <=? 0 then mret IERR
      else if ends_in_dot (removelast path) then mret IERR
      else
        t1 ← path_is path "/tmp/testsuite-" 15;
        ep ← ename path;
        if negb (found ep) && negb (t1 : bool) then mret IERR
        else if t1 : bool then mret 0
        else remove_entry ep
  end.

Definition sys_lseek : M kern Z :=
  a ← argfd 0 true;
  if fa_ret a <? 0 then mret IERR
  else
    offset ← argaddr 1; whence ← argint 2;
    f ← lift "f" (fa_file a);
    fileseek fuel f offset whence.

Definition sys_mount : M kern Z := mret 0.
Definition sys_umount : M kern Z := mret 0.
Definition sys_ioctl : M kern Z := mret 0.
Definition sys_munmap : M kern Z := start ← argaddr 0; len ← argaddr 1; mret 0.
Definition sys_sync : M kern Z := mret 0.
Definition sys_fsync : M kern Z := mret 0.

Definition sys_getdents64 : M kern Z :=
  a ← argfd 0 true;
  if fa_ret a <? 0 then mret IERR
  else
    buf ← argaddr 1; len ← argaddr 2;
    f ← lift "f" (fa_file a);
    r ← get_next_dirent fuel dfuel lde_junk f buf (s32 len); mret (u64 r).

(** * Renaming *)

(** The label [fail], with [srclock]. *)
Definition rename_fail (srclock : bool) (src dst pdst : option nat) : M kern Z :=
  _ ← when srclock (eunlock src);
  _ ← when (found dst) (eput dst);
  _ ← when (found pdst) (eput pdst);
  _ ← when (found src) (eput src);
  mret IERR.
(** Whether [src] is on the way from [ep] up to the root. *)
Definition above (src ep : nat) : M kern bool :=
  loop dfuel (Some ep) (fun e =>
    match e with
    | None => mret (inr false)
    | Some e =>
        if (e =? src)%nat then mret (inr true)
        else pp ← rd (kfs ⊚ (ent e ⊚ d_parent_l)); mret (inl pp)
    end).
(** From [eremove(dst)] to the end. *)
Definition rename_move (src pdst : nat) (dst : option nat) (name : list Z) (off : Z) : M kern Z :=
  _ ← match dst with
      | Some d => _ ← fs (eremove fuel d); eunlock dst
      | None => mret tt
      end;
  _ ← (if Z.of_nat (length name) <? FAT32_MAX_FILENAME then undef "memmove: past old"
       else md (kfs ⊚ (ent src ⊚ d_filename_l))
              (fun nm => splice nm 0 (take (Z.to_nat FAT32_MAX_FILENAME) name)));
  _ ← fs (emake fuel pdst src off);
  pp ← rd (kfs ⊚ (ent src ⊚ d_parent_l));
  _ ← when (negb (bool_decide (pp = Some pdst))) (_ ← eunlock (Some pdst); elock pp);
  _ ← fs (eremove fuel src);
  psrc ← rd (kfs ⊚ (ent src ⊚ d_parent_l));
  _ ← eunlock psrc;
  pp ← fs (edup (Some pdst));
  _ ← kfs ⊚ (ent src ⊚ d_parent_l) <~ pp;
  _ ← kfs ⊚ (ent src ⊚ d_off_l) <~ off;
  _ ← kfs ⊚ (ent src ⊚ d_valid_l) <~ 1;
  _ ← eunlock (Some src);
  _ ← eput psrc;
  _ ← when (found dst) (eput dst);
  _ ← eput (Some pdst);
  _ ← eput (Some src);
  mret 0.
(** From the two locks on. *)
Definition rename_into (src pdst : nat) (name : list Z) : M kern Z :=
  _ ← elock (Some src);
  _ ← elock (Some pdst);
  '(dst, off) ← fs (dirlookup fuel cfuel dfuel pdst name (Some off_junk));
  let off := default 0 off in
  match dst with
  | None => rename_move src pdst None name off
  | Some d =>
      _ ← eunlock (Some pdst);
      if (src =? d)%nat then rename_fail true (Some src) dst (Some pdst)
      else
        sa ← attribute (Some src); da ← attribute dst;
        if truth (Z.land (Z.land sa da) ATTR_DIRECTORY) then
          _ ← elock dst;
          empty ← isdirempty d;
          if negb empty then _ ← eunlock dst; rename_fail true (Some src) dst (Some pdst)
          else _ ← elock (Some pdst); rename_move src pdst dst name off
        else rename_fail true (Some src) dst (Some pdst)
  end.
Definition sys_rename : M kern Z :=
  o ← argstr 0 FAT32_MAX_PATH FAT32_MAX_PATH;
  match o with
  | None => mret IERR
  | Some old =>
      o ← argstr 1 FAT32_MAX_PATH FAT32_MAX_PATH;
      match o with
      | None => mret IERR
      | Some new =>
          src ← ename old;
          match src with
          | None => rename_fail false None None None
          | Some s =>
              '(pdst, old) ← fs (enameparent fuel cfuel dfuel new (buffer 260 old));
              match pdst with
              | None => rename_fail false src None None
              | Some d =>
                  name ← lift "formatname" (formatname old);
                  match name with
                  | None => rename_fail false src None pdst
                  | Some name =>
                      b ← above s d;
                      if b : bool then rename_fail false src None pdst else rename_into s d name
                  end
              end
          end
      end
  end.
(** The directory of one path of [sys_renameat2]: null if the descriptor is
    good; [None] for the error. *)
Definition renameat_dir (n : Z) (path : list Z) : M kern (option (option nat)) :=
  a ← argfd n true;
  if fa_ret a <? 0 then
    c ← lift "path" (head path);
    bad ← (if negb (c =? 47) then fd ← lift "fd" (fa_fd a); mret (negb (fd =? AT_FDCWD)) else mret false);
    if bad : bool then mret None else cwd ← mine p_cwd_l; mret (Some cwd)
  else mret (Some None).
(** [srclock] has no value before the source is locked. *)
Definition renameat_from (olddp newdp : option nat) (old_path new_path : list Z) : M kern Z :=
  src ← new_ename olddp old_path;
  match src with
  | None => undef "srclock"
  | Some s =>
      '(pdst, old_path) ← fs (new_enameparent fuel cfuel dfuel newdp new_path (buffer 260 old_path));
      match pdst with
      | None => undef "srclock"
      | Some d =>
          name ← lift "formatname" (formatname old_path);
          match name with
          | None => undef "srclock"
          | Some name =>
              b ← above s d;
              if b : bool then undef "srclock" else rename_into s d name
          end
      end
  end.
Definition sys_renameat2 : M kern Z :=
  p ← kcur;
  o ← argstr 1 FAT32_MAX_PATH FAT32_MAX_PATH;
  match o with
  | None => mret (u64 (-36))
  | Some old_path =>
      o ← argstr 3 FAT32_MAX_PATH FAT32_MAX_PATH;
      match o with
      | None => mret (u64 (-36))
      | Some new_path =>
          olddp ← renameat_dir 0 old_path;
          match olddp with
          | None => mret (u64 (-9))
          | Some olddp =>
              newdp ← renameat_dir 2 new_path;
              match newdp with
              | None => mret (u64 (-9))
              | Some newdp => renameat_from olddp newdp old_path new_path
              end
          end
      end
  end.

(** * Opening and testing *)

(** The directory of [sys_openat]. *)
Definition openat_dir (dirf : option nat) : M kern (option nat) :=
  match dirf with
  | None => mret None
  | Some df =>
      x ← rd (fl df);
      if bool_decide (f_type x = FD_ENTRY) then
        let dp := f_ep x in
        isdir ← is_directory dp;
        if negb isdir then _ ← eunlock dp; mret None else mret dp
      else mret None
  end.
(** The names that are created when they are missing. *)
Definition special_names : list (string * Z) :=
  [("/proc/loadavg", 13); ("/tmp/testsuite-", 15); ("/dev/zero", 9); ("/etc/passwd", 11);
   ("/proc/meminfo", 13); ("/dev/tty", 8); ("/etc/localtime", 14); ("/dev/misc/rtc", 13);
   ("/proc/mounts", 12)]%string.
Definition special (names : list (string * Z)) (path : list Z) : M kern bool :=
  r ← for_until names (fun '(lit, n) => b ← path_is path lit n; mret (if b : bool then Some tt else None));
  mret (found r).
(** The entry, locked: found, or made. *)
Definition openat_entry (names : list (string * Z)) (dp : option nat) (path : list Z) (flags : Z)
  : M kern (option nat) :=
  ep ← new_ename dp path;
  match ep with
  | Some _ => _ ← elock ep; mret ep
  | None =>
      b ← (if truth (Z.land flags O_CREATE) then mret true else special names path);
      if b : bool then fs (new_create fuel cfuel dfuel nfuel dp path T_FILE flags) else mret None
  end.
(** From the new entry to the descriptor; [last] says whether the directory is
    unlocked in the end. *)
Definition openat_file (last : bool) (dp ep : option nat) (path : list Z) (flags : Z) : M kern Z :=
  isdir ← is_directory ep;
  if isdir && negb (truth (Z.land flags O_WRONLY)) && negb (truth (Z.land flags O_RDWR)) then
    _ ← eunlock ep; _ ← eput ep; _ ← say "directory only can be read" []; mret IERR
  else
    o ← file_fd;
    match o with
    | None => _ ← eunlock ep; _ ← eput ep; mret (u64 (-24))
    | Some (f, fd) =>
        _ ← file_on f ep flags;
        _ ← eunlock ep;
        _ ← when (found dp) (elock dp);
        _ ← set_exec_close fd 0;
        zero ← path_is path "/dev/zero" 9;
        _ ← when zero
              (o ← file_ep f; e ← lift "f->ep" o;
               nm ← rd (kfs ⊚ (ent e ⊚ d_filename_l));
               nm ← lift "strncpy" (strncpy nm (literal "zero") 4);
               kfs ⊚ (ent e ⊚ d_filename_l) <~ nm);
        _ ← when (last && found dp) (eunlock dp);
        mret (u64 fd)
    end.
Definition open_null : M kern Z :=
  o ← file_fd;
  match o with
  | None => mret (u64 (-24))
  | Some (f, fd) =>
      _ ← md (fl f) (fun x =>
            update f_writable_l 1 (update f_readable_l 1
              (update f_ep_l None (update f_off_l 0 (update f_type_l FD_NULL x)))));
      mret (u64 fd)
  end.
Definition sys_openat : M kern Z :=
  a ← argfd 0 true;
  o ← argstr 1 FAT32_MAX_FILENAME FAT32_MAX_PATH;
  match o with
  | None => mret IERR
  | Some path =>
      flags ← argint 2; mode ← argint 3;
      null ← path_is path "/dev/null" 9;
      if null : bool then open_null
      else
        let flags := Z.lor flags O_RDWR in
        dp ← openat_dir (fa_file a);
        ep ← openat_entry (special_names ++ [("/dev/urandom", 12)]%string) dp path flags;
        match ep with
        | None => mret IERR
        | Some _ => openat_file true dp ep path flags
        end
  end.

Definition sys_faccessat : M kern Z :=
  p ← kcur;
  o ← argfd_at;
  match o with
  | None => mret (u64 (-24))
  | Some (dirfd, fp) =>
      o ← argstr 1 FAT32_MAX_FILENAME (FAT32_MAX_FILENAME + 1);
      match o with
      | None => mret IERR
      | Some path =>
          mode ← argint 2; flags ← argint 3;
          c ← lift "path" (head path);
          dp ← (if c =? 47 then mret None
                else if AT_FDCWD =? dirfd then rd (kn_p_l ⊚ (proc_l p ⊚ p_cwd_l))
                else f ← lift "fp" fp; file_ep f);
          ep ← new_ename dp path;
          if negb (found ep) then mret IERR
          else if mode =? F_OK then mret 0
          else if negb (Z.land 7 mode =? mode) then mret IERR
          else mret 0
      end
  end.

(** * Descriptors and files *)

Definition sys_fcntl : M kern Z :=
  a ← argfd 0 true;
  if fa_ret a <? 0 then mret IERR
  else
    cmd ← argint 1; arg ← argaddr 2;
    fd ← lift "fd" (fa_fd a);
    f ← lift "f" (fa_file a);
    if F_GETFD =? cmd then r ← exec_close fd; mret (u64 r)
    else if F_SETFD =? cmd then _ ← set_exec_close fd arg; mret 0
    else if F_DUPFD =? cmd then
      fd ← fdalloc2 f (s32 arg);
      if fd <? 0 then mret (u64 fd) else _ ← filedup f; mret (u64 fd)
    else if F_DUPFD_CLOEXEC =? cmd then
      fd ← fdalloc2 f (s32 arg);
      if fd <? 0 then mret (u64 fd)
      else _ ← filedup f; _ ← set_exec_close fd 1; mret (u64 fd)
    else mret 0.

(** The number of a file's type. *)
Definition ftype_num (t : ftype) : Z :=
  match t with FD_NONE => 0 | FD_PIPE => 1 | FD_ENTRY => 2 | FD_DEVICE => 3 | FD_SOCK => 4 | FD_NULL => 5 end.
Definition sys_sendfile : M kern Z :=
  o ← argfd 0 true;
  if fa_ret o <? 0 then mret IERR
  else
    i ← argfd 1 true;
    if fa_ret i <? 0 then mret IERR
    else
      offset ← argaddr 2; count ← argaddr 3;
      fout ← lift "fout" (fa_file o);
      fin ← lift "fin" (fa_file i);
      pid ← mine p_pid_l;
      xo ← rd (fl fout); xi ← rd (fl fin);
      _ ← say "pid: %d out_type:%d in_type:%d"
            [VInt pid; VInt (ftype_num (f_type xo)); VInt (ftype_num (f_type xi))];
      _ ← when (bool_decide (f_type xi = FD_ENTRY))
            (nm ← ep_name (f_ep xi); say "in name : %s" [VStr (Some nm)]);
      file_send lsr fuel stack_buf sfuel fin fout offset count.

Definition sys_ftruncate : M kern Z :=
  o ← argfd_at;
  match o with
  | None => mret (u64 (-24))
  | Some (fd, fp) =>
      len ← argint 1;
      f ← lift "fp" fp;
      e ← file_ep f;
      e ← lift "fp->ep" e;
      _ ← fs (etruncate fuel cfuel e len);
      mret 0
  end.

(** The first [n] bytes of an object. *)
Definition first_bytes (l : list Z) (n : Z) : option (list Z) :=
  if (0 <=? n) && (n <=? Z.of_nat (length l)) then Some (take (Z.to_nat n) l) else None.
Definition sys_readlinkat : M kern Z :=
  p ← kcur;
  _ ← say "arrive a" [];
  a ← argfd 0 true;
  let dirfd := default 0 (fa_fd a) in
  if (fa_ret a <? 0) && negb (dirfd =? AT_FDCWD) && negb (buf_junk 0 =? 47) then mret IERR
  else
    _ ← say "arrive b" [];
    o ← argstr 1 FAT32_MAX_PATH FAT32_MAX_PATH;
    match o with
    | None => mret IERR
    | Some path =>
        addr2 ← argaddr 2; bufsiz ← argint 3;
        _ ← say "arrive c" [];
        len ← lift "strlen" (strlen path);
        let copy_size := if bufsiz <? len then bufsiz else len in
        name ← mine p_name_l;
        _ ← say "readlinkat fd:%d path: %s proc name :%s" [VInt dirfd; VStr (Some path); VStr (Some name)];
        self ← path_is path "/proc/self/exe" 14;
        _ ← (if self : bool then
               _ ← zoom kn_p_l (either_copyout 1 addr2 [47]);
               bs ← lift "myproc()->name" (first_bytes name (copy_size - 1));
               zoom kn_p_l (either_copyout 1 (u64 (addr2 + 1)) bs)
             else
               bs ← lift "path" (first_bytes path copy_size);
               copyout_val addr2 bs);
        mret (u64 copy_size)
    end.

Definition junk_at (off n : nat) : list Z := map buf_junk (seq off n).
(** [struct statfs]: 120 bytes; the type and the identifier are set for two
    paths only, [f_ffree] and [f_spare] never. *)
Definition statfs_bytes (kind : option (Z * Z)) : list Z :=
  match kind with Some (magic, _) => le_bytes 8 magic | None => junk_at 0 8 end
  ++ le_bytes 8 512 ++ le_bytes 8 4 ++ le_bytes 8 4 ++ le_bytes 8 4 ++ le_bytes 8 4 ++ junk_at 48 8
  ++ match kind with Some (_, id) => le_bytes 4 0 ++ le_bytes 4 id | None => junk_at 56 8 end
  ++ le_bytes 8 64 ++ le_bytes 8 32 ++ le_bytes 8 0 ++ junk_at 88 32.
Definition sys_statfs : M kern Z :=
  o ← argstr 0 FAT32_MAX_PATH FAT32_MAX_PATH;
  match o with
  | None => mret IERR
  | Some path =>
      addr ← argaddr 1;
      b1 ← path_is path "/proc" 5;
      b2 ← (if b1 : bool then mret false else path_is path "tmp" 3);
      r ← zoom kn_p_l (either_copyout 1 addr
            (statfs_bytes (if b1 : bool then Some (PROC_SUPER_MAGIC, 1)
                           else if b2 : bool then Some (TMPFS_MAGIC, 2) else None)));
      mret (if r <? 0 then IERR else 0)
  end.

(** Nothing calls it; [flags] is what its variable held. *)
Definition creat_file (flags : Z) : M kern Z :=
  let path := literal "/test.txt" in
  a ← argfd 0 true;
  let flags := Z.lor flags O_RDWR in
  dp ← openat_dir (fa_file a);
  ep ← openat_entry special_names dp path flags;
  match ep with
  | None => mret IERR
  | Some _ => openat_file false dp ep path flags
  end.

(** A page full of zeros; a null page is written through. *)
Definition zero_page : M kern Z :=
  pg ← zoom kn_p_l (kmem kalloc);
  _ ← zoom kn_p_l (kmem (nonnull pg));
  _ ← md (kn_p_l ⊚ mem_l) (fun m => memset m pg 0 PGSIZE);
  mret pg.
(** [pbuf[i]] *)
Definition pbuf_at (pbuf i : Z) : M kern Z := zoom kn_p_l (kmem (load (pbuf + 8 * i))).
Definition free_page (pa : Z) : M kern unit := zoom kn_p_l (kmem (kfree kernel_end pa)).

(** The pages of [sys_copy_file_range]. *)
Definition range_bufs (pagenum : Z) : M kern Z :=
  pbuf ← zero_page;
  _ ← for_each (seqZ 0 pagenum) (fun i =>
        pg ← zero_page; zoom kn_p_l (kmem (store (pbuf + 8 * i) pg)));
  mret pbuf.
Definition range_in (fin : nat) (pbuf pagenum lastlen len : Z) : M kern unit :=
  x ← rd (fl fin);
  _ ← for_each (seqZ 0 (pagenum - 1)) (fun i =>
        b ← pbuf_at pbuf i;
        _ ← entry_read fuel (f_ep x) 0 b (u32 (f_off x + i * PGSIZE)) PGSIZE;
        mret tt);
  b ← pbuf_at pbuf (pagenum - 1);
  _ ← entry_read fuel (f_ep x) 0 b (u32 (f_off x + (pagenum - 1) * PGSIZE)) (u32 lastlen);
  md (fl fin ⊚ f_off_l) (fun o => u32 (o + len)).
Definition range_out (fout : nat) (pbuf pagenum lastlen len : Z) : M kern unit :=
  _ ← say "off_out == null" [];
  x ← rd (fl fout);
  e ← lift "fp_out->ep" (f_ep x);
  size ← rd (kfs ⊚ (ent e ⊚ d_file_size_l));
  _ ← when (size <? f_off x)
        (buf ← zero_page;
         _ ← entry_write fuel (f_ep x) 0 buf size (u32 (f_off x - size));
         free_page buf);
  _ ← when (0 <? len)
        (_ ← for_each (seqZ 0 (pagenum - 1)) (fun i =>
               b ← pbuf_at pbuf i;
               _ ← entry_write fuel (f_ep x) 0 b (u32 (f_off x + i * PGSIZE)) PGSIZE;
               mret tt);
         b ← pbuf_at pbuf (pagenum - 1);
         _ ← for_each (seqZ 0 PGSIZE) (fun i =>
               m ← rd (kn_p_l ⊚ mem_l);
               zoom kcn (printf lsr fuel (Some (literal "%d ")) [VInt (s8 (rd8 m (b + i)))]));
         _ ← say "ewrite lastlen %d" [VInt lastlen];
         _ ← entry_write fuel (f_ep x) 0 b (u32 (f_off x + (pagenum - 1) * PGSIZE)) (u32 lastlen);
         size ← rd (kfs ⊚ (ent e ⊚ d_file_size_l));
         say "file?_size:%d" [VInt size]);
  md (fl fout ⊚ f_off_l) (fun o => u32 (o + len)).
(** The second offset is fetched over the first; [off_out] stays null. *)
Definition sys_copy_file_range : M kern Z :=
  _ ← say "enter here!" [];
  i ← argfd 0 true;
  if fa_ret i <? 0 then mret IERR
  else
    o ← argfd 2 true;
    if fa_ret o <? 0 then mret IERR
    else
      off_in ← argaddr 3;
      n ← argint 4;
      let len := u64 (len_junk * 2 ^ 32 + u32 n) in
      fin ← lift "fp_in" (fa_file i);
      fout ← lift "fp_out" (fa_file o);
      if len =? 0 then mret 0
      else
        let pagenum := s32 (if len mod PGSIZE =? 0 then len / PGSIZE else len / PGSIZE + 1) in
        let lastlen := u64 (len - PGSIZE * (pagenum - 1)) in
        _ ← say "pagenum:%d" [VInt pagenum];
        pbuf ← range_bufs pagenum;
        _ ← say "len %d" [VInt len];
        xi ← rd (fl fin);
        _ ← say "eread off %d" [VInt (f_off xi)];
        _ ← when (off_in =? 0) (range_in fin pbuf pagenum lastlen len);
        _ ← range_out fout pbuf pagenum lastlen len;
        _ ← for_each (seqZ 0 pagenum) (fun i => b ← pbuf_at pbuf i; free_page b);
        _ ← free_page pbuf;
        mret len.

(** The [struct kstat] it asks [filestat] to fill is at a kernel address, and
    the [struct statx] it fills is wherever an unset pointer leads. *)
Definition sys_statx : M kern Z :=
  p ← kcur;
  a ← argfd 0 false;
  if fa_ret a <? 0 then mret IERR
  else
    o ← argstr 1 FAT32_MAX_PATH FAT32_MAX_PATH;
    match o with
    | None => mret IERR
    | Some path =>
        flags ← argint 2; statxbuf ← argaddr 4;
        r ← open path flags;
        let fd := s32 r in
        if fd <? 0 then mret IERR
        else
          o ← ofile fd;
          f ← lift "p->ofile[fd]" o;
          res ← filestat fuel kst_junk kst_tail f stack_buf;
          undef "stx"
    end.

(** Prints every field; nothing calls it. *)
Definition print_kstat (st : kstat) : M kern unit :=
  for_each
    [("st_dev: %d", st_dev st); ("st_ino: %d", st_ino st); ("st_mode: %d", st_mode st);
     ("st_nlink: %d", st_nlink st); ("st_uid: %d", st_uid st); ("st_gid: %d", st_gid st);
     ("st_rdev: %d", st_rdev st); ("st_size: %d", st_size st); ("st_blksize: %d", st_blksize st);
     ("st_blocks: %d", st_blocks st); ("st_atime_sec: %d", st_atime_sec st);
     ("st_atime_nsec: %d", st_atime_nsec st); ("st_mtime_sec: %d", st_mtime_sec st);
     ("st_mtime_nsec: %d", st_mtime_nsec st); ("st_ctime_sec: %d", st_ctime_sec st);
     ("st_ctime_nsec: %d", st_ctime_nsec st)]%string
    (fun '(s, v) => say s [VInt v]).
End SysFile.
