(* ===== verification/Mmap.v ===== *)
(** Mapping files into memory: kernel/mmap.c.

    No file is mapped: [mmap_size] stays 0, so the pages are reserved by
    [alloc_mmap_vma] and never read in. *)

From S2P Require Import Prelude Mem Strings Digits Locks Kalloc Vm PageTable VmProps ProcState Vma Proc ProcFacts Sleeplock Bio Circ UserMem Pipe FatName Fat FatDir Console File Args.

Definition PROT_READ : Z := 1.
Definition PROT_WRITE : Z := Z.shiftl 1 1.
Definition PROT_EXEC : Z := Z.shiftl 1 2.
Definition MAP_PRIVATE : Z := 0x02.
Definition MAP_FIXED : Z := 0x10.
Definition MAP_ANONYMOUS : Z := 0x20.

(** [perm &= ~X] and [perm |= X] on an [int]: the bits above 31 are lost. *)
Definition mmap_perm0 : Z :=
  s32 (Z.lor (Z.lor (Z.lor (Z.lor (Z.lor PTE_PLV3 PTE_MAT) PTE_D) PTE_NR) PTE_W) PTE_NX).
Definition prot_perm (exec_bits : Z) (perm prot : Z) : Z :=
  let perm := if truth (Z.land prot PROT_READ) then s32 (Z.land perm (Z.lnot PTE_NR)) else perm in
  let perm := if truth (Z.land prot PROT_WRITE) then Z.lor perm PTE_W else perm in
  if truth (Z.land prot PROT_EXEC)
  then s32 (Z.land (Z.lor perm exec_bits) (Z.lnot PTE_NX)) else perm.

Section Mmap.
Variable kernel_end : Z.
Variables (fuel : nat).

(** From the loop over the pages on; [pt] is the table they are in. *)
Definition mmap_fill (f : nat) (start mmap_size perm : Z) : M kern Z :=
  let end_pagespace := mmap_size mod PGSIZE in
  let page_n := s32 (Z.shiftr (PGROUNDUP mmap_size) PGSHIFT) in
  r ← for_until (seqZ 0 page_n) (fun i =>
        let va := u64 (start + i * PGSIZE) in
        pt ← mine p_pagetable_l;
        pa ← zoom kn_p_l (kmem (experm pt va perm));
        if pa =? 0 then mret (Some tt)
        else
          _ ← (if negb (i =? page_n - 1) then _ ← fileread fuel f va PGSIZE; mret tt
               else
                 _ ← fileread fuel f va (s32 end_pagespace);
                 md (kn_p_l ⊚ mem_l) (fun m => memset m (pa + end_pagespace) 0 (PGSIZE - end_pagespace)));
          mret None);
  match r with
  | Some _ => mret IERR
  | None => _ ← filedup f; mret start
  end.

(** The two functions, which differ in what [PROT_EXEC] adds and in whether
    [MAP_FIXED] keeps the start asked for. *)
Definition mmap_with (exec_bits : Z) (fixed : bool) (start len prot flags fd offset : Z) : M kern Z :=
  p ← kcur;
  if offset <? 0 then mret IERR
  else
    let perm := prot_perm exec_bits mmap_perm0 prot in
    o ← (if fd =? -1 then mret None
         else if (fd <? 0) || (Z.of_nat NOFILE <=? fd) then undef "p->ofile[fd]" else ofile fd);
    if negb (fd =? -1) && negb (found o) then mret IERR
    else
      a ← zoom kn_p_l (alloc_mmap_vma kernel_end p flags start len perm fd offset);
      start ← (if fixed then mret start else v ← zoom kn_p_l (vget a); mret (v_addr v));
      if a =? 0 then mret IERR
      else match o with
           | Some f => _ ← fl f ⊚ f_off_l <~ u32 offset; mmap_fill f start 0 perm
           | None => mret start
           end.
Definition mmap (start len prot flags fd offset : Z) : M kern Z :=
  mmap_with (Z.lor PTE_MAT PTE_P) (truth (Z.land flags MAP_FIXED)) start len prot flags fd offset.
(** [pagetable] is not used. *)
Definition mmap_with_newpt (pagetable start len prot flags fd offset : Z) : M kern Z :=
  mmap_with PTE_MAT false start len prot flags fd offset.
End Mmap.
