(* ===== verification/Signal.v ===== *)
(** Signals: kernel/signal.c and kernel/syssig.c.

    A [sigset_t] is one word.  [killed] holds the number of the signal that is
    to be handled, [sig_tf] the page the interrupted trapframe is kept in. *)

From S2P Require Import Prelude Mem Strings Digits Locks Kalloc Vm PageTable VmProps ProcState Vma Proc ProcFacts SchedFacts Sleeplock Bio Circ UserMem Pipe FatName Fat FatDir Console File Args ProcLife.

Definition SIGKILL : Z := 9.
Definition SIGALRM : Z := 14.
Definition SIGTERM : Z := 15.
Definition SIGSTOP : Z := 19.
Definition SIGRTMAX : Z := 64.
Definition SIG_BLOCK : Z := 0.
Definition SIG_UNBLOCK : Z := 1.
Definition SIG_SETMASK : Z := 2.

(** [struct sigaction]: handler, mask, flags and four bytes of padding. *)
Definition sigact_bytes (a : sigact) (pad : list Z) : list Z :=
  le_bytes 8 (sa_handler a) ++ le_bytes 8 (sa_mask a) ++ le_bytes 4 (sa_flags a) ++ take 4 pad.
Definition sigact_of (bs : list Z) : sigact :=
  Sigact (le (take 8 bs)) (le (take 8 (drop 8 bs))) (s32 (le (take 4 (drop 16 bs)))).

(** [p->sigaction[signum]] *)
Definition action (pr : proc) (signum : Z) : sigact := default sigact0 (p_sigaction pr !! signum).

(** What is stored in [*oldact], if anything is. *)
Definition set_sigaction (signum : Z) (act : option sigact) (oldact : bool) : M kern (option sigact) :=
  p ← kcur;
  pr ← rd (kn_p_l ⊚ proc_l p);
  if (signum <? 0) || (SIGRTMAX <? signum) then undef "p->sigaction"
  else
    let old := action pr signum in
    _ ← match act with
        | Some a => md (kn_p_l ⊚ (proc_l p ⊚ p_sigaction_l)) (<[signum := a]>)
        | None => mret tt
        end;
    mret (if truth (sa_handler old) && oldact then Some old else None).

(** The mask after [sigprocmask]. *)
Definition new_mask (how old set : Z) : Z :=
  let m := if how =? SIG_BLOCK then Z.lor old set
           else if how =? SIG_UNBLOCK then Z.land old (u64 (Z.lnot set))
           else if how =? SIG_SETMASK then set
           else old in
  Z.land m (Z.lor (Z.lor (Z.shiftl 1 SIGTERM) (Z.shiftl 1 SIGKILL)) (Z.shiftl 1 SIGSTOP)).
(** The old mask, for [*oldset]. *)
Definition sigprocmask (how set : Z) : M kern Z :=
  p ← kcur;
  old ← rd (kn_p_l ⊚ (proc_l p ⊚ p_sig_set_l));
  _ ← kn_p_l ⊚ (proc_l p ⊚ p_sig_set_l) <~ new_mask how old set;
  mret old.

Section Signal.
Variable kernel_end : Z.
Variables (lsr : nat -> Z) (fuel cfuel dfuel : nat).
(** The padding of the [struct sigaction] copied out, and what the variable
    [set] of [sys_rt_sigprocmask] holds when no set is given. *)
Variables (sa_pad : list Z) (set_junk : Z).
Abbreviation say := (put_line lsr fuel).

Definition rt_sigreturn : M kern Z :=
  p ← kcur;
  tf ← mine p_trapframe_l;
  stf ← mine p_sig_tf_l;
  _ ← zoom kn_p_l (kmem (nonnull stf));
  _ ← md (kn_p_l ⊚ mem_l) (fun m => memmove m tf stf tf_size);
  _ ← zoom kn_p_l (kmem (kfree kernel_end stf));
  _ ← kn_p_l ⊚ (proc_l p ⊚ p_sig_tf_l) <~ 0;
  tf_load tf_a0.

Definition sighandle : M kern unit :=
  p ← kcur;
  pr ← rd (kn_p_l ⊚ proc_l p);
  let signum := p_killed pr in
  if (signum <? 0) || (SIGRTMAX <? signum) then undef "p->sigaction"
  else if truth (sa_handler (action pr signum)) then
    stf ← zoom kn_p_l (kmem kalloc);
    _ ← kn_p_l ⊚ (proc_l p ⊚ p_sig_tf_l) <~ stf;
    _ ← zoom kn_p_l (kmem (nonnull stf));
    _ ← md (kn_p_l ⊚ mem_l) (fun m => memmove m stf (p_trapframe pr) tf_size);
    _ ← tf_store tf_era (sa_handler (action pr signum));
    _ ← tf_store tf_ra SIGTRAMPOLINE;
    sp ← tf_load tf_sp;
    _ ← tf_store tf_sp (u64 (sp - PGSIZE));
    era ← tf_load tf_era;
    ra ← tf_load tf_ra;
    _ ← say "sighandle epc:%p ra:%p" [VInt era; VInt ra];
    pending ← mine p_sig_pending_l;
    let pending := Z.land pending (u64 (Z.lnot (Z.shiftl 1 signum))) in
    _ ← kn_p_l ⊚ (proc_l p ⊚ p_sig_pending_l) <~ pending;
    when (pending =? 0) (kn_p_l ⊚ (proc_l p ⊚ p_killed_l) <~ 0)
  else exit kernel_end fuel cfuel dfuel (-1).

(** * System calls *)

Definition sys_rt_sigaction : M kern Z :=
  signum ← argint 0;
  if (signum <? 0) || (SIGRTMAX <? signum) then mret IERR
  else
    ptr_act ← argaddr 1;
    ptr_oldact ← argaddr 2;
    pt ← mine p_pagetable_l;
    '(r, bs) ← (if truth ptr_act then zoom kn_p_l (kmem (copyin_bytes pt ptr_act 24)) else mret (0, []));
    if r <? 0 then mret IERR
    else
      let act := if truth ptr_act then sigact_of bs else sigact0 in
      o ← set_sigaction signum (if truth ptr_act then Some act else None) (truth ptr_oldact);
      r ← (if truth ptr_oldact then copy_to_user ptr_oldact (sigact_bytes (default sigact0 o) sa_pad) else mret 0);
      if r <? 0 then mret IERR
      else
        _ ← say "sys_rt_sigaction: signum = %d, act fp:%p " [VInt signum; VInt (sa_handler act)];
        mret 0.

Definition sys_rt_sigprocmask : M kern Z :=
  how ← argint 0;
  uptr_set ← argaddr 1;
  uptr_oldset ← argaddr 2;
  pt ← mine p_pagetable_l;
  '(r, bs) ← (if truth uptr_set then zoom kn_p_l (kmem (copyin_bytes pt uptr_set 8)) else mret (0, []));
  if r <? 0 then mret IERR
  else
    let set := if truth uptr_set then le bs else set_junk in
    old ← sigprocmask how set;
    r ← (if truth uptr_oldset then copy_to_user uptr_oldset (le_bytes 8 old) else mret 0);
    if r <? 0 then mret IERR
    else _ ← say "sys_rt_sigprocmask: how = %d, set = %p" [VInt how; VInt set]; mret 0.

Definition sys_rt_sigreturn : M kern Z := rt_sigreturn.

(** [kill] is the process layer's; [tgkill] prints first. *)
Definition sys_tgkill : M kern Z :=
  pid ← argint 0; tid ← argint 1; sig ← argint 2;
  _ ← say "tgkill:%d %d %d" [VInt tid; VInt pid; VInt sig];
  r ← zoom kn_p_l (tgkill tid pid sig);
  mret (u64 r).

Definition sys_rt_sigtimedwait : M kern Z := mret 0.
End Signal.
