(* ===== verification/Exec.v ===== *)
(** Program loading: kernel/exec.c.

    The headers are read into variables, so by value; the arguments are the
    strings at the addresses [sys_exec] got from the allocator.  The arrays on
    the stack have their sizes, and an index outside one is undefined. *)

From S2P Require Import Prelude Mem Strings Digits Locks Kalloc Vm PageTable VmProps ProcState Vma Proc ProcFacts SchedFacts Sleeplock Bio Circ UserMem Pipe FatName Fat FatDir Console File Args ProcLife SysFile Mmap.

Definition MAXARG : Z := 32.
Definition ELF_MAGIC : Z := 0x464C457F.
Definition ELF_PROG_LOAD : Z := 1.
Definition ELF_PROG_INTERP : Z := 3.
Definition ELF_PROG_PHDR : Z := 6.
Definition ELF_PROG_FLAG_EXEC : Z := 1.
Definition ELF_PROG_FLAG_WRITE : Z := 2.
Definition ELF_PROG_FLAG_READ : Z := 4.

(** The fields that are used of [struct elfhdr], 64 bytes, and of
    [struct proghdr], 56 bytes. *)
Record elfhdr := Elfhdr {
  e_magic : Z;
  e_entry : Z;
  e_phoff : Z;
  e_phentsize : Z;
  e_phnum : Z
}.
Record proghdr := Proghdr {
  ph_type : Z;
  ph_flags : Z;
  ph_off : Z;
  ph_vaddr : Z;
  ph_filesz : Z;
  ph_memsz : Z
}.
Definition hdr_field (bs : list Z) (off n : nat) : Z := le (take n (drop off bs)).
Definition elfhdr_of (bs : list Z) : elfhdr :=
  Elfhdr (hdr_field bs 0 4) (hdr_field bs 24 8) (hdr_field bs 32 8) (hdr_field bs 54 2) (hdr_field bs 56 2).
Definition proghdr_of (bs : list Z) : proghdr :=
  Proghdr (hdr_field bs 0 4) (hdr_field bs 4 4) (hdr_field bs 8 8) (hdr_field bs 16 8) (hdr_field bs 32 8) (hdr_field bs 40 8).

(** [a[i] = v] on an array of 64-bit words. *)
Definition put_arr (a : list Z) (i v : Z) : option (list Z) :=
  if (0 <=? i) && (i <? Z.of_nat (length a)) then Some (<[Z.to_nat i := u64 v]> a) else None.
Definition arr_word (a : list Z) (i : Z) : Z := nth (Z.to_nat i) a 0.
(** [n] words of an array from [i] on, as bytes. *)
Definition arr_bytes (a : list Z) (i n : Z) : option (list Z) :=
  if (0 <=? i) && (i + n <=? Z.of_nat (length a))
  then Some (concat (map (le_bytes 8) (take (Z.to_nat n) (drop (Z.to_nat i) a)))) else None.

Section Exec.
Variables kernel_end trampoline signalTrampoline : Z.
Variables (lsr : nat -> Z) (fuel cfuel dfuel nfuel : nat).
Abbreviation say := (put_line lsr fuel).
Abbreviation kfs m := (zoom kfs m).
Abbreviation pp m := (zoom kn_p_l m).
Abbreviation elock := (ep_lock fuel).
Abbreviation eunlock := ep_unlock.
Abbreviation eput e := (kfs (eput fuel cfuel dfuel e)).
Abbreviation ename path := (kfs (ename fuel cfuel dfuel path)).
Abbreviation kread ep addr off n := (entry_read fuel ep 0 addr off n).
Abbreviation uput pt addr bs := (pp (kmem (copyout_bytes pt addr bs))).

(** * Segments *)

(** One page of the loop of [loadseg], over [i] and [va]. *)
Definition loadseg_turn (pt : Z) (ep : option nat) (offset sz : Z) '((i, va) : Z * Z)
  : M kern ((Z * Z) + Z) :=
  if sz <=? i then mret (inr 0)
  else
    pa ← pp (kmem (walkaddr pt va));
    if pa =? 0 then panic "loadseg: address should exist"
    else
      let n := if u32 (sz - i) <? PGSIZE then u32 (sz - i) else PGSIZE in
      r ← kread ep pa (u32 (offset + i)) n;
      if negb (u32 r =? n) then mret (inr (-1)) else mret (inl (u32 (i + n), u64 (va + PGSIZE))).
Definition loadseg (pt va : Z) (ep : option nat) (offset sz : Z) : M kern Z :=
  let turns := S (S (Z.to_nat (sz / PGSIZE))) in
  if truth (va mod PGSIZE) then
    let va_off := va mod PGSIZE in
    let va := va - va_off in
    pa ← pp (kmem (walkaddr pt va));
    if pa =? 0 then panic "loadseg: address should exist"
    else
      let n := PGSIZE - va_off in
      r ← kread ep (u64 (pa + va_off)) offset n;
      if negb (u32 r =? n) then _ ← say "loadseg: read error" []; mret (-1)
      else loop turns (n, u64 (va + PGSIZE)) (loadseg_turn pt ep offset sz)
  else loop turns (0, va) (loadseg_turn pt ep offset sz).

(** [n] bytes of a file into a variable; [None] if there are fewer. *)
Definition read_struct (ep : option nat) (off n : Z) : M kern (option (list Z)) :=
  e ← lift "ep" ep;
  '(r, pl) ← kfs (eread fuel e (Local (replicate (Z.to_nat n) 0)) off n);
  mret (if negb (r =? n) then None else match pl with Local bs => Some bs | At _ _ => None end).
Definition readelfhdr (ep : option nat) : M kern (option elfhdr) :=
  o ← read_struct ep 0 64;
  mret (match o with
        | Some bs => if e_magic (elfhdr_of bs) =? ELF_MAGIC then Some (elfhdr_of bs) else None
        | None => None
        end).

(** [perm] is an [int]; [!] binds tighter than [&]. *)
Definition seg_perm (flags : Z) : Z :=
  let nflags := b2z (flags =? 0) in
  let perm := if truth (Z.land nflags ELF_PROG_FLAG_EXEC) then s32 PTE_NX else 0 in
  let perm := if truth (Z.land flags ELF_PROG_FLAG_WRITE) then Z.lor perm PTE_W else perm in
  if truth (Z.land nflags ELF_PROG_FLAG_READ) then s32 (Z.lor perm PTE_NR) else perm.

(** What [loadelf] leaves: the size, the address of the program headers if
    one was stored, and whether there is an interpreter. *)
Record loaded := Loaded {
  ld_sz : Z;
  ld_phdr : option Z;
  ld_getphdr : bool;
  ld_dynamic : bool
}.
(** The segment test that the two loaders share: [filesz] and wrap-around. *)
Definition seg_bad (who : string) (ph : proghdr) : M kern bool :=
  if ph_memsz ph <? ph_filesz ph then _ ← say (who ++ "ph.memsz < ph.filesz") []; mret true
  else if u64 (ph_vaddr ph + ph_memsz ph) <? ph_vaddr ph then
    _ ← say (who ++ "ph.vaddr + ph.memsz < ph.vaddr") []; mret true
  else mret false.
Definition load_segment (elf : elfhdr) (ep : option nat) (pt : Z) (ph : proghdr) (ld : loaded)
  : M kern (loaded + loaded) :=
  bad ← seg_bad "" ph;
  if bad : bool then mret (inr ld)
  else
    let phdr := if negb (ld_getphdr ld) && (ph_off ph =? 0) then Some (u64 (e_phoff elf + ph_vaddr ph))
                else ld_phdr ld in
    let ld := Loaded (ld_sz ld) phdr (ld_getphdr ld) (ld_dynamic ld) in
    sz1 ← pp (kmem (uvmalloc kernel_end pt (ld_sz ld) (PGROUNDUP (u64 (ph_vaddr ph + ph_memsz ph)))
                     (seg_perm (ph_flags ph))));
    if sz1 =? 0 then _ ← say "uvmalloc failed" []; mret (inr ld)
    else
      let ld := Loaded sz1 (ld_phdr ld) (ld_getphdr ld) (ld_dynamic ld) in
      r ← loadseg pt (ph_vaddr ph) ep (u32 (ph_off ph)) (u32 (ph_filesz ph));
      if r <? 0 then _ ← say "loadseg failed" []; mret (inr ld) else mret (inl ld).
(** [inr] for -1. *)
Definition loadelf (elf : elfhdr) (ep : option nat) (pt : Z) : M kern (loaded + loaded) :=
  for_acc (seqZ 0 (e_phnum elf)) (Loaded 0 None false false) (fun i ld =>
    o ← read_struct ep (u32 (s32 (e_phoff elf) + 56 * i)) 56;
    match o with
    | None => _ ← say "eread failed" []; mret (inr ld)
    | Some bs =>
        let ph := proghdr_of bs in
        if ph_type ph =? ELF_PROG_LOAD then load_segment elf ep pt ph ld
        else if ph_type ph =? ELF_PROG_PHDR then
          mret (inl (Loaded (ld_sz ld) (Some (ph_vaddr ph)) true (ld_dynamic ld)))
        else if ph_type ph =? ELF_PROG_INTERP then
          mret (inl (Loaded (ld_sz ld) (ld_phdr ld) (ld_getphdr ld) true))
        else mret (inl ld)
    end).

(** * The interpreter *)

Definition get_total_mapping_size (elf : elfhdr) (interp : option nat) : M kern Z :=
  r ← for_acc (seqZ 0 (e_phnum elf)) (u64 (-1), 0, false) (fun i '((min_addr, max_addr, is_true) : Z * Z * bool) =>
        o ← read_struct interp (u32 (e_phoff elf + 56 * i)) 56;
        match o with
        | None => _ ← say "[get_total_mapping_size]eread failed" []; mret (inr tt)
        | Some bs =>
            let ph := proghdr_of bs in
            if ph_type ph =? ELF_PROG_LOAD then
              let lo := PGROUNDDOWN (ph_vaddr ph) in
              let hi := u64 (ph_vaddr ph + ph_memsz ph) in
              mret (inl (if min_addr <? lo then min_addr else lo, if hi <? max_addr then max_addr else hi, true))
            else mret (inl (min_addr, max_addr, is_true))
        end);
  mret (match r with
        | inl (min_addr, max_addr, is_true) => if is_true : bool then u64 (max_addr - min_addr) else 0
        | inr _ => u64 (-1)
        end).

Definition load_elf_interp (pt : Z) (elf : elfhdr) (interp : option nat) : M kern Z :=
  total_size ← get_total_mapping_size elf interp;
  if total_size =? 0 then _ ← say "[load_elf_interp]get_total_mapping_size failed" []; mret (u64 (-1))
  else
    start_addr ← mmap kernel_end fuel 0 total_size (Z.lor (Z.lor PROT_READ PROT_WRITE) PROT_EXEC)
                   (Z.lor MAP_PRIVATE MAP_ANONYMOUS) (-1) 0;
    if start_addr =? u64 (-1) then _ ← say "[load_elf_interp]mmap failed" []; mret (u64 (-1))
    else
      r ← for_until (seqZ 0 (e_phnum elf)) (fun i =>
            o ← read_struct interp (u32 (e_phoff elf + 56 * i)) 56;
            match o with
            | None => _ ← say "[load_elf_interp]eread failed" []; mret (Some tt)
            | Some bs =>
                let ph := proghdr_of bs in
                if ph_type ph =? ELF_PROG_LOAD then
                  bad ← seg_bad "[load_elf_interp]" ph;
                  if bad : bool then mret (Some tt)
                  else
                    r ← loadseg pt (u64 (start_addr + ph_vaddr ph)) interp (u32 (ph_off ph)) (u32 (ph_filesz ph));
                    if r <? 0 then _ ← say "[load_elf_interp]loadseg failed" []; mret (Some tt) else mret None
                else mret None
            end);
      mret (match r with Some _ => u64 (-1) | None => start_addr end).

(** * The user stack *)

(** [str] with its NUL.  The new array and the result, an [int] made
    unsigned; [None] for -1. *)
Definition user_stack_push_str (pt : Z) (ustack : list Z) (str : list Z) (sp stackbase : Z)
  : M kern (list Z * option Z) :=
  let argc := u64 (arr_word ustack 0 + 1) in
  let ustack := <[0%nat := argc]> ustack in
  if MAXARG + 1 <? argc then mret (ustack, None)
  else
    len ← lift "strlen" (strlen str);
    let sp := u64 (sp - (len + 1)) in
    let sp := sp - sp mod 16 in
    if sp <? stackbase then mret (ustack, None)
    else
      r ← uput pt sp (take (Z.to_nat (len + 1)) str);
      if r <? 0 then _ ← say "copyout failed" []; mret (ustack, None)
      else
        ustack ← lift "ustack" (put_arr ustack argc sp);
        ustack ← lift "ustack" (put_arr ustack (argc + 1) 0);
        mret (ustack, if s32 sp =? -1 then None else Some (u64 (s32 sp))).

Definition alloc_aux (aux : list Z) (atid value : Z) : option (list Z) :=
  let argc := arr_word aux 0 in
  aux ← put_arr aux (argc * 2 + 1) atid;
  aux ← put_arr aux (argc * 2 + 2) value;
  aux ← put_arr aux (argc * 2 + 3) 0;
  aux ← put_arr aux (argc * 2 + 4) 0;
  put_arr aux 0 (argc + 1).
(** [None] for -1. *)
Definition loadaux (pt sp stackbase : Z) (aux : list Z) : M kern (option Z) :=
  let argc := s32 (arr_word aux 0) in
  if argc =? 0 then mret (Some (u64 (s32 sp)))
  else
    let sp := u64 (sp - (2 * argc + 2) * 8) in
    if sp <? stackbase then mret None
    else
      bs ← lift "aux" (arr_bytes aux 1 (2 * argc + 2));
      r ← uput pt sp bs;
      mret (if r <? 0 then None else if s32 sp =? -1 then None else Some (u64 (s32 sp))).

(** Prints the words of a stack; where a page is missing the address is the
    offset alone.  Nothing calls it. *)
Definition stackdisplay (pt sp sz : Z) : M kern unit :=
  for_each (map (fun k => sp + 8 * k) (seqZ 0 ((sz - sp + 7) / 8))) (fun i =>
    w ← pp (kmem (walkaddr pt i));
    let pa := u64 (w + i - PGROUNDDOWN i) in
    if truth pa then
      v ← pp (kmem (load pa)); say "addr %p phaddr:%p value %p" [VInt i; VInt pa; VInt v]
    else say "addr %p value (nil)" [VInt i]).

Definition is_sh_script (path : list Z) : option bool :=
  len ← strlen path;
  let at_ i := nth (Z.to_nat (len - i)) path 0 in
  Some (negb (len <? 3) && (at_ 1 =? 104) && (at_ 2 =? 115) && (at_ 3 =? 46)).

(** * [exec] *)

Inductive redir := REDIR_OUT | REDIR_APPEND.
#[local] Instance redir_eq_dec : EqDecision redir.
Proof. solve_decision. Defined.

(** A string in kernel memory: the arguments are at most a page long. *)
Definition kstr (a : Z) : M kern (list Z) :=
  m ← rd (kn_p_l ⊚ mem_l);
  s ← lift "argv[i]" (cstr (read_bytes m a PGSIZE));
  mret (s ++ [0]).

(** The label [bad]. *)
Definition exec_bad (pagetable sz : Z) (interpreter ep : option nat) (script : bool) : M kern Z :=
  _ ← when (truth pagetable) (pp (proc_freepagetable kernel_end pagetable sz));
  _ ← when (found interpreter) (_ ← eunlock interpreter; eput interpreter);
  _ ← when (found ep) (_ ← eunlock ep; eput ep);
  if script then exit kernel_end fuel cfuel dfuel 0 else mret (-1).

(** The entry point and the base of the interpreter, or [None] for [bad]: the
    interpreter is then still held. *)
Definition exec_entry (elf : elfhdr) (ld : loaded) (pt : Z) : M kern (option nat * option (Z * Z)) :=
  if ld_dynamic ld then
    interp ← ename (literal "/libc.so");
    match interp with
    | None => _ ← say "interpreter not found" []; mret (None, None)
    | Some _ =>
        _ ← elock interp;
        o ← readelfhdr interp;
        match o with
        | None => _ ← say "readelfhdr failed" []; mret (interp, None)
        | Some ielf =>
            start ← load_elf_interp pt ielf interp;
            _ ← eunlock interp;
            _ ← eput interp;
            mret (None, Some (u64 (start + e_entry ielf), start))
        end
    end
  else mret (None, Some (e_entry elf, 0)).

(** The auxiliary vector, with the random bytes at [sp]. *)
Definition exec_aux (elf : elfhdr) (phdr interp_start sp : Z) : option (list Z) :=
  foldl (fun aux '(id, v) => aux ← aux; alloc_aux aux id v) (Some (replicate (Z.to_nat (MAXARG * 2 + 3)) 0))
    [(16, 0); (6, PGSIZE); (3, phdr); (4, e_phentsize elf); (5, e_phnum elf); (7, interp_start);
     (9, e_entry elf); (11, 0); (12, 0); (13, 0); (14, 0); (23, 0); (25, sp)].

(** The arguments: a redirection and its file are left out of the vector. *)
Record argst := Argst {
  as_sp : Z;
  as_ustack : list Z;
  as_redir : option redir;
  as_file : option (list Z)
}.
Definition arg_turn (pt stackbase : Z) (argc : Z) (str : list Z) (st : argst) : M kern (argst + unit) :=
  len ← lift "strlen" (strlen str);
  c1 ← lift "strncmp" (strncmp str (literal ">") 1);
  c2 ← lift "strncmp" (strncmp str (literal ">>") 2);
  if (len =? 1) && (c1 =? 0) then
    mret (inl (Argst (as_sp st) (as_ustack st) (Some REDIR_OUT) (as_file st)))
  else if (len =? 2) && (c2 =? 0) then
    mret (inl (Argst (as_sp st) (as_ustack st) (Some REDIR_APPEND) (as_file st)))
  else if found (as_redir st) && negb (found (as_file st)) then
    mret (inl (Argst (as_sp st) (as_ustack st) (as_redir st) (Some str)))
  else if MAXARG <=? argc then mret (inr tt)
  else
    '(ustack, sp) ← user_stack_push_str pt (as_ustack st) str (as_sp st) stackbase;
    match sp with
    | None => _ ← say "user_stack_push_str failed 2" []; mret (inr tt)
    | Some sp => mret (inl (Argst sp ustack (as_redir st) (as_file st)))
    end.
Definition push_args (pt stackbase sp : Z) (argv : list Z) : M kern (argst + unit) :=
  for_acc (imap pair argv) (Argst sp (replicate 33 0) None None) (fun '(argc, a) st =>
    s ← kstr a; arg_turn pt stackbase (Z.of_nat argc) s st).
Definition push_env (pt stackbase sp : Z) (envp : list Z) (env : list Z) : M kern ((Z * list Z) + unit) :=
  for_acc env (sp, envp) (fun a '((sp, envp) : Z * list Z) =>
    s ← kstr a;
    '(envp, o) ← user_stack_push_str pt envp s sp stackbase;
    match o with
    | None => _ ← say "user_stack_push_str failed 3" []; mret (inr tt)
    | Some sp => mret (inl (sp, envp))
    end).

(** The two vectors of pointers: the final stack pointer, or [None] for [bad]. *)
Definition push_vectors (pt stackbase sp : Z) (envp ustack : list Z) : M kern (option Z) :=
  let argc := arr_word envp 0 in
  o ← (if truth argc then
         let sp := u64 (sp - (argc + 1) * 8) in
         if sp <? stackbase then _ ← say "sp < stackbase" []; mret None
         else
           let sp := sp - sp mod 16 in
           bs ← lift "envp" (arr_bytes envp 1 (argc + 1));
           r ← uput pt sp bs;
           if r <? 0 then _ ← say "copyout failed" []; mret None else mret (Some sp)
       else mret (Some sp));
  match o with
  | None => mret None
  | Some sp =>
      let argc := arr_word ustack 0 in
      let sp := u64 (sp - (argc + 2) * 8) in
      let sp := sp - sp mod 16 in
      if sp <? stackbase then mret None
      else
        bs ← lift "ustack" (arr_bytes ustack 0 (argc + 2));
        r ← uput pt sp bs;
        mret (if r <? 0 then None else Some sp)
  end.

(** From the environment to the vectors: [None] for [bad]. *)
Definition exec_stack (pt stackbase sp : Z) (elf : elfhdr) (phdr : option Z) (interp_start : Z) (argv : list Z) (env : option (list Z))
  : M kern (option (Z * argst)) :=
  '(envp, o) ← user_stack_push_str pt (replicate 33 0) (literal "UB_BINDIR=.") sp stackbase;
  match o with
  | None => _ ← say "user_stack_push_str failed 1" []; mret None
  | Some sp =>
      let sp := u64 (sp - 16) in
      r ← (if sp <? stackbase then mret (-1)
           else uput pt sp (le_bytes 8 0xcde142a16cb93072 ++ le_bytes 8 0x128a39c127d8bbf2));
      if r <? 0 then _ ← say "[exec] random copy bad" []; mret None
      else
        phdr ← lift "ph.vaddr" phdr;
        aux ← lift "aux" (exec_aux elf phdr interp_start sp);
        r ← push_args pt stackbase sp argv;
        match r with
        | inr _ => mret None
        | inl st =>
            r ← match env with
                | Some l => push_env pt stackbase (as_sp st) envp l
                | None => mret (inl (as_sp st, envp))
                end;
            match r with
            | inr _ => mret None
            | inl (sp, envp) =>
                o ← loadaux pt sp stackbase aux;
                match o with
                | None => _ ← say "loadaux failed" []; mret None
                | Some sp =>
                    o ← push_vectors pt stackbase sp envp (as_ustack st);
                    mret (match o with Some sp => Some (sp, st) | None => None end)
                end
            end
        end
  end.

(** The part of [path] after the last slash. *)
Fixpoint last_part (path acc : list Z) : list Z :=
  match path with
  | [] => acc
  | c :: path' => if c =? 0 then acc else last_part path' (if c =? 47 then path' else acc)
  end.
Definition close_on_exec (p : nat) : M kern unit :=
  pr ← rd (kn_p_l ⊚ proc_l p);
  for_each (seqZ 0 (NOFILEMAX pr)) (fun fd =>
    o ← ofile fd;
    match o with
    | Some f =>
        c ← exec_close fd;
        when (truth c) (_ ← fileclose kernel_end fuel cfuel dfuel f; _ ← set_ofile fd None; set_exec_close fd 0)
    | None => mret tt
    end).
(** Standard output on the file of a redirection: [false] for [bad]. *)
Definition redirect (st : argst) : M kern bool :=
  match as_redir st with
  | None => mret true
  | Some r =>
      o ← ofile 1;
      f ← lift "p->ofile[1]" o;
      _ ← fileclose kernel_end fuel cfuel dfuel f;
      _ ← set_ofile 1 None;
      file ← lift "redir_file" (as_file st);
      fd ← open kernel_end fuel cfuel dfuel nfuel file
             (Z.lor (Z.lor O_WRONLY O_CREATE) (if decide (r = REDIR_APPEND) then O_APPEND else 0));
      if negb (s32 fd =? 1) then _ ← say "[exec]:fd != 1" []; mret false
      else _ ← set_exec_close 1 1; mret true
  end.
(** The new image takes over. *)
Definition exec_commit (p : nat) (path : list Z) (pt sz entry oldpt oldsz sp : Z) (st : argst) : M kern Z :=
  _ ← tf_store tf_a1 (u64 (sp + 8));
  nm ← rd (kn_p_l ⊚ (proc_l p ⊚ p_name_l));
  nm ← lift "safestrcpy" (safestrcpy nm (last_part path path) 16);
  _ ← kn_p_l ⊚ (proc_l p ⊚ p_name_l) <~ nm;
  _ ← kn_p_l ⊚ (proc_l p ⊚ p_pagetable_l) <~ pt;
  _ ← kn_p_l ⊚ (proc_l p ⊚ p_sz_l) <~ sz;
  _ ← tf_store tf_era entry;
  _ ← tf_store tf_sp sp;
  _ ← close_on_exec p;
  ok ← redirect st;
  if negb ok then exec_bad pt sz None None false
  else
    _ ← pp (proc_freepagetable kernel_end oldpt oldsz);
    mret (s32 (arr_word (as_ustack st) 0)).
(** From the page table on: the entry [ep] is locked. *)
Definition exec_image (p : nat) (path : list Z) (ep : option nat) (elf : elfhdr) (oldpt pt : Z) (argv : list Z) (env : option (list Z))
  : M kern Z :=
  r ← loadelf elf ep pt;
  match r with
  | inr ld => _ ← say "loadelf failed" []; exec_bad pt (ld_sz ld) None ep false
  | inl ld =>
      '(interp, o) ← exec_entry elf ld pt;
      match o with
      | None => exec_bad pt (ld_sz ld) interp ep false
      | Some (entry, interp_start) =>
          _ ← eunlock ep;
          _ ← eput ep;
          oldsz ← rd (kn_p_l ⊚ (proc_l p ⊚ p_sz_l));
          _ ← pp (alloc_vma_stack kernel_end p);
          sp ← pp (get_proc_sp p);
          let stackbase := u64 (sp - INIT_STACK_SIZE) in
          o ← exec_stack pt stackbase sp elf (ld_phdr ld) interp_start argv env;
          match o with
          | None => exec_bad pt (ld_sz ld) None None false
          | Some (sp, st) => exec_commit p path pt (ld_sz ld) entry oldpt oldsz sp st
          end
      end
  end.
(** The areas are replaced first, whatever becomes of the rest. *)
Definition exec (path : list Z) (argv : list Z) (env : option (list Z)) : M kern Z :=
  p ← kcur;
  _ ← pp (free_vma_list kernel_end p);
  _ ← pp (vma_init kernel_end p);
  oldpt ← rd (kn_p_l ⊚ (proc_l p ⊚ p_pagetable_l));
  script ← lift "strlen" (is_sh_script path);
  if script : bool then exec_bad 0 0 None None true
  else
    ep ← ename path;
    match ep with
    | None => exec_bad 0 0 None None false
    | Some _ =>
        _ ← elock ep;
        o ← readelfhdr ep;
        match o with
        | None => _ ← say "readelfhdr failed" []; exec_bad 0 0 None ep false
        | Some elf =>
            pt ← pp (proc_pagetable kernel_end trampoline signalTrampoline p);
            if pt =? 0 then exec_bad 0 0 None ep false
            else
              _ ← kn_p_l ⊚ (proc_l p ⊚ p_pagetable_l) <~ pt;
              exec_image p path ep elf oldpt pt argv env
        end
    end.
End Exec.
