(* ===== verification/Timer.v ===== *)
(** Time: kernel/timer.c, kernel/systime.c; and the state of the whole kernel.

    [ksys] adds to [kern] what the handlers of system calls and of traps keep
    besides: the clock, the timers, the log and the control registers.  The
    stable counter is the environment's: [rtime n] is what its [n]th reading
    gives. *)

From S2P Require Import Prelude Mem Strings Digits Locks Kalloc Vm PageTable VmProps ProcState Vma Proc ProcFacts SchedFacts Sleeplock Bio Circ UserMem Pipe FatName Fat FatDir Console File Args ProcLife SysFile Signal.

Definition NTIMERS : nat := 10.
Definition CLK_FREQ : Z := 4000000.
Definition ENOENT : Z := 2.

(** [struct itimerval] *)
Record itimerval := Itimerval {
  iv_int_sec : Z;
  iv_int_usec : Z;
  iv_val_sec : Z;
  iv_val_usec : Z
}.

Definition iv_int_sec_l : lens itimerval (Z) :=
  Lens iv_int_sec (fun v r => Itimerval v (iv_int_usec r) (iv_val_sec r) (iv_val_usec r)).
Definition iv_int_usec_l : lens itimerval (Z) :=
  Lens iv_int_usec (fun v r => Itimerval (iv_int_sec r) v (iv_val_sec r) (iv_val_usec r)).
Definition iv_val_sec_l : lens itimerval (Z) :=
  Lens iv_val_sec (fun v r => Itimerval (iv_int_sec r) (iv_int_usec r) v (iv_val_usec r)).
Definition iv_val_usec_l : lens itimerval (Z) :=
  Lens iv_val_usec (fun v r => Itimerval (iv_int_sec r) (iv_int_usec r) (iv_val_sec r) v).

#[export] Instance iv_int_sec_laws : LensLaws iv_int_sec_l.
Proof. by split; [split|]; intros; repeat match goal with x : itimerval |- _ => destruct x end.
    Qed.
#[export] Instance iv_int_usec_laws : LensLaws iv_int_usec_l.
Proof. by split; [split|]; intros; repeat match goal with x : itimerval |- _ => destruct x end.
    Qed.
#[export] Instance iv_val_sec_laws : LensLaws iv_val_sec_l.
Proof. by split; [split|]; intros; repeat match goal with x : itimerval |- _ => destruct x end.
    Qed.
#[export] Instance iv_val_usec_laws : LensLaws iv_val_usec_l.
Proof. by split; [split|]; intros; repeat match goal with x : itimerval |- _ => destruct x end.
    Qed.

Record timer := Timer {
  tm_itimer : itimerval;
  tm_which : Z;
  tm_pid : Z;   (** 0 when the timer is free *)
  tm_ticks : Z   (** the clock when it was set *)
}.

Definition tm_itimer_l : lens timer (itimerval) :=
  Lens tm_itimer (fun v r => Timer v (tm_which r) (tm_pid r) (tm_ticks r)).
Definition tm_which_l : lens timer (Z) :=
  Lens tm_which (fun v r => Timer (tm_itimer r) v (tm_pid r) (tm_ticks r)).
Definition tm_pid_l : lens timer (Z) :=
  Lens tm_pid (fun v r => Timer (tm_itimer r) (tm_which r) v (tm_ticks r)).
Definition tm_ticks_l : lens timer (Z) :=
  Lens tm_ticks (fun v r => Timer (tm_itimer r) (tm_which r) (tm_pid r) v).

#[export] Instance tm_itimer_laws : LensLaws tm_itimer_l.
Proof. by split; [split|]; intros; repeat match goal with x : timer |- _ => destruct x end. Qed.
#[export] Instance tm_which_laws : LensLaws tm_which_l.
Proof. by split; [split|]; intros; repeat match goal with x : timer |- _ => destruct x end. Qed.
#[export] Instance tm_pid_laws : LensLaws tm_pid_l.
Proof. by split; [split|]; intros; repeat match goal with x : timer |- _ => destruct x end. Qed.
#[export] Instance tm_ticks_laws : LensLaws tm_ticks_l.
Proof. by split; [split|]; intros; repeat match goal with x : timer |- _ => destruct x end. Qed.

(** The control and status registers that are read or written. *)
Record csrs := Csrs {
  cs_prmd : Z;
  cs_era : Z;
  cs_estat : Z;
  cs_ecfg : Z;
  cs_eentry : Z;
  cs_pgdl : Z;
  cs_badi : Z;
  cs_ticlr : Z;
  cs_tcfg : Z;
  cs_prcfg1 : Z;
  cs_tlbrentry : Z;
  cs_merrentry : Z
}.

Definition cs_prmd_l : lens csrs (Z) :=
  Lens cs_prmd (fun v r => Csrs v (cs_era r) (cs_estat r) (cs_ecfg r) (cs_eentry r) (cs_pgdl r)
    (cs_badi r) (cs_ticlr r) (cs_tcfg r) (cs_prcfg1 r) (cs_tlbrentry r) (cs_merrentry r)).
Definition cs_era_l : lens csrs (Z) :=
  Lens cs_era (fun v r => Csrs (cs_prmd r) v (cs_estat r) (cs_ecfg r) (cs_eentry r) (cs_pgdl r)
    (cs_badi r) (cs_ticlr r) (cs_tcfg r) (cs_prcfg1 r) (cs_tlbrentry r) (cs_merrentry r)).
Definition cs_estat_l : lens csrs (Z) :=
  Lens cs_estat (fun v r => Csrs (cs_prmd r) (cs_era r) v (cs_ecfg r) (cs_eentry r) (cs_pgdl r)
    (cs_badi r) (cs_ticlr r) (cs_tcfg r) (cs_prcfg1 r) (cs_tlbrentry r) (cs_merrentry r)).
Definition cs_ecfg_l : lens csrs (Z) :=
  Lens cs_ecfg (fun v r => Csrs (cs_prmd r) (cs_era r) (cs_estat r) v (cs_eentry r) (cs_pgdl r)
    (cs_badi r) (cs_ticlr r) (cs_tcfg r) (cs_prcfg1 r) (cs_tlbrentry r) (cs_merrentry r)).
Definition cs_eentry_l : lens csrs (Z) :=
  Lens cs_eentry (fun v r => Csrs (cs_prmd r) (cs_era r) (cs_estat r) (cs_ecfg r) v (cs_pgdl r)
    (cs_badi r) (cs_ticlr r) (cs_tcfg r) (cs_prcfg1 r) (cs_tlbrentry r) (cs_merrentry r)).
Definition cs_pgdl_l : lens csrs (Z) :=
  Lens cs_pgdl (fun v r => Csrs (cs_prmd r) (cs_era r) (cs_estat r) (cs_ecfg r) (cs_eentry r) v
    (cs_badi r) (cs_ticlr r) (cs_tcfg r) (cs_prcfg1 r) (cs_tlbrentry r) (cs_merrentry r)).
Definition cs_badi_l : lens csrs (Z) :=
  Lens cs_badi (fun v r => Csrs (cs_prmd r) (cs_era r) (cs_estat r) (cs_ecfg r) (cs_eentry r)
    (cs_pgdl r) v (cs_ticlr r) (cs_tcfg r) (cs_prcfg1 r) (cs_tlbrentry r) (cs_merrentry r)).
Definition cs_ticlr_l : lens csrs (Z) :=
  Lens cs_ticlr (fun v r => Csrs (cs_prmd r) (cs_era r) (cs_estat r) (cs_ecfg r) (cs_eentry r)
    (cs_pgdl r) (cs_badi r) v (cs_tcfg r) (cs_prcfg1 r) (cs_tlbrentry r) (cs_merrentry r)).
Definition cs_tcfg_l : lens csrs (Z) :=
  Lens cs_tcfg (fun v r => Csrs (cs_prmd r) (cs_era r) (cs_estat r) (cs_ecfg r) (cs_eentry r)
    (cs_pgdl r) (cs_badi r) (cs_ticlr r) v (cs_prcfg1 r) (cs_tlbrentry r) (cs_merrentry r)).
Definition cs_prcfg1_l : lens csrs (Z) :=
  Lens cs_prcfg1 (fun v r => Csrs (cs_prmd r) (cs_era r) (cs_estat r) (cs_ecfg r) (cs_eentry r)
    (cs_pgdl r) (cs_badi r) (cs_ticlr r) (cs_tcfg r) v (cs_tlbrentry r) (cs_merrentry r)).
Definition cs_tlbrentry_l : lens csrs (Z) :=
  Lens cs_tlbrentry (fun v r => Csrs (cs_prmd r) (cs_era r) (cs_estat r) (cs_ecfg r) (cs_eentry
    r) (cs_pgdl r) (cs_badi r) (cs_ticlr r) (cs_tcfg r) (cs_prcfg1 r) v (cs_merrentry r)).
Definition cs_merrentry_l : lens csrs (Z) :=
  Lens cs_merrentry (fun v r => Csrs (cs_prmd r) (cs_era r) (cs_estat r) (cs_ecfg r) (cs_eentry
    r) (cs_pgdl r) (cs_badi r) (cs_ticlr r) (cs_tcfg r) (cs_prcfg1 r) (cs_tlbrentry r) v).

#[export] Instance cs_prmd_laws : LensLaws cs_prmd_l.
Proof. by split; [split|]; intros; repeat match goal with x : csrs |- _ => destruct x end. Qed.
#[export] Instance cs_era_laws : LensLaws cs_era_l.
Proof. by split; [split|]; intros; repeat match goal with x : csrs |- _ => destruct x end. Qed.
#[export] Instance cs_estat_laws : LensLaws cs_estat_l.
Proof. by split; [split|]; intros; repeat match goal with x : csrs |- _ => destruct x end. Qed.
#[export] Instance cs_ecfg_laws : LensLaws cs_ecfg_l.
Proof. by split; [split|]; intros; repeat match goal with x : csrs |- _ => destruct x end. Qed.
#[export] Instance cs_eentry_laws : LensLaws cs_eentry_l.
Proof. by split; [split|]; intros; repeat match goal with x : csrs |- _ => destruct x end. Qed.
#[export] Instance cs_pgdl_laws : LensLaws cs_pgdl_l.
Proof. by split; [split|]; intros; repeat match goal with x : csrs |- _ => destruct x end. Qed.
#[export] Instance cs_badi_laws : LensLaws cs_badi_l.
Proof. by split; [split|]; intros; repeat match goal with x : csrs |- _ => destruct x end. Qed.
#[export] Instance cs_ticlr_laws : LensLaws cs_ticlr_l.
Proof. by split; [split|]; intros; repeat match goal with x : csrs |- _ => destruct x end. Qed.
#[export] Instance cs_tcfg_laws : LensLaws cs_tcfg_l.
Proof. by split; [split|]; intros; repeat match goal with x : csrs |- _ => destruct x end. Qed.
#[export] Instance cs_prcfg1_laws : LensLaws cs_prcfg1_l.
Proof. by split; [split|]; intros; repeat match goal with x : csrs |- _ => destruct x end. Qed.
#[export] Instance cs_tlbrentry_laws : LensLaws cs_tlbrentry_l.
Proof. by split; [split|]; intros; repeat match goal with x : csrs |- _ => destruct x end. Qed.
#[export] Instance cs_merrentry_laws : LensLaws cs_merrentry_l.
Proof. by split; [split|]; intros; repeat match goal with x : csrs |- _ => destruct x end. Qed.

Record ksys := Ksys {
  sy_k : kern;
  sy_tickslock : spinlock;
  sy_ticks : Z;
  sy_timers : gmap nat timer;
  sy_hastimer : Z;
  sy_log : list Z;   (** [syslogbuffer] *)
  sy_loglen : Z;   (** [bufferlength] *)
  sy_reads : nat;   (** readings of the stable counter *)
  sy_csr : csrs
}.

Definition sy_k_l : lens ksys (kern) :=
  Lens sy_k (fun v r => Ksys v (sy_tickslock r) (sy_ticks r) (sy_timers r) (sy_hastimer r)
    (sy_log r) (sy_loglen r) (sy_reads r) (sy_csr r)).
Definition sy_tickslock_l : lens ksys (spinlock) :=
  Lens sy_tickslock (fun v r => Ksys (sy_k r) v (sy_ticks r) (sy_timers r) (sy_hastimer r)
    (sy_log r) (sy_loglen r) (sy_reads r) (sy_csr r)).
Definition sy_ticks_l : lens ksys (Z) :=
  Lens sy_ticks (fun v r => Ksys (sy_k r) (sy_tickslock r) v (sy_timers r) (sy_hastimer r)
    (sy_log r) (sy_loglen r) (sy_reads r) (sy_csr r)).
Definition sy_timers_l : lens ksys (gmap nat timer) :=
  Lens sy_timers (fun v r => Ksys (sy_k r) (sy_tickslock r) (sy_ticks r) v (sy_hastimer r)
    (sy_log r) (sy_loglen r) (sy_reads r) (sy_csr r)).
Definition sy_hastimer_l : lens ksys (Z) :=
  Lens sy_hastimer (fun v r => Ksys (sy_k r) (sy_tickslock r) (sy_ticks r) (sy_timers r) v
    (sy_log r) (sy_loglen r) (sy_reads r) (sy_csr r)).
Definition sy_log_l : lens ksys (list Z) :=
  Lens sy_log (fun v r => Ksys (sy_k r) (sy_tickslock r) (sy_ticks r) (sy_timers r)
    (sy_hastimer r) v (sy_loglen r) (sy_reads r) (sy_csr r)).
Definition sy_loglen_l : lens ksys (Z) :=
  Lens sy_loglen (fun v r => Ksys (sy_k r) (sy_tickslock r) (sy_ticks r) (sy_timers r)
    (sy_hastimer r) (sy_log r) v (sy_reads r) (sy_csr r)).
Definition sy_reads_l : lens ksys (nat) :=
  Lens sy_reads (fun v r => Ksys (sy_k r) (sy_tickslock r) (sy_ticks r) (sy_timers r)
    (sy_hastimer r) (sy_log r) (sy_loglen r) v (sy_csr r)).
Definition sy_csr_l : lens ksys (csrs) :=
  Lens sy_csr (fun v r => Ksys (sy_k r) (sy_tickslock r) (sy_ticks r) (sy_timers r)
    (sy_hastimer r) (sy_log r) (sy_loglen r) (sy_reads r) v).

#[export] Instance sy_k_laws : LensLaws sy_k_l.
Proof. by split; [split|]; intros; repeat match goal with x : ksys |- _ => destruct x end. Qed.
#[export] Instance sy_tickslock_laws : LensLaws sy_tickslock_l.
Proof. by split; [split|]; intros; repeat match goal with x : ksys |- _ => destruct x end. Qed.
#[export] Instance sy_ticks_laws : LensLaws sy_ticks_l.
Proof. by split; [split|]; intros; repeat match goal with x : ksys |- _ => destruct x end. Qed.
#[export] Instance sy_timers_laws : LensLaws sy_timers_l.
Proof. by split; [split|]; intros; repeat match goal with x : ksys |- _ => destruct x end. Qed.
#[export] Instance sy_hastimer_laws : LensLaws sy_hastimer_l.
Proof. by split; [split|]; intros; repeat match goal with x : ksys |- _ => destruct x end. Qed.
#[export] Instance sy_log_laws : LensLaws sy_log_l.
Proof. by split; [split|]; intros; repeat match goal with x : ksys |- _ => destruct x end. Qed.
#[export] Instance sy_loglen_laws : LensLaws sy_loglen_l.
Proof. by split; [split|]; intros; repeat match goal with x : ksys |- _ => destruct x end. Qed.
#[export] Instance sy_reads_laws : LensLaws sy_reads_l.
Proof. by split; [split|]; intros; repeat match goal with x : ksys |- _ => destruct x end. Qed.
#[export] Instance sy_csr_laws : LensLaws sy_csr_l.
Proof. by split; [split|]; intros; repeat match goal with x : ksys |- _ => destruct x end. Qed.

Definition itimerval0 : itimerval := Itimerval 0 0 0 0.
Definition timer0 : timer := Timer itimerval0 0 0 0.
Definition tmr (i : nat) : lens ksys timer := sy_timers_l ⊚ lmap i timer0.

(** The parts of the state the layers below run on. *)
Definition syp : lens ksys pst := sy_k_l ⊚ kn_p_l.
Definition sycn : lens ksys cst := sy_k_l ⊚ kcn.
Abbreviation sk m := (zoom sy_k_l m).
Abbreviation sp m := (zoom syp m).

Definition itimerval_bytes (v : itimerval) : list Z :=
  le_bytes 8 (iv_int_sec v) ++ le_bytes 8 (iv_int_usec v) ++ le_bytes 8 (iv_val_sec v) ++ le_bytes 8 (iv_val_usec v).
Definition itimerval_of (bs : list Z) : itimerval :=
  Itimerval (le (take 8 bs)) (le (take 8 (drop 8 bs))) (le (take 8 (drop 16 bs))) (le (take 8 (drop 24 bs))).

Section Timer.
Variable rtime : nat -> Z.
Variable kernel_end : Z.
Variables (lsr : nat -> Z) (fuel cfuel dfuel : nat).
(** Where the compiler puts the two variables of [sys_setitimer]; the time
    that [sys_clock_gettime] gives for another clock; unset bytes of a buffer. *)
Variables (value_addr ovalue_addr : Z) (ts_junk : list Z) (buf_junk : nat -> Z).
Abbreviation say s ap := (sk (put_line lsr fuel s ap)).

Definition r_time : M ksys Z :=
  n ← rd sy_reads_l; _ ← sy_reads_l <~ S n; mret (u64 (rtime n)).

(** * timer.c *)

Definition timerinit : M ksys unit :=
  _ ← sy_tickslock_l <~ Spin 0 "time" None;
  _ ← sy_timers_l <~ ∅;
  _ ← sy_ticks_l <~ 0;
  sy_hastimer_l <~ 0.

(** [FIELD_GET] and [FIELD_WRITE]; the timer counts down from [INTERVAL]. *)
Definition field_get (reg len shift : Z) : Z := Z.land (Z.shiftr reg shift) (u64 (Z.shiftl 1 len - 1)).
Definition field_write (val len shift : Z) : Z := u64 (Z.shiftl (Z.land val (u64 (Z.shiftl 1 len - 1))) shift).
Definition countdown_timer_init : M ksys unit :=
  prcfg1 ← rd (sy_csr_l ⊚ cs_prcfg1_l);
  let timerbits := field_get prcfg1 8 4 + 1 in
  if (timerbits <=? 0) || (64 <=? timerbits) then panic "countdown_timer_init: timerbits is invalid"
  else sy_csr_l ⊚ cs_tcfg_l <~
         Z.lor (Z.lor (field_write 1 1 0) (field_write 1 1 1)) (field_write CLK_FREQ timerbits 2).

(** A timer fires after 80 ticks; nothing calls this. *)
Definition timer_tick : M ksys unit :=
  _ ← acquire (syp ⊚ hart_l) sy_tickslock_l;
  _ ← md sy_ticks_l (fun t => u32 (t + 1));
  _ ← sp (wakeup CTicks);
  _ ← release (syp ⊚ hart_l) sy_tickslock_l;
  has ← rd sy_hastimer_l;
  when (truth has)
    (for_each (seq 0 NTIMERS) (fun i =>
       t ← rd (tmr i);
       ticks ← rd sy_ticks_l;
       when (negb (tm_pid t =? 0) && (80 <=? u32 (ticks - tm_ticks t)))
         (_ ← sp (kill (tm_pid t) SIGALRM);
          _ ← tmr i ⊚ tm_pid_l <~ 0;
          sy_hastimer_l <~ 0))).

(** [struct tms]: user and system time, then the children's. *)
Definition sys_times : M ksys Z :=
  utms ← sk (argaddr 0);
  pr ← (p ← sk kcur; rd (syp ⊚ proc_l p));
  r ← for_acc nproc (1, 1) (fun i '((cu, cs) : Z * Z) =>
        _ ← sp (plock i);
        me ← sk kcur;
        q ← rd (syp ⊚ proc_l i);
        _ ← sp (punlock i);
        mret (@inl (Z * Z) unit
          (if bool_decide (p_parent q = Some me) then (cu + p_utime q, cs + p_ktime q) else (cu, cs))));
  let '(cu, cs) := match r with inl v => v | inr _ => (1, 1) end in
  _ ← sk (copy_to_user utms (le_bytes 8 (p_utime pr) ++ le_bytes 8 (p_ktime pr) ++ le_bytes 8 cu ++ le_bytes 8 cs));
  mret 0.

(** [value] and [ovalue] are variables of the kernel: the old value goes to
    the user address that equals the second's. *)
Definition setitimer (which : Z) (value : itimerval) : M ksys Z :=
  pid ← sk (mine p_pid_l);
  o ← for_until (seq 0 NTIMERS) (fun i =>
        t ← rd (tmr i);
        mret (if (tm_pid t =? pid) && (tm_which t =? which) then Some i else None));
  _ ← match o with
      | Some i =>
          t ← rd (tmr i);
          _ ← sk (copy_to_user ovalue_addr (itimerval_bytes (tm_itimer t))); mret tt
      | None => mret tt
      end;
  if (iv_val_sec value =? 0) && (iv_val_usec value =? 0) && (iv_int_sec value =? 0) && (iv_int_usec value =? 0)
  then mret 0
  else
    ticks ← rd sy_ticks_l;
    _ ← match o with
        | None =>
            _ ← for_until (seq 0 NTIMERS) (fun i =>
                  t ← rd (tmr i);
                  if tm_pid t =? 0 then
                    _ ← say "set timer pid %d" [VInt pid];
                    _ ← tmr i <~ Timer (tm_itimer t) which pid (s32 ticks);
                    mret (Some tt)
                  else mret None);
            mret tt
        | Some i => tmr i <~ Timer value which pid (s32 ticks)
        end;
    _ ← sy_hastimer_l <~ 1;
    mret 0.

Definition get_timeval : M ksys (Z * Z) :=
  t ← r_time; mret (t / CLK_FREQ, t / (CLK_FREQ / 1000)).

(** * systime.c *)

(** Its own [argfd]: the result, and what is stored through the pointers. *)
Definition time_argfd (n : Z) : M kern (Z * Z * option nat) :=
  p ← kcur;
  pr ← rd (kn_p_l ⊚ proc_l p);
  fd ← argint n;
  if (fd <? 0) || (NOFILEMAX pr <=? fd) then mret (-1, fd, None)
  else
    o ← ofile fd;
    mret (match o with None => (-1, fd, None) | Some f => (0, fd, Some f) end).

Definition sys_clock_getres : M kern Z :=
  addr ← argaddr 1;
  _ ← put_line lsr fuel "addr: %p" [VInt addr];
  r ← zoom kn_p_l (either_copyout 1 addr (le_bytes 8 0 ++ le_bytes 8 1));
  mret (if r <? 0 then IERR else 0).
Definition sys_clock_gettime : M ksys Z :=
  tid ← sk (argaddr 0); addr ← sk (argaddr 1);
  ticks ← r_time;
  let bs := if tid =? 0
            then le_bytes 8 (ticks / CLK_FREQ) ++ le_bytes 8 (ticks mod CLK_FREQ * 1000000000 / CLK_FREQ)
            else take 16 ts_junk in
  r ← sp (either_copyout 1 addr bs);
  mret (if r <? 0 then IERR else 0).
Definition sys_gettimeofday : M ksys Z :=
  tt ← sk (argaddr 0);
  t ← r_time;
  r ← sk (copy_to_user tt (le_bytes 8 (t / CLK_FREQ) ++ le_bytes 8 (t mod CLK_FREQ * 1000000 / CLK_FREQ)));
  mret (u64 r).

(** The two times of a file. *)
Definition set_times (f : nat) (t : list Z) : M kern unit :=
  md (fl f) (fun x =>
    update f_t1_nsec_l (nth 3 t 0) (update f_t1_sec_l (nth 2 t 0)
      (update f_t0_nsec_l (nth 1 t 0) (update f_t0_sec_l (nth 0 t 0) x)))).
Definition raise_times (f : nat) (t : list Z) : M kern unit :=
  let up (l : lens file Z) (v : Z) (x : file) :=
    if (view l x <? v) || (v =? 0) then update l v x else x in
  when (negb (nth 0 t 0 =? 1))
    (md (fl f) (fun x =>
       up f_t1_nsec_l (nth 3 t 0) (up f_t1_sec_l (nth 2 t 0)
         (up f_t0_nsec_l (nth 1 t 0) (up f_t0_sec_l (nth 0 t 0) x))))).
(** From the path's first character on. *)
Definition utimens_path (fd : Z) (fp : option nat) (pathAddr : Z) (pathName t : list Z) : M kern Z :=
  c ← lift "pathName" (head pathName);
  dp ← (if (c =? 47) || (fd =? AT_FDCWD) then mret (Some None)
        else match fp with
             | None => mret None
             | Some f => e ← file_ep f; mret (Some e)
             end);
  match dp with
  | None => mret (u64 (- EMFILE))
  | Some dp =>
      ep ← zoom kfs (new_ename fuel cfuel dfuel dp pathName);
      if truth pathAddr && negb (found ep) then mret (u64 (- ENOENT))
      else if truth pathAddr then
        o ← findfile fuel cfuel dfuel pathName;
        f ← lift "f" o;
        _ ← set_times f t;
        mret 0
      else if 0 <=? fd then
        '(r, _, o) ← time_argfd 0;
        if r <? 0 then mret IERR
        else f ← lift "f" o; _ ← raise_times f t; mret 0
      else mret (u64 (-2))
  end.
Definition sys_utimensat : M kern Z :=
  p ← kcur;
  '(r, fd, fp) ← time_argfd 0;
  if (r <? 0) && negb (fd =? AT_FDCWD) && negb (fd =? -1) then mret IERR
  else if fd =? -1 then mret (u64 (-9))
  else
    pathAddr ← argaddr 1;
    o ← (if truth pathAddr then argstr 1 255 256 else mret (Some (map buf_junk (seq 0 255))));
    match o with
    | None => mret IERR
    | Some pathName =>
        times ← argaddr 2; flags ← argint 3;
        bad ← path_is pathName "/dev/null/invalid" 17;
        if bad : bool then mret (u64 (-20))
        else
          pr ← rd (kn_p_l ⊚ proc_l p);
          '(r, bs) ← (if truth times then zoom kn_p_l (kmem (copyin_bytes (p_pagetable pr) times 32))
                      else mret (0, concat (replicate 4 (le_bytes 8 (p_utime pr)))));
          if r <? 0 then mret IERR
          else utimens_path fd fp pathAddr pathName (map (fun k => le (take 8 (drop (8 * k) bs))) (seq 0 4))
    end.

(** A [struct] passed to [printf] is passed by its address. *)
Definition sys_setitimer : M ksys Z :=
  which ← sk (argint 0);
  pvalue ← sk (argaddr 1);
  pt ← sk (mine p_pagetable_l);
  '(r, bs) ← sp (kmem (copyin_bytes pt pvalue 32));
  if r <? 0 then mret IERR
  else
    povalue ← sk (argaddr 2);
    '(r, obs) ← sp (kmem (copyin_bytes pt povalue 32));
    if r <? 0 then mret IERR
    else
      let value := itimerval_of bs in
      _ ← say "sys_setitimer: %d" [VInt which];
      _ ← say "sys_setitimer: %p it value: %p, %p, start:%p %p"
            [VInt value_addr; VInt (iv_int_sec value); VInt (iv_int_usec value);
             VInt (iv_val_sec value); VInt (iv_val_usec value)];
      _ ← say "sys_setitimer: %p" [VInt ovalue_addr];
      _ ← setitimer which value;
      mret 0.
End Timer.
