(* ===== verification/Machine.v ===== *)
(** The machine around the kernel: the control registers by number
    (kernel/include/loongarch.h), the interrupt controllers (kernel/apic.c,
    kernel/extioi.c, [uart_intr_init] of kernel/uart.c), the paging registers
    ([tlbinit] and [kvminithart] of kernel/vm.c) and the dumps of registers
    (kernel/gdbdebug.c, [reg_info] of kernel/proc.c).

    A store to a device register, a write through [iocsrwr] and an [invtlb] are
    kept in the order they happen; what a device answers is a parameter. *)

From S2P Require Import Prelude Mem Strings Digits Locks Kalloc Vm PageTable VmProps ProcState Vma Proc ProcFacts SchedFacts Sleeplock Bio Circ UserMem Pipe FatName Fat FatDir Console File Timer.

Definition UART0_IRQ : Z := 2.
Definition KEYBOARD_IRQ : Z := 3.
Definition MOUSE_IRQ : Z := 4.
Definition LS7A_PCH_REG_BASE : Z := Z.lor 0x10000000 DMWIN_MASK.
Definition LS7A_INT_MASK_REG : Z := LS7A_PCH_REG_BASE + 0x020.
Definition LS7A_INT_EDGE_REG : Z := LS7A_PCH_REG_BASE + 0x060.
Definition LS7A_INT_CLEAR_REG : Z := LS7A_PCH_REG_BASE + 0x080.
Definition LS7A_INT_HTMSI_VEC_REG : Z := LS7A_PCH_REG_BASE + 0x200.
Definition LS7A_INT_POL_REG : Z := LS7A_PCH_REG_BASE + 0x3e0.
Definition INTENSET0 : Z := 0x800000001fe01428.
Definition ENTRY0 : Z := 0x800000001fe01400.
Definition LOONGARCH_IOCSR_EXTIOI_EN_BASE : Z := 0x1600.
Definition LOONGARCH_IOCSR_EXTIOI_ISR_BASE : Z := 0x1800.
Definition LOONGARCH_IOCSR_EXTIOI_MAP_BASE : Z := 0x14c0.
Definition LOONGARCH_IOCSR_EXTIOI_ROUTE_BASE : Z := 0x1c00.
Definition LOONGARCH_IOCSR_EXRIOI_NODETYPE_BASE : Z := 0x14a0.

(** What leaves the processor: a store of one, four or eight bytes to a device
    register, a write of an input/output control register, a flush of the
    translation buffer. *)
Inductive io :=
| Store8 (a v : Z)
| Store32 (a v : Z)
| Store64 (a v : Z)
| Iocsr32 (reg v : Z)
| Iocsr64 (reg v : Z)
| Invtlb.
#[export] Instance io_eq_dec : EqDecision io.
Proof. solve_decision. Defined.

(** [csr_rt] of gdbdebug.h. *)
Record csr_rt := CsrRt {
  csr_crmd : Z;
  csr_prmd : Z;
  csr_ecfg : Z;
  csr_era : Z;
  csr_eentry : Z;
  csr_pgd : Z;
  csr_pgdl : Z;
  csr_estat : Z
}.
Definition csr_info0 : csr_rt := CsrRt 1 1 1 1 1 1 1 1.

Record mach := Mach {
  mc_sys : ksys;
  mc_csr : gmap Z Z;   (** the control registers that [csrs] does not name *)
  mc_io : list io;   (** oldest first *)
  mc_csr_info : csr_rt;   (** [csr_info] *)
  mc_started : Z   (** [started] of main.c *)
}.
Definition mc_sys_l : lens mach ksys :=
  Lens mc_sys (fun v m => Mach v (mc_csr m) (mc_io m) (mc_csr_info m) (mc_started m)).
Definition mc_csr_l : lens mach (gmap Z Z) :=
  Lens mc_csr (fun v m => Mach (mc_sys m) v (mc_io m) (mc_csr_info m) (mc_started m)).
Definition mc_io_l : lens mach (list io) :=
  Lens mc_io (fun v m => Mach (mc_sys m) (mc_csr m) v (mc_csr_info m) (mc_started m)).
Definition mc_csr_info_l : lens mach csr_rt :=
  Lens mc_csr_info (fun v m => Mach (mc_sys m) (mc_csr m) (mc_io m) v (mc_started m)).
Definition mc_started_l : lens mach Z :=
  Lens mc_started (fun v m => Mach (mc_sys m) (mc_csr m) (mc_io m) (mc_csr_info m) v).
#[export] Instance mc_sys_laws : LensLaws mc_sys_l.
Proof. by split; [split|]; intros; repeat match goal with x : mach |- _ => destruct x end. Qed.
#[export] Instance mc_csr_laws : LensLaws mc_csr_l.
Proof. by split; [split|]; intros; repeat match goal with x : mach |- _ => destruct x end. Qed.
#[export] Instance mc_io_laws : LensLaws mc_io_l.
Proof. by split; [split|]; intros; repeat match goal with x : mach |- _ => destruct x end. Qed.
#[export] Instance mc_csr_info_laws : LensLaws mc_csr_info_l.
Proof. by split; [split|]; intros; repeat match goal with x : mach |- _ => destruct x end. Qed.
#[export] Instance mc_started_laws : LensLaws mc_started_l.
Proof. by split; [split|]; intros; repeat match goal with x : mach |- _ => destruct x end. Qed.

(** * Control registers *)

Abbreviation sysreg l := (mc_sys_l ⊚ (sy_csr_l ⊚ l)).

(** Where register [n] is kept. *)
Definition csr_at (n : Z) : lens mach Z :=
  if n =? 0x0 then mc_sys_l ⊚ (syp ⊚ (hart_l ⊚ h_crmd_l))
  else if n =? 0x1 then sysreg cs_prmd_l
  else if n =? 0x4 then sysreg cs_ecfg_l
  else if n =? 0x5 then sysreg cs_estat_l
  else if n =? 0x6 then sysreg cs_era_l
  else if n =? 0x8 then sysreg cs_badi_l
  else if n =? 0xc then sysreg cs_eentry_l
  else if n =? 0x19 then sysreg cs_pgdl_l
  else if n =? 0x21 then sysreg cs_prcfg1_l
  else if n =? 0x41 then sysreg cs_tcfg_l
  else if n =? 0x44 then sysreg cs_ticlr_l
  else if n =? 0x88 then sysreg cs_tlbrentry_l
  else if n =? 0x93 then sysreg cs_merrentry_l
  else mc_csr_l ⊚ lmap n 0.
(** [csrrd] and [csrwr]; an accessor's type says how much of it moves. *)
Definition csrrd (n : Z) : M mach Z := rd (csr_at n).
Definition csrrd32 (n : Z) : M mach Z := x ← csrrd n; mret (u32 x).
Definition csrwr (x n : Z) : M mach unit := csr_at n <~ x.
Definition csrwr32 (x n : Z) : M mach unit := csrwr (u32 x) n.

Definition r_csr_crmd : M mach Z := csrrd32 0x0.
Definition w_csr_crmd (x : Z) : M mach unit := csrwr32 x 0x0.
Definition r_csr_prmd : M mach Z := csrrd32 0x1.
Definition w_csr_prmd (x : Z) : M mach unit := csrwr32 x 0x1.
Definition r_csr_era : M mach Z := csrrd 0x6.
Definition w_csr_era (x : Z) : M mach unit := csrwr x 0x6.
Definition r_csr_estat : M mach Z := csrrd32 0x5.
Definition r_csr_ecfg : M mach Z := csrrd32 0x4.
Definition w_csr_ecfg (x : Z) : M mach unit := csrwr32 x 0x4.
Definition r_csr_ticlr : M mach Z := csrrd32 0x44.
Definition w_csr_ticlr (x : Z) : M mach unit := csrwr32 x 0x44.
Definition r_csr_eentry : M mach Z := csrrd 0xc.
Definition r_csr_tlbrelo0 : M mach Z := csrrd 0x8c.
Definition r_csr_tlbrelo1 : M mach Z := csrrd 0x8d.
Definition w_csr_eentry (x : Z) : M mach unit := csrwr x 0xc.
Definition w_csr_tlbrentry (x : Z) : M mach unit := csrwr x 0x88.
Definition w_csr_merrentry (x : Z) : M mach unit := csrwr x 0x93.
Definition w_csr_stlbps (x : Z) : M mach unit := csrwr32 x 0x1e.
Definition w_csr_asid (x : Z) : M mach unit := csrwr32 x 0x18.
Definition w_csr_tcfg (x : Z) : M mach unit := csrwr x 0x41.
Definition r_csr_tcfg : M mach Z := csrrd 0x41.
Definition w_csr_tlbrehi (x : Z) : M mach unit := csrwr x 0x8e.
Definition r_csr_pgdl : M mach Z := csrrd 0x19.
Definition w_csr_pgdl (x : Z) : M mach unit := csrwr x 0x19.
Definition w_csr_pgdh (x : Z) : M mach unit := csrwr x 0x1a.
Definition r_csr_pgd : M mach Z := csrrd 0x1b.
Definition w_csr_pwcl (x : Z) : M mach unit := csrwr32 x 0x1c.
Definition w_csr_pwch (x : Z) : M mach unit := csrwr32 x 0x1d.
Definition r_csr_badv : M mach Z := csrrd32 0x7.
Definition r_csr_badi : M mach Z := csrrd32 0x8.
Definition r_csr_prcfg1 : M mach Z := csrrd 0x21.
Definition w_csr_prcfg1 (x : Z) : M mach unit := csrwr x 0x21.
Definition r_csr_prcfg2 : M mach Z := csrrd 0x22.
Definition w_csr_prcfg2 (x : Z) : M mach unit := csrwr x 0x22.
Definition r_csr_prcfg3 : M mach Z := csrrd 0x23.
Definition w_csr_prcfg3 (x : Z) : M mach unit := csrwr x 0x23.

(** * Devices *)

Definition emit (e : io) : M mach unit := md mc_io_l (fun l => l ++ [e]).
Definition flush_TLB : M mach unit := emit Invtlb.

Section Machine.
(** What a read of an input/output control register gives after the writes so
    far. *)
Variable iocsrrd : list io -> Z -> Z.
(** The devices of the console, the fuel of its waiting loops, the stack
    pointer. *)
Variables (lsr : nat -> Z) (fuel : nat) (sp_reg : Z).
Abbreviation say s ap := (zoom mc_sys_l (sk (put_line lsr fuel s ap))).

Definition iocsr_readl (reg : Z) : M mach Z := l ← rd mc_io_l; mret (u32 (iocsrrd l (u32 reg))).
Definition iocsr_readq (reg : Z) : M mach Z := l ← rd mc_io_l; mret (u64 (iocsrrd l (u32 reg))).
Definition iocsr_writel (val reg : Z) : M mach unit := emit (Iocsr32 (u32 reg) (u32 val)).
Definition iocsr_writeq (val reg : Z) : M mach unit := emit (Iocsr64 (u32 reg) (u64 val)).

(** The interrupts that the controllers are set up for. *)
Definition device_irqs : Z :=
  Z.lor (Z.lor (Z.shiftl 1 UART0_IRQ) (Z.shiftl 1 KEYBOARD_IRQ)) (Z.shiftl 1 MOUSE_IRQ).

Definition apic_init : M mach unit :=
  _ ← emit (Store64 LS7A_INT_MASK_REG (u64 (Z.lnot device_irqs)));
  _ ← emit (Store64 LS7A_INT_EDGE_REG device_irqs);
  _ ← emit (Store8 (LS7A_INT_HTMSI_VEC_REG + UART0_IRQ) UART0_IRQ);
  _ ← emit (Store8 (LS7A_INT_HTMSI_VEC_REG + KEYBOARD_IRQ) KEYBOARD_IRQ);
  _ ← emit (Store8 (LS7A_INT_HTMSI_VEC_REG + MOUSE_IRQ) MOUSE_IRQ);
  emit (Store64 LS7A_INT_POL_REG 0).
Definition apic_complete (irq : Z) : M mach unit := emit (Store64 LS7A_INT_CLEAR_REG (u64 irq)).

Definition extioi_init : M mach unit :=
  _ ← iocsr_writeq device_irqs LOONGARCH_IOCSR_EXTIOI_EN_BASE;
  _ ← iocsr_writeq 0x01 LOONGARCH_IOCSR_EXTIOI_MAP_BASE;
  _ ← iocsr_writeq 0x0 LOONGARCH_IOCSR_EXTIOI_ROUTE_BASE;
  iocsr_writeq 0x1 LOONGARCH_IOCSR_EXRIOI_NODETYPE_BASE.
Definition extioi_claim : M mach Z := iocsr_readq LOONGARCH_IOCSR_EXTIOI_ISR_BASE.
Definition extioi_complete (irq : Z) : M mach unit := iocsr_writeq irq LOONGARCH_IOCSR_EXTIOI_ISR_BASE.

Definition uart_intr_init : M mach unit :=
  _ ← emit (Store32 INTENSET0 1);
  emit (Store32 ENTRY0 0x10).

(** * Paging *)

Definition tlbinit : M mach unit :=
  _ ← emit Invtlb;
  _ ← w_csr_stlbps 0xc;
  _ ← w_csr_asid 0x0;
  w_csr_tlbrehi 0xc.

Definition PTBASE : Z := 12.
Definition PTWIDTH : Z := 9.
Definition DIR1BASE : Z := 21.
Definition DIR1WIDTH : Z := 9.
Definition DIR2BASE : Z := 30.
Definition DIR2WIDTH : Z := 9.
Definition PTEWIDTH : Z := 0.
Definition DIR3BASE : Z := 39.
Definition DIR3WIDTH : Z := 9.
Definition DIR4WIDTH : Z := 0.
(** [PWCH_HPTW_EN << 24] with [PWCH_HPTW_EN] being [1 << 24]: an [int], shifted
    out of its 32 bits. *)
Definition hptw_en : Z := s32 (Z.shiftl (Z.shiftl 1 24) 24).
Definition kvminithart : M mach unit :=
  kernel_pagetable ← rd (mc_sys_l ⊚ (syp ⊚ (s_k_l ⊚ k_kpt_l)));
  _ ← w_csr_pgdl kernel_pagetable;
  _ ← tlbinit;
  _ ← w_csr_pwcl
        (Z.lor (Z.lor (Z.lor (Z.lor (Z.lor (Z.lor (Z.shiftl PTEWIDTH 30) (Z.shiftl DIR2WIDTH 25))
           (Z.shiftl DIR2BASE 20)) (Z.shiftl DIR1WIDTH 15)) (Z.shiftl DIR1BASE 10))
           (Z.shiftl PTWIDTH 5)) PTBASE);
  _ ← w_csr_pwch
        (Z.lor (Z.lor (Z.lor (Z.shiftl DIR4WIDTH 18) (Z.shiftl DIR3WIDTH 6)) DIR3BASE) hptw_en);
  say "kvminithart" [].

(** * Dumps *)

Definition r_csr_prmd1 : M mach Z := csrrd32 0x1.
Definition r_csr_crmd1 : M mach Z := csrrd32 0x0.
Definition r_csr_ecfg1 : M mach Z := csrrd32 0x4.
Definition r_csr_era1 : M mach Z := csrrd 0x6.
Definition r_csr_eentry1 : M mach Z := csrrd 0xc.
Definition r_csr_pgdl1 : M mach Z := csrrd 0x19.
Definition r_csr_pgd1 : M mach Z := csrrd 0x1b.
Definition r_csr_estat1 : M mach Z := csrrd32 0x5.

(** The two page directory registers end up in each other's field. *)
Definition reg_gdb : M mach csr_rt :=
  crmd ← r_csr_crmd1;
  prmd ← r_csr_prmd1;
  ecfg ← r_csr_ecfg1;
  era ← r_csr_era1;
  eentry ← r_csr_eentry1;
  pgdl ← r_csr_pgdl1;
  pgd ← r_csr_pgd1;
  estat ← r_csr_estat;
  let i := CsrRt crmd prmd ecfg era eentry pgdl pgd estat in
  _ ← mc_csr_info_l <~ i;
  mret i.
(** It fills the global but returns its own variable. *)
Definition reg_gdb1 : M mach csr_rt := _ ← reg_gdb; mret (CsrRt 1 1 1 1 1 1 1 1).

Definition reg_info : M mach unit :=
  _ ← say "register info: {" [];
  prmd ← r_csr_prmd; _ ← say "prmd: %p" [VInt prmd];
  ecfg ← r_csr_ecfg; _ ← say "ecfg: %p" [VInt ecfg];
  era ← r_csr_era; _ ← say "era: %p" [VInt era];
  eentry ← r_csr_eentry; _ ← say "eentry: %p" [VInt eentry];
  pgdl ← r_csr_pgdl; _ ← say "pgdl: %p" [VInt pgdl];
  estat ← r_csr_estat; _ ← say "estatus: %p" [VInt estat];
  _ ← say "sp: %p" [VInt sp_reg];
  tp ← zoom mc_sys_l (sp (zoom hart_l cpuid)); _ ← say "tp: %p" [VInt (Z.of_nat tp)];
  say "}" [].
End Machine.

(** * What they do *)

#[export] Instance h_crmd_laws : LensLaws h_crmd_l.
Proof. by split; [split|]; intros; repeat match goal with x : hart |- _ => destruct x end. Qed.
#[export] Instance csr_at_put n : LensPut (csr_at n).
Proof. unfold csr_at, syp, hart_l. repeat case_match; apply _. Qed.

(** A register reads back what was written to it. *)
Lemma csrrd_csrwr n x m : csrrd n (update (csr_at n) x m) = Ret x (update (csr_at n) x m).
Proof. unfold csrrd. mrun. by rewrite view_update. Qed.

(** [intr_on] and [intr_off] of loongarch.h, spelled with the accessors, are
    those of Locks. *)
Lemma intr_on_csr m : 0 <= h_crmd (view (mc_sys_l ⊚ (syp ⊚ hart_l)) m) < 2 ^ 32 ->
  (x ← r_csr_crmd; w_csr_crmd (Z.lor x CSR_CRMD_IE)) m = zoom (mc_sys_l ⊚ (syp ⊚ hart_l)) intr_on m.
Proof.
  intros H. unfold r_csr_crmd, w_csr_crmd, csrrd32, csrwr32, csrrd, csrwr, intr_on. mrun.
  cbn in H |- *. rewrite (u32_small (h_crmd _)) by lia.
  rewrite u32_small; [done|]. by apply (lor_range _ _ 32).
Qed.
Lemma intr_off_csr m : 0 <= h_crmd (view (mc_sys_l ⊚ (syp ⊚ hart_l)) m) < 2 ^ 32 ->
  (x ← r_csr_crmd; w_csr_crmd (Z.land x (Z.lnot CSR_CRMD_IE))) m = zoom (mc_sys_l ⊚ (syp ⊚ hart_l)) intr_off m.
Proof.
  intros H. unfold r_csr_crmd, w_csr_crmd, csrrd32, csrwr32, csrrd, csrwr, intr_off. mrun.
  cbn in H |- *. rewrite (u32_small (h_crmd _)) by lia. rewrite u32_small; [done|].
  split; [apply Z.land_nonneg; lia|]. eapply Z.le_lt_trans; [apply land_le; lia|lia].
Qed.

(** The two controllers are set up for the same interrupts: what the bridge
    does not mask, the processor's side enables, and each is routed to the vector
    of its own number. *)
Lemma controllers_agree m : exists m' mask en,
  (_ ← apic_init; extioi_init) m = Ret tt m'
  /\ Store64 LS7A_INT_MASK_REG mask ∈ mc_io m' /\ Iocsr64 LOONGARCH_IOCSR_EXTIOI_EN_BASE en ∈ mc_io m'
  /\ (forall irq, 0 <= irq < 64 -> Z.testbit en irq = negb (Z.testbit mask irq)
        /\ (Z.testbit en irq = true -> Store8 (LS7A_INT_HTMSI_VEC_REG + irq) irq ∈ mc_io m')).
Proof.
  eexists _, _, _. split; [unfold apic_init, extioi_init, iocsr_writeq, emit; mrun; reflexivity|].
  cbn [mc_io update mc_io_l]. rewrite <- !app_assoc. split; [|split].
  - apply elem_of_app. right. left.
  - apply elem_of_app. right. cbn [app]. do 6 right. left.
  - intros irq Hirq. rewrite elem_of_app.
    match goal with |- context [_ ∈ mc_io m \/ _ ∈ ?l] => set (tl := l) end.
    assert (Forall (fun irq => Z.testbit device_irqs irq = negb (Z.testbit (u64 (Z.lnot device_irqs)) irq)
      /\ (Z.testbit device_irqs irq = true -> Store8 (LS7A_INT_HTMSI_VEC_REG + irq) irq ∈ tl)) (seqZ 0 64)) as Hall
      by (apply (bool_decide_unpack _); by vm_compute).
    rewrite Forall_forall in Hall. destruct (Hall irq) as [H1 H2]; [apply elem_of_seqZ; lia|].
    split; [exact H1|]. intros H. right. by apply H2.
Qed.

(** The bit that would turn the hardware page walker on is lost. *)
Lemma hptw_en_lost : hptw_en = 0.
Proof. done. Qed.
