(* ===== verification/SysProc.v ===== *)
(** The system calls on processes: kernel/sysproc.c; [sys_mmap] and
    [sys_syslog] of kernel/sysfile.c; [sys_test_proc] and [sys_sysinfo] of
    kernel/syscall.c. *)

From S2P Require Import Prelude Mem Strings Digits Locks Kalloc Vm PageTable VmProps ProcState Vma Proc ProcFacts SchedFacts Sleeplock Bio Circ UserMem Pipe FatName Fat FatDir Console File Args ProcLife SysFile Mmap Signal Exec Timer.

Definition SYSLOG_ACTION_READ_ALL : Z := 3.
Definition SYSLOG_ACTION_SIZE_BUFFER : Z := 10.
Definition ticks_per_second : Z := 1.

Section SysProc.
Variable rtime : nat -> Z.
Variables kernel_end trampoline signalTrampoline forkret_addr : Z.
Variables (lsr : nat -> Z) (fuel cfuel dfuel nfuel : nat).
(** What follows the names of [sys_uname] in memory, and the build's date. *)
Variables (uname_junk build_date : list Z).
Abbreviation say := (put_line lsr fuel).
Abbreviation pp m := (zoom kn_p_l m).

(** * Making, waiting, ending *)

Definition sys_clone : M kern Z :=
  new_stack ← argaddr 1; new_fn ← argaddr 0;
  ptid ← argaddr 2; tls ← argaddr 3; ctid ← argaddr 4;
  if new_stack =? 0
  then r ← fork kernel_end trampoline signalTrampoline forkret_addr lsr fuel; mret (u64 r)
  else clone kernel_end trampoline signalTrampoline forkret_addr lsr fuel new_stack new_fn.
Definition sys_fork : M kern Z :=
  r ← fork kernel_end trampoline signalTrampoline forkret_addr lsr fuel; mret (u64 r).
Definition sys_wait : M kern Z :=
  p ← argaddr 0; r ← pp (wait kernel_end fuel p); mret (u64 r).
Definition sys_wait4 : M kern Z :=
  pid ← argint 0; addr ← argaddr 1; options ← argint 2;
  r ← pp (wait4pid kernel_end fuel pid addr options); mret (u64 r).
Definition sys_exit : M kern Z :=
  n ← argint 0; exit kernel_end fuel cfuel dfuel n.

(** * Programs *)

(** [fetchstr] into a page of the kernel; [false] for -1. *)
Definition fetchstr_page (addr buf : Z) : M kern bool :=
  pt ← mine p_pagetable_l;
  err ← pp (kmem (copyinstr pt buf addr PGSIZE));
  mret (negb (err <? 0)).
(** One turn of the loop over the arguments: the pages so far, and whether the
    vector is complete. *)
Definition argv_turn (who : string) (uargv i : Z) (argv : list Z) : M kern (list Z + list Z * bool) :=
  if MAXARG <=? i then _ ← say (who ++ " too many arguments") []; mret (inr (argv, false))
  else
    o ← fetchaddr (u64 (uargv + 8 * i));
    match o with
    | None => _ ← say (who ++ " fetch %d addr error uargv:%p") [VInt i; VInt uargv]; mret (inr (argv, false))
    | Some uarg =>
        if uarg =? 0 then mret (inr (argv, true))
        else
          pg ← pp (kmem kalloc);
          if pg =? 0 then _ ← say (who ++ " kalloc error") []; mret (inr (argv, false))
          else
            _ ← md (kn_p_l ⊚ mem_l) (fun m => memset m pg 0 PGSIZE);
            ok ← fetchstr_page uarg pg;
            if negb ok then _ ← say (who ++ " fetchstr error") []; mret (inr (argv ++ [pg], false))
            else mret (inl (argv ++ [pg]))
    end.
Definition fetch_argv (who : string) (uargv : Z) : M kern (list Z * bool) :=
  r ← for_acc (seqZ 0 (MAXARG + 1)) [] (argv_turn who uargv);
  mret (match r with inl argv => (argv, false) | inr v => v end).
Definition free_argv (argv : list Z) : M kern unit :=
  for_each argv (fun pg => pp (kmem (kfree kernel_end pg))).
(** From the fetch of the arguments on. *)
Definition run_exec (who : string) (loud : bool) (path : list Z) (uargv : Z) : M kern Z :=
  '(argv, ok) ← fetch_argv who uargv;
  if ok : bool then
    ret ← exec kernel_end trampoline signalTrampoline lsr fuel cfuel dfuel nfuel path argv None;
    _ ← free_argv argv;
    mret (u64 ret)
  else
    _ ← when loud (say (who ++ ": bad") []);
    _ ← free_argv argv;
    mret IERR.
Definition sys_exec : M kern Z :=
  o ← argstr 0 FAT32_MAX_PATH FAT32_MAX_PATH;
  match o with
  | None => _ ← say "[sys_exec] fetch arg error" []; mret IERR
  | Some path =>
      uargv ← argaddr 1;
      _ ← say "[sys_exec] path:%s, uargv:%p" [VStr (Some path); VInt uargv];
      run_exec "[sys_exec]" true path uargv
  end.
Definition sys_execve : M kern Z :=
  o ← argstr 0 FAT32_MAX_PATH FAT32_MAX_PATH;
  match o with
  | None => mret IERR
  | Some path =>
      uargv ← argaddr 1; uenv ← argaddr 2;
      run_exec "[sys_execve]" false path uargv
  end.

(** * Limits and identities *)

Definition sys_prlimit64 : M kern Z :=
  opt ← argint 1; addr ← argaddr 2;
  '(r, bs) ← pp (either_copyin 1 addr 16);
  if r <? 0 then mret IERR
  else
    p ← kcur;
    _ ← when ((opt =? 7) && (le (take 8 bs) =? 42)) (kn_p_l ⊚ (proc_l p ⊚ p_filelimit_l) <~ 42);
    mret 0.
Definition sys_sched_getscheduler : M kern Z := mret 0.
Definition sys_sched_getparam : M kern Z := mret 0.
Definition sys_sched_setscheduler : M kern Z := mret 0.
Definition sys_sched_getaffinity : M kern Z :=
  pid ← argint 0; cpuset_size ← argaddr 1; addr ← argaddr 2;
  r ← pp (either_copyout 1 addr (le_bytes 8 1));
  mret (if r <? 0 then IERR else 0).

(** A field of the current process is set to an argument. *)
Definition set_mine (l : lens proc Z) (n : Z) : M kern Z :=
  v ← argint n; p ← kcur; _ ← kn_p_l ⊚ (proc_l p ⊚ l) <~ v; mret 0.
Definition get_mine (l : lens proc Z) : M kern Z := v ← mine l; mret (u64 v).
Definition sys_getpid : M kern Z := get_mine p_pid_l.
Definition sys_getppid : M kern Z :=
  p ← kcur;
  _ ← pp (plock p);
  o ← rd (kn_p_l ⊚ (proc_l p ⊚ p_parent_l));
  pa ← lift "p->parent" o;
  ppid ← rd (kn_p_l ⊚ (proc_l pa ⊚ p_pid_l));
  _ ← pp (punlock p);
  mret (u64 ppid).
Definition sys_trace : M kern Z := set_mine p_tmask_l 0.
Definition sys_getuid : M kern Z := get_mine p_uid_l.
Definition sys_geteuid : M kern Z := get_mine p_uid_l.
Definition sys_setuid : M kern Z := set_mine p_uid_l 0.
Definition sys_setgid : M kern Z := set_mine p_gid_l 0.
Definition sys_setpgid : M kern Z := pid ← argint 0; set_mine p_pgid_l 1.
Definition sys_getpgid : M kern Z := pid ← argint 0; get_mine p_pgid_l.
Definition sys_getgid : M kern Z := get_mine p_gid_l.
Definition sys_getegid : M kern Z := get_mine p_gid_l.
Definition sys_chroot : M kern Z := mret 0.
Definition sys_exit_group : M kern Z := mret 0.
Definition sys_umask : M kern Z := mret 0.
Definition sys_madvise : M kern Z := mret 0.

(** [sizeof] of a pointer: eight bytes of each string are copied. *)
Definition uname_fields : list (list Z) :=
  [literal "rv6"; literal "none"; literal "5.0"; build_date; literal "QEMU"; literal "none"].
Definition sys_uname : M kern Z :=
  addr ← argaddr 0;
  r ← for_until (imap pair uname_fields) (fun '(k, s) =>
        r ← pp (either_copyout 1 (u64 (addr + 65 * Z.of_nat k)) (take 8 (s ++ uname_junk)));
        mret (if r <? 0 then Some tt else None));
  mret (match r with Some _ => IERR | None => 0 end).

Definition sys_kill : M kern Z :=
  pid ← argint 0; sig ← argint 1;
  if pid <=? 0 then _ ← say "[kill]pid <= 0 do not implement" []; mret IERR
  else if (sig <? 0) || (SIGRTMAX <=? sig) then
    _ ← say "[kill]sig < 0 || sig >= SIGRTMAX" []; mret IERR
  else
    pid ← mine p_pid_l;
    if sig =? 0 then mret 0 else r ← pp (kill pid sig); mret (u64 r).

(** * Memory *)

Definition sys_sbrk : M kern Z :=
  n ← argint 0;
  addr ← mine p_sz_l;
  r ← pp (growproc kernel_end n);
  mret (if r <? 0 then IERR else u64 (s32 addr)).
Definition sys_brk : M kern Z :=
  n ← argaddr 0;
  addr ← mine p_sz_l;
  if n =? 0 then mret addr
  else if addr <=? n then
    r ← pp (growproc kernel_end (s32 (n - addr)));
    if r <? 0 then mret IERR else mine p_sz_l
  else mret 0.
Definition sys_mprotect : M kern Z :=
  addr ← argaddr 0; len ← argaddr 1; prot ← argint 2;
  pt ← mine p_pagetable_l;
  let perm := prot_perm (Z.lor PTE_MAT PTE_P) (Z.lor (Z.lor PTE_PLV3 PTE_MAT) PTE_D) prot in
  let page_n := s32 (Z.shiftr (PGROUNDUP len) PGSHIFT) in
  _ ← for_each (seqZ 0 page_n) (fun i => _ ← pp (kmem (experm pt (u64 (addr + i * PGSIZE)) perm)); mret tt);
  mret 0.
Definition sys_mmap : M kern Z :=
  start ← argaddr 0; len ← argaddr 1; prot ← argint 2; flags ← argint 3;
  a ← argfd lsr fuel 4 true;
  if (fa_ret a =? -2) && truth (Z.land flags MAP_ANONYMOUS) then
    off ← argint 5; mmap kernel_end fuel start len prot flags (-1) off
  else if fa_ret a <? 0 then _ ← say "argfd fd error" []; mret IERR
  else
    fd ← lift "fd" (fa_fd a);
    off ← argint 5; mmap kernel_end fuel start len prot flags fd off.

(** * Time *)

Abbreviation sk m := (zoom sy_k_l m).
Abbreviation sp m := (zoom syp m).

(** The first loop holds the process's own lock, and keeps it when it gives
    up. *)
Definition nanosleep_turn (p : nat) (tick0 n : Z) : M ksys (unit + Z) :=
  t ← rd sy_ticks_l;
  if negb (u64 (t - tick0) <? u64 (Z.quot n 10)) then mret (inr 0)
  else
    k ← rd (syp ⊚ (proc_l p ⊚ p_killed_l));
    if truth k then mret (inr (-1)) else _ ← sp (sleep_self CTicks); mret (inl tt).
Definition sys_nanosleep : M ksys Z :=
  addr_sec ← sk (argaddr 0); addr_usec ← sk (argaddr 1);
  p ← sk kcur;
  pr ← rd (syp ⊚ proc_l p);
  '(r, bs) ← sp (kmem (copyin_bytes (p_pagetable pr) addr_sec 8));
  if r <? 0 then mret IERR
  else
    '(r, bu) ← sp (kmem (copyin_bytes (p_pagetable pr) addr_usec 8));
    if r <? 0 then mret IERR
    else
      let n := s32 (u64 (le bs * 20 + le bu / 50000000)) in
      _ ← when (truth (p_tmask pr)) (sk (say ") ..." []));
      _ ← sp (plock p);
      tick0 ← rd sy_ticks_l;
      r ← loop fuel tt (fun _ => nanosleep_turn p tick0 n);
      if r <? 0 then mret IERR else _ ← sp (punlock p); mret 0.
Definition sleep_turn (ticks0 n : Z) : M ksys (unit + Z) :=
  t ← rd sy_ticks_l;
  if negb (u32 (t - ticks0) <? u32 n) then mret (inr 0)
  else
    k ← sk (mine p_killed_l);
    if truth k then mret (inr IERR)
    else _ ← sleep syp CTicks sy_tickslock_l; mret (inl tt).
Definition sys_sleep : M ksys Z :=
  n ← sk (argint 0);
  let n := s32 (n * ticks_per_second) in
  _ ← acquire (syp ⊚ hart_l) sy_tickslock_l;
  ticks0 ← rd sy_ticks_l;
  r ← loop fuel tt (fun _ => sleep_turn ticks0 n);
  _ ← release (syp ⊚ hart_l) sy_tickslock_l;
  mret r.
Definition sys_uptime : M ksys Z :=
  _ ← acquire (syp ⊚ hart_l) sy_tickslock_l;
  xticks ← rd sy_ticks_l;
  _ ← release (syp ⊚ hart_l) sy_tickslock_l;
  mret xticks.
(** [struct rusage]: two times and fourteen zeros. *)
Definition sys_getrusage : M ksys Z :=
  who ← sk (argint 0); addr ← sk (argaddr 1);
  '(us, uu) ← get_timeval rtime;
  '(ss, su) ← get_timeval rtime;
  r ← sp (either_copyout 1 addr (le_bytes 8 us ++ le_bytes 8 uu ++ le_bytes 8 ss ++ le_bytes 8 su ++ replicate 112 0));
  mret (if r <? 0 then IERR else 0).

(** * The log and the system *)

Definition initlogbuffer : M ksys unit :=
  _ ← sy_loglen_l <~ 0;
  b ← rd sy_log_l;
  b ← lift "strncpy" (strncpy b (chars "[log]init done" ++ [10; 0]) 1024);
  _ ← sy_log_l <~ b;
  n ← lift "strlen" (strlen b);
  md sy_loglen_l (fun l => s32 (l + n)).
Definition sys_syslog : M ksys Z :=
  type ← sk (argint 0); bufp ← sk (argaddr 1); len ← sk (argint 2);
  if type =? SYSLOG_ACTION_READ_ALL then
    b ← rd sy_log_l; n ← rd sy_loglen_l;
    bs ← lift "syslogbuffer" (first_bytes b n);
    r ← sp (either_copyout 1 bufp bs);
    mret (if r <? 0 then IERR else u64 n)
  else if type =? SYSLOG_ACTION_SIZE_BUFFER then mret 1024
  else mret 0.

Definition sys_test_proc : M ksys Z :=
  n ← sk (argint 0);
  pid ← sk (mine p_pid_l);
  tp ← sp (zoom hart_l cpuid);
  _ ← sk (say "hello world from proc %d, hart %d, arg %d" [VInt pid; VInt (Z.of_nat tp); VInt n]);
  mret 0.
(** [struct sysinfo]: 112 bytes; [_f] has none. *)
Definition sys_sysinfo : M ksys Z :=
  addr ← sk (argaddr 0);
  t ← r_time rtime;
  free ← sp (kmem freemem_amount);
  n ← sp procnum;
  r ← sp (either_copyout 1 addr
        (le_bytes 8 (t / CLK_FREQ) ++ replicate 24 0 ++ le_bytes 8 (RAMSTOP - RAMBASE) ++ le_bytes 8 free
         ++ replicate 8 0 ++ le_bytes 8 (512 * 2500) ++ replicate 16 0 ++ le_bytes 2 n ++ replicate 6 0
         ++ replicate 16 0 ++ le_bytes 4 PGSIZE ++ replicate 4 0));
  mret (if r <? 0 then IERR else 0).
End SysProc.
