(* ===== verification/Syscall.v ===== *)
(** Traps and system calls: the table and [syscall] of kernel/syscall.c,
    kernel/trap.c, [forkret] and [sys_yield] of kernel/proc.c.

    The assembly code around them (kernel/uservec.S, kernel/kernelvec.S) is not
    modelled: [usertrapret] ends where [userret] takes over, with the two
    arguments it is given. *)

From S2P Require Import Prelude Mem Strings Digits Locks Kalloc Vm PageTable VmProps ProcState Vma Proc ProcFacts SchedFacts Sleeplock Bio Circ UserMem Pipe FatName Fat FatDir Console File Args ProcLife SysFile Mmap Signal Exec Timer SysProc.

Definition SYS_fork : Z := 300.
Definition SYS_exit : Z := 93.
Definition SYS_wait : Z := 3.
Definition SYS_pipe : Z := 4.
Definition SYS_read : Z := 63.
Definition SYS_kill : Z := 129.
Definition SYS_exec : Z := 7.
Definition SYS_execve : Z := 221.
Definition SYS_fstat : Z := 80.
Definition SYS_chdir : Z := 49.
Definition SYS_dup : Z := 23.
Definition SYS_dup3 : Z := 24.
Definition SYS_getpid : Z := 172.
Definition SYS_sbrk : Z := 12.
Definition SYS_brk : Z := 214.
Definition SYS_sleep : Z := 13.
Definition SYS_uptime : Z := 14.
Definition SYS_open : Z := 15.
Definition SYS_write : Z := 64.
Definition SYS_mkdir : Z := 1030.
Definition SYS_close : Z := 57.
Definition SYS_test_proc : Z := 22.
Definition SYS_dev : Z := 10.
Definition SYS_readdir : Z := 21.
Definition SYS_getcwd : Z := 17.
Definition SYS_remove : Z := 87.
Definition SYS_trace : Z := 18.
Definition SYS_sysinfo : Z := 179.
Definition SYS_rename : Z := 26.
Definition SYS_getppid : Z := 173.
Definition SYS_mkdirat : Z := 34.
Definition SYS_nanosleep : Z := 101.
Definition SYS_clone : Z := 220.
Definition SYS_pipe2 : Z := 59.
Definition SYS_wait4 : Z := 260.
Definition SYS_getdents64 : Z := 61.
Definition SYS_openat : Z := 56.
Definition SYS_gettimeofday : Z := 169.
Definition SYS_mmap : Z := 222.
Definition SYS_munmap : Z := 215.
Definition SYS_sched_yield : Z := 124.
Definition SYS_uname : Z := 160.
Definition SYS_unlinkat : Z := 35.
Definition SYS_mount : Z := 40.
Definition SYS_umount : Z := 39.
Definition SYS_times : Z := 153.
Definition SYS_getuid : Z := 174.
Definition SYS_setgid : Z := 144.
Definition SYS_setuid : Z := 146.
Definition SYS_geteuid : Z := 175.
Definition SYS_getgid : Z := 176.
Definition SYS_getegid : Z := 177.
Definition SYS_lseek : Z := 62.
Definition SYS_exit_group : Z := 94.
Definition SYS_clock_gettime : Z := 113.
Definition SYS_syslog : Z := 116.
Definition SYS_writev : Z := 66.
Definition SYS_readv : Z := 65.
Definition SYS_utimensat : Z := 88.
Definition SYS_ioctl : Z := 29.
Definition SYS_faccessat : Z := 48.
Definition SYS_fstatat : Z := 79.
Definition SYS_sendfile : Z := 71.
Definition SYS_fcntl : Z := 25.
Definition SYS_rt_sigaction : Z := 134.
Definition SYS_rt_sigprocmask : Z := 135.
Definition SYS_rt_sigreturn : Z := 139.
Definition SYS_renameat2 : Z := 276.
Definition SYS_getpgid : Z := 155.
Definition SYS_setpgid : Z := 154.
Definition SYS_tgkill : Z := 131.
Definition SYS_umask : Z := 166.
Definition SYS_readlinkat : Z := 78.
Definition SYS_rt_sigtimedwait : Z := 137.
Definition SYS_prlimit64 : Z := 261.
Definition SYS_statfs : Z := 43.
Definition SYS_pread : Z := 67.
Definition SYS_mprotect : Z := 226.
Definition SYS_sync : Z := 81.
Definition SYS_fsync : Z := 82.
Definition SYS_ftruncate : Z := 46.
Definition SYS_setitimer : Z := 103.
Definition SYS_copy_file_range : Z := 285.
Definition SYS_statx : Z := 291.
Definition SYS_set_tid_address : Z := 96.
Definition SYS_futex : Z := 98.
Definition SYS_ppoll : Z := 73.
Definition SYS_gettid : Z := 178.
Definition SYS_madvise : Z := 233.
Definition SYS_getrusage : Z := 165.
Definition SYS_tkill : Z := 130.

Definition PRMD_PPLV : Z := 3.
Definition PRMD_PIE : Z := Z.shiftl 1 2.
Definition CSR_ESTAT_ECODE : Z := Z.shiftl 0x3f 16.
Definition HWI_VEC : Z := 0x3fc.
Definition TI_VEC : Z := Z.shiftl 1 11.
Definition UART0_IRQ : Z := 2.
Definition CSR_TICLR_CLR : Z := 1.
Definition tf_kernel_sp : Z := 248.
Definition tf_kernel_trap : Z := 256.
Definition tf_kernel_hartid : Z := 272.
Definition tf_kernel_pgdl : Z := 280.

Definition sysnames : list (Z * string) :=
  [
    (SYS_fork, "fork"); (SYS_exit, "exit"); (SYS_wait, "wait"); (SYS_pipe, "pipe"); (SYS_read, "read");
    (SYS_kill, "kill"); (SYS_exec, "exec"); (SYS_execve, "execve"); (SYS_fstat, "fstat");
    (SYS_chdir, "chdir"); (SYS_dup, "dup"); (SYS_dup3, "dup3"); (SYS_getpid, "getpid"); (SYS_sbrk, "sbrk");
    (SYS_brk, "brk"); (SYS_sleep, "sleep"); (SYS_uptime, "uptime"); (SYS_open, "open"); (SYS_write, "write");
    (SYS_mkdir, "mkdir"); (SYS_close, "close"); (SYS_test_proc, "test_proc"); (SYS_dev, "dev");
    (SYS_readdir, "readdir"); (SYS_getcwd, "getcwd"); (SYS_remove, "remove"); (SYS_trace, "trace");
    (SYS_sysinfo, "sysinfo"); (SYS_rename, "rename"); (SYS_getppid, "getppid"); (SYS_mkdirat, "mkdirat");
    (SYS_nanosleep, "nanosleep"); (SYS_clone, "clone"); (SYS_pipe2, "pipe2"); (SYS_wait4, "wait4");
    (SYS_getdents64, "getdents64"); (SYS_openat, "openat"); (SYS_mmap, "mmap"); (SYS_munmap, "munmap");
    (SYS_uname, "uname"); (SYS_unlinkat, "unlinkat"); (SYS_mount, "mount"); (SYS_umount, "umount");
    (SYS_times, "times"); (SYS_getuid, "getuid"); (SYS_setgid, "setgid"); (SYS_setuid, "setuid");
    (SYS_geteuid, "geteuid"); (SYS_getgid, "getgid"); (SYS_getegid, "getegid"); (SYS_lseek, "lseek");
    (SYS_exit_group, "exit_group"); (SYS_set_tid_address, "set_tid_address"); (SYS_futex, "futex");
    (SYS_utimensat, "utimensat"); (SYS_clock_gettime, "clock_gettime"); (SYS_syslog, "syslog");
    (SYS_writev, "writev"); (SYS_readv, "readv"); (SYS_ioctl, "ioctl"); (SYS_faccessat, "faccessat");
    (SYS_fstatat, "fstatat"); (SYS_sendfile, "sendfile"); (SYS_fcntl, "fcntl");
    (SYS_rt_sigaction, "rt_sigaction"); (SYS_rt_sigprocmask, "rt_sigprocmask"); (SYS_renameat2, "renameat2");
    (SYS_ppoll, "ppoll"); (SYS_getpgid, "getpgid"); (SYS_setpgid, "setpgid"); (SYS_tgkill, "tgkill");
    (SYS_gettid, "gettid"); (SYS_umask, "umask"); (SYS_rt_sigtimedwait, "rt_sigtimedwait");
    (SYS_rt_sigtimedwait, "rt_sigtimedwait"); (SYS_rt_sigreturn, "rt_sigreturn");
    (SYS_prlimit64, "prlimit64"); (SYS_statfs, "statfs"); (SYS_pread, "pread"); (SYS_mprotect, "mprotect");
    (SYS_prlimit64, "prlimit64"); (SYS_statfs, "statfs"); (SYS_madvise, "madvise");
    (SYS_getrusage, "getrusage"); (SYS_setitimer, "setitimer"); (SYS_fsync, "fsync"); (SYS_sync, "sync");
    (SYS_ftruncate, "ftruncate"); (SYS_readlinkat, "readlinkat"); (SYS_tkill, "tkill");
    (SYS_copy_file_range, "copy_file_range"); (SYS_statx, "statx")]%string.

Fixpoint assoc {A} (n : Z) (l : list (Z * A)) : option A :=
  match l with
  | [] => None
  | (k, a) :: l' => if n =? k then Some a else assoc n l'
  end.

Section Syscall.
Variable rtime : nat -> Z.
Variables kernel_end trampoline signalTrampoline forkret_addr : Z.
Variables (lsr rhr : nat -> Z) (fuel cfuel dfuel nfuel sfuel : nat).
Variables (stack_buf value_addr ovalue_addr off_junk len_junk set_junk : Z).
Variables (kst_junk : kstat) (kst_tail : list Z) (st_junk : stat) (st_gap1 st_gap2 lde_junk : list Z).
Variables (buf_junk : nat -> Z) (sa_pad ts_junk uname_junk build_date : list Z).
(** Addresses from assembly code and of [usertrap]. *)
Variables kernelvec uservec usertrap_addr handle_tlbr handle_merr : Z.
Abbreviation say s ap := (sk (put_line lsr fuel s ap)).

Definition sys_yield : M ksys Z := _ ← sp yield; mret 0.

(** [syscalls] *)
Definition syscalls : list (Z * M ksys Z) :=
  [
   (SYS_fork, sk (sys_fork kernel_end trampoline signalTrampoline forkret_addr lsr fuel));
   (SYS_exit, sk (sys_exit kernel_end fuel cfuel dfuel));
   (SYS_wait, sk (sys_wait kernel_end fuel));
   (SYS_pipe, sk (sys_pipe kernel_end lsr fuel cfuel dfuel));
   (SYS_read, sk (sys_read lsr fuel));
   (SYS_kill, sk (sys_kill lsr fuel));
   (SYS_exec, sk (sys_exec kernel_end trampoline signalTrampoline lsr fuel cfuel dfuel nfuel));
   (SYS_execve, sk (sys_execve kernel_end trampoline signalTrampoline lsr fuel cfuel dfuel nfuel));
   (SYS_fstat, sk (sys_fstat lsr fuel kst_junk kst_tail));
   (SYS_chdir, sk (sys_chdir fuel cfuel dfuel));
   (SYS_dup, sk (sys_dup lsr fuel));
   (SYS_dup3, sk (sys_dup3 lsr fuel));
   (SYS_getpid, sk sys_getpid);
   (SYS_sbrk, sk (sys_sbrk kernel_end));
   (SYS_brk, sk (sys_brk kernel_end));
   (SYS_sleep, sys_sleep fuel);
   (SYS_uptime, sys_uptime);
   (SYS_open, sk (sys_open kernel_end fuel cfuel dfuel nfuel));
   (SYS_write, sk (sys_write lsr fuel));
   (SYS_mkdir, sk (sys_mkdir fuel cfuel dfuel nfuel));
   (SYS_close, sk (sys_close kernel_end lsr fuel cfuel dfuel));
   (SYS_test_proc, sys_test_proc lsr fuel);
   (SYS_dev, sk (sys_dev kernel_end fuel cfuel dfuel));
   (SYS_readdir, sk (sys_readdir lsr fuel dfuel st_junk st_gap1 st_gap2));
   (SYS_getcwd, sk (sys_getcwd dfuel));
   (SYS_remove, sk (sys_remove fuel cfuel dfuel));
   (SYS_trace, sk sys_trace);
   (SYS_sysinfo, sys_sysinfo rtime);
   (SYS_rename, sk (sys_rename fuel cfuel dfuel buf_junk off_junk));
   (SYS_getppid, sk sys_getppid);
   (SYS_mkdirat, sk (sys_mkdirat fuel cfuel dfuel nfuel));
   (SYS_nanosleep, sys_nanosleep lsr fuel);
   (SYS_clone, sk (sys_clone kernel_end trampoline signalTrampoline forkret_addr lsr fuel));
   (SYS_pipe2, sk (sys_pipe2 kernel_end lsr fuel cfuel dfuel));
   (SYS_wait4, sk (sys_wait4 kernel_end fuel));
   (SYS_getdents64, sk (sys_getdents64 lsr fuel dfuel lde_junk));
   (SYS_openat, sk (sys_openat kernel_end lsr fuel cfuel dfuel nfuel));
   (SYS_gettimeofday, sys_gettimeofday rtime);
   (SYS_mmap, sk (sys_mmap kernel_end lsr fuel));
   (SYS_munmap, sk sys_munmap);
   (SYS_sched_yield, sys_yield);
   (SYS_uname, sk (sys_uname uname_junk build_date));
   (SYS_unlinkat, sk (sys_unlinkat fuel cfuel dfuel));
   (SYS_mount, sk sys_mount);
   (SYS_umount, sk sys_umount);
   (SYS_times, sys_times);
   (SYS_getuid, sk sys_getuid);
   (SYS_setgid, sk sys_setgid);
   (SYS_setuid, sk sys_setuid);
   (SYS_geteuid, sk sys_geteuid);
   (SYS_getgid, sk sys_getgid);
   (SYS_getegid, sk sys_getegid);
   (SYS_lseek, sk (sys_lseek lsr fuel));
   (SYS_exit_group, sk sys_exit_group);
   (SYS_clock_gettime, sys_clock_gettime rtime ts_junk);
   (SYS_syslog, sys_syslog);
   (SYS_writev, sk (sys_writev lsr fuel));
   (SYS_readv, sk (sys_readv lsr fuel));
   (SYS_utimensat, sk (sys_utimensat fuel cfuel dfuel buf_junk));
   (SYS_ioctl, sk sys_ioctl);
   (SYS_faccessat, sk (sys_faccessat lsr fuel cfuel dfuel));
   (SYS_fstatat, sk (sys_fstatat lsr fuel cfuel dfuel kst_junk kst_tail));
   (SYS_sendfile, sk (sys_sendfile lsr fuel sfuel stack_buf));
   (SYS_fcntl, sk (sys_fcntl lsr fuel));
   (SYS_rt_sigaction, sk (sys_rt_sigaction lsr fuel sa_pad));
   (SYS_rt_sigprocmask, sk (sys_rt_sigprocmask lsr fuel set_junk));
   (SYS_rt_sigreturn, sk (sys_rt_sigreturn kernel_end));
   (SYS_renameat2, sk (sys_renameat2 lsr fuel cfuel dfuel buf_junk off_junk));
   (SYS_getpgid, sk sys_getpgid);
   (SYS_setpgid, sk sys_setpgid);
   (SYS_tgkill, sk (sys_tgkill lsr fuel));
   (SYS_umask, sk sys_umask);
   (SYS_readlinkat, sk (sys_readlinkat lsr fuel buf_junk));
   (SYS_rt_sigtimedwait, sk sys_rt_sigtimedwait);
   (SYS_prlimit64, sk sys_prlimit64);
   (SYS_statfs, sk (sys_statfs buf_junk));
   (SYS_pread, sk (sys_pread lsr fuel));
   (SYS_mprotect, sk sys_mprotect);
   (SYS_sync, sk sys_sync);
   (SYS_fsync, sk sys_fsync);
   (SYS_ftruncate, sk (sys_ftruncate lsr fuel cfuel));
   (SYS_setitimer, sys_setitimer lsr fuel value_addr ovalue_addr);
   (SYS_copy_file_range, sk (sys_copy_file_range kernel_end lsr fuel len_junk));
   (SYS_statx, sk (sys_statx kernel_end lsr fuel cfuel dfuel nfuel stack_buf kst_junk kst_tail))].

(** Shifts of an [int] take the low five bits of the count, as the machine's do. *)
Definition traced (tmask num : Z) : bool := truth (Z.land tmask (s32 (Z.shiftl 1 (num mod 32)))).
(** The array reaches up to [SYS_mkdir]. *)
Definition handler (num : Z) : option (M ksys Z) :=
  if (0 <? num) && (num <? SYS_mkdir + 1) then assoc num syscalls else None.
Definition syscall : M ksys unit :=
  p ← sk kcur;
  a7 ← sk (tf_load tf_a7);
  let num := s32 a7 in
  match handler num with
  | Some h =>
      r ← h;
      _ ← sk (tf_store tf_a0 r);
      pr ← rd (syp ⊚ proc_l p);
      when (traced (p_tmask pr) num)
        (a0 ← sk (tf_load tf_a0);
         say "pid %d: %s -> %d"
           [VInt (p_pid pr); VStr (literal <$> assoc num sysnames); VInt a0])
  | None =>
      pr ← rd (syp ⊚ proc_l p);
      _ ← say "pid %d %s: unknown sys call %d" [VInt (p_pid pr); VStr (Some (p_name pr)); VInt num];
      sk (tf_store tf_a0 IERR)
  end.

(** * Interrupts *)

Abbreviation csr l := (sy_csr_l ⊚ l).

Definition trapinit : M ksys unit :=
  _ ← sy_tickslock_l <~ Spin 0 "time" None;
  _ ← csr cs_ecfg_l <~ Z.lor HWI_VEC TI_VEC;
  _ ← csr cs_eentry_l <~ kernelvec;
  _ ← csr cs_tlbrentry_l <~ handle_tlbr;
  _ ← csr cs_merrentry_l <~ handle_merr;
  _ ← countdown_timer_init;
  sp (zoom hart_l intr_on).

Definition clockintr : M ksys unit :=
  _ ← acquire (syp ⊚ hart_l) sy_tickslock_l;
  _ ← md sy_ticks_l (fun t => u32 (t + 1));
  _ ← sp (wakeup CTicks);
  release (syp ⊚ hart_l) sy_tickslock_l.

(** 2 for the timer, 1 for another device, 0 for neither. *)
Definition devintr : M ksys Z :=
  estat ← rd (csr cs_estat_l); ecfg ← rd (csr cs_ecfg_l);
  let estat := u32 estat in
  let ecfg := u32 ecfg in
  let pending := Z.land estat ecfg in
  if truth (Z.land pending HWI_VEC) then
    _ ← (if truth (Z.land pending (Z.shiftl 1 UART0_IRQ)) then zoom sycn (uartintr lsr rhr fuel)
         else say "unexpected interrupt estate %x, ecfg %x " [VInt estat; VInt ecfg]);
    mret 1
  else if truth (Z.land pending TI_VEC) then
    id ← sp (zoom hart_l cpuid);
    _ ← when (id =? 0)%nat (_ ← clockintr; zoom sycn (uartintr lsr rhr fuel));
    _ ← md (csr cs_ticlr_l) (fun t => Z.lor t CSR_TICLR_CLR);
    mret 2
  else mret 0.

(** The registers in the order they are printed, and what follows each. *)
Definition dumped : list (string * Z * Z) :=
  [("a0", 24, 9); ("a1", 32, 9); ("a2", 40, 9); ("a3", 48, 10); ("a4", 56, 9); ("a5", 64, 9); ("a6", 72, 9);
   ("a7", 80, 10); ("t0", 88, 9); ("t1", 96, 9); ("t2", 104, 9); ("t3", 112, 10); ("t4", 120, 9);
   ("t5", 128, 9); ("t6", 136, 9); ("t7", 144, 10); ("t8", 152, 9); ("s0", 176, 10); ("s1", 184, 9);
   ("s2", 192, 9); ("s3", 200, 9); ("s4", 208, 10); ("s5", 216, 9); ("s6", 224, 9); ("s7", 232, 9);
   ("s8", 240, 10); ("ra", 0, 10); ("sp", 16, 9); ("tp", 8, 9); ("fp", 168, 10); ("r21", 160, 10);
   ("era", 264, 10)]%string.
Definition trapframedump : M ksys unit :=
  for_each dumped (fun '(name, off, sep) =>
    v ← sk (tf_load off);
    zoom sycn (printf lsr fuel (Some (chars name ++ chars ": %p" ++ [sep; 0])) [VInt v])).

(** * Traps *)

(** The arguments of [userret]. *)
Definition usertrapret : M ksys (Z * Z) :=
  p ← sk kcur;
  _ ← sp (zoom hart_l intr_off);
  _ ← csr cs_eentry_l <~ uservec;
  pgdl ← rd (csr cs_pgdl_l);
  _ ← sk (tf_store tf_kernel_pgdl pgdl);
  kstack ← sk (mine p_kstack_l);
  _ ← sk (tf_store tf_kernel_sp (u64 (kstack + KSTACKSIZE)));
  _ ← sk (tf_store tf_kernel_trap usertrap_addr);
  tp ← sp (zoom hart_l cpuid);
  _ ← sk (tf_store tf_kernel_hartid (Z.of_nat tp));
  _ ← md (csr cs_prmd_l) (fun x => Z.lor (Z.lor (u32 x) PRMD_PPLV) PRMD_PIE);
  era ← sk (tf_load tf_era);
  _ ← csr cs_era_l <~ era;
  pt ← sk (mine p_pagetable_l);
  mret (TRAPFRAME, pt).

(** A fault that is neither a system call, a page fault nor an interrupt. *)
Definition unexpected_trap (p : nat) : M ksys unit :=
  c ← rd sy_csr_l;
  pt ← sk (mine p_pagetable_l);
  _ ← sp (kmem (copyin_bytes pt (cs_era c) 8));
  pid ← rd (syp ⊚ (proc_l p ⊚ p_pid_l));
  _ ← say "usertrap(): unexpected trapcause %x pid=%d" [VInt (cs_estat c); VInt pid];
  _ ← say "            era=%p badi=%x" [VInt (cs_era c); VInt (cs_badi c)];
  _ ← trapframedump;
  syp ⊚ (proc_l p ⊚ p_killed_l) <~ 1.
(** What it handles, [which_dev]. *)
Definition usertrap_cause (p : nat) : M ksys Z :=
  estat ← rd (csr cs_estat_l);
  let ecode := Z.shiftr (Z.land estat CSR_ESTAT_ECODE) 16 in
  if ecode =? 0xb then
    k ← rd (syp ⊚ (proc_l p ⊚ p_killed_l));
    _ ← when (truth k) (sk (exit kernel_end fuel cfuel dfuel (-1)));
    era ← sk (tf_load tf_era);
    _ ← sk (tf_store tf_era (u64 (era + 4)));
    _ ← sp (zoom hart_l intr_on);
    _ ← syscall;
    mret 0
  else if (ecode =? 1) || (ecode =? 2) then
    _ ← say "usertrap():handle stack page fault" []; mret 0
  else
    which_dev ← devintr;
    _ ← when (which_dev =? 0) (unexpected_trap p);
    mret which_dev.
Definition usertrap : M ksys (Z * Z) :=
  prmd ← rd (csr cs_prmd_l);
  if Z.land prmd PRMD_PPLV =? 0 then panic "usertrap: not from user mode"
  else
    _ ← csr cs_eentry_l <~ kernelvec;
    p ← sk kcur;
    era ← rd (csr cs_era_l);
    _ ← sk (tf_store tf_era era);
    which_dev ← usertrap_cause p;
    k ← rd (syp ⊚ (proc_l p ⊚ p_killed_l));
    _ ← when (truth k) (sk (exit kernel_end fuel cfuel dfuel (-1)));
    _ ← when (which_dev =? 2) (_ ← sp yield; md (syp ⊚ (proc_l p ⊚ p_utime_l)) (fun t => s32 (t + 1)));
    usertrapret.

Definition kerneltrap : M ksys unit :=
  era ← rd (csr cs_era_l);
  prmd ← rd (csr cs_prmd_l);
  if negb (Z.land prmd PRMD_PPLV =? 0) then panic "kerneltrap: not from privilege0"
  else
    ie ← sp (zoom hart_l intr_get);
    if negb (ie =? 0) then panic "kerneltrap: interrupts enabled"
    else
      which_dev ← devintr;
      if which_dev =? 0 then
        c ← rd sy_csr_l;
        _ ← say "estat %x" [VInt (cs_estat c)];
        _ ← say "era=%p eentry=%p" [VInt (cs_era c); VInt (cs_eentry c)];
        panic "kerneltrap"
      else
        o ← sp (zoom hart_l myproc);
        _ ← match o with
            | Some p =>
                when (which_dev =? 2)
                  (_ ← md (syp ⊚ (proc_l p ⊚ p_ktime_l)) (fun t => s32 (t + 1));
                   st ← rd (syp ⊚ (proc_l p ⊚ p_state_l));
                   when (bool_decide (st = RUNNING)) (sp yield))
            | None => mret tt
            end;
        _ ← csr cs_era_l <~ era;
        csr cs_prmd_l <~ prmd.
Definition machine_trap : M ksys unit := panic "machine error".

(** The first thing a new process does in the kernel. *)
Definition forkret : M ksys (Z * Z) :=
  p ← sk kcur;
  _ ← sp (punlock p);
  first ← rd (syp ⊚ s_first_l);
  _ ← when (first : bool)
        (_ ← syp ⊚ s_first_l <~ false;
         _ ← sk (zoom kfs (fat32_init fuel));
         e ← sk (zoom kfs (ename fuel cfuel dfuel (literal "/")));
         p ← sk kcur;
         syp ⊚ (proc_l p ⊚ p_cwd_l) <~ e);
  usertrapret.
End Syscall.
