(* ===== verification/TrapFacts.v ===== *)
(** A system call from the trap to the return: what [usertrap] does around the
    handler of the call. *)

From S2P Require Import Prelude Mem Strings Digits Locks Kalloc Vm PageTable VmProps ProcState Vma Proc ProcFacts SchedFacts Sleeplock Bio Circ UserMem Pipe FatName Fat FatDir Console File Args ProcLife SysFile Mmap Signal Exec Timer SysProc Syscall.

(** * The processor, the memory and the control registers of a state *)

Definition khart_l : lens ksys hart := syp ⊚ hart_l.
Definition kmem_l : lens ksys mem := syp ⊚ mem_l.
Definition at_state (s : ksys) (h : hart) (m : mem) (c : csrs) : ksys :=
  update sy_csr_l c (update kmem_l m (update khart_l h s)).
Definition kproc (p : nat) (s : ksys) : proc := view (syp ⊚ proc_l p) s.

Lemma at_state_self s : at_state s (view khart_l s) (view kmem_l s) (sy_csr s) = s.
Proof. by destruct s as [[[[] ? ? ? ? ? ?] ? ? ? ? ? ? ?] ? ? ? ? ? ? ? ?]. Qed.
Lemma at_state_hart s h m c : view khart_l (at_state s h m c) = h.
Proof. done. Qed.

(** Interrupts switched on, and off. *)
Definition on (h : hart) : hart := update h_crmd_l (Z.lor (h_crmd h) CSR_CRMD_IE) h.
Definition off (h : hart) : hart := update h_crmd_l (Z.land (h_crmd h) (Z.lnot CSR_CRMD_IE)) h.

Lemma myproc_calm h : calm h -> myproc h = Ret (c_proc (view mycpu_l h)) (crit h).
Proof.
  intros [Hok Hn]. pose proof (pushed_ok h Hok Hn) as [Hok' Hn']. pose proof (ok_noff _ Hok).
  unfold myproc. rewrite (bind_ret _ _ _ _ _ (push_off_eq h (ok_tp _ Hok))).
  rewrite (bind_ret (rd (mycpu_l ⊚ c_proc_l)) _ _ (c_proc (view mycpu_l h)) (pushed h)).
  - by rewrite (bind_ret _ _ _ _ _ (pop_off_eq (pushed h) Hok' ltac:(lia))).
  - unfold rd, gets. f_equal. apply pushed_proc, Hok.
Qed.
Lemma calm_on h : calm h -> c_noff (view mycpu_l h) = 0 -> calm (on h).
Proof.
  intros [[H1 H2 H3 H4] Hn] H0. split; [split|exact Hn]; [exact H1|exact H2| |].
  - apply (lor_range _ _ 32); [done|exact H3|done].
  - change (0 < c_noff (view mycpu_l h) -> Z.land (h_crmd (on h)) CSR_CRMD_IE = 0). lia.
Qed.
Lemma calm_off h : calm h -> calm (off h).
Proof.
  intros [[H1 H2 H3 H4] Hn]. split; [split|exact Hn]; [exact H1|exact H2| |].
  - simpl. split; [apply Z.land_nonneg; lia|]. eapply Z.le_lt_trans; [apply land_le; lia|apply H3].
  - intros _. apply land_ie_off.
Qed.
Lemma crit_proc h : calm h -> c_proc (view mycpu_l (crit h)) = c_proc (view mycpu_l h).
Proof. intros [Hok Hn]. rewrite crit_eq by done. rewrite view_mycpu_update; [done|apply Hok]. Qed.
Lemma crit_crmd h : calm h -> h_crmd (crit h) = h_crmd h.
Proof. intros [Hok Hn]. by rewrite crit_eq by done. Qed.

(** * One step of the trap code *)

Section Steps.
Variables (s : ksys) (p : nat) (h : hart) (m : mem) (c : csrs).
Hypothesis self : c_proc (view mycpu_l h) = Some p.
Abbreviation tf := (p_trapframe (kproc p s)).

Lemma wp_kcur_kern (k : kern) Q : calm (view (kn_p_l ⊚ hart_l) k) ->
  c_proc (view mycpu_l (view (kn_p_l ⊚ hart_l) k)) = Some p ->
  Q p (update (kn_p_l ⊚ hart_l) (crit (view (kn_p_l ⊚ hart_l) k)) k) -> wp kcur Q k.
Proof using Type.
  intros Hh Hp HQ. unfold kcur. apply wp_zoom. unfold cur. apply wp_bind, wp_zoom, wp_inv.
  eexists _, _. split; [by apply myproc_calm|]. cbn beta.
  change (view hart_l (view kn_p_l k)) with (view (kn_p_l ⊚ hart_l) k). rewrite Hp. exact HQ.
Qed.
Lemma wp_kcur_calm Q : calm h -> Q p (at_state s (crit h) m c) -> wp (zoom sy_k_l kcur) Q (at_state s h m c).
Proof using self. intros Hh HQ. by apply wp_zoom, wp_kcur_kern. Qed.
Lemma wp_mine_calm {T} (l : lens proc T) Q : calm h -> Q (view l (kproc p s)) (at_state s (crit h) m c) ->
  wp (zoom sy_k_l (mine l)) Q (at_state s h m c).
Proof using self. intros Hh HQ. apply wp_zoom, wp_bind. by apply wp_kcur_kern. Qed.
Lemma wp_tf_load_calm o Q : calm h -> Q (rd64 m (tf + o)) (at_state s (crit h) m c) ->
  wp (zoom sy_k_l (tf_load o)) Q (at_state s h m c).
Proof using self. intros Hh HQ. apply wp_zoom, wp_bind, wp_bind. by apply wp_kcur_kern. Qed.
Lemma wp_tf_store_calm o v Q : calm h -> Q tt (at_state s (crit h) (wr64 m (tf + o) v) c) ->
  wp (zoom sy_k_l (tf_store o v)) Q (at_state s h m c).
Proof using self. intros Hh HQ. apply wp_zoom, wp_bind, wp_bind. by apply wp_kcur_kern. Qed.
End Steps.

Lemma settled_eq h : settled h -> crit h = h.
Proof. by intros [_ ?]. Qed.
Lemma off_proc h : c_proc (view mycpu_l (off h)) = c_proc (view mycpu_l h).
Proof. done. Qed.
Lemma wp_csr {T} (l : lens csrs T) v s h m c (Q : unit -> ksys -> Prop) :
  Q tt (at_state s h m (update l v c)) -> wp (wr (sy_csr_l ⊚ l) v) Q (at_state s h m c).
Proof. done. Qed.
Lemma rd64_u64 m a : u64 (rd64 m a) = rd64 m a.
Proof. apply u64_small, rd64_range. Qed.

(** [m'] is [m] but for the words at the offsets [l] of [tf]. *)
Definition but_words (tf : Z) (l : list Z) (m m' : mem) : Prop :=
  forall b, (forall o, o ∈ l -> ~ (tf + o <= b < tf + o + 8)) -> rd8 m' b = rd8 m b.
Lemma but_words_wr tf o l m m' v : o ∈ l -> but_words tf l m m' -> but_words tf l m (wr64 m' (tf + o) v).
Proof.
  intros Ho H b Hb. rewrite <- (H b Hb). apply rd8_wrn_out. apply (Hb o Ho).
Qed.

(** * The whole way *)

(** Where the handler of a call starts: the processor takes interrupts, the
    vector is the kernel's, and the trapframe holds the address behind the
    instruction that trapped. *)
Definition entered (kernelvec : Z) (p : nat) (s : ksys) : ksys :=
  let a := p_trapframe (kproc p s) + tf_era in
  let m := wr64 (view kmem_l s) a (cs_era (sy_csr s)) in
  at_state s (crit (on (view khart_l s))) (wr64 m a (u64 (rd64 m a + 4)))
    (update cs_eentry_l kernelvec (sy_csr s)).

(** The state [s'] process [p] goes back to its program in, from the state [s]
    the kernel's work for it has ended in; of its trapframe the words [ws] have
    been written besides those for the next trap. *)
Record back_to_user (uservec usertrap_addr : Z) (p : nat) (ws : list Z) (s s' : ksys) : Prop := {
  bu_same : s' = at_state s (crit (off (view khart_l s))) (view kmem_l s') (sy_csr s');
  bu_masked : Z.land (h_crmd (view khart_l s')) CSR_CRMD_IE = 0;
  bu_csr : sy_csr s' = update cs_era_l (rd64 (view kmem_l s) (p_trapframe (kproc p s) + tf_era))
     (update cs_prmd_l (Z.lor (Z.lor (u32 (cs_prmd (sy_csr s))) PRMD_PPLV) PRMD_PIE)
       (update cs_eentry_l uservec (sy_csr s)));
  bu_sp : rd64 (view kmem_l s') (p_trapframe (kproc p s) + tf_kernel_sp) = u64 (p_kstack (kproc p s) + KSTACKSIZE);
  bu_trap : rd64 (view kmem_l s') (p_trapframe (kproc p s) + tf_kernel_trap) = u64 usertrap_addr;
  bu_hartid : rd64 (view kmem_l s') (p_trapframe (kproc p s) + tf_kernel_hartid) = u64 (Z.of_nat (h_tp (view khart_l s)));
  bu_pgdl : rd64 (view kmem_l s') (p_trapframe (kproc p s) + tf_kernel_pgdl) = u64 (cs_pgdl (sy_csr s));
  bu_rest : but_words (p_trapframe (kproc p s))
     (ws ++ [tf_kernel_sp; tf_kernel_trap; tf_kernel_hartid; tf_kernel_pgdl]) (view kmem_l s) (view kmem_l s')
}.

Lemma era_bumped e : u64 (u64 e + 4) = u64 (e + 4).
Proof. unfold u64. by rewrite Zplus_mod_idemp_l. Qed.

(** What [usertrapret] makes of the state the handler left. *)
Lemma back_ok uservec usertrap_addr s p ws m1 (tf := p_trapframe (kproc p s)) h :
  h = view khart_l s -> but_words tf (ws ++ [tf_kernel_sp; tf_kernel_trap; tf_kernel_hartid; tf_kernel_pgdl]) (view kmem_l s) m1 ->
  rd64 m1 (tf + tf_era) = rd64 (view kmem_l s) (tf + tf_era) ->
  let m2 := wr64 m1 (tf + tf_kernel_pgdl) (cs_pgdl (sy_csr s)) in
  let m3 := wr64 m2 (tf + tf_kernel_sp) (u64 (p_kstack (kproc p s) + KSTACKSIZE)) in
  let m4 := wr64 m3 (tf + tf_kernel_trap) usertrap_addr in
  let m5 := wr64 m4 (tf + tf_kernel_hartid) (Z.of_nat (h_tp h)) in
  calm h ->
  back_to_user uservec usertrap_addr p ws s (at_state s (crit (off h)) m5
    (update cs_era_l (rd64 m5 (tf + tf_era))
      (update cs_prmd_l (Z.lor (Z.lor (u32 (cs_prmd (sy_csr s))) PRMD_PPLV) PRMD_PIE)
        (update cs_eentry_l uservec (sy_csr s))))).
Proof.
  intros -> Hm1 He m2 m3 m4 m5 Hh. pose proof (calm_off _ Hh) as Ho.
  assert (tf_era = 264) as Ee by done. unfold tf_kernel_pgdl, tf_kernel_sp, tf_kernel_trap, tf_kernel_hartid in *.
  split; fold tf; change (view kmem_l (at_state s _ ?m _)) with m.
  - done.
  - change (view khart_l _) with (crit (off (view khart_l s))). rewrite crit_crmd by done. apply land_ie_off.
  - change (sy_csr (at_state s _ _ ?c)) with c. f_equal. rewrite <- He. unfold m5, m4, m3, m2. rewrite Ee.
    by rewrite !rd64_wr64_ne by lia.
  - unfold m5, m4, m3, tf_kernel_sp. rewrite !rd64_wr64_ne by lia. rewrite rd64_wr64_eq. apply u64_small, u64_range.
  - unfold m5, m4, tf_kernel_trap. rewrite !rd64_wr64_ne by lia. apply rd64_wr64_eq.
  - unfold m5, tf_kernel_hartid. apply rd64_wr64_eq.
  - unfold m5, m4, m3, m2, tf_kernel_pgdl. rewrite !rd64_wr64_ne by lia. apply rd64_wr64_eq.
  - unfold m5, m4, m3, m2. unfold tf_kernel_sp, tf_kernel_trap, tf_kernel_hartid, tf_kernel_pgdl.
    do 4 (apply but_words_wr; [by apply elem_of_app; right; repeat (apply list_elem_of_here || apply list_elem_of_further)|]).
    exact Hm1.
Qed.
Section Trap.
Variable rtime : nat -> Z.
Variables kernel_end trampoline signalTrampoline forkret_addr : Z.
Variables (lsr rhr : nat -> Z) (fuel cfuel dfuel nfuel sfuel : nat).
Variables (stack_buf value_addr ovalue_addr off_junk len_junk set_junk : Z).
Variables (kst_junk : kstat) (kst_tail : list Z) (st_junk : stat) (st_gap1 st_gap2 lde_junk : list Z).
Variables (buf_junk : nat -> Z) (sa_pad ts_junk uname_junk build_date : list Z).
Variables kernelvec uservec usertrap_addr : Z.
Abbreviation trap := (usertrap rtime kernel_end trampoline signalTrampoline forkret_addr lsr rhr fuel cfuel dfuel
  nfuel sfuel stack_buf value_addr ovalue_addr off_junk len_junk set_junk kst_junk kst_tail st_junk st_gap1
  st_gap2 lde_junk buf_junk sa_pad ts_junk uname_junk build_date kernelvec uservec usertrap_addr).
Abbreviation call := (syscall rtime kernel_end trampoline signalTrampoline forkret_addr lsr fuel cfuel dfuel
  nfuel sfuel stack_buf value_addr ovalue_addr off_junk len_junk set_junk kst_junk kst_tail st_junk st_gap1
  st_gap2 lde_junk buf_junk sa_pad ts_junk uname_junk build_date).
Abbreviation handler_of := (handler rtime kernel_end trampoline signalTrampoline forkret_addr lsr fuel cfuel dfuel
  nfuel sfuel stack_buf value_addr ovalue_addr off_junk len_junk set_junk kst_junk kst_tail st_junk st_gap1
  st_gap2 lde_junk buf_junk sa_pad ts_junk uname_junk build_date).

(** The way back, from any state. *)
Lemma wp_usertrapret s p h m c (Q : Z * Z -> ksys -> Prop) : settled h -> c_proc (view mycpu_l h) = Some p ->
  let tf := p_trapframe (kproc p s) in
  let m1 := wr64 m (tf + tf_kernel_pgdl) (cs_pgdl c) in
  let m2 := wr64 m1 (tf + tf_kernel_sp) (u64 (p_kstack (kproc p s) + KSTACKSIZE)) in
  let m3 := wr64 m2 (tf + tf_kernel_trap) usertrap_addr in
  let m4 := wr64 m3 (tf + tf_kernel_hartid) (Z.of_nat (h_tp h)) in
  Q (TRAPFRAME, p_pagetable (kproc p s)) (at_state s (crit (off h)) m4
     (update cs_era_l (rd64 m4 (tf + tf_era))
       (update cs_prmd_l (Z.lor (Z.lor (u32 (cs_prmd c)) PRMD_PPLV) PRMD_PIE) (update cs_eentry_l uservec c)))) ->
  wp (usertrapret uservec usertrap_addr) Q (at_state s h m c).
Proof using Type.
  intros Hs Hp tf m1 m2 m3 m4 HQ. pose proof (calm_off h (proj1 Hs)) as Ho.
  pose proof (settled_crit _ Ho) as Hos. pose proof (crit_proc _ Ho) as Hop. rewrite off_proc, Hp in Hop.
  assert (h_tp (crit (off h)) = h_tp h) as Htp by done.
  unfold usertrapret. apply wp_bind, (wp_kcur_calm s p); [done|apply Hs|]. rewrite (settled_eq h) by done.
  apply wp_bind, wp_zoom, wp_zoom, wp_md. fold (off h).
  apply wp_bind.
  change (wp (wr (sy_csr_l ⊚ cs_eentry_l) uservec) ?R _) with (wp (wr (sy_csr_l ⊚ cs_eentry_l) uservec) R (at_state s (off h) m c)).
  apply wp_csr. apply wp_bind, wp_rd.
  apply wp_bind, (wp_tf_store_calm s p); [by rewrite off_proc|done|].
  apply wp_bind, (wp_mine_calm s p); [done|apply Hos|]. rewrite (settled_eq _ Hos).
  apply wp_bind, (wp_tf_store_calm s p); [done|apply Hos|]. rewrite (settled_eq _ Hos).
  apply wp_bind, (wp_tf_store_calm s p); [done|apply Hos|]. rewrite (settled_eq _ Hos).
  apply wp_bind, wp_zoom, wp_zoom, wp_inv. eexists _, _. split; [done|].
  apply wp_bind, (wp_tf_store_calm s p _ _ _ Hop); [apply Hos|]. rewrite (settled_eq _ Hos).
  apply wp_bind, wp_md.
  apply wp_bind, (wp_tf_load_calm s p _ _ _ Hop); [apply Hos|]. rewrite (settled_eq _ Hos).
  apply wp_bind, wp_csr.
  apply wp_bind, (wp_mine_calm s p _ _ _ Hop); [apply Hos|]. rewrite (settled_eq _ Hos).
  exact HQ.
Qed.

Abbreviation cause := (usertrap_cause rtime kernel_end trampoline signalTrampoline forkret_addr lsr rhr fuel cfuel
  dfuel nfuel sfuel stack_buf value_addr ovalue_addr off_junk len_junk set_junk kst_junk kst_tail st_junk st_gap1
  st_gap2 lde_junk buf_junk sa_pad ts_junk uname_junk build_date).

(** A call that is in the table and not traced. *)
Lemma wp_syscall_known s p h m c hd r s2 (Q : unit -> ksys -> Prop) :
  calm h -> c_proc (view mycpu_l h) = Some p ->
  handler_of (s32 (rd64 m (p_trapframe (kproc p s) + tf_a7))) = Some hd ->
  hd (at_state s (crit h) m c) = Ret r s2 ->
  settled (view khart_l s2) -> c_proc (view mycpu_l (view khart_l s2)) = Some p ->
  traced (p_tmask (kproc p s2)) (s32 (rd64 m (p_trapframe (kproc p s) + tf_a7))) = false ->
  Q tt (at_state s2 (view khart_l s2) (wr64 (view kmem_l s2) (p_trapframe (kproc p s2) + tf_a0) r) (sy_csr s2)) ->
  wp call Q (at_state s h m c).
Proof using Type.
  intros Hh Hp Hhd Hr Hs2 Hp2 Ht HQ. pose proof (settled_crit h Hh) as Hc. pose proof (crit_proc h Hh) as Hcp.
  rewrite Hp in Hcp. unfold syscall.
  apply wp_bind, (wp_kcur_calm s p _ _ _ Hp); [done|].
  apply wp_bind, (wp_tf_load_calm s p _ _ _ Hcp); [apply Hc|]. rewrite (settled_eq _ Hc). cbv zeta.
  rewrite Hhd. apply wp_bind, wp_inv. exists r, s2. split; [done|].
  rewrite <- (at_state_self s2) at 1.
  apply wp_bind, (wp_tf_store_calm s2 p _ _ _ Hp2); [apply Hs2|]. rewrite (settled_eq _ Hs2).
  apply wp_bind, wp_rd.
  change (view (syp ⊚ proc_l p) (at_state s2 _ _ _)) with (kproc p s2). rewrite Ht. exact HQ.
Qed.

(** The branch of [usertrap] for system calls. *)
Lemma wp_cause_call s p h m c hd r s2 (tf := p_trapframe (kproc p s))
    (m1 := wr64 m (tf + tf_era) (u64 (rd64 m (tf + tf_era) + 4))) (num := s32 (rd64 m (tf + tf_a7)))
    (Q : Z -> ksys -> Prop) :
  settled h -> c_noff (view mycpu_l h) = 0 -> c_proc (view mycpu_l h) = Some p -> p_killed (kproc p s) = 0 ->
  Z.shiftr (Z.land (cs_estat c) CSR_ESTAT_ECODE) 16 = 0xb ->
  handler_of num = Some hd -> hd (at_state s (crit (on h)) m1 c) = Ret r s2 ->
  settled (view khart_l s2) -> c_proc (view mycpu_l (view khart_l s2)) = Some p ->
  traced (p_tmask (kproc p s2)) num = false ->
  Q 0 (at_state s2 (view khart_l s2) (wr64 (view kmem_l s2) (p_trapframe (kproc p s2) + tf_a0) r) (sy_csr s2)) ->
  wp (cause p) Q (at_state s h m c).
Proof using Type.
  intros Hs H0 Hp Hk Hcode Hhd Hr Hs2 Hp2 Ht HQ.
  pose proof (calm_on _ (proj1 Hs) H0) as Hon. unfold usertrap_cause.
  apply wp_bind, wp_rd. change (view (sy_csr_l ⊚ cs_estat_l) (at_state s h m c)) with (cs_estat c). cbv zeta.
  rewrite Hcode. change (0xb =? 0xb) with true. cbv iota.
  apply wp_bind, wp_rd. change (view _ (at_state s h m c)) with (p_killed (kproc p s)). rewrite Hk.
  apply wp_bind, wp_mret.
  apply wp_bind, (wp_tf_load_calm s p _ _ _ Hp); [apply Hs|]. rewrite (settled_eq _ Hs).
  apply wp_bind, (wp_tf_store_calm s p _ _ _ Hp); [apply Hs|]. rewrite (settled_eq _ Hs).
  fold tf. fold m1. apply wp_bind, wp_zoom, wp_zoom, wp_md.
  assert (s32 (rd64 m1 (tf + tf_a7)) = num) as En.
  { unfold num, m1. rewrite rd64_wr64_ne; [done|]. unfold tf_a7, tf_era. clear. lia. }
  change (update syp _ _) with (at_state s (on h) m1 c).
  apply wp_bind, (wp_syscall_known s p (on h) m1 c hd r s2); fold tf; rewrite ?En; try done.
Qed.

(** C1. A system call whose handler returns runs it once, with interrupts on and the program
    counter of the program behind the instruction that trapped; the program
    goes on where the trapframe then says, in user mode with interrupts on, and
    finds the handler's result in [a0] and every other register as the handler
    left it; the trapframe is set up for the next trap and the kernel's state
    is the handler's. *)
Theorem usertrap_syscall s p hd r s2 (num := s32 (rd64 (view kmem_l s) (p_trapframe (kproc p s) + tf_a7))) :
  settled (view khart_l s) -> c_noff (view mycpu_l (view khart_l s)) = 0 ->
  c_proc (view mycpu_l (view khart_l s)) = Some p -> p_killed (kproc p s) = 0 ->
  Z.land (cs_prmd (sy_csr s)) PRMD_PPLV <> 0 ->
  Z.shiftr (Z.land (cs_estat (sy_csr s)) CSR_ESTAT_ECODE) 16 = 0xb ->
  handler_of num = Some hd -> hd (entered kernelvec p s) = Ret r s2 ->
  settled (view khart_l s2) -> c_proc (view mycpu_l (view khart_l s2)) = Some p ->
  p_killed (kproc p s2) = 0 -> traced (p_tmask (kproc p s2)) num = false ->
  exists s3, trap s = Ret (TRAPFRAME, p_pagetable (kproc p s2)) s3
    /\ rd64 (view kmem_l s3) (p_trapframe (kproc p s2) + tf_a0) = u64 r
    /\ back_to_user uservec usertrap_addr p [tf_a0] s2 s3.
Proof using Type.
  intros Hs H0 Hp Hk Hmode Hcode Hhd Hr Hs2 Hp2 Hk2 Ht.
  cut (wp trap (fun a s3 => a = (TRAPFRAME, p_pagetable (kproc p s2))
    /\ rd64 (view kmem_l s3) (p_trapframe (kproc p s2) + tf_a0) = u64 r
    /\ back_to_user uservec usertrap_addr p [tf_a0] s2 s3) s).
  { intros (a & s3 & E & -> & HB)%wp_inv. eauto. }
  unfold usertrap.
  apply wp_bind, wp_rd. change (view (sy_csr_l ⊚ cs_prmd_l) s) with (cs_prmd (sy_csr s)).
  rewrite (proj2 (Z.eqb_neq _ _) Hmode). rewrite <- (at_state_self s) at 1. apply wp_bind, wp_csr.
  apply wp_bind, (wp_kcur_calm s p _ _ _ Hp); [apply Hs|]. rewrite (settled_eq _ Hs).
  apply wp_bind, wp_rd. change (view (sy_csr_l ⊚ cs_era_l) (at_state s _ _ _)) with (cs_era (sy_csr s)).
  apply wp_bind, (wp_tf_store_calm s p _ _ _ Hp); [apply Hs|]. rewrite (settled_eq _ Hs).
  set (tf := p_trapframe (kproc p s)) in *.
  apply wp_bind, (wp_cause_call s p _ _ _ hd r s2); fold tf; try done.
  { rewrite rd64_wr64_ne; [done|]. unfold tf_a7, tf_era. clear. lia. }
  { rewrite rd64_wr64_ne; [done|]. unfold tf_a7, tf_era. clear. lia. }
  apply wp_bind, wp_rd. change (view _ (at_state s2 _ _ _)) with (p_killed (kproc p s2)) at 1. rewrite Hk2.
  apply wp_bind, wp_mret. apply wp_bind, wp_mret.
  apply (wp_usertrapret s2 p); [done|done|]. split; [done|]. split.
  - change (view kmem_l (at_state _ _ ?m _)) with m. unfold tf_kernel_pgdl, tf_kernel_sp, tf_kernel_trap, tf_kernel_hartid, tf_a0.
    rewrite !rd64_wr64_ne by (clear; lia). apply rd64_wr64_eq.
  - apply (back_ok _ _ s2 p [tf_a0] _ _ eq_refl); [| |apply Hs2].
    + apply but_words_wr; [apply list_elem_of_here|by intros b _].
    + apply rd64_wr64_ne. unfold tf_a0, tf_era. clear. lia.
Qed.
End Trap.

(** * An example: [getpid] *)

Definition trap_frame : Z := 0x90100000.
Definition trap_kern : kern :=
  update (kn_p_l ⊚ mem_l) (wr64 ∅ (trap_frame + tf_a7) SYS_getpid)
    (update (kn_p_l ⊚ (proc_l 0 ⊚ p_trapframe_l)) trap_frame demo_kern).
Definition trap_ksys : ksys :=
  Ksys trap_kern (Spin 0 "time" None) 0 ∅ 0 [] 0 0
    (Csrs 3 0x1000 (Z.shiftl 0xb 16) 0 0 0x90200000 0 0 0 0 0 0).
Definition trap_in : ksys := entered 0x9000 0 trap_ksys.
Definition no_stat : stat := Stat [] 0 0 0.
Definition no_kstat : kstat := Kstat 0 0 0 0 0 0 0 0 0 0 0 0 0 0 0 0 0 0.

Lemma trap_in_settled : settled (view khart_l trap_in).
Proof. apply settled_crit, calm_on; [apply (run_hart_ok 0)|done]. Qed.

Lemma trap_ksys_num : s32 (rd64 (view kmem_l trap_ksys) (p_trapframe (kproc 0 trap_ksys) + tf_a7)) = SYS_getpid.
Proof. by vm_compute. Qed.
Lemma trap_getpid : zoom sy_k_l sys_getpid trap_in = Ret 1 trap_in.
Proof.
  apply wp_ret_eq, wp_zoom. unfold sys_getpid.
  apply wp_bind, wp_bind, (wp_kcur_kern 0); [apply trap_in_settled|done|].
  split; [done|]. by vm_compute.
Qed.
Example usertrap_syscall_witness :
  exists s3, usertrap (fun _ => 0) 0 0 0 0 (fun _ => 0) (fun _ => 0) 0 0 0 0 0 0 0 0 0 0 0 no_kstat [] no_stat
      [] [] [] (fun _ => 0) [] [] [] [] 0x9000 0xa000 0xb000 trap_ksys = Ret (TRAPFRAME, 0) s3
    /\ rd64 (view kmem_l s3) (trap_frame + tf_a0) = u64 1
    /\ back_to_user 0xa000 0xb000 0 [tf_a0] trap_in s3.
Proof.
  exact (usertrap_syscall (fun _ => 0) 0 0 0 0 (fun _ => 0) (fun _ => 0) 0 0 0 0 0 0 0 0 0 0 0 no_kstat [] no_stat
    [] [] [] (fun _ => 0) [] [] [] [] 0x9000 0xa000 0xb000 trap_ksys 0 (zoom sy_k_l sys_getpid) 1 trap_in
    (run_hart_ok 0) eq_refl eq_refl eq_refl ltac:(done) eq_refl
    ltac:(rewrite trap_ksys_num; reflexivity) trap_getpid trap_in_settled eq_refl eq_refl ltac:(rewrite trap_ksys_num; reflexivity)).
Defined.
