(* ===== verification/TickFacts.v ===== *)
(** A timer interrupt that finds a program running: the clock, the sleepers on
    it, and the program's processor time. *)

From S2P Require Import Prelude Mem Strings Digits Locks Kalloc Vm PageTable VmProps ProcState Vma Proc ProcFacts SchedFacts Sleeplock Bio Circ UserMem Pipe FatName Fat FatDir Console File Args ProcLife ProcExit SysFile Mmap Signal Exec Timer SysProc Syscall TrapFacts.

(** * A device with nothing to do *)



(** * The clock *)


#[local] Instance khart_tick : LensIndep (syp ⊚ hart_l) sy_tickslock_l.
Proof. split; by intros ?? [] || by intros ? []. Qed.


(** * Leaving the processor and coming back *)





(** * The interrupt *)


Section Tick.
Variables (lsr rhr : nat -> Z) (fuel : nat).
Hypothesis fuel_pos : (0 < fuel)%nat.

End Tick.


Lemma woken_trapframe ch pr : p_trapframe (woken ch pr) = p_trapframe pr.
Proof. unfold woken. by destruct (_ && _). Qed.

Section Preempt.
Variable rtime : nat -> Z.
Variables kernel_end trampoline signalTrampoline forkret_addr : Z.
Variables (lsr rhr : nat -> Z) (fuel cfuel dfuel nfuel sfuel : nat).
Variables (stack_buf value_addr ovalue_addr off_junk len_junk set_junk : Z).
Variables (kst_junk : kstat) (kst_tail : list Z) (st_junk : stat) (st_gap1 st_gap2 lde_junk : list Z).
Variables (buf_junk : nat -> Z) (sa_pad ts_junk uname_junk build_date : list Z).
Variables kernelvec uservec usertrap_addr : Z.
Abbreviation trap := (usertrap rtime kernel_end trampoline signalTrampoline forkret_addr lsr rhr fuel cfuel dfuel
  nfuel sfuel stack_buf value_addr ovalue_addr off_junk len_junk set_junk kst_junk kst_tail st_junk st_gap1
  st_gap2 lde_junk buf_junk sa_pad ts_junk uname_junk build_date kernelvec uservec usertrap_addr).
Abbreviation cause := (usertrap_cause rtime kernel_end trampoline signalTrampoline forkret_addr lsr rhr fuel cfuel
  dfuel nfuel sfuel stack_buf value_addr ovalue_addr off_junk len_junk set_junk kst_junk kst_tail st_junk st_gap1
  st_gap2 lde_junk buf_junk sa_pad ts_junk uname_junk build_date).






End Preempt.

(** * An example: process 1 sleeps on the clock *)


