(* ===== verification/Boot.v ===== *)
(** Start-up (kernel/main.c): what each hart runs before its scheduler; [kinit]
    of kernel/kalloc.c and [kvminit] of kernel/vm.c with what they print;
    [panic] and [backtrace] of kernel/printf.c.

    The assembly of kernel/entry.S sets the stack and [tp] up and calls [main]. *)

From S2P Require Import Prelude Mem Strings Digits Locks Kalloc Vm PageTable VmProps ProcState Vma Proc ProcFacts SchedFacts Sleeplock Bio Circ UserMem Pipe FatName Fat FatDir Console File Args ProcLife SysFile Mmap Signal Exec Timer SysProc Syscall Machine.

Section Boot.
(** Addresses from the linker and from assembly code, the first program, and
    where the image of the disk is. *)
Variables kernel_end trampoline signalTrampoline forkret_addr initcode initcodesize sdcard : Z.
Variables kernelvec handle_tlbr handle_merr : Z.
Variables (lsr : nat -> Z) (fuel cfuel dfuel : nat).
Abbreviation say s ap := (put_line lsr fuel s ap).
Abbreviation km m := (zoom (kn_p_l ⊚ s_k_l) m).
Abbreviation msk m := (zoom mc_sys_l (sk m)).

(** [kinit] of Kalloc with [freerange], printing on the console. *)
Definition kinit_said : M kern unit :=
  _ ← km (initlock k_lock_l "kmem");
  _ ← km (k_freelist_l <~ 0);
  _ ← km (k_npage_l <~ 0);
  _ ← say "kernel_end: %p, RAMSTOP: %p" [VInt kernel_end; VInt RAMSTOP];
  _ ← say "freerange: pa_start: %p, pa_end: %p" [VInt kernel_end; VInt RAMSTOP];
  _ ← km (free_pages kernel_end kernel_end RAMSTOP);
  say "kernel_end: %p, RAMSTOP: %p" [VInt kernel_end; VInt RAMSTOP].

(** The kernel's own page table. *)
Definition kvminit : M kern unit :=
  kpt ← km kalloc;
  _ ← km (k_kpt_l <~ kpt);
  _ ← say "kvminit:kernel_pagetable: %p" [VInt kpt];
  _ ← km (nonnull kpt);
  _ ← km (md k_mem_l (fun m => memset m kpt 0 PGSIZE));
  _ ← km (kvm_maps trampoline signalTrampoline);
  say "kvminit" [].

(** [scheduler]; it does not end. *)
Definition scheduler : M ksys unit :=
  _ ← sp (zoom hart_l (mycpu_l ⊚ c_proc_l <~ None));
  loop fuel tt (fun _ =>
    found ← sp scheduler_pass;
    _ ← when (negb found) (sp (zoom hart_l intr_on));
    mret (inl tt)).

(** What hart 0 does before its scheduler. *)
Definition start : M mach unit :=
  tp ← msk (zoom khart cpuid);
  _ ← msk (zoom kn_p_l cpuinit);
  _ ← msk (zoom kcn consoleinit);
  _ ← msk (zoom kcn printfinit);
  _ ← msk (say "DEBUG:hart %d enter main()..." [VInt (Z.of_nat tp)]);
  _ ← msk kinit_said;
  _ ← msk kvminit;
  _ ← kvminithart lsr fuel;
  _ ← zoom mc_sys_l timerinit;
  _ ← zoom mc_sys_l (trapinit kernelvec handle_tlbr handle_merr);
  _ ← msk (zoom kn_p_l procinit);
  _ ← msk (zoom (lpair kn_p_l kn_b_l) (disk_init sdcard));
  _ ← msk (zoom (lpair kn_p_l kn_b_l) binit);
  _ ← msk fileinit;
  _ ← msk (zoom kn_p_l (userinit kernel_end trampoline signalTrampoline forkret_addr initcode initcodesize));
  _ ← msk (say "cpu %d init done" [VInt (Z.of_nat tp)]);
  mc_started_l <~ 1.

(** [while (started == 0);]: a hart that still finds it 0 is resumed when hart
    0 has set it. *)
Definition wait_started : M mach unit :=
  st ← rd mc_started_l;
  if truth st then mret tt
  else Yield WSpin (st ← rd mc_started_l; if truth st then mret tt else nofuel).

Definition main : M mach unit :=
  tp ← msk (zoom khart cpuid);
  _ ← (if (tp =? 0)%nat then start else wait_started);
  zoom mc_sys_l scheduler.

(** * Panicking *)

(** The frame of the caller is kept two words below each frame, its return
    address one word below. *)
Definition backtrace_turn (bottom fp : Z) : M kern (Z + unit) :=
  if negb (fp <? bottom) then mret (inr tt)
  else
    ra ← km (load (u64 (fp - 8)));
    _ ← zoom kcn (serious_print lsr fuel (Some (chars "%p" ++ [10; 0])) [VInt (u64 (ra - 4))]);
    fp' ← km (load (u64 (fp - 16)));
    mret (inl fp').
Definition backtrace (bfuel : nat) (fp : Z) : M kern unit :=
  let bottom := PGROUNDUP fp in
  _ ← zoom kcn (serious_print lsr fuel (Some (chars "backtrace:" ++ [10; 0])) []);
  loop bfuel fp (backtrace_turn bottom).

(** [panic(s)], with the address of [s] and the frame pointer. *)
Definition panic_at (bfuel : nat) (fp saddr : Z) (s : list Z) : M kern unit :=
  c ← lift "strncmp" (strncmp s (literal "No futex Resource!") 18);
  _ ← when (c =? 0) (exit kernel_end fuel cfuel dfuel 0);
  _ ← zoom kcn (serious_print lsr fuel (Some (chars "%p" ++ [10; 0])) [VInt saddr]);
  _ ← zoom kcn (serious_print lsr fuel (Some (chars "panic: " ++ [0])) []);
  _ ← zoom kcn (serious_print lsr fuel (Some s) []);
  _ ← zoom kcn (serious_print lsr fuel (Some [10; 0]) []);
  _ ← backtrace bfuel fp;
  _ ← kcn ⊚ (snd_l ⊚ panicked_l) <~ 1;
  zoom kcn (hang fuel).
End Boot.
