(* ===== verification/BootFacts.v ===== *)
(** What hart 0 has when it enters its scheduler: the kernel's page table, the
    buffer cache, the file table, the first process. *)

From S2P Require Import Prelude Mem Strings Digits Locks Kalloc Vm PageTable VmProps Space BootMem ProcState Vma Proc ProcFacts BootProc UserInit SchedFacts Sleeplock Bio Circ UserMem Pipe FatName Fat FatDir Console File PrintFacts Args ProcLife SysFile Mmap Signal Exec Timer Machine SysProc Syscall Boot.

#[local] Arguments int_chars : simpl never.
#[local] Arguments kdigits : simpl never.
#[local] Arguments ptr_chars : simpl never.

(** The kernel with its memory and console spelled out. *)
Definition kk (q : kern) (k : kst) (c : con) : kern := update kn_c_l c (update (kn_p_l ⊚ s_k_l) k q).
(** Nothing has panicked and the lock of [printf] is free. *)
Definition chatty (c : con) : Prop := panicked c = 0 /\ unheld (pr_lock c).

(** ** The processor *)

(** The hart after [cpuinit]. *)
Definition reset (h : hart) : hart := Hart (h_tp h) (h_crmd h) (map (fun _ => Cpu None 0 0) (h_cpus h)).
(** A hart of the machine. *)
Definition hart_of (h : hart) : Prop := (h_tp h < length (h_cpus h))%nat /\ 0 <= h_crmd h < 2 ^ 32.

Lemma reset_cpu h : hart_of h -> view mycpu_l (reset h) = Cpu None 0 0.
Proof.
  intros [Hl _]. cbn. unfold reset. cbn. change (map ?f ?l) with (f <$> l). rewrite list_lookup_fmap.
  by destruct (lookup_lt_is_Some_2 _ _ Hl) as [x ->].
Qed.
Lemma reset_calm h : hart_of h -> calm (reset h).
Proof.
  intros Hh. pose proof (reset_cpu h Hh) as E. destruct Hh as [Hl Hc]. split; [split|]; rewrite ?E; cbn; try done; try lia.
  by rewrite length_map.
Qed.
Lemma reset_settled h : hart_of h -> Z.land (h_crmd h) CSR_CRMD_IE = 0 -> settled (reset h).
Proof.
  intros Hh H0. pose proof (reset_calm h Hh) as Hc. split; [done|]. destruct Hc as [Hok Hn].
  rewrite crit_eq by done. rewrite reset_cpu by done. cbn [c_noff c_proc Z.eqb].
  change (h_crmd (reset h)) with (h_crmd h). rewrite H0. change (b2z (truth 0)) with 0.
  rewrite <- (reset_cpu h Hh). apply hart_eta_cpu, Hok.
Qed.

(** ** The tables *)

(** A process table entry after [procinit]. *)
Definition inited (p : nat) (pr : proc) : proc :=
  Proc (Spin 0 "proc" None) UNUSED None None 0 0 0 (p_uid pr) (p_gid pr) (p_pgid pr)
    (p_filelimit pr) (PROCVKSTACK (Z.of_nat p)) 0 0 0 (p_ctx_ra pr) (p_ctx_sp pr)
    (replicate NOFILE None) (p_exec_close pr) None (<[0%nat := 0]> (p_name pr)) 0 0 0 0
    (p_char_count pr) ∅ 0 0 0.

Lemma procinit_ok q (Q : unit -> pst -> Prop) :
  (forall procs, (forall p, (p < 50)%nat -> procs !! p = Some (inited p (default proc0 (s_procs q !! p)))) ->
     Q tt (Pst (update k_hart_l (reset (k_hart (s_k q))) (s_k q)) procs (Spin 0 "nextpid" None) (s_nextpid q) (s_initproc q)
             (s_vmas q) (s_first q))) ->
  wp procinit Q q.
Proof.
  intros HQ. unfold procinit. apply wp_bind, wp_wr. cbn [update s_pid_lock_l].
  apply wp_bind, (wp_for_each _ (fun done s => exists procs,
    s = Pst (s_k q) procs (Spin 0 "nextpid" None) (s_nextpid q) (s_initproc q) (s_vmas q) (s_first q)
    /\ (forall p, p ∈ done -> procs !! p = Some (inited p (default proc0 (s_procs q !! p))))
    /\ (forall p, (p ∉ done) -> procs !! p = s_procs q !! p))).
  - exists (s_procs q). split; [done|]. by split; [intros p ?%not_elem_of_nil|].
  - intros dn p todo s E (procs & -> & Hd & Hn). apply wp_md.
    assert (p ∉ dn) as Hp.
    { assert (NoDup nproc) as H by (apply NoDup_ListNoDup, seq_NoDup).
      rewrite E in H. apply NoDup_app in H as (_ & H & _). intros Hin. apply (H p Hin). left. }
    exists (<[p := inited p (default proc0 (procs !! p))]> procs). split; [reflexivity|]. split; intros p' Hp'.
    + rewrite lookup_insert. apply elem_of_app in Hp' as [Hp'|Hp'%list_elem_of_singleton].
      * rewrite decide_False; [by apply Hd|]. by intros <-.
      * subst p'. rewrite decide_True by done. by rewrite Hn.
    + rewrite elem_of_app, list_elem_of_singleton in Hp'. rewrite lookup_insert, decide_False by (intros <-; tauto).
      apply Hn. tauto.
  - intros s (procs & -> & Hd & _). unfold cpuinit. apply wp_md. apply (HQ procs). intros p Hp. apply Hd.
    apply elem_of_seq. cbn. lia.
Qed.

Lemma fileinit_ok q (Q : unit -> kern -> Prop) :
  (forall files, (forall f, (f < NFILE)%nat -> files !! f = Some file0) ->
     Q tt (update ft_file_l files (update ft_lock_l (Spin 0 "ftable" None) q))) -> wp fileinit Q q.
Proof.
  intros HQ. unfold fileinit. apply wp_bind, wp_wr. set (q0 := update ft_lock_l _ q).
  apply (wp_for_each _ (fun done s => exists files, s = update ft_file_l files q0
    /\ forall f, f ∈ done -> files !! f = Some file0)).
  - exists (ft_file q). split; [by destruct q|]. by intros f ?%not_elem_of_nil.
  - intros dn f todo s _ (files & -> & Hf). apply wp_wr. exists (<[f := file0]> files). split; [done|].
    intros g [Hg|Hg%list_elem_of_singleton]%elem_of_app; rewrite lookup_insert; case_decide; try done; by apply Hf.
  - intros s (files & -> & Hf). apply HQ. intros f Hlt. apply Hf, elem_of_seq. lia.
Qed.

(** ** Memory *)

Section Boot.
Variables kernel_end trampoline signalTrampoline : Z.
Context (Hend : DMWIN_MASK <= kernel_end <= RAMSTOP).
Context (Ht : 0 <= trampoline /\ trampoline + PGSIZE < 2 ^ 63 + 2 ^ 62).
Context (Hst : 0 <= signalTrampoline /\ signalTrampoline + PGSIZE < 2 ^ 63 + 2 ^ 62).
Variables (lsr : nat -> Z) (fuel : nat).
Context (Hlsr : responds lsr fuel).

(** All pages, in the order in which [kalloc] hands them out. *)
Definition all : list Z := reverse (range_pages kernel_end RAMSTOP).
Lemma all_ok : Forall (page_ok kernel_end) all.
Proof using Hend. unfold all. rewrite reverse_Permutation. exact (range_pages_ok kernel_end (page_end kernel_end Hend)). Qed.
Lemma all_nodup : NoDup all.
Proof using Type. unfold all. rewrite reverse_Permutation. apply range_pages_nodup. Qed.
(** Memory below [kernel_end] is on no page. *)
Lemma image_apart b : b < kernel_end -> ~ on all b.
Proof using Hend.
  intros Hb (p & Hp & Hr). pose proof all_ok as H. rewrite Forall_forall in H. destruct (H p Hp). lia.
Qed.

Abbreviation say s ap := (put_line lsr fuel s ap).
Lemma wp_kk_say s ap o q k c (Q : unit -> kern -> Prop) :
  fmt_text (chars s ++ [10; 0]) ap = Some o -> settled (k_hart k) -> c_noff (view mycpu_l (k_hart k)) < 2 ^ 31 - 4 ->
  chatty c -> (forall c', chatty c' -> Q tt (kk q k c')) -> wp (say s ap) Q (kk q k c).
Proof using Hlsr.
  intros Ho Hs Hn [Hp Hl] HQ. eapply (wp_put_line lsr fuel Hlsr); [by split|exact Ho|].
  intros n. apply (HQ (said (flat_map echoed o) n c)). by split.
Qed.
Lemma wp_kk_km {A} (m : M kst A) q k c (Q : A -> kern -> Prop) :
  wp m (fun a k' => Q a (kk q k' c)) k -> wp (zoom (kn_p_l ⊚ s_k_l) m) Q (kk q k c).
Proof using Type. intros H. apply wp_zoom. exact H. Qed.

(** ** [kinit] *)
Lemma kinit_said_ok q k c : settled (k_hart k) -> c_noff (view mycpu_l (k_hart k)) < 2 ^ 31 - 4 -> chatty c ->
  wp (kinit_said kernel_end lsr fuel) (fun _ s => exists k' c', s = kk q k' c' /\ chatty c' /\ kmem_ok kernel_end all k'
    /\ k_hart k' = k_hart k /\ forall b, ~ on all b -> rd8 (k_mem k') b = rd8 (k_mem k) b) (kk q k c).
Proof using Hend Hlsr.
  intros Hs Hn Hc. unfold kinit_said. do 3 (apply wp_bind, wp_kk_km, wp_wr).
  set (k0 := update k_npage_l 0 _).
  apply wp_bind. eapply wp_kk_say; [reflexivity|exact Hs|exact Hn|done|]. intros c1 Hc1.
  apply wp_bind. eapply wp_kk_say; [reflexivity|exact Hs|exact Hn|done|]. intros c2 Hc2.
  apply wp_bind, wp_kk_km.
  eapply wp_mono; [apply (free_pages_ok kernel_end (page_end kernel_end Hend) _ [] k0)|].
  - split; cbn; [apply Hs|done|done|constructor..|done].
  - exact (range_pages_ok kernel_end (page_end kernel_end Hend)).
  - rewrite app_nil_r. apply range_pages_nodup.
  - intros [] k1 (Hk1 & _ & Hh & Hm). rewrite app_nil_r in Hk1. specialize (Hh Hs).
    change (k_hart k0) with (k_hart k) in Hh.
    eapply wp_kk_say; [reflexivity|by rewrite Hh|by rewrite Hh|done|]. intros c3 Hc3.
    exists k1, c3. do 4 (split; [done|]). intros b Hb. rewrite Hm; [done|]. intros p Hp Hbp. apply Hb.
    exists p. split; [by apply elem_of_reverse|done].
Qed.

(** ** [kvminit] *)
Lemma kvminit_ok q k c : kmem_ok kernel_end all k -> settled (k_hart k) -> c_noff (view mycpu_l (k_hart k)) < 2 ^ 31 - 4 ->
  chatty c -> (1215 <= length all)%nat ->
  wp (kvminit trampoline signalTrampoline lsr fuel) (fun _ s => exists kpt ps pages k' c', s = kk q k' c' /\ chatty c'
    /\ k_kpt k' = kpt /\ k_hart k' = k_hart k /\ length ps = 300%nat
    /\ kspace kernel_end all ps kpt (kernel_map trampoline signalTrampoline ps) pages k'
    /\ (length all <= length pages + 1207)%nat
    /\ forall b, ~ on all b -> rd8 (k_mem k') b = rd8 (k_mem k) b) (kk q k c).
Proof using Hend Hlsr Ht Hst.
  intros Hk Hs Hn Hc Hlen. unfold kvminit. apply wp_bind, wp_kk_km.
  pose proof all_ok as Hok. pose proof all_nodup as Hnd. pose proof image_apart as Himg. revert Hk Hlen Hok Hnd Himg.
  generalize all. intros pg Hk Hlen Hok Hnd Himg. destruct pg as [|kpt pages]; [cbn in Hlen; lia|].
  eapply wp_mono; [apply (kalloc_ok kernel_end (page_end kernel_end Hend)), Hk|].
  intros r k1 (Hkpt & Hh & -> & Hpok & Hnin & Hk1 & Hm1). rewrite (proj2 Hs) in Hh.
  apply wp_bind, wp_kk_km, wp_wr.
  set (k2 := update k_kpt_l kpt k1). apply wp_bind.
  assert (settled (k_hart k2) /\ c_noff (view mycpu_l (k_hart k2)) < 2 ^ 31 - 4) as [Hs2 Hn2]
    by (change (k_hart k2) with (k_hart k1); rewrite Hh; exact (conj Hs Hn)).
  eapply wp_kk_say; [reflexivity|exact Hs2|exact Hn2|exact Hc|]. intros c1 Hc1.
  apply wp_bind, wp_kk_km. unfold nonnull. rewrite (proj2 (Z.eqb_neq kpt 0)) by (destruct Hpok; pose proof (page_end kernel_end Hend); lia).
  apply wp_mret. apply wp_bind, wp_kk_km, wp_md.
  assert (kmem_ok kernel_end pages k2) as Hk2 by (destruct Hk1; split; assumption).
  destruct (ks_first kernel_end Hend _ Hok Hnd kpt pages k2 _ Hk2 (Permutation_refl _) Hnin eq_refl) as [Hs3 Hk3].
  change (update k_mem_l (memset (view k_mem_l k2) kpt 0 PGSIZE) k2) with (update k_mem_l (memset (k_mem k2) kpt 0 PGSIZE) k2).
  set (k3 := update k_mem_l _ k2) in *. apply wp_bind, wp_kk_km. cbn [length] in Hlen. eapply wp_mono.
  { apply (kvm_maps_ok kernel_end Hend _ Hok Hnd trampoline signalTrampoline kpt pages k3 Hs3); first [lia|reflexivity]. }
  intros [] k4 (ps & pages' & Hps & Hs4 & Hk4 & Hc4).
  assert (k_hart k4 = k_hart k) as Hh4 by (rewrite (proj2 (kp_cpu _ _ _ _ Hk4) Hs2); exact Hh).
  eapply wp_kk_say; [reflexivity|by rewrite Hh4|by rewrite Hh4|exact Hc1|]. intros c2 Hc2.
  exists kpt, ps, pages', k4, c2. split; [reflexivity|]. split; [exact Hc2|]. split; [exact (proj1 (kp_cpu _ _ _ _ Hk4))|].
  do 3 (split; [assumption|]). split; [cbn [length]; lia|]. intros b Hb.
  rewrite (kp_out _ _ _ _ Hk4) by exact Hb. rewrite (kp_out _ _ _ _ Hk3) by exact Hb.
  change (k_mem k2) with (k_mem k1). rewrite Hm1, rd8_memset_page. rewrite decide_False; [reflexivity|].
  intros Hbp. apply Hb. exists kpt. split; [left|exact Hbp].
Qed.
End Boot.

(** ** The machine *)

(** The machine with its kernel spelled out. *)
Definition mm (m : mach) (q : kern) : mach := update (mc_sys_l ⊚ sy_k_l) q m.

Lemma wp_mm {A} (x : M kern A) m q (Q : A -> mach -> Prop) :
  wp x (fun a q' => Q a (mm m q')) q -> wp (zoom mc_sys_l (sk x)) Q (mm m q).
Proof. intros H. apply wp_zoom, wp_zoom. exact H. Qed.

(** What [kvminithart], [timerinit] and [trapinit] do to the registers and to
    the tables of timers. *)
Definition pwcl : Z :=
  Z.lor (Z.lor (Z.lor (Z.lor (Z.lor (Z.lor (Z.shiftl PTEWIDTH 30) (Z.shiftl DIR2WIDTH 25))
    (Z.shiftl DIR2BASE 20)) (Z.shiftl DIR1WIDTH 15)) (Z.shiftl DIR1BASE 10)) (Z.shiftl PTWIDTH 5)) PTBASE.
Definition pwch : Z := Z.lor (Z.lor (Z.lor (Z.shiftl DIR4WIDTH 18) (Z.shiftl DIR3WIDTH 6)) DIR3BASE) hptw_en.
Definition paged (kpt : Z) (m : mach) : mach :=
  Mach (update (sy_csr_l ⊚ cs_pgdl_l) kpt (mc_sys m))
    (<[0x1d := u32 pwch]> (<[0x1c := u32 pwcl]> (<[0x8e := 0xc]> (<[0x18 := 0]> (<[0x1e := 0xc]> (mc_csr m))))))
    (mc_io m ++ [Invtlb]) (mc_csr_info m) (mc_started m).
Definition timed (m : mach) : mach :=
  update mc_sys_l (Ksys (sy_k (mc_sys m)) (Spin 0 "time" None) 0 ∅ 0 (sy_log (mc_sys m)) (sy_loglen (mc_sys m))
    (sy_reads (mc_sys m)) (sy_csr (mc_sys m))) m.

(** Where the page walker looks, level by level: the base and the width of each
    index, in the registers [PWCL] and [PWCH]. *)
Definition walk_field (m : mach) (l : Z) : Z * Z :=
  let lo := default 0 (mc_csr m !! 0x1c) in
  let hi := default 0 (mc_csr m !! 0x1d) in
  if l =? 3 then (Z.land hi 0x3f, Z.land (Z.shiftr hi 6) 0x3f)
  else (Z.land (Z.shiftr lo (10 * l)) 0x1f, Z.land (Z.shiftr lo (10 * l + 5)) 0x1f).
(** The walker takes the indices that [walk] takes. *)
Definition walks_alike (m : mach) : Prop := forall l va, 0 <= l <= 3 ->
  PX l va = Z.land (Z.shiftr va (walk_field m l).1) (Z.ones (walk_field m l).2).

Lemma walks_alike_regs m : mc_csr m !! 0x1c = Some (u32 pwcl) -> mc_csr m !! 0x1d = Some (u32 pwch) -> walks_alike m.
Proof.
  intros El Eh l va Hl. unfold walk_field. rewrite El, Eh. cbn [default from_option id].
  assert (l = 0 \/ l = 1 \/ l = 2 \/ l = 3) as [->|[->|[->| ->]]] by lia; reflexivity.
Qed.
Lemma paged_walks kpt m : walks_alike (paged kpt m).
Proof.
  apply walks_alike_regs; unfold paged; cbn [mc_csr]; [rewrite lookup_insert_ne by done|]; apply lookup_insert_eq.
Qed.

Section Machine.
Variables (lsr : nat -> Z) (fuel : nat).
Context (Hlsr : responds lsr fuel).

Lemma kvminithart_ok m q k c (Q : unit -> mach -> Prop) : settled (k_hart k) -> c_noff (view mycpu_l (k_hart k)) < 2 ^ 31 - 4 ->
  chatty c -> (forall c', chatty c' -> Q tt (mm (paged (k_kpt k) m) (kk q k c'))) ->
  wp (kvminithart lsr fuel) Q (mm m (kk q k c)).
Proof using Hlsr.
  intros Hs Hn Hc HQ. unfold kvminithart, tlbinit, w_csr_pgdl, w_csr_stlbps, w_csr_asid, w_csr_tlbrehi, w_csr_pwcl, w_csr_pwch,
    csrwr32, csrwr, emit. apply wp_bind, wp_rd. change (view _ (mm m (kk q k c))) with (k_kpt k).
  apply wp_bind, wp_wr, wp_bind, wp_bind, wp_md. do 2 (apply wp_bind, wp_wr). apply wp_wr. do 2 (apply wp_bind, wp_wr).
  match goal with |- wp _ _ ?s => change s with (mm (paged (k_kpt k) m) (kk q k c)) end.
  apply wp_mm. eapply (wp_kk_say lsr fuel Hlsr); [reflexivity|done|done|done|]. exact HQ.
Qed.

Lemma timerinit_ok m q (Q : unit -> mach -> Prop) : Q tt (mm (timed m) q) -> wp (zoom mc_sys_l timerinit) Q (mm m q).
Proof using Type. intros HQ. apply wp_zoom. unfold timerinit. do 3 (apply wp_bind, wp_wr). apply wp_wr. exact HQ. Qed.

(** The registers that [trapinit] writes. *)
Definition trapped (kernelvec handle_tlbr handle_merr : Z) (m : mach) : mach :=
  let r := sy_csr (mc_sys m) in
  update (mc_sys_l ⊚ sy_csr_l)
    (Csrs (cs_prmd r) (cs_era r) (cs_estat r) (Z.lor HWI_VEC TI_VEC) kernelvec (cs_pgdl r) (cs_badi r) (cs_ticlr r)
       (Z.lor (Z.lor (field_write 1 1 0) (field_write 1 1 1)) (field_write CLK_FREQ (field_get (cs_prcfg1 r) 8 4 + 1) 2))
       (cs_prcfg1 r) handle_tlbr handle_merr)
    (update (mc_sys_l ⊚ sy_tickslock_l) (Spin 0 "time" None) m).
Definition enabled (h : hart) : hart := update h_crmd_l (Z.lor (h_crmd h) CSR_CRMD_IE) h.

Lemma trapinit_ok kernelvec handle_tlbr handle_merr m q k c (Q : unit -> mach -> Prop) :
  0 < field_get (cs_prcfg1 (sy_csr (mc_sys m))) 8 4 + 1 < 64 ->
  Q tt (mm (trapped kernelvec handle_tlbr handle_merr m) (kk q (update k_hart_l (enabled (k_hart k)) k) c)) ->
  wp (zoom mc_sys_l (trapinit kernelvec handle_tlbr handle_merr)) Q (mm m (kk q k c)).
Proof using Type.
  intros Hb HQ. apply wp_zoom. unfold trapinit, countdown_timer_init. do 5 (apply wp_bind, wp_wr). apply wp_bind, wp_bind, wp_rd.
  match goal with |- wp (if ?b then _ else _) _ _ => replace b with false end.
  - apply wp_wr. apply wp_zoom, wp_zoom, wp_md. exact HQ.
  - symmetry. apply orb_false_iff. split; apply Z.leb_gt, Hb.
Qed.
End Machine.

(** ** Parts of the kernel *)

Lemma wp_kk_p {A} (x : M pst A) q k c (Q : A -> kern -> Prop) :
  wp x (fun a p' => Q a (kk (update kn_p_l p' q) (s_k p') c)) (update s_k_l k (kn_p q)) -> wp (zoom kn_p_l x) Q (kk q k c).
Proof. intros H. apply wp_zoom. eapply wp_mono; [exact H|]. by intros a [] Ha. Qed.
Lemma wp_kk_b {A} (x : M bst A) q k c (Q : A -> kern -> Prop) :
  wp x (fun a '(p', b') => Q a (kk (update kn_b_l b' (update kn_p_l p' q)) (s_k p') c)) (update s_k_l k (kn_p q), kn_b q) ->
  wp (zoom (lpair kn_p_l kn_b_l) x) Q (kk q k c).
Proof. intros H. apply wp_zoom. eapply wp_mono; [exact H|]. by intros a [[] b'] Ha. Qed.

Lemma console_ok q k c (Q : unit -> kern -> Prop) : panicked c = 0 ->
  (forall c', panicked c' = 0 -> Q tt (kk q k c')) -> wp (zoom kcn consoleinit) Q (kk q k c).
Proof.
  intros Hp HQ. apply wp_zoom. unfold consoleinit, uartinit, WriteReg. wp_run. by apply HQ.
Qed.
Lemma printfinit_ok q k c (Q : unit -> kern -> Prop) : panicked c = 0 ->
  (forall c', chatty c' -> Q tt (kk q k c')) -> wp (zoom kcn printfinit) Q (kk q k c).
Proof. intros Hp HQ. apply wp_zoom. unfold printfinit. wp_run. by apply HQ. Qed.

Lemma disk_init_ok sdcard q k c (Q : unit -> kern -> Prop) :
  (forall b, unheld (rd_lock b) -> rd_base b = sdcard -> rd_mem b = rd_mem (kn_b q) ->
     Q tt (kk (update kn_b_l b q) (says [("ramdiskinit ram start:%p", [sdcard])] k) c)) ->
  wp (zoom (lpair kn_p_l kn_b_l) (disk_init sdcard)) Q (kk q k c).
Proof.
  intros HQ. apply wp_kk_b. unfold disk_init, ramdisk_init, initlock. apply wp_bind, wp_wr, wp_bind, wp_wr.
  apply wp_zoom, wp_zoom, wp_md. cbn.
  match goal with |- Q tt ?s => match s with context [Kern _ ?b _ _ _ _ _ _] =>
    change s with (kk (update kn_b_l b q) (says [("ramdiskinit ram start:%p", [sdcard])] k) c) end end.
  by apply HQ.
Qed.
Lemma binit_ok D q k c (Q : unit -> kern -> Prop) : D <> NODEV -> unheld (rd_lock (kn_b q)) ->
  (forall b, bio_ok D b (rev (seq 0 NBUF)) -> idle b -> rd_mem b = rd_mem (kn_b q) -> rd_base b = rd_base (kn_b q) ->
     Q tt (kk (update kn_b_l b q) (says [("binit", [])] k) c)) ->
  wp (zoom (lpair kn_p_l kn_b_l) binit) Q (kk q k c).
Proof.
  intros HD Hl HQ. apply wp_kk_b. unfold binit. apply wp_bind. eapply wp_mono; [by apply (wp_binit_ring D)|].
  intros [] [p' b'] (-> & Hb & Hi & Hm & Hr). apply wp_zoom, wp_zoom, wp_md. by apply HQ.
Qed.

(** ** [start] *)

Section Start.
Variables kernel_end trampoline signalTrampoline forkret_addr initcode size sdcard : Z.
Variables kernelvec handle_tlbr handle_merr : Z.
Variables (lsr : nat -> Z) (fuel : nat) (D : Z).
Abbreviation start := (start kernel_end trampoline signalTrampoline forkret_addr initcode size sdcard
  kernelvec handle_tlbr handle_merr lsr fuel).
Abbreviation pages_of := (BootFacts.all kernel_end).

(** Where the linker puts things: the kernel's image with the first program
    before [kernel_end], the trampolines anywhere in a mapped window, and 1700
    pages to spare. *)
Record placed : Prop := {
  pl_end : DMWIN_MASK <= kernel_end <= RAMSTOP;
  pl_tramp : 0 <= trampoline /\ trampoline + PGSIZE < 2 ^ 63 + 2 ^ 62;
  pl_sig : 0 <= signalTrampoline /\ signalTrampoline + PGSIZE < 2 ^ 63 + 2 ^ 62;
  pl_size : 0 < size <= stack_start /\ size < 2 ^ 32 /\ size mod PGSIZE <> 0;
  pl_code : initcode + size <= kernel_end;
  pl_room : kernel_end + (1700 + 4 * (size / PGSIZE)) * PGSIZE <= RAMSTOP
}.
(** Hart 0 as it enters [main]: interrupts off, the variables of the kernel as
    its image has them. *)
Record entering (m : mach) : Prop := {
  en_hart : hart_of (k_hart (s_k (kn_p (sy_k (mc_sys m)))));
  en_tp : h_tp (k_hart (s_k (kn_p (sy_k (mc_sys m))))) = 0%nat;
  en_off : Z.land (h_crmd (k_hart (s_k (kn_p (sy_k (mc_sys m)))))) CSR_CRMD_IE = 0;
  en_procs : s_procs (kn_p (sy_k (mc_sys m))) = ∅;
  en_pid : s_nextpid (kn_p (sy_k (mc_sys m))) = 1;
  en_quiet : panicked (kn_c (sy_k (mc_sys m))) = 0;
  en_timer : 0 < field_get (cs_prcfg1 (sy_csr (mc_sys m))) 8 4 + 1 < 64
}.

(** What hart 0 has when it has run [start] from [m]; the pages by their use:
    the kernel stacks [ps], the tables of [kpt], and those of the first process. *)
Record booted (m : mach) (kpt tf upt a b c ec : Z) (ps code stack pages : list Z) (m' : mach) : Prop := {
  bt_hart : let h := k_hart (s_k (kn_p (sy_k (mc_sys m')))) in
    settled h /\ c_noff (view mycpu_l h) = 0 /\ truth (Z.land (h_crmd h) CSR_CRMD_IE) = true;
  bt_ready : say_ready (sy_k (mc_sys m'));
  bt_started : mc_started m' = 1;
  bt_vectors : let r := sy_csr (mc_sys m') in
    cs_eentry r = kernelvec /\ cs_tlbrentry r = handle_tlbr /\ cs_merrentry r = handle_merr
    /\ cs_ecfg r = Z.lor HWI_VEC TI_VEC;
  bt_walker : walks_alike m' /\ cs_pgdl (sy_csr (mc_sys m')) = kpt;
  bt_kernel : let k := s_k (kn_p (sy_k (mc_sys m'))) in k_kpt k = kpt /\ length ps = 300%nat
    /\ forall va, 0 <= va < 2 ^ 48 -> xlate 3 (k_mem k) kpt va = kernel_map trampoline signalTrampoline ps va;
  bt_space : let k := s_k (kn_p (sy_k (mc_sys m'))) in
    kspace kernel_end pages_of (stack ++ c :: code ++ ec :: b :: a :: tables 3 (k_mem k) kpt ++ tf :: ps) upt
      (user_map trampoline signalTrampoline tf code stack) pages k;
  bt_first : s_procs (kn_p (sy_k (mc_sys m'))) !! 0%nat
      = Some (first_proc (inited 0 proc0) 1 size tf upt a ec forkret_addr)
    /\ s_initproc (kn_p (sy_k (mc_sys m'))) = Some 0%nat /\ s_nextpid (kn_p (sy_k (mc_sys m'))) = 2;
  bt_others : forall p, (0 < p < 50)%nat -> s_procs (kn_p (sy_k (mc_sys m'))) !! p = Some (inited p proc0);
  bt_areas : vlist (s_vmas (kn_p (sy_k (mc_sys m')))) a [b; c];
  bt_code : let k := s_k (kn_p (sy_k (mc_sys m'))) in forall v, 0 <= v < size ->
    rd8 (k_mem k) (uaddr (user_map trampoline signalTrampoline tf code stack) v)
    = rd8 (k_mem (s_k (kn_p (sy_k (mc_sys m))))) (initcode + v);
  bt_frame : let k := s_k (kn_p (sy_k (mc_sys m'))) in
    rd64 (k_mem k) (tf + tf_sp) = USER_STACK_TOP /\ rd64 (k_mem k) (tf + tf_era) = 0;
  bt_disk : let b := kn_b (sy_k (mc_sys m')) in bio_ok D b (rev (seq 0 NBUF)) /\ idle b /\ rd_base b = sdcard
    /\ rd_mem b = rd_mem (kn_b (sy_k (mc_sys m)));
  bt_files : unheld (ft_lock (sy_k (mc_sys m')))
    /\ forall f, (f < NFILE)%nat -> ft_file (sy_k (mc_sys m')) !! f = Some file0
}.

Context (Hp : placed) (HD : D <> NODEV) (Hlsr : responds lsr fuel).

Lemma room : (1699 + 4 * Z.to_nat (size / PGSIZE) <= length pages_of)%nat.
Proof using Hp.
  destruct Hp as [He _ _ (H0 & H32 & _) _ Hr]. unfold BootFacts.all. rewrite length_reverse. unfold range_pages.
  rewrite length_map, length_seqZ. pose proof (page_end kernel_end He). assert (RAMSTOP < 2 ^ 64 - PGSIZE) by done.
  rewrite round_up_spec by lia. assert (0 <= size / PGSIZE) by (unfold PGSIZE; zlia). generalize dependent (size / PGSIZE).
  intros z Hr Hz. unfold PGSIZE in *. zlia.
Qed.

Lemma user_ok q k c kpt ps f pages : calm (k_hart k) -> c_noff (view mycpu_l (k_hart k)) = 0 ->
  s_procs (kn_p q) !! 0%nat = Some (inited 0 proc0) -> unheld (s_pid_lock (kn_p q)) ->
  kspace kernel_end pages_of ps kpt f pages k -> (length pages_of <= length pages + 1207)%nat ->
  wp (zoom kn_p_l (userinit kernel_end trampoline signalTrampoline forkret_addr initcode size))
    (fun _ s => exists tf upt a b d ec code stack pages' k',
       let p' := st 0 (update s_initproc_l (Some 0%nat) (update s_nextpid_l (s32 (s_nextpid (kn_p q) + 1)) (kn_p q))) k'
         (first_proc (inited 0 proc0) (s_nextpid (kn_p q)) size tf upt a ec forkret_addr)
         (user_areas a b d (s_vmas (kn_p q))) in
       s = kk (update kn_p_l p' q) k' c
       /\ first_made kernel_end pages_of trampoline signalTrampoline forkret_addr initcode size (kn_p q) k
            (inited 0 proc0) (s_vmas (kn_p q)) ps kpt (length pages) tf upt a b d ec code stack pages' k' p') (kk q k c).
Proof using Hp.
  intros Hh Hn H0 Hl Hs Hc. pose proof room as Hr. destruct Hp as [He Htr Hsi (Hsz & H32 & Hmod) Hcode _].
  apply wp_kk_p. assert (update s_k_l k (kn_p q) = st 0 (kn_p q) k (inited 0 proc0) (s_vmas (kn_p q))) as ->
    by (unfold st; rewrite insert_id by done; by destruct (kn_p q)).
  eapply wp_mono; [apply (userinit_ok kernel_end He pages_of (all_ok kernel_end He) (all_nodup kernel_end)
    trampoline signalTrampoline forkret_addr initcode size Htr Hsi) with (rest := ps) (kpt := kpt) (f := f) (pages := pages);
    try done; try lia|].
  - intros x Hx. apply (image_apart kernel_end He). lia.
  - intros [] s (tf & upt & a & b & d & ec & code & stack & pages' & k' & Hf).
    exists tf, upt, a, b, d, ec, code, stack, pages', k'. pose proof (fm_state _ _ _ _ _ _ _ _ _ _ _ _ _ _ _ _ _ _ _ _ _ _ _ _ _ Hf) as E.
    subst s. split; [done|exact Hf].
Qed.

(** What there is when the traps are set up: [m] is the machine at [entering]. *)
Record midway (m : mach) (kpt : Z) (ps pages : list Z) (m1 : mach) (q : kern) (k : kst) (c : con) : Prop := {
  mw_hart : calm (k_hart k) /\ c_noff (view mycpu_l (k_hart k)) = 0 /\ truth (Z.land (h_crmd (k_hart k)) CSR_CRMD_IE) = true;
  mw_con : chatty c;
  mw_regs : let r := sy_csr (mc_sys m1) in
    cs_eentry r = kernelvec /\ cs_tlbrentry r = handle_tlbr /\ cs_merrentry r = handle_merr
    /\ cs_ecfg r = Z.lor HWI_VEC TI_VEC /\ cs_pgdl r = kpt;
  mw_walker : walks_alike m1;
  mw_kpt : k_kpt k = kpt /\ length ps = 300%nat;
  mw_space : kspace kernel_end pages_of ps kpt (kernel_map trampoline signalTrampoline ps) pages k;
  mw_cost : (length pages_of <= length pages + 1207)%nat;
  mw_image : forall b, ~ on pages_of b -> rd8 (k_mem k) b = rd8 (k_mem (s_k (kn_p (sy_k (mc_sys m))))) b;
  mw_procs : forall p, (p < 50)%nat -> s_procs (kn_p q) !! p = Some (inited p proc0);
  mw_pid : unheld (s_pid_lock (kn_p q)) /\ s_nextpid (kn_p q) = 1;
  mw_disk : rd_mem (kn_b q) = rd_mem (kn_b (sy_k (mc_sys m)))
}.

Lemma booted_intro m kpt ps pages m1 q k c tf upt a b d ec code stack pages' k' p' c' :
  midway m kpt ps pages m1 q k c -> chatty c' ->
  bio_ok D (kn_b q) (rev (seq 0 NBUF)) -> idle (kn_b q) -> rd_base (kn_b q) = sdcard ->
  unheld (ft_lock q) -> (forall f, (f < NFILE)%nat -> ft_file q !! f = Some file0) ->
  p' = st 0 (update s_initproc_l (Some 0%nat) (update s_nextpid_l (s32 (s_nextpid (kn_p q) + 1)) (kn_p q))) k'
         (first_proc (inited 0 proc0) (s_nextpid (kn_p q)) size tf upt a ec forkret_addr)
         (user_areas a b d (s_vmas (kn_p q))) ->
  first_made kernel_end pages_of trampoline signalTrampoline forkret_addr initcode size (kn_p q) k
            (inited 0 proc0) (s_vmas (kn_p q)) ps kpt (length pages) tf upt a b d ec code stack pages' k' p' ->
  booted m kpt tf upt a b d ec ps code stack pages' (update mc_started_l 1 (mm m1 (kk (update kn_p_l p' q) k' c'))).
Proof using Hp.
  intros [(Hc & Hn & Hie) _ (Hr1 & Hr2 & Hr3 & Hr4 & Hr5) Hw (Hkp & Hps) Hs Hcost Himg Hpr [Hpl Hpid] Hd] Hc' Hb Hi Hsd Hft Hff Ep' [_ Hs' Hh' Hk' Hcode Hfr Hl _].
  pose proof (pl_end Hp) as He. destruct (kept_tables _ _ _ _ _ Hk') as [Et Hx].
  assert (settled (k_hart k')) as Hset by (rewrite Hh'; by apply settled_crit).
  assert (c_noff (view mycpu_l (k_hart k')) = 0) as Hn'.
  { rewrite Hh'. destruct Hc as [Hok Hlt]. rewrite crit_eq by done. rewrite view_mycpu_update by apply Hok. exact Hn. }
  subst p'. split.
  - split; [exact Hset|]. split; [exact Hn'|]. change (truth (Z.land (h_crmd (k_hart k')) CSR_CRMD_IE) = true). rewrite Hh'.
    destruct Hc as [Hok Hlt]. by rewrite crit_eq by done.
  - split; [exact Hset| |apply Hc'..]. change (c_noff (view mycpu_l (k_hart k')) < 2 ^ 31 - 4). by rewrite Hn'.
  - done.
  - exact (conj Hr1 (conj Hr2 (conj Hr3 Hr4))).
  - exact (conj Hw Hr5).
  - split; [|split; [done|]].
    + change (k_kpt k' = kpt). rewrite <- Hkp. exact (proj1 (kp_cpu _ _ _ _ Hk')).
    + intros va Hva. change (xlate 3 (k_mem k') kpt va = kernel_map trampoline signalTrampoline ps va).
      rewrite Hx. exact (ks_map _ _ _ _ _ _ _ Hs va Hva).
  - change (kspace kernel_end pages_of (stack ++ d :: code ++ ec :: b :: a :: tables 3 (k_mem k') kpt ++ tf :: ps) upt
      (user_map trampoline signalTrampoline tf code stack) pages' k'). by rewrite Et.
  - cbn. rewrite lookup_insert_eq, Hpid. done.
  - intros p Hlt. cbn. rewrite lookup_insert_ne by lia. apply Hpr. lia.
  - apply Hl.
  - intros k0 v Hv. change (k_mem k0) with (k_mem k'). rewrite Hcode by done. apply Himg, (image_apart kernel_end He).
    pose proof (pl_code Hp). lia.
  - exact Hfr.
  - split; [exact Hb|]. split; [exact Hi|]. split; [exact Hsd|exact Hd].
  - split; [exact Hft|exact Hff].
Qed.

(** Interrupts are enabled before [procinit] resets the processors once more. *)
Lemma enabled_ok h : hart_of h -> hart_of (enabled (reset h))
  /\ truth (Z.land (h_crmd (reset (enabled (reset h)))) CSR_CRMD_IE) = true.
Proof using Type.
  intros [Hl Hc]. split.
  - split; cbn; [by rewrite length_map|]. by apply (lor_range _ _ 32).
  - change (truth (Z.land (Z.lor (h_crmd h) CSR_CRMD_IE) CSR_CRMD_IE) = true).
    rewrite Z.land_lor_distr_l, Z.land_diag. unfold truth. apply negb_true_iff, Z.eqb_neq.
    intros [_ H]%Z.lor_eq_0_iff. done.
Qed.

(** The rest of [start]. *)
Definition start_late : M mach unit :=
  _ ← zoom mc_sys_l (sk (zoom (lpair kn_p_l kn_b_l) (disk_init sdcard)));
  _ ← zoom mc_sys_l (sk (zoom (lpair kn_p_l kn_b_l) binit));
  _ ← zoom mc_sys_l (sk fileinit);
  _ ← zoom mc_sys_l (sk (zoom kn_p_l (userinit kernel_end trampoline signalTrampoline forkret_addr initcode size)));
  _ ← zoom mc_sys_l (sk (put_line lsr fuel "cpu %d init done" [VInt (Z.of_nat 0)]));
  mc_started_l <~ 1.

Lemma midway_b m kpt ps pages m1 q k c b : midway m kpt ps pages m1 q k c -> rd_mem b = rd_mem (kn_b q) ->
  midway m kpt ps pages m1 (update kn_b_l b q) k c.
Proof using Type. intros [] Hb. split; try assumption. change (rd_mem b = rd_mem (kn_b (sy_k (mc_sys m)))). congruence. Qed.

Lemma midway_says m kpt ps pages m1 q k c l : midway m kpt ps pages m1 q k c -> midway m kpt ps pages m1 q (says l k) c.
Proof using Type. intros []. split; try assumption. by apply ks_says. Qed.

Lemma start_late_ok m kpt ps pages m1 q k c : midway m kpt ps pages m1 q k c ->
  wp start_late (fun _ m' => exists tf upt a b d ec code stack pages',
    booted m kpt tf upt a b d ec ps code stack pages' m') (mm m1 (kk q k c)).
Proof using All.
  intros Hm. unfold start_late. apply wp_bind, wp_mm, disk_init_ok. intros b0 Hl0 Hb0 Hm0.
  pose proof (midway_says _ _ _ _ _ _ _ _ [("ramdiskinit ram start:%p", [sdcard])] (midway_b _ _ _ _ _ _ _ _ b0 Hm Hm0)) as Hm1.
  clear Hm. set (ka := says _ k) in *.
  apply wp_bind, wp_mm, (binit_ok D); [exact HD|exact Hl0|]. intros b1 Hb1 Hi1 Hm2 Hr1.
  pose proof (midway_says _ _ _ _ _ _ _ _ [("binit", [])] (midway_b _ _ _ _ _ _ _ _ b1 Hm1 Hm2)) as Hm. clear Hm1.
  set (kb := says _ ka) in *. assert (rd_base b1 = sdcard) as Hsd by (by rewrite Hr1).
  apply wp_bind, wp_mm, fileinit_ok. intros files Hfiles.
  set (q2 := update ft_file_l files (update ft_lock_l (Spin 0 "ftable" None) (update kn_b_l b1 q))).
  assert (midway m kpt ps pages m1 q2 kb c) as Hm3 by (destruct Hm; split; assumption). clear Hm.
  match goal with |- wp _ _ (mm m1 ?s) => change s with (kk q2 kb c) end.
  destruct (mw_hart _ _ _ _ _ _ _ _ Hm3) as (Hh & Hn & _). destruct (mw_pid _ _ _ _ _ _ _ _ Hm3) as [Hpl _].
  apply wp_bind, wp_mm. eapply wp_mono.
  { apply (user_ok q2 kb c kpt ps (kernel_map trampoline signalTrampoline ps) pages Hh Hn); [apply (mw_procs _ _ _ _ _ _ _ _ Hm3); lia|exact Hpl
      |exact (mw_space _ _ _ _ _ _ _ _ Hm3)|exact (mw_cost _ _ _ _ _ _ _ _ Hm3)]. }
  intros [] s (tf & upt & a & b & d & ec & code & stack & pages' & k' & -> & Hf).
  pose proof (fm_hart _ _ _ _ _ _ _ _ _ _ _ _ _ _ _ _ _ _ _ _ _ _ _ _ _ Hf) as Hh'.
  assert (settled (k_hart k')) as Hset by (rewrite Hh'; by apply settled_crit).
  assert (c_noff (view mycpu_l (k_hart k')) < 2 ^ 31 - 4) as Hn'.
  { rewrite Hh'. destruct Hh as [Hok Hlt]. rewrite crit_eq by done. rewrite view_mycpu_update by apply Hok. cbn [c_noff]. by rewrite Hn. }
  apply wp_bind, wp_mm. eapply (wp_kk_say lsr fuel Hlsr);
    [reflexivity|exact Hset|exact Hn'|exact (mw_con _ _ _ _ _ _ _ _ Hm3)|]. intros c' Hc'.
  apply wp_wr. exists tf, upt, a, b, d, ec, code, stack, pages'.
  apply (booted_intro m kpt ps pages m1 q2 kb c _ _ _ _ _ _ _ _ _ _ _ _ Hm3 Hc' Hb1 Hi1); try assumption; try reflexivity.
Qed.

(** The facts at [midway], from those of the steps before. *)
Lemma midway_intro m k1 k2 k3 c kpt ps pages procs :
  let q := sy_k (mc_sys m) in
  let h := k_hart (s_k (kn_p q)) in
  let k4 := update k_hart_l (enabled (k_hart k3)) k3 in
  let k5 := update k_hart_l (reset (k_hart k4)) k4 in
  entering m -> k1 = update k_hart_l (reset h) (s_k (kn_p q)) -> k_hart k2 = k_hart k1 -> k_hart k3 = k_hart k2 ->
  (forall b, ~ on pages_of b -> rd8 (k_mem k2) b = rd8 (k_mem k1) b) ->
  (forall b, ~ on pages_of b -> rd8 (k_mem k3) b = rd8 (k_mem k2) b) ->
  chatty c -> k_kpt k3 = kpt -> length ps = 300%nat ->
  kspace kernel_end pages_of ps kpt (kernel_map trampoline signalTrampoline ps) pages k3 ->
  (length pages_of <= length pages + 1207)%nat ->
  (forall p, (p < 50)%nat -> procs !! p = Some (inited p (default proc0 (s_procs (kn_p q) !! p)))) ->
  midway m kpt ps pages (trapped kernelvec handle_tlbr handle_merr (timed (paged kpt m)))
    (update kn_p_l (Pst k5 procs (Spin 0 "nextpid" None) (s_nextpid (kn_p q)) (s_initproc (kn_p q)) (s_vmas (kn_p q))
       (s_first (kn_p q))) q) k5 c.
Proof using Type.
  intros q h k4 k5 [Hh Htp Hoff Hprocs Hpid Hq Htm] -> Hh2 Hh3 Hm2 Hm3 Hc Hkpt Hps Hs3 Hcost Hpr.
  change (k_hart k2 = reset h) in Hh2. destruct (enabled_ok _ Hh) as [He1 He2]. fold q h in He1, He2.
  rewrite <- Hh2, <- Hh3 in He1, He2. assert (hart_of (k_hart k4)) as Hh4 by exact He1. split; try assumption.
  - split; [by apply reset_calm|]. split; [|exact He2].
    change (c_noff (view mycpu_l (reset (k_hart k4))) = 0). by rewrite (reset_cpu _ Hh4).
  - by cbn.
  - exact (paged_walks kpt m).
  - exact (conj Hkpt Hps).
  - destruct Hs3 as [Hk3 Hall3 Hmap3]. split; [|exact Hall3|exact Hmap3].
    destruct Hk3. split; try assumption. by apply reset_calm.
  - intros b Hb. change (rd8 (k_mem k3) b = rd8 (k_mem (s_k (kn_p q))) b). by rewrite Hm3, Hm2.
  - intros p Hlt. change (procs !! p = Some (inited p proc0)). rewrite Hpr by done.
    fold q in Hprocs. by rewrite Hprocs, lookup_empty.
  - by split.
  - done.
Qed.

(** [start], the part of [main] that hart 0 runs, establishes what the rest of
    the kernel relies on. *)
Lemma start_boots m : entering m ->
  wp start (fun _ m' => exists kpt tf upt a b c ec ps code stack pages,
    booted m kpt tf upt a b c ec ps code stack pages m') m.
Proof using All.
  intros Hm0. pose proof Hm0 as [Hh Htp Hoff _ _ Hq Htm]. pose proof room as Hroom. pose proof (pl_end Hp) as He.
  set (q := sy_k (mc_sys m)) in *. set (k := s_k (kn_p q)) in *.
  assert (m = mm m (kk q k (kn_c q))) as Em by (by destruct m as [[[[]]]]).
  match goal with |- wp _ ?Q _ => refine (eq_ind_r (fun x => wp start Q x) _ Em) end. unfold Boot.start.
  apply wp_bind, wp_mm, wp_zoom, wp_gets. change (h_tp _) with (h_tp (k_hart k)). rewrite Htp.
  apply wp_bind, wp_mm, wp_kk_p, wp_md.
  set (k1 := update k_hart_l (reset (k_hart k)) k).
  match goal with |- wp _ _ (mm m ?s) => change s with (kk q k1 (kn_c q)) end.
  pose proof (reset_settled _ Hh Hoff) as Hs1. pose proof (reset_cpu _ Hh) as Hcpu.
  assert (c_noff (view mycpu_l (k_hart k1)) < 2 ^ 31 - 4) as Hn1 by (change (k_hart k1) with (reset (k_hart k)); by rewrite Hcpu).
  apply wp_bind, wp_mm, console_ok; [done|]. intros c1 Hc1. apply wp_bind, wp_mm, printfinit_ok; [done|]. intros c2 Hc2.
  apply wp_bind, wp_mm. eapply (wp_kk_say lsr fuel Hlsr); [reflexivity|exact Hs1|exact Hn1|done|]. intros c3 Hc3.
  apply wp_bind, wp_mm. eapply wp_mono; [by apply (kinit_said_ok kernel_end He lsr fuel Hlsr)|].
  intros [] s (k2 & c4 & -> & Hc4 & Hk2 & Hh2 & Hm2).
  apply wp_bind, wp_mm. eapply wp_mono.
  { apply (kvminit_ok kernel_end trampoline signalTrampoline He (pl_tramp Hp) (pl_sig Hp) lsr fuel Hlsr);
      [exact Hk2|by rewrite Hh2|by rewrite Hh2|exact Hc4|lia]. }
  intros [] s (kpt & ps & pages & k3 & c5 & -> & Hc5 & Hkpt & Hh3 & Hps & Hs3 & Hcost & Hm3).
  apply wp_bind, kvminithart_ok; [done|by rewrite Hh3, Hh2|by rewrite Hh3, Hh2|done|]. intros c6 Hc6.
  apply wp_bind, timerinit_ok. apply wp_bind, trapinit_ok; [exact Htm|]. rewrite Hkpt.
  set (m3 := trapped _ _ _ _). set (k4 := update k_hart_l _ k3).
  apply wp_bind, wp_mm, wp_kk_p, procinit_ok. intros procs Hpr.
  eapply wp_mono.
  { eapply start_late_ok, (midway_intro m k1 k2 k3 c6 kpt ps pages procs Hm0); try assumption; reflexivity. }
  intros [] m' (tf & upt & a & b & d & ec & code & stack & pages' & Hb). by exists kpt, tf, upt, a, b, d, ec, ps, code, stack, pages'.
Qed.

(** The process layer when the scheduler begins. *)
Definition idled (s : pst) : pst := update (hart_l ⊚ (mycpu_l ⊚ c_proc_l)) None s.
(** The process layer when the scheduler gives the processor to process 0: its
    lock is held, and [mycpu] and the state of the process say that it runs. *)
Definition dispatched (s : pst) : pst :=
  let h := enabled (view hart_l s) in
  update (hart_l ⊚ (mycpu_l ⊚ c_proc_l)) (Some 0%nat) (update (proc_l 0 ⊚ p_state_l) RUNNING
    (update (plock_l 0) (taken (view (plock_l 0) s) (h_tp h)) (update hart_l (pushed h) s))).

Lemma enabled_calm h : settled h -> c_noff (view mycpu_l h) = 0 -> calm (enabled (update (mycpu_l ⊚ c_proc_l) None h)).
Proof using Type.
  intros [[[Hlt Hno Hcr Hie] Hn] _] H0. unfold calm.
  assert (view mycpu_l (enabled (update (mycpu_l ⊚ c_proc_l) None h)) = update c_proc_l None (view mycpu_l h)) as E.
  { cbn. by rewrite list_lookup_insert_eq. }
  split; [split|]; rewrite ?E; cbn [c_noff update c_proc_l]; try lia.
  - cbn. by rewrite length_insert.
  - by apply (lor_range _ _ 32).
Qed.

Lemma st_update {T} p q k pr vm (l : lens proc T) v :
  update (proc_l p ⊚ l) v (st p q k pr vm) = st p q k (update l v pr) vm.
Proof using Type. unfold st, proc_l. cbn. by rewrite lookup_insert_eq, insert_insert_eq. Qed.
Lemma st_view {T} p q k pr vm (l : lens proc T) : view (proc_l p ⊚ l) (st p q k pr vm) = view l pr.
Proof using Type. unfold st, proc_l. cbn. by rewrite lookup_insert_eq. Qed.
Lemma dispatched_st q k pr vm : dispatched (st 0 q k pr vm) =
  let h := enabled (k_hart k) in
  update (hart_l ⊚ (mycpu_l ⊚ c_proc_l)) (Some 0%nat) (st 0 q (update k_hart_l (pushed h) k)
    (update p_state_l RUNNING (update p_lock_l (taken (p_lock pr) (h_tp (k_hart k))) pr)) vm).
Proof using Type.
  unfold dispatched, plock_l. rewrite st_view. change (view hart_l (st 0 q k pr vm)) with (k_hart k).
  set (h := enabled (k_hart k)).
  change (update hart_l (pushed h) (st 0 q k pr vm)) with (st 0 q (update k_hart_l (pushed h) k) pr vm).
  by rewrite !st_update.
Qed.

Lemma pass_dispatches q k pr vm : calm (enabled (k_hart k)) -> p_state pr = RUNNABLE -> unheld (p_lock pr) ->
  yields scheduler_pass (fun w _ s' => w = WSched /\ s' = dispatched (st 0 q k pr vm)) (st 0 q k pr vm).
Proof using Type.
  intros Hc Hst Hl. unfold scheduler_pass. apply yields_bind, wp_zoom, wp_md. set (h := enabled (k_hart k)) in *.
  match goal with |- yields _ _ ?s => change s with (st 0 q (update k_hart_l h k) pr vm) end.
  apply yields_seq. unfold nproc. cbn [seq for_acc].
  apply yields_seq, yields_bind, wp_st_lock; [exact Hc|by rewrite <- Hl|].
  apply yields_bind, wp_st_get. change (view p_state_l _) with (p_state pr). rewrite Hst, decide_True by done.
  apply yields_seq, yields_bind, wp_st_set, yields_bind, wp_zoom, wp_wr, yields_seq.
  unfold swtch, yields. split; [done|]. rewrite dispatched_st. fold h. reflexivity.
Qed.

(** C3. Hart 0 that enters [main] sets everything up and gives the processor to
    the first process: at the first switch of its scheduler it has what [booted]
    says, and process 0 is running with its lock held. *)
Theorem main_starts_init m : entering m ->
  yields (main kernel_end trampoline signalTrampoline forkret_addr initcode size sdcard kernelvec handle_tlbr handle_merr lsr fuel)
    (fun w _ m' => w = WSched /\ exists kpt tf upt a b c ec ps code stack pages m1,
       booted m kpt tf upt a b c ec ps code stack pages m1
       /\ m' = update (mc_sys_l ⊚ syp) (dispatched (idled (kn_p (sy_k (mc_sys m1))))) m1) m.
Proof using All.
  intros Hm. unfold main. apply yields_bind, wp_zoom, wp_zoom, wp_zoom, wp_gets.
  match goal with |- context [(?x =? 0)%nat] => replace x with 0%nat by (symmetry; exact (en_tp _ Hm)) end. cbn [Nat.eqb].
  apply yields_bind.
  match goal with |- wp _ _ ?s => replace s with m by (by destruct m as [[[[[[]]]]]]) end.
  eapply wp_mono; [by apply start_boots|].
  intros [] m1 (kpt & tf & upt & a & b & c & ec & ps & code & stack & pages & Hb).
  destruct (bt_hart _ _ _ _ _ _ _ _ _ _ _ _ _ Hb) as (Hs & H0 & _). destruct (bt_first _ _ _ _ _ _ _ _ _ _ _ _ _ Hb) as (Hf & _).
  destruct fuel as [|f]; [destruct (Hlsr 0%nat) as (j & ? & _); lia|].
  apply yields_zoom. unfold scheduler. cbn [loop]. apply yields_bind, wp_zoom, wp_zoom, wp_wr, yields_seq, yields_seq, yields_zoom.
  set (p := kn_p (sy_k (mc_sys m1))) in *. set (pr := first_proc (inited 0 proc0) 1 size tf upt a ec forkret_addr) in *.
  match goal with |- yields _ _ ?s => change s with (idled p) end.
  assert (idled p = st 0 p (update (k_hart_l ⊚ (mycpu_l ⊚ c_proc_l)) None (s_k p)) pr (s_vmas p)) as Ep
    by (unfold st; rewrite insert_id by done; reflexivity).
  assert (yields scheduler_pass (fun w _ s' => w = WSched /\ s' = dispatched (idled p)) (idled p)) as Hy.
  { rewrite Ep. apply pass_dispatches; [exact (enabled_calm _ Hs H0)|done|done]. }
  eapply yields_mono; [exact Hy|]. intros w rest s' [-> ->]. split; [done|].
  exists kpt, tf, upt, a, b, c, ec, ps, code, stack, pages, m1. split; [exact Hb|]. by destruct m1 as [[]].
Qed.
End Start.

(** A machine at power on. *)
Definition boot_mach : mach :=
  Mach (Ksys (Kern (Pst (Kst (Hart 0 0 [cpu0; cpu0]) (Spin 0 "" None) 0 0 ∅ 0 []) ∅ (Spin 0 "" None) 1 None ∅ true)
          (Bio (Spin 0 "" None) ∅ (Spin 0 "" None) 0 ∅) (Fsys (Fat 0 0 0 0 0 0 0 0 0 0 0 0) (Spin 0 "" None) ∅)
          demo_con (Spin 0 "" None) ∅ ∅ ∅) (Spin 0 "" None) 0 ∅ 0 [] 0 0 (Csrs 0 0 0 0 0 0 0 0 0 (Z.shiftl 47 4) 0 0))
    ∅ [] csr_info0 0.
Lemma boot_placed : placed (RAMBASE + 0x200000) (RAMBASE + 0x3000) (RAMBASE + 0x4000) (RAMBASE + 0x100000) 0x64.
Proof. split; try done. Qed.
Lemma boot_entering : entering boot_mach.
Proof. split; try done. split; [cbn; lia|done]. Qed.

Lemma main_starts_init_witness :
  yields (main (RAMBASE + 0x200000) (RAMBASE + 0x3000) (RAMBASE + 0x4000) RAMBASE (RAMBASE + 0x100000) 0x64 0x9000000006000000
        RAMBASE RAMBASE RAMBASE (fun _ => 32) 1)
    (fun w _ m' => w = WSched /\ exists kpt tf upt a b c ec ps code stack pages m1,
      booted (RAMBASE + 0x200000) (RAMBASE + 0x3000) (RAMBASE + 0x4000) RAMBASE (RAMBASE + 0x100000) 0x64 0x9000000006000000
        RAMBASE RAMBASE RAMBASE 1 boot_mach kpt tf upt a b c ec ps code stack pages m1
      /\ m' = update (mc_sys_l ⊚ syp) (dispatched (idled (kn_p (sy_k (mc_sys m1))))) m1) boot_mach.
Proof.
  exact (main_starts_init (RAMBASE + 0x200000) (RAMBASE + 0x3000) (RAMBASE + 0x4000) RAMBASE (RAMBASE + 0x100000) 0x64
    0x9000000006000000 RAMBASE RAMBASE RAMBASE (fun _ => 32) 1 1 boot_placed ltac:(done) demo_responds boot_mach boot_entering).
Defined.
