(* ===== verification/FdCalls.v ===== *)
(** The calls on descriptors ([sys_dup], [sys_dup3], [sys_close]) against a
    table of descriptors: what each returns, what it makes of the table, and
    the counts of the open files. *)

From S2P Require Import Prelude Mem Strings Digits Locks Kalloc Vm PageTable VmProps ProcState Vma Proc ProcFacts SchedFacts Sleeplock Bio Circ UserMem Pipe FatName Fat FatDir Console File PrintFacts Args ProcLife SysFile Mmap Signal Exec Timer SysProc Syscall TrapFacts.

(** * The specification *)

Inductive fdcall :=
| DDup (fd : Z)
| DDup3 (fd newfd : Z)
| DClose (fd : Z).

(** The file at a descriptor. *)
Definition open_at (l : list (option nat)) (fd : Z) : option nat :=
  if (fd <? 0) || (Z.of_nat NOFILE <=? fd) then None else default None (l !! Z.to_nat fd).
(** The lowest free descriptor below the limit. *)
Definition lowest (l : list (option nat)) (lim : Z) : option nat :=
  find (fun i => bool_decide (default None (l !! i) = None)) (seq 0 (Z.to_nat lim)).

(** The result, the table, and the files nobody can reach any more although
    they are counted: [dup3] drops the file its target had. *)
Definition spec_fd (lim : Z) (c : fdcall) (l : list (option nat)) (lost : list nat)
  : Z * list (option nat) * list nat :=
  match c with
  | DDup fd =>
      match open_at l fd, lowest l lim with
      | None, _ => (IERR, l, lost)
      | Some _, None => (u64 (-24), l, lost)
      | Some f, Some n => (Z.of_nat n, <[n := Some f]> l, lost)
      end
  | DDup3 fd newfd =>
      match open_at l fd with
      | None => (IERR, l, lost)
      | Some f =>
          if newfd <? 0 then (IERR, l, lost)
          else if lim <=? newfd then (u64 (-24), l, lost)
          else match open_at l newfd with
               | None => (newfd, <[Z.to_nat newfd := Some f]> l, lost)
               | Some g => if decide (g = f) then (newfd, l, lost)
                           else (newfd, <[Z.to_nat newfd := Some f]> l, g :: lost)
               end
      end
  | DClose fd =>
      match open_at l fd with
      | None => (IERR, l, lost)
      | Some f => (0, <[Z.to_nat fd := None]> l, lost)
      end
  end.
Fixpoint spec_fds (lim : Z) (cs : list fdcall) (l : list (option nat)) (lost : list nat)
  : list Z * list (option nat) * list nat :=
  match cs with
  | [] => ([], l, lost)
  | c :: cs =>
      let '(r, l, lost) := spec_fd lim c l lost in
      let '(rs, l, lost) := spec_fds lim cs l lost in (r :: rs, l, lost)
  end.

(** Arguments that are [int]s; -100 is not one for [dup] and [dup3], which
    would store it through a null pointer. *)
Definition is_int (z : Z) : Prop := -2147483648 <= z < 2147483648.
Definition ok_call (c : fdcall) : Prop :=
  match c with
  | DDup fd => is_int fd /\ fd <> -100
  | DDup3 fd newfd => is_int fd /\ fd <> -100 /\ is_int newfd
  | DClose fd => is_int fd
  end.

Section Run.
Variables (kernel_end : Z) (lsr : nat -> Z) (fuel cfuel dfuel : nat).

(** The calls with their arguments put where the program puts them. *)
Definition run_fd (c : fdcall) : M kern Z :=
  match c with
  | DDup fd => _ ← tf_store tf_a0 fd; sys_dup lsr fuel
  | DDup3 fd newfd => _ ← tf_store tf_a0 fd; _ ← tf_store (tf_a0 + 8) newfd; sys_dup3 lsr fuel
  | DClose fd => _ ← tf_store tf_a0 fd; sys_close kernel_end lsr fuel cfuel dfuel
  end.
Fixpoint run_fds (cs : list fdcall) : M kern (list Z) :=
  match cs with
  | [] => mret []
  | c :: cs => r ← run_fd c; rs ← run_fds cs; mret (r :: rs)
  end.
End Run.

(** * The state between two calls *)

Definition kpr (p : nat) (k : kern) : proc := view (kn_p_l ⊚ proc_l p) k.
Definition stt (p : nat) (k0 : kern) (files : gmap nat file) (c : con) (m : mem) (l : list (option nat)) : kern :=
  update ft_file_l files (update kn_c_l c (update (kn_p_l ⊚ mem_l) m
    (update (kn_p_l ⊚ proc_l p) (update p_ofile_l l (kpr p k0)) k0))).
Definition cnt (l : list (option nat)) (f : nat) : Z := Z.of_nat (count_occ (option_eq_dec (A := nat)) l (Some f)).

(** From [k0] on, process [p] has had the descriptors [l] and has lost the
    files [lost]; [others f] holders of [f] are elsewhere.  Nothing but its
    descriptors, the arguments in its trapframe, the counts and the output has
    changed. *)
Record fd_state (p : nat) (k0 : kern) (others : nat -> Z) (l : list (option nat)) (lost : list nat) (k : kern) : Prop := {
  fd_same : exists c m, k = stt p k0 (ft_file k) c m l /\ panicked c = 0 /\ unheld (pr_lock c)
     /\ but_words (p_trapframe (kpr p k0)) [tf_a0; tf_a0 + 8] (view (kn_p_l ⊚ mem_l) k0) m;
  fd_length : length l = NOFILE;
  fd_files : forall i f, l !! i = Some (Some f) -> (f < NFILE)%nat;
  fd_refs : forall f, (f < NFILE)%nat -> ref_of k f = others f + cnt l f + uses lost f;
  fd_bare : forall f, bare (f_type (view (fl f) k)) = true
}.
(** A kernel in which process [p] runs and may print. *)
Record running_in (p : nat) (k : kern) : Prop := {
  ri_file : file_ready k;
  ri_say : say_ready k;
  ri_proc : c_proc (view mycpu_l (view hart_l (kn_p k))) = Some p
}.

(** * Rules *)

Lemma fd_error_text fd : exists t, fmt_text (chars "fd: %d argfd: fd error" ++ [10; 0]) [VInt fd] = Some t.
Proof.
  destruct (int_text fd) as [d Ed]. eexists.
  let f := eval vm_compute in (chars "fd: %d argfd: fd error" ++ [10; 0]) in
    change (chars "fd: %d argfd: fd error" ++ [10; 0]) with f.
  cbn [fmt_text Z.eqb Pos.eqb negb conv_text va_int mbind option_bind]. rewrite Ed. reflexivity.
Qed.

Section Rules.
Variables (p : nat) (k0 : kern).
Hypothesis run0 : running_in p k0.
Abbreviation tf := (p_trapframe (kpr p k0)).

Lemma stt_hart files c m l : view hart_l (kn_p (stt p k0 files c m l)) = view hart_l (kn_p k0).
Proof using Type. clear run0. by destruct k0 as [[[] ? ? ? ? ? ?] ? ? ? ? ? ? ?]. Qed.
Lemma stt_kpr files c m l : kpr p (stt p k0 files c m l) = update p_ofile_l l (kpr p k0).
Proof using Type. exact (view_update (update p_ofile_l l (kpr p k0)) k0 : view (kn_p_l ⊚ proc_l p) _ = _). Qed.
Lemma stt_upd files c m l l' :
  update (kn_p_l ⊚ (proc_l p ⊚ p_ofile_l)) l' (stt p k0 files c m l) = stt p k0 files c m l'.
Proof using Type.
  set (X := update (kn_p_l ⊚ proc_l p) (update p_ofile_l l (kpr p k0)) k0).
  change (update _ l' _) with (update ft_file_l files (update kn_c_l c (update (kn_p_l ⊚ mem_l) m
    (update (kn_p_l ⊚ proc_l p) (update p_ofile_l l' (view (kn_p_l ⊚ proc_l p) X)) X)))).
  unfold X. by rewrite view_update, update_update.
Qed.
Lemma stt_same_hart files c m l :
  update (kn_p_l ⊚ hart_l) (view hart_l (kn_p k0)) (stt p k0 files c m l) = stt p k0 files c m l.
Proof using Type. clear run0. by destruct k0 as [[[] ? ? ? ? ? ?] ? ? ? ? ? ? ?]. Qed.
Lemma stt_file files c m l : file_ready (stt p k0 files c m l).
Proof using run0. destruct run0 as [[Hh Hl] _ _]. split; [by rewrite stt_hart|exact Hl]. Qed.
Lemma stt_say files c m l : panicked c = 0 -> unheld (pr_lock c) -> say_ready (stt p k0 files c m l).
Proof using run0. destruct run0 as [_ [Hh Hd _ _] _]. intros. by split; rewrite ?stt_hart. Qed.

Lemma wp_kcur_st files c m l (Q : nat -> kern -> Prop) :
  Q p (stt p k0 files c m l) -> wp kcur Q (stt p k0 files c m l).
Proof using run0.
  intros HQ. destruct run0 as [[Hh _] _ Hp]. apply (wp_kcur_kern p); rewrite !view_comp.
  - change (view kn_p_l ?k) with (kn_p k). rewrite stt_hart. apply Hh.
  - change (view kn_p_l ?k) with (kn_p k). by rewrite stt_hart.
  - change (view kn_p_l ?k) with (kn_p k). by rewrite stt_hart, (settled_eq _ Hh), stt_same_hart.
Qed.
Lemma wp_mine_st {T} (f : lens proc T) files c m l (Q : T -> kern -> Prop) :
  Q (view f (update p_ofile_l l (kpr p k0))) (stt p k0 files c m l) -> wp (mine f) Q (stt p k0 files c m l).
Proof using run0.
  intros HQ. apply wp_bind, wp_kcur_st, wp_rd.
  change (view (kn_p_l ⊚ (proc_l p ⊚ f)) ?k) with (view f (kpr p k)). by rewrite stt_kpr.
Qed.
Lemma wp_load_st o files c m l (Q : Z -> kern -> Prop) :
  Q (rd64 m (tf + o)) (stt p k0 files c m l) -> wp (tf_load o) Q (stt p k0 files c m l).
Proof using run0. intros HQ. by apply wp_bind, wp_mine_st. Qed.
Lemma wp_store_st o v files c m l (Q : unit -> kern -> Prop) :
  Q tt (stt p k0 files c (wr64 m (tf + o) v) l) -> wp (tf_store o v) Q (stt p k0 files c m l).
Proof using run0. intros HQ. by apply wp_bind, wp_mine_st. Qed.
Lemma wp_argint_st n a files c m l (Q : Z -> kern -> Prop) : 0 <= n <= 6 ->
  rd64 m (tf + (tf_a0 + 8 * n)) = u64 a -> is_int a ->
  Q a (stt p k0 files c m l) -> wp (argint n) Q (stt p k0 files c m l).
Proof using run0.
  intros Hn Ea Ha HQ. unfold argint, argraw.
  rewrite (proj2 (Z.leb_le 0 n)), (proj2 (Z.leb_le n 6)) by lia. apply wp_bind, wp_load_st, wp_mret.
  rewrite Ea. replace (s32 (u64 a)) with a; [done|]. unfold is_int in Ha. clear -Ha. unfold s32, u64.
  rewrite <- Zplus_mod_idemp_l. rewrite Z.mod_mod_divide by (by exists (2 ^ 32)).
  rewrite Zplus_mod_idemp_l, Z.mod_small; lia.
Qed.
Lemma wp_ofile_st fd files c m l (Q : option nat -> kern -> Prop) :
  Q (default None (l !! Z.to_nat fd)) (stt p k0 files c m l) -> wp (ofile fd) Q (stt p k0 files c m l).
Proof using run0. intros HQ. by apply wp_bind, wp_mine_st, wp_mret. Qed.
Lemma wp_set_ofile_st fd o files c m l (Q : unit -> kern -> Prop) :
  Q tt (stt p k0 files c m (<[Z.to_nat fd := o]> l)) -> wp (set_ofile fd o) Q (stt p k0 files c m l).
Proof using run0.
  intros HQ. apply wp_bind, wp_kcur_st, wp_md.
  change (view (kn_p_l ⊚ (proc_l p ⊚ p_ofile_l)) ?k) with (p_ofile (kpr p k)). rewrite stt_kpr.
  by rewrite stt_upd.
Qed.
Lemma wp_scan_st f xs : forall files c m l (Q : option Z -> kern -> Prop),
  (match find (fun i => bool_decide (default None (l !! i) = None)) xs with
   | Some n => Q (Some (Z.of_nat n)) (stt p k0 files c m (<[n := Some f]> l))
   | None => Q None (stt p k0 files c m l)
   end) ->
  wp (for_until (Z.of_nat <$> xs) (fun fd =>
    if fd <? 0 then undef "p->ofile[fd]"
    else
      o ← ofile fd;
      match o with
      | None => _ ← set_ofile fd (Some f); mret (Some fd)
      | Some _ => mret None
      end)) Q (stt p k0 files c m l).
Proof using run0.
  induction xs as [|x xs IH]; intros files c m l Q HQ; [by apply wp_mret|]. cbn [for_until fmap list_fmap].
  rewrite (proj2 (Z.ltb_ge (Z.of_nat x) 0)) by lia. cbn [find] in HQ.
  apply wp_bind, wp_bind, wp_ofile_st. rewrite Nat2Z.id.
  destruct (default None (l !! x)) as [g|] eqn:E.
  - rewrite bool_decide_false in HQ by done. apply wp_mret. by apply IH.
  - rewrite bool_decide_true in HQ by done. apply wp_bind, wp_set_ofile_st, wp_mret, wp_mret.
    by rewrite Nat2Z.id.
Qed.
Lemma wp_fdalloc_st f files c m l (Q : Z -> kern -> Prop) :
  (match lowest l (NOFILEMAX (kpr p k0)) with
   | Some n => Q (Z.of_nat n) (stt p k0 files c m (<[n := Some f]> l))
   | None => Q (-1) (stt p k0 files c m l)
   end) -> wp (fdalloc f) Q (stt p k0 files c m l).
Proof using run0.
  intros HQ. unfold fdalloc, fd_scan. apply wp_bind, wp_bind, wp_kcur_st, wp_bind, wp_rd.
  change (view (kn_p_l ⊚ proc_l p) ?k) with (kpr p k). rewrite stt_kpr.
  change (NOFILEMAX (update p_ofile_l l (kpr p k0))) with (NOFILEMAX (kpr p k0)).
  rewrite Z.sub_0_r. replace (seqZ 0 _) with (Z.of_nat <$> seq 0 (Z.to_nat (NOFILEMAX (kpr p k0)))).
  2:{ unfold seqZ. apply list_fmap_ext. intros. cbn. lia. }
  apply wp_scan_st. unfold lowest in HQ. destruct (find _ _); by apply wp_mret.
Qed.

Section Descr.
Variables (kernel_end : Z) (lsr : nat -> Z) (fuel cfuel dfuel : nat).
Hypothesis responsive : responds lsr fuel.

(** A console that was only written to. *)
Definition can_say (c : con) : Prop := panicked c = 0 /\ unheld (pr_lock c).

Lemma wp_argfd_st n fd pfd files c m l (Q : fdarg -> kern -> Prop) : 0 <= n <= 6 ->
  rd64 m (tf + (tf_a0 + 8 * n)) = u64 fd -> is_int fd -> can_say c -> fd <> -100 \/ pfd = true ->
  (forall f, open_at l fd = Some f ->
     Q (Fdarg 0 (if pfd then Some fd else None) (Some f)) (stt p k0 files c m l)) ->
  (open_at l fd = None -> forall r o c', r < 0 -> can_say c' -> Q (Fdarg r o None) (stt p k0 files c' m l)) ->
  wp (argfd lsr fuel n pfd) Q (stt p k0 files c m l).
Proof using run0 responsive.
  intros Hn Ea Ha Hc Hp Hok Hbad. unfold argfd.
  apply wp_bind, (wp_argint_st _ fd); [done|done|done|].
  destruct (Z.eqb_spec fd (-1)) as [->|H1]; [apply wp_mret; by apply Hbad|].
  destruct (Z.eqb_spec fd (-100)) as [->|H2].
  { destruct Hp as [?| ->]; [done|]. apply wp_mret. by apply Hbad. }
  unfold open_at in Hok, Hbad. apply wp_bind.
  assert (wp (_ ← put_line lsr fuel "fd: %d argfd: fd error" [VInt fd]; mret (Fdarg (-1) None None))
    (fun x k => exists c', can_say c' /\ x = Fdarg (-1) None None /\ k = stt p k0 files c' m l) (stt p k0 files c m l)) as Hsay.
  { destruct (fd_error_text fd) as [t Et]. apply wp_bind. eapply wp_put_line; [done|by apply stt_say; apply Hc|exact Et|].
    intros n1. apply wp_mret. exists (said (flat_map echoed t) n1 c). split; [exact Hc|]. split; [done|]. reflexivity. }
  destruct ((fd <? 0) || _) eqn:Er.
  - apply wp_mret. eapply wp_mono; [exact Hsay|]. intros x k (c' & Hc' & -> & ->). by apply Hbad.
  - apply wp_ofile_st. destruct (default None (l !! Z.to_nat fd)) as [f|] eqn:Ef.
    + apply wp_mret. by apply Hok.
    + eapply wp_mono; [exact Hsay|]. intros x k (c' & Hc' & -> & ->). by apply Hbad.
Qed.

Lemma wp_filedup_st f files c m l (Q : nat -> kern -> Prop) (x := default file0 (files !! f)) :
  1 <= f_ref x < 2 ^ 31 - 1 ->
  Q f (stt p k0 (<[f := update f_ref_l (f_ref x + 1) x]> files) c m l) ->
  wp (filedup f) Q (stt p k0 files c m l).
Proof using run0. intros Hf HQ. by apply wp_filedup; [apply stt_file|..]. Qed.
Lemma wp_fileclose_st f files c m l (Q : unit -> kern -> Prop) (x := default file0 (files !! f)) :
  1 <= f_ref x -> bare (f_type x) = true ->
  Q tt (stt p k0 (<[f := closed x]> files) c m l) ->
  wp (fileclose kernel_end fuel cfuel dfuel f) Q (stt p k0 files c m l).
Proof using run0. intros Hf Hb HQ. by apply wp_fileclose; [apply stt_file|..]. Qed.

(** ** The counts *)

Lemma cnt_cons o l g : cnt (o :: l) g = (if decide (o = Some g) then 1 else 0) + cnt l g.
Proof using Type. unfold cnt. cbn [count_occ]. destruct (option_eq_dec o (Some g)), (decide (o = Some g)); try done; lia. Qed.
Lemma cnt_insert l : forall n o x g, l !! n = Some o ->
  cnt (<[n := x]> l) g = cnt l g - (if decide (o = Some g) then 1 else 0) + (if decide (x = Some g) then 1 else 0).
Proof using Type.
  induction l as [|y l IH]; intros [|n] o x g Hn; cbn in Hn; [done..| |].
  - injection Hn as ->. cbn. rewrite !cnt_cons. lia.
  - change (<[S n := x]> (y :: l)) with (y :: <[n := x]> l). rewrite !cnt_cons, (IH n o x g Hn). lia.
Qed.
Lemma cnt_le l g : 0 <= cnt l g <= Z.of_nat (length l).
Proof using Type. unfold cnt. pose proof (count_occ_bound (option_eq_dec (A := nat)) (Some g) l). lia. Qed.
Lemma cnt_pos l n f : l !! n = Some (Some f) -> 1 <= cnt l f.
Proof using Type.
  intros Hn. pose proof (cnt_insert l n _ None f Hn) as E. rewrite decide_True, decide_False in E by done.
  pose proof (cnt_le (<[n := None]> l) f). lia.
Qed.
Lemma open_at_lookup l fd f : open_at l fd = Some f -> 0 <= fd < Z.of_nat NOFILE /\ l !! Z.to_nat fd = Some (Some f).
Proof using Type.
  unfold open_at. destruct (Z.ltb_spec fd 0), (Z.leb_spec (Z.of_nat NOFILE) fd); cbn; try done.
  intros E. split; [lia|]. by destruct (l !! Z.to_nat fd) as [[]|]; [injection E as ->| |].
Qed.
Lemma lowest_lookup l lim n : length l = NOFILE -> lim <= Z.of_nat NOFILE -> lowest l lim = Some n -> l !! n = Some None.
Proof using Type.
  intros Hl Hm E. apply find_some in E as [Hi%list_elem_of_In%elem_of_seq E%bool_decide_eq_true].
  destruct (lookup_lt_is_Some_2 l n) as [o Ho]; [lia|]. rewrite Ho in *. cbn in E. by rewrite E.
Qed.


Variable others : nat -> Z.
Abbreviation lim := (NOFILEMAX (kpr p k0)).
Abbreviation post c l lost := (fun r k' => let '(r', l', lost') := spec_fd lim c l lost in
  r = r' /\ fd_state p k0 others l' lost' k').

Lemma lim_le : lim <= Z.of_nat NOFILE.
Proof using Type. unfold NOFILEMAX. destruct (Z.ltb_spec (p_filelimit (kpr p k0)) (Z.of_nat NOFILE)); lia. Qed.

Lemma fd_state_st files c m l lost : can_say c ->
  but_words tf [tf_a0; tf_a0 + 8] (view (kn_p_l ⊚ mem_l) k0) m -> length l = NOFILE ->
  (forall i f, l !! i = Some (Some f) -> (f < NFILE)%nat) ->
  (forall f, (f < NFILE)%nat -> f_ref (default file0 (files !! f)) = others f + cnt l f + uses lost f) ->
  (forall f, bare (f_type (default file0 (files !! f))) = true) ->
  fd_state p k0 others l lost (stt p k0 files c m l).
Proof using Type. intros [Hc1 Hc2] Hm Hl Hf Hr Hb. split; try done. exists c, m. done. Qed.

(** Descriptor [n] becomes [x]; [f] is the file that gains or loses a holder. *)
Lemma fd_state_put files c m l lost n x lost' f y k : fd_state p k0 others l lost k -> ft_file k = files ->
  can_say c -> but_words tf [tf_a0; tf_a0 + 8] (view (kn_p_l ⊚ mem_l) k0) m ->
  (forall g, x = Some g -> g < NFILE)%nat -> bare (f_type y) = true ->
  f_ref y = others f + cnt (<[n := x]> l) f + uses lost' f ->
  (forall g, g <> f -> cnt (<[n := x]> l) g + uses lost' g = cnt l g + uses lost g) ->
  fd_state p k0 others (<[n := x]> l) lost' (stt p k0 (<[f := y]> files) c m (<[n := x]> l)).
Proof using Type.
  intros [_ Hl Hf Hr Hb] <- Hc Hm Hx Hy Ey Hg. apply fd_state_st; [done|done|by rewrite length_insert|..].
  - intros i g. destruct (decide (i = n)) as [->|Hi].
    + destruct (decide (n < length l)%nat); [rewrite list_lookup_insert_eq by done; intros [= ->]; by apply Hx|].
      rewrite list_insert_ge by lia. apply Hf.
    + rewrite list_lookup_insert_ne by done. apply Hf.
  - intros g Hgn. destruct (decide (g = f)) as [->|Hne]; [by rewrite lookup_insert_eq|].
    rewrite lookup_insert_ne by done. specialize (Hr g Hgn). specialize (Hg g Hne). unfold ref_of in Hr. cbn in Hr. lia.
  - intros g. destruct (decide (g = f)) as [->|Hne]; [by rewrite lookup_insert_eq|].
    rewrite lookup_insert_ne by done. apply (Hb g).
Qed.
Lemma fd_state_keep c m l lost k : fd_state p k0 others l lost k -> can_say c ->
  but_words tf [tf_a0; tf_a0 + 8] (view (kn_p_l ⊚ mem_l) k0) m ->
  fd_state p k0 others l lost (stt p k0 (ft_file k) c m l).
Proof using Type. intros [_ Hl Hf Hr Hb] Hc Hm. by apply fd_state_st. Qed.

Lemma fd_state_ref l lost k n f : fd_state p k0 others l lost k -> l !! n = Some (Some f) -> 0 <= others f ->
  (f < NFILE)%nat /\ 1 <= f_ref (default file0 (ft_file k !! f))
  /\ f_ref (default file0 (ft_file k !! f)) = others f + cnt l f + uses lost f.
Proof using Type.
  intros [_ Hl Hf Hr Hb] Hn Ho. pose proof (Hf n f Hn) as Hlt. pose proof (Hr f Hlt) as E.
  unfold ref_of in E. cbn in E. pose proof (cnt_pos l n f Hn). unfold uses in *. lia.
Qed.

Hypothesis others_pos : forall f, 0 <= others f.

Ltac kept := by apply fd_state_keep.
Ltac arg := rewrite rd64_wr64_eq; done.

Lemma dup_ok fd c m l lost k : fd_state p k0 others l lost k -> is_int fd -> fd <> -100 -> can_say c ->
  but_words tf [tf_a0; tf_a0 + 8] (view (kn_p_l ⊚ mem_l) k0) m -> rd64 m (tf + (tf_a0 + 8 * 0)) = u64 fd ->
  (forall f, others f + Z.of_nat NOFILE + uses lost f < 2 ^ 31 - 1) ->
  wp (sys_dup lsr fuel) (post (DDup fd) l lost) (stt p k0 (ft_file k) c m l).
Proof using run0 responsive others_pos.
  intros Hst Hi Hn Hc Hm Ea Hb. pose proof (fd_length _ _ _ _ _ _ Hst) as Hl. unfold sys_dup.
  apply wp_bind, (wp_argfd_st 0 fd); [lia|done|done|done|by left|..].
  - intros f Ho. cbn [spec_fd fa_ret fa_file]. rewrite Ho. cbn [Z.ltb Z.compare]. apply wp_bind, wp_mret.
    apply open_at_lookup in Ho as [Hfd Hf].
    destruct (fd_state_ref _ _ _ _ _ Hst Hf (others_pos f)) as (Hlt & Hr1 & Hr).
    apply wp_bind, wp_fdalloc_st. destruct (lowest l lim) as [n|] eqn:En.
    + apply lowest_lookup in En; [|done|apply lim_le].
      rewrite (proj2 (Z.ltb_ge _ 0)) by lia. pose proof (cnt_le l f). specialize (Hb f).
      apply wp_bind, wp_filedup_st; [lia|]. apply wp_mret. split.
      { apply u64_small. apply lookup_lt_Some in En. unfold NOFILE in *. lia. }
      apply (fd_state_put (ft_file k) c m l lost n _ lost f _ k); try done.
      * by intros g [= <-].
      * apply (fd_bare _ _ _ _ _ _ Hst f).
      * cbn [f_ref update f_ref_l]. rewrite (cnt_insert l n None) by done. rewrite decide_False, decide_True by done. lia.
      * intros g Hg. rewrite (cnt_insert l n None) by done. rewrite !decide_False by congruence. lia.
    + cbn [Z.ltb Z.compare]. apply wp_mret. split; [done|]. kept.
  - intros Ho r o c' Hr Hc'. cbn [spec_fd fa_ret]. rewrite Ho. rewrite (proj2 (Z.ltb_lt r 0)) by done.
    apply wp_mret. split; [done|]. kept.
Qed.

Lemma close_ok fd c m l lost k : fd_state p k0 others l lost k -> is_int fd -> can_say c ->
  but_words tf [tf_a0; tf_a0 + 8] (view (kn_p_l ⊚ mem_l) k0) m -> rd64 m (tf + (tf_a0 + 8 * 0)) = u64 fd ->
  wp (sys_close kernel_end lsr fuel cfuel dfuel) (post (DClose fd) l lost) (stt p k0 (ft_file k) c m l).
Proof using run0 responsive others_pos.
  intros Hst Hi Hc Hm Ea. pose proof (fd_length _ _ _ _ _ _ Hst) as Hl. unfold sys_close.
  apply wp_bind, (wp_argfd_st 0 fd); [lia|done|done|done|by right|..].
  - intros f Ho. cbn [spec_fd fa_ret fa_file fa_fd]. rewrite Ho. cbn [Z.ltb Z.compare].
    apply wp_bind, wp_mret, wp_bind, wp_mret, wp_bind, wp_set_ofile_st.
    apply open_at_lookup in Ho as [Hfd Hf].
    destruct (fd_state_ref _ _ _ _ _ Hst Hf (others_pos f)) as (Hlt & Hr1 & Hr).
    pose proof (fd_bare _ _ _ _ _ _ Hst f) as Hbf.
    apply wp_bind, wp_fileclose_st; [done|done|]. apply wp_mret. split; [done|].
    apply (fd_state_put (ft_file k) c m l lost (Z.to_nat fd) _ lost f _ k); try done.
    + unfold closed. by destruct (_ =? 1).
    + rewrite (cnt_insert l _ (Some f)) by done. rewrite decide_True, decide_False by done.
      unfold closed. destruct (Z.eqb_spec (f_ref (default file0 (ft_file k !! f))) 1); cbn; lia.
    + intros g Hg. rewrite (cnt_insert l _ (Some f)) by done. rewrite !decide_False by congruence. lia.
  - intros Ho r o c' Hr Hc'. cbn [spec_fd fa_ret]. rewrite Ho. rewrite (proj2 (Z.ltb_lt r 0)) by done.
    apply wp_mret. split; [done|]. kept.
Qed.

Lemma open_at_in l fd : 0 <= fd < Z.of_nat NOFILE -> length l = NOFILE -> l !! Z.to_nat fd = Some (open_at l fd).
Proof using Type.
  intros Hfd Hl. unfold open_at. rewrite (proj2 (Z.ltb_ge _ _)), (proj2 (Z.leb_gt _ _)) by lia. cbn.
  destruct (lookup_lt_is_Some_2 l (Z.to_nat fd)) as [o ->]; [lia|done].
Qed.
Lemma dup3_ok fd newfd c m l lost k : fd_state p k0 others l lost k -> is_int fd -> fd <> -100 -> is_int newfd ->
  can_say c -> but_words tf [tf_a0; tf_a0 + 8] (view (kn_p_l ⊚ mem_l) k0) m ->
  rd64 m (tf + (tf_a0 + 8 * 0)) = u64 fd -> rd64 m (tf + (tf_a0 + 8 * 1)) = u64 newfd ->
  (forall f, others f + Z.of_nat NOFILE + uses lost f < 2 ^ 31 - 1) ->
  wp (sys_dup3 lsr fuel) (post (DDup3 fd newfd) l lost) (stt p k0 (ft_file k) c m l).
Proof using run0 responsive others_pos.
  intros Hst Hi Hn Hi' Hc Hm Ea Ea' Hb. pose proof (fd_length _ _ _ _ _ _ Hst) as Hl. unfold sys_dup3.
  apply wp_bind, wp_kcur_st, wp_bind, (wp_argfd_st 0 fd); [lia|done|done|done|by left|..].
  2:{ intros Ho r o c' Hr Hc'. cbn [spec_fd fa_ret]. rewrite Ho. rewrite (proj2 (Z.ltb_lt r 0)) by done.
      apply wp_mret. split; [done|]. kept. }
  intros f Ho. cbn [spec_fd fa_ret fa_file]. rewrite Ho. cbn [Z.ltb Z.compare].
  apply open_at_lookup in Ho as [Hfd Hf].
  destruct (fd_state_ref _ _ _ _ _ Hst Hf (others_pos f)) as (Hlt & Hr1 & Hr).
  apply wp_bind, (wp_argint_st 1 newfd); [lia|done|done|].
  destruct (Z.ltb_spec newfd 0) as [Hneg|Hpos]; [apply wp_mret; split; [done|]; kept|].
  apply wp_bind, wp_rd. change (view (kn_p_l ⊚ proc_l p) ?k) with (kpr p k). rewrite stt_kpr.
  change (NOFILEMAX (update p_ofile_l l (kpr p k0))) with lim. pose proof lim_le as Hlim.
  destruct (Z.leb_spec lim newfd) as [Hge|Hlt']; [apply wp_mret; split; [done|]; kept|].
  pose proof (open_at_in l newfd ltac:(lia) Hl) as Hg.
  apply wp_bind, wp_mret, wp_bind, wp_ofile_st. rewrite Hg. cbn [default].
  set (o := open_at l newfd) in *. apply wp_bind.
  assert (u64 newfd = newfd) as Eu by (apply u64_small; unfold NOFILE in *; lia). cbn [from_option id]. rewrite Eu.
  destruct (decide (o = Some f)) as [->|Hof].
  - rewrite bool_decide_true, decide_True by done. apply wp_mret, wp_mret. split; [done|]. kept.
  - rewrite bool_decide_false by done. cbn [negb when]. pose proof (cnt_le l f). specialize (Hb f).
    apply wp_bind, wp_filedup_st; [lia|]. apply wp_set_ofile_st, wp_mret.
    assert (forall lost', (forall g, uses lost' g = uses lost g + (if decide (o = Some g) then 1 else 0)) ->
      fd_state p k0 others (<[Z.to_nat newfd:=Some f]> l) lost'
        (stt p k0 (<[f := update f_ref_l (f_ref (default file0 (ft_file k !! f)) + 1) (default file0 (ft_file k !! f))]> (ft_file k)) c m
           (<[Z.to_nat newfd:=Some f]> l))) as Hput.
    { intros lost' Hu. apply (fd_state_put (ft_file k) c m l lost _ _ lost' f _ k); try done.
      - by intros g [= <-].
      - apply (fd_bare _ _ _ _ _ _ Hst f).
      - cbn [f_ref update f_ref_l]. rewrite (cnt_insert l _ o), Hu by done. rewrite (decide_True (P := Some f = Some f)) by done. lia.
      - intros g Hgf. rewrite (cnt_insert l _ o), Hu by done. rewrite (decide_False (P := Some f = Some g)) by congruence. lia. }
    destruct o as [g|] eqn:Eo.
    + rewrite decide_False by congruence. split; [done|]. apply Hput. intros h. rewrite uses_cons.
      destruct (decide (g = h)), (decide (Some g = Some h)); congruence || lia.
    + split; [done|]. apply Hput. intros h. rewrite decide_False by done. lia.
Qed.

Lemma run_fd_ok c l lost k : fd_state p k0 others l lost k -> ok_call c ->
  (forall f, others f + Z.of_nat NOFILE + uses lost f < 2 ^ 31 - 1) ->
  wp (run_fd kernel_end lsr fuel cfuel dfuel c) (post c l lost) k.
Proof using run0 responsive others_pos.
  intros Hst Hc Hb. destruct (fd_same _ _ _ _ _ _ Hst) as (cn & m & E & Hp & Hl & Hm).
  assert (can_say cn) as Hs by done. clear Hp Hl.
  cut (wp (run_fd kernel_end lsr fuel cfuel dfuel c) (post c l lost) (stt p k0 (ft_file k) cn m l)); [by rewrite <- E|]. clear E.
  destruct c as [fd|fd newfd|fd]; cbn [run_fd ok_call] in *.
  - destruct Hc. apply wp_bind, wp_store_st.
    apply dup_ok; try done; [|by rewrite rd64_wr64_eq]. apply but_words_wr; [|done]. apply list_elem_of_here.
  - destruct Hc as (? & ? & ?). apply wp_bind, wp_store_st, wp_bind, wp_store_st. unfold tf_a0 in *.
    apply dup3_ok; try done.
    + do 2 (apply but_words_wr; [by repeat (apply list_elem_of_here || apply list_elem_of_further)|]). done.
    + rewrite rd64_wr64_ne by (unfold tf_a0; lia). exact (rd64_wr64_eq m _ fd).
    + exact (rd64_wr64_eq _ _ newfd).
  - apply wp_bind, wp_store_st.
    apply close_ok; try done; [|by rewrite rd64_wr64_eq]. apply but_words_wr; [|done]. apply list_elem_of_here.
Qed.
Lemma spec_fd_lost c l lost : (length (spec_fd lim c l lost).2 <= S (length lost))%nat.
Proof using Type.
  destruct c as [fd|fd newfd|fd]; cbn [spec_fd]; repeat (case_match; cbn [snd length]; try lia).
Qed.
Lemma run_fds_ok cs : forall l lost k, fd_state p k0 others l lost k -> Forall ok_call cs ->
  (forall f, others f + Z.of_nat (NOFILE + length lost + length cs) < 2 ^ 31 - 1) ->
  wp (run_fds kernel_end lsr fuel cfuel dfuel cs) (fun rs k' => let '(rs', l', lost') := spec_fds lim cs l lost in
    rs = rs' /\ fd_state p k0 others l' lost' k') k.
Proof using run0 responsive others_pos.
  induction cs as [|c cs IH]; intros l lost k Hst Hok Hb; [by apply wp_mret|].
  inversion Hok as [|? ? H1 H2]; subst. cbn [run_fds spec_fds length] in *. pose proof (spec_fd_lost c l lost) as Hlost.
  apply wp_bind. eapply wp_mono; [apply (run_fd_ok c l lost); [done|done|]|].
  { intros f. pose proof (uses_le lost f). specialize (Hb f). lia. }
  cbn beta. intros r k' H. destruct (spec_fd lim c l lost) as [[r' l'] lost'] eqn:E. destruct H as [-> Hst']. cbn [snd] in Hlost.
  apply wp_bind. eapply wp_mono; [apply (IH l' lost' k' Hst' H2)|].
  { intros f. specialize (Hb f). lia. }
  cbn beta. intros rs k'' H. destruct (spec_fds lim cs l' lost') as [[rs' l''] lost''].
  destruct H as [-> Hst'']. apply wp_mret. done.
Qed.
End Descr.
End Rules.

(** C5. Descriptors.  Whatever calls of [dup], [dup3] and [close] a process makes
    while no open file is a pipe or a regular file ([bare]: closing one of those
    for the last time goes on into the pipe or the disk), with any integers but
    -100 (AT_FDCWD) for the descriptor [dup] and [dup3] copy, each returns what
    the table of descriptors says: -1 for a descriptor that is not open, the
    lowest free descriptor below the limit or -24; and the table is what the
    calls make it.  The count of every
    open file stays the number of its holders, plus the files [dup3] has lost:
    it does not close the file its target had, which nobody can release any
    more.  Nothing else changes but the output. *)
Theorem fd_calls (kernel_end : Z) (lsr : nat -> Z) (fuel cfuel dfuel p : nat) (others : nat -> Z)
    (cs : list fdcall) (l : list (option nat)) (k : kern) :
  responds lsr fuel -> running_in p k -> (forall f, 0 <= others f) -> fd_state p k others l [] k ->
  Forall ok_call cs -> (forall f, others f + Z.of_nat (NOFILE + length cs) < 2 ^ 31 - 1) ->
  wp (run_fds kernel_end lsr fuel cfuel dfuel cs) (fun rs k' =>
    let '(rs', l', lost') := spec_fds (NOFILEMAX (kpr p k)) cs l [] in
    rs = rs' /\ fd_state p k others l' lost' k') k.
Proof.
  intros Hr Hrun Ho Hst Hok Hb.
  apply (run_fds_ok p k Hrun kernel_end lsr fuel cfuel dfuel Hr others Ho cs l [] k Hst Hok).
  intros f. specialize (Hb f). cbn [length]. lia.
Qed.

(** * Two open files *)

Definition fd_table : list (option nat) := Some 0%nat :: Some 1%nat :: replicate 126 None.
Definition fd_file : file := update f_ref_l 1 (update f_type_l FD_DEVICE file0).
Definition fd_kern : kern :=
  update ft_file_l {[0%nat := fd_file; 1%nat := fd_file]}
    (update (kn_p_l ⊚ proc_l 0) (update p_trapframe_l trap_frame (update p_filelimit_l 128
       (update p_ofile_l fd_table (kpr 0 demo_kern)))) demo_kern).
Lemma fd_kern_running : running_in 0 fd_kern.
Proof.
  destruct (ct_ready _ _ _ demo_counts) as [Hh Hl].
  split; [split; [exact Hh|exact Hl]|split; [exact Hh|done|done|done]|done].
Qed.
Lemma fd_kern_state : fd_state 0 fd_kern (fun _ => 0) fd_table [] fd_kern.
Proof.
  assert (forall f, ref_of fd_kern f = if decide (f < 2)%nat then 1 else 0) as Hr.
  { intros [|[|f]]; [done|done|]. unfold ref_of, fd_kern. cbn. rewrite !lookup_insert_ne, lookup_singleton_ne by done. done. }
  split; [|done| | |].
  - exists (kn_c fd_kern), (view (kn_p_l ⊚ mem_l) fd_kern). split; [|done]. by vm_compute.
  - intros [|[|i]] f E; [injection E as <-; unfold NFILE; lia..|].
    cbn [lookup fd_table list_lookup] in E. by apply lookup_replicate in E as [? _].
  - intros f _. rewrite Hr. unfold fd_table. rewrite !cnt_cons.
    replace (cnt (replicate 126 None) f) with 0 by (by destruct (decide (f = 0%nat)) as [->|]).
    destruct f as [|[|f]]; [done|done|]. rewrite !decide_False by (congruence || lia). done.
  - intros [|[|f]]; [done|done|]. unfold fd_kern. cbn. by rewrite !lookup_insert_ne, lookup_singleton_ne by done.
Qed.
Definition fd_ready_lsr (n : nat) : Z := LSR_TX_IDLE.
Lemma fd_ready_responds : responds fd_ready_lsr 1.
Proof. intros n. exists 0%nat. split; [lia|done]. Qed.

(** [dup3] onto descriptor 1 loses the file that was there. *)
Example fd_calls_witness :
  wp (run_fds 0 fd_ready_lsr 1 1 1 [DDup 0; DDup3 0 1; DClose 0; DDup 1; DClose 77]) (fun rs k' =>
    rs = [2; 1; 0; 0; IERR] /\
    fd_state 0 fd_kern (fun _ => 0) (Some 0%nat :: Some 0%nat :: Some 0%nat :: replicate 125 None) [1%nat] k') fd_kern.
Proof.
  exact (fd_calls 0 fd_ready_lsr 1 1 1 0 (fun _ => 0) [DDup 0; DDup3 0 1; DClose 0; DDup 1; DClose 77] fd_table fd_kern
    fd_ready_responds fd_kern_running (fun _ => Z.le_refl 0) fd_kern_state
    ltac:(repeat constructor; done) (fun _ => eq_refl)).
Defined.
