(* ===== verification/Fork.v ===== *)
(** What [fork] makes: a child with the parent's memory on pages of its own, its
    areas, its registers but for the result, and its open files. *)

From S2P Require Import Prelude Mem Strings Digits Locks Kalloc Vm PageTable VmProps Space BootMem ProcState Vma Proc ProcFacts BootProc UserInit UserCopy AreaCopy SchedFacts Sleeplock Bio Circ UserMem Pipe FatName Fat FatDir Console File Args ProcLife TrapFacts FdCalls.

(** The kernel [K] with the file system's state, the open files and the process
    layer given. *)
Definition fk (K : kern) (fs : fsys) (files : gmap nat file) (P : pst) : kern :=
  Kern P (kn_b K) fs (kn_c K) (ft_lock K) files (kn_devsw K) (kn_pipes K).
Abbreviation pl i := (kn_p_l ⊚ proc_l i).
Abbreviation pp m := (zoom kn_p_l m).

Section Fk.
Context (K : kern) (fs : fsys) (files : gmap nat file) (c : nat) (q : pst) (k : kst) (pr : proc) (vm : gmap Z vma).
Abbreviation here := (fk K fs files (st c q k pr vm)).

Lemma wp_fk_p {A} (m : M pst A) (Q : A -> kern -> Prop) P :
  wp m (fun a P' => Q a (fk K fs files P')) P -> wp (pp m) Q (fk K fs files P).
Proof. intros H. by apply wp_zoom. Qed.
Lemma wp_fk_get {T} (l : lens proc T) (Q : T -> kern -> Prop) : Q (view l pr) here -> wp (rd (pl c ⊚ l)) Q here.
Proof. intros HQ. apply wp_rd. unfold st, proc_l in *. cbn. by rewrite lookup_insert_eq. Qed.
Lemma wp_fk_set {T} (l : lens proc T) v (Q : unit -> kern -> Prop) :
  Q tt (fk K fs files (st c q k (update l v pr) vm)) -> wp (pl c ⊚ l <~ v) Q here.
Proof.
  intros HQ. apply wp_wr. unfold st, proc_l in *. cbn. by rewrite lookup_insert_eq, insert_insert_eq.
Qed.
Lemma wp_fk_md {T} (l : lens proc T) f (Q : unit -> kern -> Prop) :
  Q tt (fk K fs files (st c q k (update l (f (view l pr)) pr) vm)) -> wp (md (pl c ⊚ l) f) Q here.
Proof.
  intros HQ. apply wp_md. unfold st, proc_l in *. cbn. by rewrite lookup_insert_eq, insert_insert_eq.
Qed.
Lemma wp_fk_par p par (Q : proc -> kern -> Prop) : p <> c -> s_procs q !! p = Some par ->
  Q par here -> wp (rd (pl p)) Q here.
Proof. intros Hne E HQ. apply wp_rd. unfold st, proc_l in *. cbn. by rewrite lookup_insert_ne, E by done. Qed.
Lemma wp_fk_parf {T} p par (l : lens proc T) (Q : T -> kern -> Prop) : p <> c -> s_procs q !! p = Some par ->
  Q (view l par) here -> wp (rd (pl p ⊚ l)) Q here.
Proof. intros Hne E HQ. apply wp_rd. unfold st, proc_l in *. cbn. by rewrite lookup_insert_ne, E by done. Qed.
Lemma wp_fk_mem f (Q : unit -> kern -> Prop) : Q tt (fk K fs files (st c q (update k_mem_l (f (k_mem k)) k) pr vm)) ->
  wp (md (kn_p_l ⊚ mem_l) f) Q here.
Proof. intros HQ. by apply wp_md. Qed.
End Fk.

(** ** The open files are shared *)

(** The counts after [l] was duplicated. *)
Definition dups (l : list (option nat)) (files : gmap nat file) : gmap nat file :=
  foldl (fun m o => match o with
    | Some f => let x := default file0 (m !! f) in <[f := update f_ref_l (f_ref x + 1) x]> m
    | None => m end) files l.
Lemma dups_snoc l o files : dups (l ++ [o]) files = match o with
    | Some f => let x := default file0 (dups l files !! f) in <[f := update f_ref_l (f_ref x + 1) x]> (dups l files)
    | None => dups l files end.
Proof. unfold dups. by rewrite foldl_app. Qed.
Lemma cnt_snoc l o g : cnt (l ++ [o]) g = cnt l g + (if decide (o = Some g) then 1 else 0).
Proof.
  induction l as [|x l IH]; cbn [app].
  - rewrite cnt_cons. change (cnt [] g) with 0. lia.
  - rewrite !cnt_cons, IH. lia.
Qed.
Lemma dups_at l files f : default file0 (dups l files !! f)
  = let x := default file0 (files !! f) in update f_ref_l (f_ref x + cnt l f) x.
Proof.
  induction l as [|o l IH] using rev_ind.
  - cbn. destruct (default file0 (files !! f)). cbn. f_equal. unfold cnt. cbn. lia.
  - rewrite dups_snoc, cnt_snoc. destruct o as [g|].
    + destruct (decide (g = f)) as [->|Hne].
      * rewrite lookup_insert_eq. cbn [default from_option id]. rewrite IH, decide_True by done. cbn.
        destruct (default file0 (files !! f)). cbn. f_equal. lia.
      * rewrite lookup_insert_ne by done. rewrite IH, decide_False by congruence. cbn zeta. f_equal. lia.
    + rewrite IH, decide_False by done. cbn zeta. f_equal. lia.
Qed.

Lemma fk_ofile K fs files c q k pr vm l l' : l = l' ->
  fk K fs files (st c q k (update p_ofile_l l pr) vm) = fk K fs files (st c q k (update p_ofile_l l' pr) vm).
Proof. by intros ->. Qed.
Lemma filedups_ok K fs files c q k pr vm p par (Q : unit -> kern -> Prop) :
  file_ready (fk K fs files (st c q k pr vm)) -> p <> c -> s_procs q !! p = Some par ->
  length (p_ofile par) = NOFILE -> p_ofile pr = replicate NOFILE None ->
  (forall f, Some f ∈ p_ofile par -> 1 <= f_ref (default file0 (files !! f)) < 2 ^ 31 - 1 - Z.of_nat NOFILE) ->
  Q tt (fk K fs (dups (p_ofile par) files) (st c q k (update p_ofile_l (p_ofile par) pr) vm)) ->
  wp (for_each (seq 0 NOFILE) (fun i =>
        l ← rd (pl p ⊚ p_ofile_l);
        match default None (l !! i) with
        | Some f => f ← filedup f; md (pl c ⊚ p_ofile_l) (<[i := Some f]>)
        | None => mret tt
        end)) Q (fk K fs files (st c q k pr vm)).
Proof.
  intros Hr Hne Hp Hlen Hof Href HQ. set (ol := p_ofile par) in *.
  apply (wp_for_each _ (fun dn s => s = fk K fs (dups (take (length dn) ol) files)
    (st c q k (update p_ofile_l (take (length dn) ol ++ replicate (NOFILE - length dn) None) pr) vm))).
  - cbn [length]. rewrite take_0, Nat.sub_0_r. cbn [app]. rewrite <- Hof. by destruct pr.
  - intros dn i todo s E ->. assert (i = length dn /\ (i < NOFILE)%nat) as [-> Hi].
    { assert (seq 0 NOFILE !! length dn = Some i) as H by (rewrite E; by apply list_lookup_middle).
      by apply lookup_seq in H as [-> ?]. }
    destruct (lookup_lt_is_Some_2 ol (length dn)) as [o Ho]; [lia|].
    rewrite length_app. cbn [length]. rewrite Nat.add_1_r, (take_S_r ol _ o Ho), dups_snoc.
    assert (NOFILE - length dn = S (NOFILE - S (length dn)))%nat as El by lia. rewrite El. cbn [replicate].
    apply wp_bind. eapply wp_fk_parf; [done|exact Hp|]. change (view p_ofile_l par) with ol. rewrite Ho. cbn [default from_option id].
    destruct o as [f|].
    + assert (ref_of (fk K fs (dups (take (length dn) ol) files) (st c q k (update p_ofile_l
          (take (length dn) ol ++ None :: replicate (NOFILE - S (length dn)) None) pr) vm)) f
        = f_ref (default file0 (files !! f)) + cnt (take (length dn) ol) f) as Er
        by (change (ref_of (fk ?A ?B ?C ?D) f) with (f_ref (default file0 (C !! f))); by rewrite dups_at).
      pose proof (Href f ltac:(by eapply list_elem_of_lookup_2)) as Hb.
      pose proof (cnt_le (take (length dn) ol) f) as Hc. rewrite length_take in Hc.
      apply wp_bind, wp_filedup; [by destruct Hr|rewrite Er; lia|].
      refine (wp_fk_md K fs _ c q k _ vm p_ofile_l _ _ _). refine (fk_ofile K fs _ c q k pr vm _ _ _). cbn [view p_ofile_l p_ofile update].
      rewrite insert_app_r_alt by (rewrite length_take; lia). rewrite length_take, Nat.min_l, Nat.sub_diag by lia.
      cbn. by rewrite <- app_assoc.
    + apply wp_mret. by rewrite <- app_assoc.
  - intros s ->. rewrite length_seq, Nat.sub_diag, app_nil_r, <- Hlen, firstn_all. exact HQ.
Qed.

(** ** The current directory *)

#[local] Instance phart_eclk : LensIndep (phart : lens fss hart) eclk.
Proof. split; by intros ?? [] || by intros ? []. Qed.
Definition edup_fs (cwd : option nat) (fs : fsys) : fsys :=
  match cwd with
  | Some e => update (ec_ents_l ⊚ (lmap e dirent0 ⊚ d_ref_l)) (d_ref (default dirent0 (ec_ents fs !! e)) + 1) fs
  | None => fs
  end.
Lemma edup_ok K fs files P cwd (Q : option nat -> kern -> Prop) : settled (view hart_l P) -> unheld (ec_lock fs) ->
  Q cwd (fk K (edup_fs cwd fs) files P) -> wp (zoom kfs (edup cwd)) Q (fk K fs files P).
Proof.
  intros Hh Hl HQ. apply wp_zoom. unfold edup. destruct cwd as [e|]; [|exact HQ].
  change (view kfs (fk K fs files P)) with (P, (kn_b K, fs)). apply wp_bind, wp_bind.
  apply (wp_enter phart eclk); [exact Hh|exact Hl|]. apply wp_bind, wp_md.
  destruct P as [[h lk fl n m kpt] procs pl np ip vm fi], fs as [g el ents].
  apply (wp_leave phart eclk h el); [exact Hh|exact Hl|done|done|]. apply wp_mret. exact HQ.
Qed.

(** ** The address space *)

Section Fork.
Variable kernel_end : Z.
Context (Hend : DMWIN_MASK <= kernel_end <= RAMSTOP).
Context (all : list Z) (Hall : Forall (page_ok kernel_end) all) (Hnd : NoDup all).
Variables trampoline signalTrampoline forkret_addr : Z.
Context (Ht : 0 <= trampoline /\ trampoline + PGSIZE < 2 ^ 63 + 2 ^ 62).
Context (Hst : 0 <= signalTrampoline /\ signalTrampoline + PGSIZE < 2 ^ 63 + 2 ^ 62).
Variables (lsr : nat -> Z) (fuel : nat).
Abbreviation kspace := (kspace kernel_end all).
Abbreviation kept := (kept all).

(** The pages below the size, when there is memory for them. *)
Lemma uvmcopy_enough rest old new fnew pages k sz : kspace rest new fnew pages k ->
  (forall x, x ∈ tables 3 (k_mem k) old -> x ∈ rest) ->
  Forall (fit k rest old fnew) (steps 0 sz) -> NoDup ((fun va => va / PGSIZE) <$> steps 0 sz) ->
  (4 * length (steps 0 sz) < length pages)%nat ->
  wp (uvmcopy kernel_end old new sz) (fun r k' => r = 0 /\ exists ps pages',
    copied kernel_end all k rest rest old new fnew (steps 0 sz) ps pages' k'
    /\ (length pages <= length pages' + 4 * length (steps 0 sz))%nat) k.
Proof using Hend Hall Hnd.
  intros Hs Hold Hfit Hn Hlen. unfold uvmcopy. apply wp_bind.
  eapply wp_mono; [exact (copy_vas_ok kernel_end Hend all Hall Hnd k rest rest old new fnew Hold (fun _ H => H) [] [] pages k _
    (copied_nil kernel_end all k rest rest old new fnew pages Hs) Hfit Hn)|].
  intros [va|] k1 (dn & ps & pages1 & Hc & H); cbn [app] in Hc.
  - destruct H as (todo & E & H). pose proof (f_equal (@length Z) E) as El. rewrite length_app in El. simpl in El. lia.
  - destruct H as [-> H]. apply wp_mret. split; [done|]. by exists ps, pages1.
Qed.

(** The areas, list and pages. *)
Lemma copy_areas_ok K fs files p c q k0 k pr par vm rest oth old new fnew dn ps pages ids :
  p <> c -> s_procs q !! p = Some par -> p_pagetable par = old -> p_pagetable pr = new ->
  (forall x, x ∈ tables 3 (k_mem k0) old -> x ∈ rest) -> (forall x, x ∈ rest -> x ∈ oth) ->
  copied kernel_end all k0 rest oth old new fnew dn ps pages k ->
  vlist vm (p_vma par) ids -> (forall x, x ∈ p_vma par :: ids -> x ∈ rest) ->
  (forall a v, a ∈ ids -> vm !! a = Some v -> 0 <= v_addr v < MAXVA) ->
  Forall (fit k0 rest old fnew) (areas_at vm ids) -> NoDup ((fun va => va / PGSIZE) <$> dn ++ areas_at vm ids) ->
  (4 * length (areas_at vm ids) + S (length ids) < length pages)%nat ->
  wp (copy_areas kernel_end lsr fuel p c) (fun r s => r = true /\ exists nh ns ps' pages' k' vm',
      s = fk K fs files (st c q k' (update p_vma_l nh pr) vm') /\ listed vm rest nh ids ns vm'
      /\ copied kernel_end all k0 rest (ns ++ nh :: oth) old new fnew (dn ++ areas_at vm ids) (ps ++ ps') pages' k'
      /\ (length pages <= length pages' + 4 * length (areas_at vm ids) + S (length ids))%nat)
    (fk K fs files (st c q k pr vm)).
Proof using Hend Hall Hnd.
  intros Hne Hp Hold_ Hnew Hold Hoth [Hh Hs] Hl Hin Hva Hfit Hn Hlen. unfold copy_areas.
  apply wp_bind. eapply wp_fk_parf; [done|exact Hp|]. change (view p_vma_l par) with (p_vma par).
  apply wp_bind, wp_fk_p. eapply wp_mono.
  { apply (vma_copy_ok kernel_end Hend all Hall Hnd c q k pr vm _ new _ pages (p_vma par) ids Hs Hl); [|lia].
    intros x Hx. apply elem_of_app. right. by apply Hoth, Hin. }
  intros nh P (ns & pages1 & k1 & vm1 & Hnh & -> & [Hls1 Hls2 Hls3] & Hs1 & Hk1 & Hc1).
  rewrite (proj2 (Z.eqb_neq nh 0)) by done.
  assert (copied kernel_end all k0 rest (ns ++ nh :: oth) old new fnew dn ps pages1 k1) as Hcp.
  { split; [by apply (holds_same all k0 rest oth old Hoth dn ps k k1 Hh)|]. eapply ks_perm; [|exact Hs1].
    rewrite (app_assoc ps ns), (Permutation_app_comm ps ns), <- app_assoc. apply Permutation_app_head.
    apply Permutation_middle. }
  destruct (vlist_in _ _ _ nh Hls1) as [hv Hhv]; [left|].
  apply wp_bind, wp_fk_p. eapply wp_st_vget; [exact Hhv|]. rewrite (vlist_first _ _ _ _ Hls1 Hhv).
  apply wp_bind. eapply wp_fk_parf; [done|exact Hp|]. change (view p_pagetable_l par) with (p_pagetable par). rewrite Hold_.
  apply wp_bind, wp_fk_get. change (view p_pagetable_l _) with (p_pagetable pr). rewrite Hnew.
  apply wp_bind, wp_fk_get. change (view p_vma_l _) with nh.
  pose proof (areas_same vm vm1 ids ns Hls2) as Ea. rewrite <- Ea in Hfit, Hn, Hlen.
  apply wp_bind, wp_fk_p. eapply wp_mono.
  { apply (map_areas_ok kernel_end Hend all Hall Hnd k0 rest (ns ++ nh :: oth) old new fnew Hold
      ltac:(intros x Hx; apply elem_of_app; right; right; by apply Hoth) c q k1 _ vm1 dn ps pages1 nh ns Hcp Hls1); [|done|done|lia].
    intros a v Ha Hv. apply list_elem_of_lookup in Ha as [i Hi].
    destruct (Forall2_lookup_r _ _ _ _ _ Hls2 Hi) as (x & Hx & w & w' & Hw & Hw' & E). rewrite Hv in Hw'. injection Hw' as <-.
    unfold data in E. injection E as _ _ -> _ _ _ _ _. apply (Hva x w); [by eapply list_elem_of_lookup_2|done]. }
  intros r P (-> & ps' & pages2 & k2 & -> & Hcp2 & Hc2). apply wp_mret. split; [done|].
  exists nh, ns, ps', pages2, k2, vm1. rewrite Ea in Hcp2, Hc2. split; [done|]. split; [split; [done|done|]|split; [exact Hcp2|lia]].
  intros x v Hx. apply Hls3. apply elem_of_app. right. by apply Hoth.
Qed.

(** ** What [fork] takes and what it makes *)

(** A page of the parent's memory. *)
Definition owned (rest : list Z) (f : Z -> Z) (va : Z) : Prop :=
  0 <= va /\ va mod PGSIZE = 0 /\ va + PGSIZE <= MAXUVA /\ valid (f va) = true /\ PTE2PA (f va) ∈ rest.
(** The addresses of the pages of a process: below its size, and of its areas. *)
Definition user_vas (sz : Z) (vm : gmap Z vma) (ids : list Z) : list Z := steps 0 sz ++ areas_at vm ids.

(** Process [p], whose record is [par], runs; entry [c] is the first free one. The
    pages [rest] are in use beside the parent's tables, which mean [f], and
    [pages] are free; [ids] is the parent's list of areas, [nm] its name. *)
Record can_fork (p c : nat) (par pc : proc) (rest : list Z) (f : Z -> Z) (pages ids nm : list Z) (k : kern) : Prop := {
  cf_runs : c_proc (view mycpu_l (view hart_l (kn_p k))) = Some p;
  cf_hart : settled (view hart_l (kn_p k)) /\ c_noff (view mycpu_l (view hart_l (kn_p k))) < 2 ^ 31 - 4;
  cf_locks : unheld (ft_lock k) /\ unheld (ec_lock (kn_f k)) /\ unheld (s_pid_lock (kn_p k));
  cf_par : s_procs (kn_p k) !! p = Some par /\ p_state par <> UNUSED;
  cf_child : (c < 50)%nat /\ s_procs (kn_p k) !! c = Some pc /\ p_state pc = UNUSED /\ unheld (p_lock pc)
    /\ p_ofile pc = replicate NOFILE None /\ length (p_name pc) = 16%nat;
  cf_first : forall i, (i < c)%nat -> unheld (p_lock (entry (s_procs (kn_p k)) i)) /\ p_state (entry (s_procs (kn_p k)) i) <> UNUSED;
  cf_files : length (p_ofile par) = NOFILE
    /\ forall g, Some g ∈ p_ofile par -> 1 <= ref_of k g < 2 ^ 31 - 1 - Z.of_nat NOFILE;
  cf_name : cstr (p_name par) = Some nm /\ (length nm < 16)%nat;
  cf_space : kspace rest (p_pagetable par) f pages (s_k (kn_p k));
  cf_frame : p_trapframe par ∈ rest;
  cf_areas : vlist (s_vmas (kn_p k)) (p_vma par) ids /\ (forall x, x ∈ p_vma par :: ids -> x ∈ rest)
    /\ forall a v, a ∈ ids -> s_vmas (kn_p k) !! a = Some v -> 0 <= v_addr v < MAXVA;
  cf_owned : Forall (owned rest f) (user_vas (p_sz par) (s_vmas (kn_p k)) ids);
  cf_apart : NoDup ((fun va => va / PGSIZE) <$> user_vas (p_sz par) (s_vmas (kn_p k)) ids);
  cf_free : (4 * length (user_vas (p_sz par) (s_vmas (kn_p k)) ids) + length ids + 19 < length pages)%nat
}.

(** The child's record: trap frame [tf], table [upt], areas after [nh]. *)
Definition child_of (pc par : proc) (p c : nat) (pid tf upt nh ec : Z) (name : list Z) : proc :=
  update p_state_l RUNNABLE (update p_name_l name (update p_cwd_l (p_cwd par) (update p_ofile_l (p_ofile par)
    (update p_tmask_l (p_tmask par) (update p_parent_l (Some p) (update p_sz_l (p_sz par)
      (born pc (p_lock pc) pid tf upt nh (PROCVKSTACK (Z.of_nat c)) ec forkret_addr))))))).

(** The memory and the areas then: [mine] are the child's pages, [ns] its areas;
    the parent's memory and all else in use is as it was.  The two pages [lost]
    held the areas the child was born with. *)
Record child_made (par : proc) (rest : list Z) (f : Z -> Z) (ids : list Z) (k0 : kst) (vm : gmap Z vma)
    (tf upt nh ec : Z) (ns mine lost pages' : list Z) (f' : Z -> Z) (k' : kst) (vm' : gmap Z vma) : Prop := {
  mk_kept : kept (tables 3 (k_mem k0) (p_pagetable par) ++ rest) k0 k';
  mk_space : kspace (mine ++ ns ++ nh :: ec :: lost ++ tables 3 (k_mem k0) (p_pagetable par) ++ tf :: rest) upt f' pages' k';
  mk_lost : length lost = 2%nat;
  mk_mem : forall va v, va ∈ user_vas (p_sz par) vm ids -> va <= v < va + PGSIZE ->
    copy_of f f' mine (k_mem k0) (k_mem k') v;
  mk_frame : forall i, 0 <= i < tf_size -> rd8 (k_mem k') (tf + i)
    = if decide (tf_a0 <= i < tf_a0 + 8) then 0 else rd8 (k_mem k0) (p_trapframe par + i);
  mk_areas : listed vm rest nh ids ns vm'
}.
Record forked (p c : nat) (par pc : proc) (rest : list Z) (f : Z -> Z) (ids nm : list Z) (k : kern)
    (tf upt nh ec : Z) (name ns mine lost pages' : list Z) (f' : Z -> Z) (k' : kst) (vm' : gmap Z vma) (s : kern) : Prop := {
  fk_state : exists files, s = fk k (edup_fs (p_cwd par) (kn_f k)) files
    (st c (update s_nextpid_l (s32 (s_nextpid (kn_p k) + 1)) (kn_p k)) k'
       (child_of pc par p c (s_nextpid (kn_p k)) tf upt nh ec name) vm');
  fk_files : forall g, view (fl g) s = update f_ref_l (ref_of k g + cnt (p_ofile par) g) (view (fl g) k);
  fk_name : cstr name = Some nm;
  fk_hart : k_hart k' = view hart_l (kn_p k);
  fk_made : child_made par rest f ids (s_k (kn_p k)) (s_vmas (kn_p k)) tf upt nh ec ns mine lost pages' f' k' vm'
}.

(** ** Copies in other states *)
Lemma copy_of_later f g ps m m1 m2 v : agree m1 m2 ps -> copy_of f g ps m m1 v -> copy_of f g ps m m2 v.
Proof using Type.
  intros Ha (H1 & H2 & H4 & H3). do 3 (split; [done|]). intros Hu. destruct (H3 Hu) as [Hon Hr]. split; [done|].
  by rewrite Ha.
Qed.
Lemma copy_of_before rest f g ps m0 m1 m' va v : agree m0 m1 rest -> owned rest f va -> va <= v < va + PGSIZE ->
  copy_of f g ps m1 m' v -> copy_of f g ps m0 m' v.
Proof using Type.
  clear lsr fuel. intros Ha (H0 & Hal & Hmax & He & Hp) Hv (H1 & H2 & H4 & H3). do 3 (split; [done|]). intros Hu.
  destruct (H3 Hu) as [Hon ->]. split; [done|]. apply Ha. assert (MAXUVA < 2 ^ 48) as HM by done.
  assert (v / PGSIZE * PGSIZE = va) as Er by (unfold PGSIZE in *; zlia).
  unfold uaddr, user_ok in *. rewrite round_down_spec, Er in * by lia. unfold user_pa in *. rewrite He in *. cbn [negb] in *.
  destruct (Z.land (f va) PTE_PLV3 =? 0); [by destruct Hu|]. exists (PTE2PA (f va)). split; [done|]. pose proof (Z.mod_pos_bound v PGSIZE ltac:(done)). lia.
Qed.

Lemma copy_of_ext f f1 g ps m m' v : f (PGROUNDDOWN v) = f1 (PGROUNDDOWN v) ->
  copy_of f g ps m m' v -> copy_of f1 g ps m m' v.
Proof using Type. unfold copy_of, user_ok, uaddr. by intros ->. Qed.
(** The list of a child whose parent's areas are those of [vm1] and of [vm]. *)
Lemma listed_same vm vm1 rest rest1 nh ids ns vm' : listed vm1 rest1 nh ids ns vm' ->
  (forall x, x ∈ rest -> x ∈ rest1 /\ vm1 !! x = vm !! x) -> (forall x, x ∈ ids -> x ∈ rest) ->
  listed vm rest nh ids ns vm'.
Proof using Type.
  intros [Hl Hs Hk] Hsame Hin. split; [done| |].
  - apply Forall2_lookup. intros i. pose proof (proj1 (Forall2_lookup _ _ _) Hs i) as Hi.
    destruct (ids !! i) as [x|] eqn:Ex; inversion Hi as [x' y Hxy|]; subst; constructor.
    destruct Hxy as (v & v' & Hv & H). exists v, v'. rewrite <- (proj2 (Hsame x (Hin x ltac:(by eapply list_elem_of_lookup_2)))).
    done.
  - intros x v Hx Hv. destruct (Hsame x Hx) as [H1 H2]. apply (Hk x v H1). by rewrite H2.
Qed.

(** ** After the memory *)

(** The registers of the child: the parent's, with the result 0. *)
Definition frame_mem (m : mem) (tf ptf : Z) : mem := wr64 (memmove m tf ptf tf_size) (tf + tf_a0) 0.
Lemma frame_mem_at m tf ptf i : 0 <= i < tf_size ->
  rd8 (frame_mem m tf ptf) (tf + i) = if decide (tf_a0 <= i < tf_a0 + 8) then 0 else rd8 m (ptf + i).
Proof using Type.
  intros Hi. unfold frame_mem, wr64. rewrite rd8_wrn. change (Z.of_nat 8) with 8.
  destruct (decide (tf_a0 <= i < tf_a0 + 8)).
  - rewrite decide_True by lia. by rewrite Z.div_0_l by (apply Z.pow_nonzero; lia).
  - rewrite decide_False by lia. unfold tf_size in *. rewrite rd8_memmove by lia. rewrite decide_True by lia. f_equal. lia.
Qed.
Lemma frame_mem_out m tf ptf b : ~ (tf <= b < tf + PGSIZE) -> rd8 (frame_mem m tf ptf) b = rd8 m b.
Proof using Type.
  intros Hb. unfold frame_mem, wr64, tf_size, tf_a0, PGSIZE in *. rewrite rd8_wrn_out by (cbn; lia).
  rewrite rd8_memmove by lia. by rewrite decide_False by lia.
Qed.

Definition fork_tail (p np : nat) : M kern (option nat) :=
  pr ← rd (pl p);
  _ ← pl np ⊚ p_sz_l <~ p_sz pr;
  _ ← pl np ⊚ p_parent_l <~ Some p;
  _ ← pl np ⊚ p_tmask_l <~ p_tmask pr;
  ntf ← rd (pl np ⊚ p_trapframe_l);
  _ ← md (kn_p_l ⊚ mem_l) (fun m => memmove m ntf (p_trapframe pr) tf_size);
  _ ← pp (kmem (store (ntf + tf_a0) 0));
  _ ← for_each (seq 0 NOFILE) (fun i =>
        l ← rd (pl p ⊚ p_ofile_l);
        match default None (l !! i) with
        | Some f => f ← filedup f; md (pl np ⊚ p_ofile_l) (<[i := Some f]>)
        | None => mret tt
        end);
  cwd ← rd (pl p ⊚ p_cwd_l);
  cwd ← zoom kfs (edup cwd);
  _ ← pl np ⊚ p_cwd_l <~ cwd;
  nm ← rd (pl np ⊚ p_name_l);
  nm ← lift "safestrcpy" (safestrcpy nm (p_name pr) 16);
  _ ← pl np ⊚ p_name_l <~ nm;
  mret (Some np).

Lemma fork_tail_ok K fs files p c q k pr par vm nm : p <> c -> s_procs q !! p = Some par ->
  settled (k_hart k) -> unheld (ft_lock K) -> unheld (ec_lock fs) ->
  length (p_ofile par) = NOFILE -> p_ofile pr = replicate NOFILE None ->
  (forall f, Some f ∈ p_ofile par -> 1 <= f_ref (default file0 (files !! f)) < 2 ^ 31 - 1 - Z.of_nat NOFILE) ->
  length (p_name pr) = 16%nat -> cstr (p_name par) = Some nm -> (length nm < 16)%nat ->
  wp (fork_tail p c) (fun r s => r = Some c /\ exists name, cstr name = Some nm
     /\ s = fk K (edup_fs (p_cwd par) fs) (dups (p_ofile par) files)
          (st c q (update k_mem_l (frame_mem (k_mem k) (p_trapframe pr) (p_trapframe par)) k)
             (update p_name_l name (update p_cwd_l (p_cwd par) (update p_ofile_l (p_ofile par)
               (update p_tmask_l (p_tmask par) (update p_parent_l (Some p) (update p_sz_l (p_sz par) pr)))))) vm))
    (fk K fs files (st c q k pr vm)).
Proof using Type.
  intros Hne Hp Hh Hfl Hel Hlen Hof Href Hnl Hnm Hnm16. unfold fork_tail.
  apply wp_bind. eapply wp_fk_par; [done|exact Hp|].
  do 3 (apply wp_bind, wp_fk_set). apply wp_bind, wp_fk_get.
  change (view p_trapframe_l _) with (p_trapframe pr). apply wp_bind, wp_fk_mem.
  apply wp_bind, wp_fk_p, wp_st_k, wp_md.
  apply wp_bind, (filedups_ok K fs files c q _ _ vm p par); [by split|done|exact Hp|exact Hlen|exact Hof|exact Href|].
  apply wp_bind. eapply wp_fk_parf; [done|exact Hp|]. change (view p_cwd_l par) with (p_cwd par).
  apply wp_bind, edup_ok; [exact Hh|exact Hel|]. apply wp_bind, wp_fk_set. apply wp_bind, wp_fk_get.
  change (view p_name_l _) with (p_name pr).
  destruct (safestrcpy_loop_spec (p_name pr) (p_name par) 15 nm Hnm) as (name & Hn & _ & Hc); [lia|].
  assert (safestrcpy (p_name pr) (p_name par) 16 = Some name) as -> by exact Hn. unfold lift.
  apply wp_bind, wp_mret, wp_bind, wp_fk_set, wp_mret. split; [done|]. exists name.
  split; [rewrite Hc; by rewrite firstn_all2 by lia|]. done.
Qed.

(** ** Before the memory: the child is born *)
Section Born.
Context (par : proc) (rest : list Z) (f : Z -> Z) (pages : list Z) (k k1 : kst) (upt tf a b ec : Z) (pages1 : list Z).
Abbreviation old := (p_pagetable par).
Abbreviation rest1 := (ec :: b :: a :: tables 3 (k_mem k) old ++ tf :: rest).
Abbreviation fnew := (user_base trampoline signalTrampoline tf).
Context (Hs : kspace rest old f pages k) (Hk : kept (tables 3 (k_mem k) old ++ rest) (update k_hart_l (pushed (k_hart k)) k) k1).
Context (Hs1 : kspace rest1 upt fnew pages1 k1).

Lemma born_old : tables 3 (k_mem k1) old = tables 3 (k_mem k) old
  /\ forall va, 0 <= va < 2 ^ 48 -> xlate 3 (k_mem k1) old va = f va.
Proof using Hs Hk.
  clear lsr fuel. destruct (kept_tables all rest old (update k_hart_l (pushed (k_hart k)) k) k1 Hk) as [E1 E2].
  split; [exact E1|]. intros va Hva. rewrite E2. by apply (ks_map _ _ _ _ _ _ _ Hs).
Qed.
Lemma in_rest1 x : x ∈ tables 3 (k_mem k) old \/ x ∈ rest -> x ∈ rest1.
Proof using Type. rewrite !elem_of_cons, elem_of_app, elem_of_cons. clear. tauto. Qed.
Lemma born_tables x : x ∈ tables 3 (k_mem k1) old -> x ∈ rest1.
Proof using Hs Hk. intros Hx. rewrite (proj1 born_old) in Hx. apply in_rest1. by left. Qed.
Lemma owned_fit va : owned rest f va -> fit k1 rest1 old fnew va.
Proof using Hs Hk.
  clear Ht Hst lsr fuel. intros (H0 & Hal & Hmax & He & Hp). assert (MAXUVA < MAXVA /\ MAXUVA < 2 ^ 48) as [HM HM'] by done.
  unfold fit. rewrite (proj2 born_old) by (unfold PGSIZE in *; lia). repeat split; try done; [lia|by apply in_rest1; right|].
  intros v Hv. rewrite user_base_low; [done|]. assert (MAXUVA mod PGSIZE = 0) as HU by done. unfold PGSIZE in *. zlia.
Qed.
(** What is new is not what the parent has. *)
Lemma born_fresh x : x ∈ rest -> x <> a /\ x <> b /\ x <> tf.
Proof using Hend Hall Hnd Hs1.
  clear Ht Hst lsr fuel. intros Hx. pose proof (ks_nodup kernel_end Hend all Hall Hnd _ _ _ _ _ Hs1) as Hn. apply NoDup_app in Hn as (_ & _ & Hn).
  apply NoDup_app in Hn as (Hn & _ & _). rewrite !NoDup_cons, !elem_of_cons, !elem_of_app, !elem_of_cons in Hn.
  destruct Hn as (_ & H1 & H2 & Hn). apply NoDup_app in Hn as (_ & _ & Hn). apply NoDup_cons in Hn as [Hn _].
  split; [intros ->; tauto|]. split; intros ->; tauto.
Qed.
Lemma born_frame x : x ∈ tables 3 (k_mem k) old ++ rest -> x <> tf.
Proof using Hend Hall Hnd Hs1.
  clear Ht Hst lsr fuel. intros [Hx|Hx]%elem_of_app; [|by apply born_fresh].
  pose proof (ks_nodup kernel_end Hend all Hall Hnd _ _ _ _ _ Hs1) as Hn. apply NoDup_app in Hn as (_ & _ & Hn).
  apply NoDup_app in Hn as (Hn & _ & _). do 3 apply NoDup_cons in Hn as [_ Hn].
  apply NoDup_app in Hn as (_ & Hn & _). intros ->. apply (Hn tf Hx). left.
Qed.
(** The parent's list of areas is as it was. *)
Lemma born_areas vm ids : vlist vm (p_vma par) ids -> (forall x, x ∈ p_vma par :: ids -> x ∈ rest) ->
  let vm1 := <[a := head_vma b]> (<[b := mmap_vma a]> vm) in
  vlist vm1 (p_vma par) ids /\ (forall x, x ∈ rest -> vm1 !! x = vm !! x) /\ areas_at vm1 ids = areas_at vm ids.
Proof using Hend Hall Hnd Hs1.
  clear Ht Hst lsr fuel. intros Hl Hin vm1. assert (forall x, x ∈ rest -> vm1 !! x = vm !! x) as Hsame.
  { intros x Hx. destruct (born_fresh x Hx) as (H1 & H2 & _). unfold vm1. by rewrite !lookup_insert_ne. }
  split; [|split; [exact Hsame|]].
  - unfold vm1. apply vlist_ins; [|apply vlist_ins; [|done]]; intros Hx%Hin; by apply born_fresh in Hx as (? & ? & _).
  - unfold areas_at. apply flat_map_ext_in. intros x Hx. unfold area_at. rewrite Hsame; [done|]. apply Hin. right. by apply list_elem_of_In.
Qed.
End Born.

Section Copy.
Context (p c : nat) (par pc : proc) (rest : list Z) (f : Z -> Z) (pages ids nm : list Z) (k : kern).
Context (HF : can_fork p c par pc rest f pages ids nm k).
Abbreviation h := (view hart_l (kn_p k)).
Abbreviation k0 := (s_k (kn_p k)).
Abbreviation vm0 := (s_vmas (kn_p k)).
Abbreviation vas := (user_vas (p_sz par) vm0 ids).

Lemma fork_ne : p <> c.
Proof using HF.
  intros ->. destruct (cf_par _ _ _ _ _ _ _ _ _ _ HF) as [E Hst']. destruct (cf_child _ _ _ _ _ _ _ _ _ _ HF) as (_ & E' & Hs & _).
  rewrite E in E'. injection E' as ->. done.
Qed.
Lemma fork_start : k = fk k (kn_f k) (ft_file k) (st c (kn_p k) k0 pc vm0).
Proof using HF.
  destruct (cf_child _ _ _ _ _ _ _ _ _ _ HF) as (_ & E & _). rewrite (st_self c _ pc E). by destruct k.
Qed.

(** The child's registers are written; nothing else changes. *)
Lemma framed_ok k1 k2 tf upt a b ec pages1 pages2 ps oth f' :
  let R := tables 3 (k_mem k0) (p_pagetable par) in
  let rest1 := ec :: b :: a :: R ++ tf :: rest in
  let k3 := update k_mem_l (frame_mem (k_mem k2) tf (p_trapframe par)) k2 in
  kspace rest1 upt (user_base trampoline signalTrampoline tf) pages1 k1 -> kspace (ps ++ oth) upt f' pages2 k2 ->
  (forall x, x ∈ rest1 -> x ∈ oth) -> kept (R ++ rest) (update k_hart_l (pushed h) k0) k2 ->
  kspace (ps ++ oth) upt f' pages2 k3 /\ kept (R ++ rest) (update k_hart_l (pushed h) k0) k3 /\ agree (k_mem k2) (k_mem k3) ps.
Proof using Hend Hall Hnd.
  clear Ht Hst HF. intros R rest1 k3 Hs1 Hs2 Hoth Hk2.
  assert (tf ∈ oth) as Htf by (apply Hoth; unfold rest1; rewrite !elem_of_cons, elem_of_app, elem_of_cons; clear; tauto).
  destruct (ks_write kernel_end Hend all Hall Hnd _ _ _ _ _ tf (frame_mem (k_mem k2) tf (p_trapframe par)) Hs2
    ltac:(apply elem_of_app; by right) (frame_mem_out _ _ _)) as [Hs3 Hk3]. fold k3 in Hs3, Hk3.
  assert (forall x, x ∈ ps ++ oth -> page_ok kernel_end x) as Hok
    by (intros x Hx; apply (ks_ok kernel_end Hend all Hall Hnd _ _ _ _ _ Hs2); right; by left).
  split; [exact Hs3|]. split.
  - eapply kept_trans; [exact Hk2|]. apply Hk3.
    + intros x Hx. apply Hok, elem_of_app. right. apply Hoth, in_rest1. by apply elem_of_app.
    + intros Hx. by apply (born_frame par rest k0 k1 upt tf a b ec pages1 Hs1 tf Hx).
  - apply Hk3; [intros x Hx; apply Hok, elem_of_app; by left|]. intros Hx.
    pose proof (ks_nodup kernel_end Hend all Hall Hnd _ _ _ _ _ Hs2) as Hn. apply NoDup_app in Hn as (_ & _ & Hn).
    apply NoDup_app in Hn as (Hn & _ & _). apply NoDup_app in Hn as (_ & Hn & _). by apply (Hn tf Hx).
Qed.

(** The memory once the child is born and all is copied. *)
Lemma made_end k1 k2 tf upt a b ec nh ns ps pages1 pages2 vm' :
  let R := tables 3 (k_mem k0) (p_pagetable par) in
  let rest1 := ec :: b :: a :: R ++ tf :: rest in
  let fnew := user_base trampoline signalTrampoline tf in
  kept (R ++ rest) (update k_hart_l (pushed h) k0) k1 -> kspace rest1 upt fnew pages1 k1 ->
  listed (<[a := head_vma b]> (<[b := mmap_vma a]> vm0)) rest1 nh ids ns vm' ->
  copied kernel_end all k1 rest1 (ns ++ nh :: rest1) (p_pagetable par) upt fnew vas ps pages2 k2 ->
  child_made par rest f ids k0 vm0 tf upt nh ec ns ps [b; a] pages2 (copies k1 (p_pagetable par) (zip vas ps) fnew)
    (update k_hart_l h (update k_mem_l (frame_mem (k_mem k2) tf (p_trapframe par)) k2)) vm'.
Proof using All.
  intros R rest1 fnew Hk1 Hs1 Hls Hc. pose proof (cf_space _ _ _ _ _ _ _ _ _ _ HF) as Hs. pose proof Hc as [Hh Hs2].
  assert (forall x, x ∈ R ++ rest -> x ∈ rest1) as Hin by (intros x Hx; apply in_rest1; by apply elem_of_app).
  assert (forall x, x ∈ rest1 -> x ∈ ns ++ nh :: rest1) as Hoth by (intros x Hx; apply elem_of_app; right; by right).
  assert (kept (R ++ rest) (update k_hart_l (pushed h) k0) k2) as Hk2
    by (eapply kept_trans; [exact Hk1|]; eapply kept_sub; [exact Hin|exact (hd_kept _ _ _ _ _ _ _ Hh)]).
  destruct (framed_ok k1 k2 tf upt a b ec pages1 pages2 ps _ _ Hs1 Hs2 Hoth Hk2) as (Hs3 & Hk & Hps).
  set (k3 := update k_mem_l (frame_mem (k_mem k2) tf (p_trapframe par)) k2) in *.
  split.
  - destruct Hk as [[E _] M O]. split; [by split|exact M|exact O].
  - apply ks_hart; [apply (cf_hart _ _ _ _ _ _ _ _ _ _ HF)|exact Hs3].
  - done.
  - intros va v Hva Hv. change (k_mem (update k_hart_l h k3)) with (k_mem k3). apply (copy_of_later _ _ _ _ _ _ _ Hps).
    pose proof (cf_owned _ _ _ _ _ _ _ _ _ _ HF) as Hown. rewrite Forall_forall in Hown.
    pose proof (Hown va Hva) as (H0 & Hal & Hmax & _). assert (MAXUVA < 2 ^ 48) as HM by done.
    apply (copy_of_before rest f _ _ _ (k_mem k1) _ va v); [|by apply Hown|done|].
    { intros x Hx. apply (kp_mem _ _ _ _ Hk1). eapply on_mono; [|exact Hx]. intros y Hy. apply elem_of_app. by right. }
    apply (copy_of_ext (xlate 3 (k_mem k1) (p_pagetable par))).
    { apply (born_old par rest f pages k0 k1 Hs Hk1). rewrite round_down_spec by lia. unfold PGSIZE in *. zlia. }
    apply (copied_copy kernel_end Hend all Hall Hnd k1 rest1 (ns ++ nh :: rest1) (p_pagetable par) upt fnew
      (born_tables par rest f pages k0 k1 tf a b ec Hs Hk1) Hoth vas ps pages2 k2 va v Hc); [|exact Hva| |exact Hv].
    + apply (cf_apart _ _ _ _ _ _ _ _ _ _ HF).
    + apply (owned_fit par rest f pages k0 k1 tf a b ec Hs Hk1). by apply Hown.
  - intros i Hi. change (k_mem (update k_hart_l h k3)) with (frame_mem (k_mem k2) tf (p_trapframe par)).
    rewrite frame_mem_at by done. destruct (decide _); [done|]. apply (kp_mem _ _ _ _ Hk2).
    exists (p_trapframe par). split; [apply elem_of_app; right; apply (cf_frame _ _ _ _ _ _ _ _ _ _ HF)|].
    unfold tf_size, PGSIZE in *. lia.
  - destruct (cf_areas _ _ _ _ _ _ _ _ _ _ HF) as (Hl & Hids & _).
    apply (listed_same vm0 _ rest rest1 nh ids ns vm' Hls); [|intros x Hx; apply Hids; by right].
    intros x Hx. split; [apply Hin, elem_of_app; by right|].
    by apply (born_areas par rest k0 k1 upt tf a b ec pages1 Hs1 vm0 ids Hl Hids).
Qed.

(** The child whose lock is still held. *)
Definition locked_child (pid tf upt nh ec : Z) (name : list Z) : proc :=
  update p_lock_l (taken (p_lock pc) (h_tp h)) (update p_state_l (p_state pc) (child_of pc par p c pid tf upt nh ec name)).

(** [copy_proc] once the child is born. *)
Definition fork_memory (np : nat) : M kern (option nat) :=
  pr ← rd (pl p);
  npt ← rd (pl np ⊚ p_pagetable_l);
  r ← pp (kmem (uvmcopy kernel_end (p_pagetable pr) npt (p_sz pr)));
  if r <? 0 then
    _ ← pp (freeproc kernel_end np);
    _ ← pp (punlock np);
    mret None
  else
    ok ← copy_areas kernel_end lsr fuel p np;
    if negb (ok : bool) then mret None else fork_tail p np.

Abbreviation born_child pid tf upt vma ec :=
  (born pc (taken (p_lock pc) (h_tp h)) pid tf upt vma (PROCVKSTACK (Z.of_nat c)) ec forkret_addr).

Lemma fork_pages_ok q1 k1 tf upt a b ec pages1 : s_procs q1 !! p = Some par ->
  let rest1 := ec :: b :: a :: tables 3 (k_mem k0) (p_pagetable par) ++ tf :: rest in
  let fnew := user_base trampoline signalTrampoline tf in
  let vm1 := <[a := head_vma b]> (<[b := mmap_vma a]> vm0) in
  kept (tables 3 (k_mem k0) (p_pagetable par) ++ rest) (update k_hart_l (pushed h) k0) k1 ->
  kspace rest1 upt fnew pages1 k1 -> (length pages <= length pages1 + 18)%nat ->
  forall Q, (forall nh ns ps pages2 k2 vm', listed vm1 rest1 nh ids ns vm' ->
    copied kernel_end all k1 rest1 (ns ++ nh :: rest1) (p_pagetable par) upt fnew vas ps pages2 k2 ->
    wp (fork_tail p c) Q (fk k (kn_f k) (ft_file k) (st c q1 k2 (update p_vma_l nh (born_child (s_nextpid (kn_p k)) tf upt a ec)) vm'))) ->
  wp (fork_memory c) Q (fk k (kn_f k) (ft_file k) (st c q1 k1 (born_child (s_nextpid (kn_p k)) tf upt a ec) vm1)).
Proof using All.
  intros Hpar1 rest1 fnew vm1 Hk1 Hs1 Hc1 Q HQ. pose proof (cf_space _ _ _ _ _ _ _ _ _ _ HF) as Hs.
  pose proof (cf_free _ _ _ _ _ _ _ _ _ _ HF) as Hfree. unfold user_vas in Hfree. rewrite length_app in Hfree.
  destruct (cf_areas _ _ _ _ _ _ _ _ _ _ HF) as (Hl & Hids & Haddr).
  assert (Forall (fit k1 rest1 (p_pagetable par) fnew) vas) as Hfit.
  { eapply Forall_impl; [apply (cf_owned _ _ _ _ _ _ _ _ _ _ HF)|]. apply (owned_fit par rest f pages k0 k1 tf a b ec Hs Hk1). }
  pose proof (cf_apart _ _ _ _ _ _ _ _ _ _ HF) as Hap. pose proof Hap as Hap1. unfold user_vas in Hfit, Hap1.
  apply Forall_app in Hfit as [Hfit1 Hfit2]. rewrite fmap_app in Hap1. apply NoDup_app in Hap1 as [Hap1 _].
  destruct (born_areas par rest k0 k1 upt tf a b ec pages1 Hs1 vm0 ids Hl Hids) as (Hl1 & Hsame & Ea). fold vm1 in Hl1, Hsame, Ea.
  assert (forall x, x ∈ rest -> x ∈ rest1) as Hin by (intros x Hx; apply in_rest1; by right).
  pose proof (born_tables par rest f pages k0 k1 tf a b ec Hs Hk1) as Hold. pose proof fork_ne as Hne.
  unfold fork_memory. apply wp_bind. eapply wp_fk_par; [done|exact Hpar1|]. apply wp_bind, wp_fk_get.
  change (view p_pagetable_l _) with upt. apply wp_bind, wp_fk_p, wp_st_k. eapply wp_mono.
  { apply (uvmcopy_enough rest1 (p_pagetable par) upt fnew pages1 k1 (p_sz par) Hs1 Hold Hfit1 Hap1). lia. }
  intros r k2 (-> & ps & pages2 & Hc2 & Hn2). cbn [Z.ltb Z.compare]. apply wp_bind. eapply wp_mono.
  { apply (copy_areas_ok k (kn_f k) (ft_file k) p c q1 k1 k2 (born_child (s_nextpid (kn_p k)) tf upt a ec) par vm1 rest1 rest1 (p_pagetable par) upt fnew
      (steps 0 (p_sz par)) ps pages2 ids Hne Hpar1 eq_refl eq_refl Hold (fun _ H => H) Hc2 Hl1).
    - intros x Hx. by apply Hin, Hids.
    - intros x v Hx Hv. apply (Haddr x v Hx). rewrite <- Hsame; [done|]. apply Hids. by right.
    - by rewrite Ea.
    - rewrite Ea. exact Hap.
    - rewrite Ea. lia. }
  intros r s (-> & nh & ns & ps' & pages3 & k3 & vm' & -> & Hls & Hc3 & _). cbn [negb]. rewrite Ea in Hc3.
  exact (HQ nh ns (ps ++ ps') pages3 k3 vm' Hls Hc3).
Qed.

Lemma child_unlocked pid tf upt nh ec name :
  update p_lock_l (p_lock pc) (update p_state_l RUNNABLE (locked_child pid tf upt nh ec name))
  = child_of pc par p c pid tf upt nh ec name.
Proof using Type.
  assert (forall pr lk st, p_lock pr = lk -> update p_lock_l lk (update p_state_l RUNNABLE (update p_lock_l (taken lk (h_tp h))
    (update p_state_l st (update p_state_l RUNNABLE pr)))) = update p_state_l RUNNABLE pr) as H by (by intros [] ? ? <-).
  apply H. reflexivity.
Qed.

Lemma copy_proc_ok :
  wp (copy_proc kernel_end trampoline signalTrampoline forkret_addr lsr fuel)
    (fun r s => r = Some c /\ exists tf upt nh ec name ns mine lost pages' f' k' vm', cstr name = Some nm /\ k_hart k' = pushed h
       /\ s = fk k (edup_fs (p_cwd par) (kn_f k)) (dups (p_ofile par) (ft_file k))
            (st c (update s_nextpid_l (s32 (s_nextpid (kn_p k) + 1)) (kn_p k)) k'
               (locked_child (s_nextpid (kn_p k)) tf upt nh ec name) vm')
       /\ child_made par rest f ids k0 vm0 tf upt nh ec ns mine lost pages' f' (update k_hart_l h k') vm') k.
Proof using All.
  pose proof HF as [Hruns [Hset Hno] (Hfl & Hel & Hpl) [Hpar _] (Hc50 & _ & Hun & Hul & Hof & Hnl) Hfirst [Hol Href] [Hnm Hnm16]
    Hs Htf (Hl & Hids & Haddr) Hown Hapart Hfree].
  pose proof fork_ne as Hne. unfold copy_proc. apply wp_bind, (wp_kcur_kern p); [apply Hset|exact Hruns|].
  change (view (kn_p_l ⊚ hart_l) k) with h. rewrite (proj2 Hset).
  assert (update (kn_p_l ⊚ hart_l) h k = k) as -> by (by destruct k as [[[] ? ? ? ? ? ?] ? ? ? ? ? ? ?]).
  rewrite fork_start at 1. apply wp_bind, wp_fk_p. unfold user_vas in Hfree. rewrite length_app in Hfree. eapply wp_mono.
  { apply (allocproc_ok kernel_end Hend all Hall Hnd trampoline signalTrampoline forkret_addr Ht Hst c (kn_p k) k0 pc vm0
      rest (p_pagetable par) f pages); try done; [by right|apply Hset|lia]. }
  intros r P (tf & upt & a & b & ec & pages1 & k1 & -> & Hab & Htf0 & -> & Hs1 & Hk1 & _ & Hc1).
  set (q1 := update s_nextpid_l _ _).
  change (wp (fork_memory c) (fun r s => r = Some c /\ exists tf upt nh ec name ns mine lost pages' f' k' vm', cstr name = Some nm
     /\ k_hart k' = pushed h
     /\ s = fk k (edup_fs (p_cwd par) (kn_f k)) (dups (p_ofile par) (ft_file k)) (st c q1 k'
               (locked_child (s_nextpid (kn_p k)) tf upt nh ec name) vm')
     /\ child_made par rest f ids k0 vm0 tf upt nh ec ns mine lost pages' f' (update k_hart_l h k') vm')
    (fk k (kn_f k) (ft_file k) (st c q1 k1 (born_child (s_nextpid (kn_p k)) tf upt a ec) (<[a := head_vma b]> (<[b := mmap_vma a]> vm0))))).
  apply (fork_pages_ok q1 k1 tf upt a b ec pages1 Hpar Hk1 Hs1 Hc1). intros nh ns ps pages2 k2 vm' Hls Hc2.
  assert (k_hart k2 = pushed h) as Hh2.
  { assert (settled (pushed h)) as Hsp by (apply settled_pushed; [apply Hset|lia]).
    destruct Hk1 as [[_ E1] _ _]. destruct (hd_kept _ _ _ _ _ _ _ (proj1 Hc2)) as [[_ E2] _ _].
    specialize (E1 Hsp). change (k_hart (update k_hart_l (pushed (k_hart k0)) k0)) with (pushed h) in E1.
    rewrite E1 in E2. by apply E2. }
  eapply wp_mono; [apply (fork_tail_ok k (kn_f k) (ft_file k) p c q1 k2 _ par vm' nm)|]; try done.
  { rewrite Hh2. apply settled_pushed; [apply Hset|lia]. }
  intros r s (-> & name & Hname & ->). split; [done|].
  exists tf, upt, nh, ec, name, ns, ps, [b; a], pages2,
    (copies k1 (p_pagetable par) (zip vas ps) (user_base trampoline signalTrampoline tf)),
    (update k_mem_l (frame_mem (k_mem k2) tf (p_trapframe par)) k2), vm'. split; [exact Hname|]. split; [exact Hh2|]. split; [done|].
  exact (made_end k1 k2 tf upt a b ec nh ns ps pages1 pages2 vm' Hk1 Hs1 Hls Hc2).
Qed.
End Copy.

(** C4. With enough memory [fork] returns the child's pid, and the child is
    complete: its record is in the first free entry, ready to run, the parent
    its parent, with the parent's size, name, directory and open files, each file counted
    once more for every descriptor that holds it; every byte of the parent's
    memory, below its size and in its areas, is there under the same address
    with the same value, for the child to use and to write if and only if the
    parent may, on pages of its own that nobody else has (the marks against
    reading and executing a page are not copied); its registers are the parent's with the result 0; its list of areas is a copy.
    The parent's memory and all else in use keep their contents; the locks and
    the processor are as before. *)
Theorem fork_copies (p c : nat) (par pc : proc) (rest : list Z) (f : Z -> Z) (pages ids nm : list Z) (k : kern) :
  can_fork p c par pc rest f pages ids nm k ->
  wp (fork kernel_end trampoline signalTrampoline forkret_addr lsr fuel)
    (fun r s => r = s_nextpid (kn_p k) /\ exists tf upt nh ec name ns mine lost pages' f' k' vm',
       forked p c par pc rest f ids nm k tf upt nh ec name ns mine lost pages' f' k' vm' s) k.
Proof using All.
  intros HF. unfold fork. apply wp_bind. eapply wp_mono; [exact (copy_proc_ok p c par pc rest f pages ids nm k HF)|].
  intros r s (-> & tf & upt & nh & ec & name & ns & mine & lost & pages' & f' & k1 & vm' & Hname & Hh & -> & Hm).
  pose proof (cf_hart _ _ _ _ _ _ _ _ _ _ HF) as [Hset Hno]. destruct (cf_child _ _ _ _ _ _ _ _ _ _ HF) as (_ & _ & _ & Hul & _).
  apply wp_bind, wp_fk_get. apply wp_bind, wp_fk_set, wp_bind, wp_fk_p.
  apply (wp_st_unlock c _ k1 _ vm' (view hart_l (kn_p k)) (p_lock pc)); [apply Hset|exact Hh|done|].
  apply wp_mret. unfold unheld in Hul. rewrite Hul, (proj2 Hset), child_unlocked. split; [reflexivity|].
  exists tf, upt, nh, ec, name, ns, mine, lost, pages', f', (update k_hart_l (view hart_l (kn_p k)) k1), vm'. split.
  - exists (dups (p_ofile par) (ft_file k)). reflexivity.
  - intros g. unfold fl. cbn. exact (dups_at (p_ofile par) (ft_file k) g).
  - done.
  - done.
  - exact Hm.
Qed.
End Fork.

(** * A shell that forks: one page of memory, one area of a page, one open file *)

Definition fork_end : Z := RAMSTOP - 38 * PGSIZE.
(** The page of memory, the trap frame, the two nodes, the page of the area. *)
Definition fork_rest : list Z := [pg 5; pg 6; pg 7; pg 8; pg 9].
Definition fork_free : list Z := pg <$> seqZ 10 29.
Definition fork_all : list Z := [pg 1; pg 2; pg 3; pg 4] ++ fork_rest ++ fork_free.
Definition fork_tables : mem :=
  wr64 (wr64 (wr64 (wr64 (wr64 ∅ (slot (pg 1) 0) (table_pte (pg 2))) (slot (pg 2) 0) (table_pte (pg 3)))
    (slot (pg 3) 0) (table_pte (pg 4))) (slot (pg 4) 0) (leaf (pg 5) user_rwx)) (slot (pg 4) 5) (leaf (pg 9) user_rwx).
Definition fork_mem : mem := foldl (fun m i => wr64 m (pg i) (pg (i + 1))) fork_tables (seqZ 10 28).
Definition fork_vmas : gmap Z vma :=
  {[pg 7 := Vma NONE 0 0 0 0 0 0 0 (pg 8) (pg 8);
    pg 8 := Vma MMAP 6 (5 * PGSIZE) PGSIZE (6 * PGSIZE) 0 (-1) 0 (pg 7) (pg 7)]}.
Definition fork_par : proc :=
  update p_vma_l (pg 7) (update p_trapframe_l (pg 6) (update p_pagetable_l (pg 1) (update p_sz_l 100
    (update p_ofile_l (Some 0%nat :: replicate 127 None) (update p_name_l (literal "sh" ++ replicate 13 0)
      (demo_proc RUNNING 1 None)))))).
Definition fork_kern : kern :=
  update ft_file_l {[0%nat := fd_file]}
    (update kn_p_l (Pst (Kst (run_hart 0) (Spin 0 "kmem" None) (pg 10) 29 fork_mem 0 [])
       {[0%nat := fork_par; 1%nat := demo_proc UNUSED 0 None]} (Spin 0 "nextpid" None) 2 (Some 0%nat) fork_vmas false) demo_kern).
Definition fork_f : Z -> Z := xlate 3 fork_mem (pg 1).

Lemma fork_kspace : kspace fork_end fork_all fork_rest (pg 1) fork_f fork_free (s_k (kn_p fork_kern)).
Proof.
  split.
  - split; [exact (proj1 (run_hart_ok 0))|done| | | |done].
    + clear. by vm_compute.
    + clear. unfold fork_free. repeat constructor; by vm_compute.
    + apply (bool_decide_unpack _). clear. by vm_compute.
  - assert (tables 3 fork_mem (pg 1) = [pg 1; pg 2; pg 3; pg 4]) as E by (by vm_compute).
    change (k_mem (s_k (kn_p fork_kern))) with fork_mem. by rewrite E.
  - done.
Qed.
Lemma fork_vlist : vlist fork_vmas (pg 7) [pg 8].
Proof.
  split.
  - apply (bool_decide_unpack _). by vm_compute.
  - repeat constructor; by vm_compute.
Qed.
Lemma fork_can : can_fork fork_end fork_all 0 1 fork_par (demo_proc UNUSED 0 None) fork_rest fork_f fork_free [pg 8]
  [115; 104] fork_kern.
Proof.
  assert (user_vas 100 fork_vmas [pg 8] = [0; 5 * PGSIZE]) as Ev by (by vm_compute). split.
  - done.
  - split; [apply run_hart_ok|done].
  - done.
  - split; done.
  - split; [lia|]. repeat split.
  - intros i Hi. assert (i = 0%nat) as -> by lia. split; done.
  - split; [done|]. intros g [E|Hg]%elem_of_cons; [injection E as ->; done|].
    apply elem_of_replicate in Hg as [? _]. done.
  - split; [by vm_compute|simpl; lia].
  - exact fork_kspace.
  - apply (bool_decide_unpack _). by vm_compute.
  - split; [exact fork_vlist|]. split.
    + intros x [->|[->|[]%elem_of_nil]%elem_of_cons]%elem_of_cons; apply (bool_decide_unpack _); by vm_compute.
    + intros a v [->|[]%elem_of_nil]%elem_of_cons E. assert (v_addr <$> fork_vmas !! pg 8 = Some (5 * PGSIZE)) as E' by (by vm_compute).
      change (s_vmas (kn_p fork_kern)) with fork_vmas in E. rewrite E in E'. injection E' as ->. done.
  - change (s_vmas (kn_p fork_kern)) with fork_vmas. change (p_sz fork_par) with 100. rewrite Ev.
    repeat constructor; try (by vm_compute); apply (bool_decide_unpack _); by vm_compute.
  - change (s_vmas (kn_p fork_kern)) with fork_vmas. change (p_sz fork_par) with 100. rewrite Ev.
    apply (bool_decide_unpack _). by vm_compute.
  - change (s_vmas (kn_p fork_kern)) with fork_vmas. change (p_sz fork_par) with 100. rewrite Ev.
    change (length fork_free) with 29%nat. simpl. lia.
Qed.

Example fork_copies_witness :
  wp (fork fork_end 4096 8192 0 fd_ready_lsr 1)
    (fun r s => r = 2 /\ exists tf upt nh ec name ns mine lost pages' f' k' vm',
       forked fork_end fork_all 0 0 1 fork_par (demo_proc UNUSED 0 None) fork_rest fork_f [pg 8] [115; 104]
         fork_kern tf upt nh ec name ns mine lost pages' f' k' vm' s) fork_kern.
Proof.
  refine (fork_copies fork_end _ fork_all _ _ 4096 8192 0 _ _ fd_ready_lsr 1 0 1 fork_par (demo_proc UNUSED 0 None)
    fork_rest fork_f fork_free [pg 8] [115; 104] fork_kern fork_can).
  - by vm_compute.
  - unfold fork_all, fork_rest, fork_free. repeat constructor; by vm_compute.
  - apply (bool_decide_unpack _). by vm_compute.
  - by vm_compute.
  - by vm_compute.
Defined.
