(* ===== verification/ArgFacts.v ===== *)
(** Strings a program passes to a system call. *)

From S2P Require Import Prelude Mem Strings Digits Locks Kalloc Vm PageTable VmProps ProcState Vma Proc ProcFacts SchedFacts Sleeplock Bio Circ UserMem Pipe FatName Fat FatDir Console File PrintFacts Args ProcLife ProcExit SysFile Mmap Signal Exec Timer SysProc Syscall TrapFacts.

Section Str.
Variables (pt : Z) (f : Z -> Z) (m : mem).

(** What [walkaddr] gives for a page, and what it prints: an address in a direct
    map window is its own, from [MAXVA] on there is nothing, and the rest is the
    page table's. *)
Definition page_at (pg : Z) : Z :=
  if truth (Z.land pg DMWIN_MASK) then pg else if MAXVA <=? pg then 0 else user_pa (f pg).
Definition page_says (pg : Z) : list kline :=
  if truth (Z.land pg DMWIN_MASK) then []
  else if MAXVA <=? pg then [("walkaddr: va >= MAXVA", [])] else walk_says pt pg m.
(** Where the byte at user address [va] is, if it is anywhere. *)
Definition reach (va : Z) : option Z :=
  if page_at (PGROUNDDOWN va) =? 0 then None
  else Some (Z.lor (u64 (page_at (PGROUNDDOWN va) + (va - PGROUNDDOWN va))) DMWIN_MASK).

(** The string at [va], with its NUL, if it ends within [n] bytes that can be
    reached; if not, what is printed about it.  Addresses wrap around. *)
Fixpoint user_str (n : nat) (va : Z) : list kline + list Z :=
  match n with
  | O => inl []
  | S n' =>
      match reach (u64 va) with
      | None => inl (page_says (PGROUNDDOWN (u64 va)))
      | Some a =>
          let c := rd8 m a in
          if c =? 0 then inr [0]
          else match user_str n' (va + 1) with inl l => inl l | inr s => inr (c :: s) end
      end
  end.

Lemma user_str_length n : forall va s, user_str n va = inr s -> (length s <= n)%nat /\ strlen s = Some (Z.of_nat (length s) - 1).
Proof using Type.
  induction n as [|n IH]; intros va s; cbn [user_str]; [done|].
  destruct (reach _) as [a|]; [|done]. cbv zeta. destruct (Z.eqb_spec (rd8 m a) 0) as [E|E].
  { intros [= <-]. split; [cbn; lia|done]. }
  destruct (user_str n (va + 1)) as [l|s'] eqn:Es; [done|]. intros [= <-]. destruct (IH _ _ Es) as [H1 H2].
  cbn [length strlen]. rewrite H2, (proj2 (Z.eqb_neq _ _) E). cbn. split; [lia|f_equal; lia].
Qed.

(** The part of it on one page, whose bytes are those from [p] on. *)
Lemma run_page n r : forall va p, (forall i, 0 <= i < Z.of_nat n -> reach (u64 (va + i)) = Some (p + i)) ->
  let '(got, l) := copyinstr_run n p m in
  user_str (n + r) va = (if got then inr l
    else match user_str r (va + Z.of_nat n) with inl t => inl t | inr s => inr (l ++ s) end)
  /\ (length l <= n)%nat.
Proof using Type.
  induction n as [|n IH]; intros va p Hp; cbn [copyinstr_run].
  - cbn [Z.of_nat Nat.add]. rewrite Z.add_0_r. split; [by destruct (user_str r va)|cbn; lia].
  - pose proof (Hp 0 ltac:(lia)) as Ha. rewrite !Z.add_0_r in Ha.
    cbn [Nat.add user_str]. rewrite Ha. cbv zeta. destruct (rd8 m p =? 0).
    { split; [done|cbn; lia]. }
    specialize (IH (va + 1) (p + 1)). destruct (copyinstr_run n (p + 1) m) as [got l].
    destruct IH as (E & Hl).
    { intros i Hi. replace (va + 1 + i) with (va + (i + 1)) by lia. rewrite Hp by lia. f_equal. lia. }
    rewrite E. replace (va + Z.of_nat (S n)) with (va + 1 + Z.of_nat n) by lia.
    split; [|cbn [length]; lia]. destruct got; [done|]. by destruct (user_str r (va + 1 + Z.of_nat n)).
Qed.
End Str.

(** Byte [o] of a page, as an address in the window. *)
Lemma window_add P o : P mod PGSIZE = 0 -> 0 <= P < 2 ^ 64 -> 0 <= o < PGSIZE ->
  Z.lor (u64 (P + o)) DMWIN_MASK = Z.lor P DMWIN_MASK + o.
Proof.
  intros Hal HP Ho. rewrite u64_small by (unfold PGSIZE in *; zlia).
  assert (P = P / PGSIZE * 2 ^ 12) as EP by (unfold PGSIZE in *; zlia).
  change DMWIN_MASK with (0x9000000000000 * 2 ^ 12). rewrite EP. generalize (P / PGSIZE). intros h.
  assert (forall a b, Z.lor (a * 2 ^ 12) (b * 2 ^ 12) = Z.lor a b * 2 ^ 12) as Hl
    by (intros a b; rewrite <- !Z.shiftl_mul_pow2 by done; by rewrite Z.shiftl_lor).
  rewrite Hl, !(Z.add_comm (_ * _) o). rewrite <- !lor_low_high by (done || exact Ho).
  by rewrite <- Z.lor_assoc, Hl.
Qed.

Lemma chunk_page v len : 0 <= v < 2 ^ 64 -> 0 < len -> let n := chunk v len in
  0 < n <= len /\ v mod PGSIZE + n <= PGSIZE
  /\ (n = len \/ u64 (PGROUNDDOWN v + PGSIZE) = u64 (v + n) /\ (v + n) mod PGSIZE = 0
      /\ (len - n) / PGSIZE + 3 <= len / PGSIZE + (if v mod PGSIZE =? 0 then 2 else 3)).
Proof.
  intros Hv Hl n. unfold n, chunk. rewrite round_down_spec by lia. unfold PGSIZE in *.
  destruct (Z.ltb_spec len (4096 - (v - v / 4096 * 4096))) as [H|H].
  - split; [lia|]. split; [zlia|by left].
  - split; [zlia|]. split; [zlia|]. right. split; [f_equal; zlia|]. split; [zlia|].
    destruct (Z.eqb_spec (v mod 4096) 0); zlia.
Qed.
Section Fetch.
Variables (pt : Z) (f : Z -> Z).

Lemma walkaddr_any pg k : maps pt f (k_mem k) -> 0 <= pg ->
  walkaddr pt pg k = Ret (page_at f pg) (says (page_says pt (k_mem k) pg) k).
Proof using Type.
  intros Hm Hpg. unfold page_at, page_says. destruct (truth (Z.land pg DMWIN_MASK)) eqn:E.
  { unfold walkaddr. rewrite E, says_nil. done. }
  destruct (Z.leb_spec MAXVA pg) as [H|H].
  { unfold walkaddr. rewrite E, (proj2 (Z.leb_le _ _) H). done. }
  rewrite walkaddr_eq by lia. pose proof maxva_48. by rewrite Hm by lia.
Qed.
(** A page that is there is found in silence. *)
Lemma page_silent pg m : maps pt f m -> 0 <= pg -> page_at f pg <> 0 -> page_says pt m pg = [].
Proof using Type.
  intros Hm Hpg. unfold page_at, page_says. destruct (truth _); [done|]. destruct (Z.leb_spec MAXVA pg); [done|].
  pose proof maxva_48. rewrite <- (Hm pg) by lia. apply walk_says_user.
Qed.

Lemma page_at_ok pg : 0 <= pg < 2 ^ 64 -> pg mod PGSIZE = 0 -> page_at f pg mod PGSIZE = 0 /\ 0 <= page_at f pg < 2 ^ 64.
Proof using Type.
  intros H Hal. unfold page_at. destruct (truth _); [done|]. destruct (MAXVA <=? pg); [done|].
  unfold user_pa. destruct (negb _); [done|]. destruct (_ =? 0); [done|].
  destruct (PTE2PA_kpage (f pg)) as [Hr Ha]. split; [exact Ha|]. unfold DMWIN_MASK in *. lia.
Qed.
Lemma reach_page v i : 0 <= v < 2 ^ 64 -> 0 <= i -> v mod PGSIZE + i < PGSIZE ->
  reach f (v + i) = (fun a => a + i) <$> reach f v.
Proof using Type.
  intros Hv Hi Hp. unfold reach.
  assert (v + i < 2 ^ 64) as Hvi by (unfold PGSIZE in *; zlia).
  rewrite !round_down_spec by lia. assert ((v + i) / PGSIZE = v / PGSIZE) as -> by (unfold PGSIZE in *; zlia).
  set (pg := v / PGSIZE * PGSIZE). assert (0 <= pg < 2 ^ 64 /\ pg mod PGSIZE = 0 /\ v - pg = v mod PGSIZE) as (Hpg & Hal & Eo)
    by (unfold pg, PGSIZE in *; zlia).
  destruct (page_at_ok pg Hpg Hal) as [H1 H2]. destruct (page_at f pg =? 0); [done|].
  pose proof (Z.mod_pos_bound v PGSIZE ltac:(done)).
  replace (v + i - pg) with (v mod PGSIZE + i) by lia. rewrite Eo, !window_add by (done || lia). cbn. f_equal. lia.
Qed.

Lemma copyinstr_turn_step v len got k : maps pt f (k_mem k) -> 0 <= v < 2 ^ 64 -> 0 < len ->
  let n := chunk v len in
  copyinstr_turn pt (v, got, len) k =
  match reach f v with
  | Some a =>
     let '(got_null, l) := copyinstr_run (Z.to_nat n) a (k_mem k) in
     if got_null : bool then Ret (inr (0, got ++ l)) k
     else Ret (inl (u64 (PGROUNDDOWN v + PGSIZE), got ++ l, len - n)) k
  | None => Ret (inr (-1, got)) (says (page_says pt (k_mem k) (PGROUNDDOWN v)) k)
  end.
Proof using Type.
  intros Hm Hv Hc n. unfold copyinstr_turn. rewrite (proj2 (Z.eqb_neq len 0)) by lia.
  assert (0 <= PGROUNDDOWN v) as Hpg by (rewrite round_down_spec by lia; unfold PGSIZE; zlia).
  cbv zeta. rewrite (bind_ret _ _ _ _ _ (walkaddr_any _ _ Hm Hpg)). unfold reach.
  destruct (Z.eqb_spec (page_at f (PGROUNDDOWN v)) 0) as [E|E]; [done|].
  rewrite page_silent, says_nil by done. cbv zeta.
  rewrite (bind_ret (rd k_mem_l) _ k (k_mem k) k) by done. fold (chunk v len). fold n.
  by destruct (copyinstr_run _ _ _) as [[] l].
Qed.

Lemma user_str_u64 m n w : user_str pt f m n (u64 w) = user_str pt f m n w.
Proof using Type.
  revert w. induction n as [|n IH]; intros w; [done|]. cbn [user_str].
  assert (u64 (u64 w) = u64 w) as -> by (apply Z.mod_mod; done). rewrite <- (IH (u64 w + 1)), <- (IH (w + 1)).
  assert (u64 (u64 w + 1) = u64 (w + 1)) as -> by (unfold u64; by rewrite Z.add_mod_idemp_l). done.
Qed.

Lemma fetch_loop fuel : forall v len got k, maps pt f (k_mem k) -> 0 <= v < 2 ^ 64 -> 0 <= len ->
  len / PGSIZE + (if v mod PGSIZE =? 0 then 2 else 3) <= Z.of_nat fuel ->
  exists l, (length l <= Z.to_nat len)%nat /\
    match user_str pt f (k_mem k) (Z.to_nat len) v with
    | inr s => l = s /\ loop fuel (v, got, len) (copyinstr_turn pt) k = Ret (0, got ++ s) k
    | inl t => loop fuel (v, got, len) (copyinstr_turn pt) k = Ret (-1, got ++ l) (says t k)
    end.
Proof using Type.
  induction fuel as [|fuel IH]; intros v len got k Hm Hv Hl Hfuel.
  { exfalso. unfold PGSIZE in *. destruct (_ =? 0); zlia. }
  cbn [loop]. destruct (Z.eq_dec len 0) as [->|Hne].
  { exists []. rewrite app_nil_r. change (Z.to_nat 0) with 0%nat. cbn [user_str]. rewrite says_nil. split; [cbn; lia|done]. }
  assert (0 < len) as Hlen by lia. destruct (chunk_page v len Hv Hlen) as (Hn & Hpage & Hnext).
  pose proof (copyinstr_turn_step v len got k Hm Hv Hlen) as Hstep. cbv zeta in Hstep, Hn, Hpage, Hnext.
  set (n := chunk v len) in *. destruct (reach f v) as [a|] eqn:Er.
  2:{ rewrite (bind_ret _ _ _ _ _ Hstep). exists []. rewrite app_nil_r. split; [cbn; lia|].
      destruct (Z.to_nat len) eqn:E; [lia|]. cbn [user_str]. rewrite u64_small by lia. by rewrite Er. }
  pose proof (run_page pt f (k_mem k) (Z.to_nat n) (Z.to_nat (len - n)) v a) as Hrun.
  destruct (copyinstr_run (Z.to_nat n) a (k_mem k)) as [nul l] eqn:El.
  destruct Hrun as (Es & Hll).
  { intros i Hi. rewrite u64_small by (unfold PGSIZE in *; zlia). by rewrite reach_page, Er by lia. }
  rewrite <- Z2Nat.inj_add in Es by lia. replace (n + (len - n)) with len in Es by lia. rewrite Es.
  destruct nul; rewrite (bind_ret _ _ _ _ _ Hstep).
  { exists l. split; [lia|done]. }
  rewrite Z2Nat.id by lia. destruct Hnext as [E|(-> & Hal & Ht)].
  { rewrite E, Z.sub_diag. exists l. split; [lia|]. change (Z.to_nat 0) with 0%nat. cbn [user_str].
    destruct fuel as [|fuel]; [exfalso; unfold PGSIZE in *; destruct (_ =? 0); zlia|].
    by rewrite says_nil. }
  destruct (IH (u64 (v + n)) (len - n) (got ++ l) k Hm) as (l' & Hl' & E); [by apply Z.mod_pos_bound|lia| |].
  { assert (u64 (v + n) mod PGSIZE = 0) as ->; [|cbn [Z.eqb]; lia].
    unfold u64. change (2 ^ 64) with (PGSIZE * 2 ^ 52). rewrite <- Hal. unfold PGSIZE. zlia. }
  rewrite user_str_u64 in E. exists (l ++ l'). rewrite length_app. split; [lia|].
  destruct (user_str pt f (k_mem k) (Z.to_nat (len - n)) (v + n)) as [t|s].
  - by rewrite E, app_assoc.
  - destruct E as [-> E]. by rewrite E, app_assoc.
Qed.
End Fetch.
(** C21. A string argument, at whatever address the [n]th argument holds.
    [argstr] gives the kernel exactly the string there, NUL included, if it ends
    within [max] bytes that [walkaddr] can reach, page boundaries or not: bytes
    of the program's pages and, as the code does not keep the program from it,
    of the direct-map windows, addresses wrapping around at 2 ^ 64.  Otherwise,
    when no NUL comes in time or a page on the way cannot be reached, it returns
    -1, and what [walkaddr] prints about that page is printed.  A buffer of [max]
    bytes never overflows, and nothing else in the kernel changes. *)
Theorem argstr_reads (p : nat) (n size max : Z) (f : Z -> Z) (k : kern)
    (pr := view (kn_p_l ⊚ proc_l p) k) (m := view (kn_p_l ⊚ mem_l) k)
    (addr := rd64 m (p_trapframe pr + (tf_a0 + 8 * n))) :
  settled (view (kn_p_l ⊚ hart_l) k) -> c_proc (view mycpu_l (view (kn_p_l ⊚ hart_l) k)) = Some p ->
  0 <= n <= 6 -> 0 <= max <= size -> maps (p_pagetable pr) f m ->
  argstr n size max k =
  match user_str (p_pagetable pr) f m (Z.to_nat max) addr with
  | inr s => Ret (Some s) k
  | inl t => Ret None (update (kn_p_l ⊚ s_k_l) (says t (view (kn_p_l ⊚ s_k_l) k)) k)
  end.
Proof.
  intros Hs Hp Hn Hmax Hm. assert (0 <= addr < 2 ^ 64) as Hpos by apply rd64_range.
  assert (forall A (g : lens proc A), mine g k = Ret (view g pr) k) as Hmine.
  { intros A g. apply wp_ret_eq. apply wp_bind, (wp_kcur_kern p); [apply Hs|exact Hp|].
    rewrite (settled_eq _ Hs). replace (update (kn_p_l ⊚ hart_l) _ k) with k; [done|].
    by destruct k as [[[] ? ? ? ? ? ?] ? ? ? ? ? ? ?]. }
  assert (forall k', update kn_p_l (update s_k_l k' (view kn_p_l k)) k = update (kn_p_l ⊚ s_k_l) k' k) as Ek by done.
  assert (argaddr n k = Ret addr k) as Ha.
  { unfold argaddr, argraw. rewrite (proj2 (Z.leb_le 0 n)), (proj2 (Z.leb_le n 6)) by lia.
    cbn [andb]. unfold tf_load. rewrite (bind_ret _ _ _ _ _ (Hmine _ p_trapframe_l)).
    apply wp_ret_eq, wp_zoom, wp_zoom, wp_inv. eexists _, _. split; [done|]. split; [done|].
    by destruct k as [[[] ? ? ? ? ? ?] ? ? ? ? ? ? ?]. }
  unfold argstr. rewrite (bind_ret _ _ _ _ _ Ha). unfold fetchstr.
  destruct (fetch_loop (p_pagetable pr) f (Z.to_nat (max / PGSIZE + 3)) addr max []
    (view s_k_l (view kn_p_l k)) Hm Hpos ltac:(lia)) as (l & Hl & E).
  { unfold PGSIZE. destruct (_ =? 0); zlia. }
  change (k_mem (view s_k_l (view kn_p_l k))) with m in *.
  destruct (user_str (p_pagetable pr) f m (Z.to_nat max) addr) as [t|s] eqn:Es.
  - apply wp_ret_eq, wp_bind, wp_bind, wp_inv. eexists _, _. split; [exact (Hmine _ p_pagetable_l)|].
    apply wp_bind, wp_zoom, wp_zoom, wp_inv. eexists _, _. split; [exact E|]. cbn [app].
    rewrite (proj2 (Z.ltb_ge size _)) by lia. by repeat apply wp_mret.
  - destruct E as [-> E]. destruct (user_str_length _ _ _ _ _ _ Es) as [_ Hlen].
    apply wp_ret_eq, wp_bind, wp_bind, wp_inv. eexists _, _. split; [exact (Hmine _ p_pagetable_l)|].
    apply wp_bind, wp_zoom, wp_zoom, wp_inv. eexists _, _. split; [exact E|]. cbn [app].
    rewrite (proj2 (Z.ltb_ge size _)) by lia. cbn [Z.ltb Z.compare]. rewrite Hlen. cbn [lift]. apply wp_bind, wp_mret, wp_mret.
    rewrite (proj2 (Z.ltb_ge _ 0)). 2:{ destruct s; [done|cbn [length]; lia]. }
    apply wp_mret. split; [done|]. by destruct k as [[[] ? ? ? ? ? ?] ? ? ? ? ? ? ?].
Qed.

(** * An example *)

Definition str_mem : mem :=
  wr64 (write_bytes demo_mapped_mem (pg 4 + 2) (literal "ab")) (0x1000 + tf_a0) (5 * PGSIZE + 2).
Definition str_kern : kern :=
  update (kn_p_l ⊚ mem_l) str_mem
    (update (kn_p_l ⊚ (proc_l 0 ⊚ p_trapframe_l)) 0x1000
      (update (kn_p_l ⊚ (proc_l 0 ⊚ p_pagetable_l)) (pg 5) demo_kern)).
(** The string "ab" at the start of a page of the program. *)
Lemma str_kern_str :
  user_str (p_pagetable (view (kn_p_l ⊚ proc_l 0) str_kern)) (xlate 3 str_mem (pg 5))
    (view (kn_p_l ⊚ mem_l) str_kern) (Z.to_nat 260)
    (rd64 (view (kn_p_l ⊚ mem_l) str_kern) (p_trapframe (view (kn_p_l ⊚ proc_l 0) str_kern) + (tf_a0 + 8 * 0)))
  = inr (literal "ab").
Proof. by vm_compute. Qed.
Example argstr_reads_witness : argstr 0 260 260 str_kern = Ret (Some (literal "ab")) str_kern.
Proof.
  pose proof (argstr_reads 0 0 260 260 (xlate 3 str_mem (pg 5)) str_kern (run_hart_ok 0) eq_refl
    ltac:(lia) ltac:(lia)) as H.
  specialize (H (fun va _ => eq_refl)). rewrite str_kern_str in H. exact H.
Defined.
