(* ===== verification/Ulib.v ===== *)
(** The library of the user programs: user/ulib.c and user/printf.c.

    Strings are as in Strings.v: the list of the elements from the pointer to
    the end of the array, with no value where the code walks off it; a routine
    that writes an array gives the array as it leaves it.  [Sys] has the system
    calls a program makes as operations on the rest of the system. *)

From S2P Require Import Prelude Mem Strings Digits.

(** * Strings (ulib.c) *)

Fixpoint strcpy (s t : list Z) : option (list Z) :=
  match s, t with
  | _ :: s', c :: t' => if c =? 0 then Some (0 :: s') else cons c <$> strcpy s' t'
  | _, _ => None
  end.
Fixpoint strcat (s t : list Z) : option (list Z) :=
  match s with
  | [] => None
  | c :: s' => if c =? 0 then strcpy s t else cons c <$> strcat s' t
  end.
Fixpoint strcmp (p q : list Z) : option Z :=
  match p, q with
  | a :: p', b :: q' => if truth a && (a =? b) then strcmp p' q' else Some (a - b)
  | _, _ => None
  end.
Fixpoint ustrlen (s : list Z) : option Z :=
  match s with
  | [] => None
  | c :: s' => if c =? 0 then Some 0 else Z.succ <$> ustrlen s'
  end.
(** [extractCountNumber]: the number behind [target] at the start of a line of
    [str], or else, and for the number 1, the next of [magic]; [count] is static. *)
Definition magic : list Z := [9443; 16589; 49882; 23478; 234; 45; 23; 87684334; 98374812; 89734872; 889].
(** What follows [target], if [str] begins with it. *)
Fixpoint behind (target str : list Z) : option (option (list Z)) :=
  match target, str with
  | c :: target', x :: str' =>
      if c =? 0 then Some (Some str) else if x =? c then behind target' str' else Some None
  | _, _ => None
  end.
Fixpoint number (num : Z) (str : list Z) : option Z :=
  match str with
  | [] => None
  | c :: str' => if (48 <=? c) && (c <=? 57) then number (s32 (num * 10 + (c - 48))) str' else Some num
  end.
Fixpoint next_line (str : list Z) : option (list Z) :=
  match str with
  | [] => None
  | c :: str' => if c =? 0 then Some str else if c =? 10 then Some str' else next_line str'
  end.
(** A turn a line: the length of the array is enough. *)
Fixpoint count_number (fuel : nat) (target str : list Z) : option Z :=
  match fuel, str with
  | S n, c :: _ =>
      if c =? 0 then Some 1
      else
        match behind target str with
        | None => None
        | Some (Some rest) => number 0 rest
        | Some None => match next_line str with Some str' => count_number n target str' | None => None end
        end
  | _, _ => None
  end.
Definition extractCountNumber (count : Z) (str target : list Z) : option (Z * Z) :=
  num ← count_number (length str) target str;
  let '(num, count) := if (num =? 1) && (count <=? 10) then (nth (Z.to_nat count) magic 0, count + 1) else (num, count) in
  Some (if num <? 0 then s32 (- num) else num, count).

(** [memset] on an array. *)
Fixpoint fill_array (dst : list Z) (c : Z) (n : nat) : option (list Z) :=
  match n, dst with
  | O, _ => Some dst
  | S n', _ :: dst' => cons (u8 c) <$> fill_array dst' c n'
  | S _, [] => None
  end.
(** The distance to the character; [None] inside is the null pointer. *)
Fixpoint strchr (s : list Z) (c : Z) : option (option Z) :=
  match s with
  | [] => None
  | x :: s' =>
      if x =? 0 then Some None
      else if x =? c then Some (Some 0) else option_map (option_map Z.succ) (strchr s' c)
  end.

(** [while ('0' <= *s && *s <= '9')] *)
Fixpoint atoi_digits (n : Z) (s : list Z) : option Z :=
  match s with
  | [] => None
  | c :: s' => if (48 <=? c) && (c <=? 57) then atoi_digits (s32 (n * 10 + c - 48)) s' else Some n
  end.
Definition atoi (s : list Z) : option Z :=
  match s with
  | [] => None
  | c :: s' =>
      if c =? 45 then (fun n => s32 (n * -1)) <$> atoi_digits 0 s'
      else (fun n => s32 (n * 1)) <$> atoi_digits 0 s
  end.

(** * Blocks of memory (ulib.c) *)

Definition umemmove (m : mem) (dst src n : Z) : mem :=
  if dst <? src then
    foldl (fun m i => wr8 m (dst + i) (rd8 m (src + i))) m (seqZ 0 n)
  else
    foldl (fun m i => wr8 m (dst + n - 1 - i) (rd8 m (src + n - 1 - i))) m (seqZ 0 n).
(** A [char] is signed. *)
Fixpoint umemcmp_loop (m : mem) (s1 s2 : Z) (n : nat) : Z :=
  match n with
  | O => 0
  | S n' =>
      if rd8 m s1 =? rd8 m s2 then umemcmp_loop m (s1 + 1) (s2 + 1) n'
      else s8 (rd8 m s1) - s8 (rd8 m s2)
  end.
Definition umemcmp (m : mem) (s1 s2 n : Z) : Z := umemcmp_loop m s1 s2 (Z.to_nat (u32 n)).
Definition umemcpy (m : mem) (dst src n : Z) : mem := umemmove m dst src (s32 (u32 n)).

(** * System calls *)

(** What a program sees of the system [K]: each call's result, and the bytes it
    leaves in the caller's buffer. *)
Class Sys (K : Type) := {
  sys_read (fd n : Z) : M K (Z * list Z);
  sys_write (fd : Z) (bs : list Z) : M K Z;
  sys_open (path : list Z) (mode : Z) : M K Z;
  sys_close (fd : Z) : M K Z;
  sys_fstat (fd : Z) : M K (Z * list Z)
}.

(** Reading a stream: while there is input, a read that asks for something
    gets at least one byte and at most what it asked for. *)
Class Stream (K : Type) `{Sys K} (fd : Z) (input : K -> list Z) (output : K -> list Z) : Prop := {
  read_gives : forall n k, 0 <= n -> exists bs k',
    sys_read fd n k = Ret (Z.of_nat (length bs), bs) k' /\
    Z.of_nat (length bs) <= n /\ input k = bs ++ input k' /\ output k' = output k /\
    (bs = [] -> n = 0 \/ input k = []);
  write_puts : forall bs k, exists r k',
    sys_write 1 bs k = Ret r k' /\ input k' = input k /\ output k' = output k ++ bs
}.

(** [gets]: the buffer and the number of characters in it go round. *)
Section Gets.
Context {K : Type} `{Sys K}.

Definition gets_turn (max : Z) '((buf, i) : list Z * Z) : M K (list Z * Z + list Z * Z) :=
  if i + 1 <? max then
    '(cc, bs) ← sys_read 0 1;
    if cc <? 1 then mret (inr (buf, i))
    else
      let c := hd 0 bs in
      let buf := <[Z.to_nat i := c]> buf in
      if (c =? 10) || (c =? 13) then mret (inr (buf, i + 1)) else mret (inl (buf, i + 1))
  else mret (inr (buf, i)).
(** [buf] has at least [max] elements, or the last store is out of range. *)
Definition gets_line (buf : list Z) (max : Z) : M K (list Z) :=
  '(buf, i) ← loop (Z.to_nat max) (buf, 0) (gets_turn max);
  if Z.of_nat (length buf) <=? i then undef "gets: buf[i]"
  else mret (<[Z.to_nat i := 0]> buf).

(** The [struct stat] is left as it was when the file cannot be opened. *)
Definition ustat (n st : list Z) : M K (Z * list Z) :=
  fd ← sys_open n 0;
  if fd <? 0 then mret (-1, st)
  else
    '(r, st) ← sys_fstat fd;
    _ ← sys_close fd;
    mret (r, st).
End Gets.

(** * Formatted output (printf.c) *)

(** Upper-case hexadecimal digits. *)
Definition digits : list Z := chars "0123456789ABCDEF".
Definition uint_chars (xx base : Z) (sgn : bool) : option (list Z) := int_chars digits xx base sgn.

(** What [vprintf] writes for the conversion [%c]; an argument that is not
    there, or of the other kind, is undefined. *)
Definition uconv (c : Z) (ap : list vararg) : option (list Z * list vararg) :=
  if c =? 100 then '(z, ap) ← va_int ap; o ← uint_chars z 10 true; Some (o, ap)
  else if c =? 108 then '(z, ap) ← va_int ap; o ← uint_chars z 10 false; Some (o, ap)
  else if c =? 120 then '(z, ap) ← va_int ap; o ← uint_chars z 16 false; Some (o, ap)
  else if c =? 112 then '(z, ap) ← va_int ap; Some (ptr_chars digits (u64 z), ap)
  else if c =? 115 then va_str ap
  else if c =? 99 then '(z, ap) ← va_int ap; Some ([u8 z], ap)
  else if c =? 37 then Some ([c], ap)
  else Some ([37; c], ap).

(** [state] is whether the last character was an open [%]. *)
Fixpoint vprintf_from (state : bool) (fmt : list Z) (ap : list vararg) : option (list Z) :=
  match fmt with
  | [] => None
  | c :: fmt' =>
      if c =? 0 then Some []
      else if negb state then
        if c =? 37 then vprintf_from true fmt' ap else cons c <$> vprintf_from false fmt' ap
      else '(o, ap') ← uconv c ap; app o <$> vprintf_from false fmt' ap'
  end.
(** [putc] writes one character a call. *)
Definition vprintf `{Sys K} (fd : Z) (fmt : list Z) (ap : list vararg) : M K unit :=
  o ← lift "vprintf" (vprintf_from false fmt ap);
  for_each o (fun c => _ ← sys_write fd [c]; mret tt).
Definition fprintf `{Sys K} (fd : Z) (fmt : list Z) (ap : list vararg) : M K unit := vprintf fd fmt ap.
Definition uprintf `{Sys K} (fmt : list Z) (ap : list vararg) : M K unit := vprintf 1 fmt ap.

(** * Numbers are printed as they are read *)

Lemma atoi_digits_stop l c rest : Forall is_digit l -> ~ is_digit c ->
  atoi_digits 0 (l ++ c :: rest) = Some (decimal l).
Proof.
  unfold decimal. generalize 0 as n. intros n Hl Hc. revert n.
  induction Hl as [|d l Hd Hl IH]; intros n; cbn [app atoi_digits foldl]; unfold is_digit in *.
  - destruct (Z.leb_spec 48 c), (Z.leb_spec c 57); cbn; done || lia.
  - rewrite (proj2 (Z.leb_le 48 d)), (proj2 (Z.leb_le d 57)) by lia. apply IH.
Qed.

Lemma digit_value x : 0 <= x < 10 -> nth (Z.to_nat x) digits 0 = 48 + x.
Proof.
  intros Hx. assert (x = 0 \/ x = 1 \/ x = 2 \/ x = 3 \/ x = 4 \/ x = 5 \/ x = 6 \/ x = 7 \/ x = 8 \/ x = 9) by lia.
  repeat match goal with H : _ \/ _ |- _ => destruct H as [->|H]; [done|] end. by subst x.
Qed.
(** Whatever [int] the library's [printint] prints in base 10, [atoi]
    reads back, the most negative one included; the characters are at most
    eleven, so its buffer of sixteen does not overflow. *)
Theorem printint_atoi (xx : Z) (rest : list Z) :
  exists o, uint_chars xx 10 true = Some o /\ (length o <= 11)%nat /\
    atoi (o ++ 0 :: rest) = Some (s32 xx).
Proof.
  destruct (int_chars_decimal digits digit_value xx) as (l & E & Hd & Hnil & Hlen & Hv). cbn zeta in *.
  pose proof (s32_range xx) as Hx. eexists. split; [exact E|].
  assert (atoi_digits 0 (l ++ 0 :: rest) = Some (decimal l)) as Ha
    by (apply atoi_digits_stop; [done|unfold is_digit; lia]).
  destruct (Z.ltb_spec (s32 xx) 0) as [Hneg|Hpos].
  - split; [cbn; lia|]. cbn [app atoi]. change (45 =? 45) with true. cbn iota.
    rewrite Ha, Hv. cbn. f_equal. clear -Hneg Hx. revert Hneg Hx. generalize (s32 xx). intros. zlia.
  - split; [cbn; lia|]. destruct Hd as [|c l Hc Hd]; [done|]. cbn [app] in *. cbn [atoi].
    rewrite (proj2 (Z.eqb_neq c 45)) by (unfold is_digit in Hc; lia). rewrite Ha, Hv. cbn. f_equal.
    clear -Hpos Hx. revert Hpos Hx. generalize (s32 xx). intros. zlia.
Qed.
