(* ===== verification/Grep.v ===== *)
(** The regular expressions of user/grep.c, and grep itself.

    The pattern and a text are strings: the list of the bytes from the pointer
    to the end of the array, read as far as the NUL.  [match_] is the code's
    [match]; [found] is what an expression means.  [grep] runs over a system
    [K] that has [read] and [write] as operations; [Stdio] is what it relies
    on. *)

From S2P Require Import Prelude Mem Strings Digits Ulib.

(** * The matcher *)

(** [matchstar(c, re, text)], with [here] for [matchhere(re, _)]. *)
Fixpoint matchstar (here : list Z -> option Z) (c : Z) (text : list Z) : option Z :=
  r ← here text;
  if truth r then Some 1
  else match text with
       | [] => None
       | t :: text' =>
           if negb (t =? 0) && ((t =? c) || (c =? 46)) then matchstar here c text' else Some 0
       end.

Fixpoint matchhere (re text : list Z) : option Z :=
  match re with
  | [] => None
  | r0 :: re' =>
      if r0 =? 0 then Some 1
      else match re' with
           | [] => None
           | r1 :: re'' =>
               if r1 =? 42 then matchstar (matchhere re'') r0 text
               else match text with
                    | [] => None
                    | t :: text' =>
                        if (r0 =? 36) && (r1 =? 0) then Some (b2z (t =? 0))
                        else if negb (t =? 0) && ((r0 =? 46) || (r0 =? t)) then matchhere re' text'
                        else Some 0
                    end
           end
  end.

(** The [do]-[while] of [match]: the last turn is the one at the NUL. *)
Fixpoint match_from (re text : list Z) : option Z :=
  r ← matchhere re text;
  if truth r then Some 1
  else match text with
       | [] => None
       | t :: text' => if negb (t =? 0) then match_from re text' else Some 0
       end.

Definition match_ (re text : list Z) : option Z :=
  match re with
  | [] => None
  | r0 :: re' => if r0 =? 94 then matchhere re' text else match_from re text
  end.

(** * What an expression means *)

Inductive piece :=
| One (c : Z)    (** one character *)
| Star (c : Z).  (** any number of them *)

(** [.] fits every character. *)
Definition fits (c t : Z) : Prop := c = 46 \/ c = t.
#[export] Instance fits_dec c t : Decision (fits c t).
Proof. unfold fits. apply _. Defined.

Inductive spells : list piece -> list Z -> Prop :=
| spells_nil : spells [] []
| spells_one c t ps s : fits c t -> spells ps s -> spells (One c :: ps) (t :: s)
| spells_stop c ps s : spells ps s -> spells (Star c :: ps) s
| spells_more c t ps s : fits c t -> spells (Star c :: ps) s -> spells (Star c :: ps) (t :: s).

(** An expression without its [^]: the pieces, and whether it ends in [$]. *)
Fixpoint pieces (re : list Z) : list piece * bool :=
  match re with
  | [] => ([], false)
  | c :: re' =>
      match re' with
      | [] => if c =? 36 then ([], true) else ([One c], false)
      | d :: re'' =>
          if d =? 42 then let '(ps, e) := pieces re'' in (Star c :: ps, e)
          else let '(ps, e) := pieces re' in (One c :: ps, e)
      end
  end.

(** The text starts with a match; with [$], it is one. *)
Definition starts (re text : list Z) : Prop :=
  exists b c, text = b ++ c /\ spells (pieces re).1 b /\ ((pieces re).2 = true -> c = []).
Definition found (re text : list Z) : Prop :=
  if decide (hd 0 re = 94) then starts (tl re) text
  else exists a b, text = a ++ b /\ starts re b.

(** A string without its NUL. *)
Definition plain (s : list Z) : Prop := Forall (fun c => c <> 0) s.

Lemma pieces_two c d re : d <> 42 -> pieces (c :: d :: re) = let '(ps, e) := pieces (d :: re) in (One c :: ps, e).
Proof. intros H. cbn -[Z.eqb]. by rewrite (proj2 (Z.eqb_neq d 42) H). Qed.

(** What [starts] says of each form an expression has. *)
Lemma starts_star c re text :
  starts (c :: 42 :: re) text
  <-> starts re text \/ exists t text', text = t :: text' /\ fits c t /\ starts (c :: 42 :: re) text'.
Proof.
  unfold starts. cbn [pieces]. change (42 =? 42) with true. cbn match.
  destruct (pieces re) as [ps e]; cbn [fst snd]. split.
  - intros (b & c' & -> & Hs & He). inversion Hs; subst.
    + left. eauto 6.
    + right. cbn. do 2 eexists. split; [done|]. split; [done|]. eauto 6.
  - intros [(b & c' & -> & Hs & He)|(t & text' & -> & Hf & b & c' & -> & Hs & He)].
    + exists b, c'. split; [done|]. split; [by apply spells_stop|done].
    + exists (t :: b), c'. split; [done|]. split; [by apply spells_more|done].
Qed.
Lemma starts_one c re text : (forall re', re <> 42 :: re') -> (c <> 36 \/ re <> []) ->
  starts (c :: re) text <-> exists t text', text = t :: text' /\ fits c t /\ starts re text'.
Proof.
  intros H42 H36. unfold starts.
  assert (pieces (c :: re) = let '(ps, e) := pieces re in (One c :: ps, e)) as ->.
  { destruct re as [|d re]; [|apply pieces_two; intros ->; by eapply H42].
    cbn -[Z.eqb]. rewrite (proj2 (Z.eqb_neq c 36)); [done|]. by destruct H36. }
  destruct (pieces re) as [ps e]; cbn [fst snd]. split.
  - intros (b & c' & -> & Hs & He). inversion Hs; subst. do 2 eexists. split; [done|]. eauto 6.
  - intros (t & text' & -> & Hf & b & c' & -> & Hs & He).
    exists (t :: b), c'. split; [done|]. split; [by apply spells_one|done].
Qed.
Lemma starts_nil text : starts [] text.
Proof. exists [], text. split; [done|]. split; [apply spells_nil|done]. Qed.
Lemma starts_dollar text : starts [36] text <-> text = [].
Proof.
  split; [|intros ->; exists [], []; split; [done|]; split; [apply spells_nil|done]].
  intros (b & c & -> & Hs & He). cbn in Hs, He. rewrite He by done. by inversion Hs.
Qed.

(** ** The matcher decides it *)

(** The answer [r] says whether [P] holds. *)
Definition answers (r : option Z) (P : Prop) : Prop := r = Some 1 /\ P \/ r = Some 0 /\ ~ P.

Lemma answers_iff r (P P' : Prop) : (P <-> P') -> answers r P -> answers r P'.
Proof. unfold answers. tauto. Qed.
Lemma answers_bool b (P : Prop) : (b = true <-> P) -> answers (Some (b2z b)) P.
Proof. intros H. destruct b; [left|right]; (split; [done|]); [by apply H|intros HP; by apply H in HP]. Qed.
Lemma answers_no (P : Prop) : ~ P -> answers (Some 0) P.
Proof. by right. Qed.

(** What follows the NULs does not matter. *)
Section Decides.
Variables (rj tj : list Z).

Lemma matchstar_answers here c re text : plain text ->
  (forall s, plain s -> answers (here (s ++ 0 :: tj)) (starts re s)) ->
  answers (matchstar here c (text ++ 0 :: tj)) (starts (c :: 42 :: re) text).
Proof.
  intros Ht Hh. induction Ht as [|t text Htz Ht IH]; eapply answers_iff; try (symmetry; apply starts_star).
  - cbn [matchstar app]. destruct (Hh []) as [[E Hy]|[E Hn]]; [by constructor| |];
      cbn [app] in E; rewrite E; cbn -[starts].
    + left. tauto.
    + apply answers_no. intros [?|(? & ? & ? & _)]; done.
  - cbn [app]. cbn [matchstar]. destruct (Hh (t :: text)) as [[E Hy]|[E Hn]]; [by constructor| |];
      cbn [app] in E; rewrite E; cbn -[Z.eqb starts].
    + left. tauto.
    + rewrite (proj2 (Z.eqb_neq t 0) Htz). cbn [negb andb].
      destruct ((t =? c) || (c =? 46)) eqn:Ef.
      * eapply answers_iff; [|exact IH]. split; [intros; right; do 2 eexists; split; [done|split; [|done]]
          |intros [?|(? & ? & [= <- <-] & _ & ?)]; done].
        unfold fits. apply orb_true_iff in Ef. lia.
      * apply answers_no. intros [?|(? & ? & [= <- <-] & Hf & _)]; [done|].
        unfold fits in Hf. apply orb_false_iff in Ef. lia.
Qed.

Lemma matchhere_answers n : forall re text, (length re <= n)%nat -> plain re -> plain text ->
  answers (matchhere (re ++ 0 :: rj) (text ++ 0 :: tj)) (starts re text).
Proof.
  induction n as [|n IH]; intros re text Hn Hr Ht.
  { destruct re; [|cbn in Hn; lia]. left. split; [done|apply starts_nil]. }
  destruct Hr as [|c re Hc Hr]; [left; split; [done|apply starts_nil]|].
  cbn [app]. cbn [matchhere]. rewrite (proj2 (Z.eqb_neq c 0) Hc).
  destruct Hr as [|d re Hd Hr]; cbn [app].
  - change (0 =? 42) with false. cbn match. destruct (Z.eqb_spec c 36) as [->|H36]; cbn [andb].
    + eapply answers_iff; [symmetry; apply starts_dollar|]. destruct Ht as [|t text Htz Ht]; cbn [app].
      * apply answers_bool. done.
      * rewrite (proj2 (Z.eqb_neq t 0) Htz). by apply answers_no.
    + eapply answers_iff; [symmetry; apply starts_one; [done|by left]|].
      destruct Ht as [|t text Htz Ht]; cbn [app].
      * apply answers_no. by intros (? & ? & ? & _).
      * rewrite (proj2 (Z.eqb_neq t 0) Htz). cbn [negb andb].
        destruct ((c =? 46) || (c =? t)) eqn:Ef.
        -- left. split; [done|]. do 2 eexists. split; [done|].
           split; [unfold fits; lia|apply starts_nil].
        -- apply answers_no. intros (? & ? & [= <- <-] & Hf & _). unfold fits in Hf. lia.
  - destruct (Z.eqb_spec d 42) as [->|H42].
    { apply matchstar_answers; [done|]. intros s Hs. apply IH; [cbn in Hn; lia|done|done]. }
    eapply answers_iff; [symmetry; apply starts_one; [by intros ? [= -> _]|by right]|].
    rewrite (proj2 (Z.eqb_neq d 0) Hd), andb_false_r.
    destruct Ht as [|t text Htz Ht]; cbn [app].
    + apply answers_no. by intros (? & ? & ? & _).
    + rewrite (proj2 (Z.eqb_neq t 0) Htz). cbn [negb andb].
      destruct ((c =? 46) || (c =? t)) eqn:Ef.
      * eapply answers_iff; [|apply (IH (d :: re) text); [cbn in *; lia|by constructor|done]].
        split; [intros; do 2 eexists; split; [done|split; [unfold fits; lia|done]]
               |by intros (? & ? & [= <- <-] & _ & ?)].
      * apply answers_no. intros (? & ? & [= <- <-] & Hf & _). unfold fits in Hf. lia.
Qed.

Lemma found_from re text : (forall re', re <> 94 :: re') ->
  found re text <-> exists a b, text = a ++ b /\ starts re b.
Proof.
  intros H. unfold found. rewrite decide_False; [done|]. destruct re as [|c re]; [done|].
  cbn. intros ->. by destruct (H re).
Qed.

Lemma match_from_answers re text : plain re -> plain text ->
  answers (match_from (re ++ 0 :: rj) (text ++ 0 :: tj)) (exists a b, text = a ++ b /\ starts re b).
Proof.
  intros Hr Ht. induction Ht as [|t text Htz Ht IH]; cbn [app]; cbn [match_from].
  - destruct (matchhere_answers _ re [] (le_n _) Hr) as [[E Hy]|[E Hn]]; [by constructor| |];
      cbn [app] in E; rewrite E; cbn -[starts].
    + left. split; [done|]. by exists [], [].
    + apply answers_no. intros ([|] & [|] & ? & ?); done.
  - destruct (matchhere_answers _ re (t :: text) (le_n _) Hr) as [[E Hy]|[E Hn]]; [by constructor| |];
      cbn [app] in E; rewrite E; cbn -[starts Z.eqb].
    + left. split; [done|]. by exists [], (t :: text).
    + rewrite (proj2 (Z.eqb_neq t 0) Htz). cbn [negb].
      eapply answers_iff; [|exact IH]. split.
      * intros (a & b & -> & Hs). by exists (t :: a), b.
      * intros ([|? a] & b & E' & Hs); cbn in E'; [by subst|]. injection E' as -> ->. eauto.
Qed.

Lemma match_answers re text : plain re -> plain text ->
  answers (match_ (re ++ 0 :: rj) (text ++ 0 :: tj)) (found re text).
Proof.
  intros Hr Ht. destruct Hr as [|c re Hc Hr]; cbn [app].
  { unfold match_. change (0 =? 94) with false. eapply answers_iff; [|apply (match_from_answers []); [by constructor|done]].
    symmetry. by apply found_from. }
  unfold match_. destruct (Z.eqb_spec c 94) as [->|H94].
  { unfold found. rewrite decide_True by done. by apply (matchhere_answers _ _ _ (le_n _)). }
  eapply answers_iff; [|apply (match_from_answers (c :: re)); [by constructor|done]].
  symmetry. apply found_from. by intros ? [= ->].
Qed.

End Decides.

#[export] Instance found_dec re text : Decision (plain re /\ plain text /\ found re text).
Proof.
  destruct (decide (plain re)) as [Hr|Hr]; [|right; tauto].
  destruct (decide (plain text)) as [Ht|Ht]; [|right; tauto].
  destruct (decide (match_ (re ++ [0]) (text ++ [0]) = Some 1)) as [E|E].
  - left. destruct (match_answers [] [] re text Hr Ht) as [[_ ?]|[? _]]; [done|congruence].
  - right. destruct (match_answers [] [] re text Hr Ht) as [[? _]|[_ ?]]; [congruence|tauto].
Defined.

(** C35. [match] is an implementation of the expressions: for every expression
    and every text it returns 1 when the text has a match for it, as the pieces
    of the expression, its [^] and its [$] say, and 0 when it has none; it
    reads neither string past its NUL. *)
Theorem match_correct (re text rj tj : list Z) : plain re -> plain text ->
  match_ (re ++ 0 :: rj) (text ++ 0 :: tj) = Some 1 /\ found re text \/
  match_ (re ++ 0 :: rj) (text ++ 0 :: tj) = Some 0 /\ ~ found re text.
Proof. apply match_answers. Qed.

(** [a.*c$] and [^b] on [xabcc]. *)
Lemma match_correct_witness :
  found (chars "a.*c$") (chars "xabcc") /\ ~ found (chars "^b") (chars "xabcc").
Proof.
  split.
  - destruct (match_correct (chars "a.*c$") (chars "xabcc") [] []) as [[_ H]|[H _]];
      [by repeat constructor|by repeat constructor|exact H|by vm_compute in H].
  - destruct (match_correct (chars "^b") (chars "xabcc") [] []) as [[H _]|[_ H]];
      [by repeat constructor|by repeat constructor|by vm_compute in H|exact H].
Defined.

(** * grep *)

Section Grep.
Context {K : Type} `{Sys K}.
(** [buf], 1024 characters, beside the system. *)
Abbreviation gst := (list Z * K)%type.
Variable pattern : list Z.

(** One turn of the inner loop, for the line at [p = buf + p]. *)
Definition line_turn (p : Z) : M gst (Z + Z) :=
  buf ← rd fst_l;
  o ← lift "strchr" (strchr (drop (Z.to_nat p) buf) 10);
  match o with
  | None => mret (inr p)
  | Some k =>
      let q := p + k in
      _ ← md fst_l <[Z.to_nat q := 0]>;
      buf ← rd fst_l;
      r ← lift "match" (match_ pattern (drop (Z.to_nat p) buf));
      _ ← when (truth r)
            (_ ← md fst_l <[Z.to_nat q := 10]>;
             buf ← rd fst_l;
             _ ← zoom snd_l (sys_write 1 (take (Z.to_nat (q + 1 - p)) (drop (Z.to_nat p) buf)));
             mret tt);
      mret (inl (q + 1))
  end.

Variable fuel : nat.
(** One turn of the outer loop. *)
Definition grep_turn (fd m : Z) : M gst (Z + unit) :=
  '(n, bs) ← zoom snd_l (sys_read fd (1024 - m - 1));
  if n <=? 0 then mret (inr tt)
  else
    _ ← md fst_l (fun buf => take (Z.to_nat m) buf ++ bs ++ drop (Z.to_nat m + length bs) buf);
    let m := m + n in
    _ ← md fst_l <[Z.to_nat m := 0]>;
    p ← loop fuel 0 line_turn;
    if 0 <? m then
      let m := m - p in
      _ ← md fst_l (fun buf => let bs := take (Z.to_nat m) (drop (Z.to_nat p) buf) in
                               bs ++ drop (length bs) buf);
      mret (inl m)
    else mret (inl m).
Definition grep (fd : Z) : M gst unit := loop fuel 0 (grep_turn fd).
End Grep.

(** [main], over the argument vector; the result is the exit status. *)
Definition grep_main `{Sys K} (fuel : nat) (argv : list (list Z)) : M (list Z * K) Z :=
  match argv with
  | [] | [_] =>
      _ ← zoom snd_l (fprintf 2 (literal "usage: grep pattern [file ...]" ++ [10; 0]) []);
      mret 1
  | [_; pattern] => _ ← grep pattern fuel 0; mret 0
  | _ :: pattern :: files =>
      r ← for_until files (fun file =>
            fd ← zoom snd_l (sys_open file 0);
            if fd <? 0 then
              _ ← zoom snd_l (uprintf (chars "grep: cannot open %s" ++ [10; 0]) [VStr (Some file)]);
              mret (Some 1)
            else
              _ ← grep pattern fuel fd;
              _ ← zoom snd_l (sys_close fd);
              mret None);
      mret (default 0 r)
  end.

(** ** What grep prints *)

(** The complete lines of a text, without their newlines. *)
Fixpoint lines (s : list Z) : list (list Z) :=
  match s with
  | [] => []
  | c :: s' =>
      if c =? 10 then [] :: lines s'
      else match lines s' with [] => [] | l :: ls => (c :: l) :: ls end
  end.
Definition pick (re l : list Z) : list Z :=
  if decide (plain re /\ plain l /\ found re l) then l ++ [10] else [].
Definition greps (re s : list Z) : list Z := concat (map (pick re) (lines s)).

(** No line, finished or not, is longer than the buffer holds. *)
Definition short (s : list Z) : Prop :=
  forall a b c, s = a ++ b ++ c -> 10 ∉ b -> (length b <= 1022)%nat.

Lemma short_drop a s : short (a ++ s) -> short s.
Proof. intros H x b c -> Hb. apply (H (a ++ x) b c); [by rewrite <- app_assoc|done]. Qed.
Lemma lines_app l s : 10 ∉ l -> lines (l ++ 10 :: s) = l :: lines s.
Proof.
  induction l as [|c l IH]; intros Hl; [done|]. apply not_elem_of_cons in Hl as [Hc Hl].
  cbn [app lines]. rewrite IH by done. by rewrite (proj2 (Z.eqb_neq c 10)).
Qed.
Lemma lines_unfinished l : 10 ∉ l -> lines l = [].
Proof.
  induction l as [|c l IH]; intros Hl; [done|]. apply not_elem_of_cons in Hl as [Hc Hl].
  cbn [lines]. rewrite IH by done. by rewrite (proj2 (Z.eqb_neq c 10)).
Qed.
Lemma greps_line re l s : 10 ∉ l -> greps re (l ++ 10 :: s) = pick re l ++ greps re s.
Proof. intros Hl. unfold greps. by rewrite lines_app. Qed.
Lemma greps_unfinished re l : 10 ∉ l -> greps re l = [].
Proof. intros Hl. unfold greps. by rewrite lines_unfinished. Qed.

Lemma strchr_found l s c : 0 <> c -> plain l -> c ∉ l ->
  strchr (l ++ c :: s) c = Some (Some (Z.of_nat (length l))).
Proof.
  intros H0 Hp. induction Hp as [|x l Hx Hp IH]; intros Hc; cbn [app strchr length].
  - rewrite (proj2 (Z.eqb_neq c 0)) by done. by rewrite Z.eqb_refl.
  - apply not_elem_of_cons in Hc as [Hxc Hc]. rewrite IH by done. cbn [option_map].
    rewrite (proj2 (Z.eqb_neq x 0)), (proj2 (Z.eqb_neq x c)) by done. do 2 f_equal. lia.
Qed.
Lemma strchr_null l s c : plain l -> c ∉ l -> strchr (l ++ 0 :: s) c = Some None.
Proof.
  intros Hp. induction Hp as [|x l Hx Hp IH]; intros Hc; cbn [app strchr]; [done|].
  apply not_elem_of_cons in Hc as [Hxc Hc]. rewrite IH by done.
  by rewrite (proj2 (Z.eqb_neq x 0)), (proj2 (Z.eqb_neq x c)).
Qed.
(** Storing the element after a prefix of known length. *)
Lemma insert_at (a b : list Z) x y n : n = length a -> <[n := y]> (a ++ x :: b) = a ++ y :: b.
Proof. intros ->. rewrite insert_app_r_alt by done. by rewrite Nat.sub_diag. Qed.

Section Prints.
Context {K : Type} `{SK : Sys K}.
Variables (fd : Z) (input output : K -> list Z).
Context `{!Stream K fd input output}.
Variables (re rj : list Z).
Hypothesis Hre : plain re.
Abbreviation pattern := (re ++ 0 :: rj).

(** The buffer from [pre] on: [B], the NUL at [M] and whatever follows; with
    what is still to be read, it decides what is still to be printed. *)
Record text_at (M : nat) (out inp pre B junk buf : list Z) (k : K) : Prop := {
  ta_buf : buf = pre ++ B ++ 0 :: junk;
  ta_nul : (length pre + length B)%nat = M;
  ta_len : length buf = 1024%nat;
  ta_plain : plain (B ++ inp);
  ta_short : short (B ++ inp);
  ta_in : input k = inp;
  ta_out : output k ++ greps re (B ++ inp) = out
}.
Definition at_line (M : nat) (out inp : list Z) (p : Z) (s : list Z * K) : Prop :=
  exists pre B junk, p = Z.of_nat (length pre) /\ text_at M out inp pre B junk s.1 s.2.

Lemma match_pick l rest : plain l -> 10 ∉ l ->
  exists r, match_ pattern (l ++ 0 :: rest) = Some r /\
    pick re l = if truth r then l ++ [10] else [].
Proof using Hre.
  intros Hl Hn. unfold pick.
  destruct (match_answers rj rest re l Hre Hl) as [[-> Hy]|[-> Hno]]; eexists; (split; [done|]).
  - by rewrite decide_True.
  - rewrite decide_False by tauto. done.
Qed.

(** The buffer after the line [l] has been passed over. *)
Lemma text_after M out inp pre l B junk buf k x k' :
  10 ∉ l -> text_at M out inp pre (l ++ 10 :: B) junk buf k ->
  input k' = inp -> output k' = output k ++ pick re l ->
  at_line M out inp (Z.of_nat (length pre) + Z.of_nat (length l) + 1)
    (pre ++ l ++ x :: B ++ 0 :: junk, k').
Proof using Type.
  intros Hl [-> Hm Hlen Hp Hs Hi <-] Hi' Ho'. rewrite <- app_assoc in Hp, Hs |- *.
  exists (pre ++ l ++ [x]), B, junk. repeat rewrite length_app in *. cbn [app length] in *.
  split; [lia|]. split; cbn [fst snd]; [by rewrite <- !app_assoc| |..].
  - rewrite !length_app. cbn. lia.
  - repeat (rewrite length_app in * || cbn [length app] in * ). lia.
  - apply Forall_app in Hp as [_ Hp]. by apply Forall_cons in Hp as [_ ?].
  - apply (short_drop (l ++ [10])). by rewrite <- app_assoc.
  - done.
  - rewrite Ho', <- app_assoc. by rewrite greps_line.
Qed.

(** One line: it is printed if it matches, and passed over. *)
Lemma line_turn_step M out inp pre l B junk buf k :
  10 ∉ l -> text_at M out inp pre (l ++ 10 :: B) junk buf k ->
  wp (line_turn pattern (Z.of_nat (length pre)))
     (fun r s => exists p, r = inl p /\ Z.of_nat (length pre) < p /\ at_line M out inp p s) (buf, k).
Proof using Hre Stream0.
  intros Hl Hta. pose proof Hta as [-> _ _ Hp _ Hi _]. rewrite <- app_assoc in Hp.
  apply Forall_app in Hp as [Hpl _]. unfold line_turn. do 2 wp_step. cbn [view fst_l fst].
  rewrite Nat2Z.id, drop_app_length, <- app_assoc. cbn [app].
  rewrite strchr_found by done. cbn [lift]. wp_run. cbn [view update fst_l fst snd].
  rewrite app_assoc, insert_at by (rewrite length_app; lia). rewrite <- app_assoc, drop_app_length.
  destruct (match_pick l (B ++ 0 :: junk) Hpl Hl) as (r & -> & Hr). cbn [lift]. wp_run.
  destruct (truth r); unfold when.
  - wp_run. cbn [view update fst_l fst snd].
    rewrite app_assoc, insert_at by (rewrite length_app; lia). rewrite <- app_assoc, drop_app_length.
    cbn [view snd_l snd].
    match goal with |- context [take ?n ?x] => assert (take n x = l ++ [10]) as -> end.
    { change (l ++ 10 :: B ++ 0 :: junk) with (l ++ [10] ++ B ++ 0 :: junk). rewrite app_assoc.
      rewrite take_app_le by (rewrite length_app; cbn; lia). apply take_ge. rewrite length_app; cbn; lia. }
    destruct (write_puts (l ++ [10]) k) as (x & k' & E & Ei & Eo).
    eapply wp_eq; [exact E|]. wp_run. eexists. split; [done|]. split; [lia|].
    eapply text_after; [done|exact Hta|congruence|by rewrite Eo, Hr].
  - wp_run. eexists. split; [done|]. split; [lia|].
    eapply text_after; [done|exact Hta|done|]. by rewrite Hr, app_nil_r.
Qed.

(** A text up to its first newline. *)
Lemma first_line (s : list Z) : 10 ∉ s \/ exists l B, s = l ++ 10 :: B /\ 10 ∉ l.
Proof using Type.
  destruct (decide (10 ∈ s)) as [Hin|]; [right|by left].
  induction s as [|c s IH]; [by apply not_elem_of_nil in Hin|].
  destruct (decide (c = 10)) as [->|Hc]; [exists [], s; split; [done|apply not_elem_of_nil]|].
  apply elem_of_cons in Hin as [?|Hin]; [congruence|].
  destruct (IH Hin) as (l & B & -> & Hl). exists (c :: l), B. split; [done|].
  apply not_elem_of_cons. split; [congruence|done].
Qed.

(** The buffer's lines, one after the other: what is left has no newline. *)
Lemma lines_loop fuel M out inp p s : at_line M out inp p s -> (1025 < fuel)%nat ->
  wp (loop fuel p (line_turn pattern))
     (fun q s' => exists pre B junk, q = Z.of_nat (length pre) /\ (10 ∉ B) /\
        text_at M out inp pre B junk s'.1 s'.2) s.
Proof using Hre Stream0.
  intros Hat Hf.
  apply (wp_loop _ (fun p s => at_line M out inp p s) (fun p _ => Z.to_nat (1025 - p)));
    [done|destruct Hat as (? & ? & ? & -> & _); lia|].
  clear p s Hat. intros p [buf k] (pre & B & junk & -> & Hta). cbn [fst snd] in Hta.
  destruct (first_line B) as [Hno|(l & B' & -> & Hl)].
  - pose proof Hta as [-> _ _ Hp _ _ _]. apply Forall_app in Hp as [Hp _].
    unfold line_turn. do 2 wp_step. cbn [view fst_l fst]. rewrite Nat2Z.id, drop_app_length.
    rewrite strchr_null by done. cbn [lift]. wp_run. exists pre, B, junk. done.
  - pose proof Hta as [-> _ Hlen _ _ _ _]. eapply wp_mono; [by eapply line_turn_step|].
    intros r s' (p & -> & Hlt & Hat). split; [done|].
    rewrite !length_app in Hlen. lia.
Qed.

(** Between two reads: the buffer starts with an unfinished line. *)
Record turn_at (out : list Z) (m : Z) (s : list Z * K) : Prop := {
  tu_held : exists held junk, s.1 = held ++ junk /\ m = Z.of_nat (length held) /\ (10 ∉ held) /\
    plain (held ++ input s.2) /\ short (held ++ input s.2) /\
    output s.2 ++ greps re (held ++ input s.2) = out;
  tu_len : length s.1 = 1024%nat
}.

(** What a read leaves in the buffer. *)
Lemma text_read out held junk bs k' :
  length (held ++ junk) = 1024%nat -> (length held + length bs < 1024)%nat ->
  plain (held ++ bs ++ input k') -> short (held ++ bs ++ input k') ->
  output k' ++ greps re (held ++ bs ++ input k') = out ->
  at_line (length held + length bs) out (input k') 0
    (<[(length held + length bs)%nat := 0]>
       (held ++ bs ++ drop (length held + length bs) (held ++ junk)), k').
Proof using Type.
  intros Hlen Hlt Hp Hs Ho. rewrite drop_app_ge by lia.
  replace (length held + length bs - length held)%nat with (length bs) by lia.
  assert (exists x junk', drop (length bs) junk = x :: junk') as (x & junk' & E).
  { destruct (drop (length bs) junk) eqn:E; [|eauto]. apply (f_equal length) in E.
    rewrite length_drop in E. rewrite length_app in Hlen. cbn in E. lia. }
  exists [], (held ++ bs), junk'. split; [done|]. cbn [fst snd].
  rewrite E, (app_assoc held bs), insert_at by (by rewrite length_app).
  split; rewrite <- ?app_assoc; [done|by rewrite !length_app| |done..].
  apply (f_equal length) in E. rewrite length_drop in E. rewrite !length_app in *. cbn in *. lia.
Qed.

Lemma grep_turn_step fuel out m s : turn_at out m s -> (1025 < fuel)%nat ->
  wp (grep_turn pattern fuel fd m)
     (fun r s' => match r with
        | inl m' => turn_at out m' s' /\ (length (input s'.2) < length (input s.2))%nat
        | inr _ => input s'.2 = [] /\ output s'.2 = out end) s.
Proof using Hre Stream0.
  destruct s as [buf k]. intros [(held & junk & E & -> & Hno & Hp & Hs & Ho) Hlen] Hf.
  cbn [fst snd] in *. subst buf. pose proof (Hs [] held (input k) eq_refl Hno) as Hh.
  unfold grep_turn. wp_step. wp_step. cbn [view snd_l snd].
  destruct (read_gives (1024 - Z.of_nat (length held) - 1) k) as (bs & k' & E & Hb & Ei & Eo & Hnil); [lia|].
  eapply wp_eq; [exact E|]. cbn [update snd_l fst]. destruct (Z.leb_spec (Z.of_nat (length bs)) 0).
  - apply wp_mret. assert (bs = []) as -> by (destruct bs; [done|cbn in *; lia]). cbn [snd].
    destruct (Hnil eq_refl) as [?|Hi]; [lia|]. rewrite Ei in Hi. split; [done|].
    rewrite <- Ho, Eo, Ei, Hi, app_nil_r. cbn [app]. by rewrite greps_unfinished, app_nil_r.
  - rewrite Ei in Hp, Hs, Ho. rewrite <- Eo in Ho. wp_run. cbn [view update fst_l fst snd].
    rewrite Nat2Z.id, take_app_length.
    replace (Z.to_nat (Z.of_nat (length held) + Z.of_nat (length bs)))
      with (length held + length bs)%nat by lia.
    eapply wp_mono; [apply lines_loop; [apply text_read; [done|lia|done..]|done]|].
    intros q [buf' k''] (pre & B & junk' & -> & HnB & [Hb2 Hm Hl2 Hp2 Hs2 Hi2 Ho2]).
    cbn [fst snd] in *. subst buf'. rewrite (proj2 (Z.ltb_lt 0 _)) by lia. wp_run. cbn [view update fst_l fst snd].
    split; [|rewrite Ei, length_app, Hi2; lia].
    replace (Z.to_nat (Z.of_nat (length held) + Z.of_nat (length bs) - Z.of_nat (length pre)))
      with (length B) by lia.
    rewrite Nat2Z.id, drop_app_length, take_app_length. split; cbn [fst snd].
    + eexists B, _. rewrite Hi2. split; [done|]. split; [lia|]. done.
    + rewrite length_app, length_drop. rewrite Hl2. rewrite !length_app in Hl2. lia.
Qed.
End Prints.

(** C36. [grep] prints, in order and whole, exactly the lines of its input that
    match, however the reads cut the input up; it stops at the end of the
    input, and prints nothing for a last line without a newline.  The lines are
    shorter than the buffer and have no NUL.  Turns of the loops: one a read,
    and one a line of the buffer. *)
Theorem grep_prints_matches {K} `{Sys K} (fd : Z) (input output : K -> list Z)
    `{!Stream K fd input output} (re rj buf : list Z) (k : K) (fuel : nat) :
  plain re -> length buf = 1024%nat -> plain (input k) -> short (input k) ->
  (1025 + length (input k) < fuel)%nat ->
  exists buf' k', grep (re ++ 0 :: rj) fuel fd (buf, k) = Ret tt (buf', k') /\
    input k' = [] /\ output k' = output k ++ greps re (input k).
Proof.
  intros Hre Hb Hp Hs Hf.
  assert (wp (grep (re ++ 0 :: rj) fuel fd)
    (fun _ s => input s.2 = [] /\ output s.2 = output k ++ greps re (input k)) (buf, k)) as Hw.
  { apply (wp_loop _ (turn_at input output re (output k ++ greps re (input k)))
             (fun _ s => length (input s.2))); [|cbn; lia|].
    - split; [|done]. exists [], buf. do 2 (split; [done|]).
      split; [apply not_elem_of_nil|done].
    - intros m s Hi. apply (grep_turn_step fd); [done..|lia]. }
  apply wp_inv in Hw as ([] & [buf' k'] & E & Hi & Ho). eauto.
Qed.

(** A terminal whose reads give at most seven characters. *)
Definition tty_chunk (n : Z) : nat := Nat.min 7 (Z.to_nat n).
#[export] Instance tty_sys : Sys (list Z * list Z) := {
  sys_read fd n := fun '(i, o) =>
    let bs := take (tty_chunk n) i in
    Ret (Z.of_nat (length bs), bs) (drop (length bs) i, o);
  sys_write fd bs := fun '(i, o) => Ret (Z.of_nat (length bs)) (i, o ++ bs);
  sys_open _ _ := mret (-1);
  sys_close _ := mret (-1);
  sys_fstat _ := mret (-1, [])
}.
#[export] Instance tty_stream : Stream (list Z * list Z) 0 fst snd.
Proof.
  split.
  - intros n [i o] Hn. do 2 eexists. split; [done|]. cbn [fst snd].
    assert (Z.of_nat (tty_chunk n) <= n /\ (tty_chunk n = 0%nat -> n = 0)) as [Hc H0]
      by (unfold tty_chunk; lia). revert Hc H0. generalize (tty_chunk n). intros j Hc H0.
    rewrite length_take. split; [lia|]. split; [|split; [done|]].
    + rewrite <- (take_drop j i) at 1. f_equal.
      destruct (decide (j <= length i)%nat); [by rewrite Nat.min_l|by rewrite !drop_ge by lia].
    + intros E. destruct i as [|c i]; [by right|left]. apply H0. by destruct j.
  - intros bs [i o]. cbn. eauto.
Qed.

Definition three_lines : list Z :=
  chars "abc" ++ [10] ++ chars "def" ++ [10] ++ chars "xbz" ++ [10] ++ chars "b".

(** The lines with a [b]. *)
Lemma grep_prints_matches_witness : exists buf' k',
  grep (literal "b") 1200 0 (replicate 1024 0, (three_lines, [])) = Ret tt (buf', k') /\
  fst k' = [] /\ snd k' = chars "abc" ++ [10] ++ chars "xbz" ++ [10].
Proof.
  exact (grep_prints_matches 0 fst snd (chars "b") [] (replicate 1024 0) (three_lines, []) 1200
    ltac:(by repeat constructor) eq_refl ltac:(by repeat constructor)
    ltac:(intros a b c E _; apply (f_equal length) in E; rewrite !length_app in E; cbn in E; lia)
    ltac:(cbn; lia)).
Defined.
