(* ===== verification/Umalloc.v ===== *)
(** The memory allocator of the user programs (user/umalloc.c): the circular
    free list of Kernighan and Ritchie, with its headers in memory.

    A header is 16 bytes, the pointer to the next free block and, at offset 8,
    the size in units of a header.  [base] is the address of the static header
    the list starts with.  [Sbrk] is the call that grows the program. *)

From S2P Require Import Prelude Mem.

(** * The allocator *)

Definition HDR : Z := 16.

(** Growing the program by [n] bytes: all ones when it cannot, or else the
    address of the new bytes.  The kernel may do what it likes to the memory
    from the old end on. *)
Class Sbrk (W : Type) := { sbrk : Z -> M (mem * W) Z; brk_end : W -> Z }.
Definition NOMEM : Z := 2 ^ 64 - 1.

Record uheap (W : Type) := Uheap { u_mem : mem; u_sys : W; u_freep : Z (** 0 is the null pointer *) }.
Arguments Uheap {W} _ _ _.
Arguments u_mem {W} _.
Arguments u_sys {W} _.
Arguments u_freep {W} _.

Section Umalloc.
Context {W : Type} `{Sbrk W} (base : Z).
Definition u_mem_l : lens (uheap W) mem := Lens u_mem (fun v s => Uheap v (u_sys s) (u_freep s)).
Definition u_freep_l : lens (uheap W) Z := Lens u_freep (fun v s => Uheap (u_mem s) (u_sys s) v).
Definition u_env_l : lens (uheap W) (mem * W) :=
  Lens (fun s => (u_mem s, u_sys s)) (fun v s => Uheap v.1 v.2 (u_freep s)).

Definition hdr_ptr (p : Z) : M (uheap W) Z :=
  if truth p then m ← rd u_mem_l; mret (rd64 m p) else undef "null header".
Definition hdr_size (p : Z) : M (uheap W) Z :=
  if truth p then m ← rd u_mem_l; mret (rd32 m (p + 8)) else undef "null header".
Definition set_ptr (p v : Z) : M (uheap W) unit := md u_mem_l (fun m => wr64 m p v).
Definition set_size (p v : Z) : M (uheap W) unit := md u_mem_l (fun m => wr32 m (p + 8) v).

Definition free_step (bp p : Z) : M (uheap W) (Z + Z) :=
  n ← hdr_ptr p;
  if (p <? bp) && (bp <? n) then mret (inr p)
  else if (n <=? p) && ((p <? bp) || (bp <? n)) then mret (inr p)
  else mret (inl n).
Definition free (fuel : nat) (ap : Z) : M (uheap W) unit :=
  let bp := u64 (ap - HDR) in
  freep ← rd u_freep_l;
  p ← loop fuel freep (free_step bp);
  n ← hdr_ptr p;
  sz ← hdr_size bp;
  _ ← (if u64 (bp + HDR * sz) =? n then
         nsz ← hdr_size n;
         _ ← set_size bp (u32 (sz + nsz));
         nn ← hdr_ptr n;
         set_ptr bp nn
       else set_ptr bp n);
  psz ← hdr_size p;
  _ ← (if u64 (p + HDR * psz) =? bp then
         sz ← hdr_size bp;
         _ ← set_size p (u32 (psz + sz));
         n ← hdr_ptr bp;
         set_ptr p n
       else set_ptr p bp);
  u_freep_l <~ p.

(** The argument of [sbrk] is an [int]. *)
Definition morecore (fuel : nat) (nu : Z) : M (uheap W) Z :=
  let nu := if nu <? 4096 then 4096 else nu in
  p ← zoom u_env_l (sbrk (s32 (u64 (nu * HDR))));
  if p =? NOMEM then mret 0
  else
    _ ← set_size p nu;
    _ ← free fuel (u64 (p + HDR));
    rd u_freep_l.

(** The loop's pointers are [prevp] and [p]. *)
Definition malloc_turn (fuel : nat) (nunits : Z) '((prevp, p) : Z * Z) : M (uheap W) (Z * Z + Z) :=
  sz ← hdr_size p;
  if nunits <=? sz then
    r ← (if sz =? nunits then
           n ← hdr_ptr p;
           _ ← set_ptr prevp n;
           mret p
         else
           _ ← set_size p (u32 (sz - nunits));
           sz ← hdr_size p;
           let p := u64 (p + HDR * sz) in
           _ ← set_size p nunits;
           mret p);
    _ ← u_freep_l <~ prevp;
    mret (inr (u64 (r + HDR)))
  else
    freep ← rd u_freep_l;
    p ← (if p =? freep then morecore fuel nunits else mret p);
    if truth p then n ← hdr_ptr p; mret (inl (p, n)) else mret (inr 0).
Definition units (nbytes : Z) : Z := u32 (u64 (u64 (nbytes + HDR) - 1) / HDR + 1).
Definition malloc (fuel : nat) (nbytes : Z) : M (uheap W) Z :=
  freep ← rd u_freep_l;
  prevp ← (if truth freep then mret freep
           else
             _ ← u_freep_l <~ base;
             _ ← set_ptr base base;
             _ ← set_size base 0;
             mret base);
  p ← hdr_ptr prevp;
  loop fuel (prevp, p) (malloc_turn fuel (units nbytes)).
End Umalloc.

(** * The list of free blocks, in the order of their addresses *)

Abbreviation blocks := (list (Z * Z)).

(** The address a list of blocks starts at, or what comes behind it. *)
Definition hd_addr (B : blocks) (z : Z) : Z := match B with [] => z | (p, _) :: _ => p end.
(** The headers of the blocks of [B] are in memory, each points to the next
    and the last one to [z]. *)
Fixpoint links (m : mem) (B : blocks) (z : Z) : Prop :=
  match B with
  | [] => True
  | (p, t) :: B' => rd64 m p = hd_addr B' z /\ rd32 m (p + 8) = t /\ links m B' z
  end.
(** Not empty, in order, and no two of them touch, from [lo] on. *)
Fixpoint gaps (lo : Z) (B : blocks) : Prop :=
  match B with [] => True | (p, t) :: B' => lo < p /\ 0 < t /\ gaps (p + HDR * t) B' end.
Fixpoint end_of (lo : Z) (B : blocks) : Z :=
  match B with [] => lo | (p, t) :: B' => end_of (p + HDR * t) B' end.
Definition covers (B : blocks) (x : Z) : Prop := exists p t, (p, t) ∈ B /\ p <= x < p + HDR * t.

(** Giving a block back: it joins the neighbours it touches. *)
Definition join (bp s : Z) (l : blocks) : blocks :=
  match l with
  | (q, t) :: l' => if bp + HDR * s =? q then (bp, s + t) :: l' else (bp, s) :: l
  | [] => [(bp, s)]
  end.
Fixpoint give (bp s : Z) (l : blocks) : blocks :=
  match l with
  | (q, t) :: l' =>
      if q <? bp then if q + HDR * t =? bp then join q (t + s) l' else (q, t) :: give bp s l'
      else join bp s l
  | [] => [(bp, s)]
  end.

Lemma hd_addr_app X Y z : hd_addr (X ++ Y) z = hd_addr X (hd_addr Y z).
Proof. by destruct X as [|[??] ?]. Qed.
Lemma links_app m X Y z : links m (X ++ Y) z <-> links m X (hd_addr Y z) /\ links m Y z.
Proof.
  induction X as [|[p t] X IH]; cbn [app links]; [tauto|]. rewrite IH, hd_addr_app. tauto.
Qed.
Lemma gaps_app lo X Y : gaps lo (X ++ Y) <-> gaps lo X /\ gaps (end_of lo X) Y.
Proof. revert lo. induction X as [|[p t] X IH]; intros lo; cbn [app gaps end_of]; [tauto|]. rewrite IH. tauto. Qed.
Lemma end_of_app lo X Y : end_of lo (X ++ Y) = end_of (end_of lo X) Y.
Proof. revert lo. induction X as [|[p t] X IH]; intros lo; cbn [app end_of]; [done|]. apply IH. Qed.
Lemma end_of_le lo X : gaps lo X -> lo <= end_of lo X.
Proof.
  revert lo. induction X as [|[p t] X IH]; intros lo; cbn [gaps end_of]; [lia|].
  intros (H1 & H2 & H3%IH). unfold HDR in *. lia.
Qed.
Lemma gaps_elem lo X p t : gaps lo X -> (p, t) ∈ X -> lo < p /\ 0 < t /\ p + HDR * t <= end_of lo X.
Proof.
  revert lo. induction X as [|[q u] X IH]; intros lo; cbn [gaps end_of]; [by intros _ ?%elem_of_nil|].
  intros (H1 & H2 & H3) Hin. pose proof (end_of_le _ _ H3). apply elem_of_cons in Hin as [[= -> ->]|Hin]; [done|].
  destruct (IH _ H3 Hin) as (? & ? & ?). unfold HDR in *. lia.
Qed.
Lemma gaps_weaken lo lo' X : gaps lo X -> lo' <= lo -> gaps lo' X.
Proof. destruct X as [|[p t] X]; cbn; [done|]. intros (? & ? & ?) ?. repeat split; [lia|done|done]. Qed.

Lemma covers_nil x : covers [] x <-> False.
Proof. split; [|done]. by intros (p & t & H%elem_of_nil & _). Qed.
Lemma covers_cons p t B x : covers ((p, t) :: B) x <-> p <= x < p + HDR * t \/ covers B x.
Proof.
  unfold covers. split.
  - intros (q & u & [[= -> ->]|H]%elem_of_cons & Hx); [by left|right; by exists q, u].
  - intros [H|(q & u & H & Hx)]; [exists p, t|exists q, u]; (split; [|done]); [by left|by right].
Qed.
Lemma covers_app X Y x : covers (X ++ Y) x <-> covers X x \/ covers Y x.
Proof.
  induction X as [|[p t] X IH]; cbn [app]; rewrite ?covers_nil, ?covers_cons; [tauto|]. rewrite IH. tauto.
Qed.
Lemma covers_range lo X x : gaps lo X -> covers X x -> lo < x < end_of lo X.
Proof. intros H (p & t & Hin & Hx). destruct (gaps_elem _ _ _ _ H Hin) as (? & ? & ?). lia. Qed.

(** Where a block that overlaps no other goes. *)
Lemma gaps_split bp s lo l : gaps lo l -> lo <= bp -> 0 < s ->
  (forall x, bp <= x < bp + HDR * s -> ~ covers l x) ->
  exists L1 L2, l = L1 ++ L2 /\ end_of lo L1 <= bp /\ (L2 <> [] -> bp + HDR * s <= hd_addr L2 0).
Proof.
  revert lo. induction l as [|[q t] l IH]; intros lo Hg Hlo Hs Hc.
  - exists [], []. done.
  - destruct Hg as (Hq & Ht & Hg). destruct (decide (q <= bp)) as [Hle|Hgt].
    + assert (q + HDR * t <= bp) as Hle'.
      { destruct (decide (q + HDR * t <= bp)) as [|Hn]; [done|]. exfalso. apply (Hc bp); [unfold HDR; lia|].
        apply covers_cons. left. lia. }
      destruct (IH _ Hg Hle' Hs) as (L1 & L2 & -> & H1 & H2).
      { intros x Hx Hcx. apply (Hc x Hx). apply covers_cons. by right. }
      exists ((q, t) :: L1), L2. done.
    + exists [], ((q, t) :: l). split; [done|]. split; [done|]. intros _. cbn.
      destruct (decide (bp + HDR * s <= q)) as [|Hn]; [done|]. exfalso.
      apply (Hc q); [lia|]. apply covers_cons. left. unfold HDR; lia.
Qed.

Lemma join_covers bp s l x lo : gaps lo l -> (l <> [] -> bp + HDR * s <= hd_addr l 0) -> 0 < s ->
  covers (join bp s l) x <-> bp <= x < bp + HDR * s \/ covers l x.
Proof.
  destruct l as [|[q t] l]; cbn [join]; intros Hg Hh Hs; [by rewrite covers_cons|].
  destruct Hg as (_ & Ht & _). specialize (Hh ltac:(done)). cbn in Hh.
  destruct (Z.eqb_spec (bp + HDR * s) q) as [E|E]; rewrite ?covers_cons; [|tauto].
  unfold HDR in *. rewrite Z.mul_add_distr_l. split.
  - intros [H|H]; [|tauto]. destruct (decide (x < q)); [left; lia|right; left; lia].
  - intros [H|[H|H]]; [left; lia|left; lia|tauto].
Qed.
Lemma join_gaps bp s l lo : gaps (bp + HDR * s - 1) l -> lo < bp -> 0 < s -> gaps lo (join bp s l).
Proof.
  destruct l as [|[q t] l]; cbn [join gaps]; [done|]. intros (H1 & H2 & H3) Hlo Hs.
  destruct (Z.eqb_spec (bp + HDR * s) q) as [E|E]; cbn [gaps]; unfold HDR in *.
  - split; [done|]. split; [lia|]. by replace (bp + 16 * (s + t)) with (q + 16 * t) by lia.
  - split; [done|]. split; [done|]. split; [lia|done].
Qed.
Lemma join_end bp s l lo lo' : gaps (bp + HDR * s - 1) l -> lo <= bp + HDR * s ->
  end_of lo' (join bp s l) = Z.max (bp + HDR * s) (end_of lo l).
Proof.
  destruct l as [|[q t] l]; cbn [join gaps end_of]; [lia|]. intros (H1 & H2 & H3) Hlo.
  pose proof (end_of_le _ _ H3). unfold HDR in *.
  destruct (Z.eqb_spec (bp + 16 * s) q) as [E|E]; cbn [end_of]; unfold HDR.
  - replace (bp + 16 * (s + t)) with (q + 16 * t) by lia. lia.
  - lia.
Qed.

(** A block given back joins the last block before it or goes behind it. *)
Lemma give_far bp s L1 L2 lo : gaps lo L1 -> end_of lo L1 < bp ->
  give bp s (L1 ++ L2) = L1 ++ give bp s L2.
Proof.
  revert lo. induction L1 as [|[q t] L1 IH]; intros lo Hg He; [done|].
  cbn [app give]. cbn in Hg, He. destruct Hg as (H1 & H2 & H3). pose proof (end_of_le _ _ H3).
  unfold HDR in *. rewrite (proj2 (Z.ltb_lt q bp)), (proj2 (Z.eqb_neq (q + 16 * t) bp)) by lia.
  f_equal. by apply (IH _ H3).
Qed.
Lemma give_head bp s L2 : (L2 <> [] -> bp < hd_addr L2 0) -> give bp s L2 = join bp s L2.
Proof.
  destruct L2 as [|[q t] L2]; [done|]. intros H. specialize (H ltac:(done)). cbn in H. cbn [give].
  by rewrite (proj2 (Z.ltb_ge q bp)) by lia.
Qed.
Lemma give_touch bp s p t L2 lo L1 : gaps lo (L1 ++ [(p, t)]) -> p + HDR * t = bp ->
  give bp s ((L1 ++ [(p, t)]) ++ L2) = L1 ++ join p (t + s) L2.
Proof.
  intros [Hg (H1 & H2 & _)]%gaps_app E. rewrite <- app_assoc. unfold HDR in *.
  rewrite (give_far _ _ _ _ lo) by (done || lia). cbn [app give]. unfold HDR.
  by rewrite (proj2 (Z.ltb_lt p bp)), (proj2 (Z.eqb_eq (p + 16 * t) bp)) by lia.
Qed.
Lemma gaps_from lo lo' X : gaps lo X -> (X <> [] -> lo' < hd_addr X 0) -> gaps lo' X.
Proof. destruct X as [|[p t] X]; cbn; [done|]. intros (? & ? & ?) Hh. repeat split; [by apply Hh|done|done]. Qed.
Lemma gaps_hd lo X : gaps lo X -> X <> [] -> lo < hd_addr X 0.
Proof. destruct X as [|[p t] X]; [done|]. by intros (? & _ & _). Qed.
Lemma join_shape bp s l : 0 < s -> (forall q t, (q, t) ∈ l -> 0 < t) ->
  exists s' l', join bp s l = (bp, s') :: l' /\ s <= s' /\ (length l' <= length l)%nat /\
    (forall q t, (q, t) ∈ l' -> (q, t) ∈ l) /\
    forall p t, p + HDR * t = bp -> join p (t + s) l = (p, t + s') :: l'.
Proof.
  intros Hs Hl. destruct l as [|[q t] l]; cbn [join].
  - exists s, []. by repeat split.
  - destruct (Z.eqb_spec (bp + HDR * s) q) as [E|E].
    + exists (s + t), l. split; [done|]. specialize (Hl q t ltac:(left)). split; [lia|]. split; [cbn; lia|].
      split; [by right|]. intros p u <-. unfold HDR in *. rewrite (proj2 (Z.eqb_eq _ _)) by lia. by rewrite Z.add_assoc.
    + exists s, ((q, t) :: l). repeat split; try done. intros p u <-. unfold HDR in *. by rewrite (proj2 (Z.eqb_neq _ _)) by lia.
Qed.

(** Where [give] splits the list: [touch] says whether the block before ends
    where the given one starts. *)
Lemma give_split bp s lo l : gaps lo l -> lo < bp -> 0 < s ->
  (forall x, bp <= x < bp + HDR * s -> ~ covers l x) ->
  exists L1 L2, l = L1 ++ L2 /\ end_of lo L1 <= bp /\ gaps (bp + HDR * s - 1) L2 /\
    ((end_of lo L1 < bp /\ give bp s l = L1 ++ join bp s L2) \/
     exists L p t, L1 = L ++ [(p, t)] /\ p + HDR * t = bp /\ give bp s l = L ++ join p (t + s) L2).
Proof.
  intros Hg Hlo Hs Hc. destruct (gaps_split bp s lo l Hg ltac:(lia) Hs Hc) as (L1 & L2 & -> & H1 & H2).
  exists L1, L2. split; [done|split; [done|]]. pose proof Hg as [Hg1 Hg2]%gaps_app.
  assert (gaps (bp + HDR * s - 1) L2) as Hg3 by (eapply gaps_from; [done|]; intros ?%H2; lia).
  split; [done|]. destruct (decide (end_of lo L1 < bp)) as [Hlt|Hge].
  - left. split; [done|]. rewrite (give_far _ _ _ _ lo) by done. f_equal. apply give_head.
    intros ?%H2. unfold HDR in *. lia.
  - right. destruct L1 as [|[p t] L _] using rev_ind; [cbn in *; lia|]. exists L, p, t. split; [done|].
    rewrite end_of_app in *. cbn [end_of] in *. split; [lia|]. apply (give_touch _ _ _ _ _ lo); [done|lia].
Qed.

Lemma give_ok bp s lo l : gaps lo l -> lo < bp -> 0 < s ->
  (forall x, bp <= x < bp + HDR * s -> ~ covers l x) ->
  gaps lo (give bp s l) /\ (forall x, covers (give bp s l) x <-> bp <= x < bp + HDR * s \/ covers l x) /\
  end_of lo (give bp s l) = Z.max (bp + HDR * s) (end_of lo l) /\
  (length (give bp s l) <= S (length l))%nat /\ exists q t, (q, t) ∈ give bp s l /\ s <= t.
Proof.
  intros Hg Hlo Hs Hc. destruct (give_split bp s lo l Hg Hlo Hs Hc) as (L1 & L2 & -> & H1 & H2 & Hcase).
  apply gaps_app in Hg as [Hg1 Hg2]. rewrite end_of_app.
  assert (forall q t, (q, t) ∈ L2 -> 0 < t) as Hpos by (intros q t Hin; by apply (gaps_elem _ _ q t H2 Hin)).
  destruct (join_shape bp s L2 Hs Hpos) as (s' & l' & Hj & Hs' & Hl' & _ & Hj').
  assert (L2 <> [] -> bp + HDR * s <= hd_addr L2 0) as Hh by (intros Hne; pose proof (gaps_hd _ _ H2 Hne); lia).
  destruct Hcase as [[Hlt ->]|(L & p & t & -> & Ep & ->)].
  - split; [|split; [|split; [|split]]].
    + apply gaps_app. split; [done|]. by apply join_gaps.
    + intros x. rewrite !covers_app, (join_covers bp s L2 x _ H2 Hh Hs). tauto.
    + rewrite end_of_app. apply join_end; [done|unfold HDR; lia].
    + rewrite !length_app, Hj. cbn. lia.
    + exists bp, s'. rewrite elem_of_app, Hj. split; [right; left|done].
  - apply gaps_app in Hg1 as [Hg1 (Hp & Ht & _)]. unfold HDR in *.
    assert (p + 16 * (t + s) = bp + 16 * s) as E by lia.
    assert (gaps (p + 16 * (t + s) - 1) L2) as H2' by (by rewrite E).
    split; [|split; [|split; [|split]]].
    + apply gaps_app. split; [done|]. apply join_gaps; [done|lia|lia].
    + intros x. rewrite !covers_app, covers_cons, covers_nil.
      rewrite (join_covers p (t + s) L2 x _ H2') by (unfold HDR; rewrite ?E; done || lia). unfold HDR. rewrite E. split; [intros [?|[?|?]]|intros [?|[[?|[?|[]]]|?]]]; try tauto; [|right; left; lia..].
      destruct (decide (x < bp)); [right; left; right; left; lia|left; lia].
    + rewrite !end_of_app. cbn [end_of]. unfold HDR. rewrite <- E. apply join_end; [done|unfold HDR; lia].
    + rewrite !length_app, (Hj' p t Ep). cbn. lia.
    + exists p, (t + s'). rewrite elem_of_app, (Hj' p t Ep). split; [right; left|lia].
Qed.

(** * Headers in memory *)

(** Two memories with the same bytes but for the header at [p]. *)
Definition but_hdr (p : Z) (m m' : mem) : Prop := forall b, ~ (p <= b < p + HDR) -> rd8 m' b = rd8 m b.

Lemma rd32_wr64_ne m a v b : b + 4 <= a \/ a + 8 <= b -> rd32 (wr64 m a v) b = rd32 m b.
Proof. intros H. apply rdn_wrn_ne. lia. Qed.
Lemma rd64_wr32_ne m a v b : b + 8 <= a \/ a + 4 <= b -> rd64 (wr32 m a v) b = rd64 m b.
Proof. intros H. apply rdn_wrn_ne. lia. Qed.
Lemma rd32_wr32_ne m a v b : b + 4 <= a \/ a + 4 <= b -> rd32 (wr32 m a v) b = rd32 m b.
Proof. intros H. apply rdn_wrn_ne. lia. Qed.
Lemma but_hdr_rd p m m' q : but_hdr p m m' -> q + HDR <= p \/ p + HDR <= q ->
  rd64 m' q = rd64 m q /\ rd32 m' (q + 8) = rd32 m (q + 8).
Proof. intros H Hq. unfold HDR in *. split; apply rdn_ext; intros i Hi; apply H; unfold HDR; lia. Qed.
Lemma but_hdr_links p m m' B z : but_hdr p m m' ->
  (forall q t, (q, t) ∈ B -> q + HDR <= p \/ p + HDR <= q) -> links m B z -> links m' B z.
Proof.
  intros Hm. induction B as [|[q t] B IH]; intros Hf; cbn [links]; [done|]. intros (H1 & H2 & H3).
  destruct (but_hdr_rd p m m' q Hm (Hf q t ltac:(left))) as [-> ->]. split; [done|split; [done|]].
  apply IH; [|done]. intros r u Hin. apply (Hf r u). by right.
Qed.
Lemma but_hdr_refl p m : but_hdr p m m.
Proof. done. Qed.
Lemma but_hdr_ptr p v m m' : but_hdr p m m' -> but_hdr p m (wr64 m' p v).
Proof. intros H b Hb. unfold wr64. rewrite rd8_wrn_out by (unfold HDR in *; lia). by apply H. Qed.
Lemma but_hdr_size p v m m' : but_hdr p m m' -> but_hdr p m (wr32 m' (p + 8) v).
Proof. intros H b Hb. unfold wr32. rewrite rd8_wrn_out by (unfold HDR in *; lia). by apply H. Qed.
#[local] Hint Resolve but_hdr_refl but_hdr_ptr but_hdr_size : core.

(** Reads of the header just written. *)
Ltac hdr :=
  repeat first
    [ rewrite rd64_wr64_eq | rewrite rd32_wr32_eq
    | rewrite rd64_wr64_ne by lia | rewrite rd32_wr64_ne by lia
    | rewrite rd64_wr32_ne by lia | rewrite rd32_wr32_ne by lia ].

(** The memory behind the program is the kernel's to give: what it gives lies
    behind everything it gave before, and what was there stays. *)
Class SbrkOk (W : Type) `{Sbrk W} : Prop := sbrk_grows : forall n m (w : W), 0 <= n ->
  exists a m' w', sbrk n (m, w) = Ret a (m', w') /\ (forall b, b < brk_end w -> rd8 m' b = rd8 m b) /\
    ((a = NOMEM /\ brk_end w' = brk_end w) \/ (brk_end w <= a /\ brk_end w' = a + n /\ a + n <= 2 ^ 36)).

Section Facts.
Context {W : Type} `{Sbrk W} (base : Z).

(** The free list is [l], behind the static header. *)
Record heap_ok (l : blocks) (s : uheap W) : Prop := {
  ho_freep : u_freep s = base \/ exists t, (u_freep s, t) ∈ l;
  ho_links : links (u_mem s) ((base, 0) :: l) base;
  ho_gaps : gaps (base + HDR - 1) l;
  ho_end : end_of (base + HDR) l <= brk_end (u_sys s);
  ho_base : 0 < base;
  ho_brk : base + HDR <= brk_end (u_sys s) <= 2 ^ 36
}.

Lemma wp_hdr_ptr p (Q : Z -> uheap W -> Prop) s : 0 < p -> Q (rd64 (u_mem s) p) s -> wp (hdr_ptr p) Q s.
Proof.
  intros Hp HQ. unfold hdr_ptr. assert (truth p = true) as -> by (unfold truth; destruct (Z.eqb_spec p 0); [lia|done]).
  by wp_run.
Qed.
Lemma wp_hdr_size p (Q : Z -> uheap W -> Prop) s : 0 < p -> Q (rd32 (u_mem s) (p + 8)) s -> wp (hdr_size p) Q s.
Proof.
  intros Hp HQ. unfold hdr_size. assert (truth p = true) as -> by (unfold truth; destruct (Z.eqb_spec p 0); [lia|done]).
  by wp_run.
Qed.
Lemma wp_set_ptr p v (Q : unit -> uheap W -> Prop) s :
  Q tt (Uheap (wr64 (u_mem s) p v) (u_sys s) (u_freep s)) -> wp (set_ptr p v) Q s.
Proof. done. Qed.
Lemma wp_set_size p v (Q : unit -> uheap W -> Prop) s :
  Q tt (Uheap (wr32 (u_mem s) (p + 8) v) (u_sys s) (u_freep s)) -> wp (set_size p v) Q s.
Proof. done. Qed.

(** The first half of [free] after the search. *)
Definition link_up (bp n sz : Z) : M (uheap W) unit :=
  if u64 (bp + HDR * sz) =? n then
    nsz ← hdr_size n;
    _ ← set_size bp (u32 (sz + nsz));
    nn ← hdr_ptr n;
    set_ptr bp nn
  else set_ptr bp n.
(** And the second. *)
Definition link_down (p bp psz : Z) : M (uheap W) unit :=
  if u64 (p + HDR * psz) =? bp then
    sz ← hdr_size bp;
    _ ← set_size p (u32 (psz + sz));
    n ← hdr_ptr bp;
    set_ptr p n
  else set_ptr p bp.

Lemma wp_link_up bp s L2 m w f :
  0 < base < bp -> 0 < s -> links m L2 base -> rd32 m (bp + 8) = s ->
  gaps (bp + HDR * s - 1) L2 -> end_of (bp + HDR * s) L2 <= 2 ^ 36 ->
  wp (link_up bp (hd_addr L2 base) s) (fun _ s' => exists m', s' = Uheap m' w f /\
    links m' (join bp s L2) base /\ but_hdr bp m m') (Uheap m w f).
Proof.
  intros Hb Hs HL Hsz Hg He. unfold link_up, HDR in *.
  pose proof (end_of_le _ _ (gaps_weaken _ (bp + 16 * s - 1) _ Hg ltac:(lia))) as Hle.
  assert (bp + 16 * s <= 2 ^ 36) as Hle'.
  { destruct L2 as [|[q t] L2]; cbn in *; [lia|]. destruct Hg as (? & ? & ?%end_of_le). unfold HDR in *; lia. }
  clear Hle. rewrite u64_small by lia.
  assert (but_hdr bp m m) as Hbm by done.
  destruct L2 as [|[n ns] L3]; cbn [hd_addr join].
  - rewrite (proj2 (Z.eqb_neq _ _)) by lia. apply wp_set_ptr. cbn [u_mem u_sys u_freep]. eexists. split; [done|]. split; [|by auto 6].
    cbn [links hd_addr]. hdr. rewrite u64_small by lia. done.
  - destruct Hg as (Hn & Hns & Hg). destruct HL as (H1 & H2 & H3). cbn [end_of] in He.
    pose proof (end_of_le _ _ Hg) as Hle. unfold HDR in *.
    assert (forall q t, (q, t) ∈ L3 -> q + HDR <= bp \/ bp + HDR <= q) as Hfar.
    { intros q t Hin. destruct (gaps_elem _ _ _ _ Hg Hin). unfold HDR. lia. }
    destruct (Z.eqb_spec (bp + 16 * s) n) as [E|E].
    + apply wp_bind, wp_hdr_size; [lia|]. apply wp_bind, wp_set_size, wp_bind, wp_hdr_ptr; [lia|]. apply wp_set_ptr.
      cbn [u_mem u_sys u_freep]. eexists. split; [done|]. split; [|by auto 6]. hdr. rewrite H1, H2.
      assert (links (wr64 (wr32 m (bp + 8) (u32 (s + ns))) bp (hd_addr L3 base)) L3 base)
        by (apply (but_hdr_links bp m); auto).
      cbn [links]. hdr. rewrite u32_idem. split; [|split; [apply u32_small; lia|done]]. apply u64_small.
      destruct L3 as [|[r u] L4]; cbn; [lia|]. cbn in Hg, He. destruct Hg as (? & ? & ?%end_of_le). unfold HDR in *. lia.
    + apply wp_set_ptr. cbn [u_mem u_sys u_freep]. eexists. split; [done|]. split; [|by auto 6].
      assert (links (wr64 m bp n) ((n, ns) :: L3) base) as HL.
      { apply (but_hdr_links bp m); [by auto| |done]. intros q t [[= -> ->]|Hin]%elem_of_cons; [unfold HDR; lia|eauto]. }
      change (rd64 (wr64 m bp n) bp = n /\ rd32 (wr64 m bp n) (bp + 8) = s /\ links (wr64 m bp n) ((n, ns) :: L3) base).
      hdr. rewrite u64_small by lia. done.
Qed.

Lemma links_hd m p t B z : links m ((p, t) :: B) z -> rd64 m p = hd_addr B z /\ rd32 m (p + 8) = t.
Proof. by intros (? & ? & _). Qed.

Lemma wp_link_down p ps bp s B m w f :
  0 < p -> p + HDR * Z.max 1 ps <= bp -> 0 <= ps -> links m ((bp, s) :: B) base -> 0 < s -> bp + HDR * s <= 2 ^ 36 ->
  0 < hd_addr B base <= 2 ^ 36 -> rd32 m (p + 8) = ps ->
  (forall q t, (q, t) ∈ B -> bp < q) ->
  wp (link_down p bp ps) (fun _ s' => exists m', s' = Uheap m' w f /\ but_hdr p m m' /\
    links m' (if p + HDR * ps =? bp then (p, ps + s) :: B else (p, ps) :: (bp, s) :: B) base) (Uheap m w f).
Proof.
  intros Hp Hle Hps HL Hs He Hb Hsz Hfar. unfold link_down, HDR in *. rewrite u64_small by lia.
  assert (but_hdr p m m) as Hbm by done. pose proof HL as (H1 & H2 & H3).
  assert (forall q t, (q, t) ∈ (bp, s) :: B -> q + HDR <= p \/ p + HDR <= q) as Hf.
  { intros q t [[= -> ->]|Hin]%elem_of_cons; [unfold HDR; lia|]. specialize (Hfar q t Hin). unfold HDR. lia. }
  destruct (Z.eqb_spec (p + 16 * ps) bp) as [E|E].
  - apply wp_bind, wp_hdr_size; [lia|]. apply wp_bind, wp_set_size, wp_bind, wp_hdr_ptr; [lia|]. apply wp_set_ptr.
    cbn [u_mem u_sys u_freep]. eexists. split; [done|]. split; [by auto 6|]. cbn [links]. hdr. rewrite H1, H2.
    split; [apply u64_small; lia|]. split; [rewrite u32_idem; apply u32_small; lia|].
    apply (but_hdr_links p m); [by auto| |done]. intros q t Hin. apply (Hf q t). by right.
  - apply wp_set_ptr. cbn [u_mem u_sys u_freep]. eexists. split; [done|]. split; [by auto|].
    change (rd64 (wr64 m p bp) p = bp /\ rd32 (wr64 m p bp) (p + 8) = ps /\ links (wr64 m p bp) ((bp, s) :: B) base).
    hdr. rewrite u64_small by lia. split; [done|split; [done|]].
    apply (but_hdr_links p m); [by auto|exact Hf|done].
Qed.

(** * Walking the list *)

Lemma loop_walk {L A} (turn : L -> M (uheap W) (L + A)) (at_ : Z -> L) X z k s (Q : A -> uheap W -> Prop) :
  (forall X1 p t X2, X = X1 ++ (p, t) :: X2 -> turn (at_ p) s = Ret (inl (at_ (hd_addr X2 z))) s) ->
  wp (loop k (at_ z) turn) Q s -> wp (loop (length X + k) (at_ (hd_addr X z)) turn) Q s.
Proof.
  induction X as [|[p t] X IH]; intros Ht Hk; [done|].
  change (wp (r ← turn (at_ p); match r with inl v' => loop (length X + k) v' turn | inr b => mret b end) Q s).
  apply wp_bind. eapply wp_eq; [by apply (Ht [] p t X)|]. cbn beta iota.
  apply IH; [|done]. intros X1 q u X2 E. apply (Ht ((p, t) :: X1) q u X2). by rewrite E.
Qed.

Lemma free_step_eq bp p (s : uheap W) : 0 < p -> free_step bp p s =
  let n := rd64 (u_mem s) p in
  Ret (if ((p <? bp) && (bp <? n)) || ((n <=? p) && ((p <? bp) || (bp <? n))) then inr p else inl n) s.
Proof.
  intros Hp. unfold free_step. apply wp_ret_eq. apply wp_bind, wp_hdr_ptr; [done|].
  cbv zeta. destruct ((p <? bp) && (bp <? rd64 (u_mem s) p)); [done|]. cbn [orb].
  by destruct ((rd64 (u_mem s) p <=? p) && _).
Qed.

(** In a list in order each block lies before the next. *)
Lemma gaps_next lo X1 p t X2 z : gaps lo (X1 ++ (p, t) :: X2) -> X2 <> [] -> p < hd_addr X2 z.
Proof.
  intros [_ (_ & Ht & Hg)]%gaps_app. destruct X2 as [|[q u] X2]; [done|]. intros _.
  destruct Hg as (? & _ & _). cbn. unfold HDR in *. lia.
Qed.

(** The order of all the addresses, the static header's included. *)
Fixpoint ascending (B : blocks) : Prop :=
  match B with [] => True | (p, _) :: B' => (B' <> [] -> p < hd_addr B' 0) /\ ascending B' end.
Lemma ascending_app X Y : ascending (X ++ Y) -> ascending X /\ ascending Y.
Proof.
  induction X as [|[p t] X IH]; cbn [app ascending]; [done|]. intros (H1 & H2%IH). split; [|tauto]. split; [|tauto].
  intros Hne. destruct X as [|[q u] X]; [done|]. by apply H1.
Qed.
Lemma gaps_ascending lo X : gaps lo X -> ascending X.
Proof.
  revert lo. induction X as [|[p t] X IH]; intros lo; cbn [gaps ascending]; [done|]. intros (H1 & H2 & H3).
  split; [|by eapply IH]. intros Hne. destruct X as [|[q u] X]; [done|]. destruct H3 as (? & _ & _). cbn. unfold HDR in *. lia.
Qed.
Lemma ring_ascending l : gaps (base + HDR - 1) l -> ascending ((base, 0) :: l).
Proof.
  intros Hg. split; [|by eapply gaps_ascending]. intros Hne. destruct l as [|[q u] l]; [done|].
  destruct Hg as (? & _ & _). cbn. unfold HDR in *. lia.
Qed.
Lemma links_at m X1 p t X2 z : links m (X1 ++ (p, t) :: X2) z -> rd64 m p = hd_addr X2 z.
Proof. intros [_ (? & _)]%links_app. done. Qed.

(** The blocks before the one given back, [Z] its predecessor, and those behind. *)
Record around (bp p ps : Z) (B0 L2 : blocks) : Prop := {
  ar_asc : ascending (B0 ++ (p, ps) :: L2);
  ar_base : hd_addr (B0 ++ [(p, ps)]) 0 = base;
  ar_pos : forall q t, (q, t) ∈ B0 ++ (p, ps) :: L2 -> base <= q;
  ar_below : forall q t, (q, t) ∈ B0 ++ [(p, ps)] -> q < bp;
  ar_above : forall q t, (q, t) ∈ L2 -> bp < q
}.

Lemma free_step_last bp p ps B0 L2 (s : uheap W) : 0 < base -> around bp p ps B0 L2 -> links (u_mem s) (B0 ++ (p, ps) :: L2) base ->
  free_step bp p s = Ret (inr p) s.
Proof.
  intros Hb [_ Hh Hpos Hbl Hab] HL. assert (base <= p) by (apply (Hpos p ps), elem_of_app; right; left).
  assert (p < bp) by (apply (Hbl p ps), elem_of_app; right; left).
  rewrite free_step_eq by lia. rewrite (links_at _ _ _ _ _ _ HL). cbv zeta.
  rewrite (proj2 (Z.ltb_lt p bp)) by done. cbn [orb]. rewrite andb_true_r.
  destruct L2 as [|[n t] L2]; cbn [hd_addr].
  - rewrite (proj2 (Z.leb_le base p)) by done. by rewrite orb_true_r.
  - rewrite (proj2 (Z.ltb_lt bp n)) by (apply (Hab n t); left). done.
Qed.

(** From a block before the one given back: on to its predecessor. *)
Lemma free_leg bp p ps X Y L2 (s : uheap W) j : 0 < base -> around bp p ps (X ++ Y) L2 ->
  links (u_mem s) ((X ++ Y) ++ (p, ps) :: L2) base -> (length Y < j)%nat ->
  wp (loop j (hd_addr Y p) (free_step bp)) (fun r s' => r = p /\ s' = s) s.
Proof.
  intros Hb Ha HL Hj. pose proof (free_step_last _ _ _ _ _ _ Hb Ha HL) as Hlast. destruct Ha as [Hasc Hh Hpos Hbl Hab].
  replace j with (length Y + S (j - length Y - 1))%nat by lia. apply (loop_walk (free_step bp) (fun x => x)).
  - intros X1 q u X2 ->.
    assert (q < hd_addr X2 p /\ hd_addr X2 p < bp) as [H1 H2].
    { rewrite <- !app_assoc in Hasc. apply ascending_app in Hasc as [_ Hasc].
      apply ascending_app in Hasc as [_ Hasc]. destruct Hasc as [Hq _].
      split; [destruct X2 as [|[r v] X2]; apply Hq; done|].
      destruct X2 as [|[r v] X2]; cbn; [apply (Hbl p ps)|apply (Hbl r v)]; rewrite !elem_of_app; [right; by left|].
      left; right; right; right; by left. }
    assert (base <= q) by (apply (Hpos q u); rewrite !elem_of_app; left; right; right; left).
    rewrite free_step_eq by lia.
    rewrite <- !app_assoc, app_assoc in HL. cbn [app] in HL. rewrite (links_at _ _ _ _ _ _ HL), hd_addr_app. cbn [hd_addr].
    cbv zeta. rewrite (proj2 (Z.ltb_ge bp _)), (proj2 (Z.leb_gt _ q)) by lia. by rewrite andb_false_r.
  - change (wp (r ← free_step bp p; match r with inl v' => loop (j - length Y - 1) v' (free_step bp) | inr b => mret b end)
      (fun r s' => r = p /\ s' = s) s). apply wp_bind. by eapply wp_eq.
Qed.

Lemma free_search bp p ps B0 L2 (s : uheap W) k : 0 < base -> around bp p ps B0 L2 ->
  links (u_mem s) (B0 ++ (p, ps) :: L2) base ->
  (exists t, (u_freep s, t) ∈ B0 ++ (p, ps) :: L2) -> (length (B0 ++ (p, ps) :: L2) < k)%nat ->
  loop k (u_freep s) (free_step bp) s = Ret p s.
Proof.
  intros Hb Ha HL [t Hin] Hk. pose proof Ha as [Hasc Hh Hpos Hbl Hab]. apply wp_ret_eq.
  apply elem_of_app in Hin as [Hin|Hin].
  - apply list_elem_of_split in Hin as (X & Y & ->). change (u_freep s) with (hd_addr ((u_freep s, t) :: Y) p).
    apply (free_leg bp p ps X _ L2); [done|done|done|]. rewrite !length_app in Hk. cbn in *. lia.
  - apply elem_of_cons in Hin as [[= -> ->]|Hin].
    + apply (free_leg bp p ps B0 [] L2); [done|by rewrite app_nil_r|by rewrite app_nil_r|cbn; lia].
    + apply list_elem_of_split in Hin as (X & Y & ->). change (u_freep s) with (hd_addr ((u_freep s, t) :: Y) base).
      set (R := (u_freep s, t) :: Y) in *.
      rewrite length_app, length_cons, length_app in Hk.
      replace k with (length R + (k - length R))%nat by lia.
      apply (loop_walk (free_step bp) (fun x => x)).
      * intros X1 q u X2 E. clear Hk. rewrite E in *. rewrite (app_assoc X) in *.
        assert (bp < q) by (apply (Hab q u), elem_of_app; right; left).
        assert (base <= q) by (apply (Hpos q u); rewrite elem_of_app; right; right; rewrite elem_of_app; right; left).
        rewrite free_step_eq by lia. change ((p, ps) :: ?x) with ([(p, ps)] ++ x) in HL, Hasc. rewrite 2!app_assoc in HL, Hasc.
        rewrite (links_at _ _ _ _ _ _ HL). apply ascending_app in Hasc as [_ [Hq _]]. cbv zeta.
        rewrite (proj2 (Z.ltb_ge q bp)) by lia. cbn [andb orb].
        destruct X2 as [|[r v] X2]; cbn [hd_addr].
        { rewrite (proj2 (Z.ltb_ge bp base)). { by rewrite andb_false_r. }
          assert (base < bp); [|lia]. rewrite <- Hh. destruct B0 as [|[b0 t0] B0]; cbn; eapply Hbl; rewrite elem_of_app;
            [right; by left|left; by left]. }
        { specialize (Hq ltac:(done)). cbn in Hq. rewrite (proj2 (Z.leb_gt r q)) by lia. done. }
      * assert (base = hd_addr B0 p) as Eb by (rewrite <- Hh, hd_addr_app; done). rewrite Eb at 1.
        apply (free_leg bp p ps [] B0 (X ++ R)); [done|done|done|]. lia.
Qed.

(** * [free] *)

(** The predecessor of the block, as [free] finds it. *)
Lemma split_around bp s l L1 L2 : gaps (base + HDR - 1) l -> base + HDR <= bp -> 0 < base -> 0 < s -> l = L1 ++ L2 ->
  end_of (base + HDR - 1) L1 <= bp -> gaps (bp + HDR * s - 1) L2 ->
  exists B0 p ps, (base, 0) :: L1 = B0 ++ [(p, ps)] /\ around bp p ps B0 L2 /\ 0 < p /\ 0 <= ps /\
    p + HDR * Z.max 1 ps <= bp /\ (forall q t, (q, t) ∈ B0 -> q + HDR <= p) /\
    (L1 = [] /\ B0 = [] /\ p = base /\ ps = 0 \/ exists L, L1 = L ++ [(p, ps)] /\ B0 = (base, 0) :: L).
Proof.
  intros Hg Hb Hb0 Hs -> He H2. pose proof (ring_ascending _ Hg) as Hasc. pose proof Hg as [Hg1 Hg2]%gaps_app.
  assert (forall q t, (q, t) ∈ L2 -> bp < q) as Hab.
  { intros q t Hin. destruct (gaps_elem _ _ q t H2 Hin). unfold HDR in *. lia. }
  assert (forall q t, (q, t) ∈ (base, 0) :: L1 -> q < bp) as Hbl.
  { intros q t [[= -> ->]|Hin]%elem_of_cons; [unfold HDR in *; lia|].
    destruct (gaps_elem _ _ q t Hg1 Hin). unfold HDR in *. lia. }
  assert (forall q t, (q, t) ∈ (base, 0) :: L1 ++ L2 -> base <= q) as Hpos.
  { intros q t [[= -> ->]|Hin]%elem_of_cons; [lia|]. destruct (gaps_elem _ _ q t Hg Hin). unfold HDR in *. lia. }
  destruct L1 as [|[p ps] L _] using rev_ind.
  - exists [], base, 0. split; [done|]. split; [by split|]. split; [done|]. split; [done|]. split; [unfold HDR in *; lia|].
    split; [by intros ?? ?%elem_of_nil|]. by left.
  - rewrite <- !app_assoc in *. cbn [app] in *.
    exists ((base, 0) :: L), p, ps. split; [done|]. split; [by split|].
    apply gaps_app in Hg1 as [HgL (Hp & Hps & _)]. pose proof (end_of_le _ _ HgL).
    rewrite end_of_app in He. cbn [end_of] in He. unfold HDR in *.
    split; [lia|]. split; [lia|]. split; [lia|]. split; [|right; by exists L].
    intros q t [[= -> ->]|Hin]%elem_of_cons; [lia|]. destruct (gaps_elem _ _ q t HgL Hin). unfold HDR in *. lia.
Qed.

Lemma join_nil bp s l : join bp s l <> [].
Proof. destruct l as [|[q t] l]; cbn [join]; [done|]. by destruct (bp + HDR * s =? q). Qed.
Lemma give_nil bp s l : give bp s l <> [].
Proof.
  destruct l as [|[q t] l]; cbn [give]; [done|].
  destruct (q <? bp), (q + HDR * t =? bp); try apply join_nil. done.
Qed.
Lemma end_of_from lo lo' X : X <> [] -> end_of lo X = end_of lo' X.
Proof. by destruct X as [|[??]?]. Qed.
(** The list with the block in it, as [free] builds it behind the predecessor. *)
Lemma give_ring bp s l L1 L2 B0 p ps s' l' :
  (base, 0) :: L1 = B0 ++ [(p, ps)] -> base + HDR <= bp -> join bp s L2 = (bp, s') :: l' ->
  (forall p t, p + HDR * t = bp -> join p (t + s) L2 = (p, t + s') :: l') ->
  (L1 = [] /\ B0 = [] /\ p = base /\ ps = 0 \/ exists L, L1 = L ++ [(p, ps)] /\ B0 = (base, 0) :: L) ->
  (end_of (base + HDR - 1) L1 < bp /\ give bp s l = L1 ++ join bp s L2 \/
    exists L p t, L1 = L ++ [(p, t)] /\ p + HDR * t = bp /\ give bp s l = L ++ join p (t + s) L2) ->
  (base, 0) :: give bp s l = B0 ++ (if p + HDR * ps =? bp then (p, ps + s') :: l' else (p, ps) :: (bp, s') :: l').
Proof.
  intros EB Hb Ej Ej' Hw [[Hlt ->]|(L & q & t & -> & Eq & ->)].
  - rewrite Ej, app_comm_cons, EB, <- app_assoc. cbn [app]. rewrite (proj2 (Z.eqb_neq _ _)); [done|].
    destruct Hw as [(-> & _ & -> & ->)|(L & -> & _)]; [unfold HDR in *; lia|].
    rewrite end_of_app in Hlt. cbn in Hlt. lia.
  - rewrite app_comm_cons in EB. apply app_inj_tail in EB as [<- [= -> ->]].
    by rewrite (proj2 (Z.eqb_eq _ _) Eq), (Ej' _ _ Eq).
Qed.

(** What the second half of [free] does, once the predecessor is known. *)
Lemma wp_free_link bp s L2 B0 p ps m w f s' l' :
  0 < base -> base + HDR <= bp -> 0 < s -> around bp p ps B0 L2 -> links m (B0 ++ (p, ps) :: L2) base ->
  rd32 m (bp + 8) = s -> 0 < p -> 0 <= ps -> p + HDR * Z.max 1 ps <= bp -> (forall q t, (q, t) ∈ B0 -> q + HDR <= p) ->
  gaps (bp + HDR * s - 1) L2 -> end_of (bp + HDR * s) L2 <= 2 ^ 36 -> join bp s L2 = (bp, s') :: l' -> s <= s' ->
  wp (_ ← link_up bp (hd_addr L2 base) s; psz ← hdr_size p; _ ← link_down p bp psz; u_freep_l <~ p)
    (fun _ st' => exists m', st' = Uheap m' w p /\
      links m' (B0 ++ (if p + HDR * ps =? bp then (p, ps + s') :: l' else (p, ps) :: (bp, s') :: l')) base /\
      forall b, ~ (bp <= b < bp + HDR) -> ~ (p <= b < p + HDR) -> rd8 m' b = rd8 m b) (Uheap m w f).
Proof.
  intros Hb0 Hb Hs Ha HL Hsz Hp Hps Hple HB0 H2 He Ej Hs'.
  apply links_app in HL as [HL0 (Hn & Hpsz & HL2)]. cbn [hd_addr] in HL0.
  pose proof (join_gaps bp s L2 (bp - 1) H2 ltac:(lia) Hs) as Hgj.
  pose proof (join_end bp s L2 (bp + HDR * s) bp H2 ltac:(lia)) as Hej. rewrite Ej in Hgj, Hej.
  destruct Hgj as (_ & _ & Hgl). cbn [end_of] in Hej. pose proof (end_of_le _ _ Hgl) as Hel.
  pose proof (end_of_le _ _ (gaps_weaken _ (bp + HDR * s - 1) _ H2 ltac:(lia))) as Hel2.
  assert (bp + HDR * s <= end_of (bp + HDR * s) L2) as Hel3.
  { destruct L2 as [|[q t] L2]; cbn in *; [lia|]. destruct H2 as (? & ? & ?%end_of_le). unfold HDR in *; lia. }
  apply wp_bind. eapply wp_mono; [apply (wp_link_up bp s L2 m w f); [unfold HDR in *; lia|done..]|].
  intros _ ? (m1 & -> & HL1 & Hm1). rewrite Ej in HL1. apply wp_bind, wp_hdr_size; [done|]. cbn [u_mem].
  destruct (but_hdr_rd bp m m1 p Hm1 ltac:(unfold HDR in *; lia)) as [_ Hpsz1]. rewrite Hpsz1, Hpsz.
  assert (forall q t, (q, t) ∈ l' -> bp < q) as Hab.
  { intros q t Hin. destruct (gaps_elem _ _ q t Hgl Hin). unfold HDR in *. lia. }
  apply wp_bind. eapply wp_mono; [apply (wp_link_down p ps bp s' l' m1 w f); try done|].
  - lia.
  - lia.
  - destruct l' as [|[q t] l']; cbn [hd_addr]; [unfold HDR in *; lia|].
    split; [specialize (Hab q t ltac:(left)); unfold HDR in *; lia|].
    destruct Hgl as (? & ? & ?%end_of_le). cbn in Hej. unfold HDR in *. lia.
  - by rewrite Hpsz1.
  - intros _ ? (m2 & -> & Hm2 & HL2'). apply wp_wr. exists m2. split; [done|]. split.
    + apply links_app. split; [|done].
      assert (hd_addr (if p + HDR * ps =? bp then (p, ps + s') :: l' else (p, ps) :: (bp, s') :: l') base = p) as ->
        by (by destruct (_ =? _)).
      apply (but_hdr_links p m1 m2); [done|intros q t Hin; left; by apply (HB0 q t)|].
      apply (but_hdr_links bp m m1); [done| |done]. intros q t Hin. left. specialize (HB0 q t Hin). unfold HDR in *. lia.
    + intros b Hb1 Hb2. by rewrite Hm2, Hm1.
Qed.

Lemma free_ok l bp s fuel st :
  heap_ok l st -> base + HDR <= bp -> 0 < s -> bp + HDR * s <= brk_end (u_sys st) ->
  rd32 (u_mem st) (bp + 8) = s -> (forall x, bp <= x < bp + HDR * s -> ~ covers l x) -> (length l + 1 < fuel)%nat ->
  wp (free fuel (bp + HDR)) (fun _ st' => heap_ok (give bp s l) st' /\ u_sys st' = u_sys st /\
    forall b, base + HDR <= b -> ~ covers l b -> ~ (bp <= b < bp + HDR * s) -> rd8 (u_mem st') b = rd8 (u_mem st) b) st.
Proof.
  intros [Hf HL Hg He Hb0 Hbrk] Hb Hs Htop Hsz Hc Hfuel.
  destruct (give_ok bp s _ l Hg ltac:(lia) Hs Hc) as (Hg' & Hcov & Hend & _ & _).
  destruct (give_split bp s _ l Hg ltac:(lia) Hs Hc) as (L1 & L2 & El & H1 & H2 & Hcase).
  destruct (split_around bp s l L1 L2 Hg Hb Hb0 Hs El H1 H2) as (B0 & p & ps & EB & Ha & Hp & Hps & Hple & HB0 & Hwhich).
  assert ((base, 0) :: l = B0 ++ (p, ps) :: L2) as EB' by (rewrite El, app_comm_cons, EB, <- app_assoc; done).
  destruct st as [m w f]. cbn [u_mem u_sys u_freep] in *. rewrite EB' in HL.
  assert (gaps (bp + HDR * s) [] /\ end_of (bp + HDR * s) L2 <= 2 ^ 36) as [_ HeL2].
  { split; [done|]. rewrite El, end_of_app in He. destruct L2 as [|[q t] L2]; cbn [end_of] in *; lia. }
  unfold free. rewrite (u64_small (bp + HDR - HDR)) by (unfold HDR in *; lia).
  replace (bp + HDR - HDR) with bp by lia. apply wp_bind, wp_rd. cbn [view u_freep_l].
  assert (loop fuel f (free_step bp) (Uheap m w f) = Ret p (Uheap m w f)) as Es.
  { apply (free_search bp p ps B0 L2 (Uheap m w f)); [done|done|exact HL| |].
    - rewrite <- EB'. cbn. destruct Hf as [->|[t Hin]]; [exists 0; by left|exists t; by right].
    - rewrite <- EB'. cbn. lia. }
  apply wp_bind. eapply wp_eq; [exact Es|].
  apply wp_bind, wp_hdr_ptr; [done|]. apply wp_bind, wp_hdr_size; [unfold HDR in *; lia|]. cbn [u_mem].
  rewrite Hsz. pose proof HL as [_ (-> & _ & _)]%links_app.
  destruct (join_shape bp s L2 Hs) as (s' & l' & Ej & Hs' & _ & _ & Ej').
  { intros q t Hin. by apply (gaps_elem _ _ q t H2). }
  pose proof (give_ring bp s l L1 L2 B0 p ps s' l' EB Hb Ej Ej' Hwhich Hcase) as Er.
  eapply wp_mono; [apply (wp_free_link bp s L2 B0 p ps m w f s' l'); done|].
  intros _ ? (m' & -> & HL' & Hm'). cbn [u_mem u_sys]. rewrite <- Er in HL'. split; [split|split; [done|]].
  - cbn. destruct Hwhich as [(_ & _ & -> & _)|(L & EL & EL0)]; [by left|right].
    rewrite EL0 in Er. injection Er as ->. destruct (_ =? _); [exists (ps + s')|exists ps]; rewrite elem_of_app; right; left.
  - done.
  - done.
  - cbn. rewrite (end_of_from (base + HDR) (base + HDR - 1) _ (give_nil bp s l)). rewrite Hend.
    destruct l as [|[q t] l]; cbn [end_of] in *; [unfold HDR in *|]; lia.
  - done.
  - done.
  - intros b Hb1 Hb2 Hb3. apply Hm'; [intros Hb4; apply Hb3; unfold HDR in *; lia|]. intros Hb4.
    destruct Hwhich as [(_ & _ & -> & _)|(L & EL & _)]; [lia|].
    apply Hb2. rewrite El, EL, !covers_app, covers_cons. left; right; left.
    rewrite EL in El. rewrite El in Hg. apply gaps_app in Hg as [[_ (_ & Hpt & _)]%gaps_app _]. unfold HDR in *. lia.
Qed.

(** * [morecore] *)

Context {SB : SbrkOk W}.

(** The bytes of the heap that are in no free block. *)
Definition keeps_data (l : blocks) (st st' : uheap W) : Prop :=
  forall b, base + HDR <= b < brk_end (u_sys st) -> ~ covers l b -> rd8 (u_mem st') b = rd8 (u_mem st) b.

Lemma heap_grow l m w f m' w' : heap_ok l (Uheap m w f) -> (forall b, b < brk_end w -> rd8 m' b = rd8 m b) ->
  brk_end w <= brk_end w' <= 2 ^ 36 -> heap_ok l (Uheap m' w' f).
Proof.
  intros [Hf HL Hg He Hb Hk] Hm Hw. cbn in He, Hk. split; [done| |done|cbn; lia|done|cbn; lia]. cbn [u_mem] in *.
  assert (forall B z, (forall q t, (q, t) ∈ B -> q + HDR <= brk_end w) -> links m B z -> links m' B z) as Hl.
  { induction B as [|[q t] B IH]; intros z Hin; cbn [links]; [done|]. intros (H1 & H2 & H3).
    specialize (Hin q t ltac:(left)) as Hq. unfold HDR in Hq.
    assert (rd64 m' q = rd64 m q) as -> by (apply rdn_ext; intros i Hi; apply Hm; lia).
    assert (rd32 m' (q + 8) = rd32 m (q + 8)) as -> by (apply rdn_ext; intros i Hi; apply Hm; lia).
    split; [done|split; [done|]]. apply IH; [|done]. intros r u Hr. apply (Hin r u). by right. }
  apply Hl; [|done]. intros q t [[= -> ->]|Hin]%elem_of_cons; [lia|].
  destruct (gaps_elem _ _ q t Hg Hin). assert (l <> []) as Hne by (by intros ->; apply elem_of_nil in Hin).
  rewrite (end_of_from _ (base + HDR - 1) l Hne) in He. unfold HDR in *. lia.
Qed.

Lemma heap_top l st x : heap_ok l st -> covers l x -> x < brk_end (u_sys st).
Proof.
  intros [_ _ Hg He _ _] Hc. pose proof (covers_range _ _ _ Hg Hc) as [_ Hx].
  assert (l <> []) as Hne by (intros ->; by apply covers_nil in Hc).
  rewrite (end_of_from _ (base + HDR) l Hne) in Hx. lia.
Qed.

Lemma morecore_ok l nu fuel st : heap_ok l st -> 0 < nu -> nu * HDR < 2 ^ 31 -> (length l + 1 < fuel)%nat ->
  wp (morecore fuel nu) (fun r st' => keeps_data l st st' /\
    ((r = 0 /\ heap_ok l st' /\ brk_end (u_sys st') = brk_end (u_sys st)) \/
     exists a n, r = u_freep st' /\ nu <= n /\ heap_ok (give a n l) st' /\
       brk_end (u_sys st) <= a /\ brk_end (u_sys st') = a + HDR * n)) st.
Proof using SB.
  intros Hok Hnu Hmax Hfuel. unfold morecore. set (n := if nu <? 4096 then 4096 else nu).
  assert (nu <= n /\ 0 < n /\ n * HDR < 2 ^ 31) as (Hn1 & Hn2 & Hn3)
    by (unfold n, HDR in *; destruct (Z.ltb_spec nu 4096); lia).
  clearbody n. cbv zeta. rewrite u64_small by (unfold HDR in *; lia).
  assert (s32 (n * HDR) = n * HDR) as -> by (apply s32_small; unfold HDR in *; lia).
  destruct st as [m w f]. pose proof (ho_base _ _ Hok) as Hb0. pose proof (ho_brk _ _ Hok) as Hbrk. cbn [u_sys] in Hbrk.
  destruct (sbrk_grows (n * HDR) m w) as (a & m' & w' & E & Hm & Hcase); [unfold HDR in *; lia|].
  apply wp_bind, wp_zoom. cbn [view u_env_l u_mem u_sys]. eapply wp_eq; [exact E|]. cbn [update u_env_l fst snd u_freep].
  destruct Hcase as [[-> Hw]|(Ha & Hw & Htop)].
  - rewrite Z.eqb_refl. apply wp_mret. split; [intros b Hb _; cbn; apply Hm, Hb|]. left. split; [done|]. split; [|done].
    eapply heap_grow; [exact Hok|done|lia].
  - rewrite (proj2 (Z.eqb_neq a NOMEM)) by (unfold NOMEM, HDR in *; lia).
    apply wp_bind, wp_set_size. cbn [u_mem u_sys u_freep]. rewrite u64_small by (unfold HDR in *; lia).
    set (m1 := wr32 m' (a + 8) n).
    assert (forall b, b < brk_end w -> rd8 m1 b = rd8 m b) as Hm1.
    { intros b Hb. unfold m1, wr32. rewrite rd8_wrn_out by lia. by apply Hm. }
    assert (heap_ok l (Uheap m1 w' f)) as Hok1 by (eapply heap_grow; [exact Hok|done|unfold HDR in *; lia]).
    apply wp_bind. eapply wp_mono.
    { apply (free_ok l a n fuel (Uheap m1 w' f) Hok1); cbn [u_sys u_mem]; [lia|done|unfold HDR in *; lia| | |done].
      - unfold m1. rewrite rd32_wr32_eq, u32_small by (unfold HDR in *; lia). done.
      - intros x Hx Hc. pose proof (heap_top _ _ _ Hok Hc) as Hx'. cbn in Hx'. lia. }
    intros _ [m2 w2 f2] (Hok2 & Ew & Hdata). cbn [u_sys u_mem] in *. subst w2. apply wp_rd. split.
    + intros b Hb Hc. cbn [u_sys u_mem] in *. rewrite Hdata by (done || lia). apply Hm1. lia.
    + right. exists a, n. cbn. unfold HDR in *. repeat split; try done; try lia; apply Hok2.
Qed.

(** * [malloc] *)

Fixpoint last_addr (pr : Z) (X : blocks) : Z := match X with [] => pr | (p, _) :: X' => last_addr p X' end.
Lemma last_addr_app pr X Y : last_addr pr (X ++ Y) = last_addr (last_addr pr X) Y.
Proof. revert pr. induction X as [|[p t] X IH]; intros pr; cbn; [done|]. apply IH. Qed.
Lemma last_addr_in pr X : X <> [] -> exists t, (last_addr pr X, t) ∈ X.
Proof.
  destruct X as [|[p t] X _] using rev_ind; [done|]. intros _. rewrite last_addr_app. cbn.
  exists t. rewrite elem_of_app. right. by left.
Qed.
Lemma links_snoc m X q t z pr : X <> [] -> links m (X ++ [(q, t)]) z -> rd64 m (last_addr pr X) = q.
Proof.
  destruct X as [|[p u] X _] using rev_ind; [done|]. intros _. rewrite <- app_assoc, last_addr_app. cbn.
  intros HL. by apply links_at in HL.
Qed.

(** The block cut from the end of [(q, t)], and what is left. *)
Definition cut (L1 : blocks) (q t : Z) (L2 : blocks) (n : Z) : blocks :=
  if t =? n then L1 ++ L2 else L1 ++ (q, t - n) :: L2.

Lemma cut_ok lo L1 q t L2 n : gaps lo (L1 ++ (q, t) :: L2) -> 0 < n <= t ->
  let blk := q + HDR * (t - n) in
  gaps lo (cut L1 q t L2 n) /\ (cut L1 q t L2 n <> [] -> end_of lo (cut L1 q t L2 n) <= end_of lo (L1 ++ (q, t) :: L2)) /\
  (forall x, covers (L1 ++ (q, t) :: L2) x <-> covers (cut L1 q t L2 n) x \/ blk <= x < blk + HDR * n) /\
  (forall x, blk <= x < blk + HDR * n -> ~ covers (cut L1 q t L2 n) x) /\
  (length (cut L1 q t L2 n) <= length (L1 ++ (q, t) :: L2))%nat.
Proof.
  intros Hg Hn blk. pose proof Hg as [Hg1 (Hq & Ht & Hg2)]%gaps_app. pose proof (end_of_le _ _ Hg1).
  assert (forall x, covers L1 x -> x < q) as Hc1 by (intros x Hx; destruct (covers_range _ _ _ Hg1 Hx); lia).
  assert (forall x, covers L2 x -> q + HDR * t < x) as Hc2 by (intros x Hx; by destruct (covers_range _ _ _ Hg2 Hx)).
  unfold cut. destruct (Z.eqb_spec t n) as [E|E]; subst blk; unfold HDR in *.
  - subst n. replace (q + 16 * (t - t)) with q by lia. split; [|split; [|split; [|split]]].
    + apply gaps_app. split; [done|]. apply (gaps_weaken (q + 16 * t)); [done|lia].
    + rewrite !end_of_app. cbn [end_of]. unfold HDR. intros _. pose proof (end_of_le _ _ Hg2).
      destruct L2 as [|[r u] L2]; cbn in *; lia.
    + intros x. rewrite !covers_app, covers_cons. unfold HDR. tauto.
    + intros x Hx. rewrite covers_app. intros [Hc|Hc]; [apply Hc1 in Hc|apply Hc2 in Hc]; lia.
    + rewrite !length_app. cbn. lia.
  - split; [|split; [|split; [|split]]].
    + apply gaps_app. split; [done|]. split; [done|]. split; [lia|]. apply (gaps_weaken (q + 16 * t)); [done|unfold HDR; lia].
    + rewrite !end_of_app. cbn [end_of]. unfold HDR. intros _. pose proof (end_of_le _ _ Hg2).
      destruct L2 as [|[r u] L2]; cbn in *; lia.
    + intros x. rewrite !covers_app, !covers_cons. unfold HDR. split; [intros [?|[?|?]]|intros [[?|[?|?]]|?]]; try tauto.
      * destruct (decide (x < q + 16 * (t - n))); [left; right; left; lia|right; lia].
      * right; left; lia.
      * right; left; lia.
    + intros x Hx. rewrite covers_app, covers_cons. unfold HDR. intros [Hc|[Hc|Hc]]; [apply Hc1 in Hc|..|apply Hc2 in Hc]; lia.
    + rewrite !length_app. cbn. lia.
Qed.

(** What a successful [malloc] leaves. *)
Definition allocated (n : Z) (l : blocks) (st : uheap W) (a : Z) (st' : uheap W) : Prop :=
  let blk := a - HDR in
  exists l', heap_ok l' st' /\ u_sys st' = u_sys st /\ (length l' <= length l)%nat /\
    rd32 (u_mem st') (blk + 8) = n /\ base + HDR <= blk /\
    (forall x, covers l x <-> covers l' x \/ blk <= x < blk + HDR * n) /\
    (forall x, blk <= x < blk + HDR * n -> ~ covers l' x) /\ keeps_data l st st'.

(** Unlinking a block. *)
Lemma links_unlink m X p tp q t D z v : p + HDR <= q \/ q + HDR <= p ->
  (forall r u, (r, u) ∈ X ++ (q, t) :: D -> r + HDR <= p \/ p + HDR <= r) -> v = hd_addr D z -> 0 <= v < 2 ^ 64 ->
  links m (X ++ (p, tp) :: (q, t) :: D) z -> links (wr64 m p v) (X ++ (p, tp) :: D) z.
Proof.
  intros Hpq Hfar -> Hv [HX (Hp & Hsz & Hq & Ht & HD)]%links_app.
  assert (but_hdr p m (wr64 m p (hd_addr D z))) as Hm by auto.
  apply links_app. split.
  - apply (but_hdr_links p m _ _ _ Hm); [|exact HX]. intros r u Hin. apply (Hfar r u), elem_of_app. by left.
  - cbn [links]. rewrite rd64_wr64_eq, u64_small by lia. rewrite rd32_wr64_ne by lia. split; [done|split; [done|]].
    apply (but_hdr_links p m _ _ _ Hm); [|exact HD]. intros r u Hin. apply (Hfar r u), elem_of_app. right. by right.
Qed.
Lemma links_resize m X q t D z t' : 0 <= t' < 2 ^ 32 ->
  (forall r u, (r, u) ∈ X ++ D -> r + HDR <= q \/ q + HDR <= r) ->
  links m (X ++ (q, t) :: D) z -> links (wr32 m (q + 8) t') (X ++ (q, t') :: D) z.
Proof.
  intros Ht Hfar [HX (Hq & _ & HD)]%links_app. assert (but_hdr q m (wr32 m (q + 8) t')) as Hm by auto.
  apply links_app. split.
  - apply (but_hdr_links q m _ _ _ Hm); [|exact HX]. intros r u Hin. apply (Hfar r u), elem_of_app. by left.
  - cbn [links]. rewrite rd64_wr32_ne by lia. rewrite rd32_wr32_eq, u32_small by lia. split; [done|split; [done|]].
    apply (but_hdr_links q m _ _ _ Hm); [|exact HD]. intros r u Hin. apply (Hfar r u), elem_of_app. by right.
Qed.

Lemma ring_apart l X p tp Y : gaps (base + HDR - 1) l -> (base, 0) :: l = X ++ (p, tp) :: Y ->
  (forall r u, (r, u) ∈ X -> r + HDR <= p) /\ (forall r u, (r, u) ∈ Y -> p + HDR <= r /\ p + HDR * tp < r) /\ base <= p.
Proof using Type.
  intros Hg E. destruct X as [|[b0 t0] X]; cbn in E; injection E as <- <- ->.
  - split; [by intros ?? ?%elem_of_nil|]. split; [|lia].
    intros r u Hin. destruct (gaps_elem _ _ r u Hg Hin). unfold HDR in *. lia.
  - apply gaps_app in Hg as [Hg1 (Hp & Ht & Hg2)]. pose proof (end_of_le _ _ Hg1). split; [|split; [|unfold HDR in *; lia]].
    + intros r u [[= -> ->]|Hin]%elem_of_cons; [unfold HDR in *; lia|].
      destruct (gaps_elem _ _ r u Hg1 Hin). unfold HDR in *. lia.
    + intros r u Hin. destruct (gaps_elem _ _ r u Hg2 Hin). unfold HDR in *. lia.
Qed.

(** The whole block. *)
Lemma take_whole l L1 q t L2 st : heap_ok l st -> l = L1 ++ (q, t) :: L2 -> 0 < t ->
  let p := last_addr base L1 in
  heap_ok (L1 ++ L2) (Uheap (wr64 (u_mem st) p (rd64 (u_mem st) q)) (u_sys st) p) /\
  keeps_data l st (Uheap (wr64 (u_mem st) p (rd64 (u_mem st) q)) (u_sys st) p) /\
  rd32 (wr64 (u_mem st) p (rd64 (u_mem st) q)) (q + 8) = t.
Proof using Type.
  intros Hok El Ht p. pose proof Hok as [Hf HL Hg He Hb Hk]. rewrite El in HL.
  assert (exists X tp, (base, 0) :: L1 = X ++ [(p, tp)]) as (X & tp & EX).
  { subst p. destruct L1 as [|[r u] L1 _] using rev_ind; [by exists [], 0|].
    exists ((base, 0) :: L1), u. by rewrite last_addr_app. }
  assert ((base, 0) :: l = X ++ (p, tp) :: (q, t) :: L2) as ER.
  { rewrite El, app_comm_cons, EX, <- app_assoc. done. }
  rewrite <- El, ER in HL. destruct (ring_apart _ _ _ _ _ Hg ER) as (H1 & H2 & H3).
  pose proof HL as HL'. apply links_app in HL' as [_ (_ & _ & Hq & Hqt & _)]. cbn [hd_addr] in *.
  destruct (cut_ok (base + HDR - 1) L1 q t L2 t) as (Hg' & He' & _); [by rewrite <- El|lia|].
  unfold cut in Hg', He'. rewrite Z.eqb_refl in Hg', He'.
  destruct (H2 q t ltac:(left)) as [Hpq _].
  split; [split; cbn [u_mem u_sys u_freep]|split].
  - destruct L1 as [|[r u] L1]; [by left|right]. destruct (last_addr_in base ((r, u) :: L1) ltac:(done)) as [v Hv].
    exists v. rewrite elem_of_app. by left.
  - rewrite app_comm_cons, EX, <- app_assoc. apply (links_unlink _ _ _ _ q t); [unfold HDR in *; lia| |done|apply rd64_range|done].
    intros r u [Hin|Hin]%elem_of_app; [left; by apply (H1 r u)|right; by apply (H2 r u)].
  - exact Hg'.
  - destruct (decide (L1 ++ L2 = [])) as [->|Hne]; [cbn; lia|].
    rewrite (end_of_from _ (base + HDR - 1) _ Hne). etransitivity; [by apply He'|]. rewrite <- El.
    assert (l <> []) as Hne' by (rewrite El; by destruct L1). by rewrite (end_of_from _ (base + HDR) _ Hne').
  - done.
  - done.
  - intros b Hb1 Hb2. cbn [u_mem]. unfold wr64. apply rd8_wrn_out. intros Hb3.
    destruct L1 as [|L0 L1 _] using rev_ind; [subst p; cbn in *; unfold HDR in *; lia|].
    destruct L0 as [r u]. subst p. rewrite last_addr_app in *. cbn in Hb3. apply Hb2. rewrite El, <- app_assoc, covers_app.
    right. cbn. apply covers_cons. left. rewrite El, <- app_assoc in Hg. apply gaps_app in Hg as [_ (_ & Hu & _)]. unfold HDR. lia.
  - by rewrite rd32_wr64_ne by (unfold HDR in *; lia).
Qed.

(** The end of the block. *)
Lemma take_end l L1 q t L2 n f m w : heap_ok l (Uheap m w f) -> l = L1 ++ (q, t) :: L2 -> 0 < n < t ->
  let blk := q + HDR * (t - n) in let p := last_addr base L1 in
  let m' := wr32 (wr32 m (q + 8) (t - n)) (blk + 8) n in
  heap_ok (L1 ++ (q, t - n) :: L2) (Uheap m' w p) /\ keeps_data l (Uheap m w f) (Uheap m' w p) /\
  rd32 m' (blk + 8) = n.
Proof using Type.
  intros Hok El Hn blk p m'. pose proof Hok as [Hf HL Hg He Hb Hk]. cbn [u_mem u_sys] in *.
  assert ((base, 0) :: l = ((base, 0) :: L1) ++ (q, t) :: L2) as ER by (by rewrite El).
  rewrite ER in HL. destruct (ring_apart _ _ _ _ _ Hg ER) as (H1 & H2 & H3).
  destruct (cut_ok (base + HDR - 1) L1 q t L2 n) as (Hg' & He' & _); [by rewrite <- El|lia|].
  unfold cut in Hg', He'. rewrite (proj2 (Z.eqb_neq t n)) in Hg', He' by lia.
  assert (q + HDR * t <= 2 ^ 36) as Hq.
  { assert (l <> []) as Hne by (rewrite El; by destruct L1). rewrite (end_of_from _ (base + HDR - 1) _ Hne) in He.
    destruct (gaps_elem _ _ q t Hg) as (_ & _ & ?); [rewrite El, elem_of_app; right; left|lia]. }
  split; [split; cbn [u_mem u_sys u_freep]|split].
  - destruct L1 as [|[r u] L1]; [by left|right]. destruct (last_addr_in base ((r, u) :: L1) ltac:(done)) as [v Hv].
    exists v. rewrite elem_of_app. by left.
  - apply (but_hdr_links blk (wr32 m (q + 8) (t - n)) m'); [subst m'; auto| |].
    + intros r u. rewrite app_comm_cons, elem_of_app, (elem_of_cons L2). subst blk. unfold HDR in *. intros [Hin|[[= -> ->]|Hin]].
      * left. specialize (H1 r u Hin). lia.
      * left. lia.
      * right. destruct (H2 r u Hin). lia.
    + apply (links_resize m ((base, 0) :: L1) q t L2); [unfold HDR in *; lia| |exact HL].
      intros r u [Hin|Hin]%elem_of_app; [left; by apply (H1 r u)|right; by apply (H2 r u)].
  - exact Hg'.
  - assert (L1 ++ (q, t - n) :: L2 <> []) as Hne by (by destruct L1). rewrite (end_of_from _ (base + HDR - 1) _ Hne).
    etransitivity; [by apply He'|]. rewrite <- El.
    assert (l <> []) as Hne' by (rewrite El; by destruct L1). by rewrite (end_of_from _ (base + HDR) _ Hne').
  - done.
  - done.
  - intros b Hb1 Hb2. cbn [u_mem]. subst m'. unfold wr32. rewrite !rd8_wrn_out; [done| |];
      intros Hb3; apply Hb2; rewrite El, covers_app, covers_cons; right; left; subst blk; unfold HDR in *; lia.
  - subst m'. rewrite rd32_wr32_eq, u32_small by (unfold HDR in *; lia). done.
Qed.

Lemma take_ok l L1 q t L2 n fuel st : heap_ok l st -> l = L1 ++ (q, t) :: L2 -> 0 < n <= t ->
  wp (malloc_turn fuel n (last_addr base L1, q)) (fun r st' => exists a, r = inr a /\ allocated n l st a st') st.
Proof using Type.
  intros Hok El Hn. pose proof Hok as [_ HL Hg He Hb Hk]. rewrite El, app_comm_cons in HL.
  apply links_app in HL as [_ (_ & Hsz & _)].
  assert (base + HDR - 1 < q) as Hq by (apply (gaps_elem _ _ q t Hg); rewrite El, elem_of_app; right; left).
  assert (q + HDR * t <= 2 ^ 36) as Hqt.
  { assert (l <> []) as Hne by (rewrite El; by destruct L1). rewrite (end_of_from _ (base + HDR - 1) _ Hne) in He.
    destruct (gaps_elem _ _ q t Hg) as (_ & _ & ?); [rewrite El, elem_of_app; right; left|lia]. }
  pose proof (cut_ok (base + HDR - 1) L1 q t L2 n) as Hcut. rewrite <- El in Hcut.
  destruct (Hcut Hg Hn) as (_ & _ & Hc1 & Hc2 & Hlen). clear Hcut.
  unfold malloc_turn. apply wp_bind, wp_hdr_size; [unfold HDR in *; lia|]. rewrite Hsz, (proj2 (Z.leb_le n t)) by lia.
  unfold cut in *. destruct (Z.eqb_spec t n) as [E|E].
  - subst n. destruct (take_whole l L1 q t L2 st Hok El ltac:(lia)) as (Hok' & Hk' & Hr).
    apply wp_bind, wp_bind, wp_hdr_ptr; [unfold HDR in *; lia|]. apply wp_bind, wp_set_ptr, wp_mret, wp_bind, wp_wr, wp_mret.
    exists (q + HDR). split; [by rewrite u64_small by (unfold HDR in *; lia)|]. unfold allocated.
    replace (q + HDR - HDR) with (q + HDR * (t - t)) by (unfold HDR; lia). exists (L1 ++ L2).
    split; [exact Hok'|split; [done|split; [done|split; [|split; [unfold HDR in *; lia|done]]]]].
    replace (q + HDR * (t - t)) with q by (unfold HDR; lia). exact Hr.
  - destruct st as [m w f]. destruct (take_end l L1 q t L2 n f m w Hok El ltac:(lia)) as (Hok' & Hk' & Hr).
    apply wp_bind, wp_bind, wp_set_size. rewrite u32_small by (unfold HDR in *; lia).
    apply wp_bind, wp_hdr_size; [unfold HDR in *; lia|]. cbn [u_mem u_sys u_freep].
    rewrite rd32_wr32_eq, u32_small by (unfold HDR in *; lia). rewrite u64_small by (unfold HDR in *; lia).
    apply wp_bind, wp_set_size, wp_mret, wp_bind, wp_wr, wp_mret.
    exists (q + HDR * (t - n) + HDR). split; [by rewrite u64_small by (unfold HDR in *; lia)|]. unfold allocated.
    replace (q + HDR * (t - n) + HDR - HDR) with (q + HDR * (t - n)) by lia. exists (L1 ++ (q, t - n) :: L2).
    split; [exact Hok'|split; [done|split; [done|split; [exact Hr|split; [unfold HDR in *; lia|done]]]]].
Qed.

Lemma first_fit n (X : blocks) : Forall (fun '(_, t) => t < n) X \/
  exists X1 q t X2, X = X1 ++ (q, t) :: X2 /\ n <= t /\ Forall (fun '(_, t) => t < n) X1.
Proof using Type.
  induction X as [|[p t] X IH]; [by left|]. destruct (decide (n <= t)) as [Hle|Hgt].
  - right. by exists [], p, t, X.
  - destruct IH as [IH|(X1 & q & u & X2 & -> & Hu & H1)].
    + left. constructor; [lia|done].
    + right. exists ((p, t) :: X1), q, u, X2. repeat split; [done|]. constructor; [lia|done].
Qed.

(** A block that is too small, and not the one the search started at. *)
Lemma turn_small fuel n pr p z (st : uheap W) t : 0 < p -> rd32 (u_mem st) (p + 8) = t -> t < n ->
  rd64 (u_mem st) p = z -> p <> u_freep st -> malloc_turn fuel n (pr, p) st = Ret (inl (p, z)) st.
Proof using Type.
  intros Hp Ht Hn Hz Hne. apply wp_ret_eq. unfold malloc_turn. apply wp_bind, wp_hdr_size; [done|].
  rewrite Ht, (proj2 (Z.leb_gt n t)) by lia. apply wp_bind, wp_rd. cbn [view u_freep_l].
  rewrite (proj2 (Z.eqb_neq _ _)) by done. apply wp_bind, wp_mret.
  assert (truth p = true) as -> by (unfold truth; destruct (Z.eqb_spec p 0); [lia|done]).
  apply wp_bind, wp_hdr_ptr; [done|]. apply wp_mret. by rewrite Hz.
Qed.

(** Over a stretch of the list: a fit is taken, or the search goes on behind it. *)
Lemma scan_seg fuel n z st (Q : Z -> uheap W -> Prop) : forall X pr k,
  links (u_mem st) X z -> (forall q t, (q, t) ∈ X -> 0 < q /\ q <> u_freep st) ->
  (forall X1 q t X2, X = X1 ++ (q, t) :: X2 -> n <= t ->
    wp (malloc_turn fuel n (last_addr pr X1, q)) (fun r st' => exists a, r = inr a /\ Q a st') st) ->
  (Forall (fun '(_, t) => t < n) X -> wp (loop k (last_addr pr X, z) (malloc_turn fuel n)) Q st) ->
  wp (loop (length X + k) (pr, hd_addr X z) (malloc_turn fuel n)) Q st.
Proof using Type.
  induction X as [|[p t] X IH]; intros pr k HL Hin Hfit Hnone; [by apply Hnone|].
  change (wp (r ← malloc_turn fuel n (pr, p);
    match r with inl v' => loop (length X + k) v' (malloc_turn fuel n) | inr b => mret b end) Q st).
  apply wp_bind. destruct (decide (n <= t)) as [Hle|Hgt].
  - eapply wp_mono; [by apply (Hfit [] p t X)|]. by intros r st' (a & -> & HQ).
  - destruct HL as (H1 & H2 & H3). destruct (Hin p t ltac:(left)) as [Hp Hne].
    eapply wp_eq; [apply (turn_small fuel n pr p (hd_addr X z) st t); done || lia|].
    apply IH; [done| | |].
    + intros q u Hq. apply (Hin q u). by right.
    + intros X1 q u X2 -> Hu. by apply (Hfit ((p, t) :: X1) q u X2).
    + intros HF. apply Hnone. constructor; [lia|done].
Qed.

(** Once around the list, from behind [freep] to [freep] itself. *)
Lemma scan l st fuel n k (Q : Z -> uheap W -> Prop) : heap_ok l st -> 0 < n ->
  (forall L1 q t L2, l = L1 ++ (q, t) :: L2 -> n <= t ->
    wp (malloc_turn fuel n (last_addr base L1, q)) (fun r st' => exists a, r = inr a /\ Q a st') st) ->
  (Forall (fun '(_, t) => t < n) ((base, 0) :: l) -> forall pr,
    wp (malloc_turn fuel n (pr, u_freep st)) (fun r st' => match r with
      inl v => wp (loop k v (malloc_turn fuel n)) Q st' | inr a => Q a st' end) st) ->
  wp (loop (length l + S k) (u_freep st, rd64 (u_mem st) (u_freep st)) (malloc_turn fuel n)) Q st.
Proof using Type.
  intros Hok Hn Hfit Hnone. pose proof Hok as [Hf HL Hg _ Hb _].
  assert (exists B1 tf B2, (base, 0) :: l = B1 ++ (u_freep st, tf) :: B2) as (B1 & tf & B2 & EB).
  { assert (exists t, (u_freep st, t) ∈ (base, 0) :: l) as [t Hin]
      by (destruct Hf as [->|[t Ht]]; [exists 0; by left|exists t; by right]).
    apply list_elem_of_split in Hin as (B1 & B2 & E). by exists B1, t, B2. }
  assert (forall C q t D pr, (base, 0) :: l = C ++ (q, t) :: D -> n <= t ->
    wp (malloc_turn fuel n (last_addr pr C, q)) (fun r st' => exists a, r = inr a /\ Q a st') st) as Hfit'.
  { intros C q t D pr E Ht. destruct C as [|[c u] C]; cbn in E; injection E as <- <- El; [lia|].
    cbn. by apply (Hfit C q t D). }
  destruct (ring_apart _ _ _ _ _ Hg EB) as (H1 & H2 & H3). rewrite EB in HL.
  assert (forall q t, (q, t) ∈ (base, 0) :: l -> base <= q) as Hpos.
  { intros q t [[= -> ->]|Hin]%elem_of_cons; [lia|]. destruct (gaps_elem _ _ q t Hg Hin). unfold HDR in *. lia. }
  rewrite (links_at _ _ _ _ _ _ HL). apply links_app in HL as [HL1 (Hfn & Hft & HL2)]. cbn [hd_addr] in HL1.
  assert (length l = length B1 + length B2)%nat as ->
    by (apply (f_equal length) in EB; rewrite length_app in EB; cbn in EB; lia).
  replace (length B1 + length B2 + S k)%nat with (length B2 + (length B1 + S k))%nat by lia.
  apply scan_seg; [done| | |].
  - intros q t Hin. assert (base <= q) by (apply (Hpos q t); rewrite EB, elem_of_app; right; by right).
    destruct (H2 q t Hin) as [? _]. unfold HDR in *. lia.
  - intros X1 q t X2 -> Ht. replace (last_addr (u_freep st) X1) with (last_addr base (B1 ++ (u_freep st, tf) :: X1))
      by (by rewrite last_addr_app).
    apply (Hfit' _ q t X2); [by rewrite EB, <- app_assoc|done].
  - intros HF2. assert (base = hd_addr B1 (u_freep st)) as Eb by (destruct B1 as [|[? ?] B1]; cbn in EB |- *; by injection EB).
    rewrite Eb at 1. apply scan_seg; [done| | |].
    + intros q t Hin. assert (base <= q) by (apply (Hpos q t); rewrite EB, elem_of_app; by left).
      specialize (H1 q t Hin). unfold HDR in *. lia.
    + intros X1 q t X2 E Ht. apply (Hfit' _ q t (X2 ++ (u_freep st, tf) :: B2)); [|done]. by rewrite EB, E, <- app_assoc.
    + intros HF1. change (wp (r ← malloc_turn fuel n (last_addr (last_addr (u_freep st) B2) B1, u_freep st);
        match r with inl v' => loop k v' (malloc_turn fuel n) | inr b => mret b end) Q st).
      apply wp_bind. destruct (decide (n <= tf)) as [Hle|Hgt].
      * eapply wp_mono; [by apply (Hfit' B1 _ tf B2)|]. by intros r st' (a & -> & HQ).
      * eapply wp_mono; [apply Hnone|]; [|by intros [v|a] st'].
        rewrite EB. apply Forall_app. split; [done|]. constructor; [lia|done].
Qed.

(** [malloc]: a block of the size asked for, cut from the free blocks or from
    what the kernel gave; 0 when the kernel gives no more. *)
Lemma malloc_search l n fuel fuel' st : heap_ok l st -> 0 < n -> n * HDR < 2 ^ 31 ->
  (2 * length l + 4 <= fuel)%nat -> (length l + 1 < fuel')%nat ->
  wp (loop fuel (u_freep st, rd64 (u_mem st) (u_freep st)) (malloc_turn fuel' n)) (fun r st' =>
    exists l1 st1, heap_ok l1 st1 /\ keeps_data l st st1 /\ (length l1 <= S (length l))%nat /\
      brk_end (u_sys st) <= brk_end (u_sys st1) /\
      (forall x, covers l x -> covers l1 x) /\ (forall x, covers l1 x -> covers l x \/ brk_end (u_sys st) <= x) /\
      ((r = 0 /\ l1 = l /\ st' = st1) \/ allocated n l1 st1 r st')) st.
Proof using SB.
  intros Hok Hn Hmax Hfuel Hfuel'.
  assert (exists k, fuel = length l + S k /\ length l + 3 <= k)%nat as (k & -> & Hk) by (exists (fuel - length l - 1)%nat; lia).
  apply (scan l); [done|lia| |].
  - intros L1 q t L2 El Ht. eapply wp_mono; [apply (take_ok l L1 q t L2 n); [done|done|lia]|].
    intros r st' (a & -> & Ha). exists a. split; [done|]. exists l, st.
    split; [done|split; [done|split; [lia|split; [lia|split; [done|split; [by left|by right]]]]]].
  - intros HF pr. pose proof Hok as [Hf HL _ _ Hb _].
    assert (exists t, (u_freep st, t) ∈ (base, 0) :: l) as [t Hin]
      by (destruct Hf as [->|[t Ht]]; [exists 0; by left|exists t; by right]).
    assert (0 < u_freep st) as Hfp.
    { apply elem_of_cons in Hin as [[= -> _]|Hin]; [lia|]. destruct (gaps_elem _ _ _ t (ho_gaps _ _ Hok) Hin). unfold HDR in *. lia. }
    unfold malloc_turn at 1. apply wp_bind, wp_hdr_size; [done|].
    assert (rd32 (u_mem st) (u_freep st + 8) = t) as ->.
    { apply list_elem_of_split in Hin as (X & Y & E). rewrite E in HL. by apply links_app in HL as [_ (_ & ? & _)]. }
    rewrite Forall_forall in HF. rewrite (proj2 (Z.leb_gt n t)) by (by apply (HF _ Hin)).
    apply wp_bind, wp_rd. cbn [view u_freep_l]. rewrite Z.eqb_refl.
    apply wp_bind. eapply wp_mono; [apply (morecore_ok l n fuel'); [done|lia|done|lia]|].
    intros r st1 [Hkeep [(-> & Hok1 & Ebrk)|(a & nu & -> & Hnu & Hok1 & Ha & Ebrk)]].
    + cbn. exists l, st1.
      split; [done|split; [done|split; [lia|split; [lia|split; [done|split; [by left|by left]]]]]].
    + pose proof Hok1 as [Hf1 _ Hg1 _ _ Hk1]. pose proof (ho_base _ _ Hok) as Hb'. pose proof (ho_brk _ _ Hok) as Hbr.
      destruct (give_ok a nu (base + HDR - 1) l (ho_gaps _ _ Hok)) as (_ & Hcov & _ & Hlen & q & v & Hqv & Hv); [unfold HDR in *; lia|lia| |].
      { intros x Hx Hc. pose proof (heap_top _ _ _ Hok Hc). lia. }
      assert (0 < u_freep st1) as Hfp1.
      { destruct Hf1 as [->|[u Hu]]; [done|]. destruct (gaps_elem _ _ _ u Hg1 Hu). unfold HDR in *. lia. }
      assert (truth (u_freep st1) = true) as -> by (unfold truth; destruct (Z.eqb_spec (u_freep st1) 0); [lia|done]).
      apply wp_bind, wp_hdr_ptr; [done|]. apply wp_mret.
      assert (exists k', k = length (give a nu l) + S k')%nat as [k' ->] by (exists (k - length (give a nu l) - 1)%nat; lia).
      apply (scan (give a nu l)); [done|lia| |].
      * intros L1 q' t' L2 El Ht'. eapply wp_mono; [apply (take_ok (give a nu l) L1 q' t' L2 n); [exact Hok1|done|lia]|].
        intros r st' (b & -> & Hb1). exists b. split; [done|]. exists (give a nu l), st1.
        split; [done|split; [done|split; [done|split; [unfold HDR in *; lia|]]]].
        split; [intros x Hx; apply Hcov; by right|]. split; [|by right].
        intros x [Hx|Hx]%Hcov; [right; lia|by left].
      * intros HF1 pr'. rewrite Forall_forall in HF1. assert (v < n) by (apply (HF1 (q, v)); by right). lia.
Qed.

(** The heap before the first call is an empty free list. *)
Definition heap_state (l : blocks) (st : uheap W) : Prop :=
  heap_ok l st \/ (l = [] /\ u_freep st = 0 /\ 0 < base /\ base + HDR <= brk_end (u_sys st) <= 2 ^ 36).

Lemma units_spec nbytes : 0 <= nbytes < 2 ^ 31 - 32 ->
  units nbytes = (nbytes + 15) / 16 + 1 /\ nbytes <= (units nbytes - 1) * HDR /\ 0 < units nbytes /\
  units nbytes * HDR < 2 ^ 31.
Proof using Type.
  intros Hn. unfold units, HDR. rewrite (u64_small (nbytes + 16)) by lia. rewrite u64_small by lia.
  replace (nbytes + 16 - 1) with (nbytes + 15) by lia. rewrite u32_small by zlia. zlia.
Qed.

Lemma heap_start st : u_freep st = 0 -> 0 < base -> base + HDR <= brk_end (u_sys st) <= 2 ^ 36 ->
  let st1 := Uheap (wr32 (wr64 (u_mem st) base base) (base + 8) 0) (u_sys st) base in
  heap_ok [] st1 /\ keeps_data [] st st1.
Proof using Type.
  intros Hf Hb Hk st1. split.
  - split; cbn; [by left| |done|lia|done|lia]. rewrite rd64_wr32_ne by lia. rewrite rd64_wr64_eq, u64_small by (unfold HDR in *; lia).
    by rewrite rd32_wr32_eq.
  - intros b Hb1 _. cbn. unfold wr32, wr64. rewrite !rd8_wrn_out; [done|unfold HDR in *; lia..].
Qed.

Lemma malloc_ok l nbytes fuel st : heap_state l st -> 0 <= nbytes < 2 ^ 31 - 32 -> (2 * length l + 4 <= fuel)%nat ->
  wp (malloc base fuel nbytes) (fun r st' =>
    exists l1 st1, heap_ok l1 st1 /\ keeps_data l st st1 /\ (length l1 <= S (length l))%nat /\
      brk_end (u_sys st) <= brk_end (u_sys st1) /\
      (forall x, covers l x -> covers l1 x) /\ (forall x, covers l1 x -> covers l x \/ brk_end (u_sys st) <= x) /\
      ((r = 0 /\ l1 = l /\ st' = st1) \/ allocated (units nbytes) l1 st1 r st')) st.
Proof using SB.
  intros Hok Hn Hfuel. destruct (units_spec nbytes Hn) as (_ & _ & Hu1 & Hu2).
  unfold malloc. apply wp_bind, wp_rd. cbn [view u_freep_l]. destruct Hok as [Hok|(-> & Hf & Hb & Hk)].
  - assert (0 < u_freep st) as Hfp.
    { pose proof (ho_base _ _ Hok). destruct (ho_freep _ _ Hok) as [->|[t Hin]]; [done|].
      destruct (gaps_elem _ _ _ t (ho_gaps _ _ Hok) Hin). unfold HDR in *. lia. }
    assert (truth (u_freep st) = true) as -> by (unfold truth; destruct (Z.eqb_spec (u_freep st) 0); [lia|done]).
    apply wp_bind, wp_mret, wp_bind, wp_hdr_ptr; [done|]. apply malloc_search; done || lia.
  - rewrite Hf. destruct (heap_start st Hf Hb Hk) as [Hok Hkeep].
    apply wp_bind. unfold truth. rewrite Z.eqb_refl. apply wp_bind, wp_wr, wp_bind, wp_set_ptr, wp_bind, wp_set_size, wp_mret.
    apply wp_bind, wp_hdr_ptr; [done|]. cbn [u_mem u_sys u_freep update u_freep_l].
    set (st0 := Uheap _ _ base) in *.
    eapply wp_mono; [apply (malloc_search [] (units nbytes) fuel fuel st0); done || lia|].
    intros r st' (l1 & st1 & H1 & H2 & H3 & H4 & H5 & H6 & H7). exists l1, st1.
    split; [done|split; [|split; [done|split; [done|split; [done|split; [done|]]]]]].
    + intros b Hb1 Hb2. rewrite H2; [by apply Hkeep|done|done].
    + destruct H7 as [H7|H7]; [by left|by right].
Qed.

(** * A client *)

(** A program that allocates, frees what it holds and writes to what it holds,
    in any order.  A block is held with the bytes its owner has put there. *)
Inductive heap_op := OpMalloc (nbytes : Z) | OpFree (i : nat) | OpWrite (i : nat) (off : Z) (c : Z).

Definition heap_client (fuel : nat) (op : heap_op) : M (uheap W * list (Z * list Z)) unit :=
  match op with
  | OpMalloc n =>
      a ← zoom fst_l (malloc base fuel n);
      m ← rd (fst_l ⊚ u_mem_l);
      when (truth a) (md snd_l (cons (a, read_bytes m a n)))
  | OpFree i =>
      held ← rd snd_l;
      match held !! i with
      | Some (a, _) => _ ← zoom fst_l (free fuel a); snd_l <~ delete i held
      | None => mret tt
      end
  | OpWrite i off c =>
      held ← rd snd_l;
      match held !! i with
      | Some (a, bs) =>
          when ((0 <=? off) && (off <? Z.of_nat (length bs)))
            (_ ← md (fst_l ⊚ u_mem_l) (fun m => wr8 m (a + off) c);
             snd_l <~ <[i := (a, <[Z.to_nat off := u8 c]> bs)]> held)
      | None => mret tt
      end
  end.

(** The units of a held block. *)
Definition block_of (h : Z * list Z) (x : Z) : Prop :=
  let '(a, bs) := h in a - HDR <= x < a - HDR + HDR * units (Z.of_nat (length bs)).
(** A block is intact: in the heap, off the free list, with its size and the
    bytes its owner put there. *)
Record intact (l : blocks) (st : uheap W) (h : Z * list Z) : Prop := {
  it_size : 0 <= Z.of_nat (length h.2) < 2 ^ 31 - 32;
  it_low : base + HDR <= h.1 - HDR;
  it_top : h.1 - HDR + HDR * units (Z.of_nat (length h.2)) <= brk_end (u_sys st);
  it_free : forall x, block_of h x -> ~ covers l x;
  it_units : rd32 (u_mem st) (h.1 - HDR + 8) = units (Z.of_nat (length h.2));
  it_bytes : read_bytes (u_mem st) h.1 (Z.of_nat (length h.2)) = h.2
}.
(** No two held blocks share a byte. *)
Definition disjoint_blocks (held : list (Z * list Z)) : Prop :=
  forall i j h h' x, held !! i = Some h -> held !! j = Some h' -> block_of h x -> block_of h' x -> i = j.
Definition heap_inv (n : nat) (s : uheap W * list (Z * list Z)) : Prop :=
  exists l, heap_state l s.1 /\ (s.2 <> [] -> heap_ok l s.1) /\ (length l <= n)%nat /\ Forall (intact l s.1) s.2 /\ disjoint_blocks s.2.

Lemma block_payload h x : 0 <= Z.of_nat (length h.2) < 2 ^ 31 - 32 ->
  h.1 - HDR <= x < h.1 + Z.of_nat (length h.2) -> block_of h x.
Proof using Type.
  destruct h as [a bs]. cbn. intros Hn Hx. destruct (units_spec _ Hn) as (_ & Hu & _). unfold HDR in *. lia.
Qed.

(** Code that leaves alone what is in no free block leaves a held block intact. *)
Lemma intact_kept l st l' st' h : intact l st h ->
  (forall x, block_of h x -> rd8 (u_mem st') x = rd8 (u_mem st) x) ->
  brk_end (u_sys st) <= brk_end (u_sys st') -> (forall x, block_of h x -> ~ covers l' x) -> intact l' st' h.
Proof using Type.
  intros [Hs Hl Ht Hf Hu Hb] Hm Hw Hc. split; [done|done|lia|done| |].
  - rewrite <- Hu. apply rdn_ext. intros i Hi. apply Hm. apply block_payload; [done|]. unfold HDR in *. lia.
  - rewrite <- Hb at 2. unfold read_bytes. apply map_ext_in. intros i Hi%list_elem_of_In%elem_of_seqZ.
    apply Hm, block_payload; [done|]. unfold HDR. lia.
Qed.
Lemma intact_range l st h x : intact l st h -> block_of h x -> base + HDR <= x < brk_end (u_sys st).
Proof using Type. destruct h as [a bs]. intros [_ Hl Ht _ _ _] Hx. cbn in *. lia. Qed.

Lemma heap_foreign l m m' w f : heap_ok l (Uheap m w f) ->
  (forall b, b < base + HDR \/ covers l b -> rd8 m' b = rd8 m b) -> heap_ok l (Uheap m' w f).
Proof using Type.
  intros [Hf HL Hg He Hb Hk] Hm. split; try done. cbn [u_mem] in *.
  assert (forall B z, (forall q t i, (q, t) ∈ B -> 0 <= i < HDR -> rd8 m' (q + i) = rd8 m (q + i)) ->
    links m B z -> links m' B z) as Hl.
  { induction B as [|[q t] B IH]; intros z Hin; cbn [links]; [done|]. intros (H1 & H2 & H3).
    assert (rd64 m' q = rd64 m q) as -> by (apply rdn_ext; intros i Hi; apply (Hin q t); [left|unfold HDR; lia]).
    assert (rd32 m' (q + 8) = rd32 m (q + 8)) as ->
      by (apply rdn_ext; intros i Hi; rewrite <- Z.add_assoc; apply (Hin q t); [left|unfold HDR; lia]).
    split; [done|split; [done|]]. apply IH; [|done]. intros r u i Hr. apply (Hin r u i). by right. }
  apply Hl; [|done]. intros q t i Hin Hi. apply Hm.
  apply elem_of_cons in Hin as [[= -> ->]|Hin]; [left; lia|right]. exists q, t. split; [done|].
  destruct (gaps_elem _ _ q t Hg Hin). unfold HDR in *. lia.
Qed.

Lemma client_malloc n fuel nbytes s : heap_inv n s -> 0 <= nbytes < 2 ^ 31 - 32 -> (2 * n + 4 <= fuel)%nat ->
  wp (heap_client fuel (OpMalloc nbytes)) (fun _ s' => heap_inv (S n) s') s.
Proof using SB.
  intros (l & Hst & Hne & Hlen & Hin & Hdis) Hn Hfuel. destruct s as [st held]. cbn [fst snd] in *.
  cbn [heap_client]. apply wp_bind, wp_zoom. eapply wp_mono; [apply (malloc_ok l nbytes fuel st Hst Hn); lia|].
  intros r st' (l1 & st1 & Hok1 & Hk1 & Hl1 & Hw1 & Hc1 & Hc1' & Hcase). apply wp_bind, wp_rd. cbn.
  assert (forall h, h ∈ held -> intact l1 st1 h) as Hin1.
  { intros h Hh. rewrite Forall_forall in Hin. specialize (Hin h Hh). eapply intact_kept; [exact Hin| |done|].
    - intros x Hx. pose proof (intact_range _ _ _ _ Hin Hx). apply Hk1; [done|]. by apply (it_free _ _ _ Hin).
    - intros x Hx Hcx. destruct (Hc1' x Hcx) as [?|?]; [by apply (it_free _ _ _ Hin x)|].
      destruct (intact_range _ _ _ _ Hin Hx). lia. }
  destruct Hcase as [(-> & -> & ->)|(l' & Hok' & Ew & Hl' & Hsz & Hlow & Hcov & Hfree & Hk')].
  - cbn. apply wp_mret. exists l. split; [by left|]. split; [done|]. split; [lia|]. split; [by apply Forall_forall|done].
  - pose proof (ho_base _ _ Hok') as Hb. unfold truth. rewrite (proj2 (Z.eqb_neq r 0)) by (unfold HDR in *; lia). cbn.
    assert (Z.of_nat (length (read_bytes (u_mem st') r nbytes)) = nbytes) as El by (rewrite length_read_bytes; lia).
    set (hn := (r, read_bytes (u_mem st') r nbytes)).
    assert (forall x, block_of hn x <-> r - HDR <= x < r - HDR + HDR * units nbytes) as Hbn
      by (intros x; cbn; by rewrite El).
    assert (forall h x, h ∈ held -> block_of h x -> block_of hn x -> False) as Hsep.
    { intros h x Hh Hx Hxn%Hbn. apply (it_free _ _ _ (Hin1 h Hh) x Hx), Hcov. by right. }
    exists l'. cbn [fst snd]. split; [by left|]. split; [done|]. split; [lia|]. split.
    + constructor.
      * split; cbn [fst snd hn]; rewrite ?El; [lia|done| | |exact Hsz|done].
        -- pose proof (units_spec nbytes Hn) as (_ & _ & Hu & _). rewrite Ew.
           assert (r - HDR + HDR * units nbytes - 1 < brk_end (u_sys st1)); [|lia].
           apply (heap_top l1); [done|]. apply Hcov. right. unfold HDR in *. lia.
        -- intros x Hx%Hbn. by apply Hfree.
      * apply Forall_forall. intros h Hh. specialize (Hin1 h Hh). eapply intact_kept; [exact Hin1| |by rewrite Ew|].
        -- intros x Hx. pose proof (intact_range _ _ _ _ Hin1 Hx). apply Hk'; [done|]. by apply (it_free _ _ _ Hin1).
        -- intros x Hx Hcx. apply (it_free _ _ _ Hin1 x Hx), Hcov. by left.
    + intros [|i] [|j] h h' x Hi Hj Hx Hx'; [done|..]; cbn in Hi, Hj; simplify_eq.
      * destruct (Hsep h' x); [by eapply list_elem_of_lookup_2|done|done].
      * destruct (Hsep h x); [by eapply list_elem_of_lookup_2|done|done].
      * f_equal. by apply (Hdis i j h h' x).
Qed.

Lemma client_free n fuel i s : heap_inv n s -> (2 * n + 4 <= fuel)%nat ->
  wp (heap_client fuel (OpFree i)) (fun _ s' => heap_inv (S n) s') s.
Proof using SB.
  intros (l & Hst & Hne & Hlen & Hin & Hdis) Hfuel. destruct s as [st held]. cbn [fst snd] in *.
  cbn [heap_client]. apply wp_bind, wp_rd. cbn [view snd_l snd].
  destruct (held !! i) as [[a bs]|] eqn:Ei; [|apply wp_mret; exists l; eauto 10 with lia].
  assert (heap_ok l st) as Hok by (apply Hne; by intros ->).
  rewrite Forall_forall in Hin. pose proof (Hin _ (list_elem_of_lookup_2 _ _ _ Ei)) as [Hs Hlow Htop Hfree Hu Hb].
  cbn [fst snd] in *. destruct (units_spec _ Hs) as (_ & _ & Hun & _). set (u := units (Z.of_nat (length bs))) in *.
  apply wp_bind, wp_zoom. cbn [view fst_l fst]. replace a with (a - HDR + HDR) by lia.
  eapply wp_mono; [apply (free_ok l (a - HDR) u fuel st Hok); [done|done|done|done| |lia]|].
  { intros x Hx. by apply Hfree. }
  intros _ st' (Hok' & Ew & Hdata). cbn [update fst_l snd]. apply wp_wr. cbn [update snd_l fst].
  destruct (give_ok (a - HDR) u (base + HDR - 1) l (ho_gaps _ _ Hok)) as (_ & Hcov & _ & Hlen' & _); [lia|done|by apply Hfree|].
  exists (give (a - HDR) u l). split; [by left|]. split; [done|]. split; [lia|]. cbn [fst snd].
  assert (forall j h, delete i held !! j = Some h -> exists k, k <> i /\ held !! k = Some h /\ (j = if decide (k < i)%nat then k else (k - 1)%nat)) as Hdel.
  { intros j h Hj. destruct (decide (j < i)%nat).
    - rewrite list_lookup_delete_lt in Hj by done. exists j. rewrite decide_True by done. split; [lia|done].
    - rewrite list_lookup_delete_ge in Hj by lia. exists (S j). rewrite decide_False by lia. split; [lia|]. split; [done|lia]. }
  split.
  - apply Forall_forall. intros h (j & Hj)%list_elem_of_lookup. destruct (Hdel j h Hj) as (k & Hk & Hjk & _).
    pose proof (Hin h (list_elem_of_lookup_2 _ _ _ Hjk)) as Hh.
    assert (forall x, block_of h x -> ~ (a - HDR <= x < a - HDR + HDR * u)) as Hsep.
    { intros x Hx Hx'. apply Hk. by apply (Hdis k i h (a, bs) x). }
    eapply intact_kept; [exact Hh| |by rewrite Ew|].
    + intros x Hx. destruct (intact_range _ _ _ _ Hh Hx). apply Hdata; [lia| |by apply Hsep]. by apply (it_free _ _ _ Hh).
    + intros x Hx [Hc|Hc]%Hcov; [by apply (Hsep x)|by apply (it_free _ _ _ Hh x)].
  - intros j j' h h' x Hj Hj' Hx Hx'. destruct (Hdel j h Hj) as (k & Hk & Hjk & ->).
    destruct (Hdel j' h' Hj') as (k' & Hk' & Hjk' & ->). by rewrite (Hdis k k' h h' x).
Qed.

Lemma read_bytes_wr8 m a n off c : 0 <= off < n ->
  read_bytes (wr8 m (a + off) c) a n = <[Z.to_nat off := u8 c]> (read_bytes m a n).
Proof using Type.
  intros Ho. apply list_eq. intros k.
  assert (forall m', read_bytes m' a n !! k = if decide (Z.of_nat k < n) then Some (rd8 m' (a + Z.of_nat k)) else None) as Hr.
  { intros m'. unfold read_bytes. change (map ?f ?l) with (f <$> l). rewrite list_lookup_fmap.
    destruct (decide (Z.of_nat k < n)).
    - by rewrite lookup_seqZ_lt by lia.
    - by rewrite lookup_seqZ_ge by lia. }
  rewrite Hr. destruct (decide (Z.to_nat off = k)) as [<-|Hne].
  - rewrite list_lookup_insert_eq by (rewrite length_read_bytes; lia). rewrite decide_True by lia.
    rewrite rd8_wr8, decide_True by lia. done.
  - rewrite list_lookup_insert_ne by done. rewrite Hr. destruct (decide _); [|done]. by rewrite rd8_wr8, decide_False by lia.
Qed.

Lemma client_write n fuel i off c s : heap_inv n s ->
  wp (heap_client fuel (OpWrite i off c)) (fun _ s' => heap_inv (S n) s') s.
Proof using Type.
  intros (l & Hst & Hne & Hlen & Hin & Hdis). destruct s as [[m w f] held]. cbn [fst snd] in *.
  assert (heap_inv (S n) (Uheap m w f, held)) as Hsame by (exists l; cbn [fst snd]; eauto 10 with lia).
  cbn [heap_client]. apply wp_bind, wp_rd. cbn [view snd_l snd].
  destruct (held !! i) as [[a bs]|] eqn:Ei; [|by apply wp_mret].
  destruct ((0 <=? off) && (off <? Z.of_nat (length bs))) eqn:Eo; [|by apply wp_mret].
  apply andb_true_iff in Eo as [H0%Z.leb_le H1%Z.ltb_lt]. cbn [when]. apply wp_bind, wp_md, wp_wr. cbn.
  rewrite Forall_forall in Hin. pose proof (Hin _ (list_elem_of_lookup_2 _ _ _ Ei)) as Hi.
  assert (block_of (a, bs) (a + off)) as Hbo.
  { apply block_payload; [apply (it_size _ _ _ Hi)|]. cbn. unfold HDR. lia. }
  assert (heap_ok l (Uheap (wr8 m (a + off) c) w f)) as Hok.
  { apply (heap_foreign l m); [apply Hne; by intros ->|]. intros b Hb. rewrite rd8_wr8, decide_False; [done|].
    intros <-. destruct Hb as [Hb|Hb]; [destruct (intact_range _ _ _ _ Hi Hbo); lia|by apply (it_free _ _ _ Hi _ Hbo)]. }
  assert (forall h x, block_of (h.1, <[Z.to_nat off := u8 c]> h.2) x <-> block_of h x) as Hblk
    by (intros [b cs] x; cbn; by rewrite length_insert).
  assert (forall j h, <[i := (a, <[Z.to_nat off := u8 c]> bs)]> held !! j = Some h -> exists h0,
    held !! j = Some h0 /\ (forall x, block_of h x <-> block_of h0 x) /\ (j <> i -> h = h0) /\
    (j = i -> h = (a, <[Z.to_nat off := u8 c]> bs))) as Hins.
  { intros j h Hj. destruct (decide (i = j)) as [<-|Hij].
    - rewrite list_lookup_insert_eq in Hj by (by eapply lookup_lt_Some). injection Hj as <-.
      exists (a, bs). split; [done|]. split; [apply (Hblk (a, bs))|done].
    - rewrite list_lookup_insert_ne in Hj by done. by exists h. }
  exists l. cbn [fst snd]. split; [by left|]. split; [done|]. split; [lia|]. split.
  - apply Forall_forall. intros h (j & Hj)%list_elem_of_lookup. destruct (Hins j h Hj) as (h0 & Hj0 & Hb & Hne0 & He0).
    pose proof (Hin _ (list_elem_of_lookup_2 _ _ _ Hj0)) as Hh0. destruct (decide (j = i)) as [->|Hij].
    + rewrite (He0 eq_refl). destruct Hi as [I1 I2 I3 I4 I5 I6]. cbn [fst snd u_mem u_sys] in *.
      split; cbn [fst snd u_mem u_sys]; rewrite ?length_insert; [done|done|done| | |].
      * intros x Hx. apply I4. by apply (Hblk (a, bs)).
      * rewrite <- I5. apply rdn_ext. intros k Hk. rewrite rd8_wr8, decide_False; [done|unfold HDR; lia].
      * rewrite read_bytes_wr8 by lia. by rewrite I6.
    + rewrite (Hne0 Hij). eapply intact_kept; [exact Hh0| |done|apply (it_free _ _ _ Hh0)].
      intros x Hx. cbn [u_mem]. rewrite rd8_wr8, decide_False; [done|]. intros <-. apply Hij.
      by apply (Hdis j i h0 (a, bs) (a + off)).
  - intros j j' h h' x Hj Hj' Hx Hx'. destruct (Hins j h Hj) as (h0 & Hj0 & Hb & _).
    destruct (Hins j' h' Hj') as (h0' & Hj0' & Hb' & _). apply (Hdis j j' h0 h0' x); [done|done|by apply Hb|by apply Hb'].
Qed.

(** A count [malloc] can serve: [sbrk] takes an [int]. *)
Definition op_fits (op : heap_op) : Prop := match op with OpMalloc n => 0 <= n < 2 ^ 31 - 32 | _ => True end.

Lemma heap_client_ok n fuel op s : heap_inv n s -> op_fits op -> (2 * n + 4 <= fuel)%nat ->
  wp (heap_client fuel op) (fun _ s' => heap_inv (S n) s') s.
Proof using SB.
  destruct op as [k|i|i off c]; intros; [by apply client_malloc|by apply client_free|by apply client_write].
Qed.
Lemma heap_clients_ok fuel ops : forall n s, heap_inv n s -> Forall op_fits ops -> (2 * (n + length ops) + 4 <= fuel)%nat ->
  wp (for_each ops (heap_client fuel)) (fun _ s' => heap_inv (n + length ops) s') s.
Proof using SB.
  induction ops as [|op ops IH]; intros n s Hs Hf Hfuel.
  - apply wp_mret. by rewrite Nat.add_0_r.
  - apply Forall_cons in Hf as [Ho Hf]. cbn [length] in *. apply wp_bind.
    eapply wp_mono; [apply (heap_client_ok n); [done|done|lia]|]. intros [] s' Hs'.
    replace (n + S (length ops))%nat with (S n + length ops)%nat by lia. apply IH; [done|done|lia].
Qed.

(** C19. A program that allocates blocks, frees blocks it holds and writes into
    them, in any order, never meets a panic, a null header or a loop without
    end: every call returns.  At any time the blocks it holds lie in the heap,
    no byte is in two of them, and each holds the bytes its owner wrote to it
    (or found in it), whatever was allocated and freed in between. *)
Theorem malloc_client (ops : list heap_op) (fuel : nat) (m : mem) (w : W) :
  0 < base -> base + HDR <= brk_end w <= 2 ^ 36 -> Forall op_fits ops -> (2 * length ops + 4 <= fuel)%nat ->
  wp (for_each ops (heap_client fuel)) (fun _ '(st, held) =>
    (forall i a bs, held !! i = Some (a, bs) ->
       base + HDR + HDR <= a /\ a + Z.of_nat (length bs) <= brk_end (u_sys st) /\
       read_bytes (u_mem st) a (Z.of_nat (length bs)) = bs) /\
    (forall i j a bs b cs x, held !! i = Some (a, bs) -> held !! j = Some (b, cs) ->
       a <= x < a + Z.of_nat (length bs) -> b <= x < b + Z.of_nat (length cs) -> i = j))
    (Uheap m w 0, []).
Proof using SB.
  intros Hb Hk Hf Hfuel.
  assert (heap_inv 0 (Uheap m w 0, [])) as H0.
  { exists []. cbn. split; [by right|]. split; [done|]. split; [done|]. split; [by constructor|]. by intros [|?] j h h' x. }
  eapply wp_mono; [apply (heap_clients_ok fuel ops 0 _ H0 Hf Hfuel)|].
  intros _ [st held] (l & _ & _ & _ & Hin & Hdis). cbn [fst snd] in *. rewrite Forall_forall in Hin. split.
  - intros i a bs Hi. destruct (Hin _ (list_elem_of_lookup_2 _ _ _ Hi)) as [I1 I2 I3 _ _ I6]. cbn [fst snd] in *.
    destruct (units_spec _ I1) as (_ & Hu & _). unfold HDR in *. split; [lia|split; [lia|done]].
  - intros i j a bs b cs x Hi Hj Hx Hx'.
    pose proof (it_size _ _ _ (Hin _ (list_elem_of_lookup_2 _ _ _ Hi))). pose proof (it_size _ _ _ (Hin _ (list_elem_of_lookup_2 _ _ _ Hj))).
    apply (Hdis i j (a, bs) (b, cs) x); [done|done|apply block_payload..]; cbn in *; unfold HDR; lia || done.
Qed.
End Facts.

(** A kernel that gives memory up to a limit. *)
Definition bump (limit : Z) (n : Z) : M (mem * Z) Z :=
  b ← rd snd_l;
  if b + n <=? limit then _ ← snd_l <~ b + n; mret b else mret NOMEM.
Instance bump_sbrk : Sbrk Z := {| sbrk := bump (2 ^ 27); brk_end := fun b => b |}.
Instance bump_ok : SbrkOk Z.
Proof.
  intros n m b Hn. cbn [sbrk bump_sbrk brk_end]. unfold bump. destruct (b + n <=? 2 ^ 27) eqn:E.
  - exists b, m, (b + n). split; [|split; [done|right; apply Z.leb_le in E; lia]].
    cbv beta delta [mbind M_bind mret M_ret rd wr gets modify put]. cbn. cbn in E. by rewrite E.
  - exists NOMEM, m, b. split; [|split; [done|by left]].
    cbv beta delta [mbind M_bind mret M_ret rd wr gets modify put]. cbn. cbn in E. by rewrite E.
Qed.
Definition demo_ops : list heap_op := [OpMalloc 100; OpMalloc 20; OpWrite 1 5 65; OpFree 0; OpMalloc 5000; OpWrite 0 0 66].
Example malloc_client_witness :
  wp (for_each demo_ops (heap_client 4096 40)) (fun _ '(st, held) =>
    (forall i a bs, held !! i = Some (a, bs) ->
       4096 + HDR + HDR <= a /\ a + Z.of_nat (length bs) <= brk_end (u_sys st) /\
       read_bytes (u_mem st) a (Z.of_nat (length bs)) = bs) /\
    (forall i j a bs b cs x, held !! i = Some (a, bs) -> held !! j = Some (b, cs) ->
       a <= x < a + Z.of_nat (length bs) -> b <= x < b + Z.of_nat (length cs) -> i = j))
    (Uheap ∅ 8192 0, []).
Proof.
  assert (Forall op_fits demo_ops) as Hf by (repeat constructor; cbn; lia).
  assert (4096 + HDR <= brk_end 8192 <= 2 ^ 36) as Hb by (split; vm_compute; discriminate).
  exact (malloc_client 4096 demo_ops 40 ∅ 8192 eq_refl Hb Hf ltac:(cbn; lia)).
Defined.
