(* ===== verification/Sh.v ===== *)
(** The shell's command parser (user/sh.c).

    The line is an array of characters with its terminating NUL; a pointer into
    it is an index.  The nodes [malloc] gives are the nodes of a tree, which
    the parser only ever extends at its root or, for the arguments of a
    command, at the EXEC node it has just made. *)

From S2P Require Import Prelude Strings Ulib.

(** * The tree *)

(** [A] is what the tree has for a word: its first and last pointers as the
    parser builds it, the string itself once it is read. *)
Inductive cmd (A : Type) :=
| EXEC (argv : list A)
| REDIR (c : cmd A) (file : A) (mode fd : Z)
| PIPE (left right : cmd A)
| LIST (left right : cmd A)
| BACK (c : cmd A).
Arguments EXEC {A} argv.
Arguments REDIR {A} c file mode fd.
Arguments PIPE {A} left right.
Arguments LIST {A} left right.
Arguments BACK {A} c.
Definition MAXARGS : nat := 10.
Definition O_RDONLY : Z := 0.
Definition O_WRONLY : Z := 1.
Definition O_CREATE : Z := 0x40.
Definition O_TRUNC : Z := 0x200.
Definition O_APPEND : Z := 0x400.

(** * Tokens *)

Definition whitespace : list Z := [32; 9; 13; 10; 11].
Definition symbols : list Z := chars "<|>&;()".
(** [strchr(l, c)] is not null. *)
Definition among (l : list Z) (c : Z) : bool :=
  match Ulib.strchr (l ++ [0]) c with Some (Some _) => true | _ => false end.
Definition plain (c : Z) : bool := negb (among whitespace c) && negb (among symbols c).

Section Parser.
Context (buf : list Z) (es : nat).

Definition chr (s : nat) : M nat Z := lift "past the line" (buf !! s).
(** [while(s < es && p( *s)) s++], with [n] characters to [es]. *)
Fixpoint span (p : Z -> bool) (n s : nat) : nat :=
  match n with
  | O => s
  | S n' => if p (default 0 (buf !! s)) then span p n' (S s) else s
  end.
Definition skip (s : nat) : nat := span (among whitespace) (es - s) s.

(** The kind of the token and its two ends. *)
Definition gettoken : M nat (Z * (nat * nat)) :=
  s ← rd lid;
  let q := skip s in
  c ← chr q;
  '(ret, e) ← (if c =? 0 then mret (c, q)
    else if among (chars "|();&<") c then mret (c, S q)
    else if c =? 62 then
      c' ← chr (S q);
      mret (if c' =? 62 then (43, S (S q)) else (c, S q))
    else mret (97, span plain (es - q) q));
  _ ← lid <~ skip e;
  mret (ret, (q, e)).
Definition peek (toks : list Z) : M nat bool :=
  s ← rd lid;
  _ ← lid <~ skip s;
  c ← chr (skip s);
  mret (truth c && among toks c).

(** * The parser *)

Definition redirs_turn (c : cmd (nat * nat)) : M nat (cmd (nat * nat) + cmd (nat * nat)) :=
  more ← peek (chars "<>");
  if more : bool then
    '(tok, _) ← gettoken;
    '(kind, w) ← gettoken;
    if negb (kind =? 97) then panic "missing file for redirection"
    else mret (inl (if tok =? 60 then REDIR c w O_RDONLY 0
                    else if tok =? 62 then REDIR c w (Z.lor (Z.lor O_WRONLY O_CREATE) O_TRUNC) 1
                    else if tok =? 43 then REDIR c w (Z.lor (Z.lor O_WRONLY O_CREATE) O_APPEND) 1
                    else c))
  else mret (inr c).
Definition parseredirs (fuel : nat) (c : cmd (nat * nat)) : M nat (cmd (nat * nat)) := loop fuel c redirs_turn.

(** The EXEC node is inside the redirections made so far: an argument is added
    to it there. *)
Fixpoint add_arg {A} (c : cmd A) (w : A) : cmd A :=
  match c with
  | EXEC argv => EXEC (argv ++ [w])
  | REDIR c f mode fd => REDIR (add_arg c w) f mode fd
  | c => c
  end.
Definition args_turn (fuel : nat) '((argc, ret) : nat * cmd (nat * nat))
  : M nat ((nat * cmd (nat * nat)) + cmd (nat * nat)) :=
  stop ← peek (chars "|)&;");
  if stop : bool then mret (inr ret)
  else
    '(tok, w) ← gettoken;
    if tok =? 0 then mret (inr ret)
    else if negb (tok =? 97) then panic "syntax"
    else
      let ret := add_arg ret w in
      if (MAXARGS <=? S argc)%nat then panic "too many args"
      else ret ← parseredirs fuel ret; mret (inl (S argc, ret)).
Definition parseargs (fuel : nat) : M nat (cmd (nat * nat)) :=
  ret ← parseredirs fuel (EXEC []);
  loop fuel (O, ret) (args_turn fuel).

Definition back_turn (c : cmd (nat * nat)) : M nat (cmd (nat * nat) + cmd (nat * nat)) :=
  more ← peek (chars "&");
  if more : bool then _ ← gettoken; mret (inl (BACK c)) else mret (inr c).

Fixpoint parseline (fuel : nat) : M nat (cmd (nat * nat)) :=
  match fuel with
  | O => nofuel
  | S n =>
      c ← parsepipe n;
      c ← loop n c back_turn;
      more ← peek (chars ";");
      if more : bool then _ ← gettoken; r ← parseline n; mret (LIST c r) else mret c
  end
with parsepipe (fuel : nat) : M nat (cmd (nat * nat)) :=
  match fuel with
  | O => nofuel
  | S n =>
      c ← parseexec n;
      more ← peek (chars "|");
      if more : bool then _ ← gettoken; r ← parsepipe n; mret (PIPE c r) else mret c
  end
with parseexec (fuel : nat) : M nat (cmd (nat * nat)) :=
  match fuel with
  | O => nofuel
  | S n =>
      block ← peek (chars "(");
      if block : bool then parseblock n else parseargs n
  end
with parseblock (fuel : nat) : M nat (cmd (nat * nat)) :=
  match fuel with
  | O => nofuel
  | S n =>
      block ← peek (chars "(");
      if negb block then panic "parseblock"
      else
        _ ← gettoken;
        c ← parseline n;
        closed ← peek (chars ")");
        if negb closed then panic "syntax - missing )"
        else _ ← gettoken; parseredirs n c
  end.

(** What is left of the line goes to the standard error before the message of
    the panic, which ends the program. *)
Definition text (l : list Z) : string := foldr (fun c => String (Ascii.ascii_of_N (Z.to_N c))) "" l.
Definition leftovers (l : list Z) : string :=
  ("leftovers: " ++ text l ++ String (Ascii.ascii_of_N 10) "syntax")%string.
Definition parseall (fuel : nat) : M nat (cmd (nat * nat)) :=
  c ← parseline fuel;
  _ ← peek [];
  s ← rd lid;
  if negb (s =? es)%nat then panic (leftovers (take (es - s) (drop s buf))) else mret c.
End Parser.

(** Every word of a command gets its NUL. *)
Fixpoint nulterminate (c : cmd (nat * nat)) (buf : list Z) : list Z :=
  match c with
  | EXEC argv => foldl (fun b w => <[w.2 := 0]> b) buf argv
  | REDIR c w _ _ => <[w.2 := 0]> (nulterminate c buf)
  | PIPE l r | LIST l r => nulterminate r (nulterminate l buf)
  | BACK c => nulterminate c buf
  end.

Definition parsecmd (fuel : nat) : M (list Z) (cmd (nat * nat)) :=
  buf ← rd lid;
  es ← lift "strlen" (ustrlen buf);
  match parseall buf (Z.to_nat es) fuel O with
  | Ret c _ => _ ← lid <~ nulterminate c buf; mret c
  | Panic msg => panic msg
  | Undef why => undef why
  | _ => nofuel
  end.

(** The string at a pointer, and a command with its words as strings. *)
Fixpoint cstr (s : list Z) : list Z :=
  match s with [] => [] | c :: s' => if c =? 0 then [] else c :: cstr s' end.
Fixpoint cmd_map {A B} (f : A -> B) (c : cmd A) : cmd B :=
  match c with
  | EXEC argv => EXEC (map f argv)
  | REDIR c w mode fd => REDIR (cmd_map f c) (f w) mode fd
  | PIPE l r => PIPE (cmd_map f l) (cmd_map f r)
  | LIST l r => LIST (cmd_map f l) (cmd_map f r)
  | BACK c => BACK (cmd_map f c)
  end.
Definition word_at (buf : list Z) (w : nat * nat) : list Z := cstr (drop w.1 buf).
