(* ===== verification/ShFacts.v ===== *)
(** The shell's parser: it ends on every line, its words are words, and it
    reads back any command as it is written. *)

From S2P Require Import Prelude Strings Ulib Sh.

(** * Characters *)

Lemma among_eq l c : 0 ∉ l -> among l c = bool_decide (c ∈ l).
Proof.
  intros H0. unfold among. induction l as [|x l IH]; cbn [app Ulib.strchr]; [by rewrite bool_decide_false by apply not_elem_of_nil|].
  apply not_elem_of_cons in H0 as [Hx H0]. rewrite (proj2 (Z.eqb_neq x 0)) by done.
  destruct (Z.eqb_spec x c) as [->|Hne]; [by rewrite bool_decide_true by left|].
  specialize (IH H0). rewrite (bool_decide_ext (c ∈ x :: l) (c ∈ l)) by (rewrite elem_of_cons; split; [by intros [->|?]|by right]).
  rewrite <- IH. by destruct (Ulib.strchr (l ++ [0]) c) as [[v|]|].
Qed.
Lemma among_in l c : c <> 0 -> among l c = true -> c ∈ l.
Proof.
  intros Hc. unfold among. induction l as [|x l IH]; cbn [app Ulib.strchr]; [done|].
  destruct (x =? 0); [done|]. destruct (Z.eqb_spec x c) as [->|Hne]; [by left|].
  intros H. right. apply IH. by destruct (Ulib.strchr (l ++ [0]) c) as [[v|]|].
Qed.
(** The parser's constant lists have no NUL. *)
Ltac no_nul := match goal with |- ?P => apply (bool_decide_unpack P); vm_compute; exact I end.
Lemma whitespace_nul : 0 ∉ whitespace. Proof. no_nul. Qed.
Lemma symbols_nul : 0 ∉ symbols. Proof. no_nul. Qed.
Lemma symbols_not_blank : Forall (fun c => c ∉ whitespace) symbols. Proof. no_nul. Qed.
Lemma symbols_kinds : Forall (fun c => c <> 0 /\ c <> 97 /\ c <> 43) symbols. Proof. no_nul. Qed.
Lemma single_symbols : Forall (fun c => c ∈ symbols /\ c <> 62 /\ c <> 97 /\ c <> 43) (chars "|();&<"). Proof. no_nul. Qed.
Lemma plain_spec c : plain c = true <-> (c ∉ whitespace) /\ (c ∉ symbols).
Proof.
  unfold plain. rewrite !among_eq by (apply whitespace_nul || apply symbols_nul).
  rewrite andb_true_iff, !negb_true_iff, !bool_decide_eq_false. done.
Qed.
Lemma plain_among l c : plain c = true -> 0 ∉ l -> (forall x, x ∈ l -> x ∈ symbols) -> among l c = false.
Proof. intros [_ Hs]%plain_spec H0 Hl. rewrite among_eq by done. apply bool_decide_eq_false. intros Hc. by apply Hs, Hl. Qed.

(** * The grammar *)

(** The tokens of a line: blanks end a word, and so do the symbols, which are
    tokens themselves; [cur] is the word begun. *)
Inductive tok := Word (w : list Z) | Op (c : Z) | Append.
Definition end_word (cur : list Z) : list tok := match cur with [] => [] | _ => [Word cur] end.
Fixpoint lex (cur line : list Z) : list tok :=
  match line with
  | [] => end_word cur
  | c :: l =>
      if bool_decide (c ∈ whitespace) then end_word cur ++ lex [] l
      else if bool_decide (c ∈ symbols) then
        end_word cur ++ match l with
                        | c' :: l' => if (c =? 62) && (c' =? 62) then Append :: lex [] l' else Op c :: lex [] l
                        | [] => Op c :: lex [] l
                        end
      else lex (cur ++ [c]) l
  end.

(** [<], [>] and [>>]: the mode the file is opened with and the descriptor. *)
Definition redir_of (t : tok) : option (Z * Z) :=
  match t with
  | Op c => if c =? 60 then Some (O_RDONLY, 0)
            else if c =? 62 then Some (Z.lor (Z.lor O_WRONLY O_CREATE) O_TRUNC, 1) else None
  | Append => Some (Z.lor (Z.lor O_WRONLY O_CREATE) O_APPEND, 1)
  | Word _ => None
  end.
(** Redirections of [c], and the words and redirections of a plain command. *)
Inductive redirs_of (c : cmd (list Z)) : cmd (list Z) -> list tok -> Prop :=
| R_none : redirs_of c c []
| R_more d us t f mode fd : redirs_of c d us -> redir_of t = Some (mode, fd) ->
    redirs_of c (REDIR d f mode fd) (us ++ [t; Word f]).
Inductive args_of : cmd (list Z) -> list tok -> Prop :=
| A_none : args_of (EXEC []) []
| A_word c ts w : args_of c ts -> args_of (add_arg c w) (ts ++ [Word w])
| A_redir c ts t f mode fd : args_of c ts -> redir_of t = Some (mode, fd) ->
    args_of (REDIR c f mode fd) (ts ++ [t; Word f]).
(** A line is pipelines, each in the background as often as a [&] follows it,
    between semicolons; a pipeline is commands between bars; a command is plain
    or a line in parentheses with its redirections. *)
Inductive line_of : cmd (list Z) -> list tok -> Prop :=
| L_last c ts : bg_of c ts -> line_of c ts
| L_list c d ts us : bg_of c ts -> line_of d us -> line_of (LIST c d) (ts ++ Op 59 :: us)
with bg_of : cmd (list Z) -> list tok -> Prop :=
| B_pipe c ts : pipe_of c ts -> bg_of c ts
| B_amp c ts : bg_of c ts -> bg_of (BACK c) (ts ++ [Op 38])
with pipe_of : cmd (list Z) -> list tok -> Prop :=
| P_last c ts : exec_of c ts -> pipe_of c ts
| P_bar c d ts us : exec_of c ts -> pipe_of d us -> pipe_of (PIPE c d) (ts ++ Op 124 :: us)
with exec_of : cmd (list Z) -> list tok -> Prop :=
| E_args c ts : args_of c ts -> exec_of c ts
| E_block c d ts us : line_of c ts -> redirs_of c d us -> exec_of d (Op 40 :: ts ++ Op 41 :: us).

Lemma args_redirs c d ts us : args_of c ts -> redirs_of c d us -> args_of d (ts ++ us).
Proof.
  intros Ha Hr. induction Hr as [|d us t f mode fd Hr IH Ht]; [by rewrite app_nil_r|].
  rewrite app_assoc. by constructor.
Qed.
Lemma redirs_trans c d e us vs : redirs_of c d us -> redirs_of d e vs -> redirs_of c e (us ++ vs).
Proof.
  intros Ha Hr. induction Hr as [|e us' t f mode fd Hr IH Ht]; [by rewrite app_nil_r|].
  rewrite app_assoc. by constructor.
Qed.

(** * Pointers into the line *)

(** The characters of a word in the line. *)
Definition text_of (buf : list Z) (w : nat * nat) : list Z := take (w.2 - w.1) (drop w.1 buf).
(** The token of kind [ret], with its text. *)
Definition token (ret : Z) (w : list Z) : tok := if ret =? 97 then Word w else if ret =? 43 then Append else Op ret.

Section Line.
Context (buf : list Z) (es : nat).

(** [es] is at the line's NUL, the first one. *)
Record line_ok : Prop := {
  ln_end : buf !! es = Some 0;
  ln_text : forall i, (i < es)%nat -> exists c, buf !! i = Some c /\ c <> 0
}.
Definition at_ (i : nat) : Z := default 0 (buf !! i).
(** A word: not empty, of plain characters, and up to one that is not. *)
Definition okword (w : nat * nat) : Prop :=
  let '(q, e) := w in (q < e <= es)%nat /\ (forall i, (q <= i < e)%nat -> plain (at_ i) = true) /\
    ((e < es)%nat -> plain (at_ e) = false).

Lemma span_spec p n s : exists k, span buf p n s = (s + k)%nat /\ (k <= n)%nat /\
  (forall i, (s <= i < s + k)%nat -> p (at_ i) = true) /\ ((k < n)%nat -> p (at_ (s + k)) = false).
Proof.
  revert s. induction n as [|n IH]; intros s; cbn [span].
  - exists 0%nat. rewrite Nat.add_0_r. repeat split; lia.
  - destruct (p (default 0 (buf !! s))) eqn:Ep.
    + destruct (IH (S s)) as (k & -> & Hk & Hp & Hn). exists (S k). split; [lia|split; [lia|split]].
      * intros i Hi. destruct (decide (i = s)) as [->|]; [done|]. apply Hp. lia.
      * intros Hlt. replace (s + S k)%nat with (S s + k)%nat by lia. apply Hn. lia.
    + exists 0%nat. rewrite Nat.add_0_r. repeat split; try lia. intros _. exact Ep.
Qed.
Lemma skip_spec s : (s <= es)%nat -> (s <= skip buf es s <= es)%nat /\
  ((skip buf es s < es)%nat -> among whitespace (at_ (skip buf es s)) = false).
Proof.
  intros Hs. unfold skip. destruct (span_spec (among whitespace) (es - s) s) as (k & -> & Hk & _ & Hn).
  split; [lia|]. intros Hlt. apply Hn. lia.
Qed.

(** How a parser ends: with a result, or with the message of a bad line. *)
Definition ends {A} (m : M nat A) (Q : A -> nat -> Prop) (s : nat) : Prop :=
  match m s with Ret a s' => Q a s' | Panic _ => True | _ => False end.
Lemma ends_mret {A} (a : A) (Q : A -> nat -> Prop) s : Q a s -> ends (mret a) Q s.
Proof. done. Qed.
Lemma ends_bind {A B} (m : M nat A) (f : A -> M nat B) Q s :
  ends m (fun a => ends (f a) Q) s -> ends (m ≫= f) Q s.
Proof. unfold ends, mbind, M_bind. by destruct (m s). Qed.
Lemma ends_mono {A} (m : M nat A) (Q Q' : A -> nat -> Prop) s :
  ends m Q s -> (forall a s', Q a s' -> Q' a s') -> ends m Q' s.
Proof. unfold ends. destruct (m s); naive_solver. Qed.
Lemma ends_eq {A} (m : M nat A) (Q : A -> nat -> Prop) s a s' : m s = Ret a s' -> Q a s' -> ends m Q s.
Proof. unfold ends. by intros ->. Qed.
Lemma ends_loop {L A} (body : L -> M nat (L + A)) (Inv : L -> nat -> Prop) (meas : nat -> nat) (Q : A -> nat -> Prop) fuel v s :
  Inv v s -> (meas s < fuel)%nat ->
  (forall v s, Inv v s -> ends (body v) (fun r s' => match r with
     | inl v' => Inv v' s' /\ (meas s' < meas s)%nat | inr b => Q b s' end) s) ->
  ends (loop fuel v body) Q s.
Proof.
  intros Hi Hm Hb. revert v s Hi Hm. induction fuel as [|fuel IH]; intros v s Hi Hm; [lia|].
  cbn [loop]. apply ends_bind. eapply ends_mono; [by apply Hb|]. intros [v'|b] s'; [|done].
  intros [Hi' Hm']. apply IH; [done|lia].
Qed.

Context (Hline : line_ok).
Lemma at_end : at_ es = 0.
Proof. unfold at_. by rewrite (ln_end Hline). Qed.
Lemma at_text i : (i < es)%nat -> at_ i <> 0.
Proof. intros Hi. destruct (ln_text Hline i Hi) as (c & E & Hc). unfold at_. by rewrite E. Qed.
Lemma chr_at s t : (s <= es)%nat -> chr buf s t = Ret (at_ s) t.
Proof.
  intros Hs. unfold chr, at_. destruct (buf !! s) eqn:E; [done|]. destruct (decide (s = es)) as [->|].
  - by rewrite (ln_end Hline) in E.
  - destruct (ln_text Hline s ltac:(lia)) as (c & E' & _). by rewrite E in E'.
Qed.

(** The tokens from [s] to the end of the line. *)
Definition lx (s : nat) : list tok := lex [] (drop s (take es buf)).
Lemma tail_at s : (s < es)%nat -> drop s (take es buf) = at_ s :: drop (S s) (take es buf).
Proof.
  intros Hs. destruct (ln_text Hline s Hs) as (c & E & _). apply drop_S. rewrite lookup_take_lt by done. unfold at_. by rewrite E.
Qed.
Lemma tail_end s : (es <= s)%nat -> drop s (take es buf) = [].
Proof. intros Hs. apply drop_ge. rewrite length_take. lia. Qed.
Lemma lx_end s : (es <= s)%nat -> lx s = [].
Proof. intros Hs. unfold lx. by rewrite tail_end. Qed.
Lemma lx_blank s : (s < es)%nat -> among whitespace (at_ s) = true -> lx s = lx (S s).
Proof.
  intros Hs Hw. unfold lx. rewrite tail_at by done. cbn [lex]. rewrite among_eq in Hw by apply whitespace_nul. by rewrite Hw.
Qed.
Lemma lx_skip s : (s <= es)%nat -> lx (skip buf es s) = lx s.
Proof.
  intros Hs. unfold skip. destruct (span_spec (among whitespace) (es - s) s) as (k & -> & Hk & Hp & _).
  induction k as [|k IH]; [by rewrite Nat.add_0_r|]. rewrite <- IH by (lia || (intros; apply Hp; lia)).
  replace (s + S k)%nat with (S (s + k)) by lia. symmetry. apply lx_blank; [lia|]. apply Hp. lia.
Qed.
(** A symbol that is not the first half of [>>], and [>>]. *)
Lemma lx_symbol s : (s < es)%nat -> at_ s ∈ symbols -> at_ s <> 62 \/ at_ (S s) <> 62 -> lx s = Op (at_ s) :: lx (S s).
Proof.
  intros Hs Hc Hn. unfold lx. rewrite tail_at by done. cbn [lex].
  assert (at_ s ∉ whitespace) as Hw.
  { exact (proj1 (Forall_forall _ _) symbols_not_blank _ Hc). }
  rewrite (bool_decide_eq_false_2 _ Hw), (bool_decide_eq_true_2 _ Hc). cbn [end_word app].
  destruct (decide (S s < es)%nat) as [H|H]; [|by rewrite tail_end by lia].
  rewrite (tail_at (S s)) by done. assert ((at_ s =? 62) && (at_ (S s) =? 62) = false) as ->; [|done].
  apply andb_false_iff. rewrite !Z.eqb_neq. done.
Qed.
Lemma lx_append s : (S s < es)%nat -> at_ s = 62 -> at_ (S s) = 62 -> lx s = Append :: lx (S (S s)).
Proof. intros Hs E1 E2. unfold lx. rewrite (tail_at s), (tail_at (S s)) by lia. by rewrite E1, E2. Qed.
(** A run of plain characters. *)
Lemma lex_run k : forall s cur, (s + k <= es)%nat -> (forall i, (s <= i < s + k)%nat -> plain (at_ i) = true) ->
  lex cur (drop s (take es buf)) = lex (cur ++ take k (drop s (take es buf))) (drop (s + k) (take es buf)).
Proof.
  induction k as [|k IH]; intros s cur Hs Hp; [by rewrite app_nil_r, Nat.add_0_r|].
  rewrite tail_at at 1 2 by lia. cbn [lex take].
  destruct (proj1 (plain_spec _) (Hp s ltac:(lia))) as [H1 H2].
  rewrite !bool_decide_eq_false_2 by done. rewrite IH by (lia || (intros; apply Hp; lia)).
  rewrite <- app_assoc. by replace (S s + k)%nat with (s + S k)%nat by lia.
Qed.
Lemma lx_word s k : (0 < k)%nat -> (s + k <= es)%nat -> (forall i, (s <= i < s + k)%nat -> plain (at_ i) = true) ->
  ((s + k < es)%nat -> plain (at_ (s + k)) = false) -> lx s = Word (text_of buf (s, s + k)%nat) :: lx (s + k).
Proof.
  intros Hk Hs Hp Hn. unfold lx. rewrite (lex_run k) by done. cbn [app].
  assert (text_of buf (s, s + k)%nat = take k (drop s (take es buf))) as ->.
  { unfold text_of. cbn. replace (s + k - s)%nat with k by lia. apply list_eq. intros i.
    destruct (decide (i < k)%nat); [|by rewrite !lookup_take_ge by lia].
    rewrite !lookup_take_lt, !lookup_drop, lookup_take_lt by lia. done. }
  assert (take k (drop s (take es buf)) <> []) as Hne.
  { rewrite tail_at by lia. by destruct k; [lia|]. }
  destruct (take k (drop s (take es buf))) as [|c w]; [done|].
  destruct (decide (s + k < es)%nat) as [H|H]; [|by rewrite tail_end by lia].
  rewrite (tail_at (s + k)) by done. cbn [lex]. specialize (Hn H).
  destruct (bool_decide_reflect (at_ (s + k) ∈ whitespace)) as [Hw|Hw]; [done|].
  destruct (bool_decide_reflect (at_ (s + k) ∈ symbols)) as [Hy|Hy]; [done|].
  rewrite (proj2 (plain_spec _) (conj Hw Hy)) in Hn. done.
Qed.

(** A token: where it ends, what a word is, and that it is the line's. *)
Lemma gettoken_ok s : (s <= es)%nat -> exists ret q e s', gettoken buf es s = Ret (ret, (q, e)) s' /\
  q = skip buf es s /\ (q <= s' <= es)%nat /\ (ret = 97 -> okword (q, e)) /\ ((q < es)%nat -> (q < s')%nat) /\
  lx s = (if ret =? 0 then [] else [token ret (text_of buf (q, e))]) ++ lx s' /\
  (at_ q ∈ symbols -> ret = at_ q \/ (at_ q = 62 /\ ret = 43)).
Proof.
  intros Hs. destruct (skip_spec s Hs) as [Hq Hw]. rewrite <- (lx_skip s Hs). set (q := skip buf es s) in *.
  assert (forall ret e, (e <= es)%nat -> (q <= e)%nat -> (ret = 97 -> okword (q, e)) -> ((q < es)%nat -> (q < e)%nat) ->
    lx q = (if ret =? 0 then [] else [token ret (text_of buf (q, e))]) ++ lx e ->
    (at_ q ∈ symbols -> ret = at_ q \/ (at_ q = 62 /\ ret = 43)) ->
    exists ret' q' e' s', (_ ← lid <~ skip buf es e; mret (ret, (q, e))) s = Ret (ret', (q', e')) s' /\
    q' = q /\ (q' <= s' <= es)%nat /\ (ret' = 97 -> okword (q', e')) /\ ((q' < es)%nat -> (q' < s')%nat) /\
    lx q = (if ret' =? 0 then [] else [token ret' (text_of buf (q', e'))]) ++ lx s' /\
    (at_ q' ∈ symbols -> ret' = at_ q' \/ (at_ q' = 62 /\ ret' = 43))) as Hfin.
  { intros ret e He Hqe Hok Hlt Hlx Hsy. destruct (skip_spec e He) as [Hs' _].
    exists ret, q, e, (skip buf es e). rewrite lx_skip by done. split; [done|]. split; [done|]. split; [lia|]. split; [done|].
    split; [|done]. intros ?%Hlt. lia. }
  unfold gettoken. rewrite (bind_ret _ _ s s s) by done. fold q. cbv zeta.
  rewrite (bind_ret _ _ s _ s (chr_at q s ltac:(lia))).
  destruct (Z.eqb_spec (at_ q) 0) as [E0|E0].
  { rewrite (bind_ret _ _ s (at_ q, q) s) by done. apply Hfin; [lia|lia|by rewrite E0| |by rewrite E0|by left].
    intros Hlt. by destruct (at_text q Hlt). }
  assert (q < es)%nat as Hlt.
  { destruct (decide (q = es)) as [E|]; [|lia]. rewrite E, at_end in E0. done. }
  destruct (among (chars "|();&<") (at_ q)) eqn:Es.
  { rewrite (bind_ret _ _ s (at_ q, S q) s) by done. rewrite among_eq in Es by no_nul. apply bool_decide_eq_true in Es.
    assert (at_ q ∈ symbols /\ at_ q <> 62 /\ at_ q <> 97 /\ at_ q <> 43) as (Hsy & H62 & H97 & H43).
    { exact (proj1 (Forall_forall _ _) single_symbols _ Es). }
    apply Hfin; [lia|lia|done|lia| |by left].
    rewrite (proj2 (Z.eqb_neq _ _) E0), lx_symbol by (done || by left). unfold token.
    by rewrite (proj2 (Z.eqb_neq _ _) H97), (proj2 (Z.eqb_neq _ _) H43). }
  destruct (Z.eqb_spec (at_ q) 62) as [E62|E62].
  { rewrite (bind_ret _ _ s (if at_ (S q) =? 62 then (43, S (S q)) else (at_ q, S q)) s)
      by (by rewrite (bind_ret _ _ s _ s (chr_at (S q) s ltac:(lia)))).
    destruct (Z.eqb_spec (at_ (S q)) 62) as [E|E].
    - assert (S q < es)%nat as HSq by (destruct (decide (S q = es)) as [E'|]; [rewrite E', at_end in E; done|lia]).
      apply Hfin; [lia|lia|done|lia|by apply lx_append|by right].
    - apply Hfin; [lia|lia|by rewrite E62|lia| |by left]. rewrite E62. cbn [Z.eqb Pos.eqb token].
      rewrite lx_symbol; [by rewrite E62|done| |by right]. rewrite E62. apply (bool_decide_unpack _). vm_compute. exact I. }
  rewrite (bind_ret _ _ s (97, span buf plain (es - q) q) s) by done.
  destruct (span_spec plain (es - q) q) as (k & -> & Hk & Hp & Hn).
  assert (plain (at_ q) = true) as Hpq.
  { unfold plain. rewrite (Hw Hlt). cbn. apply negb_true_iff.
    destruct (among symbols (at_ q)) eqn:E; [|done]. exfalso.
    rewrite among_eq in E, Es by no_nul. apply bool_decide_eq_true in E. apply bool_decide_eq_false in Es.
    revert E Es E62. unfold symbols. cbn. rewrite !elem_of_cons, elem_of_nil. tauto. }
  assert (0 < k)%nat as Hk0.
  { destruct k as [|k]; [|lia]. rewrite Nat.add_0_r in Hn. rewrite (Hn ltac:(lia)) in Hpq. done. }
  apply Hfin; [lia|lia| |lia| |].
  - intros _. split; [lia|]. split; [done|]. intros ?. apply Hn. lia.
  - apply lx_word; [done|lia|done|]. intros ?. apply Hn. lia.
  - intros Hsy. by apply plain_spec in Hpq as [_ Hns].
Qed.
Lemma peek_ok toks s : (s <= es)%nat -> let q := skip buf es s in
  peek buf es toks s = Ret (truth (at_ q) && among toks (at_ q)) q /\ (s <= q <= es)%nat /\ skip buf es q = q.
Proof.
  intros Hs q. destruct (skip_spec s Hs) as [Hq Hw]. fold q in Hq, Hw. split; [|split; [done|]].
  - unfold peek. rewrite (bind_ret _ _ s s s) by done. rewrite (bind_ret _ _ s tt q) by done. fold q.
    by rewrite (bind_ret _ _ q _ q (chr_at q q ltac:(lia))).
  - unfold skip at 1. destruct (es - q)%nat eqn:E; [done|]. cbn. change (default 0 (buf !! q)) with (at_ q).
    by rewrite Hw by lia.
Qed.
(** After a [peek] that says yes the next token is the symbol it has seen. *)
Lemma ends_peek {A} toks (f : bool -> M nat A) Q s : (s <= es)%nat ->
  (forall s', (s <= s' <= es)%nat -> lx s = lx s' -> ends (f false) Q s') ->
  (forall s', (s <= s' < es)%nat -> lx s = lx s' -> skip buf es s' = s' -> at_ s' ∈ toks -> ends (f true) Q s') ->
  ends (b ← peek buf es toks; f b) Q s.
Proof.
  intros Hs Hf Ht. destruct (peek_ok toks s Hs) as (E & Hq & Hi). apply ends_bind. eapply ends_eq; [exact E|].
  pose proof (eq_sym (lx_skip s Hs)) as Hlx.
  destruct (truth (at_ (skip buf es s)) && among toks (at_ (skip buf es s))) eqn:Eb; [|by apply Hf].
  apply andb_true_iff in Eb as [E0 Ha]. assert (at_ (skip buf es s) <> 0) as Hne by (by intros H; rewrite H in E0).
  apply Ht; [|done|done|by apply among_in]. destruct (decide (skip buf es s = es)) as [E'|]; [|lia]. by rewrite E', at_end in Hne.
Qed.
Lemma ends_token {A} (f : Z * (nat * nat) -> M nat A) Q s : (s <= es)%nat ->
  (forall ret w s', (s <= s' <= es)%nat -> (ret = 97 -> okword w) ->
     (skip buf es s = s -> (s < es)%nat -> (s < s')%nat) ->
     lx s = (if ret =? 0 then [] else [token ret (text_of buf w)]) ++ lx s' ->
     (skip buf es s = s -> at_ s ∈ symbols -> ret = at_ s \/ (at_ s = 62 /\ ret = 43)) -> ends (f (ret, w)) Q s') ->
  ends (t ← gettoken buf es; f t) Q s.
Proof.
  intros Hs Hf. destruct (gettoken_ok s Hs) as (ret & q & e & s' & E & -> & Hs' & Hw & Hlt & Hlx & Hk).
  destruct (skip_spec s Hs) as [Hq _]. apply ends_bind. eapply ends_eq; [exact E|].
  apply Hf; [lia|done| |done|]; intros Hi; rewrite Hi in Hlt, Hk; tauto.
Qed.
(** The next token is the symbol [c]. *)
Lemma ends_op {A} c (f : Z * (nat * nat) -> M nat A) Q s : (s < es)%nat -> skip buf es s = s -> at_ s ∈ [c] ->
  c ∈ symbols -> c <> 62 -> (forall w s', (s < s' <= es)%nat -> lx s = Op c :: lx s' -> ends (f (c, w)) Q s') ->
  ends (t ← gettoken buf es; f t) Q s.
Proof.
  intros Hs Hi Ha%list_elem_of_singleton Hc H62 Hf. apply ends_token; [lia|]. intros ret w s' Hs' _ Hlt Hlx Hk.
  specialize (Hlt Hi Hs). rewrite Ha in Hk. destruct (Hk Hi Hc) as [->|[? _]]; [|done].
  destruct (proj1 (Forall_forall _ _) symbols_kinds _ Hc) as (H0 & H97 & H43).
  apply Hf; [lia|]. rewrite Hlx, (proj2 (Z.eqb_neq _ _) H0). unfold token.
  by rewrite (proj2 (Z.eqb_neq _ _) H97), (proj2 (Z.eqb_neq _ _) H43).
Qed.

(** * The trees the parser makes *)

Section Tree.
Context {A : Type} (P : A -> Prop).
Fixpoint wf (c : cmd A) : Prop :=
  match c with
  | EXEC argv => (length argv < MAXARGS)%nat /\ Forall P argv
  | REDIR c f _ _ => wf c /\ P f
  | PIPE l r | LIST l r => wf l /\ wf r
  | BACK c => wf c
  end.
(** The arguments of the EXEC node under the redirections. *)
Fixpoint leaf_args (c : cmd A) : option (list A) :=
  match c with EXEC argv => Some argv | REDIR c _ _ _ => leaf_args c | _ => None end.
End Tree.
Lemma add_arg_ok {A} (P : A -> Prop) c argv w : leaf_args c = Some argv -> (S (length argv) < MAXARGS)%nat -> wf P c -> P w ->
  leaf_args (add_arg c w) = Some (argv ++ [w]) /\ wf P (add_arg c w).
Proof.
  induction c as [a|c IH f mode fd| | |]; cbn; intros E Hl Hc Hw; simplify_eq; try done.
  - split; [done|]. rewrite length_app. cbn. split; [lia|]. apply Forall_app. by repeat constructor; [apply Hc|].
  - destruct Hc as [Hc Hf]. by destruct (IH E Hl Hc Hw).
Qed.

Abbreviation texts c := (cmd_map (text_of buf) c).
Lemma texts_add c w : texts (add_arg c w) = add_arg (texts c) (text_of buf w).
Proof. induction c as [a|c IH f mode fd| | |]; cbn; [by rewrite map_app|by rewrite IH|done..]. Qed.

(** From [s] a tree [c] is read that is one of [G] for the tokens up to [s']. *)
Definition went (G : cmd (list Z) -> list tok -> Prop) (s : nat) (c : cmd (nat * nat)) (s' : nat) : Prop :=
  wf okword c /\ (s <= s' <= es)%nat /\ exists ts, G (texts c) ts /\ lx s = ts ++ lx s'.

Lemma redirs_ok n c s argv : (s <= es)%nat -> (es - s < n)%nat -> wf okword c ->
  ends (parseredirs buf es n c) (fun c' s' => went (redirs_of (texts c)) s c' s' /\ (leaf_args c = argv -> leaf_args c' = argv)) s.
Proof.
  intros Hs Hn Hc. unfold parseredirs.
  apply (ends_loop _ (fun c' s' => went (redirs_of (texts c)) s c' s' /\ (leaf_args c = argv -> leaf_args c' = argv))
    (fun s' => es - s')%nat); [split; [|done]; split; [done|split; [lia|]]; by exists []; repeat constructor|lia|].
  intros c1 s1 [(Hw & Hs1 & us & Hr & El) Ha]. unfold redirs_turn. apply ends_peek; [lia| |].
  - intros s2 Hs2 E2. apply ends_mret. split; [|done]. split; [done|split; [lia|]]. exists us. by rewrite El, E2.
  - intros s2 Hs2 E2 Hi Hop. apply ends_token; [lia|]. intros tok w2 s3 Hs3 _ Hlt E3 Hk. specialize (Hlt Hi ltac:(lia)).
    assert (tok = 60 \/ tok = 62 \/ tok = 43) as Htok.
    { apply elem_of_cons in Hop as [Hop|[Hop|[]%elem_of_nil]%elem_of_cons]; rewrite Hop in Hk;
        (destruct (Hk Hi) as [->|[_ ->]]; [apply (bool_decide_unpack _); vm_compute; exact I|tauto..]). }
    apply ends_token; [lia|]. intros kind w s4 Hs4 Hw4 _ E4 _. destruct (Z.eqb_spec kind 97) as [->|]; [|done]. cbn [negb].
    apply ends_mret. split; [|lia]. specialize (Hw4 eq_refl). cbn [Z.eqb Pos.eqb token] in E4.
    destruct Htok as [->|[->| ->]]; (split; [|done]); (split; [done|split; [lia|]]);
      match goal with E : lx s2 = (if ?t =? 0 then [] else _) ++ _ |- _ => exists (us ++ [token t (text_of buf w2); Word (text_of buf w)]) end;
      (split; [by apply R_more|]); rewrite El, E2, E3, E4, <- app_assoc; done.
Qed.

Lemma args_ok n s : (s <= es)%nat -> (es - s < n)%nat -> ends (parseargs buf es n) (went args_of s) s.
Proof.
  intros Hs Hn. unfold parseargs. apply ends_bind. eapply ends_mono.
  { apply (redirs_ok n _ s (Some [])); [done|done|]. split; [unfold MAXARGS; cbn; lia|constructor]. }
  intros c s1 [(Hc & Hs1 & us & Hr & El) Ha]. specialize (Ha eq_refl).
  pose proof (args_redirs _ _ _ _ A_none Hr) as Hg. cbn [app] in Hg.
  apply (ends_loop _ (fun '(k, c') s' => went args_of s c' s' /\ (k < MAXARGS)%nat /\
    exists argv, leaf_args c' = Some argv /\ length argv = k) (fun s' => es - s')%nat);
    [split; [split; [done|split; [lia|by exists us]]|split; [unfold MAXARGS; lia|by exists []]]|lia|].
  clear us Hr El Hg. intros [k c1] s2 [(Hw & Hs2 & ts & Hg & El) [Hk (argv & Ea & Ek)]]. unfold args_turn. apply ends_peek; [lia| |].
  2:{ intros s3 Hs3 E3 _ _. apply ends_mret. split; [done|split; [lia|]]. exists ts. by rewrite El, E3. }
  intros s3 Hs3 E3. destruct (gettoken_ok s3) as (ret & q & e & s4 & E & Eq & Hs4 & Hw4 & Hlt & E4 & _); [lia|].
  destruct (skip_spec s3 ltac:(lia)) as [Hq _]. apply ends_bind. eapply ends_eq; [exact E|]. cbn beta iota.
  destruct (Z.eqb_spec ret 0) as [->|Hr].
  { apply ends_mret. split; [done|split; [lia|]]. exists ts. by rewrite El, E3, E4. }
  destruct (Z.eqb_spec ret 97) as [->|]; [|done]. cbn [negb]. specialize (Hw4 eq_refl). cbn [Z.eqb Pos.eqb token] in E4.
  assert (q < es)%nat as Hqe by (destruct Hw4 as [? _]; lia). specialize (Hlt Hqe).
  destruct (decide (MAXARGS <= S k)%nat) as [Hle|Hgt]; [by rewrite (proj2 (Nat.leb_le _ _) Hle)|].
  rewrite (proj2 (Nat.leb_gt _ _)) by lia.
  destruct (add_arg_ok okword c1 argv (q, e) Ea ltac:(lia) Hw Hw4) as [Ea' Hw'].
  apply ends_bind. eapply ends_mono; [apply (redirs_ok n _ s4 (Some (argv ++ [(q, e)]))); [lia|lia|done]|].
  intros c2 s5 [(Hw5 & Hs5 & us & Hr5 & E5) Ha5]. apply ends_mret. split; [|lia]. split.
  - split; [done|split; [lia|]]. exists ((ts ++ [Word (text_of buf (q, e))]) ++ us). split.
    + eapply args_redirs; [|exact Hr5]. rewrite texts_add. by constructor.
    + rewrite El, E3, E4, E5, <- !app_assoc. done.
  - split; [lia|]. exists (argv ++ [(q, e)]). split; [by apply Ha5|]. rewrite length_app. cbn. lia.
Qed.

Lemma symbol_in c : bool_decide (c ∈ symbols) = true -> c ∈ symbols.
Proof. apply bool_decide_eq_true_1. Qed.
(** Enough fuel for a parser that has not passed [s]: four calls a character. *)
Lemma parse_ok n : forall s, (s <= es)%nat ->
  ((4 * (es - s) + 4 <= n)%nat -> ends (parseline buf es n) (went line_of s) s) /\
  ((4 * (es - s) + 3 <= n)%nat -> ends (parsepipe buf es n) (went pipe_of s) s) /\
  ((4 * (es - s) + 2 <= n)%nat -> ends (parseexec buf es n) (went exec_of s) s) /\
  ((4 * (es - s) + 1 <= n)%nat -> forall s0, skip buf es s = s -> (s < es)%nat -> at_ s ∈ [40] -> (s0 <= s)%nat -> lx s0 = lx s ->
     ends (parseblock buf es n) (went exec_of s0) s).
Proof.
  induction n as [|n IH]; intros s Hs; [repeat split; lia|]. destruct (IH s Hs) as (_ & IHp & IHe & IHb).
  split; [|split; [|split]].
  - intros Hn. cbn [parseline]. apply ends_bind. eapply ends_mono; [apply IHp; lia|]. intros c s1 (Hc & Hs1 & ts & Hg & E1).
    apply ends_bind. apply (ends_mono _ (went bg_of s)).
    { apply (ends_loop _ (went bg_of s) (fun s' => es - s')%nat);
        [split; [done|split; [lia|]]; exists ts; by split; [constructor|]|lia|]. clear ts Hg E1.
      intros c1 s2 (Hw & Hs2 & ts & Hg & E2). unfold back_turn. apply ends_peek; [lia| |].
      - intros s3 Hs3 E3. apply ends_mret. split; [done|split; [lia|]]. exists ts. by rewrite E2, E3.
      - intros s3 Hs3 E3 Hi Ha. apply (ends_op 38); [lia|done|done|by apply symbol_in|done|]. intros w s4 Hs4 E4.
        apply ends_mret. split; [|lia]. split; [done|split; [lia|]]. exists (ts ++ [Op 38]).
        split; [by constructor|]. by rewrite E2, E3, E4, <- app_assoc. }
    clear ts Hg E1. intros c1 s2 (Hc1 & Hs2 & ts & Hg & E2). apply ends_peek; [lia| |].
    + intros s3 Hs3 E3. apply ends_mret. split; [done|split; [lia|]]. exists ts. split; [by constructor|]. by rewrite E2, E3.
    + intros s3 Hs3 E3 Hi Ha. apply (ends_op 59); [lia|done|done|by apply symbol_in|done|]. intros w s4 Hs4 E4.
      apply ends_bind. eapply ends_mono; [apply (IH s4); lia|]. intros r s5 (Hr & Hs5 & us & Hu & E5).
      apply ends_mret. split; [done|split; [lia|]]. exists (ts ++ Op 59 :: us). split; [by constructor|].
      by rewrite E2, E3, E4, E5, <- app_assoc.
  - intros Hn. cbn [parsepipe]. apply ends_bind. eapply ends_mono; [apply IHe; lia|]. intros c s1 (Hc & Hs1 & ts & Hg & E1).
    apply ends_peek; [lia| |].
    + intros s3 Hs3 E3. apply ends_mret. split; [done|split; [lia|]]. exists ts. split; [by constructor|]. by rewrite E1, E3.
    + intros s3 Hs3 E3 Hi Ha. apply (ends_op 124); [lia|done|done|by apply symbol_in|done|]. intros w s4 Hs4 E4.
      apply ends_bind. eapply ends_mono; [apply (IH s4); lia|]. intros r s5 (Hr & Hs5 & us & Hu & E5).
      apply ends_mret. split; [done|split; [lia|]]. exists (ts ++ Op 124 :: us). split; [by constructor|].
      by rewrite E1, E3, E4, E5, <- app_assoc.
  - intros Hn. cbn [parseexec]. apply ends_peek; [lia| |].
    + intros s3 Hs3 E3. eapply ends_mono; [apply args_ok; lia|]. intros c s4 (Hc & Hs4 & ts & Hg & E4).
      split; [done|split; [lia|]]. exists ts. split; [by constructor|]. by rewrite E3, E4.
    + intros s3 Hs3 E3 Hi Ha. apply (IH s3); [lia|lia|done|lia|done|lia|done].
  - intros Hn s0 Hi Hlt Ha Hs0 E0. cbn [parseblock]. apply ends_peek; [lia|done|]. intros s1 Hs1 E1 Hi1 Ha1. cbn [negb].
    apply (ends_op 40); [lia|done|done|by apply symbol_in|done|]. intros w s2 Hs2 E2.
    apply ends_bind. eapply ends_mono; [apply (IH s2); lia|]. intros c s3 (Hc & Hs3 & ts & Hg & E3).
    apply ends_peek; [lia|done|]. intros s4 Hs4 E4 Hi4 Ha4. cbn [negb].
    apply (ends_op 41); [lia|done|done|by apply symbol_in|done|]. intros w' s5 Hs5 E5.
    eapply ends_mono; [apply (redirs_ok n c s5 None); [lia|lia|done]|].
    intros c' s6 [(Hc' & Hs6 & us & Hu & E6) _]. split; [done|split; [lia|]]. exists (Op 40 :: ts ++ Op 41 :: us).
    split; [by apply (E_block (texts c))|]. rewrite E0, E1, E2, E3, E4, E5, E6. cbn [app]. by rewrite <- app_assoc.
Qed.
Lemma parseall_ok n : (4 * es + 4 <= n)%nat ->
  ends (parseall buf es n) (fun c s' => wf okword c /\ line_of (texts c) (lx 0)) 0%nat.
Proof.
  intros Hn. unfold parseall. apply ends_bind. eapply ends_mono; [apply (parse_ok n 0); lia|]. intros c s (Hc & Hs & ts & Hg & E).
  apply ends_bind. destruct (peek_ok [] s) as (Ep & Hq & _); [lia|]. eapply ends_eq; [exact Ep|].
  apply ends_bind. eapply ends_eq; [done|]. change (view lid (skip buf es s)) with (skip buf es s). destruct (Nat.eqb_spec (skip buf es s) es) as [Ee|]; cbn [negb]; [|done].
  apply ends_mret. split; [done|]. rewrite E, <- (lx_skip s) by lia. rewrite Ee, lx_end, app_nil_r by done. exact Hg.
Qed.
End Line.

(** * NUL-terminated words *)

Fixpoint words {A} (c : cmd A) : list A :=
  match c with
  | EXEC argv => argv
  | REDIR c w _ _ => words c ++ [w]
  | PIPE l r | LIST l r => words l ++ words r
  | BACK c => words c
  end.
Lemma wf_words {A} (P : A -> Prop) c : wf P c -> Forall P (words c).
Proof.
  induction c as [a|c IH f mode fd|l IHl r IHr|l IHl r IHr|c IH]; cbn.
  - tauto.
  - intros [H1%IH H2]. apply Forall_app. by repeat constructor.
  - intros [H1%IHl H2%IHr]. by apply Forall_app.
  - intros [H1%IHl H2%IHr]. by apply Forall_app.
  - done.
Qed.
Lemma wf_map {A B} (P : A -> Prop) (Q : B -> Prop) (f : A -> B) c : wf P c -> (forall w, P w -> Q (f w)) -> wf Q (cmd_map f c).
Proof.
  intros Hc Hf. induction c as [a|c IH w mode fd|l IHl r IHr|l IHl r IHr|c IH]; cbn in *.
  - rewrite length_map. split; [tauto|]. apply Forall_map. eapply Forall_impl; [apply Hc|]. done.
  - split; [tauto|]. apply Hf. tauto.
  - split; tauto.
  - split; tauto.
  - tauto.
Qed.

Lemma nul_length c : forall b, length (nulterminate c b) = length b.
Proof.
  induction c as [a|c IH w mode fd|l IHl r IHr|l IHl r IHr|c IH]; intros b; cbn; rewrite ?length_insert; auto.
  - revert b. induction a as [|w a IH]; intros b; [done|]. cbn. by rewrite IH, length_insert.
  - by rewrite IHr, IHl.
  - by rewrite IHr, IHl.
Qed.
Lemma nul_keep c i : forall b, (forall w, w ∈ words c -> w.2 <> i) -> nulterminate c b !! i = b !! i.
Proof.
  induction c as [a|c IH w mode fd|l IHl r IHr|l IHl r IHr|c IH]; intros b Hi; cbn in *.
  - revert b. induction a as [|w a IH]; intros b; [done|]. cbn. rewrite IH by (intros; apply Hi; by right).
    apply list_lookup_insert_ne, Hi. by left.
  - rewrite list_lookup_insert_ne by (apply Hi, elem_of_app; right; by left). apply IH. intros v Hv. apply Hi, elem_of_app. by left.
  - rewrite IHr, IHl; [done|intros v Hv; apply Hi, elem_of_app; by left|intros v Hv; apply Hi, elem_of_app; by right].
  - rewrite IHr, IHl; [done|intros v Hv; apply Hi, elem_of_app; by left|intros v Hv; apply Hi, elem_of_app; by right].
  - by apply IH.
Qed.
Lemma insert_zero (b : list Z) i j : b !! i = Some 0 -> <[j := 0]> b !! i = Some 0.
Proof.
  intros Hb. destruct (decide (j = i)) as [->|Hne]; [|by rewrite list_lookup_insert_ne].
  apply list_lookup_insert_eq. by eapply lookup_lt_Some.
Qed.
Lemma nul_zero c i : forall b, b !! i = Some 0 -> nulterminate c b !! i = Some 0.
Proof.
  induction c as [a|c IH w mode fd|l IHl r IHr|l IHl r IHr|c IH]; intros b Hb; cbn; auto using insert_zero.
  revert b Hb. induction a as [|w a IH]; intros b Hb; [done|]. cbn. by apply IH, insert_zero.
Qed.
Lemma nul_hit c w : forall b, w ∈ words c -> (w.2 < length b)%nat -> nulterminate c b !! w.2 = Some 0.
Proof.
  induction c as [a|c IH v mode fd|l IHl r IHr|l IHl r IHr|c IH]; intros b Hin Hlt; cbn in *.
  - revert b Hlt. induction a as [|v a IH]; intros b Hlt; [by apply elem_of_nil in Hin|]. cbn.
    apply elem_of_cons in Hin as [->|Hin]; [|apply IH; [done|by rewrite length_insert]].
    apply (nul_zero (EXEC a)). by apply list_lookup_insert_eq.
  - apply elem_of_app in Hin as [Hin|[->|[]%elem_of_nil]%elem_of_cons].
    + by apply insert_zero, IH.
    + apply list_lookup_insert_eq. by rewrite nul_length.
  - apply elem_of_app in Hin as [Hin|Hin]; [by apply nul_zero, IHl|by apply IHr; [|rewrite nul_length]].
  - apply elem_of_app in Hin as [Hin|Hin]; [by apply nul_zero, IHl|by apply IHr; [|rewrite nul_length]].
  - by apply IH.
Qed.

Lemma cstr_at (b : list Z) k : forall q, (forall i, (q <= i < q + k)%nat -> exists c, b !! i = Some c /\ c <> 0) ->
  b !! (q + k)%nat = Some 0 -> cstr (drop q b) = take k (drop q b).
Proof.
  induction k as [|k IH]; intros q Hc H0.
  - rewrite Nat.add_0_r in H0. by rewrite (drop_S _ _ _ H0).
  - destruct (Hc q ltac:(lia)) as (c & E & Hne). rewrite (drop_S _ _ _ E). cbn [cstr take].
    rewrite (proj2 (Z.eqb_neq c 0)) by done. f_equal. apply IH; [intros i Hi; apply Hc; lia|].
    by replace (S q + k)%nat with (q + S k)%nat by lia.
Qed.

Definition isword (w : list Z) : Prop := w <> [] /\ Forall (fun c => plain c = true /\ c <> 0) w.

Lemma okword_text buf es w : line_ok buf es -> okword buf es w -> isword (text_of buf w).
Proof.
  destruct w as [q e]. intros Hl ([Hq He] & Hp & _). unfold text_of. cbn. split.
  - intros E. apply (f_equal length) in E. rewrite length_take, length_drop in E. cbn in E.
    pose proof (lookup_lt_Some _ _ _ (ln_end _ _ Hl)). lia.
  - apply Forall_lookup. intros i c E. apply lookup_take_Some in E as [E Hi]. rewrite lookup_drop in E.
    assert (at_ buf (q + i) = c) as <- by (unfold at_; by rewrite E).
    split; [apply Hp; lia|]. apply (at_text buf es Hl). lia.
Qed.
(** Cutting off the words leaves each of them as it was in the line. *)
Lemma word_terminated buf es c w : line_ok buf es -> wf (okword buf es) c -> w ∈ words c ->
  word_at (nulterminate c buf) w = text_of buf w.
Proof.
  intros Hl Hc Hin. pose proof (wf_words _ _ Hc) as Hw. rewrite Forall_forall in Hw.
  pose proof (Hw w Hin) as Hok. destruct w as [q e]. destruct Hok as ([Hq He] & Hp & _).
  pose proof (lookup_lt_Some _ _ _ (ln_end _ _ Hl)) as Hlen.
  assert (forall i, (q <= i < e)%nat -> nulterminate c buf !! i = buf !! i) as Hkeep.
  { intros i Hi. apply nul_keep. intros [q' e'] Hin' E. cbn in E. subst e'.
    destruct (Hw _ Hin') as (_ & _ & Hn). rewrite (Hp i Hi) in Hn. discriminate Hn. lia. }
  unfold word_at, text_of. cbn [fst snd]. rewrite (cstr_at _ (e - q)).
  - apply list_eq. intros i. destruct (decide (i < e - q)%nat).
    + rewrite !lookup_take_lt, !lookup_drop by done. apply Hkeep. lia.
    + rewrite !lookup_take_ge by lia. done.
  - intros i Hi. rewrite Hkeep by lia. apply (ln_text _ _ Hl). lia.
  - replace (q + (e - q))%nat with e by lia. apply (nul_hit c (q, e)); [done|cbn; lia].
Qed.

Lemma cmd_map_ext {A B} (f g : A -> B) c : (forall w, w ∈ words c -> f w = g w) -> cmd_map f c = cmd_map g c.
Proof.
  induction c as [a|c IH w mode fd|l IHl r IHr|l IHl r IHr|c IH]; cbn; intros H.
  - f_equal. apply map_ext_in. intros w Hw%list_elem_of_In. by apply H.
  - rewrite IH, (H w); [done|apply elem_of_app; right; by left|intros v Hv; apply H, elem_of_app; by left].
  - rewrite IHl, IHr; [done|intros v Hv; apply H, elem_of_app; by right|intros v Hv; apply H, elem_of_app; by left].
  - rewrite IHl, IHr; [done|intros v Hv; apply H, elem_of_app; by right|intros v Hv; apply H, elem_of_app; by left].
  - by rewrite IH.
Qed.
Lemma line_line line junk : Forall (fun c => c <> 0) line -> line_ok (line ++ 0 :: junk) (length line).
Proof.
  intros Hl. rewrite Forall_forall in Hl. split.
  - by rewrite lookup_app_r, Nat.sub_diag by done.
  - intros i Hi. destruct (lookup_lt_is_Some_2 line i Hi) as [c E]. exists c. rewrite lookup_app_l by done.
    split; [done|]. by apply Hl, (list_elem_of_lookup_2 _ _ _ E).
Qed.
Lemma ustrlen_line line junk : Forall (fun c => c <> 0) line -> ustrlen (line ++ 0 :: junk) = Some (Z.of_nat (length line)).
Proof.
  induction 1 as [|c line Hc Hl IH]; [done|]. cbn [app ustrlen]. rewrite (proj2 (Z.eqb_neq c 0)) by done.
  rewrite IH. cbn. f_equal. lia.
Qed.
Lemma parsecmd_eq line junk fuel : Forall (fun c => c <> 0) line ->
  parsecmd fuel (line ++ 0 :: junk) =
  match parseall (line ++ 0 :: junk) (length line) fuel 0%nat with
  | Ret c _ => Ret c (nulterminate c (line ++ 0 :: junk))
  | Panic msg => Panic msg
  | Undef why => Undef why
  | _ => NoFuel
  end.
Proof.
  intros Hl. unfold parsecmd. rewrite (bind_ret _ _ (line ++ 0 :: junk) (line ++ 0 :: junk) (line ++ 0 :: junk)) by done.
  rewrite ustrlen_line by done.
  rewrite (bind_ret _ _ (line ++ 0 :: junk) (Z.of_nat (length line)) (line ++ 0 :: junk)) by done.
  rewrite Nat2Z.id. by destruct (parseall _ _ _ _).
Qed.

(** C40. On any line the parser ends: with a message, or with a tree that says
    what the line says.  The tree is one that the grammar ([line_of]) has for
    exactly the tokens of the line ([lex]), all of them and in their order: its
    words are the line's words, its redirections, bars, semicolons and
    ampersands the line's.  It is well formed (fewer than MAXARGS arguments a
    command, as its array has to keep room for the null pointer), and every word
    of it, once NUL-terminated, is a nonempty string without blanks and symbols
    and is the text between its two pointers in the line: cutting off one word
    never damages another. *)
Theorem parsecmd_words (line junk : list Z) (fuel : nat) :
  Forall (fun c => c <> 0) line -> (4 * length line + 4 <= fuel)%nat ->
  match parsecmd fuel (line ++ 0 :: junk) with
  | Ret c buf' => line_of (cmd_map (word_at buf') c) (lex [] line) /\ wf isword (cmd_map (word_at buf') c) /\
      cmd_map (word_at buf') c = cmd_map (text_of (line ++ 0 :: junk)) c /\ length buf' = length (line ++ 0 :: junk)
  | Panic _ => True
  | _ => False
  end.
Proof.
  intros Hl Hfuel. rewrite parsecmd_eq by done. pose proof (line_line line junk Hl) as Hline.
  pose proof (parseall_ok _ _ Hline fuel Hfuel) as He. unfold ends in He.
  destruct (parseall _ _ _ _) as [c s| | | |]; try done. set (buf := line ++ 0 :: junk) in *. destruct He as [He Hg].
  assert (cmd_map (word_at (nulterminate c buf)) c = cmd_map (text_of buf) c) as E.
  { apply cmd_map_ext. intros w Hw. by apply (word_terminated buf (length line)). }
  rewrite E. split; [|split; [|split; [done|apply nul_length]]].
  - unfold lx, buf in Hg. by rewrite take_app_length in Hg.
  - eapply wf_map; [exact He|]. intros w Hw. by apply (okword_text buf (length line)).
Qed.
Example parsecmd_words_witness :
  match parsecmd 200 (chars "ls a >b | (wc -l; x) &" ++ 0 :: [7; 7]) with
  | Ret c buf' => line_of (cmd_map (word_at buf') c) (lex [] (chars "ls a >b | (wc -l; x) &")) /\ wf isword (cmd_map (word_at buf') c) /\
      cmd_map (word_at buf') c = cmd_map (text_of (chars "ls a >b | (wc -l; x) &" ++ 0 :: [7; 7])) c /\
      length buf' = length (chars "ls a >b | (wc -l; x) &" ++ 0 :: [7; 7])
  | Panic _ => True
  | _ => False
  end.
Proof.
  assert (Forall (fun c => c <> 0) (chars "ls a >b | (wc -l; x) &")) as Hl
    by (apply (bool_decide_unpack _); vm_compute; exact I).
  assert (4 * length (chars "ls a >b | (wc -l; x) &") + 4 <= 200)%nat as Hf by (vm_compute; lia).
  exact (parsecmd_words (chars "ls a >b | (wc -l; x) &") [7; 7] 200 Hl Hf).
Defined.
(** The tokens of that line. *)
Example demo_lex : lex [] (chars "ls a>>b | (wc -l; x) &") =
  [Word (chars "ls"); Word (chars "a"); Append; Word (chars "b"); Op 124; Op 40; Word (chars "wc"); Word (chars "-l");
   Op 59; Word (chars "x"); Op 41; Op 38].
Proof. by vm_compute. Qed.

(** * Commands as they are written *)

(** Tokens, with a blank before each. *)
Definition tok_text (t : tok) : list Z := match t with Word w => w | Op c => [c] | Append => [62; 62] end.
Definition flat (ts : list tok) : list Z := concat (map (fun t => 32 :: tok_text t) ts).
Definition tok_ok (t : tok) : Prop := match t with Word w => isword w | Op c => c ∈ symbols | Append => True end.
Definition kind (t : tok) : Z := match t with Word _ => 97 | Op c => c | Append => 43 end.
Definition first (t : tok) : Z := hd 0 (tok_text t).

Definition redir_tok (mode fd : Z) : tok :=
  if fd =? 0 then Op 60 else if mode =? Z.lor (Z.lor O_WRONLY O_CREATE) O_TRUNC then Op 62 else Append.
Definition redir_toks (r : list Z * Z * Z) : list tok := let '(f, mode, fd) := r in [redir_tok mode fd; Word f].
Definition paren (b : bool) (ts : list tok) : list tok := if b then Op 40 :: ts ++ [Op 41] else ts.
(** The tokens of a command where the grammar wants: 0, a command or a block;
    1, a pipeline; 2, pipelines in the background; 3, a line. *)
Fixpoint toks (lv : nat) (c : cmd (list Z)) : list tok :=
  match c with
  | EXEC argv => map Word argv
  | REDIR c f mode fd => toks 0 c ++ redir_toks (f, mode, fd)
  | PIPE l r => paren (lv <? 1)%nat (toks 0 l ++ Op 124 :: toks 1 r)
  | BACK c => paren (lv <? 2)%nat (toks 2 c ++ [Op 38])
  | LIST l r => paren (lv <? 3)%nat (toks 2 l ++ Op 59 :: toks 3 r)
  end.
(** The line for a command. *)
Definition render (c : cmd (list Z)) : list Z := flat (toks 3 c).
(** The redirections the shell has. *)
Definition redir_ok (mode fd : Z) : Prop :=
  (mode = O_RDONLY /\ fd = 0) \/
  (fd = 1 /\ (mode = Z.lor (Z.lor O_WRONLY O_CREATE) O_TRUNC \/ mode = Z.lor (Z.lor O_WRONLY O_CREATE) O_APPEND)).
Fixpoint redirs_wf {A} (c : cmd A) : Prop :=
  match c with
  | EXEC _ => True
  | REDIR c _ mode fd => redirs_wf c /\ redir_ok mode fd
  | PIPE l r | LIST l r => redirs_wf l /\ redirs_wf r
  | BACK c => redirs_wf c
  end.

Section RoundTrip.
Context (buf : list Z) (es : nat) (Hline : line_ok buf es).

(** What is left of the line at a pointer. *)
Definition rest (s : nat) : list Z := take (es - s) (drop s buf).
Definition strip (ts : list tok) : list Z := match ts with [] => [] | t :: ts => tok_text t ++ flat ts end.
(** Behind the blanks, the tokens [ts] are left. *)
Definition here (s : nat) (ts : list tok) : Prop :=
  (s <= es)%nat /\ Forall tok_ok ts /\ rest (skip buf es s) = strip ts.

Lemma rest_cons s c r : (s <= es)%nat -> rest s = c :: r -> (s < es)%nat /\ at_ buf s = c /\ rest (S s) = r.
Proof.
  intros Hs. unfold rest. destruct (es - s)%nat as [|k] eqn:Ek; [done|]. intros E.
  destruct (ln_text _ _ Hline s ltac:(lia)) as (x & Ex & _). rewrite (drop_S _ _ _ Ex) in E. cbn in E. injection E as -> <-.
  split; [lia|]. split; [unfold at_; by rewrite Ex|]. f_equal. lia.
Qed.
Lemma rest_nil s : (s <= es)%nat -> rest s = [] -> s = es.
Proof.
  intros Hs. destruct (decide (s = es)) as [|Hne]; [done|]. unfold rest. destruct (es - s)%nat as [|k] eqn:Ek; [lia|].
  destruct (ln_text _ _ Hline s ltac:(lia)) as (x & Ex & _). by rewrite (drop_S _ _ _ Ex).
Qed.
Lemma rest_end : rest es = [].
Proof. unfold rest. by rewrite Nat.sub_diag. Qed.
Lemma rest_app w r : forall s, (s <= es)%nat -> rest s = w ++ r ->
  (s + length w <= es)%nat /\ rest (s + length w) = r /\ (forall i, (i < length w)%nat -> w !! i = Some (at_ buf (s + i))) /\
  take (length w) (drop s buf) = w.
Proof.
  induction w as [|c w IH]; intros s Hs E.
  - cbn in *. rewrite Nat.add_0_r. repeat split; [done|done|lia].
  - destruct (rest_cons s c (w ++ r) Hs E) as (Hlt & Hc & E'). destruct (IH (S s) ltac:(lia) E') as (H1 & H2 & H3 & H4).
    cbn [length]. replace (s + S (length w))%nat with (S s + length w)%nat by lia.
    split; [lia|split; [done|split]].
    + intros [|i] Hi; cbn; [by rewrite Nat.add_0_r, Hc|]. rewrite H3 by lia. by replace (S s + i)%nat with (s + S i)%nat by lia.
    + destruct (ln_text _ _ Hline s Hlt) as (x & Ex & _). rewrite (drop_S _ _ _ Ex). cbn [take].
      unfold at_ in Hc. rewrite Ex in Hc. cbn in Hc. by rewrite Hc, H4.
Qed.

Lemma skip_white s r : (s <= es)%nat -> rest s = 32 :: r -> skip buf es s = skip buf es (S s).
Proof.
  intros Hs E. destruct (rest_cons s _ _ Hs E) as (Hlt & Hc & _). unfold skip.
  destruct (es - s)%nat as [|k] eqn:Ek; [lia|]. cbn [span]. change (default 0 (buf !! s)) with (at_ buf s). rewrite Hc.
  change (among whitespace 32) with true. cbn. f_equal. lia.
Qed.
Lemma skip_stop s c r : (s <= es)%nat -> rest s = c :: r -> among whitespace c = false -> skip buf es s = s.
Proof.
  intros Hs E Hw. destruct (rest_cons s _ _ Hs E) as (Hlt & Hc & _). unfold skip.
  destruct (es - s)%nat as [|k] eqn:Ek; [lia|]. cbn [span]. change (default 0 (buf !! s)) with (at_ buf s). by rewrite Hc, Hw.
Qed.
Lemma skip_end : skip buf es es = es.
Proof. unfold skip. by rewrite Nat.sub_diag. Qed.

Lemma tok_first t : tok_ok t -> exists c r, tok_text t = c :: r /\ among whitespace c = false /\ c <> 0.
Proof.
  destruct t as [w|c|]; cbn.
  - intros [Hne Hw]. destruct w as [|c w]; [done|]. apply Forall_cons in Hw as [[Hp Hc] _]. exists c, w.
    split; [done|]. split; [|done]. apply plain_spec in Hp as [Hp _]. rewrite among_eq by no_nul. by apply bool_decide_eq_false.
  - intros Hc. exists c, []. split; [done|]. assert (c <> 0 /\ among whitespace c = false) as [? ?]; [|done].
    pattern c. revert c Hc. apply Forall_forall. repeat constructor; done.
  - intros _. by exists 62, [62].
Qed.
(** Behind a token and its blank the next one is at hand. *)
Lemma here_flat e ts : (e <= es)%nat -> rest e = flat ts -> Forall tok_ok ts -> here e ts /\ here (skip buf es e) ts.
Proof.
  intros He E Ht. assert (here e ts /\ skip buf es (skip buf es e) = skip buf es e /\ (skip buf es e <= es)%nat) as (Hh & Hi & Hle).
  { unfold here. destruct ts as [|t ts]; cbn in E.
    - assert (e = es) as -> by (by apply rest_nil). by rewrite !skip_end, rest_end.
    - apply Forall_cons in Ht as [Ht Hts]. destruct (tok_first t Ht) as (c & r & Et & Hw & _). rewrite Et in E. cbn in E.
      destruct (rest_cons e _ _ He E) as (Hlt & _ & E').
      assert (skip buf es e = S e) as Es by (rewrite (skip_white e _ He E); by apply (skip_stop (S e) c (r ++ flat ts))).
      rewrite Es. split; [|split; [by apply (skip_stop (S e) c (r ++ flat ts))|lia]].
      split; [done|]. split; [by constructor|]. cbn. by rewrite Et, E'. }
  split; [done|]. unfold here. rewrite Hi. split; [done|]. split; [done|apply Hh].
Qed.

(** What [peek] and [gettoken] say of the tokens left. *)
Definition heads (l : list Z) (ts : list tok) : bool := match ts with [] => false | t :: _ => among l (first t) end.
Lemma peek_here l s ts : here s ts -> exists s', peek buf es l s = Ret (heads l ts) s' /\ here s' ts.
Proof.
  intros (Hs & Ht & E). destruct (peek_ok buf es Hline l s Hs) as (Ep & Hq & Hi).
  exists (skip buf es s). split; [|unfold here; rewrite Hi; split; [lia|done]].
  rewrite Ep. f_equal. destruct ts as [|t ts]; cbn in *.
  - rewrite (rest_nil (skip buf es s)), (at_end buf es Hline) by (done || lia). done.
  - apply Forall_cons in Ht as [Ht _]. destruct (tok_first t Ht) as (c & r & Et & _ & Hc). unfold first. rewrite Et in *.
    destruct (rest_cons (skip buf es s) c (r ++ flat ts)) as (_ & -> & _); [lia|done|]. cbn. unfold truth. by rewrite (proj2 (Z.eqb_neq c 0)).
Qed.

Lemma gettoken_end s : here s [] -> exists w s', gettoken buf es s = Ret (0, w) s' /\ here s' [].
Proof.
  intros (Hs & _ & E). destruct (skip_spec buf es s Hs) as [Hq _]. set (q := skip buf es s) in *.
  assert (q = es) as Eq by (apply rest_nil; [lia|done]).
  exists (q, q), (skip buf es q). unfold gettoken. rewrite (bind_ret _ _ s s s) by done. fold q. cbv zeta.
  rewrite (bind_ret _ _ s _ s (chr_at buf es Hline q s ltac:(lia))).
  rewrite Eq, (at_end buf es Hline), skip_end. split.
  { rewrite (bind_ret _ _ s (0, es) s) by done. rewrite (bind_ret _ _ s tt (skip buf es es)) by done. by rewrite skip_end. }
  unfold here. rewrite skip_end. split; [done|]. split; [done|apply rest_end].
Qed.
Lemma flat_next e ts : (e <= es)%nat -> rest e = flat ts -> at_ buf e = 32 \/ (e = es /\ at_ buf e = 0).
Proof.
  intros He E. destruct ts as [|t ts]; cbn in E.
  - right. rewrite (rest_nil e He E). split; [done|]. by apply (at_end buf es).
  - left. by destruct (rest_cons e _ _ He E) as (_ & ? & _).
Qed.
Lemma span_word w : forall q n, Forall (fun c => plain c = true /\ c <> 0) w ->
  (forall i, (i < length w)%nat -> w !! i = Some (at_ buf (q + i))) -> (length w <= n)%nat ->
  (length w = n \/ plain (at_ buf (q + length w)) = false) -> span buf plain n q = (q + length w)%nat.
Proof.
  induction w as [|c w IH]; intros q n Hw Hat Hn Hend; cbn [length] in *.
  - rewrite Nat.add_0_r in *. destruct n as [|n]; [done|]. destruct Hend as [|Hend]; [lia|]. cbn. unfold at_ in Hend. by rewrite Hend.
  - apply Forall_cons in Hw as [[Hp _] Hw]. destruct n as [|n]; [lia|]. cbn [span]. change (default 0 (buf !! q)) with (at_ buf q).
    pose proof (Hat 0%nat ltac:(lia)) as H0. rewrite Nat.add_0_r in H0. cbn in H0. injection H0 as <-. rewrite Hp.
    replace (q + S (length w))%nat with (S q + length w)%nat in * by lia. apply IH; [done| |lia|].
    + intros i Hi. specialize (Hat (S i) ltac:(lia)). cbn in Hat. by replace (S q + i)%nat with (q + S i)%nat by lia.
    + destruct Hend as [Hend|Hend]; [left; lia|by right].
Qed.
Lemma gettoken_here s t ts : here s (t :: ts) -> exists w s', gettoken buf es s = Ret (kind t, w) s' /\ here s' ts /\
  (forall x, t = Word x -> text_of buf w = x).
Proof.
  intros (Hs & Ht & E). apply Forall_cons in Ht as [Ht Hts]. destruct (skip_spec buf es s Hs) as [Hq _]. set (q := skip buf es s) in *.
  cbn [strip] in E. destruct (rest_app _ _ q ltac:(lia) E) as (Hle & Er & Hat & Etake).
  destruct (here_flat _ ts Hle Er Hts) as [_ Hnext]. destruct (tok_first t Ht) as (c & r & Et & Hw & Hc).
  assert (at_ buf q = c) as Hqc by (specialize (Hat 0%nat); rewrite Et, Nat.add_0_r in Hat; cbn in Hat; injection Hat; [done|lia]).
  exists (q, (q + length (tok_text t))%nat), (skip buf es (q + length (tok_text t))).
  split; [|split; [done|]].
  2:{ intros x ->. unfold text_of. cbn [fst snd]. replace (q + length (tok_text (Word x)) - q)%nat with (length (tok_text (Word x))) by lia. done. }
  unfold gettoken. rewrite (bind_ret _ _ s s s) by done. fold q. cbv zeta.
  rewrite (bind_ret _ _ s _ s (chr_at buf es Hline q s ltac:(lia))). rewrite Hqc, (proj2 (Z.eqb_neq c 0)) by done.
  assert (forall ret : Z, (_ ← lid <~ skip buf es (q + length (tok_text t))%nat; mret (ret, (q, (q + length (tok_text t))%nat))) s
    = Ret (ret, (q, (q + length (tok_text t))%nat)) (skip buf es (q + length (tok_text t)))) as Hfin by done.
  destruct t as [w|c'|].
  - destruct Ht as [_ Hw']. assert (plain c = true) as Hp.
    { cbn in Et. rewrite Et in Hw'. by apply Forall_cons in Hw' as [[? _] _]. }
    rewrite (plain_among _ c Hp) by (no_nul || (intros x; unfold symbols; cbn; rewrite !elem_of_cons, elem_of_nil; tauto)).
    assert (c <> 62) as Hne.
    { intros ->. apply plain_spec in Hp as [_ Hp]. apply Hp. unfold symbols. cbn. rewrite !elem_of_cons. tauto. }
    rewrite (proj2 (Z.eqb_neq c 62)) by done.
    rewrite (bind_ret _ _ s (97, span buf plain (es - q) q) s) by done.
    rewrite (span_word w q (es - q)); [apply Hfin|done|done|cbn in Hle; lia|].
    destruct (flat_next _ ts Hle Er) as [E32|[Ees _]]; [right; cbn in E32; by rewrite E32|left; cbn in Ees; lia].
  - cbn in Et. injection Et as <- <-. cbn [tok_text length kind] in *. replace (q + 1)%nat with (S q) in * by lia.
    destruct (among (chars "|();&<") c') eqn:Ea; [rewrite (bind_ret _ _ s (c', S q) s) by done; apply Hfin|].
    assert (c' = 62) as ->.
    { rewrite among_eq in Ea by no_nul. apply bool_decide_eq_false in Ea. revert Ht Ea. cbn. unfold symbols. cbn.
      rewrite !elem_of_cons, elem_of_nil. tauto. }
    rewrite (proj2 (Z.eqb_eq 62 62)) by done.
    rewrite (bind_ret _ _ s (62, S q) s); [apply Hfin|].
    rewrite (bind_ret _ _ s _ s (chr_at buf es Hline (S q) s Hle)).
    destruct (flat_next _ ts Hle Er) as [-> |[_ ->]]; done.
  - cbn in Et. injection Et as <- <-. cbn [tok_text length kind] in *. replace (q + 2)%nat with (S (S q)) in * by lia.
    change (among (chars "|();&<") 62) with false. rewrite (proj2 (Z.eqb_eq 62 62)) by done.
    rewrite (bind_ret _ _ s (43, S (S q)) s); [apply Hfin|].
    rewrite (bind_ret _ _ s _ s (chr_at buf es Hline (S q) s ltac:(lia))).
    specialize (Hat 1%nat ltac:(lia)). cbn in Hat. replace (q + 1)%nat with (S q) in Hat by lia. injection Hat as <-. done.
Qed.

(** * The grammar *)

Definition read (c : cmd (nat * nat)) : cmd (list Z) := cmd_map (text_of buf) c.
Fixpoint wraps (c : cmd (list Z)) (rs : list (list Z * Z * Z)) : cmd (list Z) :=
  match rs with [] => c | (f, mode, fd) :: rs' => wraps (REDIR c f mode fd) rs' end.
Definition rs_toks (rs : list (list Z * Z * Z)) : list tok := concat (map redir_toks rs).
Definition rs_ok (rs : list (list Z * Z * Z)) : Prop := Forall (fun '(_, mode, fd) => redir_ok mode fd) rs.
(** A parser reads the tokens [ts] as [c] and leaves [ts']. *)
Definition reads (m : M nat (cmd (nat * nat))) (ts : list tok) (c : cmd (list Z)) (ts' : list tok) : Prop :=
  forall s, here s ts -> exists c' s', m s = Ret c' s' /\ read c' = c /\ here s' ts'.

Lemma heads_word l w ts : (forall x, x ∈ l -> x ∈ symbols) -> 0 ∉ l -> isword w -> heads l (Word w :: ts) = false.
Proof.
  intros Hl H0 [Hne Hw]. destruct w as [|c w]; [done|]. apply Forall_cons in Hw as [[Hp _] _]. by apply plain_among.
Qed.

Lemma redirs_read rs : forall ts n c, rs_ok rs -> heads (chars "<>") ts = false -> (length rs < n)%nat ->
  reads (parseredirs buf es n c) (rs_toks rs ++ ts) (wraps (read c) rs) ts.
Proof.
  induction rs as [|[[f mode] fd] rs IH]; intros ts n c Hrs Hts Hn s Hs; (destruct n as [|n]; [lia|]).
  - destruct (peek_here (chars "<>") s ts Hs) as (s' & E & Hs'). rewrite Hts in E. exists c, s'. split; [|done].
    unfold parseredirs. cbn [loop].
    rewrite (bind_ret (redirs_turn buf es c) _ s (inr c) s'); [done|]. unfold redirs_turn. by rewrite (bind_ret _ _ _ _ _ E).
  - apply Forall_cons in Hrs as [Hr Hrs]. cbn in Hs |- *.
    set (ts1 := rs_toks rs ++ ts) in *.
    destruct (peek_here (chars "<>") s _ Hs) as (s1 & E1 & Hs1).
    destruct (gettoken_here _ _ _ Hs1) as (w2 & s2 & E2 & Hs2 & _).
    destruct (gettoken_here _ _ _ Hs2) as (w3 & s3 & E3 & Hs3 & Hw3). specialize (Hw3 f eq_refl).
    assert (heads (chars "<>") (redir_tok mode fd :: Word f :: ts1) = true) as Hh.
    { unfold redir_tok. by repeat case_match. }
    fold (rs_toks rs) in *. fold ts1 in E1, Hs1, Hs2, Hs3.
    rewrite Hh in E1.
    destruct (IH ts n (REDIR c w3 mode fd) Hrs Hts ltac:(cbn in Hn; lia) s3 Hs3) as (c' & s' & E & Hc & Hs').
    exists c', s'. split; [|split; [|done]].
    2:{ rewrite Hc. cbn. by rewrite Hw3. }
    rewrite <- E. unfold parseredirs. cbn [loop].
    rewrite (bind_ret (redirs_turn buf es c) _ s (inl (REDIR c w3 mode fd)) s3); [done|].
    unfold redirs_turn. rewrite (bind_ret _ _ _ _ _ E1), (bind_ret _ _ _ _ _ E2), (bind_ret _ _ _ _ _ E3).
    unfold redir_tok. destruct Hr as [[-> ->]|[-> [-> | ->]]]; done.
Qed.

(** The arguments of a command stop at an operator that ends it. *)
Definition stops (ts : list tok) : Prop := ts = [] \/ heads (chars "|)&;") ts = true.
Lemma stops_redir ts : stops ts -> heads (chars "<>") ts = false.
Proof.
  intros [->|H]; [done|]. destruct ts as [|t ts]; [done|]. cbn in *. rewrite among_eq in * by no_nul.
  apply bool_decide_eq_true in H. apply bool_decide_eq_false. revert H. cbn. rewrite !elem_of_cons, elem_of_nil. intros H H'.
  destruct H' as [H'|[H'|[]]]; rewrite H' in H; destruct H as [?|[?|[?|[?|[]]]]]; done.
Qed.
Lemma stop_turn n k c s ts : stops ts -> here s ts -> exists s', args_turn buf es n (k, c) s = Ret (inr c) s' /\ here s' ts.
Proof.
  intros Hts Hs. destruct (peek_here (chars "|)&;") s ts Hs) as (s1 & E1 & Hs1). unfold args_turn.
  destruct Hts as [->|H].
  - destruct (gettoken_end s1 Hs1) as (w & s2 & E2 & Hs2). exists s2. split; [|done].
    rewrite (bind_ret _ _ _ _ _ E1). cbn [heads]. by rewrite (bind_ret _ _ _ _ _ E2).
  - exists s1. split; [|done]. rewrite (bind_ret _ _ _ _ _ E1). by rewrite H.
Qed.

Lemma args_read ws : forall rs ts n k argv, ws <> [] -> Forall isword ws -> rs_ok rs -> stops ts ->
  (k + length ws < MAXARGS)%nat -> (length ws < n)%nat -> forall N, (length rs < N)%nat ->
  reads (loop n (k, EXEC argv) (args_turn buf es N)) (map Word ws ++ rs_toks rs ++ ts)
    (wraps (EXEC (map (text_of buf) argv ++ ws)) rs) ts.
Proof.
  induction ws as [|w ws IH]; intros rs ts n k argv Hne Hws Hrs Hts Hk Hn N HN s Hs; [done|].
  apply Forall_cons in Hws as [Hw Hws]. destruct n as [|n]; [lia|]. cbn [map app] in Hs.
  destruct (peek_here (chars "|)&;") s _ Hs) as (s1 & E1 & Hs1).
  rewrite heads_word in E1 by (done || no_nul || (intros x; unfold symbols; cbn; rewrite !elem_of_cons, elem_of_nil; tauto)).
  destruct (gettoken_here _ _ _ Hs1) as (v & s2 & E2 & Hs2 & Hv). specialize (Hv w eq_refl).
  assert (forall c3 s3, parseredirs buf es N (EXEC (argv ++ [v])) s2 = Ret c3 s3 ->
    args_turn buf es N (k, EXEC argv) s = Ret (inl (S k, c3)) s3) as Hturn.
  { intros c3 s3 E3. unfold args_turn. rewrite (bind_ret _ _ _ _ _ E1), (bind_ret _ _ _ _ _ E2). cbn [kind add_arg].
    change (97 =? 0) with false. change (negb (97 =? 97)) with false. cbv iota zeta.
    rewrite (proj2 (Nat.leb_gt MAXARGS (S k))) by (cbn in Hk; lia). by rewrite (bind_ret _ _ _ _ _ E3). }
  destruct ws as [|w' ws].
  - destruct (redirs_read rs ts N (EXEC (argv ++ [v])) Hrs (stops_redir _ Hts) HN s2 Hs2) as (c3 & s3 & E3 & Hc3 & Hs3).
    destruct (stop_turn N (S k) c3 s3 ts Hts Hs3) as (s4 & E4 & Hs4). exists c3, s4. split; [|split; [|done]].
    + cbn [loop]. rewrite (bind_ret _ _ _ _ _ (Hturn _ _ E3)). destruct n as [|n]; [cbn in Hn; lia|]. cbn [loop].
      by rewrite (bind_ret _ _ _ _ _ E4).
    + rewrite Hc3. unfold read. cbn. by rewrite map_app, <- Hv.
  - assert (heads (chars "<>") (map Word (w' :: ws) ++ rs_toks rs ++ ts) = false) as Hh.
    { cbn [map app]. apply Forall_cons in Hws as [Hw' _].
      apply heads_word; [intros x; unfold symbols; cbn; rewrite !elem_of_cons, elem_of_nil; tauto|no_nul|done]. }
    destruct (redirs_read [] _ N (EXEC (argv ++ [v])) (Forall_nil_2 _) Hh ltac:(cbn; lia) s2 Hs2) as (c3 & s3 & E3 & Hc3 & Hs3).
    assert (exists argv3, c3 = EXEC argv3 /\ map (text_of buf) argv3 = map (text_of buf) (argv ++ [v])) as (argv3 & -> & Ea).
    { cbn in Hc3. destruct c3; try done. unfold read in Hc3. cbn in Hc3. injection Hc3 as Hc3. by exists argv0. }
    destruct (IH rs ts n (S k) argv3 ltac:(done) Hws Hrs Hts ltac:(cbn in *; lia) ltac:(cbn in *; lia) N HN s3 Hs3)
      as (c4 & s4 & E4 & Hc4 & Hs4).
    exists c4, s4. split; [|split; [|done]].
    + cbn [loop]. by rewrite (bind_ret _ _ _ _ _ (Hturn _ _ E3)).
    + rewrite Hc4, Ea, map_app, <- app_assoc. cbn. by rewrite Hv.
Qed.

Lemma backs_read k : forall ts n c, heads (chars "&") ts = false -> (k < n)%nat ->
  reads (loop n c (back_turn buf es)) (replicate k (Op 38) ++ ts) (Nat.iter k BACK (read c)) ts.
Proof.
  induction k as [|k IH]; intros ts n c Hts Hn s Hs; (destruct n as [|n]; [lia|]); cbn [loop].
  - destruct (peek_here (chars "&") s ts Hs) as (s1 & E1 & Hs1). rewrite Hts in E1. exists c, s1. split; [|done].
    rewrite (bind_ret (back_turn buf es c) _ s (inr c) s1); [done|]. unfold back_turn. by rewrite (bind_ret _ _ _ _ _ E1).
  - cbn [replicate app] in Hs. destruct (peek_here (chars "&") s _ Hs) as (s1 & E1 & Hs1).
    destruct (gettoken_here _ _ _ Hs1) as (w & s2 & E2 & Hs2 & _).
    destruct (IH ts n (BACK c) Hts ltac:(lia) s2 Hs2) as (c' & s' & E & Hc & Hs'). exists c', s'. split; [|split; [|done]].
    + rewrite (bind_ret (back_turn buf es c) _ s (inl (BACK c)) s2); [done|]. unfold back_turn.
      rewrite (bind_ret _ _ _ _ _ E1). cbn [heads]. change (among (chars "&") (first (Op 38))) with true. cbv iota.
      by rewrite (bind_ret _ _ _ _ _ E2).
    + rewrite Hc. by rewrite Nat.iter_succ_r.
Qed.

(** A [peek] by its answer, and a token that is not a word. *)
Lemma reads_peek l (f : bool -> M nat (cmd (nat * nat))) ts c ts' b : heads l ts = b ->
  reads (f b) ts c ts' -> reads (x ← peek buf es l; f x) ts c ts'.
Proof.
  intros <- Hf s Hs. destruct (peek_here l s ts Hs) as (s1 & E1 & Hs1).
  destruct (Hf s1 Hs1) as (c' & s' & E & Hc & Hs'). exists c', s'. split; [|done]. by rewrite (bind_ret _ _ _ _ _ E1).
Qed.
Lemma reads_token (f : Z * (nat * nat) -> M nat (cmd (nat * nat))) t ts c ts' :
  (forall w, reads (f (kind t, w)) ts c ts') -> reads (x ← gettoken buf es; f x) (t :: ts) c ts'.
Proof.
  intros Hf s Hs. destruct (gettoken_here _ _ _ Hs) as (w & s1 & E1 & Hs1 & _).
  destruct (Hf w s1 Hs1) as (c' & s' & E & Hc & Hs'). exists c', s'. split; [|done]. by rewrite (bind_ret _ _ _ _ _ E1).
Qed.
Lemma reads_bind m (f : cmd (nat * nat) -> M nat (cmd (nat * nat))) ts c ts1 c' ts' :
  reads m ts c ts1 -> (forall x, read x = c -> reads (f x) ts1 c' ts') -> reads (x ← m; f x) ts c' ts'.
Proof.
  intros Hm Hf s Hs. destruct (Hm s Hs) as (x & s1 & E1 & Hx & Hs1).
  destruct (Hf x Hx s1 Hs1) as (c1 & s' & E & Hc & Hs'). exists c1, s'. split; [|done]. by rewrite (bind_ret _ _ _ _ _ E1).
Qed.
Lemma reads_ret x c ts : read x = c -> reads (mret x) ts c ts.
Proof. intros Hx s Hs. by exists x, s. Qed.
Lemma heads_sub l l' ts : 0 ∉ l -> 0 ∉ l' -> (forall x, x ∈ l' -> x ∈ l) -> heads l ts = false -> heads l' ts = false.
Proof.
  intros H0 H0' Hsub. destruct ts as [|t ts]; [done|]. cbn. rewrite !among_eq by done. rewrite !bool_decide_eq_false. intros H Hc. by apply H, Hsub.
Qed.
Lemma stops_not l ts : stops ts -> 0 ∉ l -> (forall x, x ∈ chars "|)&;" -> x ∉ l) -> heads l ts = false.
Proof.
  intros [->|H] H0 Hd; [done|]. destruct ts as [|t ts]; [done|]. cbn in *. rewrite among_eq in * by (done || no_nul).
  apply bool_decide_eq_false. apply Hd. by apply bool_decide_eq_true in H.
Qed.

Lemma exec_read argv rs ts n : (length argv < MAXARGS)%nat -> Forall isword argv -> rs_ok rs -> stops ts ->
  (length argv + length rs + 2 <= n)%nat ->
  reads (parseexec buf es n) (map Word argv ++ rs_toks rs ++ ts) (wraps (EXEC argv) rs) ts.
Proof.
  intros Hlen Hargs Hrs Hts Hn. destruct n as [|n]; [lia|]. cbn [parseexec].
  apply (reads_peek _ _ _ _ _ false).
  { destruct argv as [|w argv].
    - cbn. destruct rs as [|[[f mode] fd] rs]; [|cbn; unfold redir_tok; by repeat case_match].
      apply stops_not; [done|no_nul|]. intros x. cbn. rewrite !elem_of_cons, !elem_of_nil. lia.
    - apply Forall_cons in Hargs as [Hw _].
      apply heads_word; [intros x; unfold symbols; cbn; rewrite !elem_of_cons, elem_of_nil; tauto|no_nul|done]. }
  unfold parseargs. destruct argv as [|w argv].
  - eapply reads_bind; [apply (redirs_read rs ts n (EXEC [])); [done|by apply stops_redir|cbn in Hn; lia]|].
    intros c Hc s Hs. destruct n as [|n]; [lia|]. cbn [loop].
    destruct (stop_turn (S n) 0 c s ts Hts Hs) as (s' & E & Hs'). exists c, s'. by rewrite (bind_ret _ _ _ _ _ E).
  - eapply reads_bind; [apply (redirs_read [] _ n (EXEC []) (Forall_nil_2 _)); [|cbn in *; lia]|].
    { apply Forall_cons in Hargs as [Hw _].
      apply heads_word; [intros x; unfold symbols; cbn; rewrite !elem_of_cons, elem_of_nil; tauto|no_nul|done]. }
    intros c Hc. destruct c; try done. unfold read in Hc. cbn in Hc. injection Hc as Hc.
    destruct argv0; [|done]. apply (args_read (w :: argv) rs ts n 0 []); try done; cbn in *; lia.
Qed.

(** How a command reads where each level of the grammar wants one. *)
Definition at0 (c : cmd (list Z)) : Prop := forall rs ts n, rs_ok rs -> stops ts ->
  (4 * length (toks 0 c ++ rs_toks rs ++ ts) + 2 <= n)%nat ->
  reads (parseexec buf es n) (toks 0 c ++ rs_toks rs ++ ts) (wraps c rs) ts.
Definition at1 (c : cmd (list Z)) : Prop := forall ts n, stops ts -> heads (chars "|") ts = false ->
  (4 * length (toks 1 c ++ ts) + 3 <= n)%nat -> reads (parsepipe buf es n) (toks 1 c ++ ts) c ts.
Definition at2 (c : cmd (list Z)) : Prop := forall k ts n, stops ts -> heads (chars "|&") ts = false ->
  (4 * length (toks 2 c ++ replicate k (Op 38) ++ ts) + 3 <= n)%nat ->
  reads (x ← parsepipe buf es n; loop n x (back_turn buf es)) (toks 2 c ++ replicate k (Op 38) ++ ts) (Nat.iter k BACK c) ts.
Definition closes (ts : list tok) : Prop := ts = [] \/ heads (chars ")") ts = true.
Definition at3 (c : cmd (list Z)) : Prop := forall ts n, closes ts -> (4 * length (toks 3 c ++ ts) + 4 <= n)%nat ->
  reads (parseline buf es n) (toks 3 c ++ ts) c ts.

Lemma closes_stops ts : closes ts -> stops ts.
Proof.
  intros [->|H]; [by left|right]. destruct ts as [|t ts]; [done|]. cbn in *. rewrite among_eq in * by no_nul.
  apply bool_decide_eq_true in H. apply bool_decide_eq_true. revert H. cbn. rewrite !elem_of_cons, elem_of_nil. tauto.
Qed.
Lemma closes_not l ts : closes ts -> 0 ∉ l -> 41 ∉ l -> heads l ts = false.
Proof.
  intros [->|H] H0 Hl; [done|]. destruct ts as [|t ts]; [done|]. cbn in *. rewrite among_eq in * by (done || no_nul).
  apply bool_decide_eq_false. apply bool_decide_eq_true in H. cbn in H.
  apply elem_of_cons in H as [->|H]; [done|]. by apply elem_of_nil in H.
Qed.

(** From each level to the next, where the grammar adds nothing. *)
Lemma at0_at1 c : toks 1 c = toks 0 c -> at0 c -> at1 c.
Proof.
  intros E H ts n Hts Hp Hn. rewrite E in *. destruct n as [|n]; [lia|]. cbn [parsepipe].
  eapply reads_bind; [apply (H [] ts n); [constructor|done|cbn; lia]|]. cbn [wraps]. intros x Hx.
  apply (reads_peek _ _ _ _ _ false); [done|]. by apply reads_ret.
Qed.
Lemma at1_at2 c : toks 2 c = toks 1 c -> at1 c -> at2 c.
Proof.
  intros E H k ts n Hts Hp Hn. rewrite E in *. rewrite !length_app, length_replicate in Hn.
  eapply reads_bind; [apply H; [| |rewrite !length_app, length_replicate; lia]|].
  - destruct k as [|k]; [done|by right].
  - destruct k as [|k]; [|done]. revert Hp. apply heads_sub; [no_nul|no_nul|]. intros x. cbn. rewrite !elem_of_cons. tauto.
  - intros x <-. apply backs_read; [|lia]. revert Hp. apply heads_sub; [no_nul|no_nul|]. intros y. cbn. rewrite !elem_of_cons. tauto.
Qed.
Lemma parseline_back n f ts c ts' : reads (x ← (x ← parsepipe buf es n; loop n x (back_turn buf es)); f x) ts c ts' ->
  reads (x ← parsepipe buf es n; x ← loop n x (back_turn buf es); f x) ts c ts'.
Proof.
  intros H s Hs. destruct (H s Hs) as (c' & s' & E & Hc). exists c', s'. split; [|done]. revert E.
  unfold mbind, M_bind. by destruct (parsepipe buf es n s).
Qed.
Lemma at2_at3 c : toks 3 c = toks 2 c -> at2 c -> at3 c.
Proof.
  intros E H ts n Hts Hn. rewrite E in *. destruct n as [|n]; [lia|]. cbn [parseline]. apply parseline_back.
  eapply reads_bind; [apply (H 0%nat ts n); [by apply closes_stops|apply closes_not; [done|no_nul..]|cbn; lia]|].
  intros x Hx. apply (reads_peek _ _ _ _ _ false); [apply closes_not; [done|no_nul..]|]. by apply reads_ret.
Qed.
Lemma rs_toks_len rs : (length rs <= length (rs_toks rs))%nat.
Proof. induction rs as [|[[f m] d] rs IH]; unfold rs_toks in *; cbn in *; lia. Qed.
Lemma at3_at0 c : toks 0 c = Op 40 :: toks 3 c ++ [Op 41] -> at3 c -> at0 c.
Proof.
  intros E H rs ts n Hrs Hts Hn. rewrite E in *. cbn [app length] in *. rewrite <- app_assoc in *. cbn [app] in *.
  rewrite !length_app in Hn. cbn in Hn. rewrite length_app in Hn.
  destruct n as [|[|n]]; [lia|lia|]. cbn [parseexec]. apply (reads_peek _ _ _ _ _ true); [done|]. cbn [parseblock].
  apply (reads_peek _ _ _ _ _ true); [done|]. cbn [negb]. apply reads_token. intros w.
  eapply reads_bind; [apply (H (Op 41 :: rs_toks rs ++ ts) n); [by right|rewrite length_app; cbn; rewrite length_app; lia]|].
  intros x <-. apply (reads_peek _ _ _ _ _ true); [done|]. cbn [negb]. apply reads_token. intros w'.
  apply redirs_read; [done|by apply stops_redir|].
  pose proof (rs_toks_len rs). lia.
Qed.

Lemma levels c : wf isword c -> redirs_wf c -> at0 c /\ at1 c /\ at2 c /\ at3 c.
Proof.
  assert (forall c, toks 1 c = toks 0 c -> toks 2 c = toks 1 c -> toks 3 c = toks 2 c -> at0 c -> at0 c /\ at1 c /\ at2 c /\ at3 c) as H0
    by (intros; repeat split; auto using at0_at1, at1_at2, at2_at3).
  assert (forall c, toks 0 c = Op 40 :: toks 3 c ++ [Op 41] -> toks 2 c = toks 1 c -> toks 3 c = toks 2 c -> at1 c ->
    at0 c /\ at1 c /\ at2 c /\ at3 c) as H1
    by (intros; repeat split; auto using at3_at0, at1_at2, at2_at3).
  induction c as [argv|c IH f mode fd|l IHl r IHr|l IHl r IHr|c IH]; cbn [wf redirs_wf]; intros Hw Hr.
  - apply H0; [done..|]. intros rs ts n Hrs Hts Hn. rewrite !length_app in Hn. cbn [toks] in *. rewrite length_map in Hn.
    pose proof (rs_toks_len rs). apply exec_read; [apply Hw|apply Hw|done|done|lia].
  - apply H0; [done..|]. intros rs ts n Hrs Hts Hn. destruct (IH (proj1 Hw) (proj1 Hr)) as [IH0 _]. cbn [toks] in *.
    rewrite <- app_assoc in *. apply (IH0 ((f, mode, fd) :: rs)); [|done|exact Hn]. constructor; [apply Hr|done].
  - apply H1; [done..|]. intros ts n Hts Hp Hn. cbn [toks paren Nat.ltb Nat.leb] in *. rewrite <- app_assoc in *. cbn [app] in *.
    destruct n as [|n]; [lia|]. cbn [parsepipe]. rewrite length_app in Hn. cbn in Hn. rewrite length_app in Hn.
    eapply reads_bind; [apply (proj1 (IHl (proj1 Hw) (proj1 Hr)) [] _ n); [constructor|by right|rewrite length_app; cbn; rewrite length_app; lia]|].
    intros x Hx. apply (reads_peek _ _ _ _ _ true); [done|]. apply reads_token. intros w.
    eapply reads_bind; [apply (IHr (proj2 Hw) (proj2 Hr)); [done|done|rewrite length_app; lia]|].
    intros y Hy. apply reads_ret. unfold read in *. cbn. by rewrite Hx, Hy.
  - assert (at3 (LIST l r)) as H3.
    { intros ts n Hts Hn. cbn [toks paren Nat.ltb Nat.leb] in *. rewrite <- app_assoc in *. cbn [app] in *.
      destruct n as [|n]; [lia|]. cbn [parseline]. rewrite length_app in Hn. cbn in Hn. rewrite length_app in Hn.
      destruct (IHl (proj1 Hw) (proj1 Hr)) as (_ & _ & Hl & _). apply parseline_back.
      eapply reads_bind; [apply (Hl 0%nat _ n); [by right|done|rewrite length_app; cbn; rewrite length_app; lia]|].
      intros x Hx. apply (reads_peek _ _ _ _ _ true); [done|]. apply reads_token. intros w.
      eapply reads_bind; [apply (IHr (proj2 Hw) (proj2 Hr)); [done|rewrite length_app; lia]|].
      intros y Hy. apply reads_ret. unfold read in *. cbn in *. by rewrite Hx, Hy. }
    assert (at0 (LIST l r)) as H00 by (by apply at3_at0).
    assert (at1 (LIST l r)) as H11 by (by apply at0_at1). split; [done|]. split; [done|]. split; [by apply at1_at2|done].
  - destruct (IH Hw Hr) as (_ & _ & IH2 & _).
    assert (at2 (BACK c)) as H2.
    { intros k ts n Hts Hp Hn. cbn [toks paren Nat.ltb Nat.leb] in *. rewrite <- app_assoc in *.
      rewrite <- Nat.iter_succ_r. by apply (IH2 (S k)). }
    assert (at3 (BACK c)) as H3 by (by apply at2_at3). assert (at0 (BACK c)) as H00 by (by apply at3_at0).
    split; [done|]. split; [by apply at0_at1|done].
Qed.
End RoundTrip.

Lemma toks_ok c : wf isword c -> forall lv, Forall tok_ok (toks lv c).
Proof.
  assert (forall b ts, Forall tok_ok ts -> Forall tok_ok (paren b ts)) as Hp.
  { intros [|] ts H; [|done]. constructor; [cbn; unfold symbols; cbn; rewrite !elem_of_cons; tauto|].
    apply Forall_app. split; [done|]. by repeat constructor. }
  assert (forall t ts1 ts2, tok_ok t -> Forall tok_ok ts1 -> Forall tok_ok ts2 -> Forall tok_ok (ts1 ++ t :: ts2)) as Ha
    by (intros; apply Forall_app; split; [done|by constructor]).
  assert (tok_ok (Op 124) /\ tok_ok (Op 59) /\ tok_ok (Op 38)) as (O1 & O2 & O3)
    by (cbn; unfold symbols; cbn; rewrite !elem_of_cons; tauto).
  induction c as [argv|c IH f mode fd|l IHl r IHr|l IHl r IHr|c IH]; cbn [wf toks]; intros Hw lv.
  - apply Forall_map. apply Hw.
  - apply Forall_app. split; [apply IH, Hw|]. constructor; [|constructor; [apply Hw|constructor]].
    unfold redir_tok. repeat case_match; cbn; try done; unfold symbols; cbn; rewrite !elem_of_cons; tauto.
  - apply Hp, Ha; [done|apply IHl, Hw|apply IHr, Hw].
  - apply Hp, Ha; [done|apply IHl, Hw|apply IHr, Hw].
  - apply Hp, Ha; [done|by apply IH|done].
Qed.
Lemma flat_nonzero ts : Forall tok_ok ts -> Forall (fun c => c <> 0) (flat ts) /\ (length ts <= length (flat ts))%nat.
Proof.
  induction 1 as [|t ts Ht Hts [IH IHl]]; [done|]. unfold flat in *. cbn [map concat length]. split.
  - apply Forall_cons. split; [done|]. apply Forall_app. split; [|done]. destruct t as [w|c|]; cbn in *.
    + eapply Forall_impl; [apply Ht|]. by intros x [_ ?].
    + constructor; [|constructor]. intros ->. by apply symbols_nul.
    + by repeat constructor.
  - cbn. rewrite length_app. lia.
Qed.

(** C20. The parser reads back every command the shell can express: from the
    line [render] writes for it (with parentheses where the grammar wants
    them), [parsecmd] makes exactly that tree, with every string in its
    place.  Enough fuel is four calls a character. *)
Theorem parse_render (c : cmd (list Z)) (junk : list Z) (fuel : nat) :
  wf isword c -> redirs_wf c -> (4 * length (render c) + 4 <= fuel)%nat ->
  exists c' buf', parsecmd fuel (render c ++ 0 :: junk) = Ret c' buf' /\ cmd_map (word_at buf') c' = c.
Proof.
  intros Hw Hr Hfuel. pose proof (toks_ok c Hw 3) as Ht. destruct (flat_nonzero _ Ht) as [Hnz Hlen].
  change (flat (toks 3 c)) with (render c) in *. set (buf := render c ++ 0 :: junk).
  pose proof (line_line (render c) junk Hnz) as Hline. fold buf in Hline. set (es := length (render c)) in *.
  assert (here buf es 0 (toks 3 c ++ [])) as Hh.
  { rewrite app_nil_r. apply (here_flat buf es Hline); [lia| |done]. unfold rest. rewrite Nat.sub_0_r, drop_0.
    unfold es, buf. by rewrite take_app_length. }
  destruct (levels buf es Hline c Hw Hr) as (_ & _ & _ & H3).
  destruct (H3 [] fuel ltac:(by left) ltac:(rewrite app_nil_r; lia) 0%nat Hh) as (c' & s1 & E1 & Hc & Hs1).
  destruct (peek_here buf es Hline [] s1 [] Hs1) as (s2 & E2 & Hs2).
  assert (s2 = es) as ->.
  { destruct Hs2 as (Hle & _ & E). destruct (peek_ok buf es Hline [] s1 ltac:(apply Hs1)) as (E2' & Hq & Hi).
    rewrite E2 in E2'. injection E2' as _ ->. rewrite Hi in E. by apply (rest_nil buf es Hline). }
  assert (parseall buf es fuel 0%nat = Ret c' es) as E.
  { unfold parseall. rewrite (bind_ret _ _ _ _ _ E1), (bind_ret _ _ _ _ _ E2).
    rewrite (bind_ret _ _ es es es) by done. by rewrite Nat.eqb_refl. }
  exists c', (nulterminate c' buf). unfold buf. rewrite parsecmd_eq by done. fold buf es. rewrite E. split; [done|].
  rewrite <- Hc. unfold read. apply cmd_map_ext. intros w Hin. apply (word_terminated buf es); [done| |done].
  pose proof (parseall_ok buf es Hline fuel ltac:(lia)) as He. unfold ends in He. rewrite E in He. apply He.
Qed.
Definition demo_cmd : cmd (list Z) :=
  LIST (BACK (PIPE (REDIR (EXEC [chars "ls"; chars "-l"]) (chars "in") O_RDONLY 0)
              (LIST (EXEC [chars "wc"]) (REDIR (EXEC [chars "x"]) (chars "out") 577 1)))) (EXEC []).
Example parse_render_witness :
  exists c' buf', parsecmd 1000 (render demo_cmd ++ 0 :: [1]) = Ret c' buf' /\ cmd_map (word_at buf') c' = demo_cmd.
Proof.
  assert (wf isword demo_cmd) as Hw.
  { cbn. unfold MAXARGS. repeat split; try (cbn; lia); try done;
      repeat (apply Forall_cons; split); try apply Forall_nil_2; try (split; [done|]); apply (bool_decide_unpack _); vm_compute; exact I. }
  assert (redirs_wf demo_cmd) as Hr by (cbn; unfold redir_ok; tauto).
  assert (4 * length (render demo_cmd) + 4 <= 1000)%nat as Hf by (vm_compute; lia).
  exact (parse_render demo_cmd [1] 1000 Hw Hr Hf).
Defined.
