(* ===== verification/ShRun.v ===== *)
(** The shell (user/sh.c): variables, running a command, the main loop.

    A process that runs is a tree of the system calls it makes, with what it
    does for each result; [Fork] is the one call that returns twice.  Strings
    are arrays from the pointer on, as in Strings.v. *)

From S2P Require Import Prelude Strings Ulib Sh ShFacts.

(** * Variables *)

(** [envs], the first [nenv] of them: names and values. *)
Definition env : Type := list Z * list Z.
Definition NENVS : nat := 16.
Definition NAMELEN : nat := 32.
Definition VALUELEN : nat := 96.

Definition is_alpha (c : Z) : bool := ((65 <=? c) && (c <=? 90)) || ((97 <=? c) && (c <=? 122)) || (c =? 95).
Definition is_name (c : Z) : bool :=
  ((65 <=? c) && (c <=? 90)) || ((97 <=? c) && (c <=? 122)) || ((48 <=? c) && (c <=? 57)) || (c =? 95).
Fixpoint name_len (s : list Z) : option Z :=
  match s with [] => None | c :: s' => if is_name c then Z.succ <$> name_len s' else Some 0 end.
Definition checkenvname (s : list Z) : option Z :=
  match s with [] => None | c :: s' => if is_alpha c then Z.succ <$> name_len s' else Some 0 end.

(** Copies up to the character [stop], which it takes too, into an array with
    [room] left: what is before it and what follows it. *)
Fixpoint copy_to (stop : Z) (room : nat) (s : list Z) : option (list Z * list Z) :=
  match room, s with
  | S room', c :: s' =>
      if c =? stop then Some ([], s') else (fun '(t, r) => (c :: t, r)) <$> copy_to stop room' s'
  | _, _ => None
  end.
Definition drop_slash (value : list Z) : option (list Z) :=
  match last value with
  | None => None   (** [*--t] is before the array *)
  | Some c => Some (if c =? 47 then removelast value else value)
  end.

(** What [export] prints, its result and the variables after it; [arg] is the
    array from [argv[1]] to the end of the line. *)
Definition export_lines (envs : list env) : list (Z * list Z) :=
  map (fun '(n, v) => (1, chars "export " ++ n ++ chars "=" ++ v ++ chars (String (Ascii.ascii_of_nat 10) EmptyString))) envs.
Definition say (fd : Z) (s : string) : Z * list Z := (fd, chars s ++ [10]).
Definition export (arg : list Z) (envs : list env) : option (list (Z * list Z) * Z * list env) :=
  d ← Ulib.strcmp arg (chars "-p" ++ [0]);
  if d =? 0 then
    if (length envs =? 0)%nat then Some ([say 1 "NO env var exported"], 0, envs) else Some (export_lines envs, 0, envs)
  else if (length envs =? NENVS)%nat then Some ([say 2 "too many env vars"], -1, envs)
  else
    '(name, rest) ← copy_to 61 NAMELEN arg;
    k ← checkenvname (name ++ [0]);
    if negb (k =? Z.of_nat (length name)) then Some ([say 2 "Invalid NAME!"], -1, envs)
    else
      '(value, _) ← copy_to 0 VALUELEN rest;
      value ← drop_slash value;
      Some ([], 0, envs ++ [(name, value)]).

(** [replace]: the characters written to the line so far are behind [t], in
    reverse; [s] is what is left of the copy. *)
Fixpoint lookup_all (envs : list env) (name : list Z) : list Z :=
  match envs with
  | [] => []
  | (n, v) :: envs' => (if decide (n = name) then v else []) ++ lookup_all envs' name
  end.
Fixpoint take_name (room : nat) (s : list Z) : option (list Z * list Z) :=
  match room, s with
  | S room', c :: s' =>
      if is_name c then (fun '(n, r) => (c :: n, r)) <$> take_name room' s' else Some ([], s)
  | _, _ => None
  end.
Fixpoint expand (fuel : nat) (envs : list env) (s : list Z) : option (list Z) :=
  match fuel, s with
  | S fuel', c :: s' =>
      if c =? 0 then Some []
      else if (c =? 36) && is_alpha (hd 0 s') then
        '(name, s'') ← take_name NAMELEN s';
        app (lookup_all envs name) <$> expand fuel' envs s''
      else cons c <$> expand fuel' envs s'
  | _, _ => None
  end.
(** The line with its variables replaced; one that grows past its array is
    undefined. *)
Definition replace (envs : list env) (buf : list Z) : option (list Z) :=
  out ← expand (S (length buf)) envs buf;
  if (length buf <? length out + 1)%nat then None
  else Some (out ++ 0 :: drop (length out + 1) buf).

(** * Processes *)

Inductive prog :=
| Exit (status : Z)
| Wrong (why : string)
| Exec (path : list Z) (argv : list (list Z)) (failed : prog)
| Open (path : list Z) (mode : Z) (k : Z -> prog)
| Close (fd : Z) (k : prog)
| Dup (fd : Z) (k : prog)
| Pipe (k : Z -> Z -> Z -> prog)
| Fork (k : Z -> prog)
| Wait (k : prog)
| Write (fd : Z) (bs : list Z) (k : prog)
| Gets (n : Z) (k : list Z -> prog)
| Chdir (path : list Z) (k : Z -> prog)
| Getcwd (k : list Z -> prog)
| Dev (k : Z -> prog).

Definition panic (s : string) : prog := Write 2 (chars s ++ [10]) (Exit 1).
Definition fork1 (k : Z -> prog) : prog := Fork (fun pid => if pid =? -1 then panic "fork" else k pid).

(** The directories the variables name, one after the other; [env_cmd] has 64
    bytes. *)
Fixpoint exec_envs (envs : list env) (a0 : list Z) (argv : list (list Z)) : prog :=
  match envs with
  | [] => Write 2 (chars "exec " ++ a0 ++ chars " failed" ++ [10]) (Exit 0)
  | (_, v) :: envs' =>
      let path := v ++ 47 :: a0 in
      if (64 <? length path + 1)%nat then Wrong "env_cmd" else Exec path argv (exec_envs envs' a0 argv)
  end.

Fixpoint runcmd (envs : list env) (c : cmd (list Z)) : prog :=
  match c with
  | EXEC [] => Exit 1
  | EXEC (a0 :: argv) => Exec a0 (a0 :: argv) (exec_envs envs a0 (a0 :: argv))
  | REDIR c file mode fd =>
      Close fd (Open file mode (fun r =>
        if r <? 0 then Write 2 (chars "open " ++ file ++ chars " failed" ++ [10]) (Exit 1) else runcmd envs c))
  | LIST l r => fork1 (fun pid => if pid =? 0 then runcmd envs l else Wait (runcmd envs r))
  | PIPE l r =>
      Pipe (fun err p0 p1 =>
        if err <? 0 then panic "pipe"
        else fork1 (fun pid =>
          if pid =? 0 then Close 1 (Dup p1 (Close p0 (Close p1 (runcmd envs l))))
          else fork1 (fun pid =>
            if pid =? 0 then Close 0 (Dup p0 (Close p0 (Close p1 (runcmd envs r))))
            else Close p0 (Close p1 (Wait (Wait (Exit 0)))))))
  | BACK c => fork1 (fun pid => if pid =? 0 then runcmd envs c else Exit 0)
  end.

(** * The main loop *)

Definition cmd_type {A} (c : cmd A) : Z :=
  match c with EXEC _ => 1 | REDIR _ _ _ _ => 2 | PIPE _ _ => 3 | LIST _ _ => 4 | BACK _ => 5 end.
(** [argv[0]] of the tree's root, read as if it were an EXEC node: of another
    node it is the pointer to the first child, whose first byte, as a string,
    is its type. *)
Definition argv0 (c : cmd (list Z)) : option (list Z) :=
  match c with
  | EXEC argv => head argv
  | REDIR c _ _ _ | BACK c | PIPE c _ | LIST c _ => Some [cmd_type c; 0]
  end.
Definition writes (ms : list (Z * list Z)) (k : prog) : prog := foldr (fun '(fd, bs) k => Write fd bs k) k ms.

Definition main_line (fuel : nat) (envs : list env) (cwd buf : list Z)
    (next : list env -> list Z -> prog) : prog :=
  match replace envs buf with
  | None => Wrong "replace"
  | Some buf =>
      if bool_decide (take 3 buf = chars "cd ") then
        match ustrlen buf with
        | None => Wrong "strlen"
        | Some n =>
            let dir := cstr (drop 3 (<[Z.to_nat (n - 1) := 0]> buf)) in
            Chdir dir (fun r =>
              let k := Getcwd (fun cwd => next envs cwd) in
              if r <? 0 then Write 2 (chars "cannot cd " ++ dir ++ [10]) k else k)
        end
      else
        match parsecmd fuel buf with
        | Ret c buf =>
            let t := cmd_map (fun w => drop w.1 buf) c in
            match argv0 t with
            | None => next envs cwd
            | Some a0 =>
                if bool_decide (Ulib.strcmp a0 (chars "export" ++ [0]) = Some 0) then
                  match t with
                  | EXEC (_ :: arg :: _) =>
                      match export arg envs with
                      | None => Wrong "export"
                      | Some (out, r, envs) =>
                          writes out (if r <? 0 then Write 2 (chars "export failed" ++ [10]) (next envs cwd) else next envs cwd)
                      end
                  | _ => Write 2 (chars "Usage: export [-p] [NAME=VALUE]" ++ [10]) (next envs cwd)
                  end
                else fork1 (fun pid => if pid =? 0 then runcmd envs (cmd_map cstr t) else Wait (next envs cwd))
            end
        | Panic msg => panic msg
        | _ => Wrong "parsecmd"
        end
  end.
Fixpoint main_loop (turns fuel : nat) (envs : list env) (cwd : list Z) : prog :=
  match turns with
  | O => Wrong "more lines"
  | S turns' =>
      Write 2 (chars "-> " ++ cwd ++ chars " $ ") (Gets 100 (fun buf =>
        if hd 0 buf =? 0 then Exit 0
        else main_line fuel envs cwd buf (fun envs cwd => main_loop turns' fuel envs cwd)))
  end.
(** Opens the console until three descriptors are open. *)
Fixpoint open_console (turns : nat) (k : prog) : prog :=
  match turns with
  | O => Wrong "more descriptors"
  | S turns' => Dev (fun fd => if fd <? 0 then k else if 3 <=? fd then Close fd k else open_console turns' k)
  end.
Definition main (turns fuel : nat) : prog :=
  open_console turns (Getcwd (fun cwd => main_loop turns fuel [(chars "SHELL", chars "/bin")] cwd)).

(** * What a command runs, and on what *)

(** The table of open files of a process: [close] empties an entry, and
    [open], [dup] and [pipe] take the first empty ones. *)
Inductive fobj := Std (n : Z) | FileAt (path : list Z) (mode : Z) | PipeRead (n : nat) | PipeWrite (n : nat).
Abbreviation table := (list (option fobj)).
Fixpoint first_free (t : table) : nat :=
  match t with Some _ :: t' => S (first_free t') | _ => O end.
Definition fd_close (fd : Z) (t : table) : table := <[Z.to_nat fd := None]> t.
Definition fd_alloc (o : fobj) (t : table) : Z * table := (Z.of_nat (first_free t), <[first_free t := Some o]> t).
Definition fd_get (fd : Z) (t : table) : fobj := default (Std (-1)) (t !! Z.to_nat fd ≫= id).

(** The programs a process starts, with their arguments and their tables, when
    no call fails; [n] numbers the pipes.  Both sides of a [fork] run. *)
Definition started : Type := list (list Z) * table.
Fixpoint eval (p : prog) (t : table) (n : nat) : list started * nat :=
  match p with
  | Exit _ | Wrong _ | Gets _ _ | Dev _ | Chdir _ _ | Getcwd _ => ([], n)
  | Exec _ argv _ => ([(argv, t)], n)
  | Open path mode k => let '(fd, t) := fd_alloc (FileAt path mode) t in eval (k fd) t n
  | Close fd k => eval k (fd_close fd t) n
  | Dup fd k => eval k (snd (fd_alloc (fd_get fd t) t)) n
  | Pipe k =>
      let '(p0, t) := fd_alloc (PipeRead n) t in
      let '(p1, t) := fd_alloc (PipeWrite n) t in
      eval (k 0 p0 p1) t (S n)
  | Fork k =>
      let '(child, n) := eval (k 0) t n in
      let '(parent, n) := eval (k 1) t n in (child ++ parent, n)
  | Wait k | Write _ _ k => eval k t n
  end.

(** What a command should start: each program with its standard input, output
    and error. *)
Fixpoint wiring (c : cmd (list Z)) (i o e : fobj) (n : nat) : list (list (list Z) * (fobj * fobj * fobj)) * nat :=
  match c with
  | EXEC [] => ([], n)
  | EXEC argv => ([(argv, (i, o, e))], n)
  | REDIR c file mode fd =>
      if fd =? 0 then wiring c (FileAt file mode) o e n else wiring c i (FileAt file mode) e n
  | PIPE l r =>
      let '(s1, n1) := wiring l i (PipeWrite n) e (S n) in
      let '(s2, n2) := wiring r (PipeRead n) o e n1 in (s1 ++ s2, n2)
  | LIST l r =>
      let '(s1, n1) := wiring l i o e n in
      let '(s2, n2) := wiring r i o e n1 in (s1 ++ s2, n2)
  | BACK c => wiring c i o e n
  end.
(** Three open files and nothing else. *)
Definition tbl (k : nat) (f : fobj * fobj * fobj) : table :=
  let '(i, o, e) := f in Some i :: Some o :: Some e :: replicate (S (S k)) None.

(** C6. A command starts exactly the programs its tree says, with exactly the
    descriptors the shell promises: a redirection replaces standard input or
    output with the file, the two sides of a pipe meet in a pipe of their own
    (the left one's output, the right one's input), and apart from its
    standard input, output and error no program has any descriptor open, so
    no end of a pipe is left behind to keep it from closing. *)
Theorem runcmd_wires (envs : list env) (c : cmd (list Z)) (k : nat) : redirs_wf c -> forall i o e n,
  eval (runcmd envs c) (tbl k (i, o, e)) n
  = let '(s, n') := wiring c i o e n in (map (fun '(argv, f) => (argv, tbl k f)) s, n').
Proof.
  intros Hr. induction c as [argv|c IH f mode fd|l IHl r IHr|l IHl r IHr|c IH]; intros i o e n; cbn [redirs_wf] in Hr.
  - by destruct argv.
  - destruct Hr as [Hc [[-> ->]|[-> _]]]; exact (IH Hc _ _ _ n).
  - destruct Hr as [Hl Hr]. cbn [wiring].
    pose proof (IHl Hl i (PipeWrite n) e (S n)) as El. destruct (wiring l i (PipeWrite n) e (S n)) as [s1 n1].
    pose proof (IHr Hr (PipeRead n) o e n1) as Er. destruct (wiring r (PipeRead n) o e n1) as [s2 n2].
    unfold tbl in El, Er. cbn. unfold fd_close, fd_get. change (Z.to_nat (Z.of_nat 3)) with 3%nat.
    change (Z.to_nat (Z.of_nat 4)) with 4%nat. change (Z.to_nat 1) with 1%nat. change (Z.to_nat 0) with 0%nat. cbn. cbn in El, Er.
    rewrite El, Er. by rewrite app_nil_r, map_app.
  - destruct Hr as [Hl Hr]. cbn [wiring].
    pose proof (IHl Hl i o e n) as El. destruct (wiring l i o e n) as [s1 n1].
    pose proof (IHr Hr i o e n1) as Er. destruct (wiring r i o e n1) as [s2 n2].
    cbn in El, Er |- *. rewrite El, Er. by rewrite map_app.
  - cbn. pose proof (IH Hr i o e n) as E. destruct (wiring c i o e n) as [s1 n1]. cbn in E. rewrite E. by rewrite app_nil_r.
Qed.
Example runcmd_wires_witness :
  eval (runcmd [] demo_cmd) (tbl 4 (Std 0, Std 1, Std 2)) 0
  = let '(s, n') := wiring demo_cmd (Std 0) (Std 1) (Std 2) 0 in (map (fun '(argv, f) => (argv, tbl 4 f)) s, n').
Proof.
  assert (redirs_wf demo_cmd) as Hr by (cbn; unfold redir_ok; tauto).
  exact (runcmd_wires [] demo_cmd 4 Hr (Std 0) (Std 1) (Std 2) 0%nat).
Defined.
