(* ===== verification/Progs.v ===== *)
(** The small user programs: user/cat.c, echo.c, find.c, init.c, kill.c, ln.c,
    ls.c, mkdir.c, mv.c, rm.c, sleep.c, strace.c, wc.c, xargs.c, zombie.c,
    myDup3.c and grading_init.c.

    A program is the interaction tree of the system calls it makes: it may run
    for ever, as [init] does, and its loops need no fuel.  Strings are the
    arrays they lie in, from the pointer on; [argv] is the list of the argument
    strings.  A call that stores into a buffer gives the bytes it stores. *)

From S2P Require Import Prelude Strings Digits Ulib.
From ITree Require Import ITree ITreeFacts Events.State Events.StateFacts Interp.Recursion Interp.RecursionFacts.

#[export] Instance itree_ret {E} : MRet (itree E) := fun A a => ITreeDefinition.Ret a.
#[export] Instance itree_bind {E} : MBind (itree E) := fun A B f t => ITree.bind t f.

(** [struct stat] of kernel/include/stat.h, as far as the programs use it. *)
Record dstat := DStat {
  st_name : list Z;
  st_type : Z;
  st_size : Z
}.
Definition T_DIR : Z := 1.
Definition T_FILE : Z := 2.
Definition STAT_MAX_NAME : Z := 32.
Definition MAXARG : Z := 32.
Definition MAXPATH : Z := 260.
Definition O_RDWR : Z := 2.
Definition CONSOLE : Z := 1.

(** The system calls the programs make, and what ends a program otherwise.  A
    process is one branch of its [fork]s. *)
Inductive sysE : Type -> Type :=
| SysRead (fd n : Z) : sysE (Z * list Z)
| SysWrite (fd : Z) (bs : list Z) : sysE Z
| SysOpen (path : list Z) (mode : Z) : sysE Z
| SysClose (fd : Z) : sysE Z
| SysFstat (fd : Z) : sysE (Z * dstat)
| SysReaddir (fd : Z) : sysE (Z * dstat)
| SysRemove (path : list Z) : sysE Z
| SysRename (old new : list Z) : sysE Z
| SysLink (old new : list Z) : sysE Z
| SysMkdir (path : list Z) : sysE Z
| SysKill (pid : Z) : sysE Z
| SysSleep (ticks : Z) : sysE Z
| SysTrace (mask : Z) : sysE Z
| SysDev (mode major minor : Z) : sysE Z
| SysDup (fd : Z) : sysE Z
| SysDup3 (fd new : Z) : sysE Z
| SysFork : sysE Z
| SysExec (path : list Z) (argv : list (option (list Z))) : sysE Z
| SysWait : sysE Z
| SysExit (status : Z) : sysE void
| Undefined (why : string) : sysE void.

Section Calls.
Context {E : Type -> Type} `{sysE -< E}.

Definition leave {A} (status : Z) : itree E A := v ← trigger (SysExit status); match v : void with end.
Definition wrong {A} (why : string) : itree E A := v ← trigger (Undefined why); match v : void with end.
(** Undefined where the option is empty. *)
Definition opt {A} (why : string) (o : option A) : itree E A :=
  match o with Some a => mret a | None => wrong why end.

(** [vprintf], a character a call. *)
Fixpoint put_chars (fd : Z) (l : list Z) : itree E unit :=
  match l with
  | [] => mret tt
  | c :: l' => _ ← trigger (SysWrite fd [c]); put_chars fd l'
  end.
Definition pfprintf (fd : Z) (fmt : list Z) (ap : list vararg) : itree E unit :=
  o ← opt "vprintf" (vprintf_from false fmt ap); put_chars fd o.
Definition pprintf (fmt : list Z) (ap : list vararg) : itree E unit := pfprintf 1 fmt ap.

(** [for] over arguments, with an early [break]. *)
Fixpoint for_args (l : list (list Z)) (body : list Z -> itree E bool) : itree E unit :=
  match l with
  | [] => mret tt
  | a :: l' => stop ← body a; if stop : bool then mret tt else for_args l' body
  end.
End Calls.

Definition fmt (s : string) : list Z := chars s ++ [0].
Definition fmtln (s : string) : list Z := chars s ++ [10; 0].
Definition str (s : list Z) : vararg := VStr (Some s).
(** What an array of bytes holds once [bs] has been stored at its start. *)
Definition stored (bs buf : list Z) : list Z := bs ++ drop (length bs) buf.

(** * cat *)

Definition cat (fd : Z) (buf : list Z) : itree sysE (list Z) :=
  ITree.iter (fun buf =>
    '(n, bs) ← trigger (SysRead fd 512);
    let buf := stored bs buf in
    if 0 <? n then
      w ← trigger (SysWrite 1 (take (Z.to_nat n) buf));
      if negb (w =? n) then _ ← pfprintf 2 (fmtln "cat: write error") []; leave 1
      else mret (inl buf)
    else if n <? 0 then _ ← pfprintf 2 (fmtln "cat: read error") []; leave 1
    else mret (inr buf)) buf.

(** The files one after the other; the buffer is the program's. *)
Fixpoint cat_files (files : list (list Z)) (buf : list Z) : itree sysE unit :=
  match files with
  | [] => mret tt
  | f :: files' =>
      fd ← trigger (SysOpen f 0);
      if fd <? 0 then _ ← pfprintf 2 (fmtln "cat: cannot open %s") [str f]; leave 1
      else
        buf ← cat fd buf;
        _ ← trigger (SysClose fd);
        cat_files files' buf
  end.
Definition cat_main (argv : list (list Z)) : itree sysE void :=
  _ ← pprintf (fmtln "argv[0]:%s") [VStr (head argv)];
  if (length argv <=? 1)%nat then _ ← cat 0 (replicate 512 0); leave 0
  else _ ← cat_files (tail argv) (replicate 512 0); leave 0.

(** * echo *)

Fixpoint echo_args (args : list (list Z)) : itree sysE unit :=
  match args with
  | [] => mret tt
  | a :: args' =>
      n ← opt "strlen" (ustrlen a);
      _ ← trigger (SysWrite 1 (take (Z.to_nat n) a));
      _ ← trigger (SysWrite 1 (match args' with [] => [10] | _ => [32] end));
      echo_args args'
  end.
Definition echo_main (argv : list (list Z)) : itree sysE void := _ ← echo_args (tail argv); leave 0.

(** * wc *)

(** [l], [w], [c] and [inword]. *)
Definition wcst : Type := (Z * Z * Z) * Z.
Definition wc_char (s : wcst) (ch : Z) : option wcst :=
  let '((l, w, c), inword) := s in
  let c := s32 (c + 1) in
  let l := if ch =? 10 then s32 (l + 1) else l in
  b ← Ulib.strchr (chars " " ++ [13; 9; 10; 11; 0]) ch;
  Some (match b with
        | Some _ => ((l, w, c), 0)
        | None => if inword =? 0 then ((l, s32 (w + 1), c), 1) else ((l, w, c), inword)
        end).
Fixpoint wc_chars (s : wcst) (bs : list Z) : option wcst :=
  match bs with [] => Some s | ch :: bs' => s ← wc_char s ch; wc_chars s bs' end.

Definition wc (fd : Z) (name buf : list Z) : itree sysE (list Z) :=
  '(n, ((l, w, c), _), buf) ← ITree.iter (fun '(s, buf) =>
    '(n, bs) ← trigger (SysRead fd 512);
    let buf := stored bs buf in
    if 0 <? n then s ← opt "strchr" (wc_chars s (take (Z.to_nat n) buf)); mret (inl (s, buf))
    else mret (inr (n, s, buf))) (((0, 0, 0), 0), buf);
  if n <? 0 then _ ← pprintf (fmtln "wc: read error") []; leave 1
  else
    _ ← pprintf (chars "%d" ++ [9] ++ chars "%d" ++ [9] ++ chars "%d" ++ [9] ++ fmtln "%s")
          [VInt l; VInt w; VInt c; str name];
    mret buf.

Fixpoint wc_files (files : list (list Z)) (buf : list Z) : itree sysE unit :=
  match files with
  | [] => mret tt
  | f :: files' =>
      fd ← trigger (SysOpen f 0);
      if fd <? 0 then _ ← pprintf (fmtln "wc: cannot open %s") [str f]; leave 1
      else
        buf ← wc fd f buf;
        _ ← trigger (SysClose fd);
        wc_files files' buf
  end.
Definition wc_main (argv : list (list Z)) : itree sysE void :=
  if (length argv <=? 1)%nat then _ ← wc 0 [0] (replicate 512 0); leave 0
  else
    _ ← pprintf (chars "LINE" ++ [9] ++ chars "WORD" ++ [9] ++ chars "BYTE" ++ [9] ++ fmtln "FILE") [];
    _ ← wc_files (tail argv) (replicate 512 0);
    leave 0.

(** * find *)

(** The array [path] goes round; [p] is an index into it. *)
Definition find (filename : list Z) : list Z -> itree sysE (list Z) := rec (fun path =>
  fd ← trigger (SysOpen path 0);
  if fd <? 0 then _ ← pfprintf 2 (fmtln "find: cannot open %s") [str path]; mret path
  else
    '(r, st) ← trigger (SysFstat fd);
    if r <? 0 then _ ← pfprintf 2 (fmtln "find: cannot stat %s") [str path]; _ ← trigger (SysClose fd); mret path
    else if negb (st_type st =? T_DIR) then _ ← trigger (SysClose fd); mret path
    else
      n ← opt "strlen" (ustrlen path);
      if Z.of_nat (length path) <? n + 255 + 2 then
        _ ← pfprintf 2 (fmtln "find: path too long") []; _ ← trigger (SysClose fd); mret path
      else
        c ← opt "path[-1]" (if n =? 0 then None else path !! Z.to_nat (n - 1));
        let '(path, p) := if negb (c =? 47) then (<[Z.to_nat n := 47]> path, n + 1) else (path, n) in
        let p := Z.to_nat p in
        path ← ITree.iter (fun path =>
          '(r, st) ← trigger (SysReaddir fd);
          if r =? 0 then mret (inr path)
          else
            q ← opt "strcpy" (Ulib.strcpy (drop p path) (st_name st));
            let path := take p path ++ q in
            d1 ← opt "strcmp" (Ulib.strcmp q (fmt "."));
            d2 ← opt "strcmp" (if d1 =? 0 then Some 1 else Ulib.strcmp q (fmt ".."));
            if (d1 =? 0) || (d2 =? 0) then mret (inl path)
            else
              d ← opt "strcmp" (Ulib.strcmp q filename);
              _ ← (if d =? 0 then pfprintf 1 (fmtln "%s") [str path] else mret tt);
              path ← call path;
              mret (inl path)) path;
        _ ← trigger (SysClose fd);
        mret path).
Definition find_main (argv : list (list Z)) : itree sysE void :=
  match argv with
  | _ :: dir :: filename :: _ =>
      path ← opt "strcpy" (Ulib.strcpy (replicate 512 0) dir);
      _ ← find filename path;
      leave 0
  | _ => _ ← pfprintf 2 (fmtln "Usage: find DIR FILENAME") []; leave 0
  end.

(** * init, grading_init *)

(** [wait] until it gives the shell's pid. *)
Definition init_wait (pid : Z) : itree sysE unit :=
  ITree.iter (fun _ : unit =>
    wpid ← trigger SysWait;
    if wpid =? pid then mret (inr tt)
    else if wpid <? 0 then _ ← pprintf (fmtln "init: wait returned an error") []; leave 1
    else mret (inl tt)) tt.
Definition init_turn : itree sysE unit :=
  _ ← pprintf (fmtln "init: starting sh") [];
  pid ← trigger SysFork;
  if pid <? 0 then _ ← pprintf (fmtln "init: fork failed") []; leave 1
  else if pid =? 0 then
    _ ← trigger (SysExec (fmt "sh") [Some (fmt "sh"); None]);
    _ ← pprintf (fmtln "init: exec sh failed") [];
    leave 1
  else init_wait pid.
Definition init_main : itree sysE void :=
  _ ← trigger (SysDev O_RDWR CONSOLE 0);
  _ ← trigger (SysDup 0);
  _ ← trigger (SysDup 0);
  ITree.iter (fun _ : unit => _ ← init_turn; mret (inl tt)) tt.

Definition grading_init_main : itree sysE void :=
  let run s := _ ← trigger (SysExec (fmt s) [Some (fmt s); None]); leave 0 in
  _ ← trigger (SysDev O_RDWR CONSOLE 0);
  _ ← trigger (SysDup 0);
  _ ← trigger (SysDup 0);
  pid ← trigger SysFork;
  if pid =? 0 then run "test_read"
  else
    pid ← trigger SysFork;
    if pid =? 0 then run "test_uname" else ITree.spin.

(** * kill, ln, mkdir, rm, sleep, zombie, myDup3 *)

Definition kill_main (argv : list (list Z)) : itree sysE void :=
  if (length argv <? 2)%nat then _ ← pfprintf 2 (fmtln "usage: kill pid...") []; leave 1
  else
    _ ← for_args (tail argv) (fun a =>
          pid ← opt "atoi" (atoi a); _ ← trigger (SysKill pid); mret false);
    leave 0.
Definition ln_main (argv : list (list Z)) : itree sysE void :=
  match argv with
  | [_; old; new] =>
      r ← trigger (SysLink old new);
      _ ← (if r <? 0 then pfprintf 2 (fmtln "link %s %s: failed") [str old; str new] else mret tt);
      leave 0
  | _ => _ ← pfprintf 2 (fmtln "Usage: ln old new") []; leave 1
  end.
Definition mkdir_main (argv : list (list Z)) : itree sysE void :=
  if (length argv <? 2)%nat then _ ← pfprintf 2 (fmtln "Usage: mkdir files...") []; leave 1
  else
    _ ← for_args (tail argv) (fun a =>
          r ← trigger (SysMkdir a);
          if r <? 0 then _ ← pfprintf 2 (fmtln "mkdir: %s failed to create") [str a]; mret true
          else mret false);
    leave 0.
Definition rm_main (argv : list (list Z)) : itree sysE void :=
  if (length argv <? 2)%nat then _ ← pfprintf 2 (fmtln "Usage: rm files...") []; leave 1
  else
    _ ← for_args (tail argv) (fun a =>
          r ← trigger (SysRemove a);
          _ ← (if r <? 0 then pfprintf 2 (fmtln "rm: %s failed to delete") [str a] else mret tt);
          mret false);
    leave 0.
Definition sleep_main (argv : list (list Z)) : itree sysE void :=
  match argv with
  | _ :: a :: _ =>
      time ← opt "atoi" (atoi a);
      if time =? 0 then
        _ ← pfprintf 2 (chars "Usage: sleep TIME" ++ [10] ++ fmtln "TIME should be an integer larger than 0.") [];
        leave 1
      else _ ← trigger (SysSleep time); leave 0
  | _ => _ ← pfprintf 2 (fmtln "Usage: sleep TIME") []; leave 1
  end.
Definition zombie_main : itree sysE void :=
  pid ← trigger SysFork;
  _ ← (if 0 <? pid then _ ← trigger (SysSleep 5); mret tt else mret tt);
  leave 0.
Definition myDup3_main : itree sysE void :=
  _ ← pprintf (fmtln "Hello World!") [];
  fd ← trigger (SysDup3 1 100);
  _ ← pprintf (fmtln "%d") [VInt fd];
  _ ← pprintf (fmtln "the end!") [];
  leave 0.

(** * ls *)

(** [buf] is static, and every padded name is written over the one before. *)
Definition fmtname (name : list Z) : option (list Z) :=
  len ← ustrlen name;
  if STAT_MAX_NAME <=? len then Some name
  else Some (take (Z.to_nat len) name ++ replicate (Z.to_nat (STAT_MAX_NAME - len)) 32 ++ [0]).
(** [types[st.type]]: an array of three, whose first is null. *)
Definition type_name (t : Z) : option (option (list Z)) :=
  if t =? T_DIR then Some (Some (fmt "DIR ")) else if t =? T_FILE then Some (Some (fmt "FILE"))
  else if t =? 0 then Some None else None.
Definition ls_line (conv : string) (st : dstat) : itree sysE unit :=
  name ← opt "fmtname" (fmtname (st_name st));
  ty ← opt "types[st.type]" (type_name (st_type st));
  pprintf (chars "%s %s" ++ [9] ++ fmtln conv) [str name; VStr ty; VInt (st_size st)].
Definition ls (path : list Z) : itree sysE unit :=
  fd ← trigger (SysOpen path 0);
  if fd <? 0 then pfprintf 2 (fmtln "ls: cannot open %s") [str path]
  else
    '(r, st) ← trigger (SysFstat fd);
    if r <? 0 then
      _ ← pfprintf 2 (fmtln "ls: cannot stat %s") [str path]; _ ← trigger (SysClose fd); mret tt
    else
      _ ← (if st_type st =? T_DIR then
             ITree.iter (fun _ : unit =>
               '(r, st) ← trigger (SysReaddir fd);
               if r =? 1 then _ ← ls_line "%d" st; mret (inl tt) else mret (inr tt)) tt
           else ls_line "%l" st);
      _ ← trigger (SysClose fd);
      mret tt.
Definition ls_main (argv : list (list Z)) : itree sysE void :=
  if (length argv <? 2)%nat then _ ← ls (fmt "."); leave 0
  else _ ← for_args (tail argv) (fun a => _ ← ls a; mret false); leave 0.

(** * mv *)

(** The length without the slashes at the end; 0 if there is nothing else. *)
Fixpoint trim_slashes (src : list Z) (n : nat) : nat :=
  match n with
  | O => O
  | S n' => if default 0 (src !! n') =? 47 then trim_slashes src n' else n
  end.
(** The index behind the last slash among the first [n]. *)
Fixpoint base_name (src : list Z) (n : nat) : nat :=
  match n with
  | O => O
  | S n' => if default 0 (src !! n') =? 47 then n else base_name src n'
  end.
(** [while ( *ps) *pd++ = *ps++]: the array, or [None] inside when its end is
    reached. *)
Fixpoint append_at (dst : list Z) (pd : nat) (ps : list Z) : option (option (list Z)) :=
  match ps with
  | [] => None
  | c :: ps' =>
      if c =? 0 then Some (Some dst)
      else if (length dst <=? pd)%nat then None
      else
        let dst := <[pd := c]> dst in
        if (Z.to_nat MAXPATH <=? S pd)%nat then Some None else append_at dst (S pd) ps'
  end.
(** [src] and [dst] hold what the stack held. *)
Definition mv_main (junk1 junk2 : list Z) (argv : list (list Z)) : itree sysE void :=
  match argv with
  | _ :: old :: new :: _ =>
      src ← opt "strcpy" (Ulib.strcpy junk1 old);
      dst ← opt "strcpy" (Ulib.strcpy junk2 new);
      let move src dst :=
        _ ← pprintf (fmtln "moving [%s] to [%s]") [str src; str dst];
        r ← trigger (SysRename src dst);
        if r <? 0 then _ ← pfprintf 2 (fmtln "mv: fail to rename %s to %s!") [str src; str dst]; leave (-1)
        else leave 0 in
      fd ← trigger (SysOpen dst 0);
      if fd <? 0 then move src dst
      else
        '(_, st) ← trigger (SysFstat fd);
        _ ← trigger (SysClose fd);
        if st_type st =? T_DIR then
          n ← opt "strlen" (ustrlen src);
          let k := trim_slashes src (Z.to_nat n) in
          let src := if (k =? 0)%nat then src else <[k := 0]> src in
          let ps := base_name src k in
          m ← opt "strlen" (ustrlen dst);
          r ← opt "mv" (append_at (<[Z.to_nat m := 47]> dst) (S (Z.to_nat m)) (drop ps src));
          match r with
          | None =>
              _ ← pfprintf 2 (fmtln "mv: fail! final dst path too long (exceed MAX=%d)!") [VInt MAXPATH];
              leave (-1)
          | Some dst => move src dst
          end
        else _ ← pfprintf 2 (fmtln "mv: fail! %s exists!") [str dst]; leave (-1)
  | _ => _ ← pfprintf 2 (fmtln "Usage: mv old_name new_name") []; leave 1
  end.

(** * strace *)

(** [nargv], as far as it is written: nothing ends it. *)
Definition strace_main (argv : list (list Z)) : itree sysE void :=
  match argv with
  | a0 :: mask :: cmd :: args =>
      mask ← opt "atoi" (atoi mask);
      r ← trigger (SysTrace mask);
      if r <? 0 then _ ← pfprintf 2 (fmtln "%s: strace failed") [str a0]; leave 1
      else
        _ ← trigger (SysExec cmd (Some <$> take (Z.to_nat (MAXARG - 2)) (cmd :: args)));
        _ ← pprintf (fmtln "strace: exec %s fail") [str cmd];
        leave 0
  | _ => _ ← pfprintf 2 (fmtln "usage: %s MASK COMMAND") [VStr (head argv)]; leave 1
  end.

(** * xargs *)

(** The buffer and the index [p]; a byte is stored before [p] is compared. *)
Definition readline (fd : Z) (buf : list Z) (len : Z) : itree sysE (Z * list Z) :=
  ITree.iter (fun '(buf, p) =>
    '(n, bs) ← trigger (SysRead fd 1);
    buf ← opt "readline: *p" (match bs with
      | [] => Some buf
      | c :: _ => if Z.of_nat (length buf) <=? p then None else Some (<[Z.to_nat p := c]> buf) end);
    if (n =? 0) || (len <=? p) then mret (inr (p, buf))
    else if default 0 (buf !! Z.to_nat p) =? 10 then
      if p =? 0 then mret (inl (buf, p)) else mret (inr (p, <[Z.to_nat p := 0]> buf))
    else mret (inl (buf, p + 1))) (buf, 0).
Definition xargs_run (cmd : list Z) (argvs : list (option (list Z))) : itree sysE unit :=
  pid ← trigger SysFork;
  if pid =? 0 then
    _ ← trigger (SysExec cmd argvs);
    _ ← pprintf (fmtln "xargs: exec %s fail") [str cmd];
    leave 0
  else _ ← trigger SysWait; mret tt.
(** [argvs] has MAXARG elements. *)
Definition xargs_main (junk : list Z) (argv : list (list Z)) : itree sysE void :=
  match argv with
  | _ :: (cmd :: _) as args =>
      if MAXARG <? Z.of_nat (length args) then wrong "xargs: argvs"
      else
        '(n, buf) ← readline 0 junk 128;
        if MAXARG <? Z.of_nat (length args) + 1 then wrong "xargs: argvs"
        else if n =? 0 then _ ← xargs_run cmd ((Some <$> args) ++ [None]); leave 0
        else if MAXARG <? Z.of_nat (length args) + 2 then wrong "xargs: argvs"
        else
          _ ← ITree.iter (fun buf =>
                _ ← xargs_run cmd ((Some <$> args) ++ [Some buf; None]);
                '(n, buf) ← readline 0 buf 128;
                mret (if n =? 0 then inr tt else inl buf)) buf;
          leave 0
  | _ => _ ← pfprintf 2 (fmtln "Usage: xargs COMMAND [INITIAL-ARGS]...") []; leave (-1)
  end.
