(* ===== verification/ProgFacts.v ===== *)
(** What [cat] and [wc] do, whatever the reads give them at a time: their
    interaction trees run against a system that answers the calls. *)

From S2P Require Import Prelude Strings Digits Ulib Progs.
From ITree Require Import ITree ITreeFacts Events.State Events.StateFacts Interp.Recursion Interp.RecursionFacts.

(** * Lines, words and bytes *)

Definition space (c : Z) : bool := bool_decide (c ∈ [32; 13; 9; 10; 11]).
Definition lines_in (s : list Z) : Z := Z.of_nat (length (filter (fun c => c = 10) s)).
(** A word starts at [i]: no space there, and one before it, or nothing. *)
Definition word_at (s : list Z) (i : nat) : bool :=
  negb (space (default 0 (s !! i))) && match i with O => true | S j => space (default 0 (s !! j)) end.
Definition words_in (s : list Z) : Z := Z.of_nat (length (filter (fun i => word_at s i = true) (seq 0 (length s)))).
(** The text ends inside a word. *)
Definition inside (s : list Z) : Z :=
  match last s with Some c => if space c then 0 else 1 | None => 0 end.

Lemma strchr_in l ch : Forall (fun c => c <> 0) l -> exists b, Ulib.strchr (l ++ [0]) ch = Some b /\
  bool_decide (ch ∈ l) = match b with Some _ => true | None => false end.
Proof.
  induction 1 as [|c l Hc _ (b & E & Hb)]; [by exists None|]. cbn [app Ulib.strchr].
  rewrite (proj2 (Z.eqb_neq c 0)) by done. destruct (Z.eqb_spec c ch) as [->|Hne].
  - exists (Some 0). split; [done|]. apply bool_decide_eq_true_2. by left.
  - rewrite E. exists (option_map Z.succ b). split; [done|]. transitivity (bool_decide (ch ∈ l)).
    + apply bool_decide_ext. rewrite elem_of_cons. naive_solver.
    + rewrite Hb. by destruct b.
Qed.

Lemma word_at_app s t i : (i < length s)%nat -> word_at (s ++ t) i = word_at s i.
Proof.
  intros Hi. unfold word_at. rewrite lookup_app_l by done. destruct i as [|j]; [done|].
  by rewrite lookup_app_l by lia.
Qed.
Lemma words_snoc s c : words_in (s ++ [c]) = words_in s + (if negb (space c) && (inside s =? 0) then 1 else 0).
Proof.
  unfold words_in. rewrite length_app. cbn [length]. rewrite Nat.add_1_r, seq_S, filter_app, length_app, Nat2Z.inj_add.
  f_equal.
  - assert (Forall (fun i => (i < length s)%nat) (seq 0 (length s))) as Hs
      by (apply Forall_forall; intros i Hi%elem_of_seq; lia).
    do 2 f_equal. induction Hs as [|i l Hi _ IH]; [done|]. rewrite !filter_cons, word_at_app by done. by case_decide; cbn; rewrite ?IH.
  - cbn [Nat.add]. assert (word_at (s ++ [c]) (length s) = negb (space c) && (inside s =? 0)) as E.
    { unfold word_at, inside. rewrite list_lookup_middle by done. cbn [default from_option id]. f_equal.
      rewrite last_lookup. destruct s as [|x s]; [done|]. cbn [length pred]. rewrite lookup_app_l by (cbn; lia).
      destruct ((x :: s) !! length s) as [y|] eqn:Ey; [cbn; by destruct (space y)|].
      apply lookup_ge_None in Ey. cbn in Ey. lia. }
    rewrite filter_cons, E. by destruct (negb _ && _).
Qed.

Lemma wc_chars_app s a b : wc_chars s (a ++ b) = s' ← wc_chars s a; wc_chars s' b.
Proof. revert s. induction a as [|c a IH]; intros s; [done|]. cbn. destruct (wc_char s c); [apply IH|done]. Qed.

(** [wc]'s counters after the text [s]. *)
Definition counts (s : list Z) : wcst := ((lines_in s, words_in s, Z.of_nat (length s)), inside s).
Lemma words_le s : 0 <= words_in s <= Z.of_nat (length s).
Proof.
  unfold words_in. pose proof (length_filter (fun i => word_at s i = true) (seq 0 (length s))).
  rewrite length_seq in *. lia.
Qed.
Lemma lines_le s : 0 <= lines_in s <= Z.of_nat (length s).
Proof. unfold lines_in. pose proof (length_filter (fun c => c = 10) s). lia. Qed.
Lemma wc_counted s : Z.of_nat (length s) < 2 ^ 31 -> wc_chars ((0, 0, 0), 0) s = Some (counts s).
Proof.
  induction s as [|c s IH] using rev_ind; intros Hl; [done|]. rewrite length_app in Hl. cbn [length] in Hl.
  rewrite wc_chars_app, IH by lia. cbn [wc_chars mbind option_bind counts wc_char].
  pose proof (words_le s). pose proof (lines_le s). rewrite !s32_small by lia.
  destruct (strchr_in [32; 13; 9; 10; 11] c) as (b & E & Hb); [by repeat constructor|].
  change (chars " " ++ [13; 9; 10; 11; 0]) with ([32; 13; 9; 10; 11] ++ [0]). rewrite E. cbn [mbind option_bind].
  unfold counts. rewrite words_snoc, length_app. unfold lines_in, inside. rewrite filter_app, last_snoc, length_app.
  assert (space c = match b with Some _ => true | None => false end) as -> by exact Hb. rewrite filter_cons, filter_nil.
  assert ((if c =? 10 then Z.of_nat (length (filter (fun c => c = 10) s)) + 1
    else Z.of_nat (length (filter (fun c => c = 10) s)))
    = Z.of_nat (length (filter (fun c => c = 10) s) + length (if decide (c = 10) then [c] else []))) as ->.
  { unfold lines_in in *. destruct (Z.eqb_spec c 10); [rewrite decide_True by done; cbn; lia|].
    rewrite decide_False by done. cbn. lia. }
  f_equal. destruct b as [z|]; cbn [negb andb length].
  - rewrite Z.add_0_r. do 2 f_equal. lia.
  - destruct (match last s with Some c => if space c then 0 else 1 | None => 0 end =? 0) eqn:Ei.
    + do 2 f_equal. lia.
    + rewrite Z.add_0_r. do 2 f_equal; [lia|].
      by destruct (last s) as [x|]; [destruct (space x)|].
Qed.

(** * Running a program *)

Section Run.
Context {K : Type} (h : forall A, sysE A -> K -> itree void1 (K * A)).

(** From the system [k], [t] ends with [a], and the system is [k']. *)
Definition runs_to {A} (t : itree sysE A) (k : K) (a : A) (k' : K) : Prop :=
  eutt eq (interp_state h t k) (ITreeDefinition.Ret (k', a)).

Lemma runs_ret {A} (a : A) k : runs_to (mret a) k a k.
Proof. unfold runs_to, mret, itree_ret. by rewrite interp_state_ret. Qed.
Lemma runs_bind {A B} (t : itree sysE A) (f : A -> itree sysE B) k a k1 b k2 :
  runs_to t k a k1 -> runs_to (f a) k1 b k2 -> runs_to (t ≫= f) k b k2.
Proof.
  unfold runs_to, mbind, itree_bind. intros H1 H2. rewrite interp_state_bind, H1, bind_ret_l. exact H2.
Qed.
Lemma runs_call {A} (e : sysE A) k a k' :
  h A e k = ITreeDefinition.Ret (k', a) -> runs_to (trigger e) k a k'.
Proof. unfold runs_to. intros E. rewrite <- E. exact (interp_state_trigger e h k). Qed.
Lemma runs_opt {A} why (o : option A) a k : o = Some a -> runs_to (opt why o) k a k.
Proof. intros ->. apply runs_ret. Qed.
Lemma runs_again {A B} (body : A -> itree sysE (A + B)) x y b k k1 k2 :
  runs_to (body x) k (inl y) k1 -> runs_to (ITree.iter body y) k1 b k2 -> runs_to (ITree.iter body x) k b k2.
Proof.
  intros H1 H2. unfold runs_to in *. rewrite unfold_iter, interp_state_bind, H1, bind_ret_l. cbn.
  by rewrite interp_state_tau, tau_eutt.
Qed.
Lemma runs_done {A B} (body : A -> itree sysE (A + B)) x b k k1 :
  runs_to (body x) k (inr b) k1 -> runs_to (ITree.iter body x) k b k1.
Proof.
  intros H1. unfold runs_to in *. rewrite unfold_iter, interp_state_bind, H1, bind_ret_l. cbn.
  by rewrite interp_state_ret.
Qed.

(** * A stream in, a stream out *)

(** Descriptor [fd] reads a stream: while there is input, a read that asks for
    something gets at least one byte and at most what it asked for; what is
    written to descriptor 1 is appended to the output. *)
Class Flow (fd : Z) (input output : K -> list Z) : Prop := {
  flow_read : forall n k, 0 <= n -> exists bs k',
    h _ (SysRead fd n) k = ITreeDefinition.Ret (k', (Z.of_nat (length bs), bs)) /\
    Z.of_nat (length bs) <= n /\ input k = bs ++ input k' /\ output k' = output k /\
    (bs = [] -> n = 0 \/ input k = []);
  flow_write : forall bs k, exists k',
    h _ (SysWrite 1 bs) k = ITreeDefinition.Ret (k', Z.of_nat (length bs)) /\
    input k' = input k /\ output k' = output k ++ bs
}.

Context (fd : Z) (input output : K -> list Z) `{!Flow fd input output}.

Lemma runs_put l k : exists k', runs_to (put_chars 1 l) k tt k' /\ input k' = input k /\ output k' = output k ++ l.
Proof using Flow0.
  revert k. induction l as [|c l IH]; intros k.
  - exists k. split; [apply runs_ret|]. by rewrite app_nil_r.
  - destruct (flow_write [c] k) as (k1 & E & Hi & Ho). destruct (IH k1) as (k2 & R & Hi2 & Ho2).
    exists k2. split; [|split; [by rewrite Hi2|by rewrite Ho2, Ho, <- app_assoc]].
    cbn [put_chars]. eapply runs_bind; [by apply runs_call|exact R].
Qed.
Lemma runs_printf f ap o k : vprintf_from false f ap = Some o ->
  exists k', runs_to (pprintf f ap) k tt k' /\ input k' = input k /\ output k' = output k ++ o.
Proof using Flow0.
  intros E. destruct (runs_put o k) as (k' & R & H). exists k'. split; [|exact H].
  eapply runs_bind; [by apply runs_opt|exact R].
Qed.

Lemma take_stored bs buf : take (length bs) (stored bs buf) = bs.
Proof using Type. apply take_app_length. Qed.

(** [cat] copies its input to its output. *)
Lemma cat_copies buf k : exists buf' k',
  runs_to (Progs.cat fd buf) k buf' k' /\ input k' = [] /\ output k' = output k ++ input k.
Proof using Flow0.
  remember (length (input k)) as m eqn:Hm. revert buf k Hm.
  induction (lt_wf m) as [m _ IH]. intros buf k ->.
  destruct (flow_read 512 k ltac:(done)) as (bs & k1 & E & Hl & Hi & Ho & H0).
  destruct bs as [|c bs].
  - destruct (H0 eq_refl) as [?|Hnil]; [done|]. exists (stored [] buf), k1.
    split; [|split; [by rewrite Hnil in Hi|by rewrite Ho, Hnil, app_nil_r]].
    apply runs_done. eapply runs_bind; [by apply runs_call|]. apply runs_ret.
  - set (b := c :: bs) in *. destruct (flow_write b k1) as (k2 & E2 & Hi2 & Ho2).
    destruct (IH (length (input k2)) ltac:(rewrite Hi, Hi2, length_app; cbn; lia) (stored b buf) k2 eq_refl)
      as (buf' & k' & R & Hi' & Ho').
    exists buf', k'. split; [|split; [done|by rewrite Ho', Ho2, Ho, Hi2, Hi, <- app_assoc]].
    eapply runs_again; [|exact R]. eapply runs_bind; [by apply runs_call|]. cbn beta iota zeta.
    rewrite (proj2 (Z.ltb_lt 0 _)) by (cbn; lia). rewrite Nat2Z.id, take_stored.
    eapply runs_bind; [by apply runs_call|]. rewrite Z.eqb_refl. apply runs_ret.
Qed.

(** The text of a number. *)
Definition num (z : Z) : list Z := default [] (uint_chars z 10 true).
Lemma num_text z : uint_chars z 10 true = Some (num z).
Proof using Type. destruct (printint_atoi z []) as (o & E & _). unfold num. by rewrite E. Qed.

(** The line [wc] prints for the text [s] of a file. *)
Definition wc_line (s name : list Z) : list Z :=
  num (lines_in s) ++ [9] ++ num (words_in s) ++ [9] ++ num (Z.of_nat (length s)) ++ [9] ++ name ++ [10].
Lemma wc_format s name rest : Forall (fun c => c <> 0) name ->
  vprintf_from false (chars "%d" ++ [9] ++ chars "%d" ++ [9] ++ chars "%d" ++ [9] ++ fmtln "%s")
    [VInt (lines_in s); VInt (words_in s); VInt (Z.of_nat (length s)); str (name ++ 0 :: rest)] = Some (wc_line s name).
Proof using Type.
  intros Hn. assert (cstr (name ++ 0 :: rest) = Some name) as Hc by (induction Hn as [|c name Hc _ IH]; [done|];
    cbn [app cstr]; rewrite (proj2 (Z.eqb_neq c 0)), IH by done; done).
  unfold wc_line, str, fmtln. generalize (lines_in s), (words_in s), (Z.of_nat (length s)). intros a b c.
  change (chars "%d") with [37; 100]. change (chars "%s" ++ [10; 0]) with [37; 115; 10; 0].
  do 3 (cbn [app vprintf_from Z.eqb Pos.eqb negb uconv va_int mbind option_bind]; rewrite num_text).
  cbn [app vprintf_from Z.eqb Pos.eqb negb uconv va_str mbind option_bind fmap option_fmap option_map].
  rewrite Hc. done.
Qed.

(** The loop of [wc], which has counted [pre] so far. *)
Lemma runs_wc_loop body buf pre k :
  body = (fun '(s, buf) =>
    '(n, bs) ← trigger (SysRead fd 512);
    let buf := stored bs buf in
    if 0 <? n then s ← opt "strchr" (wc_chars s (take (Z.to_nat n) buf)); mret (inl (s, buf))
    else mret (inr (n, s, buf))) ->
  Z.of_nat (length (pre ++ input k)) < 2 ^ 31 -> exists buf' k',
  runs_to (ITree.iter body (counts pre, buf)) k (0, counts (pre ++ input k), buf') k'
  /\ input k' = [] /\ output k' = output k.
Proof using Flow0.
  intros Eb. remember (length (input k)) as m eqn:Hm. revert buf pre k Hm.
  induction (lt_wf m) as [m _ IH]. intros buf pre k -> Hl.
  destruct (flow_read 512 k ltac:(done)) as (bs & k1 & E & Hn & Hi & Ho & H0).
  destruct bs as [|c bs].
  - destruct (H0 eq_refl) as [?|Hnil]; [done|]. exists (stored [] buf), k1. rewrite Hnil, app_nil_r.
    split; [|split; [by rewrite Hnil in Hi|done]]. apply runs_done. subst body.
    eapply runs_bind; [by apply runs_call|]. apply runs_ret.
  - set (b := c :: bs) in *. rewrite Hi, app_assoc in Hl.
    destruct (IH (length (input k1)) ltac:(rewrite Hi, length_app; cbn; lia) (stored b buf) (pre ++ b) k1 eq_refl Hl)
      as (buf' & k' & R & Hi' & Ho').
    exists buf', k'. rewrite Hi, app_assoc. split; [|split; [done|by rewrite Ho', Ho]].
    eapply runs_again; [|exact R]. subst body. eapply runs_bind; [by apply runs_call|]. cbn beta iota zeta.
    rewrite (proj2 (Z.ltb_lt 0 _)) by (cbn; lia). rewrite Nat2Z.id, take_stored.
    eapply runs_bind; [apply runs_opt|apply runs_ret].
    rewrite !length_app in Hl. pose proof (wc_counted (pre ++ b) ltac:(rewrite length_app; lia)) as Hc.
    by rewrite wc_chars_app, wc_counted in Hc by lia.
Qed.
End Run.

(** C39. [wc] prints the lines, the words and the bytes of a file, and [cat]
    copies it, whatever number of bytes each read gives: the counts are those of
    the whole text (a word starts at a byte that is no space and has a space, or
    nothing, before it), also where a read cuts a word in two, and each ends when
    the input is at its end. *)
Theorem wc_counts {K : Type} (h : forall A, sysE A -> K -> itree void1 (K * A)) (fd : Z) (input output : K -> list Z)
    `{!Flow h fd input output} (name rest buf : list Z) (k : K) :
  Forall (fun c => c <> 0) name -> Z.of_nat (length (input k)) < 2 ^ 31 ->
  (exists buf' k', runs_to h (wc fd (name ++ 0 :: rest) buf) k buf' k' /\ input k' = []
     /\ output k' = output k ++ wc_line (input k) name)
  /\ (exists buf' k', runs_to h (Progs.cat fd buf) k buf' k' /\ input k' = [] /\ output k' = output k ++ input k).
Proof.
  intros Hn Hl. split; [|by apply cat_copies].
  destruct (runs_wc_loop h fd input output _ buf [] k eq_refl Hl) as (buf' & k1 & R & Hi & Ho).
  destruct (runs_printf h fd input output _ _ _ k1 (wc_format (input k) name rest Hn)) as (k2 & R2 & Hi2 & Ho2).
  exists buf', k2. split; [|split; [by rewrite Hi2|by rewrite Ho2, Ho]].
  unfold wc. eapply runs_bind; [exact R|]. cbn beta iota zeta. cbn [app counts].
  eapply runs_bind; [exact R2|apply runs_ret].
Qed.

(** A terminal that gives at most seven bytes a read, and what was written. *)
Definition seven (n : Z) (i : list Z) : list Z := take (Nat.min 7 (Z.to_nat n)) i.
Definition terminal (A : Type) (e : sysE A) : list Z * list Z -> itree void1 ((list Z * list Z) * A) :=
  match e in sysE A return list Z * list Z -> itree void1 ((list Z * list Z) * A) with
  | SysRead _ n => fun '(i, o) =>
      ITreeDefinition.Ret ((drop (length (seven n i)) i, o), (Z.of_nat (length (seven n i)), seven n i))
  | SysWrite _ bs => fun '(i, o) => ITreeDefinition.Ret ((i, o ++ bs), Z.of_nat (length bs))
  | _ => fun _ => ITree.spin
  end.
#[export] Instance terminal_flow : Flow terminal 0 fst snd.
Proof.
  split.
  - intros n [i o] Hn. exists (seven n i). eexists. split; [done|]. cbn [fst snd]. unfold seven.
    set (j := Nat.min 7 (Z.to_nat n)). rewrite length_take. split; [lia|]. split; [|split; [done|]].
    + rewrite <- (take_drop j i) at 1. f_equal.
      destruct (decide (j <= length i)%nat); [by rewrite Nat.min_l|by rewrite !drop_ge by lia].
    + intros E. destruct i as [|c i]; [by right|left]. destruct j as [|j'] eqn:Ej; [lia|done].
  - intros bs [i o]. eexists. split; [done|]. done.
Qed.

Definition two_lines : list Z := chars "one two" ++ [10] ++ chars "three".
Example two_lines_line : wc_line two_lines (chars "f") = chars "1" ++ [9] ++ chars "3" ++ [9] ++ chars "13" ++ [9; 102; 10].
Proof. vm_compute. reflexivity. Qed.

Lemma wc_counts_witness :
  (exists buf' k', runs_to terminal (wc 0 (literal "f") (replicate 512 0)) (two_lines, []) buf' k' /\ k'.1 = []
     /\ k'.2 = [] ++ wc_line two_lines (chars "f"))
  /\ (exists buf' k', runs_to terminal (Progs.cat 0 (replicate 512 0)) (two_lines, []) buf' k' /\ k'.1 = []
     /\ k'.2 = [] ++ two_lines).
Proof.
  exact (wc_counts terminal 0 fst snd (chars "f") [] (replicate 512 0) (two_lines, [])
    ltac:(by repeat constructor) ltac:(done)).
Defined.
